(* ===== verification/_CoqProject ===== *)
-Q . S2P
Prelude.v
GoStrings.v
GoTime.v
ConnectionTelemetry.v
Collector.v
NodeOperations.v
AgentOperations.v
Reporting.v
Traffic.v
Paths.v
PathResolve.v
UpdateGuard.v
Ingest.v
Effects.v
Campaigns.v
CampaignSafety.v
CampaignRollout.v
ConfigVersions.v
ConfigCycle.v
Series.v
TrafficSeries.v
PathGrants.v
PathAccess.v
GrantSafety.v
Updater.v
ReleasePaths.v
UpdaterSafety.v
UpdaterOutcome.v
Render.v
RenderSafety.v
Deletion.v
DeletionSafety.v
DeletionPreview.v
Publication.v
PublicationSafety.v
Names.v
Inventory.v
InventorySteps.v
InventorySafety.v
InventoryHosts.v
Users.v
UserSafety.v
UserRecords.v
ServedUsers.v
GoNet.v
Catalog.v
CatalogGen.v
CatalogLookup.v
CatalogUpstream.v
CatalogText.v
CatalogSafety.v
ServiceUsage.v
ServiceUsageSafety.v
MihomoCompile.v
MihomoMerge.v
MihomoValidate.v
MihomoGraph.v
MihomoLists.v
MihomoSafety.v
MihomoBounds.v
