(* ===== verification/Prelude.v ===== *)
(** * BoxFleet: a verification development

    BoxFleet runs sing-box proxies on a fleet of nodes.  A control server
    (src/internal/server) keeps users, nodes, proxies, paths and the queue of
    node operations in SQLite and serves an HTTP API; an agent on every node
    (src/internal/agent) polls the server, applies configurations, executes
    operations such as updates, and reports traffic and connection telemetry.
    This development models the parts of both whose correctness is not visible
    from one function at a time: protocols that must survive lost requests and
    crashes, state machines, accounting, graph resolution, who may use what,
    and what a change of the inventory does to the rest.

    ** The files and what they model

    Foundations:
    - [Prelude]: errors as [result], 64-bit integers with wrap-around and the
      congruence [eq64], strings as bytes with their order, lemmas on lists,
      maps and transition systems, and the tactics the other files share.
    - [GoStrings]: what the source uses of Go's strings, strconv and net
      packages (TrimSpace, ToLower, Split, FormatInt, SplitHostPort...).
      Unicode case tables are the class [UnicodeTables].
    - [GoTime]: instants as nanoseconds, the proleptic Gregorian calendar, the
      layouts used by the source, Format and Parse, and the agreement between
      the order of instants and the order of their texts.
    - [Effects]: the monad of code that threads a state and may fail, its
      loops, and the rules by which relations between states survive a run.

    The agent:
    - [ConnectionTelemetry]: src/internal/model/connection_telemetry.go, the
      buckets the agent reports and their Normalize, DimensionKey and Merge.
    - [Collector]: src/internal/agent/connections.go, the fold of sing-box's
      connection events into buckets ([apply] is the handler of one batch,
      [apply_event] of one event, [Drain] the hand-over), with the endpoint
      splitting of src/internal/singboxapi/client.go.
    - [AgentOperations]: src/internal/agent/operations.go, the outbox of
      operation events and the executor, calling [NodeOperations] through the
      HTTP status mapping of src/internal/server/api/node_operations.go.
    - [Reporting]: the protocol of the two periodic reports (stage, post,
      forget) against the interface [Sink] of an ingestion that ignores
      repeated sequence numbers.
    - [UpdateGuard]: src/internal/agent/update_guard.go and service_files.go,
      the guard that rolls back an agent that does not confirm its update.
    - [ConfigCycle]: [once] of src/internal/agent/agent.go, fetching a
      configuration, checking it, the verified restart and the rollback.
    - [Updater], [ReleasePaths], [UpdaterSafety], [UpdaterOutcome]:
      src/internal/agent/updater.go, the update of the agent and of sing-box
      over a disk of files and links; every state of the disk a crash could
      leave is among [w_past].

    The server:
    - [NodeOperations]: src/internal/server/db/node_operations.go and the SQL of
      store/sqlc/node_operations.sql.go, the operation queue.  A row is a
      [spec] fixed at creation and a [prog] that changes; every statement is a
      function on [tables] with the server's clock and SQLite's clock as
      separate arguments.  [any_step] interleaves all requests.
    - [Campaigns], [CampaignSafety], [CampaignRollout]:
      src/internal/server/api/update_campaigns.go over db/node_update_campaigns.go
      and the queue, statement by statement, with faults and with other requests
      between any two statements.
    - [ConfigVersions]: src/internal/server/db/config_versions.go and heartbeats.
    - [Traffic]: ReportTraffic of src/internal/agent/agent.go and
      RecordTrafficReport of src/internal/server/db/traffic.go, which
      implements [Sink].
    - [Ingest]: src/internal/server/db/connection_events.go, the ingestion of
      the collector's reports ([RecordConnectionReport]) over the statements of
      store/sqlc/connection_events.sql.go and the constraints of the schema,
      and its handler (api/node_connection_events.go).
    - [Series], [TrafficSeries]: src/internal/server/db/series_common.go and
      traffic_series.go, the calendar buckets of the charts in Go and in SQL, and
      the traffic charts over the ledger of [Traffic].
    - [Paths]: src/internal/server/db/paths.go, publications of endpoints and
      their dialer graph, and which credentials a user keeps.
    - [PathGrants], [PathAccess], [GrantSafety]: path_groups.go, path_selection.go
      and the grants of paths.go, proxy_credentials.go and bindings.go: the
      sources of access, their reconciliation with the accesses, the credentials
      they provision, and the change of a group with its preview.
    - [PathResolve]: src/internal/server/pathresolve/resolve.go, which paths a
      subscription publishes; it reads the tables of [Paths].
    - [Render], [RenderSafety]: src/internal/server/render/render.go, the
      configuration of a node, a user's connection page, his Mihomo provider
      document and the configuration of a sing-box client, from the rows of
      [Paths] and [PathGrants] through [PathResolve].
    - [Deletion], [DeletionSafety], [DeletionPreview]:
      src/internal/server/db/deletion.go and the soft deletions of proxies.go and
      nodes.go over the tables of [PathGrants], with the preview of a deletion.
    - [Publication], [PublicationSafety]: the endpoints and managed paths of
      src/internal/server/db/paths.go, and the rows of the site with its
      publication settings and agent tokens ([fleet]).
    - [Names]: the abstract specification of names and aliases.
    - [Inventory], [InventorySteps], [InventorySafety], [InventoryHosts]:
      src/internal/server/db/nodes.go and proxies.go.  [handle] runs one request
      of the administration as the code does, [serve] a series of them;
      [InventorySteps] shows each to be a sequence of [step]s.
    - [Users], [UserSafety], [UserRecords]: src/internal/server/db/users.go and
      users.sql.go.  [directory] is the store of [PathGrants] with the accounts,
      [handle_user] one request; [UserSafety.directory_step] lets the requests
      and the operations on grants alternate.
    - [ServedUsers]: [Render] against [Users], expiries included.
    - [Catalog], [CatalogLookup]: src/internal/servicecatalog/catalog.go, reading
      the dataset ([parse]), the operators' overrides and [Classify]; the public
      suffix list is a parameter.
    - [CatalogGen], [CatalogUpstream], [CatalogText], [CatalogSafety]:
      src/internal/servicecatalog/gen/main.go, the expansion of the upstream
      lists ([expand]), the claims and their pruning ([build]) and the text it
      writes ([write]), which [CatalogText] reads back with [Catalog.parse].
    - [ServiceUsage], [ServiceUsageSafety]: src/internal/server/db/service_usage.go,
      the breakdown of connections by service or category and the overrides table.
    - [MihomoCompile], [MihomoMerge], [MihomoBounds]:
      src/internal/server/mihomo/compiler.go, the rewrites of a profile ([mergeMap]
      for YAML patches, scripts) and its limits.  The YAML and JSON codecs and the
      engine that runs the scripts are parameters.
    - [MihomoValidate], [MihomoGraph], [MihomoLists], [MihomoSafety]:
      src/internal/server/mihomo/validate.go, the diagnostics of a profile and the
      depth-first searches for cycles of groups and of dialers.
    - [GoNet]: what these use of Go's net package (ParseIP and IP.String, as
      net/netip computes them), and more of strings.

    ** What the theorems show

    - The queue: at most one active operation per node, terminal rows never
      change, event logs have no gap, an earlier attempt is fenced off, a live
      lease excludes a second executor, creation and event reports can be
      repeated; by rule induction over [any_step] for everything said of
      reachable tables.  One theorem shows a row that can never finish.
    - Campaigns: batches are released in order and within their bounds, under
      any interleaving; a member that was skipped never executes again.
    - The outbox: a simulation between the agent's state and the server's log
      (the relation the lemmas of [AgentOperations] maintain) shows that the
      two never conflict, and that an accepted report is in the log; another
      theorem exhibits an interruption that loses a terminal event.
    - Configurations: one published version per node; a failed configuration is
      never recorded as applied; after a failed restart the previous bytes run
      again; a healthy cycle converges.
    - Updates: wherever an update ends or crashes, the link leads to the bytes in
      use before or to a verified candidate, and an agent that does not come back
      is rolled back by its guard within three starts; for first attempts to
      install another version.  A resumed update of sing-box and a republished
      version lose the old bytes, as a theorem and an example show.
    - The collector: conservation of bytes modulo 2^64, accounting of a close
      once, memory bounds, idempotence of replays, completeness of [Drain].
    - Telemetry values: Normalize yields well-formed buckets and is idempotent
      on ordinary ones, DimensionKey identifies, Merge converges, instants
      compare as their texts.
    - Traffic: exactly-once metering from the counters to the ledger under any
      loss, totals that agree with the ledger, and charts that lose no row of it
      whose time is written as Go writes it; Go and SQL cut time into the same buckets.
    - Ingestion of connection reports: accepted buckets are within bounds, no
      content makes a report fail, repeated reports change nothing, and the
      rows of sessions converge to the agent's own [Merge].
    - Access: the graph of paths stays acyclic; users may use exactly what their
      sources say, whatever sequence of grants, selections and group changes;
      revoked secrets and disabled credentials never come back by themselves; a
      group change carried out with the token of a preview, at whatever later
      time, is the one previewed and does what the preview said.
    - Subscriptions: resolution is fail-closed, ordered and complete; what a
      client is told is served by the node it is told to use; documents do not
      depend on anybody else's secrets; the depth limit is shown to be enforced
      neither on dependents nor on cached paths.
    - Deletions: nothing live leads to what is deleted, nothing else is lost, and
      the preview announces exactly what happens (but for credentials needed only
      through a disabled path, which it announces as disabled although they stay).
    - The guard: bounded starts, rollback, snapshot of the service files, and
      confirmation only by a heartbeat, under any file-system failure.
    - The inventory: managed paths follow the selected hosts, and editing them
      creates no source of access; requests implement [Names], so names and
      aliases never collide and an old name goes on leading to its resource; the
      listeners of a node never conflict; an edit of a node keeps the ids of its
      hosts and the hosts in use.  Restoring a deleted proxy breaks the rules of
      names, as two closed theorems show.
    - Users: live users hold exactly what they are granted and everybody else
      nothing; no secret survives a deletion; references to users are stable; an
      update is a patch of the fields given; comparing expiries as texts is
      comparing instants, for years of four digits.  Two closed findings: the end
      of the year 9999 west of Greenwich counts as past, and users who have
      expired are still served.
    - Whom a node serves: everybody it owes an account, an active user whose
      expiry has not passed, and nobody else once the statuses of those who have
      expired say so; which nothing sees to.
    - The service catalogue: expansion is reachability along inclusions, cycles
      and all; what the generator prunes is of no consequence, and what it writes
      is read back, so that classification is that of the first upstream list a
      domain is in; the longest rule decides.  A breakdown counts every host
      and connection once.
    - Mihomo profiles: a patch whose keys name different fields acts field by
      field in whatever order Go walks its maps (and one that names a field twice
      does not, as a closed theorem shows); Validate reports nothing exactly for
      profiles whose names mean one thing, whose references lead somewhere and
      whose groups and dialers are acyclic; what is compiled is within the limits.

    ** Conventions

    A Go [(T, error)] is a [result]; a transaction that fails leaves the tables
    as they were.  Maps and tables are finite maps, nullable columns options.
    Where SQL leaves the order of rows open the model takes the order of the map
    and theorems do not depend on it.  Inputs that the outside decides are
    explicit: clocks are arguments, ids and secrets are drawn from an oracle by
    position ([draw]), the fate of each request is a list of [net] or a
    [delivery], failures of file operations and of calls to the system are
    [faults] or answers of an oracle, requests that run between two statements
    are an interference relation.  A loop over such inputs ends with its list, so
    no fuel is needed there.  Recursion over the dialer graph has fuel: four
    nested calls suffice where the code limits the depth ([graph_fuel], with
    [visit_fuel] and [resolve_fuel]), and one more than the number of paths
    where it does not ([walk_fuel], [reaches], [spread_all], by [chain_le_size]).
    The searches of [MihomoValidate] have one more than the number of nodes,
    [CatalogGen.expand] has [walk_depth], one more than the number of lists,
    [Catalog.lookup_from] the length of the host and [mergeMap] the depth of the
    patch.  The theorems show that the fuel given is enough.

    Code outside the repository is a parameter: Unicode tables, SHA-256 (of
    tokens, row keys, assets, authorization states), the JSON codec
    ([OperationEnv], the decoders of settings in [Render]), SQLite's date
    functions ([SqliteDates]), semantic versions, transfers, address literals,
    the answers of sing-box and of the network.  Theorems that assume something
    of a parameter have a closed instance next to them (the _witness lemmas).

    ** Not modelled

    The web interface, generated protocol code, command-line entry points, HTTP
    routing and the listings of admin pages but the one of users; the stored
    profiles, templates and tokens of Mihomo and the cache of compiled ones; log
    shipping and the parsing of log lines; one-time installation of an agent.  Display labels and the order lists are sorted in
    for display are left out where a component would otherwise return them.
    Goroutines are modelled where they share durable state (the queue, the
    campaigns, the configuration cycle); the mutexes that serialise the rest are
    taken as given.

    ** Plan

    What is left open, in the order of its worth: [ReportConnections] between
    [Collector] and [Ingest] (retention forgets old reports, so [Sink] has to be
    restricted to a window first); the series of network events over the buckets
    of [Series]; the stored profiles of [MihomoCompile] with their cache;
    administration of tokens and settings; log shipping. *)

From Stdlib Require Export ZArith Lia Ascii Bool.
From Stdlib Require String.
From stdpp Require Export base tactics decidable option list gmap fin_maps
  strings pretty relations sorting.

#[export] Set Default Goal Selector "!".

(** ** Errors

    Go's [(T, error)] results.  [E] is the type of errors a component
    distinguishes (its sentinel errors as constructors). *)
Inductive result (E A : Type) : Type :=
| Ok (a : A)
| Err (e : E).
Arguments Ok {E A} a.
Arguments Err {E A} e.

Declare Scope boxfleet_scope.
Delimit Scope boxfleet_scope with boxfleet.

(** [if err != nil { return err }]: continue with the value, or return the error. *)
Notation "'let?' x := e 'in' k" :=
  (match e with Ok x => k | Err err => Err err end)
  (at level 10, x pattern, e at level 200, k at level 200)
  : boxfleet_scope.
(** A guard that returns an error. *)
Notation "'guard!' b 'else' err ; k" :=
  (if b then k else Err err)
  (at level 10, b at level 100, err at level 100, k at level 200)
  : boxfleet_scope.
#[global] Open Scope boxfleet_scope.

Definition is_ok {E A} (r : result E A) : bool :=
  match r with Ok _ => true | Err _ => false end.

#[export] Instance result_eq_dec {E A} `{EqDecision E, EqDecision A} :
  EqDecision (result E A).
Proof. solve_decision. Defined.

(** ** Machine integers

    Go's [int64] arithmetic wraps around. *)
Definition int64_min : Z := -9223372036854775808.
Definition int64_max : Z := 9223372036854775807.
Definition two64 : Z := 18446744073709551616.

Definition wrap64 (z : Z) : Z := (z + 9223372036854775808) mod two64 - 9223372036854775808.

Definition int64_ok (z : Z) : Prop := (int64_min <= z <= int64_max)%Z.

Lemma wrap64_id z : int64_ok z -> wrap64 z = z.
Proof.
  unfold int64_ok, wrap64, int64_min, int64_max, two64. intros H.
  rewrite Z.mod_small; lia.
Qed.

Lemma wrap64_range z : int64_ok (wrap64 z).
Proof.
  unfold int64_ok, wrap64, int64_min, int64_max, two64.
  pose proof (Z.mod_pos_bound (z + 9223372036854775808) 18446744073709551616). lia.
Qed.

#[export] Instance int64_ok_dec z : Decision (int64_ok z).
Proof. unfold int64_ok. apply _. Defined.

(** ** Tactics *)

(** [lia] with the defining inequalities of [/] and [mod] by constants. *)
Ltac dlia := Z.to_euclidean_division_equations; lia.

(** Case analysis on the scrutinee of a [match] or [if] of the goal or a hypothesis. *)
Ltac break_goal :=
  match goal with
  | |- context [match ?x with _ => _ end] =>
      lazymatch x with
      | context [match _ with _ => _ end] => fail
      | _ => let E := fresh "E" in destruct x eqn:E
      end
  end.
Ltac break_hyp H :=
  match type of H with
  | context [match ?x with _ => _ end] =>
      lazymatch x with
      | context [match _ with _ => _ end] => fail
      | _ => let E := fresh "E" in destruct x eqn:E
      end
  end.
Ltac break_all H := repeat (break_hyp H; simplify_eq/=).

(** Boolean tests of the code read back as propositions. *)
Ltac breflect :=
  repeat match goal with
  | H : _ && _ = true |- _ => apply andb_true_iff in H as [? ?]
  | H : _ && _ = false |- _ => apply andb_false_iff in H
  | H : _ || _ = false |- _ => apply orb_false_iff in H as [? ?]
  | H : _ || _ = true |- _ => apply orb_true_iff in H
  | H : negb _ = true |- _ => apply negb_true_iff in H
  | H : negb _ = false |- _ => apply negb_false_iff in H
  | H : (_ <? _)%Z = true |- _ => apply Z.ltb_lt in H
  | H : (_ <? _)%Z = false |- _ => apply Z.ltb_ge in H
  | H : (_ <=? _)%Z = true |- _ => apply Z.leb_le in H
  | H : (_ <=? _)%Z = false |- _ => apply Z.leb_gt in H
  | H : (_ >? _)%Z = _ |- _ => rewrite Z.gtb_ltb in H
  | H : (_ >=? _)%Z = _ |- _ => rewrite Z.geb_leb in H
  | H : (_ =? _)%Z = true |- _ => apply Z.eqb_eq in H
  | H : (_ =? _)%Z = false |- _ => apply Z.eqb_neq in H
  | H : (_ =? _)%string = true |- _ => apply String.eqb_eq in H
  | H : (_ =? _)%string = false |- _ => apply String.eqb_neq in H
  | H : bool_decide _ = true |- _ => apply bool_decide_eq_true in H
  | H : bool_decide _ = false |- _ => apply bool_decide_eq_false in H
  end.

(** ** Invariants of transition systems *)
Section invariants.
Context {S : Type} (step : S -> S -> Prop) (I : S -> Prop).
Hypothesis step_preserves : forall s s', I s -> step s s' -> I s'.

Lemma rtc_preserves s s' : rtc step s s' -> I s -> I s'.
Proof. induction 1; eauto. Qed.
End invariants.

(** Folding an operation that preserves an invariant preserves it. *)
Lemma foldl_preserves {A B} (f : A -> B -> A) (I : A -> Prop) (l : list B) (a : A) :
  (forall a b, b ∈ l -> I a -> I (f a b)) -> I a -> I (foldl f a l).
Proof.
  revert a. induction l as [|b l IH]; intros a Hf Ha; simpl; [done|].
  apply IH; [|apply Hf; [constructor|done]].
  intros a' b' Hb'. apply Hf. by constructor.
Qed.

(** ** Strings as byte sequences *)
Abbreviation bytes := (list ascii).
Definition of_bytes (l : bytes) : string := String.string_of_list_ascii l.
Definition to_bytes (s : string) : bytes := String.list_ascii_of_string s.

Lemma to_of_bytes l : to_bytes (of_bytes l) = l.
Proof. apply String.list_ascii_of_string_of_list_ascii. Qed.
Lemma of_to_bytes s : of_bytes (to_bytes s) = s.
Proof. apply String.string_of_list_ascii_of_string. Qed.

#[export] Instance to_bytes_inj : Inj (=) (=) to_bytes.
Proof. intros s1 s2 H. rewrite <- (of_to_bytes s1), <- (of_to_bytes s2). by rewrite H. Qed.
#[export] Instance of_bytes_inj : Inj (=) (=) of_bytes.
Proof. intros s1 s2 H. rewrite <- (to_of_bytes s1), <- (to_of_bytes s2). by rewrite H. Qed.

Lemma to_bytes_nil s : to_bytes s = [] <-> s = ""%string.
Proof. by destruct s. Qed.
Lemma to_bytes_length s : length (to_bytes s) = String.length s.
Proof. induction s as [|c s IH]; [done|]. unfold to_bytes in *. simpl. by rewrite IH. Qed.
Lemma to_bytes_app s1 s2 : to_bytes (s1 ++ s2)%string = to_bytes s1 ++ to_bytes s2.
Proof.
  induction s1 as [|c s IH]; [done|].
  change (c :: to_bytes (s ++ s2)%string = c :: (to_bytes s ++ to_bytes s2)). by rewrite IH.
Qed.
Lemma of_bytes_app l1 l2 : of_bytes (l1 ++ l2) = (of_bytes l1 ++ of_bytes l2)%string.
Proof. apply (inj to_bytes). by rewrite to_bytes_app, !to_of_bytes. Qed.
Lemma of_bytes_empty l : of_bytes l = ""%string <-> l = [].
Proof. by destruct l. Qed.
Lemma str_app_nil_r s : (s ++ "")%string = s.
Proof. apply (inj to_bytes). by rewrite to_bytes_app, app_nil_r. Qed.
Lemma str_app_assoc s1 s2 s3 : (s1 ++ (s2 ++ s3))%string = ((s1 ++ s2) ++ s3)%string.
Proof. apply (inj to_bytes). by rewrite !to_bytes_app, app_assoc. Qed.

(** ** Lexicographic order of strings *)

Definition str_lt (s1 s2 : string) : Prop := String.compare s1 s2 = Lt.


Lemma ascii_compare_eq a b : Ascii.compare a b = Eq <-> a = b.
Proof.
  unfold Ascii.compare. rewrite N.compare_eq_iff. split; [|by intros ->].
  intros H. rewrite <- (ascii_N_embedding a), <- (ascii_N_embedding b). by rewrite H.
Qed.

Lemma compare_refl s : String.compare s s = Eq.
Proof.
  induction s as [|c s IH]; [done|]. simpl.
  by rewrite (proj2 (ascii_compare_eq c c) eq_refl).
Qed.

Lemma compare_app_same_length s1 s2 t1 t2 :
  String.length s1 = String.length s2 ->
  String.compare (s1 ++ t1)%string (s2 ++ t2)%string =
  match String.compare s1 s2 with Eq => String.compare t1 t2 | c => c end.
Proof.
  revert s2. induction s1 as [|c s1 IH]; intros [|c' s2] Hlen; simplify_eq/=; [done|].
  change (String.compare (String c (s1 ++ t1)) (String c' (s2 ++ t2)) =
          match String.compare (String c s1) (String c' s2) with
          | Eq => String.compare t1 t2 | r => r end).
  simpl. destruct (Ascii.compare c c'); auto.
Qed.

Lemma ascii_compare_trans_lt a b c :
  Ascii.compare a b = Lt -> Ascii.compare b c = Lt -> Ascii.compare a c = Lt.
Proof.
  unfold Ascii.compare. rewrite !N.compare_lt_iff. lia.
Qed.

Lemma str_lt_trans s1 s2 s3 : str_lt s1 s2 -> str_lt s2 s3 -> str_lt s1 s3.
Proof.
  unfold str_lt. revert s2 s3.
  induction s1 as [|a s1 IH]; intros [|b s2] [|c s3]; simpl; try done.
  destruct (Ascii.compare a b) eqn:Eab; try done;
  destruct (Ascii.compare b c) eqn:Ebc; try done; intros H1 H2.
  - apply ascii_compare_eq in Eab, Ebc. subst.
    rewrite (proj2 (ascii_compare_eq c c) eq_refl). eauto.
  - apply ascii_compare_eq in Eab. subst. by rewrite Ebc.
  - apply ascii_compare_eq in Ebc. subst. by rewrite Eab.
  - by rewrite (ascii_compare_trans_lt _ _ _ Eab Ebc).
Qed.

Lemma str_lt_irrefl s : ~ str_lt s s.
Proof. unfold str_lt. by rewrite compare_refl. Qed.

Lemma str_ltb_lt s1 s2 : String.ltb s1 s2 = true <-> str_lt s1 s2.
Proof. unfold String.ltb, str_lt. by destruct (String.compare s1 s2). Qed.
Lemma str_ltb_ge s1 s2 : String.ltb s1 s2 = false <-> ~ str_lt s1 s2.
Proof. rewrite <- str_ltb_lt. by destruct (String.ltb s1 s2). Qed.

Lemma str_trichotomy s1 s2 : str_lt s1 s2 \/ s1 = s2 \/ str_lt s2 s1.
Proof.
  unfold str_lt. rewrite (String.compare_antisym s2 s1).
  destruct (String.compare s1 s2) eqn:E; simpl; [|by left|by right; right].
  apply String.compare_eq_iff in E. auto.
Qed.

Lemma str_ltb_refl s : String.ltb s s = false.
Proof. apply str_ltb_ge, str_lt_irrefl. Qed.
Lemma str_not_lt s1 s2 : ~ str_lt s1 s2 -> s1 = s2 \/ str_lt s2 s1.
Proof. destruct (str_trichotomy s1 s2) as [?|[?|?]]; tauto. Qed.
Lemma str_lt_asym s1 s2 : str_lt s1 s2 -> str_lt s2 s1 -> False.
Proof. intros H1 H2. exact (str_lt_irrefl s1 (str_lt_trans _ _ _ H1 H2)). Qed.

(** Case analysis on the string comparisons of the goal, closed by the order laws. *)
Ltac str_saturate :=
  repeat match goal with
  | H : String.ltb _ _ = true |- _ => apply str_ltb_lt in H
  | H : String.ltb _ _ = false |- _ => apply str_ltb_ge, str_not_lt in H as [H|H]; subst
  | H : str_lt ?a ?a |- _ => destruct (str_lt_irrefl a H)
  | H1 : str_lt ?a ?b, H2 : str_lt ?b ?a |- _ => destruct (str_lt_asym a b H1 H2)
  | H1 : str_lt ?a ?b, H2 : str_lt ?b ?c |- _ =>
      lazymatch goal with
      | _ : str_lt a c |- _ => fail
      | _ => pose proof (str_lt_trans a b c H1 H2)
      end
  end.
Ltac str_cases :=
  repeat match goal with
  | |- context [String.ltb ?a ?b] =>
      lazymatch a with context [match _ with _ => _ end] => fail | _ => idtac end;
      lazymatch b with context [match _ with _ => _ end] => fail | _ => idtac end;
      destruct (String.ltb a b) eqn:?
  end; str_saturate; try done.

(** ** Folds that only depend on the set of their inputs *)
Section absorbing_fold.
Context {A B : Type} (f : A -> B -> A).
Hypothesis f_comm : forall a x y, f (f a x) y = f (f a y) x.
Hypothesis f_idem : forall a x, f (f a x) x = f a x.

Lemma foldl_push a x l : foldl f (f a x) l = f (foldl f a l) x.
Proof. revert a. induction l as [|y l IH]; intros a; simpl; [done|]. by rewrite f_comm, IH. Qed.

Lemma foldl_absorb_one a x l : x ∈ l -> f (foldl f a l) x = foldl f a l.
Proof.
  revert a. induction l as [|y l IH]; intros a Hx; [by apply elem_of_nil in Hx|]. simpl.
  apply elem_of_cons in Hx as [->|Hx]; [|by apply IH].
  by rewrite foldl_push, f_idem.
Qed.

Lemma foldl_absorb a l1 l2 : (forall x, x ∈ l1 -> x ∈ l2) -> foldl f (foldl f a l2) l1 = foldl f a l2.
Proof.
  induction l1 as [|x l1 IH]; intros H; [done|]. simpl.
  rewrite foldl_absorb_one by (apply H; constructor). apply IH. intros y Hy. apply H. by constructor.
Qed.

Lemma foldl_swap a l1 l2 : foldl f (foldl f a l1) l2 = foldl f (foldl f a l2) l1.
Proof.
  revert a. induction l1 as [|x l1 IH]; intros a; simpl; [done|].
  by rewrite IH, foldl_push.
Qed.

(** Order and repetitions of the inputs do not matter. *)
Lemma foldl_same_set a l1 l2 : (forall x, x ∈ l1 <-> x ∈ l2) -> foldl f a l1 = foldl f a l2.
Proof.
  intros H. rewrite <- (foldl_absorb a l2 l1) by (intros; by apply H).
  rewrite foldl_swap. apply foldl_absorb. intros; by apply H.
Qed.
End absorbing_fold.

(** ** Finite sets and maps *)
Lemma size_list_to_set_le `{Countable A} (l : list A) : (size (list_to_set l : gset A) <= length l)%nat.
Proof.
  induction l as [|x l IH]; simpl.
  { done. }
  rewrite size_union_alt, size_singleton.
  assert (Hd : (size (list_to_set l ∖ {[x]} : gset A) <= size (list_to_set l : gset A))%nat)
    by (apply subseteq_size; set_solver). lia.
Qed.

Lemma map_size_insert_le `{Countable K} {A} (m : gmap K A) k x :
  (size (<[k := x]> m) <= S (size m))%nat.
Proof. rewrite map_size_insert. case_match; simpl; lia. Qed.

Lemma map_size_insert_known `{Countable K} {A} (m : gmap K A) k x y :
  m !! k = Some y -> size (<[k := x]> m) = size m.
Proof. intros E. by rewrite map_size_insert, E. Qed.

Lemma map_size_delete_le `{Countable K} {A} (m : gmap K A) k : (size (delete k m) <= size m)%nat.
Proof. rewrite map_size_delete. case_match; simpl; lia. Qed.

Lemma map_size_filter_le `{Countable K} {A} (P : K * A -> Prop) `{forall x, Decision (P x)}
    (m : gmap K A) : (size (filter P m) <= size m)%nat.
Proof. apply map_subseteq_size, map_filter_subseteq. Qed.

Lemma wrap64_add_l x y : wrap64 (wrap64 x + y) = wrap64 (x + y).
Proof.
  unfold wrap64, two64.
  replace ((x + 9223372036854775808) mod 18446744073709551616 - 9223372036854775808 + y
           + 9223372036854775808)%Z
    with ((x + 9223372036854775808) mod 18446744073709551616 + y)%Z by ring.
  rewrite Zplus_mod_idemp_l. do 2 f_equal. ring.
Qed.
Lemma wrap64_add_r x y : wrap64 (x + wrap64 y) = wrap64 (x + y).
Proof. by rewrite Z.add_comm, wrap64_add_l, Z.add_comm. Qed.

(** Equality of machine integers: congruence modulo 2^64. *)
Definition eq64 (x y : Z) : Prop := wrap64 x = wrap64 y.
#[export] Instance eq64_equiv : Equivalence eq64.
Proof. unfold eq64. split; [done|by intros x y|by intros x y z -> ->]. Qed.

Lemma wrap64_eq64 x : eq64 (wrap64 x) x.
Proof. unfold eq64. apply wrap64_id, wrap64_range. Qed.
Lemma eq64_eq x y : x = y -> eq64 x y.
Proof. by intros ->. Qed.
Lemma eq64_int64 x y : int64_ok x -> int64_ok y -> eq64 x y -> x = y.
Proof. unfold eq64. intros Hx Hy. by rewrite !wrap64_id. Qed.

#[export] Instance add_eq64 : Proper (eq64 ==> eq64 ==> eq64) Z.add.
Proof.
  intros x x' Hx y y' Hy. unfold eq64 in *.
  by rewrite <- wrap64_add_l, <- wrap64_add_r, Hx, Hy, wrap64_add_l, wrap64_add_r.
Qed.
#[export] Instance opp_eq64 : Proper (eq64 ==> eq64) Z.opp.
Proof.
  intros x y H. transitivity (- x + (y - y))%Z; [apply eq64_eq; lia|].
  transitivity (- x + (x - y))%Z; [|apply eq64_eq; lia].
  apply add_eq64; [done|]. unfold Z.sub. apply add_eq64; [by symmetry|done].
Qed.
#[export] Instance sub_eq64 : Proper (eq64 ==> eq64 ==> eq64) Z.sub.
Proof. intros x x' Hx y y' Hy. unfold Z.sub. by rewrite Hx, Hy. Qed.

(** Sums over a finite map *)
Definition map_sum `{Countable K} {A} (f : A -> Z) (m : gmap K A) : Z :=
  map_fold (fun _ x s => f x + s)%Z 0%Z m.

Section map_sum.
Context `{Countable K} {A : Type} (f : A -> Z).
Implicit Types m : gmap K A.

Lemma map_sum_empty : map_sum f (∅ : gmap K A) = 0%Z.
Proof. apply map_fold_empty. Qed.
Lemma map_sum_delete m k x : m !! k = Some x -> map_sum f m = (f x + map_sum f (delete k m))%Z.
Proof. intros E. apply (map_fold_delete_L (fun _ x s => f x + s)%Z); [intros; lia|done]. Qed.
Lemma map_sum_insert_new m k x : m !! k = None -> map_sum f (<[k := x]> m) = (f x + map_sum f m)%Z.
Proof. intros E. apply (map_fold_insert_L (fun _ x s => f x + s)%Z); [intros; lia|done]. Qed.
Lemma map_sum_insert m k x y :
  m !! k = Some y -> map_sum f (<[k := x]> m) = (f x - f y + map_sum f m)%Z.
Proof.
  intros E. rewrite (map_sum_delete (<[k := x]> m) k x) by apply lookup_insert_eq.
  rewrite delete_insert_eq, (map_sum_delete m k y E). lia.
Qed.
Lemma map_sum_delete_new m k : m !! k = None -> map_sum f (delete k m) = map_sum f m.
Proof. intros E. by rewrite delete_id. Qed.
End map_sum.
