(* ===== verification/GoStrings.v ===== *)
(** * Go's [strings] and [strconv] packages, as far as the code uses them

    A Go string is a byte sequence: a Rocq [string] of [ascii] bytes.
    [TrimSpace] is modelled on UTF-8 bytes with the whole Unicode [White_Space]
    set.  [ToLower] is exact on ASCII strings, which is Go's fast path; on a
    string with a byte >= 0x80 Go maps runes through the Unicode case tables,
    which is the parameter [unicode_lower]. *)
From S2P Require Import Prelude.

#[local] Open Scope Z_scope.

Definition code (c : ascii) : Z := Z.of_N (N_of_ascii c).
Definition chr (z : Z) : ascii := ascii_of_N (Z.to_N z).

Lemma code_range c : 0 <= code c < 256.
Proof. unfold code. pose proof (N_ascii_bounded c). lia. Qed.
Lemma chr_code c : chr (code c) = c.
Proof. unfold chr, code. by rewrite N2Z.id, ascii_N_embedding. Qed.
Lemma code_chr z : 0 <= z < 256 -> code (chr z) = z.
Proof. intros H. unfold chr, code. rewrite N_ascii_embedding; lia. Qed.

(** Decides a property of one byte by running through all 256 of them. *)
Ltac byte_cases c := destruct c as [[] [] [] [] [] [] [] []]; vm_compute; try done.

(** ** unicode.IsSpace on UTF-8 *)
Definition is_space1 (a : ascii) : bool :=
  let z := code a in ((9 <=? z) && (z <=? 13)) || (z =? 32).
(** U+0085, U+00A0 *)
Definition is_space2 (a b : ascii) : bool :=
  (code a =? 194) && ((code b =? 133) || (code b =? 160)).
(** U+1680, U+2000..U+200A, U+2028, U+2029, U+202F, U+205F, U+3000 *)
Definition is_space3 (a b c : ascii) : bool :=
  let x := code a in let y := code b in let z := code c in
  ((x =? 225) && (y =? 154) && (z =? 128))
  || ((x =? 226) && (y =? 128) &&
      (((128 <=? z) && (z <=? 138)) || (z =? 168) || (z =? 169) || (z =? 175)))
  || ((x =? 226) && (y =? 129) && (z =? 159))
  || ((x =? 227) && (y =? 128) && (z =? 128)).

(** Number of bytes of the space rune a byte sequence starts with, 0 when it
    starts with none ([flip]: the sequence is read backwards). *)
Section trim_left.
Variable sp2 : ascii -> ascii -> bool.
Variable sp3 : ascii -> ascii -> ascii -> bool.

Definition lead_space (l : bytes) : nat :=
  match l with
  | a :: r =>
      if is_space1 a then 1
      else match r with
           | b :: r2 =>
               if sp2 a b then 2
               else match r2 with
                    | c :: _ => if sp3 a b c then 3 else 0
                    | [] => 0
                    end
           | [] => 0
           end
  | [] => 0
  end%nat.

Fixpoint trim_left (l : bytes) : bytes :=
  match l with
  | a :: r =>
      if is_space1 a then trim_left r
      else match r with
           | b :: r2 =>
               if sp2 a b then trim_left r2
               else match r2 with
                    | c :: r3 => if sp3 a b c then trim_left r3 else l
                    | [] => l
                    end
           | [] => l
           end
  | [] => []
  end.

Lemma trim_left_ind (P : bytes -> bytes -> Prop) :
  (forall l, lead_space l = 0%nat -> P l l) ->
  (forall l r, (0 < lead_space l)%nat -> r = drop (lead_space l) l ->
     P r (trim_left r) -> P l (trim_left r)) ->
  forall l, P l (trim_left l).
Proof.
  intros Hstop Hstep l.
  assert (Hn : exists n, (length l <= n)%nat) by eauto. destruct Hn as [n Hn].
  revert l Hn. induction n as [|n IH]; intros l Hn.
  - destruct l; [by apply Hstop|simpl in Hn; lia].
  - destruct l as [|a r]; [by apply Hstop|]. simpl.
    destruct (is_space1 a) eqn:E1.
    { apply Hstep; [simpl; rewrite E1; lia|by simpl; rewrite E1|].
      apply IH. simpl in Hn. lia. }
    destruct r as [|b r2]; [by apply Hstop; simpl; rewrite E1|].
    destruct (sp2 a b) eqn:E2.
    { apply Hstep; [simpl; rewrite E1, E2; lia|by simpl; rewrite E1, E2|].
      apply IH. simpl in Hn. lia. }
    destruct r2 as [|c r3]; [by apply Hstop; simpl; rewrite E1, E2|].
    destruct (sp3 a b c) eqn:E3; [|by apply Hstop; simpl; rewrite E1, E2, E3].
    apply Hstep; [simpl; rewrite E1, E2, E3; lia|by simpl; rewrite E1, E2, E3|].
    apply IH. simpl in Hn. lia.
Qed.

Lemma trim_left_stop l : lead_space l = 0%nat -> trim_left l = l.
Proof.
  destruct l as [|a [|b [|c r]]]; simpl; try done; repeat case_match; done || lia.
Qed.

Lemma lead_space_trim_left l : lead_space (trim_left l) = 0%nat.
Proof. apply (trim_left_ind (fun _ r => lead_space r = 0%nat)); auto. Qed.

Lemma trim_left_idem l : trim_left (trim_left l) = trim_left l.
Proof. apply trim_left_stop, lead_space_trim_left. Qed.

Lemma trim_left_suffix l : exists p, l = p ++ trim_left l.
Proof.
  apply (trim_left_ind (fun l r => exists p, l = p ++ r)); [by intros; exists []|].
  intros l' r _ -> [p Hp]. exists (take (lead_space l') l' ++ p).
  rewrite <- app_assoc, <- Hp. by rewrite take_drop.
Qed.

(** A prefix of a sequence that starts with no space starts with none. *)
Lemma lead_space_prefix l1 l2 : lead_space (l1 ++ l2) = 0%nat -> lead_space l1 = 0%nat.
Proof.
  destruct l1 as [|a [|b [|c r]]]; simpl; try done; repeat case_match; done || lia.
Qed.
End trim_left.

(** ** strings.TrimSpace *)
Definition trim_left_space : bytes -> bytes := trim_left is_space2 is_space3.
(** The right end is trimmed by reading the sequence backwards. *)
Definition rspace2 (b a : ascii) : bool := is_space2 a b.
Definition rspace3 (c b a : ascii) : bool := is_space3 a b c.
Definition trim_right_space (l : bytes) : bytes :=
  rev (trim_left rspace2 rspace3 (rev l)).
Definition trim_space (l : bytes) : bytes := trim_right_space (trim_left_space l).
Definition TrimSpace (s : string) : string := of_bytes (trim_space (to_bytes s)).

(** No space rune at either end: the strings [TrimSpace] leaves alone. *)
Definition trimmed (l : bytes) : Prop :=
  lead_space is_space2 is_space3 l = 0%nat /\
  lead_space rspace2 rspace3 (rev l) = 0%nat.
#[export] Instance trimmed_dec l : Decision (trimmed l).
Proof. unfold trimmed. apply _. Defined.

Lemma trim_right_prefix l : exists p, l = trim_right_space l ++ p.
Proof.
  destruct (trim_left_suffix rspace2 rspace3 (rev l)) as [p Hp].
  exists (rev p). unfold trim_right_space.
  by rewrite <- rev_app_distr, <- Hp, rev_involutive.
Qed.

Lemma trim_space_trimmed l : trimmed (trim_space l).
Proof.
  unfold trimmed, trim_space. split.
  - destruct (trim_right_prefix (trim_left_space l)) as [p Hp].
    apply (lead_space_prefix _ _ _ p). rewrite <- Hp. apply lead_space_trim_left.
  - unfold trim_right_space at 1. rewrite rev_involutive. apply lead_space_trim_left.
Qed.

Lemma trim_space_id l : trimmed l -> trim_space l = l.
Proof.
  intros [H1 H2]. unfold trim_space, trim_left_space, trim_right_space.
  rewrite (trim_left_stop _ _ _ H1), (trim_left_stop _ _ _ H2). apply rev_involutive.
Qed.

Lemma TrimSpace_idem s : TrimSpace (TrimSpace s) = TrimSpace s.
Proof.
  unfold TrimSpace. rewrite to_of_bytes. by rewrite trim_space_id by apply trim_space_trimmed.
Qed.
Lemma TrimSpace_id s : trimmed (to_bytes s) -> TrimSpace s = s.
Proof. intros H. unfold TrimSpace. by rewrite trim_space_id, of_to_bytes. Qed.
Lemma TrimSpace_trimmed s : trimmed (to_bytes (TrimSpace s)).
Proof. unfold TrimSpace. rewrite to_of_bytes. apply trim_space_trimmed. Qed.

(** Trimming only removes bytes. *)
Lemma trim_space_sublist l : exists p q, l = p ++ trim_space l ++ q.
Proof.
  destruct (trim_left_suffix is_space2 is_space3 l) as [p Hp].
  destruct (trim_right_prefix (trim_left_space l)) as [q Hq].
  exists p, q. unfold trim_space. rewrite <- Hq. exact Hp.
Qed.

(** ** strings.ToLower *)
Definition is_ascii_byte (c : ascii) : bool := code c <? 128.
Definition is_ascii (l : bytes) : bool := forallb is_ascii_byte l.
Definition lower_byte (c : ascii) : ascii :=
  if (65 <=? code c) && (code c <=? 90) then chr (code c + 32) else c.

Class UnicodeTables : Type := {
  (** [strings.Map(unicode.ToLower, s)] on a string with a non-ASCII byte *)
  unicode_lower : string -> string
}.

Definition ToLower `{UnicodeTables} (s : string) : string :=
  if is_ascii (to_bytes s) then of_bytes (map lower_byte (to_bytes s)) else unicode_lower s.

(** What the code relies on of the Unicode case mapping: a lower-cased string
    is left alone by a second pass. *)
Class UnicodeLowerIdem `{UnicodeTables} : Prop :=
  unicode_lower_idem s : is_ascii (to_bytes s) = false ->
    ToLower (unicode_lower s) = unicode_lower s.

Lemma lower_byte_idem c : lower_byte (lower_byte c) = lower_byte c.
Proof. byte_cases c. Qed.
Lemma lower_byte_ascii c : is_ascii_byte c = true -> is_ascii_byte (lower_byte c) = true.
Proof. byte_cases c. Qed.
Lemma is_ascii_map_lower l : is_ascii l = true -> is_ascii (map lower_byte l) = true.
Proof.
  unfold is_ascii. rewrite !forallb_forall. intros H x Hx.
  apply in_map_iff in Hx as (y & <- & Hy). auto using lower_byte_ascii.
Qed.

Lemma ToLower_idem `{UnicodeLowerIdem} s : ToLower (ToLower s) = ToLower s.
Proof.
  unfold ToLower at 2 3. destruct (is_ascii (to_bytes s)) eqn:E.
  - unfold ToLower. rewrite to_of_bytes, is_ascii_map_lower by done.
    f_equal. rewrite map_map. apply map_ext. apply lower_byte_idem.
  - by apply unicode_lower_idem.
Qed.

(** The Unicode parameter on ASCII-only deployments. *)
Definition ascii_only_tables : UnicodeTables := {| unicode_lower s := s |}.
Lemma ascii_only_idem : @UnicodeLowerIdem ascii_only_tables.
Proof.
  intros s E. unfold ToLower. simpl. by rewrite E.
Qed.

(** ** Cutting at a set of bytes, suffixes, separators *)

(** strings.Trim(s, cutset) for an ASCII cutset *)
Fixpoint drop_while (f : ascii -> bool) (l : bytes) : bytes :=
  match l with
  | c :: r => if f c then drop_while f r else l
  | [] => []
  end.
Definition Trim (s : string) (cutset : ascii -> bool) : string :=
  of_bytes (rev (drop_while cutset (rev (drop_while cutset (to_bytes s))))).
Definition is_bracket (c : ascii) : bool := (code c =? 91) || (code c =? 93).

Definition last_byte (s : string) : option ascii := last (to_bytes s).
(** strings.HasSuffix(s, one byte), strings.TrimSuffix(s, one byte) *)
Definition has_suffix_byte (s : string) (c : ascii) : bool :=
  match last_byte s with Some d => bool_decide (d = c) | None => false end.
Definition trim_suffix_byte (s : string) (c : ascii) : string :=
  if has_suffix_byte s c then of_bytes (removelast (to_bytes s)) else s.

(** strings.HasPrefix *)
Definition HasPrefix (s p : string) : bool := String.prefix p s.

(** strings.LastIndex(s, one byte) *)
Fixpoint last_index_from (c : ascii) (l : bytes) (i : nat) (acc : option nat) : option nat :=
  match l with
  | [] => acc
  | d :: r => last_index_from c r (S i) (if decide (d = c) then Some i else acc)
  end.
Definition LastIndexByte (s : string) (c : ascii) : option nat :=
  last_index_from c (to_bytes s) 0 None.
Definition str_take (n : nat) (s : string) : string := of_bytes (take n (to_bytes s)).
Definition str_drop (n : nat) (s : string) : string := of_bytes (drop n (to_bytes s)).

Lemma last_index_from_none c l i acc :
  c ∉ l -> last_index_from c l i acc = acc.
Proof.
  revert i acc. induction l as [|d l IH]; intros i acc H; [done|].
  apply not_elem_of_cons in H as [Hd Hl]. simpl. rewrite decide_False by done. by apply IH.
Qed.
Lemma last_index_from_app c l1 l2 i acc :
  c ∉ l2 -> last_index_from c (l1 ++ c :: l2) i acc = Some (i + length l1)%nat.
Proof.
  intros Hl. revert i acc. induction l1 as [|d l1 IH]; intros i acc; simpl.
  - rewrite decide_True by done. rewrite last_index_from_none by done. f_equal. lia.
  - rewrite IH. f_equal. lia.
Qed.
Lemma LastIndexByte_app c s1 s2 :
  c ∉ to_bytes s2 -> LastIndexByte (s1 ++ String c s2)%string c = Some (String.length s1).
Proof.
  intros H. unfold LastIndexByte. rewrite to_bytes_app.
  change (to_bytes (String c s2)) with (c :: to_bytes s2).
  rewrite last_index_from_app by done. by rewrite to_bytes_length.
Qed.
Lemma str_take_app s1 s2 : str_take (String.length s1) (s1 ++ s2)%string = s1.
Proof.
  unfold str_take. rewrite to_bytes_app, <- to_bytes_length, take_app_length. apply of_to_bytes.
Qed.
Lemma str_drop_length p s : str_drop (String.length p) (p ++ s)%string = s.
Proof. unfold str_drop. rewrite to_bytes_app, <- to_bytes_length, drop_app_length. apply of_to_bytes. Qed.
Lemma str_take_drop n s : (str_take n s ++ str_drop n s)%string = s.
Proof. unfold str_take, str_drop. by rewrite <- of_bytes_app, take_drop, of_to_bytes. Qed.
Lemma str_drop_app s1 c s2 : str_drop (S (String.length s1)) (s1 ++ String c s2)%string = s2.
Proof.
  unfold str_drop. rewrite to_bytes_app, <- to_bytes_length.
  change (to_bytes (String c s2)) with ([c] ++ to_bytes s2).
  rewrite app_assoc. replace (S (length (to_bytes s1))) with (length (to_bytes s1 ++ [c]))
    by (rewrite length_app; simpl; lia).
  rewrite drop_app_length. apply of_to_bytes.
Qed.
Lemma str_length_app s1 s2 : String.length (s1 ++ s2)%string = (String.length s1 + String.length s2)%nat.
Proof. by rewrite <- !to_bytes_length, to_bytes_app, length_app. Qed.

(** strings.Split(s, sep) for a one-byte separator: always at least one part *)
Fixpoint split_bytes (sep : ascii) (l : bytes) : list bytes :=
  match l with
  | [] => [[]]
  | c :: r =>
      if decide (c = sep) then [] :: split_bytes sep r
      else match split_bytes sep r with
           | p :: ps => (c :: p) :: ps
           | [] => [[c]]
           end
  end.
Definition Split (s : string) (sep : ascii) : list string :=
  map of_bytes (split_bytes sep (to_bytes s)).

(** strings.Join *)
Definition Join (l : list string) (sep : string) : string := String.concat sep l.

Fixpoint join_bytes (sep : ascii) (l : list bytes) : bytes :=
  match l with
  | [] => []
  | [p] => p
  | p :: ps => p ++ sep :: join_bytes sep ps
  end.

Lemma Join_bytes l sep :
  to_bytes (Join l (String sep "")) = join_bytes sep (map to_bytes l).
Proof.
  unfold Join. induction l as [|p [|q ps] IH]; [done|done|].
  change (String.concat (String sep "") (p :: q :: ps))
    with (p ++ (String sep "") ++ String.concat (String sep "") (q :: ps))%string.
  rewrite !to_bytes_app, IH. done.
Qed.

Lemma split_join sep (l : list bytes) :
  l <> [] -> Forall (fun p => sep ∉ p) l -> split_bytes sep (join_bytes sep l) = l.
Proof.
  intros Hne Hl. destruct l as [|p ps]; [done|]. clear Hne. revert p Hl.
  assert (Hpart : forall p rest, sep ∉ p ->
            split_bytes sep (p ++ sep :: rest) = p :: split_bytes sep rest).
  { induction p as [|c p IH]; intros rest Hp; simpl.
    - by rewrite decide_True.
    - apply not_elem_of_cons in Hp as [Hc Hp]. rewrite decide_False by congruence.
      by rewrite IH. }
  assert (Hlast : forall p, sep ∉ p -> split_bytes sep p = [p]).
  { induction p as [|c p IH]; intros Hp; simpl; [done|].
    apply not_elem_of_cons in Hp as [Hc Hp]. rewrite decide_False by congruence.
    by rewrite IH. }
  induction ps as [|q ps IH]; intros p Hl; inversion Hl as [|?? Hp Hps]; subst.
  - simpl. by apply Hlast.
  - change (join_bytes sep (p :: q :: ps)) with (p ++ sep :: join_bytes sep (q :: ps)).
    by rewrite Hpart, IH.
Qed.

Lemma join_split sep l : join_bytes sep (split_bytes sep l) = l.
Proof.
  induction l as [|c r IH]; simpl; [done|].
  destruct (split_bytes sep r) as [|p ps] eqn:E.
  { destruct r as [|d r]; simpl in E; [done|]. repeat case_match; done. }
  destruct (decide (c = sep)) as [->|Hc].
  - change (sep :: join_bytes sep (p :: ps) = sep :: r). by rewrite IH.
  - destruct ps as [|q ps]; simpl in *; congruence.
Qed.

(** ** strconv *)
Definition is_digit (c : ascii) : bool := (48 <=? code c) && (code c <=? 57).
Definition digit_val (c : ascii) : Z := code c - 48.
Definition digit (z : Z) : ascii := chr (48 + z mod 10).
Definition num_of_digits (l : bytes) : Z := fold_left (fun acc c => acc * 10 + digit_val c) l 0.

(** strconv.ParseInt(s, 10, 64): an optional sign, at least one digit, nothing
    else, and a value that fits. *)
Definition ParseInt (s : string) : option Z :=
  let l := to_bytes s in
  let (neg, ds) := match l with
                   | c :: r => if code c =? 45 then (true, r)
                               else if code c =? 43 then (false, r) else (false, l)
                   | [] => (false, [])
                   end in
  match ds with
  | [] => None
  | _ =>
      if forallb is_digit ds then
        let v := if neg : bool then - num_of_digits ds else num_of_digits ds in
        if (int64_min <=? v) && (v <=? int64_max) then Some v else None
      else None
  end.

(** the [n] low decimal digits of [z], most significant first *)
Fixpoint dec (n : nat) (z : Z) : string :=
  match n with
  | O => ""
  | S n => (dec n (z / 10) ++ String (digit (z mod 10)) "")%string
  end.

Lemma dec_length n z : String.length (dec n z) = n.
Proof.
  revert z. induction n as [|n IH]; intros z; [done|]. simpl.
  rewrite <- to_bytes_length, to_bytes_app, length_app, to_bytes_length, IH. simpl. lia.
Qed.

Lemma code_digit z : code (digit z) = 48 + z mod 10.
Proof. unfold digit. rewrite code_chr; [done|]. pose proof (Z.mod_pos_bound z 10). lia. Qed.
Lemma digit_is_digit z : is_digit (digit z) = true.
Proof.
  unfold is_digit. rewrite code_digit. pose proof (Z.mod_pos_bound z 10).
  rewrite andb_true_iff, !Z.leb_le. lia.
Qed.
Lemma digit_val_digit z : 0 <= z < 10 -> digit_val (digit z) = z.
Proof. intros H. unfold digit_val. rewrite code_digit, Z.mod_small; lia. Qed.

Lemma dec_digits n z : forallb is_digit (to_bytes (dec n z)) = true.
Proof.
  revert z. induction n as [|n IH]; intros z; [done|]. simpl.
  rewrite to_bytes_app, forallb_app, IH. simpl. by rewrite digit_is_digit.
Qed.

Lemma num_of_digits_app l c :
  num_of_digits (l ++ [c]) = num_of_digits l * 10 + digit_val c.
Proof. unfold num_of_digits. by rewrite fold_left_app. Qed.

Lemma num_of_dec n z : 0 <= z < 10 ^ Z.of_nat n -> num_of_digits (to_bytes (dec n z)) = z.
Proof.
  revert z. induction n as [|n IH]; intros z Hz.
  - simpl in *. unfold num_of_digits. simpl. lia.
  - cbn [dec]. rewrite to_bytes_app. change (to_bytes (String (digit (z mod 10)) "")) with [digit (z mod 10)].
    rewrite num_of_digits_app, IH.
    + rewrite digit_val_digit by (apply Z.mod_pos_bound; lia).
      pose proof (Z.div_mod z 10). lia.
    + rewrite Nat2Z.inj_succ, Z.pow_succ_r in Hz by lia.
      split; [apply Z.div_pos; lia|apply Z.div_lt_upper_bound; lia].
Qed.

Lemma compare_digit x y :
  0 <= x < 10 -> 0 <= y < 10 -> Ascii.compare (digit x) (digit y) = Z.compare x y.
Proof.
  intros Hx Hy. unfold Ascii.compare.
  rewrite <- N2Z.inj_compare. fold (code (digit x)). fold (code (digit y)).
  rewrite !code_digit, !Z.mod_small by lia. rewrite Z.add_compare_mono_l. done.
Qed.

(** Fixed-width decimals compare like the numbers they denote. *)
Lemma compare_dec n x y :
  0 <= x < 10 ^ Z.of_nat n -> 0 <= y < 10 ^ Z.of_nat n ->
  String.compare (dec n x) (dec n y) = Z.compare x y.
Proof.
  revert x y. induction n as [|n IH]; intros x y Hx Hy.
  - simpl in *. assert (x = 0 /\ y = 0) as [-> ->] by lia. done.
  - cbn [dec]. rewrite compare_app_same_length by (by rewrite !dec_length).
    rewrite Nat2Z.inj_succ, Z.pow_succ_r in Hx, Hy by lia.
    rewrite IH by (split; [apply Z.div_pos; lia|apply Z.div_lt_upper_bound; lia]).
    cbn [String.compare].
    pose proof (Z.mod_pos_bound x 10). pose proof (Z.mod_pos_bound y 10).
    rewrite compare_digit by lia.
    pose proof (Z.div_mod x 10). pose proof (Z.div_mod y 10).
    destruct (Z.compare_spec (x / 10) (y / 10)); symmetry.
    + destruct (Z.compare_spec (x mod 10) (y mod 10));
        [apply Z.compare_eq_iff|apply Z.compare_lt_iff|apply Z.compare_gt_iff]; lia.
    + apply Z.compare_lt_iff. lia.
    + apply Z.compare_gt_iff. lia.
Qed.

(** strconv.FormatInt(z, 10) / strconv.Itoa *)
Definition FormatInt (z : Z) : string := pretty z.

Lemma pretty_N_char_digit (d : N) :
  (d < 10)%N -> is_digit (pretty_N_char d) = true /\ digit_val (pretty_N_char d) = Z.of_N d.
Proof.
  intros H. assert (d = 0 \/ d = 1 \/ d = 2 \/ d = 3 \/ d = 4 \/ d = 5 \/ d = 6 \/ d = 7
                    \/ d = 8 \/ d = 9)%N as Hd by lia.
  repeat destruct Hd as [->|Hd]; subst; done.
Qed.

Lemma pretty_N_go_digits x s :
  exists ds, to_bytes (pretty_N_go x s) = ds ++ to_bytes s /\
    forallb is_digit ds = true /\ num_of_digits ds = Z.of_N x /\ (x <> 0%N -> ds <> []).
Proof.
  revert s. induction (N.lt_wf_0 x) as [x _ IH]; intros s.
  destruct (decide (x = 0)%N) as [->|Hx].
  { exists []. rewrite pretty_N_go_0. done. }
  rewrite pretty_N_go_step by lia.
  assert (Hlt : (x `div` 10 < x)%N) by (apply N.div_lt; lia).
  destruct (IH _ Hlt (String (pretty_N_char (x mod 10)) s)) as (ds & E & Hd & Hv & _).
  assert (Hm : (x mod 10 < 10)%N) by (apply N.mod_lt; lia).
  destruct (pretty_N_char_digit _ Hm) as [H1 H2].
  exists (ds ++ [pretty_N_char (x mod 10)]). split_and!.
  - rewrite E, <- app_assoc. done.
  - rewrite forallb_app, Hd. simpl. by rewrite H1.
  - rewrite num_of_digits_app, Hv, H2. rewrite N2Z.inj_div, N2Z.inj_mod.
    pose proof (Z.div_mod (Z.of_N x) 10). lia.
  - intros _. by destruct ds.
Qed.

Lemma FormatInt_digits z :
  0 <= z -> forallb is_digit (to_bytes (FormatInt z)) = true /\
            num_of_digits (to_bytes (FormatInt z)) = z /\ to_bytes (FormatInt z) <> [].
Proof.
  intros Hz. destruct z as [|p|p]; [done| |lia].
  change (FormatInt (Z.pos p)) with (pretty_N_go (N.pos p) "").
  destruct (pretty_N_go_digits (N.pos p) "") as (ds & E & Hd & Hv & Hne).
  rewrite E, app_nil_r. auto.
Qed.

Lemma ParseInt_FormatInt z : 0 <= z <= int64_max -> ParseInt (FormatInt z) = Some z.
Proof.
  intros Hz. destruct (FormatInt_digits z) as (Hd & Hv & Hne); [lia|].
  unfold ParseInt. destruct (to_bytes (FormatInt z)) as [|c r] eqn:E; [done|].
  assert (Hc : is_digit c = true) by (simpl in Hd; by apply andb_true_iff in Hd as [? _]).
  unfold is_digit in Hc. apply andb_true_iff in Hc as [Hc1 Hc2].
  apply Z.leb_le in Hc1, Hc2.
  rewrite !(proj2 (Z.eqb_neq _ _)) by lia. rewrite Hd, Hv.
  unfold int64_min, int64_max in *. rewrite !(proj2 (Z.leb_le _ _)) by lia. done.
Qed.
#[export] Instance FormatInt_inj : Inj (=) (=) FormatInt := _.

(** A decimal has no byte below the digits or above them, except the sign. *)
Lemma FormatInt_no_byte z c : is_digit c = false -> c <> "-"%char -> c ∉ to_bytes (FormatInt z).
Proof.
  intros Hc Hm Hin.
  assert (Hp : forall n, 0 <= n -> c ∈ to_bytes (FormatInt n) -> False).
  { intros n Hn Hi. destruct (FormatInt_digits n Hn) as (Hd & _).
    rewrite forallb_forall in Hd. apply list_elem_of_In in Hi. rewrite Hd in Hc; done. }
  destruct z as [|p|p]; [eapply (Hp 0); done..| |].
  { eapply (Hp (Z.pos p)); done. }
  change (FormatInt (Z.neg p)) with (String "-" (FormatInt (Z.pos p))) in Hin.
  change (c ∈ "-"%char :: to_bytes (FormatInt (Z.pos p))) in Hin.
  apply elem_of_cons in Hin as [->|Hin]; [done|]. eapply (Hp (Z.pos p)); done.
Qed.

(** ** Trimming strings of known shape *)
Lemma lead_space_ascii sp2 sp3 c l :
  (forall x, sp2 c x = false) -> (forall x y, sp3 c x y = false) -> is_space1 c = false ->
  lead_space sp2 sp3 (c :: l) = 0%nat.
Proof.
  intros H2 H3 H1. destruct l as [|a [|b r]]; simpl; by rewrite ?H1, ?H2, ?H3.
Qed.

Lemma is_space_ascii_false c :
  is_ascii_byte c = true ->
  (forall x, is_space2 c x = false) /\ (forall x y, is_space3 c x y = false) /\
  (forall x, rspace2 c x = false) /\ (forall x y, rspace3 c x y = false).
Proof.
  unfold is_ascii_byte, rspace2, rspace3, is_space2, is_space3. intros H. apply Z.ltb_lt in H.
  repeat split; intros;
    repeat match goal with |- context [code c =? ?n] =>
      rewrite (proj2 (Z.eqb_neq (code c) n)) by lia end;
    repeat match goal with |- context [?n <=? code c] =>
      rewrite (proj2 (Z.leb_gt n (code c))) by lia end;
    rewrite ?andb_false_r, ?andb_false_l; done.
Qed.

Definition plain_byte (c : ascii) : bool := is_ascii_byte c && negb (is_space1 c).

Lemma trimmed_ends c l d :
  plain_byte c = true -> plain_byte d = true -> trimmed (c :: l ++ [d]).
Proof.
  unfold plain_byte. rewrite !andb_true_iff, !negb_true_iff. intros [Hc1 Hc2] [Hd1 Hd2].
  apply is_space_ascii_false in Hc1 as (? & ? & _), Hd1 as (_ & _ & ? & ?). split.
  - by apply lead_space_ascii.
  - rewrite app_comm_cons, rev_app_distr. simpl. by apply lead_space_ascii.
Qed.

Lemma trimmed_map_lower l : is_ascii l = true -> trimmed l -> trimmed (map lower_byte l).
Proof.
  assert (Hgen : forall sp2 sp3 l,
    (forall c, is_ascii_byte c = true -> forall x, sp2 c x = false) ->
    (forall c, is_ascii_byte c = true -> forall x y, sp3 c x y = false) ->
    is_ascii l = true -> lead_space sp2 sp3 l = 0%nat ->
    lead_space sp2 sp3 (map lower_byte l) = 0%nat).
  { intros sp2 sp3 l' H2 H3 Ha Hl. destruct l' as [|c r]; [done|].
    unfold is_ascii in Ha. simpl in Ha. apply andb_true_iff in Ha as [Ha _].
    assert (Hs : is_space1 c = false) by (simpl in Hl; by destruct (is_space1 c)).
    apply lead_space_ascii.
    - apply H2. by apply lower_byte_ascii.
    - apply H3. by apply lower_byte_ascii.
    - revert Hs. byte_cases c. }
  intros Ha [H1 H2]. split.
  - apply Hgen; try done; intros c Hc **; by apply (is_space_ascii_false c Hc).
  - rewrite <- map_rev.
    apply Hgen; try done; [intros c Hc **; by apply (is_space_ascii_false c Hc)..|].
    unfold is_ascii in *. rewrite forallb_forall in *. intros x Hx. apply Ha.
    by rewrite in_rev.
Qed.

Lemma is_ascii_app l1 l2 : is_ascii (l1 ++ l2) = is_ascii l1 && is_ascii l2.
Proof. apply forallb_app. Qed.
Lemma is_ascii_trim l : is_ascii l = true -> is_ascii (trim_space l) = true.
Proof.
  intros H. destruct (trim_space_sublist l) as (p & q & E). rewrite E, !is_ascii_app in H.
  by apply andb_true_iff in H as [_ [? _]%andb_true_iff].
Qed.

(** On ASCII text, trimming and lower-casing twice is trimming and lower-casing once. *)
Lemma lower_trim_idem `{UnicodeTables} s :
  is_ascii (to_bytes s) = true ->
  ToLower (TrimSpace (ToLower (TrimSpace s))) = ToLower (TrimSpace s).
Proof.
  intros Ha. apply is_ascii_trim in Ha. unfold TrimSpace at 2 3, ToLower at 2 3.
  rewrite to_of_bytes, Ha. rewrite TrimSpace_id.
  - unfold ToLower. rewrite to_of_bytes, is_ascii_map_lower by done.
    f_equal. rewrite map_map. apply map_ext, lower_byte_idem.
  - rewrite to_of_bytes. apply trimmed_map_lower; [done|]. apply trim_space_trimmed.
Qed.

(** strings.IndexByte *)
Fixpoint index_byte (c : ascii) (l : bytes) : option nat :=
  match l with
  | [] => None
  | d :: r => if decide (d = c) then Some 0%nat else S <$> index_byte c r
  end.
Definition IndexByte (s : string) (c : ascii) : option nat := index_byte c (to_bytes s).
Definition contains_byte (l : bytes) (c : ascii) : bool := bool_decide (c ∈ l).

(** net.SplitHostPort: the last colon separates the port; brackets are only
    allowed around the host, and a bare host may not contain a colon. *)
Definition SplitHostPort (hostport : string) : option (string * string) :=
  let l := to_bytes hostport in
  match LastIndexByte hostport ":" with
  | None => None
  | Some i =>
      let ports := of_bytes (drop (S i) l) in
      match l with
      | "["%char :: _ =>
          match index_byte "]" l with
          | None => None
          | Some e =>
              if decide (S e = i) then
                if contains_byte (drop 1 l) "[" || contains_byte (drop (S e) l) "]" then None
                else Some (of_bytes (take (e - 1) (drop 1 l)), ports)
              else None
          end
      | _ =>
          if contains_byte (take i l) ":" || contains_byte l "[" || contains_byte l "]" then None
          else Some (of_bytes (take i l), ports)
      end
  end.

(** strconv.ParseUint(s, 10, 16) *)
Definition ParseUint16 (s : string) : option Z :=
  match to_bytes s with
  | [] => None
  | l => if forallb is_digit l && (num_of_digits l <=? 65535) then Some (num_of_digits l) else None
  end.

Example SplitHostPort_ex :
  SplitHostPort "[2001:db8::1]:443" = Some ("2001:db8::1"%string, "443"%string) /\
  SplitHostPort "a:b:1" = None /\ SplitHostPort "host" = None /\
  SplitHostPort "h:80" = Some ("h"%string, "80"%string).
Proof. vm_compute. auto. Qed.

#[global] Arguments TrimSpace : simpl never.
#[global] Arguments ToLower : simpl never.
#[global] Arguments Trim : simpl never.
#[global] Arguments Split : simpl never.
#[global] Arguments Join : simpl never.
#[global] Arguments ParseInt : simpl never.
#[global] Arguments FormatInt : simpl never.
