(* ===== verification/GoTime.v ===== *)
(** * Go's [time] package, as far as the code uses it

    A [time.Time] is a number of nanoseconds since the Unix epoch: every time
    the code formats or compares is in UTC.  The three layouts of the code are
    [ConnectionInstantLayout] (fixed width, milliseconds), [time.RFC3339Nano]
    (trailing zeros trimmed) and [bucketKeyLayout] (whole seconds).  [Parse] is
    Go's general layout parser specialised to [RFC3339Nano] (its fast path
    returns the same values), with the one-digit hour, the comma as decimal
    point and the offsets up to 24:60 it accepts.

    The results the components use: formatting and parsing are inverse, and the
    fixed-width layout sorts as text the way instants sort as numbers, which the
    trimmed layout does not. *)
From S2P Require Import Prelude GoStrings.

#[local] Open Scope Z_scope.

Abbreviation Time := Z.
Definition second : Z := 1000000000.
Definition millisecond : Z := 1000000.
Definition minute : Z := 60 * second.
Definition hour : Z := 3600 * second.

(** ** Civil dates (proleptic Gregorian) *)
Definition is_leap (y : Z) : bool :=
  (y mod 4 =? 0) && (negb (y mod 100 =? 0) || (y mod 400 =? 0)).
Definition days_in (m y : Z) : Z :=
  if m =? 2 then (if is_leap y then 29 else 28)
  else if (m =? 4) || (m =? 6) || (m =? 9) || (m =? 11) then 30 else 31.

Record civil := { c_year : Z; c_month : Z; c_day : Z }.

Definition civil_of_days (d : Z) : civil :=
  let z := d + 719468 in
  let era := z / 146097 in
  let doe := z mod 146097 in
  let c := Z.min (doe / 36524) 3 in
  let r := doe - 36524 * c in
  let q := r / 1461 in
  let r2 := r - 1461 * q in
  let y := Z.min (r2 / 365) 3 in
  let doy := r2 - 365 * y in
  let yy := 400 * era + 100 * c + 4 * q + y in
  let mp := (5 * doy + 2) / 153 in
  let day := doy - (153 * mp + 2) / 5 + 1 in
  let m := if mp <? 10 then mp + 3 else mp - 9 in
  {| c_year := if m <=? 2 then yy + 1 else yy; c_month := m; c_day := day |}.

(** days of the March-based years before [yy] *)
Definition year_days (yy : Z) : Z := 365 * yy + yy / 4 - yy / 100 + yy / 400.
Definition days_of_civil (y m d : Z) : Z :=
  let yy := if m <=? 2 then y - 1 else y in
  let mp := if m <=? 2 then m + 9 else m - 3 in
  year_days yy + (153 * mp + 2) / 5 + d - 1 - 719468.

Lemma div_range a b lo hi : 0 < b -> lo * b <= a < (hi + 1) * b -> lo <= a / b <= hi.
Proof.
  intros Hb H. split; [apply Z.div_le_lower_bound; lia|].
  apply Z.lt_succ_r, Z.div_lt_upper_bound; lia.
Qed.

Lemma div_bounds a b : 0 < b -> b * (a / b) <= a < b * (a / b) + b.
Proof. intros H. pose proof (Z.div_mod a b). pose proof (Z.mod_pos_bound a b). lia. Qed.

Lemma div_capped x n k :
  0 < n -> 0 <= k -> 0 <= x ->
  let c := Z.min (x / n) k in 0 <= c <= k /\ 0 <= x - n * c /\ (x - n * c < n \/ c = k).
Proof.
  intros Hn Hk Hx. cbn zeta.
  pose proof (Z.div_mod x n). pose proof (Z.mod_pos_bound x n).
  assert (0 <= x / n) by (apply Z.div_pos; lia).
  destruct (Z.min_spec (x / n) k) as [[? ->]|[? ->]]; nia.
Qed.

(** The cycles of the Gregorian calendar: day of era, century, quadrennium, year. *)
Lemma era_bounds doe :
  0 <= doe < 146097 ->
  let c := Z.min (doe / 36524) 3 in let r := doe - 36524 * c in
  let q := r / 1461 in let r2 := r - 1461 * q in
  let y := Z.min (r2 / 365) 3 in let doy := r2 - 365 * y in
  0 <= c <= 3 /\ 0 <= q <= 24 /\ 0 <= y <= 3 /\ 0 <= doy <= 365.
Proof.
  intros H. cbn zeta.
  pose proof (div_capped doe 36524 3) as Hc. cbn zeta in Hc.
  generalize dependent (Z.min (doe / 36524) 3). intros c Hc.
  set (r := doe - 36524 * c) in *. assert (Hr : 0 <= r <= 36524) by lia.
  assert (Hq : 0 <= r / 1461 <= 24) by (apply div_range; lia).
  pose proof (Z.div_mod r 1461). pose proof (Z.mod_pos_bound r 1461).
  set (q := r / 1461) in *. set (r2 := r - 1461 * q). assert (Hr2 : 0 <= r2 <= 1460) by lia.
  pose proof (div_capped r2 365 3) as Hy. cbn zeta in Hy.
  generalize dependent (Z.min (r2 / 365) 3). intros y Hy. lia.
Qed.

Lemma days_of_civil_of_days d :
  days_of_civil (c_year (civil_of_days d)) (c_month (civil_of_days d)) (c_day (civil_of_days d)) = d.
Proof.
  unfold civil_of_days, days_of_civil, year_days. cbn [c_year c_month c_day].
  set (z := d + 719468). set (era := z / 146097). set (doe := z mod 146097).
  assert (Hdoe : 0 <= doe < 146097) by (apply Z.mod_pos_bound; lia).
  assert (Hz : z = 146097 * era + doe) by (apply Z.div_mod; lia).
  pose proof (era_bounds doe Hdoe) as Hb. cbn zeta in Hb.
  set (c := Z.min (doe / 36524) 3) in *. set (r := doe - 36524 * c) in *.
  set (q := r / 1461) in *. set (r2 := r - 1461 * q) in *.
  set (y := Z.min (r2 / 365) 3) in *. set (doy := r2 - 365 * y) in *.
  destruct Hb as (Hc & Hq & Hy & Hdoy).
  assert (Edoe : doe = 36524 * c + 1461 * q + 365 * y + doy) by (subst doy r2 r; ring).
  clearbody doy y r2 q r c.
  set (yy := 400 * era + 100 * c + 4 * q + y).
  set (mp := (5 * doy + 2) / 153).
  assert (Hmp : 0 <= mp <= 11) by (apply div_range; lia).
  assert (E : (if (if mp <? 10 then mp + 3 else mp - 9) <=? 2 then
            (if (if mp <? 10 then mp + 3 else mp - 9) <=? 2 then yy + 1 else yy) - 1
          else (if (if mp <? 10 then mp + 3 else mp - 9) <=? 2 then yy + 1 else yy)) = yy).
  { destruct (mp <? 10) eqn:?; destruct (_ <=? 2) eqn:?; breflect; lia. }
  rewrite E.
  assert (E2 : (if (if mp <? 10 then mp + 3 else mp - 9) <=? 2 then (if mp <? 10 then mp + 3 else mp - 9) + 9
     else (if mp <? 10 then mp + 3 else mp - 9) - 3) = mp).
  { destruct (mp <? 10) eqn:?; destruct (_ <=? 2) eqn:?; breflect; lia. }
  rewrite E2.
  assert (H4 : 100 * era + 25 * c + q <= yy / 4 <= 100 * era + 25 * c + q)
    by (apply div_range; subst yy; lia).
  assert (H100 : 4 * era + c <= yy / 100 <= 4 * era + c) by (apply div_range; subst yy; lia).
  assert (H400 : era <= yy / 400 <= era) by (apply div_range; subst yy; lia).
  replace (yy / 4) with (100 * era + 25 * c + q) by lia.
  replace (yy / 100) with (4 * era + c) by lia. replace (yy / 400) with era by lia.
  clearbody mp. subst yy z. lia.
Qed.

Lemma civil_of_days_month d :
  1 <= c_month (civil_of_days d) <= 12 /\ 1 <= c_day (civil_of_days d) <= 31.
Proof.
  unfold civil_of_days. cbn [c_year c_month c_day].
  set (z := d + 719468). set (doe := z mod 146097).
  assert (Hdoe : 0 <= doe < 146097) by (apply Z.mod_pos_bound; lia).
  pose proof (era_bounds doe Hdoe) as (_ & _ & _ & Hdoy). cbn zeta in Hdoy.
  set (doy := _ - 365 * _) in *.
  clearbody doy.
  pose proof (div_bounds (5 * doy + 2) 153 ltac:(lia)) as Hdiv.
  assert (Hmp : 0 <= (5 * doy + 2) / 153 <= 11) by (apply div_range; lia).
  generalize dependent ((5 * doy + 2) / 153). intros mp. intros. split; [destruct (_ <? 10) eqn:?; breflect; lia|].
  pose proof (div_range (153 * mp + 2) 5 (doy - 30) doy). lia.
Qed.

(** Valid dates are ordered by their day number the way they are ordered
    lexicographically. *)
Definition civil_lt (a b : civil) : Prop :=
  c_year a < c_year b \/
  (c_year a = c_year b /\
   (c_month a < c_month b \/ (c_month a = c_month b /\ c_day a < c_day b))).

Definition valid_civil (c : civil) : Prop :=
  1 <= c_month c <= 12 /\ 1 <= c_day c <= days_in (c_month c) (c_year c).

Ltac month_cases m :=
  let H := fresh in
  assert (H : m = 1 \/ m = 2 \/ m = 3 \/ m = 4 \/ m = 5 \/ m = 6 \/ m = 7 \/ m = 8 \/
              m = 9 \/ m = 10 \/ m = 11 \/ m = 12) by lia;
  repeat (destruct H as [H|H]); subst m.

Lemma is_leap_true y : y mod 4 = 0 -> (y mod 100 <> 0 \/ y mod 400 = 0) -> is_leap y = true.
Proof.
  intros H1 H2. unfold is_leap. rewrite H1. simpl.
  destruct (y mod 100 =? 0) eqn:E; [|done]. simpl. apply Z.eqb_eq in E. apply Z.eqb_eq. lia.
Qed.

(** The last day the algorithm can produce in a month exists: day 29 of
    February comes from day 365 of a March-based leap year only. *)
Lemma civil_of_days_valid d : valid_civil (civil_of_days d).
Proof.
  split; [apply civil_of_days_month|]. split; [apply civil_of_days_month|].
  unfold civil_of_days. cbn [c_year c_month c_day].
  set (z := d + 719468). set (era := z / 146097). set (doe := z mod 146097).
  assert (Hdoe : 0 <= doe < 146097) by (apply Z.mod_pos_bound; lia).
  pose proof (era_bounds doe Hdoe) as Hb. cbn zeta in Hb.
  pose proof (div_capped doe 36524 3) as Hcc. cbn zeta in Hcc.
  set (c := Z.min (doe / 36524) 3) in *. set (r := doe - 36524 * c) in *.
  pose proof (Z.div_mod r 1461). pose proof (Z.mod_pos_bound r 1461).
  set (q := r / 1461) in *. set (r2 := r - 1461 * q) in *.
  pose proof (div_capped r2 365 3) as Hyc. cbn zeta in Hyc.
  set (y := Z.min (r2 / 365) 3) in *. set (doy := r2 - 365 * y) in *.
  destruct Hb as (Hc & Hq & Hy & Hdoy).
  assert (Ed : doy = r2 - 365 * y) by done. assert (Er2 : r2 = r - 1461 * q) by done.
  assert (Er : r = doe - 36524 * c) by done.
  clearbody doy y r2 q r c era doe.
  destruct Hcc as (_ & _ & Hcc); [lia..|]. destruct Hyc as (_ & _ & Hyc); [lia..|].
  assert (Hl : doy = 365 -> y = 3 /\ (q = 24 -> c = 3)).
  { intros Hd. destruct Hyc as [|Hyc]; [lia|]. split; [done|]. intros Hq'.
    destruct Hcc as [Hr|]; [|done]. exfalso. clear -Hd Hyc Hq' Hr Ed Er2 Er. lia. }
  pose proof (div_bounds (5 * doy + 2) 153 ltac:(lia)) as Hdiv.
  assert (Hmp : 0 <= (5 * doy + 2) / 153 <= 11) by (apply div_range; lia).
  generalize dependent ((5 * doy + 2) / 153). intros mp Hdiv Hmp.
  destruct (decide (mp = 11)) as [->|Hne].
  - change (11 <? 10) with false. cbv iota. change (11 - 9) with 2. change (2 <=? 2) with true. cbv iota.
    change ((153 * 11 + 2) / 5) with 337. unfold days_in. change (2 =? 2) with true. cbv iota.
    destruct (decide (doy = 365)) as [->|]; [|case_match; lia].
    destruct Hl as [-> Hq3]; [done|]. rewrite is_leap_true; [lia| |].
    + replace (400 * era + 100 * c + 4 * q + 3 + 1) with ((100 * era + 25 * c + q + 1) * 4) by ring.
      by rewrite Z.mod_mul.
    + destruct (decide (q = 24)) as [->|].
      * right. rewrite Hq3 by done.
        replace (400 * era + 100 * 3 + 4 * 24 + 3 + 1) with ((era + 1) * 400) by ring.
        by rewrite Z.mod_mul.
      * left. replace (400 * era + 100 * c + 4 * q + 3 + 1)
          with (4 * q + 4 + (4 * era + c) * 100) by ring.
        rewrite Z.mod_add, Z.mod_small by lia. lia.
  - assert (H11 : mp = 0 \/ mp = 1 \/ mp = 2 \/ mp = 3 \/ mp = 4 \/ mp = 5 \/ mp = 6 \/ mp = 7 \/
              mp = 8 \/ mp = 9 \/ mp = 10) by lia.
    repeat (destruct H11 as [H11|H11]); subst mp; unfold days_in; simpl; dlia.
Qed.

Lemma year_days_step y : year_days y = year_days (y - 1) + (if is_leap y then 366 else 365).
Proof.
  unfold year_days, is_leap.
  destruct (y mod 4 =? 0) eqn:E4; destruct (y mod 100 =? 0) eqn:E100;
    destruct (y mod 400 =? 0) eqn:E400; breflect; simpl; dlia.
Qed.

Lemma year_days_mono y1 y2 : y1 <= y2 -> year_days y1 <= year_days y2.
Proof. unfold year_days. intros H. dlia. Qed.

Lemma days_in_range m y : 28 <= days_in m y <= 31.
Proof. unfold days_in. repeat case_match; lia. Qed.

(** Evaluates the closed comparisons and arithmetic the month cases leave. *)
Ltac zeval :=
  cbn -[year_days];
  repeat match goal with
  | |- context [?a <=? ?b] =>
      let v := eval vm_compute in (a <=? b) in
      lazymatch v with true => idtac | false => idtac end; change (a <=? b) with v
  end; cbv iota.

Lemma month_step y m :
  1 <= m < 12 -> days_of_civil y m (days_in m y) + 1 = days_of_civil y (m + 1) 1.
Proof.
  intros Hm. pose proof (year_days_step y).
  month_cases m; try lia; unfold days_of_civil, days_in; zeval; try dlia.
  destruct (is_leap y); dlia.
Qed.

Lemma year_step y : days_of_civil y 12 31 + 1 = days_of_civil (y + 1) 1 1.
Proof. unfold days_of_civil. zeval. replace (y + 1 - 1) with y by lia. dlia. Qed.

Lemma days_of_civil_day y m d d' : days_of_civil y m d = days_of_civil y m d' + (d - d').
Proof. unfold days_of_civil. lia. Qed.

(** Months of one year come one after the other. *)
Lemma month_start_le y m k :
  1 <= m -> m + Z.of_nat k <= 12 -> days_of_civil y m 1 <= days_of_civil y (m + Z.of_nat k) 1.
Proof.
  induction k as [|k IH]; intros Hm Hk; [by rewrite Z.add_0_r|].
  transitivity (days_of_civil y (m + Z.of_nat k) 1); [apply IH; lia|].
  replace (m + Z.of_nat (S k)) with (m + Z.of_nat k + 1) by lia.
  rewrite <- month_step by lia.
  rewrite (days_of_civil_day _ _ (days_in _ _) 1).
  pose proof (days_in_range (m + Z.of_nat k) y). lia.
Qed.

Lemma days_of_civil_lt a b :
  valid_civil a -> valid_civil b -> civil_lt a b ->
  days_of_civil (c_year a) (c_month a) (c_day a) < days_of_civil (c_year b) (c_month b) (c_day b).
Proof.
  destruct a as [y m d], b as [y' m' d']. unfold valid_civil, civil_lt. simpl.
  intros [Hm Hd] [Hm' Hd'] H.
  assert (Hend : forall y m d, 1 <= m <= 12 -> 1 <= d <= days_in m y ->
            days_of_civil y m d < days_of_civil (y + 1) 1 1).
  { clear. intros y m d Hm Hd. rewrite <- year_step.
    rewrite (days_of_civil_day _ _ _ (days_in m y)).
    destruct (decide (m = 12)) as [->|Hne]; [change (days_in 12 y) with 31 in *; lia|].
    pose proof (month_step y m ltac:(lia)).
    pose proof (month_start_le y (m + 1) (Z.to_nat (11 - m)) ltac:(lia) ltac:(lia)) as Hs.
    replace (m + 1 + Z.of_nat (Z.to_nat (11 - m))) with 12 in Hs by lia.
    pose proof (days_of_civil_day y 12 31 1). lia. }
  destruct H as [Hy|[-> [Hlt|[-> Hlt]]]].
  - pose proof (Hend y m d Hm Hd).
    assert (days_of_civil (y + 1) 1 1 <= days_of_civil y' 1 1).
    { unfold days_of_civil. zeval.
      pose proof (year_days_mono (y + 1 - 1) (y' - 1)). lia. }
    pose proof (month_start_le y' 1 (Z.to_nat (m' - 1)) ltac:(lia) ltac:(lia)) as Hs.
    replace (1 + Z.of_nat (Z.to_nat (m' - 1))) with m' in Hs by lia.
    pose proof (days_of_civil_day y' m' d' 1). lia.
  - pose proof (month_step y' m ltac:(lia)).
    pose proof (month_start_le y' (m + 1) (Z.to_nat (m' - m - 1)) ltac:(lia) ltac:(lia)) as Hs.
    replace (m + 1 + Z.of_nat (Z.to_nat (m' - m - 1))) with m' in Hs by lia.
    pose proof (days_of_civil_day y' m' d' 1). pose proof (days_of_civil_day y' m d (days_in m y')). lia.
  - pose proof (days_of_civil_day y' m' d d'). lia.
Qed.

Lemma civil_of_days_lt d1 d2 : d1 < d2 <-> civil_lt (civil_of_days d1) (civil_of_days d2).
Proof.
  assert (Himp : forall d1 d2, civil_lt (civil_of_days d1) (civil_of_days d2) -> d1 < d2).
  { intros a b H. apply days_of_civil_lt in H; [|apply civil_of_days_valid..].
    by rewrite !days_of_civil_of_days in H. }
  split; [|apply Himp]. intros H.
  destruct (civil_of_days d1) as [y m d] eqn:E1, (civil_of_days d2) as [y' m' d'] eqn:E2.
  assert (Hdec : civil_lt (Build_civil y m d) (Build_civil y' m' d') \/
                 Build_civil y m d = Build_civil y' m' d' \/
                 civil_lt (Build_civil y' m' d') (Build_civil y m d)).
  { unfold civil_lt. simpl.
    destruct (Z.lt_trichotomy y y') as [?|[->|?]]; [lia| |lia].
    destruct (Z.lt_trichotomy m m') as [?|[->|?]]; [lia| |lia].
    destruct (Z.lt_trichotomy d d') as [?|[->|?]]; [lia|by right; left|lia]. }
  destruct Hdec as [?|[Heq|Hgt]]; [done| |].
  - pose proof (days_of_civil_of_days d1) as H1. pose proof (days_of_civil_of_days d2) as H2.
    rewrite E1, Heq in H1. rewrite E2 in H2. simpl in *. lia.
  - rewrite <- E1, <- E2 in Hgt. apply Himp in Hgt. lia.
Qed.

(** ** Fields of an instant *)
Definition unix_seconds (t : Time) : Z := t / second.
Definition nanosecond (t : Time) : Z := t mod second.
Definition date (t : Time) : civil := civil_of_days (unix_seconds t / 86400).
Definition year (t : Time) : Z := c_year (date t).
Definition second_of_day (t : Time) : Z := unix_seconds t mod 86400.

(** The years every layout prints with four digits. *)
Definition year_ok (t : Time) : Prop := 0 <= year t <= 9999.
#[export] Instance year_ok_dec t : Decision (year_ok t).
Proof. unfold year_ok. apply _. Defined.

(** Go's [appendInt(b, x, 4)] *)
Definition year_string (y : Z) : string :=
  let digits := fun a => if a <? 10000 then dec 4 a else pretty a in
  if y <? 0 then ("-" ++ digits (- y))%string else digits y.

(** "2006-01-02T15:04:05" *)
Definition format_seconds (t : Time) : string :=
  let c := date t in
  let s := second_of_day t in
  (year_string (c_year c) ++ "-" ++ dec 2 (c_month c) ++ "-" ++ dec 2 (c_day c) ++ "T" ++
   dec 2 (s / 3600) ++ ":" ++ dec 2 (s / 60 mod 60) ++ ":" ++ dec 2 (s mod 60))%string.

(** [ConnectionInstantLayout]: "2006-01-02T15:04:05.000Z" *)
Definition Format_instant (t : Time) : string :=
  (format_seconds t ++ "." ++ dec 3 (nanosecond t / millisecond) ++ "Z")%string.

(** "2006-01-02T15:04:05Z" *)
Definition Format_key (t : Time) : string := (format_seconds t ++ "Z")%string.

(** [time.RFC3339Nano] in UTC: the fraction loses its trailing zeros *)
Fixpoint strip_zeros (l : bytes) : bytes :=
  match l with
  | c :: r => if code c =? 48 then strip_zeros r else l
  | [] => []
  end.
Definition strip_right_zeros (l : bytes) : bytes := rev (strip_zeros (rev l)).
Definition fraction9 (ns : Z) : string :=
  if ns =? 0 then ""
  else ("." ++ of_bytes (strip_right_zeros (to_bytes (dec 9 ns))))%string.
Definition Format_RFC3339Nano (t : Time) : string :=
  (format_seconds t ++ fraction9 (nanosecond t) ++ "Z")%string.

Example format_instant_ex : Format_instant 1714564805123456789 = "2024-05-01T12:00:05.123Z".
Proof. vm_compute. reflexivity. Qed.
Example format_nano_ex : Format_RFC3339Nano 1714564805120000000 = "2024-05-01T12:00:05.12Z".
Proof. vm_compute. reflexivity. Qed.
Example format_leap_ex : Format_key (951782400 * second) = "2000-02-29T00:00:00Z".
Proof. vm_compute. reflexivity. Qed.

(** ** Parsing *)

(** Go's [getnum]: one or two digits, two when [fixed]. *)
Definition getnum (l : bytes) (fixed : bool) : option (Z * bytes) :=
  match l with
  | a :: r =>
      if is_digit a then
        match r with
        | b :: r' => if is_digit b then Some (digit_val a * 10 + digit_val b, r')
                     else if fixed then None else Some (digit_val a, r)
        | [] => if fixed then None else Some (digit_val a, r)
        end
      else None
  | [] => None
  end.

Definition skip (c : ascii) (l : bytes) : option bytes :=
  match l with d :: r => if decide (d = c) then Some r else None | [] => None end.

Definition comma_or_period (c : ascii) : bool := (code c =? 44) || (code c =? 46).

Fixpoint leading_digits (l : bytes) : bytes * bytes :=
  match l with
  | c :: r => if is_digit c then let (ds, k) := leading_digits r in (c :: ds, k) else ([], l)
  | [] => ([], [])
  end.

(** Go's [parseNanoseconds] on the digits after the point: at most nine count. *)
Definition nanos_of_digits (ds : bytes) : Z :=
  let ds9 := take 9 ds in num_of_digits ds9 * 10 ^ (9 - Z.of_nat (length ds9)).

Definition parse_fraction (l : bytes) : Z * bytes :=
  match l with
  | c :: (d :: _) as r =>
      if comma_or_period c && is_digit d then
        let (ds, k) := leading_digits r in (nanos_of_digits ds, k)
      else (0, l)
  | _ => (0, l)
  end.

(** "Z07:00": Z, or a sign and hh:mm (up to 24:60); the offset in seconds *)
Definition parse_zone (l : bytes) : option (Z * bytes) :=
  match l with
  | c :: r =>
      if code c =? 90 then Some (0, r)
      else match r with
           | h1 :: h2 :: p :: m1 :: m2 :: r' =>
               if negb (code p =? 58) then None
               else match getnum [h1; h2] true, getnum [m1; m2] true with
                    | Some (hh, _), Some (mm, _) =>
                        if (hh >? 24) || (mm >? 60) then None
                        else let off := (hh * 60 + mm) * 60 in
                             if code c =? 43 then Some (off, r')
                             else if code c =? 45 then Some (- off, r') else None
                    | _, _ => None
                    end
           | _ => None
           end
  | [] => None
  end.

Definition parse_year (l : bytes) : option (Z * bytes) :=
  let y := take 4 l in
  if (Nat.eqb (length y) 4) && forallb is_digit y then Some (num_of_digits y, drop 4 l) else None.

(** "2006-01-02T15:04:05": days since the epoch, seconds of the day, the rest.
    The day is checked against the month once the rest has parsed; the check
    commutes with the rest of the parse, which has no effect but failing. *)
Definition parse_seconds (l : bytes) : option (Z * Z * bytes) :=
  match parse_year l with None => None | Some (y, l) =>
  match skip "-" l with None => None | Some l =>
  match getnum l true with None => None | Some (mo, l) =>
  if (mo <=? 0) || (12 <? mo) then None else
  match skip "-" l with None => None | Some l =>
  match getnum l true with None => None | Some (d, l) =>
  match skip "T" l with None => None | Some l =>
  match getnum l false with None => None | Some (h, l) =>
  if (h <? 0) || (24 <=? h) then None else
  match skip ":" l with None => None | Some l =>
  match getnum l true with None => None | Some (mi, l) =>
  if (mi <? 0) || (60 <=? mi) then None else
  match skip ":" l with None => None | Some l =>
  match getnum l true with None => None | Some (s, l) =>
  if (s <? 0) || (60 <=? s) then None else
  if (d <? 1) || (days_in mo y <? d) then None else
  Some (days_of_civil y mo d, h * 3600 + mi * 60 + s, l)
  end end end end end end end end end end end.

(** [time.Parse(time.RFC3339Nano, s)], normalised to UTC *)
Definition Parse (s : string) : option Time :=
  match parse_seconds (to_bytes s) with
  | None => None
  | Some (days, sod, l) =>
      let (ns, l) := parse_fraction l in
      match parse_zone l with
      | Some (off, []) => Some ((days * 86400 + sod - off) * second + ns)
      | _ => None
      end
  end.

(** [time.Parse(bucketKeyLayout, s)]: a literal Z; a fraction is accepted *)
Definition ParseKey (s : string) : option Time :=
  match parse_seconds (to_bytes s) with
  | None => None
  | Some (days, sod, l) =>
      let (ns, l) := parse_fraction l in
      match skip "Z" l with
      | Some [] => Some ((days * 86400 + sod) * second + ns)
      | _ => None
      end
  end.

Example parse_ex1 : Parse "2024-05-01T14:00:05.1239+02:00" = Some 1714564805123900000.
Proof. vm_compute. reflexivity. Qed.
Example parse_ex2 : Parse "2024-5-01T14:00:05Z" = None /\ Parse "2024-02-30T14:00:05Z" = None.
Proof. vm_compute. auto. Qed.

(** ** Formatting, then parsing *)

Lemma is_digit_code c : is_digit c = true -> 48 <= code c <= 57.
Proof. unfold is_digit. intros H. breflect. lia. Qed.

Lemma dec2 x : to_bytes (dec 2 x) = [digit (x / 10 mod 10); digit (x mod 10)].
Proof. reflexivity. Qed.

Lemma getnum_dec2 x b r : 0 <= x < 100 -> getnum (to_bytes (dec 2 x) ++ r) b = Some (x, r).
Proof.
  intros Hx. rewrite dec2. simpl. rewrite !digit_is_digit.
  pose proof (Z.mod_pos_bound x 10).
  rewrite !digit_val_digit by dlia. f_equal. f_equal. dlia.
Qed.

Lemma parse_year_dec4 y r : 0 <= y <= 9999 -> parse_year (to_bytes (year_string y) ++ r) = Some (y, r).
Proof.
  intros Hy. unfold year_string.
  rewrite (proj2 (Z.ltb_ge y 0)), (proj2 (Z.ltb_lt y 10000)) by lia.
  unfold parse_year.
  assert (Hl : length (to_bytes (dec 4 y)) = 4%nat) by (by rewrite to_bytes_length, dec_length).
  rewrite take_app_length', drop_app_length' by done.
  rewrite Hl, dec_digits, num_of_dec by (change (10 ^ Z.of_nat 4) with 10000; lia). done.
Qed.

Lemma skip_cons c r : skip c (c :: r) = Some r.
Proof. simpl. by rewrite decide_True. Qed.

Lemma second_of_day_range t : 0 <= second_of_day t < 86400.
Proof. apply Z.mod_pos_bound. lia. Qed.

Lemma parse_format_seconds t r :
  year_ok t ->
  parse_seconds (to_bytes (format_seconds t) ++ r) =
    Some (unix_seconds t / 86400, second_of_day t, r).
Proof.
  intros Hy. unfold format_seconds, parse_seconds.
  pose proof (second_of_day_range t) as Hs.
  pose proof (civil_of_days_valid (unix_seconds t / 86400)) as [Hm Hd].
  fold (date t) in Hm, Hd. pose proof (days_in_range (c_month (date t)) (c_year (date t))).
  rewrite !to_bytes_app, <- !app_assoc, parse_year_dec4 by done.
  cbn [to_bytes String.list_ascii_of_string app]. rewrite skip_cons. rewrite getnum_dec2 by lia.
  rewrite (proj2 (Z.leb_gt _ _)), (proj2 (Z.ltb_ge _ _)) by lia. cbn [orb].
  cbn [to_bytes String.list_ascii_of_string app]. rewrite skip_cons. rewrite getnum_dec2 by lia.
  cbn [to_bytes String.list_ascii_of_string app]. rewrite skip_cons. rewrite getnum_dec2 by dlia.
  rewrite (proj2 (Z.ltb_ge _ _)), (proj2 (Z.leb_gt _ _)) by dlia. cbn [orb].
  cbn [to_bytes String.list_ascii_of_string app]. rewrite skip_cons. rewrite getnum_dec2 by dlia.
  rewrite (proj2 (Z.ltb_ge _ _)), (proj2 (Z.leb_gt _ _)) by dlia. cbn [orb].
  cbn [to_bytes String.list_ascii_of_string app]. rewrite skip_cons. rewrite getnum_dec2 by dlia.
  rewrite (proj2 (Z.ltb_ge _ _)), (proj2 (Z.leb_gt _ _)) by dlia. cbn [orb].
  rewrite (proj2 (Z.ltb_ge _ _)), (proj2 (Z.ltb_ge _ _)) by lia. cbn [orb].
  unfold date. rewrite days_of_civil_of_days. do 3 f_equal. dlia.
Qed.

Lemma leading_digits_app ds c r :
  forallb is_digit ds = true -> is_digit c = false ->
  leading_digits (ds ++ c :: r) = (ds, c :: r).
Proof.
  intros Hds Hc. induction ds as [|d ds IH]; simpl in *; [by rewrite Hc|].
  apply andb_true_iff in Hds as [Hd Hds]. by rewrite Hd, IH.
Qed.

Lemma parse_fraction_app ds c r :
  ds <> [] -> forallb is_digit ds = true -> is_digit c = false ->
  parse_fraction ("."%char :: ds ++ c :: r) = (nanos_of_digits ds, c :: r).
Proof.
  intros Hne Hds Hc. pose proof (leading_digits_app ds c r Hds Hc) as Hl.
  destruct ds as [|d ds]; [done|]. simpl in Hds. apply andb_true_iff in Hds as [Hd _].
  unfold parse_fraction. cbn [app]. change (comma_or_period ".") with true.
  rewrite Hd. cbn [andb]. cbn [app] in Hl. by rewrite Hl.
Qed.

Lemma num_of_digits_zeros l k :
  num_of_digits (l ++ replicate k "0"%char) = num_of_digits l * 10 ^ Z.of_nat k.
Proof.
  induction k as [|k IH]; [simpl; rewrite app_nil_r; lia|].
  rewrite replicate_S_end, app_assoc, num_of_digits_app, IH.
  change (digit_val "0") with 0. rewrite Nat2Z.inj_succ, Z.pow_succ_r by lia. lia.
Qed.

Lemma strip_zeros_spec l : exists k, l = replicate k "0"%char ++ strip_zeros l.
Proof.
  induction l as [|c r [k IH]]; simpl; [by exists 0%nat|].
  destruct (code c =? 48) eqn:E; [|by exists 0%nat].
  exists (S k). simpl. rewrite <- IH. f_equal.
  apply Z.eqb_eq in E. rewrite <- (chr_code c), E. done.
Qed.

Lemma strip_right_zeros_spec l : exists k, l = strip_right_zeros l ++ replicate k "0"%char.
Proof.
  destruct (strip_zeros_spec (rev l)) as [k Hk]. exists k. unfold strip_right_zeros.
  rewrite <- (rev_involutive l), Hk at 1. rewrite rev_app_distr. f_equal.
  clear. induction k as [|k IH]; [done|].
  rewrite replicate_S_end at 1. rewrite rev_app_distr, IH. done.
Qed.

Lemma nanos_of_dec9 ns :
  0 < ns < second ->
  let ds := strip_right_zeros (to_bytes (dec 9 ns)) in
  ds <> [] /\ forallb is_digit ds = true /\ nanos_of_digits ds = ns.
Proof.
  intros Hns. cbn zeta. unfold second in Hns.
  assert (Hnum : num_of_digits (to_bytes (dec 9 ns)) = ns) by (apply num_of_dec; simpl; lia).
  assert (Hlen : length (to_bytes (dec 9 ns)) = 9%nat) by (by rewrite to_bytes_length, dec_length).
  pose proof (dec_digits 9 ns) as Hd.
  destruct (strip_right_zeros_spec (to_bytes (dec 9 ns))) as [k Hk].
  set (ds := strip_right_zeros _) in *. clearbody ds.
  rewrite Hk in Hnum, Hlen, Hd. rewrite num_of_digits_zeros in Hnum.
  rewrite length_app, length_replicate in Hlen.
  rewrite forallb_app in Hd. apply andb_true_iff in Hd as [Hd _].
  split; [intros ->; change (num_of_digits []) with 0 in Hnum; lia|]. split; [done|].
  unfold nanos_of_digits. rewrite take_ge by lia.
  replace (9 - Z.of_nat (length ds)) with (Z.of_nat k) by lia. done.
Qed.

Lemma nanosecond_range t : 0 <= nanosecond t < second.
Proof. apply Z.mod_pos_bound. done. Qed.

Lemma time_fields t :
  (unix_seconds t / 86400 * 86400 + second_of_day t - 0) * second + nanosecond t = t.
Proof.
  unfold unix_seconds, second_of_day, nanosecond. unfold second.
  pose proof (Z.div_mod t 1000000000). pose proof (Z.div_mod (unix_seconds t) 86400).
  unfold unix_seconds, second in *. lia.
Qed.

(** Go prints what it parses: RFC3339Nano loses nothing. *)
Lemma Parse_Format_RFC3339Nano t : year_ok t -> Parse (Format_RFC3339Nano t) = Some t.
Proof.
  intros Hy. unfold Parse, Format_RFC3339Nano. rewrite to_bytes_app, parse_format_seconds by done.
  pose proof (nanosecond_range t) as Hn. pose proof (time_fields t) as Ht.
  unfold fraction9. destruct (nanosecond t =? 0) eqn:E; breflect.
  - rewrite E in Ht. simpl. f_equal. lia.
  - destruct (nanos_of_dec9 (nanosecond t)) as (Hne & Hd & Hv); [lia|].
    rewrite to_bytes_app, to_bytes_app, to_of_bytes. cbn [to_bytes String.list_ascii_of_string app].
    rewrite parse_fraction_app by done. rewrite Hv. simpl. f_equal. lia.
Qed.

(** The fixed-width layout keeps the milliseconds. *)
Lemma Parse_Format_instant t :
  year_ok t -> Parse (Format_instant t) = Some (t - t mod millisecond).
Proof.
  intros Hy. unfold Parse, Format_instant. rewrite to_bytes_app, parse_format_seconds by done.
  pose proof (nanosecond_range t) as Hn. pose proof (time_fields t) as Ht.
  unfold second, millisecond in *.
  assert (Hms : 0 <= nanosecond t / 1000000 < 1000) by dlia.
  rewrite to_bytes_app, to_bytes_app. cbn [to_bytes String.list_ascii_of_string app].
  fold (to_bytes (dec 3 (nanosecond t / 1000000))).
  rewrite parse_fraction_app; [|by destruct (nanosecond t / 1000000)|apply dec_digits|done].
  unfold nanos_of_digits.
  assert (Hlen : length (to_bytes (dec 3 (nanosecond t / 1000000))) = 3%nat)
    by (by rewrite to_bytes_length, dec_length).
  rewrite take_ge by lia. rewrite Hlen, num_of_dec by (simpl; lia).
  change (10 ^ (9 - Z.of_nat 3)) with 1000000. simpl. f_equal.
  assert (t mod 1000000 = nanosecond t mod 1000000).
  { unfold nanosecond, second. rewrite Z.mod_mod_divide; [done|]. by exists 1000. }
  pose proof (Z.div_mod (nanosecond t) 1000000). lia.
Qed.

(** ** Text order is time order, for the fixed-width layout *)

Definition then_cmp (c k : comparison) : comparison := match c with Eq => k | _ => c end.

Lemma year_string_dec y : 0 <= y <= 9999 -> year_string y = dec 4 y.
Proof.
  intros H. unfold year_string.
  by rewrite (proj2 (Z.ltb_ge y 0)), (proj2 (Z.ltb_lt y 10000)) by lia.
Qed.

Lemma str_cons_app c s : (String c "" ++ s)%string = String c s.
Proof. reflexivity. Qed.

Lemma compare_cons_same c s1 s2 : String.compare (String c s1) (String c s2) = String.compare s1 s2.
Proof. simpl. by rewrite (proj2 (ascii_compare_eq c c) eq_refl). Qed.

Lemma compare_dec_app n x y s1 s2 :
  0 <= x < 10 ^ Z.of_nat n -> 0 <= y < 10 ^ Z.of_nat n ->
  String.compare (dec n x ++ s1)%string (dec n y ++ s2)%string =
  then_cmp (Z.compare x y) (String.compare s1 s2).
Proof.
  intros Hx Hy. rewrite compare_app_same_length by (by rewrite !dec_length).
  rewrite compare_dec by done. by destruct (x ?= y).
Qed.

Lemma compare_dec4_app x y s1 s2 :
  0 <= x <= 9999 -> 0 <= y <= 9999 ->
  String.compare (dec 4 x ++ s1)%string (dec 4 y ++ s2)%string =
  then_cmp (Z.compare x y) (String.compare s1 s2).
Proof. intros. apply compare_dec_app; change (10 ^ Z.of_nat 4) with 10000; lia. Qed.
Lemma compare_dec2_app x y s1 s2 :
  0 <= x <= 99 -> 0 <= y <= 99 ->
  String.compare (dec 2 x ++ s1)%string (dec 2 y ++ s2)%string =
  then_cmp (Z.compare x y) (String.compare s1 s2).
Proof. intros. apply compare_dec_app; change (10 ^ Z.of_nat 2) with 100; lia. Qed.
Lemma compare_dec3_app x y s1 s2 :
  0 <= x <= 999 -> 0 <= y <= 999 ->
  String.compare (dec 3 x ++ s1)%string (dec 3 y ++ s2)%string =
  then_cmp (Z.compare x y) (String.compare s1 s2).
Proof. intros. apply compare_dec_app; change (10 ^ Z.of_nat 3) with 1000; lia. Qed.

(** Dates and times of day compare field by field. *)
Definition cmp_fields (t1 t2 : Time) (k : comparison) : comparison :=
  then_cmp (c_year (date t1) ?= c_year (date t2))
  (then_cmp (c_month (date t1) ?= c_month (date t2))
  (then_cmp (c_day (date t1) ?= c_day (date t2))
  (then_cmp (second_of_day t1 / 3600 ?= second_of_day t2 / 3600)
  (then_cmp (second_of_day t1 / 60 mod 60 ?= second_of_day t2 / 60 mod 60)
  (then_cmp (second_of_day t1 mod 60 ?= second_of_day t2 mod 60) k))))).

Lemma cmp_fields_lt t1 t2 k : unix_seconds t1 < unix_seconds t2 -> cmp_fields t1 t2 k = Lt.
Proof.
  intros H. unfold cmp_fields.
  pose proof (civil_of_days_lt (unix_seconds t1 / 86400) (unix_seconds t2 / 86400)) as Hlt.
  fold (date t1) (date t2) in Hlt.
  assert (Hd : unix_seconds t1 / 86400 < unix_seconds t2 / 86400 \/
            (unix_seconds t1 / 86400 = unix_seconds t2 / 86400 /\ second_of_day t1 < second_of_day t2))
    by (unfold second_of_day; dlia).
  destruct Hd as [Hd|[Hd Hs]].
  - apply Hlt in Hd as [Hy|[Hy [Hm|[Hm Hd]]]].
    + by rewrite (proj2 (Z.compare_lt_iff _ _) Hy).
    + by rewrite Hy, Z.compare_refl, (proj2 (Z.compare_lt_iff _ _) Hm).
    + by rewrite Hy, Hm, !Z.compare_refl, (proj2 (Z.compare_lt_iff _ _) Hd).
  - unfold date. rewrite Hd, !Z.compare_refl. cbn [then_cmp].
    clear -Hs. generalize dependent (second_of_day t1). generalize dependent (second_of_day t2).
    intros b a Hs. destruct (Z.compare_spec (a / 3600) (b / 3600)); [|done|exfalso; dlia].
    destruct (Z.compare_spec (a / 60 mod 60) (b / 60 mod 60)); [|done|exfalso; dlia].
    destruct (Z.compare_spec (a mod 60) (b mod 60)); [exfalso; dlia|done|exfalso; dlia].
Qed.

Lemma cmp_fields_antisym t1 t2 k :
  cmp_fields t2 t1 (CompOpp k) = CompOpp (cmp_fields t1 t2 k).
Proof.
  assert (H : forall x y c, then_cmp (y ?= x) (CompOpp c) = CompOpp (then_cmp (x ?= y) c)).
  { intros x y c. rewrite (Z.compare_antisym x y). by destruct (x ?= y). }
  unfold cmp_fields. by rewrite !H.
Qed.

Lemma compare_format_seconds t1 t2 r1 r2 :
  year_ok t1 -> year_ok t2 ->
  String.compare (format_seconds t1 ++ r1)%string (format_seconds t2 ++ r2)%string =
  then_cmp (Z.compare (unix_seconds t1) (unix_seconds t2)) (String.compare r1 r2).
Proof.
  intros H1 H2.
  assert (Hf : String.compare (format_seconds t1 ++ r1)%string (format_seconds t2 ++ r2)%string =
               cmp_fields t1 t2 (String.compare r1 r2)).
  { unfold format_seconds.
    pose proof (civil_of_days_month (unix_seconds t1 / 86400)) as [Hm1 Hd1].
    pose proof (civil_of_days_month (unix_seconds t2 / 86400)) as [Hm2 Hd2].
    pose proof (second_of_day_range t1) as Hs1. pose proof (second_of_day_range t2) as Hs2.
    fold (date t1) (date t2) in *. unfold year_ok, year in *.
    rewrite !year_string_dec by done. rewrite <- !str_app_assoc, !str_cons_app.
    rewrite compare_dec4_app by done. rewrite compare_cons_same, compare_dec2_app by lia.
    rewrite compare_cons_same, compare_dec2_app by lia.
    do 3 rewrite compare_cons_same, compare_dec2_app by dlia. done. }
  rewrite Hf. destruct (Z.compare_spec (unix_seconds t1) (unix_seconds t2)) as [Heq|Hc|Hc]; cbn [then_cmp].
  - unfold cmp_fields, second_of_day, date. by rewrite Heq, !Z.compare_refl.
  - by apply cmp_fields_lt.
  - rewrite <- (CompOpp_involutive (String.compare r1 r2)), cmp_fields_antisym.
    by rewrite cmp_fields_lt.
Qed.

Lemma compare_Format_instant t1 t2 :
  year_ok t1 -> year_ok t2 ->
  String.compare (Format_instant t1) (Format_instant t2) =
  Z.compare (t1 / millisecond) (t2 / millisecond).
Proof.
  intros H1 H2. unfold Format_instant. rewrite compare_format_seconds by done.
  assert (Hr : forall t, 0 <= nanosecond t / millisecond <= 999).
  { intros t. pose proof (nanosecond_range t). unfold second, millisecond in *. dlia. }
  assert (Ht : forall t, t / millisecond = unix_seconds t * 1000 + nanosecond t / millisecond).
  { intros t. unfold unix_seconds, nanosecond, second, millisecond. dlia. }
  rewrite !str_cons_app, compare_cons_same, compare_dec3_app by auto.
  rewrite compare_refl, (Ht t1), (Ht t2).
  pose proof (Hr t1). pose proof (Hr t2).
  generalize dependent (nanosecond t1 / millisecond). generalize dependent (nanosecond t2 / millisecond).
  intros. symmetry.
  destruct (Z.compare_spec (unix_seconds t1) (unix_seconds t2)); cbn [then_cmp];
    [|apply Z.compare_lt_iff; lia|apply Z.compare_gt_iff; lia].
  match goal with |- _ = then_cmp (?a ?= ?b) _ => destruct (Z.compare_spec a b) end; cbn [then_cmp];
    [apply Z.compare_eq_iff|apply Z.compare_lt_iff|apply Z.compare_gt_iff]; lia.
Qed.

(** The same for the layout without a fraction, [time.RFC3339] in UTC. *)
Lemma compare_Format_key t1 t2 :
  year_ok t1 -> year_ok t2 -> String.compare (Format_key t1) (Format_key t2) = Z.compare (unix_seconds t1) (unix_seconds t2).
Proof.
  intros H1 H2. unfold Format_key. rewrite compare_format_seconds by done. rewrite compare_refl. by destruct (_ ?= _).
Qed.
Lemma Parse_Format_key t : year_ok t -> Parse (Format_key t) = Some (t - t mod second).
Proof.
  intros Hy. unfold Parse, Format_key. rewrite to_bytes_app, parse_format_seconds by done.
  pose proof (time_fields t) as Ht. cbn. f_equal. unfold nanosecond in Ht. lia.
Qed.
Lemma Format_key_seconds t : Format_key (t - t mod second) = Format_key t.
Proof.
  assert (E : unix_seconds (t - t mod second) = unix_seconds t).
  { unfold unix_seconds, second. dlia. }
  unfold Format_key, format_seconds, date, second_of_day. by rewrite E.
Qed.

(** The hazard the fixed-width layout avoids: with trimmed zeros an earlier
    instant can sort after a later one. *)
Example RFC3339Nano_not_monotone :
  let t1 := 1714564805 * second in let t2 := t1 + 500 * millisecond in
  t1 < t2 /\ str_lt (Format_RFC3339Nano t2) (Format_RFC3339Nano t1).
Proof. vm_compute. auto. Qed.

Lemma dec_head n z : (0 < n)%nat ->
  exists c l, to_bytes (dec n z) = c :: l /\ plain_byte c = true.
Proof.
  intros Hn. pose proof (dec_digits n z) as Hd. pose proof (to_bytes_length (dec n z)) as Hl.
  rewrite dec_length in Hl. destruct (to_bytes (dec n z)) as [|c l]; simpl in *; [lia|].
  exists c, l. split; [done|]. apply andb_true_iff in Hd as [Hc _]. revert Hc. byte_cases c.
Qed.

Lemma Format_instant_trimmed t : year_ok t -> trimmed (to_bytes (Format_instant t)).
Proof.
  intros Hy. unfold Format_instant, format_seconds. rewrite year_string_dec by apply Hy.
  rewrite <- str_app_assoc, to_bytes_app.
  destruct (dec_head 4 (c_year (date t)) ltac:(lia)) as (c & l & -> & Hc).
  rewrite !str_app_assoc, to_bytes_app.
  rewrite <- app_comm_cons, app_assoc. by apply trimmed_ends.
Qed.

Lemma Format_key_trimmed t : year_ok t -> trimmed (to_bytes (Format_key t)).
Proof.
  intros Hy. unfold Format_key, format_seconds. rewrite year_string_dec by apply Hy.
  rewrite <- str_app_assoc, to_bytes_app.
  destruct (dec_head 4 (c_year (date t)) ltac:(lia)) as (c & l & -> & Hc).
  rewrite !str_app_assoc, to_bytes_app.
  rewrite <- app_comm_cons, app_assoc. by apply trimmed_ends.
Qed.
Lemma Format_instant_ne t : year_ok t -> Format_instant t <> ""%string.
Proof.
  intros Hy E. pose proof (Parse_Format_instant t Hy) as H. by rewrite E in H.
Qed.

Lemma Format_RFC3339Nano_trimmed t : year_ok t -> trimmed (to_bytes (Format_RFC3339Nano t)).
Proof.
  intros Hy. unfold Format_RFC3339Nano, format_seconds. rewrite year_string_dec by apply Hy.
  rewrite <- str_app_assoc, to_bytes_app.
  destruct (dec_head 4 (c_year (date t)) ltac:(lia)) as (c & l & -> & Hc).
  rewrite !str_app_assoc, to_bytes_app.
  rewrite <- app_comm_cons, app_assoc. by apply trimmed_ends.
Qed.
Lemma Format_RFC3339Nano_ne t : year_ok t -> Format_RFC3339Nano t <> ""%string.
Proof.
  intros Hy E. pose proof (Parse_Format_RFC3339Nano t Hy) as H. by rewrite E in H.
Qed.

(** The two layouts compared as text agree with time to the second. *)
Lemma compare_instant_nano t1 t2 :
  year_ok t1 -> year_ok t2 -> unix_seconds t1 <> unix_seconds t2 ->
  String.compare (Format_instant t1) (Format_RFC3339Nano t2) =
  Z.compare (unix_seconds t1) (unix_seconds t2).
Proof.
  intros H1 H2 Hne. unfold Format_instant, Format_RFC3339Nano.
  rewrite compare_format_seconds by done.
  destruct (Z.compare_spec (unix_seconds t1) (unix_seconds t2)); done.
Qed.

#[global] Arguments Parse : simpl never.
#[global] Arguments ParseKey : simpl never.
#[global] Arguments Format_instant : simpl never.
#[global] Arguments Format_key : simpl never.
#[global] Arguments Format_RFC3339Nano : simpl never.
