(* ===== verification/ConnectionTelemetry.v ===== *)
(** * The connection-telemetry data model

    [src/internal/model/connection_telemetry.go]: the report an agent ships,
    its coverage counters, and the bucket both sides canonicalise
    ([Normalize]), identify ([DimensionKey]) and fold ([Merge]).

    Instants are [GoTime.Time]; texts are byte strings; the counters are
    [int64] values held in [Z], and the legacy sums of [Merge] wrap. *)
From S2P Require Import Prelude GoStrings GoTime.

#[local] Open Scope Z_scope.

Definition ConnectionBucketInterval : Z := 5 * minute.
Definition ConnectionChainSeparator : ascii := ">".
Definition ConnectionDimensionSeparator : ascii := "000".

Record ConnectionCoverage := {
  ConnectionsObserved : Z;
  ConnectionsAttributed : Z;
  ConnectionsUnattributed : Z;
  ConnectionsOrphaned : Z;
  StreamResets : Z;
  DroppedBuckets : Z;
  BytesObserved : Z;
  BytesAttributed : Z;
}.

Record ConnectionBucket := {
  ConnectionID : string;
  StartedAt : string;
  BucketStart : string;
  AuthName : string;
  SourceIP : string;
  TargetHost : string;
  TargetPort : Z;
  Domain : string;
  Network : string;
  IPVersion : Z;
  Protocol : string;
  Inbound : string;
  InboundType : string;
  Rule : string;
  Outbound : string;
  OutboundType : string;
  Chain : list string;
  ConnectionsOpened : Z;
  ConnectionsClosed : Z;
  UplinkBytes : Z;
  DownlinkBytes : Z;
  DurationMsTotal : Z;
  WindowStart : string;
  WindowEnd : string;
}.

Record ConnectionReport := {
  NodeName : string;
  Sequence : Z;
  AgentBootID : string;
  RWindowStart : string;
  RWindowEnd : string;
  ReportedAt : string;
  Coverage : ConnectionCoverage;
  Buckets : list ConnectionBucket;
}.

#[export] Instance ConnectionCoverage_eq_dec : EqDecision ConnectionCoverage.
Proof. solve_decision. Defined.
#[export] Instance ConnectionBucket_eq_dec : EqDecision ConnectionBucket.
Proof. solve_decision. Defined.
#[export] Instance ConnectionReport_eq_dec : EqDecision ConnectionReport.
Proof. solve_decision. Defined.

(** ** Canonical forms of the fields *)
Section canonical.
Context `{UnicodeTables}.

Definition NormalizeConnectionHost (host : string) : string :=
  let host := ToLower (TrimSpace host) in
  let host := Trim host is_bracket in
  if (1 <? Z.of_nat (String.length host)) && has_suffix_byte host "."
  then trim_suffix_byte host "." else host.

(** [None] is the Go result [("", 0, false)]. *)
Definition SplitConnectionAddress (value : string) : option (string * Z) :=
  let value := TrimSpace value in
  match LastIndexByte value ":" with
  | None => None
  | Some idx =>
      if (Z.of_nat idx <=? 0) || (Z.of_nat idx =? Z.of_nat (String.length value) - 1) then None
      else match ParseInt (str_drop (S idx) value) with
           | None => None
           | Some port =>
               if (port <? 0) || (65535 <? port) then None
               else let host := NormalizeConnectionHost (str_take idx value) in
                    if (host =? "")%string then None else Some (host, port)
           end
  end.

Definition chain_parts (chain : list string) : list string :=
  filter (fun hop => hop <> "") (map TrimSpace chain).
Definition ConnectionChainString (chain : list string) : string :=
  Join (chain_parts chain) (String ConnectionChainSeparator "").

Definition Truncate (t : Time) (d : Z) : Time := t - t mod d.

Definition TruncateConnectionBucket (value : string) : string :=
  match Parse (TrimSpace value) with
  | None => ""
  | Some parsed => Format_instant (Truncate parsed ConnectionBucketInterval)
  end.

Definition NormalizeConnectionInstant (value : string) : string :=
  match Parse (TrimSpace value) with
  | None => ""
  | Some parsed => Format_instant parsed
  end.

Definition canonical_chain (chain : list string) : list string :=
  let flattened := ConnectionChainString chain in
  if (flattened =? "")%string then [] else Split flattened ConnectionChainSeparator.

(** The five measures and the port a report may not carry out of range. *)
Definition measures_ok (b : ConnectionBucket) : bool :=
  negb ((TargetPort b <? 0) || (65535 <? TargetPort b))
  && negb ((ConnectionsOpened b <? 0) || (ConnectionsClosed b <? 0))
  && negb ((UplinkBytes b <? 0) || (DownlinkBytes b <? 0) || (DurationMsTotal b <? 0)).

(** The body of [Normalize] after the bucket start is known. *)
Definition normalize_fields (b : ConnectionBucket) (id startedAt bucketStart : string)
    : ConnectionBucket :=
  let domain := NormalizeConnectionHost (Domain b) in
  let windowStart := NormalizeConnectionInstant (WindowStart b) in
  let windowEnd := NormalizeConnectionInstant (WindowEnd b) in
  let windowStart := if (windowStart =? "")%string then bucketStart else windowStart in
  {| ConnectionID := id;
     StartedAt := startedAt;
     BucketStart := bucketStart;
     AuthName := TrimSpace (AuthName b);
     SourceIP := NormalizeConnectionHost (SourceIP b);
     TargetHost := if (domain =? "")%string then NormalizeConnectionHost (TargetHost b) else domain;
     TargetPort := TargetPort b;
     Domain := domain;
     Network := ToLower (TrimSpace (Network b));
     IPVersion := if negb (IPVersion b =? 4) && negb (IPVersion b =? 6) then 0 else IPVersion b;
     Protocol := ToLower (TrimSpace (Protocol b));
     Inbound := TrimSpace (Inbound b);
     InboundType := TrimSpace (InboundType b);
     Rule := TrimSpace (Rule b);
     Outbound := TrimSpace (Outbound b);
     OutboundType := TrimSpace (OutboundType b);
     Chain := canonical_chain (Chain b);
     ConnectionsOpened := ConnectionsOpened b;
     ConnectionsClosed := ConnectionsClosed b;
     UplinkBytes := UplinkBytes b;
     DownlinkBytes := DownlinkBytes b;
     DurationMsTotal := DurationMsTotal b;
     WindowStart := windowStart;
     WindowEnd := if (windowEnd =? "")%string || String.ltb windowEnd windowStart
                  then windowStart else windowEnd |}.

(** The early return of a session without a start leaves every other field alone. *)
Definition with_session (b : ConnectionBucket) (id startedAt : string) : ConnectionBucket :=
  {| ConnectionID := id; StartedAt := startedAt; BucketStart := BucketStart b;
     AuthName := AuthName b; SourceIP := SourceIP b; TargetHost := TargetHost b;
     TargetPort := TargetPort b; Domain := Domain b; Network := Network b;
     IPVersion := IPVersion b; Protocol := Protocol b; Inbound := Inbound b;
     InboundType := InboundType b; Rule := Rule b; Outbound := Outbound b;
     OutboundType := OutboundType b; Chain := Chain b;
     ConnectionsOpened := ConnectionsOpened b; ConnectionsClosed := ConnectionsClosed b;
     UplinkBytes := UplinkBytes b; DownlinkBytes := DownlinkBytes b;
     DurationMsTotal := DurationMsTotal b;
     WindowStart := WindowStart b; WindowEnd := WindowEnd b |}.

Definition Normalize (b : ConnectionBucket) : ConnectionBucket * bool :=
  let id := TrimSpace (ConnectionID b) in
  let startedAt := NormalizeConnectionInstant (StartedAt b) in
  if negb (id =? "")%string && (startedAt =? "")%string then (with_session b id startedAt, false)
  else
    let bucketStart := if (id =? "")%string then TruncateConnectionBucket (BucketStart b)
                       else startedAt in
    let b' := normalize_fields b id startedAt bucketStart in
    (b', negb ((BucketStart b' =? "")%string || (TargetHost b' =? "")%string) && measures_ok b').

(** ** Identity and folding *)
Definition dimension_parts (b : ConnectionBucket) : list string :=
  if negb (ConnectionID b =? "")%string then ["session"; ConnectionID b; StartedAt b]
  else [BucketStart b; AuthName b; SourceIP b; TargetHost b; FormatInt (TargetPort b);
        Domain b; Network b; FormatInt (IPVersion b); Protocol b; Inbound b; InboundType b;
        Rule b; Outbound b; OutboundType b; ConnectionChainString (Chain b)].
Definition DimensionKey (b : ConnectionBucket) : string :=
  Join (dimension_parts b) (String ConnectionDimensionSeparator "").

Definition with_measures (b : ConnectionBucket) (opened closed up down duration : Z)
    (wstart wend : string) : ConnectionBucket :=
  {| ConnectionID := ConnectionID b; StartedAt := StartedAt b; BucketStart := BucketStart b;
     AuthName := AuthName b; SourceIP := SourceIP b; TargetHost := TargetHost b;
     TargetPort := TargetPort b; Domain := Domain b; Network := Network b;
     IPVersion := IPVersion b; Protocol := Protocol b; Inbound := Inbound b;
     InboundType := InboundType b; Rule := Rule b; Outbound := Outbound b;
     OutboundType := OutboundType b; Chain := Chain b;
     ConnectionsOpened := opened; ConnectionsClosed := closed;
     UplinkBytes := up; DownlinkBytes := down; DurationMsTotal := duration;
     WindowStart := wstart; WindowEnd := wend |}.

Definition merge_start (mine other : string) : string :=
  if negb (other =? "")%string && ((mine =? "")%string || String.ltb other mine) then other else mine.
Definition merge_end (mine other : string) : string :=
  if String.ltb mine other then other else mine.

Definition Merge (b other : ConnectionBucket) : ConnectionBucket :=
  let fold := if negb (ConnectionID b =? "")%string then Z.max
              else fun x y => wrap64 (x + y) in
  with_measures b
    (fold (ConnectionsOpened b) (ConnectionsOpened other))
    (fold (ConnectionsClosed b) (ConnectionsClosed other))
    (fold (UplinkBytes b) (UplinkBytes other))
    (fold (DownlinkBytes b) (DownlinkBytes other))
    (fold (DurationMsTotal b) (DurationMsTotal other))
    (merge_start (WindowStart b) (WindowStart other))
    (merge_end (WindowEnd b) (WindowEnd other)).
End canonical.

(** ** Instants in canonical form *)
Lemma unix_seconds_trunc t d : (d | second) -> 0 < d -> unix_seconds (t - t mod d) = unix_seconds t.
Proof.
  intros [k Hk] Hd. unfold unix_seconds. rewrite Hk in *.
  assert (0 < k) by (unfold second in Hk; nia).
  pose proof (Z.mod_pos_bound t d Hd). pose proof (Z.div_mod t d ltac:(lia)).
  rewrite (Z.mul_comm k d). rewrite <- !Z.div_div by lia.
  replace (t - t mod d) with (t / d * d) by lia. by rewrite Z.div_mul by lia.
Qed.

Lemma Format_instant_trunc t : Format_instant (t - t mod millisecond) = Format_instant t.
Proof.
  assert (Hs : unix_seconds (t - t mod millisecond) = unix_seconds t).
  { apply unix_seconds_trunc; [by exists 1000|done]. }
  unfold Format_instant, format_seconds, second_of_day, date. rewrite Hs.
  assert (Hn : nanosecond (t - t mod millisecond) / millisecond = nanosecond t / millisecond).
  { unfold nanosecond. rewrite !(Z.mod_eq _ second) by done. unfold unix_seconds in Hs.
    rewrite Hs. set (q := t / second).
    replace (t - t mod millisecond - second * q) with
      ((t / millisecond - 1000 * q) * millisecond)
      by (rewrite (Z.mod_eq t millisecond) by done; unfold second, millisecond; ring).
    rewrite Z.div_mul by done.
    replace (t - second * q) with (t + (-1000 * q) * millisecond)
      by (unfold second, millisecond; ring).
    rewrite Z.div_add by done. lia. }
  by rewrite Hn.
Qed.

Lemma Truncate_bucket_year t : year_ok t -> year_ok (Truncate t ConnectionBucketInterval).
Proof.
  unfold year_ok, year, date, Truncate.
  assert (Hd : unix_seconds (t - t mod ConnectionBucketInterval) / 86400 = unix_seconds t / 86400).
  { unfold unix_seconds, ConnectionBucketInterval, minute, second. dlia. }
  by rewrite Hd.
Qed.

Lemma Truncate_bucket_ms t :
  Truncate t ConnectionBucketInterval mod millisecond = 0 /\
  Truncate (Truncate t ConnectionBucketInterval) ConnectionBucketInterval =
  Truncate t ConnectionBucketInterval.
Proof. unfold Truncate, ConnectionBucketInterval, minute, second, millisecond. split; dlia. Qed.

(** An instant text that, if it parses, falls in the years 0 to 9999 of UTC. *)
Definition instant_ok (v : string) : Prop :=
  match Parse (TrimSpace v) with Some t => year_ok t | None => True end.
#[export] Instance instant_ok_dec v : Decision (instant_ok v).
Proof. unfold instant_ok. destruct (Parse (TrimSpace v)); apply _. Defined.

(** The texts the model stores for instants: the empty one, or the canonical
    rendering of a time within the four-digit years. *)
Definition canonical_instant (v : string) : Prop :=
  v = ""%string \/ exists t, year_ok t /\ v = Format_instant t.

Lemma Normalize_instant_canonical v :
  instant_ok v -> canonical_instant (NormalizeConnectionInstant v).
Proof.
  unfold instant_ok, NormalizeConnectionInstant, canonical_instant.
  destruct (Parse (TrimSpace v)); eauto.
Qed.

Lemma Truncate_bucket_canonical v :
  instant_ok v -> TruncateConnectionBucket v = ""%string \/
  exists t, year_ok t /\ Truncate t ConnectionBucketInterval = t /\
            t mod millisecond = 0 /\ TruncateConnectionBucket v = Format_instant t.
Proof.
  unfold instant_ok, TruncateConnectionBucket. destruct (Parse (TrimSpace v)) as [t|]; [|by left].
  intros Hy. right. exists (Truncate t ConnectionBucketInterval).
  pose proof (Truncate_bucket_ms t) as [? ?]. auto using Truncate_bucket_year.
Qed.

Lemma NormalizeConnectionInstant_canonical v :
  canonical_instant v -> NormalizeConnectionInstant v = v.
Proof.
  intros [->|(t & Hy & ->)]; [done|]. unfold NormalizeConnectionInstant.
  rewrite TrimSpace_id by (by apply Format_instant_trimmed).
  rewrite Parse_Format_instant by done. apply Format_instant_trunc.
Qed.

Lemma TruncateConnectionBucket_idem v :
  instant_ok v ->
  TruncateConnectionBucket (TruncateConnectionBucket v) = TruncateConnectionBucket v.
Proof.
  intros Hv. destruct (Truncate_bucket_canonical v Hv) as [->|(t & Hy & Ht & Hms & ->)]; [done|].
  unfold TruncateConnectionBucket. rewrite TrimSpace_id by (by apply Format_instant_trimmed).
  rewrite Parse_Format_instant by done. by rewrite Hms, Z.sub_0_r, Ht.
Qed.

Lemma Truncate_is_canonical v : instant_ok v -> canonical_instant (TruncateConnectionBucket v).
Proof.
  intros Hv. destruct (Truncate_bucket_canonical v Hv) as [->|(t & ? & _ & _ & ->)];
    [by left|right; eauto].
Qed.

(** ** Chains in canonical form *)
Definition hop_ok (hop : string) : Prop := ConnectionChainSeparator ∉ to_bytes hop.

#[export] Instance hop_ok_dec hop : Decision (hop_ok hop).
Proof. unfold hop_ok. apply _. Defined.

Lemma chain_parts_ok chain :
  Forall hop_ok chain ->
  Forall (fun p => p <> ""%string /\ TrimSpace p = p /\ hop_ok p) (chain_parts chain).
Proof.
  intros H. unfold chain_parts. apply Forall_forall. intros p Hp.
  apply list_elem_of_filter in Hp as [Hne Hp]. apply list_elem_of_In, in_map_iff in Hp as (q & <- & Hq).
  split_and!; [done|apply TrimSpace_idem|].
  unfold hop_ok. rewrite Forall_forall in H. intros Hin.
  apply list_elem_of_In in Hq. apply (H q Hq).
  destruct (trim_space_sublist (to_bytes q)) as (a & b & E). rewrite E.
  unfold TrimSpace in Hin. rewrite to_of_bytes in Hin. set_solver.
Qed.

Lemma chain_parts_fixed l :
  Forall (fun p => p <> ""%string /\ TrimSpace p = p /\ hop_ok p) l -> chain_parts l = l.
Proof.
  induction 1 as [|p l (Hne & Ht & _) Hl IH]; [done|].
  unfold chain_parts in *. simpl. rewrite Ht. rewrite filter_cons_True by done. by rewrite IH.
Qed.

Lemma Join_nonempty p l sep : p <> ""%string -> Join (p :: l) sep <> ""%string.
Proof. destruct p; [done|]. by destruct l. Qed.

Lemma Split_Join l sep :
  l <> [] -> Forall (fun p => sep ∉ to_bytes p) l -> Split (Join l (String sep "")) sep = l.
Proof.
  intros Hne Hl. unfold Split. rewrite Join_bytes, split_join.
  - rewrite map_map. rewrite (map_ext _ id) by (intros; apply of_to_bytes). apply map_id.
  - by destruct l.
  - by apply Forall_map.
Qed.

Lemma canonical_chain_parts chain :
  Forall hop_ok chain -> canonical_chain chain = chain_parts chain.
Proof.
  intros H. apply chain_parts_ok in H. unfold canonical_chain, ConnectionChainString.
  destruct (chain_parts chain) as [|p l]; [done|].
  inversion H as [|?? [Hne _] _]; subst.
  rewrite (proj2 (String.eqb_neq _ _)) by (by apply Join_nonempty).
  apply Split_Join; [done|]. eapply Forall_impl; [done|]. intros q (_ & _ & Hq). exact Hq.
Qed.

Lemma canonical_chain_idem chain :
  Forall hop_ok chain -> canonical_chain (canonical_chain chain) = canonical_chain chain.
Proof.
  intros H. rewrite (canonical_chain_parts chain) by done.
  pose proof (chain_parts_ok chain H) as Hp. rewrite canonical_chain_parts.
  - by apply chain_parts_fixed.
  - eapply Forall_impl; [done|]. by intros q (_ & _ & Hq).
Qed.

(** ** Hosts in canonical form *)
Section hosts.
Context `{UnicodeTables}.

Definition no_bracket_ends (l : bytes) : Prop :=
  drop_while is_bracket l = l /\ drop_while is_bracket (rev l) = rev l.
#[export] Instance no_bracket_ends_dec l : Decision (no_bracket_ends l).
Proof. unfold no_bracket_ends. apply _. Defined.

(** What one pass of [NormalizeConnectionHost] leaves of an ordinary host: no
    white space, bracket or further root dot at its ends. *)
Definition host_settled (r : string) : Prop :=
  trimmed (to_bytes r) /\ no_bracket_ends (to_bytes r) /\
  ((1 <? Z.of_nat (String.length r)) && has_suffix_byte r "." = false).
Definition host_ok (host : string) : Prop :=
  is_ascii (to_bytes host) = true /\ host_settled (NormalizeConnectionHost host).
#[export] Instance host_ok_dec host : Decision (host_ok host).
Proof. unfold host_ok, host_settled. apply _. Defined.

Lemma drop_while_suffix f l : exists p, l = p ++ drop_while f l.
Proof.
  induction l as [|c l [p IH]]; [by exists []|]. simpl. destruct (f c); [|by exists []].
  exists (c :: p). simpl. by rewrite <- IH.
Qed.

Lemma Trim_sublist s f : exists p q, to_bytes s = p ++ to_bytes (Trim s f) ++ q.
Proof.
  unfold Trim. rewrite to_of_bytes.
  destruct (drop_while_suffix f (to_bytes s)) as [p Hp].
  destruct (drop_while_suffix f (rev (drop_while f (to_bytes s)))) as [q Hq].
  exists p, (rev q). rewrite Hp at 1. f_equal.
  by rewrite <- rev_app_distr, <- Hq, rev_involutive.
Qed.

Lemma lower_fixed_sub l p q :
  map lower_byte l = l -> is_ascii l = true -> l = p ++ q ->
  map lower_byte q = q /\ is_ascii q = true.
Proof.
  intros Hm Ha ->. rewrite map_app in Hm. rewrite is_ascii_app in Ha.
  apply andb_true_iff in Ha as [_ Ha]. split; [|done].
  by apply app_inj_1 in Hm as [_ Hm]; [|rewrite length_map].
Qed.
Lemma lower_fixed_pre l p q :
  map lower_byte l = l -> is_ascii l = true -> l = p ++ q ->
  map lower_byte p = p /\ is_ascii p = true.
Proof.
  intros Hm Ha ->. rewrite map_app in Hm. rewrite is_ascii_app in Ha.
  apply andb_true_iff in Ha as [Ha _]. split; [|done].
  by apply app_inj_1 in Hm as [Hm _]; [|rewrite length_map].
Qed.

Lemma removelast_prefix {A} (l : list A) : exists q, l = removelast l ++ q.
Proof.
  induction l as [|a [|b l] [q IH]]; [by exists []|by exists [a]|].
  exists q. change (removelast (a :: b :: l)) with (a :: removelast (b :: l)).
  rewrite <- app_comm_cons. by rewrite <- IH.
Qed.

(** A canonical ASCII host is lower case. *)
Lemma NormalizeConnectionHost_lower host :
  is_ascii (to_bytes host) = true ->
  let r := to_bytes (NormalizeConnectionHost host) in
  map lower_byte r = r /\ is_ascii r = true.
Proof.
  intros Ha. cbv zeta. unfold NormalizeConnectionHost.
  set (s := ToLower (TrimSpace host)).
  assert (Hs : map lower_byte (to_bytes s) = to_bytes s /\ is_ascii (to_bytes s) = true).
  { subst s. unfold ToLower, TrimSpace. rewrite to_of_bytes, is_ascii_trim by done.
    rewrite to_of_bytes. split; [|by apply is_ascii_map_lower, is_ascii_trim].
    rewrite map_map. apply map_ext, lower_byte_idem. }
  destruct Hs as [Hm Hs].
  destruct (Trim_sublist s is_bracket) as (p & q & E).
  destruct (lower_fixed_sub _ _ _ Hm Hs E) as [Hm1 Hs1].
  destruct (lower_fixed_pre _ _ _ Hm1 Hs1 eq_refl) as [Hm2 Hs2].
  destruct (_ && _); [|done]. unfold trim_suffix_byte. destruct (has_suffix_byte _ _); [|done].
  rewrite to_of_bytes.
  destruct (removelast_prefix (to_bytes (Trim s is_bracket))) as [q' E'].
  exact (lower_fixed_pre _ _ _ Hm2 Hs2 E').
Qed.

Lemma host_settled_fixed r :
  map lower_byte (to_bytes r) = to_bytes r -> is_ascii (to_bytes r) = true -> host_settled r ->
  NormalizeConnectionHost r = r.
Proof.
  intros Hm Ha (Ht & [Hb1 Hb2] & Hd). unfold NormalizeConnectionHost.
  rewrite TrimSpace_id by done. unfold ToLower. rewrite Ha, Hm, of_to_bytes.
  assert (Htrim : Trim r is_bracket = r).
  { unfold Trim. by rewrite Hb1, Hb2, rev_involutive, of_to_bytes. }
  by rewrite Htrim, Hd.
Qed.

Lemma NormalizeConnectionHost_idem host :
  host_ok host ->
  NormalizeConnectionHost (NormalizeConnectionHost host) = NormalizeConnectionHost host.
Proof.
  intros [Ha Hs]. destruct (NormalizeConnectionHost_lower host Ha).
  by apply host_settled_fixed.
Qed.

(** ** Normalize twice is Normalize once *)

(** Ordinary telemetry: ASCII lower-cased fields, hosts with nothing left to
    strip after one pass, hops without the chain separator and instants within
    the four-digit years. *)
Record ordinary_bucket (b : ConnectionBucket) : Prop := {
  ob_source : host_ok (SourceIP b);
  ob_domain : host_ok (Domain b);
  ob_target : host_ok (TargetHost b);
  ob_network : is_ascii (to_bytes (Network b)) = true;
  ob_protocol : is_ascii (to_bytes (Protocol b)) = true;
  ob_chain : Forall hop_ok (Chain b);
  ob_started : instant_ok (StartedAt b);
  ob_bucket : instant_ok (BucketStart b);
  ob_wstart : instant_ok (WindowStart b);
  ob_wend : instant_ok (WindowEnd b);
}.

Lemma window_fixed ws we bs :
  canonical_instant ws -> canonical_instant we -> canonical_instant bs ->
  let ws' := if (ws =? "")%string then bs else ws in
  let we' := if (we =? "")%string || String.ltb we ws' then ws' else we in
  let ws2 := if (ws' =? "")%string then bs else ws' in
  canonical_instant ws' /\ canonical_instant we' /\
  ws2 = ws' /\
  (if (we' =? "")%string || String.ltb we' ws2 then ws2 else we') = we'.
Proof.
  intros Hws Hwe Hbs. cbv zeta.
  assert (Hr : forall s, String.ltb s s = false).
  { intros s. apply str_ltb_ge, str_lt_irrefl. }
  destruct (ws =? "")%string eqn:E1.
  - split; [done|].
    assert (E : (if (bs =? "")%string then bs else bs) = bs) by (by destruct (bs =? "")%string).
    rewrite E. destruct ((we =? "")%string || String.ltb we bs) eqn:E2.
    + rewrite Hr, orb_false_r. split_and!; [done..|]. by destruct (bs =? "")%string.
    + rewrite E2. done.
  - rewrite E1. split; [done|]. destruct ((we =? "")%string || String.ltb we ws) eqn:E2.
    + rewrite E1, Hr. done.
    + rewrite E2. done.
Qed.

(** Under those conditions every field of a bucket [normalize_fields] built is a
    fixed point of the canonicalisation of that field. *)
Lemma normalize_fields_fixed b id st bs :
  ordinary_bucket b -> canonical_instant bs ->
  let b' := normalize_fields b id st bs in
  normalize_fields b' id st bs = b'.
Proof.
  intros [Hsrc Hdom Htgt Hnet Hpro Hch _ _ Hws Hwe] Hbs. cbv zeta.
  pose proof (window_fixed _ _ _ (Normalize_instant_canonical _ Hws)
    (Normalize_instant_canonical _ Hwe) Hbs) as (Cws & Cwe & Fws & Fwe).
  cbv zeta in *.
  unfold normalize_fields. cbn -[String.eqb String.ltb]. f_equal.
  all: rewrite ?TrimSpace_idem, ?(NormalizeConnectionHost_idem _ Hdom); try done.
  - by apply NormalizeConnectionHost_idem.
  - destruct (NormalizeConnectionHost (Domain b) =? "")%string; [|done].
    by apply NormalizeConnectionHost_idem.
  - by apply lower_trim_idem.
  - destruct (negb (IPVersion b =? 4) && negb (IPVersion b =? 6)) eqn:E; [done|]. by rewrite E.
  - by apply lower_trim_idem.
  - by apply canonical_chain_idem.
  - rewrite (NormalizeConnectionInstant_canonical _ Cws). exact Fws.
  - rewrite (NormalizeConnectionInstant_canonical _ Cws), (NormalizeConnectionInstant_canonical _ Cwe).
    exact Fwe.
Qed.

Lemma Normalize_fixed b :
  ordinary_bucket b -> Normalize (fst (Normalize b)) = Normalize b.
Proof.
  intros Hb. unfold Normalize at 2 3.
  pose proof (NormalizeConnectionInstant_canonical _
    (Normalize_instant_canonical _ (ob_started _ Hb))) as Hst.
  destruct (negb (TrimSpace (ConnectionID b) =? "")%string
            && (NormalizeConnectionInstant (StartedAt b) =? "")%string) eqn:E.
  - cbn [fst]. unfold Normalize. cbn [ConnectionID StartedAt with_session].
    by rewrite TrimSpace_idem, Hst, E.
  - cbn [fst]. unfold Normalize. cbn [ConnectionID StartedAt normalize_fields].
    rewrite TrimSpace_idem, Hst, E.
    set (bs := if (TrimSpace (ConnectionID b) =? "")%string then _ else _).
    assert (Hbs : canonical_instant bs).
    { subst bs. destruct (_ =? "")%string.
      - apply Truncate_is_canonical, Hb.
      - apply Normalize_instant_canonical, Hb. }
    assert (Hbs2 : (if (TrimSpace (ConnectionID b) =? "")%string
                    then TruncateConnectionBucket bs
                    else NormalizeConnectionInstant (StartedAt b)) = bs).
    { subst bs. destruct (_ =? "")%string; [|done]. apply TruncateConnectionBucket_idem, Hb. }
    cbn [BucketStart normalize_fields]. rewrite Hbs2.
    by rewrite (normalize_fields_fixed b _ _ bs Hb Hbs).
Qed.
End hosts.

(** ** The dimension key identifies a bucket *)
Definition nul_free (s : string) : Prop := ConnectionDimensionSeparator ∉ to_bytes s.
#[export] Instance nul_free_dec s : Decision (nul_free s).
Proof. unfold nul_free. apply _. Defined.

(** "NUL cannot appear in any dimension." *)
Definition nul_free_bucket (b : ConnectionBucket) : Prop :=
  Forall nul_free [ConnectionID b; StartedAt b; BucketStart b; AuthName b; SourceIP b; TargetHost b;
    Domain b; Network b; Protocol b; Inbound b; InboundType b; Rule b; Outbound b; OutboundType b]
  /\ Forall nul_free (Chain b).
#[export] Instance nul_free_bucket_dec b : Decision (nul_free_bucket b).
Proof. unfold nul_free_bucket. apply _. Defined.

(** Two buckets stand for the same session, or for the same dimension tuple. *)
Definition same_identity (b1 b2 : ConnectionBucket) : Prop :=
  if decide (ConnectionID b1 = "")
  then ConnectionID b2 = ""%string /\
       (BucketStart b1, AuthName b1, SourceIP b1, TargetHost b1, TargetPort b1, Domain b1) =
       (BucketStart b2, AuthName b2, SourceIP b2, TargetHost b2, TargetPort b2, Domain b2) /\
       (Network b1, IPVersion b1, Protocol b1, Inbound b1, InboundType b1, Rule b1, Outbound b1,
        OutboundType b1) =
       (Network b2, IPVersion b2, Protocol b2, Inbound b2, InboundType b2, Rule b2, Outbound b2,
        OutboundType b2) /\
       ConnectionChainString (Chain b1) = ConnectionChainString (Chain b2)
  else ConnectionID b1 = ConnectionID b2 /\ StartedAt b1 = StartedAt b2.

Lemma nul_free_FormatInt z : nul_free (FormatInt z).
Proof. by apply FormatInt_no_byte. Qed.

Lemma nul_free_sub s p q r : to_bytes s = p ++ q ++ r -> nul_free s -> ConnectionDimensionSeparator ∉ q.
Proof. unfold nul_free. intros ->. set_solver. Qed.

Lemma nul_free_chain chain : Forall nul_free chain -> nul_free (ConnectionChainString chain).
Proof.
  intros H. unfold nul_free, ConnectionChainString. rewrite Join_bytes.
  assert (Hp : Forall (fun l => ConnectionDimensionSeparator ∉ l) (map to_bytes (chain_parts chain))).
  { apply Forall_map, Forall_forall. intros p Hp. unfold chain_parts in Hp.
    apply list_elem_of_filter in Hp as [_ Hp].
    apply list_elem_of_In, in_map_iff in Hp as (q & <- & Hq). apply list_elem_of_In in Hq.
    rewrite Forall_forall in H. unfold TrimSpace. cbn. rewrite to_of_bytes.
    destruct (trim_space_sublist (to_bytes q)) as (a & b & E).
    exact (nul_free_sub _ _ _ _ E (H q Hq)). }
  induction Hp as [|p l Hp Hl IH]; [set_solver|]. destruct l as [|q l]; [done|].
  change (join_bytes ConnectionChainSeparator (p :: q :: l)) with
    (p ++ ConnectionChainSeparator :: join_bytes ConnectionChainSeparator (q :: l)).
  rewrite elem_of_app, elem_of_cons. intros [?|[?|?]]; done.
Qed.

Lemma dimension_parts_nul_free b :
  nul_free_bucket b -> Forall (fun p => ConnectionDimensionSeparator ∉ to_bytes p) (dimension_parts b).
Proof.
  intros [H Hc]. rewrite !Forall_cons in H. unfold dimension_parts.
  destruct_and! H. pose proof (nul_free_FormatInt (TargetPort b)).
  pose proof (nul_free_FormatInt (IPVersion b)). pose proof (nul_free_chain _ Hc).
  destruct (negb _); repeat (apply Forall_cons; split); first [assumption | by apply Forall_nil | by apply (bool_decide_unpack (nul_free _))].
Qed.

Lemma DimensionKey_parts b1 b2 :
  nul_free_bucket b1 -> nul_free_bucket b2 -> DimensionKey b1 = DimensionKey b2 ->
  dimension_parts b1 = dimension_parts b2.
Proof.
  intros H1%dimension_parts_nul_free H2%dimension_parts_nul_free E.
  assert (Hne : forall b, dimension_parts b <> []) by (intros b; unfold dimension_parts; by case_match).
  rewrite <- (Split_Join _ ConnectionDimensionSeparator (Hne b1) H1).
  rewrite <- (Split_Join _ ConnectionDimensionSeparator (Hne b2) H2).
  f_equal. exact E.
Qed.

Lemma dimension_parts_identity b1 b2 :
  dimension_parts b1 = dimension_parts b2 -> same_identity b1 b2.
Proof.
  unfold dimension_parts, same_identity.
  destruct (ConnectionID b1 =? "")%string eqn:E1; destruct (ConnectionID b2 =? "")%string eqn:E2;
    breflect; simpl; try done.
  - rewrite decide_True by done. intros H. split; [done|].
    injection H as ???? Hport ?? Hip ???????. apply (inj FormatInt) in Hport, Hip.
    split_and!; congruence.
  - rewrite decide_False by done. intros H. by inversion H.
Qed.

(** ** Folding snapshots *)
Lemma merge_end_comm m x y : merge_end (merge_end m x) y = merge_end (merge_end m y) x.
Proof. unfold merge_end. str_cases. Qed.
Lemma merge_end_idem m x : merge_end (merge_end m x) x = merge_end m x.
Proof. unfold merge_end. str_cases. Qed.

Lemma merge_start_comm m x y : merge_start (merge_start m x) y = merge_start (merge_start m y) x.
Proof.
  unfold merge_start.
  destruct (x =? "")%string eqn:Ex; destruct (y =? "")%string eqn:Ey; destruct (m =? "")%string eqn:Em;
    simpl; rewrite ?Ex, ?Ey, ?Em; simpl; try done; str_cases;
    repeat (rewrite ?Ex, ?Ey, ?Em; simpl; str_cases).
Qed.
Lemma merge_start_idem m x : merge_start (merge_start m x) x = merge_start m x.
Proof.
  unfold merge_start. destruct (x =? "")%string eqn:Ex; simpl; [done|].
  destruct (m =? "")%string eqn:Em; simpl; rewrite ?Ex; simpl; str_cases; rewrite ?Ex, ?Em; simpl; str_cases.
Qed.

Lemma Merge_session b o :
  ConnectionID b <> ""%string ->
  Merge b o = with_measures b
    (Z.max (ConnectionsOpened b) (ConnectionsOpened o))
    (Z.max (ConnectionsClosed b) (ConnectionsClosed o))
    (Z.max (UplinkBytes b) (UplinkBytes o)) (Z.max (DownlinkBytes b) (DownlinkBytes o))
    (Z.max (DurationMsTotal b) (DurationMsTotal o))
    (merge_start (WindowStart b) (WindowStart o)) (merge_end (WindowEnd b) (WindowEnd o)).
Proof. intros H. unfold Merge. by rewrite (proj2 (String.eqb_neq _ _) H). Qed.

Lemma merge_same_set b l1 l2 :
  ConnectionID b <> ""%string -> (forall x, x ∈ l1 <-> x ∈ l2) ->
  foldl Merge b l1 = foldl Merge b l2.
Proof.
  intros Hid Hl.
  set (f := fun b o => with_measures b
    (Z.max (ConnectionsOpened b) (ConnectionsOpened o))
    (Z.max (ConnectionsClosed b) (ConnectionsClosed o))
    (Z.max (UplinkBytes b) (UplinkBytes o)) (Z.max (DownlinkBytes b) (DownlinkBytes o))
    (Z.max (DurationMsTotal b) (DurationMsTotal o))
    (merge_start (WindowStart b) (WindowStart o)) (merge_end (WindowEnd b) (WindowEnd o))).
  assert (Hf : forall l b, ConnectionID b <> ""%string -> foldl Merge b l = foldl f b l).
  { induction l as [|o l IH]; intros b' Hb'; [done|]. simpl. rewrite IH by done.
    by rewrite Merge_session. }
  rewrite !Hf by done. apply foldl_same_set; [| |done]; intros a x; [intros y|];
    subst f; unfold with_measures; cbn; f_equal;
    first [lia | apply merge_start_comm | apply merge_end_comm
          | apply merge_start_idem | apply merge_end_idem].
Qed.

(** ** Properties *)

(** on ordinary telemetry [Normalize] run twice is [Normalize] run once:
    the bucket the agent keyed is the bucket the server keys. *)
Theorem Normalize_idempotent `{UnicodeTables} b :
  ordinary_bucket b -> Normalize (fst (Normalize b)) = Normalize b.
Proof. exact (Normalize_fixed b). Qed.

Definition sample_bucket : ConnectionBucket :=
  {| ConnectionID := " c-1 "; StartedAt := "2024-05-01T14:00:05.1239+02:00"; BucketStart := "";
     AuthName := " alice"; SourceIP := "[2001:DB8::1]"; TargetHost := "EXAMPLE.com.";
     TargetPort := 443; Domain := ""; Network := "TCP"; IPVersion := 6; Protocol := "tls ";
     Inbound := "vless-in"; InboundType := "vless"; Rule := "final"; Outbound := "direct";
     OutboundType := "direct"; Chain := [" direct"; ""; "wan"];
     ConnectionsOpened := 1; ConnectionsClosed := 0; UplinkBytes := 10; DownlinkBytes := 20;
     DurationMsTotal := 0; WindowStart := "2024-05-01T12:00:06Z"; WindowEnd := "" |}.

Lemma sample_ordinary : @ordinary_bucket ascii_only_tables sample_bucket.
Proof.
  split; lazymatch goal with |- ?P => apply (bool_decide_unpack P); vm_compute; exact I end.
Defined.

Lemma Normalize_idempotent_witness :
  @Normalize ascii_only_tables (fst (@Normalize ascii_only_tables sample_bucket))
  = @Normalize ascii_only_tables sample_bucket
  /\ snd (@Normalize ascii_only_tables sample_bucket) = true.
Proof.
  split; [apply (@Normalize_idempotent ascii_only_tables), sample_ordinary|reflexivity].
Defined.

(** off ordinary telemetry it is not: a host with two root dots changes
    identity on the second pass, though both passes accept the bucket. *)
Theorem Normalize_not_idempotent :
  exists b, let '(b1, ok1) := @Normalize ascii_only_tables b in
    let '(b2, ok2) := @Normalize ascii_only_tables b1 in
    ok1 = true /\ ok2 = true /\ TargetHost b1 = "example.com."%string /\
    TargetHost b2 = "example.com"%string.
Proof.
  exists {| ConnectionID := ""; StartedAt := ""; BucketStart := "2024-05-01T12:00:00Z";
     AuthName := ""; SourceIP := ""; TargetHost := "example.com..";
     TargetPort := 443; Domain := ""; Network := ""; IPVersion := 4; Protocol := "";
     Inbound := ""; InboundType := ""; Rule := ""; Outbound := ""; OutboundType := ""; Chain := [];
     ConnectionsOpened := 0; ConnectionsClosed := 0; UplinkBytes := 0; DownlinkBytes := 0;
     DurationMsTotal := 0; WindowStart := ""; WindowEnd := "" |}.
  vm_compute. auto.
Qed.

(** What an accepted bucket promises its consumer. *)
Record well_formed_bucket (b : ConnectionBucket) : Prop := {
  wf_target : TargetHost b <> ""%string;
  wf_start : exists t, year_ok t /\ BucketStart b = Format_instant t /\
    (ConnectionID b = ""%string -> t mod ConnectionBucketInterval = 0);
  wf_session : ConnectionID b <> ""%string -> BucketStart b = StartedAt b;
  wf_window : WindowStart b <> ""%string /\ ~ str_lt (WindowEnd b) (WindowStart b);
  wf_port : 0 <= TargetPort b <= 65535;
  wf_ip : IPVersion b = 0 \/ IPVersion b = 4 \/ IPVersion b = 6;
  wf_domain : Domain b <> ""%string -> TargetHost b = Domain b;
  wf_measures : 0 <= ConnectionsOpened b /\ 0 <= ConnectionsClosed b /\ 0 <= UplinkBytes b /\
    0 <= DownlinkBytes b /\ 0 <= DurationMsTotal b;
}.

Lemma normalize_window b st bs id `{UnicodeTables} :
  bs <> ""%string ->
  WindowStart (normalize_fields b id st bs) <> ""%string /\
  ~ str_lt (WindowEnd (normalize_fields b id st bs)) (WindowStart (normalize_fields b id st bs)).
Proof.
  intros Hbs. cbn. split.
  - destruct (_ =? "")%string eqn:E; [done|]. by breflect.
  - destruct (_ || _) eqn:E; [apply str_lt_irrefl|]. breflect. by apply str_ltb_ge.
Qed.



(** two buckets without NUL bytes that share a [DimensionKey] are the same
    session or the same dimension tuple, so folding by key never mixes rows. *)
Theorem DimensionKey_identifies b1 b2 :
  nul_free_bucket b1 -> nul_free_bucket b2 -> DimensionKey b1 = DimensionKey b2 ->
  same_identity b1 b2.
Proof. intros H1 H2 E. by apply dimension_parts_identity, DimensionKey_parts. Qed.

Lemma DimensionKey_identifies_witness :
  same_identity sample_bucket (Merge sample_bucket sample_bucket).
Proof.
  apply DimensionKey_identifies; [| |reflexivity];
    apply (bool_decide_unpack (nul_free_bucket _)); vm_compute; exact I.
Defined.

(** folding session snapshots by [Merge] is insensitive to the order and
    the number of deliveries: two sequences with the same snapshots give the
    same bucket, which is what makes retried and reordered reports harmless. *)
Theorem Merge_snapshots_converge b l1 l2 :
  ConnectionID b <> ""%string -> (forall x, x ∈ l1 <-> x ∈ l2) ->
  foldl Merge b l1 = foldl Merge b l2.
Proof. apply merge_same_set. Qed.

Lemma Merge_snapshots_converge_witness :
  let s1 := with_measures sample_bucket 1 0 10 20 0 "2024-05-01T12:00:06.000Z" "2024-05-01T12:00:07.000Z" in
  let s2 := with_measures sample_bucket 1 1 30 20 900 "2024-05-01T12:00:06.000Z" "2024-05-01T12:00:09.000Z" in
  foldl Merge sample_bucket [s1; s2; s1] = foldl Merge sample_bucket [s2; s1].
Proof.
  intros s1 s2. apply Merge_snapshots_converge; [done|].
  intros x. rewrite !elem_of_cons. tauto.
Defined.

(** Instants in stored form compare as text exactly as they compare in
    time (to the millisecond), so SQL MIN and MAX over TEXT pick the extremes. *)
Theorem NormalizeConnectionInstant_order v1 v2 t1 t2 :
  Parse (TrimSpace v1) = Some t1 -> Parse (TrimSpace v2) = Some t2 ->
  year_ok t1 -> year_ok t2 ->
  String.compare (NormalizeConnectionInstant v1) (NormalizeConnectionInstant v2)
  = Z.compare (t1 / millisecond) (t2 / millisecond).
Proof.
  intros H1 H2 Hy1 Hy2. unfold NormalizeConnectionInstant. rewrite H1, H2.
  by apply compare_Format_instant.
Qed.

Lemma NormalizeConnectionInstant_order_witness :
  String.compare (NormalizeConnectionInstant "2024-05-01T12:00:05Z")
                 (NormalizeConnectionInstant "2024-05-01T12:00:05.5Z") = Lt.
Proof.
  refine (eq_trans (NormalizeConnectionInstant_order _ _ (1714564805 * second)
    (1714564805 * second + 500 * millisecond) _ _ _ _) _); try reflexivity;
    vm_compute; split; discriminate.
Defined.

(** An address printed as "host:port" splits back into the canonical host
    and the port. *)
Theorem SplitConnectionAddress_roundtrip `{UnicodeTables} host port :
  0 <= port <= 65535 -> trimmed (to_bytes (host ++ ":" ++ FormatInt port)%string) ->
  NormalizeConnectionHost host <> ""%string ->
  SplitConnectionAddress (host ++ ":" ++ FormatInt port)%string
  = Some (NormalizeConnectionHost host, port).
Proof.
  intros Hp Ht Hh. unfold SplitConnectionAddress. rewrite TrimSpace_id by done.
  destruct (FormatInt_digits port) as (_ & _ & Hne); [lia|].
  assert (Hlen : (0 < String.length (FormatInt port))%nat).
  { rewrite <- to_bytes_length. by destruct (to_bytes (FormatInt port)); [|simpl; lia]. }
  assert (Hh0 : (0 < String.length host)%nat).
  { destruct host; [|simpl; lia]. by destruct Hh. }
  change (":" ++ FormatInt port)%string with (String ":" (FormatInt port)).
  rewrite LastIndexByte_app by (by apply FormatInt_no_byte).
  rewrite str_length_app. cbn [String.length].
  rewrite (proj2 (Z.leb_gt _ _)), (proj2 (Z.eqb_neq _ _)) by lia. cbn [orb].
  rewrite str_drop_app, str_take_app.
  rewrite ParseInt_FormatInt by (unfold int64_max; lia).
  rewrite !(proj2 (Z.ltb_ge _ _)) by lia. cbn [orb].
  by rewrite (proj2 (String.eqb_neq _ _) Hh).
Qed.

Lemma SplitConnectionAddress_roundtrip_witness :
  @SplitConnectionAddress ascii_only_tables "[2001:DB8::1]:443" = Some ("2001:db8::1"%string, 443).
Proof.
  refine (@SplitConnectionAddress_roundtrip ascii_only_tables "[2001:DB8::1]" 443 _ _ _);
    [lia|apply (bool_decide_unpack (trimmed _)); vm_compute; exact I|vm_compute; discriminate].
Defined.
