(* ===== verification/Collector.v ===== *)
(** * The agent's connection collector

    [src/internal/agent/connections.go]: the state machine that folds sing-box's
    connection stream into bounded per-session snapshots.

    The mutex of the Go type makes every operation atomic, so the collector is
    a record and each operation a total function on it: [apply] for a received
    batch, [Drain] for a report.  Go's maps are [gmap]s; a [*trackedConnection]
    is only ever reachable through its entry of [live] (or not at all), so a
    mutation through the pointer is written back to that entry. *)
From S2P Require Import Prelude GoStrings GoTime ConnectionTelemetry.

#[local] Open Scope Z_scope.

Definition maxTrackedConnections : Z := 4096.
Definition maxPendingConnectionBuckets : Z := 2000.
Definition maxAccountedCloseIDs : nat := 2048.

(** ** The stream (daemonpb) *)
Record Connection := {
  cn_Id : string; cn_Source : string; cn_Destination : string; cn_User : string;
  cn_Domain : string; cn_Network : string; cn_IpVersion : Z; cn_Protocol : string;
  cn_Inbound : string; cn_InboundType : string; cn_Rule : string; cn_Outbound : string;
  cn_OutboundType : string; cn_ChainList : list string; cn_CreatedAt : Z; cn_ClosedAt : Z;
  cn_UplinkTotal : Z; cn_DownlinkTotal : Z
}.
Inductive ConnectionEventType := EVENT_NEW | EVENT_UPDATE | EVENT_CLOSED.
Record ConnectionEvent := {
  ev_Type : ConnectionEventType; ev_Id : string; ev_Connection : option Connection;
  ev_UplinkDelta : Z; ev_DownlinkDelta : Z; ev_ClosedAt : Z
}.
Record ConnectionEvents := { evs_Reset : bool; evs_Events : list ConnectionEvent }.

Definition connectionEventID (event : ConnectionEvent) (connection : option Connection) : string :=
  if (ev_Id event =? "")%string then default "" (cn_Id <$> connection) else ev_Id event.

(** ** singboxapi.Endpoint *)
Definition splitEndpoint (destination : string) : string * Z :=
  if (destination =? "")%string then ("", 0)
  else match SplitHostPort destination with
       | None => (destination, 0)
       | Some (host, portText) => (host, default 0 (ParseUint16 portText))
       end.
Definition Endpoint (conn : Connection) : string * Z :=
  let (destinationHost, destinationPort) := splitEndpoint (cn_Destination conn) in
  if (cn_Domain conn =? "")%string then (destinationHost, destinationPort)
  else (cn_Domain conn, destinationPort).

(** ** The ring of accounted closes *)
Record closedIDRing := { ids : gset string; order : list string; next : nat }.

Definition newClosedIDRing (limit : nat) : closedIDRing :=
  {| ids := ∅; order := replicate limit ""%string; next := 0 |}.
Definition contains (r : closedIDRing) (id : string) : bool := bool_decide (id ∈ ids r).
Definition add (r : closedIDRing) (id : string) : closedIDRing :=
  if contains r id then r
  else
    let evicted := default "" (order r !! next r) in
    let kept := if (evicted =? "")%string then ids r else ids r ∖ {[evicted]} in
    {| ids := kept ∪ {[id]};
       order := <[next r := id]> (order r);
       next := (next r + 1) mod length (order r) |}%nat.

(** ** State *)
Record trackedConnection := {
  template : ConnectionBucket;
  attributed : bool;
  createdAtMs : Z;
  uplink : Z;
  downlink : Z;
  t_epoch : Z;
  counted : bool;
}.

Record ConnectionCollector := {
  buckets : gmap string ConnectionBucket;
  live : gmap string trackedConnection;
  accounted : closedIDRing;
  coverage : ConnectionCoverage;
  epoch : Z;
  subscribed : bool;
  startupCloseHighWaterMs : Z;
  closeHighWaterMs : Z;
  windowStart : Time;
}.

Definition no_coverage : ConnectionCoverage :=
  {| ConnectionsObserved := 0; ConnectionsAttributed := 0; ConnectionsUnattributed := 0;
     ConnectionsOrphaned := 0; StreamResets := 0; DroppedBuckets := 0;
     BytesObserved := 0; BytesAttributed := 0 |}.

Definition newConnectionCollector (now : Time) : ConnectionCollector :=
  {| buckets := ∅; live := ∅; accounted := newClosedIDRing maxAccountedCloseIDs;
     coverage := no_coverage; epoch := 0; subscribed := false;
     startupCloseHighWaterMs := 0; closeHighWaterMs := 0; windowStart := now |}.

(** Field updates *)
Definition with_buckets c x := {| buckets := x; live := live c; accounted := accounted c;
  coverage := coverage c; epoch := epoch c; subscribed := subscribed c;
  startupCloseHighWaterMs := startupCloseHighWaterMs c; closeHighWaterMs := closeHighWaterMs c;
  windowStart := windowStart c |}.
Definition with_live c x := {| buckets := buckets c; live := x; accounted := accounted c;
  coverage := coverage c; epoch := epoch c; subscribed := subscribed c;
  startupCloseHighWaterMs := startupCloseHighWaterMs c; closeHighWaterMs := closeHighWaterMs c;
  windowStart := windowStart c |}.
Definition with_coverage c x := {| buckets := buckets c; live := live c; accounted := accounted c;
  coverage := x; epoch := epoch c; subscribed := subscribed c;
  startupCloseHighWaterMs := startupCloseHighWaterMs c; closeHighWaterMs := closeHighWaterMs c;
  windowStart := windowStart c |}.

Definition set_epoch t e := {| template := template t; attributed := attributed t;
  createdAtMs := createdAtMs t; uplink := uplink t; downlink := downlink t; t_epoch := e;
  counted := counted t |}.
Definition set_counted t b := {| template := template t; attributed := attributed t;
  createdAtMs := createdAtMs t; uplink := uplink t; downlink := downlink t; t_epoch := t_epoch t;
  counted := b |}.
Definition set_totals t u d := {| template := template t; attributed := attributed t;
  createdAtMs := createdAtMs t; uplink := u; downlink := d; t_epoch := t_epoch t;
  counted := counted t |}.

Definition inc (z : Z) : Z := wrap64 (z + 1).

(** The increments of [ConnectionCoverage] the code makes. *)
Definition cov_touch (att : bool) v := {| ConnectionsObserved := inc (ConnectionsObserved v);
  ConnectionsAttributed := if att then inc (ConnectionsAttributed v) else ConnectionsAttributed v;
  ConnectionsUnattributed := if att then ConnectionsUnattributed v else inc (ConnectionsUnattributed v);
  ConnectionsOrphaned := ConnectionsOrphaned v; StreamResets := StreamResets v;
  DroppedBuckets := DroppedBuckets v; BytesObserved := BytesObserved v;
  BytesAttributed := BytesAttributed v |}.
Definition cov_orphan v := {| ConnectionsObserved := ConnectionsObserved v;
  ConnectionsAttributed := ConnectionsAttributed v;
  ConnectionsUnattributed := ConnectionsUnattributed v;
  ConnectionsOrphaned := inc (ConnectionsOrphaned v); StreamResets := StreamResets v;
  DroppedBuckets := DroppedBuckets v; BytesObserved := BytesObserved v;
  BytesAttributed := BytesAttributed v |}.
Definition cov_reset v := {| ConnectionsObserved := ConnectionsObserved v;
  ConnectionsAttributed := ConnectionsAttributed v;
  ConnectionsUnattributed := ConnectionsUnattributed v;
  ConnectionsOrphaned := ConnectionsOrphaned v; StreamResets := inc (StreamResets v);
  DroppedBuckets := DroppedBuckets v; BytesObserved := BytesObserved v;
  BytesAttributed := BytesAttributed v |}.
Definition cov_drop v := {| ConnectionsObserved := ConnectionsObserved v;
  ConnectionsAttributed := ConnectionsAttributed v;
  ConnectionsUnattributed := ConnectionsUnattributed v;
  ConnectionsOrphaned := ConnectionsOrphaned v; StreamResets := StreamResets v;
  DroppedBuckets := inc (DroppedBuckets v); BytesObserved := BytesObserved v;
  BytesAttributed := BytesAttributed v |}.
Definition cov_bytes (total : Z) (att : bool) v := {| ConnectionsObserved := ConnectionsObserved v;
  ConnectionsAttributed := ConnectionsAttributed v;
  ConnectionsUnattributed := ConnectionsUnattributed v;
  ConnectionsOrphaned := ConnectionsOrphaned v; StreamResets := StreamResets v;
  DroppedBuckets := DroppedBuckets v; BytesObserved := wrap64 (BytesObserved v + total);
  BytesAttributed := if att then wrap64 (BytesAttributed v + total) else BytesAttributed v |}.

Definition upd_cov (c : ConnectionCollector) (f : ConnectionCoverage -> ConnectionCoverage) :=
  with_coverage c (f (coverage c)).

Definition setStartupCloseHighWater (c : ConnectionCollector) (closedAtMs : Z) : ConnectionCollector :=
  {| buckets := buckets c; live := live c; accounted := accounted c; coverage := coverage c;
     epoch := epoch c; subscribed := subscribed c;
     startupCloseHighWaterMs := closedAtMs;
     closeHighWaterMs := if closeHighWaterMs c <? closedAtMs then closedAtMs else closeHighWaterMs c;
     windowStart := windowStart c |}.
Definition CloseHighWaterMs (c : ConnectionCollector) : Z := closeHighWaterMs c.

(** ** Operations *)
Section operations.
Context `{UnicodeTables}.

(** Raise the recorded totals to the reported ones; the growth is returned. *)
Definition advance (t : trackedConnection) (uplinkTotal downlinkTotal : Z)
    : trackedConnection * (Z * Z) :=
  let '(u, ut) := if uplink t <? uplinkTotal then (wrap64 (uplinkTotal - uplink t), uplinkTotal)
                  else (0, uplink t) in
  let '(d, dt) := if downlink t <? downlinkTotal
                  then (wrap64 (downlinkTotal - downlink t), downlinkTotal)
                  else (0, downlink t) in
  (set_totals t ut dt, (u, d)).

Definition touch (c : ConnectionCollector) (t : trackedConnection)
    : ConnectionCollector * trackedConnection :=
  if counted t then (c, t) else (upd_cov c (cov_touch (attributed t)), set_counted t true).

(** The snapshot [record] files for a tracked connection. *)
Definition snapshot (t : trackedConnection) (at_ : Time) (closed durationMs : Z) : ConnectionBucket :=
  let b := template t in
  let instant := Format_instant at_ in
  {| ConnectionID := ConnectionID b; StartedAt := StartedAt b; BucketStart := StartedAt b;
     AuthName := AuthName b; SourceIP := SourceIP b; TargetHost := TargetHost b;
     TargetPort := TargetPort b; Domain := Domain b; Network := Network b;
     IPVersion := IPVersion b; Protocol := Protocol b; Inbound := Inbound b;
     InboundType := InboundType b; Rule := Rule b; Outbound := Outbound b;
     OutboundType := OutboundType b; Chain := Chain b;
     ConnectionsOpened := 1; ConnectionsClosed := closed;
     UplinkBytes := uplink t; DownlinkBytes := downlink t; DurationMsTotal := durationMs;
     WindowStart := instant; WindowEnd := instant |}.

Definition record (c : ConnectionCollector) (t : trackedConnection) (at_ : Time)
    (up down opened closed durationMs : Z) : ConnectionCollector :=
  if (up =? 0) && (down =? 0) && (opened =? 0) && (closed =? 0) then c
  else
    let bucket := snapshot t at_ closed durationMs in
    let key := DimensionKey bucket in
    let count c := upd_cov c (cov_bytes (wrap64 (up + down)) (attributed t)) in
    match buckets c !! key with
    | None =>
        if maxPendingConnectionBuckets <=? Z.of_nat (size (buckets c)) then upd_cov c cov_drop
        else count (with_buckets c (<[key := bucket]> (buckets c)))
    | Some existing => count (with_buckets c (<[key := Merge existing bucket]> (buckets c)))
    end.

Definition closeTracked (c : ConnectionCollector) (id : string) (t : trackedConnection)
    (closedAtMs up down opened : Z) : ConnectionCollector :=
  let closedAt := closedAtMs * millisecond in
  let durationMs := if (0 <? createdAtMs t) && (createdAtMs t <? closedAtMs)
                    then wrap64 (closedAtMs - createdAtMs t) else 0 in
  let c := record c t closedAt up down opened 1 durationMs in
  {| buckets := buckets c; live := delete id (live c); accounted := add (accounted c) id;
     coverage := coverage c; epoch := epoch c; subscribed := subscribed c;
     startupCloseHighWaterMs := startupCloseHighWaterMs c;
     closeHighWaterMs := if closeHighWaterMs c <? closedAtMs then closedAtMs else closeHighWaterMs c;
     windowStart := windowStart c |}.

(** The bucket [newTracked] normalises into the template. *)
Definition connection_template (id : string) (connection : Connection) : ConnectionBucket :=
  let (host, port) := Endpoint connection in
  {| ConnectionID := id;
     StartedAt := Format_instant (cn_CreatedAt connection * millisecond);
     BucketStart := Format_instant 0;
     AuthName := cn_User connection;
     SourceIP := match SplitConnectionAddress (cn_Source connection) with
                 | Some (sourceIP, _) => sourceIP | None => "" end;
     TargetHost := host; TargetPort := port;
     Domain := cn_Domain connection; Network := cn_Network connection;
     IPVersion := cn_IpVersion connection; Protocol := cn_Protocol connection;
     Inbound := cn_Inbound connection; InboundType := cn_InboundType connection;
     Rule := cn_Rule connection; Outbound := cn_Outbound connection;
     OutboundType := cn_OutboundType connection; Chain := cn_ChainList connection;
     ConnectionsOpened := 0; ConnectionsClosed := 0; UplinkBytes := 0; DownlinkBytes := 0;
     DurationMsTotal := 0; WindowStart := ""; WindowEnd := "" |}.

Definition newTracked (c : ConnectionCollector) (id : string) (connection : Connection)
    : ConnectionCollector * option trackedConnection :=
  let (normalized, ok) := Normalize (connection_template id connection) in
  if ok then
    (c, Some {| template := normalized;
                attributed := negb (AuthName normalized =? "")%string;
                createdAtMs := cn_CreatedAt connection;
                uplink := 0; downlink := 0; t_epoch := epoch c; counted := false |})
  else (upd_cov c cov_drop, None).

Definition applyNew (c : ConnectionCollector) (event : ConnectionEvent) (now : Time)
    : ConnectionCollector :=
  match ev_Connection event with
  | None => c
  | Some connection =>
      let id := connectionEventID event (Some connection) in
      if (id =? "")%string then c
      else
        let closedAtMs := cn_ClosedAt connection in
        match live c !! id with
        | Some tracked =>
            let (c, tracked) := touch c (set_epoch tracked (epoch c)) in
            let '(tracked, (up, down)) :=
              advance tracked (cn_UplinkTotal connection) (cn_DownlinkTotal connection) in
            let c := with_live c (<[id := tracked]> (live c)) in
            if negb (closedAtMs =? 0) then closeTracked c id tracked closedAtMs up down 0
            else record c tracked now up down 0 0 0
        | None =>
            if negb (closedAtMs =? 0) then
              if contains (accounted c) id || (closedAtMs <=? startupCloseHighWaterMs c) then c
              else
                match newTracked c id connection with
                | (c, None) => c
                | (c, Some tracked) =>
                    let (c, tracked) := touch c tracked in
                    let c := upd_cov c cov_orphan in
                    let '(tracked, (up, down)) :=
                      advance tracked (cn_UplinkTotal connection) (cn_DownlinkTotal connection) in
                    closeTracked c id tracked closedAtMs up down 1
                end
            else if maxTrackedConnections <=? Z.of_nat (size (live c)) then upd_cov c cov_drop
            else
              match newTracked c id connection with
              | (c, None) => c
              | (c, Some tracked) =>
                  let (c, tracked) := touch c tracked in
                  let '(tracked, (up, down)) :=
                    advance tracked (cn_UplinkTotal connection) (cn_DownlinkTotal connection) in
                  let c := with_live c (<[id := tracked]> (live c)) in
                  record c tracked now up down 1 0 0
              end
        end
  end.

Definition applyUpdate (c : ConnectionCollector) (event : ConnectionEvent) (now : Time)
    : ConnectionCollector :=
  match live c !! ev_Id event with
  | None => c
  | Some tracked =>
      let (c, tracked) := touch c (set_epoch tracked (epoch c)) in
      let up := Z.max (ev_UplinkDelta event) 0 in
      let down := Z.max (ev_DownlinkDelta event) 0 in
      let tracked := set_totals tracked (wrap64 (uplink tracked + up))
                                        (wrap64 (downlink tracked + down)) in
      let c := with_live c (<[ev_Id event := tracked]> (live c)) in
      record c tracked now up down 0 0 0
  end.

Definition applyClosed (c : ConnectionCollector) (event : ConnectionEvent) (now : Time)
    : ConnectionCollector :=
  let id := ev_Id event in
  if (id =? "")%string then c
  else
    let connection := ev_Connection event in
    let closedAtMs := ev_ClosedAt event in
    let closedAtMs := if closedAtMs =? 0 then default 0 (cn_ClosedAt <$> connection) else closedAtMs in
    let closedAtMs := if closedAtMs =? 0 then now / millisecond else closedAtMs in
    match live c !! id with
    | Some tracked =>
        let (c, tracked) := touch c (set_epoch tracked (epoch c)) in
        let '(tracked, (up, down)) :=
          match connection with
          | Some connection =>
              advance tracked (cn_UplinkTotal connection) (cn_DownlinkTotal connection)
          | None => (tracked, (0, 0))
          end in
        let c := with_live c (<[id := tracked]> (live c)) in
        closeTracked c id tracked closedAtMs up down 0
    | None =>
        if contains (accounted c) id then c
        else
          let c := upd_cov c cov_orphan in
          match connection with
          | None => c
          | Some connection =>
              match newTracked c id connection with
              | (c, None) => c
              | (c, Some tracked) =>
                  let (c, tracked) := touch c tracked in
                  let '(tracked, (up, down)) :=
                    advance tracked (cn_UplinkTotal connection) (cn_DownlinkTotal connection) in
                  closeTracked c id tracked closedAtMs up down 1
              end
          end
    end.

Definition sweepStale (c : ConnectionCollector) : ConnectionCollector :=
  with_live c (filter (fun it => t_epoch it.2 = epoch c) (live c)).

Definition apply_event (now : Time) (c : ConnectionCollector) (event : ConnectionEvent)
    : ConnectionCollector :=
  match ev_Type event with
  | EVENT_NEW => applyNew c event now
  | EVENT_UPDATE => applyUpdate c event now
  | EVENT_CLOSED => applyClosed c event now
  end.

Definition begin_replay (c : ConnectionCollector) : ConnectionCollector :=
  {| buckets := buckets c; live := live c; accounted := accounted c;
     coverage := if subscribed c then cov_reset (coverage c) else coverage c;
     epoch := wrap64 (epoch c + 1); subscribed := true;
     startupCloseHighWaterMs := startupCloseHighWaterMs c;
     closeHighWaterMs := closeHighWaterMs c; windowStart := windowStart c |}.

Definition apply (c : ConnectionCollector) (batch : option ConnectionEvents) (now : Time)
    : ConnectionCollector :=
  match batch with
  | None => c
  | Some batch =>
      let c := if evs_Reset batch then begin_replay c else c in
      let c := foldl (apply_event now) c (evs_Events batch) in
      if evs_Reset batch then sweepStale c else c
  end.

(** sort.Strings on the keys, then the buckets in key order. *)
Definition key_le (x y : string * ConnectionBucket) : Prop := String.leb x.1 y.1 = true.
#[export] Instance key_le_dec x y : Decision (key_le x y).
Proof. unfold key_le. apply _. Defined.

Definition sorted_buckets (m : gmap string ConnectionBucket) : list ConnectionBucket :=
  (merge_sort key_le (map_to_list m)).*2.

Definition Drain (c : ConnectionCollector) (now : Time)
    : ConnectionCollector * (list ConnectionBucket * ConnectionCoverage * Time * bool) :=
  let ws := windowStart c in
  if bool_decide (buckets c = ∅) && bool_decide (coverage c = no_coverage) then
    ({| buckets := buckets c; live := live c; accounted := accounted c; coverage := coverage c;
        epoch := epoch c; subscribed := subscribed c;
        startupCloseHighWaterMs := startupCloseHighWaterMs c;
        closeHighWaterMs := closeHighWaterMs c; windowStart := now |},
     ([], no_coverage, ws, false))
  else
    ({| buckets := ∅; live := (fun t => set_counted t false) <$> live c; accounted := accounted c;
        coverage := no_coverage; epoch := epoch c; subscribed := subscribed c;
        startupCloseHighWaterMs := startupCloseHighWaterMs c;
        closeHighWaterMs := closeHighWaterMs c; windowStart := now |},
     (sorted_buckets (buckets c), coverage c, ws, true)).
End operations.

(** ** The ring: a bounded set with first-in first-out eviction *)
Section ring.
Implicit Types r : closedIDRing.

Record ring_wf (limit : nat) r : Prop := {
  rw_length : length (order r) = limit;
  rw_next : (next r < limit)%nat;
  rw_ids : forall id, id ∈ ids r <-> id ∈ order r /\ id <> ""%string;
  rw_nodup : forall i j id, id <> ""%string -> order r !! i = Some id -> order r !! j = Some id -> i = j;
}.

Lemma ring_wf_new limit : (0 < limit)%nat -> ring_wf limit (newClosedIDRing limit).
Proof.
  intros Hl. split; simpl.
  - by rewrite length_replicate.
  - done.
  - intros id. split; [set_solver|]. intros [Hin Hne]. by apply elem_of_replicate in Hin as [-> _].
  - intros i j id Hne Hi. apply lookup_replicate in Hi as [-> _]. done.
Qed.

Lemma ring_slot limit r : ring_wf limit r -> exists e, order r !! next r = Some e.
Proof. intros [Hl Hn _ _]. apply lookup_lt_is_Some. lia. Qed.

Lemma add_known r id : contains r id = true -> add r id = r.
Proof. intros H. unfold add. by rewrite H. Qed.

Lemma add_wf limit r id : id <> ""%string -> ring_wf limit r -> ring_wf limit (add r id).
Proof.
  intros Hid Hwf. unfold add. destruct (contains r id) eqn:Hc; [done|].
  destruct (ring_slot _ _ Hwf) as [e He]. rewrite He. simpl.
  destruct Hwf as [Hl Hn Hids Hnd]. unfold contains in Hc. breflect.
  assert (Hnew : id ∉ order r) by (intros H; apply Hc, Hids; done).
  assert (Hother : forall x, x <> id -> x ∈ <[next r := id]> (order r) <->
                             exists j, j <> next r /\ order r !! j = Some x).
  { intros x Hx. rewrite list_elem_of_lookup. split.
    - intros [j Hj]. destruct (decide (j = next r)) as [->|Hj'].
      + rewrite list_lookup_insert_eq in Hj by lia. congruence.
      + rewrite list_lookup_insert_ne in Hj by done. eauto.
    - intros (j & Hj & Hx'). exists j. by rewrite list_lookup_insert_ne. }
  split; simpl.
  - by rewrite length_insert.
  - rewrite Hl. apply Nat.mod_upper_bound. lia.
  - intros x. rewrite elem_of_union, elem_of_singleton.
    destruct (decide (x = id)) as [->|Hx].
    { split; [|by right]. intros _. split; [|done].
      apply list_elem_of_lookup. exists (next r). apply list_lookup_insert_eq. lia. }
    rewrite Hother by done.
    assert (Hk : x ∈ (if (e =? "")%string then ids r else ids r ∖ {[e]}) <-> x ∈ ids r /\ (x <> e \/ e = ""%string)).
    { destruct (e =? "")%string eqn:Ee; breflect; [tauto|]. rewrite elem_of_difference, elem_of_singleton. tauto. }
    rewrite Hk, Hids. split.
    + intros [[[Hin Hne] Hxe]|?]; [|done]. split; [|done].
      apply list_elem_of_lookup in Hin as [j Hj]. exists j. split; [|done].
      intros ->. rewrite He in Hj. simplify_eq. destruct Hxe; congruence.
    + intros [(j & Hj & Hx') Hne]. left. split; [split; [|done]; apply list_elem_of_lookup; eauto|].
      left. intros ->. by apply Hj, (Hnd j (next r) e).
  - intros i j x Hne Hi Hj.
    destruct (decide (i = next r)) as [->|Hi']; destruct (decide (j = next r)) as [->|Hj'];
      rewrite ?list_lookup_insert_eq, ?list_lookup_insert_ne in Hi by lia;
      rewrite ?list_lookup_insert_eq, ?list_lookup_insert_ne in Hj by lia; simplify_eq.
    + done.
    + destruct Hnew. apply list_elem_of_lookup. eauto.
    + destruct Hnew. apply list_elem_of_lookup. eauto.
    + by apply (Hnd i j x).
Qed.

Lemma ring_bounded limit r : ring_wf limit r -> (size (ids r) <= limit)%nat.
Proof.
  intros [Hl _ Hids _]. rewrite <- Hl.
  etrans; [|apply size_list_to_set_le]. apply subseteq_size.
  intros x Hx. apply elem_of_list_to_set. by apply Hids in Hx as [? _].
Qed.

(** [id] survives [k] further additions. *)
Definition fresh (limit : nat) r (id : string) (k : nat) : Prop :=
  exists d, (k <= d < limit)%nat /\ order r !! ((next r + d) mod limit)%nat = Some id.

Lemma fresh_weaken limit r id k k' : (k' <= k)%nat -> fresh limit r id k -> fresh limit r id k'.
Proof. intros Hk (d & Hd & H). exists d. split; [lia|done]. Qed.

Lemma fresh_contains limit r id k :
  ring_wf limit r -> id <> ""%string -> fresh limit r id k -> contains r id = true.
Proof.
  intros [_ _ Hids _] Hne (d & _ & H). apply bool_decide_eq_true, Hids. split; [|done].
  apply list_elem_of_lookup. eauto.
Qed.

Lemma fresh_add limit r id id' k :
  ring_wf limit r -> fresh limit r id (S k) -> fresh limit (add r id') id k.
Proof.
  intros [Hl Hn _ _] (d & Hd & H). unfold add. destruct (contains r id') eqn:Hc.
  { exists d. split; [lia|done]. }
  exists (d - 1)%nat. split; [lia|]. simpl. rewrite Hl.
  rewrite Nat.Div0.add_mod_idemp_l.
  replace (next r + 1 + (d - 1))%nat with (next r + d)%nat by lia.
  rewrite list_lookup_insert_ne; [done|]. intros E.
  destruct (decide (next r + d < limit)%nat).
  - rewrite Nat.mod_small in E by lia. lia.
  - assert (Hm : ((next r + d) mod limit = next r + d - limit)%nat).
    { symmetry. apply (Nat.mod_unique _ _ 1); lia. }
    lia.
Qed.

Lemma fresh_just_added limit r id :
  ring_wf limit r -> contains r id = false -> fresh limit (add r id) id (limit - 1).
Proof.
  intros [Hl Hn _ _] Hc. unfold add. rewrite Hc. exists (limit - 1)%nat. split; [lia|]. simpl.
  rewrite Hl, Nat.Div0.add_mod_idemp_l.
  replace (next r + 1 + (limit - 1))%nat with (next r + 1 * limit)%nat by lia.
  rewrite Nat.Div0.mod_add, Nat.mod_small by lia. apply list_lookup_insert_eq. lia.
Qed.
End ring.

(** ** The invariant of a running collector *)
Record collector_inv (c : ConnectionCollector) : Prop := {
  ci_ring : ring_wf maxAccountedCloseIDs (accounted c);
  ci_live : Z.of_nat (size (live c)) <= maxTrackedConnections;
  ci_live_ids : forall id t, live c !! id = Some t -> id <> ""%string;
  ci_buckets : Z.of_nat (size (buckets c)) <= maxPendingConnectionBuckets;
  ci_keys : forall k b, buckets c !! k = Some b -> DimensionKey b = k;
  ci_opened : forall k b, buckets c !! k = Some b -> ConnectionID b <> ""%string ->
    ConnectionsOpened b = 1 /\ 0 <= ConnectionsClosed b <= 1;
  ci_observed : ConnectionsObserved (coverage c) =
    wrap64 (ConnectionsAttributed (coverage c) + ConnectionsUnattributed (coverage c));
}.

Section preservation.
Context `{UnicodeTables}.
Implicit Types (c : ConnectionCollector) (t : trackedConnection).

Lemma inv_new now : collector_inv (newConnectionCollector now).
Proof.
  split; simpl; try done.
  apply ring_wf_new. unfold maxAccountedCloseIDs. lia.
Qed.

(** Coverage updates other than [cov_touch] do not concern the invariant. *)
Lemma inv_upd_cov c f :
  (forall v, ConnectionsObserved (f v) = ConnectionsObserved v /\
             ConnectionsAttributed (f v) = ConnectionsAttributed v /\
             ConnectionsUnattributed (f v) = ConnectionsUnattributed v) ->
  collector_inv c -> collector_inv (upd_cov c f).
Proof.
  intros Hf [? ? ? ? ? ? Ho]. split; try done. simpl.
  destruct (Hf (coverage c)) as (-> & -> & ->). done.
Qed.
Lemma inv_drop c : collector_inv c -> collector_inv (upd_cov c cov_drop).
Proof. by apply inv_upd_cov. Qed.
Lemma inv_orphan c : collector_inv c -> collector_inv (upd_cov c cov_orphan).
Proof. by apply inv_upd_cov. Qed.

Lemma touch_spec c t c' t' :
  touch c t = (c', t') ->
  c' = upd_cov c (if counted t then id else cov_touch (attributed t)) /\ t' = set_counted t true.
Proof.
  unfold touch. destruct (counted t) eqn:E; intros [= <- <-]; [|done].
  split; [by destruct c|]. destruct t; simpl in *. by subst.
Qed.

Lemma inv_touch c t c' t' : touch c t = (c', t') -> collector_inv c -> collector_inv c'.
Proof.
  intros [-> _]%touch_spec [? ? ? ? ? ? Ho]. destruct (counted t); [by split|].
  split; try done. simpl. rewrite Ho. unfold inc.
  destruct (attributed t); rewrite ?wrap64_add_l, ?wrap64_add_r; f_equal; lia.
Qed.

Lemma snapshot_key_Merge b o : DimensionKey (Merge b o) = DimensionKey b.
Proof. done. Qed.

Lemma inv_record c t at_ up down opened closed dur :
  0 <= closed <= 1 -> collector_inv c -> collector_inv (record c t at_ up down opened closed dur).
Proof.
  intros Hcl Hc. unfold record. destruct (_ && _); [done|].
  set (b := snapshot t at_ closed dur).
  assert (Hins : forall b', DimensionKey b' = DimensionKey b ->
    (ConnectionID b' <> ""%string -> ConnectionsOpened b' = 1 /\ 0 <= ConnectionsClosed b' <= 1) ->
    Z.of_nat (size (<[DimensionKey b := b']> (buckets c))) <= maxPendingConnectionBuckets ->
    collector_inv (with_buckets c (<[DimensionKey b := b']> (buckets c)))).
  { intros b' Hk Ho Hs. destruct Hc as [? ? ? ? Hkeys Hop ?]. split; try done; simpl.
    - intros k x Hx. apply lookup_insert_Some in Hx as [[<- <-]|[? Hx]]; eauto.
    - intros k x Hx. apply lookup_insert_Some in Hx as [[<- <-]|[? Hx]]; eauto. }
  destruct (buckets c !! DimensionKey b) as [existing|] eqn:E.
  - apply inv_upd_cov; [done|]. apply Hins.
    + rewrite snapshot_key_Merge. by apply (ci_keys _ Hc).
    + intros Hid. destruct (ci_opened _ Hc _ _ E Hid) as [He1 He2].
      rewrite Merge_session by done. simpl. rewrite He1. split; [done|]. lia.
    + rewrite (map_size_insert_known _ _ _ _ E). apply Hc.
  - destruct (maxPendingConnectionBuckets <=? _) eqn:Ef; [by apply inv_drop|]. breflect.
    apply inv_upd_cov; [done|]. apply Hins; [done|done|].
    pose proof (map_size_insert_le (buckets c) (DimensionKey b) b). lia.
Qed.

Lemma live_record c t at_ up down opened closed dur :
  live (record c t at_ up down opened closed dur) = live c /\
  accounted (record c t at_ up down opened closed dur) = accounted c.
Proof. unfold record. repeat case_match; done. Qed.

Lemma inv_live_insert c id t :
  id <> ""%string ->
  is_Some (live c !! id) \/ Z.of_nat (size (live c)) < maxTrackedConnections ->
  collector_inv c -> collector_inv (with_live c (<[id := t]> (live c))).
Proof.
  intros Hid Hs [? Hl Hids ? ? ? ?]. split; try done; simpl.
  - destruct Hs as [[x Hx]|Hs]; [by rewrite (map_size_insert_known _ _ _ _ Hx)|].
    pose proof (map_size_insert_le (live c) id t). lia.
  - intros id' t' Ht. apply lookup_insert_Some in Ht as [[<- _]|[_ Ht]]; eauto.
Qed.

Lemma inv_closeTracked c id t closedAtMs up down opened :
  id <> ""%string -> collector_inv c -> collector_inv (closeTracked c id t closedAtMs up down opened).
Proof.
  intros Hid Hc. unfold closeTracked.
  set (r := record c t _ up down opened 1 _).
  assert (Hr : collector_inv r) by (apply inv_record; [lia|done]).
  destruct Hr as [Hring Hl Hids ? ? ? ?]. split; try done; simpl.
  - by apply add_wf.
  - pose proof (map_size_delete_le (live r) id). lia.
  - intros id' t' Ht. apply lookup_delete_Some in Ht as [_ Ht]. eauto.
Qed.

Lemma newTracked_spec c id cn c' ot :
  newTracked c id cn = (c', ot) ->
  match ot with
  | Some t => c' = c /\ t_epoch t = epoch c /\ uplink t = 0 /\ downlink t = 0 /\
              counted t = false /\ createdAtMs t = cn_CreatedAt cn /\
              Normalize (connection_template id cn) = (template t, true) /\
              attributed t = negb (AuthName (template t) =? "")%string
  | None => c' = upd_cov c cov_drop
  end.
Proof.
  unfold newTracked. destruct (Normalize (connection_template id cn)) as [n ok] eqn:E.
  destruct ok; intros Hn; apply pair_equal_spec in Hn as [<- <-]; done.
Qed.

Lemma inv_newTracked c id cn c' ot :
  newTracked c id cn = (c', ot) -> collector_inv c -> collector_inv c'.
Proof. intros Hn%newTracked_spec. destruct ot; [by destruct Hn as [-> _]|subst; apply inv_drop]. Qed.
End preservation.

Create HintDb collector.
#[export] Hint Resolve inv_drop inv_orphan inv_touch inv_newTracked inv_closeTracked : collector.

Section handlers.
Context `{UnicodeTables}.
Implicit Types (c : ConnectionCollector) (t : trackedConnection).

Lemma touch_live c t c' t' : touch c t = (c', t') ->
  live c' = live c /\ accounted c' = accounted c /\ buckets c' = buckets c /\ epoch c' = epoch c.
Proof. by intros [-> _]%touch_spec. Qed.

Lemma inv_applyNew c e now : collector_inv c -> collector_inv (applyNew c e now).
Proof.
  intros Hc. unfold applyNew. destruct (ev_Connection e) as [cn|]; [|done].
  set (id := connectionEventID e (Some cn)). destruct (id =? "")%string eqn:Eid; [done|]. breflect.
  destruct (live c !! id) as [t|] eqn:El.
  - destruct (touch c _) as [c1 t1] eqn:Et. destruct (advance t1 _ _) as [t2 [up down]].
    assert (H1 : collector_inv c1) by eauto with collector.
    destruct (touch_live _ _ _ _ Et) as (Hl1 & _).
    assert (H2 : collector_inv (with_live c1 (<[id := t2]> (live c1)))).
    { apply inv_live_insert; [done|rewrite Hl1; eauto|done]. }
    destruct (negb _); [by apply inv_closeTracked|by apply inv_record].
  - destruct (negb (cn_ClosedAt cn =? 0)).
    + destruct (_ || _); [done|]. destruct (newTracked c id cn) as [c1 [t|]] eqn:En.
      * destruct (touch c1 t) as [c2 t2] eqn:Et. destruct (advance t2 _ _) as [t3 [up down]].
        eauto with collector.
      * eauto with collector.
    + destruct (maxTrackedConnections <=? _) eqn:Ef; [by apply inv_drop|]. breflect.
      destruct (newTracked c id cn) as [c1 [t|]] eqn:En; [|eauto with collector].
      destruct (touch c1 t) as [c2 t2] eqn:Et. destruct (advance t2 _ _) as [t3 [up down]].
      pose proof (newTracked_spec _ _ _ _ _ En) as [-> _].
      destruct (touch_live _ _ _ _ Et) as (Hl2 & _).
      apply inv_record; [done|]. apply inv_live_insert; [done|rewrite Hl2; by right|].
      eauto with collector.
Qed.

Lemma inv_applyUpdate c e now : collector_inv c -> collector_inv (applyUpdate c e now).
Proof.
  intros Hc. unfold applyUpdate. destruct (live c !! ev_Id e) as [t|] eqn:El; [|done].
  destruct (touch c _) as [c1 t1] eqn:Et. destruct (touch_live _ _ _ _ Et) as (Hl1 & _).
  apply inv_record; [done|].
  apply inv_live_insert; [by eapply ci_live_ids|rewrite Hl1; eauto|eauto with collector].
Qed.

Lemma inv_applyClosed c e now : collector_inv c -> collector_inv (applyClosed c e now).
Proof.
  intros Hc. unfold applyClosed. destruct (ev_Id e =? "")%string eqn:Eid; [done|]. breflect.
  set (ms := if _ =? 0 then now / millisecond else _).
  destruct (live c !! ev_Id e) as [t|] eqn:El.
  - destruct (touch c _) as [c1 t1] eqn:Et. destruct (touch_live _ _ _ _ Et) as (Hl1 & _).
    destruct (match ev_Connection e with Some _ => _ | None => _ end) as [t2 [up down]].
    apply inv_closeTracked; [done|]. apply inv_live_insert; [done|rewrite Hl1; eauto|eauto with collector].
  - destruct (contains _ _); [done|].
    destruct (ev_Connection e) as [cn|]; [|by apply inv_orphan].
    destruct (newTracked _ _ cn) as [c1 [t|]] eqn:En; [|eauto with collector].
    destruct (touch c1 t) as [c2 t2] eqn:Et. destruct (advance t2 _ _) as [t3 [up down]].
    eauto 6 with collector.
Qed.

Lemma inv_apply_event now c e : collector_inv c -> collector_inv (apply_event now c e).
Proof.
  unfold apply_event.
  destruct (ev_Type e); auto using inv_applyNew, inv_applyUpdate, inv_applyClosed.
Qed.

Lemma inv_sweepStale c : collector_inv c -> collector_inv (sweepStale c).
Proof.
  intros [? Hl Hids ? ? ? ?]. split; try done; simpl.
  - pose proof (map_size_filter_le (fun it => t_epoch it.2 = epoch c) (live c)). lia.
  - intros id t Ht. apply map_lookup_filter_Some in Ht as [Ht _]. eauto.
Qed.

Lemma inv_begin_replay c : collector_inv c -> collector_inv (begin_replay c).
Proof. intros [? ? ? ? ? ? ?]. split; try done. simpl. by destruct (subscribed c). Qed.

Lemma inv_apply c batch now : collector_inv c -> collector_inv (apply c batch now).
Proof.
  intros Hc. unfold apply. destruct batch as [batch|]; [|done].
  assert (Hf : collector_inv (foldl (apply_event now)
    (if evs_Reset batch then begin_replay c else c) (evs_Events batch))).
  { apply foldl_preserves; [intros; by apply inv_apply_event|].
    destruct (evs_Reset batch); [by apply inv_begin_replay|done]. }
  destruct (evs_Reset batch); [by apply inv_sweepStale|done].
Qed.

Lemma inv_Drain c now : collector_inv c -> collector_inv (Drain c now).1.
Proof.
  intros [? Hl Hids ? ? ? ?]. unfold Drain. destruct (_ && _); simpl; split; try done; simpl.
  - by rewrite map_size_fmap.
  - intros id t Ht. apply lookup_fmap_Some in Ht as (t' & _ & Ht). eauto.
Qed.

Lemma inv_setStartup c ms : collector_inv c -> collector_inv (setStartupCloseHighWater c ms).
Proof. intros [? ? ? ? ? ? ?]. by split. Qed.
End handlers.

(** ** Effects of the handlers *)
Section effects.
Context `{UnicodeTables}.
Implicit Types (c : ConnectionCollector) (t : trackedConnection).

Definition total t : Z := uplink t + downlink t.
Definition live_total c : Z := map_sum total (live c).
Definition observed c : Z := BytesObserved (coverage c).
Definition drops c : Z := DroppedBuckets (coverage c).

Lemma inc_ne z : inc z <> z.
Proof. unfold inc, wrap64, two64. dlia. Qed.

Lemma advance_spec t U D t' up down :
  advance t U D = (t', (up, down)) ->
  t' = set_totals t (Z.max (uplink t) U) (Z.max (downlink t) D) /\
  eq64 (up + down) (total t' - total t) /\
  advance t' U D = (t', (0, 0)).
Proof.
  unfold advance, total.
  destruct (uplink t <? U) eqn:EU; destruct (downlink t <? D) eqn:ED; intros Ha; simplify_eq;
    breflect; (split; [f_equal; lia|]); (split; [rewrite ?wrap64_eq64; apply eq64_eq; simpl; lia|]);
    cbn; rewrite ?Z.ltb_irrefl, ?(proj2 (Z.ltb_ge _ _)) by lia; done.
Qed.

Lemma touch_bytes c t c' t' : touch c t = (c', t') ->
  observed c' = observed c /\ drops c' = drops c /\ live c' = live c /\ total t' = total t.
Proof. intros [-> ->]%touch_spec. by destruct (counted t). Qed.

Lemma record_bytes c t at_ up down opened closed dur :
  let c' := record c t at_ up down opened closed dur in
  (drops c' = drops c /\ eq64 (observed c') (observed c + (up + down))) \/ drops c' <> drops c.
Proof.
  cbv zeta. unfold record, observed, drops. destruct (_ && _) eqn:E.
  - left. breflect. split; [done|]. apply eq64_eq. lia.
  - destruct (buckets c !! _); [left|destruct (_ <=? _); [right|left]]; simpl.
    1, 3: split; [done|]; by rewrite wrap64_eq64, wrap64_eq64.
    apply inc_ne.
Qed.

Lemma closeTracked_eff c id t ms up down opened :
  exists c0, c0 = record c t (ms * millisecond) up down opened 1
    (if (0 <? createdAtMs t) && (createdAtMs t <? ms) then wrap64 (ms - createdAtMs t) else 0) /\
  let c' := closeTracked c id t ms up down opened in
  coverage c' = coverage c0 /\ live c' = delete id (live c) /\ buckets c' = buckets c0 /\
  accounted c' = add (accounted c) id.
Proof.
  eexists. split; [done|]. unfold closeTracked. cbn.
  by destruct (live_record c t (ms * millisecond) up down opened 1
    (if (0 <? createdAtMs t) && (createdAtMs t <? ms) then wrap64 (ms - createdAtMs t) else 0))
    as [-> ->].
Qed.

Lemma closeTracked_bytes c id t ms up down opened :
  let c' := closeTracked c id t ms up down opened in
  drops c' = drops c -> eq64 (observed c') (observed c + (up + down)).
Proof.
  cbv zeta. destruct (closeTracked_eff c id t ms up down opened) as (c0 & -> & Hcov & _).
  unfold observed, drops in *. rewrite Hcov. intros Hd.
  match goal with |- context [record c t ?a up down opened 1 ?d] =>
    destruct (record_bytes c t a up down opened 1 d) as [[_ ?]|Hn] end; [done|].
  by destruct Hn.
Qed.

(** What an event takes out of the live map: the totals the connection is
    closed with. *)
Definition closing_total (ot : option trackedConnection) (ocn : option Connection) : Z :=
  let u0 := default 0 (uplink <$> ot) in let d0 := default 0 (downlink <$> ot) in
  match ocn with
  | Some cn => Z.max u0 (cn_UplinkTotal cn) + Z.max d0 (cn_DownlinkTotal cn)
  | None => u0 + d0
  end.
Definition retires c (e : ConnectionEvent) : Z :=
  match ev_Type e, ev_Connection e with
  | EVENT_NEW, Some cn =>
      let id := connectionEventID e (Some cn) in
      if (id =? "")%string || (cn_ClosedAt cn =? 0) then 0
      else match live c !! id with
           | Some t => closing_total (Some t) (Some cn)
           | None => if contains (accounted c) id || (cn_ClosedAt cn <=? startupCloseHighWaterMs c)
                     then 0 else closing_total None (Some cn)
           end
  | EVENT_CLOSED, ocn =>
      if (ev_Id e =? "")%string then 0
      else match live c !! ev_Id e with
           | Some t => closing_total (Some t) ocn
           | None => if contains (accounted c) (ev_Id e) then 0 else closing_total None ocn
           end
  | _, _ => 0
  end.

Definition conserves c c' (retired : Z) : Prop :=
  drops c' = drops c -> eq64 (observed c' + live_total c) (observed c + live_total c' + retired).

Lemma conserves_same c : conserves c c 0.
Proof. intros _. apply eq64_eq. lia. Qed.
Lemma conserves_drop c r : conserves c (upd_cov c cov_drop) r.
Proof. intros Hd. by destruct (inc_ne (drops c)). Qed.

(** Recording the growth of one entry of the live map. *)
Lemma conserves_record c0 c id (old : option trackedConnection) t at_ up down opened closed dur :
  observed c = observed c0 -> drops c = drops c0 ->
  live c0 !! id = old -> live c = <[id := t]> (live c0) ->
  eq64 (up + down) (total t - default 0 (total <$> old)) ->
  conserves c0 (record c t at_ up down opened closed dur) 0.
Proof.
  intros Hb Hdr Ht0 Hl Hud Hd.
  destruct (live_record c t at_ up down opened closed dur) as [Hl' _].
  unfold live_total. rewrite Hl', Hl.
  destruct (record_bytes c t at_ up down opened closed dur) as [[_ E]|E]; [|by rewrite <- Hdr in Hd].
  rewrite E, Hud, Hb. apply eq64_eq. destruct old as [t0|]; simpl in *.
  - rewrite (map_sum_insert _ _ _ _ _ Ht0). lia.
  - rewrite (map_sum_insert_new _ _ _ _ Ht0). lia.
Qed.

Lemma conserves_close c0 c id (old : option trackedConnection) t ms up down opened r :
  observed c = observed c0 -> drops c = drops c0 ->
  live c0 !! id = old -> delete id (live c) = delete id (live c0) ->
  eq64 (up + down) (total t - default 0 (total <$> old)) -> r = total t ->
  conserves c0 (closeTracked c id t ms up down opened) r.
Proof.
  intros Hb Hdr Ht0 Hl Hud -> Hd.
  destruct (closeTracked_eff c id t ms up down opened) as (c1 & _ & _ & Hl' & _).
  unfold live_total. rewrite Hl', Hl.
  rewrite (closeTracked_bytes c id t ms up down opened) by congruence.
  rewrite Hud, Hb. apply eq64_eq. destruct old as [t0|]; simpl in *.
  - rewrite (map_sum_delete _ _ _ _ Ht0). lia.
  - rewrite (map_sum_delete_new _ _ _ Ht0). lia.
Qed.
End effects.

Section event_effects.
Context `{UnicodeTables}.
Implicit Types (c : ConnectionCollector) (t : trackedConnection).

Lemma conserves_applyNew c e now :
  ev_Type e = EVENT_NEW -> conserves c (applyNew c e now) (retires c e).
Proof.
  intros Hty. unfold applyNew, retires. rewrite Hty.
  destruct (ev_Connection e) as [cn|]; [|apply conserves_same].
  set (id := connectionEventID e (Some cn)). cbv zeta.
  destruct (id =? "")%string; [apply conserves_same|]. cbn [orb].
  destruct (live c !! id) as [t|] eqn:El.
  - destruct (touch c (set_epoch t (epoch c))) as [c1 t1] eqn:Et.
    destruct (advance t1 _ _) as [t2 [up down]] eqn:Ea.
    apply advance_spec in Ea as (-> & Hud & _).
    destruct (touch_spec _ _ _ _ Et) as [_ Ht1].
    apply touch_bytes in Et as (Hb & Hd & Hl & Htot).
    destruct (cn_ClosedAt cn =? 0); cbn [negb].
    + eapply conserves_record; [exact Hb|exact Hd|exact El|by simpl; rewrite Hl|].
      rewrite Hud, Htot. done.
    + eapply conserves_close; [exact Hb|exact Hd|exact El| | |].
      * simpl. by rewrite Hl, delete_insert_eq.
      * rewrite Hud, Htot. done.
      * by subst t1.
  - destruct (cn_ClosedAt cn =? 0) eqn:Ecl; cbn [negb].
    + destruct (_ <=? _); [apply conserves_drop|].
      destruct (newTracked c id cn) as [c1 [t|]] eqn:En;
        apply newTracked_spec in En; [|subst; apply conserves_drop].
      destruct En as (-> & _ & Hu & Hdn & _).
      destruct (touch c t) as [c2 t2] eqn:Et. destruct (advance t2 _ _) as [t3 [up down]] eqn:Ea.
      apply advance_spec in Ea as (-> & Hud & _).
      apply touch_bytes in Et as (Hb & Hd & Hl & Htot).
      eapply conserves_record; [exact Hb|exact Hd|exact El|by simpl; rewrite Hl|].
      rewrite Hud, Htot. unfold total. by rewrite Hu, Hdn.
    + destruct (_ || _); [apply conserves_same|].
      destruct (newTracked c id cn) as [c1 [t|]] eqn:En;
        apply newTracked_spec in En; [|subst; apply conserves_drop].
      destruct En as (-> & _ & Hu & Hdn & _).
      destruct (touch c t) as [c2 t2] eqn:Et. destruct (advance t2 _ _) as [t3 [up down]] eqn:Ea.
      apply advance_spec in Ea as (-> & Hud & _).
      destruct (touch_spec _ _ _ _ Et) as [_ Ht2].
      apply touch_bytes in Et as (Hb & Hd & Hl & Htot).
      eapply conserves_close; [exact Hb|exact Hd|exact El|by simpl; rewrite Hl| |].
      * rewrite Hud, Htot. unfold total. by rewrite Hu, Hdn.
      * subst t2. unfold total. simpl. by rewrite Hu, Hdn.
Qed.

Lemma conserves_applyUpdate c e now :
  ev_Type e = EVENT_UPDATE -> conserves c (applyUpdate c e now) (retires c e).
Proof.
  intros Hty. unfold applyUpdate, retires. rewrite Hty.
  destruct (live c !! ev_Id e) as [t|] eqn:El; [|by destruct (ev_Connection e); apply conserves_same].
  destruct (touch c (set_epoch t (epoch c))) as [c1 t1] eqn:Et.
  apply touch_bytes in Et as (Hb & Hd & Hl & Htot).
  destruct (ev_Connection e); (eapply conserves_record; [exact Hb|exact Hd|exact El|by simpl; rewrite Hl|]);
    unfold total; simpl; rewrite !wrap64_eq64; apply eq64_eq; unfold total in Htot; simpl in *;
    clear -Htot; lia.
Qed.

Lemma conserves_applyClosed c e now :
  ev_Type e = EVENT_CLOSED -> conserves c (applyClosed c e now) (retires c e).
Proof.
  intros Hty. unfold applyClosed, retires. rewrite Hty.
  destruct (ev_Id e =? "")%string; [destruct (ev_Connection e); apply conserves_same|].
  set (ms := if _ =? 0 then now / millisecond else _). cbv zeta.
  destruct (live c !! ev_Id e) as [t|] eqn:El.
  - destruct (touch c (set_epoch t (epoch c))) as [c1 t1] eqn:Et.
    destruct (touch_spec _ _ _ _ Et) as [_ Ht1].
    apply touch_bytes in Et as (Hb & Hd & Hl & Htot).
    destruct (ev_Connection e) as [cn|].
    + destruct (advance t1 _ _) as [t2 [up down]] eqn:Ea. apply advance_spec in Ea as (-> & Hud & _).
      eapply conserves_close; [exact Hb|exact Hd|exact El| | |].
      * simpl. by rewrite Hl, delete_insert_eq.
      * by rewrite Hud, Htot.
      * by subst t1.
    + eapply conserves_close; [exact Hb|exact Hd|exact El| | |].
      * simpl. by rewrite Hl, delete_insert_eq.
      * rewrite Htot. apply eq64_eq. simpl. change (total (set_epoch t (epoch c))) with (total t). lia.
      * by subst t1.
  - destruct (contains (accounted c) (ev_Id e)).
    { destruct (ev_Connection e); apply conserves_same. }
    destruct (ev_Connection e) as [cn|]; [|intros _; apply eq64_eq; unfold closing_total, observed, live_total; simpl; lia].
    destruct (newTracked _ (ev_Id e) cn) as [c1 [t|]] eqn:En; apply newTracked_spec in En;
      [|subst; intros Hd; by destruct (inc_ne (drops c))].
    destruct En as (-> & _ & Hu & Hdn & _).
    destruct (touch _ t) as [c2 t2] eqn:Et. destruct (advance t2 _ _) as [t3 [up down]] eqn:Ea.
    apply advance_spec in Ea as (-> & Hud & _).
    destruct (touch_spec _ _ _ _ Et) as [_ Ht2].
    apply touch_bytes in Et as (Hb & Hd & Hl & Htot).
    eapply conserves_close; [exact Hb|exact Hd|exact El|by simpl; rewrite Hl| |].
    + rewrite Hud, Htot. unfold total. by rewrite Hu, Hdn.
    + subst t2. unfold total. simpl. by rewrite Hu, Hdn.
Qed.

Lemma conserves_event now c e : conserves c (apply_event now c e) (retires c e).
Proof.
  unfold apply_event. destruct (ev_Type e) eqn:Hty;
    auto using conserves_applyNew, conserves_applyUpdate, conserves_applyClosed.
Qed.

(** A run of timestamped events. *)
Definition run c (evs : list (Time * ConnectionEvent)) : ConnectionCollector :=
  foldl (fun c p => apply_event p.1 c p.2) c evs.
Fixpoint retired c (evs : list (Time * ConnectionEvent)) : Z :=
  match evs with
  | [] => 0
  | (now, e) :: evs => retires c e + retired (apply_event now c e) evs
  end.
(** No connection or snapshot was refused for lack of room. *)
Fixpoint undropped c (evs : list (Time * ConnectionEvent)) : bool :=
  match evs with
  | [] => true
  | (now, e) :: evs =>
      (drops (apply_event now c e) =? drops c) && undropped (apply_event now c e) evs
  end.

(** *** Accounted closes are remembered *)
Lemma accounted_event now c e :
  accounted (apply_event now c e) = accounted c \/
  exists id, accounted (apply_event now c e) = add (accounted c) id.
Proof.
  unfold apply_event, applyNew, applyUpdate, applyClosed.
  destruct (ev_Type e).
  - destruct (ev_Connection e) as [cn|]; [|by left]. cbv zeta.
    destruct (_ =? "")%string; [by left|]. destruct (live c !! _) as [t|].
    + destruct (touch c _) as [c1 t1] eqn:Et. destruct (touch_live _ _ _ _ Et) as (_ & Hac & _).
      destruct (advance t1 _ _) as [t2 [up down]]. destruct (negb _).
      * right. eexists. edestruct closeTracked_eff as (? & _ & _ & _ & _ & ->).
        simpl. by rewrite Hac.
      * left. by rewrite (proj2 (live_record _ _ _ _ _ _ _ _)).
    + destruct (negb _).
      * destruct (_ || _); [by left|].
        destruct (newTracked c _ cn) as [c1 [t|]] eqn:En; apply newTracked_spec in En; [|by subst; left].
        destruct En as [-> _]. destruct (touch c t) as [c2 t2] eqn:Et.
        destruct (touch_live _ _ _ _ Et) as (_ & Hac & _). destruct (advance t2 _ _) as [t3 [up down]].
        right. eexists. edestruct closeTracked_eff as (? & _ & _ & _ & _ & ->). simpl. by rewrite Hac.
      * destruct (_ <=? _); [by left|].
        destruct (newTracked c _ cn) as [c1 [t|]] eqn:En; apply newTracked_spec in En; [|by subst; left].
        destruct En as [-> _]. destruct (touch c t) as [c2 t2] eqn:Et.
        destruct (touch_live _ _ _ _ Et) as (_ & Hac & _). destruct (advance t2 _ _) as [t3 [up down]].
        left. by rewrite (proj2 (live_record _ _ _ _ _ _ _ _)).
  - destruct (live c !! _) as [t|]; [|by left].
    destruct (touch c _) as [c1 t1] eqn:Et. destruct (touch_live _ _ _ _ Et) as (_ & Hac & _).
    left. by rewrite (proj2 (live_record _ _ _ _ _ _ _ _)).
  - cbv zeta. destruct (_ =? "")%string; [by left|]. destruct (live c !! _) as [t|].
    + destruct (touch c _) as [c1 t1] eqn:Et. destruct (touch_live _ _ _ _ Et) as (_ & Hac & _).
      destruct (match ev_Connection e with Some _ => _ | None => _ end) as [t2 [up down]].
      right. eexists. edestruct closeTracked_eff as (? & _ & _ & _ & _ & ->). simpl. by rewrite Hac.
    + destruct (contains _ _); [by left|]. destruct (ev_Connection e) as [cn|]; [|by left].
      destruct (newTracked _ _ cn) as [c1 [t|]] eqn:En; apply newTracked_spec in En; [|by subst; left].
      destruct En as [-> _]. destruct (touch _ t) as [c2 t2] eqn:Et.
      destruct (touch_live _ _ _ _ Et) as (_ & Hac & _). destruct (advance t2 _ _) as [t3 [up down]].
      right. eexists. edestruct closeTracked_eff as (? & _ & _ & _ & _ & ->). simpl. by rewrite Hac.
Qed.

Lemma fresh_run c evs id k :
  collector_inv c -> fresh maxAccountedCloseIDs (accounted c) id (length evs + k)%nat ->
  fresh maxAccountedCloseIDs (accounted (run c evs)) id k.
Proof.
  revert c. induction evs as [|[now e] evs IH]; intros c Hc Hf; [done|]. simpl.
  apply IH; [by apply inv_apply_event|]. simpl in *.
  destruct (accounted_event now c e) as [->|[id' ->]].
  - eapply fresh_weaken; [|done]. lia.
  - apply fresh_add; [apply Hc|done].
Qed.

Lemma inv_run c evs : collector_inv c -> collector_inv (run c evs).
Proof. intros Hc. unfold run. apply (foldl_preserves _ collector_inv); [|done]. intros ????. by apply inv_apply_event. Qed.
End event_effects.

(** *** Replays *)
Section replays.
Context `{UnicodeTables}.
Implicit Types (c : ConnectionCollector) (t : trackedConnection).

(** An event that reports a connection as closed. *)
Definition closes (e : ConnectionEvent) : bool :=
  match ev_Type e, ev_Connection e with
  | EVENT_CLOSED, _ => true
  | EVENT_NEW, Some cn => negb (cn_ClosedAt cn =? 0)
  | _, _ => false
  end.
Definition event_id (e : ConnectionEvent) : string :=
  match ev_Type e with
  | EVENT_NEW => connectionEventID e (ev_Connection e)
  | _ => ev_Id e
  end.

Lemma contains_add r id : contains (add r id) id = true.
Proof.
  unfold add. destruct (contains r id) eqn:E; [done|]. apply bool_decide_eq_true. simpl. set_solver.
Qed.

(** A close of an accounted connection that is not tracked changes nothing. *)
Lemma closes_accounted_noop now c e :
  closes e = true -> live c !! event_id e = None -> contains (accounted c) (event_id e) = true ->
  apply_event now c e = c.
Proof.
  unfold closes, event_id, apply_event. destruct (ev_Type e) eqn:Hty; [| |].
  - unfold applyNew. destruct (ev_Connection e) as [cn|]; [|done]. intros Hcl Hl Hc.
    destruct (_ =? "")%string; [done|]. by rewrite Hl, Hcl, Hc.
  - by destruct (ev_Connection e).
  - unfold applyClosed. intros _ Hl Hc. destruct (_ =? "")%string; [done|]. by rewrite Hl, Hc.
Qed.

Lemma closed_after now c e :
  collector_inv c -> closes e = true -> live (apply_event now c e) !! event_id e = None.
Proof.
  intros Hc.
  assert (H0 : forall id, (id =? "")%string = true -> live c !! id = None).
  { intros id Hid. destruct (live c !! id) eqn:El; [|done]. breflect. by apply (ci_live_ids _ Hc) in El. }
  unfold closes, event_id, apply_event. destruct (ev_Type e) eqn:Hty.
  - unfold applyNew. destruct (ev_Connection e) as [cn|]; [|done]. intros ->.
    destruct (_ =? "")%string eqn:Hid; [by apply H0|]. destruct (live c !! _) as [t|] eqn:El.
    + destruct (touch c _) as [c1 t1] eqn:Et. destruct (advance t1 _ _) as [t2 [up down]].
      edestruct closeTracked_eff as (? & _ & _ & -> & _). apply lookup_delete_eq.
    + destruct (_ || _); [done|].
      destruct (newTracked c _ cn) as [c1 [t|]] eqn:En; apply newTracked_spec in En; [|by subst].
      destruct (touch c1 t) as [c2 t2]. destruct (advance t2 _ _) as [t3 [up down]].
      edestruct closeTracked_eff as (? & _ & _ & -> & _). apply lookup_delete_eq.
  - by destruct (ev_Connection e).
  - intros _. unfold applyClosed. cbv zeta. destruct (_ =? "")%string eqn:Hid; [by apply H0|].
    destruct (live c !! _) as [t|] eqn:El.
    + destruct (touch c _) as [c1 t1] eqn:Et.
      destruct (match ev_Connection e with Some _ => _ | None => _ end) as [t2 [up down]].
      edestruct closeTracked_eff as (? & _ & _ & -> & _). apply lookup_delete_eq.
    + destruct (contains _ _); [done|]. destruct (ev_Connection e) as [cn|]; [|done].
      destruct (newTracked _ _ cn) as [c1 [t|]] eqn:En; apply newTracked_spec in En; [|by subst].
      destruct (touch c1 t) as [c2 t2]. destruct (advance t2 _ _) as [t3 [up down]].
      edestruct closeTracked_eff as (? & _ & _ & -> & _). apply lookup_delete_eq.
Qed.

Lemma set_flags_id t e : t_epoch t = e -> set_epoch t e = t.
Proof. intros <-. by destruct t. Qed.

(** A full-state replay of a tracked open connection, right after it was
    folded in, changes nothing. *)
Lemma open_replay_noop now now' c e cn :
  ev_Type e = EVENT_NEW -> ev_Connection e = Some cn -> cn_ClosedAt cn = 0 ->
  is_Some (live (apply_event now c e) !! event_id e) ->
  apply_event now' (apply_event now c e) e = apply_event now c e.
Proof.
  intros Hty Hcn H0. unfold apply_event, event_id. rewrite Hty, Hcn.
  set (id := connectionEventID e (Some cn)).
  assert (Hagain : forall c1 t at_ up down o cl d,
    live c1 = <[id := t]> (live c1) ->
    t_epoch t = epoch c1 -> counted t = true ->
    advance t (cn_UplinkTotal cn) (cn_DownlinkTotal cn) = (t, (0, 0)) ->
    (id =? "")%string = false ->
    applyNew (record c1 t at_ up down o cl d) e now' = record c1 t at_ up down o cl d).
  { intros c1 t at_ up down o cl d Hl He Hct Ha Hid. set (c2 := record c1 t at_ up down o cl d).
    assert (Hl2 : live c2 = live c1) by apply live_record.
    assert (He2 : epoch c2 = epoch c1) by (subst c2; unfold record; repeat case_match; done).
    assert (Hlook : live c2 !! id = Some t) by (rewrite Hl2, Hl; apply lookup_insert_eq).
    unfold applyNew. rewrite Hcn. fold id. rewrite Hid, Hlook, He2.
    rewrite set_flags_id by done. unfold touch. rewrite Hct, Ha, H0. simpl.
    unfold record at 1. simpl. rewrite insert_id by done. by destruct c2. }
  enough (Hgen : forall x, x = applyNew c e now -> is_Some (live x !! id) -> applyNew x e now' = x)
    by (by apply Hgen).
  intros x. unfold applyNew at 1. rewrite Hcn. fold id. destruct (id =? "")%string eqn:Hid.
  { intros _ _. unfold applyNew. rewrite Hcn. fold id. by rewrite Hid. }
  rewrite H0. simpl.
  destruct (live c !! id) as [t|] eqn:El.
  - destruct (touch c (set_epoch t (epoch c))) as [c1 t1] eqn:Et.
    destruct (advance t1 _ _) as [t2 [up down]] eqn:Ea.
    apply advance_spec in Ea as (-> & _ & Ha). destruct (touch_live _ _ _ _ Et) as (_ & _ & _ & Hep).
    apply touch_spec in Et as [_ ->]. intros -> _. apply Hagain; try done.
    simpl. by rewrite insert_insert_eq.
  - destruct (_ <=? _); [intros -> [? Hn]; simpl in Hn; congruence|].
    destruct (newTracked c id cn) as [c1 [t|]] eqn:En; apply newTracked_spec in En;
      [|subst; intros -> [? Hn]; simpl in Hn; congruence].
    destruct En as (-> & Hep & _). destruct (touch c t) as [c2 t2] eqn:Et.
    destruct (advance t2 _ _) as [t3 [up down]] eqn:Ea.
    apply advance_spec in Ea as (-> & _ & Ha). destruct (touch_live _ _ _ _ Et) as (_ & _ & _ & Hep2).
    apply touch_spec in Et as [_ ->]. intros -> _. apply Hagain; try done.
    + simpl. by rewrite insert_insert_eq.
    + simpl. congruence.
Qed.
End replays.

(** *** Which entries an event touches *)
Section locality.
Context `{UnicodeTables}.
Implicit Types (c : ConnectionCollector) (t : trackedConnection).

Definition local_to (id : string) c c' : Prop :=
  epoch c' = epoch c /\ forall id', id' <> id -> live c' !! id' = live c !! id'.

Lemma local_refl id c : local_to id c c.
Proof. done. Qed.
Lemma local_record id c c1 t at_ up down o cl d :
  epoch c1 = epoch c -> (exists t', live c1 = <[id := t']> (live c)) ->
  local_to id c (record c1 t at_ up down o cl d).
Proof.
  intros He [t' Hl]. split.
  - unfold record. repeat case_match; done.
  - intros id' Hne. rewrite (proj1 (live_record _ _ _ _ _ _ _ _)), Hl. by apply lookup_insert_ne.
Qed.
Lemma local_close id c c1 t ms up down o :
  epoch c1 = epoch c -> delete id (live c1) = delete id (live c) ->
  local_to id c (closeTracked c1 id t ms up down o).
Proof.
  intros He Hl. split.
  - unfold closeTracked, record. repeat case_match; done.
  - intros id' Hne. edestruct closeTracked_eff as (? & _ & _ & -> & _). rewrite Hl.
    by apply lookup_delete_ne.
Qed.

Lemma event_local now c e : local_to (event_id e) c (apply_event now c e).
Proof.
  unfold apply_event, event_id. destruct (ev_Type e) eqn:Hty.
  - unfold applyNew. destruct (ev_Connection e) as [cn|]; [|apply local_refl]. cbv zeta.
    set (id := connectionEventID e (Some cn)).
    destruct (_ =? "")%string; [apply local_refl|]. destruct (live c !! _) as [t|].
    + destruct (touch c _) as [c1 t1] eqn:Et. destruct (touch_live _ _ _ _ Et) as (Hl & _ & _ & He).
      destruct (advance t1 _ _) as [t2 [up down]]. destruct (negb _).
      * apply local_close; [done|]. simpl. by rewrite Hl, delete_insert_eq.
      * apply local_record; [done|]. simpl. rewrite Hl. eauto.
    + destruct (negb _).
      * destruct (_ || _); [apply local_refl|].
        destruct (newTracked c _ cn) as [c1 [t|]] eqn:En; apply newTracked_spec in En; [|by subst].
        destruct En as [-> _]. destruct (touch c t) as [c2 t2] eqn:Et.
        destruct (touch_live _ _ _ _ Et) as (Hl & _ & _ & He).
        destruct (advance t2 _ _) as [t3 [up down]]. apply local_close; [done|]. simpl. by rewrite Hl.
      * destruct (_ <=? _); [done|].
        destruct (newTracked c _ cn) as [c1 [t|]] eqn:En; apply newTracked_spec in En; [|by subst].
        destruct En as [-> _]. destruct (touch c t) as [c2 t2] eqn:Et.
        destruct (touch_live _ _ _ _ Et) as (Hl & _ & _ & He).
        destruct (advance t2 _ _) as [t3 [up down]]. apply local_record; [done|]. simpl. rewrite Hl. eauto.
  - unfold applyUpdate. destruct (live c !! _) as [t|]; [|apply local_refl].
    destruct (touch c _) as [c1 t1] eqn:Et. destruct (touch_live _ _ _ _ Et) as (Hl & _ & _ & He).
    apply local_record; [done|]. simpl. rewrite Hl. eauto.
  - unfold applyClosed. cbv zeta. destruct (_ =? "")%string; [apply local_refl|].
    destruct (live c !! _) as [t|].
    + destruct (touch c _) as [c1 t1] eqn:Et. destruct (touch_live _ _ _ _ Et) as (Hl & _ & _ & He).
      destruct (match ev_Connection e with Some _ => _ | None => _ end) as [t2 [up down]].
      apply local_close; [done|]. simpl. by rewrite Hl, delete_insert_eq.
    + destruct (contains _ _); [apply local_refl|]. destruct (ev_Connection e) as [cn|]; [|done].
      destruct (newTracked _ _ cn) as [c1 [t|]] eqn:En; apply newTracked_spec in En; [|by subst].
      destruct En as [-> _]. destruct (touch _ t) as [c2 t2] eqn:Et.
      destruct (touch_live _ _ _ _ Et) as (Hl & _ & _ & He).
      destruct (advance t2 _ _) as [t3 [up down]]. apply local_close; [done|]. simpl. by rewrite Hl.
Qed.

Lemma events_local now c evs :
  let c' := foldl (apply_event now) c evs in
  epoch c' = epoch c /\ forall id, id ∉ event_id <$> evs -> live c' !! id = live c !! id.
Proof.
  cbv zeta. apply (foldl_preserves _ (fun c' => epoch c' = epoch c /\
    forall id, id ∉ event_id <$> evs -> live c' !! id = live c !! id)); [|done].
  intros c1 e He [IH1 IH2]. destruct (event_local now c1 e) as [H1 H2]. split; [congruence|].
  intros id Hid. rewrite H2; [by apply IH2|]. intros ->. apply Hid. by apply list_elem_of_fmap_2.
Qed.
End locality.

#[export] Instance key_le_total : Total key_le.
Proof.
  intros x y. unfold key_le, String.leb.
  rewrite (String.compare_antisym y.1 x.1).
  destruct (String.compare x.1 y.1); simpl; auto.
Qed.

(** ** Properties *)
Section steps.
Context `{UnicodeTables}.
(** The atomic steps of a collector: a batch, a drain, the seeding of the
    restart guard. *)
Inductive collector_step : ConnectionCollector -> ConnectionCollector -> Prop :=
| step_batch c batch now : collector_step c (apply c batch now)
| step_drain c now : collector_step c (Drain c now).1
| step_startup c ms : collector_step c (setStartupCloseHighWater c ms).

Lemma inv_step c c' : collector_inv c -> collector_step c c' -> collector_inv c'.
Proof. intros Hc Hs. destruct Hs; auto using inv_apply, inv_Drain, inv_setStartup. Qed.
End steps.

(** whatever batches and drains arrive in whatever order, the collector's
    memory is bounded (4096 live connections, 2000 pending snapshots, 2048
    accounted closes), every pending snapshot sits under its own key, and every
    connection observed is counted either attributed or unattributed. *)
Theorem collector_bounded `{UnicodeTables} now c :
  rtc collector_step (newConnectionCollector now) c ->
  Z.of_nat (size (live c)) <= maxTrackedConnections /\
  Z.of_nat (size (buckets c)) <= maxPendingConnectionBuckets /\
  (size (ids (accounted c)) <= maxAccountedCloseIDs)%nat /\
  (forall k b, buckets c !! k = Some b -> DimensionKey b = k) /\
  ConnectionsObserved (coverage c) =
    wrap64 (ConnectionsAttributed (coverage c) + ConnectionsUnattributed (coverage c)).
Proof.
  intros Hr. assert (Hc : collector_inv c).
  { eapply rtc_preserves; [apply inv_step|exact Hr|apply inv_new]. }
  destruct Hc as [Hring ? ? ? ? ? ?]. split_and!; try done. by apply ring_bounded.
Qed.

(** *** A sample stream *)
Definition sample_connection (closedAt up down : Z) : Connection :=
  {| cn_Id := "c1"; cn_Source := "10.0.0.1:5000"; cn_Destination := "example.com:443";
     cn_User := "alice"; cn_Domain := ""; cn_Network := "tcp"; cn_IpVersion := 4;
     cn_Protocol := "tls"; cn_Inbound := "in"; cn_InboundType := "vless"; cn_Rule := "final";
     cn_Outbound := "direct"; cn_OutboundType := "direct"; cn_ChainList := ["direct"%string];
     cn_CreatedAt := 1714564800000; cn_ClosedAt := closedAt;
     cn_UplinkTotal := up; cn_DownlinkTotal := down |}.
Definition sample_new (up down : Z) : ConnectionEvent :=
  {| ev_Type := EVENT_NEW; ev_Id := "c1"; ev_Connection := Some (sample_connection 0 up down);
     ev_UplinkDelta := 0; ev_DownlinkDelta := 0; ev_ClosedAt := 0 |}.
Definition sample_update (up down : Z) : ConnectionEvent :=
  {| ev_Type := EVENT_UPDATE; ev_Id := "c1"; ev_Connection := None;
     ev_UplinkDelta := up; ev_DownlinkDelta := down; ev_ClosedAt := 0 |}.
Definition sample_closed (up down : Z) : ConnectionEvent :=
  {| ev_Type := EVENT_CLOSED; ev_Id := "c1";
     ev_Connection := Some (sample_connection 1714564860000 up down);
     ev_UplinkDelta := 0; ev_DownlinkDelta := 0; ev_ClosedAt := 1714564860000 |}.
Definition t0 : Time := 1714564801 * second.
Definition start : ConnectionCollector := newConnectionCollector t0.

Lemma collector_bounded_witness :
  let c := (@Drain (@apply ascii_only_tables start
    (Some {| evs_Reset := true; evs_Events := [sample_new 10 20; sample_closed 30 40] |}) t0) t0).1 in
  Z.of_nat (size (live c)) <= maxTrackedConnections.
Proof.
  intros c. apply (@collector_bounded ascii_only_tables t0 c).
  eapply rtc_l; [apply step_batch|]. eapply rtc_once. apply step_drain.
Defined.

(** C27: conservation of bytes: over any interleaved run of NEW, UPDATE and
    CLOSED events in which nothing was refused for lack of room, the bytes the
    coverage counts (modulo 2^64) are exactly the high-water totals of the
    connections still open plus the final totals of those that closed, so no
    replay counts a byte twice and no close loses the tail. *)
Theorem bytes_conserved `{UnicodeTables} c evs :
  undropped c evs = true ->
  eq64 (observed (run c evs) + live_total c) (observed c + live_total (run c evs) + retired c evs).
Proof.
  revert c. induction evs as [|[now e] evs IH]; intros c Hd; simpl in *.
  { apply eq64_eq. lia. }
  apply andb_true_iff in Hd as [H1 H2]. breflect.
  pose proof (conserves_event now c e H1) as He. specialize (IH _ H2).
  set (c1 := apply_event now c e) in *.
  transitivity (observed (run c1 evs) + live_total c1 - (observed c1 + live_total c1)
    + (observed c1 + live_total c)); [apply eq64_eq; lia|].
  rewrite IH, He. apply eq64_eq. change (foldl _ c1 evs) with (run c1 evs). lia.
Qed.

Lemma bytes_conserved_witness :
  let evs := [(t0, sample_new 10 20); (t0, sample_update 5 5); (t0, sample_new 10 20);
              (t0, sample_closed 100 200); (t0, sample_closed 100 200)] in
  observed (@run ascii_only_tables start evs) = 300 /\
  eq64 (observed (@run ascii_only_tables start evs) + live_total start)
       (observed start + live_total (@run ascii_only_tables start evs)
        + @retired ascii_only_tables start evs).
Proof.
  intros evs. split; [vm_compute; reflexivity|].
  apply (@bytes_conserved ascii_only_tables). vm_compute. reflexivity.
Defined.

(** a close is accounted once: when an event has closed a connection that
    was not in the ring, then during the next 2047 events (one agent run of
    sing-box's 1000-entry replay ring) every replay of that close, as NEW or
    as CLOSED, leaves the collector unchanged. *)
Theorem close_accounted_once `{UnicodeTables} c now e evs now' e' :
  collector_inv c ->
  contains (accounted c) (event_id e) = false ->
  accounted (apply_event now c e) = add (accounted c) (event_id e) ->
  (length evs < maxAccountedCloseIDs)%nat ->
  closes e' = true -> event_id e' = event_id e -> event_id e <> ""%string ->
  let c' := run (apply_event now c e) evs in
  live c' !! event_id e = None -> apply_event now' c' e' = c'.
Proof.
  intros Hc Hnew Hadd Hlen Hcl Hid Hne. cbv zeta. intros Hlive.
  apply closes_accounted_noop; [done|by rewrite Hid|]. rewrite Hid.
  assert (H1 : collector_inv (apply_event now c e)) by (by apply inv_apply_event).
  eapply (fresh_contains _ _ _ 0); [by apply inv_run|done|].
  apply fresh_run; [done|]. rewrite Hadd.
  eapply fresh_weaken; [|apply fresh_just_added; [apply Hc|done]]. lia.
Qed.

Lemma close_accounted_once_witness :
  let c := @run ascii_only_tables start [(t0, sample_new 10 20)] in
  let c' := @run ascii_only_tables c [(t0, sample_closed 30 40)] in
  @apply_event ascii_only_tables t0 c' (sample_closed 30 40) = c'.
Proof.
  intros c c'.
  apply (@close_accounted_once ascii_only_tables c t0 (sample_closed 30 40) []); try reflexivity.
  - apply inv_run, inv_new.
  - vm_compute. lia.
  - discriminate.
Defined.

(** folding an event in twice in a row is folding it in once: a NEW that
    left the connection tracked, or any close that left it accounted, changes
    nothing when it is replayed, at any later time. *)
Theorem replay_idempotent `{UnicodeTables} c now now' e :
  collector_inv c ->
  (closes e = false /\ ev_Type e = EVENT_NEW /\ is_Some (live (apply_event now c e) !! event_id e)) \/
  (closes e = true /\ contains (accounted (apply_event now c e)) (event_id e) = true) ->
  apply_event now' (apply_event now c e) e = apply_event now c e.
Proof.
  intros Hc [(Hcl & Hty & Hl)|[Hcl Ha]].
  - destruct (ev_Connection e) as [cn|] eqn:Hcn.
    + eapply open_replay_noop; try done. unfold closes in Hcl. rewrite Hty, Hcn in Hcl. by breflect.
    + unfold apply_event, applyNew. by rewrite Hty, Hcn.
  - by apply closes_accounted_noop, Ha; [|apply closed_after].
Qed.

Lemma replay_idempotent_witness :
  let c := @apply_event ascii_only_tables t0 start (sample_new 10 20) in
  @apply_event ascii_only_tables (t0 + second) c (sample_new 10 20) = c.
Proof.
  apply (@replay_idempotent ascii_only_tables start); [apply inv_new|].
  left. split_and!; [reflexivity|reflexivity|]. vm_compute. eauto.
Defined.

(** a full-state replay leaves tracked exactly connections it mentioned:
    an entry that survives the sweep was named by an event of that batch. *)
Theorem replay_sweeps_unmentioned `{UnicodeTables} c batch now id t :
  0 <= epoch c < int64_max ->
  map_Forall (fun _ t => t_epoch t <= epoch c) (live c) ->
  evs_Reset batch = true ->
  live (apply c (Some batch) now) !! id = Some t ->
  t_epoch t = epoch c + 1 /\ id ∈ event_id <$> evs_Events batch.
Proof.
  intros He Hle Hr. unfold apply. rewrite Hr.
  destruct (events_local now (begin_replay c) (evs_Events batch)) as [Hep Hl].
  set (c' := foldl _ _ _) in *. unfold sweepStale. simpl.
  rewrite map_lookup_filter_Some. simpl. intros [Hid Ht]. rewrite Hep in Ht.
  assert (Hw : epoch (begin_replay c) = epoch c + 1).
  { simpl. apply wrap64_id. unfold int64_ok, int64_min, int64_max in *. lia. }
  split; [congruence|].
  destruct (decide (id ∈ event_id <$> evs_Events batch)) as [|Hn]; [done|].
  rewrite Hl in Hid by done. apply Hle in Hid. lia.
Qed.

Lemma replay_sweeps_unmentioned_witness :
  let c := @run ascii_only_tables start [(t0, sample_new 10 20)] in
  let batch := {| evs_Reset := true; evs_Events := [sample_new 11 21] |} in
  exists t, t_epoch t = epoch c + 1 /\ "c1"%string ∈ event_id <$> evs_Events batch.
Proof.
  intros c batch.
  destruct (live (@apply ascii_only_tables c (Some batch) t0) !! "c1"%string) as [t|] eqn:E;
    [|vm_compute in E; discriminate].
  exists t. apply (@replay_sweeps_unmentioned ascii_only_tables c batch t0 "c1" t).
  - vm_compute. split; [discriminate|reflexivity].
  - apply (bool_decide_unpack (map_Forall _ _)). vm_compute. exact I.
  - reflexivity.
  - exact E.
Defined.

(** [Drain] hands over every pending snapshot exactly once, ordered by
    dimension key, with the coverage of the window, and keeps every open
    connection and its totals, ready to be counted again. *)
Theorem Drain_complete c now c' bs cov ws :
  collector_inv c -> Drain c now = (c', (bs, cov, ws, true)) ->
  bs ≡ₚ (map_to_list (buckets c)).*2 /\
  Sorted (fun b1 b2 => String.leb (DimensionKey b1) (DimensionKey b2) = true) bs /\
  cov = coverage c /\ buckets c' = ∅ /\ coverage c' = no_coverage /\
  dom (live c') = dom (live c) /\ live_total c' = live_total c /\
  map_Forall (fun _ t => counted t = false) (live c') /\ windowStart c' = now.
Proof.
  intros Hc. unfold Drain. destruct (_ && _); intros Hd; [done|].
  apply pair_equal_spec in Hd as [<- Hd]. simplify_eq. simpl.
  split_and!; try done.
  - unfold sorted_buckets. by rewrite merge_sort_Permutation.
  - unfold sorted_buckets.
    assert (Hk : Forall (fun p => DimensionKey p.2 = p.1) (merge_sort key_le (map_to_list (buckets c)))).
    { rewrite merge_sort_Permutation. apply Forall_forall. intros [k b] Hkb.
      apply elem_of_map_to_list in Hkb. by apply (ci_keys _ Hc). }
    pose proof (Sorted_merge_sort key_le (map_to_list (buckets c))) as Hs.
    revert Hs Hk. generalize (merge_sort key_le (map_to_list (buckets c))).
    induction 1 as [|x l Hs IH Hx]; intros Hk; [constructor|]. simpl.
    inversion Hk as [|?? Hkx Hkl]; subst. constructor; [by apply IH|].
    destruct l as [|y l]; [constructor|]. simpl. constructor.
    inversion Hx as [|?? Hxy]; subst. inversion Hkl as [|?? Hky _]; subst.
    unfold key_le in Hxy. by rewrite Hkx, Hky.
  - apply dom_fmap_L.
  - unfold live_total. simpl. unfold map_sum. by rewrite map_fold_fmap.
  - intros id t Ht. apply lookup_fmap_Some in Ht as (t' & <- & _). done.
Qed.

Lemma Drain_complete_witness :
  let c := @run ascii_only_tables start [(t0, sample_new 10 20)] in
  exists bs, length bs = 1%nat /\ bs ≡ₚ (map_to_list (buckets c)).*2.
Proof.
  intros c. destruct (Drain c t0) as [c' [[[bs cov] ws] ok]] eqn:E.
  assert (Hok : ok = true) by (apply (f_equal (fun x => x.2.2)) in E; vm_compute in E; congruence).
  subst ok. exists bs. split.
  - apply (f_equal (fun x => Nat.eqb (length x.2.1.1.1) 1)) in E. vm_compute in E.
    symmetry in E. by apply Nat.eqb_eq in E.
  - refine (proj1 (Drain_complete c t0 c' bs cov ws _ E)). apply inv_run, inv_new.
Defined.
