(* ===== verification/NodeOperations.v ===== *)
(** * The server's node-operation queue

    [src/internal/server/db/node_operations.go] with the SQL it runs
    ([src/queries/node_operations.sql], whose compiled text is
    [src/internal/server/store/sqlc/node_operations.sql.go]) over the tables of
    [src/schema/schema.sql].

    A table is a finite map; each SQL statement is a function of the tables
    (one atomic step of SQLite), and each method of [DB] composes them the way
    the Go code does.  [now] arguments are the clock readings: [snow] is
    SQLite's (rendered by [strftime] with millisecond precision), [gnow] is
    Go's.  Leases are compared as TEXT, which is what the queries do. *)
From S2P Require Import Prelude GoStrings GoTime.

#[local] Open Scope Z_scope.

Definition NodeOperationLeaseDuration : Z := 90 * second.

(** What the code calls outside this repository: SHA-256 and the decoding of a
    JSON object followed by its re-encoding ([None]: an error, or [null]). *)
Class OperationEnv : Type := {
  SHA256Hex : string -> string;
  json_object : string -> option string;
}.

(** ** Errors *)
Inductive OpError :=
| ErrNoRows | ErrActiveNodeOperation | ErrInvalidOperationLease | ErrOperationIdempotencyConflict
| ErrUnsupportedKind | ErrPayload | ErrKeyRequired | ErrKeyTooLong | ErrCapabilities
| ErrTimestamp | ErrExpiryOrder | ErrRetryOf | ErrConstraint
| ErrEventStatus | ErrEventPhase | ErrMessageTooLong | ErrErrorTooLong | ErrDetails | ErrResult
| ErrReportedAt | ErrSequenceReused | ErrNotCancelRequested | ErrSequenceExists | ErrSequenceGap.
#[export] Instance OpError_eq_dec : EqDecision OpError.
Proof. solve_decision. Defined.

(** ** Tables *)
Inductive OperationStatus := queued | running | succeeded | failed | cancelled | expired.
#[export] Instance OperationStatus_eq_dec : EqDecision OperationStatus.
Proof. solve_decision. Defined.

(** The columns no statement updates... *)
Record op_spec := {
  op_id : string; op_node_id : string; op_kind : string; op_payload : string;
  op_idempotency_key : string; op_required_capabilities : list string;
  op_not_before : option string; op_expires_at : option string;
  op_requested_by : string; op_requested_at : string; op_retry_of : option string
}.
(** ... and those they do. *)
Record op_progress := {
  op_status : OperationStatus; op_phase : string; op_result : string; op_attempt : Z;
  op_lease_hash : option string; op_lease_expires_at : option string;
  op_cancel_requested : bool; op_claimed_at : option string; op_started_at : option string;
  op_finished_at : option string; op_updated_at : string; op_error : string
}.
Record operation := { spec : op_spec; prog : op_progress }.

Record event := {
  e_status : OperationStatus; e_phase : string; e_message : string; e_details : string;
  e_result : string; e_error : string; e_reported_at : string
}.
#[export] Instance op_spec_eq_dec : EqDecision op_spec.
Proof. solve_decision. Defined.
#[export] Instance op_progress_eq_dec : EqDecision op_progress.
Proof. solve_decision. Defined.
#[export] Instance operation_eq_dec : EqDecision operation.
Proof. solve_decision. Defined.
#[export] Instance event_eq_dec : EqDecision event.
Proof. solve_decision. Defined.

(** [UNIQUE (operation_id, attempt, sequence)] is the key of the event table. *)
Record tables := {
  ops : gmap string operation;
  events : gmap (string * Z * Z) event
}.
Definition no_tables : tables := {| ops := ∅; events := ∅ |}.

Definition is_active (p : op_progress) : bool :=
  match op_status p with queued | running => true | _ => false end.
Definition terminal (p : op_progress) : bool := negb (is_active p).

(** strftime('%Y-%m-%dT%H:%M:%fZ', 'now') *)
Definition strftime (snow : Time) : string := Format_instant snow.
(** SQL comparison of TEXT, false on NULL *)
Definition text_le (a : option string) (b : string) : bool :=
  match a with Some a => String.leb a b | None => false end.
Definition text_gt (a : option string) (b : string) : bool :=
  match a with Some a => String.ltb b a | None => false end.
Definition text_eq (a b : option string) : bool :=
  match a, b with Some a, Some b => (a =? b)%string | _, _ => false end.

Definition nullableString (value : string) : option string :=
  let value := TrimSpace value in if (value =? "")%string then None else Some value.

(** ** Statements *)

Definition GetNodeOperationByID (s : tables) (id : string) : option operation := ops s !! id.

Definition all_ops (s : tables) : list operation := (map_to_list (ops s)).*2.

Definition GetNodeOperationByIdempotencyKey (s : tables) (node key : string) : option operation :=
  head (filter (fun o => op_node_id (spec o) = node /\ op_idempotency_key (spec o) = key) (all_ops s)).

Definition by_requested (a b : operation) : Prop :=
  String.leb (op_requested_at (spec a)) (op_requested_at (spec b)) = true.
#[export] Instance by_requested_dec a b : Decision (by_requested a b).
Proof. unfold by_requested. apply _. Defined.

Definition GetActiveNodeOperation (s : tables) (node : string) : option operation :=
  head (merge_sort by_requested
    (filter (fun o => op_node_id (spec o) = node /\ is_active (prog o) = true) (all_ops s))).

Definition set_op (s : tables) (id : string) (o : operation) : tables :=
  {| ops := <[id := o]> (ops s); events := events s |}.
Definition set_prog (s : tables) (id : string) (o : operation) (p : op_progress) : tables :=
  set_op s id {| spec := spec o; prog := p |}.

(** INSERT with the defaults of the schema; the primary key, the idempotency
    key and the partial index on active operations are unique. *)
Definition new_progress (snow : Time) : op_progress :=
  {| op_status := queued; op_phase := "queued"; op_result := "{}"; op_attempt := 0;
     op_lease_hash := None; op_lease_expires_at := None; op_cancel_requested := false;
     op_claimed_at := None; op_started_at := None; op_finished_at := None;
     op_updated_at := strftime snow; op_error := "" |}.
Definition insert_conflicts (s : tables) (sp : op_spec) : bool :=
  bool_decide (is_Some (ops s !! op_id sp))
  || bool_decide (is_Some (GetNodeOperationByIdempotencyKey s (op_node_id sp) (op_idempotency_key sp)))
  || bool_decide (is_Some (GetActiveNodeOperation s (op_node_id sp))).
Definition q_CreateNodeOperation (s : tables) (snow : Time) (sp : op_spec) : result OpError tables :=
  if insert_conflicts s sp then Err ErrConstraint
  else Ok (set_op s (op_id sp) {| spec := sp; prog := new_progress snow |}).

Definition expire_one (snow : Time) (node : string) (o : operation) : operation :=
  let p := prog o in
  if bool_decide (op_node_id (spec o) = node) && bool_decide (op_status p = queued)
     && text_le (op_expires_at (spec o)) (strftime snow)
  then {| spec := spec o;
          prog := {| op_status := expired; op_phase := "expired"; op_result := op_result p;
            op_attempt := op_attempt p; op_lease_hash := op_lease_hash p;
            op_lease_expires_at := op_lease_expires_at p; op_cancel_requested := op_cancel_requested p;
            op_claimed_at := op_claimed_at p; op_started_at := op_started_at p;
            op_finished_at := Some (strftime snow); op_updated_at := strftime snow;
            op_error := "operation expired before it was claimed" |} |}
  else o.
Definition ExpireQueuedNodeOperations (s : tables) (snow : Time) (node : string) : tables :=
  {| ops := expire_one snow node <$> ops s; events := events s |}.

Definition claimable (snow : Time) (o : operation) : bool :=
  let p := prog o in
  negb (op_cancel_requested p)
  && match op_not_before (spec o) with None => true | Some t => String.leb t (strftime snow) end
  && ((bool_decide (op_status p = queued)
       && match op_expires_at (spec o) with None => true | Some t => String.ltb (strftime snow) t end)
      || (bool_decide (op_status p = running) && text_le (op_lease_expires_at p) (strftime snow))).
Definition claimed_progress (snow : Time) (hash lease : string) (p : op_progress) : op_progress :=
  {| op_status := running;
     op_phase := if bool_decide (op_status p = queued) then "claimed" else op_phase p;
     op_result := op_result p; op_attempt := op_attempt p + 1;
     op_lease_hash := nullableString hash; op_lease_expires_at := nullableString lease;
     op_cancel_requested := op_cancel_requested p;
     op_claimed_at := Some (strftime snow);
     op_started_at := match op_started_at p with Some t => Some t | None => Some (strftime snow) end;
     op_finished_at := op_finished_at p; op_updated_at := strftime snow; op_error := op_error p |}.
Definition q_ClaimNodeOperation (s : tables) (snow : Time) (hash lease id node : string)
    : option (tables * operation) :=
  match ops s !! id with
  | Some o =>
      if bool_decide (op_node_id (spec o) = node) && claimable snow o then
        let o' := {| spec := spec o; prog := claimed_progress snow hash lease (prog o) |} in
        Some (set_op s id o', o')
      else None
  | None => None
  end.

Definition with_lease (snow : Time) (lease : string) (p : op_progress) : op_progress :=
  {| op_status := op_status p; op_phase := op_phase p; op_result := op_result p;
     op_attempt := op_attempt p; op_lease_hash := op_lease_hash p;
     op_lease_expires_at := nullableString lease; op_cancel_requested := op_cancel_requested p;
     op_claimed_at := op_claimed_at p; op_started_at := op_started_at p;
     op_finished_at := op_finished_at p; op_updated_at := strftime snow; op_error := op_error p |}.
(** The lease predicate the guarded updates share. *)
Definition holds_lease (snow : Time) (hash : option string) (node : string) (o : operation) : bool :=
  let p := prog o in
  bool_decide (op_node_id (spec o) = node) && bool_decide (op_status p = running)
  && text_eq (op_lease_hash p) hash && text_gt (op_lease_expires_at p) (strftime snow).
Definition q_ResumeNodeOperationLease (s : tables) (snow : Time) (lease id node : string) (hash : option string)
    : option (tables * operation) :=
  match ops s !! id with
  | Some o =>
      if holds_lease snow hash node o then
        let o' := {| spec := spec o; prog := with_lease snow lease (prog o) |} in
        Some (set_op s id o', o')
      else None
  | None => None
  end.
Definition q_RenewNodeOperationLease (s : tables) (snow : Time) (lease id node : string) (hash : option string)
    (attempt : Z) : option (tables * bool) :=
  match ops s !! id with
  | Some o =>
      if holds_lease snow hash node o && (op_attempt (prog o) =? attempt) then
        Some (set_prog s id o (with_lease snow lease (prog o)), op_cancel_requested (prog o))
      else None
  | None => None
  end.

Definition cancel_progress (snow : Time) (p : op_progress) : op_progress :=
  let q := bool_decide (op_status p = queued) in
  {| op_status := if q then cancelled else op_status p;
     op_phase := if q then "cancelled" else op_phase p;
     op_result := op_result p; op_attempt := op_attempt p; op_lease_hash := op_lease_hash p;
     op_lease_expires_at := op_lease_expires_at p; op_cancel_requested := true;
     op_claimed_at := op_claimed_at p; op_started_at := op_started_at p;
     op_finished_at := if q then Some (strftime snow) else op_finished_at p;
     op_updated_at := strftime snow; op_error := op_error p |}.
Definition q_RequestNodeOperationCancel (s : tables) (snow : Time) (id : string)
    : option (tables * operation) :=
  match ops s !! id with
  | Some o =>
      if is_active (prog o) then
        let o' := {| spec := spec o; prog := cancel_progress snow (prog o) |} in
        Some (set_op s id o', o')
      else None
  | None => None
  end.
Definition q_CancelUnclaimedNodeOperation (s : tables) (snow : Time) (id : string) : tables :=
  match ops s !! id with
  | Some o =>
      if bool_decide (op_status (prog o) = queued)
      then set_prog s id o (cancel_progress snow (prog o)) else s
  | None => s
  end.

Definition GetNodeOperationEvent (s : tables) (id : string) (attempt sequence : Z) : option event :=
  events s !! (id, attempt, sequence).
(** COALESCE(MAX(sequence), 0) *)
Definition LastNodeOperationEventSequence (s : tables) (id : string) (attempt : Z) : Z :=
  map_fold (fun k _ m => if bool_decide (k.1 = (id, attempt)) then Z.max k.2 m else m) 0 (events s).
(** INSERT ... ON CONFLICT DO NOTHING *)
Definition AppendNodeOperationEvent (s : tables) (id : string) (attempt sequence : Z) (e : event) : tables :=
  match events s !! (id, attempt, sequence) with
  | Some _ => s
  | None => {| ops := ops s; events := <[(id, attempt, sequence) := e]> (events s) |}
  end.
Definition applied_progress (snow : Time) (next : OperationStatus) (phase result err lease : string)
    (finished : option string) (p : op_progress) : op_progress :=
  let r := bool_decide (next = running) in
  {| op_status := next; op_phase := phase; op_result := result; op_attempt := op_attempt p;
     op_lease_hash := if r then op_lease_hash p else None;
     op_lease_expires_at := if r then nullableString lease else None;
     op_cancel_requested := op_cancel_requested p;
     op_claimed_at := op_claimed_at p; op_started_at := op_started_at p;
     op_finished_at := match finished with Some t => Some t | None => op_finished_at p end;
     op_updated_at := strftime snow; op_error := err |}.
Definition q_ApplyNodeOperationEvent (s : tables) (snow : Time) (next : OperationStatus)
    (phase result err lease : string) (finished : option string) (id node : string) (hash : option string) (attempt : Z)
    : option (tables * operation) :=
  match ops s !! id with
  | Some o =>
      if holds_lease snow hash node o && (op_attempt (prog o) =? attempt) then
        let o' := {| spec := spec o;
                     prog := applied_progress snow next phase result err lease finished (prog o) |} in
        Some (set_op s id o', o')
      else None
  | None => None
  end.

(** ** Methods of DB *)
Section methods.
Context `{OperationEnv}.

Definition CapabilityOperationsV1 := "operations.v1"%string.
Definition CapabilityAgentUpdateV1 := "update.agent.v1"%string.
Definition CapabilitySingBoxUpdateV1 := "update.sing_box.v1"%string.
Definition CapabilityStreamingDownloadV1 := "download.streaming.v1"%string.
Definition CapabilityVersionedInstallV1 := "install.versioned.v1"%string.
Definition CapabilityAgentRestartResumeV1 := "restart_resume.agent.v1"%string.
Definition CapabilitySingBoxRollbackV1 := "rollback.sing_box.v1"%string.

Definition allowedNodeOperationKinds : list string :=
  ["update.bundle"; "update.agent"; "update.sing_box"; "config.reconcile";
   "diagnostics.collect"; "logs.collect"]%string.

Definition requiredCapabilitiesForOperation (kind : string) : list string :=
  if (kind =? "update.agent")%string then
    [CapabilityOperationsV1; CapabilityAgentUpdateV1; CapabilityStreamingDownloadV1;
     CapabilityVersionedInstallV1; CapabilityAgentRestartResumeV1]
  else if (kind =? "update.sing_box")%string then
    [CapabilityOperationsV1; CapabilitySingBoxUpdateV1; CapabilityStreamingDownloadV1;
     CapabilityVersionedInstallV1; CapabilitySingBoxRollbackV1]
  else if (kind =? "update.bundle")%string then
    [CapabilityOperationsV1; CapabilityAgentUpdateV1; CapabilitySingBoxUpdateV1;
     CapabilityStreamingDownloadV1; CapabilityVersionedInstallV1;
     CapabilityAgentRestartResumeV1; CapabilitySingBoxRollbackV1]
  else [CapabilityOperationsV1].

(** Trimmed, non-empty, without repetitions, sorted. *)
Definition str_leb_rel (a b : string) : Prop := String.leb a b = true.
#[export] Instance str_leb_rel_dec a b : Decision (str_leb_rel a b).
Proof. unfold str_leb_rel. apply _. Defined.
Definition collect_capability (out : list string) (value : string) : list string :=
  let value := TrimSpace value in
  if (value =? "")%string || bool_decide (value ∈ out) then out else out ++ [value].
Definition normalizeCapabilities (values : list string) : list string :=
  merge_sort str_leb_rel (foldl collect_capability [] values).

Definition hasCapabilities (available required : list string) : bool :=
  forallb (fun c => bool_decide (c ∈ normalizeCapabilities available)) required.

(** Every rune of the capability is one of [a-z0-9._-]; a non-ASCII rune is
    not, and neither is any of its bytes. *)
Definition capability_byte (c : ascii) : bool :=
  ((97 <=? code c) && (code c <=? 122)) || is_digit c
  || (code c =? 46) || (code c =? 95) || (code c =? 45).
Definition validateCapabilities (capabilities : list string) : bool :=
  negb (128 <? Z.of_nat (length capabilities))
  && forallb (fun c => negb (128 <? Z.of_nat (String.length c))
                       && forallb capability_byte (to_bytes c)) capabilities.

Definition normalizeJSONObject (raw : string) : option string :=
  if 262144 <? Z.of_nat (String.length raw) then None
  else if (TrimSpace raw =? "")%string then Some "{}"%string
  else json_object raw.

(** The zero [time.Time]: January 1 of year 1. *)
Definition zero_time : Time := -62135596800 * second.
Definition IsZero (t : Time) : bool := t =? zero_time.
Definition normalizeOptionalTimestamp (value : string) : option (string * Time) :=
  if (TrimSpace value =? "")%string then Some (""%string, zero_time)
  else match Parse value with
       | None => None
       | Some parsed => Some (Format_RFC3339Nano parsed, parsed)
       end.

Record CreateNodeOperationParams := {
  cp_Kind : string; cp_Payload : string; cp_IdempotencyKey : string;
  cp_RequiredCapabilities : list string; cp_NotBefore : string; cp_ExpiresAt : string;
  cp_RequestedBy : string; cp_RetryOf : string
}.

(** The request as the columns hold it. *)
Definition request_spec (node newid requested_at : string) (p : CreateNodeOperationParams)
    : result OpError op_spec :=
  let kind := TrimSpace (cp_Kind p) in
  guard! bool_decide (kind ∈ allowedNodeOperationKinds) else ErrUnsupportedKind;
  match normalizeJSONObject (cp_Payload p) with
  | None => Err ErrPayload
  | Some payload =>
      let key := TrimSpace (cp_IdempotencyKey p) in
      guard! negb (key =? "")%string else ErrKeyRequired;
      guard! negb (128 <? Z.of_nat (String.length key)) else ErrKeyTooLong;
      let capabilities := normalizeCapabilities
        (cp_RequiredCapabilities p ++ requiredCapabilitiesForOperation kind) in
      guard! validateCapabilities capabilities else ErrCapabilities;
      match normalizeOptionalTimestamp (cp_NotBefore p) with
      | None => Err ErrTimestamp
      | Some (notBefore, notBeforeTime) =>
          match normalizeOptionalTimestamp (cp_ExpiresAt p) with
          | None => Err ErrTimestamp
          | Some (expiresAt, expiresAtTime) =>
              guard! negb (negb (IsZero notBeforeTime) && negb (IsZero expiresAtTime)
                           && negb (notBeforeTime <? expiresAtTime)) else ErrExpiryOrder;
              let by_ := TrimSpace (cp_RequestedBy p) in
              Ok {| op_id := newid; op_node_id := node; op_kind := kind; op_payload := payload;
                    op_idempotency_key := key; op_required_capabilities := capabilities;
                    op_not_before := nullableString notBefore;
                    op_expires_at := nullableString expiresAt;
                    op_requested_by := if (by_ =? "")%string then "admin"%string else by_;
                    op_requested_at := requested_at;
                    op_retry_of := nullableString (cp_RetryOf p) |}
          end
      end
  end.

(** The comparison is with the request's strings, not their NULLable columns:
    [retryOf] is not trimmed. *)
Definition nodeOperationRequestMatches (row : op_spec) (sp : op_spec) (retryOf : string) : bool :=
  (op_kind row =? op_kind sp)%string && (op_payload row =? op_payload sp)%string
  && (op_idempotency_key row =? op_idempotency_key sp)%string
  && bool_decide (op_required_capabilities row = op_required_capabilities sp)
  && bool_decide (op_not_before row = op_not_before sp)
  && bool_decide (op_expires_at row = op_expires_at sp)
  && (default "" (op_retry_of row) =? retryOf)%string.

(** The transaction: the tables change only when it commits. *)
Definition create_tx (s : tables) (snow : Time) (sp : op_spec) (retryOf : string)
    : result OpError (tables * operation * bool) :=
  match GetNodeOperationByIdempotencyKey s (op_node_id sp) (op_idempotency_key sp) with
  | Some existing =>
      if nodeOperationRequestMatches (spec existing) sp retryOf then Ok (s, existing, false)
      else Err ErrOperationIdempotencyConflict
  | None =>
      guard! negb (bool_decide (is_Some (GetActiveNodeOperation s (op_node_id sp))))
        else ErrActiveNodeOperation;
      let? _ :=
        (if (retryOf =? "")%string then Ok tt
         else match GetNodeOperationByID s retryOf with
              | None => Err ErrNoRows
              | Some previous =>
                  if negb (op_node_id (spec previous) =? op_node_id sp)%string
                     || is_active (prog previous)
                  then Err ErrRetryOf else Ok tt
              end) in
      let? s := q_CreateNodeOperation s snow sp in
      match GetNodeOperationByID s (op_id sp) with
      | Some created => Ok (s, created, true)
      | None => Err ErrNoRows
      end
  end.

Definition CreateNodeOperation (s : tables) (snow : Time) (node newid : string)
    (p : CreateNodeOperationParams) : tables * result OpError (operation * bool) :=
  match request_spec node newid (strftime snow) p with
  | Err e => (s, Err e)
  | Ok sp =>
      match create_tx s snow sp (cp_RetryOf p) with
      | Ok (s', created, wasCreated) => (s', Ok (created, wasCreated))
      | Err e =>
          match GetNodeOperationByIdempotencyKey s node (op_idempotency_key sp) with
          | Some existing =>
              if nodeOperationRequestMatches (spec existing) sp (cp_RetryOf p)
              then (s, Ok (existing, false)) else (s, Err ErrOperationIdempotencyConflict)
          | None => (s, Err e)
          end
      end
  end.

(** [secret] is the fresh token [secret.HexBytes] draws. *)
Definition ClaimNodeOperation (s : tables) (gnow snow : Time) (node : string)
    (capabilities : list string) (currentOperationID leaseToken secret : string)
    : tables * option (operation * string) :=
  let s := ExpireQueuedNodeOperations s snow node in
  match GetActiveNodeOperation s node with
  | None => (s, None)
  | Some o =>
      if negb (hasCapabilities capabilities (op_required_capabilities (spec o))) then (s, None)
      else
        let lease := Format_RFC3339Nano (gnow + NodeOperationLeaseDuration) in
        let id := op_id (spec o) in
        let resumed :=
          if (TrimSpace currentOperationID =? id)%string && negb (TrimSpace leaseToken =? "")%string
          then q_ResumeNodeOperationLease s snow lease id node (nullableString (SHA256Hex leaseToken))
          else None in
        match resumed with
        | Some (s, o) => (s, Some (o, leaseToken))
        | None =>
            let leaseToken := ("bfl_" ++ secret)%string in
            match q_ClaimNodeOperation s snow (SHA256Hex leaseToken) lease id node with
            | Some (s, o) => (s, Some (o, leaseToken))
            | None => (s, None)
            end
        end
  end.

Definition RenewNodeOperationLease (s : tables) (gnow snow : Time) (node operationID leaseToken : string)
    (attempt : Z) : tables * result OpError bool :=
  if (operationID =? "")%string || (leaseToken =? "")%string || (attempt <=? 0)
  then (s, Err ErrInvalidOperationLease)
  else match q_RenewNodeOperationLease s snow (Format_RFC3339Nano (gnow + NodeOperationLeaseDuration))
               operationID node (nullableString (SHA256Hex leaseToken)) attempt with
       | None => (s, Err ErrInvalidOperationLease)
       | Some (s, cancelRequested) => (s, Ok cancelRequested)
       end.

Definition RequestNodeOperationCancel (s : tables) (snow : Time) (operationID : string)
    : tables * result OpError operation :=
  match q_RequestNodeOperationCancel s snow (TrimSpace operationID) with
  | None => (s, Err ErrNoRows)
  | Some (s, o) => (s, Ok o)
  end.

Definition CancelUnclaimedNodeOperation (s : tables) (snow : Time) (operationID : string)
    : tables * result OpError operation :=
  let s := q_CancelUnclaimedNodeOperation s snow operationID in
  match GetNodeOperationByID s (TrimSpace operationID) with
  | None => (s, Err ErrNoRows)
  | Some o => (s, Ok o)
  end.

(** *** Events *)
Record RecordNodeOperationEventParams := {
  rp_OperationID : string; rp_LeaseToken : string; rp_Attempt : Z; rp_Sequence : Z;
  rp_Status : string; rp_Phase : string; rp_Message : string; rp_Details : string;
  rp_Result : string; rp_Error : string; rp_ReportedAt : string
}.

Definition event_status (status : string) : option OperationStatus :=
  if (status =? "running")%string then Some running
  else if (status =? "succeeded")%string then Some succeeded
  else if (status =? "failed")%string then Some failed
  else if (status =? "cancelled")%string then Some cancelled
  else None.

Definition phase_byte (first : bool) (c : ascii) : bool :=
  ((97 <=? code c) && (code c <=? 122)) || (negb first && is_digit c) || (negb first && (code c =? 95)).
Definition validOperationPhase (phase : string) : bool :=
  let phase := TrimSpace phase in
  match to_bytes phase with
  | [] => false
  | c :: r => negb (64 <? Z.of_nat (String.length phase)) && phase_byte true c && forallb (phase_byte false) r
  end.

Definition terminalFinishedAt (gnow : Time) (status : OperationStatus) : option string :=
  if bool_decide (status = running) then None else nullableString (Format_RFC3339Nano gnow).

(** The report as the columns hold it. *)
Definition report_event (gnow : Time) (p : RecordNodeOperationEventParams) : result OpError event :=
  if (rp_Attempt p <=? 0) || (rp_Sequence p <=? 0) || (rp_LeaseToken p =? "")%string
  then Err ErrInvalidOperationLease
  else match event_status (rp_Status p) with
  | None => Err ErrEventStatus
  | Some status =>
      guard! validOperationPhase (rp_Phase p) else ErrEventPhase;
      let message := TrimSpace (rp_Message p) in
      guard! negb (2048 <? Z.of_nat (String.length message)) else ErrMessageTooLong;
      let err := TrimSpace (rp_Error p) in
      guard! negb (8192 <? Z.of_nat (String.length err)) else ErrErrorTooLong;
      match normalizeJSONObject (rp_Details p) with
      | None => Err ErrDetails
      | Some details =>
          match normalizeJSONObject (rp_Result p) with
          | None => Err ErrResult
          | Some result =>
              guard! ((rp_ReportedAt p =? "")%string || bool_decide (is_Some (Parse (rp_ReportedAt p))))
                else ErrReportedAt;
              Ok {| e_status := status; e_phase := rp_Phase p; e_message := message;
                    e_details := details; e_result := result; e_error := err;
                    e_reported_at := if (rp_ReportedAt p =? "")%string
                                     then Format_RFC3339Nano gnow else rp_ReportedAt p |}
          end
      end
  end.

Definition same_report (a b : event) : bool :=
  bool_decide (e_status a = e_status b) && (e_phase a =? e_phase b)%string
  && (e_message a =? e_message b)%string && (e_details a =? e_details b)%string
  && (e_result a =? e_result b)%string && (e_error a =? e_error b)%string.

Definition record_tx (s : tables) (gnow snow : Time) (node : string)
    (p : RecordNodeOperationEventParams) (e : event) : result OpError (tables * operation) :=
  let id := rp_OperationID p in
  match GetNodeOperationByID s id with
  | None => Err ErrNoRows
  | Some current =>
      let c := prog current in
      guard! (op_node_id (spec current) =? node)%string else ErrInvalidOperationLease;
      match GetNodeOperationEvent s id (rp_Attempt p) (rp_Sequence p) with
      | Some existing => if same_report existing e then Ok (s, current) else Err ErrSequenceReused
      | None =>
          guard! (bool_decide (op_status c = running) && (op_attempt c =? rp_Attempt p)
                  && match op_lease_hash c with
                     | Some h => (h =? SHA256Hex (rp_LeaseToken p))%string | None => false end)
            else ErrInvalidOperationLease;
          guard! negb (bool_decide (e_status e = cancelled) && negb (op_cancel_requested c))
            else ErrNotCancelRequested;
          let lastSequence := LastNodeOperationEventSequence s id (rp_Attempt p) in
          guard! negb (rp_Sequence p <=? lastSequence) else ErrSequenceExists;
          guard! (rp_Sequence p =? lastSequence + 1) else ErrSequenceGap;
          let s := AppendNodeOperationEvent s id (rp_Attempt p) (rp_Sequence p) e in
          match q_ApplyNodeOperationEvent s snow (e_status e) (e_phase e) (e_result e) (e_error e)
                  (Format_RFC3339Nano (gnow + NodeOperationLeaseDuration))
                  (terminalFinishedAt gnow (e_status e)) id node
                  (nullableString (SHA256Hex (rp_LeaseToken p))) (rp_Attempt p) with
          | None => Err ErrInvalidOperationLease
          | Some (s, updated) => Ok (s, updated)
          end
      end
  end.

Definition RecordNodeOperationEvent (s : tables) (gnow snow : Time) (node : string)
    (p : RecordNodeOperationEventParams) : tables * result OpError operation :=
  match report_event gnow p with
  | Err e => (s, Err e)
  | Ok e => match record_tx s gnow snow node p e with
            | Ok (s, o) => (s, Ok o)
            | Err e => (s, Err e)
            end
  end.
End methods.

(** ** Lookups *)
Section lookups.
Implicit Types (s : tables) (o : operation).

Lemma all_ops_spec s o : o ∈ all_ops s <-> exists id, ops s !! id = Some o.
Proof.
  unfold all_ops. rewrite list_elem_of_fmap. split.
  - intros ([id o'] & -> & H). apply elem_of_map_to_list in H. eauto.
  - intros [id H]. exists (id, o). split; [done|]. by apply elem_of_map_to_list.
Qed.

Lemma head_filter_some {A} (P : A -> Prop) `{forall x, Decision (P x)} l x :
  head (filter P l) = Some x -> P x /\ x ∈ l.
Proof.
  destruct (filter P l) as [|y r] eqn:E; [done|]. intros [= ->].
  apply (proj1 (list_elem_of_filter P l x)). rewrite E. constructor.
Qed.
Lemma head_none {A} (l : list A) : head l = None -> l = [].
Proof. by destruct l. Qed.

Lemma GetActive_some s node o :
  GetActiveNodeOperation s node = Some o ->
  op_node_id (spec o) = node /\ is_active (prog o) = true /\ exists id, ops s !! id = Some o.
Proof.
  unfold GetActiveNodeOperation. intros Hh.
  assert (Hin : o ∈ filter (fun o => op_node_id (spec o) = node /\ is_active (prog o) = true) (all_ops s)).
  { rewrite <- (merge_sort_Permutation by_requested). destruct (merge_sort _ _); [done|].
    injection Hh as ->. constructor. }
  apply list_elem_of_filter in Hin as [[? ?] Hin]. by apply all_ops_spec in Hin.
Qed.
Lemma GetActive_none s node :
  GetActiveNodeOperation s node = None <->
  forall id o, ops s !! id = Some o -> op_node_id (spec o) = node -> is_active (prog o) = false.
Proof.
  unfold GetActiveNodeOperation. set (l := filter _ _). split.
  - intros Hh%head_none id o Ho Hn. destruct (is_active (prog o)) eqn:E; [|done].
    assert (Hl : l = []) by (apply Permutation_nil_r; by rewrite <- Hh, merge_sort_Permutation).
    assert (Hin : o ∈ l) by (apply list_elem_of_filter; split; [done|]; apply all_ops_spec; eauto).
    rewrite Hl in Hin. by apply elem_of_nil in Hin.
  - intros H. assert (Hl : l = []).
    { destruct l as [|o l'] eqn:El; [done|].
      assert (Hin : o ∈ filter (fun o => op_node_id (spec o) = node /\ is_active (prog o) = true) (all_ops s))
        by (subst l; rewrite El; constructor).
      apply list_elem_of_filter in Hin as [[Hn Ha] Hin]. apply all_ops_spec in Hin as [id Hid].
      rewrite (H id o) in Ha by done. done. }
    by rewrite Hl.
Qed.

Lemma GetByKey_some s node key o :
  GetNodeOperationByIdempotencyKey s node key = Some o ->
  op_node_id (spec o) = node /\ op_idempotency_key (spec o) = key /\ exists id, ops s !! id = Some o.
Proof.
  intros [[? ?] Hin]%head_filter_some. by apply all_ops_spec in Hin.
Qed.
Lemma GetByKey_none s node key :
  GetNodeOperationByIdempotencyKey s node key = None ->
  forall id o, ops s !! id = Some o -> op_node_id (spec o) = node -> op_idempotency_key (spec o) <> key.
Proof.
  intros Hh%head_none id o Ho Hn Hk.
  assert (Hin : o ∈ filter (fun o => op_node_id (spec o) = node /\ op_idempotency_key (spec o) = key) (all_ops s)).
  { apply list_elem_of_filter. split; [done|]. apply all_ops_spec. eauto. }
  rewrite Hh in Hin. by apply elem_of_nil in Hin.
Qed.

Lemma Last_spec s id attempt :
  let l := LastNodeOperationEventSequence s id attempt in
  (forall n, is_Some (events s !! (id, attempt, n)) -> n <= l) /\
  (l = 0 \/ is_Some (events s !! (id, attempt, l))) /\ 0 <= l.
Proof.
  cbv zeta. unfold LastNodeOperationEventSequence.
  apply (map_fold_weak_ind (fun l m =>
    (forall n, is_Some (m !! (id, attempt, n)) -> n <= l) /\
    (l = 0 \/ is_Some (m !! (id, attempt, l))) /\ 0 <= l)).
  { split; [|split; [by left|lia]]. intros n [x Hx]. by rewrite lookup_empty in Hx. }
  intros [k n'] x m r Hk (IH1 & IH2 & IH3). cbn [fst snd].
  case_bool_decide as Heq.
  - subst k. split_and!.
    + intros n [y Hy]. apply lookup_insert_Some in Hy as [[Hn _]|[_ Hy]]; [simplify_eq; lia|].
      etrans; [by apply IH1; eauto|]. lia.
    + destruct (Z.max_spec n' r) as [[Hlt ->]|[Hle ->]].
      * destruct IH2 as [->|IH2]; [by left|]. right.
        destruct (decide (r = n')) as [->|]; [by rewrite lookup_insert_eq|].
        by rewrite lookup_insert_ne by congruence.
      * right. by rewrite lookup_insert_eq.
    + lia.
  - split_and!; [|destruct IH2 as [IH2|IH2]; [by left|right]|done].
    + intros n [y Hy]. rewrite lookup_insert_ne in Hy by congruence. eauto.
    + by rewrite lookup_insert_ne by congruence.
Qed.
End lookups.

(** ** Invariant *)
Record progress_ok (p : op_progress) : Prop := {
  po_attempt : 0 <= op_attempt p;
  po_running : op_status p = running -> 1 <= op_attempt p;
  po_lease : op_status p <> running -> op_lease_hash p = None;
}.

Record op_inv (s : tables) : Prop := {
  oi_id : forall id o, ops s !! id = Some o -> op_id (spec o) = id;
  oi_active : forall id1 id2 o1 o2, ops s !! id1 = Some o1 -> ops s !! id2 = Some o2 ->
    op_node_id (spec o1) = op_node_id (spec o2) ->
    is_active (prog o1) = true -> is_active (prog o2) = true -> id1 = id2;
  oi_key : forall id1 id2 o1 o2, ops s !! id1 = Some o1 -> ops s !! id2 = Some o2 ->
    op_node_id (spec o1) = op_node_id (spec o2) ->
    op_idempotency_key (spec o1) = op_idempotency_key (spec o2) -> id1 = id2;
  oi_progress : forall id o, ops s !! id = Some o -> progress_ok (prog o);
  oi_events : forall id a n e, events s !! (id, a, n) = Some e ->
    exists o, ops s !! id = Some o /\ 1 <= a <= op_attempt (prog o) /\ 1 <= n /\
      (1 < n -> is_Some (events s !! (id, a, n - 1)));
  oi_final : forall id a n e o, events s !! (id, a, n) = Some e -> e_status e <> running ->
    ops s !! id = Some o ->
    op_status (prog o) = e_status e /\ terminal (prog o) = true /\ op_attempt (prog o) = a /\
    events s !! (id, a, n + 1) = None;
}.

(** How one row may change: a terminal row does not, an active one keeps its
    specification and its attempts never go down. *)
Definition evolves (o o' : operation) : Prop :=
  spec o' = spec o /\
  (o' = o \/ (is_active (prog o) = true /\ progress_ok (prog o') /\ op_attempt (prog o) <= op_attempt (prog o'))).

Lemma evolves_refl o : evolves o o.
Proof. split; auto. Qed.
Lemma evolves_attempt o o' : evolves o o' -> op_attempt (prog o) <= op_attempt (prog o').
Proof. intros [_ [->|(_ & _ & ?)]]; lia. Qed.
Lemma evolves_active o o' : evolves o o' -> is_active (prog o') = true -> is_active (prog o) = true.
Proof. intros [_ [->|(? & _ & _)]]; done. Qed.
Lemma evolves_terminal o o' : evolves o o' -> terminal (prog o) = true -> o' = o.
Proof. unfold terminal. intros [_ [?|(Ha & _ & _)]]; [done|]. by rewrite Ha. Qed.
Lemma evolves_trans o1 o2 o3 : evolves o1 o2 -> evolves o2 o3 -> evolves o1 o3.
Proof.
  intros H12 H23. pose proof (evolves_attempt _ _ H12). pose proof (evolves_attempt _ _ H23).
  destruct H12 as [E12 [->|(Ha & Hp & Hat)]]; [done|]. destruct H23 as [E23 H23].
  split; [congruence|]. destruct H23 as [->|(_ & ? & _)]; right; auto.
  split_and!; [done..|lia].
Qed.

(** The tables evolve: rows are only added or evolve, events are only added. *)
Definition tables_evolve (s s' : tables) : Prop :=
  (forall id o, ops s !! id = Some o -> exists o', ops s' !! id = Some o' /\ evolves o o') /\
  events s ⊆ events s'.

Lemma tables_evolve_refl s : tables_evolve s s.
Proof. split; [|done]. intros id o Ho. exists o. auto using evolves_refl. Qed.
Lemma tables_evolve_trans s1 s2 s3 :
  tables_evolve s1 s2 -> tables_evolve s2 s3 -> tables_evolve s1 s3.
Proof.
  intros [H12 E12] [H23 E23]. split; [|by etrans]. intros id o Ho.
  destruct (H12 id o Ho) as (o2 & Ho2 & Hev). destruct (H23 id o2 Ho2) as (o3 & Ho3 & Hev').
  exists o3. eauto using evolves_trans.
Qed.
#[export] Instance tables_evolve_preorder : PreOrder tables_evolve.
Proof. split; [intros s; apply tables_evolve_refl|intros s1 s2 s3; apply tables_evolve_trans]. Qed.

(** Rows evolving in place preserve the invariant. *)
Lemma inv_pointwise s s' :
  op_inv s -> events s' = events s ->
  (forall id o', ops s' !! id = Some o' -> exists o, ops s !! id = Some o /\ evolves o o') ->
  (forall id o, ops s !! id = Some o -> exists o', ops s' !! id = Some o' /\ evolves o o') ->
  op_inv s'.
Proof.
  intros [Hid Hact Hkey Hpr Hev Hfin] He Hback Hfwd. split.
  - intros id o' Ho'. destruct (Hback _ _ Ho') as (o & Ho & [Hs _]). rewrite Hs. eauto.
  - intros id1 id2 o1 o2 H1 H2 Hn Ha1 Ha2.
    destruct (Hback _ _ H1) as (p1 & Hp1 & E1). destruct (Hback _ _ H2) as (p2 & Hp2 & E2).
    pose proof (evolves_active _ _ E1 Ha1). pose proof (evolves_active _ _ E2 Ha2).
    destruct E1 as [E1 _], E2 as [E2 _]. eapply Hact; eauto. congruence.
  - intros id1 id2 o1 o2 H1 H2 Hn Hk.
    destruct (Hback _ _ H1) as (p1 & Hp1 & [E1 _]). destruct (Hback _ _ H2) as (p2 & Hp2 & [E2 _]).
    eapply Hkey; eauto; congruence.
  - intros id o' Ho'. destruct (Hback _ _ Ho') as (o & Ho & [_ [->|(_ & ? & _)]]); eauto.
  - intros id a n e Hx. rewrite He in *. destruct (Hev _ _ _ _ Hx) as (o & Ho & Ha & Hn & Hg).
    destruct (Hfwd _ _ Ho) as (o' & Ho' & E). exists o'. split_and!; try done; [lia|].
    pose proof (evolves_attempt _ _ E). lia.
  - intros id a n e o' Hx Hne Ho'. rewrite He in *. destruct (Hback _ _ Ho') as (o & Ho & E).
    destruct (Hfin _ _ _ _ _ Hx Hne Ho) as (Hs & Ht & Ha & Hnx).
    by rewrite (evolves_terminal _ _ E Ht).
Qed.

Lemma inv_set_prog s id o p :
  op_inv s -> ops s !! id = Some o -> evolves o {| spec := spec o; prog := p |} ->
  op_inv (set_prog s id o p) /\ tables_evolve s (set_prog s id o p).
Proof.
  intros Hinv Ho Hev.
  assert (Hfwd : forall id' o', ops s !! id' = Some o' ->
    exists o'', ops (set_prog s id o p) !! id' = Some o'' /\ evolves o' o'').
  { intros id' o' Ho'. simpl. destruct (decide (id = id')) as [<-|Hne].
    - rewrite lookup_insert_eq. simplify_eq. eauto.
    - rewrite lookup_insert_ne by done. eauto using evolves_refl. }
  split; [|done].
  eapply inv_pointwise; [done|done| |done].
  intros id' o' Ho'. simpl in Ho'. apply lookup_insert_Some in Ho' as [[<- <-]|[_ Ho']]; eauto using evolves_refl.
Qed.

(** ** Statements preserve the invariant *)
Section statements.
Context `{OperationEnv}.
Implicit Types (s : tables) (o : operation).

Definition good s s' : Prop := op_inv s' /\ tables_evolve s s'.

Lemma good_expire s snow node : op_inv s -> good s (ExpireQueuedNodeOperations s snow node).
Proof.
  intros Hinv. unfold good.
  assert (Hone : forall id o, ops s !! id = Some o -> evolves o (expire_one snow node o)).
  { intros id o Ho. unfold expire_one. destruct (_ && _) eqn:E; [|apply evolves_refl]. breflect.
    pose proof (oi_progress _ Hinv _ _ Ho) as [Ha _ Hl]. split; [done|right]. split_and!.
    - unfold is_active. by rewrite H2.
    - split; simpl; [done|done|]. intros _. apply Hl. by rewrite H2.
    - simpl. lia. }
  assert (Hfwd : forall id o, ops s !! id = Some o ->
    exists o', ops (ExpireQueuedNodeOperations s snow node) !! id = Some o' /\ evolves o o').
  { intros id o Ho. simpl. rewrite lookup_fmap, Ho. eauto. }
  split; [|by split]. eapply inv_pointwise; [done|done| |done].
  intros id o' Ho'. simpl in Ho'. apply lookup_fmap_Some in Ho' as (o & <- & Ho). eauto.
Qed.

Lemma good_claim s snow hash lease id node s' o :
  op_inv s -> q_ClaimNodeOperation s snow hash lease id node = Some (s', o) -> good s s'.
Proof.
  intros Hinv. unfold q_ClaimNodeOperation. destruct (ops s !! id) as [o0|] eqn:Ho; [|done].
  destruct (_ && _) eqn:E; [|done]. intros [= <- <-]. breflect.
  apply (inv_set_prog s id o0); [done|done|].
  pose proof (oi_progress _ Hinv _ _ Ho) as [Ha Hr Hl]. split; [done|right].
  unfold claimable in *. breflect. split_and!.
  - unfold is_active. destruct H2 as [[Hs _]%andb_true_iff|[Hs _]%andb_true_iff]; breflect; by rewrite Hs.
  - split; simpl; [lia|lia|done].
  - simpl. lia.
Qed.

Lemma holds_lease_running snow hash node o :
  holds_lease snow hash node o = true ->
  op_node_id (spec o) = node /\ op_status (prog o) = running /\
  text_eq (op_lease_hash (prog o)) hash = true /\
  text_gt (op_lease_expires_at (prog o)) (strftime snow) = true.
Proof. unfold holds_lease. intros E. breflect. done. Qed.

Lemma evolves_lease s id o snow lease :
  op_inv s -> ops s !! id = Some o -> op_status (prog o) = running ->
  evolves o {| spec := spec o; prog := with_lease snow lease (prog o) |}.
Proof.
  intros Hinv Ho Hs. pose proof (oi_progress _ Hinv _ _ Ho) as [Ha Hr Hl].
  split; [done|right]. split_and!; [by unfold is_active; rewrite Hs|by split|simpl; lia].
Qed.

Lemma good_resume s snow lease id node hash s' o :
  op_inv s -> q_ResumeNodeOperationLease s snow lease id node hash = Some (s', o) -> good s s'.
Proof.
  intros Hinv. unfold q_ResumeNodeOperationLease. destruct (ops s !! id) as [o0|] eqn:Ho; [|done].
  destruct (holds_lease _ _ _ _) eqn:E; [|done]. intros [= <- <-].
  apply holds_lease_running in E as (_ & Hs & _).
  apply (inv_set_prog s id o0); [done|done|]. by eapply evolves_lease.
Qed.
Lemma good_renew s snow lease id node hash attempt s' b :
  op_inv s -> q_RenewNodeOperationLease s snow lease id node hash attempt = Some (s', b) -> good s s'.
Proof.
  intros Hinv. unfold q_RenewNodeOperationLease. destruct (ops s !! id) as [o0|] eqn:Ho; [|done].
  destruct (_ && _) eqn:E; [|done]. intros [= <- <-]. apply andb_true_iff in E as [E _].
  apply holds_lease_running in E as (_ & Hs & _).
  apply inv_set_prog; [done|done|]. by eapply evolves_lease.
Qed.

Lemma evolves_cancel s id o snow :
  op_inv s -> ops s !! id = Some o -> is_active (prog o) = true ->
  evolves o {| spec := spec o; prog := cancel_progress snow (prog o) |}.
Proof.
  intros Hinv Ho Ha. pose proof (oi_progress _ Hinv _ _ Ho) as [Hat Hr Hl].
  split; [done|right]. split_and!; [done| |simpl; lia].
  split; simpl; [done| |].
  - case_bool_decide; [done|auto].
  - case_bool_decide as Hq; [|auto]. intros _. apply Hl. by rewrite Hq.
Qed.
Lemma good_cancel s snow id s' o :
  op_inv s -> q_RequestNodeOperationCancel s snow id = Some (s', o) -> good s s'.
Proof.
  intros Hinv. unfold q_RequestNodeOperationCancel. destruct (ops s !! id) as [o0|] eqn:Ho; [|done].
  destruct (is_active _) eqn:E; [|done]. intros [= <- <-].
  apply (inv_set_prog s id o0); [done|done|]. by eapply evolves_cancel.
Qed.
Lemma good_cancel_unclaimed s snow id : op_inv s -> good s (q_CancelUnclaimedNodeOperation s snow id).
Proof.
  intros Hinv. unfold q_CancelUnclaimedNodeOperation, good.
  destruct (ops s !! id) as [o0|] eqn:Ho; [|by split].
  case_bool_decide as Hq; [|by split]. apply inv_set_prog; [done|done|].
  eapply evolves_cancel; [done..|]. unfold is_active. by rewrite Hq.
Qed.

Lemma good_create s snow sp retryOf s' o b :
  op_inv s -> create_tx s snow sp retryOf = Ok (s', o, b) -> good s s'.
Proof.
  intros Hinv. unfold create_tx.
  destruct (GetNodeOperationByIdempotencyKey s _ _) as [ex|] eqn:Ek.
  { destruct (nodeOperationRequestMatches _ _ _); [|done]. by intros [= <- <- <-]. }
  destruct (negb _); [|done].
  destruct (if (retryOf =? "")%string then _ else _) as [?|?]; [|done].
  destruct (q_CreateNodeOperation s snow sp) as [s1|?] eqn:Eq; [|done].
  destruct (GetNodeOperationByID s1 _); [|done]. intros [= <- <- <-].
  unfold q_CreateNodeOperation in Eq. destruct (insert_conflicts s sp) eqn:Ec; [done|].
  injection Eq as <-. unfold insert_conflicts in Ec. breflect.
  assert (Hnew : ops s !! op_id sp = None) by (destruct (ops s !! op_id sp); [by destruct H0|done]).
  assert (Hact : GetActiveNodeOperation s (op_node_id sp) = None)
    by (destruct (GetActiveNodeOperation s _); [by destruct H1|done]).
  rewrite GetActive_none in Hact. pose proof (GetByKey_none _ _ _ Ek) as Hkey.
  split; [|split; [|done]].
  - destruct Hinv as [Hid Hac Hk Hpr Hev Hfin]. split; simpl.
    + intros id o' Ho'. apply lookup_insert_Some in Ho' as [[<- <-]|[_ Ho']]; eauto.
    + intros id1 id2 o1 o2 H1' H2'. apply lookup_insert_Some in H1' as [[<- <-]|[Hne1 H1']];
        apply lookup_insert_Some in H2' as [[<- <-]|[Hne2 H2']]; simpl; eauto.
      * intros Hn _ Hx. by rewrite (Hact id2 o2 H2' (eq_sym Hn)) in Hx.
      * intros Hn Hx _. by rewrite (Hact id1 o1 H1' Hn) in Hx.
    + intros id1 id2 o1 o2 H1' H2'. apply lookup_insert_Some in H1' as [[<- <-]|[Hne1 H1']];
        apply lookup_insert_Some in H2' as [[<- <-]|[Hne2 H2']]; simpl; eauto.
      * intros Hn Hx. by destruct (Hkey id2 o2 H2' (eq_sym Hn)).
      * intros Hn Hx. by destruct (Hkey id1 o1 H1' Hn).
    + intros id o' Ho'. apply lookup_insert_Some in Ho' as [[<- <-]|[_ Ho']]; eauto.
      by split.
    + intros id a' n e He. destruct (Hev _ _ _ _ He) as (o' & Ho' & ? & ? & ?).
      exists o'. split_and!; try done; try lia.
      rewrite lookup_insert_ne; [done|]. congruence.
    + intros id a' n e o' He Hne Ho'. apply lookup_insert_Some in Ho' as [[<- <-]|[_ Ho']]; eauto.
      destruct (Hev _ _ _ _ He) as (o'' & Ho'' & _). congruence.
  - intros id o' Ho'. simpl. exists o'. split; [|apply evolves_refl].
    rewrite lookup_insert_ne; [done|]. congruence.
Qed.

(** What a recorded event that is not a replay did. *)
Lemma record_tx_new s gnow snow node p e s' o' :
  GetNodeOperationEvent s (rp_OperationID p) (rp_Attempt p) (rp_Sequence p) = None ->
  record_tx s gnow snow node p e = Ok (s', o') ->
  exists o, ops s !! rp_OperationID p = Some o /\ op_node_id (spec o) = node /\
    op_status (prog o) = running /\ op_attempt (prog o) = rp_Attempt p /\
    op_lease_hash (prog o) = Some (SHA256Hex (rp_LeaseToken p)) /\
    text_gt (op_lease_expires_at (prog o)) (strftime snow) = true /\
    (e_status e = cancelled -> op_cancel_requested (prog o) = true) /\
    rp_Sequence p = LastNodeOperationEventSequence s (rp_OperationID p) (rp_Attempt p) + 1 /\
    spec o' = spec o /\
    prog o' = applied_progress snow (e_status e) (e_phase e) (e_result e) (e_error e)
      (Format_RFC3339Nano (gnow + NodeOperationLeaseDuration)) (terminalFinishedAt gnow (e_status e)) (prog o) /\
    ops s' = <[rp_OperationID p := o']> (ops s) /\
    events s' = <[(rp_OperationID p, rp_Attempt p, rp_Sequence p) := e]> (events s).
Proof.
  intros Hnone. unfold record_tx, GetNodeOperationByID. rewrite Hnone.
  destruct (ops s !! rp_OperationID p) as [o|] eqn:Ho; [|done].
  destruct (op_node_id (spec o) =? node)%string eqn:En; [|done].
  destruct (bool_decide (op_status (prog o) = running) && _ && _) eqn:Eg; [|done].
  destruct (negb (bool_decide (e_status e = cancelled) && _)) eqn:Ec; [|done].
  destruct (negb (_ <=? _)); [|done]. destruct (_ =? _ + 1) eqn:Es; [|done].
  unfold AppendNodeOperationEvent. unfold GetNodeOperationEvent in Hnone. rewrite Hnone.
  unfold q_ApplyNodeOperationEvent. simpl. rewrite Ho.
  destruct (holds_lease _ _ _ _ && _) eqn:El; [|done]. intros Hok. injection Hok as <- <-.
  apply andb_true_iff in El as [El _]. apply holds_lease_running in El as (_ & _ & _ & Hgt).
  breflect. destruct (op_lease_hash (prog o)) as [h|] eqn:Eh; [|done]. breflect.
  exists o. split_and!; try done; try congruence; try lia.
  intros Hc. destruct Ec as [?|?]; breflect; done.
Qed.

Lemma record_tx_replay s gnow snow node p e e0 s' o' :
  GetNodeOperationEvent s (rp_OperationID p) (rp_Attempt p) (rp_Sequence p) = Some e0 ->
  record_tx s gnow snow node p e = Ok (s', o') ->
  s' = s /\ same_report e0 e = true /\ ops s !! rp_OperationID p = Some o'.
Proof.
  intros Hs. unfold record_tx, GetNodeOperationByID.
  destruct (ops s !! rp_OperationID p) as [o|] eqn:Ho; [|done].
  destruct (_ =? _)%string; [|done]. rewrite Hs. destruct (same_report e0 e) eqn:E; [|done].
  by intros [= <- <-].
Qed.

Lemma event_status_valid gnow p e :
  report_event gnow p = Ok e -> e_status e = running \/ e_status e = succeeded \/
    e_status e = failed \/ e_status e = cancelled.
Proof.
  unfold report_event. destruct (_ || _); [done|].
  destruct (event_status (rp_Status p)) as [st|] eqn:Es; [|done].
  intros Hr. break_all Hr. simpl.
  unfold event_status in Es. break_all Es; auto.
Qed.
Lemma report_event_fields gnow p e :
  report_event gnow p = Ok e ->
  event_status (rp_Status p) = Some (e_status e) /\ e_phase e = rp_Phase p /\
  e_message e = TrimSpace (rp_Message p) /\ e_error e = TrimSpace (rp_Error p) /\
  validOperationPhase (rp_Phase p) = true.
Proof.
  unfold report_event. destruct (_ || _); [done|]. destruct (event_status _); [|done].
  destruct (validOperationPhase _); [|done].
  destruct (negb _); [|done]. destruct (negb _); [|done].
  destruct (normalizeJSONObject (rp_Details p)); [|done].
  destruct (normalizeJSONObject (rp_Result p)); [|done]. destruct (_ || _); [|done].
  intros Hok. injection Hok as <-. done.
Qed.
Lemma report_event_positive gnow p e :
  report_event gnow p = Ok e -> 0 < rp_Attempt p /\ 0 < rp_Sequence p /\ rp_LeaseToken p <> ""%string.
Proof. unfold report_event. destruct (_ || _) eqn:E; [done|]. intros _. by breflect. Qed.

Lemma good_event s gnow snow node p e s' o' :
  op_inv s -> report_event gnow p = Ok e -> record_tx s gnow snow node p e = Ok (s', o') -> good s s'.
Proof.
  intros Hinv Hrep Hrec. pose proof (event_status_valid _ _ _ Hrep) as Hst.
  pose proof (report_event_positive _ _ _ Hrep) as (Hpa & Hps & _).
  destruct (GetNodeOperationEvent s (rp_OperationID p) (rp_Attempt p) (rp_Sequence p)) as [e0|] eqn:Eev.
  { destruct (record_tx_replay _ _ _ _ _ _ _ _ _ Eev Hrec) as [-> _]. by split. }
  destruct (record_tx_new _ _ _ _ _ _ _ _ Eev Hrec)
    as (o & Ho & Hn & Hrun & Hat & Hh & Hgt & Hc & Hseq & Hsp & Hpr & Hops & Hevs).
  set (id := rp_OperationID p) in *. set (a := rp_Attempt p) in *. set (n := rp_Sequence p) in *.
  assert (Hact : is_active (prog o) = true) by (unfold is_active; by rewrite Hrun).
  pose proof (oi_progress _ Hinv _ _ Ho) as [Ha0 Ha1 Hl0].
  assert (Hev : evolves o o').
  { split; [done|right]. rewrite Hpr. split_and!; [done| |simpl; lia].
    split; simpl; [done|auto|]. by case_bool_decide. }
  destruct (Last_spec s id a) as (Hmax & Hlast & Hl1).
  set (l := LastNodeOperationEventSequence s id a) in *.
  assert (Hnofinal : forall a' n' e', events s !! (id, a', n') = Some e' -> e_status e' = running).
  { intros a' n' e' He'. destruct (decide (e_status e' = running)) as [|Hne]; [done|].
    destruct (oi_final _ Hinv _ _ _ _ _ He' Hne Ho) as (_ & Ht & _). unfold terminal in Ht.
    by rewrite Hact in Ht. }
  split.
  - pose proof Hinv as [Hid Hac Hkey Hprog Hevents Hfin]. split.
    + intros id' x Hx. rewrite Hops in Hx. apply lookup_insert_Some in Hx as [[<- <-]|[_ Hx]]; [|eauto].
      rewrite Hsp. eauto.
    + intros id1 id2 o1 o2 H1 H2. rewrite Hops in H1, H2.
      apply lookup_insert_Some in H1 as [[<- <-]|[Hne1 H1]]; apply lookup_insert_Some in H2 as [[<- <-]|[Hne2 H2]];
        eauto; rewrite Hsp; intros; eauto.
    + intros id1 id2 o1 o2 H1 H2. rewrite Hops in H1, H2.
      apply lookup_insert_Some in H1 as [[<- <-]|[Hne1 H1]]; apply lookup_insert_Some in H2 as [[<- <-]|[Hne2 H2]];
        eauto; rewrite Hsp; intros; eauto.
    + intros id' x Hx. rewrite Hops in Hx. apply lookup_insert_Some in Hx as [[<- <-]|[_ Hx]]; [|eauto].
      by destruct Hev as [_ [->|(_ & ? & _)]]; [eauto|].
    + intros id' a' n' e' He'. rewrite Hevs in He'. rewrite Hops, Hevs.
      apply lookup_insert_Some in He' as [[Hk <-]|[Hk He']].
      * assert (id' = id /\ a' = a /\ n' = n) as (-> & -> & ->) by (injection Hk; auto). exists o'. rewrite lookup_insert_eq. split_and!; [done|lia| |lia|].
        { rewrite Hpr. simpl. lia. }
        intros Hgt1. rewrite lookup_insert_ne by (intros [=]; lia).
        destruct Hlast as [Hl|Hl]; [lia|]. by replace (n - 1) with l by lia.
      * destruct (Hevents _ _ _ _ He') as (x & Hx & Hrange & Hpos & Hprev).
        destruct (decide (id' = id)) as [->|Hne].
        -- exists o'. rewrite lookup_insert_eq. rewrite Ho in Hx. injection Hx as <-.
           split_and!; [done|lia| |done|].
           { pose proof (evolves_attempt _ _ Hev). lia. }
           intros Hgt1. apply lookup_insert_is_Some. destruct (decide ((id, a, n) = (id, a', n' - 1))); auto.
        -- exists x. rewrite lookup_insert_ne by congruence. split_and!; try done; try lia.
           intros Hgt1. rewrite lookup_insert_ne by congruence. auto.
    + intros id' a' n' e' x He' Hne Hx. rewrite Hevs in *. rewrite Hops in Hx.
      apply lookup_insert_Some in He' as [[Hk <-]|[Hk He']].
      * assert (id' = id /\ a' = a /\ n' = n) as (-> & -> & ->) by (injection Hk; auto). rewrite lookup_insert_eq in Hx. injection Hx as <-.
        rewrite Hpr. simpl. split_and!; [done| |done|].
        { unfold terminal, is_active. simpl. destruct Hst as [?|[Hx|[Hx|Hx]]]; by rewrite ?Hx. }
        rewrite lookup_insert_ne by (intros [=]; lia).
        destruct (events s !! (id, a, n + 1)) eqn:E; [|done].
        assert (Hle : n + 1 <= l) by (apply Hmax; rewrite E; eauto). lia.
      * destruct (decide (id' = id)) as [->|Hidne].
        { by rewrite (Hnofinal _ _ _ He') in Hne. }
        rewrite lookup_insert_ne in Hx by congruence.
        rewrite lookup_insert_ne by congruence. eauto.
  - split.
    + intros id' x Hx. rewrite Hops. destruct (decide (id = id')) as [<-|Hne].
      * rewrite lookup_insert_eq. rewrite Ho in Hx. injection Hx as <-. eauto.
      * rewrite lookup_insert_ne by done. eauto using evolves_refl.
    + rewrite Hevs. by apply insert_subseteq.
Qed.
End statements.

(** ** Histories *)
Section histories.
Context `{OperationEnv}.
Implicit Types (s : tables) (o : operation).

(** One committed statement or transaction, at SQLite time [snow].  Requests
    interleave at this grain. *)
Inductive op_step (snow : Time) : tables -> tables -> Prop :=
| step_create s sp retryOf s' o b :
    create_tx s snow sp retryOf = Ok (s', o, b) -> op_step snow s s'
| step_expire s node : op_step snow s (ExpireQueuedNodeOperations s snow node)
| step_claim s hash lease id node s' o :
    q_ClaimNodeOperation s snow hash lease id node = Some (s', o) -> op_step snow s s'
| step_resume s lease id node hash s' o :
    q_ResumeNodeOperationLease s snow lease id node hash = Some (s', o) -> op_step snow s s'
| step_renew s lease id node hash attempt s' b :
    q_RenewNodeOperationLease s snow lease id node hash attempt = Some (s', b) -> op_step snow s s'
| step_cancel s id s' o :
    q_RequestNodeOperationCancel s snow id = Some (s', o) -> op_step snow s s'
| step_cancel_unclaimed s id : op_step snow s (q_CancelUnclaimedNodeOperation s snow id)
| step_event s gnow node p e s' o :
    report_event gnow p = Ok e -> record_tx s gnow snow node p e = Ok (s', o) -> op_step snow s s'.

Definition any_step s s' : Prop := exists snow, op_step snow s s'.

Lemma good_step s s' : op_inv s -> any_step s s' -> good s s'.
Proof.
  intros Hinv [snow Hs]. destruct Hs;
    eauto using good_create, good_expire, good_claim, good_resume, good_renew, good_cancel,
      good_cancel_unclaimed, good_event.
Qed.

Lemma inv_no_tables : op_inv no_tables.
Proof. split; by intros. Qed.

Lemma good_steps s s' : op_inv s -> rtc any_step s s' -> good s s'.
Proof.
  intros Hinv Hr. induction Hr as [s|s s1 s2 Hs Hr IH]; [split; [done|reflexivity]|].
  destruct (good_step _ _ Hinv Hs) as [H1 H2]. destruct (IH H1) as [H3 H4].
  split; [done|]. by etrans.
Qed.
Lemma inv_reachable s : rtc any_step no_tables s -> op_inv s.
Proof. intros Hr. by apply (good_steps _ _ inv_no_tables). Qed.

(** Methods are sequences of steps. *)
Lemma step_any snow s s' : op_step snow s s' -> rtc any_step s s'.
Proof. intros Hs. apply rtc_once. by exists snow. Qed.

Lemma create_steps s snow node newid p s' r :
  CreateNodeOperation s snow node newid p = (s', r) -> rtc any_step s s'.
Proof.
  unfold CreateNodeOperation. destruct (request_spec _ _ _ _) as [sp|]; [|by intros [= <- _]].
  destruct (create_tx s snow sp _) as [[[s1 o] b]|] eqn:E.
  - intros [= <- _]. eapply step_any, step_create, E.
  - destruct (GetNodeOperationByIdempotencyKey _ _ _); [|by intros [= <- _]].
    destruct (nodeOperationRequestMatches _ _ _); by intros [= <- _].
Qed.
Lemma claim_steps s gnow snow node caps cur tok secret s' r :
  ClaimNodeOperation s gnow snow node caps cur tok secret = (s', r) -> rtc any_step s s'.
Proof.
  unfold ClaimNodeOperation. intros Hc.
  apply (rtc_l _ _ (ExpireQueuedNodeOperations s snow node)); [exists snow; apply step_expire|].
  revert Hc. cbv zeta. generalize (ExpireQueuedNodeOperations s snow node). intros s1.
  destruct (GetActiveNodeOperation s1 node) as [o|]; [|by intros [= <- _]].
  destruct (negb (hasCapabilities _ _)); [by intros [= <- _]|].
  destruct (if (_ =? _)%string && _ then _ else _) as [[s2 o2]|] eqn:Er.
  - intros [= <- _]. destruct ((_ =? _)%string && _); [|done]. eapply step_any, step_resume, Er.
  - destruct (q_ClaimNodeOperation _ _ _ _ _ _) as [[s2 o2]|] eqn:Eq; intros [= <- _]; [|done].
    eapply step_any, step_claim, Eq.
Qed.
Lemma record_steps s gnow snow node p s' r :
  RecordNodeOperationEvent s gnow snow node p = (s', r) -> rtc any_step s s'.
Proof.
  unfold RecordNodeOperationEvent. destruct (report_event gnow p) as [e|] eqn:Er; [|by intros [= <- _]].
  destruct (record_tx s gnow snow node p e) as [[s1 o]|] eqn:E; intros [= <- _]; [|done].
  eapply step_any, step_event; eauto.
Qed.
Lemma cancel_steps s snow id s' r :
  RequestNodeOperationCancel s snow id = (s', r) -> rtc any_step s s'.
Proof.
  unfold RequestNodeOperationCancel.
  destruct (q_RequestNodeOperationCancel s snow _) as [[s1 o]|] eqn:E; intros [= <- _]; [|done].
  eapply step_any, step_cancel, E.
Qed.
Lemma renew_steps s gnow snow node id token attempt s' r :
  RenewNodeOperationLease s gnow snow node id token attempt = (s', r) -> rtc any_step s s'.
Proof.
  unfold RenewNodeOperationLease. destruct (_ || _); [by intros [= <- _]|].
  destruct (q_RenewNodeOperationLease _ _ _ _ _ _ _) as [[s1 b]|] eqn:E; intros [= <- _]; [|done].
  eapply step_any, step_renew, E.
Qed.
End histories.

(** ** Properties *)

(** C1: whatever requests interleave, a node never has two queued or running
    operations, and an idempotency key never names two operations of a node. *)
Theorem one_active_operation_per_node `{OperationEnv} s id1 id2 o1 o2 :
  rtc any_step no_tables s ->
  ops s !! id1 = Some o1 -> ops s !! id2 = Some o2 ->
  op_node_id (spec o1) = op_node_id (spec o2) ->
  (is_active (prog o1) = true /\ is_active (prog o2) = true) \/
  op_idempotency_key (spec o1) = op_idempotency_key (spec o2) ->
  id1 = id2.
Proof.
  intros Hr%inv_reachable H1 H2 Hn [[Ha1 Ha2]|Hk].
  - by eapply oi_active.
  - by eapply oi_key.
Qed.

(** a terminal operation is final: no later request of any kind changes
    its status, result, error, lease or any other column. *)
Theorem terminal_operation_is_final `{OperationEnv} s s' id o :
  rtc any_step no_tables s -> ops s !! id = Some o -> terminal (prog o) = true ->
  rtc any_step s s' -> ops s' !! id = Some o.
Proof.
  intros Hr Ho Ht Hs. destruct (good_steps _ _ (inv_reachable _ Hr) Hs) as [_ [Hrows _]].
  destruct (Hrows _ _ Ho) as (o' & Ho' & Hev). by rewrite (evolves_terminal _ _ Hev Ht) in Ho'.
Qed.

(** the event log of an attempt has no gaps, belongs to an existing
    attempt, and nothing follows a terminal event, which is the status the
    operation ends with. *)
Theorem event_log_gapless `{OperationEnv} s id a n e :
  rtc any_step no_tables s -> events s !! (id, a, n) = Some e ->
  (exists o, ops s !! id = Some o /\ 1 <= a <= op_attempt (prog o) /\
     (e_status e <> running -> op_status (prog o) = e_status e /\ op_attempt (prog o) = a)) /\
  (forall k, 1 <= k <= n -> is_Some (events s !! (id, a, k))) /\
  (e_status e <> running -> forall k, n < k -> events s !! (id, a, k) = None).
Proof.
  intros Hr%inv_reachable He.
  destruct (oi_events _ Hr _ _ _ _ He) as (o & Ho & Ha & Hn & _).
  assert (Hdown : forall d m, 0 <= d -> is_Some (events s !! (id, a, m)) -> 1 <= m - d ->
                  is_Some (events s !! (id, a, m - d))).
  { intros d m Hd. revert m. pattern d. apply natlike_ind; [by intros m; rewrite Z.sub_0_r| |done].
    intros d' Hd' IH m [e' Hm] Hge.
    destruct (oi_events _ Hr _ _ _ _ Hm) as (_ & _ & _ & _ & Hp).
    replace (m - Z.succ d') with ((m - 1) - d') by lia. apply IH; [apply Hp; lia|lia]. }
  split_and!.
  - exists o. split; [done|]. split; [lia|]. intros Hne.
    by destruct (oi_final _ Hr _ _ _ _ _ He Hne Ho) as (? & _ & ? & _).
  - intros k Hk. replace k with (n - (n - k)) by lia. apply Hdown; [lia|eauto|lia].
  - intros Hne k Hk. destruct (events s !! (id, a, k)) as [e'|] eqn:Ek; [|done].
    assert (Hnext : is_Some (events s !! (id, a, k - (k - (n + 1))))) by (apply Hdown; [lia|eauto|lia]).
    replace (k - (k - (n + 1))) with (n + 1) in Hnext by lia.
    destruct (oi_final _ Hr _ _ _ _ _ He Hne Ho) as (_ & _ & _ & Hnone).
    rewrite Hnone in Hnext. by destruct Hnext.
Qed.

(** An accepted report is in the log, with its own content. *)
Lemma record_ok_event `{OperationEnv} s0 gnow snow node p s1 o :
  RecordNodeOperationEvent s0 gnow snow node p = (s1, Ok o) ->
  exists e e0, report_event gnow p = Ok e /\
    events s1 !! (rp_OperationID p, rp_Attempt p, rp_Sequence p) = Some e0 /\
    same_report e0 e = true /\ ops s1 !! rp_OperationID p = Some o /\ op_node_id (spec o) = node.
Proof.
  unfold RecordNodeOperationEvent. destruct (report_event gnow p) as [e|] eqn:Erep; [|done].
  destruct (record_tx s0 gnow snow node p e) as [[s1' o1]|] eqn:Etx; [|done].
  intros Hrec. injection Hrec as -> ->. exists e.
  destruct (GetNodeOperationEvent s0 (rp_OperationID p) (rp_Attempt p) (rp_Sequence p)) as [e0|] eqn:Eev.
  - destruct (record_tx_replay _ _ _ _ _ _ _ _ _ Eev Etx) as (-> & Hsame & Ho). exists e0.
    split_and!; try done. unfold record_tx, GetNodeOperationByID in Etx. rewrite Ho in Etx.
    destruct (op_node_id (spec o) =? node)%string eqn:En; [|done]. by breflect.
  - destruct (record_tx_new _ _ _ _ _ _ _ _ Eev Etx)
      as (o0 & Ho0 & Hn & _ & _ & _ & _ & _ & _ & Hsp & _ & Hops & Hev).
    exists e. rewrite Hev, Hops, !lookup_insert_eq. split_and!; try done; [|congruence].
    unfold same_report. rewrite bool_decide_true, !String.eqb_refl; done.
Qed.

(** an accepted event report can be repeated at any later time, whatever
    happened in between (a new attempt, a terminal state, a cleared lease): the
    repetition is accepted and changes nothing, so the agent's outbox
    converges after a lost response. *)
Theorem event_report_idempotent `{OperationEnv} s0 s1 s2 gnow snow gnow' snow' node p o :
  rtc any_step no_tables s0 ->
  RecordNodeOperationEvent s0 gnow snow node p = (s1, Ok o) ->
  rtc any_step s1 s2 ->
  exists o2, RecordNodeOperationEvent s2 gnow' snow' node p = (s2, Ok o2) /\
             ops s2 !! rp_OperationID p = Some o2.
Proof.
  intros Hr Hrec Hs. pose proof (inv_reachable _ Hr) as Hinv0.
  destruct (good_steps _ _ Hinv0 (record_steps _ _ _ _ _ _ _ Hrec)) as [Hinv1 _].
  destruct (good_steps _ _ Hinv1 Hs) as [_ [Hrows Hevs]].
  destruct (record_ok_event _ _ _ _ _ _ _ Hrec) as (e & e0 & Erep & He0 & Hsame & Ho1 & Hn).
  destruct (Hrows _ _ Ho1) as (o2 & Ho2 & [Hsp2 _]). exists o2. split; [|done].
  assert (He2 : events s2 !! (rp_OperationID p, rp_Attempt p, rp_Sequence p) = Some e0)
    by (by eapply lookup_weaken).
  unfold RecordNodeOperationEvent.
  assert (Hrep2 : exists e', report_event gnow' p = Ok e' /\ same_report e0 e' = true).
  { revert Erep. unfold report_event. destruct (_ || _); [done|].
    destruct (event_status _); [|done]. destruct (validOperationPhase _); [|done].
    destruct (negb _); [|done]. destruct (negb _); [|done].
    destruct (normalizeJSONObject (rp_Details p)); [|done].
    destruct (normalizeJSONObject (rp_Result p)); [|done]. destruct (_ || _); [|done].
    intros Hok. injection Hok as <-. eexists. split; [done|exact Hsame]. }
  destruct Hrep2 as (e' & -> & Hsame').
  unfold record_tx, GetNodeOperationByID, GetNodeOperationEvent. rewrite Ho2, He2, Hsame'.
  rewrite Hsp2, (proj2 (String.eqb_eq _ _) Hn). done.
Qed.

(** lease fencing: once an operation has been claimed again, the holder
    of an earlier attempt can neither renew nor report anything new, at any
    later time; it can only repeat reports that were already recorded, which
    change nothing. *)
Theorem stale_attempt_is_fenced `{OperationEnv} s snow hash lease id node s1 o o1 s2 a :
  rtc any_step no_tables s ->
  ops s !! id = Some o -> a <= op_attempt (prog o) ->
  q_ClaimNodeOperation s snow hash lease id node = Some (s1, o1) ->
  rtc any_step s1 s2 ->
  (forall gnow snow' token, RenewNodeOperationLease s2 gnow snow' node id token a
     = (s2, Err ErrInvalidOperationLease)) /\
  (forall gnow snow' p, rp_OperationID p = id -> rp_Attempt p = a ->
     GetNodeOperationEvent s2 id a (rp_Sequence p) = None ->
     exists e, RecordNodeOperationEvent s2 gnow snow' node p = (s2, Err e)).
Proof.
  intros Hr Ho Ha Hcl Hs. pose proof (inv_reachable _ Hr) as Hinv.
  destruct (good_claim _ _ _ _ _ _ _ _ Hinv Hcl) as [Hinv1 _].
  destruct (good_steps _ _ Hinv1 Hs) as [_ [Hrows _]].
  assert (Ho1 : ops s1 !! id = Some o1 /\ op_attempt (prog o1) = op_attempt (prog o) + 1).
  { unfold q_ClaimNodeOperation in Hcl. rewrite Ho in Hcl. destruct (_ && _); [|done].
    injection Hcl as <- <-. simpl. by rewrite lookup_insert_eq. }
  destruct Ho1 as [Ho1 Hat]. destruct (Hrows _ _ Ho1) as (o2 & Ho2 & Hev).
  apply evolves_attempt in Hev. assert (Hlt : a < op_attempt (prog o2)) by lia. split.
  - intros gnow snow' token. unfold RenewNodeOperationLease. destruct (_ || _); [done|].
    unfold q_RenewNodeOperationLease. rewrite Ho2, (proj2 (Z.eqb_neq _ _)) by lia.
    by rewrite andb_false_r.
  - intros gnow snow' p Hid Hap Hnone. unfold RecordNodeOperationEvent.
    destruct (report_event gnow p) as [e|e]; [|eauto]. unfold record_tx, GetNodeOperationByID.
    rewrite Hid, Ho2. destruct (_ =? node)%string; [|eauto]. rewrite Hap, Hnone.
    rewrite (proj2 (Z.eqb_neq (op_attempt _) a)) by lia. rewrite andb_false_r. simpl. eauto.
Qed.

(** mutual exclusion: while the lease of a running operation has not
    passed on the database's clock, a claim that does not present the lease's
    own token is refused and leaves every operation as it was. *)
Theorem claim_excludes_second_executor `{OperationEnv} s gnow snow node caps cur token secret id o h :
  rtc any_step no_tables s ->
  ops s !! id = Some o -> op_node_id (spec o) = node -> op_status (prog o) = running ->
  text_le (op_lease_expires_at (prog o)) (strftime snow) = false ->
  op_lease_hash (prog o) = Some h ->
  nullableString (SHA256Hex token) <> Some h ->
  exists s', ClaimNodeOperation s gnow snow node caps cur token secret = (s', None) /\
             ops s' !! id = Some o /\ events s' = events s.
Proof.
  intros Hr Ho Hn Hrun Hlease Hh Htok. pose proof (inv_reachable _ Hr) as Hinv.
  set (s1 := ExpireQueuedNodeOperations s snow node).
  destruct (good_expire s snow node Hinv) as [Hinv1 _]. fold s1 in Hinv1.
  assert (Ho1 : ops s1 !! id = Some o).
  { subst s1. simpl. rewrite lookup_fmap, Ho. simpl. unfold expire_one. rewrite Hrun.
    by rewrite (bool_decide_false (running = queued)), andb_false_r. }
  exists s1. unfold ClaimNodeOperation. fold s1. split; [|done].
  destruct (GetActiveNodeOperation s1 node) as [o'|] eqn:Eg; [|done].
  assert (Hact : is_active (prog o) = true) by (unfold is_active; by rewrite Hrun).
  destruct (GetActive_some _ _ _ Eg) as (Hn' & Ha' & id' & Hid').
  assert (id' = id) as -> by (eapply oi_active; eauto; congruence).
  rewrite Ho1 in Hid'. injection Hid' as <-.
  destruct (negb (hasCapabilities _ _)); [done|]. cbv zeta.
  rewrite (oi_id _ Hinv1 _ _ Ho1).
  assert (Hres : q_ResumeNodeOperationLease s1 snow (Format_RFC3339Nano (gnow + NodeOperationLeaseDuration))
                   id node (nullableString (SHA256Hex token)) = None).
  { unfold q_ResumeNodeOperationLease, holds_lease. rewrite Ho1, Hh.
    assert (Ht : text_eq (Some h) (nullableString (SHA256Hex token)) = false).
    { unfold text_eq. destruct (nullableString _) as [h'|]; [|done].
      apply String.eqb_neq. congruence. }
    by rewrite Ht, andb_false_r. }
  rewrite Hres. unfold q_ClaimNodeOperation, claimable. rewrite Ho1, Hrun, Hlease.
  rewrite (bool_decide_false (running = queued)) by done.
  rewrite !andb_false_r. by match goal with |- context [if ?b then None else None] => destruct b end.
Qed.

(** The order of lease text and clock text. *)
Lemma lease_text_second lease snow :
  year_ok lease -> year_ok snow ->
  (unix_seconds snow < unix_seconds lease ->
     text_gt (nullableString (Format_RFC3339Nano lease)) (strftime snow) = true) /\
  (unix_seconds lease < unix_seconds snow ->
     text_gt (nullableString (Format_RFC3339Nano lease)) (strftime snow) = false).
Proof.
  intros Hl Hs. unfold nullableString. rewrite TrimSpace_id by (by apply Format_RFC3339Nano_trimmed).
  rewrite (proj2 (String.eqb_neq _ _)) by (by apply Format_RFC3339Nano_ne).
  unfold text_gt, strftime, String.ltb. split; intros Hlt;
    rewrite compare_instant_nano by (done || lia).
  - by rewrite (proj2 (Z.compare_lt_iff _ _)).
  - by rewrite (proj2 (Z.compare_gt_iff _ _)).
Qed.

(** Leases are compared as text of two layouts (trimmed nanoseconds
    against fixed milliseconds); the comparison is exact to the second: a lease
    is honoured in every earlier second of the database clock and refused in
    every later one, so it can be off by less than one second. *)
Theorem lease_text_exact_to_the_second s newhash newlease snow lease o :
  year_ok lease -> year_ok snow ->
  op_lease_expires_at (prog o) = nullableString (Format_RFC3339Nano lease) ->
  op_status (prog o) = running -> op_cancel_requested (prog o) = false ->
  op_not_before (spec o) = None ->
  ops s !! op_id (spec o) = Some o ->
  (unix_seconds snow < unix_seconds lease ->
     q_ClaimNodeOperation s snow newhash newlease (op_id (spec o)) (op_node_id (spec o)) = None) /\
  (unix_seconds lease < unix_seconds snow ->
     is_Some (q_ClaimNodeOperation s snow newhash newlease (op_id (spec o)) (op_node_id (spec o))) /\
     forall hash, q_RenewNodeOperationLease s snow newlease (op_id (spec o)) (op_node_id (spec o)) hash
       (op_attempt (prog o)) = None).
Proof.
  intros Hl Hs Hle Hrun Hc Hnb Ho. destruct (lease_text_second _ _ Hl Hs) as [H1 H2].
  assert (Hflip : text_le (op_lease_expires_at (prog o)) (strftime snow) =
                  negb (text_gt (op_lease_expires_at (prog o)) (strftime snow))).
  { rewrite Hle. unfold nullableString.
    rewrite TrimSpace_id by (by apply Format_RFC3339Nano_trimmed).
    rewrite (proj2 (String.eqb_neq _ _)) by (by apply Format_RFC3339Nano_ne).
    unfold text_le, text_gt, String.leb, String.ltb. rewrite (String.compare_antisym _ (strftime snow)).
    by destruct (String.compare _ _). }
  unfold q_ClaimNodeOperation, claimable. rewrite Ho, Hc, Hnb, Hrun, Hflip, Hle.
  rewrite bool_decide_true, (bool_decide_false (running = queued)), (bool_decide_true (running = running)) by done.
  cbn [negb andb orb]. split; intros Hlt.
  - by rewrite (H1 Hlt).
  - rewrite (H2 Hlt). cbn [negb andb]. split; [eauto|]. intros hash.
    unfold q_RenewNodeOperationLease, holds_lease. rewrite Ho, Hle, (H2 Hlt).
    by rewrite andb_false_r.
Qed.

(** *** A cancelled operation whose executor is gone *)
Section stuck.
Context `{OperationEnv}.

(** Statements from a given reading of the database clock on. *)
Definition step_from (t : Time) (s s' : tables) : Prop :=
  exists snow, ~ str_lt (strftime snow) (strftime t) /\ op_step snow s s'.

(** Running, asked to cancel, with a lease that has passed. *)
Definition abandoned (t : Time) (o : operation) : Prop :=
  op_status (prog o) = running /\ op_cancel_requested (prog o) = true /\
  text_gt (op_lease_expires_at (prog o)) (strftime t) = false.

Lemma text_gt_mono a t snow :
  ~ str_lt (strftime snow) (strftime t) -> text_gt a (strftime t) = false ->
  text_gt a (strftime snow) = false.
Proof.
  intros Hle. destruct a as [a|]; [|done]. simpl. rewrite !str_ltb_ge. intros H1 H2. apply H1.
  apply str_not_lt in Hle as [<-|Hlt]; [done|]. by eapply str_lt_trans.
Qed.

Lemma abandoned_no_lease t snow hash node o :
  abandoned t o -> ~ str_lt (strftime snow) (strftime t) -> holds_lease snow hash node o = false.
Proof.
  intros (_ & _ & Hl) Hle. unfold holds_lease. rewrite (text_gt_mono _ _ _ Hle Hl). apply andb_false_r.
Qed.

Lemma abandoned_step t s s' id o :
  op_inv s -> ops s !! id = Some o -> abandoned t o -> step_from t s s' ->
  exists o', ops s' !! id = Some o' /\ spec o' = spec o /\ abandoned t o'.
Proof.
  intros Hinv Ho Hab (snow & Hle & Hs).
  assert (Hsame : ops s !! id = Some o -> exists o', ops s !! id = Some o' /\ spec o' = spec o /\ abandoned t o')
    by eauto.
  assert (Hset : forall id' x, id' <> id -> ops s' = <[id' := x]> (ops s) ->
            exists o', ops s' !! id = Some o' /\ spec o' = spec o /\ abandoned t o').
  { intros id' x Hne ->. rewrite lookup_insert_ne by done. eauto. }
  pose proof Hab as (Hrun & Hcan & Hl).
  destruct Hs as [s sp retryOf s' o1 b E|s node|s hash lease id' node s' o1 E|s lease id' node hash s' o1 E
                 |s lease id' node hash attempt s' b E|s id' s' o1 E|s id'|s gnow node p e s' o1 Erep E].
  - destruct (good_create _ _ _ _ _ _ _ Hinv E) as [_ [Hrows _]].
    unfold create_tx in E. destruct (GetNodeOperationByIdempotencyKey s _ _).
    { destruct (nodeOperationRequestMatches _ _ _); [|done]. injection E as <- _ _. auto. }
    destruct (negb _); [|done]. destruct (if (retryOf =? "")%string then _ else _); [|done].
    unfold q_CreateNodeOperation in E. destruct (insert_conflicts s sp) eqn:Ec; [done|].
    destruct (GetNodeOperationByID _ _); [|done]. injection E as <- _ _.
    apply (Hset (op_id sp) {| spec := sp; prog := new_progress snow |}); [|done].
    intros Heq. unfold insert_conflicts in Ec. rewrite Heq, Ho in Ec.
    by rewrite bool_decide_true in Ec by eauto.
  - exists o. split; [|done]. simpl. rewrite lookup_fmap, Ho. simpl. f_equal. unfold expire_one.
    by rewrite Hrun, (bool_decide_false (running = queued)), andb_false_r by done.
  - unfold q_ClaimNodeOperation in E. destruct (ops s !! id') as [o2|] eqn:Ho2; [|done].
    destruct (_ && _) eqn:Eg; [|done]. injection E as <- _.
    destruct (decide (id' = id)) as [->|Hne]; [|by eapply Hset].
    rewrite Ho in Ho2. injection Ho2 as <-. unfold claimable in Eg. rewrite Hcan in Eg.
    by rewrite !andb_false_r in Eg.
  - unfold q_ResumeNodeOperationLease in E. destruct (ops s !! id') as [o2|] eqn:Ho2; [|done].
    destruct (holds_lease _ _ _ _) eqn:Eg; [|done]. injection E as <- _.
    destruct (decide (id' = id)) as [->|Hne]; [|by eapply Hset].
    rewrite Ho in Ho2. injection Ho2 as <-. by rewrite (abandoned_no_lease _ _ _ _ _ Hab Hle) in Eg.
  - unfold q_RenewNodeOperationLease in E. destruct (ops s !! id') as [o2|] eqn:Ho2; [|done].
    destruct (_ && _) eqn:Eg; [|done]. injection E as <- _.
    destruct (decide (id' = id)) as [->|Hne]; [|by eapply Hset].
    rewrite Ho in Ho2. injection Ho2 as <-. by rewrite (abandoned_no_lease _ _ _ _ _ Hab Hle) in Eg.
  - unfold q_RequestNodeOperationCancel in E. destruct (ops s !! id') as [o2|] eqn:Ho2; [|done].
    destruct (is_active _); [|done]. injection E as <- _.
    destruct (decide (id' = id)) as [->|Hne]; [|by eapply Hset].
    rewrite Ho in Ho2. injection Ho2 as <-. eexists. simpl. rewrite lookup_insert_eq. split_and!; [done..|].
    unfold abandoned. simpl. by rewrite Hrun, bool_decide_false.
  - unfold q_CancelUnclaimedNodeOperation in *. destruct (ops s !! id') as [o2|] eqn:Ho2; [|auto].
    case_bool_decide as Hq; [|auto]. destruct (decide (id' = id)) as [->|Hne]; [|by eapply Hset].
    rewrite Ho in Ho2. injection Ho2 as <-. congruence.
  - destruct (GetNodeOperationEvent s (rp_OperationID p) (rp_Attempt p) (rp_Sequence p)) as [e0|] eqn:Eev.
    { destruct (record_tx_replay _ _ _ _ _ _ _ _ _ Eev E) as [-> _]. auto. }
    destruct (record_tx_new _ _ _ _ _ _ _ _ Eev E)
      as (o2 & Ho2 & _ & _ & _ & _ & Hgt & _ & _ & _ & _ & Hops & _).
    destruct (decide (rp_OperationID p = id)) as [Heq|Hne]; [|by eapply Hset].
    rewrite Heq, Ho in Ho2. injection Ho2 as <-.
    by rewrite (text_gt_mono _ _ _ Hle Hl) in Hgt.
Qed.
End stuck.

(** an operation that is asked to cancel while running and whose lease
    then passes is never finished: no request that comes later ends it, no
    executor can claim it, and every other operation of the node is refused. *)
Theorem abandoned_cancelled_operation_blocks_node `{OperationEnv} t s s' id o :
  rtc any_step no_tables s ->
  ops s !! id = Some o -> abandoned t o -> rtc (step_from t) s s' ->
  (exists o', ops s' !! id = Some o' /\ op_status (prog o') = running) /\
  (forall gnow snow caps cur token secret, ~ str_lt (strftime snow) (strftime t) ->
     (ClaimNodeOperation s' gnow snow (op_node_id (spec o)) caps cur token secret).2 = None) /\
  (forall snow sp retryOf, op_node_id sp = op_node_id (spec o) ->
     GetNodeOperationByIdempotencyKey s' (op_node_id sp) (op_idempotency_key sp) = None ->
     create_tx s' snow sp retryOf = Err ErrActiveNodeOperation).
Proof.
  intros Hr%inv_reachable Ho Hab Hs.
  assert (Hend : op_inv s' /\ exists o', ops s' !! id = Some o' /\ spec o' = spec o /\ abandoned t o').
  { revert o Ho Hab Hr. induction Hs as [s|s s1 s2 H1 Hs IH]; intros o Ho Hab Hinv; [eauto|].
    destruct (abandoned_step _ _ _ _ _ Hinv Ho Hab H1) as (o1 & Ho1 & Hsp1 & Hab1).
    destruct H1 as (snow & _ & H1).
    destruct (good_step s s1 Hinv ltac:(by exists snow)) as [Hinv1 _].
    destruct (IH _ Ho1 Hab1 Hinv1) as (Hinv2 & o2 & Ho2 & Hsp2 & Hab2).
    split; [done|]. exists o2. split_and!; [done|congruence|done]. }
  destruct Hend as (Hinv & o' & Ho' & Hsp & Hab'). pose proof Hab' as (Hrun & Hcan & Hl).
  assert (Hact : is_active (prog o') = true) by (unfold is_active; by rewrite Hrun).
  rewrite <- Hsp. split; [eauto|]. split.
  - intros gnow snow caps cur token secret Hle. unfold ClaimNodeOperation.
    set (s1 := ExpireQueuedNodeOperations s' snow _).
    destruct (good_expire s' snow (op_node_id (spec o')) Hinv) as [Hinv1 _]. fold s1 in Hinv1.
    assert (Ho1 : ops s1 !! id = Some o').
    { subst s1. simpl. rewrite lookup_fmap, Ho'. simpl. unfold expire_one.
      by rewrite Hrun, (bool_decide_false (running = queued)), andb_false_r by done. }
    destruct (GetActiveNodeOperation s1 _) as [o2|] eqn:Eg; [|done].
    destruct (GetActive_some _ _ _ Eg) as (Hn2 & Ha2 & id2 & Hid2).
    assert (id2 = id) as -> by (eapply oi_active; eauto).
    rewrite Ho1 in Hid2. injection Hid2 as <-.
    destruct (negb (hasCapabilities _ _)); [done|]. cbv zeta. rewrite (oi_id _ Hinv1 _ _ Ho1).
    assert (Hres : forall lease hash, q_ResumeNodeOperationLease s1 snow lease id (op_node_id (spec o')) hash = None).
    { intros lease hash. unfold q_ResumeNodeOperationLease. rewrite Ho1.
      by rewrite (abandoned_no_lease _ _ _ _ _ Hab' Hle). }
    rewrite Hres. unfold q_ClaimNodeOperation, claimable. rewrite Ho1, Hcan. cbn [negb andb].
    rewrite andb_false_r. by match goal with |- context [if ?b then None else None] => destruct b end.
  - intros snow sp retryOf Hn Hk. unfold create_tx. rewrite Hk.
    destruct (GetActiveNodeOperation s' (op_node_id sp)) as [o2|] eqn:Eg.
    + by rewrite bool_decide_true by eauto.
    + rewrite GetActive_none in Eg. by rewrite (Eg id o' Ho' ltac:(congruence)) in Hact.
Qed.

(** *** Creating twice *)
Section create_again.
Context `{OperationEnv}.

Lemma request_spec_again node newid ra newid' ra' p sp :
  request_spec node newid ra p = Ok sp ->
  exists sp', request_spec node newid' ra' p = Ok sp' /\ op_node_id sp' = node /\
    op_node_id sp = node /\ op_idempotency_key sp' = op_idempotency_key sp /\
    (forall row retryOf, nodeOperationRequestMatches row sp' retryOf = nodeOperationRequestMatches row sp retryOf) /\
    (TrimSpace (cp_RetryOf p) = cp_RetryOf p -> nodeOperationRequestMatches sp sp (cp_RetryOf p) = true).
Proof.
  unfold request_spec. intros Hr. cbv zeta in *.
  destruct (bool_decide (TrimSpace (cp_Kind p) ∈ _)); [|done].
  destruct (normalizeJSONObject (cp_Payload p)) as [payload|]; [|done].
  destruct (negb (TrimSpace (cp_IdempotencyKey p) =? "")%string); [|done].
  destruct (negb (128 <? _)); [|done]. destruct (validateCapabilities _); [|done].
  destruct (normalizeOptionalTimestamp (cp_NotBefore p)) as [[nb nbt]|]; [|done].
  destruct (normalizeOptionalTimestamp (cp_ExpiresAt p)) as [[ea eat]|]; [|done].
  destruct (negb _); [|done]. injection Hr as <-.
  eexists. split; [done|]. split_and!; try done.
  intros Ht. unfold nodeOperationRequestMatches. simpl.
  rewrite !String.eqb_refl, !bool_decide_true by done. simpl.
  unfold nullableString. rewrite Ht. destruct (cp_RetryOf p =? "")%string eqn:E; simpl; [|apply String.eqb_refl].
  breflect. by rewrite E.
Qed.

Lemma created_matches s snow node newid p s1 o b :
  op_inv s -> TrimSpace (cp_RetryOf p) = cp_RetryOf p ->
  CreateNodeOperation s snow node newid p = (s1, Ok (o, b)) ->
  exists sp, request_spec node newid (strftime snow) p = Ok sp /\
    nodeOperationRequestMatches (spec o) sp (cp_RetryOf p) = true /\
    op_node_id (spec o) = node /\ op_idempotency_key (spec o) = op_idempotency_key sp /\
    exists id, ops s1 !! id = Some o.
Proof.
  intros Hinv Htrim. unfold CreateNodeOperation.
  destruct (request_spec node newid (strftime snow) p) as [sp|] eqn:Er; [|done].
  destruct (request_spec_again _ _ _ newid (strftime snow) _ _ Er) as (sp' & Er' & _ & Hn & _ & _ & Hself).
  intros Hc. exists sp. split; [done|].
  assert (Hex : forall ex, GetNodeOperationByIdempotencyKey s node (op_idempotency_key sp) = Some ex ->
    op_node_id (spec ex) = node /\ op_idempotency_key (spec ex) = op_idempotency_key sp /\
    exists id, ops s !! id = Some ex) by apply GetByKey_some.
  destruct (create_tx s snow sp (cp_RetryOf p)) as [[[s' o'] b']|e] eqn:Etx.
  - injection Hc as -> -> ->. unfold create_tx in Etx. rewrite Hn in Etx.
    destruct (GetNodeOperationByIdempotencyKey s node _) as [ex|] eqn:Ek.
    { destruct (nodeOperationRequestMatches (spec ex) sp _) eqn:Em; [|done]. injection Etx as <- <- <-.
      destruct (Hex ex eq_refl) as (? & ? & ?). done. }
    destruct (negb _); [|done]. destruct (if (cp_RetryOf p =? "")%string then _ else _); [|done].
    unfold q_CreateNodeOperation in Etx. destruct (insert_conflicts s sp); [done|].
    unfold GetNodeOperationByID in Etx. simpl in Etx. rewrite lookup_insert_eq in Etx.
    injection Etx as <- <- <-. simpl. split_and!; auto. exists (op_id sp). apply lookup_insert_eq.
  - destruct (GetNodeOperationByIdempotencyKey s node _) as [ex|] eqn:Ek; [|done].
    destruct (nodeOperationRequestMatches (spec ex) sp _) eqn:Em; [|done].
    injection Hc as <- <- <-. destruct (Hex ex eq_refl) as (? & ? & ?). done.
Qed.
End create_again.

(** creating is idempotent: repeating an accepted request at any later
    time, however far the operation has come, creates nothing and returns the
    operation the first request made. *)
Theorem CreateNodeOperation_idempotent `{OperationEnv} s0 s1 s2 snow snow' node newid newid' p o b :
  rtc any_step no_tables s0 -> TrimSpace (cp_RetryOf p) = cp_RetryOf p ->
  CreateNodeOperation s0 snow node newid p = (s1, Ok (o, b)) ->
  rtc any_step s1 s2 ->
  exists o2, CreateNodeOperation s2 snow' node newid' p = (s2, Ok (o2, false)) /\ spec o2 = spec o.
Proof.
  intros Hr%inv_reachable Htrim Hc Hs.
  destruct (created_matches _ _ _ _ _ _ _ _ Hr Htrim Hc) as (sp & Er & Hm & Hn & Hk & id & Ho).
  destruct (good_steps _ _ Hr (create_steps _ _ _ _ _ _ _ Hc)) as [Hinv1 _].
  destruct (good_steps _ _ Hinv1 Hs) as [Hinv2 [Hrows _]].
  destruct (Hrows _ _ Ho) as (o2 & Ho2 & [Hsp2 _]). exists o2. split; [|done].
  destruct (request_spec_again _ _ _ newid' (strftime snow') _ _ Er) as (sp' & Er' & Hn' & _ & Hk' & Hm' & _).
  unfold CreateNodeOperation, create_tx. rewrite Er', Hn', Hk'.
  destruct (GetNodeOperationByIdempotencyKey s2 node (op_idempotency_key sp)) as [ex|] eqn:Ek.
  - destruct (GetByKey_some _ _ _ _ Ek) as (Hne & Hke & id' & Hid').
    assert (id' = id) as -> by (eapply oi_key; eauto; congruence).
    rewrite Ho2 in Hid'. injection Hid' as <-. by rewrite Hm', Hsp2, Hm.
  - destruct (GetByKey_none _ _ _ Ek id o2 Ho2); congruence.
Qed.

(** *** A concrete history *)
Definition test_env : OperationEnv :=
  {| SHA256Hex s := ("h" ++ s)%string; json_object raw := Some raw |}.
Definition clock (n : Z) : Time := (1714564800 + n) * second.
Definition reconcile_params : CreateNodeOperationParams :=
  {| cp_Kind := "config.reconcile"; cp_Payload := ""; cp_IdempotencyKey := "k1";
     cp_RequiredCapabilities := []; cp_NotBefore := ""; cp_ExpiresAt := ""; cp_RequestedBy := "";
     cp_RetryOf := "" |}.
Definition report (attempt sequence : Z) (status phase : string) : RecordNodeOperationEventParams :=
  {| rp_OperationID := "op1"; rp_LeaseToken := "bfl_s1"; rp_Attempt := attempt; rp_Sequence := sequence;
     rp_Status := status; rp_Phase := phase; rp_Message := ""; rp_Details := ""; rp_Result := "";
     rp_Error := ""; rp_ReportedAt := "" |}.
Definition h_created : tables :=
  (@CreateNodeOperation test_env no_tables (clock 0) "n1" "op1" reconcile_params).1.
Definition h_claimed : tables :=
  (@ClaimNodeOperation test_env h_created (clock 1) (clock 1) "n1" ["operations.v1"%string] "" "" "s1").1.
Definition h_started : tables :=
  (@RecordNodeOperationEvent test_env h_claimed (clock 2) (clock 2) "n1" (report 1 1 "running" "starting")).1.
Definition h_done : tables :=
  (@RecordNodeOperationEvent test_env h_started (clock 3) (clock 3) "n1" (report 1 2 "succeeded" "completed")).1.
Definition h_cancelling : tables := (RequestNodeOperationCancel h_started (clock 3) "op1").1.
Definition row (s : tables) : operation :=
  default {| spec := {| op_id := ""; op_node_id := ""; op_kind := ""; op_payload := "";
      op_idempotency_key := ""; op_required_capabilities := []; op_not_before := None;
      op_expires_at := None; op_requested_by := ""; op_requested_at := ""; op_retry_of := None |};
    prog := new_progress 0 |} (ops s !! "op1"%string).

Section witnesses.
#[local] Existing Instance test_env.

Lemma h_created_reach : rtc any_step no_tables h_created.
Proof. eapply create_steps. unfold h_created. apply surjective_pairing. Defined.
Lemma h_claimed_reach : rtc any_step no_tables h_claimed.
Proof.
  etrans; [apply h_created_reach|]. eapply claim_steps. unfold h_claimed. apply surjective_pairing.
Defined.
Lemma h_started_step : rtc any_step h_claimed h_started.
Proof. eapply record_steps. unfold h_started. apply surjective_pairing. Defined.
Lemma h_started_reach : rtc any_step no_tables h_started.
Proof. etrans; [apply h_claimed_reach|apply h_started_step]. Defined.
Lemma h_done_step : rtc any_step h_started h_done.
Proof. eapply record_steps. unfold h_done. apply surjective_pairing. Defined.
Lemma h_done_reach : rtc any_step no_tables h_done.
Proof. etrans; [apply h_started_reach|apply h_done_step]. Defined.
Lemma h_cancelling_reach : rtc any_step no_tables h_cancelling.
Proof.
  etrans; [apply h_started_reach|]. eapply cancel_steps. unfold h_cancelling. apply surjective_pairing.
Defined.

Lemma one_active_operation_per_node_witness :
  is_active (prog (row h_started)) = true /\ "op1"%string = "op1"%string.
Proof.
  split; [vm_compute; reflexivity|].
  apply (one_active_operation_per_node h_started "op1" "op1" (row h_started) (row h_started));
    [apply h_started_reach|vm_compute; reflexivity..|]. left. vm_compute. auto.
Defined.

Lemma terminal_operation_is_final_witness :
  ops (ExpireQueuedNodeOperations h_done (clock 900) "n1") !! "op1"%string = Some (row h_done).
Proof.
  apply (terminal_operation_is_final h_done _ "op1" (row h_done));
    [apply h_done_reach|vm_compute; reflexivity..|]. eapply (step_any (clock 900)), step_expire.
Defined.

Lemma event_log_gapless_witness :
  exists e : event, e_status e = succeeded /\ is_Some (events h_done !! ("op1"%string, 1, 1)).
Proof.
  destruct (events h_done !! ("op1"%string, 1, 2)) as [e|] eqn:E; [|vm_compute in E; discriminate].
  exists e. split; [vm_compute in E; by injection E as <-|].
  apply (event_log_gapless h_done "op1" 1 2 e h_done_reach E). lia.
Defined.

Lemma event_report_idempotent_witness :
  exists o2, RecordNodeOperationEvent h_done (clock 500) (clock 500) "n1" (report 1 1 "running" "starting")
    = (h_done, Ok o2) /\ ops h_done !! "op1"%string = Some o2.
Proof.
  apply (event_report_idempotent h_claimed h_started h_done (clock 2) (clock 2) (clock 500) (clock 500)
    "n1" (report 1 1 "running" "starting") (row h_started));
    [apply h_claimed_reach|vm_compute; reflexivity|apply h_done_step].
Defined.

Definition h_reclaimed : tables :=
  (ClaimNodeOperation h_started (clock 200) (clock 200) "n1" ["operations.v1"%string] "" "" "s2").1.
Lemma stale_attempt_is_fenced_witness :
  RenewNodeOperationLease h_reclaimed (clock 201) (clock 201) "n1" "op1" "bfl_s1" 1
    = (h_reclaimed, Err ErrInvalidOperationLease).
Proof.
  destruct (q_ClaimNodeOperation (ExpireQueuedNodeOperations h_started (clock 200) "n1") (clock 200)
    (SHA256Hex "bfl_s2") (Format_RFC3339Nano (clock 290)) "op1" "n1") as [[s1 o1]|] eqn:E;
    [|vm_compute in E; discriminate].
  assert (Hs : s1 = h_reclaimed) by (vm_compute in E; injection E as <- _; vm_compute; reflexivity).
  rewrite <- Hs.
  refine (proj1 (stale_attempt_is_fenced _ (clock 200) _ _ "op1" "n1" s1 (row h_started) o1 s1 1
    _ _ _ E (rtc_refl _ _)) _ _ _).
  - etrans; [apply h_started_reach|]. eapply (step_any (clock 200)), step_expire.
  - vm_compute. reflexivity.
  - vm_compute. discriminate.
Defined.

Lemma claim_excludes_second_executor_witness :
  exists s', ClaimNodeOperation h_started (clock 60) (clock 60) "n1" ["operations.v1"%string] "op1" "bad" "s3"
    = (s', None) /\ ops s' !! "op1"%string = Some (row h_started) /\ events s' = events h_started.
Proof.
  apply (claim_excludes_second_executor h_started _ _ _ _ _ _ _ "op1" (row h_started) "hbfl_s1");
    [apply h_started_reach|vm_compute; reflexivity..|vm_compute; discriminate].
Defined.

Lemma lease_text_exact_to_the_second_witness :
  is_Some (q_ClaimNodeOperation h_started (clock 200) "h" "x" "op1" "n1").
Proof.
  refine (proj1 (proj2 (lease_text_exact_to_the_second h_started "h" "x" (clock 200) (clock 92)
    (row h_started) _ _ _ _ _ _ _) _));
    [vm_compute; split; discriminate|vm_compute; split; discriminate|vm_compute; reflexivity..].
Defined.

Lemma abandoned_cancelled_operation_blocks_node_witness :
  (ClaimNodeOperation h_cancelling (clock 900) (clock 900) "n1" ["operations.v1"%string] "op1" "bfl_s1" "s9").2
    = None.
Proof.
  refine (proj1 (proj2 (abandoned_cancelled_operation_blocks_node (clock 100) h_cancelling h_cancelling "op1"
    (row h_cancelling) h_cancelling_reach _ _ (rtc_refl _ _))) _ _ _ _ _ _ _).
  - vm_compute. reflexivity.
  - vm_compute. auto.
  - vm_compute. discriminate.
Defined.

Lemma CreateNodeOperation_idempotent_witness :
  exists o2, CreateNodeOperation h_created (clock 50) "n1" "op2" reconcile_params = (h_created, Ok (o2, false))
    /\ spec o2 = spec (row h_created).
Proof.
  apply (CreateNodeOperation_idempotent no_tables h_created h_created (clock 0) (clock 50) "n1" "op1" "op2"
    reconcile_params (row h_created) true); [apply rtc_refl|reflexivity|vm_compute; reflexivity|apply rtc_refl].
Defined.
End witnesses.
