(* ===== verification/AgentOperations.v ===== *)
(** * The agent's operation outbox and executor loop

    [src/internal/agent/operations.go] against the server of [NodeOperations].

    The agent keeps one [OperationState], written to disk before and after
    every exchange, so a crash resumes from the last value saved here.  The
    network is an oracle: a list of what happens to each HTTP request.  The
    retry loops of the code have no bound of their own (only the context stops
    them), so a run that exhausts the oracle is [Waiting], never a result.

    The lease monitor runs concurrently; what it does to the executor (an
    observed cancellation, a lost lease, the cause of the cancelled context) is
    an input, [Signals]. *)
From S2P Require Import Prelude GoStrings GoTime NodeOperations.

#[local] Open Scope Z_scope.

(** ** Data *)
Record NodeOperationAssignment := {
  as_ID : string; as_Kind : string; as_Payload : string; as_Attempt : Z; as_LeaseToken : string
}.
Record NodeOperationEventReport := {
  er_LeaseToken : string; er_Attempt : Z; er_Sequence : Z; er_Status : string; er_Phase : string;
  er_Message : string; er_Details : string; er_Result : string; er_Error : string; er_ReportedAt : string
}.
Record OperationState := {
  st_Assignment : NodeOperationAssignment;
  st_LastSequence : Z;
  st_Phase : string;
  st_PendingEvent : option NodeOperationEventReport;
  st_Checkpoint : string
}.

Inductive AgentError :=
| operationAPIError (code : Z)
| transportError
| errOperationCancelled
| errOperationLeaseLost
| errContext
| ErrAgentRestartRequired
| executorError (text : string).
#[export] Instance AgentError_eq_dec : EqDecision AgentError.
Proof. solve_decision. Defined.

Definition error_text (e : AgentError) : string :=
  match e with
  | operationAPIError code => "operation API returned " ++ FormatInt code
  | transportError => "transport"
  | errOperationCancelled => "node operation cancelled"
  | errOperationLeaseLost => "node operation lease lost"
  | errContext => "context canceled"
  | ErrAgentRestartRequired => "agent restart required"
  | executorError text => text
  end.

(** Retry on a transport error, 429 or 5xx; any other API answer is final. *)
Definition isRetryableOperationError (e : AgentError) : bool :=
  match e with
  | operationAPIError code => (code =? 429) || (500 <=? code)
  | _ => true
  end.

(** ** The network *)
Inductive net :=
| deliver (gnow snow : Time)          (* processed, answer received *)
| lose_request                        (* never reached the server *)
| lose_response (gnow snow : Time)    (* processed, answer lost *)
| refuse (code : Z)                   (* answered by something in between *)
| interrupted (gnow snow : Time) (processed : bool).  (* the context ended *)

Inductive outcome (A : Type) :=
| Done (a : A)
| Failed (e : AgentError)
| Waiting.
Arguments Done {A} a.
Arguments Failed {A} e.
Arguments Waiting {A}.

Section outbox.
Context `{OperationEnv}.
Variable node : string.

(** ** The HTTP boundary *)
(** [nodeOperationEventHandler] with [writeNodeOperationError]. *)
Definition status_code {A} (r : result OpError A) : Z :=
  match r with
  | Ok _ => 200
  | Err ErrInvalidOperationLease => 409
  | Err _ => 422
  end.

Definition event_params (id : string) (e : NodeOperationEventReport) : RecordNodeOperationEventParams :=
  {| rp_OperationID := id; rp_LeaseToken := er_LeaseToken e; rp_Attempt := er_Attempt e;
     rp_Sequence := er_Sequence e; rp_Status := er_Status e; rp_Phase := er_Phase e;
     rp_Message := er_Message e; rp_Details := er_Details e; rp_Result := er_Result e;
     rp_Error := er_Error e; rp_ReportedAt := er_ReportedAt e |}.

(** One POST to /api/node/operations/{id}/events. *)
Definition post_event (s : tables) (n : net) (id : string) (e : NodeOperationEventReport)
    : tables * (unit + AgentError) :=
  match n with
  | deliver gnow snow =>
      let (s, r) := RecordNodeOperationEvent s gnow snow node (event_params id e) in
      (s, if status_code r =? 200 then inl tt else inr (operationAPIError (status_code r)))
  | lose_request => (s, inr transportError)
  | lose_response gnow snow =>
      ((RecordNodeOperationEvent s gnow snow node (event_params id e)).1, inr transportError)
  | refuse code => (s, if code =? 200 then inl tt else inr (operationAPIError code))
  | interrupted gnow snow processed =>
      ((if processed then (RecordNodeOperationEvent s gnow snow node (event_params id e)).1 else s),
       inr errContext)
  end.
Definition is_interrupted (n : net) : bool :=
  match n with interrupted _ _ _ => true | _ => false end.

(** ** The outbox *)
Definition sent (st : OperationState) (e : NodeOperationEventReport) : OperationState :=
  {| st_Assignment := st_Assignment st; st_LastSequence := er_Sequence e; st_Phase := er_Phase e;
     st_PendingEvent := None; st_Checkpoint := st_Checkpoint st |}.

(** [retry.Do]: again while the error is retryable and the context lives. *)
Fixpoint flushPendingOperationEventWithRetry (st : OperationState) (s : tables) (nets : list net)
    : OperationState * tables * list net * outcome unit :=
  match st_PendingEvent st with
  | None => (st, s, nets, Done tt)
  | Some e =>
      match nets with
      | [] => (st, s, [], Waiting)
      | n :: nets =>
          let (s, r) := post_event s n (as_ID (st_Assignment st)) e in
          match r with
          | inl _ => (sent st e, s, nets, Done tt)
          | inr err =>
              if negb (is_interrupted n) && isRetryableOperationError err
              then flushPendingOperationEventWithRetry st s nets
              else (st, s, nets, Failed err)
          end
      end
  end.

Definition stage (st : OperationState) (now : Time) (e : NodeOperationEventReport) : OperationState :=
  {| st_Assignment := st_Assignment st; st_LastSequence := st_LastSequence st; st_Phase := st_Phase st;
     st_PendingEvent := Some
       {| er_LeaseToken := as_LeaseToken (st_Assignment st);
          er_Attempt := as_Attempt (st_Assignment st);
          er_Sequence := st_LastSequence st + 1;
          er_Status := er_Status e; er_Phase := er_Phase e; er_Message := er_Message e;
          er_Details := er_Details e; er_Result := er_Result e; er_Error := er_Error e;
          er_ReportedAt := if (er_ReportedAt e =? "")%string then Format_RFC3339Nano now
                           else er_ReportedAt e |};
     st_Checkpoint := st_Checkpoint st |}.

Definition reportOperationEventWithRetry (st : OperationState) (s : tables) (now : Time)
    (e : NodeOperationEventReport) (nets : list net)
    : OperationState * tables * list net * outcome unit :=
  let st := match st_PendingEvent st with None => stage st now e | Some _ => st end in
  flushPendingOperationEventWithRetry st s nets.

Definition event_report (status phase message result err : string) : NodeOperationEventReport :=
  {| er_LeaseToken := ""; er_Attempt := 0; er_Sequence := 0; er_Status := status; er_Phase := phase;
     er_Message := message; er_Details := ""; er_Result := result; er_Error := err; er_ReportedAt := "" |}.

(** ** Running one claimed operation *)

(** What the concurrent lease monitor and the executor's own work do. *)
Record Signals := {
  sig_entry : option AgentError;   (* operationBoundary before the work *)
  sig_exit : option AgentError;    (* operationBoundary after the work *)
  sig_cause : option AgentError;   (* context.Cause(opCtx) after the executor returned *)
  sig_lease : option AgentError;   (* what is in the leaseErrors channel *)
  sig_renew : bool + AgentError;   (* the final renewal: cancel requested, or an error *)
}.
(** The work of a kind (Once, ReportLogs, diagnostics, an update): its result
    map ([committed] and the rest as JSON text) or an error. *)
Record Result := { res_committed : bool; res_json : string }.
Definition no_result : Result := {| res_committed := false; res_json := "null" |}.

Definition reporting_kind (kind : string) : option (string * string) :=
  if (kind =? "config.reconcile")%string then Some ("reconciling", "reconciling node configuration")%string
  else if (kind =? "logs.collect")%string then Some ("collecting", "collecting node logs")%string
  else if (kind =? "diagnostics.collect")%string then Some ("collecting", "collecting node diagnostics")%string
  else None.
Definition update_kind (kind : string) : bool :=
  bool_decide (kind ∈ ["update.agent"; "update.sing_box"; "update.bundle"]%string).

Definition with_exit (r : Result) (sig : Signals) : Result * option AgentError := (r, sig_exit sig).

(** [update] is executeUpdateOperation, which stages its own events and
    checkpoints; [work] the outcome of the other kinds' work. *)
Definition executeNodeOperation (st : OperationState) (s : tables) (now : Time) (sig : Signals)
    (work : Result + AgentError)
    (update : OperationState -> tables -> list net ->
              OperationState * tables * list net * outcome (Result * option AgentError))
    (nets : list net) : OperationState * tables * list net * outcome (Result * option AgentError) :=
  match sig_entry sig with
  | Some err => (st, s, nets, Done (no_result, Some err))
  | None =>
      let kind := as_Kind (st_Assignment st) in
      match reporting_kind kind with
      | Some (phase, message) =>
          let '(st, s, nets, r) :=
            reportOperationEventWithRetry st s now (event_report "running" phase message "" "") nets in
          match r with
          | Waiting => (st, s, nets, Waiting)
          | Failed err => (st, s, nets, Done (no_result, Some err))
          | Done _ =>
              match work with
              | inr err => (st, s, nets, Done (no_result, Some err))
              | inl result => (st, s, nets, Done (with_exit result sig))
              end
          end
      | None =>
          if update_kind kind then update st s nets
          else (st, s, nets, Done (no_result,
                  Some (executorError ("unsupported node operation kind " ++ kind))))
      end
  end.

Definition operationExecutionError (sig : Signals) (executeErr : option AgentError) : option AgentError :=
  match executeErr with
  | None => None
  | Some err => match sig_cause sig with Some cause => Some cause | None => Some err end
  end.

Definition finalLeaseError (result : Result) (requested : bool) (renewErr : option AgentError)
    : option AgentError :=
  if res_committed result then None
  else match renewErr with
       | Some err => Some err
       | None => if requested then Some errOperationCancelled else None
       end.

Definition final_error (sig : Signals) (result : Result) (executeErr : option AgentError)
    : option AgentError :=
  let executeErr := match sig_lease sig, executeErr with
                    | Some leaseErr, None => Some leaseErr
                    | _, _ => executeErr
                    end in
  match executeErr with
  | Some err => Some err
  | None => match sig_renew sig with
            | inl requested => finalLeaseError result requested None
            | inr err => finalLeaseError result false (Some err)
            end
  end.

Definition terminal_event (result : Result) (executeErr : option AgentError) : NodeOperationEventReport :=
  match executeErr with
  | None => event_report "succeeded" "completed" "operation completed" (res_json result) ""
  | Some err =>
      if bool_decide (err = errOperationCancelled)
      then event_report "cancelled" "cancelled" "operation cancelled at a safe boundary" (res_json result)
             (error_text err)
      else event_report "failed" "failed" "operation failed" (res_json result) (error_text err)
  end.

(** The state is [None] after ClearOperationState. *)
Definition runClaimedOperation (st : OperationState) (s : tables) (now : Time) (sig : Signals)
    (work : Result + AgentError)
    (update : OperationState -> tables -> list net ->
              OperationState * tables * list net * outcome (Result * option AgentError))
    (nets : list net) : option OperationState * tables * list net * outcome unit :=
  let '(st, s, nets, r) := flushPendingOperationEventWithRetry st s nets in
  match r with
  | Waiting => (Some st, s, nets, Waiting)
  | Failed err => (Some st, s, nets, Failed err)
  | Done _ =>
      let '(st, s, nets, r) :=
        if st_LastSequence st =? 0 then
          reportOperationEventWithRetry st s now
            (event_report "running" "starting" "operation executor started" "" "") nets
        else (st, s, nets, Done tt) in
      match r with
      | Waiting => (Some st, s, nets, Waiting)
      | Failed err => (Some st, s, nets, Failed err)
      | Done _ =>
          let '(st, s, nets, r) := executeNodeOperation st s now sig work update nets in
          match r with
          | Waiting => (Some st, s, nets, Waiting)
          | Failed err => (Some st, s, nets, Failed err)
          | Done (result, executeErr) =>
              let executeErr := operationExecutionError sig executeErr in
              if bool_decide (executeErr = Some ErrAgentRestartRequired)
              then (Some st, s, nets, Failed ErrAgentRestartRequired)
              else
                let '(st, s, nets, r) := reportOperationEventWithRetry st s now
                  (terminal_event result (final_error sig result executeErr)) nets in
                match r with
                | Waiting => (Some st, s, nets, Waiting)
                | Failed err => (Some st, s, nets, Failed err)
                | Done _ => (None, s, nets, Done tt)
                end
          end
      end
  end.

(** RunOperations between a claim's answer and the run: the state to save. *)
Definition adopt_assignment (state : option OperationState) (a : NodeOperationAssignment) : OperationState :=
  match state with
  | Some st =>
      if (as_ID (st_Assignment st) =? as_ID a)%string then
        if as_Attempt (st_Assignment st) =? as_Attempt a then
          {| st_Assignment := a; st_LastSequence := st_LastSequence st; st_Phase := st_Phase st;
             st_PendingEvent := st_PendingEvent st; st_Checkpoint := st_Checkpoint st |}
        else
          {| st_Assignment := a; st_LastSequence := 0; st_Phase := st_Phase st;
             st_PendingEvent := None; st_Checkpoint := st_Checkpoint st |}
      else {| st_Assignment := a; st_LastSequence := 0; st_Phase := "claimed"; st_PendingEvent := None;
              st_Checkpoint := "" |}
  | None => {| st_Assignment := a; st_LastSequence := 0; st_Phase := "claimed"; st_PendingEvent := None;
               st_Checkpoint := "" |}
  end.
End outbox.

(** ** Outbox lemmas *)
Section outbox_proofs.
Context `{OperationEnv}.
Variable node : string.
Implicit Types (st : OperationState) (s : tables).

(** The agent's view and the server's log of the attempt agree up to the one
    staged event. *)
Record in_sync st s : Prop := {
  is_reachable : rtc any_step no_tables s;
  is_log :
    let id := as_ID (st_Assignment st) in let a := as_Attempt (st_Assignment st) in
    let l := LastNodeOperationEventSequence s id a in
    l = st_LastSequence st \/
    exists e ev gnow, st_PendingEvent st = Some e /\ l = st_LastSequence st + 1 /\
      events s !! (id, a, l) = Some ev /\
      (exists ev', report_event gnow (event_params id e) = Ok ev' /\ same_report ev ev' = true);
  is_pending : forall e, st_PendingEvent st = Some e ->
    er_Sequence e = st_LastSequence st + 1 /\ er_Attempt e = as_Attempt (st_Assignment st);
}.

(** [report_event] does not depend on the clock, but for the report time. *)
Lemma report_event_clock gnow gnow' p e :
  report_event gnow p = Ok e -> exists e', report_event gnow' p = Ok e' /\
    forall e0, same_report e0 e' = same_report e0 e.
Proof.
  unfold report_event. destruct (_ || _); [done|]. destruct (event_status _); [|done].
  destruct (validOperationPhase _); [|done].
  destruct (negb _); [|done]. destruct (negb _); [|done].
  destruct (normalizeJSONObject (rp_Details p)); [|done].
  destruct (normalizeJSONObject (rp_Result p)); [|done]. destruct (_ || _); [|done].
  intros Hok. injection Hok as <-. eexists. split; done.
Qed.

Lemma same_report_refl e : same_report e e = true.
Proof. unfold same_report. by rewrite bool_decide_true, !String.eqb_refl by done. Qed.

(** Sending the staged event never collides with what the log holds. *)
Lemma record_outcome st s gnow snow e :
  in_sync st s -> st_PendingEvent st = Some e ->
  let id := as_ID (st_Assignment st) in
  let '(s', r) := RecordNodeOperationEvent s gnow snow node (event_params id e) in
  in_sync st s' /\
  (forall o, r = Ok o -> LastNodeOperationEventSequence s' id (as_Attempt (st_Assignment st)) = er_Sequence e) /\
  r <> Err ErrSequenceReused /\ r <> Err ErrSequenceExists /\ r <> Err ErrSequenceGap.
Proof.
  intros [Hreach Hlog Hpend] He. cbv zeta in *. set (id := as_ID (st_Assignment st)) in *.
  destruct (Hpend e He) as [Hseq Hatt]. set (a := as_Attempt (st_Assignment st)) in *.
  destruct (RecordNodeOperationEvent s gnow snow node (event_params id e)) as [s' r] eqn:Er.
  pose proof (record_steps _ _ _ _ _ _ _ Er) as Hsteps.
  assert (Hreach' : rtc any_step no_tables s') by (by etrans).
  unfold RecordNodeOperationEvent in Er.
  destruct (report_event gnow (event_params id e)) as [ev|err] eqn:Erep.
  2:{ injection Er as <- <-. split; [by split|]. split; [done|].
      assert (Herr : err <> ErrSequenceReused /\ err <> ErrSequenceExists /\ err <> ErrSequenceGap).
      { unfold report_event in Erep. break_all Erep; done. }
      destruct Herr as (? & ? & ?). split_and!; congruence. }
  destruct (Last_spec s id a) as (Hmax & Hlast & _).
  destruct (record_tx s gnow snow node (event_params id e) ev) as [[s1 o]|err] eqn:Etx.
  - injection Er as <- <-.
    destruct (GetNodeOperationEvent s id a (er_Sequence e)) as [e0|] eqn:Eev.
    + assert (Eev' : GetNodeOperationEvent s (rp_OperationID (event_params id e))
        (rp_Attempt (event_params id e)) (rp_Sequence (event_params id e)) = Some e0)
        by (simpl; by rewrite Hatt).
      destruct (record_tx_replay _ _ _ _ _ _ _ _ _ Eev' Etx) as (-> & _ & _).
      split; [by split|]. split; [|done]. intros _ _.
      assert (Hle : er_Sequence e <= LastNodeOperationEventSequence s id a) by (apply Hmax; eauto).
      destruct Hlog as [Hl|(? & ? & ? & _ & Hl & _)]; lia.
    + assert (Eev' : GetNodeOperationEvent s (rp_OperationID (event_params id e))
        (rp_Attempt (event_params id e)) (rp_Sequence (event_params id e)) = None)
        by (simpl; by rewrite Hatt).
      destruct (record_tx_new _ _ _ _ _ _ _ _ Eev' Etx)
        as (o0 & _ & _ & _ & _ & _ & _ & _ & Hsq & _ & _ & _ & Hevs).
      simpl in Hsq, Hevs. rewrite Hatt in Hsq, Hevs.
      destruct (Last_spec s1 id a) as (Hmax1 & Hlast1 & Hl1).
      assert (HL : LastNodeOperationEventSequence s1 id a = er_Sequence e).
      { assert (er_Sequence e <= LastNodeOperationEventSequence s1 id a).
        { apply Hmax1. rewrite Hevs, lookup_insert_eq. eauto. }
        destruct Hlast1 as [Hz|[x Hx]].
        - destruct (Last_spec s id a) as (_ & _ & ?). lia.
        - rewrite Hevs in Hx. apply lookup_insert_Some in Hx as [[Hk _]|[_ Hx]]; [congruence|].
          assert (LastNodeOperationEventSequence s1 id a <= LastNodeOperationEventSequence s id a)
            by (apply Hmax; eauto). lia. }
      split; [|by split]. split; [done| |done]. right.
      fold id a. rewrite HL. exists e, ev, gnow.
      split_and!; [done|lia| |exists ev; split; [done|apply same_report_refl]].
      rewrite Hevs. by rewrite lookup_insert_eq.
  - injection Er as <- <-. split; [by split|]. split; [done|].
    assert (Herr : err <> ErrSequenceReused /\ err <> ErrSequenceExists /\ err <> ErrSequenceGap).
    { unfold record_tx, GetNodeOperationByID in Etx. simpl in Etx. fold id in Etx.
      destruct (ops s !! id) as [o|]; [|by injection Etx as <-].
      destruct (_ =? node)%string; [|by injection Etx as <-]. rewrite Hatt in Etx.
      destruct (GetNodeOperationEvent s id a (er_Sequence e)) as [e0|] eqn:Eev.
      - assert (Hle : er_Sequence e <= LastNodeOperationEventSequence s id a) by (apply Hmax; eauto).
        destruct Hlog as [Hl|(e1 & ev1 & gnow1 & He1 & Hl & Hev1 & ev' & Hrep' & Hsame)]; [lia|].
        rewrite He in He1. injection He1 as <-.
        assert (e0 = ev1) as ->.
        { unfold GetNodeOperationEvent in Eev. rewrite Hseq, <- Hl, Hev1 in Eev. by injection Eev. }
        destruct (report_event_clock gnow1 gnow _ _ Hrep') as (ev2 & Hrep2 & Hs2).
        rewrite Erep in Hrep2. injection Hrep2 as <-. rewrite <- Hs2 in Hsame.
        by rewrite Hsame in Etx.
      - assert (Hl : LastNodeOperationEventSequence s id a = st_LastSequence st).
        { destruct Hlog as [Hl|(e1 & ev1 & gnow1 & He1 & Hl & Hev1 & _)]; [done|].
          unfold GetNodeOperationEvent in Eev. rewrite Hseq, <- Hl, Hev1 in Eev. done. }
        rewrite Hl, Hseq in Etx.
        rewrite (proj2 (Z.leb_gt _ _)) in Etx by lia. rewrite Z.eqb_refl in Etx. cbn [negb] in Etx.
        destruct (_ && _); [|by injection Etx as <-]. destruct (negb _); [|by injection Etx as <-].
        destruct (q_ApplyNodeOperationEvent _ _ _ _ _ _ _ _ _ _ _ _) as [[? ?]|]; [done|].
        by injection Etx as <-. }
    destruct Herr as (? & ? & ?). split_and!; congruence.
Qed.

Lemma in_sync_post st s n e s' r :
  in_sync st s -> st_PendingEvent st = Some e ->
  post_event node s n (as_ID (st_Assignment st)) e = (s', r) ->
  in_sync st s' /\
  (r = inl tt -> (exists gnow snow, n = deliver gnow snow) ->
     LastNodeOperationEventSequence s' (as_ID (st_Assignment st)) (as_Attempt (st_Assignment st))
     = er_Sequence e).
Proof.
  intros Hsync He. unfold post_event.
  assert (Hrec : forall gnow snow, in_sync st (RecordNodeOperationEvent s gnow snow node
            (event_params (as_ID (st_Assignment st)) e)).1).
  { intros gnow snow. pose proof (record_outcome st s gnow snow e Hsync He) as Hr. cbv zeta in Hr.
    destruct (RecordNodeOperationEvent _ _ _ _ _) as [s1 r1]. by destruct Hr as [Hr _]. }
  destruct n as [gnow snow| |gnow snow|code|gnow snow processed].
  - pose proof (record_outcome st s gnow snow e Hsync He) as Hr. cbv zeta in Hr.
    destruct (RecordNodeOperationEvent _ _ _ _ _) as [s1 r1]. destruct Hr as (Hs1 & Hok & _).
    intros [= <- <-]. split; [done|]. intros Hr _. destruct r1 as [o|er]; [by eapply Hok|].
    by destruct er.
  - intros [= <- <-]. done.
  - intros [= <- <-]. done.
  - intros [= <- <-]. split; [done|]. by intros _ (? & ? & ?).
  - intros [= <- <-]. by destruct processed.
Qed.

(** Answers that are not the server's own must not be 200 (a proxy that
    confirms what it did not deliver breaks any outbox). *)
Definition honest (n : net) : Prop := match n with refuse code => code <> 200 | _ => True end.

Lemma in_sync_flush nets st s st' s' rest r :
  Forall honest nets -> in_sync st s ->
  flushPendingOperationEventWithRetry node st s nets = (st', s', rest, r) ->
  in_sync st' s' /\ st_Assignment st' = st_Assignment st /\ Forall honest rest /\
  (r = Done tt -> st_PendingEvent st' = None).
Proof.
  revert st s. induction nets as [|n nets IH]; intros st s Hh Hsync Hf; simpl in Hf.
  - destruct (st_PendingEvent st) eqn:E; injection Hf as <- <- <- <-; done.
  - destruct (st_PendingEvent st) as [e|] eqn:E; [|by injection Hf as <- <- <- <-].
    inversion Hh as [|?? Hn Hnets]; subst.
    destruct (post_event node s n (as_ID (st_Assignment st)) e) as [s1 res] eqn:Ep.
    destruct (in_sync_post _ _ _ _ _ _ Hsync E Ep) as [Hs1 Hok].
    destruct res as [[]|err].
    + injection Hf as <- <- <- <-. split; [|done].
      assert (Hd : exists gnow snow, n = deliver gnow snow).
      { unfold post_event in Ep. destruct n; simpl in Hn; eauto; try done.
        destruct (code =? 200) eqn:Ec; [by breflect|done]. }
      specialize (Hok eq_refl Hd). destruct Hs1 as [Hr Hl Hp]. split; [done|by left|done].
    + destruct (negb (is_interrupted n) && isRetryableOperationError err).
      * by eapply IH.
      * by injection Hf as <- <- <- <-.
Qed.

Lemma in_sync_report nets st s now e st' s' rest r :
  Forall honest nets -> in_sync st s ->
  reportOperationEventWithRetry node st s now e nets = (st', s', rest, r) ->
  in_sync st' s' /\ st_Assignment st' = st_Assignment st /\ Forall honest rest.
Proof.
  intros Hh Hsync. unfold reportOperationEventWithRetry. intros Hf.
  destruct (st_PendingEvent st) as [e0|] eqn:E.
  - by destruct (in_sync_flush _ _ _ _ _ _ _ Hh Hsync Hf) as (? & ? & ? & _).
  - assert (Hstage : in_sync (stage st now e) s).
    { destruct Hsync as [Hr Hl Hp]. split; [done| |].
      - left. destruct Hl as [Hl|(? & ? & ? & Hx & _)]; [done|congruence].
      - intros e1 [= <-]. done. }
    destruct (in_sync_flush _ _ _ _ _ _ _ Hh Hstage Hf) as (? & ? & ? & _). done.
Qed.

(** ** The agent and the server together *)
Inductive sys_step : OperationState * tables -> OperationState * tables -> Prop :=
| sys_report st s now e nets st' s' rest r :
    Forall honest nets ->
    reportOperationEventWithRetry node st s now e nets = (st', s', rest, r) ->
    sys_step (st, s) (st', s')
| sys_flush st s nets st' s' rest r :
    Forall honest nets ->
    flushPendingOperationEventWithRetry node st s nets = (st', s', rest, r) ->
    sys_step (st, s) (st', s')
| sys_server st s s' :
    (* other requests: they do not report for this attempt, whose token only
       this agent has *)
    any_step s s' ->
    (forall n, events s' !! (as_ID (st_Assignment st), as_Attempt (st_Assignment st), n)
             = events s !! (as_ID (st_Assignment st), as_Attempt (st_Assignment st), n)) ->
    sys_step (st, s) (st, s')
| sys_claim st s snow hash lease s' o token :
    q_ClaimNodeOperation s snow hash lease (op_id (spec o)) node = Some (s', o) ->
    sys_step (st, s)
      (adopt_assignment (Some st) {| as_ID := op_id (spec o); as_Kind := op_kind (spec o);
         as_Payload := op_payload (spec o); as_Attempt := op_attempt (prog o);
         as_LeaseToken := token |}, s').

Lemma Last_ext s s' id a :
  (forall n, events s' !! (id, a, n) = events s !! (id, a, n)) ->
  LastNodeOperationEventSequence s' id a = LastNodeOperationEventSequence s id a.
Proof.
  intros He. destruct (Last_spec s id a) as (M & L & P). destruct (Last_spec s' id a) as (M' & L' & P').
  assert (LastNodeOperationEventSequence s' id a <= LastNodeOperationEventSequence s id a).
  { destruct L' as [->|L']; [done|]. apply M. by rewrite <- He. }
  assert (LastNodeOperationEventSequence s id a <= LastNodeOperationEventSequence s' id a).
  { destruct L as [->|L]; [done|]. apply M'. by rewrite He. }
  lia.
Qed.

Lemma fresh_attempt_empty s snow hash lease id s' o :
  rtc any_step no_tables s -> q_ClaimNodeOperation s snow hash lease id node = Some (s', o) ->
  rtc any_step no_tables s' /\ LastNodeOperationEventSequence s' (op_id (spec o)) (op_attempt (prog o)) = 0.
Proof.
  intros Hr Hc. assert (Hr' : rtc any_step no_tables s').
  { eapply rtc_r; [exact Hr|]. exists snow. eapply step_claim, Hc. }
  split; [done|]. pose proof (inv_reachable _ Hr) as Hinv.
  unfold q_ClaimNodeOperation in Hc. destruct (ops s !! id) as [o0|] eqn:Ho; [|done].
  destruct (_ && _); [|done]. injection Hc as <- <-. cbn [spec prog].
  rewrite (oi_id _ Hinv _ _ Ho). unfold claimed_progress. cbn [op_attempt].
  destruct (Last_spec (set_op s id {| spec := spec o0; prog := claimed_progress snow hash lease (prog o0) |})
              id (op_attempt (prog o0) + 1)) as (_ & [L|[e L]] & _); [exact L|].
  simpl in L. destruct (oi_events _ Hinv _ _ _ _ L) as (o1 & Ho1 & Ha & _).
  rewrite Ho in Ho1. injection Ho1 as <-. lia.
Qed.

Lemma in_sync_step p q : in_sync p.1 p.2 -> sys_step p q -> in_sync q.1 q.2.
Proof.
  intros Hsync Hs. destruct Hs as [st s now e nets st' s' rest r Hh Hf|st s nets st' s' rest r Hh Hf
    |st s s' Hstep Hev|st s snow hash lease s' o token Hc]; simpl in *.
  - by destruct (in_sync_report _ _ _ _ _ _ _ _ _ Hh Hsync Hf).
  - by destruct (in_sync_flush _ _ _ _ _ _ _ Hh Hsync Hf).
  - destruct Hsync as [Hr Hl Hp]. split; [by eapply rtc_r| |done]. cbv zeta in *.
    rewrite (Last_ext s s') by done. destruct Hl as [Hl|(e & ev & gnow & He & Hl & Hev' & Hrest)]; [by left|].
    right. exists e, ev, gnow. split_and!; try done. by rewrite Hev.
  - destruct Hsync as [Hr Hl Hp].
    destruct (fresh_attempt_empty _ _ _ _ _ _ _ Hr Hc) as [Hr' Hz].
    unfold adopt_assignment. cbn [as_ID as_Attempt].
    destruct (as_ID (st_Assignment st) =? op_id (spec o))%string eqn:Eid.
    + destruct (as_Attempt (st_Assignment st) =? op_attempt (prog o)) eqn:Eat.
      * breflect. split; simpl.
        -- done.
        -- rewrite Hz. cbv zeta in Hl. rewrite Eid, Eat in Hl.
           assert (Hle : LastNodeOperationEventSequence s (op_id (spec o)) (op_attempt (prog o)) = 0).
           { rewrite <- Hz. symmetry. apply Last_ext. intros n.
             unfold q_ClaimNodeOperation in Hc. destruct (ops s !! _); [|done].
             destruct (_ && _); [|done]. by injection Hc as <- _. }
           rewrite Hle in Hl. destruct Hl as [Hl|(e & ev & gnow & He & Hl & Hev' & _)]; [by left|].
           destruct (Last_spec s (op_id (spec o)) (op_attempt (prog o))) as (Hm & _ & _).
           exfalso. pose proof (inv_reachable _ Hr) as Hinv.
           destruct (oi_events _ Hinv _ _ _ _ Hev') as (_ & _ & _ & Hpos & _). lia.
        -- rewrite <- Eat. done.
      * split; simpl; [done|by left|done].
    + split; simpl; [done|by left|done].
Qed.
End outbox_proofs.

(** ** Properties *)

(** C8: the outbox and the server never disagree about the event log: however
    requests are lost, answered late, repeated or interrupted, whatever other
    requests the server serves and however often the operation is claimed
    anew, sending the staged event is never answered with a sequence conflict. *)
Theorem outbox_never_conflicts `{OperationEnv} node s snow hash lease s1 o token st s2 e gnow snow' :
  rtc any_step no_tables s ->
  q_ClaimNodeOperation s snow hash lease (op_id (spec o)) node = Some (s1, o) ->
  rtc (sys_step node)
    (adopt_assignment None {| as_ID := op_id (spec o); as_Kind := op_kind (spec o);
       as_Payload := op_payload (spec o); as_Attempt := op_attempt (prog o); as_LeaseToken := token |}, s1)
    (st, s2) ->
  st_PendingEvent st = Some e ->
  let r := (RecordNodeOperationEvent s2 gnow snow' node (event_params (as_ID (st_Assignment st)) e)).2 in
  r <> Err ErrSequenceReused /\ r <> Err ErrSequenceExists /\ r <> Err ErrSequenceGap.
Proof.
  intros Hr Hc Hs He. destruct (fresh_attempt_empty node _ _ _ _ _ _ _ Hr Hc) as [Hr1 Hz].
  assert (Hsync : in_sync st s2).
  { change (in_sync (st, s2).1 (st, s2).2). eapply (rtc_preserves (sys_step node) (fun p => in_sync p.1 p.2));
      [apply in_sync_step|exact Hs|]. split; simpl; [done|by left|done]. }
  pose proof (record_outcome node st s2 gnow snow' e Hsync He) as Ho. cbv zeta in *.
  destruct (RecordNodeOperationEvent _ _ _ _ _) as [s3 r]. by destruct Ho as (_ & _ & ?).
Qed.

(** A committed update is reported as it is on disk: neither a late
    cancellation nor a failed renewal turns it into a failure, and without a
    commit both do. *)
Theorem finalLeaseError_respects_commit result requested renewErr :
  (res_committed result = true -> finalLeaseError result requested renewErr = None) /\
  (res_committed result = false ->
     finalLeaseError result requested renewErr = None <-> renewErr = None /\ requested = false).
Proof.
  unfold finalLeaseError. destruct (res_committed result); split; try done.
  intros _. destruct renewErr; [|destruct requested]; split; try done; by intros [? ?].
Qed.

(** An event reported while an earlier one is still staged is dropped: the
    call sends the staged event and reports success, whatever it was asked to
    report.  (The executor relies on the outbox being empty.) *)
Theorem report_drops_event_behind_staged `{OperationEnv} node st s now now' e e' nets staged :
  st_PendingEvent st = Some staged ->
  reportOperationEventWithRetry node st s now e nets = reportOperationEventWithRetry node st s now' e' nets.
Proof. intros Hp. unfold reportOperationEventWithRetry. by rewrite Hp. Qed.

(** The staged form of a report. *)
Lemma flush_done_recorded `{OperationEnv} node nets st s st' s' rest e :
  Forall honest nets -> st_PendingEvent st = Some e ->
  flushPendingOperationEventWithRetry node st s nets = (st', s', rest, Done tt) ->
  st' = sent st e /\ exists gnow ev ev0,
    report_event gnow (event_params (as_ID (st_Assignment st)) e) = Ok ev /\
    events s' !! (as_ID (st_Assignment st), er_Attempt e, er_Sequence e) = Some ev0 /\
    same_report ev0 ev = true.
Proof.
  intros Hh He. revert s Hh. induction nets as [|n nets IH]; intros s Hh; simpl; rewrite He; [done|].
  inversion Hh as [|?? Hn Hnets]; subst.
  destruct (post_event node s n (as_ID (st_Assignment st)) e) as [s1 res] eqn:Ep.
  destruct res as [[]|err].
  - intros [= <- <- <-]. split; [done|].
    unfold post_event in Ep. destruct n as [gnow snow| |gnow snow|code|gnow snow processed]; try done.
    + destruct (RecordNodeOperationEvent s gnow snow node _) as [s2 r] eqn:Er.
      injection Ep as <- Hr. destruct r as [o|er]; [|by destruct er].
      destruct (record_ok_event _ _ _ _ _ _ _ Er) as (ev & ev0 & Hrep & Hev & Hsame & _).
      exists gnow, ev, ev0. done.
    + simpl in Hn. destruct (code =? 200) eqn:Ec; [by breflect|done].
  - destruct (negb (is_interrupted n) && isRetryableOperationError err); [|done]. by apply IH.
Qed.

(** when the outbox was empty and a report returns successfully, the event
    it was given is in the server's log under the next sequence number, with
    the same content; a terminal one has ended the operation. *)
Theorem reported_event_is_recorded `{OperationEnv} node nets st s now e st' s' rest :
  Forall honest nets -> in_sync st s -> st_PendingEvent st = None ->
  reportOperationEventWithRetry node st s now e nets = (st', s', rest, Done tt) ->
  st_LastSequence st' = st_LastSequence st + 1 /\ st_PendingEvent st' = None /\
  exists ev0, events s' !! (as_ID (st_Assignment st), as_Attempt (st_Assignment st), st_LastSequence st + 1)
                = Some ev0 /\
    event_status (er_Status e) = Some (e_status ev0) /\ e_phase ev0 = er_Phase e /\
    e_message ev0 = TrimSpace (er_Message e) /\ e_error ev0 = TrimSpace (er_Error e) /\
    (e_status ev0 <> running -> exists o, ops s' !! as_ID (st_Assignment st) = Some o /\
       op_status (prog o) = e_status ev0).
Proof.
  intros Hh Hsync Hp. unfold reportOperationEventWithRetry. rewrite Hp. intros Hf.
  assert (Hs : in_sync (stage st now e) s).
  { destruct Hsync as [Hr Hl _]. split; [done| |by intros e1 [= <-]].
    left. destruct Hl as [Hl|(? & ? & ? & Hx & _)]; [done|congruence]. }
  destruct (in_sync_flush node _ _ _ _ _ _ _ Hh Hs Hf) as ([Hr' _ _] & _).
  destruct (st_PendingEvent (stage st now e)) as [se|] eqn:Ese; [|done].
  destruct (flush_done_recorded _ _ _ _ _ _ _ _ Hh Ese Hf) as (-> & gnow & ev & ev0 & Hrep & Hev & Hsame).
  injection Ese as <-. cbn in Hev. simpl. split; [done|]. split; [done|]. exists ev0. split; [done|].
  assert (Hfields : event_status (er_Status e) = Some (e_status ev) /\ e_phase ev = er_Phase e /\
    e_message ev = TrimSpace (er_Message e) /\ e_error ev = TrimSpace (er_Error e)).
  { apply report_event_fields in Hrep as (? & ? & ? & ? & _). done. }
  unfold same_report in Hsame. breflect. destruct Hfields as (H1' & H2' & H3' & H4').
  split_and!; try congruence.
  intros Hne. pose proof (inv_reachable _ Hr') as Hinv.
  destruct (oi_events _ Hinv _ _ _ _ Hev) as (o & Ho & _). exists o. split; [done|].
  by apply (oi_final _ Hinv _ _ _ _ _ Hev Hne Ho).
Qed.

(** *** The stranded operation *)
Definition test_assignment : NodeOperationAssignment :=
  {| as_ID := "op1"; as_Kind := "config.reconcile"; as_Payload := "{}"; as_Attempt := 1;
     as_LeaseToken := "bfl_s1" |}.
Definition started_state : OperationState :=
  {| st_Assignment := test_assignment; st_LastSequence := 1; st_Phase := "starting";
     st_PendingEvent := None; st_Checkpoint := "" |}.
(** The lease monitor sees the operator's cancellation while the report of the
    "reconciling" phase is in flight. *)
Definition cancelled_in_flight : Signals :=
  {| sig_entry := None; sig_exit := None; sig_cause := Some errOperationCancelled; sig_lease := None;
     sig_renew := inl true |}.

Definition stranding_run : option OperationState * tables * list net * outcome unit :=
  @runClaimedOperation test_env "n1" started_state h_cancelling (clock 4) cancelled_in_flight
    (inl no_result) (fun st s nets => (st, s, nets, Waiting))
    [interrupted (clock 4) (clock 4) false; deliver (clock 5) (clock 5)].

(** a cancellation that interrupts the report of a running event loses the
    terminal event: the executor finishes, clears its state and is done, while
    the operation stays running on the server with the cancellation requested,
    which nothing can end once the lease has passed. *)
Theorem interrupted_report_strands_operation :
  exists s' o,
    stranding_run = (None, s', [], Done tt) /\
    ops s' !! "op1"%string = Some o /\ op_status (prog o) = running /\
    op_cancel_requested (prog o) = true /\ abandoned (clock 200) o.
Proof.
  exists (stranding_run.1.1.2), (row (stranding_run.1.1.2)).
  split; [vm_compute; reflexivity|]. split; [vm_compute; reflexivity|]. vm_compute. auto.
Qed.

Section agent_witnesses.
#[local] Existing Instance test_env.

Lemma in_sync_started : in_sync started_state h_started.
Proof.
  split; [apply h_started_reach|left; vm_compute; reflexivity|done].
Defined.

Definition staged_starting : NodeOperationEventReport :=
  {| er_LeaseToken := "bfl_s1"; er_Attempt := 1; er_Sequence := 1; er_Status := "running";
     er_Phase := "starting"; er_Message := ""; er_Details := ""; er_Result := ""; er_Error := "";
     er_ReportedAt := Format_RFC3339Nano (clock 2) |}.
Definition claim_assignment (o : operation) : NodeOperationAssignment :=
  {| as_ID := op_id (spec o); as_Kind := op_kind (spec o); as_Payload := op_payload (spec o);
     as_Attempt := op_attempt (prog o); as_LeaseToken := "bfl_s1" |}.
Definition staged_state : OperationState :=
  stage (adopt_assignment None (claim_assignment (row h_claimed))) (clock 2)
    (event_report "running" "starting" "" "" "").

Lemma outbox_never_conflicts_witness :
  exists s1, (RecordNodeOperationEvent s1 (clock 3) (clock 3) "n1"
    (event_params (as_ID (st_Assignment staged_state)) staged_starting)).2 <> Err ErrSequenceGap.
Proof.
  destruct (q_ClaimNodeOperation h_created (clock 1) (SHA256Hex "bfl_s1") (Format_RFC3339Nano (clock 91)) "op1" "n1")
    as [[s1 o]|] eqn:E; [|vm_compute in E; discriminate].
  exists s1.
  assert (Ho : o = row h_claimed) by (vm_compute in E; injection E as _ <-; vm_compute; reflexivity).
  subst o.
  refine (proj2 (proj2 (outbox_never_conflicts "n1" h_created (clock 1) (SHA256Hex "bfl_s1")
    (Format_RFC3339Nano (clock 91)) s1 (row h_claimed) "bfl_s1" staged_state s1 staged_starting
    (clock 3) (clock 3) h_created_reach _ _ _))).
  - exact E.
  - apply rtc_once. refine (sys_report "n1" _ s1 (clock 2) (event_report "running" "starting" "" "" "") []
      staged_state s1 [] Waiting _ _); [constructor|reflexivity].
  - vm_compute. reflexivity.
Defined.

Lemma finalLeaseError_respects_commit_witness :
  finalLeaseError {| res_committed := true; res_json := "{}" |} true (Some errOperationLeaseLost) = None.
Proof.
  refine (proj1 (finalLeaseError_respects_commit {| res_committed := true; res_json := "{}" |} true
    (Some errOperationLeaseLost)) _). reflexivity.
Defined.

Lemma report_drops_event_behind_staged_witness :
  reportOperationEventWithRetry "n1" (stage started_state (clock 2) (event_report "running" "a" "" "" ""))
    h_started (clock 3) (event_report "succeeded" "completed" "" "" "") []
  = reportOperationEventWithRetry "n1" (stage started_state (clock 2) (event_report "running" "a" "" "" ""))
    h_started (clock 3) (event_report "failed" "failed" "" "" "") [].
Proof. by eapply report_drops_event_behind_staged. Defined.

Lemma reported_event_is_recorded_witness :
  exists st' s', st_LastSequence st' = 2 /\
    reportOperationEventWithRetry "n1" started_state h_started (clock 3)
      (event_report "succeeded" "completed" "operation completed" "{}" "")
      [lose_response (clock 3) (clock 3); deliver (clock 4) (clock 4)] = (st', s', [], Done tt).
Proof.
  destruct (reportOperationEventWithRetry "n1" started_state h_started (clock 3)
      (event_report "succeeded" "completed" "operation completed" "{}" "")
      [lose_response (clock 3) (clock 3); deliver (clock 4) (clock 4)]) as [[[st' s'] rest] r] eqn:E.
  assert (Hr : rest = [] /\ r = Done tt) by (vm_compute in E; injection E as _ _ <- <-; done).
  destruct Hr as [-> ->]. exists st', s'. split; [|done].
  apply (reported_event_is_recorded "n1" [lose_response (clock 3) (clock 3); deliver (clock 4) (clock 4)]
    started_state h_started (clock 3) (event_report "succeeded" "completed" "operation completed" "{}" "")
    st' s' []); [by repeat constructor|apply in_sync_started|done|exact E].
Defined.
End agent_witnesses.
