(* ===== verification/Reporting.v ===== *)
(** * Exactly-once delivery of periodic reports

    The protocol [ReportTraffic] and [ReportConnections] share
    ([src/internal/agent/agent.go], [src/internal/agent/connections.go]): the
    agent stages a numbered report on disk before posting it and only forgets
    it after the server has acknowledged it; the server's unique key
    (node, boot id, sequence) makes a repeated post a no-op.

    [Sink] is the interface between the two: what the agent's protocol needs to
    know of the server's ingestion.  [Traffic] and [Ingest] implement it. *)
From S2P Require Import Prelude.

#[local] Open Scope Z_scope.

(** Ingestion of the reports of one agent run (one node, one boot id). *)
Class Sink (report table : Type) : Type := {
  (** does the report belong to this run? *)
  sink_own : report -> bool;
  sink_sequence : report -> Z;
  sink_seen : table -> Z -> bool;
  (** [None]: the transaction failed and was rolled back *)
  sink_record : table -> report -> option table;
}.

Class SinkLaws (report table : Type) `{Sink report table} : Prop := {
  sink_replay t r : sink_own r = true -> sink_seen t (sink_sequence r) = true -> sink_record t r = Some t;
  sink_fresh t r t' k : sink_own r = true -> sink_seen t (sink_sequence r) = false -> sink_record t r = Some t' ->
    sink_seen t' k = (k =? sink_sequence r) || sink_seen t k;
}.

(** What happens to one POST. *)
Inductive delivery := delivered | request_lost | response_lost | refused.

Section protocol.
Context {report table : Type} `{SinkLaws report table}.

Record outbox := { ob_sequence : Z; ob_pending : option report }.

(** postJSON: the tables after it, and whether it returned no error. *)
Definition post (t : table) (d : delivery) (r : report) : table * bool :=
  match d with
  | delivered => match sink_record t r with Some t' => (t', true) | None => (t, false) end
  | request_lost | refused => (t, false)
  | response_lost => (default t (sink_record t r), false)
  end.

(** Post the staged report, forget it when the server acknowledged it. *)
Definition flush (ob : outbox) (t : table) (d : delivery) : outbox * table * bool :=
  match ob_pending ob with
  | None => (ob, t, true)
  | Some r =>
      let (t, ok) := post t d r in
      if ok then ({| ob_sequence := ob_sequence ob; ob_pending := None |}, t, true)
      else (ob, t, false)
  end.

(** Stage a report under the next sequence number. *)
Definition stage (ob : outbox) (r : report) : outbox :=
  {| ob_sequence := ob_sequence ob + 1; ob_pending := Some r |}.

(** ** The specification: every staged report takes effect once, in order *)
Inductive applies : table -> list report -> table -> Prop :=
| applies_nil t : applies t [] t
| applies_snoc t l t1 r t2 :
    applies t l t1 -> sink_own r = true -> sink_seen t1 (sink_sequence r) = false -> sink_record t1 r = Some t2 ->
    applies t (l ++ [r]) t2.

(** Consecutive sequence numbers. *)
Definition numbered (l : list report) : Prop :=
  forall i r, l !! i = Some r -> sink_sequence r = Z.of_nat i + 1.

(** [staged] is the history of staged reports. *)
Record synced (t0 : table) (ob : outbox) (t : table) (staged : list report) : Prop := {
  sy_sequence : ob_sequence ob = Z.of_nat (length staged);
  sy_numbered : numbered staged;
  sy_own : Forall (fun r => sink_own r = true) staged;
  sy_applied :
    match ob_pending ob with
    | None => applies t0 staged t
    | Some r => exists before, staged = before ++ [r] /\ (applies t0 before t \/ applies t0 staged t)
    end;
}.

Lemma applies_seen t0 l t k :
  (forall k, sink_seen t0 k = false) -> applies t0 l t ->
  sink_seen t k = true <-> k ∈ sink_sequence <$> l.
Proof.
  intros Hz Ha. induction Ha as [t|t l t1 r t2 Ha IH Ho Hns Hr].
  - rewrite Hz. set_solver.
  - rewrite (sink_fresh _ _ _ k Ho Hns Hr), orb_true_iff, Z.eqb_eq, IH by done.
    rewrite fmap_app, elem_of_app. simpl. rewrite list_elem_of_singleton. tauto.
Qed.

Lemma numbered_app l r : numbered l -> sink_sequence r = Z.of_nat (length l) + 1 -> numbered (l ++ [r]).
Proof.
  intros Hl Hr i x Hx. apply lookup_app_Some in Hx as [Hx|[Hlen Hx]]; [by apply Hl|].
  apply list_lookup_singleton_Some in Hx as [Hi <-]. rewrite Hr. lia.
Qed.

Lemma numbered_fresh t0 before r t :
  (forall k, sink_seen t0 k = false) -> numbered (before ++ [r]) -> applies t0 before t ->
  sink_seen t (sink_sequence r) = false.
Proof.
  intros Hz Hn Ha. destruct (sink_seen t (sink_sequence r)) eqn:E; [|done]. exfalso.
  apply (applies_seen _ _ _ _ Hz Ha) in E. apply list_elem_of_fmap in E as (x & Hx & Hin).
  apply list_elem_of_lookup in Hin as [i Hi].
  assert (Hr : (before ++ [r]) !! length before = Some r) by (by rewrite list_lookup_middle).
  assert (Hx' : (before ++ [r]) !! i = Some x) by (by apply lookup_app_l_Some).
  apply Hn in Hr, Hx'. apply lookup_lt_Some in Hi. lia.
Qed.

Lemma synced_init t0 : synced t0 {| ob_sequence := 0; ob_pending := None |} t0 [].
Proof. split; [done|by intros i r|constructor|constructor]. Qed.

Lemma synced_flush t0 ob t staged d ob' t' ok :
  (forall k, sink_seen t0 k = false) -> synced t0 ob t staged -> flush ob t d = (ob', t', ok) ->
  synced t0 ob' t' staged /\ (ok = true -> ob_pending ob' = None).
Proof.
  intros Hz [Hs Hn Hown Ha]. unfold flush. destruct (ob_pending ob) as [r|] eqn:Ep.
  2:{ intros [= <- <- <-]. split; [|done]. split; [done..|]. by rewrite Ep. }
  destruct Ha as (before & -> & Ha).
  assert (Ho : sink_own r = true) by (apply Forall_app in Hown as [_ Hown]; by inversion Hown).
  assert (Hrec : forall t1, sink_record t r = Some t1 -> applies t0 (before ++ [r]) t1).
  { intros t1 Hr. destruct Ha as [Ha|Ha].
    - eapply applies_snoc; [exact Ha|exact Ho| |exact Hr]. by eapply numbered_fresh.
    - assert (Hseen : sink_seen t (sink_sequence r) = true).
      { apply (applies_seen _ _ _ _ Hz Ha). rewrite fmap_app, elem_of_app. right. by left. }
      rewrite (sink_replay _ _ Ho Hseen) in Hr. by injection Hr as <-. }
  assert (Hkeep : forall t1, applies t0 before t1 \/ applies t0 (before ++ [r]) t1 ->
                  synced t0 ob t1 (before ++ [r])).
  { intros t1 Ht1. split; [done..|]. rewrite Ep. eauto. }
  unfold post. destruct d.
  - destruct (sink_record t r) as [t1|] eqn:Er; intros [= <- <- <-].
    + split; [|done]. split; [done..|]. simpl. by apply Hrec.
    + split; [by apply Hkeep|done].
  - intros [= <- <- <-]. split; [by apply Hkeep|done].
  - intros [= <- <- <-]. split; [|done]. apply Hkeep. destruct (sink_record t r) as [t1|] eqn:Er; simpl; auto.
  - intros [= <- <- <-]. split; [by apply Hkeep|done].
Qed.

Lemma synced_stage t0 ob t staged r :
  synced t0 ob t staged -> ob_pending ob = None -> sink_own r = true -> sink_sequence r = ob_sequence ob + 1 ->
  synced t0 (stage ob r) t (staged ++ [r]).
Proof.
  intros [Hs Hn Hown Ha] Hp Ho Hr. rewrite Hp in Ha. split; simpl.
  - rewrite length_app. simpl. lia.
  - apply numbered_app; [done|lia].
  - apply Forall_app. split; [done|by constructor].
  - exists staged. auto.
Qed.
End protocol.
Arguments outbox report : clear implicits.
