(* ===== verification/Traffic.v ===== *)
(** * Traffic metering: the agent's counters and the server's ledger

    [ReportTraffic] of [src/internal/agent/agent.go] reads sing-box's V2Ray
    counters, turns them into deltas and stages them in a report;
    [RecordTrafficReport] of [src/internal/server/db/traffic.go] books a report
    once.  Together they meter exactly the growth of the counters, whatever
    happens to the requests (a crash of the agent between two writes of its
    state is the same as losing the request or the response of the post). *)
From Stdlib Require Import Floats.SpecFloat.
From S2P Require Import Prelude GoStrings Reporting.

#[local] Open Scope Z_scope.

Record TrafficDelta := {
  td_AuthName : string; td_Direction : string; td_RawBytesDelta : Z;
  td_CounterValue : Z; td_CounterEpoch : Z; td_ObservedAt : string
}.
Record TrafficReport := {
  tr_Sequence : Z; tr_AgentBootID : string; tr_ReportedAt : string; tr_Deltas : list TrafficDelta
}.

(** ** parseUserTrafficStat *)
(** strings.Split(name, ">>>") *)
Fixpoint split_arrow (l : bytes) : list bytes :=
  match l with
  | [] => [[]]
  | c :: r =>
      match l with
      | ">"%char :: ">"%char :: ">"%char :: rest => [] :: split_arrow rest
      | _ => match split_arrow r with p :: ps => (c :: p) :: ps | [] => [[c]] end
      end
  end.
Definition parseUserTrafficStat (name : string) : option (string * string) :=
  match map of_bytes (split_arrow (to_bytes name)) with
  | [p0; p1; p2; p3] =>
      if negb (p0 =? "user")%string || negb (p2 =? "traffic")%string then None
      else if negb (p3 =? "uplink")%string && negb (p3 =? "downlink")%string then None
      else Some (p1, p3)
  | _ => None
  end.

(** ** The agent *)
Record State := {
  BootID : string;
  LastCounters : gmap string Z;
  CounterEpoch : gmap string Z;
  Outbox : outbox TrafficReport   (* Sequence and PendingTraffic *)
}.

Definition count_stat (now : string) (acc : gmap string Z * gmap string Z * list TrafficDelta)
    (stat : string * Z) : gmap string Z * gmap string Z * list TrafficDelta :=
  let '(counters, epochs, deltas) := acc in
  let '(name, value) := stat in
  match parseUserTrafficStat name with
  | None => acc
  | Some (authName, direction) =>
      let previous := default 0 (counters !! name) in
      let epoch := default 0 (epochs !! name) in
      let delta := wrap64 (value - previous) in
      let '(epoch, delta) := if delta <? 0 then (wrap64 (epoch + 1), value) else (epoch, delta) in
      let counters := <[name := value]> counters in
      let epochs := <[name := epoch]> epochs in
      if delta <=? 0 then (counters, epochs, deltas)
      else (counters, epochs, deltas ++
              [{| td_AuthName := authName; td_Direction := direction; td_RawBytesDelta := delta;
                  td_CounterValue := value; td_CounterEpoch := epoch; td_ObservedAt := now |}])
  end.

Definition with_outbox (st : State) (ob : outbox TrafficReport) : State :=
  {| BootID := BootID st; LastCounters := LastCounters st; CounterEpoch := CounterEpoch st; Outbox := ob |}.

(** From the query of the counters to the staging of the report. *)
Definition stage_traffic (st : State) (now : string) (stats : list (string * Z)) : State * list TrafficDelta :=
  let '(counters, epochs, deltas) :=
    foldl (count_stat now) (LastCounters st, CounterEpoch st, []) stats in
  let st := {| BootID := BootID st; LastCounters := counters; CounterEpoch := epochs; Outbox := Outbox st |} in
  match deltas with
  | [] => (st, [])
  | _ => (with_outbox st (stage (Outbox st)
            {| tr_Sequence := ob_sequence (Outbox st) + 1; tr_AgentBootID := BootID st;
               tr_ReportedAt := now; tr_Deltas := deltas |}), deltas)
  end.

(** ** The server *)
(** A float64 is a [spec_float] of precision 53 and exponent bound 1024. *)
Definition float64_of_int (z : Z) : spec_float := binary_normalize 53 1024 z 0 false.
Definition float64_mul (x y : spec_float) : spec_float := SFmul 53 1024 x y.
(** int64(math.Ceil(x)); out of range, Go leaves the result to the machine:
    the value of amd64. *)
Definition int64_ceil (x : spec_float) : Z :=
  match x with
  | S754_zero _ => 0
  | S754_finite s m e =>
      let v := if s then - Z.pos m else Z.pos m in
      let z := if 0 <=? e then v * 2 ^ e else - ((- v) / 2 ^ (- e)) in
      if (int64_min <=? z) && (z <=? int64_max) then z else int64_min
  | _ => int64_min
  end.
(** int64(math.Ceil(float64(raw) * multiplier)) *)
Definition billable (raw : Z) (multiplier : spec_float) : Z :=
  int64_ceil (float64_mul (float64_of_int raw) multiplier).

Record credential := { cr_ProxyUserID : string; cr_Multiplier : spec_float }.
Record usage_row := {
  ur_report : string * string * Z; ur_user : string; ur_AuthName : string; ur_Direction : string;
  ur_raw : Z; ur_billable : Z
}.
Record traffic_tables := {
  (* UNIQUE (node_id, agent_boot_id, sequence) *)
  traffic_reports : gset (string * string * Z);
  traffic_usage_deltas : list usage_row;
  traffic_usage_totals : gmap (string * string) (Z * Z)
}.

Section server.
(** The answers of GetTrafficCredentialByNodeAuthName for the node. *)
Variable credentials : string -> option credential.
Variable node : string.

Definition UpsertTrafficUsageTotal (m : gmap (string * string) (Z * Z)) (user direction : string)
    (raw bill : Z) : gmap (string * string) (Z * Z) :=
  let '(r, b) := default (0, 0) (m !! (user, direction)) in
  <[(user, direction) := (r + raw, b + bill)]> m.

(** One delta of a report; [None] is the error that aborts the transaction. *)
Definition book_delta (key : string * string * Z) (t : traffic_tables) (delta : TrafficDelta)
    : option traffic_tables :=
  if td_RawBytesDelta delta <=? 0 then Some t
  else if negb (td_Direction delta =? "uplink")%string && negb (td_Direction delta =? "downlink")%string
  then None
  else match credentials (td_AuthName delta) with
       | None => Some t
       | Some c =>
           let bill := billable (td_RawBytesDelta delta) (cr_Multiplier c) in
           Some {| traffic_reports := traffic_reports t;
                   traffic_usage_deltas := traffic_usage_deltas t ++
                     [{| ur_report := key; ur_user := cr_ProxyUserID c; ur_AuthName := td_AuthName delta;
                         ur_Direction := td_Direction delta; ur_raw := td_RawBytesDelta delta;
                         ur_billable := bill |}];
                   traffic_usage_totals := UpsertTrafficUsageTotal (traffic_usage_totals t)
                     (cr_ProxyUserID c) (td_Direction delta) (td_RawBytesDelta delta) bill |}
       end.

Fixpoint book_deltas (key : string * string * Z) (t : traffic_tables) (deltas : list TrafficDelta)
    : option traffic_tables :=
  match deltas with
  | [] => Some t
  | d :: ds => match book_delta key t d with Some t => book_deltas key t ds | None => None end
  end.

Definition RecordTrafficReport (t : traffic_tables) (report : TrafficReport) : option traffic_tables :=
  let key := (node, tr_AgentBootID report, tr_Sequence report) in
  if bool_decide (key ∈ traffic_reports t) then Some t
  else book_deltas key
         {| traffic_reports := traffic_reports t ∪ {[key]};
            traffic_usage_deltas := traffic_usage_deltas t;
            traffic_usage_totals := traffic_usage_totals t |}
         (tr_Deltas report).

(** The reports of one agent run form a [Sink]. *)
Definition traffic_sink (boot : string) : Sink TrafficReport traffic_tables := {|
  sink_own r := (tr_AgentBootID r =? boot)%string;
  sink_sequence := tr_Sequence;
  sink_seen t k := bool_decide ((node, boot, k) ∈ traffic_reports t);
  sink_record := RecordTrafficReport
|}.

(** ** One reporting cycle *)
(** [stats]: the answer of sing-box, [None] when the query failed.  Returns the
    saved state, the server's tables and whether the error is nil. *)
Definition ReportTraffic (st : State) (t : traffic_tables) (now : string)
    (stats : option (list (string * Z))) (first second : delivery) : State * traffic_tables * bool :=
  let S := traffic_sink (BootID st) in
  let '(ob, t, ok) := flush (Outbox st) t first in
  let st := with_outbox st ob in
  if negb ok then (st, t, false)
  else match stats with
       | None => (st, t, false)
       | Some stats =>
           let (st, deltas) := stage_traffic st now stats in
           match deltas with
           | [] => (st, t, true)
           | _ => let '(ob, t, ok) := flush (Outbox st) t second in (with_outbox st ob, t, ok)
           end
       end.

Record cycle := {
  cy_now : string; cy_stats : option (list (string * Z)); cy_first : delivery; cy_second : delivery
}.
(** The counters a cycle reads: none while the staged report is stuck. *)
Definition cycle_reads (st : State) (t : traffic_tables) (c : cycle) : list (string * Z) :=
  let S := traffic_sink (BootID st) in
  let '(_, _, ok) := flush (Outbox st) t (cy_first c) in
  if ok then default [] (cy_stats c) else [].

(** Any number of cycles, with the counters they read and the last result. *)
Fixpoint metering (st : State) (t : traffic_tables) (cs : list cycle)
    : State * traffic_tables * list (string * Z) * bool :=
  match cs with
  | [] => (st, t, [], true)
  | c :: cs =>
      let '(st', t', ok) := ReportTraffic st t (cy_now c) (cy_stats c) (cy_first c) (cy_second c) in
      let '(st2, t2, obs, ok2) := metering st' t' cs in
      (st2, t2, cycle_reads st t c ++ obs, if cs is [] then ok else ok2)
  end.
End server.

(** ** What a counter has grown by *)
Fixpoint growth (name : string) (previous : Z) (observed : list (string * Z)) : Z :=
  match observed with
  | [] => 0
  | (n, v) :: r =>
      if (n =? name)%string then (if v <? previous then v else v - previous) + growth name v r
      else growth name previous r
  end.
Fixpoint last_value (name : string) (previous : Z) (observed : list (string * Z)) : Z :=
  match observed with
  | [] => previous
  | (n, v) :: r => last_value name (if (n =? name)%string then v else previous) r
  end.

(** Bytes of a direction of a credential in a list of deltas, and in the rows
    the server keeps. *)
Definition delta_bytes (auth dir : string) (ds : list TrafficDelta) : Z :=
  foldr (fun d n => (if (td_AuthName d =? auth)%string && (td_Direction d =? dir)%string
                     then td_RawBytesDelta d else 0) + n) 0 ds.
Definition report_bytes (auth dir : string) (rs : list TrafficReport) : Z :=
  foldr (fun r n => delta_bytes auth dir (tr_Deltas r) + n) 0 rs.
Definition row_bytes (auth dir : string) (rows : list usage_row) : Z :=
  foldr (fun d n => (if (ur_AuthName d =? auth)%string && (ur_Direction d =? dir)%string
                     then ur_raw d else 0) + n) 0 rows.
Definition user_sum (f : usage_row -> Z) (user dir : string) (rows : list usage_row) : Z :=
  foldr (fun d n => (if (ur_user d =? user)%string && (ur_Direction d =? dir)%string
                     then f d else 0) + n) 0 rows.
Definition booked (t : traffic_tables) (auth dir : string) : Z := row_bytes auth dir (traffic_usage_deltas t).
Definition staged_bytes (st : State) (auth dir : string) : Z :=
  match ob_pending (Outbox st) with Some r => delta_bytes auth dir (tr_Deltas r) | None => 0 end.

(** ** parseUserTrafficStat reads a name back exactly *)
Definition stat_name (auth dir : string) : string := ("user>>>" ++ auth ++ ">>>traffic>>>" ++ dir)%string.

Fixpoint join_arrow (ps : list bytes) : bytes :=
  match ps with
  | [] => []
  | [p] => p
  | p :: ps => p ++ [">"%char; ">"%char; ">"%char] ++ join_arrow ps
  end.
Lemma split_arrow_cases c r :
  (exists rest, c :: r = [">"%char; ">"%char; ">"%char] ++ rest /\ split_arrow (c :: r) = [] :: split_arrow rest)
  \/ split_arrow (c :: r) = match split_arrow r with p :: ps => (c :: p) :: ps | [] => [[c]] end.
Proof.
  destruct c as [[] [] [] [] [] [] [] []]; try (right; reflexivity).
  destruct r as [|c2 [|c3 r]]; try (right; reflexivity).
  - destruct c2 as [[] [] [] [] [] [] [] []]; right; reflexivity.
  - destruct c2 as [[] [] [] [] [] [] [] []]; try (right; reflexivity).
    destruct c3 as [[] [] [] [] [] [] [] []]; try (right; reflexivity).
    left. exists r. split; reflexivity.
Qed.
Lemma join_split_arrow l : split_arrow l <> [] /\ join_arrow (split_arrow l) = l.
Proof.
  remember (length l) as n eqn:Hn. revert l Hn.
  induction n as [n IH] using (well_founded_induction lt_wf). intros [|c r] ->; [done|].
  destruct (split_arrow_cases c r) as [(rest & Hl & ->)| ->].
  - destruct (IH (length rest)) with (l := rest) as [Hne Hj]; [rewrite Hl; simpl; lia|done|].
    split; [done|]. rewrite Hl. destruct (split_arrow rest) as [|p ps]; [done|].
    transitivity ([">"%char; ">"%char; ">"%char] ++ join_arrow (p :: ps)); [reflexivity|]. by rewrite Hj.
  - destruct (IH (length r)) with (l := r) as [Hne Hj]; [simpl; lia|done|].
    destruct (split_arrow r) as [|p [|p2 ps]]; [done| |]; (split; [done|]).
    + simpl in *. by rewrite Hj.
    + simpl in *. by rewrite Hj.
Qed.
Lemma parse_stat_inv name a d :
  parseUserTrafficStat name = Some (a, d) -> name = stat_name a d /\ (d = "uplink" \/ d = "downlink")%string.
Proof.
  unfold parseUserTrafficStat. destruct (join_split_arrow (to_bytes name)) as [_ Hj].
  destruct (split_arrow (to_bytes name)) as [|b0 [|b1 [|b2 [|b3 [|]]]]]; try (intros Hx; discriminate Hx).
  cbn [map join_arrow] in *.
  destruct (of_bytes b0 =? "user")%string eqn:E0; [|intros Hx; discriminate Hx].
  destruct (of_bytes b2 =? "traffic")%string eqn:E2; [|intros Hx; discriminate Hx].
  apply String.eqb_eq in E0, E2. cbn [negb orb]. intros Hx.
  assert (Hd : (of_bytes b3 = "uplink" \/ of_bytes b3 = "downlink")%string /\ a = of_bytes b1 /\ d = of_bytes b3).
  { destruct (of_bytes b3 =? "uplink")%string eqn:E3, (of_bytes b3 =? "downlink")%string eqn:E4;
      cbn [negb andb] in Hx; try discriminate Hx; injection Hx as <- <-;
      rewrite ?String.eqb_eq in E3; rewrite ?String.eqb_eq in E4; auto. }
  destruct Hd as (Hd & -> & ->). split; [|exact Hd].
  rewrite <- (of_to_bytes name), <- Hj, !of_bytes_app, E0, E2. reflexivity.
Qed.

(** ** Counting *)
Lemma delta_bytes_app a d l1 l2 : delta_bytes a d (l1 ++ l2) = delta_bytes a d l1 + delta_bytes a d l2.
Proof. induction l1 as [|x l1 IH]; simpl; [lia|]. rewrite IH. lia. Qed.
Lemma report_bytes_app a d l1 l2 : report_bytes a d (l1 ++ l2) = report_bytes a d l1 + report_bytes a d l2.
Proof. induction l1 as [|x l1 IH]; simpl; [lia|]. rewrite IH. lia. Qed.
Lemma row_bytes_app a d l1 l2 : row_bytes a d (l1 ++ l2) = row_bytes a d l1 + row_bytes a d l2.
Proof. induction l1 as [|x l1 IH]; simpl; [lia|]. rewrite IH. lia. Qed.
Lemma user_sum_snoc f u d l x :
  user_sum f u d (l ++ [x]) =
  user_sum f u d l + (if (ur_user x =? u)%string && (ur_Direction x =? d)%string then f x else 0).
Proof. induction l as [|y l IH]; simpl; [lia|]. rewrite IH. lia. Qed.
Lemma growth_app n p l1 l2 :
  growth n p (l1 ++ l2) = growth n p l1 + growth n (last_value n p l1) l2.
Proof.
  revert p. induction l1 as [|[m v] l1 IH]; intros p; simpl; [done|].
  destruct (m =? n)%string; rewrite IH; lia.
Qed.

(** A delta the server accepts. *)
Definition good_delta (x : TrafficDelta) : Prop :=
  0 < td_RawBytesDelta x /\ (td_Direction x = "uplink" \/ td_Direction x = "downlink")%string.
Definition counter_value (v : Z) : Prop := 0 <= v < 2 ^ 63.
Definition good_counters (m : gmap string Z) : Prop := map_Forall (fun _ v => counter_value v) m.
Lemma good_counter m n : good_counters m -> counter_value (default 0 (m !! n)).
Proof. intros Hm. destruct (m !! n) eqn:E; simpl; [by eapply Hm|by split]. Qed.

(** What [foldl count_stat] does to one counter. *)
Lemma count_stat_spec now cs es ds m v cs' es' ds' name a d :
  good_counters cs -> counter_value v -> Forall good_delta ds ->
  count_stat now (cs, es, ds) (m, v) = (cs', es', ds') -> parseUserTrafficStat name = Some (a, d) ->
  good_counters cs' /\ Forall good_delta ds' /\
  default 0 (cs' !! name) = last_value name (default 0 (cs !! name)) [(m, v)] /\
  delta_bytes a d ds' = delta_bytes a d ds + growth name (default 0 (cs !! name)) [(m, v)].
Proof.
  intros Hc Hv Hds. unfold count_stat. cbn [growth last_value].
  destruct (parseUserTrafficStat m) as [[a' d']|] eqn:Em.
  2:{ intros Hx Hn. injection Hx as <- <- <-. destruct (m =? name)%string eqn:Emn.
      - apply String.eqb_eq in Emn as ->. rewrite Em in Hn. discriminate Hn.
      - split_and!; [done..|lia]. }
  intros Hx Hn. pose proof (good_counter cs m Hc) as Hp. unfold counter_value in *.
  set (p := default 0 (cs !! m)) in *.
  assert (Hw : wrap64 (v - p) = v - p) by (apply wrap64_id; unfold int64_ok, int64_min, int64_max; lia). rewrite Hw in Hx.
  assert (Hnew : good_counters (<[m := v]> cs)) by (by apply map_Forall_insert_2).
  destruct (parse_stat_inv _ _ _ Em) as [Hma Hdir].
  set (delta := if v <? p then v else v - p).
  assert (Hcase : cs' = <[m := v]> cs /\
    ((delta <= 0 /\ ds' = ds) \/
     (0 < delta /\ exists e, ds' = ds ++ [{| td_AuthName := a'; td_Direction := d'; td_RawBytesDelta := delta;
        td_CounterValue := v; td_CounterEpoch := e; td_ObservedAt := now |}]))).
  { subst delta. destruct (v - p <? 0) eqn:E1.
    - replace (v <? p) with true by lia. destruct (v <=? 0) eqn:E2; injection Hx as <- <- <-; (split; [done|]).
      + left. split; [lia|done].
      + right. split; [lia|]. by eexists.
    - replace (v <? p) with false by lia. destruct (v - p <=? 0) eqn:E2; injection Hx as <- <- <-; (split; [done|]).
      + left. split; [lia|done].
      + right. split; [lia|]. by eexists. }
  destruct Hcase as [-> Hcase]. clear Hx. split; [done|].
  assert (Hds' : Forall good_delta ds').
  { destruct Hcase as [[_ ->]|(Hpos & e & ->)]; [done|]. apply Forall_app. split; [done|].
    constructor; [|constructor]. by split. }
  split; [done|].
  destruct (m =? name)%string eqn:Emn.
  - apply String.eqb_eq in Emn as ->. rewrite Hn in Em. injection Em as <- <-.
    rewrite lookup_insert. fold p. fold delta. rewrite decide_True by done. split; [done|].
    assert (0 <= delta) by (subst delta; destruct (v <? p) eqn:?; lia).
    destruct Hcase as [[Hle ->]|(Hpos & e & ->)]; [lia|].
    rewrite delta_bytes_app. simpl. rewrite !String.eqb_refl. simpl. lia.
  - apply String.eqb_neq in Emn. rewrite lookup_insert_ne by done. split; [done|].
    destruct Hcase as [[Hle ->]|(Hpos & e & ->)]; [lia|].
    rewrite delta_bytes_app. simpl.
    destruct (a' =? a)%string eqn:Ea, (d' =? d)%string eqn:Ed; cbn [andb]; try lia.
    apply String.eqb_eq in Ea as ->, Ed as ->. destruct (parse_stat_inv _ _ _ Hn) as [Hna _]. congruence.
Qed.
Lemma count_stats_spec now stats cs es ds cs' es' ds' name a d :
  good_counters cs -> Forall (fun s => counter_value s.2) stats -> Forall good_delta ds ->
  foldl (count_stat now) (cs, es, ds) stats = (cs', es', ds') -> parseUserTrafficStat name = Some (a, d) ->
  good_counters cs' /\ Forall good_delta ds' /\
  default 0 (cs' !! name) = last_value name (default 0 (cs !! name)) stats /\
  delta_bytes a d ds' = delta_bytes a d ds + growth name (default 0 (cs !! name)) stats.
Proof.
  intros Hc Hs Hds Hf Hn. revert cs es ds Hc Hds Hf.
  induction Hs as [|[m v] stats Hv Hs IH]; intros cs es ds Hc Hds Hf; cbn [foldl] in Hf.
  - injection Hf as <- <- <-. simpl. split_and!; [done..|lia].
  - destruct (count_stat now (cs, es, ds) (m, v)) as [[cs1 es1] ds1] eqn:E1.
    destruct (count_stat_spec _ _ _ _ _ _ _ _ _ _ _ _ Hc Hv Hds E1 Hn) as (Hc1 & Hd1 & Hl1 & Hb1).
    destruct (IH _ _ _ Hc1 Hd1 Hf) as (Hc2 & Hd2 & Hl2 & Hb2). split; [done|]. split; [done|].
    rewrite Hl2, Hb2, Hb1, Hl1. split; [done|].
    rewrite <- Z.add_assoc. f_equal. symmetry. apply (growth_app name _ [(m, v)] stats).
Qed.

(** ** The server books a report once *)
Section booking.
Context (credentials : string -> option credential) (node : string).
Abbreviation book_deltas := (book_deltas credentials).
Abbreviation RecordTrafficReport := (RecordTrafficReport credentials node).
Abbreviation traffic_sink := (traffic_sink credentials node).
Abbreviation ReportTraffic := (ReportTraffic credentials node).
Abbreviation metering := (metering credentials node).
Abbreviation cycle_reads := (cycle_reads credentials node).

Lemma book_deltas_reports key ds t t' : book_deltas key t ds = Some t' -> traffic_reports t' = traffic_reports t.
Proof.
  revert t. induction ds as [|x ds IH]; intros t; cbn [Traffic.book_deltas]; [by intros [= ->]|].
  destruct (book_delta credentials key t x) as [t1|] eqn:E1; [|intros Hx; discriminate Hx].
  intros Hb. rewrite (IH _ Hb). revert E1. unfold book_delta.
  repeat case_match; intros Hx; try discriminate Hx; by injection Hx as <-.
Qed.
#[local] Instance traffic_sink_laws boot : @SinkLaws _ _ (traffic_sink boot).
Proof.
  split; cbn [sink_own sink_sequence sink_seen sink_record Traffic.traffic_sink]; unfold Traffic.RecordTrafficReport.
  - intros t r Ho Hseen. apply String.eqb_eq in Ho as ->. apply bool_decide_eq_true in Hseen.
    by rewrite bool_decide_true.
  - intros t r t' k Ho Hseen. apply String.eqb_eq in Ho as ->. apply bool_decide_eq_false in Hseen.
    rewrite bool_decide_false by done. intros Hb. apply book_deltas_reports in Hb. rewrite Hb.
    cbn [traffic_reports]. destruct (decide (k = tr_Sequence r)) as [->|Hne].
    + rewrite Z.eqb_refl. apply bool_decide_eq_true. set_solver.
    + replace (k =? tr_Sequence r) with false by lia. cbn [orb]. apply bool_decide_ext. set_solver.
Qed.

Lemma book_deltas_good key ds t a d c :
  Forall good_delta ds -> credentials a = Some c ->
  exists t', book_deltas key t ds = Some t' /\ booked t' a d = booked t a d + delta_bytes a d ds.
Proof.
  intros Hg Hc. revert t. induction Hg as [|x ds [Hpos Hdir] Hg IH]; intros t; cbn [Traffic.book_deltas].
  - exists t. split; [done|]. simpl. lia.
  - unfold book_delta. replace (td_RawBytesDelta x <=? 0) with false by lia.
    replace (negb _ && negb _) with false by (destruct Hdir as [-> | ->]; reflexivity).
    destruct (credentials (td_AuthName x)) as [c'|] eqn:Ec.
    + match goal with |- exists t', book_deltas key ?T ds = _ /\ _ => destruct (IH T) as (t' & -> & Hb) end.
      exists t'. split; [done|]. rewrite Hb. unfold booked. cbn [traffic_usage_deltas].
      rewrite row_bytes_app. simpl. lia.
    + destruct (IH t) as (t' & -> & Hb). exists t'. split; [done|]. rewrite Hb. simpl.
      destruct (td_AuthName x =? a)%string eqn:Ea; [|simpl; lia].
      apply String.eqb_eq in Ea. congruence.
Qed.
Lemma applies_booked boot t0 l t a d c :
  @applies _ _ (traffic_sink boot) t0 l t -> Forall (fun r => Forall good_delta (tr_Deltas r)) l ->
  credentials a = Some c -> booked t a d = booked t0 a d + report_bytes a d l.
Proof.
  intros Ha Hg Hc. induction Ha as [t|t l t1 r t2 Ha IH Ho Hns Hr]; [simpl; lia|].
  apply Forall_app in Hg as [Hg Hr']. apply Forall_cons in Hr' as [Hr' _].
  rewrite report_bytes_app. cbn [report_bytes foldr].
  cbn [sink_own sink_seen sink_record Traffic.traffic_sink sink_sequence] in *.
  apply String.eqb_eq in Ho as <-. unfold Traffic.RecordTrafficReport in Hr. rewrite Hns in Hr.
  match type of Hr with book_deltas ?k ?T ?ds = _ =>
    destruct (book_deltas_good k ds T a d c Hr' Hc) as (t' & Ht' & Hb) end.
  rewrite Hr in Ht'. injection Ht' as <-. rewrite Hb. unfold booked at 1. cbn [traffic_usage_deltas].
  change (row_bytes a d (traffic_usage_deltas t1)) with (booked t1 a d). rewrite IH by done. lia.
Qed.

(** *** What holds between the agent, the server and the counters read *)
Record metered (boot : string) (t0 : traffic_tables) (name a d : string) (start : Z) (st : State)
    (t : traffic_tables) (obs : list (string * Z)) (staged : list TrafficReport) : Prop := {
  me_boot : BootID st = boot;
  me_synced : @synced _ _ (traffic_sink boot) t0 (Outbox st) t staged;
  me_good : Forall (fun r => Forall good_delta (tr_Deltas r)) staged;
  me_counters : good_counters (LastCounters st);
  me_last : default 0 (LastCounters st !! name) = last_value name start obs;
  me_bytes : report_bytes a d staged = growth name start obs;
}.
Lemma last_value_app n p l1 l2 : last_value n p (l1 ++ l2) = last_value n (last_value n p l1) l2.
Proof. revert p. induction l1 as [|[m v] l1 IH]; intros p; simpl; [done|]. by rewrite IH. Qed.

Lemma metered_flush boot t0 name a d start st t obs staged dl ob' t' ok :
  (forall k, (node, boot, k) ∉ traffic_reports t0) ->
  metered boot t0 name a d start st t obs staged ->
  @flush _ _ (traffic_sink boot) (Outbox st) t dl = (ob', t', ok) ->
  metered boot t0 name a d start (with_outbox st ob') t' obs staged /\ (ok = true -> ob_pending ob' = None).
Proof.
  intros H0 [Hb Hs Hg Hc Hl Hby] Hf.
  destruct (@synced_flush _ _ (traffic_sink boot) _ t0 (Outbox st) t staged dl ob' t' ok) as [Hs' Hok]; [|done..|].
  { intros k. apply bool_decide_eq_false. apply H0. }
  by split.
Qed.
Lemma metered_stage boot t0 name a d start st t obs staged now stats st' ds :
  parseUserTrafficStat name = Some (a, d) -> Forall (fun s => counter_value s.2) stats ->
  ob_pending (Outbox st) = None -> metered boot t0 name a d start st t obs staged ->
  stage_traffic st now stats = (st', ds) ->
  exists staged', metered boot t0 name a d start st' t (obs ++ stats) staged'.
Proof.
  intros Hn Hv Hp [Hb Hs Hg Hc Hl Hby]. unfold stage_traffic.
  destruct (foldl (count_stat now) (LastCounters st, CounterEpoch st, []) stats) as [[cs es] deltas] eqn:Ef.
  destruct (count_stats_spec _ _ _ _ _ _ _ _ _ _ _ Hc Hv (Forall_nil_2 _) Ef Hn) as (Hc' & Hd' & Hl' & Hb').
  rewrite Hl in Hl', Hb'. cbn [delta_bytes foldr] in Hb'.
  intros Hx. destruct deltas as [|x deltas]; injection Hx as <- <-.
  - exists staged. split; cbn [BootID LastCounters Outbox]; [done..| |].
    + by rewrite last_value_app.
    + rewrite growth_app, Hby. cbn [delta_bytes foldr] in Hb'. lia.
  - eexists (staged ++ [_]). split; cbn [BootID LastCounters Outbox with_outbox]; [done| |  |done| |].
    + apply synced_stage; [done..| |].
      * cbn [sink_own Traffic.traffic_sink tr_AgentBootID]. rewrite Hb. apply String.eqb_refl.
      * done.
    + apply Forall_app. split; [done|]. constructor; [done|constructor].
    + by rewrite last_value_app.
    + rewrite growth_app, report_bytes_app, Hby. cbn [report_bytes foldr tr_Deltas]. lia.
Qed.
Lemma metered_cycle boot t0 name a d start st t obs staged now stats d1 d2 st' t' ok :
  (forall k, (node, boot, k) ∉ traffic_reports t0) ->
  parseUserTrafficStat name = Some (a, d) -> Forall (fun s => counter_value s.2) (default [] stats) ->
  metered boot t0 name a d start st t obs staged ->
  ReportTraffic st t now stats d1 d2 = (st', t', ok) ->
  (exists staged', metered boot t0 name a d start st' t'
     (obs ++ cycle_reads st t {| cy_now := now; cy_stats := stats; cy_first := d1; cy_second := d2 |}) staged')
  /\ (ok = true -> ob_pending (Outbox st') = None).
Proof.
  intros H0 Hn Hv Hm. unfold Traffic.ReportTraffic, Traffic.cycle_reads. cbn [cy_stats cy_first].
  rewrite (me_boot _ _ _ _ _ _ _ _ _ _ Hm).
  destruct (flush (Outbox st) t d1) as [[ob1 t1] ok1] eqn:Ef1.
  destruct (metered_flush _ _ _ _ _ _ _ _ _ _ _ _ _ _ H0 Hm Ef1) as [Hm1 Hok1].
  destruct ok1; cbn [negb].
  2:{ intros Hx. injection Hx as <- <- <-. rewrite app_nil_r. split; [by eexists|done]. }
  destruct stats as [stats|].
  2:{ intros Hx. injection Hx as <- <- <-. cbn [default]. rewrite app_nil_r. split; [by eexists|done]. }
  cbn [default] in *. destruct (stage_traffic (with_outbox st ob1) now stats) as [st2 ds] eqn:Es.
  destruct (metered_stage _ _ _ _ _ _ (with_outbox st ob1) _ _ _ _ _ _ _ Hn Hv (Hok1 eq_refl) Hm1 Es) as [staged' Hm2].
  destruct ds as [|x ds].
  - intros Hx. injection Hx as <- <- <-. split; [by eexists|]. intros _.
    unfold stage_traffic in Es. destruct (foldl _ _ _) as [[cs es] [|y ys]]; [|discriminate Es].
    injection Es as <-. exact (Hok1 eq_refl).
  - destruct (flush (Outbox st2) t1 d2) as [[ob3 t3] ok3] eqn:Ef2. intros Hx. injection Hx as <- <- <-.
    destruct (metered_flush _ _ _ _ _ _ _ _ _ _ _ _ _ _ H0 Hm2 Ef2) as [Hm3 Hok3].
    split; [by eexists|exact Hok3].
Qed.

Lemma metered_run boot t0 name a d start st t obs staged cs st' t' obs' ok :
  (forall k, (node, boot, k) ∉ traffic_reports t0) -> parseUserTrafficStat name = Some (a, d) ->
  Forall (fun c => Forall (fun s => counter_value s.2) (default [] (cy_stats c))) cs ->
  metered boot t0 name a d start st t obs staged ->
  metering st t cs = (st', t', obs', ok) ->
  (exists staged', metered boot t0 name a d start st' t' (obs ++ obs') staged') /\
  (cs <> [] -> ok = true -> ob_pending (Outbox st') = None).
Proof.
  intros H0 Hn Hv. revert st t obs staged st' t' obs' ok.
  induction Hv as [|[now stats d1 d2] cs Hc Hv IH]; intros st t obs staged st' t' obs' ok Hm Hr.
  - injection Hr as <- <- <- <-. rewrite app_nil_r. split; [by eexists|done].
  - cbn [Traffic.metering cy_now cy_stats cy_first cy_second] in Hr.
    destruct (ReportTraffic st t now stats d1 d2) as [[st1 t1] ok1] eqn:E1.
    destruct (metering st1 t1 cs) as [[[st2 t2] obs2] ok2] eqn:E2. injection Hr as <- <- <- <-.
    destruct (metered_cycle _ _ _ _ _ _ _ _ _ _ _ _ _ _ _ _ _ H0 Hn Hc Hm E1) as [[staged1 Hm1] Hp1].
    destruct (IH _ _ _ _ _ _ _ _ Hm1 E2) as [[staged2 Hm2] Hp2]. rewrite <- app_assoc in Hm2.
    split; [by eexists|]. intros _. destruct cs; [|by apply Hp2].
    injection E2 as <- <- <- <-. exact Hp1.
Qed.

(** C2: traffic is metered exactly once.  From the first run of an agent, after
    any number of reporting cycles, with requests and responses lost, refused
    or repeated at will: for every counter sing-box exposes, the bytes the
    server has booked for its credential and direction, plus those of the one
    report still staged and not yet taken in, are exactly what the counter has
    grown by over all the values the agent has read (a value below the previous
    one counting from zero); and nothing is outstanding when the last cycle
    returned no error. *)
Theorem traffic_metered_exactly st0 t0 cs st t obs ok name a d c :
  (forall k, (node, BootID st0, k) ∉ traffic_reports t0) ->
  Outbox st0 = {| ob_sequence := 0; ob_pending := None |} ->
  good_counters (LastCounters st0) ->
  Forall (fun cy => Forall (fun s => counter_value s.2) (default [] (cy_stats cy))) cs ->
  parseUserTrafficStat name = Some (a, d) -> credentials a = Some c ->
  metering st0 t0 cs = (st, t, obs, ok) ->
  exists outstanding,
    booked t a d + outstanding = booked t0 a d + growth name (default 0 (LastCounters st0 !! name)) obs /\
    (outstanding = 0 \/ outstanding = staged_bytes st a d) /\
    (ok = true -> outstanding = 0).
Proof.
  intros H0 Hob Hg Hv Hn Hc Hr. set (start := default 0 (LastCounters st0 !! name)).
  assert (Hm0 : metered (BootID st0) t0 name a d start st0 t0 [] []).
  { split; [done| |constructor|done..]. rewrite Hob. apply synced_init. }
  destruct (metered_run _ _ _ _ _ _ _ _ _ _ _ _ _ _ _ H0 Hn Hv Hm0 Hr) as [[staged [Hb Hs Hgd _ _ Hby]] Hok].
  cbn [app] in Hby. destruct Hs as [_ _ _ Ha]. unfold staged_bytes.
  assert (Hall : @applies _ _ (traffic_sink (BootID st0)) t0 staged t ->
                 booked t a d = booked t0 a d + growth name start obs).
  { intros Hap. by rewrite (applies_booked _ _ _ _ a d c Hap Hgd Hc), Hby. }
  destruct (ob_pending (Outbox st)) as [r|] eqn:Ep.
  - destruct Ha as (before & Hst & [Hap|Hap]).
    + exists (delta_bytes a d (tr_Deltas r)). split; [|split; [by right|]].
      * rewrite Hst in Hgd. apply Forall_app in Hgd as [Hgd _].
        rewrite (applies_booked _ _ _ _ a d c Hap Hgd Hc), <- Hby, Hst, report_bytes_app. simpl. lia.
      * intros ->. destruct cs as [|c0 cs]; [injection Hr as <- _ _; rewrite Hob in Ep; discriminate Ep|].
        discriminate (Hok ltac:(done) eq_refl).
    + exists 0. split; [rewrite Hall by done; lia|]. by auto.
  - exists 0. split; [rewrite Hall by done; lia|]. by auto.
Qed.

(** ** The running totals *)
Definition totals_agree (t : traffic_tables) : Prop :=
  forall u d, default (0, 0) (traffic_usage_totals t !! (u, d)) =
    (user_sum ur_raw u d (traffic_usage_deltas t), user_sum ur_billable u d (traffic_usage_deltas t)).
Lemma book_delta_totals key t x t' :
  totals_agree t -> book_delta credentials key t x = Some t' -> totals_agree t'.
Proof.
  intros Ht. unfold book_delta. destruct (td_RawBytesDelta x <=? 0); [by intros [= <-]|].
  destruct (negb (td_Direction x =? "uplink")%string && negb _); [intros Hx; discriminate Hx|].
  destruct (credentials (td_AuthName x)) as [c|]; intros Hx; injection Hx as <-; [|done].
  intros u d. cbn [traffic_usage_totals traffic_usage_deltas]. rewrite !user_sum_snoc. cbn [ur_user ur_Direction ur_raw ur_billable].
  unfold UpsertTrafficUsageTotal. pose proof (Ht u d) as Hu.
  pose proof (Ht (cr_ProxyUserID c) (td_Direction x)) as Hx.
  destruct (default (0, 0) (traffic_usage_totals t !! (cr_ProxyUserID c, td_Direction x))) as [r b].
  injection Hx as -> ->.
  destruct (cr_ProxyUserID c =? u)%string eqn:Eu, (td_Direction x =? d)%string eqn:Ed; cbn [andb].
  - apply String.eqb_eq in Eu as <-, Ed as <-. rewrite lookup_insert, decide_True by done.
    cbn [default]. f_equal; lia.
  - apply String.eqb_neq in Ed. rewrite lookup_insert_ne by congruence. rewrite Hu. f_equal; lia.
  - apply String.eqb_neq in Eu. rewrite lookup_insert_ne by congruence. rewrite Hu. f_equal; lia.
  - apply String.eqb_neq in Ed. rewrite lookup_insert_ne by congruence. rewrite Hu. f_equal; lia.
Qed.

(** the running totals are the sum of the ledger: whatever report is
    recorded, the raw and billable totals of every user and direction stay the
    sums over the booked rows. *)
Theorem RecordTrafficReport_totals t r t' :
  totals_agree t -> RecordTrafficReport t r = Some t' -> totals_agree t'.
Proof.
  intros Ht. unfold Traffic.RecordTrafficReport. destruct (bool_decide _); [by intros [= <-]|].
  match goal with |- book_deltas ?k ?T ?ds = _ -> _ => assert (HT : totals_agree T) by exact Ht; revert HT; generalize T end.
  induction (tr_Deltas r) as [|x ds IH]; intros T HT; cbn [Traffic.book_deltas].
  { intros Hx. by injection Hx as <-. }
  destruct (book_delta credentials _ T x) as [T'|] eqn:E.
  2:{ intros Hx. discriminate Hx. }
  apply IH. by eapply book_delta_totals.
Qed.
End booking.

(** ** A run with losses and a counter reset *)
Definition sample_credentials (auth : string) : option credential :=
  if (auth =? "alice")%string then Some {| cr_ProxyUserID := "u1"; cr_Multiplier := float64_of_int 2 |} else None.
Definition sample_state : State := {|
  BootID := "boot"; LastCounters := ∅; CounterEpoch := ∅;
  Outbox := {| ob_sequence := 0; ob_pending := None |}
|}.
Definition no_traffic : traffic_tables :=
  {| traffic_reports := ∅; traffic_usage_deltas := []; traffic_usage_totals := ∅ |}.
Definition sample_reading (v : Z) : option (list (string * Z)) :=
  Some [("user>>>alice>>>traffic>>>uplink"%string, v); ("inbound>>>x>>>traffic>>>uplink"%string, 7)].
Definition sample_cycles : list cycle := [
  {| cy_now := "t1"; cy_stats := sample_reading 100; cy_first := delivered; cy_second := response_lost |};
  {| cy_now := "t2"; cy_stats := sample_reading 130; cy_first := request_lost; cy_second := delivered |};
  {| cy_now := "t3"; cy_stats := sample_reading 150; cy_first := delivered; cy_second := refused |};
  {| cy_now := "t4"; cy_stats := sample_reading 20; cy_first := delivered; cy_second := delivered |}].

Example traffic_metered_exactly_witness :
  let '(st, t, obs, ok) := metering sample_credentials "n1" sample_state no_traffic sample_cycles in
  ok = true /\ booked t "alice" "uplink" = 170 /\
  exists outstanding,
    booked t "alice" "uplink" + outstanding = 0 + growth "user>>>alice>>>traffic>>>uplink" 0 obs /\
    (outstanding = 0 \/ outstanding = staged_bytes st "alice" "uplink") /\ (ok = true -> outstanding = 0).
Proof.
  destruct (metering sample_credentials "n1" sample_state no_traffic sample_cycles)
    as [[[st t] obs] ok] eqn:E.
  split; [|split].
  - transitivity (metering sample_credentials "n1" sample_state no_traffic sample_cycles).2; [by rewrite E|].
    vm_compute. reflexivity.
  - transitivity (booked (metering sample_credentials "n1" sample_state no_traffic sample_cycles).1.1.2 "alice" "uplink");
      [by rewrite E|]. vm_compute. reflexivity.
  - apply (traffic_metered_exactly sample_credentials "n1" sample_state no_traffic sample_cycles
             st t obs ok "user>>>alice>>>traffic>>>uplink" "alice" "uplink"
             {| cr_ProxyUserID := "u1"; cr_Multiplier := float64_of_int 2 |}).
    + intros k. apply not_elem_of_empty.
    + reflexivity.
    + apply map_Forall_empty.
    + unfold counter_value. repeat constructor; simpl; lia.
    + vm_compute. reflexivity.
    + reflexivity.
    + exact E.
Defined.

Definition sample_report : TrafficReport := {|
  tr_Sequence := 1; tr_AgentBootID := "boot"; tr_ReportedAt := "t1";
  tr_Deltas := [{| td_AuthName := "alice"; td_Direction := "uplink"; td_RawBytesDelta := 100;
                   td_CounterValue := 100; td_CounterEpoch := 0; td_ObservedAt := "t1" |}]
|}.
Example RecordTrafficReport_totals_witness :
  exists t', RecordTrafficReport sample_credentials "n1" no_traffic sample_report = Some t' /\
             totals_agree t' /\ traffic_usage_totals t' !! ("u1", "uplink") = Some (100, 200).
Proof.
  destruct (RecordTrafficReport sample_credentials "n1" no_traffic sample_report) as [t'|] eqn:E;
    [|vm_compute in E; discriminate E].
  exists t'. split; [reflexivity|]. split.
  - apply (RecordTrafficReport_totals sample_credentials "n1" no_traffic sample_report t'); [|exact E].
    intros u d. reflexivity.
  - vm_compute in E. injection E as <-. vm_compute. reflexivity.
Defined.
