(* ===== verification/Paths.v ===== *)
(** * Paths: the dialer graph of [src/internal/server/db/paths.go]

    A Path publishes an endpoint (a proxy on one of its node's hosts), possibly
    dialled through another Path.  The tables a Path depends on are maps by
    primary key; rows keep the columns the operations below read (the
    timestamps, written by every statement and read by none, are left out).
    [db.q.*] queries are lookups in these maps; a query that fails for another
    reason than a missing row aborts the operation and is not modelled.

    An [UpdatePath] or [CreatePath] runs in one transaction, so a failure
    leaves the tables as they were. *)
From S2P Require Import Prelude GoStrings.

#[local] Open Scope Z_scope.

Definition PathVisibilitySelectable : string := "selectable".
Definition PathVisibilityDependency : string := "dependency".
Definition MaxDialerPathDepth : nat := 3.

(** [sql.NullString] is an option. *)
Record Endpoint := { ep_ID : string; ep_ProxyID : string; ep_HostID : string; ep_Enabled : bool }.
Record Path := {
  pa_ID : string; pa_Name : string; pa_DisplayName : string; pa_EndpointID : string;
  pa_DialerPathID : option string; pa_Enabled : bool; pa_Visibility : string; pa_Managed : bool;
  pa_SortOrder : Z
}.
Record PathAccess := {
  pc_ID : string; pc_PathID : string; pc_ProxyUserID : string; pc_Enabled : bool;
  pc_DeletedAt : option string
}.
Record NodeHost := { nh_ID : string; nh_Host : string; nh_Tag : string; nh_Selected : bool }.
Record Node := {
  no_ID : string; no_Name : string; no_Hosts : list NodeHost; no_Status : string;
  no_DeletedAt : option string
}.
(** A row of [proxies]; [NodeName] comes from the join with [nodes]. *)
Record proxy_row := {
  pr_NodeID : string; pr_Name : string; pr_Protocol : string; pr_Enabled : bool;
  pr_DeletedAt : option string
}.
Record Proxy := {
  px_ID : string; px_NodeID : string; px_NodeName : string; px_Name : string; px_Protocol : string;
  px_Enabled : bool
}.
Record ProxyUser := { us_ID : string; us_Name : string; us_Status : string; us_DeletedAt : option string }.
Record ProxyCredential := { pk_ID : string; pk_AuthName : string; pk_Enabled : bool; pk_DeletedAt : option string }.

Record tables := {
  paths : gmap string Path;
  endpoints : gmap string Endpoint;
  path_accesses : list PathAccess;              (* in the order (created_at, id) *)
  path_group_members : gset (string * string);  (* (group_id, path_id) *)
  nodes : gmap string Node;
  node_name_aliases : gmap string string;
  proxies : gmap string proxy_row;
  proxy_users : gmap string ProxyUser;
  bindings : gmap (string * string) bool;       (* (user, node) -> enabled *)
  credentials : gmap (string * string) ProxyCredential  (* (user, proxy) *)
}.

Inductive PathError :=
| PathNotFound (id : string)
| EndpointNotFound (id : string)
| ProxyNotFound (id : string)
| NodeNotFound (name : string)
| UserNotFound (name : string)
| HostNotSelected (host : string)
| HostNotOnNode (host : string)
| InGroups
| NameRequired
| EndpointRequired
| UnsupportedVisibility (v : string)
| EndpointDisabled (id : string)
| DialerNotFound (id : string)
| DialerCycle (id : string)
| DialerDepthExceeded
| NameConflict (name previous path : string)
| ManagedPath (name : string)
| ConstraintFailed
| OutOfFuel.

Abbreviation res := (result PathError).
Definition lookup_or {A} (m : gmap string A) (id : string) (e : PathError) : res A :=
  match m !! id with Some x => Ok x | None => Err e end.

(** ** Lookups *)
Definition GetPath (db : tables) (pathID : string) : res Path :=
  lookup_or (paths db) (TrimSpace pathID) (PathNotFound pathID).
Definition GetEndpoint (db : tables) (endpointID : string) : res Endpoint :=
  lookup_or (endpoints db) (TrimSpace endpointID) (EndpointNotFound endpointID).

(** GetNodeByName *)
Definition node_by_name (db : tables) (name : string) : option Node :=
  snd <$> List.find (fun kn =>
    negb (bool_decide (is_Some (no_DeletedAt (snd kn)))) &&
    ((no_Name (snd kn) =? name)%string || bool_decide (node_name_aliases db !! name = Some (fst kn))))
    (map_to_list (nodes db)).
Definition GetNode (db : tables) (name : string) : res Node :=
  let reference := TrimSpace name in
  match nodes db !! reference with
  | Some n => match no_DeletedAt n with Some _ => Err (NodeNotFound name) | None => Ok n end
  | None => match node_by_name db reference with Some n => Ok n | None => Err (NodeNotFound name) end
  end.
Definition user_by_name (db : tables) (name : string) : option ProxyUser :=
  snd <$> List.find (fun ku =>
    negb (bool_decide (is_Some (us_DeletedAt (snd ku)))) && (us_Name (snd ku) =? name)%string)
    (map_to_list (proxy_users db)).
Definition GetProxyUser (db : tables) (name : string) : res ProxyUser :=
  let reference := TrimSpace name in
  match proxy_users db !! reference with
  | Some u => match us_DeletedAt u with Some _ => Err (UserNotFound name) | None => Ok u end
  | None => match user_by_name db reference with Some u => Ok u | None => Err (UserNotFound name) end
  end.
(** A row of the view proxy_details, neither the proxy nor its node deleted. *)
Definition live_proxy (db : tables) (id : string) : option Proxy :=
  row ← proxies db !! id;
  node ← nodes db !! pr_NodeID row;
  match pr_DeletedAt row, no_DeletedAt node with
  | None, None => Some {| px_ID := id; px_NodeID := pr_NodeID row; px_NodeName := no_Name node;
                          px_Name := pr_Name row; px_Protocol := pr_Protocol row; px_Enabled := pr_Enabled row |}
  | _, _ => None
  end.
Definition GetProxyByID (db : tables) (proxyID : string) : res Proxy :=
  match live_proxy db (TrimSpace proxyID) with Some p => Ok p | None => Err (ProxyNotFound proxyID) end.

(** The loop over the hosts of the node. *)
Fixpoint find_host (hosts : list NodeHost) (hostID : string) : res NodeHost :=
  match hosts with
  | [] => Err (HostNotOnNode hostID)
  | host :: hosts =>
      if negb (nh_ID host =? TrimSpace hostID)%string then find_host hosts hostID
      else if negb (nh_Selected host) then Err (HostNotSelected (nh_ID host)) else Ok host
  end.
Definition validateEndpointPair (db : tables) (proxyID hostID : string) : res (Proxy * NodeHost) :=
  let? proxy := GetProxyByID db proxyID in
  let? node := GetNode db (px_NodeName proxy) in
  let? host := find_host (no_Hosts node) hostID in
  Ok (proxy, host).
Definition ResolveEndpoint (db : tables) (endpoint : Endpoint) : res (Proxy * NodeHost) :=
  validateEndpointPair db (ep_ProxyID endpoint) (ep_HostID endpoint).

(** ListActivePathAccessesByUserID: the effective grants of a user. *)
Definition active_access (db : tables) (userID : string) (a : PathAccess) : bool :=
  (pc_ProxyUserID a =? userID)%string && pc_Enabled a && negb (bool_decide (is_Some (pc_DeletedAt a))) &&
  match paths db !! pc_PathID a with
  | None => false
  | Some path =>
      pa_Enabled path &&
      match endpoints db !! pa_EndpointID path with
      | None => false
      | Some endpoint => ep_Enabled endpoint && bool_decide (is_Some (live_proxy db (ep_ProxyID endpoint)))
      end
  end.
Definition ListActivePathAccessesByUserID (db : tables) (userID : string) : list PathAccess :=
  List.filter (active_access db userID) (path_accesses db).
Definition ListActivePathAccessesByUser (db : tables) (userName : string) : res (list PathAccess) :=
  let? user := GetProxyUser db userName in Ok (ListActivePathAccessesByUserID db (us_ID user)).

(** ** validatePathGraph *)
Section visit.
Variable byID : gmap string Path.
(** Returns [visited].  [visiting] holds the callers: each removes itself on
    the way out, and an error ends the walk. *)
Fixpoint visit (fuel : nat) (visiting visited : gset string) (pathID : string) (depth : nat) : res (gset string) :=
  match fuel with
  | O => Err OutOfFuel
  | S fuel =>
      if bool_decide (pathID ∈ visiting) then Err (DialerCycle pathID)
      else if (MaxDialerPathDepth <? depth)%nat then Err DialerDepthExceeded
      else if bool_decide (pathID ∈ visited) then Ok visited
      else match byID !! pathID with
           | None => Err (PathNotFound pathID)
           | Some path =>
               match pa_DialerPathID path with
               | Some dialer =>
                   let? visited := visit fuel (visiting ∪ {[pathID]}) visited dialer (S depth) in
                   Ok (visited ∪ {[pathID]})
               | None => Ok (visited ∪ {[pathID]})
               end
           end
  end.
End visit.
(** The depth check comes before the recursive call: five calls are never made. *)
Definition graph_fuel : nat := S (S MaxDialerPathDepth).

Definition validatePathGraph (db : tables) (candidate : Path) : res unit :=
  let byID := <[pa_ID candidate := candidate]> (paths db) in
  match pa_DialerPathID candidate with
  | Some dialer =>
      if bool_decide (is_Some (byID !! dialer)) then
        let? _ := visit byID graph_fuel ∅ ∅ (pa_ID candidate) 1 in Ok tt
      else Err (DialerNotFound dialer)
  | None => let? _ := visit byID graph_fuel ∅ ∅ (pa_ID candidate) 1 in Ok tt
  end.

(** ** normalizePath *)
Definition nullablePathString (value : string) : option string :=
  let value := TrimSpace value in if (value =? "")%string then None else Some value.
Definition group_member (db : tables) (pathID : string) : bool :=
  existsb (fun m => (m.2 =? pathID)%string) (elements (path_group_members db)).
Definition trimmed_path (path : Path) : Path := {|
  pa_ID := TrimSpace (pa_ID path); pa_Name := TrimSpace (pa_Name path);
  pa_DisplayName := TrimSpace (pa_DisplayName path); pa_EndpointID := TrimSpace (pa_EndpointID path);
  pa_DialerPathID := pa_DialerPathID path; pa_Enabled := pa_Enabled path;
  pa_Visibility := (let v := TrimSpace (pa_Visibility path) in
                    if (v =? "")%string then PathVisibilitySelectable else v);
  pa_Managed := pa_Managed path; pa_SortOrder := pa_SortOrder path
|}.
Definition normalizePath (db : tables) (path : Path) : res Path :=
  guard! negb (negb (pa_ID path =? "")%string && (pa_Visibility path =? PathVisibilityDependency)%string
               && group_member db (pa_ID path)) else InGroups;
  let path := trimmed_path path in
  guard! negb (pa_Name path =? "")%string else NameRequired;
  guard! negb (pa_EndpointID path =? "")%string else EndpointRequired;
  guard! (pa_Visibility path =? PathVisibilitySelectable)%string
         || (pa_Visibility path =? PathVisibilityDependency)%string
    else UnsupportedVisibility (pa_Visibility path);
  let? endpoint := GetEndpoint db (pa_EndpointID path) in
  guard! negb (negb (ep_Enabled endpoint) && pa_Enabled path) else EndpointDisabled (ep_ID endpoint);
  if pa_Enabled path then let? _ := ResolveEndpoint db endpoint in Ok path else Ok path.

(** ** The names a user's profile would publish *)
Definition published_name (path : Path) (proxy : Proxy) : string :=
  if (pa_DisplayName path =? "")%string then (px_Name proxy ++ " · " ++ pa_Name path)%string
  else pa_DisplayName path.

Section names.
Variables (db : tables) (candidate : option Path).
(** [emitted] and [names] are shared by all the roots. *)
Fixpoint visit_names (fuel : nat) (st : gset string * gmap string string) (pathID : string)
    : res (gset string * gmap string string) :=
  match fuel with
  | O => Err OutOfFuel
  | S fuel =>
      if bool_decide (pathID ∈ st.1) then Ok st
      else
        let? path := GetPath db pathID in
        let path := match candidate with
                    | Some c => if (pa_ID c =? pathID)%string then c else path
                    | None => path
                    end in
        if negb (pa_Enabled path) then Ok st
        else
          let? st := match pa_DialerPathID path with
                     | Some dialer => visit_names fuel st dialer
                     | None => Ok st
                     end in
          let? endpoint := GetEndpoint db (pa_EndpointID path) in
          let? proxy := GetProxyByID db (ep_ProxyID endpoint) in
          let name := published_name path proxy in
          let (emitted, names) := st in
          let conflict := match names !! name with
                          | Some previous => if (previous =? pa_ID path)%string then None else Some previous
                          | None => None
                          end in
          match conflict with
          | Some previous =>
              if match candidate with
                 | None => true
                 | Some c => (previous =? pa_ID c)%string || (pa_ID path =? pa_ID c)%string
                 end
              then Err (NameConflict name previous (pa_ID path))
              else Ok st
          | None => Ok (emitted ∪ {[pathID]}, <[name := pa_ID path]> names)
          end
  end.
Fixpoint visit_roots (fuel : nat) (st : gset string * gmap string string) (roots : list string) : res unit :=
  match roots with
  | [] => Ok tt
  | root :: roots => let? st := visit_names fuel st root in visit_roots fuel st roots
  end.
End names.
(** A walk along dialers that never repeats a path. *)
Definition walk_fuel (db : tables) : nat := S (S (size (paths db))).
Definition validatePublishedNamesForUser (db : tables) (userName extraRootID : string)
    (candidate : option Path) : res unit :=
  let? accesses := ListActivePathAccessesByUser db userName in
  let roots := map pc_PathID accesses ++ (if (extraRootID =? "")%string then [] else [extraRootID]) in
  visit_roots db candidate (walk_fuel db) (∅, ∅) roots.

(** ListUserNamesWithActivePathAccess *)
Definition name_le (a b : string) : Prop := String.leb a b = true.
#[export] Instance name_le_dec : RelDecision name_le.
Proof. intros a b. unfold Decision, name_le. decide equality. Defined.
Definition names_with_access (db : tables) : list string :=
  merge_sort name_le
    (remove_dups (omap (fun a =>
      u ← proxy_users db !! pc_ProxyUserID a;
      path ← paths db !! pc_PathID a;
      endpoint ← endpoints db !! pa_EndpointID path;
      if pc_Enabled a && negb (bool_decide (is_Some (pc_DeletedAt a)))
         && negb (bool_decide (is_Some (us_DeletedAt u)))
         && bool_decide (is_Some (live_proxy db (ep_ProxyID endpoint)))
      then Some (us_Name u) else None) (path_accesses db))).
Fixpoint validate_users (db : tables) (candidate : Path) (users : list string) : res unit :=
  match users with
  | [] => Ok tt
  | u :: users =>
      let? _ := validatePublishedNamesForUser db u "" (Some candidate) in validate_users db candidate users
  end.
Definition validatePublishedNamesAfterPathChange (db : tables) (candidate : Path) : res unit :=
  validate_users db candidate (names_with_access db).

(** ** CreatePath, UpdatePath *)
Definition with_paths (db : tables) (m : gmap string Path) : tables := {|
  paths := m; endpoints := endpoints db; path_accesses := path_accesses db;
  path_group_members := path_group_members db; nodes := nodes db;
  node_name_aliases := node_name_aliases db; proxies := proxies db; proxy_users := proxy_users db;
  bindings := bindings db; credentials := credentials db
|}.
(** The constraints of the table on a row: its endpoint and dialer exist, and
    it is not its own dialer. *)
Definition path_constraints (db : tables) (path : Path) : bool :=
  bool_decide (is_Some (endpoints db !! pa_EndpointID path)) &&
  match pa_DialerPathID path with
  | None => true
  | Some d => bool_decide (is_Some (paths db !! d)) && negb (d =? pa_ID path)%string
  end.

Record CreatePathParams := {
  cp_Name : string; cp_DisplayName : string; cp_EndpointID : string; cp_DialerPathID : string;
  cp_Enabled : bool; cp_Visibility : string; cp_Managed : bool; cp_SortOrder : Z
}.
Definition path_of_params (ID : string) (p : CreatePathParams) : Path := {|
  pa_ID := ID; pa_Name := cp_Name p; pa_DisplayName := cp_DisplayName p; pa_EndpointID := cp_EndpointID p;
  pa_DialerPathID := nullablePathString (cp_DialerPathID p); pa_Enabled := cp_Enabled p;
  pa_Visibility := cp_Visibility p; pa_Managed := cp_Managed p; pa_SortOrder := cp_SortOrder p
|}.
Definition with_id (path : Path) (ID : string) : Path := {|
  pa_ID := ID; pa_Name := pa_Name path; pa_DisplayName := pa_DisplayName path;
  pa_EndpointID := pa_EndpointID path; pa_DialerPathID := pa_DialerPathID path;
  pa_Enabled := pa_Enabled path; pa_Visibility := pa_Visibility path; pa_Managed := pa_Managed path;
  pa_SortOrder := pa_SortOrder path
|}.
(** [pathID] is the result of id.New; a taken one violates the primary key. *)
Definition CreatePath (db : tables) (pathID : string) (params : CreatePathParams) : res (tables * Path) :=
  let? normalized := normalizePath db (path_of_params "" params) in
  let normalized := with_id normalized pathID in
  let? _ := validatePathGraph db normalized in
  guard! bool_decide (paths db !! pathID = None) && path_constraints db normalized else ConstraintFailed;
  let db := with_paths db (<[pathID := normalized]> (paths db)) in
  let? path := GetPath db pathID in
  Ok (db, path).

(** [up]: UpdatePathParams, whose fields are those of CreatePathParams and two more. *)
Definition UpdatePath (db : tables) (ID : string) (up : CreatePathParams) (allowManaged : bool)
    : res (tables * Path) :=
  let? existing := GetPath db ID in
  guard! negb (pa_Managed existing && negb allowManaged) else ManagedPath (pa_Name existing);
  let? normalized := normalizePath db (path_of_params ID up) in
  let? _ := validatePathGraph db normalized in
  let? _ := validatePublishedNamesAfterPathChange db normalized in
  guard! bool_decide (is_Some (paths db !! pa_ID normalized)) else PathNotFound ID;
  guard! path_constraints db normalized else ConstraintFailed;
  let db := with_paths db (<[pa_ID normalized := normalized]> (paths db)) in
  let? path := GetPath db ID in
  Ok (db, path).

(** ** disableUnusedProxyCredentialsTx, DeletePath *)
(** The walk over a granted path and its dialers: [(visitedPaths, requiredProxyIDs)]. *)
Fixpoint visit_required (db : tables) (fuel : nat) (st : gset string * gset string) (pathID : string)
    : res (gset string * gset string) :=
  match fuel with
  | O => Err OutOfFuel
  | S fuel =>
      let (visited, required) := st in
      if bool_decide (pathID ∈ visited) then Ok st
      else
        let? path := lookup_or (paths db) pathID (PathNotFound pathID) in
        let? endpoint := lookup_or (endpoints db) (pa_EndpointID path) (EndpointNotFound (pa_EndpointID path)) in
        let st := (visited ∪ {[pathID]}, required ∪ {[ep_ProxyID endpoint]}) in
        match pa_DialerPathID path with
        | Some dialer => visit_required db fuel st dialer
        | None => Ok st
        end
  end.
Fixpoint required_proxies (db : tables) (st : gset string * gset string) (roots : list string)
    : res (gset string) :=
  match roots with
  | [] => Ok st.2
  | root :: roots => let? st := visit_required db (walk_fuel db) st root in required_proxies db st roots
  end.

Definition with_credentials (db : tables) (m : gmap (string * string) ProxyCredential) : tables := {|
  paths := paths db; endpoints := endpoints db; path_accesses := path_accesses db;
  path_group_members := path_group_members db; nodes := nodes db;
  node_name_aliases := node_name_aliases db; proxies := proxies db; proxy_users := proxy_users db;
  bindings := bindings db; credentials := m
|}.
(** ListProxyAccessesByUserName: the live credentials of the user (the names of
    live users are unique), on proxies and nodes that are not deleted. *)
Definition listed_credential (db : tables) (user : ProxyUser) (key : string * string) (c : ProxyCredential) : bool :=
  (key.1 =? us_ID user)%string && negb (bool_decide (is_Some (pk_DeletedAt c))) &&
  bool_decide (is_Some (live_proxy db key.2)) && negb (bool_decide (is_Some (us_DeletedAt user))).
Definition disable_credential (c : ProxyCredential) : ProxyCredential :=
  {| pk_ID := pk_ID c; pk_AuthName := pk_AuthName c; pk_Enabled := false; pk_DeletedAt := pk_DeletedAt c |}.
Definition disableUnusedProxyCredentialsTx (db : tables) (user : ProxyUser) : res tables :=
  let accesses := ListActivePathAccessesByUserID db (us_ID user) in
  let? required := required_proxies db (∅, ∅) (map pc_PathID accesses) in
  Ok (with_credentials db (map_imap (fun key c => Some
    (if listed_credential db user key c
     then if negb (pk_Enabled c) || bool_decide (is_Some (pk_DeletedAt c)) || bool_decide (key.2 ∈ required)
          then c else disable_credential c
     else c)) (credentials db))).
Fixpoint disable_unused (db : tables) (users : list ProxyUser) : res tables :=
  match users with
  | [] => Ok db
  | u :: users => let? db := disableUnusedProxyCredentialsTx db u in disable_unused db users
  end.

(** ListUserNamesByPathID *)
Definition users_of_path (db : tables) (pathID : string) : list string :=
  merge_sort name_le (omap (fun a =>
    u ← proxy_users db !! pc_ProxyUserID a;
    if (pc_PathID a =? pathID)%string && pc_Enabled a && negb (bool_decide (is_Some (pc_DeletedAt a)))
       && negb (bool_decide (is_Some (us_DeletedAt u))) then Some (us_Name u) else None) (path_accesses db)).
Fixpoint get_users (db : tables) (names : list string) : res (list ProxyUser) :=
  match names with
  | [] => Ok []
  | n :: names => let? u := GetProxyUser db n in let? us := get_users db names in Ok (u :: us)
  end.
(** The row, and the rows that reference it with ON DELETE CASCADE. *)
Definition delete_path_row (db : tables) (pathID : string) : tables := {|
  paths := delete pathID (paths db); endpoints := endpoints db;
  path_accesses := List.filter (fun a => negb (pc_PathID a =? pathID)%string) (path_accesses db);
  path_group_members := filter (fun m => m.2 <> pathID) (path_group_members db); nodes := nodes db;
  node_name_aliases := node_name_aliases db; proxies := proxies db; proxy_users := proxy_users db;
  bindings := bindings db; credentials := credentials db
|}.
Definition delete_endpoint_row (db : tables) (endpointID : string) : tables := {|
  paths := paths db; endpoints := delete endpointID (endpoints db); path_accesses := path_accesses db;
  path_group_members := path_group_members db; nodes := nodes db;
  node_name_aliases := node_name_aliases db; proxies := proxies db; proxy_users := proxy_users db;
  bindings := bindings db; credentials := credentials db
|}.
(** dialer_path_id REFERENCES paths(id) ON DELETE RESTRICT *)
Definition is_dialer (m : gmap string Path) (pathID : string) : bool :=
  existsb (fun kp => bool_decide (pa_DialerPathID (snd kp) = Some pathID)) (map_to_list m).
(** CountPathsByEndpointID *)
Definition endpoint_used (m : gmap string Path) (endpointID : string) : bool :=
  existsb (fun kp => (pa_EndpointID (snd kp) =? endpointID)%string) (map_to_list m).

Definition DeletePath (db : tables) (pathID : string) : res tables :=
  let? path := GetPath db pathID in
  guard! negb (pa_Managed path) else ManagedPath (pa_Name path);
  let? users := get_users db (users_of_path db (pa_ID path)) in
  let ID := TrimSpace pathID in
  guard! bool_decide (is_Some (paths db !! ID)) else PathNotFound pathID;
  guard! negb (is_dialer (paths db) ID) else ConstraintFailed;
  let db := delete_path_row db ID in
  let? db := if endpoint_used (paths db) (pa_EndpointID path) then Ok db
             else match endpoints db !! pa_EndpointID path with
                  | Some _ => Ok (delete_endpoint_row db (pa_EndpointID path))
                  | None => Err (EndpointNotFound (pa_EndpointID path))
                  end in
  disable_unused db users.

(** SetPathEnabled on a known path (setPathEnabledUnchecked). *)
Definition with_enabled (path : Path) (enabled : bool) : Path := {|
  pa_ID := pa_ID path; pa_Name := pa_Name path; pa_DisplayName := pa_DisplayName path;
  pa_EndpointID := pa_EndpointID path; pa_DialerPathID := pa_DialerPathID path; pa_Enabled := enabled;
  pa_Visibility := pa_Visibility path; pa_Managed := pa_Managed path; pa_SortOrder := pa_SortOrder path
|}.
Definition setPathEnabledUnchecked (db : tables) (pathID : string) (enabled : bool) : res tables :=
  match paths db !! TrimSpace pathID with
  | Some path => Ok (with_paths db (<[TrimSpace pathID := with_enabled path enabled]> (paths db)))
  | None => Err (PathNotFound pathID)
  end.

(** ** Chains of dialers *)
(** From [k] the dialers end after [n] paths, [k] included. *)
Inductive chain (m : gmap string Path) : string -> nat -> Prop :=
| chain_end k p : m !! k = Some p -> pa_DialerPathID p = None -> chain m k 1
| chain_dial k p d n : m !! k = Some p -> pa_DialerPathID p = Some d -> chain m d n -> chain m k (S n).
#[export] Hint Constructors chain : core.

Lemma find_host_Ok hosts hostID host : find_host hosts hostID = Ok host -> host ∈ hosts /\ nh_ID host = TrimSpace hostID /\ nh_Selected host = true.
Proof.
  induction hosts as [|h hosts IH]; cbn [find_host]; [done|]. destruct (nh_ID h =? TrimSpace hostID)%string eqn:E; cbn.
  - destruct (nh_Selected h) eqn:Es; [|done]. intros [= <-]. split; [by left|]. split; [by apply String.eqb_eq|done].
  - intros (? & ? & ?)%IH. split; [by right|done].
Qed.

Lemma chain_fun m k n1 n2 : chain m k n1 -> chain m k n2 -> n1 = n2.
Proof.
  intros H. revert n2. induction H as [k p Hk Hd|k p d n Hk Hd _ IH]; intros n2 H2;
    inversion H2 as [k' p' Hk' Hd'|k' p' d' n' Hk' Hd' Hc']; subst;
    rewrite Hk in Hk'; injection Hk' as <-; try congruence.
  rewrite Hd in Hd'. injection Hd' as <-. f_equal. by apply IH.
Qed.
Lemma chain_pos m k n : chain m k n -> (0 < n)%nat.
Proof. destruct 1; lia. Qed.
Lemma chain_known m k n : chain m k n -> is_Some (m !! k).
Proof. destruct 1; eauto. Qed.

(** Every path's dialers end: no cycle, no dangling reference. *)
Definition acyclic (m : gmap string Path) : Prop := forall k p, m !! k = Some p -> exists n, chain m k n.

(** The paths of a chain are distinct, so it is no longer than the table. *)
Lemma chain_keys m k n : chain m k n ->
  exists l, length l = n /\ NoDup l /\ (forall x, x ∈ l -> is_Some (m !! x) /\ exists i, (i <= n)%nat /\ chain m x i).
Proof.
  induction 1 as [k p Hk Hd|k p d n Hk Hd Hc (l & Hl & Hnd & Hin)].
  - exists [k]. split; [done|]. split; [apply NoDup_singleton|]. intros x Hx.
    apply list_elem_of_singleton in Hx as ->. split; [eauto|]. exists 1%nat. eauto.
  - exists (k :: l). split; [simpl; lia|]. split.
    + apply NoDup_cons. split; [|done]. intros Hkl. destruct (Hin k Hkl) as [_ (i & Hi & Hci)].
      assert (i = S n) by (eapply chain_fun; eauto). lia.
    + intros x [->|Hx]%elem_of_cons; [split; eauto|].
      destruct (Hin x Hx) as [? (i & Hi & Hci)]. split; [done|]. exists i. split; [lia|done].
Qed.
Lemma chain_le_size m k n : chain m k n -> (n <= size m)%nat.
Proof.
  intros (l & <- & Hnd & Hin)%chain_keys. rewrite <- (size_list_to_set (C := gset string)) by done.
  rewrite <- size_dom. apply subseteq_size. intros x. rewrite elem_of_list_to_set, elem_of_dom.
  intros Hx. apply (Hin x Hx).
Qed.

(** ** validatePathGraph accepts exactly the chains of at most three paths *)
Section visit_proofs.
Context (m : gmap string Path).
Lemma visit_sound fuel visiting k depth v :
  visit m fuel visiting ∅ k depth = Ok v ->
  exists n, chain m k n /\ (depth + n <= S MaxDialerPathDepth)%nat.
Proof.
  revert visiting k depth v. induction fuel as [|fuel IH]; intros visiting k depth v; cbn [visit]; [done|].
  destruct (bool_decide _); [done|]. destruct (_ <? _)%nat eqn:Ed; [done|]. apply Nat.ltb_ge in Ed.
  rewrite bool_decide_false by set_solver. destruct (m !! k) as [p|] eqn:Ek; [|done].
  destruct (pa_DialerPathID p) as [d|] eqn:Edl.
  - destruct (visit m fuel _ ∅ d (S depth)) as [v'|] eqn:Ev; [|done]. intros _.
    destruct (IH _ _ _ _ Ev) as (n & Hc & Hn). exists (S n). split; [by eapply chain_dial|lia].
  - intros _. exists 1%nat. split; [by eapply chain_end|lia].
Qed.
Lemma visit_complete k n : chain m k n -> forall fuel visiting depth,
  (n <= fuel)%nat -> (depth + n <= S MaxDialerPathDepth)%nat ->
  (forall x i, x ∈ visiting -> chain m x i -> (n < i)%nat) ->
  exists v, visit m fuel visiting ∅ k depth = Ok v.
Proof.
  induction 1 as [k p Hk Hd|k p d n Hk Hd Hc IH]; intros [|fuel] visiting depth Hf Hdep Hv; [lia| |lia|]; cbn [visit].
  all: rewrite bool_decide_false by (intros Hin; eapply (Nat.lt_irrefl _), Hv; eauto).
  all: replace (_ <? _)%nat with false by (symmetry; apply Nat.ltb_ge; lia).
  all: rewrite bool_decide_false by set_solver; rewrite Hk, Hd.
  - by eexists.
  - destruct (IH fuel (visiting ∪ {[k]}) (S depth)) as [v ->]; [lia|lia| |by eexists].
    intros x i [Hx| ->%elem_of_singleton]%elem_of_union Hi; [specialize (Hv x i Hx Hi); lia|].
    assert (i = S n) by (eapply chain_fun; eauto). lia.
Qed.
Lemma visit_fuel fuel visiting visited k depth :
  (S (S MaxDialerPathDepth) <= fuel + depth)%nat -> (0 < fuel)%nat ->
  visit m fuel visiting visited k depth <> Err OutOfFuel.
Proof.
  revert visiting visited k depth. induction fuel as [|fuel IH]; intros visiting visited k depth Hf Hp; [lia|].
  cbn [visit]. destruct (bool_decide _); [done|]. destruct (_ <? _)%nat eqn:Ed; [done|]. apply Nat.ltb_ge in Ed.
  destruct (bool_decide _); [done|]. destruct (m !! k) as [p|]; [|done].
  destruct (pa_DialerPathID p) as [d|]; [|done].
  specialize (IH (visiting ∪ {[k]}) visited d (S depth) ltac:(lia) ltac:(lia)).
  destruct (visit _ _ _ _ _ _); [done|]. congruence.
Qed.
End visit_proofs.

Lemma validatePathGraph_spec db c :
  validatePathGraph db c <> Err OutOfFuel /\
  (validatePathGraph db c = Ok tt <->
   exists n, chain (<[pa_ID c := c]> (paths db)) (pa_ID c) n /\ (n <= MaxDialerPathDepth)%nat).
Proof.
  unfold validatePathGraph. set (m := <[pa_ID c := c]> (paths db)).
  assert (Hv : forall r : res (gset string), r = visit m graph_fuel ∅ ∅ (pa_ID c) 1 ->
    (let? _ := r in Ok tt) <> Err OutOfFuel /\
    ((let? _ := r in Ok tt) = Ok tt <-> exists n, chain m (pa_ID c) n /\ (n <= MaxDialerPathDepth)%nat)).
  { intros r ->. pose proof (visit_fuel m graph_fuel ∅ ∅ (pa_ID c) 1 ltac:(unfold graph_fuel; lia) ltac:(unfold graph_fuel; lia)) as Hf.
    destruct (visit m graph_fuel ∅ ∅ (pa_ID c) 1) as [v|e] eqn:E.
    - destruct (visit_sound _ _ _ _ _ _ E) as (n & Hc & Hn). split; [done|]. split; [|done].
      intros _. exists n. split; [done|lia].
    - split; [congruence|]. split; [done|]. intros (n & Hc & Hn).
      destruct (visit_complete m _ _ Hc graph_fuel ∅ 1%nat) as [v Hv]; [unfold graph_fuel; lia|lia|set_solver|].
      congruence. }
  destruct (pa_DialerPathID c) as [d|] eqn:Ed; [|by apply Hv].
  destruct (bool_decide (is_Some (m !! d))) eqn:Es; [by apply Hv|].
  apply bool_decide_eq_false in Es. split; [done|]. split; [done|]. intros (n & Hc & _). exfalso.
  inversion Hc as [k p Hk Hd|k p d' n' Hk Hd Hc']; subst; subst m;
    rewrite lookup_insert, decide_True in Hk by done; injection Hk as <-; [congruence|].
  rewrite Ed in Hd. injection Hd as <-. apply Es. by eapply chain_known.
Qed.

(** validatePathGraph accepts a candidate exactly when, with the candidate
    in place, its dialers form a chain that ends, without a cycle or a missing
    path, after at most MaxDialerPathDepth paths; it always returns. *)
Theorem validatePathGraph_exact db c :
  validatePathGraph db c <> Err OutOfFuel /\
  (validatePathGraph db c = Ok tt <->
   exists n, chain (<[pa_ID c := c]> (paths db)) (pa_ID c) n /\ (n <= MaxDialerPathDepth)%nat).
Proof. apply validatePathGraph_spec. Qed.

(** ** The graph stays acyclic *)
Lemma chain_replace m c n k i :
  chain (<[pa_ID c := c]> m) (pa_ID c) n -> chain m k i -> exists j, chain (<[pa_ID c := c]> m) k j.
Proof.
  intros Hc Hk. induction Hk as [k p Hk Hd|k p d i Hk Hd _ [j IH]].
  - destruct (decide (k = pa_ID c)) as [->|Hne]; [by eexists|].
    exists 1%nat. eapply chain_end; [by rewrite lookup_insert_ne|done].
  - destruct (decide (k = pa_ID c)) as [->|Hne]; [by eexists|].
    exists (S j). eapply chain_dial; [by rewrite lookup_insert_ne|done..].
Qed.
Lemma acyclic_accepted db c :
  acyclic (paths db) -> validatePathGraph db c = Ok tt -> acyclic (<[pa_ID c := c]> (paths db)).
Proof.
  intros Ha Hv. apply (proj2 (validatePathGraph_spec db c)) in Hv as (n & Hc & _). intros k p Hk.
  destruct (decide (k = pa_ID c)) as [->|Hne]; [by eexists|].
  rewrite lookup_insert_ne in Hk by done. destruct (Ha k p Hk) as [i Hi]. by eapply chain_replace.
Qed.
Lemma acyclic_same_dialers m m' :
  (forall k, pa_DialerPathID <$> m' !! k = pa_DialerPathID <$> m !! k) -> acyclic m -> acyclic m'.
Proof.
  intros Heq Ha.
  assert (Hch : forall k n, chain m k n -> chain m' k n).
  { induction 1 as [k p Hk Hd|k p d n Hk Hd _ IH]; specialize (Heq k); rewrite Hk in Heq;
      destruct (m' !! k) as [p'|] eqn:Hk'; try done; injection Heq as Heq; rewrite Hd in Heq; eauto. }
  intros k p Hk. specialize (Heq k) as Hek. rewrite Hk in Hek.
  destruct (m !! k) as [p'|] eqn:Hk'; [|done]. destruct (Ha k p' Hk') as [n Hn]. exists n. by apply Hch.
Qed.
Lemma acyclic_delete m ID : acyclic m -> is_dialer m ID = false -> acyclic (delete ID m).
Proof.
  intros Ha Hd.
  assert (Hno : forall k p, m !! k = Some p -> pa_DialerPathID p <> Some ID).
  { intros k p Hk Heq. apply not_true_iff_false in Hd. apply Hd. unfold is_dialer. apply existsb_exists.
    exists (k, p). split; [by apply list_elem_of_In, elem_of_map_to_list|]. by apply bool_decide_eq_true. }
  assert (Hch : forall k n, chain m k n -> k <> ID -> chain (delete ID m) k n).
  { induction 1 as [k p Hk Hdl|k p d n Hk Hdl _ IH]; intros Hne.
    - eapply chain_end; [by rewrite lookup_delete_ne|done].
    - eapply chain_dial; [by rewrite lookup_delete_ne|done|]. apply IH. intros ->. by apply (Hno k p). }
  intros k p Hk. apply lookup_delete_Some in Hk as [Hne Hk].
  destruct (Ha k p Hk) as [n Hn]. exists n. apply Hch; [done|congruence].
Qed.

(** The operations that change the paths. *)
Inductive path_step : tables -> tables -> Prop :=
| step_create db pathID params db' path : CreatePath db pathID params = Ok (db', path) -> path_step db db'
| step_update db ID params allow db' path : UpdatePath db ID params allow = Ok (db', path) -> path_step db db'
| step_enable db ID enabled db' : setPathEnabledUnchecked db ID enabled = Ok db' -> path_step db db'
| step_delete db ID db' : DeletePath db ID = Ok db' -> path_step db db'.

Lemma disable_unused_paths db users db' : disable_unused db users = Ok db' -> paths db' = paths db.
Proof.
  revert db. induction users as [|u users IH]; intros db; cbn [disable_unused]; [by intros [= <-]|].
  unfold disableUnusedProxyCredentialsTx. destruct (required_proxies db _ _); [|done].
  intros H. by rewrite (IH _ H).
Qed.
Lemma DeletePath_paths db ID db' :
  DeletePath db ID = Ok db' ->
  paths db' = delete (TrimSpace ID) (paths db) /\ is_dialer (paths db) (TrimSpace ID) = false.
Proof.
  unfold DeletePath. destruct (GetPath db ID) as [path|]; [|done]. destruct (negb (pa_Managed path)); [|done].
  destruct (get_users db _) as [us|]; [|done]. destruct (bool_decide _); [|done].
  destruct (is_dialer (paths db) (TrimSpace ID)) eqn:Ed; [done|]. cbn [negb].
  destruct (endpoint_used _ _).
  - intros H. by rewrite (disable_unused_paths _ _ _ H).
  - destruct (endpoints _ !! _); [|done]. intros H. by rewrite (disable_unused_paths _ _ _ H).
Qed.
Lemma CreatePath_accepted db pathID params db' path :
  CreatePath db pathID params = Ok (db', path) ->
  exists c, pa_ID c = pathID /\ paths db !! pathID = None /\ validatePathGraph db c = Ok tt /\
            paths db' = <[pa_ID c := c]> (paths db).
Proof.
  unfold CreatePath. destruct (normalizePath db _) as [c|]; [|done].
  destruct (validatePathGraph db (with_id c pathID)) as [[]|] eqn:Ev; [|done].
  destruct (bool_decide _ && _) eqn:Ec; [|done]. apply andb_true_iff in Ec as [Ec _]. apply bool_decide_eq_true in Ec.
  destruct (GetPath _ pathID); [|done]. intros H. injection H as <- <-. by exists (with_id c pathID).
Qed.
Lemma UpdatePath_accepted db ID params allow db' path :
  UpdatePath db ID params allow = Ok (db', path) ->
  exists c, normalizePath db (path_of_params ID params) = Ok c /\ is_Some (paths db !! pa_ID c) /\
            validatePathGraph db c = Ok tt /\ paths db' = <[pa_ID c := c]> (paths db).
Proof.
  unfold UpdatePath. destruct (GetPath db ID) as [ex|]; [|done]. destruct (negb _); [|done].
  destruct (normalizePath db _) as [c|]; [|done].
  destruct (validatePathGraph db c) as [[]|] eqn:Ev; [|done].
  destruct (validatePublishedNamesAfterPathChange db c); [|done].
  destruct (bool_decide _) eqn:Ec; [|done]. apply bool_decide_eq_true in Ec.
  destruct (path_constraints db c); [|done].
  destruct (GetPath _ ID); [|done]. intros H. injection H as <- <-. by exists c.
Qed.

(** C37: whatever paths are created, edited, disabled and deleted, the dialer
    graph never has a cycle nor a missing dialer. *)
Theorem paths_stay_acyclic db db' :
  acyclic (paths db) -> rtc path_step db db' -> acyclic (paths db').
Proof.
  intros Ha Hs. revert Ha. revert Hs. apply (rtc_preserves path_step (fun db => acyclic (paths db))).
  clear db db'. intros db db' Ha Hst. destruct Hst as [db pathID params db' path H|db ID params allow db' path H|db ID enabled db' H|db ID db' H].
  - apply CreatePath_accepted in H as (c & _ & _ & Hv & ->). by apply acyclic_accepted.
  - apply UpdatePath_accepted in H as (c & _ & _ & Hv & ->). by apply acyclic_accepted.
  - unfold setPathEnabledUnchecked in H. destruct (paths db !! TrimSpace ID) as [p|] eqn:Hp; [|done].
    injection H as <-. cbn [paths with_paths]. eapply acyclic_same_dialers; [|exact Ha]. intros k.
    destruct (decide (k = TrimSpace ID)) as [->|Hne]; [|by rewrite lookup_insert_ne].
    by rewrite lookup_insert, decide_True, Hp.
  - apply DeletePath_paths in H as [-> Hd]. by apply acyclic_delete.
Qed.

(** ** Which credentials a user keeps *)
Definition dials (m : gmap string Path) (a b : string) : Prop :=
  exists p, m !! a = Some p /\ pa_DialerPathID p = Some b.
(** The proxy a path publishes. *)
Definition path_proxy (db : tables) (k : string) : option string :=
  p ← paths db !! k; e ← endpoints db !! pa_EndpointID p; Some (ep_ProxyID e).
(** Some granted path of the user goes through the proxy. *)
Definition proxy_needed (db : tables) (userID proxyID : string) : Prop :=
  exists a x, a ∈ ListActivePathAccessesByUserID db userID /\
    rtc (dials (paths db)) (pc_PathID a) x /\ path_proxy db x = Some proxyID.
(** REFERENCES endpoints(id) *)
Definition endpoints_known (db : tables) : Prop :=
  forall k p, paths db !! k = Some p -> is_Some (endpoints db !! pa_EndpointID p).

Definition proxied (db : tables) (V R : gset string) : Prop :=
  forall x, x ∈ R <-> exists k, k ∈ V /\ path_proxy db k = Some x.
Definition walked (db : tables) (V V' : gset string) (P : string -> Prop) : Prop :=
  V ⊆ V' /\ (forall x, x ∈ V' -> x ∈ V \/ P x) /\
  (forall x y, x ∈ V' -> x ∉ V -> dials (paths db) x y -> y ∈ V').

Lemma visit_required_spec db k n : chain (paths db) k n -> endpoints_known db ->
  forall fuel V R, (n <= fuel)%nat -> proxied db V R ->
  exists V' R', visit_required db fuel (V, R) k = Ok (V', R') /\ proxied db V' R' /\ k ∈ V' /\
    walked db V V' (rtc (dials (paths db)) k).
Proof.
  intros Hc Hep. induction Hc as [k p Hk Hd|k p d n Hk Hd Hc IH]; intros [|fuel] V R Hf HR; [lia| |lia|];
    cbn [visit_required]; (destruct (bool_decide (k ∈ V)) eqn:Ev;
      [apply bool_decide_eq_true in Ev; exists V, R; split; [done|]; split; [done|]; split; [done|];
       split; [done|]; split; [by auto|by intros x y Hx Hnx]|apply bool_decide_eq_false in Ev]);
    unfold lookup_or; rewrite Hk; destruct (Hep k p Hk) as [e He]; rewrite He, Hd.
  all: assert (HR1 : proxied db (V ∪ {[k]}) (R ∪ {[ep_ProxyID e]})) by
    (intros x; rewrite elem_of_union, elem_of_singleton, (HR x); split;
     [intros [(y & Hy & Hp)| ->]; [exists y; set_solver|exists k; split; [set_solver|];
        unfold path_proxy; by rewrite Hk; simpl; rewrite He]
     |intros (y & [Hy| ->%elem_of_singleton]%elem_of_union & Hp); [by eauto|right];
        unfold path_proxy in Hp; rewrite Hk in Hp; simpl in Hp; rewrite He in Hp; by injection Hp as <-]).
  - do 2 eexists. split; [done|]. split; [done|]. split; [set_solver|]. split; [set_solver|].
    split; [intros x [Hx| ->%elem_of_singleton]%elem_of_union; [by left|right; constructor]|].
    intros x y [Hx| ->%elem_of_singleton]%elem_of_union Hnx (p' & Hp' & Hd'); [done|]. congruence.
  - destruct (IH fuel _ _ ltac:(lia) HR1) as (V' & R' & -> & HR' & Hdv & Hsub & Hin & Hcl).
    exists V', R'. split; [done|]. split; [done|]. split; [set_solver|]. split; [set_solver|]. split.
    + intros x Hx. destruct (Hin x Hx) as [[Hv| ->%elem_of_singleton]%elem_of_union|Hr]; [by left|right; constructor|].
      right. eapply rtc_l; [|exact Hr]. by exists p.
    + intros x y Hx Hnx Hxy. destruct (decide (x = k)) as [->|Hne]; [|by apply (Hcl x y); [|set_solver|]].
      destruct Hxy as (p' & Hp' & Hd'). rewrite Hk in Hp'. injection Hp' as <-. rewrite Hd in Hd'. by injection Hd' as <-.
Qed.
Lemma closed_rtc db (V : gset string) x y :
  (forall x y, x ∈ V -> dials (paths db) x y -> y ∈ V) -> rtc (dials (paths db)) x y -> x ∈ V -> y ∈ V.
Proof. intros Hcl. induction 1; eauto. Qed.
Lemma required_proxies_spec db roots : acyclic (paths db) -> endpoints_known db ->
  (forall r, r ∈ roots -> is_Some (paths db !! r)) ->
  forall V R, proxied db V R -> (forall x y, x ∈ V -> dials (paths db) x y -> y ∈ V) ->
  exists R', required_proxies db (V, R) roots = Ok R' /\
    forall x, x ∈ R' <-> x ∈ R \/ exists r k, r ∈ roots /\ rtc (dials (paths db)) r k /\ path_proxy db k = Some x.
Proof.
  intros Ha Hep. induction roots as [|r roots IH]; intros Hk V R HR Hcl; cbn [required_proxies].
  - exists R. split; [done|]. intros x. split; [by left|]. intros [Hx|(r & k & Hr & _)]; [done|by apply elem_of_nil in Hr].
  - destruct (Hk r) as [p Hp]; [by left|]. destruct (Ha r p Hp) as [n Hn].
    destruct (visit_required_spec db r n Hn Hep (walk_fuel db) V R) as (V' & R' & -> & HR' & Hrv & Hsub & Hin & Hcl2);
      [unfold walk_fuel; apply chain_le_size in Hn; lia|done|].
    assert (Hcl' : forall x y, x ∈ V' -> dials (paths db) x y -> y ∈ V').
    { intros x y Hx Hxy. destruct (decide (x ∈ V)) as [Hv|Hv]; [apply Hsub; by eapply Hcl|by eapply Hcl2]. }
    destruct (IH (fun r' Hr' => Hk r' ltac:(by right)) V' R' HR' Hcl') as (R2 & -> & HR2).
    exists R2. split; [done|]. intros x. rewrite HR2, (HR' x). split.
    + intros [(k & Hkv & Hkp)|(r' & k & Hr' & Hrk & Hkp)].
      * destruct (Hin k Hkv) as [Hv|Hrk]; [left; apply HR; by eauto|right; exists r, k; split; [by left|done]].
      * right. exists r', k. split; [by right|done].
    + intros [Hx|(r' & k & [->|Hr']%elem_of_cons & Hrk & Hkp)].
      * left. apply HR in Hx as (k & Hkv & Hkp). exists k. set_solver.
      * left. exists k. split; [|done]. by eapply closed_rtc.
      * right. by exists r', k.
Qed.

(** after disableUnusedProxyCredentialsTx a credential of the user is
    enabled exactly when it was and a path granted to the user, or a path one
    of those is dialled through, publishes its proxy (deleted credentials and
    those of deleted proxies or nodes are left alone); nothing else changes. *)
Theorem disableUnused_exact db user :
  acyclic (paths db) -> endpoints_known db ->
  exists db', disableUnusedProxyCredentialsTx db user = Ok db' /\
    db' = with_credentials db (credentials db') /\
    forall key c, credentials db !! key = Some c ->
      exists c', credentials db' !! key = Some c' /\
        (pk_Enabled c' = true <->
         pk_Enabled c = true /\ (listed_credential db user key c = false \/ proxy_needed db (us_ID user) key.2)).
Proof.
  intros Ha Hep. unfold disableUnusedProxyCredentialsTx.
  set (roots := map pc_PathID (ListActivePathAccessesByUserID db (us_ID user))).
  destruct (required_proxies_spec db roots Ha Hep) with (V := ∅ : gset string) (R := ∅ : gset string)
    as (R & -> & HR); [| |set_solver|].
  - intros r Hr. subst roots. apply list_elem_of_In, in_map_iff in Hr as (a & <- & Hin).
    apply filter_In in Hin as [_ Hact]. unfold active_access in Hact.
    destruct (paths db !! pc_PathID a); [by eexists|]. by rewrite andb_false_r in Hact.
  - intros x. split; [set_solver|]. intros (k & Hk & _). set_solver.
  - eexists. split; [done|]. split; [done|]. intros key c Hc. cbn [credentials with_credentials].
    rewrite map_lookup_imap, Hc. cbn [mbind option_bind]. eexists. split; [done|].
    assert (Hn : key.2 ∈ R <-> proxy_needed db (us_ID user) key.2).
    { rewrite HR. split; [intros [Hx|(r & k & Hr & Hrk & Hkp)]; [set_solver|]|].
      - subst roots. apply list_elem_of_In, in_map_iff in Hr as (a & <- & Hin). exists a, k.
        split; [by apply list_elem_of_In|done].
      - intros (a & k & Hin & Hrk & Hkp). right. exists (pc_PathID a), k. split; [|done].
        subst roots. apply list_elem_of_In, in_map, list_elem_of_In, Hin. }
    rewrite <- Hn. destruct (listed_credential db user key c) eqn:El; [|intuition].
    unfold listed_credential in El. apply andb_true_iff in El as [El _]. apply andb_true_iff in El as [El _].
    apply andb_true_iff in El as [_ Ed]. apply negb_true_iff in Ed. rewrite Ed.
    destruct (pk_Enabled c) eqn:Ee; cbn [negb orb].
    + destruct (bool_decide (key.2 ∈ R)) eqn:Er; [apply bool_decide_eq_true in Er|apply bool_decide_eq_false in Er].
      * rewrite Ee. by intuition.
      * cbn [disable_credential pk_Enabled]. by intuition.
    + rewrite Ee. by intuition.
Qed.

(** ** A small fleet *)
Definition sample_path (ID : string) (dialer : option string) : Path := {|
  pa_ID := ID; pa_Name := ID; pa_DisplayName := ID; pa_EndpointID := "e1"; pa_DialerPathID := dialer;
  pa_Enabled := true; pa_Visibility := PathVisibilitySelectable; pa_Managed := false; pa_SortOrder := 0
|}.
Definition sample_access (ID path : string) : PathAccess :=
  {| pc_ID := ID; pc_PathID := path; pc_ProxyUserID := "u1"; pc_Enabled := true; pc_DeletedAt := None |}.
(** [a] through [b] through [c], and [d] on its own; u1 may use [d] and [a]. *)
Definition sample_db : tables := {|
  paths := list_to_map [("a", sample_path "a" (Some "b")); ("b", sample_path "b" (Some "c"));
                        ("c", sample_path "c" None); ("d", sample_path "d" None)];
  endpoints := {["e1" := {| ep_ID := "e1"; ep_ProxyID := "p1"; ep_HostID := "h1"; ep_Enabled := true |}]};
  path_accesses := [sample_access "x1" "d"; sample_access "x2" "a"];
  path_group_members := {[("g1", "d")]};
  nodes := {["n1" := {| no_ID := "n1"; no_Name := "node"; no_Status := "active"; no_DeletedAt := None;
              no_Hosts := [{| nh_ID := "h1"; nh_Host := "192.0.2.1"; nh_Tag := ""; nh_Selected := true |}] |}]};
  node_name_aliases := ∅;
  proxies := {["p1" := {| pr_NodeID := "n1"; pr_Name := "proxy"; pr_Protocol := "vless"; pr_Enabled := true;
                          pr_DeletedAt := None |};
              "p2" := {| pr_NodeID := "n1"; pr_Name := "idle"; pr_Protocol := "vless"; pr_Enabled := true;
                          pr_DeletedAt := None |}]};
  proxy_users := {["u1" := {| us_ID := "u1"; us_Name := "alice"; us_Status := "active"; us_DeletedAt := None |}]};
  bindings := {[("u1", "n1") := true]};
  credentials := {[("u1", "p1") := {| pk_ID := "k1"; pk_AuthName := "alice"; pk_Enabled := true; pk_DeletedAt := None |};
                  ("u1", "p2") := {| pk_ID := "k2"; pk_AuthName := "alice"; pk_Enabled := true; pk_DeletedAt := None |}]}
|}.
Definition sample_params (name dialer visibility : string) : CreatePathParams := {|
  cp_Name := name; cp_DisplayName := name; cp_EndpointID := "e1"; cp_DialerPathID := dialer; cp_Enabled := true;
  cp_Visibility := visibility; cp_Managed := false; cp_SortOrder := 0
|}.

Lemma sample_acyclic : acyclic (paths sample_db).
Proof.
  assert (Hall : map_Forall (fun k _ => exists n, chain (paths sample_db) k n) (paths sample_db)).
  { assert (Hd : chain (paths sample_db) "d" 1) by (eapply chain_end; reflexivity).
    assert (Hc : chain (paths sample_db) "c" 1) by (eapply chain_end; reflexivity).
    assert (Hb : chain (paths sample_db) "b" 2) by (eapply chain_dial; [reflexivity..|exact Hc]).
    assert (Ha : chain (paths sample_db) "a" 3) by (eapply chain_dial; [reflexivity..|exact Hb]).
    unfold sample_db at 2. cbn [paths list_to_map foldr uncurry].
    repeat apply map_Forall_insert_2; eauto. apply map_Forall_empty. }
  exact Hall.
Qed.
Lemma sample_endpoints : endpoints_known sample_db.
Proof.
  assert (Hall : map_Forall (fun _ p => is_Some (endpoints sample_db !! pa_EndpointID p)) (paths sample_db)).
  { unfold sample_db at 2. cbn [paths list_to_map foldr uncurry].
    repeat (apply map_Forall_insert_2; [eexists; reflexivity|]). apply map_Forall_empty. }
  exact Hall.
Qed.

Example paths_stay_acyclic_witness :
  exists db', path_step sample_db db' /\ paths db' !! "c" = Some (sample_path "c" (Some "d")) /\ acyclic (paths db').
Proof.
  destruct (UpdatePath sample_db "c" (sample_params "c" "d" "selectable") false) as [[db' p]|] eqn:E;
    [|vm_compute in E; discriminate E].
  assert (Hs : path_step sample_db db') by (eapply step_update; exact E).
  exists db'. split; [exact Hs|]. split.
  - transitivity (match UpdatePath sample_db "c" (sample_params "c" "d" "selectable") false with
                  | Ok (db, _) => paths db !! "c" | Err _ => None end); [by rewrite E|]. vm_compute. reflexivity.
  - apply (paths_stay_acyclic sample_db db' sample_acyclic). apply rtc_once, Hs.
Defined.

(** the depth limit is only checked from the edited path downwards: giving
    a dialer to the end of a chain of three is accepted, although the path at
    the head of that chain is then beyond the limit: no later edit of it that
    keeps its dialer is accepted. *)
Theorem UpdatePath_can_deepen_dependents :
  exists db', (exists path, UpdatePath sample_db "c" (sample_params "c" "d" "selectable") false = Ok (db', path)) /\
    chain (paths db') "a" 4 /\
    validatePathGraph db' (sample_path "a" (Some "b")) = Err DialerDepthExceeded.
Proof.
  destruct (UpdatePath sample_db "c" (sample_params "c" "d" "selectable") false) as [[db' p]|] eqn:E;
    [|vm_compute in E; discriminate E].
  assert (Hp : paths db' = <["c" := sample_path "c" (Some "d")]> (paths sample_db)).
  { transitivity (match UpdatePath sample_db "c" (sample_params "c" "d" "selectable") false with
                  | Ok (db, _) => paths db | Err _ => ∅ end); [by rewrite E|]. vm_compute. reflexivity. }
  exists db'. split; [by exists p|]. rewrite Hp. split.
  - eapply chain_dial; [reflexivity..|]. eapply chain_dial; [reflexivity..|].
    eapply chain_dial; [reflexivity..|]. eapply chain_end; reflexivity.
  - unfold validatePathGraph. rewrite Hp. vm_compute. reflexivity.
Qed.

(** The rule that a path in a group cannot become dependency-only is
    checked before the visibility is trimmed: " dependency" passes it. *)
Theorem UpdatePath_group_check_misses_blanks :
  (exists g, (g, "d") ∈ path_group_members sample_db) /\
  UpdatePath sample_db "d" (sample_params "d" "" "dependency") false = Err InGroups /\
  (exists db' path, UpdatePath sample_db "d" (sample_params "d" "" " dependency") false = Ok (db', path) /\
     pa_Visibility path = PathVisibilityDependency).
Proof.
  split; [exists "g1"; apply (bool_decide_unpack _); vm_compute; exact I|]. split; [vm_compute; reflexivity|].
  destruct (UpdatePath sample_db "d" (sample_params "d" "" " dependency") false) as [[db' p]|] eqn:E;
    [|vm_compute in E; discriminate E].
  exists db', p. split; [done|].
  transitivity (match UpdatePath sample_db "d" (sample_params "d" "" " dependency") false with
                | Ok (_, p) => pa_Visibility p | Err _ => "" end); [by rewrite E|]. vm_compute. reflexivity.
Qed.

Example disableUnused_exact_witness :
  exists db', disableUnusedProxyCredentialsTx sample_db
      {| us_ID := "u1"; us_Name := "alice"; us_Status := "active"; us_DeletedAt := None |} = Ok db' /\
    pk_Enabled <$> credentials db' !! ("u1", "p1") = Some true /\
    pk_Enabled <$> credentials db' !! ("u1", "p2") = Some false.
Proof.
  destruct (disableUnused_exact sample_db
    {| us_ID := "u1"; us_Name := "alice"; us_Status := "active"; us_DeletedAt := None |}
    sample_acyclic sample_endpoints) as (db' & E & _ & _).
  exists db'. split; [exact E|].
  assert (Hc : credentials db' = match disableUnusedProxyCredentialsTx sample_db
      {| us_ID := "u1"; us_Name := "alice"; us_Status := "active"; us_DeletedAt := None |} with
      Ok db => credentials db | Err _ => ∅ end) by (by rewrite E).
  rewrite Hc. vm_compute. split; reflexivity.
Defined.
