(* ===== verification/PathResolve.v ===== *)
(** * Which paths a user's subscription publishes
    ([src/internal/server/pathresolve/resolve.go])

    [ForUser] resolves every path granted to a user through its dialers, drops
    those that cannot be used, sorts the selectable ones and emits each path
    after the one it is dialled through.  The tables and their lookups are
    those of [Paths].

    A [*ResolvedPath] is a value: the code never changes one after building it,
    and compares them only by path id. *)
From S2P Require Import Prelude GoStrings Paths.

#[local] Open Scope Z_scope.

(** GetUserNodeBinding; the user is already resolved. *)
Definition GetUserNodeBinding (db : tables) (user : ProxyUser) (nodeName : string) : res bool :=
  let? node := GetNode db nodeName in
  match bindings db !! (us_ID user, no_ID node) with
  | Some enabled => Ok enabled
  | None => Err (UserNotFound nodeName)
  end.
Definition GetProxyCredentialByIDs (db : tables) (userID proxyID : string) : res ProxyCredential :=
  match credentials db !! (TrimSpace userID, TrimSpace proxyID) with
  | Some c => Ok c
  | None => Err (ProxyNotFound proxyID)
  end.

#[local] Unset Elimination Schemes.
Inductive ResolvedPath := {
  rp_Path : Path; rp_Name : string; rp_Endpoint : Endpoint; rp_Proxy : Proxy; rp_Host : NodeHost;
  rp_Credential : ProxyCredential; rp_Dialer : option ResolvedPath
}.
#[local] Set Elimination Schemes.
Record Result := { Selectable : list ResolvedPath; Ordered : list ResolvedPath }.

Inductive ResolveError :=
| Lookup (e : PathError)
| Cycle (id : string)
| DepthExceeded
| Disabled (what name : string)
| UserInactive (name : string)
| DuplicateName (name previous id : string)
| NoFuel.

Definition lift {A} (r : res A) : result ResolveError A :=
  match r with Ok x => Ok x | Err e => Err (Lookup e) end.

Section resolve.
Variables (db : tables) (user : ProxyUser).

(** The checks of one hop, in the order of the code. *)
Definition resolve_hop (pathID : string) : result ResolveError ResolvedPath :=
  let? path := lift (GetPath db pathID) in
  guard! pa_Enabled path else Disabled "path" (pa_Name path);
  let? endpoint := lift (GetEndpoint db (pa_EndpointID path)) in
  guard! ep_Enabled endpoint else Disabled "endpoint" (ep_ID endpoint);
  let? (proxy, host) := lift (ResolveEndpoint db endpoint) in
  guard! px_Enabled proxy else Disabled "proxy" (px_Name proxy);
  let? node := lift (GetNode db (px_NodeName proxy)) in
  guard! (no_Status node =? "active")%string else Disabled "node" (no_Name node);
  let? binding := lift (GetUserNodeBinding db user (no_Name node)) in
  guard! binding else Disabled "binding" (no_Name node);
  let? credential := lift (GetProxyCredentialByIDs db (us_ID user) (px_ID proxy)) in
  guard! negb (negb (pk_Enabled credential) || bool_decide (is_Some (pk_DeletedAt credential)))
    else Disabled "credential" (px_Name proxy);
  Ok {| rp_Path := path; rp_Name := published_name path proxy; rp_Endpoint := endpoint; rp_Proxy := proxy;
        rp_Host := host; rp_Credential := credential; rp_Dialer := None |}.

Definition with_dialer (r : ResolvedPath) (d : option ResolvedPath) : ResolvedPath := {|
  rp_Path := rp_Path r; rp_Name := rp_Name r; rp_Endpoint := rp_Endpoint r; rp_Proxy := rp_Proxy r;
  rp_Host := rp_Host r; rp_Credential := rp_Credential r; rp_Dialer := d
|}.

(** The closure [resolve]: the cache survives an error; [visiting] holds the
    callers, each of which removes itself when it returns. *)
Fixpoint resolve (fuel : nat) (cache : gmap string ResolvedPath) (visiting : gset string)
    (pathID : string) (depth : nat) : gmap string ResolvedPath * result ResolveError ResolvedPath :=
  match fuel with
  | O => (cache, Err NoFuel)
  | S fuel =>
      match cache !! pathID with
      | Some cached => (cache, Ok cached)
      | None =>
          if bool_decide (pathID ∈ visiting) then (cache, Err (Cycle pathID))
          else if (MaxDialerPathDepth <? depth)%nat then (cache, Err DepthExceeded)
          else match resolve_hop pathID with
               | Err e => (cache, Err e)
               | Ok resolved =>
                   match pa_DialerPathID (rp_Path resolved) with
                   | Some dialerID =>
                       let (cache, dialer) := resolve fuel cache (visiting ∪ {[pathID]}) dialerID (S depth) in
                       match dialer with
                       | Err e => (cache, Err e)
                       | Ok dialer =>
                           let resolved := with_dialer resolved (Some dialer) in
                           (<[pathID := resolved]> cache, Ok resolved)
                       end
                   | None => (<[pathID := resolved]> cache, Ok resolved)
                   end
               end
      end
  end.

(** The loop over the accesses: the cache and [selectable]. *)
Definition select_one (st : gmap string ResolvedPath * list ResolvedPath) (access : PathAccess)
    : gmap string ResolvedPath * list ResolvedPath :=
  let (cache, selectable) := st in
  let (cache, path) := resolve graph_fuel cache ∅ (pc_PathID access) 1 in
  match path with
  | Err _ => (cache, selectable)
  | Ok path =>
      if (pa_Visibility (rp_Path path) =? PathVisibilitySelectable)%string
      then (cache, selectable ++ [path]) else (cache, selectable)
  end.
End resolve.

(** ** The order of the selectable paths *)
(** The [less] of sort.SliceStable *)
Definition path_less (a b : ResolvedPath) : bool :=
  if negb (pa_SortOrder (rp_Path a) =? pa_SortOrder (rp_Path b))
  then pa_SortOrder (rp_Path a) <? pa_SortOrder (rp_Path b)
  else String.ltb (rp_Name a) (rp_Name b).
(** A stable sort: each element goes behind those that are not greater. *)
Fixpoint insert_path (x : ResolvedPath) (l : list ResolvedPath) : list ResolvedPath :=
  match l with
  | [] => [x]
  | y :: l => if path_less x y then x :: y :: l else y :: insert_path x l
  end.
Definition sort_paths (l : list ResolvedPath) : list ResolvedPath := foldl (fun acc x => insert_path x acc) [] l.

(** ** emit *)
(** [(emitted, ordered)] *)
Fixpoint emit (path : ResolvedPath) (st : gset string * list ResolvedPath) : gset string * list ResolvedPath :=
  if bool_decide (pa_ID (rp_Path path) ∈ st.1) then st
  else
    let st := match rp_Dialer path with Some d => emit d st | None => st end in
    (st.1 ∪ {[pa_ID (rp_Path path)]}, st.2 ++ [path]).

Fixpoint check_names (seen : gmap string string) (l : list ResolvedPath) : result ResolveError unit :=
  match l with
  | [] => Ok tt
  | path :: l =>
      match seen !! rp_Name path with
      | Some previous => Err (DuplicateName (rp_Name path) previous (pa_ID (rp_Path path)))
      | None => check_names (<[rp_Name path := pa_ID (rp_Path path)]> seen) l
      end
  end.

Definition ForUser (db : tables) (userName : string) : result ResolveError Result :=
  let? user := lift (GetProxyUser db userName) in
  guard! (us_Status user =? "active")%string else UserInactive (us_Name user);
  let? accesses := lift (ListActivePathAccessesByUser db (us_Name user)) in
  if bool_decide (accesses = []) then Ok {| Selectable := []; Ordered := [] |}
  else
    let selectable := sort_paths (foldl (select_one db user) (∅, []) accesses).2 in
    let ordered := (foldl (fun st p => emit p st) (∅, []) selectable).2 in
    let? _ := check_names ∅ ordered in
    Ok {| Selectable := selectable; Ordered := ordered |}.

(** ** Induction on a resolved path *)
Definition dialer_of (q p : ResolvedPath) : Prop := rp_Dialer p = Some q.
Lemma resolved_ind (P : ResolvedPath -> Prop) :
  (forall p, (forall d, rp_Dialer p = Some d -> P d) -> P p) -> forall p, P p.
Proof.
  intros Hstep. fix IH 1. intros p. apply Hstep. destruct p as [? ? ? ? ? ? [d0|]]; cbn [rp_Dialer]; intros d Hd.
  - injection Hd as <-. apply IH.
  - discriminate Hd.
Defined.
(** [q] is [p] or one of the paths it is dialled through. *)
Definition hop_of (q p : ResolvedPath) : Prop := rtc (flip dialer_of) p q.
Fixpoint hops (p : ResolvedPath) : nat := match rp_Dialer p with Some d => S (hops d) | None => 1 end.
Lemma hops_eq p : hops p = match rp_Dialer p with Some d => S (hops d) | None => 1%nat end.
Proof. by destruct p. Qed.
Lemma hop_of_hops q p : hop_of q p -> (hops q <= hops p)%nat.
Proof.
  induction 1 as [|p d q Hd _ IH]; [done|]. unfold flip, dialer_of in Hd. rewrite (hops_eq p), Hd. lia.
Qed.
Abbreviation path_id p := (pa_ID (rp_Path p)).

(** The identifiers of the rows are the keys they are found under. *)
Definition keyed (db : tables) : Prop :=
  forall k p, paths db !! k = Some p -> pa_ID p = k /\ TrimSpace k = k.
(** REFERENCES paths(id) *)
Definition dialers_known (db : tables) : Prop :=
  forall k p d, paths db !! k = Some p -> pa_DialerPathID p = Some d -> is_Some (paths db !! d).

Section resolve_proofs.
Context (db : tables) (user : ProxyUser) (Hkeyed : keyed db) (Hdialers : dialers_known db).
Abbreviation resolve := (resolve db user).
Abbreviation resolve_hop := (resolve_hop db user).

Lemma resolve_hop_path k h :
  resolve_hop k = Ok h -> paths db !! TrimSpace k = Some (rp_Path h) /\ rp_Dialer h = None.
Proof.
  unfold PathResolve.resolve_hop, GetPath, lookup_or.
  destruct (paths db !! TrimSpace k) as [p|] eqn:Ep; cbn [lift]; [|done].
  destruct (pa_Enabled p); [|done]. destruct (lift (GetEndpoint _ _)) as [e|]; [|done].
  destruct (ep_Enabled e); [|done]. destruct (lift (ResolveEndpoint _ _)) as [[px host]|]; [|done].
  destruct (px_Enabled px); [|done]. destruct (lift (GetNode _ _)) as [n|]; [|done].
  destruct (_ =? _)%string; [|done]. destruct (lift (GetUserNodeBinding _ _ _)) as [[]|]; [|done..].
  destruct (lift (GetProxyCredentialByIDs _ _ _)) as [c|]; [|done]. destruct (negb (_ || _)); [|done].
  intros H. by injection H as <-.
Qed.
Lemma resolve_hop_id k h : is_Some (paths db !! k) -> resolve_hop k = Ok h -> path_id h = k.
Proof.
  intros [p Hp] Hh. destruct (Hkeyed k p Hp) as [Hid Htr]. apply resolve_hop_path in Hh as [Hh _].
  rewrite Htr, Hp in Hh. by injection Hh as <-.
Qed.

(** A resolved path is what the tables say, hop by hop, and every hop is usable. *)
Definition faithful (r : ResolvedPath) : Prop :=
  resolve_hop (path_id r) = Ok (with_dialer r None) /\
  pa_DialerPathID (rp_Path r) = (fun d => path_id d) <$> rp_Dialer r.
(** What makes a hop usable by the user, row by row: the path, its endpoint, the
    proxy, its node with the host, the binding to the node and the credential. *)
Record usable_hop (r : ResolvedPath) : Prop := {
  uh_path : paths db !! path_id r = Some (rp_Path r) /\ pa_Enabled (rp_Path r) = true;
  uh_endpoint : endpoints db !! TrimSpace (pa_EndpointID (rp_Path r)) = Some (rp_Endpoint r) /\ ep_Enabled (rp_Endpoint r) = true;
  uh_proxy : px_ID (rp_Proxy r) = TrimSpace (ep_ProxyID (rp_Endpoint r)) /\ px_Enabled (rp_Proxy r) = true /\
    exists row node, proxies db !! px_ID (rp_Proxy r) = Some row /\ pr_DeletedAt row = None /\ pr_Enabled row = true /\
      px_Name (rp_Proxy r) = pr_Name row /\ nodes db !! pr_NodeID row = Some node /\ no_DeletedAt node = None /\ px_NodeName (rp_Proxy r) = no_Name node;
  uh_node : exists node bound, GetNode db (px_NodeName (rp_Proxy r)) = Ok node /\ no_Status node = "active"%string /\
    rp_Host r ∈ no_Hosts node /\ nh_ID (rp_Host r) = TrimSpace (ep_HostID (rp_Endpoint r)) /\ nh_Selected (rp_Host r) = true /\
    GetNode db (no_Name node) = Ok bound /\ bindings db !! (us_ID user, no_ID bound) = Some true;
  uh_credential : credentials db !! (TrimSpace (us_ID user), TrimSpace (px_ID (rp_Proxy r))) = Some (rp_Credential r) /\
    pk_Enabled (rp_Credential r) = true /\ pk_DeletedAt (rp_Credential r) = None;
  uh_label : pa_DisplayName (rp_Path r) <> ""%string -> rp_Name r = pa_DisplayName (rp_Path r);
  uh_no_label : pa_DisplayName (rp_Path r) = ""%string -> rp_Name r = (px_Name (rp_Proxy r) ++ " · " ++ pa_Name (rp_Path r))%string
}.
Lemma live_proxy_inv x p : live_proxy db x = Some p -> px_ID p = x /\ exists row node, proxies db !! x = Some row /\ pr_DeletedAt row = None /\
  px_Enabled p = pr_Enabled row /\ px_Name p = pr_Name row /\ nodes db !! pr_NodeID row = Some node /\ no_DeletedAt node = None /\ px_NodeName p = no_Name node.
Proof.
  unfold live_proxy. destruct (proxies db !! x) as [row|] eqn:Er; [|done]. cbn. destruct (nodes db !! pr_NodeID row) as [node|] eqn:En; [|done]. cbn.
  destruct (pr_DeletedAt row) eqn:E1, (no_DeletedAt node) eqn:E2; try done. intros [= <-]. split; [done|]. by exists row, node.
Qed.
Lemma resolve_hop_usable r : resolve_hop (path_id r) = Ok (with_dialer r None) -> usable_hop r.
Proof.
  destruct r as [p name e px host c dialer]. unfold PathResolve.resolve_hop, GetPath, GetEndpoint, lookup_or. cbn [rp_Path with_dialer].
  destruct (paths db !! TrimSpace (pa_ID p)) as [p'|] eqn:Ep; [|done]. cbn [lift]. destruct (pa_Enabled p') eqn:Hp; [|done].
  destruct (endpoints db !! TrimSpace (pa_EndpointID p')) as [e'|] eqn:Ee; [|done]. cbn [lift]. destruct (ep_Enabled e') eqn:He; [|done].
  unfold ResolveEndpoint, validateEndpointPair, GetProxyByID. destruct (live_proxy db (TrimSpace (ep_ProxyID e'))) as [px'|] eqn:Ex; [|done].
  destruct (GetNode db (px_NodeName px')) as [node|] eqn:En; [|done]. destruct (find_host (no_Hosts node) (ep_HostID e')) as [h'|] eqn:Eh; [|done]. cbn [lift].
  destruct (px_Enabled px') eqn:Hx; [|done]. rewrite En. cbn [lift]. destruct (no_Status node =? "active")%string eqn:Hs; [|done].
  unfold GetUserNodeBinding. destruct (GetNode db (no_Name node)) as [bound|] eqn:Enb; [|done]. destruct (bindings db !! (us_ID user, no_ID bound)) as [[]|] eqn:Eb; [|done..].
  cbn [lift]. unfold GetProxyCredentialByIDs. destruct (credentials db !! _) as [c'|] eqn:Ec; [|done]. cbn [lift].
  destruct (negb (_ || _)) eqn:Hc; [|done]. intros [= -> <- -> -> -> ->]. apply negb_true_iff, orb_false_iff in Hc as [Hc1%negb_false_iff Hc2%bool_decide_eq_false].
  destruct (Hkeyed _ _ Ep) as [Hid Htr]. destruct (live_proxy_inv _ _ Ex) as (Hxid & row & n & Hrow & Hd & Hen & Hname & Hn & Hnd & Hnn).
  destruct (find_host_Ok _ _ _ Eh) as (Hin & Hhid & Hsel). apply String.eqb_eq in Hs.
  split; cbn [rp_Path rp_Endpoint rp_Proxy rp_Host rp_Credential rp_Name].
  - by rewrite Hid at 1.
  - done.
  - rewrite Hxid. split; [done|]. split; [done|]. exists row, n. split_and!; [done|done|congruence|done|done|done|done].
  - by exists node, bound.
  - split_and!; [done|done|by apply eq_None_not_Some].
  - intros Hl%String.eqb_neq. unfold published_name. by rewrite Hl.
  - intros Hl. unfold published_name. by rewrite Hl.
Qed.
Record coherent (cache : gmap string ResolvedPath) : Prop := {
  co_id k r : cache !! k = Some r -> path_id r = k /\ is_Some (paths db !! k);
  co_faithful k r : cache !! k = Some r -> faithful r;
  co_dialer k r d : cache !! k = Some r -> rp_Dialer r = Some d -> cache !! path_id d = Some d;
}.

Lemma resolve_spec fuel : forall cache visiting k depth cache' r,
  coherent cache -> is_Some (paths db !! k) ->
  resolve fuel cache visiting k depth = (cache', r) ->
  cache ⊆ cache' /\ coherent cache' /\
  (forall x, x ∈ visiting -> cache !! x = None -> cache' !! x = None) /\
  (forall p, r = Ok p -> cache' !! k = Some p).
Proof.
  induction fuel as [|fuel IH]; intros cache visiting k depth cache' r Hco Hk; cbn [PathResolve.resolve].
  { intros H. injection H as <- <-. by split_and!. }
  assert (Hsame : forall e, (cache, @Err ResolveError ResolvedPath e) = (cache', r) ->
    cache ⊆ cache' /\ coherent cache' /\ (forall x, x ∈ visiting -> cache !! x = None -> cache' !! x = None) /\
    (forall p, r = Ok p -> cache' !! k = Some p)).
  { intros e H. injection H as <- <-. by split_and!. }
  destruct (cache !! k) as [cached|] eqn:Ec.
  { intros H. injection H as <- <-. split; [done|]. split; [done|]. split; [done|]. intros p Hp. by injection Hp as <-. }
  destruct (bool_decide (k ∈ visiting)) eqn:Ev; [apply Hsame|apply bool_decide_eq_false in Ev].
  destruct (_ <? _)%nat; [apply Hsame|].
  destruct (resolve_hop k) as [h|e] eqn:Eh; [|apply Hsame].
  pose proof (resolve_hop_id _ _ Hk Eh) as Hid. pose proof (resolve_hop_path _ _ Eh) as [Hp Hnd].
  assert (Hadd : forall c r', cache ⊆ c -> coherent c -> c !! k = None ->
    (forall x, x ∈ visiting -> cache !! x = None -> c !! x = None) ->
    path_id r' = k -> faithful r' -> (forall d, rp_Dialer r' = Some d -> c !! path_id d = Some d) ->
    (<[k := r']> c, Ok r') = (cache', r) ->
    cache ⊆ cache' /\ coherent cache' /\ (forall x, x ∈ visiting -> cache !! x = None -> cache' !! x = None) /\
    (forall p, r = Ok p -> cache' !! k = Some p)).
  { intros c r' Hsub [Ci Cf Cd] Hn Hvis Hid' Hf Hd H. injection H as <- <-.
    split; [by apply insert_subseteq_r|]. split; [|split].
    - split.
      + intros k' r0. destruct (decide (k' = k)) as [->|Hne].
        * rewrite lookup_insert, decide_True by done. intros H. by injection H as <-.
        * rewrite lookup_insert_ne by done. apply Ci.
      + intros k' r0. destruct (decide (k' = k)) as [->|Hne].
        * rewrite lookup_insert, decide_True by done. intros H. by injection H as <-.
        * rewrite lookup_insert_ne by done. apply Cf.
      + intros k' r0 d Hr Hrd. assert (Hcd : c !! path_id d = Some d).
        { destruct (decide (k' = k)) as [->|Hne].
          - rewrite lookup_insert, decide_True in Hr by done. injection Hr as <-. by apply Hd.
          - rewrite lookup_insert_ne in Hr by done. by eapply Cd. }
        rewrite lookup_insert_ne; [done|]. congruence.
    - intros x Hx Hcx. rewrite lookup_insert_ne; [by apply Hvis|]. congruence.
    - intros p Hpp. injection Hpp as <-. by rewrite lookup_insert, decide_True. }
  assert (Hh : with_dialer h None = h) by (destruct h; cbn in Hnd; by subst).
  destruct (pa_DialerPathID (rp_Path h)) as [d|] eqn:Ed.
  2:{ apply Hadd; [done..| |]; rewrite ?Hnd; [|done]. split; [|by rewrite Ed, Hnd]. by rewrite Hid, Hh. }
  destruct (resolve fuel cache (visiting ∪ {[k]}) d (S depth)) as [cache1 rd] eqn:Er.
  assert (Hkd : is_Some (paths db !! d)) by (by eapply Hdialers).
  destruct (IH _ _ _ _ _ _ Hco Hkd Er) as (Hsub & Hco1 & Hvis1 & Hok1).
  destruct rd as [dl|e].
  - specialize (Hok1 dl eq_refl). destruct (co_id _ Hco1 _ _ Hok1) as [Hidd _].
    apply Hadd; [done|done| | |done| |].
    + apply Hvis1; [by apply elem_of_union_r, elem_of_singleton|done].
    + intros x Hx. by apply Hvis1, elem_of_union_l.
    + split; cbn [rp_Path rp_Dialer with_dialer].
      * rewrite Hid. rewrite <- Hh in Eh. exact Eh.
      * by rewrite Ed, <- Hidd.
    + cbn [rp_Dialer with_dialer]. intros d' H. injection H as <-. by rewrite Hidd.
  - intros H. injection H as <- <-. split; [done|]. split; [done|]. split; [|done].
    intros x Hx. by apply Hvis1, elem_of_union_l.
Qed.

(** *** Every usable chain of at most three paths resolves *)
Inductive usable : string -> nat -> Prop :=
| usable_end k h : resolve_hop k = Ok h -> pa_DialerPathID (rp_Path h) = None -> usable k 1
| usable_dial k h d n :
    resolve_hop k = Ok h -> pa_DialerPathID (rp_Path h) = Some d -> usable d n -> usable k (S n).
Lemma usable_fun k n1 n2 : usable k n1 -> usable k n2 -> n1 = n2.
Proof.
  intros H. revert n2. induction H as [k h Hk Hd|k h d n Hk Hd _ IH]; intros n2 H2;
    inversion H2 as [k' h' Hk' Hd'|k' h' d' n' Hk' Hd' Hc']; subst;
    rewrite Hk in Hk'; injection Hk' as <-; try congruence.
  rewrite Hd in Hd'. injection Hd' as <-. f_equal. by apply IH.
Qed.
Lemma resolve_complete k n : usable k n -> forall fuel cache visiting depth,
  (n <= fuel)%nat -> (depth + n <= S MaxDialerPathDepth)%nat ->
  (forall x i, x ∈ visiting -> usable x i -> (n < i)%nat) ->
  exists p, (resolve fuel cache visiting k depth).2 = Ok p.
Proof.
  intros Hu. induction Hu as [k h Hk Hd|k h d n Hk Hd Hu IH]; intros [|fuel] cache visiting depth Hf Hdep Hv;
    [lia| |lia|]; cbn [PathResolve.resolve]; (destruct (cache !! k) as [c|]; [by eexists|]);
    (rewrite bool_decide_false by (intros Hin; eapply (Nat.lt_irrefl _), Hv; [exact Hin|];
       first [by eapply usable_dial|by eapply usable_end]));
    (replace (_ <? _)%nat with false by (symmetry; apply Nat.ltb_ge; lia)); rewrite Hk, Hd; [by eexists|].
  destruct (IH fuel cache (visiting ∪ {[k]}) (S depth)) as [p Hp]; [lia|lia| |].
  - intros x i [Hx| ->%elem_of_singleton]%elem_of_union Hi; [specialize (Hv x i Hx Hi); lia|].
    assert (i = S n) by (eapply usable_fun; [exact Hi|by eapply usable_dial]). lia.
  - destruct (resolve fuel cache _ d (S depth)) as [c r]. cbn [snd] in Hp. subst r. by eexists.
Qed.
Lemma lift_fuel {A} (r : res A) : lift r <> Err NoFuel.
Proof. by destruct r. Qed.
Lemma resolve_hop_fuel k : resolve_hop k <> Err NoFuel.
Proof.
  unfold PathResolve.resolve_hop.
  repeat match goal with
  | |- context [match lift ?r with _ => _ end] => pose proof (lift_fuel r); destruct (lift r)
  | |- context [if ?b then _ else _] => destruct b
  | |- context [let (_, _) := ?p in _] => destruct p
  end; congruence.
Qed.
Lemma resolve_fuel fuel cache visiting k depth :
  (S (S MaxDialerPathDepth) <= fuel + depth)%nat -> (0 < fuel)%nat ->
  (resolve fuel cache visiting k depth).2 <> Err NoFuel.
Proof.
  revert cache visiting k depth. induction fuel as [|fuel IH]; intros cache visiting k depth Hf Hp; [lia|].
  cbn [PathResolve.resolve]. destruct (cache !! k); [done|]. destruct (bool_decide _); [done|].
  destruct (_ <? _)%nat eqn:Ed; [done|]. apply Nat.ltb_ge in Ed.
  destruct (resolve_hop k) as [h|e] eqn:Eh.
  - destruct (pa_DialerPathID (rp_Path h)) as [d|]; [|done].
    specialize (IH cache (visiting ∪ {[k]}) d (S depth) ltac:(lia) ltac:(lia)).
    destruct (resolve fuel cache _ d (S depth)) as [c [p|e]]; [done|]. cbn [snd] in *. congruence.
  - cbn [snd]. intros He. injection He as ->. by apply resolve_hop_fuel in Eh.
Qed.

(** *** The loop over the accesses *)
Definition good_access (a : PathAccess) : Prop := is_Some (paths db !! pc_PathID a).
Record selected (done : list PathAccess) (st : gmap string ResolvedPath * list ResolvedPath) : Prop := {
  se_coherent : coherent st.1;
  se_cached p : p ∈ st.2 -> st.1 !! path_id p = Some p;
  se_selectable p : p ∈ st.2 -> pa_Visibility (rp_Path p) = PathVisibilitySelectable;
  se_granted p : p ∈ st.2 -> exists a, a ∈ done /\ pc_PathID a = path_id p;
  se_complete a n : a ∈ done -> usable (pc_PathID a) n -> (n <= MaxDialerPathDepth)%nat ->
    exists p, st.1 !! pc_PathID a = Some p /\
      (pa_Visibility (rp_Path p) = PathVisibilitySelectable -> p ∈ st.2);
}.
Lemma select_one_spec done st a :
  good_access a -> selected done st -> selected (done ++ [a]) (select_one db user st a).
Proof.
  intros Ha [Sc Sca Ss Sg Sco]. destruct st as [cache sel]. unfold select_one. cbn [fst snd] in *.
  destruct (resolve graph_fuel cache ∅ (pc_PathID a) 1) as [cache' r] eqn:Er.
  destruct (resolve_spec _ _ _ _ _ _ _ Sc Ha Er) as (Hsub & Hco & _ & Hok).
  assert (Hcache : forall k p, cache !! k = Some p -> cache' !! k = Some p) by (intros k p Hkp; by eapply lookup_weaken).
  assert (Hnew : forall n, usable (pc_PathID a) n -> (n <= MaxDialerPathDepth)%nat -> exists p, r = Ok p).
  { intros n Hu Hn. destruct (resolve_complete _ _ Hu graph_fuel cache ∅ 1) as [p Hp];
      [unfold graph_fuel; lia|lia|set_solver|]. rewrite Er in Hp. by exists p. }
  destruct r as [p|e].
  - specialize (Hok p eq_refl). destruct (co_id _ Hco _ _ Hok) as [Hid _].
    destruct (_ =? _)%string eqn:Evis.
    + apply String.eqb_eq in Evis. split; cbn [fst snd]; [done|..].
      * intros q [Hq| ->%list_elem_of_singleton]%elem_of_app; [by apply Hcache, Sca|by rewrite Hid].
      * intros q [Hq| ->%list_elem_of_singleton]%elem_of_app; [by apply Ss|done].
      * intros q [Hq| ->%list_elem_of_singleton]%elem_of_app.
        -- destruct (Sg q Hq) as (a' & Ha' & He). exists a'. split; [apply elem_of_app; by left|done].
        -- exists a. split; [apply elem_of_app; right; by left|done].
      * intros a' n [Ha'| ->%list_elem_of_singleton]%elem_of_app Hu Hn.
        -- destruct (Sco a' n Ha' Hu Hn) as (q & Hq & Hin). exists q. split; [by apply Hcache|].
           intros Hv. apply elem_of_app. left. by apply Hin.
        -- exists p. split; [done|]. intros _. apply elem_of_app. right. by left.
    + apply String.eqb_neq in Evis. split; cbn [fst snd]; [done| |done|..].
      * intros q Hq. by apply Hcache, Sca.
      * intros q Hq. destruct (Sg q Hq) as (a' & Ha' & He). exists a'. split; [apply elem_of_app; by left|done].
      * intros a' n [Ha'| ->%list_elem_of_singleton]%elem_of_app Hu Hn.
        -- destruct (Sco a' n Ha' Hu Hn) as (q & Hq & Hin). exists q. split; [by apply Hcache|done].
        -- exists p. by split.
  - split; cbn [fst snd]; [done| |done|..].
    + intros q Hq. by apply Hcache, Sca.
    + intros q Hq. destruct (Sg q Hq) as (a' & Ha' & He). exists a'. split; [apply elem_of_app; by left|done].
    + intros a' n [Ha'| ->%list_elem_of_singleton]%elem_of_app Hu Hn.
      * destruct (Sco a' n Ha' Hu Hn) as (q & Hq & Hin). exists q. split; [by apply Hcache|done].
      * by destruct (Hnew n Hu Hn).
Qed.
Lemma select_all accesses done st :
  Forall good_access accesses -> selected done st ->
  selected (done ++ accesses) (foldl (select_one db user) st accesses).
Proof.
  intros Hg. revert done st. induction Hg as [|a accesses Ha Hg IH]; intros done st Hs; cbn [foldl].
  - by rewrite app_nil_r.
  - rewrite cons_middle, app_assoc. apply IH. by apply select_one_spec.
Qed.
Lemma selected_nil : selected [] (∅, []).
Proof.
  split; cbn [fst snd].
  - split; intros k r; by rewrite lookup_empty.
  - intros p Hp. by apply elem_of_nil in Hp.
  - intros p Hp. by apply elem_of_nil in Hp.
  - intros p Hp. by apply elem_of_nil in Hp.
  - intros a n Ha. by apply elem_of_nil in Ha.
Qed.
End resolve_proofs.

(** ** Emission *)
Section emit_proofs.
Context (cache : gmap string ResolvedPath).
(** The path and everything it is dialled through is the cached value of its id. *)
Definition cached_below (p : ResolvedPath) : Prop := forall q, hop_of q p -> cache !! path_id q = Some q.
Lemma cached_below_dialer p d : cached_below p -> rp_Dialer p = Some d -> cached_below d.
Proof. intros Hp Hd q Hq. apply Hp. by eapply rtc_l. Qed.

Record emitted (st : gset string * list ResolvedPath) : Prop := {
  em_ids : st.1 = list_to_set (map (fun p => path_id p) st.2);
  em_nodup : NoDup (map (fun p => path_id p) st.2);
  em_cached p : p ∈ st.2 -> cache !! path_id p = Some p;
  em_order l1 q l2 d : st.2 = l1 ++ q :: l2 -> rp_Dialer q = Some d -> d ∈ l1;
}.
Lemma emitted_id st p : emitted st -> cache !! path_id p = Some p -> path_id p ∈ st.1 -> p ∈ st.2.
Proof.
  intros He Hc Hin. rewrite (em_ids _ He), elem_of_list_to_set in Hin.
  apply list_elem_of_fmap in Hin as (q & Hq & Hin). pose proof (em_cached _ He q Hin) as Hcq. congruence.
Qed.
Lemma emitted_snoc st p :
  emitted st -> path_id p ∉ st.1 -> cache !! path_id p = Some p ->
  (forall d, rp_Dialer p = Some d -> d ∈ st.2) -> emitted (st.1 ∪ {[path_id p]}, st.2 ++ [p]).
Proof.
  intros [Hi Hn Hc Ho] Hnew Hcp Hd. split; cbn [fst snd].
  - rewrite map_app, list_to_set_app_L, <- Hi. cbn [map list_to_set foldr]. set_solver.
  - rewrite map_app. apply NoDup_app. split; [done|]. split; [|apply NoDup_singleton].
    intros x Hx ->%list_elem_of_singleton. apply Hnew. rewrite Hi. by apply elem_of_list_to_set.
  - intros q [Hq| ->%list_elem_of_singleton]%elem_of_app; [by apply Hc|done].
  - intros l1 q l2 d Heq Hqd. destruct l2 as [|z l2 _] using rev_ind.
    + apply app_inj_tail in Heq as [<- <-]. by apply Hd.
    + rewrite app_comm_cons, app_assoc in Heq. apply app_inj_tail in Heq as [Heq _]. by eapply Ho.
Qed.
Lemma emit_eq p st :
  emit p st = if bool_decide (path_id p ∈ st.1) then st
    else let st := match rp_Dialer p with Some d => emit d st | None => st end in
         (st.1 ∪ {[path_id p]}, st.2 ++ [p]).
Proof. by destruct p. Qed.

(** [emit] adds the path and its dialers, nothing else, in a good order. *)
Lemma emit_spec p : forall st, cached_below p -> emitted st ->
  emitted (emit p st) /\ p ∈ (emit p st).2 /\
  (forall q, q ∈ st.2 -> q ∈ (emit p st).2) /\
  (forall q, q ∈ (emit p st).2 -> q ∈ st.2 \/ hop_of q p).
Proof.
  induction p as [p IH] using resolved_ind. intros st Hc He. rewrite emit_eq.
  assert (Hcp : cache !! path_id p = Some p) by (by apply Hc, rtc_refl).
  destruct (bool_decide (path_id p ∈ st.1)) eqn:Eb.
  { apply bool_decide_eq_true in Eb. split; [done|]. split; [by apply emitted_id|]. split; [done|by left]. }
  apply bool_decide_eq_false in Eb. cbn zeta.
  destruct (rp_Dialer p) as [d|] eqn:Ed.
  - destruct (IH d eq_refl st (cached_below_dialer _ _ Hc Ed) He) as (He1 & Hd1 & Hold & Hnew).
    assert (Hnp : path_id p ∉ (emit d st).1).
    { intros Hin. apply (emitted_id _ _ He1 Hcp) in Hin. destruct (Hnew p Hin) as [Hst|Hh].
      - apply Eb. rewrite (em_ids _ He). apply elem_of_list_to_set, list_elem_of_fmap. by exists p.
      - apply hop_of_hops in Hh. rewrite (hops_eq p), Ed in Hh. lia. }
    split; [apply emitted_snoc; [done..|]|split; [|split]].
    + intros d' Hd'. rewrite Ed in Hd'. by injection Hd' as <-.
    + cbn [snd]. apply elem_of_app. right. by left.
    + intros q Hq. cbn [snd]. apply elem_of_app. left. by apply Hold.
    + cbn [snd]. intros q [Hq| ->%list_elem_of_singleton]%elem_of_app; [|right; apply rtc_refl].
      destruct (Hnew q Hq) as [Hst|Hh]; [by left|right]. by eapply rtc_l.
  - split; [apply emitted_snoc; [done..|]|split; [|split]].
    + intros d' Hd'. congruence.
    + cbn [snd]. apply elem_of_app. right. by left.
    + intros q Hq. cbn [snd]. apply elem_of_app. by left.
    + cbn [snd]. intros q [Hq| ->%list_elem_of_singleton]%elem_of_app; [by left|right; apply rtc_refl].
Qed.
Lemma emit_all_spec sel st : (forall p, p ∈ sel -> cached_below p) -> emitted st ->
  emitted (foldl (fun st p => emit p st) st sel) /\
  (forall q, q ∈ st.2 -> q ∈ (foldl (fun st p => emit p st) st sel).2) /\
  (forall p, p ∈ sel -> p ∈ (foldl (fun st p => emit p st) st sel).2) /\
  (forall q, q ∈ (foldl (fun st p => emit p st) st sel).2 -> q ∈ st.2 \/ exists p, p ∈ sel /\ hop_of q p).
Proof.
  revert st. induction sel as [|p sel IH]; intros st Hc He; cbn [foldl].
  - split; [done|]. split; [done|]. split; [by intros p Hp%elem_of_nil|by left].
  - destruct (emit_spec p st (Hc p ltac:(by left)) He) as (He1 & Hp1 & Hold & Hnew).
    destruct (IH (emit p st) (fun q Hq => Hc q ltac:(by right)) He1) as (He2 & Hold2 & Hin2 & Hnew2).
    split; [done|]. split; [by eauto|]. split.
    + intros q [->|Hq]%elem_of_cons; [by apply Hold2|by apply Hin2].
    + intros q Hq. destruct (Hnew2 q Hq) as [Hq1|(p' & Hp' & Hh)].
      * destruct (Hnew q Hq1) as [Hst|Hh]; [by left|right]. exists p. split; [by left|done].
      * right. exists p'. split; [by right|done].
Qed.
Lemma emitted_nil : emitted (∅, []).
Proof.
  split; cbn [fst snd map]; [done|apply NoDup_nil_2|by intros p Hp%elem_of_nil|].
  intros l1 q l2 d H. by destruct l1.
Qed.
Lemma emitted_hops st p q : emitted st -> p ∈ st.2 -> hop_of q p -> q ∈ st.2.
Proof.
  intros He Hp Hh. induction Hh as [|p d q Hd _ IH]; [done|]. apply IH.
  apply list_elem_of_split in Hp as (l1 & l2 & Heq). rewrite Heq. apply elem_of_app. left.
  by eapply em_order.
Qed.
End emit_proofs.

(** ** Sorting *)
Lemma insert_path_perm x l : insert_path x l ≡ₚ x :: l.
Proof.
  induction l as [|y l IH]; cbn [insert_path]; [done|]. destruct (path_less x y); [done|].
  rewrite IH. apply Permutation_swap.
Qed.
Lemma sort_paths_perm l : sort_paths l ≡ₚ l.
Proof.
  unfold sort_paths. rewrite <- (app_nil_r l) at 2. generalize (@nil ResolvedPath) as acc.
  induction l as [|x l IH]; intros acc; cbn [foldl]; [done|].
  rewrite IH, insert_path_perm. apply Permutation_sym, Permutation_middle.
Qed.
(** Not out of order. *)
Definition path_le (a b : ResolvedPath) : Prop := path_less b a = false.
Lemma path_le_trans : Transitive path_le.
Proof.
  intros a b c. unfold path_le, path_less.
  destruct (pa_SortOrder (rp_Path b) =? pa_SortOrder (rp_Path a)) eqn:E1,
    (pa_SortOrder (rp_Path c) =? pa_SortOrder (rp_Path b)) eqn:E2,
    (pa_SortOrder (rp_Path c) =? pa_SortOrder (rp_Path a)) eqn:E3; cbn [negb]; try lia.
  intros H1 H2. apply str_ltb_ge in H1, H2. apply str_ltb_ge.
  apply str_not_lt in H1 as [<-|H1]; [done|]. apply str_not_lt in H2 as [H2|H2]; [by rewrite H2; intros ?%str_lt_asym|].
  intros H3. eapply str_lt_asym; [exact H1|]. by eapply str_lt_trans.
Qed.
Lemma path_less_le a b : path_less a b = true -> path_le a b.
Proof.
  unfold path_le, path_less.
  destruct (pa_SortOrder (rp_Path a) =? pa_SortOrder (rp_Path b)) eqn:E1,
    (pa_SortOrder (rp_Path b) =? pa_SortOrder (rp_Path a)) eqn:E2; cbn [negb]; try lia.
  intros H1. apply str_ltb_lt in H1. apply str_ltb_ge. by intros ?%str_lt_asym.
Qed.
Lemma insert_path_sorted x l : StronglySorted path_le l -> StronglySorted path_le (insert_path x l).
Proof.
  induction 1 as [|y l Hl IH Hy]; cbn [insert_path]; [repeat constructor|].
  destruct (path_less x y) eqn:E.
  - constructor; [by constructor|]. constructor; [by apply path_less_le|].
    eapply Forall_impl; [exact Hy|]. intros z Hz. eapply path_le_trans; [by apply path_less_le|exact Hz].
  - constructor; [done|]. rewrite insert_path_perm. constructor; [done|exact Hy].
Qed.
Lemma sort_paths_sorted l : StronglySorted path_le (sort_paths l).
Proof.
  unfold sort_paths. assert (H : StronglySorted path_le []) by constructor. revert H.
  generalize (@nil ResolvedPath) as acc. induction l as [|x l IH]; intros acc Ha; cbn [foldl]; [done|].
  by apply IH, insert_path_sorted.
Qed.

(** ** ForUser *)
Lemma check_names_nodup seen l :
  check_names seen l = Ok tt ->
  NoDup (map rp_Name l) /\ (forall p, p ∈ l -> seen !! rp_Name p = None).
Proof.
  revert seen. induction l as [|p l IH]; intros seen; cbn [check_names map].
  - intros _. split; [apply NoDup_nil_2|by intros p Hp%elem_of_nil].
  - destruct (seen !! rp_Name p) eqn:E; [done|]. intros H. apply IH in H as [Hnd Hs]. split.
    + apply NoDup_cons. split; [|done]. intros Hin. apply list_elem_of_fmap in Hin as (q & Hq & Hin).
      apply Hs in Hin. rewrite <- Hq, lookup_insert, decide_True in Hin by done. discriminate Hin.
    + intros q [->|Hq]%elem_of_cons; [done|]. apply Hs in Hq. destruct (decide (rp_Name q = rp_Name p)) as [He|Hne].
      * rewrite He, lookup_insert, decide_True in Hq by done. discriminate Hq.
      * by rewrite lookup_insert_ne in Hq.
Qed.

Section for_user.
Context (db : tables) (Hkeyed : keyed db) (Hdialers : dialers_known db).

Lemma coherent_below user cache p :
  coherent db user cache -> cache !! path_id p = Some p -> cached_below cache p.
Proof.
  intros Hc Hp q Hq. revert Hp. induction Hq as [|p d q Hd _ IH]; intros Hp; [done|]. apply IH.
  by eapply co_dialer.
Qed.

(** What a successful [ForUser] returned, and from what. *)
Lemma ForUser_inv userName r :
  ForUser db userName = Ok r ->
  exists user accesses st,
    GetProxyUser db userName = Ok user /\ us_Status user = "active" /\
    ListActivePathAccessesByUser db (us_Name user) = Ok accesses /\
    selected db user accesses st /\ Selectable r = sort_paths st.2 /\
    emitted st.1 (foldl (fun st p => emit p st) (∅, []) (Selectable r)) /\
    Ordered r = (foldl (fun st p => emit p st) (∅, []) (Selectable r)).2 /\
    (forall p, p ∈ Selectable r -> cached_below st.1 p) /\
    NoDup (map rp_Name (Ordered r)).
Proof.
  unfold ForUser. destruct (GetProxyUser db userName) as [user|]; cbn [lift]; [|done].
  destruct (us_Status user =? "active")%string eqn:Es; [|done]. apply String.eqb_eq in Es.
  destruct (ListActivePathAccessesByUser db (us_Name user)) as [accesses|] eqn:Ea; cbn [lift]; [|done].
  destruct (bool_decide (accesses = [])) eqn:E0.
  { apply bool_decide_eq_true in E0. subst accesses. intros H. injection H as <-.
    exists user, [], (∅, []). split_and!; [done..|apply selected_nil|done|apply emitted_nil|done| |apply NoDup_nil_2].
    by intros p Hp%elem_of_nil. }
  set (st := foldl (select_one db user) (∅, []) accesses).
  assert (Hsel : selected db user accesses st).
  { apply (select_all db user Hkeyed Hdialers accesses []); [|apply selected_nil].
    unfold ListActivePathAccessesByUser in Ea. destruct (GetProxyUser db (us_Name user)) as [user2|]; [|done].
    injection Ea as <-. apply Forall_forall. intros a Ha. apply list_elem_of_In, filter_In in Ha as [_ Ha].
    unfold active_access in Ha. unfold good_access. destruct (paths db !! pc_PathID a); [by eexists|].
    by rewrite andb_false_r in Ha. }
  destruct (check_names ∅ _) as [[]|] eqn:Ec; [|done]. intros H. injection H as <-. cbn [Selectable Ordered].
  assert (Hbelow : forall p, p ∈ sort_paths st.2 -> cached_below st.1 p).
  { intros p Hp. rewrite (sort_paths_perm st.2) in Hp. eapply coherent_below; [apply Hsel|by apply Hsel]. }
  exists user, accesses, st. split_and!; [done..| |done|done|].
  - apply (emit_all_spec st.1 (sort_paths st.2) (∅, [])); [exact Hbelow|apply emitted_nil].
  - apply check_names_nodup in Ec. apply Ec.
Qed.

Lemma ForUser_faithful userName r :
  ForUser db userName = Ok r ->
  exists user, GetProxyUser db userName = Ok user /\ us_Status user = "active" /\ forall p, p ∈ Ordered r -> faithful db user p.
Proof.
  intros H. destruct (ForUser_inv _ _ H) as (user & accesses & st & Hu & Hs & Ha & Hsel & Hsr & He & Ho & Hb & _).
  exists user. split; [done|]. split; [done|].
  destruct (emit_all_spec st.1 (Selectable r) (∅, []) Hb (emitted_nil _)) as (_ & _ & _ & Hnew). rewrite <- Ho in Hnew.
  intros p Hp. eapply (co_faithful _ _ _ (se_coherent _ _ _ _ Hsel) (path_id p)).
  destruct (Hnew p Hp) as [Hp0|(q & Hq & Hpq)]; [by apply elem_of_nil in Hp0|]. by apply (Hb q Hq).
Qed.

(** C28: a subscription is fail-closed: every path it publishes, selectable or
    as a dialer, is enabled and usable by the user at this moment on every
    table (its row, endpoint, proxy, host, node, binding, credential), is dialled
    through exactly the path its row names, never directly instead, and a
    selectable one was granted to the user. *)
Theorem ForUser_fail_closed userName r :
  ForUser db userName = Ok r ->
  exists user, GetProxyUser db userName = Ok user /\ us_Status user = "active" /\
    (forall p, p ∈ Ordered r ->
       usable_hop db user p /\ pa_DialerPathID (rp_Path p) = (fun d => path_id d) <$> rp_Dialer p) /\
    (forall p, p ∈ Selectable r ->
       p ∈ Ordered r /\ pa_Visibility (rp_Path p) = PathVisibilitySelectable /\
       exists a holder, a ∈ path_accesses db /\ GetProxyUser db (us_Name user) = Ok holder /\ pc_ProxyUserID a = us_ID holder /\
         pc_PathID a = path_id p /\ pc_Enabled a = true /\ pc_DeletedAt a = None).
Proof.
  intros H. destruct (ForUser_inv _ _ H) as (user & accesses & st & Hu & Hs & Ha & Hsel & Hsr & He & Ho & Hb & _).
  destruct (ForUser_faithful _ _ H) as (user2 & Hu2 & _ & Hfaith). rewrite Hu in Hu2. injection Hu2 as <-.
  exists user. split; [done|]. split; [done|].
  destruct (emit_all_spec st.1 (Selectable r) (∅, []) Hb (emitted_nil _)) as (_ & _ & Hin & _). rewrite <- Ho in Hin. split.
  - intros p Hp. destruct (Hfaith p Hp) as [Hf Hd]. split; [by apply resolve_hop_usable|done].
  - intros p Hp. split; [by apply Hin|]. rewrite Hsr, (sort_paths_perm st.2) in Hp.
    split; [by apply Hsel|]. destruct (se_granted _ _ _ _ Hsel p Hp) as (a & Hain & Hid).
    unfold ListActivePathAccessesByUser in Ha. destruct (GetProxyUser db (us_Name user)) as [holder|] eqn:Eh; [|done].
    injection Ha as <-. exists a, holder. apply list_elem_of_In, filter_In in Hain as [Hain Hact].
    unfold active_access in Hact. rewrite !andb_true_iff in Hact. rewrite String.eqb_eq in Hact. destruct Hact as [[[Hu3 Hen] Hdel] _].
    split_and!; [by apply list_elem_of_In|done|done|done|done|by destruct (pc_DeletedAt a)].
Qed.

(** the emitted list is in dialling order: each path comes once, after the
    path it is dialled through; it holds the selectable paths with all the
    paths under them and no other; names are unique; and the selectable paths
    are sorted by sort order, then name. *)
Theorem ForUser_ordered userName r :
  ForUser db userName = Ok r ->
  (forall l1 q l2 d, Ordered r = l1 ++ q :: l2 -> rp_Dialer q = Some d -> d ∈ l1) /\
  NoDup (map (fun p => path_id p) (Ordered r)) /\ NoDup (map rp_Name (Ordered r)) /\
  (forall q, q ∈ Ordered r <-> exists p, p ∈ Selectable r /\ hop_of q p) /\
  StronglySorted path_le (Selectable r).
Proof.
  intros H. destruct (ForUser_inv _ _ H) as (user & accesses & st & Hu & Hs & Ha & Hsel & Hsr & He & Ho & Hb & Hn).
  destruct (emit_all_spec st.1 (Selectable r) (∅, []) Hb (emitted_nil _)) as (_ & _ & Hin & Hnew).
  rewrite Ho. split; [by eapply em_order|]. split; [by eapply em_nodup|]. rewrite <- Ho. split; [done|].
  rewrite <- Ho in Hin, Hnew. split.
  - intros q. split.
    + intros Hq. destruct (Hnew q Hq) as [Hq0|?]; [by apply elem_of_nil in Hq0|done].
    + intros (p & Hp & Hqp). rewrite Ho. eapply emitted_hops; [exact He| |exact Hqp]. rewrite <- Ho. by apply Hin.
  - rewrite Hsr. apply sort_paths_sorted.
Qed.

(** one broken path does not take the others down: every path granted to
    the user whose own chain of at most MaxDialerPathDepth hops is usable, and
    which is selectable, is in the subscription, whatever the other grants
    resolve to. *)
Theorem ForUser_complete userName r user a n h :
  ForUser db userName = Ok r -> GetProxyUser db userName = Ok user ->
  ListActivePathAccessesByUser db (us_Name user) = Ok (ListActivePathAccessesByUserID db (us_ID user)) ->
  a ∈ ListActivePathAccessesByUserID db (us_ID user) ->
  usable db user (pc_PathID a) n -> (n <= MaxDialerPathDepth)%nat ->
  resolve_hop db user (pc_PathID a) = Ok h -> pa_Visibility (rp_Path h) = PathVisibilitySelectable ->
  exists p, p ∈ Selectable r /\ path_id p = pc_PathID a.
Proof.
  intros H Hu Hl Hain Hus Hn Hh Hv.
  destruct (ForUser_inv _ _ H) as (user' & accesses & st & Hu' & Hs & Ha & Hsel & Hsr & _).
  rewrite Hu in Hu'. injection Hu' as <-. rewrite Hl in Ha. injection Ha as <-.
  destruct (se_complete _ _ _ _ Hsel a n Hain Hus Hn) as (p & Hp & Hin).
  destruct (co_id _ _ _ (se_coherent _ _ _ _ Hsel) _ _ Hp) as [Hid Hk].
  destruct (co_faithful _ _ _ (se_coherent _ _ _ _ Hsel) _ _ Hp) as [Hf _]. rewrite Hid, Hh in Hf.
  injection Hf as Hf. exists p. split; [|done]. rewrite Hsr, (sort_paths_perm st.2). apply Hin.
  rewrite Hf in Hv. exact Hv.
Qed.

(** Resolving a path always ends within the depth limit: whatever is
    cached and whoever calls, a call of [resolve] at depth 1 never needs more
    than MaxDialerPathDepth + 2 nested calls, cyclic tables included. *)
Theorem resolve_terminates user cache visiting k :
  (resolve db user graph_fuel cache visiting k 1).2 <> Err NoFuel.
Proof. apply resolve_fuel; unfold graph_fuel; lia. Qed.
End for_user.

(** ** The small fleet of [Paths] *)
Lemma sample_keyed : keyed sample_db.
Proof.
  assert (Hall : map_Forall (fun k p => pa_ID p = k /\ TrimSpace k = k) (paths sample_db)).
  { unfold sample_db. cbn [paths list_to_map foldr uncurry].
    repeat (apply map_Forall_insert_2; [split; vm_compute; reflexivity|]). apply map_Forall_empty. }
  exact Hall.
Qed.
Lemma sample_dialers : dialers_known sample_db.
Proof.
  assert (Hall : map_Forall (fun _ p => forall d, pa_DialerPathID p = Some d -> is_Some (paths sample_db !! d)) (paths sample_db)).
  { unfold sample_db at 2. cbn [paths list_to_map foldr uncurry].
    repeat (apply map_Forall_insert_2; [intros d Hd; first [discriminate Hd|injection Hd as <-; eexists; reflexivity]|]).
    apply map_Forall_empty. }
  intros k p d Hk. by apply (Hall k p Hk).
Qed.
Definition ids (l : list ResolvedPath) : list string := map (fun p => path_id p) l.
Definition sample_user : ProxyUser :=
  {| us_ID := "u1"; us_Name := "alice"; us_Status := "active"; us_DeletedAt := None |}.

Example ForUser_fail_closed_witness :
  exists r, ForUser sample_db "alice" = Ok r /\ ids (Ordered r) = ["c"; "b"; "a"; "d"] /\
    exists user, GetProxyUser sample_db "alice" = Ok user /\ us_Status user = "active" /\
    (forall p, p ∈ Ordered r ->
       usable_hop sample_db user p /\ pa_DialerPathID (rp_Path p) = (fun d => path_id d) <$> rp_Dialer p) /\
    (forall p, p ∈ Selectable r ->
       p ∈ Ordered r /\ pa_Visibility (rp_Path p) = PathVisibilitySelectable /\
       exists a holder, a ∈ path_accesses sample_db /\ GetProxyUser sample_db (us_Name user) = Ok holder /\ pc_ProxyUserID a = us_ID holder /\
         pc_PathID a = path_id p /\ pc_Enabled a = true /\ pc_DeletedAt a = None).
Proof.
  destruct (ForUser sample_db "alice") as [r|e] eqn:E; [|vm_compute in E; discriminate E].
  exists r. split; [reflexivity|]. split.
  - transitivity (match ForUser sample_db "alice" with Ok r => ids (Ordered r) | Err _ => [] end); [by rewrite E|].
    vm_compute. reflexivity.
  - exact (ForUser_fail_closed sample_db sample_keyed sample_dialers "alice" r E).
Defined.
Example ForUser_ordered_witness :
  exists r, ForUser sample_db "alice" = Ok r /\ ids (Selectable r) = ["a"; "d"] /\
    StronglySorted path_le (Selectable r).
Proof.
  destruct (ForUser sample_db "alice") as [r|e] eqn:E; [|vm_compute in E; discriminate E].
  exists r. split; [reflexivity|]. split.
  - transitivity (match ForUser sample_db "alice" with Ok r => ids (Selectable r) | Err _ => [] end); [by rewrite E|].
    vm_compute. reflexivity.
  - apply (ForUser_ordered sample_db sample_keyed sample_dialers "alice" r E).
Defined.

(** The fleet with the proxy credential of "a"'s chain intact but "d" on a
    disabled endpoint of its own: "a" is still published. *)
Definition broken_db : tables := {|
  paths := <["d" := {| pa_ID := "d"; pa_Name := "d"; pa_DisplayName := "d"; pa_EndpointID := "e2";
                       pa_DialerPathID := None; pa_Enabled := true;
                       pa_Visibility := PathVisibilitySelectable; pa_Managed := false; pa_SortOrder := 0 |}]>
           (paths sample_db);
  endpoints := <["e2" := {| ep_ID := "e2"; ep_ProxyID := "p2"; ep_HostID := "h9"; ep_Enabled := true |}]> (endpoints sample_db);
  path_accesses := path_accesses sample_db; path_group_members := path_group_members sample_db;
  nodes := nodes sample_db; node_name_aliases := node_name_aliases sample_db; proxies := proxies sample_db;
  proxy_users := proxy_users sample_db; bindings := bindings sample_db; credentials := credentials sample_db
|}.
Lemma broken_keyed : keyed broken_db.
Proof.
  intros k p. unfold broken_db. cbn [paths]. destruct (decide (k = "d")) as [->|Hne].
  - rewrite lookup_insert, decide_True by done. intros H. injection H as <-. split; [done|]. vm_compute. reflexivity.
  - rewrite lookup_insert_ne by done. apply sample_keyed.
Qed.
Lemma broken_dialers : dialers_known broken_db.
Proof.
  intros k p d. unfold broken_db. cbn [paths].
  assert (Hk : forall x, is_Some (paths sample_db !! x) ->
    is_Some ((<["d" := {| pa_ID := "d"; pa_Name := "d"; pa_DisplayName := "d"; pa_EndpointID := "e2";
                       pa_DialerPathID := None; pa_Enabled := true;
                       pa_Visibility := PathVisibilitySelectable; pa_Managed := false; pa_SortOrder := 0 |}]>
           (paths sample_db)) !! x)).
  { intros x Hx. by apply lookup_insert_is_Some'; right. }
  destruct (decide (k = "d")) as [->|Hne].
  - rewrite lookup_insert, decide_True by done. intros H. injection H as <-. intros H. discriminate H.
  - rewrite lookup_insert_ne by done. intros Hp Hd. apply Hk. by eapply sample_dialers.
Qed.
Definition hop_path (db : tables) (k : string) : option Path :=
  match resolve_hop db sample_user k with Ok h => Some (rp_Path h) | Err _ => None end.
Lemma usable_by_path (db : tables) k p :
  hop_path db k = Some p -> exists h, resolve_hop db sample_user k = Ok h /\ rp_Path h = p.
Proof. unfold hop_path. destruct (resolve_hop db sample_user k) as [h|]; [|done]. intros H. injection H as <-. eauto. Qed.

Example ForUser_complete_witness :
  exists r, ForUser broken_db "alice" = Ok r /\ is_ok (resolve_hop broken_db sample_user "d") = false /\
    exists p, p ∈ Selectable r /\ path_id p = "a".
Proof.
  destruct (ForUser broken_db "alice") as [r|e] eqn:E; [|vm_compute in E; discriminate E].
  exists r. split; [reflexivity|]. split; [vm_compute; reflexivity|].
  destruct (usable_by_path broken_db "a" (sample_path "a" (Some "b"))) as (ha & Ha & Pa); [vm_compute; reflexivity|].
  destruct (usable_by_path broken_db "b" (sample_path "b" (Some "c"))) as (hb & Hb & Pb); [vm_compute; reflexivity|].
  destruct (usable_by_path broken_db "c" (sample_path "c" None)) as (hc & Hc & Pc); [vm_compute; reflexivity|].
  apply (ForUser_complete broken_db broken_keyed broken_dialers "alice" r sample_user (sample_access "x2" "a") 3 ha E).
  - vm_compute. reflexivity.
  - vm_compute. reflexivity.
  - replace (ListActivePathAccessesByUserID broken_db (us_ID sample_user))
      with [sample_access "x1" "d"; sample_access "x2" "a"] by (vm_compute; reflexivity). right. left.
  - eapply usable_dial; [exact Ha|rewrite Pa; reflexivity|]. eapply usable_dial; [exact Hb|rewrite Pb; reflexivity|].
    eapply usable_end; [exact Hc|rewrite Pc; reflexivity].
  - unfold MaxDialerPathDepth. lia.
  - exact Ha.
  - rewrite Pa. reflexivity.
Defined.

(** ** A chain beyond the limit, in two orders *)
Definition deep_db (accesses : list PathAccess) : tables := {|
  paths := <["c" := sample_path "c" (Some "d")]> (paths sample_db);
  endpoints := endpoints sample_db; path_accesses := accesses;
  path_group_members := path_group_members sample_db; nodes := nodes sample_db;
  node_name_aliases := node_name_aliases sample_db; proxies := proxies sample_db;
  proxy_users := proxy_users sample_db; bindings := bindings sample_db; credentials := credentials sample_db
|}.
Definition published (db : tables) : result ResolveError (list string) :=
  let? r := ForUser db "alice" in Ok (ids (Selectable r)).

(** the depth limit does not apply to what is already cached: in the
    tables an accepted edit of the small fleet leads to ("a" through "b",
    "c" and "d"), the user granted "d" before "a" is published both, the user
    granted "a" before "d" is published only "d". *)
Theorem ForUser_depends_on_grant_order :
  published (deep_db [sample_access "x1" "d"; sample_access "x2" "a"]) = Ok ["a"; "d"] /\
  published (deep_db [sample_access "x1" "a"; sample_access "x2" "d"]) = Ok ["d"].
Proof. split; vm_compute; reflexivity. Qed.
