(* ===== verification/UpdateGuard.v ===== *)
(** * The update guard: rollback of an agent that does not confirm
    ([src/internal/agent/update_guard.go], with the service-file snapshot of
    [src/internal/agent/service_files.go])

    [RunAgentGuard] runs before every start of the agent service; an update
    arms it by writing a pending state and switching the service's symbolic
    link to the candidate; [ConfirmAgentUpdateGuard] disarms it after a
    heartbeat of the new version.

    The state is what is on disk.  Every file operation can fail: which ones
    do is an input of each step ([faults]), so a crash between two writes is
    the failure of the second.  Comparing versions is golang.org/x/mod/semver. *)
From S2P Require Import Prelude GoStrings GoTime.

#[local] Open Scope Z_scope.

Definition maxAgentGuardStarts : Z := 3.

Record AgentUpdateGuardState := {
  gs_OperationID : string; gs_ExpectedVersion : string; gs_PreviousTarget : string;
  gs_CandidateTarget : string; gs_Status : string; gs_Attempts : Z; gs_Deadline : string; gs_Error : string
}.
Definition with_status (st : AgentUpdateGuardState) (status err : string) : AgentUpdateGuardState := {|
  gs_OperationID := gs_OperationID st; gs_ExpectedVersion := gs_ExpectedVersion st;
  gs_PreviousTarget := gs_PreviousTarget st; gs_CandidateTarget := gs_CandidateTarget st;
  gs_Status := status; gs_Attempts := gs_Attempts st; gs_Deadline := gs_Deadline st; gs_Error := err
|}.
Definition with_attempts (st : AgentUpdateGuardState) (n : Z) : AgentUpdateGuardState := {|
  gs_OperationID := gs_OperationID st; gs_ExpectedVersion := gs_ExpectedVersion st;
  gs_PreviousTarget := gs_PreviousTarget st; gs_CandidateTarget := gs_CandidateTarget st;
  gs_Status := gs_Status st; gs_Attempts := n; gs_Deadline := gs_Deadline st; gs_Error := gs_Error st
|}.

(** One of the two unit files (sing-box, agent), by its path. *)
Record serviceFile := { sf_Path : string; sf_Data : string; sf_Mode : Z; sf_Missing : bool }.
#[export] Instance serviceFile_eq_dec : EqDecision serviceFile.
Proof. solve_decision. Defined.

Record disk := {
  guard_file : option AgentUpdateGuardState;  (* AgentGuardStatePath *)
  agent_link : string;                        (* what the symlink AgentPath names *)
  installed : gset string;                    (* the binaries in the release directories *)
  guard_binary : string;                      (* what AgentGuardPath is a copy of *)
  services : list serviceFile;
  backup : option (list serviceFile)          (* serviceBackupPath *)
}.
Definition set_guard (d : disk) (g : option AgentUpdateGuardState) : disk := {|
  guard_file := g; agent_link := agent_link d; installed := installed d; guard_binary := guard_binary d;
  services := services d; backup := backup d |}.
Definition set_link (d : disk) (l : string) : disk := {|
  guard_file := guard_file d; agent_link := l; installed := installed d; guard_binary := guard_binary d;
  services := services d; backup := backup d |}.
Definition set_services (d : disk) (s : list serviceFile) (b : option (list serviceFile)) : disk := {|
  guard_file := guard_file d; agent_link := agent_link d; installed := installed d;
  guard_binary := guard_binary d; services := s; backup := b |}.
Definition set_guard_binary (d : disk) (b : string) : disk := {|
  guard_file := guard_file d; agent_link := agent_link d; installed := installed d; guard_binary := b;
  services := services d; backup := backup d |}.

(** What goes wrong in one run. *)
Record faults := {
  f_load : bool;               (* the state file cannot be read or decoded *)
  f_write : bool;              (* the state file cannot be written *)
  f_remove : bool;             (* the state file cannot be removed *)
  f_symlink : bool;            (* the link cannot be replaced *)
  f_copy : bool;               (* the guard binary cannot be replaced *)
  f_snapshot : bool;           (* the service snapshot cannot be written *)
  f_clear : bool;              (* the service snapshot cannot be removed *)
  f_services : option (list serviceFile);  (* writing the service files fails and leaves these *)
  f_reload : bool              (* the service manager does not reload *)
}.
Definition no_faults : faults := {|
  f_load := false; f_write := false; f_remove := false; f_symlink := false; f_copy := false;
  f_snapshot := false; f_clear := false; f_services := None; f_reload := false |}.

(** ** filepath.Abs on a Unix system, the working directory being /[cwd] *)
Fixpoint clean_parts (acc : list string) (ps : list string) : list string :=
  match ps with
  | [] => rev acc
  | p :: ps =>
      if (p =? "")%string || (p =? ".")%string then clean_parts acc ps
      else if (p =? "..")%string then clean_parts (tl acc) ps
      else clean_parts (p :: acc) ps
  end.
(** filepath.Clean of a rooted path *)
Definition Clean (p : string) : string := ("/" ++ Join (clean_parts [] (Split p "/")) "/")%string.
Definition HasPrefix (s p : string) : bool := bool_decide (str_take (String.length p) s = p).
Definition Abs (cwd p : string) : string := if HasPrefix p "/" then Clean p else Clean (cwd ++ "/" ++ p).

Section guard.
Variables (cwd InstallDir : string).
(** The version this process runs, the service files it renders, and
    golang.org/x/mod/semver. *)
Variables (Version : string) (serviceFiles : list serviceFile).
Variable versionsEquivalent : string -> string -> bool.

Definition releases_root : string :=
  Abs cwd (if (InstallDir =? "")%string then "releases" else (InstallDir ++ "/releases")%string).
Definition validateGuardTarget (target : string) : bool :=
  let targetAbs := Abs cwd target in
  (targetAbs =? releases_root)%string || HasPrefix targetAbs (releases_root ++ "/").

Definition loadAgentUpdateGuard (f : faults) (d : disk) : option (option AgentUpdateGuardState) :=
  if f_load f then None else Some (guard_file d).
(** The deadline is set by the writer when it is missing. *)
Definition writeAgentUpdateGuard (f : faults) (now : Time) (d : disk) (st : AgentUpdateGuardState) : disk * bool :=
  let st := {|
    gs_OperationID := gs_OperationID st; gs_ExpectedVersion := gs_ExpectedVersion st;
    gs_PreviousTarget := gs_PreviousTarget st; gs_CandidateTarget := gs_CandidateTarget st;
    gs_Status := (if (gs_Status st =? "")%string then "pending" else gs_Status st)%string;
    gs_Attempts := gs_Attempts st;
    gs_Deadline := (if (gs_Deadline st =? "")%string then Format_RFC3339Nano (now + 5 * minute) else gs_Deadline st)%string;
    gs_Error := gs_Error st |} in
  if f_write f then (d, false) else (set_guard d (Some st), true).

(** ** The snapshot of the service files *)
Definition writeServiceFiles (f : faults) (d : disk) (files : list serviceFile) : disk * bool :=
  match f_services f with
  | Some partial => (set_services d partial (backup d), false)
  | None => (set_services d files (backup d), true)
  end.
Definition clearServiceBackup (f : faults) (d : disk) : disk * bool :=
  match backup d with
  | None => (d, true)
  | Some _ => if f_clear f then (d, false) else (set_services d (services d) None, true)
  end.
(** The snapshot names the two files of this installation: it was written by
    [syncServiceUnits]. *)
Definition restoreServiceBackup (f : faults) (d : disk) : disk * bool :=
  match backup d with
  | None => (d, true)
  | Some files =>
      if negb (bool_decide (map sf_Path files = map sf_Path serviceFiles)) then (d, false)
      else
        let (d, ok) := writeServiceFiles f d files in
        if negb ok then (d, false)
        else if f_reload f then (d, false)
        else clearServiceBackup f d
  end.
(** A failed write or reload is undone as far as [f_services] lets it. *)
Definition undoServiceWrite (f : faults) (d : disk) (previous : list serviceFile) : disk * bool :=
  ((writeServiceFiles f d previous).1, false).
Definition syncServiceUnits (f : faults) (d : disk) : disk * bool :=
  let desired := serviceFiles in
  let previous := services d in
  match loadAgentUpdateGuard f d with
  | None => (d, false)
  | Some guard =>
      let pending := match guard with
                     | Some st => (gs_Status st =? "pending")%string && versionsEquivalent Version (gs_ExpectedVersion st)
                     | None => false
                     end in
      if bool_decide (previous = desired) then
        match backup d with
        | Some _ => (d, negb (f_reload f))
        | None => (d, true)
        end
      else
        match (if pending && bool_decide (backup d = None)
               then if f_snapshot f then None else Some (set_services d (services d) (Some previous))
               else Some d) with
        | None => (d, false)
        | Some d =>
            let (d, ok) := writeServiceFiles f d desired in
            if negb ok then undoServiceWrite f d previous
            else if f_reload f then undoServiceWrite f d previous
            else (d, true)
        end
  end.

(** ** Before a start *)
Definition deadline_passed (now : Time) (deadline : string) : bool :=
  match Parse deadline with Some t => negb (now <? t) | None => false end.

Definition RunAgentGuard (f : faults) (now : Time) (d : disk) : disk * bool :=
  match loadAgentUpdateGuard f d with
  | None => (d, false)
  | Some None => (d, true)
  | Some (Some st) =>
      if (gs_Status st =? "rolled_back")%string then restoreServiceBackup f d
      else if (gs_Status st =? "confirmed")%string then (d, true)
      else if negb (gs_Status st =? "pending")%string then (d, false)
      else if negb (validateGuardTarget (gs_PreviousTarget st)) then (d, false)
      else if negb (validateGuardTarget (gs_CandidateTarget st)) then (d, false)
      (* EvalSymlinks(AgentPath): the file it names must exist *)
      else if negb (bool_decide (agent_link d ∈ installed d)) then (d, false)
      else if (agent_link d =? gs_PreviousTarget st)%string then
        let (d, ok) := restoreServiceBackup f d in
        if negb ok then (d, false)
        else writeAgentUpdateGuard f now d
               (with_status st "rolled_back" "agent service path already points to the previous version")
      else
        let st := with_attempts st (wrap64 (gs_Attempts st + 1)) in
        if (gs_Attempts st <? maxAgentGuardStarts) && negb (deadline_passed now (gs_Deadline st))
        then writeAgentUpdateGuard f now d st
        else if negb (bool_decide (gs_PreviousTarget st ∈ installed d)) then (d, false)
        else if f_symlink f then (d, false)
        else
          let d := set_link d (gs_PreviousTarget st) in
          let (d, ok) := restoreServiceBackup f d in
          if negb ok then (d, false)
          else writeAgentUpdateGuard f now d
                 (with_status st "rolled_back"
                   ("candidate did not confirm after " ++ FormatInt (gs_Attempts st) ++ " service starts"))
  end.

(** ** After a heartbeat *)
(** Once disarmed, the release directories of neither version are pruned; that
    clean-up of other versions is left out. *)
Definition remove_guard (f : faults) (d : disk) : disk * bool :=
  match guard_file d with
  | None => (d, true)
  | Some _ => if f_remove f then (d, false) else (set_guard d None, true)
  end.
Definition ConfirmAgentUpdateGuard (f : faults) (now : Time) (heartbeatConfirmed : bool) (d : disk) : disk * bool :=
  match loadAgentUpdateGuard f d with
  | None => (d, false)
  | Some None => (d, true)
  | Some (Some st) =>
      if negb ((gs_Status st =? "pending")%string || (gs_Status st =? "confirmed")%string) then (d, true)
      else if negb (versionsEquivalent Version (gs_ExpectedVersion st)) then (d, true)
      else if (gs_Status st =? "confirmed")%string then
        let (d, ok) := clearServiceBackup f d in
        if negb ok then (d, false) else remove_guard f d
      else if negb heartbeatConfirmed then (d, false)
      else if f_copy f || negb (bool_decide (agent_link d ∈ installed d)) then (d, false)
      else
        let d := set_guard_binary d (agent_link d) in
        let (d, ok) := syncServiceUnits f d in
        if negb ok then (d, false)
        else
          let (d, ok) := writeAgentUpdateGuard f now d (with_status st "confirmed" (gs_Error st)) in
          if negb ok then (d, false)
          else
            let (d, ok) := clearServiceBackup f d in
            if negb ok then (d, false) else remove_guard f d
  end.

(** updateAgent's arming of the guard: the pending state, then the switch. *)
Definition arm (f : faults) (now : Time) (d : disk) (operationID version previous candidate : string) : disk * bool :=
  let (d, ok) := writeAgentUpdateGuard f now d {|
    gs_OperationID := operationID; gs_ExpectedVersion := version; gs_PreviousTarget := previous;
    gs_CandidateTarget := candidate; gs_Status := "pending"; gs_Attempts := 0; gs_Deadline := ""; gs_Error := "" |} in
  if negb ok then (d, false)
  else if negb (bool_decide (candidate ∈ installed d)) then (d, false)
  else if f_symlink f then (d, false)
  else (set_link d candidate, true).
End guard.

(** ** Frame lemmas: what each file operation touches *)
Section guard_proofs.
Context (cwd InstallDir Version : string) (serviceFiles : list serviceFile)
  (versionsEquivalent : string -> string -> bool).
Abbreviation validateGuardTarget := (validateGuardTarget cwd InstallDir).
Abbreviation restoreServiceBackup := (restoreServiceBackup serviceFiles).
Abbreviation syncServiceUnits := (syncServiceUnits Version serviceFiles versionsEquivalent).
Abbreviation RunAgentGuard := (RunAgentGuard cwd InstallDir serviceFiles).
Abbreviation ConfirmAgentUpdateGuard := (ConfirmAgentUpdateGuard Version serviceFiles versionsEquivalent).

(** Only the service files and their snapshot differ. *)
Definition same_agent (d d' : disk) : Prop :=
  guard_file d' = guard_file d /\ agent_link d' = agent_link d /\ installed d' = installed d /\
  guard_binary d' = guard_binary d.
Lemma same_agent_refl d : same_agent d d.
Proof. done. Qed.
#[local] Hint Resolve same_agent_refl : core.

Lemma clear_spec f d d' ok :
  clearServiceBackup f d = (d', ok) ->
  same_agent d d' /\ services d' = services d /\ (if ok then backup d' = None else d' = d).
Proof.
  unfold clearServiceBackup. destruct (backup d) eqn:E; [destruct (f_clear f)|]; intros H; injection H as <- <-; done.
Qed.
Lemma restore_spec f d d' ok :
  restoreServiceBackup f d = (d', ok) ->
  same_agent d d' /\
  match backup d with
  | None => d' = d /\ ok = true
  | Some files =>
      if ok then services d' = files /\ backup d' = None else backup d' = Some files
  end.
Proof.
  unfold UpdateGuard.restoreServiceBackup. destruct (backup d) as [files|] eqn:Eb.
  2:{ intros H. by injection H as <- <-. }
  destruct (negb _); [intros H; by injection H as <- <-|].
  unfold writeServiceFiles. destruct (f_services f); cbn [negb]; [intros H; by injection H as <- <-|].
  destruct (f_reload f); [intros H; by injection H as <- <-|].
  intros H. apply clear_spec in H as ((? & ? & ? & ?) & Hs & Hb). cbn in *. split; [done|].
  destruct ok; [done|]. subst d'. by rewrite Eb in *.
Qed.
Lemma restore_no_fault d files :
  backup d = Some files -> map sf_Path files = map sf_Path serviceFiles ->
  exists d', restoreServiceBackup no_faults d = (d', true).
Proof.
  intros Hb Hp. unfold UpdateGuard.restoreServiceBackup. rewrite Hb. rewrite bool_decide_true by done.
  unfold clearServiceBackup. cbn. rewrite Hb. by eexists.
Qed.
Lemma write_spec f now d st d' ok :
  writeAgentUpdateGuard f now d st = (d', ok) ->
  agent_link d' = agent_link d /\ installed d' = installed d /\ guard_binary d' = guard_binary d /\
  services d' = services d /\ backup d' = backup d /\
  (if ok then exists st', guard_file d' = Some st' /\ gs_PreviousTarget st' = gs_PreviousTarget st /\
       gs_CandidateTarget st' = gs_CandidateTarget st /\ gs_Attempts st' = gs_Attempts st /\
       gs_Status st' = (if (gs_Status st =? "")%string then "pending" else gs_Status st)%string
   else d' = d).
Proof.
  unfold writeAgentUpdateGuard. destruct (f_write f); intros H; injection H as <- <-; cbn; split_and!; try done.
  by eexists.
Qed.

(** *** The outcome of a guard run on a pending update *)
Definition pending_state (d : disk) (st : AgentUpdateGuardState) : Prop :=
  guard_file d = Some st /\ gs_Status st = "pending".

Inductive guard_outcome (d : disk) (st : AgentUpdateGuardState) (d' : disk) (ok : bool) : Prop :=
| outcome_unchanged : d' = d -> ok = false -> guard_outcome d st d' ok
| outcome_counted st' :
    ok = true -> agent_link d <> gs_PreviousTarget st ->
    agent_link d' = agent_link d -> installed d' = installed d -> services d' = services d ->
    backup d' = backup d -> pending_state d' st' -> gs_PreviousTarget st' = gs_PreviousTarget st ->
    gs_Attempts st' = wrap64 (gs_Attempts st + 1) -> gs_Attempts st' < maxAgentGuardStarts ->
    guard_outcome d st d' ok
| outcome_restoring :
    ok = false -> guard_file d' = Some st -> agent_link d' = gs_PreviousTarget st -> installed d' = installed d ->
    gs_PreviousTarget st ∈ installed d -> validateGuardTarget (gs_PreviousTarget st) = true ->
    (match backup d with
     | None => backup d' = None /\ services d' = services d
     | Some files => backup d' = Some files \/ (backup d' = None /\ services d' = files)
     end) ->
    guard_outcome d st d' ok
| outcome_rolled_back st' :
    ok = true -> agent_link d' = gs_PreviousTarget st -> installed d' = installed d ->
    gs_PreviousTarget st ∈ installed d -> validateGuardTarget (gs_PreviousTarget st) = true ->
    guard_file d' = Some st' -> gs_Status st' = "rolled_back" -> gs_PreviousTarget st' = gs_PreviousTarget st ->
    backup d' = None -> services d' = default (services d) (backup d) ->
    guard_outcome d st d' ok.

(** The tail shared by the two ways to roll back. *)
Lemma roll_back_tail f now d d0 st st1 d' ok :
  guard_file d = Some st -> agent_link d = gs_PreviousTarget st -> installed d = installed d0 ->
  services d = services d0 -> backup d = backup d0 ->
  gs_PreviousTarget st ∈ installed d0 -> validateGuardTarget (gs_PreviousTarget st) = true ->
  gs_Status st1 = "rolled_back" -> gs_PreviousTarget st1 = gs_PreviousTarget st ->
  (let (d, ok) := restoreServiceBackup f d in
   if negb ok then (d, false) else writeAgentUpdateGuard f now d st1) = (d', ok) ->
  guard_outcome d0 st d' ok.
Proof.
  intros Hg Hl Hi Hs Hb Hin Hv Hst Hp. destruct (restoreServiceBackup f d) as [d1 ok1] eqn:Er.
  apply restore_spec in Er as ((Hg1 & Hl1 & Hi1 & _) & Hr). rewrite Hb in Hr.
  assert (Hrest : match backup d0 with
     | None => backup d1 = None /\ services d1 = services d0
     | Some files => backup d1 = Some files \/ (backup d1 = None /\ services d1 = files) end).
  { destruct (backup d0) as [files|]; [destruct ok1; [by right; destruct Hr|by left]|].
    destruct Hr as [-> _]. by rewrite Hb, Hs. }
  destruct ok1; cbn [negb].
  - intros Hw. apply write_spec in Hw as (Hl2 & Hi2 & _ & Hs2 & Hb2 & Hw). destruct ok.
    + destruct Hw as (st' & Hg2 & Hp2 & _ & _ & Hst2). rewrite Hst in Hst2. cbn in Hst2.
      eapply outcome_rolled_back; try done; try congruence.
      * rewrite Hb2. destruct (backup d0); [by destruct Hr|]. destruct Hr as [-> _]. by rewrite Hb.
      * rewrite Hs2. destruct (backup d0); [by destruct Hr|]. destruct Hr as [-> _]. by rewrite Hs.
    + subst d'. eapply outcome_restoring; try done; congruence.
  - intros H. injection H as <- <-. eapply outcome_restoring; try done; congruence.
Qed.
Lemma RunAgentGuard_pending f now d st d' ok :
  pending_state d st -> RunAgentGuard f now d = (d', ok) -> guard_outcome d st d' ok.
Proof.
  intros [Hg Hst]. unfold UpdateGuard.RunAgentGuard, loadAgentUpdateGuard.
  assert (Hun : (d, false) = (d', ok) -> guard_outcome d st d' ok).
  { intros H. injection H as <- <-. by apply outcome_unchanged. }
  destruct (f_load f); [exact Hun|]. rewrite Hg, Hst. cbn [String.eqb Ascii.eqb Bool.eqb negb].
  destruct (validateGuardTarget (gs_PreviousTarget st)) eqn:Ev; cbn [negb]; [|exact Hun].
  destruct (validateGuardTarget (gs_CandidateTarget st)); cbn [negb]; [|exact Hun].
  destruct (bool_decide (agent_link d ∈ installed d)) eqn:El; cbn [negb]; [apply bool_decide_eq_true in El|exact Hun].
  destruct (agent_link d =? gs_PreviousTarget st)%string eqn:Es.
  { apply String.eqb_eq in Es. apply roll_back_tail; try done. by rewrite <- Es. }
  apply String.eqb_neq in Es.
  destruct ((_ <? _) && _) eqn:Ea.
  - apply andb_true_iff in Ea as [Ea _]. intros Hw.
    apply write_spec in Hw as (Hl2 & Hi2 & _ & Hs2 & Hb2 & Hw). destruct ok; [|subst d'; by apply outcome_unchanged].
    destruct Hw as (st' & Hg2 & Hp2 & _ & Ha2 & Hst2). cbn in *. rewrite Hst in Hst2. cbn in Hst2.
    eapply outcome_counted; try done. rewrite Ha2. lia.
  - cbn [gs_PreviousTarget with_attempts].
    destruct (bool_decide (gs_PreviousTarget st ∈ installed d)) eqn:Ep; cbn [negb]; [apply bool_decide_eq_true in Ep|exact Hun].
    destruct (f_symlink f); [exact Hun|]. by apply roll_back_tail.
Qed.

Lemma RunAgentGuard_idle f now d d' ok :
  (guard_file d = None \/ exists st, guard_file d = Some st /\ gs_Status st <> "pending" /\
     (gs_Status st = "rolled_back" -> backup d = None)) ->
  RunAgentGuard f now d = (d', ok) -> d' = d.
Proof.
  intros Hg. unfold UpdateGuard.RunAgentGuard, loadAgentUpdateGuard.
  destruct (f_load f); [intros H; by injection H as <- <-|].
  destruct Hg as [->|(st & -> & Hp & Hb)]; [intros H; by injection H as <- <-|].
  destruct (gs_Status st =? "rolled_back")%string eqn:Er.
  { apply String.eqb_eq in Er. intros H. apply restore_spec in H as [_ Hr]. rewrite (Hb Er) in Hr. by destruct Hr. }
  destruct (gs_Status st =? "confirmed")%string; [intros H; by injection H as <- <-|].
  apply String.eqb_neq in Hp. rewrite Hp. intros H. by injection H as <- <-.
Qed.

(** *** Counting the starts of the candidate *)
Definition runs := list (faults * Time).
(** The starts the guard lets through while the link is not back on [previous]. *)
Fixpoint candidate_starts (previous : string) (d : disk) (l : runs) : nat :=
  match l with
  | [] => 0
  | (f, now) :: l =>
      let (d', ok) := RunAgentGuard f now d in
      (if ok && negb (agent_link d' =? previous)%string then 1 else 0) + candidate_starts previous d' l
  end.
Lemma candidate_starts_restored previous d st l :
  guard_file d = Some st -> gs_PreviousTarget st = previous -> agent_link d = previous ->
  (gs_Status st = "pending" \/ gs_Status st = "rolled_back") -> candidate_starts previous d l = 0%nat.
Proof.
  revert d st. induction l as [|[f now] l IH]; intros d st Hg Hp Hl Hst; cbn [candidate_starts]; [done|].
  destruct (RunAgentGuard f now d) as [d' ok] eqn:E.
  assert (Hn : exists st', guard_file d' = Some st' /\ gs_PreviousTarget st' = previous /\ agent_link d' = previous /\
    (gs_Status st' = "pending" \/ gs_Status st' = "rolled_back")).
  { destruct Hst as [Hst|Hst].
    - destruct (RunAgentGuard_pending _ _ _ _ _ _ (conj Hg Hst) E) as [-> _|st' _ Hne|_ Hg' Hl' _ _ _ _|st' _ Hl' _ _ _ Hg' Hst' Hp' _ _].
      + exists st. by auto.
      + congruence.
      + exists st. split_and!; [done..|congruence|by auto].
      + exists st'. split_and!; [done|congruence..|by auto].
    - exists st. unfold UpdateGuard.RunAgentGuard, loadAgentUpdateGuard in E.
      destruct (f_load f); [injection E as <- <-; by auto|]. rewrite Hg, Hst in E.
      cbn [String.eqb Ascii.eqb Bool.eqb] in E. apply restore_spec in E as ((Hg' & Hl' & _) & _).
      rewrite Hg', Hl'. by auto. }
  destruct Hn as (st' & Hg' & Hp' & Hl' & Hst'). rewrite (IH d' st') by done.
  rewrite Hl', String.eqb_refl. by destruct ok.
Qed.
Lemma candidate_starts_bound d st l :
  pending_state d st -> 0 <= gs_Attempts st < maxAgentGuardStarts ->
  Z.of_nat (candidate_starts (gs_PreviousTarget st) d l) <= maxAgentGuardStarts - 1 - gs_Attempts st.
Proof.
  unfold maxAgentGuardStarts. revert d st. induction l as [|[f now] l IH]; intros d st Hp Ha; cbn [candidate_starts]; [lia|].
  destruct (RunAgentGuard f now d) as [d' ok] eqn:E.
  destruct (RunAgentGuard_pending _ _ _ _ _ _ Hp E)
    as [-> ->|st' -> Hne Hl _ _ _ Hp' Hpr Hat Hlt| -> Hg' Hl' _ _ _ _|st' -> Hl' _ _ _ Hg' Hst' Hp' _ _].
  - cbn [andb]. specialize (IH d st Hp Ha). lia.
  - rewrite wrap64_id in Hat by (unfold int64_ok, int64_min, int64_max; lia).
    unfold maxAgentGuardStarts in Hlt. specialize (IH d' st' Hp' ltac:(lia)). rewrite Hpr in IH.
    destruct (true && _); lia.
  - cbn [andb]. rewrite (candidate_starts_restored _ d' st) by (try done; left; apply Hp). lia.
  - rewrite Hl', String.eqb_refl. cbn [andb negb]. rewrite (candidate_starts_restored _ d' st'); [lia|done..|by right].
Qed.

(** a candidate that never confirms is started at most twice: from an
    armed guard, through any number of service starts and any file-system
    failures, the guard lets at most maxAgentGuardStarts - 1 starts run
    anything but the previous version. *)
Theorem unconfirmed_starts_bounded d st l :
  pending_state d st -> gs_Attempts st = 0 ->
  (candidate_starts (gs_PreviousTarget st) d l <= 2)%nat.
Proof.
  intros Hp Ha. pose proof (candidate_starts_bound d st l Hp) as H. unfold maxAgentGuardStarts in H. lia.
Qed.

(** *** The rollback *)
(** without failures, the third start, or the first past the deadline, ends
    on the previous version: link, service files and status; so does the next
    start after a rollback that was interrupted once the link was moved. *)
Theorem guard_rolls_back now d st :
  pending_state d st -> validateGuardTarget (gs_PreviousTarget st) = true ->
  validateGuardTarget (gs_CandidateTarget st) = true ->
  agent_link d ∈ installed d -> gs_PreviousTarget st ∈ installed d ->
  (forall files, backup d = Some files -> map sf_Path files = map sf_Path serviceFiles) ->
  (agent_link d = gs_PreviousTarget st \/ gs_Attempts st = maxAgentGuardStarts - 1 \/
   deadline_passed now (gs_Deadline st) = true) ->
  exists d' st', RunAgentGuard no_faults now d = (d', true) /\
    agent_link d' = gs_PreviousTarget st /\ guard_file d' = Some st' /\ gs_Status st' = "rolled_back" /\
    backup d' = None /\ services d' = default (services d) (backup d).
Proof.
  intros Hp Hv1 Hv2 Hl Hpi Hb Hwhen. destruct (RunAgentGuard no_faults now d) as [d' ok] eqn:E.
  destruct (RunAgentGuard_pending _ _ _ _ _ _ Hp E)
    as [_ Hok|st' Hok Hne Hl' _ _ _ Hp' Hpr Hat Hlt|Hok _ _ _ _ _ _|st' -> Hl' _ _ _ Hg' Hst' Hp' Hbk Hsv].
  4:{ exists d', st'. by split_and!. }
  all: exfalso; destruct Hp as [Hg Hst]; revert E; unfold UpdateGuard.RunAgentGuard, loadAgentUpdateGuard;
    cbn [f_load no_faults f_symlink]; rewrite Hg, Hst; cbn [String.eqb Ascii.eqb Bool.eqb negb];
    rewrite Hv1, Hv2; cbn [negb]; rewrite bool_decide_true by done; cbn [negb].
  all: assert (Hrest : forall d1, backup d1 = backup d -> exists d2, restoreServiceBackup no_faults d1 = (d2, true))
    by (intros d1 Hd1; destruct (backup d) as [files|] eqn:Eb;
        [eapply restore_no_fault; [by rewrite Hd1|by apply Hb]
        |unfold UpdateGuard.restoreServiceBackup; rewrite Hd1; by eexists]).
  all: destruct (agent_link d =? gs_PreviousTarget st)%string eqn:Es;
    [destruct (Hrest d eq_refl) as [d2 ->]; cbn; intros H; injection H as <- <-|].
  all: try discriminate Hok.
  all: try (by apply String.eqb_eq in Es; congruence).
  all: apply String.eqb_neq in Es; destruct Hwhen as [Hw|Hwhen]; [congruence|].
  all: assert (Hnc : ((gs_Attempts (with_attempts st (wrap64 (gs_Attempts st + 1))) <? maxAgentGuardStarts)
      && negb (deadline_passed now (gs_Deadline (with_attempts st (wrap64 (gs_Attempts st + 1)))))) = false) by
    (cbn [gs_Attempts gs_Deadline with_attempts]; destruct Hwhen as [Ha|Hd];
     [rewrite Ha; reflexivity|rewrite Hd; apply andb_false_r]).
  all: rewrite Hnc; cbn [gs_PreviousTarget with_attempts]; rewrite bool_decide_true by done; cbn [negb].
  all: destruct (Hrest (set_link d (gs_PreviousTarget st)) eq_refl) as [d2 Hd2]; rewrite Hd2; cbn [negb].
  all: unfold writeAgentUpdateGuard; cbn [f_write no_faults]; intros H; injection H as <- <-; try discriminate Hok.
  all: apply restore_spec in Hd2 as ((_ & Hl2 & _) & _); cbn in Hl', Hl2; congruence.
Qed.

(** *** Confirmation *)
(** nothing is confirmed without a heartbeat of the expected version:
    before one, and while another version runs, ConfirmAgentUpdateGuard
    changes nothing of a pending update, and it never moves the link. *)
Theorem confirm_needs_heartbeat f now hb d st :
  pending_state d st ->
  agent_link (ConfirmAgentUpdateGuard f now hb d).1 = agent_link d /\
  (hb = false \/ versionsEquivalent Version (gs_ExpectedVersion st) = false ->
   (ConfirmAgentUpdateGuard f now hb d).1 = d).
Proof.
  intros [Hg Hst]. unfold UpdateGuard.ConfirmAgentUpdateGuard, loadAgentUpdateGuard.
  destruct (f_load f) eqn:Ef; [done|]. rewrite Hg, Hst. cbn [String.eqb Ascii.eqb Bool.eqb orb negb].
  destruct (versionsEquivalent Version (gs_ExpectedVersion st)) eqn:Ev; cbn [negb]; [|done].
  destruct hb; cbn [negb]; [|done].
  split; [|by intros [?|?]]. destruct (f_copy f || _); [done|].
  destruct (syncServiceUnits f (set_guard_binary d (agent_link d))) as [d1 ok1] eqn:Es.
  assert (Hl1 : agent_link d1 = agent_link d).
  { revert Es. unfold UpdateGuard.syncServiceUnits, loadAgentUpdateGuard, undoServiceWrite, writeServiceFiles.
    rewrite Ef. repeat case_match; intros H'; injection H' as <- <-; simplify_eq/=; done. }
  destruct ok1; cbn [negb]; [|done]. destruct (writeAgentUpdateGuard _ _ _ _) as [d2 ok2] eqn:Ew.
  apply write_spec in Ew as (Hl2 & _). destruct ok2; cbn [negb]; [|cbn; congruence].
  destruct (clearServiceBackup f d2) as [d3 ok3] eqn:Ec. apply clear_spec in Ec as ((_ & Hl3 & _) & _).
  destruct ok3; cbn [negb]; [|cbn; congruence]. unfold remove_guard.
  destruct (guard_file d3); [destruct (f_remove f)|]; cbn; congruence.
Qed.

(** *** The service files of the previous version *)
Variable S0 : list serviceFile.
Definition snapshot_safe (d : disk) : Prop :=
  match guard_file d with
  | Some st =>
      if (gs_Status st =? "pending")%string then (backup d = None /\ services d = S0) \/ backup d = Some S0
      else if (gs_Status st =? "rolled_back")%string then backup d = None /\ services d = S0
      else True
  | None => True
  end.
Lemma sync_safe f d st d' ok :
  pending_state d st -> versionsEquivalent Version (gs_ExpectedVersion st) = true ->
  (backup d = None /\ services d = S0) \/ backup d = Some S0 ->
  syncServiceUnits f d = (d', ok) ->
  guard_file d' = guard_file d /\ ((backup d' = None /\ services d' = S0) \/ backup d' = Some S0).
Proof.
  intros [Hg Hst] Hv Hsafe. unfold UpdateGuard.syncServiceUnits, loadAgentUpdateGuard.
  destruct (f_load f); [intros H; by injection H as <- <-|].
  rewrite Hg, Hst, Hv. cbn [String.eqb Ascii.eqb Bool.eqb andb].
  destruct (bool_decide (services d = serviceFiles)).
  { destruct (backup d) eqn:Eb; intros H; injection H as <- <-; by rewrite ?Eb. }
  assert (Hwr : forall d1, guard_file d1 = Some st -> backup d1 = Some S0 ->
    (let (d2, ok) := writeServiceFiles f d1 serviceFiles in
     if negb ok then undoServiceWrite f d2 (services d)
     else if f_reload f then undoServiceWrite f d2 (services d) else (d2, true)) = (d', ok) ->
    guard_file d' = Some st /\ backup d' = Some S0).
  { intros d1 Hg1 Hb1. unfold undoServiceWrite, writeServiceFiles.
    destruct (f_services f); cbn [negb]; [intros H; by injection H as <- <-|].
    destruct (f_reload f); intros H; by injection H as <- <-. }
  destruct Hsafe as [[Hb Hs]|Hb]; rewrite Hb.
  - rewrite bool_decide_true by done. destruct (f_snapshot f); [intros H; injection H as <- <-; by auto|].
    intros H. apply Hwr in H as [? ?]; [by auto|done|]. cbn. by rewrite Hs.
  - rewrite bool_decide_false by done. intros H. apply Hwr in H as [? ?]; by auto.
Qed.
Lemma guard_safe f now d d' ok : snapshot_safe d -> RunAgentGuard f now d = (d', ok) -> snapshot_safe d'.
Proof.
  intros Hs E. destruct (guard_file d) as [st|] eqn:Hg.
  2:{ rewrite (RunAgentGuard_idle f now d d' ok (or_introl Hg) E). exact Hs. }
  destruct (gs_Status st =? "pending")%string eqn:Ep.
  2:{ rewrite (RunAgentGuard_idle f now d d' ok); [exact Hs| |exact E]. right. exists st.
      apply String.eqb_neq in Ep. split; [done|]. split; [done|]. intros Hr. unfold snapshot_safe in Hs.
      rewrite Hg, Hr in Hs. cbn [String.eqb Ascii.eqb Bool.eqb] in Hs. by destruct Hs. }
  apply String.eqb_eq in Ep. unfold snapshot_safe in Hs |- *. rewrite Hg, Ep in Hs. cbn [String.eqb Ascii.eqb Bool.eqb] in Hs.
  destruct (RunAgentGuard_pending _ _ _ _ _ _ (conj Hg Ep) E)
    as [-> _|st' _ _ _ _ Hsv Hbk [Hg' Hp'] _ _ _|_ Hg' _ _ _ _ Hr|st' _ _ _ _ _ Hg' Hst' _ Hbk Hsv].
  - by rewrite Hg, Ep.
  - rewrite Hg', Hp'. cbn [String.eqb Ascii.eqb Bool.eqb]. by rewrite Hsv, Hbk.
  - rewrite Hg', Ep. cbn [String.eqb Ascii.eqb Bool.eqb].
    destruct Hs as [[Hb Hsv]|Hb]; rewrite Hb in Hr; [destruct Hr; left; split; congruence|].
    destruct Hr as [Hr|[Hr1 Hr2]]; auto.
  - rewrite Hg', Hst'. cbn [String.eqb Ascii.eqb Bool.eqb]. split; [done|].
    destruct Hs as [[Hb Hs]|Hb]; rewrite Hb in Hsv; cbn in Hsv; congruence.
Qed.
Lemma remove_safe f d d' ok : snapshot_safe d -> remove_guard f d = (d', ok) -> snapshot_safe d'.
Proof.
  intros Hs. unfold remove_guard. destruct (guard_file d); [destruct (f_remove f)|]; intros H; injection H as <- <-; done.
Qed.
Lemma confirm_safe f now hb d d' ok :
  snapshot_safe d -> ConfirmAgentUpdateGuard f now hb d = (d', ok) -> snapshot_safe d'.
Proof.
  intros Hs. unfold UpdateGuard.ConfirmAgentUpdateGuard, loadAgentUpdateGuard.
  assert (Hun : forall b, (d, b) = (d', ok) -> snapshot_safe d') by (intros b H; by injection H as <- <-).
  assert (Hend : forall d1 d2 ok2, (exists st1, guard_file d1 = Some st1 /\ gs_Status st1 = "confirmed") ->
    (let (d, ok) := clearServiceBackup f d1 in if negb ok then (d, false) else remove_guard f d) = (d2, ok2) ->
    snapshot_safe d2).
  { intros d1 d2 ok2 (st1 & Hg1 & Hc1). destruct (clearServiceBackup f d1) as [d3 ok3] eqn:Ec.
    apply clear_spec in Ec as ((Hg3 & _) & _).
    assert (H3 : snapshot_safe d3) by (unfold snapshot_safe; by rewrite Hg3, Hg1, Hc1).
    destruct ok3; cbn [negb]; [|intros H; by injection H as <- <-]. by apply remove_safe. }
  destruct (f_load f); [apply Hun|]. destruct (guard_file d) as [st|] eqn:Hg; [|apply Hun].
  destruct (gs_Status st =? "pending")%string eqn:Ep; cbn [orb negb].
  2:{ destruct (gs_Status st =? "confirmed")%string eqn:Ec; cbn [negb]; [|apply Hun].
      destruct (versionsEquivalent _ _); cbn [negb]; [|apply Hun]. apply String.eqb_eq in Ec. apply Hend. by exists st. }
  apply String.eqb_eq in Ep. rewrite Ep. cbn [String.eqb Ascii.eqb Bool.eqb].
  destruct (versionsEquivalent Version (gs_ExpectedVersion st)) eqn:Ev; cbn [negb]; [|apply Hun].
  destruct hb; cbn [negb]; [|apply Hun]. destruct (f_copy f || _); [apply Hun|].
  assert (Hs1 : (backup d = None /\ services d = S0) \/ backup d = Some S0).
  { unfold snapshot_safe in Hs. by rewrite Hg, Ep in Hs. }
  destruct (syncServiceUnits f (set_guard_binary d (agent_link d))) as [d1 ok1] eqn:Es.
  apply (sync_safe f _ st) in Es as [Hg1 Hsafe1]; [|by split|done|done].
  assert (H1 : forall d2, guard_file d2 = guard_file d1 -> backup d2 = backup d1 -> services d2 = services d1 -> snapshot_safe d2).
  { intros d2 Hg2 Hb2 Hsv2. unfold snapshot_safe. rewrite Hg2, Hg1. cbn [guard_file set_guard_binary]. rewrite Hg, Ep.
    cbn [String.eqb Ascii.eqb Bool.eqb]. by rewrite Hb2, Hsv2. }
  destruct ok1; cbn [negb]; [|intros H; injection H as <- <-; by apply H1].
  destruct (writeAgentUpdateGuard _ _ _ _) as [d2 ok2] eqn:Ew. apply write_spec in Ew as (_ & _ & _ & Hs2 & Hb2 & Hw).
  destruct ok2; cbn [negb].
  - apply Hend. destruct Hw as (st2 & Hg2 & _ & _ & _ & Hst2). by exists st2.
  - subst d2. intros H. injection H as <- <-. by apply H1.
Qed.

(** One run of the guard or of the confirmation, whatever fails in it. *)
Inductive guard_step : disk -> disk -> Prop :=
| step_guard f now d d' ok : RunAgentGuard f now d = (d', ok) -> guard_step d d'
| step_confirm f now hb d d' ok : ConfirmAgentUpdateGuard f now hb d = (d', ok) -> guard_step d d'.

(** a rollback restores the service definitions of the previous version:
    from an armed guard whose service files are [S0], through any sequence of
    starts and confirmations and any failures in them, whenever the status is
    rolled_back the service files are [S0] again, with no snapshot left; and
    while it is pending they are [S0] or kept in the snapshot. *)
Theorem rollback_restores_services d d' :
  services d = S0 -> backup d = None ->
  (exists st, guard_file d = Some st /\ gs_Status st = "pending") ->
  rtc guard_step d d' ->
  forall st', guard_file d' = Some st' ->
    (gs_Status st' = "rolled_back" -> services d' = S0 /\ backup d' = None) /\
    (gs_Status st' = "pending" -> (services d' = S0 /\ backup d' = None) \/ backup d' = Some S0).
Proof.
  intros Hs Hb (st & Hg & Hst) Hrun.
  assert (H0 : snapshot_safe d) by (unfold snapshot_safe; rewrite Hg, Hst; by left).
  assert (H1 : snapshot_safe d').
  { revert H0. revert Hrun. apply rtc_preserves. intros d1 d2 H1 Hst2.
    destruct Hst2 as [f now d3 d4 ok E|f now hb d3 d4 ok E]; [by eapply guard_safe|by eapply confirm_safe]. }
  intros st' Hg'. unfold snapshot_safe in H1. rewrite Hg' in H1.
  split; intros Hst'; rewrite Hst' in H1; cbn [String.eqb Ascii.eqb Bool.eqb] in H1.
  - by destruct H1.
  - destruct H1 as [[? ?]|?]; auto.
Qed.
End guard_proofs.

(** ** An update that does not confirm *)
Definition sample_previous : string := "/opt/boxfleet/releases/boxfleet-agent/1.0.0/boxfleet-agent".
Definition sample_candidate : string := "/opt/boxfleet/releases/boxfleet-agent/1.1.0/boxfleet-agent".
Definition sample_services : list serviceFile :=
  [{| sf_Path := "/etc/systemd/system/sing-box.service"; sf_Data := "old"; sf_Mode := 420; sf_Missing := false |};
   {| sf_Path := "/etc/systemd/system/boxfleet-agent.service"; sf_Data := "old"; sf_Mode := 420; sf_Missing := false |}].
Definition new_services : list serviceFile :=
  [{| sf_Path := "/etc/systemd/system/sing-box.service"; sf_Data := "new"; sf_Mode := 420; sf_Missing := false |};
   {| sf_Path := "/etc/systemd/system/boxfleet-agent.service"; sf_Data := "new"; sf_Mode := 420; sf_Missing := false |}].
Definition sample_guard : AgentUpdateGuardState := {|
  gs_OperationID := "op1"; gs_ExpectedVersion := "v1.1.0"; gs_PreviousTarget := sample_previous;
  gs_CandidateTarget := sample_candidate; gs_Status := "pending"; gs_Attempts := 0;
  gs_Deadline := "2024-01-01T00:05:00Z"; gs_Error := "" |}.
Definition sample_disk : disk := {|
  guard_file := Some sample_guard; agent_link := sample_candidate;
  installed := {[sample_previous; sample_candidate]}; guard_binary := sample_previous;
  services := sample_services; backup := None |}.
(** 2024-01-01T00:00:00Z *)
Definition sample_now : Time := 1704067200 * second.
Abbreviation sample_run := (RunAgentGuard "" "/opt/boxfleet" new_services).
Abbreviation sample_confirm := (ConfirmAgentUpdateGuard "v1.1.0" new_services String.eqb).

Example unconfirmed_starts_bounded_witness :
  candidate_starts "" "/opt/boxfleet" new_services sample_previous sample_disk
    [(no_faults, sample_now); (no_faults, sample_now); (no_faults, sample_now); (no_faults, sample_now)] = 2%nat /\
  (candidate_starts "" "/opt/boxfleet" new_services sample_previous sample_disk
    [(no_faults, sample_now); (no_faults, sample_now); (no_faults, sample_now); (no_faults, sample_now)] <= 2)%nat.
Proof.
  split; [vm_compute; reflexivity|].
  apply (unconfirmed_starts_bounded "" "/opt/boxfleet" new_services sample_disk sample_guard); [split|]; reflexivity.
Defined.

Example guard_rolls_back_witness :
  exists d' st', sample_run no_faults (sample_now + 5 * minute) sample_disk = (d', true) /\
    agent_link d' = sample_previous /\ guard_file d' = Some st' /\ gs_Status st' = "rolled_back" /\
    backup d' = None /\ services d' = sample_services.
Proof.
  apply (guard_rolls_back "" "/opt/boxfleet" new_services (sample_now + 5 * minute) sample_disk sample_guard).
  - split; reflexivity.
  - vm_compute. reflexivity.
  - vm_compute. reflexivity.
  - apply (bool_decide_unpack _). vm_compute. exact I.
  - apply (bool_decide_unpack _). vm_compute. exact I.
  - intros files H. discriminate H.
  - right. right. vm_compute. reflexivity.
Defined.

Example confirm_needs_heartbeat_witness :
  agent_link (sample_confirm no_faults sample_now false sample_disk).1 = sample_candidate /\
  (sample_confirm no_faults sample_now false sample_disk).1 = sample_disk /\
  guard_file (sample_confirm no_faults sample_now true sample_disk).1 = None.
Proof.
  destruct (confirm_needs_heartbeat "v1.1.0" new_services String.eqb no_faults sample_now false sample_disk sample_guard)
    as [Hl Hd]; [split; reflexivity|].
  split; [exact Hl|]. split; [apply Hd; left; reflexivity|]. vm_compute. reflexivity.
Defined.

(** The new agent rewrites the service files and crashes before the state is
    confirmed; the guard then runs out of patience. *)
Definition crash_before_confirmed : faults := {|
  f_load := false; f_write := true; f_remove := false; f_symlink := false; f_copy := false;
  f_snapshot := false; f_clear := false; f_services := None; f_reload := false |}.
Example rollback_restores_services_witness :
  exists d1 d2 st, (sample_confirm crash_before_confirmed sample_now true sample_disk).1 = d1 /\
    services d1 = new_services /\
    (sample_run no_faults (sample_now + 5 * minute) d1).1 = d2 /\
    guard_file d2 = Some st /\ gs_Status st = "rolled_back" /\ services d2 = sample_services /\ backup d2 = None.
Proof.
  set (d1 := (sample_confirm crash_before_confirmed sample_now true sample_disk).1).
  set (d2 := (sample_run no_faults (sample_now + 5 * minute) d1).1).
  destruct (guard_file d2) as [st|] eqn:Eg; [|vm_compute in Eg; discriminate Eg].
  assert (Hst : gs_Status st = "rolled_back").
  { transitivity (default "" (gs_Status <$> guard_file d2)); [by rewrite Eg|]. vm_compute. reflexivity. }
  exists d1, d2, st. split; [reflexivity|]. split; [vm_compute; reflexivity|]. split; [reflexivity|].
  split; [exact Eg|]. split; [exact Hst|].
  destruct (rollback_restores_services "" "/opt/boxfleet" "v1.1.0" new_services String.eqb sample_services
    sample_disk d2 eq_refl eq_refl) with (st' := st) as [Hr _].
  - exists sample_guard. split; reflexivity.
  - apply rtc_l with d1.
    + eapply (step_confirm _ _ _ _ _ crash_before_confirmed sample_now true sample_disk d1). apply surjective_pairing.
    + apply rtc_once. eapply (step_guard _ _ _ _ _ no_faults (sample_now + 5 * minute) d1 d2). apply surjective_pairing.
  - exact Eg.
  - exact (Hr Hst).
Defined.
