(* ===== verification/Ingest.v ===== *)
(** * Ingestion of connection reports
    ([RecordConnectionReport] of [src/internal/server/db/connection_events.go])

    A report is taken in once per (node, boot id, sequence); each of its
    buckets is normalised, bounded and folded into the row of its aggregate
    key.  The statements are those of [store/sqlc/connection_events.sql.go];
    the CHECK constraints of the tables can make one fail, which rolls the
    whole report back.  SHA-256 is a parameter. *)
From S2P Require Import Prelude GoStrings GoTime ConnectionTelemetry.

#[local] Open Scope Z_scope.

Definition maxConnectionBucketsPerReport : nat := 2000.
Definition maxConnectionBucketBytes : Z := Z.shiftl 4 40.
Definition maxConnectionBucketConnections : Z := 10000000.
Definition maxConnectionBucketDurationMs : Z := 30 * 24 * 3600 * 1000.
Definition maxConnectionAuthNameLen : nat := 128.
Definition maxConnectionHostLen : nat := 253.
Definition maxConnectionLabelLen : nat := 64.
Definition maxConnectionChainLen : nat := 512.
Definition maxConnectionBootIDLen : nat := 128.

(** ** utf8.ValidString *)
Definition in_range (lo hi : Z) (c : ascii) : bool := (lo <=? code c) && (code c <=? hi).
Definition continuation (c : ascii) : bool := in_range 128 191 c.
(** The second byte a first byte of a long sequence allows. *)
Definition second_ok (b0 b1 : ascii) : bool :=
  let c := code b0 in
  if c =? 224 then in_range 160 191 b1
  else if c =? 237 then in_range 128 159 b1
  else if c =? 240 then in_range 144 191 b1
  else if c =? 244 then in_range 128 143 b1
  else continuation b1.
Fixpoint ValidString (l : bytes) : bool :=
  match l with
  | [] => true
  | b0 :: l1 =>
      if code b0 <? 128 then ValidString l1
      else if in_range 194 223 b0 then
        match l1 with b1 :: l2 => continuation b1 && ValidString l2 | [] => false end
      else if in_range 224 239 b0 then
        match l1 with
        | b1 :: b2 :: l3 => second_ok b0 b1 && continuation b2 && ValidString l3
        | _ => false
        end
      else if in_range 240 244 b0 then
        match l1 with
        | b1 :: b2 :: b3 :: l4 => second_ok b0 b1 && continuation b2 && continuation b3 && ValidString l4
        | _ => false
        end
      else false
  end.
(** The loop that drops bytes until the text is valid. *)
Fixpoint cut_valid (n : nat) (l : bytes) : bytes :=
  let cut := take n l in
  if ValidString cut then cut else match n with O => cut | S n => cut_valid n l end.
Definition truncateConnectionField (value : string) (limit : nat) : string :=
  if (String.length value <=? limit)%nat then value else of_bytes (cut_valid limit (to_bytes value)).

Definition clamp (hi value : Z) : Z := if value <? 0 then 0 else if hi <? value then hi else value.
Definition clampConnectionCount : Z -> Z := clamp maxConnectionBucketConnections.
Definition clampConnectionBytes : Z -> Z := clamp maxConnectionBucketBytes.
Definition clampConnectionDuration : Z -> Z := clamp maxConnectionBucketDurationMs.

Section sanitize.
Context `{UnicodeTables}.

(** The bounds, after [Normalize] and the limit on the connection id. *)
Definition bounded_chain (chain : list string) : list string :=
  let flat := ConnectionChainString chain in
  if (maxConnectionChainLen <? String.length flat)%nat
  then Split (truncateConnectionField flat maxConnectionChainLen) ConnectionChainSeparator
  else chain.
Definition bound_fields (b : ConnectionBucket) : ConnectionBucket :=
  let session := negb (ConnectionID b =? "")%string in
  let opened := if session then Z.min (ConnectionsOpened b) 1 else ConnectionsOpened b in
  let closed := if session then Z.min (ConnectionsClosed b) 1 else ConnectionsClosed b in
  {| ConnectionID := ConnectionID b; StartedAt := StartedAt b; BucketStart := BucketStart b;
     AuthName := truncateConnectionField (AuthName b) maxConnectionAuthNameLen;
     SourceIP := truncateConnectionField (SourceIP b) maxConnectionHostLen;
     TargetHost := truncateConnectionField (TargetHost b) maxConnectionHostLen;
     TargetPort := TargetPort b;
     Domain := truncateConnectionField (Domain b) maxConnectionHostLen;
     Network := truncateConnectionField (Network b) maxConnectionLabelLen;
     IPVersion := IPVersion b;
     Protocol := truncateConnectionField (Protocol b) maxConnectionLabelLen;
     Inbound := truncateConnectionField (Inbound b) maxConnectionLabelLen;
     InboundType := truncateConnectionField (InboundType b) maxConnectionLabelLen;
     Rule := truncateConnectionField (Rule b) maxConnectionLabelLen;
     Outbound := truncateConnectionField (Outbound b) maxConnectionLabelLen;
     OutboundType := truncateConnectionField (OutboundType b) maxConnectionLabelLen;
     Chain := bounded_chain (Chain b);
     ConnectionsOpened := clampConnectionCount opened; ConnectionsClosed := clampConnectionCount closed;
     UplinkBytes := clampConnectionBytes (UplinkBytes b);
     DownlinkBytes := clampConnectionBytes (DownlinkBytes b);
     DurationMsTotal := clampConnectionDuration (DurationMsTotal b);
     WindowStart := WindowStart b; WindowEnd := WindowEnd b |}.
Definition sanitizeConnectionBucket (bucket : ConnectionBucket) : option ConnectionBucket :=
  let (bucket, ok) := Normalize bucket in
  if negb ok then None
  else if (256 <? String.length (ConnectionID bucket))%nat then None
  else
    let bucket := bound_fields bucket in
    if (TargetHost bucket =? "")%string then None else Some bucket.
End sanitize.

(** ** The tables *)
Record report_row := {
  rr_WindowStart : string; rr_WindowEnd : string; rr_Coverage : ConnectionCoverage; rr_ReportedAt : string
}.
(** A row of connection_events: its columns are fields of the bucket (the
    chain in its flat form, [StartedAt] left out). *)
Record event_row := { ev_node : string; ev_user : option string; ev_bucket : ConnectionBucket }.
Record interval := { iv_node : string; iv_started : string; iv_ended : option string }.
Record tables := {
  connection_reports : gmap (string * string * Z) report_row;  (* UNIQUE (node_id, agent_boot_id, sequence) *)
  connection_events : gmap string event_row;                   (* UNIQUE aggregate_key *)
  source_intervals : list interval;                            (* PRIMARY KEY (node_id, started_at) *)
  telemetry_enabled : gset string
}.
Definition set_events (t : tables) (m : gmap string event_row) : tables := {|
  connection_reports := connection_reports t; connection_events := m;
  source_intervals := source_intervals t; telemetry_enabled := telemetry_enabled t |}.
Definition set_reports (t : tables) (m : gmap (string * string * Z) report_row) : tables := {|
  connection_reports := m; connection_events := connection_events t;
  source_intervals := source_intervals t; telemetry_enabled := telemetry_enabled t |}.

(** SQLite's lower(), which maps ASCII letters only. *)
Definition sql_lower (s : string) : string := of_bytes (map lower_byte (to_bytes s)).
(** The CHECK constraints of connection_events. *)
Definition event_checks (b : ConnectionBucket) : bool :=
  (TargetHost b =? sql_lower (TargetHost b))%string && (Domain b =? sql_lower (Domain b))%string &&
  (0 <=? TargetPort b) && (TargetPort b <=? 65535) &&
  ((IPVersion b =? 0) || (IPVersion b =? 4) || (IPVersion b =? 6)) &&
  (0 <=? ConnectionsOpened b) && (0 <=? ConnectionsClosed b) && (0 <=? UplinkBytes b) &&
  (0 <=? DownlinkBytes b) && (0 <=? DurationMsTotal b).

(** MIN and MAX of two texts. *)
Definition text_min (a b : string) : string := if String.ltb b a then b else a.
Definition text_max (a b : string) : string := if String.ltb a b then b else a.
(** ON CONFLICT(aggregate_key) DO UPDATE.  A sum of SQLite integers is exact
    until it leaves 64 bits, which takes two million merges of the largest
    accepted values. *)
Definition merge_row (row new : event_row) : event_row :=
  let old := ev_bucket row in
  let ex := ev_bucket new in
  let fold := if negb (ConnectionID ex =? "")%string then Z.max else Z.add in
  {| ev_node := ev_node row;
     ev_user := match ev_user row with Some u => Some u | None => ev_user new end;
     ev_bucket := with_measures old
       (fold (ConnectionsOpened old) (ConnectionsOpened ex)) (fold (ConnectionsClosed old) (ConnectionsClosed ex))
       (fold (UplinkBytes old) (UplinkBytes ex)) (fold (DownlinkBytes old) (DownlinkBytes ex))
       (fold (DurationMsTotal old) (DurationMsTotal ex))
       (text_min (WindowStart old) (WindowStart ex)) (text_max (WindowEnd old) (WindowEnd ex)) |}.
Definition UpsertConnectionEvent (m : gmap string event_row) (key : string) (row : event_row)
    : option (gmap string event_row) :=
  let row := match m !! key with Some old => merge_row old row | None => row end in
  if event_checks (ev_bucket row) then Some (<[key := row]> m) else None.

(** ** RecordConnectionReport *)
Inductive IngestError := MissingBootID | LongBootID | NegativeSequence | StatementFailed.

Section record.
Context `{UnicodeTables}.
(** hex(sha256(s)), and GetProxyUserIDByNodeAuthName for the node. *)
Variable sha256Hex : string -> string.
Variable proxyUserID : string -> option string.
Variable node : string.

Definition connectionEventAggregateKey (bucket : ConnectionBucket) : string :=
  sha256Hex (node ++ String ConnectionDimensionSeparator "" ++ DimensionKey bucket)%string.
Definition event_of (bucket : ConnectionBucket) : event_row := {|
  ev_node := node;
  ev_user := if (AuthName bucket =? "")%string then None else proxyUserID (AuthName bucket);
  ev_bucket := bucket |}.

(** The loop over the buckets; an unusable one is skipped. *)
Fixpoint store_buckets (m : gmap string event_row) (buckets : list ConnectionBucket)
    : option (gmap string event_row) :=
  match buckets with
  | [] => Some m
  | raw :: buckets =>
      match sanitizeConnectionBucket raw with
      | None => store_buckets m buckets
      | Some bucket =>
          match UpsertConnectionEvent m (connectionEventAggregateKey bucket) (event_of bucket) with
          | Some m => store_buckets m buckets
          | None => None
          end
      end
  end.

(** ActivateNetworkStreamSource *)
Definition ActivateNetworkStreamSource (t : tables) (startedAt : string) : option tables :=
  if bool_decide (node ∈ telemetry_enabled t) &&
     negb (existsb (fun i => (iv_node i =? node)%string && negb (bool_decide (is_Some (iv_ended i)))) (source_intervals t))
  then
    if existsb (fun i => (iv_node i =? node)%string && (iv_started i =? startedAt)%string) (source_intervals t)
    then None
    else Some {| connection_reports := connection_reports t; connection_events := connection_events t;
                 source_intervals := source_intervals t ++ [{| iv_node := node; iv_started := startedAt; iv_ended := None |}];
                 telemetry_enabled := telemetry_enabled t |}
  else Some t.

Definition clamp_coverage (c : ConnectionCoverage) : ConnectionCoverage := {|
  ConnectionsObserved := clampConnectionCount (ConnectionsObserved c);
  ConnectionsAttributed := clampConnectionCount (ConnectionsAttributed c);
  ConnectionsUnattributed := clampConnectionCount (ConnectionsUnattributed c);
  ConnectionsOrphaned := clampConnectionCount (ConnectionsOrphaned c);
  StreamResets := clampConnectionCount (StreamResets c);
  DroppedBuckets := clampConnectionCount (DroppedBuckets c);
  BytesObserved := clampConnectionBytes (BytesObserved c);
  BytesAttributed := clampConnectionBytes (BytesAttributed c) |}.

(** The instants of the report, re-derived. *)
Definition report_times (now : Time) (report : ConnectionReport) : string * string * string :=
  let reportedAt := NormalizeConnectionInstant (ReportedAt report) in
  let reportedAt := if (reportedAt =? "")%string then Format_instant now else reportedAt in
  let windowStart := NormalizeConnectionInstant (RWindowStart report) in
  let windowStart := if (windowStart =? "")%string then reportedAt else windowStart in
  let windowEnd := NormalizeConnectionInstant (RWindowEnd report) in
  let windowEnd := if (windowEnd =? "")%string || String.ltb windowEnd windowStart then windowStart else windowEnd in
  (reportedAt, windowStart, windowEnd).

(** DeleteConnectionEventsBefore, DeleteConnectionReportsBefore *)
Definition expired_event (cutoff : string) (r : event_row) : bool :=
  let b := ev_bucket r in
  if (ConnectionID b =? "")%string then String.ltb (BucketStart b) cutoff else String.ltb (WindowEnd b) cutoff.
Definition DeleteConnectionEventsBefore (cutoff : string) (t : tables) : tables :=
  set_events t (filter (fun kr => expired_event cutoff kr.2 = false) (connection_events t)).
Definition DeleteConnectionReportsBefore (cutoff : string) (t : tables) : tables :=
  set_reports t (filter (fun kr => String.ltb (rr_WindowEnd kr.2) cutoff = false) (connection_reports t)).

(** [now]: both readings of the clock; a day is 24 hours in UTC. *)
Definition RecordConnectionReport (t : tables) (now : Time) (retentionDays : Z) (report : ConnectionReport)
    : result IngestError tables :=
  let bootID := TrimSpace (AgentBootID report) in
  guard! negb (bootID =? "")%string else MissingBootID;
  guard! (String.length bootID <=? maxConnectionBootIDLen)%nat else LongBootID;
  guard! negb (Sequence report <? 0) else NegativeSequence;
  let '(reportedAt, windowStart, windowEnd) := report_times now report in
  let buckets := take maxConnectionBucketsPerReport (Buckets report) in
  let cutoff := Format_instant (now - retentionDays * 24 * hour) in
  let key := (node, bootID, Sequence report) in
  if bool_decide (is_Some (connection_reports t !! key)) then Ok t
  else
    let t := set_reports t (<[key := {| rr_WindowStart := windowStart; rr_WindowEnd := windowEnd;
                                        rr_Coverage := clamp_coverage (Coverage report);
                                        rr_ReportedAt := reportedAt |}]> (connection_reports t)) in
    match ActivateNetworkStreamSource t windowStart with
    | None => Err StatementFailed
    | Some t =>
        match store_buckets (connection_events t) buckets with
        | None => Err StatementFailed
        | Some m => Ok (DeleteConnectionReportsBefore cutoff (DeleteConnectionEventsBefore cutoff (set_events t m)))
        end
    end.
End record.

(** The HTTP handler, for an authenticated node; the status it answers. *)
Definition nodeConnectionEventsHandler `{UnicodeTables} (sha256Hex : string -> string)
    (proxyUserID : string -> option string) (t : tables) (now : Time) (retentionDays : Z) (node : string)
    (report : result Z ConnectionReport) : tables * Z :=
  if negb (bool_decide (node ∈ telemetry_enabled t)) then (t, 403)
  else match report with
       | Err status => (t, status)  (* the body is too large or not JSON *)
       | Ok report =>
           match RecordConnectionReport sha256Hex proxyUserID node t now retentionDays report with
           | Ok t => (t, 200)
           | Err _ => (t, 422)
           end
       end.

(** ** Bounds *)
Lemma cut_valid_prefix n l : exists k, (k <= n)%nat /\ cut_valid n l = take k l.
Proof.
  induction n as [|n [k [Hk IH]]]; cbn [cut_valid].
  - exists 0%nat. split; [lia|]. by destruct (ValidString _).
  - destruct (ValidString _); [by exists (S n)|]. exists k. split; [lia|done].
Qed.
Lemma truncate_prefix v n :
  exists k, to_bytes (truncateConnectionField v n) = take k (to_bytes v).
Proof.
  unfold truncateConnectionField. destruct (_ <=? _)%nat.
  - exists (length (to_bytes v)). by rewrite take_ge.
  - destruct (cut_valid_prefix n (to_bytes v)) as (k & _ & ->). exists k. by rewrite to_of_bytes.
Qed.
Lemma truncate_length v n : (String.length (truncateConnectionField v n) <= n)%nat.
Proof.
  unfold truncateConnectionField. destruct (String.length v <=? n)%nat eqn:E; [by apply Nat.leb_le in E|].
  destruct (cut_valid_prefix n (to_bytes v)) as (k & Hk & ->).
  rewrite <- to_bytes_length, to_of_bytes, length_take. lia.
Qed.
Lemma truncate_short v n : (String.length v <= n)%nat -> truncateConnectionField v n = v.
Proof. intros H%Nat.leb_le. unfold truncateConnectionField. by rewrite H. Qed.
Lemma clamp_range hi v : 0 <= hi -> 0 <= clamp hi v <= hi.
Proof. intros Hh. unfold clamp. destruct (v <? 0) eqn:E1; [lia|]. destruct (hi <? v) eqn:E2; lia. Qed.
Lemma clamp_id hi v : 0 <= v <= hi -> clamp hi v = v.
Proof. intros Hv. unfold clamp. replace (v <? 0) with false by lia. by replace (hi <? v) with false by lia. Qed.

(** What the code relies on of Unicode lower-casing: no ASCII capital is left. *)
Class UnicodeLowersAscii `{UnicodeTables} : Prop :=
  unicode_lowers_ascii s : is_ascii (to_bytes s) = false ->
    map lower_byte (to_bytes (unicode_lower s)) = to_bytes (unicode_lower s).
Definition no_capitals (s : string) : Prop := map lower_byte (to_bytes s) = to_bytes s.
Lemma no_capitals_part s p q r : to_bytes s = p ++ q ++ r -> no_capitals s -> map lower_byte q = q.
Proof.
  unfold no_capitals. intros -> H. rewrite !map_app in H.
  apply app_inj_1 in H as [_ H]; [|by rewrite length_map]. by apply app_inj_1 in H as [H _]; [|rewrite length_map].
Qed.
Lemma no_capitals_ToLower `{UnicodeLowersAscii} s : no_capitals (ToLower s).
Proof.
  unfold no_capitals, ToLower. destruct (is_ascii (to_bytes s)) eqn:E; [|by apply unicode_lowers_ascii].
  rewrite to_of_bytes, map_map. apply map_ext, lower_byte_idem.
Qed.
Lemma no_capitals_host `{UnicodeLowersAscii} host : no_capitals (NormalizeConnectionHost host).
Proof.
  unfold NormalizeConnectionHost. set (s := ToLower (TrimSpace host)).
  assert (Hs : no_capitals s) by apply no_capitals_ToLower.
  destruct (Trim_sublist s is_bracket) as (p & q & Ep).
  assert (Ht : no_capitals (Trim s is_bracket)) by (by eapply no_capitals_part).
  destruct (_ && _); [|done]. unfold trim_suffix_byte. destruct (has_suffix_byte _ _); [|done].
  unfold no_capitals. rewrite to_of_bytes. destruct (removelast_prefix (to_bytes (Trim s is_bracket))) as [r Er].
  apply (no_capitals_part (Trim s is_bracket) [] (removelast (to_bytes (Trim s is_bracket))) r); [exact Er|done].
Qed.
Lemma no_capitals_truncate s n : no_capitals s -> no_capitals (truncateConnectionField s n).
Proof.
  intros H. destruct (truncate_prefix s n) as [k Hk]. unfold no_capitals. rewrite Hk.
  apply (no_capitals_part s [] (take k (to_bytes s)) (drop k (to_bytes s))); [|done]. simpl. by rewrite take_drop.
Qed.
Lemma no_capitals_sql s : no_capitals s -> (s =? sql_lower s)%string = true.
Proof. intros H. unfold sql_lower. rewrite H, of_to_bytes. apply String.eqb_refl. Qed.

(** What an accepted bucket carries. *)
Record bounded_bucket (b : ConnectionBucket) : Prop := {
  bb_target : TargetHost b <> ""%string;
  bb_id : (String.length (ConnectionID b) <= 256)%nat;
  bb_auth : (String.length (AuthName b) <= maxConnectionAuthNameLen)%nat;
  bb_hosts : (String.length (SourceIP b) <= maxConnectionHostLen /\ String.length (TargetHost b) <= maxConnectionHostLen /\
    String.length (Domain b) <= maxConnectionHostLen)%nat;
  bb_labels : (String.length (Network b) <= maxConnectionLabelLen /\ String.length (Protocol b) <= maxConnectionLabelLen /\
    String.length (Inbound b) <= maxConnectionLabelLen /\ String.length (InboundType b) <= maxConnectionLabelLen /\
    String.length (Rule b) <= maxConnectionLabelLen /\ String.length (Outbound b) <= maxConnectionLabelLen /\
    String.length (OutboundType b) <= maxConnectionLabelLen)%nat;
  bb_counts : 0 <= ConnectionsOpened b <= maxConnectionBucketConnections /\
    0 <= ConnectionsClosed b <= maxConnectionBucketConnections;
  bb_session : ConnectionID b <> ""%string -> ConnectionsOpened b <= 1 /\ ConnectionsClosed b <= 1;
  bb_bytes : 0 <= UplinkBytes b <= maxConnectionBucketBytes /\ 0 <= DownlinkBytes b <= maxConnectionBucketBytes;
  bb_duration : 0 <= DurationMsTotal b <= maxConnectionBucketDurationMs;
  bb_window : ~ str_lt (WindowEnd b) (WindowStart b) /\ WindowStart b <> ""%string;
  bb_checks : event_checks b = true;
}.
Lemma sanitize_spec `{UnicodeLowersAscii} raw b : sanitizeConnectionBucket raw = Some b -> bounded_bucket b.
Proof.
  unfold sanitizeConnectionBucket, Normalize. destruct (negb _ && _); [done|].
  set (id := TrimSpace (ConnectionID raw)). set (st := NormalizeConnectionInstant (StartedAt raw)).
  set (bs := if (id =? "")%string then _ else _).
  destruct (negb _ && measures_ok _) eqn:En; cbn [negb]; [|done].
  destruct (256 <? _)%nat eqn:Eid; [done|]. apply Nat.ltb_ge in Eid.
  destruct (TargetHost (bound_fields _) =? "")%string eqn:Et; [done|]. intros Hx. injection Hx as <-.
  apply andb_true_iff in En as [[Hbs Hth]%negb_true_iff%orb_false_iff Hm].
  apply String.eqb_neq in Et, Hbs. cbn [BucketStart normalize_fields] in Hbs.
  unfold measures_ok in Hm. cbn [TargetPort ConnectionsOpened ConnectionsClosed UplinkBytes DownlinkBytes DurationMsTotal normalize_fields] in Hm.
  destruct (normalize_window raw st bs id Hbs) as [Hw1 Hw2].
  assert (Hnc : no_capitals (TargetHost (normalize_fields raw id st bs)) /\ no_capitals (Domain (normalize_fields raw id st bs))).
  { cbn [TargetHost Domain normalize_fields]. split; [|apply no_capitals_host].
    destruct (NormalizeConnectionHost (Domain raw) =? "")%string; apply no_capitals_host. }
  assert (Hcl : forall v, 0 <= clampConnectionCount v <= maxConnectionBucketConnections) by (intros v; by apply clamp_range).
  assert (Hby : forall v, 0 <= clampConnectionBytes v <= maxConnectionBucketBytes) by (intros v; by apply clamp_range).
  assert (Hdu : forall v, 0 <= clampConnectionDuration v <= maxConnectionBucketDurationMs) by (intros v; by apply clamp_range).
  split; try exact Et; try exact Eid; cbn [bound_fields AuthName SourceIP TargetHost Domain Network Protocol Inbound
    InboundType Rule Outbound OutboundType ConnectionsOpened ConnectionsClosed UplinkBytes DownlinkBytes DurationMsTotal
    WindowStart WindowEnd ConnectionID].
  - apply truncate_length.
  - split_and!; apply truncate_length.
  - split_and!; apply truncate_length.
  - split; apply Hcl.
  - intros Hid. apply String.eqb_neq in Hid. rewrite Hid. cbn [negb]. unfold clampConnectionCount, clamp, maxConnectionBucketConnections.
    split; repeat case_match; lia.
  - split; apply Hby.
  - apply Hdu.
  - by split.
  - unfold event_checks. cbn [TargetHost Domain TargetPort IPVersion ConnectionsOpened ConnectionsClosed UplinkBytes
      DownlinkBytes DurationMsTotal bound_fields].
    destruct Hnc as [Hn1 Hn2].
    rewrite !no_capitals_sql by (by apply no_capitals_truncate). cbn [andb].
    specialize (Hby (UplinkBytes (normalize_fields raw id st bs))) as Hu.
    specialize (Hby (DownlinkBytes (normalize_fields raw id st bs))) as Hd.
    match goal with |- context [0 <=? clampConnectionCount ?x] => pose proof (Hcl x) as Ho end.
    assert (Hip : (let v := IPVersion (normalize_fields raw id st bs) in (v =? 0) || (v =? 4) || (v =? 6)) = true).
    { cbn [IPVersion normalize_fields]. destruct (IPVersion raw =? 4) eqn:E4; destruct (IPVersion raw =? 6) eqn:E6; cbn [negb andb]; lia. }
    cbv zeta in Hip. rewrite Hip.
    repeat (apply andb_true_iff; split); try reflexivity; cbn [TargetPort normalize_fields]; try lia;
      apply Z.leb_le; first [apply Hcl|apply Hby|apply Hdu].
Qed.

(** a bucket accepted from a node, which is not trusted, is within every
    bound: text lengths, port, IP version, non-negative measures below the
    ceilings, at most one opening and closing per session, an ordered window,
    a target host; and it satisfies the constraints of the table. *)
Theorem sanitizeConnectionBucket_bounded `{UnicodeLowersAscii} raw b :
  sanitizeConnectionBucket raw = Some b -> bounded_bucket b.
Proof. apply sanitize_spec. Qed.

(** ** Ingestion cannot fail on content *)
Definition events_ok (m : gmap string event_row) : Prop :=
  map_Forall (fun _ r => event_checks (ev_bucket r) = true) m.
Lemma event_checks_merge row new :
  event_checks (ev_bucket row) = true -> event_checks (ev_bucket new) = true ->
  event_checks (ev_bucket (merge_row row new)) = true.
Proof.
  unfold event_checks, merge_row. rewrite !andb_true_iff.
  cbn [ev_bucket with_measures TargetHost Domain TargetPort IPVersion ConnectionsOpened ConnectionsClosed
    UplinkBytes DownlinkBytes DurationMsTotal].
  intros (((((((((? & ?) & ?) & ?) & ?) & ?) & ?) & ?) & ?) & ?) (((((((((? & ?) & ?) & ?) & ?) & ?) & ?) & ?) & ?) & ?).
  destruct (negb _); repeat split; try done; lia.
Qed.
Lemma upsert_ok m key row :
  events_ok m -> event_checks (ev_bucket row) = true ->
  exists m', UpsertConnectionEvent m key row = Some m' /\ events_ok m' /\
    (forall k, m' !! k = if bool_decide (k = key)
       then Some (match m !! key with Some old => merge_row old row | None => row end) else m !! k).
Proof.
  intros Hm Hr. unfold UpsertConnectionEvent. set (row' := match m !! key with Some old => merge_row old row | None => row end).
  assert (Hr' : event_checks (ev_bucket row') = true).
  { subst row'. destruct (m !! key) as [old|] eqn:E; [|done]. apply event_checks_merge; [by eapply Hm|done]. }
  rewrite Hr'. eexists. split; [done|]. split; [by apply map_Forall_insert_2|].
  intros k. destruct (decide (k = key)) as [->|Hne].
  - by rewrite bool_decide_true, lookup_insert, decide_True.
  - by rewrite bool_decide_false, lookup_insert_ne.
Qed.

Section ingestion.
Context `{UnicodeLowersAscii} (sha256Hex : string -> string) (proxyUserID : string -> option string) (node : string).
Abbreviation key_of := (connectionEventAggregateKey sha256Hex node).
Abbreviation event_of := (event_of proxyUserID node).
Abbreviation store_buckets := (store_buckets sha256Hex proxyUserID node).
Abbreviation RecordConnectionReport := (RecordConnectionReport sha256Hex proxyUserID node).

(** The rows a list of buckets folds into the row under [key]. *)
Definition rows_for (key : string) (buckets : list ConnectionBucket) : list event_row :=
  omap (fun raw => match sanitizeConnectionBucket raw with
                   | Some b => if (key_of b =? key)%string then Some (event_of b) else None
                   | None => None
                   end) buckets.
Definition fold_row (row : option event_row) (new : event_row) : option event_row :=
  Some (match row with Some old => merge_row old new | None => new end).
Lemma store_buckets_spec m buckets : events_ok m ->
  exists m', store_buckets m buckets = Some m' /\ events_ok m' /\
    forall key, m' !! key = foldl fold_row (m !! key) (rows_for key buckets).
Proof.
  revert m. induction buckets as [|raw buckets IH]; intros m Hm; cbn [Ingest.store_buckets].
  - by exists m.
  - unfold rows_for. cbn [omap list_omap]. destruct (sanitizeConnectionBucket raw) as [b|] eqn:Es; [|by apply IH].
    destruct (upsert_ok m (key_of b) (event_of b) Hm) as (m1 & -> & Hm1 & Hl1).
    { apply (bb_checks b). by eapply sanitize_spec. }
    destruct (IH m1 Hm1) as (m2 & -> & Hm2 & Hl2). exists m2. split; [done|]. split; [done|].
    intros key. rewrite Hl2, Hl1. destruct (key_of b =? key)%string eqn:Ek.
    + apply String.eqb_eq in Ek as <-. by rewrite bool_decide_true.
    + apply String.eqb_neq in Ek. by rewrite bool_decide_false by congruence.
Qed.

(** no content makes a report fail: with a boot id and a sequence number in
    range, and no closed source interval that starts at the report's window,
    the transaction commits whatever the buckets hold, and every stored row
    still satisfies the constraints of the table: one hostile bucket can
    neither abort the batch nor damage a row. *)
Theorem RecordConnectionReport_accepts t now days r :
  events_ok (connection_events t) ->
  TrimSpace (AgentBootID r) <> ""%string ->
  (String.length (TrimSpace (AgentBootID r)) <= maxConnectionBootIDLen)%nat -> 0 <= Sequence r ->
  (forall i, i ∈ source_intervals t -> iv_node i = node ->
     iv_started i = (report_times now r).1.2 -> iv_ended i = None) ->
  exists t', RecordConnectionReport t now days r = Ok t' /\ events_ok (connection_events t').
Proof.
  intros Hev Hb1 Hb2 Hseq Hint. unfold Ingest.RecordConnectionReport.
  apply String.eqb_neq in Hb1. rewrite Hb1. apply Nat.leb_le in Hb2. rewrite Hb2.
  replace (Sequence r <? 0) with false by lia. cbn [negb].
  destruct (report_times now r) as [[reportedAt windowStart] windowEnd]. cbn [fst snd] in Hint.
  destruct (bool_decide _); [by exists t|].
  match goal with |- context [ActivateNetworkStreamSource node ?T windowStart] =>
    assert (Ha : exists t1, ActivateNetworkStreamSource node T windowStart = Some t1 /\ connection_events t1 = connection_events t) end.
  { unfold ActivateNetworkStreamSource. cbn [source_intervals telemetry_enabled set_reports connection_events connection_reports].
    destruct (bool_decide _ && negb (existsb _ _)) eqn:Eact; [|by eexists].
    apply andb_true_iff in Eact as [_ Eact]. apply negb_true_iff in Eact.
    destruct (existsb (fun i => (iv_node i =? node)%string && (iv_started i =? windowStart)%string) (source_intervals t)) eqn:Ex; [|by eexists].
    exfalso. apply existsb_exists in Ex as (i & Hi & Hw). apply andb_true_iff in Hw as [Hn Hs].
    apply String.eqb_eq in Hn, Hs. apply list_elem_of_In in Hi. pose proof (Hint i Hi Hn Hs) as He.
    apply not_true_iff_false in Eact. apply Eact, existsb_exists. exists i. split; [by apply list_elem_of_In|].
    by rewrite Hn, He, String.eqb_refl. }
  destruct Ha as (t1 & -> & Ht1).
  destruct (store_buckets_spec (connection_events t1) (take maxConnectionBucketsPerReport (Buckets r))) as (m & -> & Hm & _);
    [by rewrite Ht1|].
  eexists. split; [done|]. cbn [connection_events DeleteConnectionReportsBefore DeleteConnectionEventsBefore set_events set_reports].
  intros k row Hk. apply map_lookup_filter_Some in Hk as [Hk _]. by eapply Hm.
Qed.

(** a repeated report changes nothing, however late, as long as its window
    had not already left the retention period when it was first taken in. *)
Theorem RecordConnectionReport_idempotent t now days r t' now' days' :
  RecordConnectionReport t now days r = Ok t' ->
  connection_reports t !! (node, TrimSpace (AgentBootID r), Sequence r) = None ->
  String.ltb (report_times now r).2 (Format_instant (now - days * 24 * hour)) = false ->
  RecordConnectionReport t' now' days' r = Ok t'.
Proof.
  unfold Ingest.RecordConnectionReport.
  destruct (negb (_ =? "")%string); [|done]. destruct (_ <=? _)%nat; [|done]. destruct (negb (_ <? _)); [|done].
  destruct (report_times now r) as [[ra ws] we]. destruct (report_times now' r) as [[ra' ws'] we']. cbn [snd].
  intros Hrec Hnew Hret. rewrite Hnew, bool_decide_false in Hrec by (by intros [? ?]).
  match type of Hrec with context [ActivateNetworkStreamSource node ?T ws] =>
    destruct (ActivateNetworkStreamSource node T ws) as [t1|] eqn:Ea; [|discriminate Hrec] end.
  destruct (store_buckets _ _) as [m|]; [|discriminate Hrec]. injection Hrec as <-.
  assert (Hk : is_Some (connection_reports t1 !! (node, TrimSpace (AgentBootID r), Sequence r)) /\
    forall row, connection_reports t1 !! (node, TrimSpace (AgentBootID r), Sequence r) = Some row -> rr_WindowEnd row = we).
  { assert (Hr1 : connection_reports t1 = <[(node, TrimSpace (AgentBootID r), Sequence r) :=
      {| rr_WindowStart := ws; rr_WindowEnd := we; rr_Coverage := clamp_coverage (Coverage r); rr_ReportedAt := ra |}]> (connection_reports t)).
    { revert Ea. unfold ActivateNetworkStreamSource.
      destruct (bool_decide _ && _); [destruct (existsb _ _); [done|]|]; intros Ea; by injection Ea as <-. }
    rewrite Hr1, lookup_insert, decide_True by done. split; [by eexists|]. intros row Hrow. by injection Hrow as <-. }
  destruct Hk as [[row Hrow] Hwe]. rewrite bool_decide_true; [done|].
  cbn [connection_reports DeleteConnectionReportsBefore DeleteConnectionEventsBefore set_events set_reports].
  exists row. apply map_lookup_filter_Some. split; [done|]. cbn [snd]. by rewrite (Hwe row Hrow).
Qed.

(** ** Snapshots of a session converge *)
(** On a session the statement is the agent's [Merge]. *)
Lemma merge_row_Merge row new :
  ConnectionID (ev_bucket row) <> ""%string -> ConnectionID (ev_bucket new) <> ""%string ->
  WindowStart (ev_bucket row) <> ""%string -> WindowStart (ev_bucket new) <> ""%string ->
  ev_bucket (merge_row row new) = Merge (ev_bucket row) (ev_bucket new).
Proof.
  intros Hr Hn Hw1 Hw2. rewrite Merge_session by done. unfold merge_row. cbn [ev_bucket].
  apply String.eqb_neq in Hn, Hw1, Hw2. rewrite Hn. cbn [negb]. f_equal.
  unfold merge_start, text_min. rewrite Hw1, Hw2. reflexivity.
Qed.
Definition session_row (user : option string) (r : event_row) : Prop :=
  ev_user r = user /\ ConnectionID (ev_bucket r) <> ""%string /\ WindowStart (ev_bucket r) <> ""%string.
Lemma fold_rows_bucket user row rows :
  session_row user row -> Forall (session_row user) rows ->
  exists last, foldl fold_row (Some row) rows = Some last /\ ev_node last = ev_node row /\
    ev_user last = user /\ ev_bucket last = foldl Merge (ev_bucket row) (map ev_bucket rows).
Proof.
  intros Hrow Hrows. revert row Hrow. induction Hrows as [|r rows (Hu & Hid & Hw) Hrows IH]; intros row Hrow; cbn [foldl map].
  - destruct Hrow as (? & _). by exists row.
  - destruct Hrow as (Hur & Hidr & Hwr). destruct (IH (merge_row row r)) as (last & Hl & Hn & Hul & Hb).
    + split; [cbn [ev_user merge_row]; rewrite Hur, Hu; by destruct user|]. split; [done|].
      rewrite merge_row_Merge, Merge_session by done. cbn [WindowStart with_measures]. unfold merge_start.
      destruct (negb _ && _); done.
    + exists last. split; [exact Hl|]. split; [exact Hn|]. split; [done|]. by rewrite Hb, merge_row_Merge.
Qed.

(** the stored row of a session does not depend on the order in which its
    snapshots arrive nor on how often: two deliveries of the same set of
    snapshots into the same row leave the same row, which is the agent's own
    [Merge] of them. *)
Theorem session_row_converges m l1 l2 m1 m2 key user row :
  events_ok m -> m !! key = Some row -> session_row user row ->
  Forall (session_row user) (rows_for key l1) -> Forall (session_row user) (rows_for key l2) ->
  (forall x, x ∈ map ev_bucket (rows_for key l1) <-> x ∈ map ev_bucket (rows_for key l2)) ->
  store_buckets m l1 = Some m1 -> store_buckets m l2 = Some m2 ->
  m1 !! key = m2 !! key /\
  ev_bucket <$> m1 !! key = Some (foldl Merge (ev_bucket row) (map ev_bucket (rows_for key l1))).
Proof.
  intros Hm Hk Hrow H1 H2 Hsame E1 E2.
  destruct (store_buckets_spec m l1 Hm) as (m1' & E1' & _ & Hl1). rewrite E1 in E1'. injection E1' as <-.
  destruct (store_buckets_spec m l2 Hm) as (m2' & E2' & _ & Hl2). rewrite E2 in E2'. injection E2' as <-.
  rewrite Hl1, Hl2, Hk.
  destruct (fold_rows_bucket user row _ Hrow H1) as (a & -> & Hna & Hua & Hba).
  destruct (fold_rows_bucket user row _ Hrow H2) as (b & -> & Hnb & Hub & Hbb).
  assert (Hmerge : ev_bucket a = ev_bucket b).
  { rewrite Hba, Hbb. apply merge_same_set; [apply Hrow|exact Hsame]. }
  split; [|cbn; by rewrite Hba]. destruct a, b. cbn in *. congruence.
Qed.
End ingestion.

(** ** A concrete report *)
Definition lowering_tables : UnicodeTables := {| unicode_lower s := of_bytes (map lower_byte (to_bytes s)) |}.
Lemma lowering_lowers : @UnicodeLowersAscii lowering_tables.
Proof. intros s _. cbn [unicode_lower lowering_tables]. rewrite to_of_bytes, map_map. apply map_ext, lower_byte_idem. Qed.

Definition sample_coverage : ConnectionCoverage := {|
  ConnectionsObserved := 2; ConnectionsAttributed := 2; ConnectionsUnattributed := 0; ConnectionsOrphaned := 0;
  StreamResets := 0; DroppedBuckets := 0; BytesObserved := 30; BytesAttributed := -4 |}.
Definition sample_report : ConnectionReport := {|
  NodeName := "n"; AgentBootID := "boot"; Sequence := 7; ReportedAt := ""; RWindowStart := "2024-05-01T12:00:00Z";
  RWindowEnd := "2024-05-01T12:01:00Z"; Coverage := sample_coverage; Buckets := [sample_bucket; sample_bucket] |}.
Definition empty_tables : tables := {|
  connection_reports := ∅; connection_events := ∅; source_intervals := []; telemetry_enabled := {["n"%string]} |}.
Definition sample_now : Time := 1714564805 * second.
#[local] Existing Instance lowering_tables.
Definition sample_sanitized : option ConnectionBucket := sanitizeConnectionBucket sample_bucket.
Definition sample_recorded (t : tables) : result IngestError tables :=
  RecordConnectionReport (fun s => s) (fun _ => Some "u"%string) "n" t sample_now 14 sample_report.

Lemma sanitizeConnectionBucket_bounded_witness :
  match sample_sanitized with Some b => bounded_bucket b | None => False end.
Proof.
  destruct sample_sanitized as [b|] eqn:E.
  - exact (sanitizeConnectionBucket_bounded (H0 := lowering_lowers) sample_bucket b E).
  - vm_compute in E. discriminate E.
Defined.

Lemma RecordConnectionReport_accepts_witness :
  exists t', sample_recorded empty_tables = Ok t' /\ events_ok (connection_events t').
Proof.
  apply (RecordConnectionReport_accepts (H0 := lowering_lowers)); cbn [connection_events empty_tables source_intervals].
  - apply map_Forall_empty.
  - vm_compute. discriminate.
  - vm_compute. lia.
  - vm_compute. discriminate.
  - intros i Hi. exact (match not_elem_of_nil i Hi with end).
Defined.

Lemma RecordConnectionReport_idempotent_witness :
  match sample_recorded empty_tables with Ok t => sample_recorded t = Ok t | Err _ => False end.
Proof.
  destruct (sample_recorded empty_tables) as [t|] eqn:E.
  - refine (RecordConnectionReport_idempotent (H := lowering_tables) _ _ "n" _ _ _ _ t sample_now 14 E _ _); vm_compute; reflexivity.
  - vm_compute in E. discriminate E.
Defined.

Definition sample_user (_ : string) : option string := Some "u"%string.
Definition sample_clean (b : ConnectionBucket) : ConnectionBucket := default b (sanitizeConnectionBucket b).
Definition snapshot (opened closed up down ms : Z) (upto : string) : ConnectionBucket :=
  with_measures sample_bucket opened closed up down ms "2024-05-01T12:00:06.000Z" upto.
Lemma session_row_converges_witness :
  let s1 := snapshot 1 0 10 20 0 "2024-05-01T12:00:07.000Z" in
  let s2 := snapshot 1 1 30 20 900 "2024-05-01T12:00:09.000Z" in
  let key := connectionEventAggregateKey (fun s => s) "n" (sample_clean sample_bucket) in
  let store := store_buckets (fun s => s) sample_user "n" {[key := event_of sample_user "n" (sample_clean sample_bucket)]} in
  match store [s1; s2; s1], store [s2; s1] with
  | Some m1, Some m2 => m1 !! key = m2 !! key
  | _, _ => False
  end.
Proof.
  intros s1 s2 key. set (row := event_of sample_user "n" (sample_clean sample_bucket)). intros store. subst store. cbv beta.
  assert (Hm : events_ok {[key := row]}) by (apply map_Forall_singleton; vm_compute; reflexivity).
  destruct (store_buckets_spec (H0 := lowering_lowers) (fun s => s) sample_user "n" {[key := row]} [s1; s2; s1] Hm) as (m1 & E1 & _).
  destruct (store_buckets_spec (H0 := lowering_lowers) (fun s => s) sample_user "n" {[key := row]} [s2; s1] Hm) as (m2 & E2 & _).
  rewrite E1, E2.
  set (r1 := event_of sample_user "n" (sample_clean s1)). set (r2 := event_of sample_user "n" (sample_clean s2)).
  assert (R1 : rows_for (fun s => s) sample_user "n" key [s1; s2; s1] = [r1; r2; r1]) by (vm_compute; reflexivity).
  assert (R2 : rows_for (fun s => s) sample_user "n" key [s2; s1] = [r2; r1]) by (vm_compute; reflexivity).
  assert (Hs : forall r, r ∈ [row; r1; r2] -> session_row (Some "u"%string) r).
  { apply list.Forall_forall. apply Forall_cons. split; [|apply Forall_cons; split; [|apply Forall_singleton]];
      (vm_compute; split; [reflexivity|split; discriminate]). }
  refine (proj1 (session_row_converges (H0 := lowering_lowers) (fun s => s) sample_user "n" {[key := row]}
    [s1; s2; s1] [s2; s1] m1 m2 key (Some "u"%string) row Hm _ _ _ _ _ E1 E2)).
  - apply lookup_singleton_eq.
  - apply Hs. apply list_elem_of_here.
  - rewrite R1. apply list.Forall_forall. intros r Hr. apply Hs. rewrite !elem_of_cons in Hr. rewrite !elem_of_cons. tauto.
  - rewrite R2. apply list.Forall_forall. intros r Hr. apply Hs. rewrite !elem_of_cons in Hr. rewrite !elem_of_cons. tauto.
  - rewrite R1, R2. intros x. cbn [map]. rewrite !elem_of_cons. tauto.
Defined.
