(* ===== verification/Effects.v ===== *)
(** * Programs with effects

    Code that calls out — to SQLite, to the service manager, to the server —
    while others act: a state [W], errors [E], and the number of calls made so
    far, by which an oracle decides how each call ends.  With rules in the
    style of a Hoare logic, for [Campaigns] and [ConfigCycle]. *)
From S2P Require Import Prelude.

Definition eff (W E A : Type) : Type := W * nat -> result E A * (W * nat).
#[export] Instance eff_ret {W E} : MRet (eff W E) := fun A a s => (Ok a, s).
#[export] Instance eff_bind {W E} : MBind (eff W E) := fun A B k m s =>
  match m s with
  | (Ok a, s) => k a s
  | (Err e, s) => (Err e, s)
  end.
Definition fail {W E A} (e : E) : eff W E A := fun s => (Err e, s).
(** The error as a value, for the calls whose error the code inspects or drops. *)
Definition attempt {W E A} (m : eff W E A) : eff W E (result E A) := fun s => let (r, s) := m s in (Ok r, s).
Fixpoint for_each {W E A} (f : A -> eff W E unit) (l : list A) : eff W E unit :=
  match l with
  | [] => mret tt
  | x :: l => f x;; for_each f l
  end.

(** Reading and changing the state; a check; a transaction, which an error undoes. *)
Definition read {W E} : eff W E W := fun s => (Ok s.1, s).
Definition modify {W E} (f : W -> W) : eff W E unit := fun s => (Ok tt, (f s.1, s.2)).
Definition insist {W E} (b : bool) (e : E) : eff W E unit := if b then mret tt else fail e.
Definition obtain {W E A} (o : option A) (e : E) : eff W E A := match o with Some a => mret a | None => fail e end.
Definition transaction {W E A} (m : eff W E A) : eff W E A := fun s =>
  match m s with
  | (Err e, s') => (Err e, (s.1, s'.2))
  | r => r
  end.

Section rules.
Context {W Er : Type}.
Implicit Types (P E : W -> Prop).

(** [m] started where [P] holds ends where its result and [Q] say, or fails
    where [E] holds. *)
Definition triple {A} E P (m : eff W Er A) (Q : A -> W -> Prop) : Prop :=
  forall s, P s.1 -> match m s with (Ok a, s') => Q a s'.1 | (Err _, s') => E s'.1 end.

Lemma triple_ret {A} E P (a : A) (Q : A -> W -> Prop) : (forall w, P w -> Q a w) -> triple E P (mret a) Q.
Proof. intros HPQ s Hp. by apply HPQ. Qed.
Lemma triple_fail {A} E P e (Q : A -> W -> Prop) : (forall w, P w -> E w) -> triple E P (fail e) Q.
Proof. intros HPE s Hp. by apply HPE. Qed.
Lemma triple_bind {A B} E P (m : eff W Er A) (k : A -> eff W Er B) R Q :
  triple E P m R -> (forall a, triple E (R a) (k a) Q) -> triple E P (m ≫= k) Q.
Proof.
  intros Hm Hk s Hp. unfold mbind, eff_bind. pose proof (Hm s Hp) as H1. destruct (m s) as [[a|e] s1]; [|done].
  by apply (Hk a).
Qed.
Lemma triple_weaken {A} E P P' (m : eff W Er A) (Q Q' : A -> W -> Prop) :
  (forall w, P' w -> P w) -> (forall a w, Q a w -> Q' a w) -> triple E P m Q -> triple E P' m Q'.
Proof.
  intros HP HQ Hm s Hp. pose proof (Hm s (HP _ Hp)) as H1. destruct (m s) as [[a|e] s1]; [|done]. by apply HQ.
Qed.
Lemma triple_pre {A} E P P' (m : eff W Er A) Q : (forall w, P' w -> P w) -> triple E P m Q -> triple E P' m Q.
Proof. intros HP. by apply triple_weaken. Qed.
Lemma triple_post {A} E P (m : eff W Er A) (Q Q' : A -> W -> Prop) : (forall a w, Q a w -> Q' a w) -> triple E P m Q -> triple E P m Q'.
Proof. intros HQ. by apply triple_weaken. Qed.
Lemma triple_error {A} E E' P (m : eff W Er A) Q : (forall w, E w -> E' w) -> triple E P m Q -> triple E' P m Q.
Proof. intros HE Hm s Hp. pose proof (Hm s Hp) as H1. destruct (m s) as [[a|e] s1]; [done|by apply HE]. Qed.
Lemma triple_attempt {A} E P (m : eff W Er A) Q :
  triple E P m Q -> triple E P (attempt m) (fun r w => match r with Ok a => Q a w | Err _ => E w end).
Proof. intros Hm s Hp. unfold attempt. pose proof (Hm s Hp) as H1. by destruct (m s) as [[a|e] s1]. Qed.
Lemma triple_for_each {A} E (P : list A -> W -> Prop) (f : A -> eff W Er unit) l :
  (forall x l, triple E (P (x :: l)) (f x) (fun _ => P l)) -> triple E (P l) (for_each f l) (fun _ => P []).
Proof.
  intros Hf. induction l as [|x l IH]; cbn [for_each]; [by apply triple_ret|].
  eapply triple_bind; [apply Hf|]. by intros [].
Qed.
(** The same assertion all along. *)
Lemma triple_each {A} E P (f : A -> eff W Er unit) l :
  Forall (fun x => triple E P (f x) (fun _ => P)) l -> triple E P (for_each f l) (fun _ => P).
Proof.
  induction 1 as [|x l Hx Hl IH]; cbn [for_each]; [by apply triple_ret|].
  eapply triple_bind; [apply Hx|]. by intros [].
Qed.
Lemma triple_case {A} E P (b : bool) (m1 m2 : eff W Er A) Q :
  (b = true -> triple E P m1 Q) -> (b = false -> triple E P m2 Q) -> triple E P (if b then m1 else m2) Q.
Proof. destruct b; auto. Qed.
(** A pure part of the precondition. *)
Lemma triple_assume {A} E (φ : Prop) P (m : eff W Er A) Q : (φ -> triple E P m Q) -> triple E (fun w => P w /\ φ) m Q.
Proof. intros Hm s [Hp Hφ]. by apply Hm. Qed.

(** The same with the error as a value: [m] started where [P] holds ends as
    [Q] says. *)
Definition outcome {A} P (m : eff W Er A) (Q : result Er A -> W -> Prop) : Prop :=
  forall s, P s.1 -> let (r, s') := m s in Q r s'.1.
Lemma outcome_ret {A} P (a : A) Q : (forall w, P w -> Q (Ok a) w) -> outcome P (mret a) Q.
Proof. intros HPQ s Hp. by apply HPQ. Qed.
Lemma outcome_fail {A} P e (Q : result Er A -> W -> Prop) : (forall w, P w -> Q (Err e) w) -> outcome P (fail e) Q.
Proof. intros HPQ s Hp. by apply HPQ. Qed.
Lemma outcome_bind {A B} P (m : eff W Er A) (k : A -> eff W Er B) R Q :
  outcome P m R -> (forall e w, R (Err e) w -> Q (Err e) w) -> (forall a, outcome (R (Ok a)) (k a) Q) -> outcome P (m ≫= k) Q.
Proof.
  intros Hm He Hk s Hp. unfold mbind, eff_bind. pose proof (Hm s Hp) as H1. destruct (m s) as [[a|e] s1]; [by apply (Hk a)|by apply He].
Qed.
Lemma outcome_attempt {A} P (m : eff W Er A) Q :
  outcome P m Q -> outcome P (attempt m) (fun r w => match r with Ok r => Q r w | Err _ => False end).
Proof. intros Hm s Hp. unfold attempt. pose proof (Hm s Hp) as H1. by destruct (m s) as [r s1]. Qed.
Lemma outcome_weaken {A} P P' (m : eff W Er A) (Q Q' : result Er A -> W -> Prop) :
  (forall w, P' w -> P w) -> (forall r w, Q r w -> Q' r w) -> outcome P m Q -> outcome P' m Q'.
Proof. intros HP HQ Hm s Hp. pose proof (Hm s (HP _ Hp)) as H1. destruct (m s) as [r s1]. by apply HQ. Qed.
(** From one state to all those with [P]. *)
Lemma outcome_from {A} P (m : eff W Er A) Q :
  (forall w0, P w0 -> outcome (eq w0) m (Q w0)) -> outcome P m (fun r w => exists w0, P w0 /\ Q w0 r w).
Proof. intros Hm [w0 k] Hp. pose proof (Hm w0 Hp (w0, k) eq_refl) as H1. destruct (m (w0, k)) as [r s1]. by exists w0. Qed.
(** The error of the first part is the error of the whole. *)
Lemma outcome_then {A B} P (m : eff W Er A) (k : A -> eff W Er B) R Q :
  outcome P m (fun r n => match r with Ok a => R a n | Err e => Q (Err e) n end) -> (forall a, outcome (R a) (k a) Q) -> outcome P (m ≫= k) Q.
Proof. intros Hm Hk. eapply outcome_bind; [exact Hm|done|exact Hk]. Qed.
Lemma outcome_case {A} P (b : bool) (m1 m2 : eff W Er A) Q :
  (b = true -> outcome P m1 Q) -> (b = false -> outcome P m2 Q) -> outcome P (if b then m1 else m2) Q.
Proof. destruct b; auto. Qed.

(** ** Runs that succeed *)
Lemma bind_Ok {A B} (m : eff W Er A) (k : A -> eff W Er B) s b s' :
  (m ≫= k) s = (Ok b, s') -> exists a s1, m s = (Ok a, s1) /\ k a s1 = (Ok b, s').
Proof. unfold mbind, eff_bind. destruct (m s) as [[a|e] s1]; [by eauto|done]. Qed.
Lemma ret_Ok {A} (a b : A) (s s' : W * nat) : (mret a : eff W Er A) s = (Ok b, s') -> b = a /\ s' = s.
Proof. by intros [= <- <-]. Qed.
Lemma fail_Ok {A} (e : Er) (b : A) (s s' : W * nat) : (fail e : eff W Er A) s <> (Ok b, s').
Proof. done. Qed.
Lemma read_Ok w (s s' : W * nat) : (read : eff W Er W) s = (Ok w, s') -> w = s.1 /\ s' = s.
Proof. by intros [= <- <-]. Qed.
Lemma modify_Ok f u (s s' : W * nat) : (modify f : eff W Er unit) s = (Ok u, s') -> s' = (f s.1, s.2).
Proof. by intros [= _ <-]. Qed.
Lemma insist_Ok b (e : Er) u (s s' : W * nat) : insist b e s = (Ok u, s') -> b = true /\ s' = s.
Proof. unfold insist. destruct b; [by intros [= _ <-]|done]. Qed.
Lemma obtain_Ok {A} (o : option A) (e : Er) a (s s' : W * nat) : obtain o e s = (Ok a, s') -> o = Some a /\ s' = s.
Proof. unfold obtain. destruct o; [by intros [= -> <-]|done]. Qed.
Lemma transaction_Ok {A} (m : eff W Er A) a s s' : transaction m s = (Ok a, s') -> m s = (Ok a, s').
Proof. unfold transaction. by destruct (m s) as [[x|e] s1]. Qed.
Lemma transaction_Err {A} (m : eff W Er A) e s s' : transaction m s = (Err e, s') -> s'.1 = s.1.
Proof. unfold transaction. destruct (m s) as [[x|e'] s1]; [done|]. by intros [= _ <-]. Qed.
(** A relation every step respects relates the ends of a loop. *)
Lemma for_each_Ok {A} (R : relation (W * nat)) `{!PreOrder R} (f : A -> eff W Er unit) l s s' :
  (forall x s s', x ∈ l -> f x s = (Ok tt, s') -> R s s') -> for_each f l s = (Ok tt, s') -> R s s'.
Proof.
  revert s. induction l as [|x l IH]; intros s Hf H; cbn [for_each] in H; [by apply ret_Ok in H as [_ ->]|].
  apply bind_Ok in H as ([] & s1 & H1 & H). transitivity s1; [eapply Hf; [left|exact H1]|].
  eapply IH; [|exact H]. intros y ? ? Hy. apply Hf. by right.
Qed.
End rules.
