(* ===== verification/Campaigns.v ===== *)
(** * Update campaigns
    ([src/internal/server/api/update_campaigns.go] over
    [src/internal/server/db/node_update_campaigns.go])

    A campaign updates the nodes of a fleet in batches, batch 0 being one
    canary, through operations of the queue ([NodeOperations]).  The controller
    runs under one mutex, so nobody else writes campaigns and their members;
    between any two of its statements, however, agents and administrators may
    change the queue and the nodes, and any statement may fail.  Both are
    decided by an oracle of [tick]s, one per statement. *)
From S2P Require Import Prelude GoStrings GoTime Effects NodeOperations.
From S2P Require Paths.

#[local] Open Scope Z_scope.

Definition updateQueueTimeout : Time := 10 * minute.

Inductive CampaignStatus := campaign_queued | campaign_running | campaign_paused | campaign_succeeded | campaign_cancelled.
Inductive MemberStatus :=
| member_pending | member_queued | member_running | member_succeeded | member_failed | member_cancelled | member_skipped.
#[export] Instance CampaignStatus_eq_dec : EqDecision CampaignStatus.
Proof. solve_decision. Defined.
#[export] Instance MemberStatus_eq_dec : EqDecision MemberStatus.
Proof. solve_decision. Defined.

Record NodeUpdateCampaign := {
  uc_Release : string; uc_Components : list string; uc_Status : CampaignStatus;
  uc_IdempotencyKey : string; uc_SpecHash : string; uc_BatchSize : Z; uc_CurrentBatch : Z;
  uc_RequestedBy : string; uc_RequestedAt : string; uc_StartedAt : option string;
  uc_FinishedAt : option string; uc_UpdatedAt : string; uc_Error : string
}.
Record NodeUpdateCampaignMember := {
  cm_Position : Z; cm_BatchNumber : Z; cm_Kind : string; cm_Payload : string;
  cm_OperationID : option string; cm_Status : MemberStatus; cm_Error : string;
  cm_StartedAt : option string; cm_FinishedAt : option string; cm_UpdatedAt : string
}.

(** The tables; members by (campaign, node), their primary key. *)
Record world := {
  w_queue : NodeOperations.tables;
  w_registry : Paths.tables;
  w_campaigns : gmap string NodeUpdateCampaign;
  w_members : gmap (string * string) NodeUpdateCampaignMember
}.
Definition set_queue (w : world) (q : NodeOperations.tables) : world :=
  {| w_queue := q; w_registry := w_registry w; w_campaigns := w_campaigns w; w_members := w_members w |}.
Definition set_campaigns (w : world) (m : gmap string NodeUpdateCampaign) : world :=
  {| w_queue := w_queue w; w_registry := w_registry w; w_campaigns := m; w_members := w_members w |}.
Definition set_members (w : world) (m : gmap (string * string) NodeUpdateCampaignMember) : world :=
  {| w_queue := w_queue w; w_registry := w_registry w; w_campaigns := w_campaigns w; w_members := m |}.

Inductive CampaignError :=
| StoreFailed | CampaignNoRows | OpFailed (e : OpError) | ConstraintFailed | EmptyCurrentBatch
| ReleaseAndKeyRequired | CampaignKeyTooLong | BatchSizeRange | NoComponents | NoMembers
| MembersNotUnique | InvalidMemberKind (kind : string) | InvalidMemberPayload | NotOneCanary
| CampaignIdempotencyConflict | AlreadyTerminal | OnlyPausedResumes | NoFailedOperation | NothingToRetry
| UnsupportedComponent (value : string) | NotEligible (name : string) | NoneEligible | NoCanary.
#[export] Instance CampaignError_eq_dec : EqDecision CampaignError.
Proof. solve_decision. Defined.

(** ** Statements that may fail, and interference *)
Record tick := {
  tk_fault : bool;                                              (* the statement fails *)
  tk_queue : NodeOperations.tables -> NodeOperations.tables;    (* what others did to the queue before it *)
  tk_registry : Paths.tables -> Paths.tables;                   (* and to the nodes *)
  tk_gnow : Time; tk_snow : Time;                               (* Go's clock, SQLite's *)
  tk_id : string                                                (* the random id, if one is drawn *)
}.
Definition interfere (t : tick) (w : world) : world :=
  {| w_queue := tk_queue t (w_queue w); w_registry := tk_registry t (w_registry w);
     w_campaigns := w_campaigns w; w_members := w_members w |}.

Abbreviation M := (eff world CampaignError).

(** The column [status] of a member does not admit [expired]. *)
Definition status_of_operation (s : OperationStatus) : option MemberStatus :=
  match s with
  | queued => Some member_queued | running => Some member_running | succeeded => Some member_succeeded
  | failed => Some member_failed | cancelled => Some member_cancelled | expired => None
  end.
Definition is_terminal_member (s : MemberStatus) : bool :=
  match s with member_succeeded | member_failed | member_cancelled | member_skipped => true | _ => false end.
Definition terminalCampaignTime (gnow : Time) (s : MemberStatus) : option string :=
  if is_terminal_member s then nullableString (Format_RFC3339Nano gnow) else None.
Definition coalesce {A} (a b : option A) : option A := match a with Some x => Some x | None => b end.

Definition with_member_state (gnow snow : Time) (status : MemberStatus) (message : string)
    (m : NodeUpdateCampaignMember) : NodeUpdateCampaignMember :=
  {| cm_Position := cm_Position m; cm_BatchNumber := cm_BatchNumber m; cm_Kind := cm_Kind m;
     cm_Payload := cm_Payload m; cm_OperationID := cm_OperationID m; cm_Status := status; cm_Error := message;
     cm_StartedAt := cm_StartedAt m; cm_FinishedAt := coalesce (terminalCampaignTime gnow status) (cm_FinishedAt m);
     cm_UpdatedAt := strftime snow |}.
Definition with_operation (snow : Time) (operationID : option string) (status : MemberStatus)
    (m : NodeUpdateCampaignMember) : NodeUpdateCampaignMember :=
  {| cm_Position := cm_Position m; cm_BatchNumber := cm_BatchNumber m; cm_Kind := cm_Kind m;
     cm_Payload := cm_Payload m; cm_OperationID := operationID; cm_Status := status; cm_Error := cm_Error m;
     cm_StartedAt := coalesce (cm_StartedAt m) (Some (strftime snow)); cm_FinishedAt := cm_FinishedAt m;
     cm_UpdatedAt := strftime snow |}.
Definition with_retry (snow : Time) (operationID : option string) (status : MemberStatus)
    (m : NodeUpdateCampaignMember) : NodeUpdateCampaignMember :=
  {| cm_Position := cm_Position m; cm_BatchNumber := cm_BatchNumber m; cm_Kind := cm_Kind m;
     cm_Payload := cm_Payload m; cm_OperationID := operationID; cm_Status := status; cm_Error := "";
     cm_StartedAt := Some (strftime snow); cm_FinishedAt := None; cm_UpdatedAt := strftime snow |}.
Definition with_campaign_state (gnow snow : Time) (status : CampaignStatus) (currentBatch : Z) (message : string)
    (c : NodeUpdateCampaign) : NodeUpdateCampaign :=
  let now := nullableString (Format_RFC3339Nano gnow) in
  {| uc_Release := uc_Release c; uc_Components := uc_Components c; uc_Status := status;
     uc_IdempotencyKey := uc_IdempotencyKey c; uc_SpecHash := uc_SpecHash c; uc_BatchSize := uc_BatchSize c;
     uc_CurrentBatch := currentBatch; uc_RequestedBy := uc_RequestedBy c; uc_RequestedAt := uc_RequestedAt c;
     uc_StartedAt := coalesce (if bool_decide (status = campaign_running) then now else None) (uc_StartedAt c);
     uc_FinishedAt := coalesce (if bool_decide (status = campaign_succeeded) || bool_decide (status = campaign_cancelled)
                                then now else None) (uc_FinishedAt c);
     uc_UpdatedAt := strftime snow; uc_Error := message |}.

(** A member as listed: with its node's id and name. *)
Record member_view := { mv_NodeID : string; mv_NodeName : string; mv_row : NodeUpdateCampaignMember }.
Record detail := { d_ID : string; d_Campaign : NodeUpdateCampaign; d_Members : list member_view }.
Definition by_position (a b : member_view) : Prop := cm_Position (mv_row a) <= cm_Position (mv_row b).
#[export] Instance by_position_dec a b : Decision (by_position a b).
Proof. unfold by_position. apply _. Defined.
Definition ListNodeUpdateCampaignMembers (w : world) (campaignID : string) : list member_view :=
  merge_sort by_position (omap (fun km =>
    if bool_decide (km.1.1 = campaignID)
    then (fun n => {| mv_NodeID := km.1.2; mv_NodeName := Paths.no_Name n; mv_row := km.2 |})
         <$> Paths.nodes (w_registry w) !! km.1.2
    else None) (map_to_list (w_members w))).

Section controller.
Context `{OperationEnv} (oracle : nat -> tick).

Definition stmt {A} (f : tick -> world -> result CampaignError (A * world)) : M A := fun '(w, n) =>
  let t := oracle n in
  let w := interfere t w in
  if tk_fault t then (Err StoreFailed, (w, S n))
  else match f t w with
       | Ok (a, w) => (Ok a, (w, S n))
       | Err e => (Err e, (w, S n))
       end.
(** c.now(), time.Now() *)
Definition now : M Time := fun '(w, n) => (Ok (tk_gnow (oracle n)), (w, S n)).

(** *** Methods of DB *)
Definition get_node (reference : string) : M (option Paths.Node) := stmt (fun _ w =>
  Ok (match Paths.GetNode (w_registry w) reference with Ok n => Some n | Err _ => None end, w)).
Definition GetNodeOperation (operationID : string) : M operation := stmt (fun _ w =>
  match GetNodeOperationByID (w_queue w) (TrimSpace operationID) with
  | Some o => Ok (o, w)
  | None => Err CampaignNoRows
  end).
(** [false]: sql.ErrNoRows *)
Definition request_cancel (operationID : string) : M bool := stmt (fun t w =>
  let (q, r) := RequestNodeOperationCancel (w_queue w) (tk_snow t) operationID in
  Ok (is_ok r, set_queue w q)).
Definition cancel_unclaimed (operationID : string) : M operation := stmt (fun t w =>
  let (q, r) := CancelUnclaimedNodeOperation (w_queue w) (tk_snow t) operationID in
  match r with
  | Ok o => Ok (o, set_queue w q)
  | Err e => Err (OpFailed e)
  end).
(** The method resolves the node first; its error is a value here. *)
Definition create_operation (reference : string) (p : CreateNodeOperationParams) : M (result OpError (operation * bool)) :=
  stmt (fun t w =>
    match Paths.GetNode (w_registry w) reference with
    | Err _ => Ok (Err ErrNoRows, w)
    | Ok node =>
        let (q, r) := CreateNodeOperation (w_queue w) (tk_snow t) (Paths.no_ID node) (tk_id t) p in
        Ok (r, set_queue w q)
    end).

Definition GetNodeUpdateCampaign (campaignID : string) : M detail :=
  row ← stmt (fun _ w =>
    match w_campaigns w !! TrimSpace campaignID with
    | Some c => Ok (c, w)
    | None => Err CampaignNoRows
    end);
  members ← stmt (fun _ w => Ok (ListNodeUpdateCampaignMembers w (TrimSpace campaignID), w));
  mret {| d_ID := TrimSpace campaignID; d_Campaign := row; d_Members := members |}.

Definition update_member (f : tick -> world -> NodeUpdateCampaignMember -> option NodeUpdateCampaignMember)
    (campaignID nodeID : string) : M unit := stmt (fun t w =>
  match w_members w !! (campaignID, nodeID) with
  | None => Ok (tt, w)
  | Some m => match f t w m with
              | Some m => Ok (tt, set_members w (<[(campaignID, nodeID) := m]> (w_members w)))
              | None => Err ConstraintFailed
              end
  end).
Definition UpdateNodeUpdateCampaignMemberState (campaignID nodeID : string) (status : MemberStatus) (message : string) : M unit :=
  update_member (fun t _ m => Some (with_member_state (tk_gnow t) (tk_snow t) status message m)) campaignID nodeID.
(** UNIQUE (operation_id), for the row of another member *)
Definition operation_taken (w : world) (campaignID nodeID : string) (operationID : option string) : bool :=
  bool_decide (is_Some operationID)
  && existsb (fun km => bool_decide (cm_OperationID km.2 = operationID) && negb (bool_decide (km.1 = (campaignID, nodeID))))
       (map_to_list (w_members w)).
(** WHERE operation_id IS NULL *)
Definition AttachNodeUpdateCampaignOperation (campaignID nodeID operationID : string) (status : OperationStatus) : M unit :=
  update_member (fun t w m =>
    if bool_decide (is_Some (cm_OperationID m)) then Some m
    else if operation_taken w campaignID nodeID (nullableString operationID) then None
    else (fun s => with_operation (tk_snow t) (nullableString operationID) s m) <$> status_of_operation status)
    campaignID nodeID.
(** WHERE status IN ('failed', 'cancelled') *)
Definition ReplaceNodeUpdateCampaignOperationForRetry (campaignID nodeID operationID : string) (status : OperationStatus) : M unit :=
  update_member (fun t w m =>
    if bool_decide (cm_Status m = member_failed) || bool_decide (cm_Status m = member_cancelled)
    then if operation_taken w campaignID nodeID (nullableString operationID) then None
         else (fun s => with_retry (tk_snow t) (nullableString operationID) s m) <$> status_of_operation status
    else Some m)
    campaignID nodeID.
Definition UpdateNodeUpdateCampaignState (campaignID : string) (status : CampaignStatus) (currentBatch : Z) (message : string) : M unit :=
  stmt (fun t w =>
    match w_campaigns w !! campaignID with
    | None => Ok (tt, w)
    | Some c => Ok (tt, set_campaigns w (<[campaignID :=
                   with_campaign_state (tk_gnow t) (tk_snow t) status currentBatch message c]> (w_campaigns w)))
    end).

(** *** reconcile *)
Definition campaignQueueDeadline (fallback : Time) (batchStartedAt : string) : string :=
  let started := match Parse batchStartedAt with Some t => t | None => fallback end in
  Format_RFC3339Nano (started + updateQueueTimeout).

Definition is_waiting (s : MemberStatus) : bool :=
  match s with member_queued | member_running => true | _ => false end.
Definition is_completed (s : MemberStatus) : bool :=
  match s with member_succeeded | member_skipped => true | _ => false end.
Definition is_stopped (s : MemberStatus) : bool :=
  match s with member_failed | member_cancelled => true | _ => false end.

(** The node is gone: its operation is cancelled, the member skipped. *)
Definition drop_member (campaignID : string) (v : member_view) : M unit :=
  match cm_OperationID (mv_row v) with
  | Some id => if is_waiting (cm_Status (mv_row v)) then request_cancel id;; mret tt else mret tt
  | None => mret tt
  end;;
  UpdateNodeUpdateCampaignMemberState campaignID (mv_NodeID v) member_skipped "node was deleted".

(** What an operation means for its member. *)
Definition settle_member (campaignID : string) (v : member_view) (o : operation) : M unit :=
  let skip := UpdateNodeUpdateCampaignMemberState campaignID (mv_NodeID v) member_skipped in
  if bool_decide (op_status (prog o) = expired) && (op_attempt (prog o) =? 0) then skip (op_error (prog o))
  else
    let status := default member_failed (status_of_operation (op_status (prog o))) in
    if bool_decide (cm_Status (mv_row v) = status) && (cm_Error (mv_row v) =? op_error (prog o))%string then mret tt
    else UpdateNodeUpdateCampaignMemberState campaignID (mv_NodeID v) status (op_error (prog o)).

Definition sync_operation (campaignID : string) (v : member_view) (operationID : string) : M unit :=
  o ← GetNodeOperation operationID;
  if bool_decide (op_status (prog o) = queued) then
    gnow ← now;
    let late := match Parse (op_requested_at (spec o)) with
                | Some requested => updateQueueTimeout <=? gnow - requested
                | None => false
                end in
    if late then
      o ← cancel_unclaimed (op_id (spec o));
      if bool_decide (op_status (prog o) = cancelled) then
        UpdateNodeUpdateCampaignMemberState campaignID (mv_NodeID v) member_skipped
          "node did not claim the update within 10 minutes"
      else settle_member campaignID v o
    else settle_member campaignID v o
  else settle_member campaignID v o.

Definition sync_member (campaignID : string) (v : member_view) : M unit :=
  if is_completed (cm_Status (mv_row v)) then mret tt
  else
    node ← get_node (mv_NodeID v);
    match node with
    | None => drop_member campaignID v
    | Some _ => match cm_OperationID (mv_row v) with
                | None => mret tt
                | Some id => sync_operation campaignID v id
                end
    end.

Definition dispatch_params (campaignID : string) (v : member_view) (expiresAt : string) : CreateNodeOperationParams :=
  {| cp_Kind := cm_Kind (mv_row v); cp_Payload := cm_Payload (mv_row v);
     cp_IdempotencyKey := "campaign:" ++ campaignID ++ ":" ++ mv_NodeID v;
     cp_RequiredCapabilities := []; cp_NotBefore := ""; cp_ExpiresAt := expiresAt;
     cp_RequestedBy := "update-campaign:" ++ campaignID; cp_RetryOf := "" |}%string.

(** createdAny, waiting *)
Definition progress : Type := bool * bool.
Definition dispatch_member (campaignID updatedAt : string) (v : member_view) (p : progress) : M progress :=
  if negb (bool_decide (cm_Status (mv_row v) = member_pending)) || bool_decide (is_Some (cm_OperationID (mv_row v)))
  then mret p
  else
    gnow ← now;
    let expiresAt := campaignQueueDeadline gnow updatedAt in
    let deadline := default zero_time (Parse expiresAt) in
    let skip := UpdateNodeUpdateCampaignMemberState campaignID (mv_NodeID v) member_skipped in
    if negb (gnow <? deadline) then skip "update queue timed out before dispatch"%string;; mret (true, p.2)
    else
      node ← get_node (mv_NodeID v);
      if match node with None => true | Some n => (Paths.no_Status n =? "disabled")%string end
      then skip "node is deleted or disabled"%string;; mret (true, p.2)
      else
        r ← create_operation (mv_NodeID v) (dispatch_params campaignID v expiresAt);
        match r with
        | Err ErrActiveNodeOperation => mret (p.1, true)
        | Err e => fail (OpFailed e)
        | Ok (o, _) =>
            AttachNodeUpdateCampaignOperation campaignID (mv_NodeID v) (op_id (spec o)) (op_status (prog o));;
            mret (true, p.2)
        end.
Fixpoint dispatch (campaignID updatedAt : string) (l : list member_view) (p : progress) : M progress :=
  match l with
  | [] => mret p
  | v :: l => p ← dispatch_member campaignID updatedAt v p; dispatch campaignID updatedAt l p
  end.

Definition next_batch (current : Z) (members : list member_view) : Z :=
  foldl (fun next v =>
    let b := cm_BatchNumber (mv_row v) in
    if bool_decide (cm_Status (mv_row v) = member_pending) && (current <? b) && ((next <? 0) || (b <? next))
    then b else next) (-1) members.

Definition pause_message (current : Z) (v : member_view) : string :=
  ("batch " ++ FormatInt current ++ " paused after " ++ mv_NodeName v ++ " failed: " ++ cm_Error (mv_row v))%string.

(** [None]: the loop goes round again *)
Definition advance (campaignID : string) (d : detail) : M (option detail) :=
  let current := uc_CurrentBatch (d_Campaign d) in
  let members := filter (fun v => cm_BatchNumber (mv_row v) = current) (d_Members d) in
  let return_detail := d ← GetNodeUpdateCampaign campaignID; mret (Some d) in
  if bool_decide (members = []) then fail EmptyCurrentBatch
  else
    match List.find (fun v => is_stopped (cm_Status (mv_row v))) members with
    | Some v =>
        UpdateNodeUpdateCampaignState campaignID campaign_paused current (pause_message current v);;
        return_detail
    | None =>
        p ← dispatch campaignID (uc_UpdatedAt (d_Campaign d)) members (false, false);
        if p.1 || p.2 then return_detail
        else if negb (forallb (fun v => is_completed (cm_Status (mv_row v))) members) then mret (Some d)
        else
          let next := next_batch current (d_Members d) in
          if next <? 0 then
            UpdateNodeUpdateCampaignState campaignID campaign_succeeded current "";; return_detail
          else
            UpdateNodeUpdateCampaignState campaignID campaign_running next "";; mret None
    end.

Definition is_halted (s : CampaignStatus) : bool :=
  match s with campaign_paused | campaign_succeeded | campaign_cancelled => true | _ => false end.
Definition reconcile_once (campaignID : string) : M (option detail) :=
  d ← GetNodeUpdateCampaign campaignID;
  if is_halted (uc_Status (d_Campaign d)) then mret (Some d)
  else
    for_each (sync_member campaignID) (d_Members d);;
    d ← GetNodeUpdateCampaign campaignID;
    if bool_decide (uc_Status (d_Campaign d) = campaign_queued)
    then UpdateNodeUpdateCampaignState campaignID campaign_running 0 "";; mret None
    else advance campaignID d.
Fixpoint iterate (n : nat) (campaignID : string) : M detail :=
  match n with
  | O => GetNodeUpdateCampaign campaignID
  | S n => r ← reconcile_once campaignID;
           match r with
           | Some d => mret d
           | None => iterate n campaignID
           end
  end.
Definition reconcile (campaignID : string) : M detail := iterate 4 campaignID.

(** *** The handlers that end and resume a campaign *)
(** [None]: the empty detail, when the last reading failed. *)
Definition adminCancelUpdateCampaign (campaign : string) : M (option detail) :=
  d ← GetNodeUpdateCampaign campaign;
  if bool_decide (uc_Status (d_Campaign d) = campaign_succeeded) || bool_decide (uc_Status (d_Campaign d) = campaign_cancelled)
  then fail AlreadyTerminal
  else
    UpdateNodeUpdateCampaignState (d_ID d) campaign_cancelled (uc_CurrentBatch (d_Campaign d)) "cancelled by admin";;
    for_each (fun v =>
      match cm_OperationID (mv_row v) with
      | Some id => if is_waiting (cm_Status (mv_row v)) then attempt (request_cancel id);; mret tt else mret tt
      | None => mret tt
      end) (d_Members d);;
    r ← attempt (GetNodeUpdateCampaign (d_ID d));
    mret (match r with Ok d => Some d | Err _ => None end).

Definition retry_params (campaignID : string) (v : member_view) (operationID : string) (gnow : Time) : CreateNodeOperationParams :=
  {| cp_Kind := cm_Kind (mv_row v); cp_Payload := cm_Payload (mv_row v);
     cp_IdempotencyKey := "campaign-retry:" ++ SHA256Hex (campaignID ++ ":" ++ mv_NodeID v ++ ":" ++ operationID);
     cp_RequiredCapabilities := []; cp_NotBefore := "";
     cp_ExpiresAt := Format_RFC3339Nano (gnow + updateQueueTimeout);
     cp_RequestedBy := "update-campaign:" ++ campaignID; cp_RetryOf := operationID |}%string.
Definition retry_member (campaignID : string) (v : member_view) : M unit :=
  match cm_OperationID (mv_row v) with
  | None => fail NoFailedOperation
  | Some operationID =>
      gnow ← now;
      r ← create_operation (mv_NodeID v) (retry_params campaignID v operationID gnow);
      match r with
      | Err e => fail (OpFailed e)
      | Ok (o, _) =>
          ReplaceNodeUpdateCampaignOperationForRetry campaignID (mv_NodeID v) (op_id (spec o)) (op_status (prog o))
      end
  end.
Definition adminResumeUpdateCampaign (campaign : string) : M detail :=
  d ← GetNodeUpdateCampaign campaign;
  if negb (bool_decide (uc_Status (d_Campaign d) = campaign_paused)) then fail OnlyPausedResumes
  else
    let current := uc_CurrentBatch (d_Campaign d) in
    let stopped := filter (fun v => cm_BatchNumber (mv_row v) = current /\ is_stopped (cm_Status (mv_row v)) = true) (d_Members d) in
    for_each (retry_member (d_ID d)) stopped;;
    if bool_decide (stopped = []) then fail NothingToRetry
    else
      UpdateNodeUpdateCampaignState (d_ID d) campaign_running current "";;
      GetNodeUpdateCampaign (d_ID d).
End controller.

(** ** Creation *)
Record CreateNodeUpdateCampaignMemberParams := {
  mp_NodeName : string; mp_Position : Z; mp_BatchNumber : Z; mp_Kind : string; mp_Payload : string
}.
Record CreateNodeUpdateCampaignParams := {
  pp_Release : string; pp_Components : list string; pp_IdempotencyKey : string; pp_BatchSize : Z;
  pp_RequestedBy : string; pp_Members : list CreateNodeUpdateCampaignMemberParams
}.
Record preparedMember := { pm_NodeID : string; pm_params : CreateNodeUpdateCampaignMemberParams; pm_payload : string }.
Record UpdateAsset := { ua_Version : string; ua_URL : string; ua_SHA256 : string; ua_Size : Z }.

(** The JSON encoder (of the hashed specification, of the payload), and
    version equality, which a library decides. *)
Class CampaignEnv `{OperationEnv} : Type := {
  spec_json : string -> list string -> Z -> list preparedMember -> string;
  update_payload_json : string -> option UpdateAsset -> option UpdateAsset -> string;
  versionsEquivalentAPI : string -> string -> bool;
}.

Definition normalizeCampaignComponents (components : list string) : list string :=
  merge_sort str_leb_rel (foldl (fun out component =>
    let component := TrimSpace component in
    if ((component =? "agent") || (component =? "sing_box"))%string && negb (bool_decide (component ∈ out))
    then out ++ [component] else out) [] components).

Definition update_kinds : list string := ["update.agent"; "update.sing_box"; "update.bundle"]%string.
Section creation.
Context `{CampaignEnv}.

Fixpoint prepare (reg : Paths.tables) (seenNodes : list string) (seenPositions : list Z)
    (members : list CreateNodeUpdateCampaignMemberParams) : result CampaignError (list preparedMember) :=
  match members with
  | [] => Ok []
  | m :: members =>
      match Paths.GetNode reg (mp_NodeName m) with
      | Err _ => Err CampaignNoRows
      | Ok node =>
          guard! negb (bool_decide (Paths.no_ID node ∈ seenNodes) || bool_decide (mp_Position m ∈ seenPositions)
                       || (mp_Position m <? 0) || (mp_BatchNumber m <? 0)) else MembersNotUnique;
          guard! bool_decide (mp_Kind m ∈ update_kinds) else InvalidMemberKind (mp_Kind m);
          match normalizeJSONObject (mp_Payload m) with
          | None => Err InvalidMemberPayload
          | Some payload =>
              let? rest := prepare reg (Paths.no_ID node :: seenNodes) (mp_Position m :: seenPositions) members in
              Ok ({| pm_NodeID := Paths.no_ID node; pm_params := m; pm_payload := payload |} :: rest)
          end
      end
  end.
Definition canaries (l : list preparedMember) : nat :=
  length (filter (fun m => mp_BatchNumber (pm_params m) = 0) l).
Definition by_member_position (a b : preparedMember) : Prop := mp_Position (pm_params a) <= mp_Position (pm_params b).
#[export] Instance by_member_position_dec a b : Decision (by_member_position a b).
Proof. unfold by_member_position. apply _. Defined.

Definition new_member (snow : Time) (m : preparedMember) : NodeUpdateCampaignMember :=
  {| cm_Position := mp_Position (pm_params m); cm_BatchNumber := mp_BatchNumber (pm_params m);
     cm_Kind := mp_Kind (pm_params m); cm_Payload := pm_payload m; cm_OperationID := None;
     cm_Status := member_pending; cm_Error := ""; cm_StartedAt := None; cm_FinishedAt := None;
     cm_UpdatedAt := strftime snow |}.
Definition is_active_campaign (c : NodeUpdateCampaign) : bool :=
  match uc_Status c with campaign_queued | campaign_running | campaign_paused => true | _ => false end.
(** The primary key, UNIQUE (idempotency_key), idx_node_update_campaigns_one_active *)
Definition campaign_conflicts (w : world) (id key : string) : bool :=
  bool_decide (is_Some (w_campaigns w !! id))
  || existsb (fun kc => (uc_IdempotencyKey kc.2 =? key)%string || is_active_campaign kc.2) (map_to_list (w_campaigns w)).
Definition GetNodeUpdateCampaignByIdempotencyKey (w : world) (key : string) : option (string * NodeUpdateCampaign) :=
  List.find (fun kc => (uc_IdempotencyKey kc.2 =? key)%string) (map_to_list (w_campaigns w)).
Definition GetActiveNodeUpdateCampaign (w : world) : option string :=
  fst <$> List.find (fun kc => is_active_campaign kc.2) (map_to_list (w_campaigns w)).

Definition insert_members (campaignID : string) (snow : Time) (l : list preparedMember)
    (m : gmap (string * string) NodeUpdateCampaignMember) : gmap (string * string) NodeUpdateCampaignMember :=
  foldl (fun m p => <[(campaignID, pm_NodeID p) := new_member snow p]> m) m l.

(** The campaign's id, and whether it was created. *)
Definition CreateNodeUpdateCampaign (w : world) (snow : Time) (newid : string) (params : CreateNodeUpdateCampaignParams)
    : result CampaignError (world * (string * bool)) :=
  let release := TrimSpace (pp_Release params) in
  let key := TrimSpace (pp_IdempotencyKey params) in
  let by_ := TrimSpace (pp_RequestedBy params) in
  guard! negb ((release =? "")%string || (key =? "")%string) else ReleaseAndKeyRequired;
  guard! (String.length key <=? 128)%nat else CampaignKeyTooLong;
  guard! negb ((pp_BatchSize params <=? 0) || (20 <? pp_BatchSize params)) else BatchSizeRange;
  let components := normalizeCampaignComponents (pp_Components params) in
  guard! negb (bool_decide (components = [])) else NoComponents;
  guard! negb (bool_decide (length (pp_Members params) = 0%nat)) else NoMembers;
  let? prepared := prepare (w_registry w) [] [] (pp_Members params) in
  guard! bool_decide (canaries prepared = 1%nat) else NotOneCanary;
  let prepared := merge_sort by_member_position prepared in
  let hash := SHA256Hex (spec_json release components (pp_BatchSize params) prepared) in
  match GetNodeUpdateCampaignByIdempotencyKey w key with
  | Some (id, existing) =>
      if (uc_SpecHash existing =? hash)%string then Ok (w, (id, false)) else Err CampaignIdempotencyConflict
  | None =>
      guard! negb (campaign_conflicts w newid key) else ConstraintFailed;
      Ok (set_members (set_campaigns w (<[newid := {|
            uc_Release := release; uc_Components := components; uc_Status := campaign_queued;
            uc_IdempotencyKey := key; uc_SpecHash := hash; uc_BatchSize := pp_BatchSize params;
            uc_CurrentBatch := -1; uc_RequestedBy := if (by_ =? "")%string then "admin" else by_;
            uc_RequestedAt := strftime snow; uc_StartedAt := None; uc_FinishedAt := None;
            uc_UpdatedAt := strftime snow; uc_Error := "" |}]> (w_campaigns w)))
          (insert_members newid snow prepared (w_members w)), (newid, true))
  end.

(** *** Choosing the members *)
Definition normalizeRequestedUpdateComponents (values : list string) : result CampaignError (list string) :=
  if bool_decide (values = []) then Ok ["agent"; "sing_box"]%string
  else
    let values := TrimSpace <$> values in
    match List.find (fun v => negb ((v =? "agent") || (v =? "sing_box"))%string) values with
    | Some v => Err (UnsupportedComponent v)
    | None => Ok (merge_sort str_leb_rel (foldl (fun out v => if bool_decide (v ∈ out) then out else out ++ [v]) [] values))
    end.

(** What the heartbeats say of a node; [None]: no row. *)
Record node_status := {
  ns_Capabilities : list string; ns_AgentGOOS : string; ns_AgentGOARCH : string;
  ns_AgentVersion : string; ns_SingBoxVersion : string; ns_LatestHeartbeat : string
}.
Record eligibleMember := { el_member : CreateNodeUpdateCampaignMemberParams; el_online : bool; el_active : bool }.
Definition containsCapability (capabilities : list string) (c : string) : bool := bool_decide (c ∈ capabilities).
Definition heartbeatIsOnline (gnow : Time) (value : string) : bool :=
  match Parse value with Some reported => gnow - reported <=? 3 * minute | None => false end.

Section build.
Variables (gnow : Time) (release : string) (statusOf : string -> option node_status) (hasToken : string -> bool)
  (assetsForNode : string -> string -> option (UpdateAsset * UpdateAsset)).

Definition eligible_node (requested components : list string) (node : Paths.Node) : option eligibleMember :=
  if negb (bool_decide (requested = [])) && negb (bool_decide (Paths.no_Name node ∈ requested)) then None
  else match statusOf (Paths.no_ID node) with
  | None => None
  | Some status =>
      if (Paths.no_Status node =? "pending")%string || negb (hasToken (Paths.no_Name node))
         || negb (containsCapability (ns_Capabilities status) CapabilityOperationsV1)
      then None
      else match assetsForNode (ns_AgentGOOS status) (ns_AgentGOARCH status) with
      | None => None
      | Some (agentAsset, singBoxAsset) =>
          let agent := bool_decide ("agent"%string ∈ components)
                       && negb (versionsEquivalentAPI (ns_AgentVersion status) (ua_Version agentAsset)) in
          let singBox := bool_decide ("sing_box"%string ∈ components)
                         && negb (versionsEquivalentAPI (ns_SingBoxVersion status) (ua_Version singBoxAsset)) in
          if negb (agent || singBox)
             || (agent && negb (containsCapability (ns_Capabilities status) CapabilityAgentUpdateV1))
             || (singBox && negb (containsCapability (ns_Capabilities status) CapabilitySingBoxUpdateV1))
          then None
          else Some {|
            el_member := {|
              mp_NodeName := Paths.no_Name node; mp_Position := 0; mp_BatchNumber := 0;
              mp_Kind := if agent && singBox then "update.bundle" else if singBox then "update.sing_box" else "update.agent";
              mp_Payload := update_payload_json release (if agent then Some agentAsset else None)
                              (if singBox then Some singBoxAsset else None) |};
            el_online := heartbeatIsOnline gnow (ns_LatestHeartbeat status);
            el_active := (Paths.no_Status node =? "active")%string |}
      end
  end.

Definition by_name (a b : eligibleMember) : Prop :=
  String.leb (mp_NodeName (el_member a)) (mp_NodeName (el_member b)) = true.
#[export] Instance by_name_dec a b : Decision (by_name a b).
Proof. unfold by_name. apply _. Defined.

Definition find_canary (l : list eligibleMember) : option nat :=
  match list_find (fun e => el_online e && el_active e = true) l with
  | Some (i, _) => Some i
  | None => fst <$> list_find (fun e => el_online e = true) l
  end.
Definition swap_first (canary : nat) (l : list eligibleMember) : list eligibleMember :=
  match l !! 0%nat, l !! canary with
  | Some first, Some c => <[0%nat := c]> (<[canary := first]> l)
  | _, _ => l
  end.
Definition batch_of (batchSize : Z) (i : nat) : Z :=
  match i with O => 0 | S i => 1 + Z.of_nat i / batchSize end.
Definition number_members (batchSize : Z) (l : list eligibleMember) : list CreateNodeUpdateCampaignMemberParams :=
  imap (fun i e => {|
    mp_NodeName := mp_NodeName (el_member e); mp_Position := Z.of_nat i; mp_BatchNumber := batch_of batchSize i;
    mp_Kind := mp_Kind (el_member e); mp_Payload := mp_Payload (el_member e) |}) l.

(** [nodes]: ListNodes; an assertion of the requested names is checked in
    their own order (the code ranges over a map). *)
Definition buildUpdateCampaignMembers (nodes : list Paths.Node) (requestedNodes components : list string) (batchSize : Z)
    : result CampaignError (list CreateNodeUpdateCampaignMemberParams) :=
  let requested := TrimSpace <$> requestedNodes in
  let eligible := omap (eligible_node requested components) nodes in
  match List.find (fun name => negb (bool_decide (name ∈ (fun e => mp_NodeName (el_member e)) <$> eligible))) requested with
  | Some name => Err (NotEligible name)
  | None =>
      guard! negb (bool_decide (length eligible = 0%nat)) else NoneEligible;
      let eligible := merge_sort by_name eligible in
      match find_canary eligible with
      | None => Err NoCanary
      | Some canary => Ok (number_members batchSize (swap_first canary eligible))
      end
  end.
End build.
End creation.

(** *** The handlers that create and show a campaign *)
Section handlers.
Context `{CampaignEnv} (oracle : nat -> tick).

Definition create_campaign (params : CreateNodeUpdateCampaignParams) : M (detail * bool) :=
  r ← stmt oracle (fun t w =>
    let? wr := CreateNodeUpdateCampaign w (tk_snow t) (tk_id t) params in Ok (wr.2, wr.1));
  d ← GetNodeUpdateCampaign oracle r.1;
  mret (d, r.2).

(** [nodes], [statusOf] and [hasToken] are what the three listings returned. *)
Definition adminCreateUpdateCampaign (release : string) (statusOf : string -> option node_status) (hasToken : string -> bool)
    (assetsForNode : string -> string -> option (UpdateAsset * UpdateAsset)) (nodes : list Paths.Node)
    (requestedNodes components : list string) (batchSize : Z) (key : string) : M (detail * bool) :=
  if (key =? "")%string then fail ReleaseAndKeyRequired
  else
    let batchSize := if batchSize =? 0 then 2 else batchSize in
    if (batchSize <? 1) || (2 <? batchSize) then fail BatchSizeRange
    else match normalizeRequestedUpdateComponents components with
    | Err e => fail e
    | Ok components =>
        gnow ← now oracle;
        match buildUpdateCampaignMembers gnow release statusOf hasToken assetsForNode nodes requestedNodes components batchSize with
        | Err e => fail e
        | Ok members =>
            r ← create_campaign {| pp_Release := release; pp_Components := components; pp_IdempotencyKey := key;
                                   pp_BatchSize := batchSize; pp_RequestedBy := "admin-api"; pp_Members := members |};
            d ← reconcile oracle (d_ID r.1);
            mret (d, r.2)
        end
    end.

(** One round of the background loop, and GET /current: reconcile the active campaign. *)
Definition reconcile_active : M (option detail) :=
  active ← stmt oracle (fun _ w => Ok (GetActiveNodeUpdateCampaign w, w));
  match active with
  | None => mret None
  | Some id => d ← reconcile oracle id; mret (Some d)
  end.
End handlers.
