(* ===== verification/CampaignSafety.v ===== *)
(** * Safety of update campaigns

    The rules of [Effects] for the statements of [Campaigns], and what they
    prove: an invariant relating members, batches and the
    operations of the queue holds in every reachable state, and the rows of a
    finished campaign are left alone.  The theorems are in [CampaignRollout]. *)
From S2P Require Import Prelude GoStrings GoTime Effects NodeOperations.
From S2P Require Paths.
From S2P Require Import Campaigns.

#[local] Open Scope Z_scope.

(** ** What the queue guarantees to its clients *)
Section queue.
Context `{OperationEnv}.

(** A request to cancel is never withdrawn. *)
Definition keeps_cancel (o o' : operation) : Prop :=
  op_cancel_requested (prog o) = true -> op_cancel_requested (prog o') = true.
Lemma same_row (m : gmap string operation) id o : m !! id = Some o -> exists o', m !! id = Some o' /\ keeps_cancel o o'.
Proof. intros Hp. exists o. by split; [|intros ?]. Qed.
Lemma keeps_cancel_insert (s : NodeOperations.tables) id o id1 o1 x :
  ops s !! id = Some o -> ops s !! id1 = Some o1 -> keeps_cancel o1 x ->
  exists o', <[id1 := x]> (ops s) !! id = Some o' /\ keeps_cancel o o'.
Proof.
  intros Ho Ho1 Hk. destruct (decide (id1 = id)) as [->|Hne].
  - rewrite Ho in Ho1. injection Ho1 as <-. exists x. by rewrite lookup_insert_eq.
  - rewrite lookup_insert_ne by done. by apply same_row.
Qed.
Ltac changed_row := eapply keeps_cancel_insert; [eassumption|eassumption|by intros ?].
Lemma step_keeps_cancel snow s s' id o :
  op_step snow s s' -> ops s !! id = Some o -> exists o', ops s' !! id = Some o' /\ keeps_cancel o o'.
Proof.
  intros Hs Ho.
  destruct Hs as [s sp retryOf s' o1 b E|s node|s hash lease id' node s' o1 E|s lease id' node hash s' o1 E
                 |s lease id' node hash attempt s' b E|s id' s' o1 E|s id'|s gnow node p e s' o1 Erep E].
  - unfold create_tx in E. destruct (GetNodeOperationByIdempotencyKey s _ _).
    { destruct (nodeOperationRequestMatches _ _ _); [|done]. injection E as <- _ _. by apply same_row. }
    destruct (negb _); [|done]. destruct (if (retryOf =? "")%string then _ else _); [|done].
    unfold q_CreateNodeOperation in E. destruct (insert_conflicts s sp) eqn:Ec; [done|].
    destruct (GetNodeOperationByID _ _); [|done]. injection E as <- _ _.
    simpl. rewrite lookup_insert_ne; [by apply same_row|]. intros Heq. unfold insert_conflicts in Ec.
    by rewrite Heq, Ho, bool_decide_true in Ec.
  - exists (expire_one snow node o). simpl. rewrite lookup_fmap, Ho. split; [done|].
    intros Hc. unfold expire_one. by destruct (_ && _).
  - unfold q_ClaimNodeOperation in E. destruct (ops s !! id') as [o2|] eqn:Ho2; [|done].
    destruct (_ && _); [|done]. injection E as <- _. changed_row.
  - unfold q_ResumeNodeOperationLease in E. destruct (ops s !! id') as [o2|] eqn:Ho2; [|done].
    destruct (holds_lease _ _ _ _); [|done]. injection E as <- _. changed_row.
  - unfold q_RenewNodeOperationLease in E. destruct (ops s !! id') as [o2|] eqn:Ho2; [|done].
    destruct (_ && _); [|done]. injection E as <- _. changed_row.
  - unfold q_RequestNodeOperationCancel in E. destruct (ops s !! id') as [o2|] eqn:Ho2; [|done].
    destruct (is_active _); [|done]. injection E as <- _. changed_row.
  - unfold q_CancelUnclaimedNodeOperation. destruct (ops s !! id') as [o2|] eqn:Ho2; [|by apply same_row].
    case_bool_decide; [|by apply same_row]. changed_row.
  - destruct (GetNodeOperationEvent s (rp_OperationID p) (rp_Attempt p) (rp_Sequence p)) as [e0|] eqn:Eev.
    { destruct (record_tx_replay _ _ _ _ _ _ _ _ _ Eev E) as [-> _]. by apply same_row. }
    destruct (record_tx_new _ _ _ _ _ _ _ _ Eev E)
      as (o2 & Ho2 & _ & _ & _ & _ & _ & _ & _ & _ & Hp & Hops & _).
    rewrite Hops. eapply keeps_cancel_insert; [exact Ho|exact Ho2|]. intros Hc. by rewrite Hp.
Qed.

(** What stays true of an operation, whatever is done to the queue: it is
    final once terminal, and once asked to cancel it stays so. *)
Definition row_persists (o o' : operation) : Prop := evolves o o' /\ keeps_cancel o o'.
Lemma steps_persist s s' id o :
  op_inv s -> rtc any_step s s' -> ops s !! id = Some o -> exists o', ops s' !! id = Some o' /\ row_persists o o'.
Proof.
  intros Hinv Hs Ho. destruct (good_steps _ _ Hinv Hs) as [_ [Hev _]].
  destruct (Hev _ _ Ho) as (o' & Ho' & He). exists o'. split; [done|]. split; [done|].
  clear Hinv Hev He. revert o o' Ho Ho'. induction Hs as [s|s s1 s2 [snow H1] Hs IH]; intros o o' Ho Ho'.
  - rewrite Ho in Ho'. injection Ho' as <-. by intros ?.
  - destruct (step_keeps_cancel _ _ _ _ _ H1 Ho) as (o1 & Ho1 & Hk). intros Hc. exact (IH o1 o' Ho1 Ho' (Hk Hc)).
Qed.
Lemma created_row s snow node newid p s' o b :
  op_inv s -> CreateNodeOperation s snow node newid p = (s', Ok (o, b)) -> ops s' !! op_id (spec o) = Some o.
Proof.
  intros Hinv Hc.
  destruct (good_steps _ _ Hinv (create_steps _ _ _ _ _ _ _ Hc)) as [Hinv' _].
  assert (Hex : exists id, ops s' !! id = Some o); [|destruct Hex as [id Hid]; by rewrite (oi_id _ Hinv' _ _ Hid)].
  revert Hc. unfold CreateNodeOperation. destruct (request_spec node newid (strftime snow) p) as [sp|]; [|done].
  assert (Hkey : forall ex, GetNodeOperationByIdempotencyKey s (op_node_id sp) (op_idempotency_key sp) = Some ex ->
    exists id, ops s !! id = Some ex) by (intros ex Hx; by destruct (GetByKey_some _ _ _ _ Hx) as (_ & _ & ?)).
  destruct (create_tx s snow sp (cp_RetryOf p)) as [[[s1 o1] b1]|] eqn:Etx.
  - intros Hc. injection Hc as -> -> ->. unfold create_tx in Etx.
    destruct (GetNodeOperationByIdempotencyKey s (op_node_id sp) _) as [ex|].
    { destruct (nodeOperationRequestMatches _ _ _); [|done]. injection Etx as <- <- <-. eauto. }
    destruct (negb _); [|done]. destruct (if (cp_RetryOf p =? "")%string then _ else _); [|done].
    unfold q_CreateNodeOperation in Etx. destruct (insert_conflicts s sp); [done|].
    unfold GetNodeOperationByID in Etx. simpl in Etx. rewrite lookup_insert_eq in Etx.
    injection Etx as <- <- <-. exists (op_id sp). apply lookup_insert_eq.
  - destruct (GetNodeOperationByIdempotencyKey s node _) as [ex|] eqn:Ek; [|done].
    destruct (nodeOperationRequestMatches _ _ _); [|done]. intros Hc. injection Hc as <- <- <-.
    by destruct (GetByKey_some _ _ _ _ Ek) as (_ & _ & ?).
Qed.
End queue.

(** ** Rules for statements *)
Section rules.
Context (oracle : nat -> tick).
Implicit Types (P E : world -> Prop).

(** Nothing that others do breaks [P]. *)
Definition steady P : Prop := forall n w, P w -> P (interfere (oracle n) w).

Lemma triple_stmt {A} E P (f : tick -> world -> result CampaignError (A * world)) Q :
  steady P -> (forall w, P w -> E w) ->
  (forall n w, P w -> match f (oracle n) w with Ok (a, w') => Q a w' | Err _ => True end) ->
  triple E P (stmt oracle f) Q.
Proof.
  intros Hst HE Hf [w n] Hp. unfold stmt. cbn [fst] in *. pose proof (Hst n w Hp) as Hp1.
  destruct (tk_fault (oracle n)); [by apply HE|].
  pose proof (Hf n _ Hp1) as H1. destruct (f (oracle n) _) as [[a w']|e]; [done|by apply HE].
Qed.
Lemma triple_now E P : triple E P (now oracle) (fun _ => P).
Proof. intros [w n] Hp. exact Hp. Qed.
End rules.

(** ** The invariant *)
Definition good_id (id : string) : Prop := TrimSpace id = id /\ id <> ""%string.
Definition ids_ok (q : NodeOperations.tables) : Prop := forall id o, ops q !! id = Some o -> good_id id.

Definition nodes_keyed (r : Paths.tables) : Prop := forall id n, Paths.nodes r !! id = Some n -> Paths.no_ID n = id.

(** What others may do: use the queue, change nodes; rows of nodes are never
    deleted, and random ids carry no blanks. *)
Record fair `{OperationEnv} (t : tick) : Prop := {
  fair_queue : forall q, rtc any_step q (tk_queue t q);
  fair_ids : forall q, ids_ok q -> ids_ok (tk_queue t q);
  fair_nodes : forall r id, is_Some (Paths.nodes r !! id) -> is_Some (Paths.nodes (tk_registry t r) !! id);
  fair_keys : forall r, nodes_keyed r -> nodes_keyed (tk_registry t r);
  fair_id : good_id (tk_id t);
}.

(** The state of an operation that justifies the status of its member. *)
Definition supports (s : MemberStatus) (o : operation) : Prop :=
  match s with
  | member_pending => False
  | member_queued | member_running => True
  | member_succeeded => op_status (prog o) = succeeded
  | member_failed | member_cancelled => terminal (prog o) = true
  | member_skipped => terminal (prog o) = true \/ op_cancel_requested (prog o) = true
  end.
Definition linked (q : NodeOperations.tables) (operationID : option string) (s : MemberStatus) : Prop :=
  match operationID with
  | None => s = member_pending \/ s = member_skipped
  | Some id => exists o, ops q !! id = Some o /\ supports s o
  end.
Record member_inv (q : NodeOperations.tables) (current : Z) (m : NodeUpdateCampaignMember) : Prop := {
  mi_link : linked q (cm_OperationID m) (cm_Status m);
  mi_batch : 0 <= cm_BatchNumber m;
  mi_later : current < cm_BatchNumber m -> cm_OperationID m = None;
  mi_earlier : cm_BatchNumber m < current -> is_completed (cm_Status m) = true;
}.
Record campaign_inv (w : world) : Prop := {
  ci_queue : op_inv (w_queue w);
  ci_ids : ids_ok (w_queue w);
  ci_keys : nodes_keyed (w_registry w);
  ci_nodes : forall cid nid m, w_members w !! (cid, nid) = Some m -> is_Some (Paths.nodes (w_registry w) !! nid);
  ci_members : forall cid nid m, w_members w !! (cid, nid) = Some m ->
    exists c, w_campaigns w !! cid = Some c /\ member_inv (w_queue w) (uc_CurrentBatch c) m;
  ci_queued : forall cid c, w_campaigns w !! cid = Some c -> uc_Status c = campaign_queued -> uc_CurrentBatch c = -1;
}.

Lemma supports_persists s o o' : row_persists o o' -> supports s o -> supports s o'.
Proof.
  intros [He Hc]. destruct s; cbn [supports]; try done.
  - intros Hs. assert (Ht : terminal (prog o) = true) by (unfold terminal, is_active; by rewrite Hs).
    by rewrite (evolves_terminal _ _ He Ht).
  - intros Ht. by rewrite (evolves_terminal _ _ He Ht).
  - intros Ht. by rewrite (evolves_terminal _ _ He Ht).
  - intros [Ht|Hr]; [left; by rewrite (evolves_terminal _ _ He Ht)|right; by apply Hc].
Qed.

Section invariant.
Context `{OperationEnv}.
Implicit Types (w : world) (q : NodeOperations.tables).

Lemma row_persists_refl o : row_persists o o.
Proof. split; [apply evolves_refl|by intros ?]. Qed.
Lemma row_persists_trans o1 o2 o3 : row_persists o1 o2 -> row_persists o2 o3 -> row_persists o1 o3.
Proof. intros [? Ha] [? Hb]. split; [by eapply evolves_trans|]. intros Hx. by apply Hb, Ha. Qed.

(** The row [o], or what has become of it. *)
Definition holds_op (id : string) (o : operation) q : Prop := exists o', ops q !! id = Some o' /\ row_persists o o'.
Lemma holds_op_here id o q : ops q !! id = Some o -> holds_op id o q.
Proof. intros Ho. exists o. split; [done|apply row_persists_refl]. Qed.
Lemma holds_op_steps id o q q' : op_inv q -> rtc any_step q q' -> holds_op id o q -> holds_op id o q'.
Proof.
  intros Hinv Hs (o1 & Ho1 & Hp). destruct (steps_persist _ _ _ _ Hinv Hs Ho1) as (o2 & Ho2 & Hp2).
  exists o2. split; [done|]. by eapply row_persists_trans.
Qed.
Lemma linked_holds id o s q : holds_op id o q -> supports s o -> linked q (Some id) s.
Proof. intros (o' & Ho' & Hp) Hs. exists o'. split; [done|]. by eapply supports_persists. Qed.
Lemma linked_steps q q' op s : op_inv q -> rtc any_step q q' -> linked q op s -> linked q' op s.
Proof.
  intros Hinv Hs. destruct op as [id|]; [|done]. intros (o & Ho & Hsup). eapply linked_holds; [|done].
  eapply holds_op_steps; [done..|]. by apply holds_op_here.
Qed.

Lemma inv_set_queue w q' :
  campaign_inv w -> rtc any_step (w_queue w) q' -> ids_ok q' -> campaign_inv (set_queue w q').
Proof.
  intros [Hq Hi Hk Hn Hm Hqd] Hs Hi'. split; cbn [w_queue w_registry w_campaigns w_members set_queue]; try done.
  - by destruct (good_steps _ _ Hq Hs).
  - intros cid nid m Hx. destruct (Hm _ _ _ Hx) as (c & Hc & [Hl Hb Hla He]). exists c. split; [done|].
    split; [|done..]. by eapply linked_steps.
Qed.
Lemma inv_interfere w t : campaign_inv w -> fair t -> campaign_inv (interfere t w).
Proof.
  intros Hinv [Hfq Hfi Hfn Hfk _]. pose proof Hinv as [Hq Hi Hk Hn Hm Hqd].
  destruct (inv_set_queue w (tk_queue t (w_queue w)) Hinv (Hfq _) (Hfi _ Hi)) as [Hq' Hi' _ _ Hm' Hqd'].
  split; [exact Hq'|exact Hi'|by apply Hfk| |exact Hm'|exact Hqd']. intros cid nid m Hx. cbn. apply Hfn. by eapply Hn.
Qed.
Lemma inv_set_member w cid nid m m' c :
  campaign_inv w -> w_members w !! (cid, nid) = Some m -> w_campaigns w !! cid = Some c ->
  member_inv (w_queue w) (uc_CurrentBatch c) m' ->
  campaign_inv (set_members w (<[(cid, nid) := m']> (w_members w))).
Proof.
  intros [Hq Hi Hk Hn Hm Hqd] Hx Hc Hm'. split; cbn [w_queue w_registry w_campaigns w_members set_members]; try done.
  - intros cid1 nid1 m1 H1. apply lookup_insert_Some in H1 as [[Heq _]|[_ H1]]; [|by eapply Hn].
    injection Heq as <- <-. by eapply Hn.
  - intros cid1 nid1 m1 H1. apply lookup_insert_Some in H1 as [[Heq <-]|[_ H1]]; [|by eapply Hm].
    injection Heq as <- <-. by exists c.
Qed.
Lemma inv_set_campaign w cid c c' :
  campaign_inv w -> w_campaigns w !! cid = Some c -> uc_Status c' <> campaign_queued ->
  (forall nid m, w_members w !! (cid, nid) = Some m -> member_inv (w_queue w) (uc_CurrentBatch c') m) ->
  campaign_inv (set_campaigns w (<[cid := c']> (w_campaigns w))).
Proof.
  intros [Hq Hi Hk Hn Hm Hqd] Hc Hst Hall. split; cbn [w_queue w_registry w_campaigns w_members set_campaigns]; try done.
  - intros cid1 nid1 m1 H1. destruct (decide (cid1 = cid)) as [->|Hne].
    + rewrite lookup_insert_eq. exists c'. split; [done|]. by eapply Hall.
    + rewrite lookup_insert_ne by done. by eapply Hm.
  - intros cid1 c1 H1 Hc1. apply lookup_insert_Some in H1 as [[_ <-]|[_ H1]]; [done|by eapply Hqd].
Qed.
(** Cancelling and creating, as the controller does. *)
Lemma ids_cancel q snow id q' r : ids_ok q -> RequestNodeOperationCancel q snow id = (q', r) -> ids_ok q'.
Proof.
  intros Hi. unfold RequestNodeOperationCancel, q_RequestNodeOperationCancel.
  destruct (ops q !! TrimSpace id) as [o|] eqn:Ho; [|by intros [= <- _]].
  destruct (is_active _); intros [= <- _]; [|done]. intros id1 o1 H1. simpl in H1.
  apply lookup_insert_Some in H1 as [[<- _]|[_ H1]]; by eapply Hi.
Qed.
Lemma ids_cancel_unclaimed q snow id : ids_ok q -> ids_ok (q_CancelUnclaimedNodeOperation q snow id).
Proof.
  intros Hi. unfold q_CancelUnclaimedNodeOperation. destruct (ops q !! id) as [o|] eqn:Ho; [|done].
  case_bool_decide; [|done]. intros id1 o1 H1. simpl in H1.
  apply lookup_insert_Some in H1 as [[<- _]|[_ H1]]; by eapply Hi.
Qed.
Lemma request_spec_id node newid ra p sp : request_spec node newid ra p = Ok sp -> op_id sp = newid.
Proof.
  unfold request_spec. intros Hr. cbv zeta in *.
  destruct (bool_decide _); [|done]. destruct (normalizeJSONObject _); [|done].
  destruct (negb _); [|done]. destruct (negb _); [|done]. destruct (validateCapabilities _); [|done].
  destruct (normalizeOptionalTimestamp (cp_NotBefore p)) as [[? ?]|]; [|done].
  destruct (normalizeOptionalTimestamp (cp_ExpiresAt p)) as [[? ?]|]; [|done].
  destruct (negb _); [|done]. by injection Hr as <-.
Qed.
Lemma ids_create q snow node newid p q' r :
  ids_ok q -> good_id newid -> CreateNodeOperation q snow node newid p = (q', r) -> ids_ok q'.
Proof.
  intros Hi Hg. unfold CreateNodeOperation. destruct (request_spec _ _ _ _) as [sp|] eqn:Er; [|by intros [= <- _]].
  apply request_spec_id in Er. destruct (create_tx q snow sp _) as [[[s1 o] b]|] eqn:E.
  - intros [= <- _]. unfold create_tx in E. destruct (GetNodeOperationByIdempotencyKey q _ _).
    { destruct (nodeOperationRequestMatches _ _ _); [|done]. by injection E as <- _ _. }
    destruct (negb _); [|done]. destruct (if (cp_RetryOf p =? "")%string then _ else _); [|done].
    unfold q_CreateNodeOperation in E. destruct (insert_conflicts q sp); [done|].
    destruct (GetNodeOperationByID _ _); [|done]. injection E as <- _ _.
    intros id1 o1 H1. simpl in H1. apply lookup_insert_Some in H1 as [[<- _]|[_ H1]]; [by rewrite Er|by eapply Hi].
  - destruct (GetNodeOperationByIdempotencyKey _ _ _); [|by intros [= <- _]].
    destruct (nodeOperationRequestMatches _ _ _); by intros [= <- _].
Qed.
End invariant.

(** ** The controller keeps the invariant *)
Section controller_proofs.
Context `{OperationEnv} (oracle : nat -> tick) (Hfair : forall n, fair (oracle n)).
Implicit Types (w : world).
Abbreviation T := (triple campaign_inv).

(** The views in [l] are the rows as they stand. *)
Record viewing (cid : string) (current : Z) (l : list member_view) (w : world) : Prop := {
  vw_inv : campaign_inv w;
  vw_campaign : exists c, w_campaigns w !! cid = Some c /\ uc_CurrentBatch c = current;
  vw_distinct : NoDup (mv_NodeID <$> l);
  vw_rows : forall v, v ∈ l -> w_members w !! (cid, mv_NodeID v) = Some (mv_row v);
}.
Lemma steady_viewing cid cur l : steady oracle (viewing cid cur l).
Proof. intros n w [Hi Hc Hd Hr]. split; [by apply inv_interfere|done..]. Qed.
Lemma steady_inv : steady oracle campaign_inv.
Proof. intros n w Hi. by apply inv_interfere. Qed.
Lemma viewing_queue cid cur l w q' :
  viewing cid cur l w -> rtc any_step (w_queue w) q' -> ids_ok q' -> viewing cid cur l (set_queue w q').
Proof. intros [Hi Hc Hd Hr] Hs Hok. split; [by apply inv_set_queue|done..]. Qed.
Lemma viewing_tail cid cur v l w : viewing cid cur (v :: l) w -> viewing cid cur l w.
Proof. intros [Hi Hc Hd Hr]. split; [done..|by inversion Hd|]. intros x Hx. apply Hr. by right. Qed.
Lemma viewing_member cid cur v l w : viewing cid cur (v :: l) w -> member_inv (w_queue w) cur (mv_row v).
Proof.
  intros [Hi (c & Hc & <-) Hd Hr]. destruct (ci_members _ Hi cid (mv_NodeID v) (mv_row v)) as (c' & Hc' & Hm).
  { apply Hr. left. }
  rewrite Hc in Hc'. by injection Hc' as <-.
Qed.
(** The queue also holds what has become of [o]. *)
Definition viewing_op cid cur l id o w : Prop := viewing cid cur l w /\ holds_op id o (w_queue w).
Lemma steady_viewing_op cid cur l id o : steady oracle (viewing_op cid cur l id o).
Proof.
  intros n w [Hv Ho]. split; [by apply steady_viewing|]. eapply holds_op_steps; [apply (vw_inv _ _ _ _ Hv)| |done].
  apply fair_queue, Hfair.
Qed.

(** Rewriting a row of the first view to one that is still in order. *)
Lemma triple_update cid cur v l (P : world -> Prop) f :
  steady oracle P -> (forall w, P w -> viewing cid cur (v :: l) w) ->
  (forall n w m', P w -> f (oracle n) w (mv_row v) = Some m' -> member_inv (w_queue w) cur m') ->
  T P (update_member oracle f cid (mv_NodeID v)) (fun _ => viewing cid cur l).
Proof.
  intros Hst HP Hf. apply triple_stmt; [done|intros w Hw; apply (vw_inv _ _ _ _ (HP w Hw))|].
  intros n w Hw. pose proof (HP w Hw) as Hv. destruct Hv as [Hi (c & Hc & Hcur) Hd Hr].
  rewrite (Hr v) by left. destruct (f (oracle n) w (mv_row v)) as [m'|] eqn:Ef; [|done].
  inversion Hd as [|? ? Hnin Hd']; subst. split; [|by exists c|done|].
  - eapply inv_set_member; [done|by apply Hr; left|exact Hc|by eapply Hf].
  - intros x Hx. cbn. rewrite lookup_insert_ne; [by apply Hr; right|]. intros [= Heq].
    apply Hnin. rewrite Heq. by apply list_elem_of_fmap_2.
Qed.
(** A new status for a member of the current batch or a later one. *)
Lemma member_inv_state q cur m gnow snow s msg :
  member_inv q cur m -> is_completed (cm_Status m) = false -> linked q (cm_OperationID m) s ->
  member_inv q cur (with_member_state gnow snow s msg m).
Proof.
  intros [Hl Hb Hla He] Hnc Hs. split; cbn [with_member_state cm_OperationID cm_BatchNumber cm_Status]; try done.
  intros Hlt. rewrite (He Hlt) in Hnc. done.
Qed.

Lemma settle_ok cid cur v l id o :
  is_completed (cm_Status (mv_row v)) = false -> cm_OperationID (mv_row v) = Some id ->
  T (viewing_op cid cur (v :: l) id o) (settle_member oracle cid v o) (fun _ => viewing cid cur l).
Proof.
  intros Hnc Hid. unfold settle_member.
  assert (Hset : forall s msg, supports s o ->
    T (viewing_op cid cur (v :: l) id o) (UpdateNodeUpdateCampaignMemberState oracle cid (mv_NodeID v) s msg) (fun _ => viewing cid cur l)).
  { intros s msg Hs. apply triple_update; [apply steady_viewing_op|by intros w [? _]|].
    intros n w m' [Hv Ho] Hf. injection Hf as <-. apply member_inv_state; [by eapply viewing_member|done|].
    rewrite Hid. by eapply linked_holds. }
  destruct (bool_decide (op_status (prog o) = expired) && _) eqn:Ee; cbv zeta.
  - apply Hset. apply andb_true_iff in Ee as [Ee%bool_decide_eq_true _]. left. unfold terminal, is_active. by rewrite Ee.
  - clear Ee. match goal with |- context [if ?b then _ else _] => destruct b end.
    + apply triple_ret. intros w [Hv _]. by eapply viewing_tail.
    + apply Hset. unfold terminal, is_active. destruct (op_status (prog o)) eqn:Es; cbn; unfold terminal, is_active; rewrite ?Es; done.
Qed.

Lemma sync_operation_ok cid cur v l id :
  is_completed (cm_Status (mv_row v)) = false -> cm_OperationID (mv_row v) = Some id ->
  T (viewing cid cur (v :: l)) (sync_operation oracle cid v id) (fun _ => viewing cid cur l).
Proof.
  intros Hnc Hid. unfold sync_operation.
  eapply triple_bind with (R := fun o => viewing_op cid cur (v :: l) id o).
  { apply triple_stmt; [apply steady_viewing|intros w Hv; apply (vw_inv _ _ _ _ Hv)|].
    intros n w Hv. destruct (GetNodeOperationByID _ _) as [o|] eqn:Ho; [|done]. split; [done|].
    apply holds_op_here. pose proof (mi_link _ _ _ (viewing_member _ _ _ _ _ Hv)) as Hl. rewrite Hid in Hl.
    destruct Hl as (o1 & Ho1 & _). pose proof (ci_ids _ (vw_inv _ _ _ _ Hv) _ _ Ho1) as [Ht _].
    unfold GetNodeOperationByID in Ho. by rewrite Ht in Ho. }
  intros o. case_bool_decide as Hq; [|by apply settle_ok].
  eapply triple_bind; [apply triple_now|]. intros gnow. cbv zeta. destruct (match Parse _ with Some _ => _ | None => _ end); [|by apply settle_ok].
  eapply triple_bind with (R := fun o2 => viewing_op cid cur (v :: l) id o2).
  { apply triple_stmt; [apply steady_viewing_op|intros w [Hv _]; apply (vw_inv _ _ _ _ Hv)|].
    intros n w [Hv (o1 & Ho1 & [[Hsp _] _])]. pose proof (vw_inv _ _ _ _ Hv) as Hi.
    pose proof (ci_ids _ Hi _ _ Ho1) as [Ht _]. pose proof (oi_id _ (ci_queue _ Hi) _ _ Ho1) as Hoid.
    rewrite Hsp in Hoid. unfold CancelUnclaimedNodeOperation. rewrite Hoid, Ht.
    destruct (GetNodeOperationByID _ id) as [o2|] eqn:Ho2; [|done]. split; [|by apply holds_op_here].
    apply viewing_queue; [done| |apply ids_cancel_unclaimed, Hi].
    eapply step_any with (snow := tk_snow (oracle n)), step_cancel_unclaimed. }
  intros o2. case_bool_decide as Hc; [|by apply settle_ok].
  apply triple_update; [apply steady_viewing_op|by intros w [? _]|].
  intros n w m' [Hv Ho] Hf. injection Hf as <-. apply member_inv_state; [by eapply viewing_member|done|].
  rewrite Hid. eapply linked_holds; [done|]. left. unfold terminal, is_active. by rewrite Hc.
Qed.

Lemma drop_ok cid cur v l :
  is_completed (cm_Status (mv_row v)) = false ->
  T (viewing cid cur (v :: l)) (drop_member oracle cid v) (fun _ => viewing cid cur l).
Proof.
  intros Hnc. unfold drop_member.
  eapply triple_bind with (R := fun _ w => viewing cid cur (v :: l) w /\ linked (w_queue w) (cm_OperationID (mv_row v)) member_skipped).
  - destruct (cm_OperationID (mv_row v)) as [id|] eqn:Hid; [|by apply triple_ret; intros w Hv; split; [|right]].
    destruct (is_waiting (cm_Status (mv_row v))) eqn:Ew.
    + eapply triple_bind with (R := fun _ w => viewing cid cur (v :: l) w /\ linked (w_queue w) (Some id) member_skipped);
        [|intros _; by apply triple_ret].
      apply triple_stmt; [apply steady_viewing|intros w Hv; apply (vw_inv _ _ _ _ Hv)|]. intros n w Hv.
      pose proof (vw_inv _ _ _ _ Hv) as Hi. pose proof (mi_link _ _ _ (viewing_member _ _ _ _ _ Hv)) as Hl.
      rewrite Hid in Hl. destruct Hl as (o & Ho & _). pose proof (ci_ids _ Hi _ _ Ho) as [Ht _].
      destruct (RequestNodeOperationCancel _ _ id) as [q r] eqn:Ec. split.
      * apply viewing_queue; [done|by eapply cancel_steps|]. eapply ids_cancel; [apply Hi|done].
      * cbn [w_queue set_queue]. revert Ec. unfold RequestNodeOperationCancel, q_RequestNodeOperationCancel.
        rewrite Ht, Ho. destruct (is_active (prog o)) eqn:Ea; intros [= <- <-].
        -- eexists. simpl. rewrite lookup_insert_eq. split; [done|]. right. done.
        -- exists o. split; [done|]. left. unfold terminal. by rewrite Ea.
    + apply triple_ret. intros w Hv. split; [done|].
      pose proof (mi_link _ _ _ (viewing_member _ _ _ _ _ Hv)) as Hl. rewrite Hid in Hl.
      destruct Hl as (o & Ho & Hs). exists o. split; [done|]. destruct (cm_Status (mv_row v)); try done; by left.
  - intros _. apply triple_update; [|by intros w [? _]|].
    + intros n w [Hv Hl]. split; [by apply steady_viewing|]. eapply linked_steps; [apply (vw_inv _ _ _ _ Hv)| |done].
      apply fair_queue, Hfair.
    + intros n w m' [Hv Hl] Hf. injection Hf as <-. apply member_inv_state; [by eapply viewing_member|done..].
Qed.

Lemma sync_member_ok cid cur v l :
  T (viewing cid cur (v :: l)) (sync_member oracle cid v) (fun _ => viewing cid cur l).
Proof.
  unfold sync_member. destruct (is_completed (cm_Status (mv_row v))) eqn:Hnc.
  { apply triple_ret. intros w. apply viewing_tail. }
  eapply triple_bind with (R := fun _ => viewing cid cur (v :: l)).
  { apply triple_stmt; [apply steady_viewing|intros w Hv; apply (vw_inv _ _ _ _ Hv)|done]. }
  intros [node|]; [|by apply drop_ok]. destruct (cm_OperationID (mv_row v)) as [id|] eqn:Hid; [by apply sync_operation_ok|].
  apply triple_ret. intros w. apply viewing_tail.
Qed.

(** *** Reading a campaign *)
Record reads (cid : string) (d : detail) (w : world) : Prop := {
  rd_inv : campaign_inv w;
  rd_id : d_ID d = cid;
  rd_campaign : w_campaigns w !! cid = Some (d_Campaign d);
  rd_distinct : NoDup (mv_NodeID <$> d_Members d);
  rd_rows : forall v, v ∈ d_Members d -> w_members w !! (cid, mv_NodeID v) = Some (mv_row v);
  rd_complete : forall nid m, w_members w !! (cid, nid) = Some m -> exists v, v ∈ d_Members d /\ mv_row v = m;
}.
Lemma steady_reads cid d : steady oracle (reads cid d).
Proof. intros n w [Hi Hd Hc Hdi Hr Hco]. split; [by apply inv_interfere|done..]. Qed.
Lemma reads_viewing cid d w l :
  reads cid d w -> sublist l (d_Members d) -> viewing cid (uc_CurrentBatch (d_Campaign d)) l w.
Proof.
  intros [Hi Hd Hc Hdi Hr Hco] Hsub. split; [done|by eexists| |].
  - eapply sublist_NoDup; [exact Hdi|]. by apply fmap_sublist.
  - intros v Hv. apply Hr. by eapply elem_of_sublist.
Qed.
Lemma reads_queue cid d w q' :
  reads cid d w -> rtc any_step (w_queue w) q' -> ids_ok q' -> reads cid d (set_queue w q').
Proof. intros [Hi Hd Hc Hdi Hr Hco] Hs Hok. split; [by apply inv_set_queue|done..]. Qed.

Lemma listed_members w cid v :
  v ∈ ListNodeUpdateCampaignMembers w cid <->
  exists n, w_members w !! (cid, mv_NodeID v) = Some (mv_row v) /\ Paths.nodes (w_registry w) !! mv_NodeID v = Some n
            /\ mv_NodeName v = Paths.no_Name n.
Proof.
  unfold ListNodeUpdateCampaignMembers. rewrite merge_sort_Permutation, list_elem_of_omap. split.
  - intros ([[c nid] m] & Hin & Hv). apply elem_of_map_to_list in Hin. cbn [fst snd] in Hv. case_bool_decide as Hc; [|done]. subst c.
    destruct (Paths.nodes (w_registry w) !! nid) as [n|] eqn:Hn; [|done]. injection Hv as <-. cbn. eauto.
  - intros (n & Hm & Hn & Hname). exists (cid, mv_NodeID v, mv_row v). split; [by apply elem_of_map_to_list|].
    cbn [fst snd]. rewrite bool_decide_true, Hn by done. cbn. rewrite <- Hname. by destruct v.
Qed.
Lemma listed_distinct w cid : NoDup (mv_NodeID <$> ListNodeUpdateCampaignMembers w cid).
Proof.
  unfold ListNodeUpdateCampaignMembers. rewrite merge_sort_Permutation.
  pose proof (NoDup_fst_map_to_list (w_members w)) as Hnd. revert Hnd. generalize (map_to_list (w_members w)).
  intros l. induction l as [|[[c nid] m] l IH]; intros Hnd; [constructor|]. inversion Hnd as [|? ? Hnin Hnd']; subst.
  cbn [omap list_omap fst snd]. case_bool_decide as Hc; [|by apply IH]. subst c.
  destruct (Paths.nodes (w_registry w) !! nid) as [n|]; [|by apply IH]. cbn. constructor; [|by apply IH].
  intros (v & Hv & Hin)%list_elem_of_fmap. apply Hnin. apply list_elem_of_omap in Hin as ([[c1 n1] m1] & Hin & Hf).
  cbn [fst snd] in Hf. case_bool_decide as Hc; [|done]. subst c1.
  destruct (Paths.nodes (w_registry w) !! n1); [|done]. injection Hf as <-. cbn in Hv. subst n1.
  apply list_elem_of_fmap. by exists (cid, nid, m1).
Qed.
Lemma get_trimmed reference : T campaign_inv (GetNodeUpdateCampaign oracle reference) (fun d => reads (TrimSpace reference) d).
Proof.
  unfold GetNodeUpdateCampaign. generalize (TrimSpace reference). intros cid.
  eapply triple_bind with (R := fun c w => campaign_inv w /\ w_campaigns w !! cid = Some c).
  { apply triple_stmt; [apply steady_inv|done|]. intros n w Hi. by destruct (w_campaigns w !! cid) as [c|] eqn:Hc. }
  intros c. eapply triple_bind with (R := fun l w => reads cid {| d_ID := cid; d_Campaign := c; d_Members := l |} w).
  - apply triple_stmt; [|by intros w [? _]|].
    + intros n w [Hi Hc]. split; [by apply inv_interfere|done].
    + intros n w [Hi Hc]. split; cbn [d_ID d_Campaign d_Members]; [done..|apply listed_distinct| |].
      * intros v Hv. apply listed_members in Hv. by destruct Hv as (? & ? & _).
      * intros nid m Hm. destruct (ci_nodes _ Hi _ _ _ Hm) as [node Hn].
        exists {| mv_NodeID := nid; mv_NodeName := Paths.no_Name node; mv_row := m |}. split; [|done].
        apply listed_members. cbn. eauto.
  - intros l. by apply triple_ret.
Qed.

Lemma get_ok cid : TrimSpace cid = cid -> T campaign_inv (GetNodeUpdateCampaign oracle cid) (fun d => reads cid d).
Proof. intros Ht. pose proof (get_trimmed cid) as Hg. by rewrite Ht in Hg. Qed.

(** *** The steps of a reconciliation *)
Lemma triple_campaign cid P status cur msg :
  steady oracle P -> (forall w, P w -> campaign_inv w) -> status <> campaign_queued ->
  (forall w nid m, P w -> w_members w !! (cid, nid) = Some m -> member_inv (w_queue w) cur m) ->
  T P (UpdateNodeUpdateCampaignState oracle cid status cur msg) (fun _ => campaign_inv).
Proof.
  intros Hst HP Hq Hall. apply triple_stmt; [done..|]. intros n w Hw.
  destruct (w_campaigns w !! cid) as [c|] eqn:Hc; [|by apply HP].
  eapply inv_set_campaign; [by apply HP|exact Hc|done|]. intros nid m Hm. by eapply Hall.
Qed.
Lemma reads_member cid d w nid m :
  reads cid d w -> w_members w !! (cid, nid) = Some m -> member_inv (w_queue w) (uc_CurrentBatch (d_Campaign d)) m.
Proof.
  intros Hr Hm. destruct (ci_members _ (rd_inv _ _ _ Hr) _ _ _ Hm) as (c & Hc & Hmi).
  rewrite (rd_campaign _ _ _ Hr) in Hc. by injection Hc as <-.
Qed.
Lemma triple_same_batch cid d status msg :
  status <> campaign_queued ->
  T (reads cid d) (UpdateNodeUpdateCampaignState oracle cid status (uc_CurrentBatch (d_Campaign d)) msg) (fun _ => campaign_inv).
Proof.
  intros Hq. apply triple_campaign; [apply steady_reads|intros w Hr; apply Hr|done|].
  intros w nid m Hr Hm. by eapply reads_member.
Qed.
Lemma status_supports o s : status_of_operation (op_status (prog o)) = Some s -> supports s o.
Proof.
  unfold status_of_operation. destruct (op_status (prog o)) eqn:Es; intros [= <-]; cbn [supports]; try done;
    unfold terminal, is_active; by rewrite Es.
Qed.

(** Dispatching the members [l] of the current batch: until something is
    done, the campaign is as it was read. *)
Definition dispatching (cid : string) (d : detail) (l : list member_view) (p : progress) (w : world) : Prop :=
  viewing cid (uc_CurrentBatch (d_Campaign d)) l w /\ (p.1 = false -> reads cid d w).
Lemma steady_dispatching cid d l p : steady oracle (dispatching cid d l p).
Proof. intros n w [Hv Hr]. split; [by apply steady_viewing|]. intros Hp. by apply steady_reads, Hr. Qed.
Lemma dispatching_tail cid d v l p p' w : (p'.1 = false -> p.1 = false) -> dispatching cid d (v :: l) p w -> dispatching cid d l p' w.
Proof. intros Hp [Hv Hr]. split; [by eapply viewing_tail|]. auto. Qed.
Lemma dispatched cid d l b w : viewing cid (uc_CurrentBatch (d_Campaign d)) l w -> dispatching cid d l (true, b) w.
Proof. intros Hv. split; [done|]. cbn. discriminate. Qed.
Lemma create_ok cid d v l p ref params :
  T (dispatching cid d (v :: l) p) (create_operation oracle ref params) (fun r w =>
    match r with
    | Ok (o, _) => viewing_op cid (uc_CurrentBatch (d_Campaign d)) (v :: l) (op_id (spec o)) o w
    | Err _ => dispatching cid d (v :: l) p w
    end).
Proof.
  apply triple_stmt; [apply steady_dispatching|by intros w [Hv _]; apply Hv|]. intros n w [Hv Hr].
  destruct (Paths.GetNode _ _) as [node|]; [|by split].
  destruct (CreateNodeOperation _ _ _ _ _) as [q r] eqn:Ec.
  pose proof (create_steps _ _ _ _ _ _ _ Ec) as Hs. pose proof (vw_inv _ _ _ _ Hv) as Hi.
  assert (Hok : ids_ok q) by (eapply ids_create; [apply Hi|apply fair_id, Hfair|done]).
  destruct r as [[o b]|e].
  - split; [by apply viewing_queue|]. apply holds_op_here. eapply created_row; [apply Hi|done].
  - split; [by apply viewing_queue|]. intros Hp. by apply reads_queue; [apply Hr|..].
Qed.
(** A member of the current batch without an operation gets one. *)
Lemma attach_inv q cur m id o snow s :
  ids_ok q -> holds_op id o q -> cm_BatchNumber m = cur -> 0 <= cm_BatchNumber m -> status_of_operation (op_status (prog o)) = Some s ->
  member_inv q cur (with_operation snow (nullableString id) s m) /\ member_inv q cur (with_retry snow (nullableString id) s m).
Proof.
  intros Hids Ho Hcur Hb Hs. assert (Hid : nullableString id = Some id).
  { destruct Ho as (o' & Ho' & _). destruct (Hids _ _ Ho') as [Ht Hne]. unfold nullableString. rewrite Ht. cbv zeta.
    destruct (id =? "")%string eqn:E; [|done]. by apply String.eqb_eq in E. }
  assert (Hl : linked q (Some id) s) by (eapply linked_holds; [done|by apply status_supports]).
  rewrite Hid. split; split; cbn [with_operation with_retry cm_OperationID cm_Status cm_BatchNumber]; try done; lia.
Qed.
Lemma dispatch_member_ok cid d upd v l p :
  cm_BatchNumber (mv_row v) = uc_CurrentBatch (d_Campaign d) ->
  T (dispatching cid d (v :: l) p) (dispatch_member oracle cid upd v p) (fun p' => dispatching cid d l p').
Proof.
  intros Hcur. unfold dispatch_member.
  destruct (negb _ || _) eqn:Eg; [by apply triple_ret; intros w; apply dispatching_tail|].
  apply orb_false_iff in Eg as [Est%negb_false_iff%bool_decide_eq_true Eop%bool_decide_eq_false].
  assert (Hnone : cm_OperationID (mv_row v) = None) by (destruct (cm_OperationID (mv_row v)); [exfalso; by apply Eop|done]).
  assert (Hskip : forall msg, T (dispatching cid d (v :: l) p)
    (UpdateNodeUpdateCampaignMemberState oracle cid (mv_NodeID v) member_skipped msg;; mret (true, p.2)) (fun p' => dispatching cid d l p')).
  { intros msg. eapply triple_bind with (R := fun _ => viewing cid (uc_CurrentBatch (d_Campaign d)) l); [|by intros []; apply triple_ret; intros w; apply dispatched].
    apply triple_update; [apply steady_dispatching|by intros w [? _]|].
    intros n w m' [Hv _] Hf. injection Hf as <-. apply member_inv_state; [by eapply viewing_member|by rewrite Est|].
    rewrite Hnone. by right. }
  eapply triple_bind; [apply triple_now|]. intros gnow. cbv zeta. apply triple_case; intros _; [apply Hskip|].
  eapply triple_bind with (R := fun _ => dispatching cid d (v :: l) p).
  { apply triple_stmt; [apply steady_dispatching|by intros w [Hv _]; apply Hv|done]. }
  intros node. destruct node as [n|]; [|by apply Hskip]. destruct (_ =? "disabled")%string; [by apply Hskip|].
  eapply triple_bind; [apply create_ok|]. intros [[o b]|e].
  - eapply triple_bind with (R := fun _ => viewing cid (uc_CurrentBatch (d_Campaign d)) l); [|by intros []; apply triple_ret; intros w; apply dispatched].
    apply triple_update; [apply steady_viewing_op|by intros w [? _]|]. intros k w m' [Hv Ho] Hf.
    rewrite Hnone, bool_decide_false in Hf by (by intros [? ?]).
    destruct (operation_taken _ _ _ _); [done|]. destruct (status_of_operation _) as [s|] eqn:Es; [|done]. injection Hf as <-.
    eapply attach_inv; [apply (vw_inv _ _ _ _ Hv)|done|done| |done]. apply (mi_batch _ _ _ (viewing_member _ _ _ _ _ Hv)).
  - destruct e; try (by apply triple_fail; intros w [Hv _]; apply Hv).
    apply triple_ret. intros w. by apply dispatching_tail.
Qed.
Lemma dispatch_ok cid d upd l p :
  Forall (fun v => cm_BatchNumber (mv_row v) = uc_CurrentBatch (d_Campaign d)) l ->
  T (dispatching cid d l p) (dispatch oracle cid upd l p) (fun p' => dispatching cid d [] p').
Proof.
  intros Hl. revert p. induction Hl as [|v l Hv Hl IH]; intros p; cbn [dispatch]; [by apply triple_ret|].
  eapply triple_bind; [by apply dispatch_member_ok|]. apply IH.
Qed.

(** The next batch is the first one that still has a pending member. *)
Lemma next_batch_spec cur l :
  Forall (fun v => 0 <= cm_BatchNumber (mv_row v)) l ->
  let pending_after b := Exists (fun v => cm_Status (mv_row v) = member_pending /\ cur < cm_BatchNumber (mv_row v) < b) l in
  let n := next_batch cur l in
  (n < 0 -> forall b, ~ pending_after b) /\ (0 <= n -> cur < n /\ ~ pending_after n).
Proof.
  cbv zeta. induction l as [|v l IH] using rev_ind; intros Hb.
  { split; [intros _ b Hx; by inversion Hx|]. unfold next_batch. simpl. lia. }
  apply Forall_app in Hb as [Hb Hv]. rewrite Forall_singleton in Hv. specialize (IH Hb). destruct IH as [IH1 IH2].
  assert (Hn : next_batch cur (l ++ [v]) =
    if bool_decide (cm_Status (mv_row v) = member_pending) && (cur <? cm_BatchNumber (mv_row v))
       && ((next_batch cur l <? 0) || (cm_BatchNumber (mv_row v) <? next_batch cur l))
    then cm_BatchNumber (mv_row v) else next_batch cur l) by (unfold next_batch; by rewrite foldl_app).
  rewrite Hn. setoid_rewrite Exists_app. setoid_rewrite Exists_cons. setoid_rewrite Exists_nil.
  assert (Hlow : 0 <= next_batch cur l -> forall b, b <= next_batch cur l ->
    ~ Exists (fun v => cm_Status (mv_row v) = member_pending /\ cur < cm_BatchNumber (mv_row v) < b) l).
  { intros H0 b Hle Hx. apply IH2; [done|]. eapply Exists_impl; [exact Hx|]. cbn. intros x Hxx. intuition lia. }
  destruct (bool_decide (cm_Status (mv_row v) = member_pending)) eqn:Ep; cbn [andb].
  - apply bool_decide_eq_true in Ep. destruct (cur <? cm_BatchNumber (mv_row v)) eqn:Ec; cbn [andb].
    + apply Z.ltb_lt in Ec. destruct (next_batch cur l <? 0) eqn:En; cbn [orb].
      * apply Z.ltb_lt in En. split; [lia|]. intros _. split; [done|]. intros [Hx|[Hx|[]]]; [by eapply IH1|lia].
      * apply Z.ltb_ge in En. destruct (cm_BatchNumber (mv_row v) <? next_batch cur l) eqn:El.
        -- apply Z.ltb_lt in El. split; [lia|]. intros _. split; [done|]. intros [Hx|[Hx|[]]]; [|lia].
           eapply Hlow; [done| |exact Hx]. lia.
        -- apply Z.ltb_ge in El. split; [lia|]. intros _. split; [by apply IH2|].
           intros [Hx|[Hx|[]]]; [by eapply IH2|lia].
    + apply Z.ltb_ge in Ec. split.
      * intros Hlt b [Hx|[Hx|[]]]; [by eapply IH1|lia].
      * intros Hge. split; [by apply IH2|]. intros [Hx|[Hx|[]]]; [by eapply IH2|lia].
  - apply bool_decide_eq_false in Ep. split.
    + intros Hlt b [Hx|[Hx|[]]]; [by eapply IH1|by destruct Hx].
    + intros Hge. split; [by apply IH2|]. intros [Hx|[Hx|[]]]; [by eapply IH2|by destruct Hx].
Qed.

Lemma filter_sublist `(P : A -> Prop) `{!forall x, Decision (P x)} l : sublist (filter P l) l.
Proof. induction l as [|x l IH]; [constructor|]. rewrite filter_cons. case_decide; by constructor. Qed.

(** Once every member of the current batch is completed, the batches before
    the next pending one are. *)
Lemma next_member_inv cid d w nid m :
  reads cid d w ->
  Forall (fun v => is_completed (cm_Status (mv_row v)) = true)
    (filter (fun v => cm_BatchNumber (mv_row v) = uc_CurrentBatch (d_Campaign d)) (d_Members d)) ->
  let next := next_batch (uc_CurrentBatch (d_Campaign d)) (d_Members d) in
  0 <= next -> w_members w !! (cid, nid) = Some m -> member_inv (w_queue w) next m.
Proof.
  cbv zeta. intros Hr Hall Hnext Hm. pose proof (reads_member _ _ _ _ _ Hr Hm) as Hmi.
  assert (Hb : Forall (fun v => 0 <= cm_BatchNumber (mv_row v)) (d_Members d)).
  { apply Forall_forall. intros v Hv. eapply mi_batch, reads_member, (rd_rows _ _ _ Hr); [exact Hr|done]. }
  destruct (proj2 (next_batch_spec (uc_CurrentBatch (d_Campaign d)) (d_Members d) Hb) Hnext) as [Hlt Hnone].
  destruct Hmi as [Hl Hb0 Hla He]. split; [done|done| |].
  - intros Hgt. apply Hla. lia.
  - intros Hbn. destruct (rd_complete _ _ _ Hr _ _ Hm) as (v & Hv & <-).
    destruct (Z.lt_trichotomy (cm_BatchNumber (mv_row v)) (uc_CurrentBatch (d_Campaign d))) as [Hlo|[Heq|Hhi]].
    + by apply He.
    + rewrite Forall_forall in Hall. apply Hall. by apply list_elem_of_filter.
    + specialize (Hla Hhi). rewrite Hla in Hl. destruct Hl as [Hp|Hs]; [|by rewrite Hs].
      exfalso. apply Hnone. apply Exists_exists. exists v. by split_and!.
Qed.
Lemma return_ok cid P : TrimSpace cid = cid -> (forall w, P w -> campaign_inv w) ->
  T P (d ← GetNodeUpdateCampaign oracle cid; mret (Some d)) (fun _ => campaign_inv).
Proof.
  intros Ht HP. eapply triple_bind with (R := fun d => reads cid d).
  - eapply triple_pre; [exact HP|]. by apply get_ok.
  - intros d. apply triple_ret. intros w Hr. apply Hr.
Qed.

Lemma advance_ok cid d : TrimSpace cid = cid -> T (reads cid d) (advance oracle cid d) (fun _ => campaign_inv).
Proof.
  intros Ht. unfold advance. cbv zeta. apply triple_case; intros Hne; [by apply triple_fail; intros w Hr; apply Hr|].
  set (members := filter _ (d_Members d)).
  destruct (List.find _ members) as [v|].
  { eapply triple_bind with (R := fun _ => campaign_inv); [by apply triple_same_batch|]. intros _. by apply return_ok. }
  eapply triple_bind with (R := fun p => dispatching cid d [] p).
  { eapply triple_pre; [|apply dispatch_ok].
    - intros w Hr. split; [|done]. eapply reads_viewing; [exact Hr|]. apply filter_sublist.
    - apply Forall_forall. intros v Hv. by apply list_elem_of_filter in Hv as [? _]. }
  intros [created waiting]. cbn [fst snd]. apply triple_case; intros Hp.
  { apply return_ok; [done|]. intros w [Hv _]. apply Hv. }
  apply orb_false_iff in Hp as [-> ->].
  eapply triple_pre with (P := reads cid d); [by intros w [_ Hr]; apply Hr|].
  destruct (forallb _ members) eqn:Hall; cbn [negb]; [|by apply triple_ret; intros w Hr; apply Hr].
  apply triple_case; intros Hn.
  - eapply triple_bind with (R := fun _ => campaign_inv); [by apply triple_same_batch|]. intros _. by apply return_ok.
  - eapply triple_bind with (R := fun _ => campaign_inv); [|intros _; by apply triple_ret].
    apply triple_campaign; [apply steady_reads|by intros w Hr; apply Hr|done|].
    intros w nid m Hr Hm. apply next_member_inv with (cid := cid) (nid := nid); [done| |by apply Z.ltb_ge in Hn|done].
    apply Forall_forall. intros v Hv. eapply forallb_forall in Hall; [exact Hall|by apply list_elem_of_In].
Qed.

(** *** What the controller does as a whole *)
Lemma triple_get {B} cid (k : detail -> M B) Q :
  TrimSpace cid = cid -> (forall d, d_ID d = cid -> T (reads cid d) (k d) Q) ->
  T campaign_inv (GetNodeUpdateCampaign oracle cid ≫= k) Q.
Proof.
  intros Ht Hk. eapply triple_bind with (R := reads cid); [by apply get_ok|].
  intros d s Hr. apply (Hk d); [apply Hr|done].
Qed.
Lemma sync_all_ok cid d : T (reads cid d) (for_each (sync_member oracle cid) (d_Members d)) (fun _ => campaign_inv).
Proof.
  eapply triple_weaken with (P := viewing cid (uc_CurrentBatch (d_Campaign d)) (d_Members d))
    (Q := fun _ => viewing cid (uc_CurrentBatch (d_Campaign d)) []).
  - intros w Hr. eapply reads_viewing; [exact Hr|done].
  - intros _ w Hv. apply (vw_inv _ _ _ _ Hv).
  - apply triple_for_each with (P := viewing cid (uc_CurrentBatch (d_Campaign d))). intros v l. apply sync_member_ok.
Qed.
Lemma reconcile_once_ok cid : TrimSpace cid = cid -> T campaign_inv (reconcile_once oracle cid) (fun _ => campaign_inv).
Proof.
  intros Ht. unfold reconcile_once. apply (triple_get cid); [done|]. intros d _.
  apply triple_case; intros Hh; [by apply triple_ret; intros w Hr; apply Hr|].
  eapply triple_bind with (R := fun _ => campaign_inv); [apply sync_all_ok|]. intros _.
  apply (triple_get cid); [done|]. intros d' _.
  apply triple_case; intros Hq; [|by apply advance_ok].
  eapply triple_bind with (R := fun _ => campaign_inv); [|intros _; by apply triple_ret].
  apply triple_campaign; [apply steady_reads|by intros w Hr; apply Hr|done|].
  intros w nid m Hr Hm. apply bool_decide_eq_true in Hq.
  pose proof (ci_queued _ (rd_inv _ _ _ Hr) _ _ (rd_campaign _ _ _ Hr) Hq) as Hcur.
  destruct (reads_member _ _ _ _ _ Hr Hm) as [Hl Hb Hla He]. rewrite Hcur in *. split; [done|done| |]; intros; [apply Hla; lia|lia].
Qed.
Lemma iterate_ok n cid : TrimSpace cid = cid -> T campaign_inv (iterate oracle n cid) (fun _ => campaign_inv).
Proof.
  intros Ht. induction n as [|n IH]; cbn [iterate].
  - eapply triple_post; [|by apply get_ok]. intros d w Hr. apply Hr.
  - eapply triple_bind with (R := fun _ => campaign_inv); [by apply reconcile_once_ok|].
    intros [d|]; [by apply triple_ret|apply IH].
Qed.
Lemma request_cancel_ok id : T campaign_inv (request_cancel oracle id) (fun _ => campaign_inv).
Proof.
  apply triple_stmt; [apply steady_inv|done|]. intros n w Hi.
  destruct (RequestNodeOperationCancel _ _ id) as [q r] eqn:Ec.
  apply inv_set_queue; [done|by eapply cancel_steps|]. eapply ids_cancel; [apply Hi|done].
Qed.
Lemma cancel_campaign_ok cid : TrimSpace cid = cid -> T campaign_inv (adminCancelUpdateCampaign oracle cid) (fun _ => campaign_inv).
Proof.
  intros Ht. unfold adminCancelUpdateCampaign. apply (triple_get cid); [done|]. intros d ->.
  apply triple_case; intros Hh; [by apply triple_fail; intros w Hr; apply Hr|].
  eapply triple_bind with (R := fun _ => campaign_inv); [by apply triple_same_batch|]. intros _.
  eapply triple_bind with (R := fun _ => campaign_inv).
  { apply triple_each, Forall_forall. intros v _. destruct (cm_OperationID (mv_row v)) as [id|]; [|by apply triple_ret].
    apply triple_case; intros _; [|by apply triple_ret].
    eapply triple_bind with (R := fun _ => campaign_inv); [|intros _; by apply triple_ret].
    eapply triple_post; [|apply triple_attempt, request_cancel_ok]. by intros [b|e] w. }
  intros _. eapply triple_bind with (R := fun _ => campaign_inv); [|intros r; by apply triple_ret].
  eapply triple_post; [|apply triple_attempt, get_ok, Ht]. intros [d'|e] w Hw; [apply Hw|done].
Qed.
(** A retry leaves the member with its new operation. *)
Lemma retry_member_ok cid cur v l :
  cm_BatchNumber (mv_row v) = cur ->
  T (viewing cid cur (v :: l)) (retry_member oracle cid v) (fun _ => viewing cid cur l).
Proof.
  intros Hcur. unfold retry_member. destruct (cm_OperationID (mv_row v)) as [id|]; [|by apply triple_fail; intros w Hv; apply Hv].
  eapply triple_bind; [apply triple_now|]. intros gnow.
  eapply triple_bind with (R := fun r w => match r with
    | Ok (o, _) => viewing_op cid cur (v :: l) (op_id (spec o)) o w | Err _ => campaign_inv w end).
  { apply triple_stmt; [apply steady_viewing|intros w Hv; apply Hv|]. intros n w Hv.
    destruct (Paths.GetNode _ _) as [node|]; [|apply Hv].
    destruct (CreateNodeOperation _ _ _ _ _) as [q r] eqn:Ec.
    assert (Hok : ids_ok q) by (eapply ids_create; [apply Hv|apply fair_id, Hfair|done]).
    pose proof (viewing_queue _ _ _ _ _ Hv (create_steps _ _ _ _ _ _ _ Ec) Hok) as Hv'.
    destruct r as [[o b]|e]; [|apply Hv']. split; [done|]. apply holds_op_here. eapply created_row; [apply Hv|done]. }
  intros [[o b]|e]; [|by apply triple_fail].
  apply triple_update; [apply steady_viewing_op|by intros w [? _]|]. intros k w m' [Hv Ho] Hf.
  pose proof (viewing_member _ _ _ _ _ Hv) as Hmi.
  destruct (bool_decide (cm_Status (mv_row v) = member_failed) || _); [|by injection Hf as <-].
  destruct (operation_taken _ _ _ _); [done|]. destruct (status_of_operation _) as [s|] eqn:Es; [|done]. injection Hf as <-.
  eapply attach_inv; [apply Hv|done|done|apply Hmi|done].
Qed.
Lemma resume_campaign_ok cid : TrimSpace cid = cid -> T campaign_inv (adminResumeUpdateCampaign oracle cid) (fun _ => campaign_inv).
Proof.
  intros Ht. unfold adminResumeUpdateCampaign. apply (triple_get cid); [done|]. intros d ->. cbv zeta.
  apply triple_case; intros Hh; [by apply triple_fail; intros w Hr; apply Hr|].
  set (stopped := filter _ (d_Members d)).
  assert (Hcur : Forall (fun v => cm_BatchNumber (mv_row v) = uc_CurrentBatch (d_Campaign d)) stopped).
  { apply Forall_forall. intros v Hv. by apply list_elem_of_filter in Hv as [[? _] _]. }
  assert (Hsub : sublist stopped (d_Members d)) by apply filter_sublist. clearbody stopped.
  eapply triple_bind with (R := fun _ => viewing cid (uc_CurrentBatch (d_Campaign d)) []).
  - eapply triple_pre with (P := viewing cid (uc_CurrentBatch (d_Campaign d)) stopped); [intros w Hr; by eapply reads_viewing|].
    clear Hsub. induction Hcur as [|v l Hv Hl IH]; cbn [for_each]; [by apply triple_ret|].
    eapply triple_bind; [by apply retry_member_ok|]. by intros [].
  - intros _. apply triple_case; intros _; [by apply triple_fail; intros w Hv; apply Hv|].
    eapply triple_bind with (R := fun _ => campaign_inv).
    + apply triple_campaign; [apply steady_viewing|by intros w Hv; apply Hv|done|]. intros w nid m Hv Hm.
      destruct (ci_members _ (vw_inv _ _ _ _ Hv) _ _ _ Hm) as (c & Hc & Hmi).
      destruct (vw_campaign _ _ _ _ Hv) as (c' & Hc' & <-). rewrite Hc in Hc'. by injection Hc' as <-.
    + intros _. eapply triple_post; [|by apply get_ok]. intros d' w Hr. apply Hr.
Qed.
End controller_proofs.

(** ** Creation *)
Section creation_proofs.
Context `{CampaignEnv}.

Lemma GetNode_row r name n : nodes_keyed r -> Paths.GetNode r name = Ok n -> is_Some (Paths.nodes r !! Paths.no_ID n).
Proof.
  intros Hk. unfold Paths.GetNode. cbv zeta. destruct (Paths.nodes r !! TrimSpace name) as [x|] eqn:Hx.
  - destruct (Paths.no_DeletedAt x); [done|]. intros [= <-]. rewrite (Hk _ _ Hx), Hx. by eexists.
  - unfold Paths.node_by_name. destruct (List.find _ _) as [[id y]|] eqn:Ef; [|done]. cbn. intros [= <-].
    apply List.find_some in Ef as [Hin _]. apply list_elem_of_In, elem_of_map_to_list in Hin.
    rewrite (Hk _ _ Hin), Hin. by eexists.
Qed.
Lemma prepare_ok r nodes positions l prepared :
  nodes_keyed r -> prepare r nodes positions l = Ok prepared ->
  Forall (fun p => is_Some (Paths.nodes r !! pm_NodeID p) /\ 0 <= mp_BatchNumber (pm_params p)
                   /\ (pm_NodeID p ∉ nodes) /\ (mp_Position (pm_params p) ∉ positions)) prepared
  /\ NoDup (pm_NodeID <$> prepared) /\ l = (pm_params <$> prepared).
Proof.
  intros Hk. revert nodes positions prepared. induction l as [|m l IH]; intros nodes positions prepared; cbn [prepare].
  { intros [= <-]. split_and!; [constructor|constructor|done]. }
  destruct (Paths.GetNode r (mp_NodeName m)) as [node|] eqn:Hnode; [|done].
  destruct (bool_decide (Paths.no_ID node ∈ nodes)) eqn:E1; [done|]. destruct (bool_decide (mp_Position m ∈ positions)) eqn:E2; [done|].
  destruct (mp_Position m <? 0); [done|]. destruct (mp_BatchNumber m <? 0) eqn:E3; [done|]. cbn [orb negb].
  destruct (bool_decide (mp_Kind m ∈ _)); [|done]. destruct (normalizeJSONObject _) as [payload|]; [|done].
  destruct (prepare r _ _ l) as [rest|] eqn:Er; [|done]. intros [= <-].
  destruct (IH _ _ _ Er) as (Hf & Hd & Hp). apply bool_decide_eq_false in E1, E2. apply Z.ltb_ge in E3. split_and!.
  - constructor; [split_and!; cbn; [by eapply GetNode_row|done..]|].
    eapply Forall_impl; [exact Hf|]. cbn. intros p (H1 & H2 & H3 & H4). rewrite not_elem_of_cons in H3. rewrite not_elem_of_cons in H4. by destruct H3, H4.
  - cbn. constructor; [|done]. intros (p & Heq & Hin)%list_elem_of_fmap. rewrite Forall_forall in Hf.
    destruct (Hf p Hin) as (_ & _ & Hn & _). apply Hn. rewrite <- Heq. left.
  - cbn. by rewrite Hp.
Qed.
Lemma insert_members_lookup cid snow l m k x :
  insert_members cid snow l m !! k = Some x ->
  m !! k = Some x \/ exists p, p ∈ l /\ k = (cid, pm_NodeID p) /\ x = new_member snow p.
Proof.
  unfold insert_members. revert m. induction l as [|p l IH]; intros m; cbn [foldl]; [by left|].
  intros Hx. destruct (IH _ Hx) as [Hm|(q & Hq & Hk & ->)].
  - apply lookup_insert_Some in Hm as [[<- <-]|[_ Hm]]; [|by left]. right. exists p. split_and!; [left|done..].
  - right. exists q. split_and!; [by right|done..].
Qed.
Lemma insert_members_other cid snow l m cid0 nid :
  cid <> cid0 -> insert_members cid snow l m !! (cid0, nid) = m !! (cid0, nid).
Proof.
  intros Hne. unfold insert_members. revert m. induction l as [|p l IH]; intros m; cbn [foldl]; [done|].
  rewrite IH, lookup_insert_ne; [done|]. by intros [= ? _].
Qed.
(** Creation finds the campaign, or adds one under a fresh id. *)
Lemma create_campaign_rows w snow newid params w' r :
  CreateNodeUpdateCampaign w snow newid params = Ok (w', r) ->
  w' = w \/ exists c l, w_campaigns w !! newid = None
    /\ w' = set_members (set_campaigns w (<[newid := c]> (w_campaigns w))) (insert_members newid snow l (w_members w))
    /\ r = (newid, true).
Proof.
  unfold CreateNodeUpdateCampaign. cbv zeta.
  destruct (negb _); [|done]. destruct (_ <=? 128)%nat; [|done]. destruct (negb _); [|done]. destruct (negb _); [|done].
  destruct (negb _); [|done]. destruct (prepare _ _ _ _) as [prepared|] eqn:Hp; [|done].
  destruct (bool_decide _); [|done]. destruct (GetNodeUpdateCampaignByIdempotencyKey _ _) as [[id existing]|].
  { destruct (_ =? _)%string; [|done]. intros [= <- _]. by left. }
  destruct (campaign_conflicts _ _ _) eqn:Hcf; [done|]. cbn [negb]. intros [= <- <-]. right. do 2 eexists. split; [|done].
  apply orb_false_iff in Hcf as [Hfresh%bool_decide_eq_false _]. by apply eq_None_not_Some.
Qed.
Lemma create_campaign_inv w snow newid params w' r :
  campaign_inv w -> CreateNodeUpdateCampaign w snow newid params = Ok (w', r) -> campaign_inv w'.
Proof.
  intros Hinv. pose proof Hinv as [Hq Hi Hk Hn Hm Hqd]. unfold CreateNodeUpdateCampaign. cbv zeta.
  destruct (negb _); [|done]. destruct (_ <=? 128)%nat; [|done]. destruct (negb _); [|done]. destruct (negb _); [|done].
  destruct (negb _); [|done]. destruct (prepare _ _ _ _) as [prepared|] eqn:Hp; [|done].
  destruct (bool_decide _); [|done]. destruct (GetNodeUpdateCampaignByIdempotencyKey _ _) as [[id existing]|].
  { destruct (_ =? _)%string; [|done]. by intros [= <- _]. }
  destruct (campaign_conflicts _ _ _) eqn:Hcf; [done|]. cbn [negb]. intros [= <- _].
  apply orb_false_iff in Hcf as [Hfresh%bool_decide_eq_false _].
  assert (Hnew : w_campaigns w !! newid = None) by (by apply eq_None_not_Some).
  destruct (prepare_ok _ _ _ _ _ Hk Hp) as (Hf & _ & _). rewrite Forall_forall in Hf.
  split; cbn [w_queue w_registry w_campaigns w_members set_campaigns set_members]; try done.
  - intros cid nid m [Hx|(p & Hin & [= -> ->] & _)]%insert_members_lookup; [by eapply Hn|].
    rewrite merge_sort_Permutation in Hin. by destruct (Hf p Hin) as [? _].
  - intros cid nid m [Hx|(p & Hin & [= -> ->] & ->)]%insert_members_lookup.
    + destruct (Hm _ _ _ Hx) as (c & Hc & Hmi). exists c. split; [|done]. rewrite lookup_insert_ne; [done|]. by intros ->; rewrite Hnew in Hc.
    + rewrite lookup_insert_eq. eexists. split; [done|]. rewrite merge_sort_Permutation in Hin.
      destruct (Hf p Hin) as (_ & Hb & _). split; cbn; [by left|done|done|lia].
  - intros cid c [[<- <-]|[_ Hc]]%lookup_insert_Some; [done|]. by eapply Hqd.
Qed.

Context (oracle : nat -> tick) (Hfair : forall n, fair (oracle n)).
Abbreviation T := (triple campaign_inv).
Lemma create_campaign_ok params : T campaign_inv (create_campaign oracle params) (fun r w => campaign_inv w /\ TrimSpace (d_ID r.1) = d_ID r.1).
Proof.
  unfold create_campaign. eapply triple_bind with (R := fun _ => campaign_inv).
  - apply triple_stmt; [by apply steady_inv|done|]. intros n w Hi.
    destruct (CreateNodeUpdateCampaign _ _ _ _) as [[w' r]|] eqn:Ec; [|done]. by eapply create_campaign_inv.
  - intros [id b]. eapply triple_bind; [apply get_trimmed, Hfair|]. intros d. apply triple_ret. intros w Hr. cbn.
    split; [apply Hr|]. rewrite (rd_id _ _ _ Hr). apply TrimSpace_idem.
Qed.
Lemma reconcile_ok cid : TrimSpace cid = cid -> T campaign_inv (reconcile oracle cid) (fun _ => campaign_inv).
Proof. by apply iterate_ok. Qed.
Lemma admin_create_ok release statusOf hasToken assets nodes requested components batchSize key :
  T campaign_inv (adminCreateUpdateCampaign oracle release statusOf hasToken assets nodes requested components batchSize key)
    (fun _ => campaign_inv).
Proof.
  unfold adminCreateUpdateCampaign. apply triple_case; intros _; [by apply triple_fail|]. cbv zeta.
  apply triple_case; intros _; [by apply triple_fail|].
  destruct (normalizeRequestedUpdateComponents components) as [cs|e]; [|by apply triple_fail].
  eapply triple_bind; [apply triple_now|]. intros gnow. destruct (buildUpdateCampaignMembers _ _ _ _ _ _ _ _ _) as [ms|e]; [|by apply triple_fail].
  eapply triple_bind; [apply create_campaign_ok|]. intros [d b]. apply triple_assume. cbn [fst]. intros Ht.
  eapply triple_bind; [by apply reconcile_ok|]. intros d'. by apply triple_ret.
Qed.
End creation_proofs.

(** ** Every state the fleet can get into *)
Section reachable.
Context `{CampaignEnv}.

(** One step of the world: what others do, or a call of the controller, whose
    statements may fail and interleave with what others do. *)
Definition done_by {A} (m : (nat -> tick) -> M A) (w w' : world) : Prop :=
  exists oracle n n' r, (forall k, fair (oracle k)) /\ m oracle (w, n) = (r, (w', n')).
Inductive campaign_step (w : world) : world -> Prop :=
| step_others t : fair t -> campaign_step w (interfere t w)
| step_create release statusOf hasToken assets nodes requested components batchSize key w' :
    done_by (fun o => adminCreateUpdateCampaign o release statusOf hasToken assets nodes requested components batchSize key) w w' ->
    campaign_step w w'
| step_reconcile cid w' : TrimSpace cid = cid -> done_by (fun o => reconcile o cid) w w' -> campaign_step w w'
| step_cancel cid w' : TrimSpace cid = cid -> done_by (fun o => adminCancelUpdateCampaign o cid) w w' -> campaign_step w w'
| step_resume cid w' : TrimSpace cid = cid -> done_by (fun o => adminResumeUpdateCampaign o cid) w w' -> campaign_step w w'.

(** No campaign yet. *)
Record campaign_start (w : world) : Prop := {
  st_queue : op_inv (w_queue w); st_ids : ids_ok (w_queue w); st_keys : nodes_keyed (w_registry w);
  st_campaigns : w_campaigns w = ∅; st_members : w_members w = ∅;
}.
Lemma start_inv w : campaign_start w -> campaign_inv w.
Proof. intros [Hq Hi Hk Hc Hm]. split; try done; rewrite ?Hc, ?Hm; set_solver. Qed.
Lemma done_by_inv {A} (m : (nat -> tick) -> M A) w w' :
  (forall o, (forall k, fair (o k)) -> triple campaign_inv campaign_inv (m o) (fun _ => campaign_inv)) ->
  done_by m w w' -> campaign_inv w -> campaign_inv w'.
Proof.
  intros Hm (o & n & n' & r & Hf & Hrun) Hi. specialize (Hm o Hf (w, n) Hi). rewrite Hrun in Hm. by destruct r.
Qed.
Lemma step_inv w w' : campaign_step w w' -> campaign_inv w -> campaign_inv w'.
Proof.
  intros [t Hf|? ? ? ? ? ? ? ? ? w1 Hd|cid w1 Ht Hd|cid w1 Ht Hd|cid w1 Ht Hd].
  - intros Hi. by apply inv_interfere.
  - eapply done_by_inv; [|exact Hd]. intros o Hf. by apply admin_create_ok.
  - eapply done_by_inv; [|exact Hd]. intros o Hf. by apply reconcile_ok.
  - eapply done_by_inv; [|exact Hd]. intros o Hf. by apply cancel_campaign_ok.
  - eapply done_by_inv; [|exact Hd]. intros o Hf. by apply resume_campaign_ok.
Qed.
Definition campaign_reachable (w : world) : Prop := exists w0, campaign_start w0 /\ rtc campaign_step w0 w.
Lemma reachable_inv w : campaign_reachable w -> campaign_inv w.
Proof. intros (w0 & Hs & Hr). apply start_inv in Hs. induction Hr; [done|]. eauto using step_inv. Qed.
End reachable.

(** ** A finished campaign is left alone *)
Section sealed.
Context `{CampaignEnv} (oracle : nat -> tick).
Variables (cid0 : string) (c0 : NodeUpdateCampaign) (rows : string -> option NodeUpdateCampaignMember).

(** The rows of the campaign [cid0], as they are. *)
Definition sealed (w : world) : Prop :=
  w_campaigns w !! cid0 = Some c0 /\ forall nid, w_members w !! (cid0, nid) = rows nid.
Definition keeps {A} (m : M A) : Prop := triple sealed sealed m (fun _ => sealed).

Lemma keeps_ret {A} (a : A) : keeps (mret a).
Proof. by apply triple_ret. Qed.
Lemma keeps_fail {A} e : keeps (@fail world CampaignError A e).
Proof. by apply triple_fail. Qed.
Lemma keeps_bind {A B} (m : M A) (k : A -> M B) : keeps m -> (forall a, keeps (k a)) -> keeps (m ≫= k).
Proof. intros Hm Hk. eapply triple_bind; [apply Hm|apply Hk]. Qed.
Lemma keeps_now : keeps (now oracle).
Proof. apply triple_now. Qed.
Lemma keeps_attempt {A} (m : M A) : keeps m -> keeps (attempt m).
Proof. intros Hm. eapply triple_post; [|by apply triple_attempt]. by intros [a|e] w. Qed.
Lemma keeps_each {A} (f : A -> M unit) l : (forall x, keeps (f x)) -> keeps (for_each f l).
Proof. intros Hf. apply triple_each, Forall_forall. intros x _. apply Hf. Qed.
Lemma keeps_stmt {A} f :
  (forall t w, sealed w -> match f t w with Ok (a, w') => sealed w' | Err _ => True end) -> keeps (@stmt oracle A f).
Proof. intros Hf. apply triple_stmt; [by intros n w|done|]. intros n w Hw. apply (Hf _ _ Hw). Qed.

Lemma keeps_update f cid nid : cid <> cid0 -> keeps (update_member oracle f cid nid).
Proof.
  intros Hne. apply keeps_stmt. intros t w [Hc Hr]. destruct (_ !! (cid, nid)) as [m|]; [|done].
  destruct (f t w m); [|done]. split; [done|]. intros x. cbn. rewrite lookup_insert_ne; [done|]. by intros [= ? _].
Qed.
Lemma keeps_campaign cid status cur msg : cid <> cid0 -> keeps (UpdateNodeUpdateCampaignState oracle cid status cur msg).
Proof.
  intros Hne. apply keeps_stmt. intros t w [Hc Hr]. destruct (_ !! cid) as [c|]; [|done].
  split; [|done]. cbn. by rewrite lookup_insert_ne.
Qed.
Lemma keeps_get cid : triple sealed sealed (GetNodeUpdateCampaign oracle cid) (fun d w =>
  sealed w /\ d_ID d = TrimSpace cid /\ (TrimSpace cid = cid0 -> d_Campaign d = c0)).
Proof.
  unfold GetNodeUpdateCampaign. eapply triple_bind with (R := fun c w => sealed w /\ (TrimSpace cid = cid0 -> c = c0)).
  - apply triple_stmt; [by intros n w|done|]. intros n w Hw. destruct (_ !! _) as [c|] eqn:Hc; [|done]. split; [done|].
    intros Heq. destruct Hw as [Hw _]. rewrite Heq in Hc. cbn in Hc. rewrite Hw in Hc. by injection Hc as <-.
  - intros c. eapply triple_bind with (R := fun _ w => sealed w /\ (TrimSpace cid = cid0 -> c = c0)).
    + apply triple_stmt; [by intros n w|by intros w [? _]|done].
    + intros l. apply triple_ret. intros w [Hs Hc]. by split_and!.
Qed.
Lemma keeps_detail {B} cid (k : detail -> M B) :
  (forall d, d_ID d = TrimSpace cid -> (TrimSpace cid = cid0 -> d_Campaign d = c0) -> keeps (k d)) ->
  keeps (GetNodeUpdateCampaign oracle cid ≫= k).
Proof. intros Hk. eapply triple_bind; [apply keeps_get|]. intros d s (Hs & Hd & Hc). by apply (Hk d). Qed.
Lemma done_keeps {A} (m : M A) w n r w' n' : keeps m -> m (w, n) = (r, (w', n')) -> sealed w -> sealed w'.
Proof. intros Hm Hrun Hw. specialize (Hm (w, n) Hw). rewrite Hrun in Hm. by destruct r. Qed.
Lemma keeps_get' cid : keeps (GetNodeUpdateCampaign oracle cid).
Proof. eapply triple_post; [|apply keeps_get]. by intros d w [? _]. Qed.

Ltac keep := cbv zeta; first
  [ apply keeps_ret | apply keeps_fail | apply keeps_now | apply keeps_get'
  | apply keeps_update; done | apply keeps_campaign; done
  | apply keeps_attempt; keep | apply keeps_each; intros ?; keep
  | apply keeps_bind; [keep|intros ?; keep]
  | match goal with |- keeps (match ?x with _ => _ end) => destruct x; keep end
  | apply keeps_stmt; intros ? ? ?; repeat case_match; simplify_eq; done
  | done ].
Lemma keeps_settle cid v o : cid <> cid0 -> keeps (settle_member oracle cid v o).
Proof. intros Hne. unfold settle_member, UpdateNodeUpdateCampaignMemberState. keep. Qed.
Lemma keeps_sync cid v : cid <> cid0 -> keeps (sync_member oracle cid v).
Proof.
  intros Hne. pose proof (fun o => keeps_settle cid v o Hne) as Hs.
  unfold sync_member, sync_operation, drop_member, UpdateNodeUpdateCampaignMemberState, get_node, GetNodeOperation, request_cancel, cancel_unclaimed. keep.
Qed.
Lemma keeps_create reference p : keeps (create_operation oracle reference p).
Proof. apply keeps_stmt. intros t w Hw. destruct (Paths.GetNode _ _); [|done]. by destruct (CreateNodeOperation _ _ _ _ _). Qed.
Lemma keeps_dispatch cid upd l p : cid <> cid0 -> keeps (dispatch oracle cid upd l p).
Proof.
  intros Hne. revert p. induction l as [|v l IH]; intros p; cbn [dispatch]; [apply keeps_ret|].
  apply keeps_bind; [|done]. pose proof keeps_create as Hc.
  unfold dispatch_member, UpdateNodeUpdateCampaignMemberState, AttachNodeUpdateCampaignOperation, get_node. keep.
Qed.
Lemma keeps_advance cid d : cid <> cid0 -> keeps (advance oracle cid d).
Proof. intros Hne. pose proof (fun upd l p => keeps_dispatch cid upd l p Hne) as Hd. unfold advance. keep. Qed.

Hypothesis Hfinal : uc_Status c0 = campaign_succeeded \/ uc_Status c0 = campaign_cancelled.

Lemma keeps_iterate n cid : TrimSpace cid = cid -> keeps (iterate oracle n cid).
Proof.
  intros Ht. induction n as [|n IH]; cbn [iterate]; [apply keeps_get'|].
  apply keeps_bind; [|intros [d|]; [apply keeps_ret|exact IH]]. unfold reconcile_once. apply keeps_detail. intros d Hd Hc.
  rewrite Ht in *. destruct (decide (cid = cid0)) as [->|Hne].
  - rewrite Hc by done. destruct Hfinal as [-> | ->]; apply keeps_ret.
  - pose proof (fun v => keeps_sync cid v Hne) as Hs. pose proof (fun d => keeps_advance cid d Hne) as Ha. keep.
Qed.
Lemma keeps_cancelling cid : TrimSpace cid = cid -> keeps (adminCancelUpdateCampaign oracle cid).
Proof.
  intros Ht. unfold adminCancelUpdateCampaign. apply keeps_detail. intros d Hd Hc. rewrite Ht in *.
  destruct (decide (cid = cid0)) as [->|Hne].
  - rewrite Hc by done. destruct Hfinal as [-> | ->]; apply keeps_fail.
  - rewrite Hd. unfold request_cancel. keep.
Qed.
Lemma keeps_resume cid : TrimSpace cid = cid -> keeps (adminResumeUpdateCampaign oracle cid).
Proof.
  intros Ht. unfold adminResumeUpdateCampaign. apply keeps_detail. intros d Hd Hc. rewrite Ht in *.
  destruct (decide (cid = cid0)) as [->|Hne].
  - rewrite Hc by done. destruct Hfinal as [-> | ->]; apply keeps_fail.
  - rewrite Hd. pose proof keeps_create as Hcr. unfold retry_member, ReplaceNodeUpdateCampaignOperationForRetry. keep.
Qed.
Lemma keeps_creation params : triple sealed sealed (create_campaign oracle params) (fun r w => sealed w /\ TrimSpace (d_ID r.1) = d_ID r.1).
Proof.
  unfold create_campaign. eapply triple_bind with (R := fun _ => sealed).
  - apply keeps_stmt. intros t w [Hc Hr]. destruct (CreateNodeUpdateCampaign _ _ _ _) as [[w' r]|] eqn:Ec; [|done].
    apply create_campaign_rows in Ec as [-> |(c & l & Hnone & -> & ->)]; [done|]. cbn.
    assert (Hne : tk_id t <> cid0) by (intros Heq; by rewrite Heq, Hc in Hnone).
    split; cbn; [by rewrite lookup_insert_ne|]. intros nid. rewrite <- Hr. by apply insert_members_other.
  - intros [id b]. eapply triple_bind; [apply keeps_get|]. intros d. apply triple_ret. intros w (Hs & Hd & _). cbn.
    split; [done|]. rewrite Hd. apply TrimSpace_idem.
Qed.
Lemma keeps_admin_create release statusOf hasToken assets nodes requested components batchSize key :
  keeps (adminCreateUpdateCampaign oracle release statusOf hasToken assets nodes requested components batchSize key).
Proof.
  unfold adminCreateUpdateCampaign. apply triple_case; intros _; [apply keeps_fail|]. cbv zeta.
  apply triple_case; intros _; [apply keeps_fail|].
  destruct (normalizeRequestedUpdateComponents components) as [cs|e]; [|apply keeps_fail].
  apply keeps_bind; [apply keeps_now|]. intros gnow. destruct (buildUpdateCampaignMembers _ _ _ _ _ _ _ _ _) as [ms|e]; [|apply keeps_fail].
  eapply triple_bind; [apply keeps_creation|]. intros [d b]. apply triple_assume. cbn [fst]. intros Ht.
  apply keeps_bind; [by apply keeps_iterate|]. intros d'. apply keeps_ret.
Qed.
End sealed.
