(* ===== verification/CampaignRollout.v ===== *)
(** * What update campaigns promise

    The theorems about [Campaigns], from the invariants of [CampaignSafety]:
    the order of batches, the fate of skipped and failed members, finished
    campaigns, the choice of the canary, and what a resumption cannot repair. *)
From S2P Require Import Prelude GoStrings GoTime Effects NodeOperations.
From S2P Require Paths.
From S2P Require Import Campaigns CampaignSafety.

#[local] Open Scope Z_scope.

(** ** Choosing and numbering the members *)
Section numbering.
Context `{CampaignEnv}.

Lemma number_members_lookup bs l i p :
  number_members bs l !! i = Some p <->
  exists e, l !! i = Some e /\ p = {|
    mp_NodeName := mp_NodeName (el_member e); mp_Position := Z.of_nat i; mp_BatchNumber := batch_of bs i;
    mp_Kind := mp_Kind (el_member e); mp_Payload := mp_Payload (el_member e) |}.
Proof. unfold number_members. rewrite list_lookup_imap. destruct (l !! i) as [e|]; cbn; split; [intros [= <-]; eauto|intros (? & [= ->] & ->); done|done|by intros (? & ? & _)]. Qed.
Lemma swap_first_perm c l : swap_first c l ≡ₚ l.
Proof.
  unfold swap_first. destruct (l !! 0%nat) as [a|] eqn:Ha; [|done]. destruct (l !! c) as [b|] eqn:Hc; [|done].
  destruct l as [|a' l]; [done|]. cbn in Ha. injection Ha as ->. destruct c as [|c]; cbn; [cbn in Hc; by injection Hc as ->|].
  cbn in Hc. change (b :: <[c := a]> l ≡ₚ a :: l). rewrite <- (take_drop_middle _ _ _ Hc) at 2. rewrite insert_take_drop by (by eapply lookup_lt_Some).
  rewrite <- !Permutation_middle. apply Permutation_swap.
Qed.
Lemma swap_first_head c l x : l !! c = Some x -> swap_first c l !! 0%nat = Some x.
Proof.
  intros Hc. unfold swap_first. rewrite Hc. destruct (l !! 0%nat) as [a|] eqn:Ha; [|destruct l; done].
  destruct l; [done|]. by destruct c.
Qed.
(** The places of one batch: the canary alone, then at most [bs] in a row. *)
Lemma batch_of_zero bs i : 0 < bs -> batch_of bs i = 0 <-> i = 0%nat.
Proof. intros Hb. destruct i as [|i]; cbn; [done|]. pose proof (Z.div_pos (Z.of_nat i) bs). split; lia. Qed.
Lemma batch_size bs n k : 0 < bs -> 0 < k ->
  (length (filter (fun i => batch_of bs i = k) (seq 0 n)) <= Z.to_nat bs)%nat.
Proof.
  intros Hb Hk. rewrite <- (length_seq (Z.to_nat bs) (Z.to_nat (1 + (k - 1) * bs))).
  apply NoDup_incl_length.
  - apply NoDup_ListNoDup, NoDup_filter, NoDup_seq.
  - intros i Hi. apply list_elem_of_In, list_elem_of_filter in Hi as [Hki Hi].
    apply in_seq. destruct i as [|i]; cbn in Hki; [lia|].
    pose proof (Z.div_mod (Z.of_nat i) bs). pose proof (Z.mod_pos_bound (Z.of_nat i) bs Hb). nia.
Qed.
Lemma number_members_batch bs l k :
  length (filter (fun p => mp_BatchNumber p = k) (number_members bs l))
  = length (filter (fun i => batch_of bs i = k) (seq 0 (length l))).
Proof.
  assert (Hg : forall j, length (filter (fun p => mp_BatchNumber p = k) (imap (fun i e => {|
      mp_NodeName := mp_NodeName (el_member e); mp_Position := Z.of_nat (j + i); mp_BatchNumber := batch_of bs (j + i);
      mp_Kind := mp_Kind (el_member e); mp_Payload := mp_Payload (el_member e) |}) l))
    = length (filter (fun i => batch_of bs i = k) (seq j (length l)))).
  { induction l as [|e l IH]; intros j; [done|]. cbn [length seq]. rewrite imap_cons, !filter_cons. cbn [mp_BatchNumber].
    rewrite Nat.add_0_r. specialize (IH (S j)).
    assert (He : imap ((fun i e => {|
        mp_NodeName := mp_NodeName (el_member e); mp_Position := Z.of_nat (j + i); mp_BatchNumber := batch_of bs (j + i);
        mp_Kind := mp_Kind (el_member e); mp_Payload := mp_Payload (el_member e) |}) ∘ S) l = imap (fun i e => {|
        mp_NodeName := mp_NodeName (el_member e); mp_Position := Z.of_nat (S j + i); mp_BatchNumber := batch_of bs (S j + i);
        mp_Kind := mp_Kind (el_member e); mp_Payload := mp_Payload (el_member e) |}) l).
    { apply imap_ext. intros i x _. cbn. by rewrite Nat.add_succ_r. }
    rewrite He. case_decide; cbn [length]; by rewrite IH. }
  apply (Hg 0%nat).
Qed.
Lemma find_canary_spec l c :
  find_canary l = Some c -> exists e, l !! c = Some e /\ el_online e = true
    /\ ((exists x, x ∈ l /\ el_online x = true /\ el_active x = true) -> el_active e = true).
Proof.
  unfold find_canary. destruct (list_find _ l) as [[i e]|] eqn:Ef.
  - intros [= <-]. apply list_find_Some in Ef as (He & Hp & _). apply andb_true_iff in Hp as [Ho Ha]. by exists e.
  - destruct (list_find (fun e => el_online e = true) l) as [[i e]|] eqn:Eo; [|done]. intros [= <-].
    apply list_find_Some in Eo as (He & Hp & _). exists e. split_and!; [done..|]. intros (x & Hx & Ho & Ha).
    apply list_find_None in Ef. rewrite Forall_forall in Ef. exfalso. apply (Ef x Hx). by rewrite Ho, Ha.
Qed.
End numbering.

(** ** What holds of every fleet *)
Section promises.
Context `{CampaignEnv}.

(** What a row says of the operation it names. *)
Definition has_operation (w : world) (m : NodeUpdateCampaignMember) (o : operation) : Prop :=
  exists id, cm_OperationID m = Some id /\ ops (w_queue w) !! id = Some o.

(** C12: batches are updated strictly one after the other, the canary first:
    in every state the server can reach, whatever fails and whatever agents
    and administrators do meanwhile, if a member of one batch has been given
    an operation, then every member of every earlier batch has succeeded (its
    operation did) or was skipped. *)
Theorem batches_in_order w cid nid1 m1 nid2 m2 :
  campaign_reachable w -> w_members w !! (cid, nid1) = Some m1 -> w_members w !! (cid, nid2) = Some m2 ->
  is_Some (cm_OperationID m2) -> cm_BatchNumber m1 < cm_BatchNumber m2 ->
  cm_Status m1 = member_skipped
  \/ cm_Status m1 = member_succeeded /\ exists o, has_operation w m1 o /\ op_status (prog o) = succeeded.
Proof.
  intros Hr H1 H2 [id Hop] Hlt. apply reachable_inv in Hr.
  destruct (ci_members _ Hr _ _ _ H1) as (c & Hc & [Hl1 _ _ He1]).
  destruct (ci_members _ Hr _ _ _ H2) as (c' & Hc' & [_ _ Hla2 _]). rewrite Hc in Hc'. injection Hc' as <-.
  assert (Hcur : cm_BatchNumber m2 <= uc_CurrentBatch c).
  { destruct (Z.le_gt_cases (cm_BatchNumber m2) (uc_CurrentBatch c)) as [|Hgt]; [done|]. by rewrite Hla2 in Hop. }
  assert (Hdone : is_completed (cm_Status m1) = true) by (apply He1; lia).
  destruct (cm_Status m1) eqn:Es; try done; [right|by left]. split; [done|].
  unfold linked in Hl1. destruct (cm_OperationID m1) as [id1|] eqn:Eo; [|by destruct Hl1].
  destruct Hl1 as (o & Ho & Hs). exists o. split; [|done]. by exists id1.
Qed.

(** an update is never abandoned while its node may still start it: in
    every reachable state the operation of a skipped member is over, or its
    cancellation has been requested and nothing withdraws it; a failed or
    cancelled member's operation is over. *)
Theorem skipped_is_never_executing w cid nid m o :
  campaign_reachable w -> w_members w !! (cid, nid) = Some m -> has_operation w m o ->
  (cm_Status m = member_skipped -> terminal (prog o) = true \/ op_cancel_requested (prog o) = true)
  /\ (is_stopped (cm_Status m) = true -> terminal (prog o) = true).
Proof.
  intros Hr Hm (id & Hid & Ho). apply reachable_inv in Hr. destruct (ci_members _ Hr _ _ _ Hm) as (c & _ & [Hl _ _ _]).
  rewrite Hid in Hl. destruct Hl as (o1 & Ho1 & Hs). rewrite Ho in Ho1. injection Ho1 as <-.
  destruct (cm_Status m); cbn in *; split; done.
Qed.

(** a campaign that has succeeded or been cancelled is final: no further
    step of the server, whatever is requested or interrupted, changes its row
    or any of its members. *)
Theorem terminal_campaign_is_final w w' cid c :
  rtc campaign_step w w' -> w_campaigns w !! cid = Some c -> uc_Status c = campaign_succeeded \/ uc_Status c = campaign_cancelled ->
  w_campaigns w' !! cid = Some c /\ forall nid, w_members w' !! (cid, nid) = w_members w !! (cid, nid).
Proof.
  intros Hsteps Hc Hfin. change (sealed cid c (fun nid => w_members w !! (cid, nid)) w').
  assert (Hs : sealed cid c (fun nid => w_members w !! (cid, nid)) w) by done. clear Hc. revert Hs. generalize (fun nid => w_members w !! (cid, nid)).
  intros rows Hs. induction Hsteps as [w|w w1 w2 Hstep Hsteps IH]; [done|]. apply IH. clear IH Hsteps.
  destruct Hstep as [t Hf|? ? ? ? ? ? ? ? ? w1 Hd|k w1 Ht Hd|k w1 Ht Hd|k w1 Ht Hd]; [by destruct Hs| | | |];
    destruct Hd as (o & n & n' & r & _ & Hrun); eapply done_keeps; try exact Hrun; try exact Hs.
  - apply keeps_admin_create, Hfin.
  - by apply keeps_iterate.
  - by apply keeps_cancelling.
  - by apply keeps_resume.
Qed.

(** the members of a campaign: exactly the eligible nodes (all of those
    asked for), in positions 0, 1, 2, ...; batch 0 is one online canary, an
    active node if any active node is online, and no later batch is larger
    than the batch size. *)
Theorem campaign_members_released_in_bounded_batches gnow release statusOf hasToken assets nodes requested components bs l :
  0 < bs ->
  buildUpdateCampaignMembers gnow release statusOf hasToken assets nodes requested components bs = Ok l ->
  exists chosen canary,
    chosen ≡ₚ omap (eligible_node gnow release statusOf hasToken assets (TrimSpace <$> requested) components) nodes
    /\ l = number_members bs chosen
    /\ chosen !! 0%nat = Some canary /\ el_online canary = true
    /\ ((exists e, e ∈ chosen /\ el_online e = true /\ el_active e = true) -> el_active canary = true)
    /\ length (filter (fun p => mp_BatchNumber p = 0) l) = 1%nat
    /\ (forall k, 0 < k -> Z.of_nat (length (filter (fun p => mp_BatchNumber p = k) l)) <= bs)
    /\ (forall name, name ∈ (TrimSpace <$> requested) -> name ∈ (mp_NodeName <$> l)).
Proof.
  intros Hb. unfold buildUpdateCampaignMembers. cbv zeta. set (eligible := omap _ nodes).
  destruct (List.find _ (TrimSpace <$> requested)) as [name|] eqn:Ereq; [done|].
  destruct (negb _); [|done]. destruct (find_canary _) as [c|] eqn:Ec; [|done]. intros [= <-].
  set (sorted := merge_sort by_name eligible) in *.
  assert (Hperm : swap_first c sorted ≡ₚ eligible) by (rewrite swap_first_perm; apply merge_sort_Permutation).
  destruct (find_canary_spec _ _ Ec) as (e & He & Ho & Ha).
  exists (swap_first c sorted), e. split_and!; [done|done|by apply swap_first_head|done| | | |].
  - intros (x & Hx & Hxo). apply Ha. exists x. by rewrite swap_first_perm in Hx.
  - rewrite number_members_batch. assert (Hlen : exists n, length (swap_first c sorted) = S n).
    { pose proof (swap_first_head _ _ _ He) as Hfirst. destruct (swap_first c sorted); [done|]. by eexists. }
    destruct Hlen as [n ->]. cbn [seq]. rewrite filter_cons_True by done. cbn [length]. f_equal.
    destruct (filter _ (seq 1 n)) as [|i rest] eqn:Ef; [done|]. exfalso.
    assert (Hi : i ∈ filter (fun i => batch_of bs i = 0) (seq 1 n)) by (rewrite Ef; left).
    apply list_elem_of_filter in Hi as [Hz%batch_of_zero Hi]; [|done]. apply elem_of_seq in Hi. lia.
  - intros k Hk. rewrite number_members_batch. pose proof (batch_size bs (length (swap_first c sorted)) k Hb Hk). lia.
  - intros name Hname. pose proof (List.find_none _ _ Ereq name) as Hf. rewrite <- list_elem_of_In in Hf. specialize (Hf Hname).
    apply negb_false_iff, bool_decide_eq_true in Hf. apply list_elem_of_fmap in Hf as (x & -> & Hx).
    rewrite <- Hperm in Hx. apply list_elem_of_lookup in Hx as [i Hi]. apply list_elem_of_fmap.
    eexists. split; [|apply list_elem_of_lookup; exists i; apply number_members_lookup; by exists x]. done.
Qed.

(** a batch with a failed or cancelled member goes no further: whatever
    else its members are doing, reconciliation then creates no operation and
    pauses the campaign in that batch (or reports an error), never going on
    to another one. *)
Theorem failed_member_pauses oracle cid d w n v r w' n' :
  v ∈ d_Members d -> cm_BatchNumber (mv_row v) = uc_CurrentBatch (d_Campaign d) -> is_stopped (cm_Status (mv_row v)) = true ->
  (forall k q, tk_queue (oracle k) q = q) -> is_Some (w_campaigns w !! cid) ->
  advance oracle cid d (w, n) = (r, (w', n')) ->
  w_queue w' = w_queue w /\ w_members w' = w_members w
  /\ match r with
     | Ok None => False
     | Ok (Some _) => exists c, w_campaigns w' !! cid = Some c /\ uc_Status c = campaign_paused
                               /\ uc_CurrentBatch c = uc_CurrentBatch (d_Campaign d)
     | Err _ => True
     end.
Proof.
  intros Hv Hb Hs Hq [c Hc] Hrun.
  set (P := fun w1 => w_queue w1 = w_queue w /\ w_members w1 = w_members w).
  set (paused := fun w1 => exists c, w_campaigns w1 !! cid = Some c /\ uc_Status c = campaign_paused
                               /\ uc_CurrentBatch c = uc_CurrentBatch (d_Campaign d)).
  assert (HP : forall k w1, P w1 -> P (interfere (oracle k) w1)) by (intros k w1 [H1 H2]; split; [by cbn; rewrite Hq|done]).
  assert (Ht : triple P (fun w1 => P w1 /\ is_Some (w_campaigns w1 !! cid)) (advance oracle cid d)
    (fun r w1 => P w1 /\ is_Some r /\ paused w1)).
  { unfold advance. cbv zeta. set (members := filter _ (d_Members d)).
    assert (Hin : v ∈ members) by by apply list_elem_of_filter.
    rewrite bool_decide_false by (intros Hnil; rewrite Hnil in Hin; by apply not_elem_of_nil in Hin).
    destruct (List.find _ members) as [x|] eqn:Ef.
    - eapply triple_bind with (R := fun _ w1 => P w1 /\ paused w1).
      + apply triple_stmt; [intros k w1 [H1 H2]; by split; [apply HP|]|by intros w1 [? _]|]. intros k w1 [H1 [c1 Hc1]].
        rewrite Hc1. split; [done|]. eexists. cbn. by rewrite lookup_insert_eq.
      + intros _. eapply triple_bind with (R := fun _ w1 => P w1 /\ paused w1); 
          [|intros d'; apply triple_ret; intros w1 [? ?]; split_and!; [done|by eexists|done]].
        unfold GetNodeUpdateCampaign. eapply triple_bind with (R := fun _ w1 => P w1 /\ paused w1).
        * apply triple_stmt; [intros k w1 [H1 H2]; by split; [apply HP|]|by intros w1 [? _]|]. intros k w1 Hw. by destruct (w_campaigns w1 !! TrimSpace cid).
        * intros row. eapply triple_bind with (R := fun _ w1 => P w1 /\ paused w1); [|intros l; by apply triple_ret].
          apply triple_stmt; [intros k w1 [H1 H2]; by split; [apply HP|]|by intros w1 [? _]|done].
    - exfalso. apply List.find_none with (x := v) in Ef; [by rewrite Hs in Ef|]. by apply list_elem_of_In. }
  specialize (Ht (w, n)). rewrite Hrun in Ht. cbn in Ht. destruct r as [[d'|]|e].
  - by destruct Ht as ([? ?] & _ & ?); [split; [|eexists]|].
  - destruct Ht as (_ & [? ?] & _); [split; [done|by eexists]|done].
  - by destruct Ht as [? ?]; [split; [|eexists]|].
Qed.

(** Two requests that differ in their deadline alone are not the same. *)
Lemma Ok_eq {E A} (a b : A) : @Ok E A a = Ok b -> a = b.
Proof. congruence. Qed.
Lemma stamped t : year_ok t ->
  normalizeOptionalTimestamp (Format_RFC3339Nano t) = Some (Format_RFC3339Nano t, t)
  /\ nullableString (Format_RFC3339Nano t) = Some (Format_RFC3339Nano t).
Proof.
  intros Hy. unfold normalizeOptionalTimestamp, nullableString. cbv zeta. rewrite TrimSpace_id by (by apply Format_RFC3339Nano_trimmed).
  rewrite (proj2 (String.eqb_neq _ _)) by (by apply Format_RFC3339Nano_ne). by rewrite Parse_Format_RFC3339Nano.
Qed.
Lemma retry_spec_expires cid v id g node newid ra sp :
  year_ok (g + updateQueueTimeout) -> request_spec node newid ra (retry_params cid v id g) = Ok sp ->
  op_expires_at sp = Some (Format_RFC3339Nano (g + updateQueueTimeout)).
Proof.
  intros Hy. unfold request_spec. cbv zeta.
  cbn [retry_params cp_Kind cp_Payload cp_IdempotencyKey cp_RequiredCapabilities cp_NotBefore cp_ExpiresAt cp_RequestedBy cp_RetryOf].
  destruct (bool_decide _); [|done]. destruct (normalizeJSONObject _); [|done]. destruct (negb _); [|done].
  destruct (negb _); [|done]. destruct (validateCapabilities _); [|done].
  destruct (stamped _ Hy) as (Hx & Hn). rewrite Hx. destruct (normalizeOptionalTimestamp "") as [[? ?]|]; [|done].
  destruct (negb _); [|done]. intros <-%Ok_eq. exact Hn.
Qed.
Lemma retry_spec_again cid v id g g' node newid ra newid' ra' sp :
  year_ok (g + updateQueueTimeout) -> year_ok (g' + updateQueueTimeout) ->
  request_spec node newid ra (retry_params cid v id g) = Ok sp ->
  exists sp', request_spec node newid' ra' (retry_params cid v id g') = Ok sp'
    /\ op_node_id sp' = node /\ op_idempotency_key sp' = op_idempotency_key sp.
Proof.
  intros Hy Hy'. unfold request_spec. cbv zeta.
  cbn [retry_params cp_Kind cp_Payload cp_IdempotencyKey cp_RequiredCapabilities cp_NotBefore cp_ExpiresAt cp_RequestedBy cp_RetryOf].
  destruct (bool_decide _); [|done]. destruct (normalizeJSONObject _); [|done]. destruct (negb _); [|done].
  destruct (negb _); [|done]. destruct (validateCapabilities _); [|done].
  assert (Hz : normalizeOptionalTimestamp "" = Some (""%string, zero_time)) by reflexivity. rewrite Hz.
  destruct (stamped _ Hy) as (-> & _). destruct (stamped _ Hy') as (-> & _).
  assert (Hi : IsZero zero_time = true) by reflexivity. rewrite Hi. cbn [negb andb]. intros <-%Ok_eq. eexists. split; [reflexivity|]. split; reflexivity.
Qed.
Lemma matches_expires row sp retryOf : nodeOperationRequestMatches row sp retryOf = true -> op_expires_at row = op_expires_at sp.
Proof. unfold nodeOperationRequestMatches. rewrite !andb_true_iff. intros [[_ He%bool_decide_eq_true] _]. exact He. Qed.

(** a retry that was interrupted can never be repeated: if resuming
    created the new operation but could not record it on the member (so the
    member still names the failed one), then every later resumption of that
    member is refused as a conflicting request, however the queue has evolved,
    since the deadline in the request is taken from the clock anew. *)
Theorem interrupted_retry_is_never_repeated oracle w2 n cid v id node g0 snow0 newid0 q0 q1 o b :
  op_inv q0 -> TrimSpace id = id ->
  CreateNodeOperation q0 snow0 node newid0 (retry_params cid v id g0) = (q1, Ok (o, b)) ->
  rtc any_step q1 (w_queue w2) ->
  cm_OperationID (mv_row v) = Some id ->
  let g := tk_gnow (oracle n) in
  year_ok (g0 + updateQueueTimeout) -> year_ok (g + updateQueueTimeout) -> g <> g0 ->
  fair (oracle (S n)) -> tk_fault (oracle (S n)) = false ->
  (exists nd, Paths.GetNode (tk_registry (oracle (S n)) (w_registry w2)) (mv_NodeID v) = Ok nd /\ Paths.no_ID nd = node) ->
  (retry_member oracle cid v (w2, n)).1 = Err (OpFailed ErrOperationIdempotencyConflict).
Proof.
  intros Hinv Ht Hc Hs Hid g Hy0 Hy Hne Hfair Hnf (nd & Hnd & Hndid).
  destruct (created_matches _ _ _ _ (retry_params cid v id g0) _ _ _ Hinv Ht Hc) as (sp & Er & Hm & Hn & Hk & oid & Ho).
  destruct (good_steps _ _ Hinv (create_steps _ _ _ _ _ _ _ Hc)) as [Hinv1 _].
  assert (Hs' : rtc any_step q1 (tk_queue (oracle (S n)) (w_queue w2))) by (eapply rtc_trans; [exact Hs|apply Hfair]).
  destruct (good_steps _ _ Hinv1 Hs') as [Hinv2 [Hrows _]]. destruct (Hrows _ _ Ho) as (o2 & Ho2 & [Hsp2 _]).
  set (q2 := tk_queue (oracle (S n)) (w_queue w2)) in *.
  destruct (retry_spec_again cid v id g0 g node newid0 (strftime snow0) (tk_id (oracle (S n))) (strftime (tk_snow (oracle (S n)))) sp Hy0 Hy Er)
    as (sp' & Er' & Hn' & Hk').
  assert (Hconf : nodeOperationRequestMatches (spec o2) sp' id = false).
  { apply not_true_iff_false. rewrite Hsp2. intros Hx%matches_expires. apply matches_expires in Hm. rewrite Hm in Hx.
    rewrite (retry_spec_expires _ _ _ _ _ _ _ _ Hy Er'), (retry_spec_expires _ _ _ _ _ _ _ _ Hy0 Er) in Hx.
    injection Hx as Hx. apply (f_equal Parse) in Hx. rewrite !Parse_Format_RFC3339Nano in Hx by assumption. injection Hx as Hx. lia. }
  assert (Hkey : GetNodeOperationByIdempotencyKey q2 node (op_idempotency_key sp') = Some o2).
  { destruct (GetNodeOperationByIdempotencyKey q2 node _) as [ex|] eqn:Ek.
    - destruct (GetByKey_some _ _ _ _ Ek) as (Hne' & Hke & id' & Hid').
      assert (id' = oid) as -> by (eapply oi_key; eauto; congruence). rewrite Ho2 in Hid'. by injection Hid' as <-.
    - destruct (GetByKey_none _ _ _ Ek oid o2 Ho2); congruence. }
  assert (Hcreate : CreateNodeOperation q2 (tk_snow (oracle (S n))) node (tk_id (oracle (S n))) (retry_params cid v id g)
    = (q2, Err ErrOperationIdempotencyConflict)).
  { unfold CreateNodeOperation, create_tx. rewrite Er', Hn', Hkey. cbn [retry_params cp_RetryOf]. by rewrite Hconf. }
  unfold retry_member. rewrite Hid. unfold mbind, eff_bind, now. cbv beta iota. unfold create_operation, stmt.
  rewrite Hnf. cbn [w_registry interfere w_queue]. rewrite Hnd, Hndid. fold g. fold q2. rewrite Hcreate. done.
Qed.
End promises.

(** ** A fleet of two nodes *)
#[local] Existing Instance test_env.
Definition fleet_env : CampaignEnv := {|
  spec_json release components size members := "spec"; update_payload_json release agent singbox := "{}";
  versionsEquivalentAPI := String.eqb
|}.
#[local] Existing Instance fleet_env.
Definition tick_at (id : string) (t : Z) : tick := {|
  tk_fault := false; tk_queue := fun q => q; tk_registry := fun r => r; tk_gnow := clock t; tk_snow := clock t; tk_id := id
|}.
Definition quiet (id : string) (t : Z) : nat -> tick := fun _ => tick_at id t.
Definition fleet_node (id : string) : Paths.Node := {|
  Paths.no_ID := id; Paths.no_Name := id; Paths.no_Hosts := []; Paths.no_Status := "active"; Paths.no_DeletedAt := None
|}.
Definition fleet_nodes : list Paths.Node := [fleet_node "n1"; fleet_node "n2"]%string.
Definition fleet_registry : Paths.tables := {|
  Paths.paths := ∅; Paths.endpoints := ∅; Paths.path_accesses := []; Paths.path_group_members := ∅;
  Paths.nodes := {["n1" := fleet_node "n1"; "n2" := fleet_node "n2"]}%string; Paths.node_name_aliases := ∅;
  Paths.proxies := ∅; Paths.proxy_users := ∅; Paths.bindings := ∅; Paths.credentials := ∅
|}.
Definition fleet0 : world := {| w_queue := no_tables; w_registry := fleet_registry; w_campaigns := ∅; w_members := ∅ |}.
Definition update_capabilities : list string := requiredCapabilitiesForOperation "update.agent".
Definition fleet_status (id : string) : option node_status := Some {|
  ns_Capabilities := update_capabilities; ns_AgentGOOS := "linux"; ns_AgentGOARCH := "amd64";
  ns_AgentVersion := "1.0.0"; ns_SingBoxVersion := "1.0.0"; ns_LatestHeartbeat := Format_RFC3339Nano (clock 0) |}.
Definition fleet_assets (goos goarch : string) : option (UpdateAsset * UpdateAsset) :=
  let a := {| ua_Version := "1.1.0"; ua_URL := "u"; ua_SHA256 := "h"; ua_Size := 1 |} in Some (a, a).
Definition launch (o : nat -> tick) : M (detail * bool) :=
  adminCreateUpdateCampaign o "1.1.0" fleet_status (fun _ => true) fleet_assets fleet_nodes [] ["agent"%string] 2 "key".
(** A node claims its operation and reports how it went, if nothing else changes. *)
Definition fleet_report (id status phase : string) (sequence : Z) : RecordNodeOperationEventParams := {|
  rp_OperationID := id; rp_LeaseToken := "bfl_s"; rp_Attempt := 1; rp_Sequence := sequence; rp_Status := status;
  rp_Phase := phase; rp_Message := ""; rp_Details := ""; rp_Result := ""; rp_Error := ""; rp_ReportedAt := "" |}.
Definition works (node id status phase : string) (t : Z) (q : NodeOperations.tables) : NodeOperations.tables :=
  let q1 := (ClaimNodeOperation q (clock t) (clock t) node update_capabilities "" "" "s").1 in
  let q2 := (RecordNodeOperationEvent q1 (clock t) (clock t) node (fleet_report id "running" "starting" 1)).1 in
  let q3 := (RecordNodeOperationEvent q2 (clock t) (clock t) node (fleet_report id status phase 2)).1 in
  if bool_decide (dom (ops q3) = dom (ops q)) then q3 else q.
Definition working (node id status phase : string) (t : Z) : tick := {|
  tk_fault := false; tk_queue := works node id status phase t; tk_registry := fun r => r;
  tk_gnow := clock t; tk_snow := clock t; tk_id := id
|}.
Definition after {A} (m : M A) (w : world) : world := (m (w, 0%nat)).2.1.

Definition launched : world := after (launch (quiet "a1" 0)) fleet0.
Definition canary_done : world := interfere (working "n1" "a1" "succeeded" "completed" 5) launched.
Definition second_batch : world := after (reconcile (quiet "a2" 10) "a1") canary_done.
Definition canary_failed : world := interfere (working "n1" "a1" "failed" "failed" 5) launched.
Definition halted : world := after (reconcile (quiet "a2" 10) "a1") canary_failed.
Definition unclaimed : world := after (reconcile (quiet "a2" 700) "a1") launched.
Definition stopped : world := after (adminCancelUpdateCampaign (quiet "a3" 20) "a1") second_batch.
(** Resuming, while the statement that records the new operation fails. *)
Definition failing_at (k : nat) (id : string) (t : Z) : nat -> tick := fun n =>
  if bool_decide (n = k) then {| tk_fault := true; tk_queue := fun q => q; tk_registry := fun r => r;
    tk_gnow := clock t; tk_snow := clock t; tk_id := id |} else tick_at id t.
Definition interrupted : world := after (adminResumeUpdateCampaign (failing_at 4 "a3" 20) "a1") halted.

Definition member_of (w : world) (nid : string) : NodeUpdateCampaignMember :=
  default (new_member 0 {| pm_NodeID := ""; pm_params := {| mp_NodeName := ""; mp_Position := 0; mp_BatchNumber := 0;
    mp_Kind := ""; mp_Payload := "" |}; pm_payload := "" |}) (w_members w !! ("a1"%string, nid)).
Definition summary (w : world) :=
  ((fun c => (uc_Status c, uc_CurrentBatch c)) <$> w_campaigns w !! "a1"%string,
   (cm_Status (member_of w "n1"), cm_OperationID (member_of w "n1")), (cm_Status (member_of w "n2"), cm_OperationID (member_of w "n2"))).

Example rollout_ex :
  (summary <$> [launched; second_batch; halted; unclaimed; stopped; interrupted]) = [
    (Some (campaign_running, 0), (member_queued, Some "a1"), (member_pending, None));
    (Some (campaign_running, 1), (member_succeeded, Some "a1"), (member_queued, Some "a2"));
    (Some (campaign_paused, 0), (member_failed, Some "a1"), (member_pending, None));
    (Some (campaign_running, 1), (member_skipped, Some "a1"), (member_queued, Some "a2"));
    (Some (campaign_cancelled, 1), (member_succeeded, Some "a1"), (member_queued, Some "a2"));
    (Some (campaign_paused, 0), (member_failed, Some "a1"), (member_pending, None)) ]%string.
Proof. vm_compute. reflexivity. Qed.

Lemma fair_quiet id t q : (forall x, rtc any_step x (q x)) -> (forall x, ids_ok x -> ids_ok (q x)) -> good_id id ->
  fair {| tk_fault := false; tk_queue := q; tk_registry := fun r => r; tk_gnow := clock t; tk_snow := clock t; tk_id := id |}.
Proof. by split. Qed.
Lemma fair_tick_at id t : good_id id -> fair (tick_at id t).
Proof. intros Hid. by apply fair_quiet. Qed.
Lemma fair_working node id status phase t : good_id id -> fair (working node id status phase t).
Proof.
  intros Hid. apply fair_quiet; [| |done].
  - intros q. unfold works. case_bool_decide; [|done].
    eapply rtc_trans; [eapply claim_steps, surjective_pairing|]. eapply rtc_trans; eapply record_steps, surjective_pairing.
  - intros q Hq. unfold works. case_bool_decide as Hd; [|done]. intros k o Ho.
    assert (Hin : k ∈ dom (ops q)) by (rewrite <- Hd; by eapply elem_of_dom_2). apply elem_of_dom in Hin as [o' Ho']. by eapply Hq.
Qed.
Lemma done_after {A} (m : (nat -> tick) -> M A) o w : (forall k, fair (o k)) -> done_by m w (after (m o) w).
Proof. intros Hf. exists o, 0%nat, (m o (w, 0%nat)).2.2, (m o (w, 0%nat)).1. split; [done|]. unfold after. by destruct (m o (w, 0%nat)) as [r [w' n']]. Qed.

Lemma fleet0_start : campaign_start fleet0.
Proof.
  split; [apply inv_no_tables|by intros k o ?| |done..]. intros id n Hn. cbn in Hn.
  apply lookup_insert_Some in Hn as [[<- <-]|[_ Hn]]; [done|]. apply lookup_singleton_Some in Hn as [<- <-]. done.
Qed.
Lemma reach_step w w' : campaign_reachable w -> campaign_step w w' -> campaign_reachable w'.
Proof. intros (w0 & H0 & Hr) Hs. exists w0. split; [done|]. by eapply rtc_r. Qed.
Lemma launched_reach : campaign_reachable launched.
Proof.
  apply reach_step with fleet0; [by exists fleet0; split; [apply fleet0_start|]|].
  eapply step_create. apply (done_after launch). intros k. by apply fair_tick_at.
Qed.
Lemma canary_done_reach : campaign_reachable canary_done.
Proof. apply reach_step with launched; [apply launched_reach|]. apply step_others. by apply fair_working. Qed.
Lemma second_batch_reach : campaign_reachable second_batch.
Proof.
  apply reach_step with canary_done; [apply canary_done_reach|]. apply (step_reconcile _ "a1"); [done|].
  apply (done_after (fun o => reconcile o "a1")). intros k. by apply fair_tick_at.
Qed.
Lemma unclaimed_reach : campaign_reachable unclaimed.
Proof.
  apply reach_step with launched; [apply launched_reach|]. apply (step_reconcile _ "a1"); [done|].
  apply (done_after (fun o => reconcile o "a1")). intros k. by apply fair_tick_at.
Qed.
Lemma stopped_step : campaign_step second_batch stopped.
Proof. apply (step_cancel _ "a1"); [done|]. apply (done_after (fun o => adminCancelUpdateCampaign o "a1")). intros k. by apply fair_tick_at. Qed.
Lemma stopped_again : campaign_step stopped (after (adminResumeUpdateCampaign (quiet "a4" 30) "a1") stopped).
Proof. apply (step_resume _ "a1"); [done|]. apply (done_after (fun o => adminResumeUpdateCampaign o "a1")). intros k. by apply fair_tick_at. Qed.

Lemma batches_in_order_witness :
  cm_Status (member_of second_batch "n1") = member_skipped
  \/ cm_Status (member_of second_batch "n1") = member_succeeded
     /\ exists o, has_operation second_batch (member_of second_batch "n1") o /\ op_status (prog o) = succeeded.
Proof.
  apply (batches_in_order second_batch "a1" "n1" (member_of second_batch "n1") "n2" (member_of second_batch "n2"));
    [apply second_batch_reach|vm_compute; reflexivity|vm_compute; reflexivity| |vm_compute; reflexivity].
  vm_compute. by eexists.
Defined.
Lemma skipped_is_never_executing_witness :
  exists o, (cm_Status (member_of unclaimed "n1") = member_skipped -> terminal (prog o) = true \/ op_cancel_requested (prog o) = true)
    /\ (is_stopped (cm_Status (member_of unclaimed "n1")) = true -> terminal (prog o) = true).
Proof.
  destruct (ops (w_queue unclaimed) !! "a1"%string) as [o|] eqn:Ho; [|vm_compute in Ho; discriminate]. exists o.
  apply (skipped_is_never_executing unclaimed "a1" "n1" (member_of unclaimed "n1") o);
    [apply unclaimed_reach|vm_compute; reflexivity|]. exists "a1"%string. split; [vm_compute; reflexivity|exact Ho].
Defined.
Lemma terminal_campaign_is_final_witness :
  exists c, w_campaigns (after (adminResumeUpdateCampaign (quiet "a4" 30) "a1") stopped) !! "a1"%string = Some c
    /\ forall nid, w_members (after (adminResumeUpdateCampaign (quiet "a4" 30) "a1") stopped) !! ("a1"%string, nid)
                   = w_members stopped !! ("a1"%string, nid).
Proof.
  destruct (w_campaigns stopped !! "a1"%string) as [c|] eqn:Hc; [|vm_compute in Hc; discriminate]. exists c.
  apply (terminal_campaign_is_final stopped _ "a1" c); [apply rtc_once, stopped_again|exact Hc|].
  right. vm_compute in Hc. injection Hc as <-. reflexivity.
Defined.
Definition built : list CreateNodeUpdateCampaignMemberParams :=
  match buildUpdateCampaignMembers (clock 0) "1.1.0" fleet_status (fun _ => true) fleet_assets fleet_nodes [] ["agent"%string] 2 with
  | Ok l => l | Err _ => [] end.
Lemma campaign_members_released_in_bounded_batches_witness :
  length (filter (fun p => mp_BatchNumber p = 0) built) = 1%nat
  /\ forall k, 0 < k -> Z.of_nat (length (filter (fun p => mp_BatchNumber p = k) built)) <= 2.
Proof.
  assert (Hb : buildUpdateCampaignMembers (clock 0) "1.1.0" fleet_status (fun _ => true) fleet_assets fleet_nodes [] ["agent"%string] 2 = Ok built).
  { vm_compute. reflexivity. }
  destruct (campaign_members_released_in_bounded_batches _ _ _ _ _ _ _ _ 2 built eq_refl Hb) as (chosen & canary & Hall).
  split; [apply Hall|]. apply Hall.
Defined.

(** The detail a reconciliation reads once the canary has failed. *)
Definition synced : world := after (for_each (sync_member (quiet "a2" 10) "a1") (d_Members
  (match (GetNodeUpdateCampaign (quiet "a2" 10) "a1" (canary_failed, 0%nat)).1 with Ok d => d | Err _ =>
    {| d_ID := ""; d_Campaign := {| uc_Release := ""; uc_Components := []; uc_Status := campaign_queued; uc_IdempotencyKey := "";
       uc_SpecHash := ""; uc_BatchSize := 0; uc_CurrentBatch := 0; uc_RequestedBy := ""; uc_RequestedAt := ""; uc_StartedAt := None;
       uc_FinishedAt := None; uc_UpdatedAt := ""; uc_Error := "" |}; d_Members := [] |} end))) canary_failed.
Definition failed_view : member_view := {| mv_NodeID := "n1"; mv_NodeName := "n1"; mv_row := member_of synced "n1" |}.
Definition failed_detail : option detail :=
  match (GetNodeUpdateCampaign (quiet "a2" 10) "a1" (synced, 0%nat)).1 with Ok d => Some d | Err _ => None end.
Lemma failed_member_pauses_witness :
  exists d, failed_detail = Some d /\
    w_queue (after (advance (quiet "a2" 10) "a1" d) synced) = w_queue synced.
Proof.
  destruct failed_detail as [d|] eqn:Hd; [|vm_compute in Hd; discriminate]. exists d. split; [reflexivity|].
  apply (failed_member_pauses (quiet "a2" 10) "a1" d synced 0 failed_view
    (advance (quiet "a2" 10) "a1" d (synced, 0%nat)).1 (after (advance (quiet "a2" 10) "a1" d) synced)
    (advance (quiet "a2" 10) "a1" d (synced, 0%nat)).2.2).
  - vm_compute in Hd. injection Hd as <-. vm_compute. left.
  - vm_compute in Hd. injection Hd as <-. reflexivity.
  - reflexivity.
  - reflexivity.
  - vm_compute. by eexists.
  - unfold after. destruct (advance _ _ _ _) as [r [w' n']]. reflexivity.
Defined.

Definition stuck_view : member_view := {| mv_NodeID := "n1"; mv_NodeName := "n1"; mv_row := member_of interrupted "n1" |}.
Lemma halted_inv : op_inv (w_queue halted).
Proof.
  apply ci_queue, reachable_inv. apply reach_step with canary_failed.
  - apply reach_step with launched; [apply launched_reach|]. apply step_others. by apply fair_working.
  - apply (step_reconcile _ "a1"); [done|]. apply (done_after (fun o => reconcile o "a1")). intros k. by apply fair_tick_at.
Qed.
Lemma interrupted_retry_is_never_repeated_witness :
  (retry_member (quiet "a4" 60) "a1" stuck_view (interrupted, 0%nat)).1 = Err (OpFailed ErrOperationIdempotencyConflict).
Proof.
  assert (Hfair : fair (quiet "a4" 60 1%nat)) by by apply fair_tick_at.
  destruct (CreateNodeOperation (w_queue halted) (clock 20) "n1" "a3" (retry_params "a1" stuck_view "a1" (clock 20))) as [q1 [[o b]|e]] eqn:Hc;
    [|vm_compute in Hc; discriminate].
  assert (Hop : cm_OperationID (mv_row stuck_view) = Some "a1"%string) by (vm_compute; reflexivity).
  assert (Hy1 : year_ok (clock 20 + updateQueueTimeout)) by (vm_compute; split; discriminate).
  assert (Hy2 : year_ok (tk_gnow (quiet "a4" 60 0%nat) + updateQueueTimeout)) by (vm_compute; split; discriminate).
  assert (Hq : q1 = w_queue interrupted) by (vm_compute in Hc; injection Hc as <- _ _; vm_compute; reflexivity).
  assert (Hs : rtc any_step q1 (w_queue interrupted)) by (rewrite Hq; apply rtc_refl).
  assert (Hg : exists nd, Paths.GetNode (tk_registry (quiet "a4" 60 1%nat) (w_registry interrupted)) (mv_NodeID stuck_view) = Ok nd /\ Paths.no_ID nd = "n1"%string).
  { exists (fleet_node "n1"). split; vm_compute; reflexivity. }
  assert (Ht : tk_gnow (quiet "a4" 60 0%nat) <> clock 20) by (vm_compute; discriminate).
  assert (Hid : TrimSpace "a1" = "a1"%string) by (vm_compute; reflexivity).
  assert (Hnf : tk_fault (quiet "a4" 60 1%nat) = false) by reflexivity.
  pose proof (interrupted_retry_is_never_repeated (quiet "a4" 60) interrupted 0 "a1" stuck_view "a1" "n1" (clock 20) (clock 20) "a3"
    (w_queue halted) q1 o b halted_inv Hid Hc) as Hr. cbv zeta in Hr.
  exact (Hr Hs Hop Hy1 Hy2 Ht Hfair Hnf Hg).
Defined.
