(* ===== verification/ConfigVersions.v ===== *)
(** * Configuration versions and heartbeats
    ([src/internal/server/db/config_versions.go])

    The server keeps every configuration it rendered for a node as a numbered
    version, one of which is published and the node's target; the agent reports
    what it applied, and that it is alive. *)
From S2P Require Import Prelude GoStrings GoTime NodeOperations.
From S2P Require Paths.

#[local] Open Scope Z_scope.

Inductive VersionStatus := vs_draft | vs_published | vs_superseded | vs_failed.
Inductive ApplyStatus := as_pending | as_applied | as_failed | as_rolled_back.
#[export] Instance VersionStatus_eq_dec : EqDecision VersionStatus.
Proof. solve_decision. Defined.
#[export] Instance ApplyStatus_eq_dec : EqDecision ApplyStatus.
Proof. solve_decision. Defined.

Record ConfigVersion := {
  cv_NodeID : string; cv_Version : Z; cv_Status : VersionStatus; cv_ConfigJson : string;
  cv_ConfigHash : string; cv_CreatedAt : string; cv_PublishedAt : option string
}.
(** node_config_status *)
Record ConfigStatus := {
  cs_TargetConfigVersionID : option string; cs_CurrentConfigVersionID : option string;
  cs_LastApplyStatus : ApplyStatus; cs_LastApplyError : string; cs_UpdatedAt : string
}.
Record Heartbeat := {
  hb_NodeName : string; hb_AgentVersion : string; hb_SingBoxVersion : string; hb_Status : string;
  hb_MemoryBytes : Z; hb_RxBytes : Z; hb_TxBytes : Z; hb_Payload : string; hb_ReportedAt : string
}.
(** node_heartbeats: the node, and what it reported *)
Record heartbeat_row := { hr_NodeID : string; hr_Heartbeat : Heartbeat }.

Record tables := {
  t_registry : Paths.tables;
  t_seen : gmap string (string * string);          (* nodes.last_seen_at, sing_box_version *)
  t_versions : gmap string ConfigVersion;          (* config_versions by id *)
  t_status : gmap string ConfigStatus;             (* node_config_status by node *)
  t_heartbeats : gmap string heartbeat_row;        (* node_heartbeats by id *)
  t_latest : gmap string string                    (* node_latest_heartbeats: node -> heartbeat *)
}.
Definition set_versions (s : tables) (m : gmap string ConfigVersion) : tables :=
  {| t_registry := t_registry s; t_seen := t_seen s; t_versions := m; t_status := t_status s;
     t_heartbeats := t_heartbeats s; t_latest := t_latest s |}.
Definition set_status (s : tables) (m : gmap string ConfigStatus) : tables :=
  {| t_registry := t_registry s; t_seen := t_seen s; t_versions := t_versions s; t_status := m;
     t_heartbeats := t_heartbeats s; t_latest := t_latest s |}.
Definition set_heartbeats (s : tables) (m : gmap string heartbeat_row) (l : gmap string string) : tables :=
  {| t_registry := t_registry s; t_seen := t_seen s; t_versions := t_versions s; t_status := t_status s;
     t_heartbeats := m; t_latest := l |}.
Definition set_nodes (s : tables) (r : Paths.tables) (seen : gmap string (string * string)) : tables :=
  {| t_registry := r; t_seen := seen; t_versions := t_versions s; t_status := t_status s;
     t_heartbeats := t_heartbeats s; t_latest := t_latest s |}.

Inductive ConfigError :=
| NodeMissing (e : Paths.PathError) | NoTarget (name : string) | ConfigNoRows | UnsupportedApplyStatus (status : string)
| NotThisNode (id name : string) | HashMismatch (id : string) | ConstraintViolated.
Definition resolve (r : Paths.tables) (name : string) : result ConfigError Paths.Node :=
  match Paths.GetNode r name with Ok n => Ok n | Err e => Err (NodeMissing e) end.

(** ** Statements *)
Definition with_status (st : VersionStatus) (published : option string) (v : ConfigVersion) : ConfigVersion :=
  {| cv_NodeID := cv_NodeID v; cv_Version := cv_Version v; cv_Status := st; cv_ConfigJson := cv_ConfigJson v;
     cv_ConfigHash := cv_ConfigHash v; cv_CreatedAt := cv_CreatedAt v; cv_PublishedAt := published |}.
Definition GetConfigVersionByHash (s : tables) (nodeID hash : string) : option (string * ConfigVersion) :=
  List.find (fun kv => (cv_NodeID kv.2 =? nodeID)%string && (cv_ConfigHash kv.2 =? hash)%string) (map_to_list (t_versions s)).
Definition NextConfigVersion (s : tables) (nodeID : string) : Z :=
  1 + foldr Z.max 0 (omap (fun kv => if (cv_NodeID kv.2 =? nodeID)%string then Some (cv_Version kv.2) else None)
                       (map_to_list (t_versions s))).
(** The primary key, UNIQUE (node_id, version), UNIQUE (node_id, config_hash) *)
Definition version_conflicts (s : tables) (configID : string) (v : ConfigVersion) : bool :=
  bool_decide (is_Some (t_versions s !! configID))
  || existsb (fun kv => (cv_NodeID kv.2 =? cv_NodeID v)%string
                        && ((cv_Version kv.2 =? cv_Version v) || (cv_ConfigHash kv.2 =? cv_ConfigHash v)%string))
       (map_to_list (t_versions s)).
Definition CreateConfigVersion (s : tables) (snow : Time) (configID nodeID : string) (version : Z) (raw hash : string)
    : result ConfigError tables :=
  let v := {| cv_NodeID := nodeID; cv_Version := version; cv_Status := vs_published; cv_ConfigJson := raw;
              cv_ConfigHash := hash; cv_CreatedAt := strftime snow; cv_PublishedAt := Some (strftime snow) |} in
  guard! negb (version_conflicts s configID v) else ConstraintViolated;
  Ok (set_versions s (<[configID := v]> (t_versions s))).
Definition MarkConfigVersionPublished (s : tables) (snow : Time) (configID : string) : tables :=
  set_versions s (alter (fun v => with_status vs_published
    (match cv_PublishedAt v with Some t => Some t | None => Some (strftime snow) end) v) configID (t_versions s)).
Definition supersede_one (nodeID keepID id : string) (v : ConfigVersion) : ConfigVersion :=
  if (cv_NodeID v =? nodeID)%string && bool_decide (cv_Status v = vs_published) && negb (id =? keepID)%string
  then with_status vs_superseded (cv_PublishedAt v) v else v.
Definition SupersedePublishedConfigVersions (s : tables) (nodeID keepID : string) : tables :=
  set_versions s (map_imap (fun id v => Some (supersede_one nodeID keepID id v)) (t_versions s)).
Definition UpsertNodeConfigTarget (s : tables) (snow : Time) (nodeID configID : string) : tables :=
  set_status s (<[nodeID := {|
    cs_TargetConfigVersionID := Some configID;
    cs_CurrentConfigVersionID := match t_status s !! nodeID with Some c => cs_CurrentConfigVersionID c | None => None end;
    cs_LastApplyStatus := as_pending; cs_LastApplyError := ""; cs_UpdatedAt := strftime snow |}]> (t_status s)).
Definition UpdateNodeConfigApplyStatus (s : tables) (snow : Time) (nodeID : string) (status : ApplyStatus)
    (current : option string) (error : string) : tables :=
  set_status s (alter (fun c => {|
    cs_TargetConfigVersionID := cs_TargetConfigVersionID c;
    cs_CurrentConfigVersionID := if bool_decide (status = as_applied) then current else cs_CurrentConfigVersionID c;
    cs_LastApplyStatus := status; cs_LastApplyError := error; cs_UpdatedAt := strftime snow |}) nodeID (t_status s)).

(** ** Publishing *)
Definition publishConfigVersion (s : tables) (snow : Time) (nodeID configID : string) : tables :=
  UpsertNodeConfigTarget (SupersedePublishedConfigVersions (MarkConfigVersionPublished s snow configID) nodeID configID)
    snow nodeID configID.

Section config.
Context `{OperationEnv}.

(** The published version's id, and whether it was created. *)
Definition PublishConfig (s : tables) (snow : Time) (newid nodeName raw : string) : result ConfigError (tables * (string * bool)) :=
  let? node := resolve (t_registry s) nodeName in
  let hash := SHA256Hex raw in
  match GetConfigVersionByHash s (Paths.no_ID node) hash with
  | Some (id, _) => Ok (publishConfigVersion s snow (Paths.no_ID node) id, (id, false))
  | None =>
      let next := NextConfigVersion s (Paths.no_ID node) in
      let? s := CreateConfigVersion s snow newid (Paths.no_ID node) next raw hash in
      Ok (publishConfigVersion s snow (Paths.no_ID node) newid, (newid, true))
  end.
End config.

(** GetTargetConfigByNodeName: the node is joined by its id, or its name if it
    is not deleted. *)
Definition named (r : Paths.tables) (name nodeID : string) : bool :=
  match Paths.nodes r !! nodeID with
  | None => false
  | Some n => (nodeID =? name)%string || ((Paths.no_Name n =? name)%string && negb (bool_decide (is_Some (Paths.no_DeletedAt n))))
  end.
Definition target_row (s : tables) (name : string) (kc : string * ConfigStatus) : option (string * ConfigVersion) :=
  if named (t_registry s) name kc.1
  then match cs_TargetConfigVersionID kc.2 with
       | None => None
       | Some id => (fun v => (id, v)) <$> t_versions s !! id
       end
  else None.
Definition GetTargetConfigByNodeName (s : tables) (name : string) : option (string * ConfigVersion) :=
  head (omap (target_row s name) (map_to_list (t_status s))).
Definition GetTargetConfig (s : tables) (nodeName : string) : result ConfigError (string * ConfigVersion) :=
  let? node := resolve (t_registry s) nodeName in
  match GetTargetConfigByNodeName s (Paths.no_Name node) with
  | None => Err (NoTarget nodeName)
  | Some v => Ok v
  end.

(** ** What the agent reports *)
Record ApplyResult := {
  ar_NodeName : string; ar_ConfigVersionID : string; ar_ConfigHash : string; ar_Status : string; ar_Error : string
}.
Definition parse_apply_status (status : string) : option ApplyStatus :=
  if (status =? "applied")%string then Some as_applied
  else if (status =? "failed")%string then Some as_failed else None.
Definition RecordApplyResult (s : tables) (snow : Time) (r : ApplyResult) : result ConfigError tables :=
  let? node := resolve (t_registry s) (ar_NodeName r) in
  match parse_apply_status (ar_Status r) with
  | None => Err (UnsupportedApplyStatus (ar_Status r))
  | Some status =>
      let? configID :=
        (if (ar_ConfigVersionID r =? "")%string then Ok None
         else match t_versions s !! ar_ConfigVersionID r with
         | None => Err ConfigNoRows
         | Some v =>
             guard! (cv_NodeID v =? Paths.no_ID node)%string else NotThisNode (ar_ConfigVersionID r) (ar_NodeName r);
             guard! negb (negb (ar_ConfigHash r =? "")%string && negb (cv_ConfigHash v =? ar_ConfigHash r)%string)
               else HashMismatch (ar_ConfigVersionID r);
             Ok (Some (ar_ConfigVersionID r))
         end) in
      Ok (UpdateNodeConfigApplyStatus s snow (Paths.no_ID node) status configID (ar_Error r))
  end.

(** *** Heartbeats *)
Definition CreateNodeHeartbeat (s : tables) (id nodeID : string) (hb : Heartbeat) : result ConfigError tables :=
  guard! negb (bool_decide (is_Some (t_heartbeats s !! id)) || (hb_MemoryBytes hb <? 0) || (hb_RxBytes hb <? 0)
               || (hb_TxBytes hb <? 0)) else ConstraintViolated;
  Ok (set_heartbeats s (<[id := {| hr_NodeID := nodeID; hr_Heartbeat := hb |}]> (t_heartbeats s)) (t_latest s)).
(** ... ON DELETE CASCADE of [node_latest_heartbeats.heartbeat_id] *)
Definition DeleteCurrentNodeHeartbeat (s : tables) (nodeID : string) : tables :=
  match t_latest s !! nodeID with
  | None => s
  | Some id => set_heartbeats s (delete id (t_heartbeats s)) (filter (fun kv => kv.2 <> id) (t_latest s))
  end.
(** UNIQUE (heartbeat_id) *)
Definition UpsertNodeLatestHeartbeat (s : tables) (nodeID id : string) : result ConfigError tables :=
  guard! negb (existsb (fun kv => (kv.2 =? id)%string && negb (kv.1 =? nodeID)%string) (map_to_list (t_latest s)))
    else ConstraintViolated;
  Ok (set_heartbeats s (t_heartbeats s) (<[nodeID := id]> (t_latest s))).
Definition promote (name : string) (n : Paths.Node) : Paths.Node :=
  if (Paths.no_Name n =? name)%string && negb (bool_decide (is_Some (Paths.no_DeletedAt n))) && (Paths.no_Status n =? "pending")%string
  then {| Paths.no_ID := Paths.no_ID n; Paths.no_Name := Paths.no_Name n; Paths.no_Hosts := Paths.no_Hosts n;
          Paths.no_Status := "active"; Paths.no_DeletedAt := Paths.no_DeletedAt n |}
  else n.
Definition with_nodes (r : Paths.tables) (m : gmap string Paths.Node) : Paths.tables := {|
  Paths.paths := Paths.paths r; Paths.endpoints := Paths.endpoints r; Paths.path_accesses := Paths.path_accesses r;
  Paths.path_group_members := Paths.path_group_members r; Paths.nodes := m;
  Paths.node_name_aliases := Paths.node_name_aliases r; Paths.proxies := Paths.proxies r;
  Paths.proxy_users := Paths.proxy_users r; Paths.bindings := Paths.bindings r; Paths.credentials := Paths.credentials r
|}.
Definition PromotePendingNodeToActive (s : tables) (name : string) : tables :=
  set_nodes s (with_nodes (t_registry s) (promote name <$> Paths.nodes (t_registry s))) (t_seen s).
Definition TouchNodeSeen (s : tables) (nodeID reportedAt singBoxVersion : string) : tables :=
  set_nodes s (t_registry s) (if bool_decide (is_Some (Paths.nodes (t_registry s) !! nodeID))
                              then <[nodeID := (reportedAt, singBoxVersion)]> (t_seen s) else t_seen s).

Definition or_now (gnow : Time) (reportedAt : string) : string :=
  if (reportedAt =? "")%string then Format_RFC3339Nano gnow else reportedAt.
(** [node] was read before the transaction. *)
Definition heartbeat_tx (s : tables) (gnow : Time) (newid : string) (node : Paths.Node) (hb : Heartbeat) : result ConfigError tables :=
  let reportedAt := or_now gnow (hb_ReportedAt hb) in
  let? s := CreateNodeHeartbeat s newid (Paths.no_ID node) {|
    hb_NodeName := hb_NodeName hb; hb_AgentVersion := hb_AgentVersion hb; hb_SingBoxVersion := hb_SingBoxVersion hb;
    hb_Status := hb_Status hb; hb_MemoryBytes := hb_MemoryBytes hb; hb_RxBytes := hb_RxBytes hb;
    hb_TxBytes := hb_TxBytes hb; hb_Payload := hb_Payload hb; hb_ReportedAt := reportedAt |} in
  let s := DeleteCurrentNodeHeartbeat s (Paths.no_ID node) in
  let? s := UpsertNodeLatestHeartbeat s (Paths.no_ID node) newid in
  let s := if (Paths.no_Status node =? "pending")%string then PromotePendingNodeToActive s (Paths.no_Name node) else s in
  Ok (TouchNodeSeen s (Paths.no_ID node) reportedAt (hb_SingBoxVersion hb)).
(** [before]: the nodes when the handler read its own. *)
Definition RecordHeartbeat (before : Paths.tables) (s : tables) (gnow : Time) (newid : string) (hb : Heartbeat)
    : result ConfigError tables :=
  let? node := resolve before (hb_NodeName hb) in
  heartbeat_tx s gnow newid node hb.

(** ** The tables in order *)
Section invariant.
Context `{OperationEnv}.

(** All but the link between published versions and targets of the node [n]. *)
Record versions_ok (s : tables) : Prop := {
  vo_unique : forall i j v w, t_versions s !! i = Some v -> t_versions s !! j = Some w -> cv_NodeID v = cv_NodeID w ->
    cv_Version v = cv_Version w \/ cv_ConfigHash v = cv_ConfigHash w -> i = j;
  vo_hash : forall i v, t_versions s !! i = Some v -> cv_ConfigHash v = SHA256Hex (cv_ConfigJson v);
  vo_positive : forall i v, t_versions s !! i = Some v -> 1 <= cv_Version v;
  vo_current : forall n c id, t_status s !! n = Some c -> cs_CurrentConfigVersionID c = Some id ->
    exists v, t_versions s !! id = Some v /\ cv_NodeID v = n;
}.
Definition targets_ok (s : tables) (n : string) : Prop :=
  (forall c id, t_status s !! n = Some c -> cs_TargetConfigVersionID c = Some id ->
     exists v, t_versions s !! id = Some v /\ cv_NodeID v = n /\ cv_Status v = vs_published)
  /\ (forall id v, t_versions s !! id = Some v -> cv_NodeID v = n -> cv_Status v = vs_published ->
     exists c, t_status s !! n = Some c /\ cs_TargetConfigVersionID c = Some id).
Definition config_inv (s : tables) : Prop := versions_ok s /\ forall n, targets_ok s n.

Lemma find_version s n h id v :
  GetConfigVersionByHash s n h = Some (id, v) -> t_versions s !! id = Some v /\ cv_NodeID v = n /\ cv_ConfigHash v = h.
Proof.
  intros [Hin Hp]%List.find_some. apply list_elem_of_In, elem_of_map_to_list in Hin. cbn in Hp. by breflect.
Qed.
Lemma find_no_version s n h : GetConfigVersionByHash s n h = None ->
  forall id v, t_versions s !! id = Some v -> cv_NodeID v = n -> cv_ConfigHash v <> h.
Proof.
  intros Hf id v Hv <- <-. apply List.find_none with (x := (id, v)) in Hf; [|by apply list_elem_of_In, elem_of_map_to_list].
  cbn in Hf. by rewrite !String.eqb_refl in Hf.
Qed.
Lemma next_version_fresh s n id v : t_versions s !! id = Some v -> cv_NodeID v = n -> cv_Version v < NextConfigVersion s n.
Proof.
  intros Hv Hn. unfold NextConfigVersion.
  assert (Hin : cv_Version v ∈ omap (fun kv => if (cv_NodeID kv.2 =? n)%string then Some (cv_Version kv.2) else None)
                               (map_to_list (t_versions s))).
  { apply list_elem_of_omap. exists (id, v). split; [by apply elem_of_map_to_list|]. cbn. by rewrite Hn, String.eqb_refl. }
  revert Hin. generalize (omap (fun kv => if (cv_NodeID kv.2 =? n)%string then Some (cv_Version kv.2) else None) (map_to_list (t_versions s))).
  intros l Hin. induction l as [|x l IH]; [by apply not_elem_of_nil in Hin|]. cbn [foldr]. apply elem_of_cons in Hin as [->|Hin]; [lia|].
  specialize (IH Hin). lia.
Qed.
Lemma next_version_positive s n : 1 <= NextConfigVersion s n.
Proof. unfold NextConfigVersion. induction (omap _ _) as [|x l IH]; cbn [foldr]; lia. Qed.

Lemma published_versions s snow n id j :
  t_versions (publishConfigVersion s snow n id) !! j =
    if decide (j = id) then with_status vs_published (match cv_PublishedAt <$> t_versions s !! id with Some (Some t) => Some t | _ => Some (strftime snow) end) <$> t_versions s !! id
    else supersede_one n id j <$> t_versions s !! j.
Proof.
  unfold publishConfigVersion, SupersedePublishedConfigVersions, MarkConfigVersionPublished. cbn [t_versions set_versions set_status UpsertNodeConfigTarget].
  rewrite map_lookup_imap. destruct (decide (j = id)) as [->|Hne].
  - rewrite lookup_alter_eq. destruct (t_versions s !! id) as [v|]; [|done]. cbn. unfold supersede_one.
    rewrite String.eqb_refl, andb_false_r. by destruct (cv_PublishedAt v).
  - rewrite lookup_alter_ne by done. by destruct (t_versions s !! j).
Qed.
Lemma published_status s snow n id n' :
  n' <> n -> t_status (publishConfigVersion s snow n id) !! n' = t_status s !! n'.
Proof. intros Hne. cbn. by rewrite lookup_insert_ne. Qed.
(** Publishing changes no more than the status of versions. *)
Lemma published_row s snow n id j v :
  t_versions (publishConfigVersion s snow n id) !! j = Some v ->
  exists v0, t_versions s !! j = Some v0 /\ cv_NodeID v = cv_NodeID v0 /\ cv_Version v = cv_Version v0
    /\ cv_ConfigHash v = cv_ConfigHash v0 /\ cv_ConfigJson v = cv_ConfigJson v0
    /\ (j <> id -> cv_NodeID v0 <> n -> v = v0)
    /\ (cv_Status v = vs_published -> j = id \/ cv_NodeID v0 <> n /\ v = v0).
Proof.
  rewrite published_versions. case_decide as Hj; destruct (t_versions s !! j) as [v0|] eqn:Hv0; subst; rewrite ?Hv0; try done.
  - cbn. intros [= <-]. exists v0. split_and!; try done. by left.
  - cbn. intros [= <-]. exists v0. unfold supersede_one. destruct (cv_NodeID v0 =? n)%string eqn:En; cbn [andb].
    + apply String.eqb_eq in En. destruct (bool_decide (cv_Status v0 = vs_published)) eqn:Ep; cbn [andb].
      * rewrite (proj2 (String.eqb_neq _ _) Hj). cbn. by split_and!.
      * apply bool_decide_eq_false in Ep. by split_and!.
    + apply String.eqb_neq in En. split_and!; try done. intros _. by right.
Qed.
Lemma published_kept s snow n id j v0 :
  t_versions s !! j = Some v0 -> exists v, t_versions (publishConfigVersion s snow n id) !! j = Some v
    /\ cv_NodeID v = cv_NodeID v0 /\ (cv_NodeID v0 <> n -> j <> id -> v = v0) /\ (j = id -> cv_Status v = vs_published).
Proof.
  intros Hv0. rewrite published_versions. case_decide as Hj; subst; rewrite ?Hv0; cbn.
  - eexists. split; [done|]. by split_and!.
  - eexists. split; [done|]. unfold supersede_one. destruct (cv_NodeID v0 =? n)%string eqn:En; cbn [andb].
    + apply String.eqb_eq in En. destruct (_ && _); by split_and!.
    + by split_and!.
Qed.

Lemma publish_inv s snow n id v :
  versions_ok s -> (forall n', n' <> n -> targets_ok s n') -> t_versions s !! id = Some v -> cv_NodeID v = n ->
  config_inv (publishConfigVersion s snow n id).
Proof.
  intros [Hu Hh Hp Hc] Ht Hv Hn. split; [split|].
  - intros i j a b Ha Hb Hnode Hor. destruct (published_row _ _ _ _ _ _ Ha) as (a0 & Ha0 & E1 & E2 & E3 & _).
    destruct (published_row _ _ _ _ _ _ Hb) as (b0 & Hb0 & F1 & F2 & F3 & _).
    eapply Hu; [exact Ha0|exact Hb0|congruence|]. destruct Hor; [left|right]; congruence.
  - intros i a Ha. destruct (published_row _ _ _ _ _ _ Ha) as (a0 & Ha0 & _ & _ & -> & -> & _). by eapply Hh.
  - intros i a Ha. destruct (published_row _ _ _ _ _ _ Ha) as (a0 & Ha0 & _ & -> & _). by eapply Hp.
  - intros n' c cur Hs Hcur. assert (Hcur0 : exists c0, t_status s !! n' = Some c0 /\ cs_CurrentConfigVersionID c0 = Some cur).
    { destruct (decide (n' = n)) as [->|Hne].
      - cbn in Hs. rewrite lookup_insert_eq in Hs. injection Hs as <-. cbn in Hcur. destruct (t_status s !! n) as [c0|]; [|done]. by exists c0.
      - rewrite published_status in Hs by done. by exists c. }
    destruct Hcur0 as (c0 & Hs0 & Hcur0). destruct (Hc _ _ _ Hs0 Hcur0) as (a0 & Ha0 & Hna).
    destruct (published_kept s snow n id _ _ Ha0) as (a & Ha & Hna' & _). exists a. split; [done|congruence].
  - intros n'. destruct (decide (n' = n)) as [->|Hne]; split.
    + intros c t Hs Hct. cbn in Hs. rewrite lookup_insert_eq in Hs. injection Hs as <-. cbn in Hct. injection Hct as <-.
      destruct (published_kept s snow n id _ _ Hv) as (a & Ha & Hna & _ & Hpub). exists a. split_and!; [done|congruence|by apply Hpub].
    + intros j a Ha Hna Hpub. destruct (published_row _ _ _ _ _ _ Ha) as (a0 & Ha0 & Hna0 & _ & _ & _ & _ & Hor).
      destruct (Hor Hpub) as [->|[Hnn _]]; [|by rewrite <- Hna0 in Hnn].
      cbn. rewrite lookup_insert_eq. by eexists.
    + intros c t Hs Hct. rewrite published_status in Hs by done. destruct (proj1 (Ht _ Hne) _ _ Hs Hct) as (a0 & Ha0 & Hna0 & Hpub).
      destruct (published_kept s snow n id _ _ Ha0) as (a & Ha & _ & Hsame & _). rewrite Hsame in Ha; [by exists a0|congruence|].
      intros ->. rewrite Hv in Ha0. congruence.
    + intros j a Ha Hna Hpub. destruct (published_row _ _ _ _ _ _ Ha) as (a0 & Ha0 & Hna0 & _ & _ & _ & _ & Hor).
      rewrite published_status by done. destruct (Hor Hpub) as [->|[_ ->]]; [|by eapply (proj2 (Ht _ Hne))].
      rewrite Hv in Ha0. congruence.
Qed.
End invariant.

(** ** Requests keep them in order *)
Section steps.
Context `{OperationEnv}.

Lemma create_version_ok s snow id n v raw h s' :
  config_inv s -> h = SHA256Hex raw -> 1 <= v -> CreateConfigVersion s snow id n v raw h = Ok s' ->
  versions_ok s' /\ (forall n', n' <> n -> targets_ok s' n') /\ t_versions s !! id = None
  /\ exists row, t_versions s' = <[id := row]> (t_versions s) /\ t_status s' = t_status s
       /\ cv_NodeID row = n /\ cv_Version row = v /\ cv_ConfigJson row = raw /\ cv_ConfigHash row = h.
Proof.
  intros [[Hu Hh Hp Hc] Ht] Hhash Hpos. unfold CreateConfigVersion. cbv zeta.
  destruct (version_conflicts _ _ _) eqn:Ec; [done|]. cbn [negb]. intros [= <-].
  apply orb_false_iff in Ec as [Hfresh%bool_decide_eq_false Hex].
  assert (Hnew : t_versions s !! id = None) by (by apply eq_None_not_Some).
  set (row := {| cv_NodeID := n |}) in *.
  assert (Hno : forall j w, t_versions s !! j = Some w -> cv_NodeID w = n -> cv_Version w = v \/ cv_ConfigHash w = h -> False).
  { intros j w Hw Hn Hor. apply not_true_iff_false in Hex. apply Hex, existsb_exists. exists (j, w).
    split; [by apply list_elem_of_In, elem_of_map_to_list|]. cbn. rewrite Hn, String.eqb_refl. cbn.
    destruct Hor as [-> | ->]; [by rewrite Z.eqb_refl|by rewrite String.eqb_refl, orb_true_r]. }
  split_and!; [| |done|by exists row].
  - split; cbn [t_versions t_status set_versions].
    + intros i j a b [[<- <-]|[_ Ha]]%lookup_insert_Some [[<- <-]|[_ Hb]]%lookup_insert_Some Hn Hor; [done| | |by eapply Hu].
      * exfalso. eapply (Hno j b Hb); [done|]. cbn in Hor. destruct Hor; [left|right]; congruence.
      * exfalso. eapply (Hno i a Ha); [done|]. cbn in Hor. destruct Hor; [left|right]; congruence.
    + intros i a [[<- <-]|[_ Ha]]%lookup_insert_Some; [done|by eapply Hh].
    + intros i a [[<- <-]|[_ Ha]]%lookup_insert_Some; [done|by eapply Hp].
    + intros n' c cur Hs Hcur. destruct (Hc _ _ _ Hs Hcur) as (a & Ha & Hna). exists a. split; [|done].
      rewrite lookup_insert_ne; [done|]. intros ->. by rewrite Hnew in Ha.
  - intros n' Hne. destruct (Ht n') as [H1 H2]. split; cbn [t_versions t_status set_versions].
    + intros c t Hs Hct. destruct (H1 _ _ Hs Hct) as (a & Ha & Hrest). exists a. split; [|done].
      rewrite lookup_insert_ne; [done|]. intros ->. by rewrite Hnew in Ha.
    + intros j a [[<- <-]|[_ Ha]]%lookup_insert_Some Hn Hpub; [by cbn in Hn|by eapply H2].
Qed.

(** What publishing a rendered configuration comes to: the row of its content,
    found or created, is published. *)
Lemma publish_config_cases s snow newid name raw s' id created :
  config_inv s -> PublishConfig s snow newid name raw = Ok (s', (id, created)) ->
  exists node s1 v, Paths.GetNode (t_registry s) name = Ok node /\ s' = publishConfigVersion s1 snow (Paths.no_ID node) id
    /\ versions_ok s1 /\ (forall n', n' <> Paths.no_ID node -> targets_ok s1 n')
    /\ t_versions s1 !! id = Some v /\ cv_NodeID v = Paths.no_ID node /\ cv_ConfigHash v = SHA256Hex raw
    /\ t_status s1 = t_status s
    /\ (if created then id = newid /\ t_versions s !! id = None /\ t_versions s1 = <[id := v]> (t_versions s) /\ cv_ConfigJson v = raw
                        /\ cv_Version v = NextConfigVersion s (Paths.no_ID node)
        else s1 = s).
Proof.
  intros Hinv. unfold PublishConfig, resolve. destruct (Paths.GetNode (t_registry s) name) as [node|] eqn:Hnode; [|done]. cbv zeta.
  destruct (GetConfigVersionByHash s (Paths.no_ID node) (SHA256Hex raw)) as [[id0 v]|] eqn:Ef.
  - intros [= <- <- <-]. destruct (find_version _ _ _ _ _ Ef) as (Hv & Hn & Hh). exists node, s, v.
    destruct Hinv as [Hv0 Ht]. by split_and!.
  - destruct (CreateConfigVersion _ _ _ _ _ _ _) as [s1|] eqn:Ec; [|done]. intros [= <- <- <-].
    destruct (create_version_ok _ _ _ _ _ _ _ _ Hinv eq_refl (next_version_positive _ _) Ec) as (Hv0 & Ht & Hnone & row & Hrow & Hst & Hn & Hver & Hraw & Hh).
    exists node, s1, row. split_and!; try done. by rewrite Hrow, lookup_insert_eq.
Qed.
Lemma publish_config_inv s snow newid name raw s' r :
  config_inv s -> PublishConfig s snow newid name raw = Ok (s', r) -> config_inv s'.
Proof.
  intros Hinv Hp. destruct r as [id created].
  destruct (publish_config_cases _ _ _ _ _ _ _ _ Hinv Hp) as (node & s1 & v & _ & -> & Hok & Ht & Hv & Hn & _).
  by eapply publish_inv.
Qed.
Lemma apply_result_cases s snow r s' :
  RecordApplyResult s snow r = Ok s' ->
  exists node status cur, Paths.GetNode (t_registry s) (ar_NodeName r) = Ok node /\ parse_apply_status (ar_Status r) = Some status
    /\ s' = UpdateNodeConfigApplyStatus s snow (Paths.no_ID node) status cur (ar_Error r)
    /\ match cur with
       | None => ar_ConfigVersionID r = ""%string
       | Some id => id = ar_ConfigVersionID r /\ exists v, t_versions s !! id = Some v /\ cv_NodeID v = Paths.no_ID node
                      /\ (ar_ConfigHash r = ""%string \/ cv_ConfigHash v = ar_ConfigHash r)
       end.
Proof.
  unfold RecordApplyResult, resolve. destruct (Paths.GetNode _ _) as [node|]; [|done].
  destruct (parse_apply_status (ar_Status r)) as [status|]; [|done].
  destruct (ar_ConfigVersionID r =? "")%string eqn:Eid.
  { intros [= <-]. exists node, status, None. split_and!; try done. by apply String.eqb_eq. }
  destruct (t_versions s !! ar_ConfigVersionID r) as [v|] eqn:Hv; [|done].
  destruct (cv_NodeID v =? Paths.no_ID node)%string eqn:En; [|done].
  destruct (negb (ar_ConfigHash r =? "")%string && negb (cv_ConfigHash v =? ar_ConfigHash r)%string) eqn:Eh; [done|].
  cbn [negb]. intros [= <-]. exists node, status, (Some (ar_ConfigVersionID r)). split_and!; try done.
  exists v. apply String.eqb_eq in En. apply andb_false_iff in Eh as [Eh%negb_false_iff%String.eqb_eq|Eh%negb_false_iff%String.eqb_eq];
    split_and!; try done; [by left|by right].
Qed.
Lemma apply_result_inv s snow r s' : config_inv s -> RecordApplyResult s snow r = Ok s' -> config_inv s'.
Proof.
  intros [[Hu Hh Hp Hc] Ht] Hr. destruct (apply_result_cases _ _ _ _ Hr) as (node & status & cur & _ & _ & -> & Hcur).
  assert (Hst : forall n c', t_status (UpdateNodeConfigApplyStatus s snow (Paths.no_ID node) status cur (ar_Error r)) !! n = Some c' ->
    exists c, t_status s !! n = Some c /\ cs_TargetConfigVersionID c' = cs_TargetConfigVersionID c
      /\ (cs_CurrentConfigVersionID c' = cs_CurrentConfigVersionID c \/ n = Paths.no_ID node /\ cs_CurrentConfigVersionID c' = cur)).
  { intros n c'. cbn. destruct (decide (n = Paths.no_ID node)) as [->|Hne].
    - rewrite lookup_alter_eq. destruct (t_status s !! _) as [c|]; [|done]. cbn. intros [= <-]. exists c. cbn. split_and!; [done..|].
      destruct (bool_decide (status = as_applied)); [by right|by left].
    - rewrite lookup_alter_ne by done. intros Hc'. exists c'. by split_and!; [| |left]. }
  split; [split|]; try done.
  - intros n c id Hs Hci. destruct (Hst _ _ Hs) as (c0 & Hc0 & _ & [Heq|[-> Heq]]); [eapply Hc; [done|congruence]|].
    rewrite Heq in Hci. subst cur. destruct Hcur as (-> & v & Hv & Hn & _). by exists v.
  - intros n. destruct (Ht n) as [H1 H2]. split.
    + intros c id Hs Hct. destruct (Hst _ _ Hs) as (c0 & Hc0 & Heq & _). rewrite Heq in Hct. by eapply H1.
    + intros id v Hv Hn Hpub. destruct (H2 _ _ Hv Hn Hpub) as (c & Hc0 & Htgt). cbn.
      destruct (decide (n = Paths.no_ID node)) as [->|Hne].
      * rewrite lookup_alter_eq, Hc0. by eexists.
      * rewrite lookup_alter_ne by done. by exists c.
Qed.
(** A heartbeat replaces the row of its node, and touches no configuration. *)
Lemma heartbeat_cases before s gnow newid hb s' :
  RecordHeartbeat before s gnow newid hb = Ok s' ->
  exists node row, Paths.GetNode before (hb_NodeName hb) = Ok node /\ hr_NodeID row = Paths.no_ID node
    /\ t_versions s' = t_versions s /\ t_status s' = t_status s
    /\ t_heartbeats s !! newid = None
    /\ t_heartbeats s' = match t_latest s !! Paths.no_ID node with
                         | Some old => delete old (<[newid := row]> (t_heartbeats s))
                         | None => <[newid := row]> (t_heartbeats s) end
    /\ t_latest s' = <[Paths.no_ID node := newid]> (match t_latest s !! Paths.no_ID node with
                                                    | Some old => filter (fun kv => kv.2 <> old) (t_latest s)
                                                    | None => t_latest s end)
    /\ t_registry s' = (if (Paths.no_Status node =? "pending")%string
                        then with_nodes (t_registry s) (promote (Paths.no_Name node) <$> Paths.nodes (t_registry s)) else t_registry s).
Proof.
  unfold RecordHeartbeat, resolve. destruct (Paths.GetNode before _) as [node|]; [|done]. unfold heartbeat_tx. cbv zeta.
  unfold CreateNodeHeartbeat. destruct (bool_decide (is_Some (t_heartbeats s !! newid))) eqn:Hnew; [done|].
  apply bool_decide_eq_false in Hnew. destruct (negb (_ || _ || _)); [|done].
  unfold UpsertNodeLatestHeartbeat, DeleteCurrentNodeHeartbeat. cbn [t_latest set_heartbeats].
  destruct (negb (existsb _ _)); [|done]. intros [= <-]. exists node. eexists. split; [done|]. split; [|].
  2:{ destruct (t_latest s !! Paths.no_ID node) as [old|]; destruct (Paths.no_Status node =? "pending")%string; cbn;
      (split_and!; [done|done|by apply eq_None_not_Some|reflexivity|done|done]). }
  done.
Qed.
Record beats_ok (s : tables) : Prop := {
  bo_latest : forall n id, t_latest s !! n = Some id -> exists row, t_heartbeats s !! id = Some row /\ hr_NodeID row = n;
  bo_only : forall id row, t_heartbeats s !! id = Some row -> t_latest s !! hr_NodeID row = Some id;
}.
Lemma heartbeat_beats before s gnow newid hb s' : beats_ok s -> RecordHeartbeat before s gnow newid hb = Ok s' -> beats_ok s'.
Proof.
  intros [Hl Ho] Hr. destruct (heartbeat_cases _ _ _ _ _ _ Hr) as (node & row & _ & Hnode & _ & _ & Hnone & Hh & Hlat & _).
  assert (Hold : forall n id, t_latest s !! n = Some id -> id <> newid).
  { intros n id Hx ->. destruct (Hl _ _ Hx) as (r & Hrr & _). by rewrite Hnone in Hrr. }
  assert (Hrows : forall id r, t_heartbeats s' !! id = Some r <->
    id = newid /\ r = row \/ t_heartbeats s !! id = Some r /\ hr_NodeID r <> Paths.no_ID node).
  { intros id r. rewrite Hh. destruct (t_latest s !! Paths.no_ID node) as [old|] eqn:El.
    - rewrite lookup_delete_Some, lookup_insert_Some. split.
      + intros [Hne [[<- <-]|[Hne' Hx]]]; [by left|]. right. split; [done|]. intros Heq. apply Hne.
        pose proof (Ho _ _ Hx) as Hx'. rewrite Heq, El in Hx'. by injection Hx' as <-.
      + intros [[-> ->]|[Hx Hne]]; [split; [by apply (Hold _ _ El)|by left]|]. split.
        * intros ->. destruct (Hl _ _ El) as (r' & Hr' & Heq). rewrite Hx in Hr'. injection Hr' as <-. done.
        * right. split; [|done]. intros ->. by rewrite Hnone in Hx.
    - rewrite lookup_insert_Some. split.
      + intros [[<- <-]|[Hne' Hx]]; [by left|]. right. split; [done|]. intros Heq. pose proof (Ho _ _ Hx) as Hx'. by rewrite Heq, El in Hx'.
      + intros [[-> ->]|[Hx Hne]]; [by left|]. right. split; [|done]. intros ->. by rewrite Hnone in Hx. }
  assert (Hptr : forall n, n <> Paths.no_ID node -> t_latest s' !! n = t_latest s !! n).
  { intros n Hne. rewrite Hlat, lookup_insert_ne by done. destruct (t_latest s !! Paths.no_ID node) as [old|] eqn:El; [|done].
    destruct (t_latest s !! n) as [id|] eqn:En.
    - rewrite map_lookup_filter_Some. split; [done|]. cbn. intros ->.
      destruct (Hl _ _ El) as (r & Hrr & E1), (Hl _ _ En) as (r' & Hr' & E2). congruence.
    - apply map_lookup_filter_None. by left. }
  split.
  - intros n id Hn. destruct (decide (n = Paths.no_ID node)) as [->|Hne].
    + rewrite Hlat, lookup_insert_eq in Hn. injection Hn as <-. exists row. split; [|done]. apply Hrows. by left.
    + rewrite Hptr in Hn by done. destruct (Hl _ _ Hn) as (r & Hrr & Heq). exists r. split; [|done]. apply Hrows. right. split; [done|congruence].
  - intros id r Hid%Hrows. destruct Hid as [[-> ->]|[Hx Hne]].
    + by rewrite Hnode, Hlat, lookup_insert_eq.
    + rewrite Hptr by done. by apply Ho.
Qed.
End steps.

(** ** What the server promises *)
Section promises.
Context `{OperationEnv}.

(** Every request, in any order; other parts of the server may change nodes. *)
Inductive config_step (s : tables) : tables -> Prop :=
| step_publish snow newid name raw s' r : PublishConfig s snow newid name raw = Ok (s', r) -> config_step s s'
| step_apply snow r s' : RecordApplyResult s snow r = Ok s' -> config_step s s'
| step_heartbeat before gnow newid hb s' : RecordHeartbeat before s gnow newid hb = Ok s' -> config_step s s'
| step_registry r seen : config_step s (set_nodes s r seen).
Record config_start (s : tables) : Prop := {
  cst_versions : t_versions s = ∅; cst_status : t_status s = ∅; cst_heartbeats : t_heartbeats s = ∅; cst_latest : t_latest s = ∅;
}.
Lemma same_rows_inv s s' : t_versions s' = t_versions s -> t_status s' = t_status s -> config_inv s -> config_inv s'.
Proof. intros Hv Hs [[Hu Hh Hp Hc] Ht]. split; [split|]; unfold targets_ok in *; rewrite ?Hv, ?Hs; done. Qed.
Lemma publish_beats s snow newid name raw s' r :
  PublishConfig s snow newid name raw = Ok (s', r) -> t_heartbeats s' = t_heartbeats s /\ t_latest s' = t_latest s.
Proof.
  unfold PublishConfig. destruct (resolve _ _) as [node|]; [|done]. cbv zeta. destruct (GetConfigVersionByHash _ _ _) as [[id v]|].
  - intros [= <- _]. split; reflexivity.
  - unfold CreateConfigVersion. cbv zeta. destruct (negb _); [|done]. intros [= <- _]. split; reflexivity.
Qed.
Lemma config_step_inv s s' : config_step s s' -> config_inv s /\ beats_ok s -> config_inv s' /\ beats_ok s'.
Proof.
  intros [snow newid name raw s1 r Hp|snow r s1 Hr|before gnow newid hb s1 Hb|r seen] [Hi Hb0].
  - split; [by eapply publish_config_inv|]. destruct (publish_beats _ _ _ _ _ _ _ Hp) as [E1 E2]. destruct Hb0. split; rewrite ?E1, ?E2; done.
  - split; [by eapply apply_result_inv|]. destruct (apply_result_cases _ _ _ _ Hr) as (? & ? & ? & _ & _ & -> & _). by destruct Hb0.
  - split; [|by eapply heartbeat_beats]. destruct (heartbeat_cases _ _ _ _ _ _ Hb) as (? & ? & _ & _ & Hv & Hs & _). by apply (same_rows_inv s).
  - split; [by apply (same_rows_inv s)|]. by destruct Hb0.
Qed.
Lemma steps_inv s s' : rtc config_step s s' -> config_inv s /\ beats_ok s -> config_inv s' /\ beats_ok s'.
Proof. induction 1 as [|s s1 s2 Hs _ IH]; [done|]. intros Hi. by apply IH, (config_step_inv s). Qed.
Lemma config_start_inv s : config_start s -> config_inv s /\ beats_ok s.
Proof. intros [Hv Hs Hh Hl]. unfold config_inv, targets_ok. split; [split; [split|]|split]; rewrite ?Hv, ?Hs, ?Hh, ?Hl; set_solver. Qed.
Definition config_reachable (s : tables) : Prop := exists s0, config_start s0 /\ rtc config_step s0 s.
Lemma config_reachable_inv s : config_reachable s -> config_inv s /\ beats_ok s.
Proof. intros (s0 & H0 & Hs). by eapply steps_inv; [|apply config_start_inv]. Qed.

(** A version is never deleted, renumbered or changed in content. *)
Lemma version_kept s s' id v :
  config_inv s -> config_step s s' -> t_versions s !! id = Some v ->
  exists v', t_versions s' !! id = Some v' /\ cv_NodeID v' = cv_NodeID v /\ cv_Version v' = cv_Version v
    /\ cv_ConfigHash v' = cv_ConfigHash v /\ cv_ConfigJson v' = cv_ConfigJson v.
Proof.
  intros Hi [snow newid name raw s1 [pid created] Hp|snow r s1 Hr|before gnow newid hb s1 Hb|r seen] Hv; [| | |by exists v].
  - destruct (publish_config_cases _ _ _ _ _ _ _ _ Hi Hp) as (node & s2 & w & _ & -> & _ & _ & _ & _ & _ & _ & Hc).
    assert (Hv2 : t_versions s2 !! id = Some v).
    { destruct created; [|by subst s2]. destruct Hc as (-> & Hnone & -> & _). rewrite lookup_insert_ne; [done|]. intros ->. by rewrite Hnone in Hv. }
    destruct (published_kept s2 snow (Paths.no_ID node) pid _ _ Hv2) as (v' & Hv' & _). exists v'.
    destruct (published_row _ _ _ _ _ _ Hv') as (v0 & Hv0 & E1 & E2 & E3 & E4 & _). rewrite Hv2 in Hv0. injection Hv0 as <-. by split_and!.
  - destruct (apply_result_cases _ _ _ _ Hr) as (? & ? & ? & _ & _ & -> & _). by exists v.
  - destruct (heartbeat_cases _ _ _ _ _ _ Hb) as (? & ? & _ & _ & -> & _). by exists v.
Qed.

(** C36: no two versions of a node share a number or a content hash; the
    published ones are exactly the targets of their nodes, so that a node has at
    most one; and a node's current version, if it reported one, is one of its
    own. *)
Theorem one_published_version_per_node s : config_reachable s ->
  (forall i j v w, t_versions s !! i = Some v -> t_versions s !! j = Some w -> cv_NodeID v = cv_NodeID w ->
     cv_Version v = cv_Version w \/ cv_ConfigHash v = cv_ConfigHash w \/ (cv_Status v = vs_published /\ cv_Status w = vs_published) -> i = j) /\
  (forall id v, t_versions s !! id = Some v ->
     cv_Status v = vs_published <-> exists c, t_status s !! cv_NodeID v = Some c /\ cs_TargetConfigVersionID c = Some id) /\
  (forall n c cur, t_status s !! n = Some c -> cs_CurrentConfigVersionID c = Some cur -> exists w, t_versions s !! cur = Some w /\ cv_NodeID w = n).
Proof.
  intros [[Hok Ht] _]%config_reachable_inv. split; [|split].
  - intros i j v w Hv Hw Hn [Hor|[Hor|[Hpv Hpw]]]; [by eapply vo_unique; eauto..|].
    destruct (proj2 (Ht (cv_NodeID v)) _ _ Hv eq_refl Hpv) as (c & Hc & Hct).
    destruct (proj2 (Ht (cv_NodeID v)) _ _ Hw (eq_sym Hn) Hpw) as (c' & Hc' & Hct'). congruence.
  - intros id v Hv. split; [by apply (proj2 (Ht (cv_NodeID v)))|].
    intros (c & Hc & Hct). destruct (proj1 (Ht (cv_NodeID v)) _ _ Hc Hct) as (v' & Hv' & _ & Hp). congruence.
  - intros n c cur. apply (vo_current _ Hok).
Qed.

(** versions are addressed by content: publishing again what was ever
    published for a node, whatever happened in between, creates no row and
    makes the version of the first time the target again. *)
Theorem republishing_restores_the_version s0 s1 s2 snow newid name raw id created snow' newid' :
  config_reachable s0 -> PublishConfig s0 snow newid name raw = Ok (s1, (id, created)) -> rtc config_step s1 s2 ->
  Paths.GetNode (t_registry s2) name = Paths.GetNode (t_registry s0) name ->
  exists s3 v, PublishConfig s2 snow' newid' name raw = Ok (s3, (id, false))
    /\ dom (t_versions s3) = dom (t_versions s2)
    /\ t_versions s3 !! id = Some v /\ cv_Status v = vs_published /\ cv_ConfigHash v = SHA256Hex raw
    /\ cs_TargetConfigVersionID <$> t_status s3 !! cv_NodeID v = Some (Some id).
Proof.
  intros Hr0 Hp Hs Hnode. destruct (config_reachable_inv _ Hr0) as [Hi0 Hb0].
  destruct (config_step_inv _ _ (step_publish _ _ _ _ _ _ _ Hp) (conj Hi0 Hb0)) as [Hi1 Hb1].
  destruct (publish_config_cases _ _ _ _ _ _ _ _ Hi0 Hp) as (node & sx & v & Hget & -> & _ & _ & Hv & Hn & Hh & _).
  destruct (published_kept sx snow (Paths.no_ID node) id _ _ Hv) as (v1 & Hv1 & _).
  destruct (published_row _ _ _ _ _ _ Hv1) as (v0 & Hv0 & E1 & _ & E3 & _). rewrite Hv in Hv0. injection Hv0 as <-.
  assert (Hk : exists v2, t_versions s2 !! id = Some v2 /\ cv_NodeID v2 = Paths.no_ID node /\ cv_ConfigHash v2 = SHA256Hex raw).
  { clear Hnode Hp. rewrite Hn in E1. rewrite Hh in E3. clear Hv Hn Hh v.
    remember (publishConfigVersion sx snow (Paths.no_ID node) id) as sa eqn:Esa. clear Esa sx. revert v1 Hv1 E1 E3.
    induction Hs as [sa|sa sb sc Hstep Hs IH]; intros v1 Hv1 E1 E3; [by exists v1|].
    destruct (config_step_inv _ _ Hstep (conj Hi1 Hb1)) as [Hib Hbb].
    destruct (version_kept _ _ _ _ Hi1 Hstep Hv1) as (vb & Hvb & F1 & _ & F3 & _). eapply IH; [done|done|exact Hvb|congruence|congruence]. }
  destruct Hk as (v2 & Hv2 & Hn2 & Hh2). destruct (steps_inv _ _ Hs (conj Hi1 Hb1)) as [[Hok2 Ht2] _].
  unfold PublishConfig, resolve. rewrite Hnode, Hget. cbv zeta.
  destruct (GetConfigVersionByHash s2 (Paths.no_ID node) (SHA256Hex raw)) as [[id3 v3]|] eqn:Ef;
    [|exfalso; by eapply find_no_version].
  destruct (find_version _ _ _ _ _ Ef) as (Hv3 & Hn3 & Hh3).
  assert (id3 = id) as -> by (eapply (vo_unique _ Hok2); [exact Hv3|exact Hv2|congruence|right; congruence]).
  eexists. destruct (published_kept s2 snow' (Paths.no_ID node) id _ _ Hv2) as (v4 & Hv4 & E4 & _ & Hpub). exists v4.
  destruct (published_row _ _ _ _ _ _ Hv4) as (v5 & Hv5 & _ & _ & G3 & _). rewrite Hv2 in Hv5. injection Hv5 as <-.
  split_and!; [done| |done|by apply Hpub|congruence|].
  - apply set_eq. intros j. rewrite !elem_of_dom. split; intros [x Hx].
    + destruct (published_row _ _ _ _ _ _ Hx) as (y & Hy & _). by eexists.
    + destruct (published_kept s2 snow' (Paths.no_ID node) id _ _ Hx) as (y & Hy & _). by eexists.
  - rewrite E4, Hn2. cbn. by rewrite lookup_insert_eq.
Qed.

(** a heartbeat says a node is alive, and no more: it leaves exactly one
    heartbeat row for the node and the rows of other nodes alone, and the only
    status it ever changes is from pending to active: whatever the node's row
    was when the handler read it, a disabled or deleted node is not revived. *)
Theorem heartbeat_never_revives_a_node before s gnow newid hb s' :
  config_reachable s -> RecordHeartbeat before s gnow newid hb = Ok s' ->
  (exists node row, Paths.GetNode before (hb_NodeName hb) = Ok node /\ t_heartbeats s' !! newid = Some row /\ hr_NodeID row = Paths.no_ID node
     /\ forall id r, t_heartbeats s' !! id = Some r ->
          if decide (hr_NodeID r = Paths.no_ID node) then id = newid else t_heartbeats s !! id = Some r)
  /\ forall k n, Paths.nodes (t_registry s) !! k = Some n ->
       exists n', Paths.nodes (t_registry s') !! k = Some n'
         /\ (n' = n \/ Paths.no_Status n = "pending"%string /\ Paths.no_DeletedAt n = None /\ Paths.no_Status n' = "active"%string).
Proof.
  intros [_ Hb]%config_reachable_inv Hr. pose proof (heartbeat_beats _ _ _ _ _ _ Hb Hr) as Hb'.
  destruct (heartbeat_cases _ _ _ _ _ _ Hr) as (node & row & Hnode & Hrow & _ & _ & Hnone & Hh & Hl & Hreg). split.
  - assert (Hptr : t_latest s' !! Paths.no_ID node = Some newid) by (by rewrite Hl, lookup_insert_eq).
    destruct (bo_latest _ Hb' _ _ Hptr) as (r & Hrr & Hn). exists node, r. split_and!; [done..|]. intros id r' Hr'. case_decide as Hd.
    + pose proof (bo_only _ Hb' _ _ Hr') as Hx. rewrite Hd, Hptr in Hx. by injection Hx as <-.
    + assert (Hne : id <> newid) by (intros ->; rewrite Hrr in Hr'; by injection Hr' as <-).
      rewrite Hh in Hr'. destruct (t_latest s !! Paths.no_ID node); [apply lookup_delete_Some in Hr' as [_ Hr']|]; by rewrite lookup_insert_ne in Hr'.
  - intros k n Hk. rewrite Hreg. destruct (Paths.no_Status node =? "pending")%string; [|by exists n; split; [|left]].
    cbn. rewrite lookup_fmap, Hk. eexists. split; [done|]. unfold promote.
    destruct ((Paths.no_Name n =? Paths.no_Name node)%string && negb (bool_decide (is_Some (Paths.no_DeletedAt n)))
              && (Paths.no_Status n =? "pending")%string) eqn:Ep; [|by left].
    apply andb_true_iff in Ep as [[_ Hd%negb_true_iff%bool_decide_eq_false]%andb_true_iff Hp%String.eqb_eq]. right. split_and!; [done| |done].
    by apply eq_None_not_Some.
Qed.
End promises.

(** ** A node with two versions *)
#[local] Existing Instance test_env.
Definition cv_node (status : string) : Paths.Node := {|
  Paths.no_ID := "n1"; Paths.no_Name := "edge"; Paths.no_Hosts := []; Paths.no_Status := status; Paths.no_DeletedAt := None |}.
Definition cv_registry (status : string) : Paths.tables := {|
  Paths.paths := ∅; Paths.endpoints := ∅; Paths.path_accesses := []; Paths.path_group_members := ∅;
  Paths.nodes := {["n1"%string := cv_node status]}; Paths.node_name_aliases := ∅;
  Paths.proxies := ∅; Paths.proxy_users := ∅; Paths.bindings := ∅; Paths.credentials := ∅ |}.
Definition cv_start : tables := {| t_registry := cv_registry "pending"; t_seen := ∅; t_versions := ∅; t_status := ∅;
  t_heartbeats := ∅; t_latest := ∅ |}.
Definition cv_publish (s : tables) (t : Z) (id raw : string) : tables :=
  match PublishConfig s (clock t) id "edge" raw with Ok (s, _) => s | Err _ => s end.
Definition cv_one : tables := cv_publish cv_start 0 "v1" "first".
Definition cv_result : ApplyResult := {| ar_NodeName := "edge"; ar_ConfigVersionID := "v1"; ar_ConfigHash := "hfirst";
    ar_Status := "applied"; ar_Error := "" |}.
Definition cv_applied : tables :=
  match RecordApplyResult cv_one (clock 1) cv_result with Ok s => s | Err _ => cv_one end.
Definition cv_two : tables := cv_publish cv_applied 2 "v2" "second".
Definition cv_beat : Heartbeat := {| hb_NodeName := "edge"; hb_AgentVersion := "1"; hb_SingBoxVersion := "1"; hb_Status := "ok";
  hb_MemoryBytes := 1; hb_RxBytes := 1; hb_TxBytes := 1; hb_Payload := "{}"; hb_ReportedAt := "" |}.
Example versions_ex :
  ((fun v => (cv_Version v, cv_Status v)) <$> t_versions cv_two !! "v1"%string, (fun v => (cv_Version v, cv_Status v)) <$> t_versions cv_two !! "v2"%string,
   (fun c => (cs_TargetConfigVersionID c, cs_CurrentConfigVersionID c, cs_LastApplyStatus c)) <$> t_status cv_two !! "n1"%string)
  = (Some (1, vs_superseded), Some (2, vs_published), Some (Some "v2", Some "v1", as_pending))%string.
Proof. vm_compute. reflexivity. Qed.

Lemma cv_start_ok : config_start cv_start.
Proof. split; reflexivity. Qed.
Lemma cv_one_step : config_step cv_start cv_one.
Proof. eapply (step_publish _ (clock 0) "v1" "edge" "first"). vm_compute. reflexivity. Qed.
Lemma cv_two_steps : rtc config_step cv_one cv_two.
Proof.
  eapply rtc_l with (y := cv_applied).
  - apply (step_apply cv_one (clock 1) cv_result cv_applied). vm_compute. reflexivity.
  - apply rtc_once. eapply (step_publish _ (clock 2) "v2" "edge" "second"). vm_compute. reflexivity.
Qed.
Lemma cv_two_reach : config_reachable cv_two.
Proof. exists cv_start. split; [apply cv_start_ok|]. eapply rtc_l; [apply cv_one_step|apply cv_two_steps]. Qed.

Lemma one_published_version_per_node_witness :
  (cv_Status <$> t_versions cv_two !! "v2"%string = Some vs_published) /\ size (t_versions cv_two) = 2%nat /\
  forall i v, t_versions cv_two !! i = Some v -> cv_NodeID <$> t_versions cv_two !! "v2"%string = Some (cv_NodeID v) -> cv_Status v = vs_published -> i = "v2"%string.
Proof.
  split; [vm_compute; reflexivity|]. split; [vm_compute; reflexivity|].
  destruct (t_versions cv_two !! "v2"%string) as [w|] eqn:Hw; [|vm_compute in Hw; discriminate].
  intros i v Hv Hn Hp. destruct (one_published_version_per_node cv_two cv_two_reach) as [H _]. apply (H i "v2"%string v w Hv Hw); [by injection Hn as ->|].
  right. right. split; [exact Hp|]. vm_compute in Hw. by injection Hw as <-.
Defined.
Lemma republishing_restores_the_version_witness :
  exists s3 v, PublishConfig cv_two (clock 5) "v3" "edge" "first" = Ok (s3, ("v1"%string, false))
    /\ t_versions s3 !! "v1"%string = Some v /\ cv_Status v = vs_published.
Proof.
  destruct (republishing_restores_the_version cv_start cv_one cv_two (clock 0) "v1" "edge" "first" "v1" true (clock 5) "v3")
    as (s3 & v & Hp & _ & Hv & Hs & _);
    [by exists cv_start; split; [apply cv_start_ok|apply rtc_refl]|vm_compute; reflexivity|apply cv_two_steps|vm_compute; reflexivity|].
  exists s3, v. split; [exact Hp|]. split; [exact Hv|exact Hs].
Defined.
(** The administrator disables the node while its first heartbeat is under way. *)
Definition cv_disabled : tables := set_nodes cv_two (cv_registry "disabled") ∅.
Lemma heartbeat_never_revives_a_node_witness :
  exists s', RecordHeartbeat (cv_registry "pending") cv_disabled (clock 9) "hb1" cv_beat = Ok s'
    /\ exists n', Paths.nodes (t_registry s') !! "n1"%string = Some n'
        /\ (n' = cv_node "disabled" \/ Paths.no_Status (cv_node "disabled") = "pending"%string
            /\ Paths.no_DeletedAt (cv_node "disabled") = None /\ Paths.no_Status n' = "active"%string).
Proof.
  destruct (RecordHeartbeat (cv_registry "pending") cv_disabled (clock 9) "hb1" cv_beat) as [s'|e] eqn:Hr; [|vm_compute in Hr; discriminate].
  exists s'. split; [reflexivity|].
  destruct (heartbeat_never_revives_a_node (cv_registry "pending") cv_disabled (clock 9) "hb1" cv_beat s') as [_ H];
    [|exact Hr|apply (H "n1"%string (cv_node "disabled")); vm_compute; reflexivity].
  destruct cv_two_reach as (s0 & H0 & Hs). exists s0. split; [exact H0|].
  eapply rtc_r; [exact Hs|]. apply step_registry.
Defined.
