(* ===== verification/ConfigCycle.v ===== *)
(** * The agent's configuration cycle
    ([once] of [src/internal/agent/agent.go], [src/internal/agent/service_manager.go])

    Once per poll the agent fetches its configuration, validates it, swaps it
    in, restarts sing-box and watches it come up, rolling back when it does
    not.  The node is its files and its service; how every call to the system
    or the server ends is decided by an oracle of [answer]s, one per call. *)
From S2P Require Import Prelude GoStrings Effects.

#[local] Open Scope Z_scope.

Inductive InitSystem := InitSystemSystemd | InitSystemOpenRC.
#[export] Instance InitSystem_eq_dec : EqDecision InitSystem.
Proof. solve_decision. Defined.

(** What a cycle does that others can see. *)
Inductive event :=
| EvRestart | EvStop                                   (* a command to the service manager *)
| EvProbe (state : option string)                      (* the state it gave; [None]: none *)
| EvApply (status hash : string) | EvHeartbeat (status : string).   (* a report that was sent *)
#[export] Instance event_eq_dec : EqDecision event.
Proof. solve_decision. Defined.

Record node := {
  n_config : option string;       (* the file sing-box is started with *)
  n_last_good : option string;    (* the same with .last-good *)
  n_candidate : option string;    (* and with .candidate *)
  n_applied : string;             (* AppliedConfigHash of the state file *)
  n_loaded : option string;       (* what the service was last started with; [None]: stopped *)
  n_confirmed : bool;             (* heartbeatConfirmed *)
  n_log : list event
}.
Definition set_config (n : node) (c : option string) : node :=
  {| n_config := c; n_last_good := n_last_good n; n_candidate := n_candidate n; n_applied := n_applied n;
     n_loaded := n_loaded n; n_confirmed := n_confirmed n; n_log := n_log n |}.
Definition set_last_good (n : node) (c : option string) : node :=
  {| n_config := n_config n; n_last_good := c; n_candidate := n_candidate n; n_applied := n_applied n;
     n_loaded := n_loaded n; n_confirmed := n_confirmed n; n_log := n_log n |}.
Definition set_candidate (n : node) (c : option string) : node :=
  {| n_config := n_config n; n_last_good := n_last_good n; n_candidate := c; n_applied := n_applied n;
     n_loaded := n_loaded n; n_confirmed := n_confirmed n; n_log := n_log n |}.
Definition set_applied (n : node) (h : string) : node :=
  {| n_config := n_config n; n_last_good := n_last_good n; n_candidate := n_candidate n; n_applied := h;
     n_loaded := n_loaded n; n_confirmed := n_confirmed n; n_log := n_log n |}.
Definition set_loaded (n : node) (c : option string) : node :=
  {| n_config := n_config n; n_last_good := n_last_good n; n_candidate := n_candidate n; n_applied := n_applied n;
     n_loaded := c; n_confirmed := n_confirmed n; n_log := n_log n |}.
Definition set_confirmed (n : node) (b : bool) : node :=
  {| n_config := n_config n; n_last_good := n_last_good n; n_candidate := n_candidate n; n_applied := n_applied n;
     n_loaded := n_loaded n; n_confirmed := b; n_log := n_log n |}.
Definition logged (e : event) (n : node) : node :=
  {| n_config := n_config n; n_last_good := n_last_good n; n_candidate := n_candidate n; n_applied := n_applied n;
     n_loaded := n_loaded n; n_confirmed := n_confirmed n; n_log := n_log n ++ [e] |}.

Record answer := {
  a_ok : bool;          (* the call returned no error *)
  a_done : bool;        (* its context was done when it returned *)
  a_effect : bool;      (* a command to the service manager that failed took effect all the same *)
  a_state : string      (* what the service manager printed *)
}.

Inductive CycleError :=
| FetchFailed | StateUnreadable | StateUnwritable | WriteFailed | CheckFailed
| RestartFailed (uncertain : bool) | ContextDone | NotActive | StopFailed
| NoPrevious (e : CycleError) | LastGoodUnreadable (e : CycleError) | RestoreFailed (e : CycleError)
| RollbackRestartFailed (e : CycleError) | RolledBack (e : CycleError).

Abbreviation M := (eff node CycleError).
Definition get : M node := fun s => (Ok s.1, s).
Definition modify (f : node -> node) : M unit := fun s => (Ok tt, (f s.1, s.2)).

Record ConfigResponse := { cr_Data : string; cr_VersionID : string; cr_Hash : string; cr_State : string }.

Section agent.
(** [bytesSHA256Hex]; [openrc_script]: the service's script exists;
    [attempts]: how often the retry library probes while waiting. *)
Variables (bytesSHA256Hex : string -> string) (initSystem : InitSystem) (openrc_script : bool) (initialSync : bool)
  (attempts : nat) (oracle : nat -> answer).

Definition ask : M answer := fun s => (Ok (oracle s.2), (s.1, S s.2)).
(** ctx.Err() != nil *)
Definition context_done : M bool := a ← ask; mret (a_done a).

(** *** Files *)
Definition read (file : node -> option string) : M (option string) :=
  a ← ask; n ← get; mret (if a_ok a then file n else None).
(** atomicWrite *)
Definition write (update : node -> option string -> node) (data : string) : M unit :=
  a ← ask; if a_ok a then modify (fun n => update n (Some data)) else fail WriteFailed.
Definition LoadState : M string := a ← ask; n ← get; if a_ok a then mret (n_applied n) else fail StateUnreadable.
Definition SaveState (applied : string) : M unit :=
  a ← ask; if a_ok a then modify (fun n => set_applied n applied) else fail StateUnwritable.

(** *** The service manager *)
Definition observed (a : answer) : option string :=
  match initSystem with
  | InitSystemOpenRC => if a_ok a then Some "active"%string else if openrc_script then Some "inactive"%string else None
  | InitSystemSystemd => if a_ok a then Some (TrimSpace (a_state a)) else None
  end.
Definition serviceActiveState : M (option string) :=
  a ← ask;
  modify (logged (EvProbe (observed a)));;
  mret (observed a).
(** A command: when it succeeds it took effect. *)
Definition command (e : event) (f : node -> node) : M answer :=
  a ← ask;
  modify (logged e);;
  (if a_ok a || a_effect a then modify f else mret tt);;
  mret a.
Definition restartService : M unit :=
  a ← command EvRestart (fun n => set_loaded n (n_config n));
  if a_done a then serviceActiveState;; fail (RestartFailed true)
  else if a_ok a then mret tt else fail (RestartFailed false).
Definition stopService : M unit :=
  a ← command EvStop (fun n => set_loaded n None);
  if a_ok a then mret tt else fail StopFailed.
(** retry.Do: [true] when the service was seen active *)
Fixpoint wait (n : nat) : M bool :=
  match n with
  | O => mret false
  | S n =>
      s ← serviceActiveState;
      if bool_decide (s = Some "active"%string) then mret true
      else done ← context_done; if (done : bool) then mret false else wait n
  end.
Definition restartSingBoxVerified : M unit :=
  restartService;;
  active ← wait attempts;
  if (active : bool) then mret tt
  else
    done ← context_done;
    if (done : bool) then fail ContextDone
    else
      s ← serviceActiveState;
      match s with
      | None => mret tt
      | Some _ => fail NotActive
      end.
(** The error it reports. *)
Definition rollbackToLastGoodConfig (applyErr : CycleError) (haveLastGood : bool) : M CycleError :=
  if negb haveLastGood then mret (NoPrevious applyErr)
  else
    lastGood ← read n_last_good;
    match lastGood with
    | None => mret (LastGoodUnreadable applyErr)
    | Some lastGood =>
        w ← attempt (write set_config lastGood);
        match w with
        | Err _ => mret (RestoreFailed applyErr)
        | Ok _ =>
            r ← attempt restartSingBoxVerified;
            match r with
            | Err _ => mret (RollbackRestartFailed applyErr)
            | Ok _ => mret (RolledBack applyErr)
            end
        end
    end.
Definition singBoxConfirmedDown : M bool :=
  s ← serviceActiveState;
  mret (bool_decide (s = Some "inactive"%string) || bool_decide (s = Some "failed"%string)).
Definition singBoxConfirmedActive : M bool :=
  s ← serviceActiveState; mret (bool_decide (s = Some "active"%string)).

(** *** Reports: whether the server accepted it *)
Definition post (e : event) : M bool := a ← ask; modify (logged e);; mret (a_ok a).
Definition ReportApplyResult (response : ConfigResponse) (status : string) : M bool :=
  if (cr_VersionID response =? "")%string then mret true else post (EvApply status (cr_Hash response)).
(** Traffic, connections and logs keep their own state and change nothing here. *)
Definition other_report : M unit := ask;; mret tt.
Definition confirmHeartbeat : M unit := modify (fun n => set_confirmed n true).

Definition reportRuntimeState (response : ConfigResponse) : M unit :=
  ok ← post (EvHeartbeat "ok");
  (if (ok : bool) then confirmHeartbeat else mret tt);;
  ReportApplyResult response "applied";;
  other_report;; other_report;; other_report;; other_report;;
  if (cr_Hash response =? "")%string then mret tt
  else
    state ← attempt LoadState;
    match state with
    | Err _ => mret tt
    | Ok _ => attempt (SaveState (cr_Hash response));; mret tt
    end.
Definition finishConfigCycle (response : ConfigResponse) : M unit :=
  if initialSync then LoadState;; SaveState (cr_Hash response)
  else reportRuntimeState response.

Definition applyDisabled (response : ConfigResponse) : M unit :=
  down ← singBoxConfirmedDown;
  (if (down : bool) then mret tt
   else
     other_report;;
     r ← attempt stopService;
     match r with
     | Ok _ => mret tt
     | Err e => post (EvHeartbeat "disabled");; fail e
     end);;
  if initialSync then mret tt
  else ok ← post (EvHeartbeat "disabled"); if (ok : bool) then confirmHeartbeat else mret tt.

Definition is_uncertain (e : CycleError) : bool :=
  match e with RestartFailed true => true | _ => false end.
Definition with_hash (response : ConfigResponse) : ConfigResponse :=
  if (cr_Hash response =? "")%string
  then {| cr_Data := cr_Data response; cr_VersionID := cr_VersionID response;
          cr_Hash := bytesSHA256Hex (cr_Data response); cr_State := cr_State response |}
  else response.

(** The bytes are already on disk. *)
Definition refresh (response : ConfigResponse) (applied : string) : M unit :=
  active ← (if (applied =? cr_Hash response)%string then singBoxConfirmedActive else mret false);
  if (active : bool) then finishConfigCycle response
  else
    r ← attempt restartSingBoxVerified;
    match r with
    | Err e => ReportApplyResult response "failed";; fail e
    | Ok _ => finishConfigCycle response
    end.
(** They are not. *)
Definition replace (response : ConfigResponse) (current : option string) : M unit :=
  write set_candidate (cr_Data response);;
  check ← ask;
  modify (fun n => set_candidate n None);;
  if negb (a_ok check) then ReportApplyResult response "failed";; fail CheckFailed
  else
    match current with
    | Some bytes => write set_last_good bytes
    | None => mret tt
    end;;
    write set_config (cr_Data response);;
    r ← attempt restartSingBoxVerified;
    match r with
    | Ok _ => finishConfigCycle response
    | Err e =>
        done ← (if is_uncertain e then mret true else context_done);
        if (done : bool) then fail e
        else
          applyErr ← rollbackToLastGoodConfig e (bool_decide (is_Some current));
          ReportApplyResult response "failed";;
          fail applyErr
    end.
(** [fetched]: FetchConfigVersioned *)
Definition once (fetched : option ConfigResponse) : M unit :=
  modify (fun n => set_confirmed n false);;
  match fetched with
  | None => fail FetchFailed
  | Some response =>
      applied ← LoadState;
      if (cr_State response =? "disabled")%string then applyDisabled response
      else
        let response := with_hash response in
        current ← read n_config;
        if match current with
           | Some bytes => (TrimSpace bytes =? TrimSpace (cr_Data response))%string
           | None => false
           end
        then refresh response applied
        else replace response current
  end.
End agent.

Definition is_some {A} (o : option A) : bool := match o with Some _ => true | None => false end.

(** ** Rules *)
Section rules.
Variables (bytesSHA256Hex : string -> string) (initSystem : InitSystem) (openrc_script initialSync : bool)
  (attempts : nat) (oracle : nat -> answer).
Implicit Types (P : node -> Prop) (n : node).
Abbreviation O := (outcome (W := node) (Er := CycleError)).
Abbreviation probe := (serviceActiveState initSystem openrc_script oracle).
Abbreviation restart := (restartSingBoxVerified initSystem openrc_script attempts oracle).

(** What an answer may be. *)
Lemma outcome_ask P Q : (forall k n, P n -> Q (Ok (oracle k)) n) -> O P (ask oracle) Q.
Proof. intros HQ [n k] Hp. by apply HQ. Qed.
Lemma outcome_modify P f Q : (forall n, P n -> Q (Ok tt) (f n)) -> O P (modify f) Q.
Proof. intros HQ [n k] Hp. by apply HQ. Qed.
Lemma outcome_get P Q : (forall n, P n -> Q (Ok n) n) -> O P get Q.
Proof. intros HQ [n k] Hp. by apply HQ. Qed.
Lemma outcome_done P : O P (context_done oracle) (fun r n => P n /\ is_ok r = true).
Proof.
  eapply outcome_then with (R := fun _ => P); [by apply outcome_ask|]. intros a. by apply outcome_ret.
Qed.

(** The files, and what is not about the service. *)
Record same_files (n n' : node) : Prop := {
  sf_config : n_config n' = n_config n; sf_last_good : n_last_good n' = n_last_good n;
  sf_candidate : n_candidate n' = n_candidate n; sf_applied : n_applied n' = n_applied n;
  sf_confirmed : n_confirmed n' = n_confirmed n;
}.
(** The log has grown by events that are [Ev]. *)
Definition grown (Ev : event -> Prop) (n n' : node) : Prop := exists l, n_log n' = n_log n ++ l /\ Forall Ev l.
Lemma grown_refl Ev n : grown Ev n n.
Proof. exists []. by rewrite app_nil_r. Qed.
Lemma grown_trans Ev n1 n2 n3 : grown Ev n1 n2 -> grown Ev n2 n3 -> grown Ev n1 n3.
Proof. intros (l1 & E1 & F1) (l2 & E2 & F2). exists (l1 ++ l2). rewrite E2, E1, app_assoc. split; [done|by apply Forall_app]. Qed.
Lemma grown_one (Ev : event -> Prop) n n' e : n_log n' = n_log n ++ [e] -> Ev e -> grown Ev n n'.
Proof. intros E He. exists [e]. split; [done|by apply Forall_singleton]. Qed.
Lemma grown_weaken (Ev Ev' : event -> Prop) n n' : (forall e, Ev e -> Ev' e) -> grown Ev n n' -> grown Ev' n n'.
Proof. intros Hi (l & E & F). exists l. split; [done|]. by eapply Forall_impl. Qed.
Definition is_probe (e : event) : Prop := match e with EvProbe _ => True | _ => False end.
Definition is_service (e : event) : Prop := match e with EvRestart | EvProbe _ => True | _ => False end.
(** The service was last seen active, or could not be seen. *)
Definition came_up (n : node) : Prop := exists l s, n_log n = l ++ [EvProbe s] /\ (s = Some "active"%string \/ s = None).

Lemma probes_service n n' : grown is_probe n n' -> grown is_service n n'.
Proof. apply grown_weaken. by intros []. Qed.
(** A node of which only the log has grown. *)
Record watched (n n' : node) : Prop := {
  wt_files : same_files n n'; wt_loaded : n_loaded n' = n_loaded n; wt_log : grown is_probe n n';
}.
Lemma watched_refl n : watched n n.
Proof. by split; [split| |apply grown_refl]. Qed.
Lemma watched_trans n1 n2 n3 : watched n1 n2 -> watched n2 n3 -> watched n1 n3.
Proof. intros [[? ? ? ? ?] ? ?] [[? ? ? ? ?] ? ?]. split; [split; congruence|congruence|by eapply grown_trans]. Qed.
Lemma probe_spec n0 : O (watched n0) probe (fun r n => watched n0 n /\ exists s l, r = Ok s /\ n_log n = l ++ [EvProbe s]).
Proof.
  eapply outcome_then with (R := fun _ => watched n0); [by apply outcome_ask|]. intros a. generalize (observed initSystem openrc_script a). intros st.
  eapply outcome_then with (R := fun _ n => watched n0 n /\ exists l, n_log n = l ++ [EvProbe st]).
  - apply outcome_modify. intros n Hn. split; [|by eexists]. eapply watched_trans; [exact Hn|].
    split; [by split|done|by eapply grown_one].
  - intros _. apply outcome_ret. intros n [Hn (l & Hl)]. split; [done|by eexists st, l].
Qed.
Lemma wait_spec n0 k : O (watched n0) (wait initSystem openrc_script oracle k) (fun r n => watched n0 n /\
  match r with Ok true => came_up n | Ok false => True | Err _ => False end).
Proof.
  induction k as [|k IH]; cbn [wait]; [by apply outcome_ret|].
  eapply outcome_then with (R := fun s n => watched n0 n /\ exists l, n_log n = l ++ [EvProbe s]).
  { eapply outcome_weaken; [done| |apply probe_spec]. intros r n (Hn & s & l & -> & Hl). split; [done|by exists l]. }
  intros s. apply outcome_case.
  - intros Hs%bool_decide_eq_true. apply outcome_ret. intros n [Hn (l & Hl)]. split; [done|]. exists l, s. by split; [|left].
  - intros _. eapply outcome_then with (R := fun _ => watched n0).
    { eapply outcome_weaken; [| |apply (outcome_done (watched n0))]; [by intros n [? _]|]. intros [b|e] n [Hn Hr]; done. }
    intros [|]; [by apply outcome_ret|exact IH].
Qed.

(** A restart, watched: the files stay; when it succeeds the service runs what
    is on disk and was seen active, unless it could not be seen. *)
Record restarted (n n' : node) : Prop := {
  rs_files : same_files n n'; rs_log : grown is_service n n';
}.
Definition is_restart_error (e : CycleError) : Prop :=
  match e with RestartFailed _ | ContextDone | NotActive => True | _ => False end.
Lemma restart_spec n0 : O (eq n0) restart (fun r n => restarted n0 n /\
  match r with
  | Ok _ => n_loaded n = n_config n0 /\ came_up n
  | Err e => is_restart_error e /\ (n_loaded n = n_config n0 \/ n_loaded n = n_loaded n0 /\ exists u, e = RestartFailed u)
  end).
Proof.
  unfold restartSingBoxVerified.
  eapply outcome_then with (R := fun _ n => restarted n0 n /\ n_loaded n = n_config n0).
  { unfold restartService, command.
    eapply outcome_then with (R := fun a n => restarted n0 n /\ (n_loaded n = n_config n0 \/ n_loaded n = n_loaded n0 /\ a_ok a = false)).
    - eapply outcome_then with (R := fun _ => eq n0); [by apply outcome_ask|]. intros a.
      eapply outcome_then with (R := fun _ => eq (logged EvRestart n0)); [by apply outcome_modify; intros n <-|]. intros [].
      eapply outcome_then with (R := fun _ n => restarted n0 n /\ (n_loaded n = n_config n0 \/ n_loaded n = n_loaded n0 /\ a_ok a = false));
        [|intros []; by apply outcome_ret].
      apply outcome_case; intros Ha.
      + apply outcome_modify. intros n <-. split; [split; [by split|by eapply grown_one]|by left].
      + apply outcome_ret. intros n <-. apply orb_false_iff in Ha as [Ha _]. split; [split; [by split|by eapply grown_one]|by right].
    - intros a. apply outcome_case; intros Hd.
      + apply outcome_then with (R := fun _ n => restarted n0 n /\ (n_loaded n = n_config n0 \/ n_loaded n = n_loaded n0)).
        * intros [n k] [Hn Hl]. pose proof (probe_spec n (n, k) (watched_refl n)) as Hp. destruct (probe (n, k)) as [r [n' k']].
          destruct Hp as [[Hf Hld Hg] (s & l & -> & _)]. destruct Hn as [Hf0 Hg0]. cbn in *. split.
          -- split; [destruct Hf, Hf0; split; congruence|eapply grown_trans; [exact Hg0|by apply probes_service]].
          -- rewrite Hld. destruct Hl as [?|[? _]]; [by left|by right].
        * intros _. apply outcome_fail. intros n [Hn Hl]. split; [done|]. split; [done|]. destruct Hl; [by left|right; split; [done|by eexists]].
      + apply outcome_case; intros Ha; [apply outcome_ret|apply outcome_fail]; intros n [Hn Hl].
        * split; [done|]. destruct Hl as [?|[_ Hl]]; [done|by rewrite Hl in Ha].
        * split; [done|]. split; [done|]. destruct Hl as [?|[? _]]; [by left|right; split; [done|by eexists]]. }
  intros _. set (P := fun n => restarted n0 n /\ n_loaded n = n_config n0).
  assert (Hwatch : forall {A} (m : M A) Q, (forall n1, O (watched n1) m (fun r n => watched n1 n /\ Q r n)) -> O P m (fun r n => P n /\ Q r n)).
  { intros A m Q Hm [n k] [[Hf Hg] Hl]. pose proof (Hm n (n, k) (watched_refl n)) as H1. destruct (m (n, k)) as [r [n' k']].
    destruct H1 as [[Hf' Hl' Hg'] HQ]. split; [|done]. split; [|cbn in *; congruence]. split; [destruct Hf, Hf'; split; cbn in *; congruence|eapply grown_trans; [exact Hg|by apply probes_service]]. }
  eapply outcome_then with (R := fun (b : bool) n => P n /\ if b then came_up n else True).
  { eapply outcome_weaken; [done| |apply Hwatch; intros n1; apply wait_spec]. intros [b|e] n [Hn Hr]; [split; [done|by destruct b]|done]. }
  intros [|]; [apply outcome_ret; intros n [[Hn Hl] Hup]; by split|].
  eapply outcome_then with (R := fun _ => P).
  { eapply outcome_weaken; [| |apply (outcome_done P)]; [by intros n [? _]|]. intros [b|e] n [Hn Hr]; done. }
  intros [|]; [apply outcome_fail; intros n [Hn Hl]; split; [done|]; split; [done|by left]|].
  eapply outcome_then with (R := fun s n => P n /\ exists l, n_log n = l ++ [EvProbe s]).
  { eapply outcome_weaken; [done| |apply Hwatch; intros n1; apply probe_spec]. intros r n (Hn & s & l & -> & Hl). split; [done|by exists l]. }
  intros [s|]; [apply outcome_fail|apply outcome_ret]; intros n [[Hn Hl] (l & Hlog)].
  - split; [done|]. split; [done|by left].
  - split; [done|]. split; [done|]. exists l, None. by split; [|right].
Qed.

(** *** Reports *)
Definition is_report (hash : string) (e : event) : Prop :=
  match e with EvHeartbeat _ => True | EvApply status h => status = "applied"%string /\ h = hash | _ => False end.
Record reported (hash : string) (n n' : node) : Prop := {
  rp_config : n_config n' = n_config n; rp_last_good : n_last_good n' = n_last_good n; rp_loaded : n_loaded n' = n_loaded n;
  rp_applied : n_applied n' = n_applied n \/ n_applied n' = hash; rp_log : grown (is_report hash) n n';
}.
Lemma reported_refl h n : reported h n n.
Proof. split; try done; [by left|apply grown_refl]. Qed.
Lemma reported_trans h n1 n2 n3 : reported h n1 n2 -> reported h n2 n3 -> reported h n1 n3.
Proof.
  intros [C1 G1 L1 A1 K1] [C2 G2 L2 A2 K2]. split; try congruence; [|by eapply grown_trans].
  destruct A2 as [->|]; [done|by right].
Qed.
Lemma post_spec h n0 e : is_report h e -> O (reported h n0) (post oracle e) (fun r n => reported h n0 n /\ is_ok r = true).
Proof.
  intros He. eapply outcome_then with (R := fun _ => reported h n0); [by apply outcome_ask|]. intros a.
  eapply outcome_then with (R := fun _ => reported h n0); [|intros []; by apply outcome_ret].
  apply outcome_modify. intros n Hn. eapply reported_trans; [exact Hn|]. split; try done; [by left|by eapply grown_one].
Qed.
Lemma report_spec response n0 : O (reported (cr_Hash response) n0) (reportRuntimeState oracle response)
  (fun r n => r = Ok tt /\ reported (cr_Hash response) n0 n).
Proof.
  set (h := cr_Hash response). unfold reportRuntimeState.
  assert (Hpost : forall e, is_report h e -> O (reported h n0) (post oracle e) (fun r n => match r with Ok _ => reported h n0 n | Err _ => False end)).
  { intros e He. eapply outcome_weaken; [done| |by apply (post_spec h)]. intros [b|e'] n [Hn Hr]; done. }
  assert (Hmod : forall f, (forall n, n_config (f n) = n_config n /\ n_last_good (f n) = n_last_good n /\ n_loaded (f n) = n_loaded n
      /\ (n_applied (f n) = n_applied n \/ n_applied (f n) = h) /\ n_log (f n) = n_log n) ->
    O (reported h n0) (modify f) (fun r n => match r with Ok _ => reported h n0 n | Err _ => False end)).
  { intros f Hf. apply outcome_modify. intros n Hn. eapply reported_trans; [exact Hn|]. destruct (Hf n) as (? & ? & ? & ? & Hl).
    split; try done. exists []. by rewrite app_nil_r. }
  assert (Hor : forall (b : bool) (m : M unit), O (reported h n0) m (fun r n => match r with Ok _ => reported h n0 n | Err _ => False end) ->
    O (reported h n0) (if b then m else mret tt) (fun r n => match r with Ok _ => reported h n0 n | Err _ => False end)).
  { intros [] m Hm; [done|by apply outcome_ret]. }
  assert (Hother : O (reported h n0) (other_report oracle) (fun r n => match r with Ok _ => reported h n0 n | Err _ => False end)).
  { eapply outcome_then with (R := fun _ => reported h n0); [by apply outcome_ask|]. intros a. by apply outcome_ret. }
  assert (Hseq : forall {A B} (m : M A) (k : A -> M B) (Q : result CycleError B -> node -> Prop),
    O (reported h n0) m (fun r n => match r with Ok _ => reported h n0 n | Err _ => False end) ->
    (forall a, O (reported h n0) (k a) Q) -> O (reported h n0) (m ≫= k) Q).
  { intros A B m k Q Hm Hk. eapply outcome_then; [|exact Hk]. eapply outcome_weaken; [done| |exact Hm]. by intros [a|e] n. }
  apply Hseq; [by apply Hpost|]. intros ok. apply Hseq; [apply Hor, Hmod; intros n; split_and!; auto|]. intros _.
  apply Hseq; [unfold ReportApplyResult; destruct (_ =? _)%string; [by apply outcome_ret|by apply Hpost]|]. intros _.
  do 4 (apply Hseq; [exact Hother|]; intros _).
  apply outcome_case; intros Hh; [by apply outcome_ret|].
  eapply outcome_then with (R := fun _ => reported h n0).
  { eapply outcome_weaken; [done| |apply (outcome_attempt (reported h n0) (LoadState oracle) (fun _ => reported h n0))].
    - by intros [r|e] n.
    - apply Hseq; [by apply outcome_ask|]. intros a. apply Hseq; [by apply outcome_get|]. intros n.
      apply outcome_case; intros _; [by apply outcome_ret|by apply outcome_fail]. }
  intros [x|e]; [|by apply outcome_ret].
  eapply outcome_then with (R := fun _ => reported h n0); [|intros _; by apply outcome_ret].
  eapply outcome_weaken; [done| |apply (outcome_attempt (reported h n0) (SaveState oracle h) (fun _ => reported h n0))].
  - by intros [r|e] n.
  - apply Hseq; [by apply outcome_ask|]. intros a. apply outcome_case; intros _; [|by apply outcome_fail].
    eapply outcome_weaken; [done| |apply (Hmod (fun n => set_applied n h))]; [by intros [r|e] n|]. intros n. cbn. split_and!; auto.
Qed.

(** *** Swapping a configuration in *)
Definition is_quiet (e : event) : Prop := match e with EvApply status _ => status = "failed"%string | EvStop => False | _ => True end.
Lemma service_quiet e : is_service e -> is_quiet e.
Proof. by destruct e. Qed.
(** What is on disk, and what the service runs, once the cycle has failed
    with [e]: [current] is what could be read, [data] what was fetched. *)
Definition aftermath (n0 : node) (current : option string) (data : string) (e : CycleError) (n : node) : Prop :=
  match e with
  | WriteFailed | CheckFailed => n_config n = n_config n0 /\ n_loaded n = n_loaded n0
  | RestartFailed _ | ContextDone | NotActive =>
      n_config n = Some data /\ n_last_good n = match current with Some b => Some b | None => n_last_good n0 end
  | RolledBack e' => is_some current = true /\ is_uncertain e' = false /\ is_restart_error e' /\ n_config n = current /\ n_loaded n = current
  | RollbackRestartFailed _ => is_some current = true /\ n_config n = current
  | NoPrevious _ => current = None /\ n_config n = Some data
  | LastGoodUnreadable _ | RestoreFailed _ => is_some current = true /\ n_config n = Some data
  | _ => False
  end.
(** The new bytes are in place, and nothing was restarted yet. *)
Record swapped (n0 : node) (current : option string) (data : string) (n : node) : Prop := {
  sw_config : n_config n = Some data; sw_last_good : n_last_good n = match current with Some b => Some b | None => n_last_good n0 end;
  sw_applied : n_applied n = n_applied n0; sw_loaded : n_loaded n = n_loaded n0; sw_log : n_log n = n_log n0;
}.
(** The outcome of the swap itself. *)
Definition prepared (n0 : node) (current : option string) (n : node) : Prop :=
  n_config n = n_config n0 /\ n_last_good n = match current with Some b => Some b | None => n_last_good n0 end
  /\ n_applied n = n_applied n0 /\ n_loaded n = n_loaded n0 /\ n_log n = n_log n0.

Lemma file_write_spec P upd data (Q : result CycleError unit -> node -> Prop) :
  (forall n, P n -> Q (Ok tt) (upd n (Some data))) -> (forall n, P n -> Q (Err WriteFailed) n) -> O P (write oracle upd data) Q.
Proof.
  intros Hok Herr. unfold write. eapply outcome_then with (R := fun _ => P); [by apply outcome_ask|]. intros a.
  apply outcome_case; intros _; [by apply outcome_modify|by apply outcome_fail].
Qed.
Lemma failed_report_spec response P (Q : node -> Prop) :
  (forall n, P n -> Q n) -> (forall n h, P n -> Q (logged (EvApply "failed" h) n)) ->
  O P (ReportApplyResult oracle response "failed") (fun r n => is_ok r = true /\ Q n).
Proof.
  intros Hsame Hlog. unfold ReportApplyResult. apply outcome_case; intros _; [apply outcome_ret; intros n Hn; by split; [|apply Hsame]|].
  eapply outcome_then with (R := fun _ => P); [by apply outcome_ask|]. intros a.
  eapply outcome_then with (R := fun _ => Q); [apply outcome_modify; intros n Hn; by apply Hlog|]. intros []. by apply outcome_ret.
Qed.
(** A failure is reported, and remains the failure. *)
Lemma fail_reported {A} response e P (Q : result CycleError A -> node -> Prop) :
  (forall n, P n -> Q (Err e) n) -> (forall n h, P n -> Q (Err e) (logged (EvApply "failed" h) n)) ->
  O P (ReportApplyResult oracle response "failed";; fail e) Q.
Proof.
  intros Hsame Hlog. eapply outcome_then with (R := fun _ => Q (Err e)); [|intros _; by apply outcome_fail].
  eapply outcome_weaken; [exact (fun w Hw => Hw)| |apply (failed_report_spec response P (Q (Err e)) Hsame Hlog)]. intros [b|e'] n [Hr Hn]; done.
Qed.

Ltac verdict := cbn; split_and!; try done; try (by intros []).
Lemma rollback_spec n0 current data e n1 :
  is_restart_error e -> is_uncertain e = false ->
  n_config n1 = Some data -> n_last_good n1 = match current with Some b => Some b | None => n_last_good n0 end ->
  n_applied n1 = n_applied n0 -> grown is_service n0 n1 ->
  O (eq n1) (rollbackToLastGoodConfig initSystem openrc_script attempts oracle e (bool_decide (is_Some current)))
    (fun r n => exists e', r = Ok e' /\ aftermath n0 current data e' n /\ n_applied n = n_applied n0 /\ grown is_service n0 n
       /\ ~ is_restart_error e' /\ (match e' with RolledBack _ => came_up n | _ => True end)).
Proof.
  intros He Hu Hc Hg Ha Hl. unfold rollbackToLastGoodConfig. destruct current as [b|].
  2:{ rewrite bool_decide_false by (by intros [? ?]). apply outcome_ret. intros n <-. exists (NoPrevious e). verdict. }
  rewrite bool_decide_true by done. cbn [negb].
  eapply outcome_then with (R := fun x n => n = n1 /\ (x = None \/ x = Some b)).
  { unfold read. eapply outcome_then with (R := fun _ => eq n1); [by apply outcome_ask|]. intros a.
    eapply outcome_then with (R := fun x n => n = n1 /\ x = n1); [by apply outcome_get; intros n <-|]. intros x.
    apply outcome_ret. intros n [-> ->]. split; [done|]. rewrite Hg. destruct (a_ok a); [by right|by left]. }
  intros [lg|]; [|apply outcome_ret; intros n [-> _]; exists (LastGoodUnreadable e); verdict].
  eapply outcome_then with (R := fun w n => match w with Ok _ => n = set_config n1 (Some b) | Err _ => n = n1 end).
  { eapply outcome_weaken; [exact (fun w Hw => Hw)| |apply outcome_attempt, (file_write_spec _ _ _ (fun r n => match r with Ok _ => n = set_config n1 (Some b) | Err _ => n = n1 end))].
    - intros [[x|x]|x] n Hx; [exact Hx|exact Hx|destruct Hx].
    - intros n [-> [Heq|[= ->]]]; done.
    - by intros n [-> _]. }
  intros [[]|x]; [|apply outcome_ret; intros n ->; exists (RestoreFailed e); verdict].
  eapply outcome_then with (R := fun r n => restarted (set_config n1 (Some b)) n /\ match r with Ok _ => n_loaded n = Some b /\ came_up n | Err _ => True end).
  { eapply outcome_weaken; [| |apply outcome_attempt, (restart_spec (set_config n1 (Some b)))].
    - by intros n ->.
    - intros [r|x] n; [|done]. intros [Hrs Hr]. split; [done|]. destruct r; [exact Hr|done]. }
  intros [[]|x]; apply outcome_ret; intros n [[[Fc Fg _ Fa _] Hlog] Hr].
  - exists (RolledBack e). cbn in Fa, Fc. verdict; cbn; [by destruct Hr as [-> _]|congruence|by eapply grown_trans|by destruct Hr].
  - exists (RollbackRestartFailed e). cbn in Fa, Fc. verdict; cbn; [congruence|by eapply grown_trans].
Qed.

(** The service's last observation is [came_up]; only reports follow. *)
Definition verified (hash : string) (n : node) : Prop := exists n', came_up n' /\ reported hash n' n.

(** The outcome of a cycle with new bytes, for a node that stays up. *)
Definition replaced (n0 : node) (current : option string) (response : ConfigResponse) (r : result CycleError unit) (n : node) : Prop :=
  match r with
  | Ok _ => n_config n = Some (cr_Data response) /\ n_loaded n = Some (cr_Data response) /\ verified (cr_Hash response) n
            /\ (n_applied n = n_applied n0 \/ n_applied n = cr_Hash response)
            /\ grown (fun e => is_service e \/ is_report (cr_Hash response) e) n0 n
  | Err e => n_applied n = n_applied n0 /\ grown is_quiet n0 n /\ aftermath n0 current (cr_Data response) e n
             /\ match e with RolledBack _ => exists n', came_up n' /\ (n = n' \/ exists h, n = logged (EvApply "failed" h) n') | _ => True end
  end.

Lemma replace_spec n0 current response :
  initialSync = false ->
  match current with Some b => n_config n0 = Some b | None => True end ->
  O (eq n0) (replace initSystem openrc_script initialSync attempts oracle response current) (replaced n0 current response).
Proof.
  intros Hsync Hcur. unfold replace. set (data := cr_Data response).
  (* the candidate *)
  set (C := fun n => n_config n = n_config n0 /\ n_last_good n = n_last_good n0 /\ n_applied n = n_applied n0 /\ n_loaded n = n_loaded n0 /\ n_log n = n_log n0).
  assert (Hquiet : forall n, n_log n = n_log n0 -> grown is_quiet n0 n) by (intros n Hn; exists []; by rewrite app_nil_r).
  eapply outcome_then with (R := fun _ => C).
  { apply file_write_spec; intros n <-; [done|]. cbn. split_and!; try done. by apply Hquiet. }
  intros _. eapply outcome_then with (R := fun _ => C); [by apply outcome_ask|]. intros check.
  eapply outcome_then with (R := fun _ => C); [by apply outcome_modify|]. intros _.
  apply outcome_case; intros _.
  { apply (fail_reported response CheckFailed C).
    - intros n (H1 & H2 & H3 & H4 & H5). cbn. split_and!; try done. by apply Hquiet.
    - intros n h (H1 & H2 & H3 & H4 & H5). cbn. split_and!; try done. exists [EvApply "failed" h]. cbn. rewrite H5. split; [done|by apply Forall_singleton]. }
  (* the last good one *)
  set (G := prepared n0 current).
  eapply outcome_then with (R := fun _ => G).
  { destruct current as [b|].
    - apply file_write_spec; intros n (H1 & H2 & H3 & H4 & H5); [by split_and!|]. cbn. split_and!; try done. by apply Hquiet.
    - apply outcome_ret. intros n (H1 & H2 & H3 & H4 & H5). by split_and!. }
  intros _. set (S := swapped n0 current data).
  eapply outcome_then with (R := fun _ => S).
  { apply file_write_spec; intros n (H1 & H2 & H3 & H4 & H5); [by split|]. cbn. split_and!; try done. by apply Hquiet. }
  intros _.
  eapply outcome_then with (R := fun r n => exists n1, S n1 /\ restarted n1 n /\ match r with
     | Ok _ => n_loaded n = n_config n1 /\ came_up n | Err e => is_restart_error e end).
  { eapply outcome_weaken; [exact (fun w Hw => Hw)| |apply outcome_attempt, (outcome_from S); intros n1 _; apply restart_spec].
    intros [r|x] n; [|done]. intros (n1 & Hn1 & Hrs & Hr). exists n1. split_and!; [done..|]. destruct r; [done|by destruct Hr]. }
  intros [[]|e].
  - unfold finishConfigCycle. rewrite Hsync. intros [n k] (n1 & [Hc Hg Ha Hl Hlog] & [Hf Hgr] & Hld & Hup).
    pose proof (report_spec response n (n, k) (reported_refl _ n)) as Hr.
    destruct (reportRuntimeState oracle response (n, k)) as [r [n' k']]. destruct Hr as [-> Hrep]. cbn in *.
    unfold data in Hc. destruct Hf as [Fc Fg _ Fa _]. pose proof Hrep as [Rc Rg Rl Ra Rlog]. split_and!; [congruence|congruence|by exists n|destruct Ra; [left|right]; congruence|].
    assert (Hgr' : grown is_service n0 n) by (destruct Hgr as (l & E & F); exists l; split; [congruence|done]).
    eapply grown_trans; [eapply grown_weaken; [|exact Hgr']|eapply grown_weaken; [|exact Rlog]]; intros; [by left|by right].
  - set (E := fun n => is_restart_error e /\ n_config n = Some data
        /\ n_last_good n = match current with Some b => Some b | None => n_last_good n0 end /\ n_applied n = n_applied n0 /\ grown is_service n0 n).
    assert (HE : forall n, (exists n1, S n1 /\ restarted n1 n /\ is_restart_error e) -> E n).
    { intros n (n1 & [Hc Hg Ha Hl Hlog] & [[Fc Fg _ Fa _] Hgr] & He). split_and!; [done|congruence|congruence|congruence|].
      destruct Hgr as (l & E1 & F1). exists l. split; [congruence|done]. }
    eapply outcome_then with (R := fun (d : bool) n => E n /\ (is_uncertain e = true -> d = true)).
    { apply outcome_case; intros Hu; [apply outcome_ret; intros n Hn; by split; [apply HE|]|].
      eapply outcome_weaken; [| |apply (outcome_done E)]; [exact HE|]. intros [b|x] n [Hn Hr]; [split; [done|by rewrite Hu]|done]. }
    intros [|].
    + apply outcome_fail. intros n [(He & Hc & Hg & Ha & Hgr) _]. cbn. split_and!; [done| | |by destruct e].
      * eapply grown_weaken; [|exact Hgr]. apply service_quiet.
      * destruct e; done.
    + eapply outcome_then with (R := fun e' n => aftermath n0 current data e' n /\ n_applied n = n_applied n0 /\ grown is_service n0 n
        /\ ~ is_restart_error e' /\ (match e' with RolledBack _ => came_up n | _ => True end)).
      { eapply outcome_weaken; [exact (fun w Hw => Hw)| |apply (outcome_from _ _ (fun n1 r n => exists e', r = Ok e' /\ aftermath n0 current data e' n
          /\ n_applied n = n_applied n0 /\ grown is_service n0 n /\ ~ is_restart_error e' /\ (match e' with RolledBack _ => came_up n | _ => True end)))].
        - intros r n (n1 & _ & e' & -> & H'). exact H'.
        - intros n1 [(He & Hc & Hg & Ha & Hgr) Hu]. apply rollback_spec; try done. by destruct (is_uncertain e); [discriminate Hu|]. }
      intros e'. apply fail_reported.
      * intros n (Haft & Ha & Hgr & Hne & Hup). cbn. split_and!; [done| |done|].
        -- eapply grown_weaken; [|exact Hgr]. apply service_quiet.
        -- destruct e'; try done. exists n. by split; [|left].
      * intros n h (Haft & Ha & Hgr & Hne & Hup). cbn. split_and!; [done| | |].
        -- eapply grown_trans; [eapply grown_weaken; [|exact Hgr]; apply service_quiet|]. by eapply grown_one.
        -- by destruct e'.
        -- destruct e'; try done. exists n. split; [done|]. right. by exists h.
Qed.

(** *** Nodes that stop, and bytes that are there already *)
Lemma disabled_spec n0 response :
  O (eq n0) (applyDisabled initSystem openrc_script initialSync oracle response) (fun r n =>
    n_config n = n_config n0 /\ n_last_good n = n_last_good n0 /\ n_applied n = n_applied n0
    /\ grown (fun e => match e with EvRestart | EvApply _ _ => False | _ => True end) n0 n
    /\ match r with
       | Ok _ => n_loaded n = None
           \/ n_loaded n = n_loaded n0 /\ exists s, EvProbe (Some s) ∈ n_log n /\ (s = "inactive"%string \/ s = "failed"%string)
       | Err e => e = StopFailed
       end).
Proof.
  set (F := fun n => n_config n = n_config n0 /\ n_last_good n = n_last_good n0 /\ n_applied n = n_applied n0
    /\ grown (fun e => match e with EvRestart | EvApply _ _ => False | _ => True end) n0 n).
  set (D := fun n => n_loaded n = None \/ n_loaded n = n_loaded n0 /\ exists s, EvProbe (Some s) ∈ n_log n /\ (s = "inactive"%string \/ s = "failed"%string)).
  assert (Hlog : forall e n, (match e with EvRestart | EvApply _ _ => False | _ => True end) -> F n -> F (logged e n)).
  { intros e n He (H1 & H2 & H3 & H4). split_and!; try done. eapply grown_trans; [exact H4|]. by eapply grown_one. }
  assert (HD : forall e n, D n -> D (logged e n)).
  { intros e n [Hn|[Hn (s & Hs & Hor)]]; [by left|right]. split; [done|]. exists s. split; [|done]. cbn. apply elem_of_app. by left. }
  apply (outcome_weaken (eq n0) (eq n0) _ (fun r n => F n /\ match r with Ok _ => D n | Err e => e = StopFailed end)); [done| |].
  { intros r n [(H1 & H2 & H3 & H4) Hr]. by split_and!. }
  unfold applyDisabled.
  eapply outcome_then with (R := fun (down : bool) n => F n /\ if down then D n else n_loaded n = n_loaded n0).
  { unfold singBoxConfirmedDown.
    eapply outcome_then with (R := fun s n => watched n0 n /\ exists l, n_log n = l ++ [EvProbe s]).
    - eapply outcome_weaken; [| |apply (probe_spec n0)]; [intros n <-; apply watched_refl|].
      intros r n (Hn & s & l & -> & Hl). split; [done|by exists l].
    - intros s. apply outcome_ret. intros n [[Hf Hld Hg] (l & Hl)]. destruct Hf. split; [split_and!; try done|].
      + destruct Hg as (l' & E & Fl). exists l'. split; [done|]. eapply Forall_impl; [exact Fl|]. intros [] He; try done; destruct He.
      + destruct (_ || _) eqn:Es; [|done]. right. split; [done|]. rewrite Hl. setoid_rewrite elem_of_app.
        apply orb_true_iff in Es as [->%bool_decide_eq_true| ->%bool_decide_eq_true]; eexists; (split; [right; constructor|auto]). }
  intros down. eapply outcome_then with (R := fun _ n => F n /\ D n).
  { destruct down; [by apply outcome_ret|].
    set (L := fun n => F n /\ n_loaded n = n_loaded n0).
    eapply outcome_then with (R := fun _ => L); [unfold other_report; eapply outcome_then with (R := fun _ => L); [by apply outcome_ask|intros a; by apply outcome_ret]|].
    intros _. eapply outcome_then with (R := fun r n => F n /\ match r with Ok _ => n_loaded n = None | Err e => e = StopFailed end).
    - eapply outcome_weaken; [exact (fun w Hw => Hw)| |apply (outcome_attempt L (stopService oracle)
        (fun r n => F n /\ match r with Ok _ => n_loaded n = None | Err e => e = StopFailed end))].
      { intros [r|x] n Hn; [exact Hn|destruct Hn]. }
      unfold stopService, command. eapply outcome_then with (R := fun a n => F n /\ (a_ok a = true -> n_loaded n = None)).
      + eapply outcome_then with (R := fun _ => L); [by apply outcome_ask|]. intros a.
        eapply outcome_then with (R := fun _ => L); [apply outcome_modify; intros n [Hn Hl]; split; [by apply Hlog|done]|]. intros [].
        eapply outcome_then with (R := fun _ n => F n /\ (a_ok a = true -> n_loaded n = None)); [|intros []; by apply outcome_ret].
        apply outcome_case; intros Ha.
        * apply outcome_modify. intros n [Hn _]. by split.
        * apply outcome_ret. intros n [Hn _]. split; [done|]. intros Ht. by rewrite Ht in Ha.
      + intros a. apply outcome_case; intros Ha; [apply outcome_ret|apply outcome_fail]; intros n [Hn Hl]; split; auto.
    - intros [[]|e]; [apply outcome_ret; intros n [Hn Hl]; by split; [|left]|].
      eapply outcome_then with (R := fun _ n => F n /\ e = StopFailed); [|intros _; apply outcome_fail; by intros n [? ?]].
      unfold post. eapply outcome_then with (R := fun _ n => F n /\ e = StopFailed); [by apply outcome_ask|]. intros a.
      eapply outcome_then with (R := fun _ n => F n /\ e = StopFailed); [apply outcome_modify; intros n [Hn ?]; by split; [apply Hlog|]|].
      intros []. by apply outcome_ret. }
  intros _. apply outcome_case; intros _; [by apply outcome_ret|].
  eapply outcome_then with (R := fun _ n => F n /\ D n).
  { unfold post. eapply outcome_then with (R := fun _ n => F n /\ D n); [by apply outcome_ask|]. intros a.
    eapply outcome_then with (R := fun _ n => F n /\ D n); [apply outcome_modify; intros n [Hn ?]; by split; [apply Hlog|apply HD]|].
    intros []. by apply outcome_ret. }
  intros [|]; [by apply outcome_modify|by apply outcome_ret].
Qed.

(** On the bytes already there a cycle never touches the files. *)
Record kept (n0 n : node) : Prop := { kp_config : n_config n = n_config n0; kp_last_good : n_last_good n = n_last_good n0 }.
Lemma finish_kept n0 response : O (kept n0) (finishConfigCycle initialSync oracle response) (fun _ => kept n0).
Proof.
  unfold finishConfigCycle. apply outcome_case; intros _.
  - unfold LoadState, SaveState. eapply outcome_then with (R := fun _ => kept n0).
    + eapply outcome_then with (R := fun _ => kept n0); [by apply outcome_ask|]. intros a.
      eapply outcome_then with (R := fun _ => kept n0); [by apply outcome_get|]. intros n.
      apply outcome_case; intros _; [by apply outcome_ret|by apply outcome_fail].
    + intros _. eapply outcome_then with (R := fun _ => kept n0); [by apply outcome_ask|]. intros a.
      apply outcome_case; intros _; [|by apply outcome_fail]. apply outcome_modify. by intros n [? ?].
  - intros [n k] [Hc Hg]. pose proof (report_spec response n (n, k) (reported_refl _ n)) as Hr.
    destruct (reportRuntimeState oracle response (n, k)) as [r [n' k']]. destruct Hr as [_ [Rc Rg _ _ _]]. split; cbn in *; congruence.
Qed.
Lemma refresh_kept n0 response applied :
  O (kept n0) (refresh initSystem openrc_script initialSync attempts oracle response applied) (fun _ => kept n0).
Proof.
  unfold refresh. eapply outcome_then with (R := fun _ => kept n0).
  { apply outcome_case; intros _; [|by apply outcome_ret]. unfold singBoxConfirmedActive.
    eapply outcome_then with (R := fun _ => kept n0); [|intros s; by apply outcome_ret].
    intros [n k] [Hc Hg]. pose proof (probe_spec n (n, k) (watched_refl n)) as Hp. destruct (probe (n, k)) as [r [n' k']].
    destruct Hp as [[[F1 F2 _ _ _] _ _] (s & l & -> & _)]. split; cbn in *; congruence. }
  intros [|]; [apply finish_kept|].
  eapply outcome_then with (R := fun _ => kept n0).
  { eapply outcome_weaken; [exact (fun w Hw => Hw)| |apply (outcome_attempt (kept n0) _ (fun _ => kept n0))].
    - by intros [r|x] n.
    - intros [n k] [Hc Hg]. pose proof (restart_spec n (n, k) eq_refl) as Hr. destruct (restart (n, k)) as [r [n' k']].
      destruct Hr as [[[F1 F2 _ _ _] _] _]. split; cbn in *; congruence. }
  intros [[]|e]; [apply finish_kept|]. apply fail_reported; [done|]. by intros n h [? ?].
Qed.
End rules.

(** ** A healthy node *)
Section healthy.
Variables (bytesSHA256Hex : string -> string) (initSystem : InitSystem) (openrc_script : bool) (attempts : nat) (effect : bool).

(** Every call succeeds, and the service comes up. *)
Definition healthy : nat -> answer := fun _ => {| a_ok := true; a_done := false; a_effect := effect; a_state := "active" |}.
Definition yields {A} (m : M A) (n : node) (a : A) (n' : node) : Prop := forall k, exists k', m (n, k) = (Ok a, (n', k')).
Lemma yields_ret {A} (a : A) n : yields (mret a) n a n.
Proof. intros k. by exists k. Qed.
Lemma yields_bind {A B} (m : M A) (f : A -> M B) n a n1 b n2 : yields m n a n1 -> yields (f a) n1 b n2 -> yields (m ≫= f) n b n2.
Proof. intros Hm Hf k. destruct (Hm k) as [k1 E1]. destruct (Hf k1) as [k2 E2]. exists k2. unfold mbind, eff_bind. by rewrite E1. Qed.
Lemma yields_step {A} f (m : M A) n a n' : yields m (f n) a n' -> yields (modify f;; m) n a n'.
Proof. intros Hm. eapply yields_bind; [|exact Hm]. intros k. by exists k. Qed.
Lemma yields_ask {A} (m : answer -> M A) n a n' : yields (m (healthy 0)) n a n' -> yields (ask healthy ≫= m) n a n'.
Proof. intros Hm. eapply yields_bind; [|exact Hm]. intros k. by exists (S k). Qed.
Lemma yields_attempt {A} (m : M A) n a n' : yields m n a n' -> yields (attempt m) n (Ok a) n'.
Proof. intros Hm k. destruct (Hm k) as [k' E]. exists k'. unfold attempt. by rewrite E. Qed.
Abbreviation active := (Some "active"%string).
Lemma yields_probe n : yields (serviceActiveState initSystem openrc_script healthy) n active (logged (EvProbe active) n).
Proof. apply yields_ask, yields_step. replace (observed _ _ _) with active; [apply yields_ret|by destruct initSystem]. Qed.
Lemma yields_restart n : (0 < attempts)%nat ->
  yields (restartSingBoxVerified initSystem openrc_script attempts healthy) n tt
    (logged (EvProbe active) (set_loaded (logged EvRestart n) (n_config n))).
Proof.
  intros Hat. unfold restartSingBoxVerified. destruct attempts as [|k]; [lia|].
  eapply yields_bind with (n1 := set_loaded (logged EvRestart n) (n_config n)) (a := tt).
  - unfold restartService. eapply yields_bind with (a := healthy 0) (n1 := set_loaded (logged EvRestart n) (n_config n)); [|apply yields_ret].
    apply yields_ask, yields_step. cbn [a_ok healthy orb]. apply yields_step, yields_ret.
  - eapply yields_bind with (a := true) (n1 := logged (EvProbe active) (set_loaded (logged EvRestart n) (n_config n))); [|apply yields_ret].
    cbn [wait]. eapply yields_bind; [apply yields_probe|]. apply yields_ret.
Qed.
Lemma yields_post e n : yields (post healthy e) n true (logged e n).
Proof. apply yields_ask, yields_step, yields_ret. Qed.
Lemma yields_write upd data n : yields (write healthy upd data) n tt (upd n (Some data)).
Proof. apply yields_ask. cbn [a_ok healthy]. intros k. by exists k. Qed.
Definition finished (response : ConfigResponse) (n : node) : node :=
  let n := set_confirmed (logged (EvHeartbeat "ok") n) true in
  set_applied (if (cr_VersionID response =? "")%string then n else logged (EvApply "applied" (cr_Hash response)) n) (cr_Hash response).
Lemma yields_finish response n : cr_Hash response <> ""%string ->
  yields (finishConfigCycle false healthy response) n tt (finished response n).
Proof.
  intros Hh. unfold finishConfigCycle, reportRuntimeState, finished. cbv zeta. set (h := cr_Hash response) in *.
  eapply yields_bind; [apply yields_post|]. apply yields_step with (f := fun n => set_confirmed n true).
  set (n1 := set_confirmed _ true). set (n2 := if (cr_VersionID response =? "")%string then n1 else _).
  eapply yields_bind with (n1 := n2) (a := true).
  { unfold ReportApplyResult, n2. destruct (_ =? _)%string; [apply yields_ret|apply yields_post]. }
  do 4 (eapply yields_bind; [apply yields_ask, yields_ret|]).
  rewrite (proj2 (String.eqb_neq _ _) Hh).
  eapply yields_bind with (n1 := n2) (a := Ok (n_applied n2)).
  { apply yields_attempt, yields_ask. eapply yields_bind with (a := n2) (n1 := n2); [intros k; by exists k|]. apply yields_ret. }
  eapply yields_bind; [|apply yields_ret]. apply yields_attempt, yields_ask. cbn [a_ok healthy]. intros k. by exists k.
Qed.

(** [once], with the response of the server, for a daemon. *)
Abbreviation cycle response := (once bytesSHA256Hex initSystem openrc_script false attempts healthy (Some response)).
Definition same_bytes (current : option string) (data : string) : bool :=
  match current with Some bytes => (TrimSpace bytes =? TrimSpace data)%string | None => false end.
Lemma with_hash_data response : cr_Data (with_hash bytesSHA256Hex response) = cr_Data response.
Proof. unfold with_hash. by destruct (cr_Hash response =? "")%string. Qed.
Definition after_cycle (response : ConfigResponse) (n : node) : node :=
  let r := with_hash bytesSHA256Hex response in
  finished r
    (let n := set_confirmed n false in
     if same_bytes (n_config n) (cr_Data response) then
       logged (EvProbe active)
         (if (n_applied n =? cr_Hash r)%string then n else set_loaded (logged EvRestart n) (n_config n))
     else
       let n := set_candidate (set_candidate n (Some (cr_Data response))) None in
       let n := match n_config n with Some b => set_last_good n (Some b) | None => n end in
       let n := set_config n (Some (cr_Data response)) in
       logged (EvProbe active) (set_loaded (logged EvRestart n) (n_config n))).
Lemma yields_cycle response n :
  (0 < attempts)%nat -> (cr_State response =? "disabled")%string = false ->
  cr_Hash (with_hash bytesSHA256Hex response) <> ""%string ->
  yields (cycle response) n tt (after_cycle response n).
Proof.
  set (r := with_hash bytesSHA256Hex response). intros Hat Hst Hh. unfold once, after_cycle. fold r. apply yields_step. cbv zeta. set (n0 := set_confirmed n false).
  eapply yields_bind with (n1 := n0) (a := n_applied n0).
  { apply yields_ask. eapply yields_bind with (a := n0) (n1 := n0); [intros k; by exists k|]. apply yields_ret. }
  rewrite Hst. fold r.
  eapply yields_bind with (n1 := n0) (a := n_config n0).
  { apply yields_ask. eapply yields_bind with (a := n0) (n1 := n0); [intros k; by exists k|]. apply yields_ret. }
  pose proof (with_hash_data response) as Hdata. fold r in Hdata.
  rewrite Hdata. fold (same_bytes (n_config n0) (cr_Data response)). destruct (same_bytes _ _).
  - unfold refresh. destruct (n_applied n0 =? cr_Hash r)%string eqn:Ea.
    + eapply yields_bind with (a := true) (n1 := logged (EvProbe active) n0); [eapply yields_bind; [apply yields_probe|apply yields_ret]|].
      by apply yields_finish.
    + eapply yields_bind with (a := false) (n1 := n0); [apply yields_ret|].
      eapply yields_bind; [by apply yields_attempt, yields_restart|]. by apply yields_finish.
  - unfold replace. rewrite Hdata. eapply yields_bind; [apply yields_write|]. apply yields_ask.
    apply yields_step with (f := fun n => set_candidate n None). cbn [a_ok healthy negb].
    set (n1 := set_candidate _ None). change (n_config n1) with (n_config n0).
    eapply yields_bind with (a := tt) (n1 := match n_config n0 with Some b => set_last_good n1 (Some b) | None => n1 end).
    { destruct (n_config n0); [apply yields_write|apply yields_ret]. }
    eapply yields_bind; [apply yields_write|]. eapply yields_bind; [by apply yields_attempt, yields_restart|]. by apply yields_finish.
Qed.
Lemma finished_spec r n :
  n_config (finished r n) = n_config n /\ n_last_good (finished r n) = n_last_good n /\ n_loaded (finished r n) = n_loaded n
  /\ n_applied (finished r n) = cr_Hash r /\ n_confirmed (finished r n) = true
  /\ n_log (finished r n) = n_log n ++ EvHeartbeat "ok" :: (if (cr_VersionID r =? "")%string then [] else [EvApply "applied" (cr_Hash r)]).
Proof. unfold finished. destruct (cr_VersionID r =? "")%string; cbn; rewrite <- ?app_assoc; by split_and!. Qed.
Lemma same_bytes_refl data : same_bytes (Some data) data = true.
Proof. apply String.eqb_refl. Qed.
Lemma after_cycle_spec response n :
  let r := with_hash bytesSHA256Hex response in
  let n1 := after_cycle response n in
  same_bytes (n_config n1) (cr_Data response) = true /\ n_applied n1 = cr_Hash r /\ n_confirmed n1 = true
  /\ (same_bytes (n_config n) (cr_Data response) = false \/ n_applied n <> cr_Hash r -> n_loaded n1 = n_config n1)
  /\ (cr_VersionID r <> ""%string -> EvApply "applied" (cr_Hash r) ∈ n_log n1).
Proof.
  cbv zeta. unfold after_cycle. cbv zeta. set (r := with_hash bytesSHA256Hex response).
  match goal with |- context [finished r ?m] => set (n1 := m) end.
  destruct (finished_spec r n1) as (-> & _ & -> & -> & -> & ->).
  assert (Hn1 : same_bytes (n_config n1) (cr_Data response) = true
    /\ (same_bytes (n_config n) (cr_Data response) = false \/ n_applied n <> cr_Hash r -> n_loaded n1 = n_config n1)).
  { subst n1. change (n_config (set_confirmed n false)) with (n_config n). change (n_applied (set_confirmed n false)) with (n_applied n).
    destruct (same_bytes (n_config n) (cr_Data response)) eqn:Es.
    - destruct (n_applied n =? cr_Hash r)%string eqn:Ea; (split; [exact Es|]); [|done].
      apply String.eqb_eq in Ea. by intros [|].
    - cbn. split; [apply same_bytes_refl|done]. }
  destruct Hn1 as [H1 H2]. split_and!; try done. intros Hv. rewrite (proj2 (String.eqb_neq _ _) Hv).
  apply elem_of_app. right. right. left.
Qed.
(** With the same bytes and the recorded hash nothing but reports happens. *)
Lemma after_cycle_rests response n :
  same_bytes (n_config n) (cr_Data response) = true -> n_applied n = cr_Hash (with_hash bytesSHA256Hex response) ->
  let n2 := after_cycle response n in
  n_config n2 = n_config n /\ n_last_good n2 = n_last_good n /\ n_loaded n2 = n_loaded n /\ n_applied n2 = n_applied n
  /\ exists l, n_log n2 = n_log n ++ l /\ EvRestart ∉ l.
Proof.
  intros Hs Ha. cbv zeta. unfold after_cycle. cbv zeta. set (r := with_hash bytesSHA256Hex response) in *.
  change (n_config (set_confirmed n false)) with (n_config n). change (n_applied (set_confirmed n false)) with (n_applied n).
  rewrite Hs, Ha, String.eqb_refl.
  destruct (finished_spec r (logged (EvProbe active) (set_confirmed n false))) as (-> & -> & -> & -> & _ & ->).
  split_and!; try done. cbn [n_log logged set_confirmed]. rewrite <- app_assoc. eexists. split; [done|].
  destruct (cr_VersionID r =? "")%string; cbn [app]; rewrite !not_elem_of_cons; split_and!; try done; apply not_elem_of_nil.
Qed.
End healthy.

(** ** What a cycle promises *)
Section promises.
Variables (bytesSHA256Hex : string -> string) (initSystem : InitSystem) (openrc_script : bool) (attempts : nat).
Abbreviation cycle oracle response := (once bytesSHA256Hex initSystem openrc_script false attempts oracle (Some response)).

(** [once], when the bytes on disk are others. *)
Lemma cycle_new_bytes oracle response n0 :
  (cr_State response =? "disabled")%string = false -> same_bytes (n_config n0) (cr_Data response) = false ->
  outcome (eq n0) (cycle oracle response) (fun r n =>
    (r = Err StateUnreadable /\ n = set_confirmed n0 false)
    \/ exists current, (current = n_config n0 \/ current = None)
        /\ replaced (set_confirmed n0 false) current (with_hash bytesSHA256Hex response) r n).
Proof.
  intros Hst Hne. unfold once. set (n1 := set_confirmed n0 false).
  eapply outcome_then with (R := fun _ => eq n1); [by apply outcome_modify; intros n <-|]. intros _.
  eapply outcome_then with (R := fun _ => eq n1).
  { unfold LoadState. eapply outcome_then with (R := fun _ => eq n1); [by apply outcome_ask|]. intros a.
    eapply outcome_then with (R := fun _ => eq n1); [by apply outcome_get|]. intros n.
    apply outcome_case; intros _; [by apply outcome_ret|]. apply outcome_fail. intros m <-. by left. }
  intros applied. rewrite Hst. cbv zeta.
  eapply outcome_then with (R := fun c n => n = n1 /\ (c = n_config n0 \/ c = None)).
  { unfold read. eapply outcome_then with (R := fun _ => eq n1); [by apply outcome_ask|]. intros a.
    eapply outcome_then with (R := fun x n => n = n1 /\ x = n1); [by apply outcome_get; intros n <-|]. intros x.
    apply outcome_ret. intros n [-> ->]. split; [done|]. destruct (a_ok a); [by left|by right]. }
  intros c. rewrite with_hash_data.
  assert (Hc : forall n, n = n1 /\ (c = n_config n0 \/ c = None) -> same_bytes c (cr_Data response) = false)
    by (intros n [_ [-> | ->]]; done).
  fold (same_bytes c (cr_Data response)). destruct (same_bytes c (cr_Data response)) eqn:Es.
  { intros [n k] Hn. by discriminate (Hc n Hn). }
  clear Hc. eapply outcome_weaken; [exact (fun w Hw => Hw)| |apply (outcome_from _ _ (fun n r m => n = n1 /\ (c = n_config n0 \/ c = None)
      /\ replaced n1 c (with_hash bytesSHA256Hex response) r m))].
  - intros r n (m & _ & -> & Hor & Hr). right. by exists c.
  - intros m [-> Hor]. eapply outcome_weaken; [done| |apply (replace_spec initSystem openrc_script false attempts oracle n1 c); [done|]].
    + intros r n Hr. by split_and!.
    + destruct Hor as [-> | ->]; [|done]. change (n_config n1) with (n_config n0). destruct (n_config n0); reflexivity.
Qed.

(** a configuration that did not come up is never recorded as applied:
    when a cycle that fetched new bytes fails, in whatever way calls to the
    system or the server end, the recorded hash is the old one and no report
    said "applied"; when it succeeds, the service was started with exactly the
    fetched bytes, they are on disk, and it was then seen active (or could not
    be seen at all). *)
Theorem failed_configuration_is_never_recorded oracle response n0 k r n k' :
  (cr_State response =? "disabled")%string = false -> same_bytes (n_config n0) (cr_Data response) = false ->
  cycle oracle response (n0, k) = (r, (n, k')) ->
  match r with
  | Ok _ => n_config n = Some (cr_Data response) /\ n_loaded n = Some (cr_Data response)
            /\ verified (cr_Hash (with_hash bytesSHA256Hex response)) n
  | Err _ => n_applied n = n_applied n0
             /\ exists l, n_log n = n_log n0 ++ l /\ forall h, EvApply "applied" h ∉ l
  end.
Proof.
  intros Hst Hne Hrun. pose proof (cycle_new_bytes oracle response n0 Hst Hne (n0, k) eq_refl) as H. rewrite Hrun in H. cbn in H.
  destruct H as [[-> ->]|(c & _ & H)].
  - split; [done|]. exists []. split; [by rewrite app_nil_r|]. intros h. apply not_elem_of_nil.
  - rewrite <- (with_hash_data bytesSHA256Hex response). destruct r as [u|e]; cbn in H.
    + by destruct H as (H1 & H2 & H3 & _).
    + destruct H as (H1 & (l & H2 & H3) & _). split; [done|]. exists l. split; [done|]. intros h Hin.
      rewrite Forall_forall in H3. specialize (H3 _ Hin). discriminate H3.
Qed.

(** C14: a rollback restores what ran before: if the cycle reports that it
    rolled back, the file and the running service have the previous bytes, the
    service was seen active with them (or could not be seen), and the failure
    that caused it was definite, not one that left the outcome open. *)
Theorem rollback_restores_previous_configuration oracle response n0 k e n k' :
  (cr_State response =? "disabled")%string = false -> same_bytes (n_config n0) (cr_Data response) = false ->
  cycle oracle response (n0, k) = (Err (RolledBack e), (n, k')) ->
  is_restart_error e /\ is_uncertain e = false
  /\ exists previous, n_config n0 = Some previous /\ n_config n = Some previous /\ n_loaded n = Some previous
     /\ exists n', came_up n' /\ (n = n' \/ exists h, n = logged (EvApply "failed" h) n').
Proof.
  intros Hst Hne Hrun. pose proof (cycle_new_bytes oracle response n0 Hst Hne (n0, k) eq_refl) as H. rewrite Hrun in H. cbn in H.
  destruct H as [[[=] _]|(c & Hc & _ & _ & (Hs & Hu & He & H1 & H2) & Hup)].
  split; [done|]. split; [done|]. destruct c as [b|]; [|done]. exists b. destruct Hc as [Hc|Hc]; [|done]. by split_and!.
Qed.

(** a disabled node is stopped and stays configured: no cycle restarts it,
    reports a configuration or touches its files; it succeeds only when the
    service was stopped or seen stopped. *)
Theorem disabled_node_is_stopped oracle response n0 k r n k' :
  (cr_State response =? "disabled")%string = true ->
  cycle oracle response (n0, k) = (r, (n, k')) ->
  n_config n = n_config n0 /\ n_last_good n = n_last_good n0 /\ n_applied n = n_applied n0
  /\ (exists l, n_log n = n_log n0 ++ l /\ Forall (fun e => match e with EvRestart | EvApply _ _ => False | _ => True end) l)
  /\ match r with
     | Ok _ => n_loaded n = None
        \/ n_loaded n = n_loaded n0 /\ exists s, EvProbe (Some s) ∈ n_log n /\ (s = "inactive"%string \/ s = "failed"%string)
     | Err e => e = StopFailed \/ e = StateUnreadable
     end.
Proof.
  intros Hst Hrun. set (n1 := set_confirmed n0 false).
  assert (H : outcome (eq n0) (cycle oracle response) (fun r n =>
    n_config n = n_config n0 /\ n_last_good n = n_last_good n0 /\ n_applied n = n_applied n0
    /\ grown (fun e => match e with EvRestart | EvApply _ _ => False | _ => True end) n0 n
    /\ match r with
       | Ok _ => n_loaded n = None
          \/ n_loaded n = n_loaded n0 /\ exists s, EvProbe (Some s) ∈ n_log n /\ (s = "inactive"%string \/ s = "failed"%string)
       | Err e => e = StopFailed \/ e = StateUnreadable
       end)); [|by specialize (H (n0, k) eq_refl); rewrite Hrun in H].
  unfold once. eapply outcome_then with (R := fun _ => eq n1); [by apply outcome_modify; intros m <-|]. intros _.
  eapply outcome_then with (R := fun _ => eq n1).
  { unfold LoadState. eapply outcome_then with (R := fun _ => eq n1); [by apply outcome_ask|]. intros a.
    eapply outcome_then with (R := fun _ => eq n1); [by apply outcome_get|]. intros m.
    apply outcome_case; intros _; [by apply outcome_ret|]. apply outcome_fail. intros m' <-. split_and!; try done; [exists []; by rewrite app_nil_r|by right]. }
  intros applied. rewrite Hst. eapply outcome_weaken; [done| |apply (disabled_spec initSystem openrc_script false oracle n1)].
  intros [u|e] m (H1 & H2 & H3 & H4 & H5); split_and!; try done. by left.
Qed.


(** Further cycles with the same response. *)
Definition again (response : ConfigResponse) (n n' : node) : Prop :=
  exists oracle k r k', cycle oracle response (n, k) = (r, (n', k')).
Lemma again_keeps response n n' :
  (cr_State response =? "disabled")%string = false -> n_config n = Some (cr_Data response) -> again response n n' ->
  n_config n' = Some (cr_Data response).
Proof.
  intros Hst Hc (oracle & k & r & k' & Hrun). set (K := fun m => n_config m = Some (cr_Data response)).
  assert (H : outcome K (cycle oracle response) (fun _ => K)); [|specialize (H (n, k) Hc); by rewrite Hrun in H].
  unfold once. eapply outcome_then with (R := fun _ => K); [by apply outcome_modify|]. intros _.
  eapply outcome_then with (R := fun _ => K).
  { unfold LoadState. eapply outcome_then with (R := fun _ => K); [by apply outcome_ask|]. intros a.
    eapply outcome_then with (R := fun _ => K); [by apply outcome_get|]. intros m.
    apply outcome_case; intros _; [by apply outcome_ret|by apply outcome_fail]. }
  intros applied. rewrite Hst. cbv zeta.
  eapply outcome_then with (R := fun c m => K m /\ (c = Some (cr_Data response) \/ c = None)).
  { unfold read. eapply outcome_then with (R := fun _ => K); [by apply outcome_ask|]. intros a.
    eapply outcome_then with (R := fun x m => K m /\ n_config x = Some (cr_Data response)); [by apply outcome_get|]. intros x.
    apply outcome_ret. intros m [Hm Hx]. split; [done|]. destruct (a_ok a); [left; exact Hx|by right]. }
  intros c. rewrite with_hash_data. fold (same_bytes c (cr_Data response)). set (r0 := with_hash bytesSHA256Hex response).
  apply outcome_case; intros Hs.
  - intros [m j] [Hm _]. pose proof (refresh_kept initSystem openrc_script false attempts oracle m r0 applied (m, j)) as Hr.
    destruct (refresh _ _ _ _ _ _ _ (m, j)) as [r1 [m' j']]. unfold K. cbn in *. destruct Hr as [Hkc _]; [by split|]. by rewrite Hkc.
  - intros [m j] [Hm Hcc]. cbn in Hm. assert (c = None) as -> by (destruct Hcc as [-> |]; [by rewrite same_bytes_refl in Hs|done]).
    pose proof (replace_spec initSystem openrc_script false attempts oracle m None r0 eq_refl I (m, j) eq_refl) as Hr.
    destruct (replace _ _ _ _ _ _ _ (m, j)) as [r1 [m' j']]. unfold K. cbn in *.
    assert (Hdata : cr_Data r0 = cr_Data response) by apply with_hash_data.
    destruct r1 as [u|e]; cbn in Hr; [destruct Hr as [-> _]; by rewrite Hdata|]. destruct Hr as (_ & _ & Haft & _).
    destruct e; cbn in Haft; try done; rewrite ?Hdata in Haft;
      repeat match goal with H : _ /\ _ |- _ => destruct H end; congruence.
Qed.

(** a restart whose outcome stayed open forfeits the rollback for good:
    the file it leaves has the new bytes while [.last-good] has the previous
    ones; but every later cycle with the same response takes the path for
    "nothing to roll back to" and, however definitely the service fails on the
    new bytes, leaves them in place. *)
Theorem uncertain_restart_forfeits_rollback oracle response n0 k e n1 k1 n2 :
  (cr_State response =? "disabled")%string = false -> same_bytes (n_config n0) (cr_Data response) = false ->
  cycle oracle response (n0, k) = (Err e, (n1, k1)) -> is_restart_error e ->
  rtc (again response) n1 n2 ->
  (exists current, (current = n_config n0 \/ current = None)
     /\ n_last_good n1 = match current with Some b => Some b | None => n_last_good n0 end)
  /\ n_config n2 = Some (cr_Data response).
Proof.
  intros Hst Hne Hrun He Hs. pose proof (cycle_new_bytes oracle response n0 Hst Hne (n0, k) eq_refl) as H. rewrite Hrun in H. cbn in H.
  destruct H as [[[= ->] _]|(c & Hc & _ & _ & Haft & _)]; [done|].
  assert (Hkeep : n_config n1 = Some (cr_Data response) /\ n_last_good n1 = match c with Some b => Some b | None => n_last_good n0 end).
  { rewrite with_hash_data in Haft. destruct e; try done. }
  destruct Hkeep as [Hk Hg]. split; [by exists c|]. clear - Hst Hk Hs. induction Hs as [n|n1 n2 n3 H12 _ IH]; [done|].
  apply IH. by eapply again_keeps.
Qed.
End promises.

(** ** A node, its configurations and its accidents *)
Definition sha (data : string) : string := ("h:" ++ data)%string.
Definition conf (data hash : string) : ConfigResponse := {| cr_Data := data; cr_VersionID := "v"; cr_Hash := hash; cr_State := "" |}.
Definition up_node (data : string) : node := {|
  n_config := Some data; n_last_good := None; n_candidate := None; n_applied := sha data; n_loaded := Some data;
  n_confirmed := true; n_log := [] |}.
Definition run (oracle : nat -> answer) (response : ConfigResponse) (n : node) : result CycleError unit * node :=
  let (r, s) := once sha InitSystemSystemd true false 3 oracle (Some response) (n, 0%nat) in (r, s.1).
Definition fine : answer := {| a_ok := true; a_done := false; a_effect := true; a_state := "active" |}.
(** The restart command is interrupted; it took effect or not. *)
Definition interrupted_at (k : nat) (effect : bool) : nat -> answer := fun i =>
  if bool_decide (i = k) then {| a_ok := false; a_done := true; a_effect := effect; a_state := "" |} else fine.
(** The service stays down. *)
Definition crashing : nat -> answer := fun i =>
  if bool_decide (i <= 6)%nat then fine else {| a_ok := true; a_done := false; a_effect := true; a_state := "failed" |}.

(** the recorded hash outlives the configuration it was recorded for, so
    that a reverted configuration can be reported as applied while another
    one runs: after two interrupted restarts, of which only the first took
    effect, the healthy third cycle reports "applied" without a restart. *)
Theorem stale_hash_hides_a_missing_restart :
  exists n1 n2 n3,
    run (interrupted_at 6 true) (conf "two" (sha "two")) (up_node "one") = (Err (RestartFailed true), n1)
    /\ run (interrupted_at 6 false) (conf "one" (sha "one")) n1 = (Err (RestartFailed true), n2)
    /\ run (fun _ => fine) (conf "one" (sha "one")) n2 = (Ok tt, n3)
    /\ EvApply "applied" (sha "one") ∈ n_log n3 /\ n_config n3 = Some "one"%string /\ n_loaded n3 = Some "two"%string.
Proof.
  eexists _, _, _. split; [vm_compute; reflexivity|]. split; [vm_compute; reflexivity|]. split; [vm_compute; reflexivity|].
  split; [|split; reflexivity]. apply (bool_decide_unpack _). vm_compute. reflexivity.
Qed.

Definition ran (r : result CycleError unit * (node * nat)) : node := r.2.1.
Abbreviation cycle1 oracle response n := (once sha InitSystemSystemd true false 3 oracle (Some response) (n, 0%nat)).
Lemma failed_configuration_is_never_recorded_witness :
  n_applied (ran (cycle1 crashing (conf "two" (sha "two")) (up_node "one"))) = sha "one".
Proof.
  destruct (cycle1 crashing (conf "two" (sha "two")) (up_node "one")) as [r [n k]] eqn:E.
  pose proof (failed_configuration_is_never_recorded sha InitSystemSystemd true 3 crashing (conf "two" (sha "two")) (up_node "one") 0 r n k
    eq_refl eq_refl E) as H. vm_compute in E. injection E as <- <- <-. apply H.
Defined.
(** The restart fails, the rollback succeeds. *)
Definition bad_config : nat -> answer := fun i =>
  if bool_decide (i = 6)%nat then {| a_ok := false; a_done := false; a_effect := true; a_state := "" |} else fine.
Lemma rollback_restores_previous_configuration_witness :
  let n := ran (cycle1 bad_config (conf "two" (sha "two")) (up_node "one")) in
  n_config n = Some "one"%string /\ n_loaded n = Some "one"%string.
Proof.
  cbv zeta. destruct (cycle1 bad_config (conf "two" (sha "two")) (up_node "one")) as [r [n k]] eqn:E.
  assert (Hr : r = Err (RolledBack (RestartFailed false))) by (vm_compute in E; by injection E as <- _ _). subst r.
  destruct (rollback_restores_previous_configuration sha InitSystemSystemd true 3 bad_config (conf "two" (sha "two")) (up_node "one") 0
    (RestartFailed false) n k eq_refl eq_refl E) as (_ & _ & b & Hb & H1 & H2 & _).
  injection Hb as <-. split; [exact H1|exact H2].
Defined.
Definition off : ConfigResponse := {| cr_Data := ""; cr_VersionID := ""; cr_Hash := ""; cr_State := "disabled" |}.
Lemma disabled_node_is_stopped_witness :
  n_config (ran (cycle1 (fun _ => fine) off (up_node "one"))) = Some "one"%string.
Proof.
  destruct (cycle1 (fun _ => fine) off (up_node "one")) as [r [n k]] eqn:E.
  apply (disabled_node_is_stopped sha InitSystemSystemd true 3 (fun _ => fine) off (up_node "one") 0 r n k eq_refl E).
Defined.
Lemma uncertain_restart_forfeits_rollback_witness :
  let n1 := ran (cycle1 (interrupted_at 6 true) (conf "two" (sha "two")) (up_node "one")) in
  let n2 := ran (cycle1 crashing (conf "two" (sha "two")) n1) in
  n_config n2 = Some "two"%string.
Proof.
  cbv zeta. destruct (cycle1 (interrupted_at 6 true) (conf "two" (sha "two")) (up_node "one")) as [r [n1 k1]] eqn:E.
  assert (Hr : r = Err (RestartFailed true)) by (vm_compute in E; by injection E as <- _ _). subst r.
  apply (uncertain_restart_forfeits_rollback sha InitSystemSystemd true 3 (interrupted_at 6 true) (conf "two" (sha "two")) (up_node "one") 0
    (RestartFailed true) n1 k1); [reflexivity|reflexivity|exact E|exact I|].
  apply rtc_once. unfold ran. cbn [snd fst].
  destruct (cycle1 crashing (conf "two" (sha "two")) n1) as [r2 [n2 k2]] eqn:E2. exists crashing, 0%nat, r2, k2. exact E2.
Defined.
