(* ===== verification/Series.v ===== *)
(** * Time series of traffic
    ([src/internal/server/db/series_common.go], [traffic_series.go])

    The server groups the usage ledger into hours or days in SQL, walks the
    same buckets in Go and fills the gaps.  Both sides meet in the text of the
    bucket key; here each is a function on its own, and what they compute is
    compared. *)
From S2P Require Import Prelude GoStrings GoTime.
From S2P Require Paths.

#[local] Open Scope Z_scope.

Inductive Bucket := BucketHour | BucketDay.
#[export] Instance Bucket_eq_dec : EqDecision Bucket.
Proof. solve_decision. Defined.
Definition day : Z := 24 * hour.
Definition bucketHourMaxSpan : Z := 8 * day.
Definition bucketDayMaxSpan : Z := 400 * day.
Definition bucketHourDerivationSpan : Z := 48 * hour.
Definition bucketStartsHardCap : nat := 1024.

Section lower.
Context `{UnicodeTables}.
(** [None]: an error *)
Definition ParseBucket (value : string) (span : Z) : option Bucket :=
  let v := ToLower (TrimSpace value) in
  if (v =? "")%string then Some (if span <=? bucketHourDerivationSpan then BucketHour else BucketDay)
  else if (v =? "hour")%string then Some BucketHour
  else if (v =? "day")%string then Some BucketDay
  else None.
End lower.
Definition MaxSpan (b : Bucket) : Z := match b with BucketDay => bucketDayMaxSpan | BucketHour => bucketHourMaxSpan end.
Definition MaxSpanDays (b : Bucket) : Z := MaxSpan b / (24 * hour).
Definition ValidateBucketOffsetMinutes (offset : Z) : bool := negb ((offset <? -720) || (840 <? offset)).

(** ** Buckets in Go *)
Definition BucketStart (at_ : Time) (bucket : Bucket) (offsetMinutes : Z) : Time :=
  match bucket with
  | BucketHour => at_ - at_ mod hour                (* Truncate: whole hours since year 1 are whole hours since 1970 *)
  | BucketDay =>
      let offset := offsetMinutes * minute in
      let local := date (at_ + offset) in
      days_of_civil (c_year local) (c_month local) (c_day local) * 86400 * second - offset
  end.
Definition BucketKey (bucketStart : Time) : string := Format_key bucketStart.
Definition ParseBucketKey (value : string) : option Time := ParseKey value.
Definition step_of (bucket : Bucket) : Z := match bucket with BucketDay => 24 * hour | BucketHour => hour end.
(** The loop; [n] is how many more the cap allows. *)
Fixpoint bucket_walk (n : nat) (cursor last step : Time) : list Time :=
  match n with
  | O => []
  | S n => if last <? cursor then [] else cursor :: bucket_walk n (cursor + step) last step
  end.
Definition BucketStarts (start end_ : Time) (bucket : Bucket) (offsetMinutes : Z) : list Time :=
  if end_ <? start then []
  else bucket_walk bucketStartsHardCap (BucketStart start bucket offsetMinutes) (BucketStart end_ bucket offsetMinutes) (step_of bucket).
Definition ZeroFillSeries {T} (start end_ : Time) (bucket : Bucket) (offsetMinutes : Z)
    (present : gmap string T) (zero : Time -> T) : list T :=
  (fun bucketStart => default (zero bucketStart) (present !! BucketKey bucketStart))
    <$> BucketStarts start end_ bucket offsetMinutes.

(** ** Buckets in SQL *)
Definition day_text (t : Time) : string :=
  (year_string (c_year (date t)) ++ "-" ++ dec 2 (c_month (date t)) ++ "-" ++ dec 2 (c_day (date t)))%string.
Definition clock_text (t : Time) : string :=
  let s := second_of_day t in (dec 2 (s / 3600) ++ ":" ++ dec 2 (s / 60 mod 60) ++ ":" ++ dec 2 (s mod 60))%string.
(** SQLite's date functions on the texts of their own shape: the modifier
    moves the instant by minutes, a bare date is its midnight. *)
Class SqliteDates := {
  sql_datetime : string -> Z -> option string;     (* datetime(x, 'm minutes') *)
  sql_date : string -> option string;              (* date(x) *)
  sql_strftime : string -> option string;          (* strftime('%Y-%m-%dT%H:%M:%SZ', x) *)
  datetime_T t m : year_ok t -> year_ok (t + m * minute) ->
    sql_datetime (day_text t ++ "T" ++ clock_text t) m
    = Some (day_text (t + m * minute) ++ " " ++ clock_text (t + m * minute))%string;
  date_space t : year_ok t -> sql_date (day_text t ++ " " ++ clock_text t) = Some (day_text t);
  datetime_date t m : year_ok t -> let midnight := t - t mod (24 * hour) in year_ok (midnight + m * minute) ->
    sql_datetime (day_text t) m
    = Some (day_text (midnight + m * minute) ++ " " ++ clock_text (midnight + m * minute))%string;
  strftime_space t : year_ok t ->
    sql_strftime (day_text t ++ " " ++ clock_text t) = Some (day_text t ++ "T" ++ clock_text t ++ "Z")%string
}.
(** substr(x, 1, n), on ASCII text *)
Definition substr (n : nat) (x : string) : string := str_take n x.
(** The expression [bucketExpr] writes, applied to a column; [None] is NULL. *)
Definition bucketExpr `{SqliteDates} (bucket : Bucket) (offsetMinutes : Z) (column : string) : option string :=
  match bucket with
  | BucketHour => Some (substr 13 column ++ ":00:00Z")%string
  | BucketDay =>
      local ← sql_datetime (substr 19 column) offsetMinutes;
      midnight ← sql_date local;
      back ← sql_datetime midnight (- offsetMinutes);
      sql_strftime back
  end.

(** ** Buckets tile the line *)
Definition bucket_base (bucket : Bucket) (offsetMinutes : Z) : Z :=
  match bucket with BucketHour => 0 | BucketDay => - (offsetMinutes * minute) end.
Lemma step_pos b : 0 < step_of b.
Proof. by destruct b. Qed.
Lemma BucketStart_floor t b off : BucketStart t b off = t - (t - bucket_base b off) mod step_of b.
Proof.
  destruct b; cbn [BucketStart bucket_base step_of].
  - by rewrite Z.sub_0_r.
  - unfold date. rewrite days_of_civil_of_days. unfold unix_seconds. rewrite Z.div_div by done.
    replace (t - - (off * minute)) with (t + off * minute) by lia.
    change (24 * hour) with (second * 86400). set (x := t + off * minute).
    assert (E : x = second * 86400 * (x / (second * 86400)) + x mod (second * 86400)) by (by apply Z.div_mod).
    subst x. lia.
Qed.
Lemma BucketStart_contains t b off : BucketStart t b off <= t < BucketStart t b off + step_of b.
Proof. rewrite BucketStart_floor. pose proof (Z.mod_pos_bound (t - bucket_base b off) (step_of b) (step_pos b)). lia. Qed.
Lemma BucketStart_grid t b off : exists k, BucketStart t b off = bucket_base b off + k * step_of b.
Proof.
  rewrite BucketStart_floor. exists ((t - bucket_base b off) / step_of b).
  pose proof (step_pos b). pose proof (Z.div_mod (t - bucket_base b off) (step_of b) ltac:(lia)). lia.
Qed.
Lemma BucketStart_mono t1 t2 b off : t1 <= t2 -> BucketStart t1 b off <= BucketStart t2 b off.
Proof.
  intros Hle. destruct (BucketStart_grid t1 b off) as [k1 E1], (BucketStart_grid t2 b off) as [k2 E2].
  pose proof (BucketStart_contains t1 b off). pose proof (BucketStart_contains t2 b off). pose proof (step_pos b).
  rewrite E1, E2 in *. assert (k1 < k2 + 1) by nia. nia.
Qed.
Lemma BucketStart_unique t s b off :
  (exists k, s = bucket_base b off + k * step_of b) -> s <= t < s + step_of b -> BucketStart t b off = s.
Proof.
  intros [k ->] Hs. destruct (BucketStart_grid t b off) as [k1 E1]. pose proof (BucketStart_contains t b off). pose proof (step_pos b).
  rewrite E1 in *. assert (k1 = k) by nia. by subst.
Qed.

(** *** The walk *)
Lemma walk_length n c l st : (length (bucket_walk n c l st) <= n)%nat.
Proof. revert c. induction n as [|n IH]; intros c; cbn [bucket_walk]; [done|]. destruct (l <? c); cbn [length]; [lia|]. specialize (IH (c + st)). lia. Qed.
(** With enough steps for the span the walk visits every bucket. *)
Lemma walk_spec n c st m : 0 < st -> (m < n)%nat ->
  bucket_walk n c (c + Z.of_nat m * st) st = (fun i => c + Z.of_nat i * st) <$> seq 0 (S m).
Proof.
  intros Hst. revert n c. induction m as [|m IH]; intros [|n] c Hn; [lia| |lia|]; cbn [bucket_walk].
  - rewrite (proj2 (Z.ltb_ge _ _)) by lia. cbn. f_equal; [lia|]. destruct n as [|n]; [done|]. cbn [bucket_walk].
    by rewrite (proj2 (Z.ltb_lt _ _)) by lia.
  - rewrite (proj2 (Z.ltb_ge _ _)) by nia.
    replace (c + Z.of_nat (S m) * st) with ((c + st) + Z.of_nat m * st) by lia. rewrite IH by lia.
    change (seq 0 (S (S m))) with (0%nat :: seq 1 (S m)). rewrite fmap_cons. f_equal; [lia|].
    rewrite <- (seq_shift (S m) 0), <- list_fmap_compose. apply list_fmap_ext. intros i x _. cbn. lia.
Qed.
Lemma starts_spec start end_ b off :
  start <= end_ -> end_ - start <= MaxSpan b ->
  exists m, (m < bucketStartsHardCap)%nat
    /\ BucketStart end_ b off = BucketStart start b off + Z.of_nat m * step_of b
    /\ BucketStarts start end_ b off = (fun i => BucketStart start b off + Z.of_nat i * step_of b) <$> seq 0 (S m).
Proof.
  intros Hle Hspan. destruct (BucketStart_grid start b off) as [k1 E1], (BucketStart_grid end_ b off) as [k2 E2].
  pose proof (BucketStart_contains start b off) as H1. pose proof (BucketStart_contains end_ b off) as H2. pose proof (step_pos b) as Hst.
  pose proof (BucketStart_mono _ _ b off Hle) as Hmono.
  assert (Hk : k1 <= k2) by nia.
  assert (Hm : k2 - k1 < 1024).
  { assert (Hms : MaxSpan b <= 400 * step_of b) by (by destruct b). nia. }
  exists (Z.to_nat (k2 - k1)).
  assert (Heq : BucketStart end_ b off = BucketStart start b off + Z.of_nat (Z.to_nat (k2 - k1)) * step_of b) by (rewrite E1, E2, Z2Nat.id by lia; lia).
  split; [change bucketStartsHardCap with (Z.to_nat 1024); lia|]. split; [done|].
  unfold BucketStarts. rewrite (proj2 (Z.ltb_ge _ _)) by lia. rewrite Heq. apply walk_spec; [done|].
  change bucketStartsHardCap with (Z.to_nat 1024). lia.
Qed.

(** ** The texts *)
Lemma year_ok_between a t b : year_ok a -> year_ok b -> a <= t <= b -> year_ok t.
Proof.
  assert (Hm : forall x y, x <= y -> year x <= year y).
  { intros x y Hxy. unfold year, date.
    assert (Hd : unix_seconds x / 86400 <= unix_seconds y / 86400) by (unfold unix_seconds, second; dlia).
    destruct (Z.eq_dec (unix_seconds x / 86400) (unix_seconds y / 86400)) as [->|Hne]; [done|].
    assert (Hlt : unix_seconds x / 86400 < unix_seconds y / 86400) by lia.
    apply civil_of_days_lt in Hlt as [?|[? _]]; lia. }
  unfold year_ok. intros Ha Hb [H1 H2]. pose proof (Hm _ _ H1). pose proof (Hm _ _ H2). lia.
Qed.
Lemma format_seconds_parts t : format_seconds t = (day_text t ++ "T" ++ clock_text t)%string.
Proof. unfold format_seconds, day_text, clock_text. by rewrite <- !str_app_assoc. Qed.
Lemma day_text_eq t t' : unix_seconds t / 86400 = unix_seconds t' / 86400 -> day_text t = day_text t'.
Proof. intros E. unfold day_text, date. by rewrite E. Qed.
Lemma day_text_length t : year_ok t -> String.length (day_text t) = 10%nat.
Proof.
  intros Hy. unfold day_text. rewrite year_string_dec by done.
  by rewrite !str_length_app, !dec_length.
Qed.
Lemma clock_text_length t : String.length (clock_text t) = 8%nat.
Proof. unfold clock_text. by rewrite !str_length_app, !dec_length. Qed.
Lemma format_seconds_length t : year_ok t -> String.length (format_seconds t) = 19%nat.
Proof. intros Hy. rewrite format_seconds_parts, !str_length_app, day_text_length, clock_text_length by done. done. Qed.
Lemma str_take_prefix n s1 s2 : String.length s1 = n -> str_take n (s1 ++ s2)%string = s1.
Proof. intros <-. apply str_take_app. Qed.
Lemma take_seconds t : year_ok t -> substr 19 (Format_RFC3339Nano t) = format_seconds t.
Proof. intros Hy. unfold substr, Format_RFC3339Nano. by apply str_take_prefix, format_seconds_length. Qed.
Lemma take_hour t : year_ok t -> substr 13 (Format_RFC3339Nano t) = (day_text t ++ "T" ++ dec 2 (second_of_day t / 3600))%string.
Proof.
  intros Hy. unfold substr, Format_RFC3339Nano. rewrite format_seconds_parts. unfold clock_text.
  rewrite <- !str_app_assoc, (str_app_assoc "T"), (str_app_assoc (day_text t)).
  apply str_take_prefix. by rewrite !str_length_app, day_text_length, dec_length.
Qed.
(** Whole days and whole hours *)
Lemma midnight_fields t k : t = k * (24 * hour) -> unix_seconds t / 86400 = k /\ second_of_day t = 0.
Proof.
  intros ->. unfold second_of_day, unix_seconds. change (24 * hour) with (86400 * second).
  rewrite Z.mul_assoc, Z.div_mul by done. by rewrite Z.div_mul, Z.mod_mul.
Qed.
Lemma hour_fields t : let h := t - t mod hour in
  unix_seconds h / 86400 = unix_seconds t / 86400 /\ second_of_day h = second_of_day t / 3600 * 3600.
Proof.
  intros h. subst h. unfold second_of_day, unix_seconds, hour, second. split; dlia.
Qed.
Definition in_printed_years (t : Time) (bucket : Bucket) (offsetMinutes : Z) : Prop :=
  year_ok t /\ year_ok (BucketStart t bucket offsetMinutes)
  /\ match bucket with BucketHour => True | BucketDay => year_ok (t + offsetMinutes * minute) end.
(** From year 1 to year 9998 no valid offset leaves the years of four digits. *)
Definition charted (t : Time) : Prop := -62135596800 * second <= t < 253370764800 * second.
Lemma charted_years t b off : charted t -> ValidateBucketOffsetMinutes off = true -> in_printed_years t b off.
Proof.
  intros Ht Hoff. unfold ValidateBucketOffsetMinutes in Hoff. breflect.
  assert (Hok : forall x, -62135596800 * second - 2 * day <= x <= 253370764800 * second + 2 * day -> year_ok x).
  { intros x. apply year_ok_between; by vm_compute. }
  unfold charted, in_printed_years, day, hour, minute in *.
  pose proof (BucketStart_contains t b off) as Hc. unfold step_of, hour in Hc.
  unfold second in *. split_and!; [apply Hok; lia|apply Hok; destruct b; lia|destruct b; [done|apply Hok; lia]].
Qed.

Lemma day_key t off : let local := t + off * minute in
  BucketStart t BucketDay off = (local - local mod (24 * hour)) - off * minute.
Proof. rewrite BucketStart_floor. cbn [bucket_base step_of]. cbn zeta. replace (t - - (off * minute)) with (t + off * minute) by lia. lia. Qed.

Lemma sql_bucket `{SqliteDates} t bucket offsetMinutes :
  ValidateBucketOffsetMinutes offsetMinutes = true -> charted t ->
  bucketExpr bucket offsetMinutes (Format_RFC3339Nano t) = Some (BucketKey (BucketStart t bucket offsetMinutes)).
Proof.
  intros Hoff Ht. destruct (charted_years t bucket offsetMinutes Ht Hoff) as (Hy & Hb & Hl).
  destruct bucket; cbn [bucketExpr].
  - rewrite take_hour by done. unfold BucketKey, Format_key. rewrite format_seconds_parts.
    destruct (hour_fields t) as [E1 E2]. cbn [BucketStart].
    unfold clock_text. rewrite (day_text_eq _ t E1), E2, Z.div_mul by done.
    replace (second_of_day t / 3600 * 3600 / 60 mod 60) with 0 by dlia.
    replace (second_of_day t / 3600 * 3600 mod 60) with 0 by dlia.
    by rewrite <- !str_app_assoc.
  - set (local := t + offsetMinutes * minute) in *.
    pose proof (day_key t offsetMinutes) as Hk. cbn zeta in Hk. fold local in Hk. rewrite Hk in Hb |- *.
    rewrite take_seconds, format_seconds_parts, datetime_T by done. cbn [mbind option_bind]. fold local.
    rewrite date_space by done. cbn [mbind option_bind].
    pose proof (datetime_date local (- offsetMinutes) Hl) as Hd. cbn zeta in Hd.
    replace (local - local mod (24 * hour) + - offsetMinutes * minute)
      with (local - local mod (24 * hour) - offsetMinutes * minute) in Hd by lia.
    rewrite Hd by done. cbn [mbind option_bind]. rewrite strftime_space by done.
    unfold BucketKey, Format_key. by rewrite format_seconds_parts, <- !str_app_assoc.
Qed.


(** C32: The bucket SQL groups a row by is the bucket Go walks: for every
    instant a row can carry, the expression [bucketExpr] writes, applied to the
    stored text (up to nine fractional digits, trailing zeros trimmed), gives
    the key of [BucketStart], for hours and for days at every valid offset. *)
Theorem sql_and_go_bucket_alike `{SqliteDates} t bucket offsetMinutes :
  ValidateBucketOffsetMinutes offsetMinutes = true -> charted t ->
  bucketExpr bucket offsetMinutes (Format_RFC3339Nano t) = Some (BucketKey (BucketStart t bucket offsetMinutes)).
Proof. intros. by apply sql_bucket. Qed.

Lemma bucket_key_inverse t bucket offsetMinutes :
  year_ok (BucketStart t bucket offsetMinutes) ->
  ParseBucketKey (BucketKey (BucketStart t bucket offsetMinutes)) = Some (BucketStart t bucket offsetMinutes).
Proof.
  intros Hy. unfold ParseBucketKey, ParseKey, BucketKey, Format_key.
  rewrite to_bytes_app, parse_format_seconds by done. cbn [to_bytes String.list_ascii_of_string parse_fraction].
  cbn. f_equal. rewrite <- (time_fields (BucketStart t bucket offsetMinutes)) at 3.
  assert (Hn : nanosecond (BucketStart t bucket offsetMinutes) = 0); [|lia].
  destruct (BucketStart_grid t bucket offsetMinutes) as [k ->]. unfold nanosecond.
  destruct bucket; cbn [bucket_base step_of]; unfold minute, hour, second; dlia.
Qed.

(** C39: The key of a bucket names it: [ParseBucketKey] reads back the start
    [BucketKey] printed, so no two buckets share a key. *)
Theorem bucket_key_round_trip t bucket offsetMinutes :
  year_ok (BucketStart t bucket offsetMinutes) ->
  ParseBucketKey (BucketKey (BucketStart t bucket offsetMinutes)) = Some (BucketStart t bucket offsetMinutes).
Proof. apply bucket_key_inverse. Qed.

Lemma starts_NoDup start end_ b off : NoDup (BucketStarts start end_ b off).
Proof.
  unfold BucketStarts. destruct (end_ <? start); [constructor|].
  generalize (BucketStart start b off). generalize bucketStartsHardCap. pose proof (step_pos b) as Hst.
  assert (Hge : forall n c x, x ∈ bucket_walk n c (BucketStart end_ b off) (step_of b) -> c <= x).
  { induction n as [|n IH]; intros c x; cbn [bucket_walk]; [by intros ?%not_elem_of_nil|].
    destruct (_ <? c); [by intros ?%not_elem_of_nil|]. intros [->|Hx]%elem_of_cons; [lia|]. apply IH in Hx. lia. }
  induction n as [|n IH]; intros c; cbn [bucket_walk]; [constructor|].
  destruct (_ <? c); constructor; [intros Hx; apply Hge in Hx; lia|apply IH].
Qed.
Lemma starts_elem_between start end_ b off t :
  start <= end_ -> end_ - start <= MaxSpan b ->
  BucketStart start b off <= BucketStart t b off <= BucketStart end_ b off ->
  BucketStart t b off ∈ BucketStarts start end_ b off.
Proof.
  intros Hle Hs Ht. destruct (starts_spec start end_ b off) as (m & _ & E & ->); [done..|].
  destruct (BucketStart_grid start b off) as [k1 E1], (BucketStart_grid t b off) as [k E2].
  pose proof (step_pos b). rewrite E in Ht.
  rewrite E1 in *. rewrite E2 in *. apply list_elem_of_fmap. exists (Z.to_nat (k - k1)).
  assert (k1 <= k) by nia. assert (k <= k1 + Z.of_nat m) by nia.
  split; [rewrite Z2Nat.id by lia; lia|]. apply elem_of_seq. lia.
Qed.
Lemma starts_elem start end_ b off t :
  end_ - start <= MaxSpan b -> start <= t <= end_ -> BucketStart t b off ∈ BucketStarts start end_ b off.
Proof. intros Hs Ht. apply starts_elem_between; [lia|done|]. split; apply BucketStart_mono; lia. Qed.
(** A bucket starts on a whole second: the fraction does not matter. *)
Lemma BucketStart_second t b off : BucketStart t b off = BucketStart (unix_seconds t * second) b off.
Proof.
  symmetry. apply BucketStart_unique; [apply BucketStart_grid|].
  pose proof (BucketStart_contains t b off) as Hc. destruct (BucketStart_grid t b off) as [k E].
  assert (Hw : exists j, BucketStart t b off = j * second).
  { rewrite E. destruct b; cbn [bucket_base step_of]; [exists (k * 3600)|exists (k * 86400 - off * 60)]; unfold minute, hour; lia. }
  destruct Hw as [j Hj]. rewrite Hj in *. unfold unix_seconds.
  pose proof (div_bounds t second ltac:(done)). pose proof (step_pos b).
  split; [|lia]. apply Z.mul_le_mono_nonneg_r; [done|]. apply Z.div_le_lower_bound; [done|lia].
Qed.

(** The walk over the buckets ends by itself: within the longest span of
    the granularity the cap of 1,024 is never what stops it (a larger cap gives
    the same list), and it returns one start after the other a whole step
    apart, the first at or before [start] and the last at or before [end]. *)
Theorem bucket_walk_ends start end_ bucket offsetMinutes cap :
  start <= end_ -> end_ - start <= MaxSpan bucket -> (bucketStartsHardCap <= cap)%nat ->
  let first := BucketStart start bucket offsetMinutes in
  let last := BucketStart end_ bucket offsetMinutes in
  exists n, 0 <= n <= MaxSpanDays bucket * (24 * hour / step_of bucket) + 1
    /\ last = first + n * step_of bucket
    /\ BucketStarts start end_ bucket offsetMinutes
       = (fun i => first + Z.of_nat i * step_of bucket) <$> seq 0 (S (Z.to_nat n))
    /\ bucket_walk cap first last (step_of bucket) = BucketStarts start end_ bucket offsetMinutes.
Proof.
  intros Hle Hs Hcap first last. destruct (starts_spec start end_ bucket offsetMinutes Hle Hs) as (m & Hm & El & Est).
  fold first last in El, Est. exists (Z.of_nat m). rewrite Nat2Z.id. split_and!; [lia| |done|done|].
  - pose proof (BucketStart_contains start bucket offsetMinutes) as H1. pose proof (BucketStart_contains end_ bucket offsetMinutes) as H2.
    fold first in H1. fold last in H2. rewrite El in H2. clearbody first last. clear El Est.
    assert (Hn : MaxSpan bucket = MaxSpanDays bucket * (24 * hour / step_of bucket) * step_of bucket) by (by destruct bucket).
    pose proof (step_pos bucket). set (x := MaxSpanDays bucket * (24 * hour / step_of bucket)) in *. clearbody x. nia.
  - rewrite Est, El. apply walk_spec; [apply step_pos|lia].
Qed.

(** Every instant of the window is in exactly one bucket of the chart, the
    one [BucketStart] names. *)
Theorem buckets_tile_the_window start end_ bucket offsetMinutes t :
  end_ - start <= MaxSpan bucket -> start <= t <= end_ ->
  forall s, (s ∈ BucketStarts start end_ bucket offsetMinutes /\ s <= t < s + step_of bucket)
    <-> s = BucketStart t bucket offsetMinutes.
Proof.
  intros Hs Ht s. split.
  - intros [Hin Hc]. symmetry. apply BucketStart_unique; [|done].
    destruct (starts_spec start end_ bucket offsetMinutes) as (m & _ & _ & E); [lia|done|]. rewrite E in Hin.
    apply list_elem_of_fmap in Hin as (i & -> & _). destruct (BucketStart_grid start bucket offsetMinutes) as [k ->].
    exists (k + Z.of_nat i). lia.
  - intros ->. split; [by apply starts_elem|apply BucketStart_contains].
Qed.

(** ** Date functions that satisfy the interface, on the calendar of [GoTime] *)
Definition calendar_read (x : string) : option Time :=
  let y := if (String.length x =? 10)%nat then (x ++ "T00:00:00")%string
           else (str_take 10 x ++ "T" ++ str_drop 11 x)%string in
  match parse_seconds (to_bytes y) with
  | Some (days, sod, []) => Some ((days * 86400 + sod) * second)
  | _ => None
  end.
Definition calendar_print (f : Time -> string) (t : Time) : option string :=
  if bool_decide (year_ok t) then Some (f t) else None.

Lemma text_ext t t' : unix_seconds t = unix_seconds t' -> day_text t = day_text t' /\ clock_text t = clock_text t' /\ year t = year t'.
Proof. intros E. unfold day_text, clock_text, year, date, second_of_day. by rewrite E. Qed.
Lemma calendar_read_text t c : year_ok t ->
  calendar_read (day_text t ++ String c (clock_text t)) = Some (unix_seconds t * second).
Proof.
  intros Hy. unfold calendar_read. rewrite str_length_app, day_text_length by done. cbn [String.length].
  rewrite clock_text_length. cbn [Nat.add Nat.eqb].
  rewrite (str_take_prefix 10) by (by rewrite day_text_length).
  pose proof (str_drop_app (day_text t) c (clock_text t)) as Hd. rewrite day_text_length in Hd by done. rewrite Hd.
  rewrite <- format_seconds_parts, <- (app_nil_r (to_bytes (format_seconds t))), parse_format_seconds by done.
  f_equal. f_equal. pose proof (Z.div_mod (unix_seconds t) 86400). unfold second_of_day. lia.
Qed.
Lemma calendar_read_date t : year_ok t -> calendar_read (day_text t) = Some (t - t mod (24 * hour)).
Proof.
  intros Hy. unfold calendar_read. rewrite day_text_length by done. cbn [Nat.eqb].
  assert (E : t - t mod (24 * hour) = unix_seconds t / 86400 * (24 * hour)).
  { unfold unix_seconds. rewrite Z.div_div by done. change (24 * hour) with (second * 86400).
    pose proof (Z.div_mod t (second * 86400) ltac:(done)). lia. }
  destruct (midnight_fields _ _ E) as [E1 E2]. set (m := t - t mod (24 * hour)) in *.
  assert (Hm : format_seconds m = (day_text t ++ "T00:00:00")%string).
  { rewrite format_seconds_parts, (day_text_eq m t E1). unfold clock_text. by rewrite E2. }
  assert (Hym : year_ok m) by (unfold year_ok, year, date in *; by rewrite E1).
  rewrite <- Hm, <- (app_nil_r (to_bytes (format_seconds m))), parse_format_seconds by done.
  f_equal. rewrite E1, E2, E. change (24 * hour) with (86400 * second). lia.
Qed.
Lemma calendar_print_ext f t t' : (forall x y, unix_seconds x = unix_seconds y -> f x = f y) ->
  unix_seconds t' = unix_seconds t -> year_ok t -> calendar_print f t' = Some (f t).
Proof.
  intros Hf E Hy. unfold calendar_print. rewrite bool_decide_eq_true_2; [by rewrite (Hf t' t)|].
  destruct (text_ext t' t E) as (_ & _ & Ey). unfold year_ok. by rewrite Ey.
Qed.
Lemma whole_seconds t m : unix_seconds (unix_seconds t * second + m * minute) = unix_seconds (t + m * minute).
Proof. unfold unix_seconds, minute, second. dlia. Qed.
#[refine] Definition calendar_dates : SqliteDates := {|
  sql_datetime x m := t ← calendar_read x; calendar_print (fun u => day_text u ++ " " ++ clock_text u)%string (t + m * minute);
  sql_date x := t ← calendar_read x; calendar_print day_text t;
  sql_strftime x := t ← calendar_read x; calendar_print (fun u => day_text u ++ "T" ++ clock_text u ++ "Z")%string t
|}.
Proof.
  - intros t m Hy Hm. rewrite str_cons_app, calendar_read_text by done. cbn [mbind option_bind].
    apply (calendar_print_ext (fun u => day_text u ++ " " ++ clock_text u)%string); [|apply whole_seconds|done].
    intros x y E. destruct (text_ext x y E) as (-> & -> & _). done.
  - intros t Hy. rewrite str_cons_app, calendar_read_text by done. cbn [mbind option_bind].
    apply calendar_print_ext; [|pose proof (whole_seconds t 0); by rewrite !Z.mul_0_l, !Z.add_0_r in *|done].
    intros x y E. by destruct (text_ext x y E) as (-> & _).
  - intros t m Hy midnight Hm. rewrite calendar_read_date by done. cbn [mbind option_bind].
    apply (calendar_print_ext (fun u => day_text u ++ " " ++ clock_text u)%string); [|done|done].
    intros x y E. destruct (text_ext x y E) as (-> & -> & _). done.
  - intros t Hy. rewrite str_cons_app, calendar_read_text by done. cbn [mbind option_bind].
    apply (calendar_print_ext (fun u => day_text u ++ "T" ++ clock_text u ++ "Z")%string);
      [|pose proof (whole_seconds t 0); by rewrite !Z.mul_0_l, !Z.add_0_r in *|done].
    intros x y E. destruct (text_ext x y E) as (-> & -> & _). done.
Defined.

(** *** The theorems at work: half past ten in the evening in Shanghai *)
Definition evening : Time := 1714573805123400000.
Lemma sql_and_go_bucket_alike_witness :
  @bucketExpr calendar_dates BucketDay 480 (Format_RFC3339Nano evening) = Some (BucketKey (BucketStart evening BucketDay 480))
  /\ BucketKey (BucketStart evening BucketDay 480) = "2024-04-30T16:00:00Z".
Proof.
  split; [|reflexivity]. apply (@sql_and_go_bucket_alike calendar_dates evening BucketDay 480); [reflexivity|].
  split; vm_compute; [intros [=]|reflexivity].
Defined.
Lemma bucket_key_round_trip_witness :
  ParseBucketKey "2024-05-01T14:00:00Z" = Some (BucketStart evening BucketHour 0).
Proof.
  apply (bucket_key_round_trip evening BucketHour 0). split; vm_compute; intros [=].
Defined.
Lemma bucket_walk_ends_witness : exists n, BucketStart evening BucketDay 480 = BucketStart (evening - 30 * day) BucketDay 480 + n * day.
Proof.
  destruct (bucket_walk_ends (evening - 30 * day) evening BucketDay 480 2000) as (n & _ & E & _); [done|done|by apply Nat.leb_le|].
  by exists n.
Defined.
Lemma buckets_tile_the_window_witness :
  BucketStart evening BucketHour 0 ∈ BucketStarts (evening - 3 * hour) (evening + hour) BucketHour 0
  /\ length (BucketStarts (evening - 3 * hour) (evening + hour) BucketHour 0) = 5%nat.
Proof.
  split; [|reflexivity]. refine (proj1 (proj2 (buckets_tile_the_window _ _ BucketHour 0 evening _ _ _) eq_refl)); done.
Defined.
