(* ===== verification/TrafficSeries.v ===== *)
(** * Charts of the traffic ledger ([src/internal/server/db/traffic_series.go])

    [TrafficSeries] sums the usage rows of a window per bucket in SQL, pivots
    the two directions in Go and fills the empty buckets.  The queries are
    modelled on the rows themselves: the filter compares the stored texts,
    GROUP BY collects equal keys, SUM fails on overflow.  What is shown is that
    nothing is lost between the rows the filter admits and the totals of the
    charts. *)
From S2P Require Import Prelude GoStrings GoTime Series.
From stdpp Require Import sorting.

#[local] Open Scope Z_scope.

(** ** The tables, as far as the queries read them *)
(** traffic_usage_deltas *)
Record delta_row := {
  dr_node_id : string; dr_proxy_user_id : string; dr_direction : string;
  dr_raw_bytes_delta : Z; dr_billable_bytes_delta : Z; dr_observed_at : string
}.
(** nodes and proxy_users: the name and whether deleted_at is set *)
Record named_row := { nr_name : string; nr_deleted : bool }.
Record tables := {
  traffic_usage_deltas : list delta_row;
  nodes : gmap string named_row;
  node_name_aliases : gmap string string;
  proxy_users : gmap string named_row
}.
Inductive SeriesError := ErrGroup | ErrNodeNotFound | ErrUserNotFound | ErrIntegerOverflow.

Record TrafficSeriesFilter := {
  f_Start : Time; f_End : Time; f_Bucket : Bucket; f_OffsetMinutes : Z;
  f_Group : string; f_UserName : string; f_NodeName : string; f_Limit : Z
}.
Record TrafficPoint := {
  p_BucketStart : Time; UplinkRawBytes : Z; UplinkBillableBytes : Z;
  DownlinkRawBytes : Z; DownlinkBillableBytes : Z
}.
Record TrafficSeries_ := { s_Key : string; s_Label : string; s_Points : list TrafficPoint; s_Totals : TrafficPoint }.
Record TrafficSeriesResult := { r_Series : list TrafficSeries_; r_Truncated : bool }.
Record trafficSeriesScope := { sc_NodeID : string; sc_UserID : string; sc_StartTime : string; sc_EndTime : string }.
Record trafficSeriesKey := { k_ID : string; k_Name : string }.

Definition trafficSeriesDefaultLimit : Z := 25.
Definition trafficSeriesMaxLimit : Z := 100.
Definition zero_point (start : Time) : TrafficPoint :=
  {| p_BucketStart := start; UplinkRawBytes := 0; UplinkBillableBytes := 0; DownlinkRawBytes := 0; DownlinkBillableBytes := 0 |}.
(** The zero time.Time: no bucket starts there, the field is always overwritten. *)
Definition empty_point : TrafficPoint := zero_point (-62135596800 * second).

(** ** Names *)
Section names.
Context `{UnicodeTables}.
(** resolveNode, resolveProxyUser (not including deleted): an id, else the
    name (of a live row, unique) *)
Definition by_name (rows : gmap string named_row) (name : string) : option string :=
  fst <$> head (filter (fun r => nr_deleted r.2 = false /\ nr_name r.2 = name) (map_to_list rows)).
Definition resolveNode (T : tables) (reference : string) : option string :=
  let reference := TrimSpace reference in
  match nodes T !! reference with
  | Some r => if nr_deleted r then None else Some reference
  | None =>
      match by_name (nodes T) reference with
      | Some id => Some id
      | None => id ← node_name_aliases T !! reference;
                r ← nodes T !! id;
                if nr_deleted r then None else Some id
      end
  end.
Definition resolveProxyUser (T : tables) (reference : string) : option string :=
  let reference := TrimSpace reference in
  match proxy_users T !! reference with
  | Some r => if nr_deleted r then None else Some reference
  | None => by_name (proxy_users T) reference
  end.
Definition resolveTrafficSeriesScope (T : tables) (f : TrafficSeriesFilter) : result SeriesError trafficSeriesScope :=
  let? node := if (TrimSpace (f_NodeName f) =? "")%string then Ok ""%string
               else match resolveNode T (f_NodeName f) with Some id => Ok id | None => Err ErrNodeNotFound end in
  let? user := if (TrimSpace (f_UserName f) =? "")%string then Ok ""%string
               else match resolveProxyUser T (f_UserName f) with Some id => Ok id | None => Err ErrUserNotFound end in
  Ok {| sc_NodeID := node; sc_UserID := user;
        sc_StartTime := Format_RFC3339Nano (f_Start f); sc_EndTime := Format_RFC3339Nano (f_End f) |}.
End names.

(** ** The queries *)
(** The WHERE fragments of [buildTrafficSeriesPredicates] *)
Definition buildTrafficSeriesPredicates (T : tables) (scope : trafficSeriesScope) (d : delta_row) : bool :=
  negb (String.ltb (dr_observed_at d) (sc_StartTime scope))
  && negb (String.ltb (sc_EndTime scope) (dr_observed_at d))
  && negb (match proxy_users T !! dr_proxy_user_id d with Some u => nr_deleted u | None => false end)
  && ((sc_NodeID scope =? "")%string || (dr_node_id d =? sc_NodeID scope)%string)
  && ((sc_UserID scope =? "")%string || (dr_proxy_user_id d =? sc_UserID scope)%string).

Inductive key_column := NoColumn | UserColumn | NodeColumn.
#[export] Instance key_column_eq_dec : EqDecision key_column.
Proof. solve_decision. Defined.
Definition trafficSeriesKeyColumn (group : string) : option key_column :=
  if (group =? "total")%string then Some NoColumn
  else if (group =? "user")%string then Some UserColumn
  else if (group =? "node")%string then Some NodeColumn
  else None.
Definition series_key (column : key_column) (d : delta_row) : string :=
  match column with NoColumn => "" | UserColumn => dr_proxy_user_id d | NodeColumn => dr_node_id d end.

(** SUM of integers: fails when a partial sum leaves int64. *)
Fixpoint sql_sum_from (acc : Z) (l : list Z) : option Z :=
  match l with
  | [] => Some acc
  | x :: l => if bool_decide (int64_ok (acc + x)) then sql_sum_from (acc + x) l else None
  end.
Definition sql_sum (l : list Z) : option Z := sql_sum_from 0 l.
(** GROUP BY [key], with the aggregates of each group; [None] when one fails. *)
Definition group_by {K V} `{EqDecision K} (key : delta_row -> K) (aggregate : list delta_row -> option V)
    (rows : list delta_row) : option (list (K * V)) :=
  mapM (fun k => v ← aggregate (filter (fun d => key d = k) rows); Some (k, v)) (remove_dups (key <$> rows)).
Definition both_sums (rows : list delta_row) : option (Z * Z) :=
  raw ← sql_sum (dr_raw_bytes_delta <$> rows);
  billable ← sql_sum (dr_billable_bytes_delta <$> rows);
  Some (raw, billable).

Section queries.
Context `{SqliteDates}.
Definition bucket_row := (string * option string * string * (Z * Z))%type.
Definition group_key (bucket : Bucket) (offsetMinutes : Z) (column : key_column) (d : delta_row) : string * option string * string :=
  (series_key column d, bucketExpr bucket offsetMinutes (dr_observed_at d), dr_direction d).
Definition buildTrafficBucketQuery (T : tables) (scope : trafficSeriesScope) (bucket : Bucket) (offsetMinutes : Z)
    (column : key_column) (keyIDs : list string) : option (list bucket_row) :=
  let admitted d := buildTrafficSeriesPredicates T scope d
    && match column, keyIDs with
       | NoColumn, _ | _, [] => true
       | _, _ => bool_decide (series_key column d ∈ keyIDs)
       end in
  group_by (group_key bucket offsetMinutes column) both_sums (filter (fun d => admitted d = true) (traffic_usage_deltas T)).

(** One row of the answer, in the loop of [queryTrafficBuckets] *)
Definition scan_row (buckets : gmap string (gmap string TrafficPoint)) (row : bucket_row) : gmap string (gmap string TrafficPoint) :=
  let '(seriesKey, bucketKey, direction, (raw, billable)) := row in
  match bucketKey with
  | None => buckets
  | Some key =>
      match ParseBucketKey key with
      | None => buckets
      | Some start =>
          let series := default ∅ (buckets !! seriesKey) in
          let p := default empty_point (series !! key) in
          if (direction =? "uplink")%string then
            <[seriesKey := <[key := {| p_BucketStart := start;
               UplinkRawBytes := wrap64 (UplinkRawBytes p + raw); UplinkBillableBytes := wrap64 (UplinkBillableBytes p + billable);
               DownlinkRawBytes := DownlinkRawBytes p; DownlinkBillableBytes := DownlinkBillableBytes p |}]> series]> buckets
          else if (direction =? "downlink")%string then
            <[seriesKey := <[key := {| p_BucketStart := start;
               UplinkRawBytes := UplinkRawBytes p; UplinkBillableBytes := UplinkBillableBytes p;
               DownlinkRawBytes := wrap64 (DownlinkRawBytes p + raw);
               DownlinkBillableBytes := wrap64 (DownlinkBillableBytes p + billable) |}]> series]> buckets
          else <[seriesKey := series]> buckets
      end
  end.
Definition queryTrafficBuckets (T : tables) (scope : trafficSeriesScope) (bucket : Bucket) (offsetMinutes : Z)
    (column : key_column) (keyIDs : list string) : result SeriesError (gmap string (gmap string TrafficPoint)) :=
  match buildTrafficBucketQuery T scope bucket offsetMinutes column keyIDs with
  | None => Err ErrIntegerOverflow
  | Some rows => Ok (foldl scan_row ∅ rows)
  end.

(** ORDER BY billable_bytes DESC, series_label *)
Definition rank_before (x y : string * string * Z) : Prop :=
  y.2 < x.2 \/ (y.2 = x.2 /\ String.leb x.1.2 y.1.2 = true).
#[export] Instance rank_before_dec : RelDecision rank_before.
Proof. unfold rank_before. intros x y. apply _. Defined.
(** The JOIN: rows whose key has no row there disappear. *)
Definition label_of (T : tables) (column : key_column) (d : delta_row) : option string :=
  match column with
  | NodeColumn => nr_name <$> nodes T !! dr_node_id d
  | _ => nr_name <$> proxy_users T !! dr_proxy_user_id d
  end.
Definition rankTrafficSeriesKeys (T : tables) (scope : trafficSeriesScope) (column : key_column) (limit : Z)
    : result SeriesError (list trafficSeriesKey) :=
  let rows := filter (fun d => buildTrafficSeriesPredicates T scope d = true /\ is_Some (label_of T column d)) (traffic_usage_deltas T) in
  match group_by (fun d => (series_key column d, default ""%string (label_of T column d)))
          (fun rs => sql_sum (dr_billable_bytes_delta <$> rs)) rows with
  | None => Err ErrIntegerOverflow
  | Some groups =>
      Ok ((fun g => {| k_ID := g.1.1; k_Name := g.1.2 |}) <$> take (Z.to_nat limit) (merge_sort rank_before groups))
  end.

Definition add_points (t p : TrafficPoint) : TrafficPoint :=
  {| p_BucketStart := p_BucketStart t;
     UplinkRawBytes := wrap64 (UplinkRawBytes t + UplinkRawBytes p);
     UplinkBillableBytes := wrap64 (UplinkBillableBytes t + UplinkBillableBytes p);
     DownlinkRawBytes := wrap64 (DownlinkRawBytes t + DownlinkRawBytes p);
     DownlinkBillableBytes := wrap64 (DownlinkBillableBytes t + DownlinkBillableBytes p) |}.
Definition trafficSeriesFromBuckets (key label : string) (present : gmap string TrafficPoint)
    (f : TrafficSeriesFilter) (bucket : Bucket) : TrafficSeries_ :=
  let points := ZeroFillSeries (f_Start f) (f_End f) bucket (f_OffsetMinutes f) present zero_point in
  {| s_Key := key; s_Label := label; s_Points := points; s_Totals := foldl add_points empty_point points |}.

(** The grouped half of [TrafficSeries]. *)
Definition series_limit (f : TrafficSeriesFilter) : Z :=
  let limit := if f_Limit f <=? 0 then trafficSeriesDefaultLimit else f_Limit f in
  if trafficSeriesMaxLimit <? limit then trafficSeriesMaxLimit else limit.
Definition groupedSeries (T : tables) (f : TrafficSeriesFilter) (scope : trafficSeriesScope) (column : key_column)
    : result SeriesError TrafficSeriesResult :=
  let limit := series_limit f in
  let? all := rankTrafficSeriesKeys T scope column (limit + 1) in
  let truncated := limit <? Z.of_nat (length all) in
  let ranked := if truncated then take (Z.to_nat limit) all else all in
  match ranked with
  | [] => Ok {| r_Series := []; r_Truncated := false |}
  | _ =>
      let? buckets := queryTrafficBuckets T scope (f_Bucket f) (f_OffsetMinutes f) column (k_ID <$> ranked) in
      Ok {| r_Series := (fun key => trafficSeriesFromBuckets (k_Name key) (k_Name key)
                           (default ∅ (buckets !! k_ID key)) f (f_Bucket f)) <$> ranked;
            r_Truncated := truncated |}
  end.
Definition TrafficSeries `{UnicodeTables} (T : tables) (f : TrafficSeriesFilter) : result SeriesError TrafficSeriesResult :=
  let group := if (f_Group f =? "")%string then "total"%string else f_Group f in
  match trafficSeriesKeyColumn group with
  | None => Err ErrGroup
  | Some column =>
      let? scope := resolveTrafficSeriesScope T f in
      if bool_decide (column = NoColumn) then
        let? buckets := queryTrafficBuckets T scope (f_Bucket f) (f_OffsetMinutes f) NoColumn [] in
        Ok {| r_Series := [trafficSeriesFromBuckets "total" "All traffic" (default ∅ (buckets !! ""%string)) f (f_Bucket f)];
              r_Truncated := false |}
      else groupedSeries T f scope column
  end.
End queries.

(** ** Sums *)
Fixpoint zsum {A} (f : A -> Z) (l : list A) : Z := match l with [] => 0 | x :: l => f x + zsum f l end.
Lemma zsum_ext {A} (f g : A -> Z) l : (forall x, x ∈ l -> f x = g x) -> zsum f l = zsum g l.
Proof.
  induction l as [|x l IH]; intros H; [done|]. cbn [zsum]. rewrite (H x) by constructor.
  rewrite IH; [done|]. intros y Hy. apply H. by constructor.
Qed.
Lemma zsum_const0 {A} (l : list A) : zsum (fun _ => 0) l = 0.
Proof. by induction l. Qed.
Lemma zsum_add {A} (f g : A -> Z) l : zsum (fun x => f x + g x) l = zsum f l + zsum g l.
Proof. induction l as [|x l IH]; cbn [zsum]; [done|]. lia. Qed.
Lemma zsum_fmap {A B} (h : A -> B) (f : B -> Z) l : zsum f (h <$> l) = zsum (fun x => f (h x)) l.
Proof. induction l as [|x l IH]; [done|]. rewrite fmap_cons. cbn [zsum]. by rewrite IH. Qed.
Lemma zsum_filter {A} (P : A -> Prop) `{forall x, Decision (P x)} (f : A -> Z) l :
  zsum f (filter P l) = zsum (fun x => if decide (P x) then f x else 0) l.
Proof.
  induction l as [|x l IH]; [done|]. rewrite filter_cons. cbn [zsum]. destruct (decide (P x)); cbn [zsum]; rewrite IH; lia.
Qed.
Lemma zsum_swap {A B} (g : A -> B -> Z) la lb :
  zsum (fun a => zsum (g a) lb) la = zsum (fun b => zsum (fun a => g a b) la) lb.
Proof.
  induction la as [|a la IH]; cbn [zsum]; [by rewrite zsum_const0|]. by rewrite IH, zsum_add.
Qed.
Lemma zsum_one {A} `{EqDecision A} (v : Z) (x : A) l : NoDup l -> x ∈ l -> zsum (fun y => if decide (x = y) then v else 0) l = v.
Proof.
  intros Hn. induction Hn as [|y l Hy Hn IH]; intros Hx; [by apply not_elem_of_nil in Hx|]. cbn [zsum].
  apply elem_of_cons in Hx. destruct (decide (x = y)) as [->|Hne].
  - rewrite (zsum_ext _ (fun _ => 0)), zsum_const0; [lia|]. intros z Hz. rewrite decide_False; [done|]. by intros <-.
  - rewrite IH; [lia|]. by destruct Hx.
Qed.
Lemma sql_sum_spec l z : sql_sum l = Some z -> z = zsum id l.
Proof.
  unfold sql_sum. assert (H : forall a, sql_sum_from a l = Some z -> z = a + zsum id l); [|intros E; apply H in E; lia].
  induction l as [|x l IH]; intros a; cbn [sql_sum_from zsum]; [intros [= ->]; lia|].
  case_bool_decide; [|done]. intros E. apply IH in E. unfold id in *. lia.
Qed.
(** Grouping loses no row. *)
Lemma group_by_sum {K V} `{EqDecision K} (key : delta_row -> K) (agg : list delta_row -> option V) (val : V -> Z) (f : delta_row -> Z)
    (g : K -> bool) rows groups :
  (forall rs v, agg rs = Some v -> val v = zsum f rs) ->
  group_by key agg rows = Some groups ->
  zsum (fun e => if g e.1 then val e.2 else 0) groups = zsum (fun d => if g (key d) then f d else 0) rows.
Proof.
  intros Hagg Hg. unfold group_by in Hg. apply mapM_Some in Hg.
  assert (E : forall ks gs, Forall2 (fun k e => (v ← agg (filter (fun d => key d = k) rows); Some (k, v)) = Some e) ks gs ->
     zsum (fun e => if g e.1 then val e.2 else 0) gs
     = zsum (fun k => zsum (fun d => if decide (key d = k) then (if g (key d) then f d else 0) else 0) rows) ks).
  { induction 1 as [|k e ks gs He _ IH]; [done|]. cbn [zsum]. rewrite IH. f_equal.
    destruct (agg _) as [v|] eqn:Ev; [|done]. cbn in He. injection He as <-. cbn.
    apply Hagg in Ev. rewrite zsum_filter in Ev.
    rewrite (zsum_ext _ (fun d => if decide (key d = k) then (if g k then f d else 0) else 0))
      by (intros d _; by destruct (decide (key d = k)) as [->|]).
    destruct (g k); [done|]. rewrite (zsum_ext _ (fun _ => 0)), zsum_const0; [done|]. intros d _. by case_decide. }
  rewrite (E _ _ Hg), zsum_swap. apply zsum_ext. intros d Hd.
  apply (zsum_one (if g (key d) then f d else 0)); [apply NoDup_remove_dups|].
  apply elem_of_remove_dups, list_elem_of_fmap. eauto.
Qed.

(** ** From rows to points *)
(** One of the four amounts: of a point, of a row, of a sum. *)
Definition amount (up raw : bool) (p : TrafficPoint) : Z :=
  match up, raw with
  | true, true => UplinkRawBytes p | true, false => UplinkBillableBytes p
  | false, true => DownlinkRawBytes p | false, false => DownlinkBillableBytes p
  end.
Definition direction_of (up : bool) : string := if up then "uplink" else "downlink".
Definition row_amount (raw : bool) (d : delta_row) : Z := if raw then dr_raw_bytes_delta d else dr_billable_bytes_delta d.
Definition sum_amount (raw : bool) (v : Z * Z) : Z := if raw then v.1 else v.2.
Definition point_amount (up raw : bool) (buckets : gmap string (gmap string TrafficPoint)) (sid key : string) : Z :=
  amount up raw (default empty_point (default ∅ (buckets !! sid) !! key)).

Lemma amount_zero up raw t : amount up raw (zero_point t) = 0.
Proof. by destruct up, raw. Qed.
Lemma both_sums_spec raw rs v : both_sums rs = Some v -> sum_amount raw v = zsum (row_amount raw) rs.
Proof.
  unfold both_sums. destruct (sql_sum (dr_raw_bytes_delta <$> rs)) as [r|] eqn:Er; [|done]. cbn.
  destruct (sql_sum (dr_billable_bytes_delta <$> rs)) as [b|] eqn:Eb; [|done]. cbn. intros [= <-].
  apply sql_sum_spec in Er, Eb. rewrite zsum_fmap in Er, Eb. by destruct raw.
Qed.
Definition is_key (up : bool) (sid key : string) (k : string * option string * string) : bool :=
  bool_decide (k = (sid, Some key, direction_of up)).
Lemma scan_row_amount up raw buckets row sid key :
  is_Some (ParseBucketKey key) ->
  eq64 (point_amount up raw (scan_row buckets row) sid key)
       (point_amount up raw buckets sid key + (if is_key up sid key row.1 then sum_amount raw row.2 else 0)).
Proof.
  intros [start Hs]. destruct row as [[[sk bk] dir] [r b]]. cbn [scan_row fst snd]. unfold is_key.
  assert (Hneq : (sk, bk, dir) <> (sid, Some key, direction_of up) ->
     eq64 (point_amount up raw buckets sid key)
       (point_amount up raw buckets sid key + (if bool_decide ((sk, bk, dir) = (sid, Some key, direction_of up)) then sum_amount raw (r, b) else 0))).
  { intros Hn. rewrite bool_decide_eq_false_2 by done. apply eq64_eq. lia. }
  destruct bk as [k|]; [|by apply Hneq]. destruct (decide (k = key)) as [->|Hk].
  - rewrite Hs. destruct (decide (sk = sid)) as [->|Hid].
    + destruct (String.eqb_spec dir "uplink") as [->|Hu]; [|destruct (String.eqb_spec dir "downlink") as [->|Hd]].
      * unfold point_amount. rewrite lookup_insert_eq. cbn [from_option id]. rewrite lookup_insert_eq. cbn [from_option id].
        destruct up; [rewrite bool_decide_eq_true_2 by done|rewrite bool_decide_eq_false_2 by done];
          destruct raw; cbn [amount sum_amount fst snd UplinkRawBytes UplinkBillableBytes DownlinkRawBytes DownlinkBillableBytes];
          try apply wrap64_eq64; apply eq64_eq; lia.
      * unfold point_amount. rewrite lookup_insert_eq. cbn [from_option id]. rewrite lookup_insert_eq. cbn [from_option id].
        destruct up; [rewrite bool_decide_eq_false_2 by done|rewrite bool_decide_eq_true_2 by done];
          destruct raw; cbn [amount sum_amount fst snd UplinkRawBytes UplinkBillableBytes DownlinkRawBytes DownlinkBillableBytes];
          try apply wrap64_eq64; apply eq64_eq; lia.
      * unfold point_amount at 1. rewrite lookup_insert_eq. cbn [from_option id]. apply Hneq. intros [=]. by destruct up; subst.
    + assert (Hi : forall m, point_amount up raw (<[sk := m]> buckets) sid key = point_amount up raw buckets sid key)
        by (intros m; unfold point_amount; by rewrite lookup_insert_ne).
      destruct (dir =? "uplink")%string, (dir =? "downlink")%string; rewrite Hi; apply Hneq; congruence.
  - destruct (ParseBucketKey k); [|apply Hneq; congruence].
    assert (Hi : forall p, point_amount up raw (<[sk := <[k := p]> (default ∅ (buckets !! sk))]> buckets) sid key = point_amount up raw buckets sid key).
    { intros p. unfold point_amount. destruct (decide (sk = sid)) as [->|]; [|by rewrite lookup_insert_ne].
      rewrite lookup_insert_eq. cbn [from_option id]. by rewrite lookup_insert_ne. }
    destruct (dir =? "uplink")%string, (dir =? "downlink")%string; rewrite ?Hi; try (apply Hneq; congruence).
    transitivity (point_amount up raw buckets sid key); [|apply Hneq; congruence].
    apply eq64_eq. unfold point_amount. destruct (decide (sk = sid)) as [->|]; [by rewrite lookup_insert_eq|by rewrite lookup_insert_ne].
Qed.
Lemma scan_rows_amount up raw rows sid key :
  is_Some (ParseBucketKey key) ->
  eq64 (point_amount up raw (foldl scan_row ∅ rows) sid key) (zsum (fun e => if is_key up sid key e.1 then sum_amount raw e.2 else 0) rows).
Proof.
  intros Hk. induction rows as [|row rows IH] using rev_ind.
  - cbn. unfold point_amount. rewrite lookup_empty. cbn. rewrite lookup_empty. apply eq64_eq, amount_zero.
  - rewrite foldl_app. cbn [foldl]. rewrite scan_row_amount, IH by done.
    apply eq64_eq. clear. induction rows as [|e rows IH]; cbn [app zsum]; lia.
Qed.
Lemma add_points_amount up raw pts p :
  eq64 (amount up raw (foldl add_points p pts)) (amount up raw p + zsum (amount up raw) pts).
Proof.
  revert p. induction pts as [|q pts IH]; intros p; cbn [foldl zsum]; [apply eq64_eq; lia|].
  rewrite IH. assert (E : eq64 (amount up raw (add_points p q)) (amount up raw p + amount up raw q)) by (destruct up, raw; apply wrap64_eq64).
  rewrite E. apply eq64_eq. lia.
Qed.
Lemma zsum_eq64 {A} (f g : A -> Z) l : (forall x, x ∈ l -> eq64 (f x) (g x)) -> eq64 (zsum f l) (zsum g l).
Proof.
  induction l as [|x l IH]; intros H; [done|]. cbn [zsum]. rewrite (H x) by constructor.
  rewrite IH; [done|]. intros y Hy. apply H. by constructor.
Qed.

(** ** From the rows of the window to the totals of a chart *)
Definition row_charted (d : delta_row) : Prop := exists t, charted t /\ dr_observed_at d = Format_RFC3339Nano t.
(** What the handler checks of a filter, and that its window is in the years
    of four digits. *)
Definition valid_filter (f : TrafficSeriesFilter) : Prop :=
  f_Start f <= f_End f /\ f_End f - f_Start f <= MaxSpan (f_Bucket f)
  /\ ValidateBucketOffsetMinutes (f_OffsetMinutes f) = true /\ charted (f_Start f) /\ charted (f_End f).
Definition window_of (f : TrafficSeriesFilter) (scope : trafficSeriesScope) : Prop :=
  sc_StartTime scope = Format_RFC3339Nano (f_Start f) /\ sc_EndTime scope = Format_RFC3339Nano (f_End f).
Definition starts_of (f : TrafficSeriesFilter) : list Time := BucketStarts (f_Start f) (f_End f) (f_Bucket f) (f_OffsetMinutes f).
(** The row falls into a bucket of the chart: the expression yields the key of one. *)
Definition on_chart `{SqliteDates} (f : TrafficSeriesFilter) (d : delta_row) : bool :=
  bool_decide (bucketExpr (f_Bucket f) (f_OffsetMinutes f) (dr_observed_at d) ∈ (fun b => Some (BucketKey b)) <$> starts_of f).
Lemma on_chart_spec `{SqliteDates} f d : on_chart f d = true <->
  exists b, b ∈ starts_of f /\ bucketExpr (f_Bucket f) (f_OffsetMinutes f) (dr_observed_at d) = Some (BucketKey b).
Proof. unfold on_chart. rewrite bool_decide_eq_true, list_elem_of_fmap. split; intros (b & H1 & H2); by exists b. Qed.
(** The rows behind one amount. *)
Definition scope_rows `{SqliteDates} (T : tables) (f : TrafficSeriesFilter) (scope : trafficSeriesScope) (up : bool) : list delta_row :=
  filter (fun d => buildTrafficSeriesPredicates T scope d = true /\ dr_direction d = direction_of up /\ on_chart f d = true) (traffic_usage_deltas T).
Lemma starts_key f x : valid_filter f -> x ∈ starts_of f -> ParseBucketKey (BucketKey x) = Some x.
Proof.
  intros (Hle & Hs & Hoff & H1 & H2) Hx. unfold starts_of in Hx.
  destruct (starts_spec _ _ (f_Bucket f) (f_OffsetMinutes f) Hle Hs) as (m & _ & El & E). rewrite E in Hx.
  apply list_elem_of_fmap in Hx as (i & -> & Hi). apply elem_of_seq in Hi.
  destruct (charted_years _ (f_Bucket f) _ H1 Hoff) as (_ & Y1 & _). destruct (charted_years _ (f_Bucket f) _ H2 Hoff) as (_ & Y2 & _).
  pose proof (step_pos (f_Bucket f)) as Hp. set (x := BucketStart (f_Start f) _ _ + Z.of_nat i * _).
  assert (Ex : BucketStart x (f_Bucket f) (f_OffsetMinutes f) = x).
  { apply BucketStart_unique; [|lia]. subst x. destruct (BucketStart_grid (f_Start f) (f_Bucket f) (f_OffsetMinutes f)) as [k ->]. exists (k + Z.of_nat i). lia. }
  rewrite <- Ex. apply bucket_key_inverse. rewrite Ex. apply (year_ok_between _ _ _ Y1 Y2). rewrite El. subst x. nia.
Qed.
Lemma text_window t1 t2 : charted t1 -> charted t2 ->
  String.ltb (Format_RFC3339Nano t1) (Format_RFC3339Nano t2) = false -> unix_seconds t2 <= unix_seconds t1.
Proof.
  intros H1 H2. assert (Hy : forall t, charted t -> year_ok t) by (intros t Ht; apply (charted_years t BucketHour 0 Ht eq_refl)).
  unfold String.ltb, Format_RFC3339Nano. rewrite compare_format_seconds by auto.
  destruct (Z.compare_spec (unix_seconds t1) (unix_seconds t2)); cbn [then_cmp]; [lia|done|lia].
Qed.
(** The bucket of an admitted row is on the chart, whatever its fraction. *)
Lemma row_on_chart T f scope d t :
  valid_filter f -> window_of f scope -> charted t -> dr_observed_at d = Format_RFC3339Nano t ->
  buildTrafficSeriesPredicates T scope d = true ->
  BucketStart t (f_Bucket f) (f_OffsetMinutes f) ∈ starts_of f.
Proof.
  intros (Hle & Hs & Hoff & H1 & H2) [W1 W2] Ht Hd Hp. unfold buildTrafficSeriesPredicates in Hp. breflect.
  rewrite W1, Hd in *. rewrite W2 in *. apply starts_elem_between; [done..|].
  assert (Hm : forall x y, unix_seconds x <= unix_seconds y ->
     BucketStart x (f_Bucket f) (f_OffsetMinutes f) <= BucketStart y (f_Bucket f) (f_OffsetMinutes f)).
  { intros x y Hxy. rewrite (BucketStart_second x), (BucketStart_second y). apply BucketStart_mono. unfold second. lia. }
  split; apply Hm; by apply text_window.
Qed.

Lemma charted_row_on_chart `{SqliteDates} T f scope d : valid_filter f -> window_of f scope ->
  buildTrafficSeriesPredicates T scope d = true -> row_charted d -> on_chart f d = true.
Proof.
  intros Hf Hw Hp (t & Ht & Et). apply on_chart_spec. exists (BucketStart t (f_Bucket f) (f_OffsetMinutes f)).
  split; [by eapply row_on_chart|]. rewrite Et. destruct Hf as (_ & _ & Hoff & _). by apply sql_bucket.
Qed.

Section charts.
Context `{SqliteDates}.
Variables (T : tables) (f : TrafficSeriesFilter) (scope : trafficSeriesScope) (column : key_column) (ids : list string)
  (buckets : gmap string (gmap string TrafficPoint)).
Hypothesis Hf : valid_filter f.
Hypothesis Hq : queryTrafficBuckets T scope (f_Bucket f) (f_OffsetMinutes f) column ids = Ok buckets.

Lemma series_total key label sid up raw :
  column = NoColumn \/ sid ∈ ids ->
  eq64 (amount up raw (s_Totals (trafficSeriesFromBuckets key label (default ∅ (buckets !! sid)) f (f_Bucket f))))
       (zsum (fun d => if decide (series_key column d = sid) then row_amount raw d else 0) (scope_rows T f scope up)).
Proof.
  intros Hsid. unfold queryTrafficBuckets in Hq. destruct (buildTrafficBucketQuery _ _ _ _ _ _) as [groups|] eqn:Eg; [|done].
  injection Hq as <-. unfold buildTrafficBucketQuery in Eg.
  cbn [trafficSeriesFromBuckets s_Totals]. rewrite add_points_amount. unfold empty_point at 1. rewrite amount_zero, Z.add_0_l.
  unfold ZeroFillSeries. rewrite zsum_fmap. fold (starts_of f).
  rewrite (zsum_eq64 _ (fun b => zsum (fun e => if is_key up sid (BucketKey b) e.1 then sum_amount raw e.2 else 0) groups)).
  2:{ intros b Hb. rewrite <- scan_rows_amount by (rewrite (starts_key f b Hf Hb); eauto). apply eq64_eq. unfold point_amount.
      destruct (default ∅ (foldl scan_row ∅ groups !! sid) !! BucketKey b) as [p|]; [done|]. cbn. unfold empty_point. by rewrite !amount_zero. }
  apply eq64_eq. erewrite (zsum_ext _ _ (starts_of f)).
  2:{ intros b _. exact (group_by_sum _ _ (sum_amount raw) (row_amount raw) _ _ _ (both_sums_spec raw) Eg). }
  rewrite zsum_swap. unfold scope_rows. rewrite !zsum_filter. apply zsum_ext. intros d Hd. cbv beta.
  unfold group_key, is_key. destruct (buildTrafficSeriesPredicates T scope d) eqn:Ep.
  2:{ rewrite decide_False by (by intros ?). by rewrite decide_False by (by intros [? _]). }
  assert (Hzero : (forall b, b ∈ starts_of f -> (series_key column d, bucketExpr (f_Bucket f) (f_OffsetMinutes f) (dr_observed_at d), dr_direction d)
      <> (sid, Some (BucketKey b), direction_of up)) ->
    zsum (fun b => if bool_decide ((series_key column d, bucketExpr (f_Bucket f) (f_OffsetMinutes f) (dr_observed_at d), dr_direction d)
      = (sid, Some (BucketKey b), direction_of up)) then row_amount raw d else 0) (starts_of f) = 0).
  { intros Hn. rewrite (zsum_ext _ (fun _ => 0)), zsum_const0; [done|]. intros b Hb. rewrite bool_decide_eq_false_2; [done|by apply Hn]. }
  destruct (decide (series_key column d = sid)) as [Es|Es]; [|rewrite Hzero by congruence; by repeat case_decide].
  rewrite decide_True; [|destruct Hsid as [->|Hsid]; [done|]].
  2:{ cbn. destruct column, ids; try done; apply bool_decide_eq_true_2; by rewrite Es. }
  destruct (decide (dr_direction d = direction_of up)) as [Ed|Ed]; [|rewrite Hzero by congruence; rewrite decide_False; [done|tauto]].
  destruct (on_chart f d) eqn:Ec.
  - rewrite decide_True by done. apply on_chart_spec in Ec as (b0 & Hin & Eb).
    rewrite (zsum_ext _ (fun b => if decide (b0 = b) then row_amount raw d else 0)); [apply zsum_one; [apply starts_NoDup|done]|].
    intros b Hb. rewrite Eb. destruct (decide (b0 = b)) as [<-|Hne]; [by rewrite bool_decide_eq_true_2 by congruence|].
    rewrite bool_decide_eq_false_2; [done|]. intros [= _ Hk _]. apply Hne.
    pose proof (starts_key f b Hf Hb) as E1. pose proof (starts_key f b0 Hf Hin) as E2. rewrite Hk, E1 in E2. congruence.
  - rewrite decide_False by (by intros (_ & _ & ?)). apply Hzero. intros b Hb [= _ Eb _].
    assert (on_chart f d = true) by (apply on_chart_spec; by exists b). congruence.
Qed.
End charts.

(** *** Ranking *)
Lemma group_by_keys {K V} `{EqDecision K} (key : delta_row -> K) (agg : list delta_row -> option V) rows groups :
  group_by key agg rows = Some groups -> groups.*1 = remove_dups (key <$> rows).
Proof.
  unfold group_by. intros E. apply mapM_Some in E. induction E as [|k g ks gs Hg _ IH]; [done|].
  destruct (agg _); [|done]. cbn in Hg. injection Hg as <-. cbn. by rewrite IH.
Qed.
Lemma label_by_key T column d d' : column <> NoColumn -> series_key column d = series_key column d' -> label_of T column d = label_of T column d'.
Proof. intros Hc E. destruct column; [done| |]; cbn in *; by rewrite E. Qed.
(** The name a series carries is that of the row its id names. *)
Definition key_name (T : tables) (column : key_column) (sid : string) : option string :=
  match column with
  | NoColumn => if (sid =? "")%string then Some "total"%string else None
  | UserColumn => nr_name <$> proxy_users T !! sid
  | NodeColumn => nr_name <$> nodes T !! sid
  end.
Lemma ranked_ids T scope column limit ranked :
  column <> NoColumn -> rankTrafficSeriesKeys T scope column limit = Ok ranked ->
  NoDup (k_ID <$> ranked)
  /\ (Z.of_nat (length ranked) < limit ->
      forall d, d ∈ traffic_usage_deltas T -> buildTrafficSeriesPredicates T scope d = true ->
        is_Some (label_of T column d) -> series_key column d ∈ k_ID <$> ranked)
  /\ (forall k, k ∈ ranked -> key_name T column (k_ID k) = Some (k_Name k)).
Proof.
  intros Hc. unfold rankTrafficSeriesKeys. destruct (group_by _ _ _) as [groups|] eqn:Eg; [|done]. intros [= <-].
  apply group_by_keys in Eg. pose proof (merge_sort_Permutation rank_before groups) as Hp.
  rewrite <- list_fmap_compose. cbn [compose]. change (k_ID ∘ (fun g : string * string * Z => {| k_ID := g.1.1; k_Name := g.1.2 |})) with (fun g : string * string * Z => g.1.1).
  assert (Hkey : forall g, g ∈ groups -> exists d, is_Some (label_of T column d) /\ g.1 = (series_key column d, default ""%string (label_of T column d))).
  { intros g Hg. assert (Hin : g.1 ∈ groups.*1) by (by apply list_elem_of_fmap_2).
    rewrite Eg in Hin. apply elem_of_remove_dups, list_elem_of_fmap in Hin as (d & -> & Hd).
    apply list_elem_of_filter in Hd as [[_ Hl] _]. eauto. }
  assert (Hnd : NoDup ((fun g : string * string * Z => g.1.1) <$> groups)).
  { assert (Hn : NoDup groups.*1) by (rewrite Eg; apply NoDup_remove_dups).
    apply NoDup_fmap_2_strong; [|by apply NoDup_fmap_1 in Hn].
    intros x y Hx Hy E. destruct (Hkey x Hx) as (dx & _ & Ex), (Hkey y Hy) as (dy & _ & Ey).
    apply list_elem_of_lookup in Hx as [i Hi]. apply list_elem_of_lookup in Hy as [j Hj].
    assert (Hij : i = j); [|congruence]. apply (NoDup_lookup groups.*1 i j (x.1) Hn); rewrite list_lookup_fmap; [by rewrite Hi|].
    rewrite Hj. cbn. f_equal. rewrite Ex, Ey in *. cbn in E. by rewrite E, (label_by_key T column dx dy). }
  split_and!.
  - refine (sublist_NoDup _ ((fun g => g.1.1) <$> merge_sort rank_before groups) _ _).
    + by rewrite Hp.
    + apply fmap_sublist, sublist_take.
  - intros Hlen d Hd Hp' Hl. rewrite length_fmap, length_take in Hlen. rewrite take_ge by lia. rewrite Hp.
    assert (Hin : (series_key column d, default ""%string (label_of T column d)) ∈ groups.*1).
    { rewrite Eg. apply elem_of_remove_dups, list_elem_of_fmap. exists d. split; [done|]. by apply list_elem_of_filter. }
    apply list_elem_of_fmap in Hin as (g & E & Hg). apply list_elem_of_fmap. exists g. split; [by rewrite <- E|done].
  - intros k (g & -> & Hg)%list_elem_of_fmap. apply (fun H => elem_of_sublist _ (merge_sort rank_before groups) _ H ltac:(apply sublist_take)) in Hg.
    rewrite Hp in Hg. destruct (Hkey g Hg) as (d & [l El] & ->). cbn. rewrite El. cbn. by destruct column.
Qed.

Definition referential_integrity (T : tables) : Prop :=
  Forall (fun d => is_Some (nodes T !! dr_node_id d) /\ is_Some (proxy_users T !! dr_proxy_user_id d)) (traffic_usage_deltas T).

Lemma total_rows `{SqliteDates} column T f scope up raw :
  column = NoColumn ->
  zsum (fun d => if decide (series_key column d = ""%string) then row_amount raw d else 0) (scope_rows T f scope up) = zsum (row_amount raw) (scope_rows T f scope up).
Proof. intros ->. apply zsum_ext. intros d _. by rewrite decide_True. Qed.
Lemma own_rows_add_up `{SqliteDates} column T f scope up raw ids :
  NoDup ids -> (forall d, d ∈ scope_rows T f scope up -> series_key column d ∈ ids) ->
  zsum (fun sid => zsum (fun d => if decide (series_key column d = sid) then row_amount raw d else 0) (scope_rows T f scope up)) ids
  = zsum (row_amount raw) (scope_rows T f scope up).
Proof. intros Hn Hin. rewrite zsum_swap. apply zsum_ext. intros d Hd. by apply zsum_one, Hin. Qed.

(** What the series of an answer have to do with the rows of the window. *)
Definition chart_exact `{SqliteDates} (T : tables) (f : TrafficSeriesFilter) (scope : trafficSeriesScope) (column : key_column) (res : TrafficSeriesResult) : Prop :=
  (forall s, s ∈ r_Series res -> exists sid, key_name T column sid = Some (s_Key s) /\ forall up raw,
     eq64 (amount up raw (s_Totals s))
          (zsum (fun d => if decide (series_key column d = sid) then row_amount raw d else 0) (scope_rows T f scope up)))
  /\ (r_Truncated res = false -> forall up raw,
     eq64 (zsum (fun s => amount up raw (s_Totals s)) (r_Series res)) (zsum (row_amount raw) (scope_rows T f scope up))).
Lemma grouped_exact `{SqliteDates} T f scope column res :
  valid_filter f -> referential_integrity T ->
  column <> NoColumn -> groupedSeries T f scope column = Ok res ->
  chart_exact T f scope column res.
Proof.
  intros Hf Hfk Hc. unfold groupedSeries.
  assert (Hpos : 1 <= series_limit f) by (unfold series_limit; repeat case_match; breflect; unfold trafficSeriesMaxLimit, trafficSeriesDefaultLimit in *; lia).
  generalize dependent (series_limit f). intros limit Hpos.
  destruct (rankTrafficSeriesKeys _ _ _ _) as [all|] eqn:Er; [|done]. cbn zeta.
  destruct (ranked_ids _ _ _ _ _ Hc Er) as (Hnd & Hall & Hname).
  set (ranked := if _ <? _ then _ else all).
  assert (Hcomplete : (limit <? Z.of_nat (length all)) = false -> forall up d, d ∈ scope_rows T f scope up -> series_key column d ∈ k_ID <$> ranked).
  { intros Hlim up d Hd. subst ranked. rewrite Hlim. breflect. apply list_elem_of_filter in Hd as [[Hp _] Hd].
    apply Hall; [lia|done|done|]. pose proof (proj1 (Forall_forall _ _) Hfk d Hd) as [Hn Hu].
    destruct column; [done|by apply fmap_is_Some|by apply fmap_is_Some]. }
  assert (Hnd' : NoDup (k_ID <$> ranked)).
  { subst ranked. destruct (_ <? _); [|done]. eapply sublist_NoDup; [exact Hnd|]. apply fmap_sublist, sublist_take. }
  assert (Hname' : forall k, k ∈ ranked -> key_name T column (k_ID k) = Some (k_Name k)).
  { intros k Hk. apply Hname. subst ranked. destruct (_ <? _); [|done]. exact (elem_of_sublist _ all _ Hk ltac:(apply sublist_take)). }
  assert (Hnone : ranked = [] -> (limit <? Z.of_nat (length all)) = false).
  { subst ranked. destruct (limit <? _) eqn:E; [|done]. breflect. intros Hl. apply (f_equal length) in Hl.
    rewrite length_take in Hl. cbn in Hl. lia. }
  clearbody ranked. destruct (decide (ranked = [])) as [->|Hne].
  - specialize (Hnone eq_refl). intros [= <-]. split; cbn [r_Series r_Truncated]; [by intros s ?%not_elem_of_nil|].
    intros _ up raw. apply eq64_eq. rewrite <- (own_rows_add_up column T f scope up raw []); [done|constructor|].
    intros d Hd. by apply (Hcomplete Hnone up).
  - intros Hres. assert (Hres' : (let? buckets := queryTrafficBuckets T scope (f_Bucket f) (f_OffsetMinutes f) column (k_ID <$> ranked) in
      Ok {| r_Series := (fun key => trafficSeriesFromBuckets (k_Name key) (k_Name key)
                           (default ∅ (buckets !! k_ID key)) f (f_Bucket f)) <$> ranked;
            r_Truncated := limit <? Z.of_nat (length all) |}) = Ok res) by (by destruct ranked).
    clear Hres. destruct (queryTrafficBuckets _ _ _ _ _ _) as [buckets|] eqn:Eq; [|done]. injection Hres' as <-.
    pose proof (series_total T f scope column (k_ID <$> ranked) buckets Hf Eq) as Ht. split; cbn [r_Series r_Truncated].
    + intros s (k & -> & Hk)%list_elem_of_fmap. exists (k_ID k). split; [by apply Hname'|]. intros up raw. apply Ht. right. by apply list_elem_of_fmap_2.
    + intros Htr up raw. rewrite zsum_fmap. rewrite <- (own_rows_add_up column T f scope up raw (k_ID <$> ranked)); [|done|by apply Hcomplete].
      rewrite zsum_fmap. apply zsum_eq64. intros k Hk. apply Ht. right. by apply list_elem_of_fmap_2.
Qed.

(** C30: No traffic is lost between the ledger and the charts.  Every series
    sums, in each direction and in raw and billable bytes, exactly the rows of
    the window that carry its key and fall into a bucket of the chart (modulo
    2^64); and when the answer is not truncated the series together sum every
    such row the filter admits, whatever the grouping.  A row of the window whose
    time is written as Go writes it always falls into a bucket: only rows with
    other texts can be left out. *)
Theorem charts_lose_no_traffic `{UnicodeTables} `{SqliteDates} T f res :
  valid_filter f -> referential_integrity T -> TrafficSeries T f = Ok res ->
  exists column scope,
    trafficSeriesKeyColumn (if (f_Group f =? "")%string then "total" else f_Group f) = Some column
    /\ resolveTrafficSeriesScope T f = Ok scope
    /\ chart_exact T f scope column res
    /\ forall d, buildTrafficSeriesPredicates T scope d = true -> row_charted d -> on_chart f d = true.
Proof.
  intros Hf Hfk. unfold TrafficSeries. destruct (trafficSeriesKeyColumn _) as [column|]; [|done].
  destruct (resolveTrafficSeriesScope T f) as [scope|] eqn:Es; [|done]. intros Hres. exists column, scope.
  split; [done|]. split; [done|].
  assert (Hw : window_of f scope).
  { unfold resolveTrafficSeriesScope in Es. break_all Es; done. }
  split; [|by intros d; apply charted_row_on_chart].
  destruct (decide (column = NoColumn)) as [->|Hc].
  - rewrite bool_decide_eq_true_2 in Hres by done.
    destruct (queryTrafficBuckets _ _ _ _ _ _) as [buckets|] eqn:Eq; [|done]. injection Hres as <-.
    pose proof (series_total T f scope NoColumn [] buckets Hf Eq "total" "All traffic" "") as Ht.
    split; cbn [r_Series r_Truncated].
    + intros s ->%list_elem_of_singleton. exists ""%string. split; [done|]. intros up raw. apply Ht. by left.
    + intros _ up raw. cbn [zsum]. rewrite Z.add_0_r, Ht by (by left). by rewrite total_rows.
  - rewrite bool_decide_eq_false_2 in Hres by done. by apply (grouped_exact T f).
Qed.

(** *** A small ledger: two users on two nodes over two days *)
Definition ledger_row (node user direction : string) (raw billable : Z) (t : Time) : delta_row :=
  {| dr_node_id := node; dr_proxy_user_id := user; dr_direction := direction; dr_raw_bytes_delta := raw;
     dr_billable_bytes_delta := billable; dr_observed_at := Format_RFC3339Nano t |}.
Definition noon : Time := 1714564800000000000.
Definition ledger : tables := {|
  traffic_usage_deltas := [ledger_row "n1" "u1" "uplink" 10 20 noon; ledger_row "n1" "u2" "downlink" 7 7 (noon + 13 * hour + 5);
                           ledger_row "n2" "u1" "uplink" 5 5 (noon + 2 * hour)];
  nodes := <["n1"%string := {| nr_name := "tokyo"; nr_deleted := false |}]> {["n2"%string := {| nr_name := "paris"; nr_deleted := false |}]};
  node_name_aliases := ∅;
  proxy_users := <["u1"%string := {| nr_name := "ann"; nr_deleted := false |}]> {["u2"%string := {| nr_name := "bob"; nr_deleted := false |}]}
|}.
Definition by_user : TrafficSeriesFilter := {|
  f_Start := noon - hour; f_End := noon + 2 * day; f_Bucket := BucketDay; f_OffsetMinutes := 60;
  f_Group := "user"; f_UserName := ""; f_NodeName := " tokyo "; f_Limit := 0
|}.
#[local] Existing Instance ascii_only_tables.
#[local] Existing Instance calendar_dates.
Example by_user_answer :
  match TrafficSeries ledger by_user with
  | Ok res => (fun s => (s_Label s, amount true true (s_Totals s), amount false true (s_Totals s), length (s_Points s))) <$> r_Series res
  | Err _ => []
  end = [("ann"%string, 10, 0, 3%nat); ("bob"%string, 0, 7, 3%nat)].
Proof. vm_compute. reflexivity. Qed.
Lemma charts_lose_no_traffic_witness :
  match TrafficSeries ledger by_user with
  | Ok res => eq64 (zsum (fun s => amount false true (s_Totals s)) (r_Series res)) 7
  | Err _ => False
  end.
Proof.
  pose proof (charts_lose_no_traffic ledger by_user) as Hl.
  destruct (TrafficSeries ledger by_user) as [res|] eqn:E; [|by vm_compute in E].
  destruct (Hl res) as (column & scope & Ec & Es & (_ & Hsum) & _).
  - unfold valid_filter, charted. split_and!; first [apply Z.leb_le; vm_compute; reflexivity|apply Z.ltb_lt; vm_compute; reflexivity|vm_compute; reflexivity].
  - repeat constructor; vm_compute; eauto.
  - reflexivity.
  - vm_compute in E. injection E as <-.
    rewrite Hsum by reflexivity. vm_compute in Ec. injection Ec as <-. vm_compute in Es. injection Es as <-. by vm_compute.
Defined.

(** The filter compares texts, and the fraction of a second is part of them: a
    row half a second into the window's first second is left out, and one half
    a second after the window's end is let in. *)
Example window_is_off_by_fractions :
  let scope := {| sc_NodeID := ""; sc_UserID := ""; sc_StartTime := Format_RFC3339Nano noon; sc_EndTime := Format_RFC3339Nano (noon + hour) |} in
  buildTrafficSeriesPredicates ledger scope (ledger_row "n1" "u1" "uplink" 1 1 (noon + 500 * millisecond)) = false
  /\ buildTrafficSeriesPredicates ledger scope (ledger_row "n1" "u1" "uplink" 1 1 (noon + hour + 500 * millisecond)) = true.
Proof. vm_compute. auto. Qed.
