(* ===== verification/PathGrants.v ===== *)
(** * Who may use which path
    ([src/internal/server/db/path_groups.go], [path_selection.go], the grants
    of [paths.go] and the credentials of [proxy_credentials.go])

    A user is granted paths directly or through groups.  What takes effect is
    a row of path_accesses per granted path, and for every hop behind it a
    binding to the node and a credential of the proxy.  [reconcilePathGrants]
    brings those rows in line with what is desired; every operation runs in one
    transaction.  The tables are those of [Paths] and a few more; generated
    ids and secrets and SQLite's clock come from an oracle. *)
From S2P Require Import Prelude GoStrings Effects.
From S2P Require Import Paths.

#[local] Open Scope Z_scope.

Definition MaxPathGroupMembers : Z := 200.
Definition MaxPathGroupUsers : Z := 500.
Definition MaxPathGroupAccesses : Z := 5000.

Record path_group := {
  pg_Name : string; pg_Description : string; pg_Enabled : bool; pg_Revision : Z; pg_DeletedAt : option string
}.
Record PathGroupChange := {
  ch_Operation : string; ch_GroupID : string; ch_UserID : string; ch_Name : string; ch_Description : string;
  ch_Enabled : bool; ch_Revision : Z; ch_PathIDs : list string; ch_PreviewToken : string
}.
Record PathGroupUserImpact := {
  ui_UserID : string; ui_UserName : string; ui_Added : list string; ui_Removed : list string; ui_Retained : list string
}.
Record PathGroupImpact := {
  im_PreviewToken : string; im_GroupID : string; im_Users : list PathGroupUserImpact; im_NodeIDs : list string
}.
Record store := {
  base : Paths.tables;                                    (* with path_group_members *)
  direct_path_grants : gmap (string * string) bool;       (* (user, path) -> enabled *)
  path_groups : gmap string path_group;
  member_order : gmap (string * string) Z;                (* sort_order of path_group_members *)
  user_path_group_grants : gset (string * string);        (* (user, group) *)
  proxy_name_aliases : gmap string string;                (* alias -> proxy *)
  credential_json : gmap (string * string) string;        (* (user, proxy), of [credentials] *)
  path_group_changes : gmap string (PathGroupChange * PathGroupImpact)
}.
Definition with_accesses (b : Paths.tables) (l : list PathAccess) : Paths.tables := {|
  paths := paths b; endpoints := endpoints b; path_accesses := l; path_group_members := path_group_members b;
  nodes := nodes b; node_name_aliases := node_name_aliases b; proxies := proxies b; proxy_users := proxy_users b;
  bindings := bindings b; credentials := credentials b |}.
Definition with_members (b : Paths.tables) (m : gset (string * string)) : Paths.tables := {|
  paths := paths b; endpoints := endpoints b; path_accesses := path_accesses b; path_group_members := m;
  nodes := nodes b; node_name_aliases := node_name_aliases b; proxies := proxies b; proxy_users := proxy_users b;
  bindings := bindings b; credentials := credentials b |}.
Definition with_bindings (b : Paths.tables) (m : gmap (string * string) bool) : Paths.tables := {|
  paths := paths b; endpoints := endpoints b; path_accesses := path_accesses b; path_group_members := path_group_members b;
  nodes := nodes b; node_name_aliases := node_name_aliases b; proxies := proxies b; proxy_users := proxy_users b;
  bindings := m; credentials := credentials b |}.
Definition set_base (s : store) (b : Paths.tables) : store := {|
  base := b; direct_path_grants := direct_path_grants s; path_groups := path_groups s; member_order := member_order s;
  user_path_group_grants := user_path_group_grants s; proxy_name_aliases := proxy_name_aliases s;
  credential_json := credential_json s; path_group_changes := path_group_changes s |}.
Definition set_direct (s : store) (m : gmap (string * string) bool) : store := {|
  base := base s; direct_path_grants := m; path_groups := path_groups s; member_order := member_order s;
  user_path_group_grants := user_path_group_grants s; proxy_name_aliases := proxy_name_aliases s;
  credential_json := credential_json s; path_group_changes := path_group_changes s |}.
Definition set_groups (s : store) (m : gmap string path_group) : store := {|
  base := base s; direct_path_grants := direct_path_grants s; path_groups := m; member_order := member_order s;
  user_path_group_grants := user_path_group_grants s; proxy_name_aliases := proxy_name_aliases s;
  credential_json := credential_json s; path_group_changes := path_group_changes s |}.
Definition set_group_grants (s : store) (m : gset (string * string)) : store := {|
  base := base s; direct_path_grants := direct_path_grants s; path_groups := path_groups s; member_order := member_order s;
  user_path_group_grants := m; proxy_name_aliases := proxy_name_aliases s;
  credential_json := credential_json s; path_group_changes := path_group_changes s |}.
Definition set_credential (s : store) (key : string * string) (c : ProxyCredential) (secret : string) : store := {|
  base := with_credentials (base s) (<[key := c]> (credentials (base s)));
  direct_path_grants := direct_path_grants s; path_groups := path_groups s; member_order := member_order s;
  user_path_group_grants := user_path_group_grants s; proxy_name_aliases := proxy_name_aliases s;
  credential_json := <[key := secret]> (credential_json s); path_group_changes := path_group_changes s |}.
Definition set_members (s : store) (m : gset (string * string)) (o : gmap (string * string) Z) : store := {|
  base := with_members (base s) m; direct_path_grants := direct_path_grants s; path_groups := path_groups s; member_order := o;
  user_path_group_grants := user_path_group_grants s; proxy_name_aliases := proxy_name_aliases s;
  credential_json := credential_json s; path_group_changes := path_group_changes s |}.
Definition add_change (s : store) (id : string) (c : PathGroupChange * PathGroupImpact) : store := {|
  base := base s; direct_path_grants := direct_path_grants s; path_groups := path_groups s; member_order := member_order s;
  user_path_group_grants := user_path_group_grants s; proxy_name_aliases := proxy_name_aliases s;
  credential_json := credential_json s; path_group_changes := <[id := c]> (path_group_changes s) |}.
Inductive GrantError :=
| PathErr (e : PathError) | ConstraintErr | ProxyNameNotFound (name : string) | WrongProtocol | BindingNotFound
| BindingDisabled | CredentialNotFound | UnsupportedProtocol | GenerateFailed | DependencyOnly (path : string)
| BlockedCredential (proxy : string) | SelectionSize | DuplicatePath (path : string) | PathDisabled
| PathGroupConflict | TooManyUsers | GroupNameSize | TooManyMembers | TooManyAccesses | GroupNotFound
| UserRequired | UnsupportedOperation | AccessNotFound | Exhausted.

Abbreviation M := (eff store GrantError).

(** What a statement draws: an id, a new secret ([None]: the settings of the
    proxy do not admit one), the clock. *)
Record draw := { dr_id : string; dr_secret : option string; dr_now : string }.

Section oracle.
Variable oracle : nat -> draw.

Definition get : M store := fun s => (Ok s.1, s).
Definition put (f : store -> store) : M unit := fun s => (Ok tt, (f s.1, s.2)).
Definition drawn : M draw := fun s => (Ok (oracle s.2), (s.1, S s.2)).
(** A query of [Paths]. *)
Definition query {A} (f : Paths.tables -> res A) : M A := fun s =>
  (match f (base s.1) with Ok a => Ok a | Err e => Err (PathErr e) end, s).
Definition guard (b : bool) (e : GrantError) : M unit := if b then mret tt else fail e.
(** withTx: an error rolls everything back. *)
Definition atomic {A} (m : M A) : M A := fun s =>
  match m s with
  | (Err e, s') => (Err e, (s.1, s'.2))
  | r => r
  end.

(** ** Proxies and credentials *)
(** resolveProxy (not including deleted) *)
Definition proxy_by_name (s : store) (nodeID name : string) : option Proxy :=
  List.find (fun p => (px_NodeID p =? nodeID)%string
      && ((px_Name p =? name)%string || bool_decide (proxy_name_aliases s !! name = Some (px_ID p))))
    (omap (fun kp => live_proxy (base s) kp.1) (map_to_list (proxies (base s)))).
Definition GetProxy (nodeName name : string) : M Proxy :=
  node ← query (fun b => GetNode b nodeName);
  s ← get;
  let reference := TrimSpace name in
  match proxies (base s) !! reference with
  | Some row =>
      match live_proxy (base s) reference with
      | Some p => if (px_NodeID p =? no_ID node)%string then mret p else fail (ProxyNameNotFound name)
      | None => fail (ProxyNameNotFound name)
      end
  | None => match proxy_by_name s (no_ID node) reference with
            | Some p => mret p
            | None => fail (ProxyNameNotFound name)
            end
  end.
Definition is_set {A} (o : option A) : bool := match o with Some _ => true | None => false end.
(** q.GetProxyAccess: by the names of live rows *)
Definition GetProxyCredential (userName nodeName proxyName : string) : M ProxyCredential :=
  proxy ← GetProxy nodeName proxyName;
  s ← get;
  match List.find (fun kc =>
      negb (is_set (pk_DeletedAt kc.2))
      && match proxy_users (base s) !! kc.1.1 with
         | Some u => (us_Name u =? TrimSpace userName)%string && negb (is_set (us_DeletedAt u))
         | None => false
         end
      && match live_proxy (base s) kc.1.2 with
         | Some p => (px_NodeName p =? px_NodeName proxy)%string && (px_Name p =? px_Name proxy)%string
         | None => false
         end) (map_to_list (credentials (base s))) with
  | Some kc => mret kc.2
  | None => fail CredentialNotFound
  end.
(** GetUserNodeBinding: whether it is enabled *)
Definition GetUserNodeBinding (userID nodeName : string) : M bool :=
  node ← query (fun b => GetNode b nodeName);
  s ← get;
  match proxy_users (base s) !! TrimSpace userID with
  | None => fail (PathErr (UserNotFound userID))
  | Some _ => match bindings (base s) !! (TrimSpace userID, no_ID node) with
              | Some enabled => mret enabled
              | None => fail BindingNotFound
              end
  end.
Definition BindUserToNode (userName nodeName : string) : M unit :=
  user ← query (fun b => GetProxyUser b userName);
  node ← query (fun b => GetNode b nodeName);
  drawn;;
  put (fun s => set_base s (with_bindings (base s) (<[(us_ID user, no_ID node) := true]> (bindings (base s)))));;
  GetUserNodeBinding (us_ID user) (no_ID node);;
  mret tt.
Definition auth_name_exists (s : store) (name : string) : bool :=
  existsb (fun kc => (pk_AuthName kc.2 =? name)%string) (map_to_list (credentials (base s))).
Definition credential_id_exists (s : store) (id : string) : bool :=
  existsb (fun kc => (pk_ID kc.2 =? id)%string) (map_to_list (credentials (base s))).
Definition generate : M string :=
  d ← drawn; match dr_secret d with Some secret => mret secret | None => fail GenerateFailed end.
Definition issueProxyCredential (userName nodeName proxyName expectedProtocol : string) : M unit :=
  user ← query (fun b => GetProxyUser b userName);
  proxy ← GetProxy nodeName proxyName;
  guard (px_Protocol proxy =? expectedProtocol)%string WrongProtocol;;
  enabled ← GetUserNodeBinding (us_ID user) (px_NodeID proxy);
  guard enabled BindingDisabled;;
  s ← get;
  let key := (us_ID user, px_ID proxy) in
  match credentials (base s) !! key with
  | Some existing =>
      if pk_Enabled existing && negb (is_set (pk_DeletedAt existing)) then mret tt
      else
        secret ← generate;
        put (fun s => set_credential s key
          {| pk_ID := pk_ID existing; pk_AuthName := pk_AuthName existing; pk_Enabled := true; pk_DeletedAt := None |} secret);;
        GetProxyCredential (us_Name user) (px_NodeName proxy) (px_Name proxy);;
        mret tt
  | None =>
      d ← drawn;
      secret ← generate;
      let authName := (px_Name proxy ++ "@" ++ us_Name user)%string in
      let authName := if auth_name_exists s authName then dr_id d else authName in
      guard (negb (credential_id_exists s (dr_id d))
             && negb (existsb (fun kc => (kc.1.2 =? px_ID proxy)%string && (pk_AuthName kc.2 =? authName)%string)
                        (map_to_list (credentials (base s))))) ConstraintErr;;
      put (fun s => set_credential s key
        {| pk_ID := dr_id d; pk_AuthName := authName; pk_Enabled := true; pk_DeletedAt := None |} secret);;
      GetProxyCredential (us_Name user) (px_NodeName proxy) (px_Name proxy);;
      mret tt
  end.

(** ** Granting a path *)
Definition ProtocolVLESSReality : string := "vless_reality".
Definition ProtocolShadowsocks2022 : string := "shadowsocks_2022".

(** The closure [ensure] of grantPathToUser: binding and credential for every
    hop of the chain; [seen] is threaded. *)
Definition ensure_hop (userName : string) (user : ProxyUser) (current : Path) : M unit :=
  endpoint ← query (fun b => GetEndpoint b (pa_EndpointID current));
  ph ← query (fun b => ResolveEndpoint b endpoint);
  let proxy := ph.1 in
  s ← get;
  match bindings (base s) !! (us_ID user, px_NodeID proxy) with
  | Some enabled => guard enabled BindingDisabled
  | None => BindUserToNode userName (px_NodeName proxy)
  end;;
  if (px_Protocol proxy =? ProtocolVLESSReality)%string || (px_Protocol proxy =? ProtocolShadowsocks2022)%string
  then issueProxyCredential userName (px_NodeName proxy) (px_Name proxy) (px_Protocol proxy)
  else fail UnsupportedProtocol.
Fixpoint ensure (userName : string) (user : ProxyUser) (fuel : nat) (seen : gset string) (current : Path) : M unit :=
  match fuel with
  | O => fail Exhausted
  | S fuel =>
      if bool_decide (pa_ID current ∈ seen) then mret tt
      else
        ensure_hop userName user current;;
        match pa_DialerPathID current with
        | None => mret tt
        | Some d => dialer ← query (fun b => GetPath b d); ensure userName user fuel (seen ∪ {[pa_ID current]}) dialer
        end
  end.
Definition is_access (pathID userID : string) (a : PathAccess) : bool :=
  (pc_PathID a =? pathID)%string && (pc_ProxyUserID a =? userID)%string.
Definition effective (a : PathAccess) : bool := pc_Enabled a && negb (is_set (pc_DeletedAt a)).
Definition restored (a : PathAccess) : PathAccess :=
  {| pc_ID := pc_ID a; pc_PathID := pc_PathID a; pc_ProxyUserID := pc_ProxyUserID a; pc_Enabled := true; pc_DeletedAt := None |}.
Definition retired (now : string) (a : PathAccess) : PathAccess :=
  {| pc_ID := pc_ID a; pc_PathID := pc_PathID a; pc_ProxyUserID := pc_ProxyUserID a; pc_Enabled := false; pc_DeletedAt := Some now |}.
(** RestorePathAccess, SoftDeletePathAccess *)
Definition RestorePathAccess (pathID userID : string) (l : list PathAccess) : list PathAccess :=
  map (fun a => if is_access pathID userID a then restored a else a) l.
Definition SoftDeletePathAccess (now pathID userID : string) (l : list PathAccess) : list PathAccess :=
  map (fun a => if is_access pathID userID a && negb (is_set (pc_DeletedAt a)) then retired now a else a) l.
Definition put_accesses (f : list PathAccess -> list PathAccess) : M unit :=
  put (fun s => set_base s (with_accesses (base s) (f (path_accesses (base s))))).
Definition grantPathAccess (userName pathID : string) : M unit :=
  user ← query (fun b => GetProxyUser b userName);
  query (fun b => GetPath b pathID);;
  s ← get;
  match List.find (is_access pathID (us_ID user)) (path_accesses (base s)) with
  | Some row => if effective row then mret tt else put_accesses (RestorePathAccess pathID (us_ID user))
  | None =>
      d ← drawn;
      guard (negb (existsb (fun a => (pc_ID a =? dr_id d)%string) (path_accesses (base s)))
             && is_set (paths (base s) !! pathID)) ConstraintErr;;
      put_accesses (fun l => l ++ [{| pc_ID := dr_id d; pc_PathID := pathID; pc_ProxyUserID := us_ID user;
                                      pc_Enabled := true; pc_DeletedAt := None |}])
  end.
Definition grantPathToUser (userName pathID : string) : M unit :=
  user ← query (fun b => GetProxyUser b userName);
  path ← query (fun b => GetPath b pathID);
  guard (pa_Visibility path =? PathVisibilitySelectable)%string (DependencyOnly (pa_Name path));;
  query (fun b => validatePublishedNamesForUser b userName (pa_ID path) None);;
  s ← get;
  ensure userName user (walk_fuel (base s)) ∅ path;;
  grantPathAccess userName (pa_ID path).

(** ** What a user is to have: the sources *)
Definition direct_ids (s : store) (userID : string) : list string :=
  omap (fun kd => if (kd.1.1 =? userID)%string && kd.2 then Some kd.1.2 else None) (map_to_list (direct_path_grants s)).
Definition group_applies (s : store) (userID groupID : string) : bool :=
  bool_decide ((userID, groupID) ∈ user_path_group_grants s)
  && match path_groups s !! groupID with
     | Some g => pg_Enabled g && negb (is_set (pg_DeletedAt g))
     | None => false
     end.
Definition group_ids (s : store) (userID : string) : list string :=
  omap (fun m => if group_applies s userID m.1 then Some m.2 else None) (elements (path_group_members (base s))).
Definition ListUserDesiredPathIDs (s : store) (userID : string) : list string :=
  merge_sort name_le (remove_dups (direct_ids s userID ++ group_ids s userID)).
Definition SetDirectPathGrant (userID pathID : string) : M unit :=
  s ← get;
  guard (is_set (proxy_users (base s) !! userID) && is_set (paths (base s) !! pathID)) ConstraintErr;;
  put (fun s => set_direct s (<[(userID, pathID) := true]> (direct_path_grants s))).
Definition DeleteDirectPathGrant (userID pathID : string) : M unit :=
  put (fun s => set_direct s (delete (userID, pathID) (direct_path_grants s))).
Definition DeleteUserPathGroupGrants (userID : string) : M unit :=
  put (fun s => set_group_grants s (filter (fun g => g.1 <> userID) (user_path_group_grants s))).

(** ** reconcilePathGrants *)
Definition by_path (a b : PathAccess) : Prop := name_le (pc_PathID a) (pc_PathID b).
#[local] Instance by_path_dec a b : Decision (by_path a b).
Proof. unfold by_path. apply _. Defined.
Definition ListUserPathAccessesIncludingInactive (s : store) (userID : string) : list PathAccess :=
  merge_sort by_path (List.filter (fun a => (pc_ProxyUserID a =? userID)%string) (path_accesses (base s))).
(** The closure [collect]: [(proxies, seen)]. *)
Fixpoint collect (b : Paths.tables) (fuel : nat) (st : gset string * gset string) (pid : string)
    : res (gset string * gset string) :=
  match fuel with
  | O => Err OutOfFuel
  | S fuel =>
      let (proxies, seen) := st in
      if bool_decide (pid ∈ seen) then Ok st
      else
        let? p := GetPath b pid in
        let? ep := GetEndpoint b (pa_EndpointID p) in
        let st := (proxies ∪ {[ep_ProxyID ep]}, seen ∪ {[pid]}) in
        match pa_DialerPathID p with
        | Some d => collect b fuel st d
        | None => Ok st
        end
  end.
Definition collect_proxies (proxies : gset string) (pid : string) : M (gset string) :=
  st ← query (fun b => collect b (walk_fuel b) (proxies, ∅) pid);
  mret st.1.
Definition containsID (ids : list string) (ID : string) : bool := existsb (fun v => (v =? ID)%string) ids.
(** The loop over the user's rows: [(active, previouslyRequired)]. *)
Fixpoint retire_rows (userID : string) (desired : list string) (rows : list PathAccess) (st : gset string * gset string)
    : M (gset string * gset string) :=
  match rows with
  | [] => mret st
  | r :: rows =>
      if negb (effective r) then retire_rows userID desired rows st
      else
        required ← collect_proxies st.2 (pc_PathID r);
        if containsID desired (pc_PathID r)
        then retire_rows userID desired rows (st.1 ∪ {[pc_PathID r]}, required)
        else
          d ← drawn;
          put_accesses (SoftDeletePathAccess (dr_now d) (pc_PathID r) userID);;
          retire_rows userID desired rows (st.1, required)
  end.
Definition live (c : ProxyCredential) : bool := pk_Enabled c && negb (is_set (pk_DeletedAt c)).
Definition blocked_proxies (s : store) (userID : string) (required : gset string) : gset string :=
  list_to_set (omap (fun kc =>
    if (kc.1.1 =? userID)%string && bool_decide (kc.1.2 ∈ required) && negb (live kc.2) then Some kc.1.2 else None)
    (map_to_list (credentials (base s)))).
Fixpoint extend_access (userID : string) (active blocked : gset string) (desired : list string) : M unit :=
  match desired with
  | [] => mret tt
  | pid :: desired =>
      if bool_decide (pid ∈ active) then extend_access userID active blocked desired
      else
        required ← collect_proxies ∅ pid;
        match List.find (fun x => bool_decide (x ∈ blocked)) (elements required) with
        | Some x => fail (BlockedCredential x)
        | None => grantPathToUser userID pid;; extend_access userID active blocked desired
        end
  end.
Definition run_tables (f : Paths.tables -> res Paths.tables) : M unit :=
  b ← query f; put (fun s => set_base s b).
Definition reconcilePathGrants (userID : string) : M unit :=
  user ← query (fun b => GetProxyUser b userID);
  s ← get;
  let desired := ListUserDesiredPathIDs s (us_ID user) in
  let rows := ListUserPathAccessesIncludingInactive s (us_ID user) in
  st ← retire_rows (us_ID user) desired rows (∅, ∅);
  s ← get;
  let blocked := blocked_proxies s (us_ID user) st.2 in
  extend_access (us_ID user) st.1 blocked desired;;
  query (fun b => validatePublishedNamesForUser b (us_ID user) "" None);;
  run_tables (fun b => disableUnusedProxyCredentialsTx b user).

(** ** The operations of an administrator *)
Record PathSelectionChange := { sc_PathID : string; sc_Enabled : bool }.
(** The checks of the first loop; [seen] is threaded. *)
Fixpoint check_selection (seen : gset string) (changes : list PathSelectionChange) : M unit :=
  match changes with
  | [] => mret tt
  | c :: changes =>
      guard (negb (bool_decide (sc_PathID c ∈ seen))) (DuplicatePath (sc_PathID c));;
      p ← query (fun b => GetPath b (sc_PathID c));
      guard (pa_Visibility p =? PathVisibilitySelectable)%string (DependencyOnly (pa_Name p));;
      guard (negb (sc_Enabled c && negb (pa_Enabled p))) PathDisabled;;
      check_selection (seen ∪ {[sc_PathID c]}) changes
  end.
Definition ChangeUserPathSelection (userID : string) (changes : list PathSelectionChange) : M unit :=
  guard (negb ((Z.of_nat (length changes) =? 0) || (MaxPathGroupMembers <? Z.of_nat (length changes)))) SelectionSize;;
  atomic (
    user ← query (fun b => GetProxyUser b userID);
    check_selection ∅ changes;;
    s ← get;
    for_each (SetDirectPathGrant (us_ID user)) (ListUserDesiredPathIDs s (us_ID user));;
    DeleteUserPathGroupGrants (us_ID user);;
    for_each (fun c => if sc_Enabled c then SetDirectPathGrant (us_ID user) (sc_PathID c)
                       else DeleteDirectPathGrant (us_ID user) (sc_PathID c)) changes;;
    reconcilePathGrants (us_ID user)).
Definition RevokePathAccess (userName pathID : string) : M PathAccess :=
  atomic (
    user ← query (fun b => GetProxyUser b userName);
    DeleteDirectPathGrant (us_ID user) pathID;;
    reconcilePathGrants (us_ID user);;
    s ← get;
    match List.find (is_access pathID (us_ID user)) (path_accesses (base s)) with
    | Some row => mret row
    | None => fail AccessNotFound
    end).
Definition grantDirectPath (userName pathID : string) (technical : bool) : M unit :=
  atomic (
    user ← query (fun b => GetProxyUser b userName);
    SetDirectPathGrant (us_ID user) pathID;;
    if technical then grantPathToUser (us_ID user) pathID else grantPathAccess (us_ID user) pathID).
Definition GrantPathAccess (userName pathID : string) : M unit := grantDirectPath userName pathID false.
Definition GrantPathToUser (userName pathID : string) : M unit := grantDirectPath userName pathID true.

(** ** Groups: statements *)
Definition live_group (s : store) (ID : string) : option path_group :=
  match path_groups s !! ID with
  | Some g => if is_set (pg_DeletedAt g) then None else Some g
  | None => None
  end.
(** The unique index on the names of groups that are not deleted. *)
Definition name_free (s : store) (ID name : string) : bool :=
  forallb (fun kg => (kg.1 =? ID)%string || is_set (pg_DeletedAt kg.2) || negb (pg_Name kg.2 =? name)%string)
    (map_to_list (path_groups s)).
Definition CreatePathGroup (ID name description : string) (enabled : bool) : M unit :=
  s ← get;
  guard (negb (is_set (path_groups s !! ID)) && name_free s ID name) ConstraintErr;;
  put (fun s => set_groups s (<[ID := {| pg_Name := name; pg_Description := description; pg_Enabled := enabled;
                                         pg_Revision := 1; pg_DeletedAt := None |}]> (path_groups s))).
(** The number of rows affected. *)
Definition UpdatePathGroup (ID name description : string) (enabled : bool) (revision : Z) : M Z :=
  s ← get;
  match live_group s ID with
  | Some g =>
      if pg_Revision g =? revision then
        guard (name_free s ID name) ConstraintErr;;
        put (fun s => set_groups s (<[ID := {| pg_Name := name; pg_Description := description; pg_Enabled := enabled;
                                               pg_Revision := wrap64 (pg_Revision g + 1); pg_DeletedAt := None |}]> (path_groups s)));;
        mret 1
      else mret 0
  | None => mret 0
  end.
Definition GetPathGroup (ID : string) : M path_group :=
  s ← get; match live_group s ID with Some g => mret g | None => fail GroupNotFound end.
Definition ArchivePathGroup (ID : string) : M unit :=
  d ← drawn;
  put (fun s => match live_group s ID with
                | Some g => set_groups s (<[ID := {| pg_Name := pg_Name g; pg_Description := pg_Description g; pg_Enabled := false;
                                                     pg_Revision := wrap64 (pg_Revision g + 1); pg_DeletedAt := Some (dr_now d) |}]> (path_groups s))
                | None => s
                end).
Definition DeletePathGroupMembers (ID : string) : M unit :=
  put (fun s => set_members s (filter (fun m => m.1 <> ID) (path_group_members (base s)))
                              (filter (fun m => m.1.1 <> ID) (member_order s))).
Definition AddPathGroupMember (groupID pathID : string) (sortOrder : Z) : M unit :=
  s ← get;
  guard (negb (bool_decide ((groupID, pathID) ∈ path_group_members (base s)))
         && is_set (path_groups s !! groupID) && is_set (paths (base s) !! pathID)) ConstraintErr;;
  put (fun s => set_members s ({[(groupID, pathID)]} ∪ path_group_members (base s))
                              (<[(groupID, pathID) := sortOrder]> (member_order s))).
Definition GrantUserPathGroup (userID groupID : string) : M unit :=
  s ← get;
  guard (is_set (proxy_users (base s) !! userID) && is_set (path_groups s !! groupID)) ConstraintErr;;
  put (fun s => set_group_grants s ({[(userID, groupID)]} ∪ user_path_group_grants s)).
Definition RevokeUserPathGroup (userID groupID : string) : M unit :=
  put (fun s => set_group_grants s (user_path_group_grants s ∖ {[(userID, groupID)]})).
Definition RecordPathGroupChange (ID : string) (change : PathGroupChange) (impact : PathGroupImpact) : M unit :=
  s ← get;
  guard (negb (is_set (path_group_changes s !! ID)) && is_set (path_groups s !! im_GroupID impact)) ConstraintErr;;
  put (fun s => add_change s ID (change, impact)).

(** ** ChangePathGroup *)
Definition group_members (s : store) (groupID : string) : gset string :=
  list_to_set (omap (fun g => if (g.2 =? groupID)%string then Some g.1 else None) (elements (user_path_group_grants s))).
Definition member_count (s : store) (groupID : string) : Z :=
  Z.of_nat (length (List.filter (fun m => (m.1 =? groupID)%string) (elements (path_group_members (base s))))).
Fixpoint check_members (seen : gset string) (pathIDs : list string) : M unit :=
  match pathIDs with
  | [] => mret tt
  | pid :: pathIDs =>
      guard (negb (bool_decide (pid ∈ seen))) (DuplicatePath pid);;
      p ← query (fun b => GetPath b pid);
      guard (pa_Visibility p =? PathVisibilitySelectable)%string (DependencyOnly (pa_Name p));;
      ep ← query (fun b => GetEndpoint b (pa_EndpointID p));
      query (fun b => ResolveEndpoint b ep);;
      check_members (seen ∪ {[pid]}) pathIDs
  end.
Definition zlen {A} (l : list A) : Z := Z.of_nat (length l).
(** case "save": the id of the group *)
Definition save_group (change : PathGroupChange) (users : gset string) : M string :=
  let name := TrimSpace (ch_Name change) in
  guard (negb ((name =? "")%string || (100 <? Z.of_nat (String.length name))
               || (2000 <? Z.of_nat (String.length (ch_Description change))))) GroupNameSize;;
  guard (negb (MaxPathGroupMembers <? zlen (ch_PathIDs change))) TooManyMembers;;
  guard (negb (MaxPathGroupAccesses <? zlen (ch_PathIDs change) * Z.of_nat (size users))) TooManyAccesses;;
  check_members ∅ (ch_PathIDs change);;
  let description := TrimSpace (ch_Description change) in
  gid ← (if (ch_GroupID change =? "")%string then
           d ← drawn;
           CreatePathGroup (dr_id d) name description (ch_Enabled change);;
           mret (dr_id d)
         else
           n ← UpdatePathGroup (ch_GroupID change) name description (ch_Enabled change) (ch_Revision change);
           guard (n =? 1) PathGroupConflict;;
           mret (ch_GroupID change));
  DeletePathGroupMembers gid;;
  for_each (fun ip => AddPathGroupMember gid ip.2 (Z.of_nat ip.1)) (imap pair (ch_PathIDs change));;
  mret gid.
Definition delete_group (change : PathGroupChange) : M unit :=
  g ← GetPathGroup (ch_GroupID change);
  guard (pg_Revision g =? ch_Revision change) PathGroupConflict;;
  ArchivePathGroup (ch_GroupID change).
Definition check_fanout (s : store) (userID groupID : string) : M unit :=
  let granted := bool_decide ((userID, groupID) ∈ user_path_group_grants s) in
  let count := Z.of_nat (size (group_members s groupID)) in
  guard (negb ((MaxPathGroupUsers <=? count) && negb granted)) TooManyUsers;;
  let count := if granted then count else count + 1 in
  guard (negb (MaxPathGroupAccesses <? count * member_count s groupID)) TooManyAccesses.
(** The switch: the id of the group and the users to reconcile.  [userID]: the
    id of the user, if one is named. *)
Definition apply_operation (change : PathGroupChange) (userID : string) (users : gset string) : M (string * gset string) :=
  if (ch_Operation change =? "save")%string then gid ← save_group change users; mret (gid, users)
  else if (ch_Operation change =? "delete")%string then delete_group change;; mret (ch_GroupID change, users)
  else if (ch_Operation change =? "grant")%string || (ch_Operation change =? "revoke")%string then
    guard (negb (userID =? "")%string) UserRequired;;
    GetPathGroup (ch_GroupID change);;
    s ← get;
    (if (ch_Operation change =? "grant")%string
     then check_fanout s userID (ch_GroupID change);; GrantUserPathGroup userID (ch_GroupID change)
     else RevokeUserPathGroup userID (ch_GroupID change));;
    mret (ch_GroupID change, {[userID]})
  else fail UnsupportedOperation.
(** The nodes a path and its dialers run on; [visited] stops it. *)
Fixpoint path_nodes (b : Paths.tables) (fuel : nat) (visited nodes : gset string) (pid : string) : res (gset string) :=
  match fuel with
  | O => Err OutOfFuel
  | S fuel =>
      if (pid =? "")%string || bool_decide (pid ∈ visited) then Ok nodes
      else
        let? p := GetPath b pid in
        let? ep := GetEndpoint b (pa_EndpointID p) in
        let? proxy := GetProxyByID b (ep_ProxyID ep) in
        path_nodes b fuel (visited ∪ {[pid]}) (nodes ∪ {[px_NodeID proxy]}) (from_option (fun d => d) "" (pa_DialerPathID p))
  end.
Fixpoint nodes_of_paths (nodes : gset string) (pids : list string) : M (gset string) :=
  match pids with
  | [] => mret nodes
  | pid :: pids => nodes ← query (fun b => path_nodes b (walk_fuel b) ∅ nodes pid); nodes_of_paths nodes pids
  end.
Definition user_impact (uid name : string) (before after : list string) : PathGroupUserImpact := {|
  ui_UserID := uid; ui_UserName := name;
  ui_Added := List.filter (fun p => negb (containsID before p)) after;
  ui_Removed := List.filter (fun p => negb (containsID after p)) before;
  ui_Retained := List.filter (fun p => containsID before p) after |}.
(** The loop over the affected users; [before]: the store the request found. *)
Fixpoint reconcile_users (before : store) (uids : list string) (st : list PathGroupUserImpact * gset string)
    : M (list PathGroupUserImpact * gset string) :=
  match uids with
  | [] => mret st
  | uid :: uids =>
      reconcilePathGrants uid;;
      user ← query (fun b => GetProxyUser b uid);
      s ← get;
      let u := user_impact uid (us_Name user) (ListUserDesiredPathIDs before uid) (ListUserDesiredPathIDs s uid) in
      nodes ← nodes_of_paths st.2 (ui_Added u ++ ui_Removed u);
      reconcile_users before uids (st.1 ++ [u], nodes)
  end.
Definition sorted_ids (ids : gset string) : list string := merge_sort name_le (elements ids).
Definition with_token (change : PathGroupChange) (token : string) : PathGroupChange := {|
  ch_Operation := ch_Operation change; ch_GroupID := ch_GroupID change; ch_UserID := ch_UserID change;
  ch_Name := ch_Name change; ch_Description := ch_Description change; ch_Enabled := ch_Enabled change;
  ch_Revision := ch_Revision change; ch_PathIDs := ch_PathIDs change; ch_PreviewToken := token |}.
Definition resolved (change : PathGroupChange) (groupID userID : string) : PathGroupChange := {|
  ch_Operation := ch_Operation change; ch_GroupID := groupID; ch_UserID := userID;
  ch_Name := ch_Name change; ch_Description := ch_Description change; ch_Enabled := ch_Enabled change;
  ch_Revision := ch_Revision change; ch_PathIDs := ch_PathIDs change; ch_PreviewToken := "" |}.
(** What preview and change have in common: the change as recorded, and its impact. *)
Definition plan_change (change : PathGroupChange) (token : string) : M (PathGroupChange * PathGroupImpact) :=
  s ← get;
  userID ← (if (ch_UserID change =? "")%string then mret ""
            else u ← query (fun b => GetProxyUser b (ch_UserID change)); mret (us_ID u));
  let users := group_members s (ch_GroupID change) ∪ (if (ch_UserID change =? "")%string then ∅ else {[userID]}) in
  guard (negb (MaxPathGroupUsers <? Z.of_nat (size users))) TooManyUsers;;
  gu ← apply_operation change userID users;
  st ← reconcile_users s (sorted_ids gu.2) ([], ∅);
  mret (resolved change gu.1 userID,
        {| im_PreviewToken := token; im_GroupID := gu.1; im_Users := st.1; im_NodeIDs := sorted_ids st.2 |}).
Definition without_token (impact : PathGroupImpact) : PathGroupImpact := {|
  im_PreviewToken := ""; im_GroupID := im_GroupID impact; im_Users := im_Users impact; im_NodeIDs := im_NodeIDs impact |}.

(** PathGroupPreviewState: what the token is bound to (the columns the model has). *)
Definition by_access_id (a b : PathAccess) : Prop := name_le (pc_ID a) (pc_ID b).
#[local] Instance by_access_id_dec a b : Decision (by_access_id a b).
Proof. unfold by_access_id. apply _. Defined.
Record authorization := {
  au_groups : gmap string path_group;
  au_members : gset (string * string); au_order : gmap (string * string) Z;
  au_grants : gset (string * string); au_direct : gmap (string * string) bool;
  au_accesses : list PathAccess;                         (* ORDER BY id *)
  au_paths : gmap string (string * string * string * option string * bool * string);
  au_endpoints : gmap string Endpoint;
  au_proxies : gmap string proxy_row;
  au_nodes : gmap string (string * string * option string);
  au_users : gmap string ProxyUser;
  au_bindings : gmap (string * string) bool;
  au_credentials : gmap (string * string) (string * bool * option string);
  au_secrets : gmap (string * string) string
}.
Definition PathGroupPreviewState (s : store) : authorization := {|
  au_groups := path_groups s;
  au_members := path_group_members (base s); au_order := member_order s;
  au_grants := user_path_group_grants s; au_direct := direct_path_grants s;
  au_accesses := merge_sort by_access_id (path_accesses (base s));
  au_paths := (fun p => (pa_Name p, pa_DisplayName p, pa_EndpointID p, pa_DialerPathID p, pa_Enabled p, pa_Visibility p)) <$> paths (base s);
  au_endpoints := endpoints (base s);
  au_proxies := proxies (base s);
  au_nodes := (fun n => (no_Name n, no_Status n, no_DeletedAt n)) <$> nodes (base s);
  au_users := proxy_users (base s);
  au_bindings := bindings (base s);
  au_credentials := (fun c => (pk_ID c, pk_Enabled c, pk_DeletedAt c)) <$> credentials (base s);
  au_secrets := credential_json s |}.
(** SHA-256, in hexadecimal, of the state and the canonical change. *)
Variable digest : authorization -> PathGroupChange -> string.
Definition preview_token (s : store) (change : PathGroupChange) : string := digest (PathGroupPreviewState s) (with_token change "").
(** errPathGroupPreview undoes everything and is then dropped. *)
Definition rollback {A} (m : M A) : M A := fun s => let (r, s') := m s in (r, (s.1, s'.2)).
Definition ChangePathGroup (change : PathGroupChange) (preview : bool) : M PathGroupImpact :=
  (if preview then rollback else atomic) (
    s ← get;
    let token := preview_token s change in
    guard (preview || (ch_PreviewToken change =? token)%string) PathGroupConflict;;
    ci ← plan_change change token;
    if preview then mret ci.2
    else
      d ← drawn;
      RecordPathGroupChange (dr_id d) ci.1 (without_token ci.2);;
      mret ci.2).
End oracle.
