(* ===== verification/PathAccess.v ===== *)
(** * The grants of [PathGrants] are right

    Every operation leaves a user with exactly the paths his sources name, and
    touches no other user; credentials that come back do so with a new secret;
    what a preview shows is what happens. *)
From S2P Require Import Prelude GoStrings Effects.
From S2P Require Import Paths PathGrants.

#[local] Open Scope Z_scope.

(** ** Runs *)
Section runs.
Variable oracle : nat -> draw.
Lemma get_Ok (s s' : store * nat) a : get s = (Ok a, s') -> a = s.1 /\ s' = s.
Proof. by intros [= <- <-]. Qed.
Lemma put_Ok f (s s' : store * nat) a : put f s = (Ok a, s') -> s' = (f s.1, s.2).
Proof. by intros [= <- <-]. Qed.
Lemma drawn_Ok (s s' : store * nat) a : drawn oracle s = (Ok a, s') -> a = oracle s.2 /\ s' = (s.1, S s.2).
Proof. by intros [= <- <-]. Qed.
Lemma query_Ok {A} (f : Paths.tables -> res A) (s s' : store * nat) a :
  query f s = (Ok a, s') -> f (base s.1) = Ok a /\ s' = s.
Proof. unfold query. destruct (f (base s.1)); [by intros [= <- <-]|done]. Qed.
Lemma guard_Ok b e (s s' : store * nat) a : guard b e s = (Ok a, s') -> b = true /\ s' = s.
Proof. unfold guard. destruct b; [|done]. by intros [= <- <-]. Qed.
Lemma atomic_Ok {A} (m : M A) (s s' : store * nat) a : atomic m s = (Ok a, s') -> m s = (Ok a, s').
Proof. unfold atomic. by destruct (m s) as [[]]. Qed.
Lemma generate_Ok (s s' : store * nat) secret :
  generate oracle s = (Ok secret, s') -> dr_secret (oracle s.2) = Some secret /\ s' = (s.1, S s.2).
Proof.
  unfold generate. intros H. apply bind_Ok in H as (d & s1 & Hd & H). apply drawn_Ok in Hd as [-> ->].
  destruct (dr_secret (oracle s.2)) as [x|]; [|done]. by apply ret_Ok in H as [-> ->].
Qed.
End runs.

(** Take a successful run apart. *)
Ltac run H :=
  lazymatch type of H with
  | (_ ≫= _) _ = (Ok _, _) =>
      let a := fresh "a" in let s1 := fresh "s" in let H1 := fresh "Hr" in
      apply bind_Ok in H as (a & s1 & H1 & H); run H1; run H
  | mret _ _ = (Ok _, _) => let H1 := fresh in apply ret_Ok in H as [H1 H]; try subst; try rewrite H in *
  | fail _ _ = (Ok _, _) => by apply fail_Ok in H
  | get _ = _ => let H1 := fresh in apply get_Ok in H as [H1 H]; subst
  | put _ _ = _ => apply put_Ok in H; subst
  | drawn _ _ = _ => let H1 := fresh in apply drawn_Ok in H as [H1 H]; subst
  | query _ _ = _ => let H1 := fresh in apply query_Ok in H as [H H1]; subst
  | guard _ _ _ = _ => let H1 := fresh in apply guard_Ok in H as [H H1]; subst
  | generate _ _ = _ => let H1 := fresh in apply generate_Ok in H as [H H1]; subst
  | _ => idtac
  end.

(** ** What the operations below leave alone *)
(** The tables without what they provision. *)
Definition strip (b : Paths.tables) : Paths.tables := with_accesses (with_bindings (with_credentials b ∅) ∅) [].
Definition erase (s : store) : store := {|
  base := strip (base s); direct_path_grants := direct_path_grants s; path_groups := path_groups s;
  member_order := member_order s; user_path_group_grants := user_path_group_grants s;
  proxy_name_aliases := proxy_name_aliases s; credential_json := ∅; path_group_changes := path_group_changes s |}.
Lemma erase_strip s s' : erase s' = erase s -> strip (base s') = strip (base s).
Proof. intros H. exact (f_equal base H). Qed.
Lemma query_strip {A} (f : Paths.tables -> A) b b' : (forall b, f (strip b) = f b) -> strip b' = strip b -> f b' = f b.
Proof. intros Hf H. by rewrite <- Hf, H, Hf. Qed.

(** Ids have no blanks around them, rows are stored under their ids. *)
Record tidy (b : Paths.tables) : Prop := {
  tidy_users : forall k u, proxy_users b !! k = Some u -> us_ID u = k /\ TrimSpace k = k;
  tidy_paths : forall k p, paths b !! k = Some p -> pa_ID p = k /\ TrimSpace k = k /\
    TrimSpace (pa_EndpointID p) = pa_EndpointID p;
  tidy_dialers : forall k p d, paths b !! k = Some p -> pa_DialerPathID p = Some d -> TrimSpace d = d;
  tidy_endpoints : forall k e, endpoints b !! k = Some e -> TrimSpace (ep_ProxyID e) = ep_ProxyID e
}.
Lemma tidy_strip b b' : strip b' = strip b -> tidy b -> tidy b'.
Proof.
  intros H [Hu Hp Hd He].
  pose proof (f_equal proxy_users H) as E1. pose proof (f_equal paths H) as E2. pose proof (f_equal endpoints H) as E3.
  cbn in E1, E2, E3. constructor; rewrite ?E1, ?E2, ?E3; done.
Qed.
Lemma GetProxyUser_found b name u : GetProxyUser b name = Ok u ->
  exists k, proxy_users b !! k = Some u /\ us_DeletedAt u = None.
Proof.
  unfold GetProxyUser. destruct (proxy_users b !! TrimSpace name) as [x|] eqn:E.
  - destruct (us_DeletedAt x) eqn:Ed; [done|]. intros [= <-]. by eauto.
  - unfold user_by_name. destruct (List.find _ _) as [[k x]|] eqn:Ef; [|done]. cbn. intros [= <-].
    apply find_some in Ef as [Hin H]. apply list_elem_of_In, elem_of_map_to_list in Hin. cbn in H.
    exists k. split; [done|]. destruct (us_DeletedAt x); [|done]. by rewrite bool_decide_eq_true_2 in H.
Qed.
(** Its id finds it again. *)
Lemma GetProxyUser_id b name u : tidy b -> GetProxyUser b name = Ok u ->
  proxy_users b !! us_ID u = Some u /\ us_DeletedAt u = None /\ GetProxyUser b (us_ID u) = Ok u.
Proof.
  intros Ht H. apply GetProxyUser_found in H as (k & Hk & Hd).
  destruct (tidy_users _ Ht _ _ Hk) as [Hid Htr]. rewrite Hid. split; [done|]. split; [done|].
  unfold GetProxyUser. by rewrite Htr, Hk, Hd.
Qed.
Lemma GetProxyUser_known b k u : tidy b -> proxy_users b !! k = Some u -> us_DeletedAt u = None -> GetProxyUser b k = Ok u.
Proof. intros Ht Hk Hd. destruct (tidy_users _ Ht _ _ Hk) as [_ Htr]. unfold GetProxyUser. by rewrite Htr, Hk, Hd. Qed.
Lemma GetPath_known b k p : tidy b -> GetPath b k = Ok p -> paths b !! pa_ID p = Some p /\ TrimSpace k = pa_ID p.
Proof.
  intros Ht. unfold GetPath, lookup_or. destruct (paths b !! TrimSpace k) as [x|] eqn:E; [|done]. intros [= ->].
  destruct (tidy_paths _ Ht _ _ E) as [Hid _]. by rewrite Hid.
Qed.
Lemma GetPath_id b k p : tidy b -> paths b !! k = Some p -> GetPath b k = Ok p.
Proof. intros Ht Hk. destruct (tidy_paths _ Ht _ _ Hk) as (_ & Htr & _). unfold GetPath, lookup_or. by rewrite Htr, Hk. Qed.

(** ** Provisioning: bindings and credentials *)
Definition usable (s : store) (key : string * string) : Prop :=
  exists c, credentials (base s) !! key = Some c /\ live c = true.
Section provision.
Variable oracle : nat -> draw.
(** The secret is one of those drawn between the two. *)
Definition minted (s s' : store * nat) (key : string * string) : Prop :=
  exists n secret, (s.2 <= n < s'.2)%nat /\ dr_secret (oracle n) = Some secret /\ credential_json s'.1 !! key = Some secret.
Definition same_credential (s s' : store * nat) (key : string * string) : Prop :=
  credentials (base s'.1) !! key = credentials (base s.1) !! key /\
  credential_json s'.1 !! key = credential_json s.1 !! key.
(** From [s] to [s'], for the user [u] and proxies with [Q]; [A] relates the
    rows of path_accesses. *)
Record changes (A : relation (list PathAccess)) (u : string) (Q : string -> Prop) (s s' : store * nat) : Prop := {
  pv_counter : (s.2 <= s'.2)%nat;
  pv_accesses : A (path_accesses (base s.1)) (path_accesses (base s'.1));
  pv_erase : erase s'.1 = erase s.1;
  pv_bindings : forall key, key.1 <> u -> bindings (base s'.1) !! key = bindings (base s.1) !! key;
  pv_credentials : forall key, same_credential s s' key \/ (key.1 = u /\ Q key.2);
  pv_secrets : forall key, usable s'.1 key -> same_credential s s' key \/ minted s s' key
}.
#[export] Instance changes_preorder A `{!PreOrder A} u Q : PreOrder (changes A u Q).
Proof.
  split.
  - intros s. constructor; try done; by left.
  - intros s1 s2 s3 [Hn Ha He Hb Hc Hs] [Hn' Ha' He' Hb' Hc' Hs']. constructor.
    + lia.
    + by etransitivity.
    + congruence.
    + intros key Hk. by rewrite Hb', Hb.
    + intros key. destruct (Hc key) as [[H1 H2]|?], (Hc' key) as [[H3 H4]|?]; auto. left. split; congruence.
    + intros key Hu. destruct (Hs' key Hu) as [[H1 H2]|(n & x & Hx & Hd & Hj)].
      * assert (Hu2 : usable s2.1 key) by (unfold usable; by rewrite <- H1).
        destruct (Hs key Hu2) as [[H3 H4]|(n & x & Hx & Hd & Hj)]; [left; split; congruence|].
        right. exists n, x. split; [lia|]. split; [done|]. by rewrite H2.
      * right. exists n, x. split; [lia|]. done.
Qed.
Lemma changes_weaken (A A' : relation (list PathAccess)) u (Q Q' : string -> Prop) s s' :
  (forall l l', A l l' -> A' l l') -> (forall x, Q x -> Q' x) -> changes A u Q s s' -> changes A' u Q' s s'.
Proof. intros HA HQ [Hn Ha He Hb Hc Hs]. constructor; try done; [by apply HA|]. intros key. destruct (Hc key) as [?|[? ?]]; auto. Qed.
Lemma changes_tables A u Q s s' : changes A u Q s s' -> strip (base s'.1) = strip (base s.1).
Proof. intros H. apply erase_strip, (pv_erase _ _ _ _ _ H). Qed.
Abbreviation provision := (changes eq).
Lemma provision_weaken u (Q Q' : string -> Prop) s s' : (forall x, Q x -> Q' x) -> provision u Q s s' -> provision u Q' s s'.
Proof. by apply changes_weaken. Qed.
Lemma provision_set u x c secret (s : store * nat) n m :
  (s.2 <= n < m)%nat -> dr_secret (oracle n) = Some secret ->
  provision u (eq x) s (set_credential s.1 (u, x) c secret, m).
Proof.
  intros Hn Hd. constructor; cbn [fst snd]; [lia|done|done|done| |].
  - intros [v y]. destruct (decide ((v, y) = (u, x))) as [[= -> ->]|Hne]; [by right|left].
    unfold same_credential. cbn. by rewrite !lookup_insert_ne.
  - intros [v y] _. destruct (decide ((v, y) = (u, x))) as [->|Hne].
    + right. exists n, secret. split; [done|]. split; [done|]. cbn. by rewrite lookup_insert_eq.
    + left. unfold same_credential. cbn. by rewrite !lookup_insert_ne.
Qed.
Lemma provision_bind u v node (s : store * nat) n : (s.2 <= n)%nat -> u = v ->
  provision u (fun _ => False) s (set_base s.1 (with_bindings (base s.1) (<[(v, node) := true]> (bindings (base s.1)))), n).
Proof.
  intros Hn ->. constructor; cbn [fst snd]; [lia|done|done| |by left|by left].
  intros key Hk. cbn. rewrite lookup_insert_ne; [done|]. by intros <-.
Qed.

(** Reading changes nothing. *)
Lemma GetProxy_Ok nn pn (s s' : store * nat) p : GetProxy nn pn s = (Ok p, s') -> s' = s.
Proof.
  unfold GetProxy. intros H. run H.
  destruct (proxies _ !! _); [destruct (live_proxy _ _); [destruct (_ =? _)%string|]|destruct (proxy_by_name _ _ _)]; by run H.
Qed.
Lemma live_proxy_Some b x p : live_proxy b x = Some p <-> exists row n, proxies b !! x = Some row /\ nodes b !! pr_NodeID row = Some n /\
  pr_DeletedAt row = None /\ no_DeletedAt n = None /\ p = {| px_ID := x; px_NodeID := pr_NodeID row; px_NodeName := no_Name n;
    px_Name := pr_Name row; px_Protocol := pr_Protocol row; px_Enabled := pr_Enabled row |}.
Proof.
  unfold live_proxy. destruct (proxies b !! x) as [row|]; cbn; [|split; [done|intros (? & ? & ? & _); done]].
  destruct (nodes b !! pr_NodeID row) as [n|] eqn:En; cbn; [|split; [done|intros (? & ? & [= <-] & ? & _); congruence]].
  split.
  - destruct (pr_DeletedAt row) eqn:E1, (no_DeletedAt n) eqn:E2; try done. intros [= <-]. by exists row, n.
  - intros (r & m & [= <-] & Hm & E1 & E2 & ->). rewrite En in Hm. injection Hm as <-. by rewrite E1, E2.
Qed.
Lemma live_proxy_id b x p : live_proxy b x = Some p -> px_ID p = x.
Proof. by intros (row & n & _ & _ & _ & _ & ->)%live_proxy_Some. Qed.
Lemma GetProxy_live nn pn (s s' : store * nat) p : GetProxy nn pn s = (Ok p, s') ->
  live_proxy (base s.1) (px_ID p) = Some p /\ exists n, GetNode (base s.1) nn = Ok n /\ px_NodeID p = no_ID n.
Proof.
  unfold GetProxy. intros H. run H. match goal with H : GetNode _ _ = Ok ?m |- _ => rename H into Hn; rename m into n end.
  destruct (proxies (base s.1) !! TrimSpace pn) as [row|].
  - destruct (live_proxy (base s.1) (TrimSpace pn)) as [q|] eqn:Eq; [|done]. destruct (px_NodeID q =? no_ID n)%string eqn:En; run H.
    apply String.eqb_eq in En. rewrite (live_proxy_id _ _ _ Eq). eauto.
  - destruct (proxy_by_name _ _ _) as [q|] eqn:Eq; run H. unfold proxy_by_name in Eq. apply List.find_some in Eq as [Hin Hf].
    apply list_elem_of_In, list_elem_of_omap in Hin as ((k & r) & _ & Hl). apply andb_true_iff in Hf as [Hf _]. apply String.eqb_eq in Hf.
    cbn in Hl. rewrite (live_proxy_id _ _ _ Hl). eauto.
Qed.
(** Only from what provisioning leaves alone. *)
Lemma GetProxy_erase nn pn (s s' : store * nat) : erase s'.1 = erase s.1 -> (GetProxy nn pn s').1 = (GetProxy nn pn s).1.
Proof.
  assert (H : forall s : store * nat, (GetProxy nn pn s).1 = (GetProxy nn pn (erase s.1, O)).1).
  { intros t. unfold GetProxy, mbind, eff_bind, query, get. cbn [fst snd].
    change (GetNode (base (erase t.1)) nn) with (GetNode (base t.1) nn).
    destruct (GetNode (base t.1) nn); [|done]. cbn.
    change (proxy_by_name (erase t.1) (no_ID a) (TrimSpace pn)) with (proxy_by_name t.1 (no_ID a) (TrimSpace pn)).
    change (live_proxy (strip (base t.1)) (TrimSpace pn)) with (live_proxy (base t.1) (TrimSpace pn)).
    destruct (proxies (base t.1) !! TrimSpace pn).
    - by destruct (live_proxy _ _) as [x|]; [destruct (px_NodeID x =? no_ID a)%string|].
    - by destruct (proxy_by_name _ _ _). }
  intros He. by rewrite (H s), (H s'), He.
Qed.
Lemma GetProxyCredential_Ok un nn pn (s s' : store * nat) c : GetProxyCredential un nn pn s = (Ok c, s') -> s' = s.
Proof.
  unfold GetProxyCredential. intros H. run H. apply GetProxy_Ok in Hr as ->.
  destruct (List.find _ _) as [kc|]; by run H.
Qed.
Lemma GetUserNodeBinding_Ok u nn (s s' : store * nat) e : GetUserNodeBinding u nn s = (Ok e, s') -> s' = s.
Proof. unfold GetUserNodeBinding. intros H. run H. destruct (proxy_users _ !! _); [|by run H]. destruct (bindings _ !! _); by run H. Qed.

Lemma issue_provisions un nn pn proto (s s' : store * nat) : issueProxyCredential oracle un nn pn proto s = (Ok tt, s') ->
  exists user proxy, GetProxyUser (base s.1) un = Ok user /\ (GetProxy nn pn s).1 = Ok proxy /\
    provision (us_ID user) (eq (px_ID proxy)) s s'.
Proof.
  unfold issueProxyCredential. intros H. run H.
  match goal with H : GetProxy _ _ _ = _ |- _ => rename H into Hp end. pose proof (GetProxy_Ok _ _ _ _ _ Hp) as ->.
  match goal with H : GetUserNodeBinding _ _ _ = _ |- _ => apply GetUserNodeBinding_Ok in H as -> end.
  match goal with H : GetProxyUser _ _ = Ok ?u |- _ => exists u end. eexists.
  split; [eassumption|]. split; [by rewrite Hp|].
  destruct (credentials _ !! _) as [c|].
  - destruct (pk_Enabled c && _); [run H; reflexivity|]. run H.
    match goal with H : GetProxyCredential _ _ _ _ = _ |- _ => apply GetProxyCredential_Ok in H; rewrite H; cbn [fst snd] end.
    eapply provision_set; [|eassumption]. cbn. lia.
  - run H. match goal with H : GetProxyCredential _ _ _ _ = _ |- _ => apply GetProxyCredential_Ok in H; rewrite H; cbn [fst snd] end.
    eapply (provision_set _ _ _ _ _ (S s.2)); [|eassumption]. cbn. lia.
Qed.
Lemma BindUserToNode_provisions un nn (s s' : store * nat) : BindUserToNode oracle un nn s = (Ok tt, s') ->
  exists user, GetProxyUser (base s.1) un = Ok user /\ provision (us_ID user) (fun _ => False) s s'.
Proof.
  unfold BindUserToNode. intros H. run H.
  match goal with H : GetUserNodeBinding _ _ _ = _ |- _ => apply GetUserNodeBinding_Ok in H; rewrite H; cbn [fst snd] end.
  match goal with H : GetProxyUser _ _ = Ok ?u |- _ => exists u; split; [done|] end.
  apply provision_bind; [cbn; lia|done].
Qed.

(** The proxy a credential is issued on for the path [k]: found by the names
    of the one its endpoint refers to. *)
Definition issued (s : store) (k y : string) : Prop :=
  exists x p q, path_proxy (base s) k = Some x /\ live_proxy (base s) x = Some p /\
    (GetProxy (px_NodeName p) (px_Name p) (s, O)).1 = Ok q /\ px_ID q = y.
Definition issued_along (s : store) (root y : string) : Prop :=
  exists k, rtc (dials (paths (base s))) root k /\ issued s k y.
Lemma issued_erase s s' k y : erase s' = erase s -> issued s' k y -> issued s k y.
Proof.
  intros He (x & p & q & H1 & H2 & H3 & H4). pose proof (erase_strip _ _ He) as Hs. exists x, p, q.
  rewrite <- (query_strip (fun b => path_proxy b k) _ _ ltac:(done) Hs), <- (query_strip (fun b => live_proxy b x) _ _ ltac:(done) Hs).
  split; [done|]. split; [done|]. split; [|done]. by rewrite <- (GetProxy_erase _ _ (s, O) (s', O) He).
Qed.
Lemma issued_along_erase s s' k y : erase s' = erase s -> issued_along s' k y -> issued_along s k y.
Proof.
  intros He (j & Hr & Hi). exists j. split; [|by eapply issued_erase].
  by rewrite <- (query_strip paths _ _ ltac:(done) (erase_strip _ _ He)).
Qed.
Lemma ResolveEndpoint_proxy b e ph : ResolveEndpoint b e = Ok ph -> live_proxy b (TrimSpace (ep_ProxyID e)) = Some ph.1.
Proof.
  unfold ResolveEndpoint, validateEndpointPair, GetProxyByID. destruct (live_proxy b _) as [p|]; [|done].
  destruct (GetNode _ _); [|done]. destruct (find_host _ _); [|done]. by intros [= <-].
Qed.
Lemma GetEndpoint_proxy b p k e : tidy b -> paths b !! k = Some p -> GetEndpoint b (pa_EndpointID p) = Ok e ->
  path_proxy b k = Some (ep_ProxyID e) /\ TrimSpace (ep_ProxyID e) = ep_ProxyID e.
Proof.
  intros Ht Hk. destruct (tidy_paths _ Ht _ _ Hk) as (_ & _ & Htr). unfold GetEndpoint, lookup_or. rewrite Htr.
  destruct (endpoints b !! _) as [x|] eqn:E; [|done]. intros [= <-]. split; [|by eapply tidy_endpoints].
  unfold path_proxy. rewrite Hk. cbn. by rewrite E.
Qed.
Lemma ensure_hop_provisions un user cur (s s' : store * nat) : tidy (base s.1) -> GetProxyUser (base s.1) un = Ok user ->
  paths (base s.1) !! pa_ID cur = Some cur -> ensure_hop oracle un user cur s = (Ok tt, s') ->
  provision (us_ID user) (issued s.1 (pa_ID cur)) s s'.
Proof.
  intros Ht Hu Hc H. unfold ensure_hop in H. run H.
  match goal with H : GetEndpoint _ _ = Ok ?e |- _ => destruct (GetEndpoint_proxy _ _ _ _ Ht Hc H) as [Hpp Htr] end.
  match goal with H : ResolveEndpoint _ _ = Ok _ |- _ => apply ResolveEndpoint_proxy in H as Hl end. rewrite Htr in Hl.
  destruct ((_ =? _)%string || _); [|by run H]. apply issue_provisions in H as (v & q & Hv & Hq & H).
  match type of H with provision _ _ ?t _ => assert (Hb : provision (us_ID user) (fun _ => False) s t) end.
  { destruct (bindings _ !! _) as [en|]; [match goal with H : guard _ _ _ = _ |- _ => run H; reflexivity end|].
    match goal with H : BindUserToNode _ _ _ _ = (Ok ?x, _) |- _ => destruct x; apply BindUserToNode_provisions in H as (w & Hw & H) end.
    rewrite Hu in Hw. by injection Hw as <-. }
  rewrite (query_strip (fun b => GetProxyUser b un) _ _ ltac:(done) (changes_tables _ _ _ _ _ Hb)), Hu in Hv. injection Hv as <-.
  etransitivity; [eapply provision_weaken, Hb; done|]. eapply provision_weaken, H. intros y <-.
  do 3 eexists. split; [exact Hpp|]. split; [exact Hl|]. split; [|done].
  rewrite <- Hq. symmetry. apply (GetProxy_erase _ _ (s.1, O)), (pv_erase _ _ _ _ _ Hb).
Qed.
Lemma ensure_provisions un user fuel : forall seen cur (s s' : store * nat), tidy (base s.1) -> GetProxyUser (base s.1) un = Ok user ->
  paths (base s.1) !! pa_ID cur = Some cur -> ensure oracle un user fuel seen cur s = (Ok tt, s') ->
  provision (us_ID user) (issued_along s.1 (pa_ID cur)) s s'.
Proof.
  induction fuel as [|fuel IH]; intros seen cur s s' Ht Hu Hc H; cbn [ensure] in H; [by run H|].
  destruct (bool_decide _); [run H; reflexivity|]. run H.
  match goal with H : ensure_hop _ _ _ _ _ = (Ok ?x, _) |- _ => destruct x; apply ensure_hop_provisions in H as Hhop; [|done..] end.
  pose proof (changes_tables _ _ _ _ _ Hhop) as Hs.
  etransitivity; [eapply provision_weaken, Hhop; intros y Hy; exists (pa_ID cur); split; [reflexivity|done]|].
  destruct (pa_DialerPathID cur) as [d|] eqn:Ed; [|run H; reflexivity]. run H.
  match goal with H : GetPath _ _ = Ok ?x |- _ => destruct (GetPath_known _ _ _ (tidy_strip _ _ Hs Ht) H) as [Hk Htr] end.
  eapply IH in H; [|by apply (tidy_strip _ _ Hs)| |done].
  2:{ by rewrite (query_strip (fun b => GetProxyUser b un) _ _ ltac:(done) Hs). }
  eapply provision_weaken, H. intros y Hy. apply (issued_along_erase _ _ _ _ (pv_erase _ _ _ _ _ Hhop)) in Hy.
  destruct Hy as (k & Hk2 & Hi). exists k. split; [|done]. eapply rtc_l; [|exact Hk2]. exists cur. split; [done|].
  rewrite <- Htr, Ed. f_equal. symmetry. by eapply tidy_dialers.
Qed.

(** ** Rows of path_accesses *)
Definition others (u : string) (l : list PathAccess) : list PathAccess :=
  List.filter (fun a => negb (pc_ProxyUserID a =? u)%string) l.
Definition same_others (u : string) (l l' : list PathAccess) : Prop := others u l' = others u l.
#[export] Instance same_others_preorder u : PreOrder (same_others u).
Proof. split; [done|]. intros l1 l2 l3. unfold same_others. congruence. Qed.
Definition allows (l : list PathAccess) (u p : string) : Prop :=
  exists a, a ∈ l /\ is_access p u a = true /\ effective a = true.
Lemma is_access_true p u a : is_access p u a = true <-> pc_PathID a = p /\ pc_ProxyUserID a = u.
Proof. unfold is_access. by rewrite andb_true_iff, !String.eqb_eq. Qed.
Lemma others_map u f (l : list PathAccess) :
  (forall a, pc_ProxyUserID (f a) = pc_ProxyUserID a) -> (forall a, pc_ProxyUserID a <> u -> f a = a) -> same_others u l (map f l).
Proof.
  intros H1 H2. unfold same_others, others. induction l as [|a l IH]; cbn; [done|]. rewrite H1.
  destruct (pc_ProxyUserID a =? u)%string eqn:E; cbn; [done|]. apply String.eqb_neq in E. by rewrite H2, IH.
Qed.
Lemma changes_accesses u (s : store * nat) l n : same_others u (path_accesses (base s.1)) l -> (s.2 <= n)%nat ->
  changes (same_others u) u (fun _ => False) s (set_base s.1 (with_accesses (base s.1) l), n).
Proof. intros Hl Hn. constructor; cbn [fst snd]; [lia|done|done|done|by left|by left]. Qed.
Lemma allows_Restore l u p x : List.existsb (is_access p u) l = true ->
  allows (RestorePathAccess p u l) u x <-> x = p \/ allows l u x.
Proof.
  intros Hex. unfold allows, RestorePathAccess. split.
  - intros (a & Ha & Hi & He). apply list_elem_of_In, in_map_iff in Ha as (b & <- & Hb). apply list_elem_of_In in Hb.
    destruct (is_access p u b) eqn:E; [|right; by exists b]. left.
    apply is_access_true in Hi as [Hi _], E as [E _]. cbn in Hi. congruence.
  - intros [->|(a & Ha & Hi & He)].
    + apply existsb_exists in Hex as (b & Hb & E). exists (restored b). split; [|by split].
      apply list_elem_of_In, in_map_iff. exists b. by rewrite E.
    + exists (if is_access p u a then restored a else a). split; [|by destruct (is_access p u a)].
      apply list_elem_of_In, in_map_iff. exists a. split; [done|]. by apply list_elem_of_In.
Qed.
Lemma allows_SoftDelete now l u p x : allows (SoftDeletePathAccess now p u l) u x <-> x <> p /\ allows l u x.
Proof.
  unfold allows, SoftDeletePathAccess. split.
  - intros (a & Ha & Hi & He). apply list_elem_of_In, in_map_iff in Ha as (b & <- & Hb). apply list_elem_of_In in Hb.
    destruct (is_access p u b && _) eqn:E; [by unfold effective in He; cbn in He|]. split; [|by exists b].
    intros ->. rewrite Hi in E. unfold effective in He. by destruct (pc_Enabled b), (is_set (pc_DeletedAt b)).
  - intros [Hne (a & Ha & Hi & He)]. exists a. split; [|done]. apply list_elem_of_In, in_map_iff. exists a.
    split; [|by apply list_elem_of_In]. destruct (is_access p u a) eqn:E; [|done].
    apply is_access_true in E as [E _], Hi as [Hi _]. congruence.
Qed.
Lemma allows_app l u p x a : is_access p u a = true -> effective a = true ->
  allows (l ++ [a]) u x <-> x = p \/ allows l u x.
Proof.
  intros Ha He. unfold allows. split.
  - intros (b & [Hb| ->%list_elem_of_singleton]%elem_of_app & Hi & Hb2); [right; by exists b|left].
    apply is_access_true in Ha as [Ha _], Hi as [Hi _]. congruence.
  - intros [->|(b & Hb & H)]; [exists a|exists b]; (split; [apply elem_of_app|done]); [right; by left|by left].
Qed.
Lemma grantPathAccess_spec un pid user (s s' : store * nat) :
  GetProxyUser (base s.1) un = Ok user -> grantPathAccess oracle un pid s = (Ok tt, s') ->
  changes (same_others (us_ID user)) (us_ID user) (fun _ => False) s s' /\
  forall x, allows (path_accesses (base s'.1)) (us_ID user) x <-> x = pid \/ allows (path_accesses (base s.1)) (us_ID user) x.
Proof.
  intros Hu H. unfold grantPathAccess, put_accesses in H. run H.
  match goal with H : GetProxyUser _ _ = Ok ?v |- _ => assert (v = user) as -> by congruence end.
  destruct (List.find _ _) as [row|] eqn:Ef.
  - pose proof (find_some _ _ Ef) as [Hin Hi]. apply list_elem_of_In in Hin. destruct (effective row) eqn:Ee.
    + run H. split; [reflexivity|]. intros x. split; [by right|]. intros [->|Hx]; [by exists row|done].
    + run H. split.
      * apply changes_accesses; [|done]. apply others_map.
        -- intros a. by destruct (is_access pid (us_ID user) a).
        -- intros a Ha. destruct (is_access pid (us_ID user) a) eqn:E; [|done]. by apply is_access_true in E as [_ E].
      * intros x. apply allows_Restore. apply existsb_exists. exists row. split; [by apply list_elem_of_In|done].
  - run H. split.
    + apply (changes_accesses _ s); [|cbn; lia]. unfold same_others, others. cbn. rewrite List.filter_app. cbn.
      by rewrite String.eqb_refl, app_nil_r.
    + intros x. apply allows_app; [|done]. unfold is_access. cbn. by rewrite !String.eqb_refl.
Qed.
Lemma grantPathToUser_spec un pid user (s s' : store * nat) : tidy (base s.1) ->
  GetProxyUser (base s.1) un = Ok user -> grantPathToUser oracle un pid s = (Ok tt, s') ->
  changes (same_others (us_ID user)) (us_ID user) (issued_along s.1 (TrimSpace pid)) s s' /\
  forall x, allows (path_accesses (base s'.1)) (us_ID user) x <->
            x = TrimSpace pid \/ allows (path_accesses (base s.1)) (us_ID user) x.
Proof.
  intros Ht Hu H. unfold grantPathToUser in H. run H.
  match goal with H : GetProxyUser _ _ = Ok ?v |- _ => assert (v = user) as -> by congruence end.
  match goal with H : GetPath _ _ = Ok ?x |- _ => destruct (GetPath_known _ _ _ Ht H) as [Hk Htr] end.
  match goal with H : ensure _ _ _ _ _ _ _ = (Ok ?x, _) |- _ => destruct x; apply ensure_provisions in H as Hp; [|done..] end.
  rewrite Htr. apply (grantPathAccess_spec _ _ user) in H as [H Ha].
  - rewrite <- (pv_accesses _ _ _ _ _ Hp) in Ha. split; [|done].
    etransitivity; [eapply changes_weaken, Hp; [by intros ? ? ->|done]|]. by eapply changes_weaken, H.
  - by rewrite (query_strip (fun b => GetProxyUser b un) _ _ ltac:(done) (changes_tables _ _ _ _ _ Hp)).
Qed.

(** ** reconcilePathGrants *)
Lemma collect_spec b : tidy b -> forall fuel P S pid P' S', collect b fuel (P, S) pid = Ok (P', S') ->
  S ∪ {[pid]} ⊆ S' /\ P ⊆ P' /\
  forall x, x ∈ S' -> x ∉ S -> (forall q, path_proxy b x = Some q -> q ∈ P') /\ (forall y, dials (paths b) x y -> y ∈ S').
Proof.
  intros Ht. induction fuel as [|fuel IH]; intros P S pid P' S' H; cbn [collect] in H; [done|].
  destruct (bool_decide (pid ∈ S)) eqn:Ei; [apply bool_decide_eq_true in Ei; injection H as <- <-; set_solver|clear Ei].
  destruct (GetPath b pid) as [p|] eqn:Ep; [|done]. destruct (GetEndpoint b _) as [e|] eqn:Ee; [|done].
  destruct (GetPath_known _ _ _ Ht Ep) as [Hk Htr]. destruct (GetEndpoint_proxy _ _ _ _ Ht Hk Ee) as [Hpp _].
  assert (Hhere : forall r, paths b !! pid = Some r -> r = p /\ path_proxy b pid = Some (ep_ProxyID e)).
  { intros r Hr. destruct (tidy_paths _ Ht _ _ Hr) as (_ & Hpt & _). rewrite Hpt in Htr. rewrite Htr in *. split; [congruence|done]. }
  assert (Hq : forall q, path_proxy b pid = Some q -> q = ep_ProxyID e).
  { intros q Hq. unfold path_proxy in Hq. destruct (paths b !! pid) as [r|] eqn:Er; [|done].
    destruct (Hhere r eq_refl) as [_ Hh]. unfold path_proxy in Hh. rewrite Er in Hh. congruence. }
  assert (Hd : forall y, dials (paths b) pid y -> pa_DialerPathID p = Some y).
  { intros y (r & Hr & Hy). by destruct (Hhere r Hr) as [-> _]. }
  destruct (pa_DialerPathID p) as [d|] eqn:Edp.
  - apply IH in H as (HS & HP & Hin). split; [set_solver|]. split; [set_solver|]. intros x Hx Hnx.
    destruct (decide (x = pid)) as [->|Hne]; [|apply Hin; set_solver]. split.
    + intros q ->%Hq. set_solver.
    + intros y Hy%Hd. injection Hy as <-. set_solver.
  - injection H as <- <-. split; [set_solver|]. split; [set_solver|]. intros x Hx Hnx.
    assert (x = pid) as -> by set_solver. split; [intros q ->%Hq; set_solver|intros y Hy%Hd; done].
Qed.
Definition through (b : Paths.tables) (root x : string) : Prop :=
  exists k, rtc (dials (paths b)) root k /\ path_proxy b k = Some x.
Lemma collect_proxies_spec P pid (s s' : store * nat) P' : tidy (base s.1) -> collect_proxies P pid s = (Ok P', s') ->
  s' = s /\ P ⊆ P' /\ forall x, through (base s.1) pid x -> x ∈ P'.
Proof.
  intros Ht H. unfold collect_proxies in H. run H. split; [done|].
  match goal with H : collect _ _ _ _ = Ok ?x |- _ => destruct x as [P1 S1]; apply collect_spec in H as (HS & HP & Hin); [|done] end.
  split; [done|]. intros x (k & Hk & Hx). apply (Hin k); [|set_solver|done].
  eapply closed_rtc; [|exact Hk|set_solver]. intros y z Hy Hyz. by apply (Hin y); [|set_solver|].
Qed.
Lemma through_strip b b' root x : strip b' = strip b -> through b' root x <-> through b root x.
Proof.
  intros Hs. unfold through. rewrite (query_strip paths _ _ ltac:(done) Hs).
  by rewrite (query_strip path_proxy b b' ltac:(done) Hs).
Qed.
Lemma containsID_true ids x : containsID ids x = true <-> x ∈ ids.
Proof.
  unfold containsID. rewrite existsb_exists. split.
  - intros (y & Hy & ->%String.eqb_eq). by apply list_elem_of_In.
  - intros Hx. exists x. split; [by apply list_elem_of_In|apply String.eqb_refl].
Qed.
(** The effective rows among these name the path. *)
Definition names_path (rows : list PathAccess) (p : string) : Prop :=
  exists r, r ∈ rows /\ effective r = true /\ pc_PathID r = p.
Lemma names_path_cons r rows p : names_path (r :: rows) p <-> (effective r = true /\ pc_PathID r = p) \/ names_path rows p.
Proof.
  unfold names_path. split.
  - intros (x & [->|Hx]%elem_of_cons & H); [by left|right; eauto].
  - intros [H|(x & Hx & H)]; [exists r|exists x]; (split; [|done]); [by left|by right].
Qed.
Lemma retire_rows_spec u desired rows : forall (st st' : gset string * gset string) (s s' : store * nat), tidy (base s.1) ->
  retire_rows oracle u desired rows st s = (Ok st', s') ->
  changes (same_others u) u (fun _ => False) s s' /\
  (forall p, allows (path_accesses (base s'.1)) u p <->
     allows (path_accesses (base s.1)) u p /\ ~ (names_path rows p /\ p ∉ desired)) /\
  (forall p, p ∈ st'.1 <-> p ∈ st.1 \/ (names_path rows p /\ p ∈ desired)) /\
  st.2 ⊆ st'.2 /\ (forall p x, names_path rows p -> through (base s.1) p x -> x ∈ st'.2).
Proof.
  assert (Hnil : forall p, ~ names_path [] p) by (intros p (x & Hx & _); by apply not_elem_of_nil in Hx).
  induction rows as [|r rows IH]; intros st st' s s' Ht H; cbn [retire_rows] in H.
  - run H. split; [reflexivity|]. split; [|split; [|split; [done|]]]; intros p; [|split; [by left|]|]; specialize (Hnil p); tauto.
  - destruct (effective r) eqn:Ee; cbn [negb] in H.
    2:{ apply IH in H as (Hc & H1 & H2 & H3 & H4); [|done].
        assert (Hn : forall p, names_path (r :: rows) p <-> names_path rows p) by (intros p; rewrite names_path_cons, Ee; intuition congruence).
        setoid_rewrite Hn. by repeat split_and. }
    run H. match goal with H : collect_proxies _ _ _ = _ |- _ => apply collect_proxies_spec in H as (-> & Hsub & Hthr); [|done] end.
    assert (Hn : forall p, names_path (r :: rows) p <-> p = pc_PathID r \/ names_path rows p) by (intros p; rewrite names_path_cons; intuition congruence).
    setoid_rewrite Hn. destruct (containsID desired (pc_PathID r)) eqn:Ec.
    + apply containsID_true in Ec. apply IH in H as (Hc & H1 & H2 & H3 & H4); [|done]. cbn [fst snd] in *.
      split; [done|]. split; [|split; [|split; [set_solver|]]].
      * intros p. rewrite H1. split; [|tauto]. intros [Ha Hb]. split; [done|]. intros [[->|Hr] Hd]; tauto.
      * intros p. rewrite H2, elem_of_union, elem_of_singleton. split; [intros [[?| ->]|?]; tauto|]. intros [?|[[->|?] ?]]; tauto.
      * intros p x [->|Hr] Hx; [apply H3, Hthr, Hx|by eapply H4].
    + assert (Hd : pc_PathID r ∉ desired) by (rewrite <- containsID_true, Ec; done). unfold put_accesses in H. run H.
      apply IH in H as (Hc & H1 & H2 & H3 & H4); [|by eapply tidy_strip, Ht]. cbn [fst snd base set_base path_accesses with_accesses] in *.
      split; [|split; [|split; [|split; [set_solver|]]]].
      * etransitivity; [|exact Hc]. apply (changes_accesses _ s); [|lia]. apply others_map.
        -- intros x. by destruct (_ && _).
        -- intros x Hx. destruct (is_access _ _ _) eqn:E; [|done]. by apply is_access_true in E as [_ E].
      * intros p. rewrite H1, allows_SoftDelete. split; [intros ((Hne & Ha) & Hb); split; [done|]; tauto|].
        intros (Ha & Hb). split; [|tauto]. split; [|done]. intros ->. tauto.
      * intros p. rewrite H2. split; [tauto|]. intros [?|[[->|?] ?]]; tauto.
      * intros p x [->|Hr] Hx; [apply H3, Hthr, Hx|by eapply H4].
Qed.

Lemma extend_access_spec u user active blocked desired : forall (s s' : store * nat), tidy (base s.1) ->
  GetProxyUser (base s.1) u = Ok user -> us_ID user = u -> (forall p, p ∈ desired -> TrimSpace p = p) ->
  extend_access oracle u active blocked desired s = (Ok tt, s') ->
  changes (same_others u) u (fun y => exists p, p ∈ desired /\ issued_along s.1 p y /\
                                       forall x, through (base s.1) p x -> x ∉ blocked) s s' /\
  forall x, allows (path_accesses (base s'.1)) u x <->
            allows (path_accesses (base s.1)) u x \/ (x ∈ desired /\ x ∉ active).
Proof.
  induction desired as [|pid desired IH]; intros s s' Ht Hu Hid Htr H; cbn [extend_access] in H.
  { run H. split; [reflexivity|]. intros x. rewrite elem_of_nil. tauto. }
  destruct (bool_decide _) eqn:Ea; [apply bool_decide_eq_true in Ea|apply bool_decide_eq_false in Ea].
  { apply IH in H as [Hc Ha]; [|done..|intros p Hp; apply Htr; by right]. split.
    - eapply changes_weaken, Hc; [done|]. intros y (p & Hp & H). exists p. split; [by right|done].
    - intros x. rewrite Ha, elem_of_cons. split; [tauto|]. intros [?|[[->|?] ?]]; tauto. }
  run H. match goal with H : collect_proxies _ _ _ = _ |- _ => apply collect_proxies_spec in H as (-> & _ & Hthr); [|done] end.
  destruct (List.find _ _) eqn:Ef; [by run H|]. run H.
  match goal with H : grantPathToUser _ _ _ _ = (Ok ?x, _) |- _ => destruct x; apply (grantPathToUser_spec _ _ user) in H as [Hg Hga]; [|done..] end.
  rewrite Hid in Hg, Hga. rewrite (Htr pid) in Hg, Hga by left.
  pose proof (changes_tables _ _ _ _ _ Hg) as Hs. pose proof (pv_erase _ _ _ _ _ Hg) as He.
  apply IH in H as [Hc Ha]; [|by eapply tidy_strip| |done|intros p Hp; apply Htr; by right].
  2:{ by rewrite (query_strip (fun b => GetProxyUser b u) _ _ ltac:(done) Hs). }
  split.
  - etransitivity; [eapply changes_weaken, Hg; [done|]|eapply changes_weaken, Hc; [done|]].
    + intros y Hy. exists pid. split; [by left|]. split; [done|]. intros x Hx Hb.
      pose proof (find_none _ _ Ef x) as Hf. cbn in Hf. rewrite bool_decide_eq_true_2 in Hf by done.
      discriminate Hf. apply list_elem_of_In, elem_of_elements, Hthr, Hx.
    + intros y (p & Hp & Hy & Hb). exists p. split; [by right|]. split; [by eapply issued_along_erase|].
      intros x Hx. apply Hb. by apply (through_strip _ _ _ _ Hs).
  - intros x. rewrite Ha, Hga, elem_of_cons. split; [intros [[->|?]|?]; tauto|]. intros [?|[[->|?] ?]]; tauto.
Qed.

Lemma disableUnused_changes b user b' : disableUnusedProxyCredentialsTx b user = Ok b' ->
  b' = with_credentials b (credentials b') /\ forall key, credentials b' !! key = credentials b !! key \/
    (key.1 = us_ID user /\ exists c, credentials b' !! key = Some (disable_credential c)).
Proof.
  unfold disableUnusedProxyCredentialsTx. destruct (required_proxies _ _ _) as [R|]; [|done]. intros [= <-].
  split; [done|]. intros key. cbn [credentials with_credentials]. rewrite map_lookup_imap.
  destruct (credentials b !! key) as [c|]; [|by left]. cbn.
  destruct (listed_credential b user key c) eqn:El; [|by left]. destruct (_ || _); [by left|right].
  unfold listed_credential in El. apply andb_true_iff in El as [El _]. apply andb_true_iff in El as [El _].
  apply andb_true_iff in El as [El _]. apply String.eqb_eq in El. split; [done|]. by eexists.
Qed.
Lemma usable_disabled (s : ProxyUser) (b : Paths.tables) (m : gmap (string * string) ProxyCredential) key : (forall key, m !! key = credentials b !! key \/
    (key.1 = us_ID s /\ exists c, m !! key = Some (disable_credential c))) ->
  (exists c, m !! key = Some c /\ live c = true) -> m !! key = credentials b !! key.
Proof. intros H (c & Hc & Hl). destruct (H key) as [E|(_ & c' & Hc')]; [done|]. rewrite Hc in Hc'. by injection Hc' as ->. Qed.
Lemma disable_run user (s s' : store * nat) : run_tables (fun b => disableUnusedProxyCredentialsTx b user) s = (Ok tt, s') ->
  changes eq (us_ID user) (fun _ => True) s s' /\ forall key, usable s'.1 key -> usable s.1 key.
Proof.
  intros H. unfold run_tables in H. run H.
  match goal with H : disableUnusedProxyCredentialsTx _ _ = Ok ?x |- _ => apply disableUnused_changes in H as [Hb Hk]; set (b := x) in * end.
  assert (Hsame : forall key, usable (set_base s.1 b) key -> credentials b !! key = credentials (base s.1) !! key).
  { intros key. by apply (usable_disabled user). }
  split.
  - constructor; cbn [fst snd base set_base]; [done|by rewrite Hb| |by rewrite Hb| |].
    + unfold erase. cbn. by rewrite Hb.
    + intros key. destruct (Hk key) as [E|[E _]]; [left; by split|by right].
    + intros key Hu. left. split; [by apply Hsame|done].
  - intros key Hu. pose proof (Hsame _ Hu) as E. destruct Hu as (c & Hc & Hl). exists c. split; [|done]. by rewrite <- E.
Qed.

(** What one user's reconciliation does.  [key] may come back only on a path
    that is newly granted, none of whose proxies is blocked. *)
Definition blocked_before (s : store) (u x : string) : Prop :=
  (exists p, allows (path_accesses (base s)) u p /\ through (base s) p x) /\
  exists c, credentials (base s) !! (u, x) = Some c /\ live c = false.
Lemma rows_allow s u p : names_path (ListUserPathAccessesIncludingInactive s u) p <-> allows (path_accesses (base s)) u p.
Proof.
  unfold names_path, allows, ListUserPathAccessesIncludingInactive. split.
  - intros (r & Hr & He & Hp). rewrite merge_sort_Permutation in Hr. apply list_elem_of_In, filter_In in Hr as [Hr Hu].
    exists r. split; [by apply list_elem_of_In|]. split; [|done]. apply is_access_true. by apply String.eqb_eq in Hu.
  - intros (r & Hr & [Hp Hu]%is_access_true & He). exists r. rewrite merge_sort_Permutation. split; [|done].
    apply list_elem_of_In, filter_In. split; [by apply list_elem_of_In|]. by apply String.eqb_eq.
Qed.
Lemma blocked_spec s u R x : (exists c, credentials (base s) !! (u, x) = Some c /\ live c = false) -> x ∈ R -> x ∈ blocked_proxies s u R.
Proof.
  intros (c & Hc & Hl) Hx. unfold blocked_proxies. apply elem_of_list_to_set, list_elem_of_omap.
  exists ((u, x), c). split; [by apply elem_of_map_to_list|]. cbn. by rewrite String.eqb_refl, bool_decide_eq_true_2, Hl.
Qed.
Lemma reconcile_spec userID (s s' : store * nat) user u : tidy (base s.1) -> GetProxyUser (base s.1) userID = Ok user ->
  us_ID user = u -> (forall p, p ∈ ListUserDesiredPathIDs s.1 u -> TrimSpace p = p) ->
  reconcilePathGrants oracle userID s = (Ok tt, s') ->
  changes (same_others u) u (fun _ => True) s s' /\
  (forall p, allows (path_accesses (base s'.1)) u p <-> p ∈ ListUserDesiredPathIDs s.1 u) /\
  (forall key, usable s'.1 key -> usable s.1 key \/ exists p, issued_along s.1 p key.2 /\
     forall x, through (base s.1) p x -> ~ blocked_before s.1 u x).
Proof.
  intros Ht Hu Hid Htr H. unfold reconcilePathGrants in H. run H.
  match goal with H : GetProxyUser _ _ = Ok ?v |- _ => assert (v = user) as -> by congruence end.
  match goal with H : retire_rows _ _ _ _ _ _ = _ |- _ => apply retire_rows_spec in H as (Hc1 & Ha1 & Hact & _ & Hreq); [|done] end.
  setoid_rewrite rows_allow in Ha1. setoid_rewrite rows_allow in Hact. setoid_rewrite rows_allow in Hreq.
  pose proof (changes_tables _ _ _ _ _ Hc1) as Hs1. destruct (GetProxyUser_id _ _ _ Ht Hu) as (_ & _ & Hu2).
  match goal with H : extend_access _ _ _ _ _ _ = (Ok ?x, _) |- _ => destruct x; apply (extend_access_spec (us_ID user) user) in H as [Hc2 Ha2]; [|by eapply tidy_strip| |done|done] end.
  2:{ by rewrite (query_strip (fun b => GetProxyUser b (us_ID user)) _ _ ltac:(done) Hs1). }
  match goal with H : run_tables _ _ = (Ok ?x, _) |- _ => destruct x; apply disable_run in H as [Hc3 Hu3] end.
  split; [|split].
  - etransitivity; [eapply changes_weaken, Hc1; done|]. etransitivity; [by eapply changes_weaken, Hc2|].
    eapply changes_weaken, Hc3; [by intros ? ? ->|done].
  - intros p. rewrite <- (pv_accesses _ _ _ _ _ Hc3), Ha2, Ha1. specialize (Hact p). cbn [fst] in Hact.
    rewrite elem_of_empty in Hact. destruct (decide (p ∈ ListUserDesiredPathIDs s.1 (us_ID user))), (decide (p ∈ a0.1)); tauto.
  - intros key Hk. apply Hu3 in Hk.
    destruct (pv_credentials _ _ _ _ _ Hc2 key) as [[E _]|[E (p & _ & Hi & Hb)]].
    + left. destruct Hk as (c & Hc & Hl). exists c. split; [|done].
      destruct (pv_credentials _ _ _ _ _ Hc1 key) as [[E1 _]|[_ []]]. by rewrite <- E1, <- E.
    + right. exists p. split; [by eapply issued_along_erase, Hi; apply (pv_erase _ _ _ _ _ Hc1)|].
      intros x Hx [(r & Hra & Hrx) Hdead]. apply (Hb x); [by apply (through_strip _ _ _ _ Hs1)|].
      apply blocked_spec; [|by eapply Hreq]. destruct Hdead as (c & Hc & Hl). exists c. split; [|done].
      by destruct (pv_credentials _ _ _ _ _ Hc1 (us_ID user, x)) as [[E1 _]|[_ []]]; rewrite ?E1.
Qed.
End provision.

(** ** Sources and effect *)
(** The user has the path through the group. *)
Definition via (s : store) (u p g : string) : Prop :=
  (g, p) ∈ path_group_members (base s) /\ (u, g) ∈ user_path_group_grants s /\
  exists row, path_groups s !! g = Some row /\ pg_Enabled row = true /\ pg_DeletedAt row = None.
Definition wants (s : store) (u p : string) : Prop := direct_path_grants s !! (u, p) = Some true \/ exists g, via s u p g.
Definition may_use (s : store) (u p : string) : Prop := allows (path_accesses (base s)) u p.
(** What the foreign keys guarantee. *)
Record consistent (s : store) : Prop := {
  cs_tidy : tidy (base s);
  cs_direct : forall u p e, direct_path_grants s !! (u, p) = Some e ->
    is_Some (proxy_users (base s) !! u) /\ is_Some (paths (base s) !! p);
  cs_members : forall g p, (g, p) ∈ path_group_members (base s) -> is_Some (path_groups s !! g) /\ is_Some (paths (base s) !! p);
  cs_grants : forall u g, (u, g) ∈ user_path_group_grants s -> is_Some (proxy_users (base s) !! u) /\ is_Some (path_groups s !! g)
}.
(** Every user that is not deleted may use exactly the paths of his sources. *)
Definition synced (s : store) : Prop := forall u row, proxy_users (base s) !! u = Some row -> us_DeletedAt row = None ->
  forall p, may_use s u p <-> wants s u p.

Lemma is_set_false {A} (o : option A) : is_set o = false <-> o = None.
Proof. by destruct o. Qed.
Lemma is_set_true {A} (o : option A) : is_set o = true <-> is_Some o.
Proof. destruct o; cbn; split; [by eexists|done|done|by intros [? [=]]]. Qed.
Lemma group_applies_true s u g : group_applies s u g = true <->
  (u, g) ∈ user_path_group_grants s /\ exists row, path_groups s !! g = Some row /\ pg_Enabled row = true /\ pg_DeletedAt row = None.
Proof.
  unfold group_applies. rewrite andb_true_iff, bool_decide_eq_true. destruct (path_groups s !! g) as [row|].
  - rewrite andb_true_iff. split; [intros (H1 & H2 & H3); split; [done|]; exists row; by destruct (pg_DeletedAt row)|].
    intros (H1 & r & [= <-] & H2 & H3). by rewrite H3.
  - split; [by intros []|by intros (_ & r & [=] & _)].
Qed.
Lemma desired_wants s u p : p ∈ ListUserDesiredPathIDs s u <-> wants s u p.
Proof.
  unfold ListUserDesiredPathIDs. rewrite merge_sort_Permutation, elem_of_remove_dups, elem_of_app.
  unfold direct_ids, group_ids, wants. rewrite !list_elem_of_omap. apply ZifyClasses.or_morph.
  - split.
    + intros ([[v q] e] & Hin & H). cbn in H. apply elem_of_map_to_list in Hin.
      destruct (v =? u)%string eqn:E, e; try done. apply String.eqb_eq in E as ->. by injection H as <-.
    + intros H. exists ((u, p), true). split; [by apply elem_of_map_to_list|]. cbn. by rewrite String.eqb_refl.
  - split.
    + intros ([g q] & Hin & H). cbn in H. destruct (group_applies s u g) eqn:E; [|done]. injection H as ->.
      exists g. split; [by apply elem_of_elements|by apply group_applies_true].
    + intros (g & Hm & H). exists (g, p). split; [by apply elem_of_elements|]. cbn. by rewrite (proj2 (group_applies_true s u g) H).
Qed.
Lemma wants_known s u p : consistent s -> wants s u p -> is_Some (paths (base s) !! p).
Proof. intros Hc [H|(g & H & _)]; [by apply (cs_direct _ Hc) in H as []|by apply (cs_members _ Hc) in H as []]. Qed.
Lemma known_trimmed b p : tidy b -> is_Some (paths b !! p) -> TrimSpace p = p.
Proof. intros Ht [r Hr]. by destruct (tidy_paths _ Ht _ _ Hr) as (_ & H & _). Qed.
Lemma wants_erase s s' u p : erase s' = erase s -> wants s' u p <-> wants s u p.
Proof. intros He. change (wants s' u p) with (wants (erase s') u p). by rewrite He. Qed.
Lemma consistent_erase s s' : erase s' = erase s -> consistent s -> consistent s'.
Proof.
  intros He [Ht Hd Hm Hg]. pose proof (erase_strip _ _ He) as Hs.
  pose proof (f_equal direct_path_grants He) as E1. pose proof (f_equal path_groups He) as E2.
  pose proof (f_equal user_path_group_grants He) as E3. pose proof (f_equal proxy_users Hs) as E4.
  pose proof (f_equal paths Hs) as E5. pose proof (f_equal path_group_members Hs) as E6. cbn in E1, E2, E3, E4, E5, E6.
  constructor; [by eapply tidy_strip|rewrite ?E1, ?E2, ?E3, ?E4, ?E5, ?E6; done..].
Qed.
Lemma same_others_allows u v l l' p : same_others u l l' -> v <> u -> allows l' v p <-> allows l v p.
Proof.
  intros Hl Hne. assert (H : forall l, allows l v p <-> allows (others u l) v p).
  { intros k. unfold allows, others. split.
    - intros (a & Ha & Hi & He). exists a. split; [|done]. apply list_elem_of_In, filter_In. split; [by apply list_elem_of_In|].
      apply is_access_true in Hi as [_ ->]. by apply negb_true_iff, String.eqb_neq.
    - intros (a & Ha & H). exists a. split; [|done]. apply list_elem_of_In, filter_In in Ha as [Ha _]. by apply list_elem_of_In. }
  by rewrite (H l), (H l'), Hl.
Qed.

(** Reconciling a user, in these terms. *)
Section reconcile.
Variable oracle : nat -> draw.
Definition everything := fun _ : string => True.
Record reconciled (u : string) (s s' : store * nat) : Prop := {
  rc_changes : changes oracle (same_others u) u everything s s';
  rc_exact : forall p, may_use s'.1 u p <-> wants s.1 u p;
  rc_blocked : forall key, usable s'.1 key -> usable s.1 key \/
    exists p, issued_along s.1 p key.2 /\ forall x, through (base s.1) p x -> ~ blocked_before s.1 u x
}.
Lemma reconcile_reconciles userID u (s s' : store * nat) row : consistent s.1 -> GetProxyUser (base s.1) userID = Ok row ->
  us_ID row = u -> reconcilePathGrants oracle userID s = (Ok tt, s') -> reconciled u s s'.
Proof.
  intros Hc Hu Hid H. pose proof (cs_tidy _ Hc) as Ht.
  destruct (reconcile_spec oracle userID s s' row u Ht Hu Hid) as (H1 & H2 & H3); [|done|].
  - intros p Hp%desired_wants. eapply known_trimmed, wants_known; eassumption.
  - split; [done| |done]. intros p. unfold may_use. etransitivity; [apply H2|apply desired_wants].
Qed.
Lemma reconciled_erase u s s' : reconciled u s s' -> erase s'.1 = erase s.1.
Proof. intros [H _ _]. apply (pv_erase _ _ _ _ _ _ H). Qed.
Lemma reconciled_others u s s' v p : reconciled u s s' -> v <> u -> may_use s'.1 v p <-> may_use s.1 v p.
Proof. intros [H _ _]. unfold may_use. apply same_others_allows, (pv_accesses _ _ _ _ _ _ H). Qed.

(** ** Selection, direct grants *)
Definition edit (u : string) (m : gmap (string * string) bool) (c : string * bool) : gmap (string * string) bool :=
  if c.2 then <[(u, c.1) := true]> m else delete (u, c.1) m.
Lemma edits_lookup u l : forall m, NoDup l.*1 ->
  (forall p, (p, true) ∈ l -> foldl (edit u) m l !! (u, p) = Some true) /\
  (forall p, (p, false) ∈ l -> foldl (edit u) m l !! (u, p) = None) /\
  (forall v p, v <> u \/ p ∉ l.*1 -> foldl (edit u) m l !! (v, p) = m !! (v, p)).
Proof.
  induction l as [|[q e] l IH]; intros m Hnd; [by split; [|split]; intros p; try rewrite elem_of_nil|].
  apply NoDup_cons in Hnd as [Hq Hnd]. destruct (IH (edit u m (q, e)) Hnd) as (H1 & H2 & H3).
  cbn [foldl]. split; [|split].
  - intros p [[= -> <-]|Hp]%elem_of_cons; [|by apply H1]. rewrite H3 by by right. apply lookup_insert_eq.
  - intros p [[= -> <-]|Hp]%elem_of_cons; [|by apply H2]. rewrite H3 by by right. apply lookup_delete_eq.
  - intros v p Hvp. cbn in Hvp. rewrite elem_of_cons in Hvp. rewrite H3 by tauto. unfold edit. cbn.
    assert ((u, q) <> (v, p)) by (intros [= -> ->]; tauto). destruct e; [by rewrite lookup_insert_ne|by rewrite lookup_delete_ne].
Qed.
Definition put_grant (u : string) (c : string * bool) : M unit :=
  if c.2 then SetDirectPathGrant u c.1 else DeleteDirectPathGrant u c.1.
Lemma put_grant_Ok u c (s s' : store * nat) : put_grant u c s = (Ok tt, s') ->
  s' = (set_direct s.1 (edit u (direct_path_grants s.1) c), s.2) /\
  (c.2 = true -> is_Some (proxy_users (base s.1) !! u) /\ is_Some (paths (base s.1) !! c.1)).
Proof.
  unfold put_grant, edit. destruct c as [p []]; cbn [fst snd]; intros H.
  - unfold SetDirectPathGrant in H. run H. split; [done|]. intros _.
    match goal with H : _ && _ = true |- _ => apply andb_true_iff in H as [H1 H2] end. by rewrite <- !is_set_true.
  - unfold DeleteDirectPathGrant in H. run H. done.
Qed.
Lemma put_grants_Ok {A} u (f : A -> string * bool) l : forall (s s' : store * nat), consistent s.1 ->
  for_each (fun x => put_grant u (f x)) l s = (Ok tt, s') ->
  s' = (set_direct s.1 (foldl (edit u) (direct_path_grants s.1) (f <$> l)), s.2) /\ consistent s'.1.
Proof.
  induction l as [|x l IH]; intros s s' Hc H; cbn [for_each] in H.
  - apply ret_Ok in H as [_ ->]. split; [by destruct s as [[]]|done].
  - apply bind_Ok in H as ([] & s1 & H1 & H). apply put_grant_Ok in H1 as [-> Hk]. apply IH in H as [-> Hc']; [by split|].
    destruct Hc as [Ht Hd Hm Hg]. constructor; [exact Ht| |exact Hm|exact Hg]. cbn. intros v q e. unfold edit.
    destruct (f x) as [p []]; cbn [fst snd] in *.
    + intros [[[= <- <-] _]|[_ H']]%lookup_insert_Some; [by apply Hk|by eapply Hd].
    + intros [_ H']%lookup_delete_Some. by eapply Hd.
Qed.
Lemma check_selection_Ok changes : forall seen (s s' : store * nat), check_selection seen changes s = (Ok tt, s') ->
  s' = s /\ NoDup (sc_PathID <$> changes) /\ (forall c, c ∈ changes -> sc_PathID c ∉ seen).
Proof.
  induction changes as [|c changes IH]; intros seen s s' H; cbn [check_selection] in H.
  - run H. split; [done|]. split; [constructor|]. intros c Hc. by apply not_elem_of_nil in Hc.
  - run H. apply IH in H as (-> & Hnd & Hns).
    match goal with H : negb (bool_decide (_ ∈ seen)) = true |- _ => apply negb_true_iff, bool_decide_eq_false in H; rename H into Hc end.
    split; [done|]. split; [|intros x [->|Hx]%elem_of_cons; [done|specialize (Hns _ Hx); set_solver]].
    cbn. apply NoDup_cons. split; [|done]. intros (x & E & Hx)%list_elem_of_fmap. specialize (Hns _ Hx). set_solver.
Qed.
Lemma desired_NoDup s u : NoDup (ListUserDesiredPathIDs s u).
Proof. unfold ListUserDesiredPathIDs. rewrite merge_sort_Permutation. apply NoDup_remove_dups. Qed.

Definition selected (changes : list PathSelectionChange) (p : string) (on : bool) : Prop :=
  {| sc_PathID := p; sc_Enabled := on |} ∈ changes.
Definition selection_edits (changes : list PathSelectionChange) : list (string * bool) :=
  (fun c => (sc_PathID c, sc_Enabled c)) <$> changes.
Lemma selected_edit changes p on : selected changes p on <-> (p, on) ∈ selection_edits changes.
Proof.
  unfold selected, selection_edits. rewrite list_elem_of_fmap. split.
  - intros H. by exists {| sc_PathID := p; sc_Enabled := on |}.
  - intros ([q o] & [= -> ->] & H). exact H.
Qed.
(** The sources after a selection. *)
Lemma selection_sources changes u (s : store) : NoDup (sc_PathID <$> changes) ->
  let direct := foldl (edit u) (direct_path_grants s) ((fun p => (p, true)) <$> ListUserDesiredPathIDs s u) in
  let s1 := set_group_grants (set_direct s direct) (filter (fun g => g.1 <> u) (user_path_group_grants s)) in
  let s2 := set_direct s1 (foldl (edit u) direct (selection_edits changes)) in
  (forall p, wants s2 u p <-> selected changes p true \/ (wants s u p /\ ~ selected changes p false)) /\
  (forall v p, v <> u -> wants s2 v p <-> wants s v p).
Proof.
  intros Hnd direct s1 s2.
  assert (Hnd1 : NoDup (((fun p => (p, true)) <$> ListUserDesiredPathIDs s u).*1)).
  { rewrite <- list_fmap_compose. unfold compose. cbn. rewrite list_fmap_id. apply desired_NoDup. }
  assert (Hnd2 : NoDup ((selection_edits changes).*1)) by (unfold selection_edits; rewrite <- list_fmap_compose; exact Hnd).
  destruct (edits_lookup u _ (direct_path_grants s) Hnd1) as (D1 & _ & D3).
  destruct (edits_lookup u _ direct Hnd2) as (E1 & E2 & E3). fold direct in D1, D3. split.
  - intros p. assert (Hdir : direct !! (u, p) = Some true <-> wants s u p).
    { destruct (decide (p ∈ ListUserDesiredPathIDs s u)) as [Hp|Hp].
      - split; [by intros _; apply desired_wants|]. intros _. apply D1, list_elem_of_fmap. by exists p.
      - assert (Hn : ~ wants s u p) by (by rewrite <- desired_wants). split; [|done]. rewrite D3.
        + intros H. destruct Hn. by left.
        + right. by rewrite <- list_fmap_compose; unfold compose; cbn; rewrite list_fmap_id. }
    assert (Hw : wants s2 u p <-> foldl (edit u) direct (selection_edits changes) !! (u, p) = Some true).
    { unfold wants, via. cbn. split; [|by left]. intros [?|(g & _ & Hg & _)]; [done|].
      apply elem_of_filter in Hg as [Hg _]. done. }
    rewrite Hw, !selected_edit. destruct (decide (p ∈ (selection_edits changes).*1)) as [Hp|Hp].
    + apply list_elem_of_fmap in Hp as ([q []] & -> & Hp); cbn [fst].
      * rewrite (E1 _ Hp). split; [by left|done].
      * rewrite (E2 _ Hp). split; [done|]. intros [Ht|[_ Hf]]; [|done]. pose proof (E1 _ Ht). pose proof (E2 _ Hp). congruence.
    + rewrite E3 by by right. rewrite Hdir. assert (Hn : forall b, (p, b) ∉ selection_edits changes).
      { intros b Hb. apply Hp, list_elem_of_fmap. by exists (p, b). }
      pose proof (Hn true). pose proof (Hn false). tauto.
  - intros v p Hv. unfold wants, via. cbn. rewrite E3 by by left. rewrite D3 by by left.
    setoid_rewrite elem_of_filter. cbn. naive_solver.
Qed.
End reconcile.
