(* ===== verification/GrantSafety.v ===== *)
(** * Who may use what, after each operation of [PathGrants]

    The operations of an administrator compared with what they promise: the
    effective rows follow the sources, secrets that were revoked stay revoked,
    and a reviewed group change does what the review said. *)
From S2P Require Import Prelude GoStrings Effects.
From S2P Require Import Paths PathGrants PathAccess.

#[local] Open Scope Z_scope.

(** ** What an operation keeps *)
Section operations.
Variable oracle : nat -> draw.
(** Only rows that name sources change. *)
Record only_sources (s s1 : store * nat) : Prop := {
  os_counter : (s.2 <= s1.2)%nat;
  os_accesses : path_accesses (base s1.1) = path_accesses (base s.1);
  os_users : proxy_users (base s1.1) = proxy_users (base s.1);
  os_credentials : credentials (base s1.1) = credentials (base s.1);
  os_secrets : credential_json s1.1 = credential_json s.1
}.
#[export] Instance only_sources_preorder : PreOrder only_sources.
Proof.
  split; [by intros s; constructor|].
  intros s1 s2 s3 [H1 H2 H3 H4 H5] [G1 G2 G3 G4 G5]. constructor; [lia|congruence..].
Qed.
(** Credentials in use are as before, or have a new secret. *)
Definition secrets_kept (s s' : store * nat) : Prop :=
  (s.2 <= s'.2)%nat /\ forall key, usable s'.1 key -> same_credential s s' key \/ minted oracle s s' key.
#[export] Instance secrets_kept_preorder : PreOrder secrets_kept.
Proof.
  split; [by intros s; split; [|left]|]. intros s1 s2 s3 [Hn Hs] [Hn' Hs']. split; [lia|]. intros key Hu.
  destruct (Hs' key Hu) as [[H1 H2]|(n & x & Hx & Hd & Hj)]; [|right; exists n, x; split; [lia|done]].
  assert (Hu2 : usable s2.1 key) by (unfold usable; by rewrite <- H1).
  destruct (Hs key Hu2) as [[H3 H4]|(n & x & Hx & Hd & Hj)]; [left; split; congruence|].
  right. exists n, x. split; [lia|]. split; [done|]. by rewrite H2.
Qed.
Lemma only_sources_secrets s s1 : only_sources s s1 -> secrets_kept s s1.
Proof. intros [H1 H2 H3 H4 H5]. split; [done|]. intros key _. left. unfold same_credential. by rewrite H4, H5. Qed.
Lemma changes_secrets A u Q s s' : changes oracle A u Q s s' -> secrets_kept s s'.
Proof. intros H. split; [apply (pv_counter _ _ _ _ _ _ H)|apply (pv_secrets _ _ _ _ _ _ H)]. Qed.

(** The user is granted what he was granted, and has what he had. *)
Definition held (u : string) (s s1 : store) : Prop :=
  (forall p, direct_path_grants s1 !! (u, p) = direct_path_grants s !! (u, p)) /\
  (forall g, (u, g) ∈ user_path_group_grants s1 <-> (u, g) ∈ user_path_group_grants s).
Record spared (u : string) (s s' : store * nat) : Prop := {
  sp_held : held u s.1 s'.1;
  sp_access : forall p, may_use s'.1 u p <-> may_use s.1 u p;
  sp_credentials : forall x, same_credential s s' (u, x)
}.
Definition live_user (s : store) (u : string) : Prop :=
  exists row, proxy_users (base s) !! u = Some row /\ us_DeletedAt row = None.
Lemma resolved_live s name row : consistent s -> GetProxyUser (base s) name = Ok row -> live_user s (us_ID row).
Proof. intros Hc H. apply (GetProxyUser_id _ _ _ (cs_tidy _ Hc)) in H as (H1 & H2 & _). by exists row. Qed.
Lemma held_erase u s s1 s' : erase s' = erase s1 -> held u s s1 -> held u s s'.
Proof.
  intros He [H1 H2]. pose proof (f_equal direct_path_grants He) as E1. pose proof (f_equal user_path_group_grants He) as E2. cbn in E1, E2.
  split; intros; rewrite ?E1, ?E2; auto.
Qed.

Record keeps (s s' : store * nat) : Prop := {
  ks_consistent : consistent s'.1;
  ks_users : proxy_users (base s'.1) = proxy_users (base s.1);
  ks_synced : synced s.1 -> synced s'.1;
  ks_secrets : secrets_kept s s';
  ks_spared : forall u, ~ live_user s.1 u -> spared u s s'
}.
Lemma erase_users s s' : erase s' = erase s -> proxy_users (base s') = proxy_users (base s).
Proof. intros H. exact (f_equal (fun s => proxy_users (base s)) H). Qed.
(** First the sources change, then the effect: for every user both are as
    before, or the effect is what the new sources say. *)
Lemma keeps_intro s s1 s' : consistent s1.1 -> only_sources s s1 -> erase s'.1 = erase s1.1 -> secrets_kept s1 s' ->
  (forall u, (forall p, (wants s1.1 u p <-> wants s.1 u p) /\ (may_use s'.1 u p <-> may_use s.1 u p)) \/
             (synced s.1 -> forall row, proxy_users (base s.1) !! u = Some row -> us_DeletedAt row = None ->
              forall p, may_use s'.1 u p <-> wants s1.1 u p)) ->
  (forall u, ~ live_user s.1 u -> spared u s s') -> keeps s s'.
Proof.
  intros Hc Ho He Hsec Hu Hsp. pose proof (erase_users _ _ He) as Hus. rewrite (os_users _ _ Ho) in Hus. constructor.
  - by eapply consistent_erase.
  - done.
  - intros Hs u row Hrow Hd p. rewrite Hus in Hrow. rewrite (wants_erase _ _ _ _ He).
    destruct (Hu u) as [H|H]; [|by eapply H]. destruct (H p) as [-> ->]. by eapply Hs.
  - etransitivity; [by apply only_sources_secrets|done].
  - done.
Qed.
Lemma only_sources_base (s s1 : store * nat) : (s.2 <= s1.2)%nat -> base s1.1 = base s.1 ->
  credential_json s1.1 = credential_json s.1 -> only_sources s s1.
Proof. intros Hn Hb Hj. constructor; by rewrite ?Hb. Qed.

(** Several users are reconciled. *)
Record all_reconciled (us : list string) (s s' : store * nat) : Prop := {
  ar_erase : erase s'.1 = erase s.1;
  ar_secrets : secrets_kept s s';
  ar_exact : forall u p, u ∈ us -> may_use s'.1 u p <-> wants s.1 u p;
  ar_others : forall u p, u ∉ us -> may_use s'.1 u p <-> may_use s.1 u p;
  ar_live : forall u, u ∈ us -> live_user s.1 u;
  ar_credentials : forall key, key.1 ∉ us -> same_credential s s' key
}.
Lemma reconciled_all u s s' : live_user s.1 u -> reconciled oracle u s s' -> all_reconciled [u] s s'.
Proof.
  intros Hl H. constructor.
  - by eapply reconciled_erase.
  - eapply changes_secrets, (rc_changes _ _ _ _ H).
  - intros v p ->%list_elem_of_singleton. apply (rc_exact _ _ _ _ H).
  - intros v p Hv. eapply reconciled_others; [exact H|]. intros ->. apply Hv. by left.
  - by intros v ->%list_elem_of_singleton.
  - intros key Hk. destruct (pv_credentials _ _ _ _ _ _ (rc_changes _ _ _ _ H) key) as [?|[<- _]]; [done|]. destruct Hk. by left.
Qed.
Lemma only_sources_spares u s s1 s' : only_sources s s1 -> held u s.1 s1.1 -> erase s'.1 = erase s1.1 ->
  (forall p, may_use s'.1 u p <-> may_use s1.1 u p) -> (forall x, same_credential s1 s' (u, x)) -> spared u s s'.
Proof.
  intros Ho Hh He Hm Hcr. constructor.
  - by eapply held_erase.
  - intros p. rewrite Hm. unfold may_use. by rewrite (os_accesses _ _ Ho).
  - intros x. destruct (Hcr x) as [E1 E2]. rewrite (os_credentials _ _ Ho) in E1. rewrite (os_secrets _ _ Ho) in E2. by split.
Qed.
Lemma reconciled_keeps us s s1 s' : consistent s1.1 -> only_sources s s1 ->
  (forall u p, u ∉ us -> wants s1.1 u p <-> wants s.1 u p) -> (forall u, ~ live_user s.1 u -> held u s.1 s1.1) ->
  all_reconciled us s1 s' -> keeps s s'.
Proof.
  intros Hc Ho Hw Hh [He Hs Hx Ho2 Hl Hcr]. eapply keeps_intro; [done..| |].
  - intros u. destruct (decide (u ∈ us)) as [Hu|Hu]; [right; intros _ _ _ _ p; by apply Hx|left].
    intros p. split; [by apply Hw|]. rewrite Ho2 by done. unfold may_use. by rewrite (os_accesses _ _ Ho).
  - intros u Hd. assert (Hu : u ∉ us).
    { intros (r & Hr & Hn)%Hl. rewrite (os_users _ _ Ho) in Hr. apply Hd. by exists r. }
    eapply only_sources_spares; [exact Ho|by apply Hh|exact He|intros p; by apply Ho2|intros x; by apply Hcr].
Qed.

Lemma edits_others u v l m p : v <> u -> foldl (edit u) m l !! (v, p) = m !! (v, p).
Proof.
  intros Hv. revert m. induction l as [|[q e] l IH]; intros m; cbn [foldl]; [done|]. rewrite IH. unfold edit. cbn.
  assert ((u, q) <> (v, p)) by congruence. destruct e; [by rewrite lookup_insert_ne|by rewrite lookup_delete_ne].
Qed.

(** ** ChangeUserPathSelection *)
Lemma selection_run userID changes (s s' : store * nat) : consistent s.1 ->
  ChangeUserPathSelection oracle userID changes s = (Ok tt, s') ->
  exists row s2, GetProxyUser (base s.1) userID = Ok row /\ only_sources s (s2, s.2) /\ (base s2 = base s.1 /\ credential_json s2 = credential_json s.1 /\
      proxy_name_aliases s2 = proxy_name_aliases s.1) /\ consistent s2 /\
    (forall p, wants s2 (us_ID row) p <-> selected changes p true \/ (wants s.1 (us_ID row) p /\ ~ selected changes p false)) /\
    (forall v p, v <> us_ID row -> wants s2 v p <-> wants s.1 v p) /\
    (forall g, (us_ID row, g) ∉ user_path_group_grants s2) /\ (forall v, v <> us_ID row -> held v s.1 s2) /\
    reconciled oracle (us_ID row) (s2, s.2) s'.
Proof.
  intros Hc H. unfold ChangeUserPathSelection in H. apply bind_Ok in H as (x & s0 & H0 & H). run H0. clear H0.
  apply atomic_Ok in H. apply bind_Ok in H as (row & s0 & H0 & H). run H0. rename H0 into Hu.
  apply bind_Ok in H as ([] & s0 & H0 & H). apply check_selection_Ok in H0 as (-> & Hnd & _).
  apply bind_Ok in H as (st & s0 & H0 & H). apply get_Ok in H0 as [-> ->].
  apply bind_Ok in H as ([] & s1 & H1 & H). apply bind_Ok in H as ([] & s2 & H2 & H).
  apply bind_Ok in H as ([] & s3 & H3 & H). exists row.
  change (for_each (fun p => put_grant (us_ID row) ((fun p => (p, true)) p)) (ListUserDesiredPathIDs s.1 (us_ID row)) s = (Ok tt, s1)) in H1.
  apply put_grants_Ok in H1 as [-> Hc1]; [|done]. unfold DeleteUserPathGroupGrants in H2. run H2.
  change (for_each (fun c => put_grant (us_ID row) ((fun c => (sc_PathID c, sc_Enabled c)) c)) changes
    (set_group_grants (set_direct s.1 (foldl (edit (us_ID row)) (direct_path_grants s.1)
       ((fun p => (p, true)) <$> ListUserDesiredPathIDs s.1 (us_ID row)))) (filter (fun g => g.1 <> us_ID row) (user_path_group_grants s.1)), s.2)
    = (Ok tt, s3)) in H3.
  apply put_grants_Ok in H3 as [-> Hc3].
  2:{ destruct Hc1 as [T1 T2 T3 T4]. constructor; [done..|]. cbn. intros u g [_ Hg]%elem_of_filter. by eapply T4. }
  match type of Hc3 with consistent (?x, _).1 => exists x end. destruct (selection_sources changes (us_ID row) s.1 Hnd) as [W1 W2].
  destruct (GetProxyUser_id _ _ _ (cs_tidy _ Hc) Hu) as (_ & _ & Hu2).
  split; [done|]. split; [by apply only_sources_base|]. split; [done|]. split; [exact Hc3|]. split; [exact W1|]. split; [exact W2|].
  split; [by intros g [Hg _]%elem_of_filter|].
  split; [intros v Hv; split; [intros p; cbn; by rewrite !edits_others|intros g; cbn; rewrite elem_of_filter; naive_solver]|].
  eapply reconcile_reconciles; [exact Hc3| |done|exact H]. done.
Qed.
Lemma selection_keeps userID changes (s s' : store * nat) : consistent s.1 ->
  ChangeUserPathSelection oracle userID changes s = (Ok tt, s') -> keeps s s'.
Proof.
  intros Hc H. destruct (selection_run _ _ _ _ Hc H) as (row & s2 & Hu & Ho & (Hb & _) & Hc2 & _ & Hw & _ & Hh & Hr).
  pose proof (resolved_live _ _ _ Hc Hu) as Hl.
  eapply (reconciled_keeps [us_ID row]); [|exact Ho| | |apply reconciled_all; [|exact Hr]]; [done|..].
  - intros v p Hv. apply Hw. intros ->. apply Hv. by left.
  - intros v Hd. apply Hh. intros ->. by apply Hd.
  - unfold live_user. cbn. by rewrite Hb.
Qed.

(** ** RevokePathAccess *)
Lemma revoke_run userName pathID (s s' : store * nat) access : consistent s.1 ->
  RevokePathAccess oracle userName pathID s = (Ok access, s') ->
  exists row, GetProxyUser (base s.1) userName = Ok row /\
    let s2 := set_direct s.1 (delete (us_ID row, pathID) (direct_path_grants s.1)) in
    only_sources s (s2, s.2) /\ consistent s2 /\ reconciled oracle (us_ID row) (s2, s.2) s'.
Proof.
  intros Hc H. unfold RevokePathAccess in H. apply atomic_Ok in H. apply bind_Ok in H as (row & s0 & H0 & H). run H0. rename H0 into Hu.
  apply bind_Ok in H as ([] & s1 & H1 & H). unfold DeleteDirectPathGrant in H1. run H1.
  apply bind_Ok in H as ([] & s2 & H2 & H). apply bind_Ok in H as (st & s3 & H3 & H). apply get_Ok in H3 as [-> ->].
  assert (s' = s2) as -> by (destruct (List.find _ _); by run H). exists row.
  assert (Hc2 : consistent (set_direct s.1 (delete (us_ID row, pathID) (direct_path_grants s.1)))).
  { destruct Hc as [T1 T2 T3 T4]. constructor; [done| |done|done]. cbn. intros u p e [_ He]%lookup_delete_Some. by eapply T2. }
  destruct (GetProxyUser_id _ _ _ (cs_tidy _ Hc) Hu) as (_ & _ & Hu2).
  split; [done|]. split; [by apply only_sources_base|]. split; [exact Hc2|].
  eapply reconcile_reconciles; [exact Hc2| |done|exact H2]. done.
Qed.
Lemma revoke_keeps userName pathID (s s' : store * nat) access : consistent s.1 ->
  RevokePathAccess oracle userName pathID s = (Ok access, s') -> keeps s s'.
Proof.
  intros Hc H. destruct (revoke_run _ _ _ _ _ Hc H) as (row & Hu & Ho & Hc2 & Hr).
  pose proof (resolved_live _ _ _ Hc Hu) as Hl.
  eapply (reconciled_keeps [us_ID row]); [|exact Ho| | |by apply reconciled_all]; [done|..].
  - intros v p Hv. unfold wants, via. cbn. rewrite lookup_delete_ne; [done|]. intros [= E _]. apply Hv. rewrite E. by left.
  - intros v Hd. split; [|done]. intros p. cbn. apply lookup_delete_ne. intros [= E _]. apply Hd. by rewrite <- E.
Qed.

(** ** GrantPathAccess, GrantPathToUser *)
Lemma direct_run userName pathID technical (s s' : store * nat) : consistent s.1 ->
  grantDirectPath oracle userName pathID technical s = (Ok tt, s') ->
  exists row, GetProxyUser (base s.1) userName = Ok row /\
    let s2 := set_direct s.1 (<[(us_ID row, pathID) := true]> (direct_path_grants s.1)) in
    consistent s2 /\ (exists Q, changes oracle (same_others (us_ID row)) (us_ID row) Q (s2, s.2) s') /\
    forall p, may_use s'.1 (us_ID row) p <-> p = pathID \/ may_use s.1 (us_ID row) p.
Proof.
  intros Hc H. unfold grantDirectPath in H. apply atomic_Ok in H. apply bind_Ok in H as (row & s0 & H0 & H). run H0. rename H0 into Hu.
  apply bind_Ok in H as ([] & s1 & H1 & H). exists row. split; [done|].
  assert (Hk : is_Some (paths (base s.1) !! pathID)).
  { change (put_grant (us_ID row) (pathID, true) s = (Ok tt, s1)) in H1. by apply put_grant_Ok in H1 as [_ [_ ?]%(fun f => f eq_refl)]. }
  assert (H1' : for_each (fun p => put_grant (us_ID row) ((fun p => (p, true)) p)) [pathID] s = (Ok tt, s1)).
  { cbn [for_each]. unfold mbind, eff_bind. change (put_grant (us_ID row) (pathID, true) s = (Ok tt, s1)) in H1. by rewrite H1. }
  apply put_grants_Ok in H1' as [-> Hc1]; [|done]. split; [exact Hc1|].
  destruct (GetProxyUser_id _ _ _ (cs_tidy _ Hc) Hu) as (_ & _ & Hu2). pose proof (known_trimmed _ _ (cs_tidy _ Hc) Hk) as Htr.
  destruct technical.
  - apply (grantPathToUser_spec _ _ _ row) in H as [Hch Ha]; [|apply (cs_tidy _ Hc1)|exact Hu2]. split; [by eexists|].
    rewrite Htr in Ha. exact Ha.
  - apply (grantPathAccess_spec _ _ _ row) in H as [Hch Ha]; [|exact Hu2]. split; [by eexists|exact Ha].
Qed.
Lemma direct_keeps userName pathID technical (s s' : store * nat) : consistent s.1 ->
  grantDirectPath oracle userName pathID technical s = (Ok tt, s') -> keeps s s'.
Proof.
  intros Hc H. destruct (direct_run _ _ _ _ _ Hc H) as (row & Hu & Hc2 & (Q & Hch) & Ha).
  assert (Hw : forall v p, wants (set_direct s.1 (<[(us_ID row, pathID) := true]> (direct_path_grants s.1))) v p <->
    (v = us_ID row /\ p = pathID) \/ wants s.1 v p).
  { intros v p. unfold wants, via. cbn. destruct (decide ((us_ID row, pathID) = (v, p))) as [[= <- <-]|Hne].
    - rewrite lookup_insert_eq. split; [by intros _; left|by intros _; left].
    - rewrite lookup_insert_ne by done. split; [by right|]. intros [[-> ->]|?]; done. }
  eapply (keeps_intro _ (_, s.2)); [exact Hc2|by apply only_sources_base|apply (pv_erase _ _ _ _ _ _ Hch)|by eapply changes_secrets|..].
  - intros u. destruct (decide (u = us_ID row)) as [->|Hne]; [right|left].
    + intros Hs r Hr Hd p. rewrite Ha, Hw, (Hs _ _ Hr Hd). naive_solver.
    + intros p. rewrite Hw. split; [naive_solver|].
      unfold may_use. by rewrite (same_others_allows (us_ID row) u _ _ p (pv_accesses _ _ _ _ _ _ Hch)).
  - intros u Hd. assert (Hne : u <> us_ID row) by (intros ->; exact (Hd (resolved_live _ _ _ Hc Hu))).
    eapply (only_sources_spares _ _ (set_direct s.1 (<[(us_ID row, pathID) := true]> (direct_path_grants s.1)), s.2)); [by apply only_sources_base| |apply (pv_erase _ _ _ _ _ _ Hch)|..].
    + split; [|done]. intros p. cbn. apply lookup_insert_ne. congruence.
    + intros p. unfold may_use. by rewrite (same_others_allows (us_ID row) u _ _ p (pv_accesses _ _ _ _ _ _ Hch)).
    + intros x. by destruct (pv_credentials _ _ _ _ _ _ Hch (u, x)) as [?|[? _]].
Qed.

(** ** ChangePathGroup *)
Definition named (change : PathGroupChange) (op : string) : bool := (ch_Operation change =? op)%string.
(** The sources once the group [gid] is changed. *)
Definition wants_after (s : store) (change : PathGroupChange) (gid userID u p : string) : Prop :=
  direct_path_grants s !! (u, p) = Some true \/ (exists g, g <> gid /\ via s u p g) \/
  if named change "save" then (u, gid) ∈ user_path_group_grants s /\ ch_Enabled change = true /\ p ∈ ch_PathIDs change
  else if named change "delete" then False
  else if named change "grant" then
    ((u, gid) ∈ user_path_group_grants s \/ u = userID) /\ (gid, p) ∈ path_group_members (base s) /\
    exists row, path_groups s !! gid = Some row /\ pg_Enabled row = true /\ pg_DeletedAt row = None
  else u <> userID /\ via s u p gid.
Record operated (s s1 : store * nat) (change : PathGroupChange) (gid userID : string) : Prop := {
  od_consistent : consistent s1.1;
  od_sources : only_sources s s1;
  od_wants : forall u p, wants s1.1 u p <-> wants_after s.1 change gid userID u p;
  od_group : if named change "save" && (ch_GroupID change =? "")%string then path_groups s.1 !! gid = None
             else gid = ch_GroupID change;
  od_held : forall u, held u s.1 s1.1 \/ (u = userID /\ named change "save" = false /\ named change "delete" = false)
}.
Lemma wants_split s u p gid : wants s u p <->
  direct_path_grants s !! (u, p) = Some true \/ (exists g, g <> gid /\ via s u p g) \/ via s u p gid.
Proof.
  unfold wants. split; [|naive_solver]. intros [?|[g Hg]]; [by left|right]. destruct (decide (g = gid)) as [->|]; [by right|left; eauto].
Qed.
(** What is said of a group that is not [gid] stays. *)
Lemma wants_elsewhere s s1 gid (X : Prop) u p : direct_path_grants s1 = direct_path_grants s ->
  (forall g, g <> gid -> via s1 u p g <-> via s u p g) -> (via s1 u p gid <-> X) ->
  wants s1 u p <-> direct_path_grants s !! (u, p) = Some true \/ (exists g, g <> gid /\ via s u p g) \/ X.
Proof.
  intros Hd Hv Hx. rewrite (wants_split s1 u p gid), Hd. split.
  - intros [?|[(g & Hg & Hvia)|?]]; [by left|right; left; exists g; split; [done|by apply Hv]|right; right; by apply Hx].
  - intros [?|[(g & Hg & Hvia)|?]]; [by left|right; left; exists g; split; [done|by apply Hv]|right; right; by apply Hx].
Qed.

Lemma tidy_members b m : tidy b -> tidy (with_members b m).
Proof. intros []. by constructor. Qed.
Lemma add_members_run gid l : forall (s s' : store * nat), consistent s.1 ->
  for_each (fun ip : nat * string => AddPathGroupMember gid ip.2 (Z.of_nat ip.1)) l s = (Ok tt, s') ->
  consistent s'.1 /\ exists m o, s' = (set_members s.1 m o, s.2) /\
    forall g p, (g, p) ∈ m <-> (g = gid /\ p ∈ l.*2) \/ (g, p) ∈ path_group_members (base s.1).
Proof.
  induction l as [|[i q] l IH]; intros s s' Hc H; cbn [for_each] in H.
  - apply ret_Ok in H as [_ ->]. split; [done|]. exists (path_group_members (base s.1)), (member_order s.1).
    split; [by destruct s as [[[] ? ? ? ? ? ? ?] ?]|]. intros g p. cbn. rewrite elem_of_nil. tauto.
  - apply bind_Ok in H as ([] & s1 & H1 & H). unfold AddPathGroupMember in H1. run H1.
    match goal with H : _ && _ && _ = true |- _ => apply andb_true_iff in H as [H Hp]; apply andb_true_iff in H as [_ Hg] end.
    apply is_set_true in Hp, Hg. apply IH in H as (Hc' & m & o & -> & Hm).
    + split; [done|]. exists m, o. split; [done|]. intros g p. rewrite Hm. cbn.
      rewrite elem_of_union, elem_of_singleton, elem_of_cons. naive_solver.
    + destruct Hc as [T1 T2 T3 T4]. constructor; [by apply tidy_members|done| |done]. cbn.
      intros g p [[= -> ->]%elem_of_singleton|Hin]%elem_of_union; [done|by eapply T3].
Qed.
Lemma consistent_set_group s gid row : consistent s -> consistent (set_groups s (<[gid := row]> (path_groups s))).
Proof.
  assert (Hsome : forall g, is_Some (path_groups s !! g) -> is_Some (<[gid := row]> (path_groups s) !! g)).
  { intros g Hg. apply lookup_insert_is_Some. destruct (decide (gid = g)); [by left|by right]. }
  intros [T1 T2 T3 T4]. constructor; [done|done| |]; cbn.
  - intros g p Hin. destruct (T3 _ _ Hin). by split; [apply Hsome|].
  - intros u g Hin. destruct (T4 _ _ Hin). by split; [|apply Hsome].
Qed.
Lemma only_sources_any (s : store * nat) s1 n : (s.2 <= n)%nat -> path_accesses (base s1) = path_accesses (base s.1) ->
  proxy_users (base s1) = proxy_users (base s.1) -> credentials (base s1) = credentials (base s.1) ->
  credential_json s1 = credential_json s.1 -> only_sources s (s1, n).
Proof. by constructor. Qed.
(** The row of the group a "save" creates or updates. *)
Lemma save_row (change : PathGroupChange) name description (s s' : store * nat) gid :
  (if (ch_GroupID change =? "")%string then
     d ← drawn oracle;
     CreatePathGroup (dr_id d) name description (ch_Enabled change);;
     mret (dr_id d)
   else
     n ← UpdatePathGroup (ch_GroupID change) name description (ch_Enabled change) (ch_Revision change);
     guard (n =? 1) PathGroupConflict;;
     mret (ch_GroupID change)) s = (Ok gid, s') ->
  (if (ch_GroupID change =? "")%string then path_groups s.1 !! gid = None else gid = ch_GroupID change) /\
  exists row, s'.1 = set_groups s.1 (<[gid := row]> (path_groups s.1)) /\ (s.2 <= s'.2)%nat /\
    pg_Enabled row = ch_Enabled change /\ pg_DeletedAt row = None.
Proof.
  destruct (ch_GroupID change =? "")%string.
  - intros H. apply bind_Ok in H as (d & s1 & H1 & H). apply drawn_Ok in H1 as [-> ->].
    apply bind_Ok in H as ([] & s1 & H1 & H). apply ret_Ok in H as [-> ->]. unfold CreatePathGroup in H1. run H1.
    match goal with H : _ && _ = true |- _ => apply andb_true_iff in H as [Hf _] end. split.
    + cbn in Hf. by destruct (path_groups s.1 !! _).
    + eexists. split; [done|]. split; [cbn; lia|done].
  - intros H. apply bind_Ok in H as (n & s1 & H1 & H). run H. split; [done|].
    match goal with H : (n =? 1) = true |- _ => apply Z.eqb_eq in H as -> end.
    unfold UpdatePathGroup in H1. apply bind_Ok in H1 as (st & s2 & H2 & H1). apply get_Ok in H2 as [-> ->].
    destruct (live_group s.1 _) as [g|]; [|by apply ret_Ok in H1 as [H1 _]].
    destruct (pg_Revision g =? _); [|by apply ret_Ok in H1 as [H1 _]].
    apply bind_Ok in H1 as ([] & s2 & H2 & H1). apply guard_Ok in H2 as [_ ->].
    apply bind_Ok in H1 as ([] & s2 & H2 & H1). apply put_Ok in H2 as ->. apply ret_Ok in H1 as [_ ->].
    eexists. split; [done|]. split; [done|]. done.
Qed.
Lemma check_members_Ok l : forall seen (s s' : store * nat), check_members seen l s = (Ok tt, s') -> s' = s.
Proof. induction l as [|p l IH]; intros seen s s' H; cbn [check_members] in H; run H; [done|by apply IH in H]. Qed.
Lemma imap_pair_snd {A} (l : list A) : (imap pair l).*2 = l.
Proof. rewrite fmap_imap. etransitivity; [apply (imap_const (fun x => x))|apply list_fmap_id]. Qed.
Lemma save_run change users (s s' : store * nat) gid userID : consistent s.1 -> named change "save" = true ->
  save_group oracle change users s = (Ok gid, s') -> operated s s' change gid userID.
Proof.
  intros Hc Hop H. unfold save_group in H.
  do 3 (apply bind_Ok in H as ([] & s0 & H0 & H); apply guard_Ok in H0 as [_ ->]).
  apply bind_Ok in H as ([] & s0 & H0 & H). apply check_members_Ok in H0 as ->.
  apply bind_Ok in H as (g & s1 & H1 & H). apply save_row in H1 as (Hg & row & E1 & Hn & He & Hd).
  apply bind_Ok in H as ([] & s2 & H2 & H). unfold DeletePathGroupMembers in H2. apply put_Ok in H2 as ->.
  apply bind_Ok in H as ([] & s2 & H2 & H). apply ret_Ok in H as [-> ->].
  apply add_members_run in H2 as (Hc2 & m & o & -> & Hm).
  2:{ cbn. rewrite E1. destruct (consistent_set_group _ g row Hc) as [T1 T2 T3 T4].
      constructor; [by apply tidy_members|done| |done]. cbn. intros h p [_ Hin]%elem_of_filter. by eapply T3. }
  cbn [fst snd] in *. rewrite imap_pair_snd in Hm. rewrite E1 in Hm, Hc2 |- *. constructor; [exact Hc2| | |by rewrite Hop|by intros u; left; split].
  - by apply only_sources_any.
  - intros u p. unfold wants_after. rewrite Hop. apply wants_elsewhere; [done|..].
    + intros h Hne. unfold via. cbn. rewrite Hm. cbn. rewrite elem_of_filter, lookup_insert_ne by done. cbn. naive_solver.
    + unfold via. cbn. rewrite Hm. cbn. rewrite elem_of_filter, lookup_insert_eq. cbn. split.
      * intros ([[_ Hp]|[[] _]] & Hgr & r & [= <-] & Hen & _); [|done]. by rewrite <- He.
      * intros (Hgr & Hen & Hp). split; [by left|]. split; [done|]. exists row. by rewrite He.
Qed.
Lemma GetPathGroup_Ok ID (s s' : store * nat) g : GetPathGroup ID s = (Ok g, s') -> s' = s /\ live_group s.1 ID = Some g.
Proof.
  unfold GetPathGroup. intros H. apply bind_Ok in H as (st & s1 & H1 & H). apply get_Ok in H1 as [-> ->].
  destruct (live_group s.1 ID) as [x|]; [|by run H]. apply ret_Ok in H as [-> ->]. done.
Qed.
Lemma live_group_Some s ID g : live_group s ID = Some g -> path_groups s !! ID = Some g /\ pg_DeletedAt g = None.
Proof. unfold live_group. destruct (path_groups s !! ID) as [x|]; [|done]. destruct (pg_DeletedAt x) eqn:E; [done|]. by intros [= <-]. Qed.
Lemma delete_run change (s s' : store * nat) userID : consistent s.1 ->
  named change "save" = false -> named change "delete" = true ->
  delete_group oracle change s = (Ok tt, s') -> operated s s' change (ch_GroupID change) userID.
Proof.
  intros Hc Hs Hop H. unfold delete_group in H. apply bind_Ok in H as (g & s0 & H0 & H). apply GetPathGroup_Ok in H0 as [-> Hg].
  apply bind_Ok in H as ([] & s0 & H0 & H). apply guard_Ok in H0 as [_ ->].
  unfold ArchivePathGroup in H. apply bind_Ok in H as (d & s0 & H0 & H). apply drawn_Ok in H0 as [-> ->]. apply put_Ok in H as ->.
  cbn [fst snd]. rewrite Hg. constructor; cbn [fst snd].
  - by apply consistent_set_group.
  - apply only_sources_any; cbn; [lia|done..].
  - intros u p. unfold wants_after. rewrite Hs, Hop. apply wants_elsewhere; [done|..].
    + intros h Hne. unfold via. cbn. by rewrite lookup_insert_ne.
    + unfold via. cbn. rewrite lookup_insert_eq. split; [|done]. by intros (_ & _ & r & [= <-] & Hen & _).
  - by rewrite Hs.
  - by intros u; left; split.
Qed.
Lemma grant_run change (s s' : store * nat) userID : consistent s.1 ->
  named change "save" = false -> named change "delete" = false -> named change "grant" = true ->
  GrantUserPathGroup userID (ch_GroupID change) s = (Ok tt, s') -> operated s s' change (ch_GroupID change) userID.
Proof.
  intros Hc Hs Hd Hop H. unfold GrantUserPathGroup in H. run H.
  match goal with H : _ && _ = true |- _ => apply andb_true_iff in H as [Hu Hg]; apply is_set_true in Hu, Hg end.
  constructor; cbn [fst snd].
  - destruct Hc as [T1 T2 T3 T4]. constructor; [done..|]. cbn. intros u g [[= -> ->]%elem_of_singleton|Hin]%elem_of_union; [done|by eapply T4].
  - by apply only_sources_any.
  - intros u p. unfold wants_after. rewrite Hs, Hd, Hop. apply wants_elsewhere; [done|..].
    + intros h Hne. unfold via. cbn. rewrite elem_of_union, elem_of_singleton. naive_solver.
    + unfold via. cbn. rewrite elem_of_union, elem_of_singleton. naive_solver.
  - by rewrite Hs.
  - intros u. destruct (decide (u = userID)) as [->|]; [by right|left]. split; [done|]. intros g. cbn. set_solver.
Qed.
Lemma revoke_group_run change (s s' : store * nat) userID : consistent s.1 ->
  named change "save" = false -> named change "delete" = false -> named change "grant" = false ->
  RevokeUserPathGroup userID (ch_GroupID change) s = (Ok tt, s') -> operated s s' change (ch_GroupID change) userID.
Proof.
  intros Hc Hs Hd Hop H. unfold RevokeUserPathGroup in H. run H. constructor; cbn [fst snd].
  - destruct Hc as [T1 T2 T3 T4]. constructor; [done..|]. cbn. intros u g [Hin _]%elem_of_difference. by eapply T4.
  - by apply only_sources_any.
  - intros u p. unfold wants_after. rewrite Hs, Hd, Hop. apply wants_elsewhere; [done|..].
    + intros h Hne. unfold via. cbn. rewrite elem_of_difference, elem_of_singleton. naive_solver.
    + unfold via. cbn. rewrite elem_of_difference, elem_of_singleton. naive_solver.
  - by rewrite Hs.
  - intros u. destruct (decide (u = userID)) as [->|]; [by right|left]. split; [done|]. intros g. cbn. set_solver.
Qed.
Lemma check_fanout_Ok st u g (s s' : store * nat) : check_fanout st u g s = (Ok tt, s') -> s' = s.
Proof. unfold check_fanout. intros H. run H. done. Qed.
Lemma operation_run change userID users (s s1 : store * nat) gid users' : consistent s.1 ->
  apply_operation oracle change userID users s = (Ok (gid, users'), s1) ->
  operated s s1 change gid userID /\
  ((users' = users /\ (named change "save" = true \/ named change "delete" = true)) \/
   (users' = {[userID]} /\ userID <> "" /\ named change "save" = false /\ named change "delete" = false)).
Proof.
  intros Hc H. unfold apply_operation in H.
  destruct (ch_Operation change =? "save")%string eqn:Es.
  { apply bind_Ok in H as (g & s0 & H0 & H). apply ret_Ok in H as [[= -> ->] ->]. split; [by eapply save_run|by left; auto]. }
  destruct (ch_Operation change =? "delete")%string eqn:Ed.
  { apply bind_Ok in H as ([] & s0 & H0 & H). apply ret_Ok in H as [[= -> ->] ->]. split; [by apply delete_run|by left; auto]. }
  destruct (_ || _); [|by run H]. apply bind_Ok in H as ([] & s0 & H0 & H). apply guard_Ok in H0 as [Hne ->].
  apply bind_Ok in H as (g & s0 & H0 & H). apply GetPathGroup_Ok in H0 as [-> _].
  apply bind_Ok in H as (st & s0 & H0 & H). apply get_Ok in H0 as [-> ->].
  apply bind_Ok in H as ([] & s0 & H0 & H). apply ret_Ok in H as [[= -> ->] ->].
  split; [|right; split; [done|]; split; [|done]; by intros ->].
  destruct (ch_Operation change =? "grant")%string eqn:Eg.
  - apply bind_Ok in H0 as ([] & s2 & H2 & H). apply check_fanout_Ok in H2 as ->. by apply grant_run.
  - by apply revoke_group_run.
Qed.

(** ** The loop over the affected users *)
Lemma desired_erase s s' u : erase s' = erase s -> ListUserDesiredPathIDs s' u = ListUserDesiredPathIDs s u.
Proof. intros He. change (ListUserDesiredPathIDs s' u) with (ListUserDesiredPathIDs (erase s') u). by rewrite He. Qed.
Lemma nodes_of_paths_Ok pids : forall nodes (s s' : store * nat) r, nodes_of_paths nodes pids s = (Ok r, s') -> s' = s.
Proof. induction pids as [|p pids IH]; intros nodes s s' r H; cbn [nodes_of_paths] in H; run H; [done|by apply IH in H]. Qed.
Lemma all_reconciled_nil s : all_reconciled [] s s.
Proof. constructor; [done|reflexivity|intros u p Hu; by apply not_elem_of_nil in Hu|done|intros u Hu; by apply not_elem_of_nil in Hu|done]. Qed.
Lemma all_reconciled_cons u us s s1 s2 : all_reconciled [u] s s1 -> all_reconciled us s1 s2 -> all_reconciled (u :: us) s s2.
Proof.
  intros [He1 Hs1 Hx1 Ho1 Hl1 Hc1] [He2 Hs2 Hx2 Ho2 Hl2 Hc2]. constructor; [congruence|by etransitivity|..].
  - intros v p Hv. destruct (decide (v ∈ us)) as [Hin|Hin].
    + rewrite Hx2 by done. by apply wants_erase.
    + apply elem_of_cons in Hv as [->|]; [|done]. rewrite Ho2 by done. apply Hx1. by left.
  - intros v p [Hv Hin]%not_elem_of_cons. rewrite Ho2 by done. apply Ho1. by rewrite list_elem_of_singleton.
  - intros v [->|Hv]%elem_of_cons; [apply Hl1; by left|]. unfold live_user. rewrite <- (erase_users _ _ He1). by apply Hl2.
  - intros key [Hv Hin]%not_elem_of_cons. destruct (Hc1 key) as [E1 E2]; [by rewrite list_elem_of_singleton|].
    destruct (Hc2 key Hin) as [E3 E4]. split; congruence.
Qed.
(** The impact of [uid]: from the sources of [before] to those of [s]. *)
Definition impact_of (before s : store) (x : PathGroupUserImpact) (uid : string) : Prop :=
  exists name, x = user_impact uid name (ListUserDesiredPathIDs before uid) (ListUserDesiredPathIDs s uid).
Lemma reconcile_users_spec before uids : forall st st' (s s' : store * nat), consistent s.1 ->
  (forall u, u ∈ uids -> is_Some (proxy_users (base s.1) !! u)) ->
  reconcile_users oracle before uids st s = (Ok st', s') ->
  all_reconciled uids s s' /\ exists l, st'.1 = st.1 ++ l /\ Forall2 (impact_of before s.1) l uids.
Proof.
  induction uids as [|u uids IH]; intros st st' s s' Hc Hk H; cbn [reconcile_users] in H.
  - run H. split; [apply all_reconciled_nil|]. exists []. by rewrite app_nil_r.
  - apply bind_Ok in H as ([] & s1 & H1 & H). apply bind_Ok in H as (row & s2 & H2 & H). apply query_Ok in H2 as [Hu ->].
    apply bind_Ok in H as (cur & s2 & H2 & H). apply get_Ok in H2 as [-> ->].
    apply bind_Ok in H as (nodes & s2 & H2 & H). apply nodes_of_paths_Ok in H2 as ->.
    destruct (Hk u ltac:(by left)) as [r Hr]. pose proof (cs_tidy _ Hc) as Ht.
    assert (Hid : GetProxyUser (base s.1) u = Ok r).
    { clear -H1 Hr Ht. unfold reconcilePathGrants in H1. apply bind_Ok in H1 as (r' & s3 & H3 & _). apply query_Ok in H3 as [H3 _].
      unfold GetProxyUser in *. destruct (tidy_users _ Ht _ _ Hr) as [_ Htr]. rewrite Htr, Hr in *. by destruct (us_DeletedAt r). }
    apply (reconcile_reconciles _ _ u) with (row := r) in H1; [|done|done|by apply (tidy_users _ Ht _ _ Hr)].
    apply reconciled_all in H1; [|rewrite <- (proj1 (tidy_users _ Ht _ _ Hr)); by eapply resolved_live].
    pose proof (ar_erase _ _ _ H1) as He.
    apply IH in H as (Hall & l & Hl & Hf).
    + split; [by eapply all_reconciled_cons|]. eexists (_ :: l). split; [rewrite Hl; cbn; by rewrite <- app_assoc|].
      constructor.
      * exists (us_Name row). f_equal. by apply desired_erase.
      * eapply Forall2_impl; [exact Hf|]. intros x v (name & ->). exists name. f_equal. by apply desired_erase.
    + by eapply consistent_erase.
    + intros v Hv. rewrite (erase_users _ _ He). apply Hk. by right.
Qed.

(** ** plan_change *)
Definition resolved_user (s : store) (change : PathGroupChange) (userID : string) : Prop :=
  if (ch_UserID change =? "")%string then userID = ""
  else exists row, GetProxyUser (base s) (ch_UserID change) = Ok row /\ userID = us_ID row.
Lemma resolve_run change (s s' : store * nat) userID :
  (if (ch_UserID change =? "")%string then mret "" else u ← query (fun b => GetProxyUser b (ch_UserID change)); mret (us_ID u)) s
    = (Ok userID, s') -> s' = s /\ resolved_user s.1 change userID.
Proof.
  unfold resolved_user. destruct (_ =? _)%string; intros H; [by apply ret_Ok in H as [-> ->]|].
  apply bind_Ok in H as (u & s1 & H1 & H). apply query_Ok in H1 as [Hu ->]. apply ret_Ok in H as [-> ->]. split; [done|by exists u].
Qed.
Lemma group_members_in s g u : u ∈ group_members s g <-> (u, g) ∈ user_path_group_grants s.
Proof.
  unfold group_members. rewrite elem_of_list_to_set, list_elem_of_omap. split.
  - intros ([v h] & Hin & H). apply elem_of_elements in Hin. cbn in H. destruct (h =? g)%string eqn:E; [|done].
    apply String.eqb_eq in E as ->. by injection H as ->.
  - intros H. exists (u, g). split; [by apply elem_of_elements|]. cbn. by rewrite String.eqb_refl.
Qed.
Lemma wants_after_fresh s change gid userID u p : consistent s -> named change "save" = true -> path_groups s !! gid = None ->
  wants_after s change gid userID u p <-> wants s u p.
Proof.
  intros Hc Hop Hf. assert (Hno : forall u, (u, gid) ∉ user_path_group_grants s).
  { intros v Hv. apply (cs_grants _ Hc) in Hv as [_ Hg]. rewrite Hf in Hg. by destruct Hg. }
  unfold wants_after. rewrite Hop, (wants_split s u p gid). split.
  - intros [?|[?|[Hg _]]]; [tauto..|]. by destruct (Hno u).
  - intros [?|[?|(_ & Hg & _)]]; [tauto..|]. by destruct (Hno u).
Qed.
Lemma od_fresh s s1 change gid userID : operated s s1 change gid userID ->
  gid = ch_GroupID change \/ (named change "save" = true /\ path_groups s.1 !! gid = None).
Proof.
  intros H. pose proof (od_group _ _ _ _ _ H) as Hg. destruct (named change "save"), (_ =? _)%string; cbn in Hg; auto.
Qed.
(** Only the users of the group, and the named one, are affected. *)
Lemma operation_unaffected s s1 change gid userID users users' u p : consistent s.1 -> operated s s1 change gid userID ->
  group_members s.1 (ch_GroupID change) ⊆ users ->
  ((users' = users /\ (named change "save" = true \/ named change "delete" = true)) \/
   (users' = {[userID]} /\ userID <> "" /\ named change "save" = false /\ named change "delete" = false)) ->
  u ∉ users' -> wants s1.1 u p <-> wants s.1 u p.
Proof.
  intros Hc Ho Hsub Hus Hu. rewrite (od_wants _ _ _ _ _ Ho). destruct (od_fresh _ _ _ _ _ Ho) as [->|[Hop Hf]].
  2:{ by apply wants_after_fresh. }
  unfold wants_after. rewrite (wants_split s.1 u p (ch_GroupID change)). destruct Hus as [[-> Hop]|(-> & _ & Hs & Hd)].
  - assert (Hno : (u, ch_GroupID change) ∉ user_path_group_grants s.1).
    { intros Hg. apply Hu, Hsub. by apply group_members_in. }
    assert (Hnv : ~ via s.1 u p (ch_GroupID change)) by (intros (_ & Hg & _); done).
    destruct (named change "save"); [tauto|]. destruct (named change "delete"); [tauto|]. by destruct Hop.
  - rewrite Hs, Hd. assert (Hne : u <> userID) by set_solver. destruct (named change "grant"); [|tauto].
    unfold via. tauto.
Qed.
Lemma elem_of_sorted_ids X u : u ∈ sorted_ids X <-> u ∈ X.
Proof. unfold sorted_ids. by rewrite merge_sort_Permutation, elem_of_elements. Qed.
Record planned (change : PathGroupChange) (token : string) (s s' : store * nat) (impact : PathGroupImpact)
    (gid userID : string) (us : list string) (s1 : store * nat) : Prop := {
  pl_user : resolved_user s.1 change userID;
  pl_operated : operated s s1 change gid userID;
  pl_unaffected : forall u p, u ∉ us -> wants s1.1 u p <-> wants s.1 u p;
  pl_reconciled : all_reconciled us s1 s';
  pl_token : im_PreviewToken impact = token;
  pl_operation : named change "save" = true \/ named change "delete" = true \/ userID <> "";
  pl_impact : Forall2 (impact_of s.1 s1.1) (im_Users impact) us
}.
Lemma plan_run change token (s s' : store * nat) ci : consistent s.1 -> plan_change oracle change token s = (Ok ci, s') ->
  exists gid userID us s1, planned change token s s' ci.2 gid userID us s1.
Proof.
  intros Hc H. unfold plan_change in H. apply bind_Ok in H as (st & s0 & H0 & H). apply get_Ok in H0 as [-> ->].
  apply bind_Ok in H as (userID & s0 & H0 & H). apply resolve_run in H0 as [-> Hres].
  apply bind_Ok in H as ([] & s0 & H0 & H). apply guard_Ok in H0 as [_ ->].
  apply bind_Ok in H as ([gid us] & s1 & H1 & H). apply operation_run in H1 as [Hop Hus]; [|done].
  apply bind_Ok in H as (r & s2 & H2 & H). apply ret_Ok in H as [-> ->]. cbn [fst snd] in *.
  match type of Hus with (us = ?X /\ _) \/ _ => set (users := X) in * end.
  assert (Hres2 : ch_UserID change <> "" -> is_Some (proxy_users (base s.1) !! userID)).
  { intros Hne. unfold resolved_user in Hres. apply String.eqb_neq in Hne. rewrite Hne in Hres.
    destruct Hres as (row & Hrow & ->). apply (GetProxyUser_id _ _ _ (cs_tidy _ Hc)) in Hrow as (Hrow & _). by eexists. }
  assert (Hknown : forall u, u ∈ sorted_ids us -> is_Some (proxy_users (base s1.1) !! u)).
  { intros u Hu%elem_of_sorted_ids. rewrite (os_users _ _ (od_sources _ _ _ _ _ Hop)).
    destruct Hus as [[-> _]|(-> & Hne & _)].
    - unfold users in Hu. apply elem_of_union in Hu as [Hu%group_members_in|Hu]; [by apply (cs_grants _ Hc) in Hu as []|].
      destruct (ch_UserID change =? "")%string eqn:E; [by apply not_elem_of_empty in Hu|].
      apply elem_of_singleton in Hu as ->. apply Hres2. by apply String.eqb_neq.
    - apply elem_of_singleton in Hu as ->. apply Hres2. intros E. apply Hne. unfold resolved_user in Hres.
      by rewrite E in Hres. }
  destruct (reconcile_users_spec _ _ _ _ _ _ (od_consistent _ _ _ _ _ Hop) Hknown H2) as (Hall & l & Hl & Hf).
  exists gid, userID, (sorted_ids us), s1. constructor; [done|done| |done|done|by destruct Hus as [[_ ?]|(_ & ? & _)]; tauto|by cbn; rewrite Hl].
  intros u p Hu. eapply (operation_unaffected s s1 change gid userID users us); [done|done| |exact Hus|by rewrite <- elem_of_sorted_ids].
  unfold users. set_solver.
Qed.
Variable digest : authorization -> PathGroupChange -> string.

Lemma rollback_Ok {A} (m : M A) a (s s' : store * nat) : rollback m s = (Ok a, s') -> s'.1 = s.1 /\ exists s2, m s = (Ok a, s2).
Proof. unfold rollback. destruct (m s) as [r s2]. intros [= -> <-]. by eauto. Qed.
Lemma preview_run change (s s' : store * nat) impact : consistent s.1 ->
  ChangePathGroup oracle digest change true s = (Ok impact, s') ->
  s'.1 = s.1 /\ exists gid userID us s1 s2, planned change (preview_token digest s.1 change) s s2 impact gid userID us s1.
Proof.
  intros Hc H. unfold ChangePathGroup in H. apply rollback_Ok in H as (Hs' & s2 & H). split; [done|].
  apply bind_Ok in H as (st & s0 & H0 & H). apply get_Ok in H0 as [-> ->].
  apply bind_Ok in H as ([] & s0 & H0 & H). apply guard_Ok in H0 as [_ ->].
  apply bind_Ok in H as (ci & s0 & H0 & H). apply ret_Ok in H as [-> ->].
  apply plan_run in H0 as (gid & userID & us & s1 & Hp); [|done]. by exists gid, userID, us, s1, s0.
Qed.
(** The audit row is no source. *)
Lemma keeps_audit s s1 ID c : keeps s s1 -> keeps s (add_change s1.1 ID c, s1.2).
Proof.
  intros [Hc Hu Hs Hsec Hsp]. constructor; [|exact Hu|exact Hs|exact Hsec|].
  - destruct Hc as [T1 T2 T3 T4]. by constructor.
  - intros u Hd. by destruct (Hsp u Hd) as [H1 H2 H3].
Qed.
Lemma planned_keeps change token s s' impact gid userID us s1 : consistent s.1 ->
  planned change token s s' impact gid userID us s1 -> keeps s s'.
Proof.
  intros Hc [Hres Ho Hun Hall _ Hop _]. eapply reconciled_keeps; [apply (od_consistent _ _ _ _ _ Ho)|apply (od_sources _ _ _ _ _ Ho)|exact Hun| |exact Hall].
  intros u Hd. destruct (od_held _ _ _ _ _ Ho u) as [?|(-> & Hs & Hdel)]; [done|exfalso].
  unfold resolved_user in Hres. destruct (_ =? _)%string; [|destruct Hres as (row & Hrow & ->); by eapply Hd, resolved_live].
  destruct Hop as [?|[?|?]]; congruence.
Qed.
Lemma change_run change (s s' : store * nat) impact : consistent s.1 ->
  ChangePathGroup oracle digest change false s = (Ok impact, s') ->
  ch_PreviewToken change = preview_token digest s.1 change /\
  exists gid userID us s1 s2 ID c, planned change (preview_token digest s.1 change) s s2 impact gid userID us s1 /\
    s' = (add_change s2.1 ID c, s'.2) /\ s'.2 = S s2.2.
Proof.
  intros Hc H. unfold ChangePathGroup in H. apply atomic_Ok in H.
  apply bind_Ok in H as (st & s0 & H0 & H). apply get_Ok in H0 as [-> ->].
  apply bind_Ok in H as ([] & s0 & H0 & H). apply guard_Ok in H0 as [Htok ->]. cbn [orb] in Htok.
  apply bind_Ok in H as (ci & s2 & H0 & H). apply plan_run in H0 as (gid & userID & us & s1 & Hp); [|done].
  apply bind_Ok in H as (d & s3 & H3 & H). apply drawn_Ok in H3 as [-> ->].
  apply bind_Ok in H as ([] & s3 & H3 & H). apply ret_Ok in H as [-> ->]. unfold RecordPathGroupChange in H3. run H3.
  split; [by apply String.eqb_eq|]. by exists gid, userID, us, s1, s2, (dr_id (oracle s2.2)), (ci.1, without_token ci.2).
Qed.
Lemma change_keeps change (s s' : store * nat) impact : consistent s.1 ->
  ChangePathGroup oracle digest change false s = (Ok impact, s') -> keeps s s'.
Proof.
  intros Hc H. apply change_run in H as (_ & gid & userID & us & s1 & s2 & ID & c & Hp & Hs' & Hn); [|done].
  apply planned_keeps, (keeps_audit _ _ ID c) in Hp; [|done]. rewrite Hs', Hn. destruct Hp as [K1 K2 K3 [K4 K5] K6].
  constructor; [done..| |].
  - split; [cbn in *; lia|]. intros key Hu. destruct (K5 key Hu) as [|(n & x & Hx & Hj)]; [by left|right].
    exists n, x. split; [cbn in *; lia|done].
  - intros u Hd. by destruct (K6 u Hd).
Qed.

(** ** Any sequence of requests *)
(** Each finds what the previous one left, and its own draws; it may fail. *)
Inductive grant_step : store -> store -> Prop :=
| step_select s n userID changes : grant_step s (ChangeUserPathSelection oracle userID changes (s, n)).2.1
| step_revoke s n userName pathID : grant_step s (RevokePathAccess oracle userName pathID (s, n)).2.1
| step_grant s n userName pathID technical : grant_step s (grantDirectPath oracle userName pathID technical (s, n)).2.1
| step_change s n change preview : grant_step s (ChangePathGroup oracle digest change preview (s, n)).2.1.
Lemma atomic_Err {A} (m : M A) e (s s' : store * nat) : atomic m s = (Err e, s') -> s'.1 = s.1.
Proof. unfold atomic. destruct (m s) as [[a|e'] s1]; [done|]. by intros [= _ <-]. Qed.
Lemma rollback_state {A} (m : M A) r (s s' : store * nat) : rollback m s = (r, s') -> s'.1 = s.1.
Proof. unfold rollback. destruct (m s) as [r' s1]. by intros [= _ <-]. Qed.
(** A request that fails changes nothing. *)
Lemma selection_fails userID changes e (s s' : store * nat) :
  ChangeUserPathSelection oracle userID changes s = (Err e, s') -> s'.1 = s.1.
Proof.
  unfold ChangeUserPathSelection, guard. destruct (negb _); [|by intros [= _ <-]]. apply atomic_Err.
Qed.
Lemma grant_step_keeps s s' : consistent s -> grant_step s s' -> s' = s \/ exists n n', keeps (s, n) (s', n').
Proof.
  intros Hc H. destruct H as [s n userID changes|s n userName pathID|s n userName pathID technical|s n change preview].
  - destruct (ChangeUserPathSelection _ _ _ _) as [[[]|e] [s' n']] eqn:E; [right; exists n, n'; by eapply selection_keeps|left].
    by apply selection_fails in E.
  - destruct (RevokePathAccess _ _ _ _) as [[a|e] [s' n']] eqn:E; [right; exists n, n'; by eapply revoke_keeps|left].
    by apply atomic_Err in E.
  - destruct (grantDirectPath _ _ _ _ _) as [[[]|e] [s' n']] eqn:E; [right; exists n, n'; by eapply direct_keeps|left].
    by apply atomic_Err in E.
  - destruct (ChangePathGroup _ _ _ _ _) as [r [s' n']] eqn:E. destruct preview; [left; by apply rollback_state in E|].
    destruct r as [a|e]; [right; exists n, n'; by eapply change_keeps|left]. by apply atomic_Err in E.
Qed.
Lemma steps_consistent s s' : rtc grant_step s s' -> consistent s -> consistent s'.
Proof.
  induction 1 as [s|s s1 s2 H1 H2 IH]; [done|]. intros Hc. apply IH.
  destruct (grant_step_keeps _ _ Hc H1) as [->|(n & n' & K)]; [done|]. apply (ks_consistent _ _ K).
Qed.
(** Along any run, what every step keeps. *)
Lemma steps_keep (P : store -> Prop) s s' : (forall s n s' n', keeps (s, n) (s', n') -> P s -> P s') ->
  rtc grant_step s s' -> consistent s -> P s -> P s'.
Proof.
  intros HP. induction 1 as [s|s s1 s2 H1 H2 IH]; [done|]. intros Hc Hs. apply IH.
  - eapply steps_consistent; [by apply rtc_once|done].
  - destruct (grant_step_keeps _ _ Hc H1) as [->|(n & n' & K)]; [done|]. by eapply HP.
Qed.

(** C4: access follows its sources: whatever selections, grants, revocations
    and group changes are requested, in any order and whether they succeed or
    not, every user that is not deleted may use exactly the paths granted to him
    directly or through an enabled group. *)
Theorem access_follows_sources s s' : consistent s -> synced s -> rtc grant_step s s' -> consistent s' /\ synced s'.
Proof.
  intros Hc Hs H. split; [by eapply steps_consistent|].
  eapply (steps_keep synced); [|done..]. intros s1 n s2 n' K. apply (ks_synced _ _ K).
Qed.

(** C24: a revoked secret stays revoked: a secret that does not open a proxy to a
    user now (his credential was disabled or deleted, or has another secret)
    never does again, whatever is granted, unless it is generated anew. *)
Theorem revoked_secret_stays_revoked s s' key secret : consistent s -> (forall n, dr_secret (oracle n) <> Some secret) ->
  ~ (usable s key /\ credential_json s !! key = Some secret) -> rtc grant_step s s' ->
  ~ (usable s' key /\ credential_json s' !! key = Some secret).
Proof.
  intros Hc Hfresh Hs H. eapply (steps_keep (fun s => ~ (usable s key /\ credential_json s !! key = Some secret))); [|done..].
  clear -Hfresh. intros s n s' n' K Hs [Hu Hj]. destruct (proj2 (ks_secrets _ _ K) key Hu) as [[E1 E2]|(i & x & _ & Hd & Hx)].
  - apply Hs. unfold usable. cbn in *. by rewrite <- E1, <- E2.
  - cbn in Hx. rewrite Hj in Hx. injection Hx as <-. by eapply Hfresh.
Qed.

(** ** What a selection does *)
(** a selection is exact: the user may then use the paths ticked, and of
    those he had a right to before all but the ones unticked; group grants are
    turned into direct ones; nobody else's paths, bindings or credentials
    change. *)
Theorem selection_is_exact userID changes (s s' : store * nat) : consistent s.1 ->
  ChangeUserPathSelection oracle userID changes s = (Ok tt, s') ->
  exists row, GetProxyUser (base s.1) userID = Ok row /\
    (forall p, may_use s'.1 (us_ID row) p <-> selected changes p true \/ (wants s.1 (us_ID row) p /\ ~ selected changes p false)) /\
    (forall g, (us_ID row, g) ∉ user_path_group_grants s'.1) /\
    (forall v p, v <> us_ID row -> may_use s'.1 v p <-> may_use s.1 v p) /\
    (forall key, key.1 <> us_ID row -> same_credential s s' key /\ bindings (base s'.1) !! key = bindings (base s.1) !! key).
Proof.
  intros Hc H. destruct (selection_run _ _ _ _ Hc H) as (row & s2 & Hu & _ & (Hb & Hj & _) & _ & Hw & _ & Hg & _ & Hr).
  exists row. split; [done|]. pose proof (rc_changes _ _ _ _ Hr) as Hch. split; [|split; [|split]].
  - intros p. by rewrite (rc_exact _ _ _ _ Hr), Hw.
  - intros g. by rewrite (f_equal user_path_group_grants (reconciled_erase _ _ _ _ Hr) : user_path_group_grants s'.1 = user_path_group_grants s2).
  - intros v p Hv. rewrite (reconciled_others _ _ _ _ _ _ Hr Hv). unfold may_use. cbn. by rewrite Hb.
  - intros key Hk. split.
    + destruct (pv_credentials _ _ _ _ _ _ Hch key) as [[E1 E2]|[? _]]; [|done]. cbn in E1, E2. split; congruence.
    + rewrite (pv_bindings _ _ _ _ _ _ Hch key Hk). cbn. by rewrite Hb.
Qed.

(** A proxy's names lead to it (no alias or id of another takes them). *)
Definition names_resolve (s : store) : Prop := forall x p q, live_proxy (base s) x = Some p ->
  (GetProxy (px_NodeName p) (px_Name p) (s, O)).1 = Ok q -> px_ID q = x.
Lemma GetProxy_same nn pn s s' : base s' = base s -> proxy_name_aliases s' = proxy_name_aliases s ->
  (GetProxy nn pn (s', O)).1 = (GetProxy nn pn (s, O)).1.
Proof.
  intros Hb Ha. unfold GetProxy, mbind, eff_bind, query, get. cbn [fst snd]. rewrite Hb.
  destruct (GetNode (base s) nn) as [n|]; [|done].
  assert (Hp : proxy_by_name s' (no_ID n) (TrimSpace pn) = proxy_by_name s (no_ID n) (TrimSpace pn)).
  { unfold proxy_by_name. by rewrite Hb, Ha. }
  cbn. rewrite ?Hb, Hp. destruct (proxies (base s) !! _).
  - destruct (live_proxy _ _) as [x|]; [|done]. by destruct (px_NodeID x =? no_ID n)%string.
  - destruct (proxy_by_name s (no_ID n) (TrimSpace pn)); reflexivity.
Qed.
(** a credential that was switched off stays off: if one of the paths a user
    may use goes through a proxy on which his credential was disabled or
    deleted, no selection makes that credential usable again. *)
Theorem disabled_credential_stays_disabled userID changes (s s' : store * nat) row x : consistent s.1 -> names_resolve s.1 ->
  GetProxyUser (base s.1) userID = Ok row -> blocked_before s.1 (us_ID row) x ->
  ChangeUserPathSelection oracle userID changes s = (Ok tt, s') -> ~ usable s'.1 (us_ID row, x).
Proof.
  intros Hc Hn Hu Hbl H Hus. destruct (selection_run _ _ _ _ Hc H) as (row' & s2 & Hu' & _ & (Hb & Hj & Ha) & _ & _ & _ & _ & _ & Hr).
  rewrite Hu in Hu'. injection Hu' as <-.
  assert (Hbl2 : blocked_before s2 (us_ID row) x) by (unfold blocked_before; by rewrite Hb).
  destruct (rc_blocked _ _ _ _ Hr _ Hus) as [(c & Hcc & Hl)|(p & (k & Hk & y & p0 & q & H1 & H2 & H3 & H4) & Hno)].
  - destruct Hbl2 as (_ & c' & Hc' & Hl'). cbn in Hcc. rewrite Hcc in Hc'. injection Hc' as ->. congruence.
  - cbn in *. rewrite (GetProxy_same _ _ _ _ Hb Ha) in H3. rewrite Hb in H2. rewrite (Hn _ _ _ H2 H3) in H4.
    subst y. apply (Hno x); [|done]. by exists k.
Qed.

(** ** Reviews *)
(** Two states that look alike to a review have the same sources and users. *)
Record alike (s s2 : store) : Prop := {
  al_users : proxy_users (base s2) = proxy_users (base s);
  al_direct : direct_path_grants s2 = direct_path_grants s;
  al_grants : user_path_group_grants s2 = user_path_group_grants s;
  al_groups : path_groups s2 = path_groups s;
  al_members : path_group_members (base s2) = path_group_members (base s)
}.
Lemma review_alike s s2 : PathGroupPreviewState s2 = PathGroupPreviewState s -> alike s s2.
Proof.
  intros H. split; [exact (f_equal au_users H)|exact (f_equal au_direct H)|exact (f_equal au_grants H)|exact (f_equal au_groups H)|exact (f_equal au_members H)].
Qed.
Lemma alike_via s s2 u p g : alike s s2 -> via s2 u p g <-> via s u p g.
Proof. intros [_ _ Hg Hp Hm]. unfold via. by rewrite Hg, Hp, Hm. Qed.
Lemma alike_wants s s2 u p : alike s s2 -> wants s2 u p <-> wants s u p.
Proof. intros Ha. unfold wants. rewrite (al_direct _ _ Ha). by setoid_rewrite (alike_via _ _ _ _ _ Ha). Qed.
Lemma alike_user s s2 name : alike s s2 -> GetProxyUser (base s2) name = GetProxyUser (base s) name.
Proof. intros Ha. unfold GetProxyUser, user_by_name. by rewrite (al_users _ _ Ha). Qed.
Lemma planned_wants change change' token token' s s2 n n' t t' impact impact' gid gid' userID userID' us us' s1 s1' u p : consistent s -> consistent s2 ->
  alike s s2 -> with_token change' "" = with_token change "" ->
  planned change token (s, n) t impact gid userID us s1 -> planned change' token' (s2, n') t' impact' gid' userID' us' s1' ->
  wants s1'.1 u p <-> wants s1.1 u p.
Proof.
  intros Hc Hc2 Ha Ech [Hu Ho _ _ _ _] [Hu' Ho' _ _ _ _].
  pose proof (f_equal ch_Operation Ech) as E1. pose proof (f_equal ch_GroupID Ech) as E2. pose proof (f_equal ch_UserID Ech) as E3.
  pose proof (f_equal ch_Enabled Ech) as E4. pose proof (f_equal ch_PathIDs Ech) as E5. cbn in E1, E2, E3, E4, E5.
  assert (userID' = userID) as ->.
  { unfold resolved_user in *. rewrite E3 in Hu'. cbn in *. destruct (_ =? _)%string; [congruence|]. rewrite (alike_user _ _ _ Ha) in Hu'.
    destruct Hu as (r & Hr & ->), Hu' as (r' & Hr' & ->). congruence. }
  rewrite (od_wants _ _ _ _ _ Ho), (od_wants _ _ _ _ _ Ho'). cbn.
  assert (Hsame : forall g, wants_after s2 change' g userID u p <-> wants_after s change g userID u p).
  { intros g. unfold wants_after, named. rewrite E1, E4, E5, (al_direct _ _ Ha), (al_grants _ _ Ha), (al_groups _ _ Ha), (al_members _ _ Ha).
    do 2 f_equiv; [f_equiv; intros x; by rewrite (alike_via _ _ _ _ _ Ha)|].
    repeat case_match; rewrite ?(alike_via _ _ _ _ _ Ha); done. }
  rewrite Hsame. pose proof (od_group _ _ _ _ _ Ho) as Hg. pose proof (od_group _ _ _ _ _ Ho') as Hg'.
  unfold named in Hg'. rewrite E1, E2 in Hg'. fold (named change "save") in Hg'. cbn in Hg, Hg'. rewrite (al_groups _ _ Ha) in Hg'.
  destruct (named change "save" && _) eqn:E; [|by subst]. apply andb_true_iff in E as [E _].
  by rewrite !wants_after_fresh.
Qed.
(** The entry of a user. *)
Definition entry_of (impact : PathGroupImpact) (u : string) : option PathGroupUserImpact :=
  List.find (fun x => (ui_UserID x =? u)%string) (im_Users impact).
Lemma filter_in {A} (f : A -> bool) l x : x ∈ List.filter f l <-> x ∈ l /\ f x = true.
Proof. by rewrite list_elem_of_In, filter_In, <- list_elem_of_In. Qed.
Lemma containsID_false ids x : negb (containsID ids x) = true <-> x ∉ ids.
Proof. rewrite negb_true_iff, <- containsID_true. by destruct (containsID ids x). Qed.
Lemma user_impact_spec s s1 u name p : let x := user_impact u name (ListUserDesiredPathIDs s u) (ListUserDesiredPathIDs s1 u) in
  (p ∈ ui_Added x <-> wants s1 u p /\ ~ wants s u p) /\ (p ∈ ui_Removed x <-> wants s u p /\ ~ wants s1 u p) /\
  (p ∈ ui_Retained x <-> wants s1 u p /\ wants s u p).
Proof. cbn. by rewrite !filter_in, !containsID_false, containsID_true, !desired_wants. Qed.
Lemma entry_spec s s1 l us u : Forall2 (impact_of s s1) l us ->
  match List.find (fun x => (ui_UserID x =? u)%string) l with
  | Some x => impact_of s s1 x u
  | None => u ∉ us
  end.
Proof.
  induction 1 as [|x v l us (name & ->) Hf IH]; cbn; [by apply not_elem_of_nil|].
  destruct (v =? u)%string eqn:E; [apply String.eqb_eq in E as ->; by exists name|].
  apply String.eqb_neq in E. destruct (List.find _ l); [done|]. apply not_elem_of_cons. split; [congruence|done].
Qed.

(** C31: what was reviewed is what happens: the preview of a group change changes
    nothing; and a change that is carried out with the token of a preview, at
    whatever later time and on whatever state, is the one previewed, and gives
    every user listed in the preview exactly the paths retained and added, who
    had those retained and removed; a user not listed keeps his paths.  (Short of
    a collision of the digest the token is made with.) *)
Theorem reviewed_change_is_what_happens change change' s s2 n n' sp impact impact' s' : consistent s -> consistent s2 -> synced s2 ->
  (digest (PathGroupPreviewState s2) (with_token change' "") = digest (PathGroupPreviewState s) (with_token change "") ->
   PathGroupPreviewState s2 = PathGroupPreviewState s /\ with_token change' "" = with_token change "") ->
  ChangePathGroup oracle digest change true (s, n) = (Ok impact, sp) ->
  ch_PreviewToken change' = im_PreviewToken impact ->
  ChangePathGroup oracle digest change' false (s2, n') = (Ok impact', s') ->
  sp.1 = s /\ with_token change' "" = with_token change "" /\
  forall u row, proxy_users (base s2) !! u = Some row -> us_DeletedAt row = None ->
    match entry_of impact u with
    | Some x => forall p, (may_use s'.1 u p <-> p ∈ ui_Retained x \/ p ∈ ui_Added x) /\
                          (may_use s2 u p <-> p ∈ ui_Retained x \/ p ∈ ui_Removed x)
    | None => forall p, may_use s'.1 u p <-> may_use s2 u p
    end.
Proof.
  intros Hc Hc2 Hs Hcoll Hpre Htok Hchg. pose proof (change_keeps _ (_, _) _ _ Hc2 Hchg) as K.
  apply preview_run in Hpre as (Esp & gid & uid & us & s1 & s3 & Hp); [|done]. split; [done|].
  apply change_run in Hchg as (Ht & gid' & uid' & us' & s1' & s3' & ID & c & Hp' & Es' & _); [|done].
  rewrite Htok, (pl_token _ _ _ _ _ _ _ _ _ Hp) in Ht. destruct (Hcoll (eq_sym Ht)) as [Hst Ech]. apply review_alike in Hst as Ha. split; [done|].
  intros u row Hrow Hd. cbn [fst] in *.
  assert (Hafter : forall p, may_use s'.1 u p <-> wants s1.1 u p).
  { intros p. rewrite (ks_synced _ _ K Hs u row); [|by rewrite (ks_users _ _ K)|done].
    rewrite <- (planned_wants _ _ _ _ _ _ _ _ _ _ _ _ _ _ _ _ _ _ _ _ u p Hc Hc2 Ha Ech Hp Hp').
    rewrite Es'. apply (wants_erase s1'.1 s3'.1), (ar_erase _ _ _ (pl_reconciled _ _ _ _ _ _ _ _ _ Hp')). }
  assert (Hbefore : forall p, may_use s2 u p <-> wants s u p) by (intros p; by rewrite (Hs _ _ Hrow Hd), (alike_wants _ _ _ _ Ha)).
  pose proof (entry_spec _ _ _ _ u (pl_impact _ _ _ _ _ _ _ _ _ Hp)) as Hent. unfold entry_of. cbn [fst] in Hent.
  destruct (List.find _ _) as [x|].
  - destruct Hent as (name & ->). intros p. destruct (user_impact_spec s s1.1 u name p) as (Had & Hr & Ht2).
    rewrite Hafter, Hbefore, Had, Hr, Ht2. rewrite <- !desired_wants.
    destruct (decide (p ∈ ListUserDesiredPathIDs s u)), (decide (p ∈ ListUserDesiredPathIDs s1.1 u)); tauto.
  - intros p. rewrite Hafter, Hbefore. by apply (pl_unaffected _ _ _ _ _ _ _ _ _ Hp).
Qed.

(** a stale review is refused: short of a collision of the digest, once anything a preview was bound to has
    changed (groups, members, grants, accesses, paths, endpoints, proxies,
    nodes, users, bindings or credentials), or the change differs from the one
    reviewed, its token is refused as a conflict and nothing happens. *)
Theorem stale_review_refused change change' s n sp impact s2 n2 :
  (digest (PathGroupPreviewState s2) (with_token change' "") = digest (PathGroupPreviewState s) (with_token change "") ->
   PathGroupPreviewState s2 = PathGroupPreviewState s /\ with_token change' "" = with_token change "") -> consistent s ->
  ChangePathGroup oracle digest change true (s, n) = (Ok impact, sp) ->
  ch_PreviewToken change' = im_PreviewToken impact ->
  PathGroupPreviewState s2 <> PathGroupPreviewState s \/ with_token change' "" <> with_token change "" ->
  ChangePathGroup oracle digest change' false (s2, n2) = (Err PathGroupConflict, (s2, n2)).
Proof.
  intros Hcoll Hc Hpre Htok Hne. apply preview_run in Hpre as (_ & gid & uid & us & s1 & s3 & Hp); [|done].
  rewrite (pl_token _ _ _ _ _ _ _ _ _ Hp) in Htok. unfold ChangePathGroup, atomic, mbind, eff_bind, get, guard. cbn [fst snd orb].
  assert (E : (ch_PreviewToken change' =? preview_token digest s2 change')%string = false).
  { apply String.eqb_neq. rewrite Htok. intros E. unfold preview_token in E. cbn [fst] in E. symmetry in E. apply Hcoll in E as [E1 E2].
    destruct Hne as [Hne|Hne]; [by apply Hne|by apply Hne]. }
  by rewrite E.
Qed.
End operations.

(** ** A small fleet *)
Definition w_path (ID endpoint : string) (dialer : option string) : Path := {|
  pa_ID := ID; pa_Name := ID; pa_DisplayName := ID; pa_EndpointID := endpoint; pa_DialerPathID := dialer;
  pa_Enabled := true; pa_Visibility := PathVisibilitySelectable; pa_Managed := false; pa_SortOrder := 0 |}.
Definition w_proxy (name : string) : proxy_row :=
  {| pr_NodeID := "n1"; pr_Name := name; pr_Protocol := ProtocolVLESSReality; pr_Enabled := true; pr_DeletedAt := None |}.
Definition w_user (ID name : string) : ProxyUser := {| us_ID := ID; us_Name := name; us_Status := "active"; us_DeletedAt := None |}.
(** u1 may use pa; pb is dialled through pa and in the group g1.  [on]: whether
    the credential of u1 on the proxy of pa is enabled. *)
Definition w_store (on : bool) : store := {|
  base := {|
    paths := {["pa" := w_path "pa" "e1" None; "pb" := w_path "pb" "e2" (Some "pa")]};
    endpoints := {["e1" := {| ep_ID := "e1"; ep_ProxyID := "x1"; ep_HostID := "h1"; ep_Enabled := true |};
                  "e2" := {| ep_ID := "e2"; ep_ProxyID := "x2"; ep_HostID := "h1"; ep_Enabled := true |}]};
    path_accesses := [{| pc_ID := "a1"; pc_PathID := "pa"; pc_ProxyUserID := "u1"; pc_Enabled := true; pc_DeletedAt := None |}];
    path_group_members := {[("g1", "pb")]};
    nodes := {["n1" := {| no_ID := "n1"; no_Name := "node"; no_Status := "active"; no_DeletedAt := None;
                no_Hosts := [{| nh_ID := "h1"; nh_Host := "192.0.2.1"; nh_Tag := ""; nh_Selected := true |}] |}]};
    node_name_aliases := ∅;
    proxies := {["x1" := w_proxy "one"; "x2" := w_proxy "two"]};
    proxy_users := {["u1" := w_user "u1" "alice"; "u2" := w_user "u2" "bob"]};
    bindings := {[("u1", "n1") := true]};
    credentials := {[("u1", "x1") := {| pk_ID := "k1"; pk_AuthName := "one@alice"; pk_Enabled := on; pk_DeletedAt := None |}]} |};
  direct_path_grants := {[("u1", "pa") := true]};
  path_groups := {["g1" := {| pg_Name := "group"; pg_Description := ""; pg_Enabled := true; pg_Revision := 1; pg_DeletedAt := None |}]};
  member_order := {[("g1", "pb") := 0]};
  user_path_group_grants := ∅; proxy_name_aliases := ∅; credential_json := {[("u1", "x1") := "old"]}; path_group_changes := ∅ |}.
Definition w_oracle (n : nat) : draw := {| dr_id := ("id" ++ pretty n)%string; dr_secret := Some ("s" ++ pretty n)%string; dr_now := "now" |}.
Definition w_digest (a : authorization) (c : PathGroupChange) : string :=
  (ch_Operation c ++ ch_UserID c ++ pretty (length (au_accesses a)))%string.
Lemma w_consistent on : consistent (w_store on).
Proof.
  assert (Hu : map_Forall (fun k u => us_ID u = k /\ TrimSpace k = k) (proxy_users (base (w_store on)))) by
    (repeat apply map_Forall_insert_2; [done..|apply map_Forall_empty]).
  assert (Hp : map_Forall (fun k p => pa_ID p = k /\ TrimSpace k = k /\ TrimSpace (pa_EndpointID p) = pa_EndpointID p)
    (paths (base (w_store on)))) by (repeat apply map_Forall_insert_2; [done..|apply map_Forall_empty]).
  assert (Hd : map_Forall (fun k p => forall d, pa_DialerPathID p = Some d -> TrimSpace d = d) (paths (base (w_store on)))).
  { repeat apply map_Forall_insert_2; [..|apply map_Forall_empty]; cbn; [done|by intros d [= <-]]. }
  assert (He : map_Forall (fun k e => TrimSpace (ep_ProxyID e) = ep_ProxyID e) (endpoints (base (w_store on)))) by
    (repeat apply map_Forall_insert_2; [done..|apply map_Forall_empty]).
  constructor.
  - constructor; [exact Hu|exact Hp| |exact He]. intros k p d Hk. by eapply Hd.
  - intros u p e H. cbn in H. apply lookup_singleton_Some in H as [[= <- <-] _]. split; by eexists.
  - intros g p H. cbn in H. apply elem_of_singleton in H as [= -> ->]. split; by eexists.
  - intros u g H. cbn in H. by apply not_elem_of_empty in H.
Qed.
Definition w_access : PathAccess := {| pc_ID := "a1"; pc_PathID := "pa"; pc_ProxyUserID := "u1"; pc_Enabled := true; pc_DeletedAt := None |}.
Lemma w_accesses on u p : may_use (w_store on) u p <-> u = "u1"%string /\ p = "pa"%string.
Proof.
  change (may_use (w_store on) u p) with (allows [w_access] u p). unfold allows. split.
  - intros (a & ->%list_elem_of_singleton & [Hp Hu]%is_access_true & _). cbn in Hp, Hu. by subst.
  - intros [-> ->]. exists w_access. by split; [left|].
Qed.
Lemma w_synced on : synced (w_store on).
Proof.
  intros u row Hrow _ p. rewrite <- desired_wants, w_accesses.
  assert (H : forall u, u <> "u1"%string -> ListUserDesiredPathIDs (w_store on) u = []).
  { intros v Hv. destruct (ListUserDesiredPathIDs (w_store on) v) as [|q l] eqn:E; [done|].
    assert (Hq : wants (w_store on) v q) by (apply desired_wants; rewrite E; by left).
    destruct Hq as [Hq|(g & _ & Hg & _)]; [|destruct (not_elem_of_empty _ Hg)].
    assert (Hq' : ({[("u1", "pa") := true]} : gmap (string * string) bool) !! (v, q) = Some true) by exact Hq.
    apply lookup_singleton_Some in Hq' as [[= Hv' _] _]. congruence. }
  destruct (decide (u = "u1"%string)) as [->|Hne].
  - assert (E : ListUserDesiredPathIDs (w_store on) "u1" = ["pa"%string]) by (by destruct on; vm_compute).
    rewrite E, list_elem_of_singleton. tauto.
  - rewrite H by done. rewrite elem_of_nil. tauto.
Qed.

Definition w_selection : list PathSelectionChange :=
  [{| sc_PathID := "pb"; sc_Enabled := true |}; {| sc_PathID := "pa"; sc_Enabled := false |}].
Definition w_selected : store * nat := (ChangeUserPathSelection w_oracle "alice" w_selection (w_store true, O)).2.
Lemma w_selection_runs : ChangeUserPathSelection w_oracle "alice" w_selection (w_store true, O) = (Ok tt, w_selected).
Proof. unfold w_selected. vm_compute. reflexivity. Qed.
Lemma w_step : rtc (grant_step w_oracle w_digest) (w_store true) w_selected.1.
Proof. apply rtc_once. apply (step_select w_oracle w_digest). Qed.
Example access_follows_sources_witness :
  consistent w_selected.1 /\ synced w_selected.1 /\ may_use w_selected.1 "u1" "pb" /\ ~ may_use w_selected.1 "u1" "pa".
Proof.
  destruct (access_follows_sources w_oracle w_digest _ _ (w_consistent true) (w_synced true) w_step) as [Hc Hs].
  assert (Hu : proxy_users (base w_selected.1) !! "u1"%string = Some (w_user "u1" "alice")) by (vm_compute; reflexivity).
  assert (E : ListUserDesiredPathIDs w_selected.1 "u1" = ["pb"%string]) by (vm_compute; reflexivity).
  split; [exact Hc|]. split; [exact Hs|]. rewrite !(Hs _ _ Hu eq_refl), <- !desired_wants, E.
  split; [by left|]. by intros [=]%list_elem_of_singleton.
Defined.
Example revoked_secret_stays_revoked_witness :
  ~ (usable (w_store false) ("u1", "x1") /\ credential_json (w_store false) !! ("u1", "x1") = Some "old") /\
  forall s', rtc (grant_step w_oracle w_digest) (w_store false) s' ->
    ~ (usable s' ("u1", "x1") /\ credential_json s' !! ("u1", "x1") = Some "old").
Proof.
  assert (H : ~ (usable (w_store false) ("u1", "x1") /\ credential_json (w_store false) !! ("u1", "x1") = Some "old")).
  { intros [(c & Hc & Hl) _]. assert (Hoff : live <$> credentials (base (w_store false)) !! ("u1"%string, "x1"%string) = Some false)
      by (vm_compute; reflexivity). rewrite Hc in Hoff. cbn in Hoff. congruence. }
  split; [exact H|]. intros s' Hs. apply (revoked_secret_stays_revoked w_oracle w_digest (w_store false) s' ("u1", "x1") "old").
  - apply w_consistent.
  - by intros n [=].
  - exact H.
  - exact Hs.
Defined.
Example selection_is_exact_witness : may_use w_selected.1 "u1" "pb" /\ ~ may_use w_selected.1 "u1" "pa".
Proof.
  destruct (selection_is_exact w_oracle "alice" w_selection (w_store true, O) w_selected (w_consistent true) w_selection_runs)
    as (row & Hrow & Hp & _).
  assert (E : us_ID row = "u1"%string).
  { assert (E : us_ID <$> match GetProxyUser (base (w_store true)) "alice" with Ok u => Some u | Err _ => None end = Some "u1"%string)
      by (vm_compute; reflexivity). cbn [fst] in Hrow. rewrite Hrow in E. by injection E as E. }
  rewrite E in Hp. split; [apply Hp; left; left|]. rewrite Hp. intros [H|[_ H]].
  - unfold selected, w_selection in H. apply elem_of_cons in H as [H|H]; [done|]. by apply list_elem_of_singleton in H.
  - apply H. unfold selected, w_selection. right. left.
Defined.

Lemma w_live_proxy on x p : live_proxy (base (w_store on)) x = Some p -> x = "x1"%string \/ x = "x2"%string.
Proof.
  unfold live_proxy. destruct (proxies (base (w_store on)) !! x) as [r|] eqn:E; [intros _|done].
  change ((<["x1"%string := w_proxy "one"]> {["x2"%string := w_proxy "two"]} : gmap string proxy_row) !! x = Some r) in E.
  apply lookup_insert_Some in E as [[<- _]|[_ E]]; [by left|]. apply lookup_singleton_Some in E as [<- _]. by right.
Qed.
Lemma w_names_resolve on : names_resolve (w_store on).
Proof.
  intros x p q Hx Hq. destruct (w_live_proxy _ _ _ Hx) as [->| ->]; destruct on; vm_compute in Hx; injection Hx as <-;
    vm_compute in Hq; by injection Hq as <-.
Qed.
Definition w_reselected : store * nat := (ChangeUserPathSelection w_oracle "alice" [{| sc_PathID := "pa"; sc_Enabled := true |}] (w_store false, O)).2.
Example disabled_credential_stays_disabled_witness :
  may_use w_reselected.1 "u1" "pa" /\ ~ usable w_reselected.1 ("u1", "x1").
Proof.
  assert (Hrun : ChangeUserPathSelection w_oracle "alice" [{| sc_PathID := "pa"; sc_Enabled := true |}] (w_store false, O)
    = (Ok tt, w_reselected)) by (unfold w_reselected; vm_compute; reflexivity).
  assert (Hu : GetProxyUser (base (w_store false)) "alice" = Ok (w_user "u1" "alice")) by (vm_compute; reflexivity).
  split.
  - assert (E : ListUserDesiredPathIDs w_reselected.1 "u1" = ["pa"%string]) by (vm_compute; reflexivity).
    pose proof (selection_keeps _ _ _ _ _ (w_consistent false : consistent (w_store false, O).1) Hrun) as K.
    assert (Hrow : proxy_users (base w_reselected.1) !! "u1"%string = Some (w_user "u1" "alice")) by (vm_compute; reflexivity).
    rewrite (ks_synced _ _ _ K (w_synced false) _ _ Hrow eq_refl), <- desired_wants, E. by left.
  - apply (disabled_credential_stays_disabled w_oracle "alice" [{| sc_PathID := "pa"; sc_Enabled := true |}]
      (w_store false, O) w_reselected (w_user "u1" "alice") "x1" (w_consistent false) (w_names_resolve false) Hu); [|exact Hrun].
    split.
    + exists "pa"%string. split; [exact (proj2 (w_accesses false "u1" "pa") (conj eq_refl eq_refl))|]. exists "pa"%string. split; [reflexivity|]. vm_compute. reflexivity.
    + exists {| pk_ID := "k1"; pk_AuthName := "one@alice"; pk_Enabled := false; pk_DeletedAt := None |}.
      split; [vm_compute; reflexivity|reflexivity].
Defined.

Definition w_change (token : string) : PathGroupChange := {|
  ch_Operation := "grant"; ch_GroupID := "g1"; ch_UserID := "bob"; ch_Name := ""; ch_Description := ""; ch_Enabled := true;
  ch_Revision := 1; ch_PathIDs := []; ch_PreviewToken := token |}.
Definition w_preview : result GrantError PathGroupImpact * (store * nat) :=
  ChangePathGroup w_oracle w_digest (w_change "") true (w_store true, O).
Definition w_impact : PathGroupImpact := Eval vm_compute in
  match w_preview.1 with Ok i => i | Err _ => {| im_PreviewToken := ""; im_GroupID := ""; im_Users := []; im_NodeIDs := [] |} end.
Definition w_changed : store * nat := (ChangePathGroup w_oracle w_digest (w_change (im_PreviewToken w_impact)) false (w_store true, 7%nat)).2.
Lemma w_preview_runs : ChangePathGroup w_oracle w_digest (w_change "") true (w_store true, O) = (Ok w_impact, w_preview.2).
Proof. unfold w_preview. vm_compute. reflexivity. Qed.
Lemma w_change_runs :
  ChangePathGroup w_oracle w_digest (w_change (im_PreviewToken w_impact)) false (w_store true, 7%nat) = (Ok w_impact, w_changed).
Proof. unfold w_changed. vm_compute. reflexivity. Qed.
Example reviewed_change_is_what_happens_witness :
  ui_Added <$> entry_of w_impact "u2" = Some ["pb"%string] /\ may_use w_changed.1 "u2" "pb" /\ may_use w_changed.1 "u1" "pa".
Proof.
  destruct (reviewed_change_is_what_happens w_oracle w_digest (w_change "") (w_change (im_PreviewToken w_impact)) (w_store true) (w_store true) O 7
    w_preview.2 w_impact w_impact w_changed (w_consistent true) (w_consistent true) (w_synced true) (fun _ => conj eq_refl eq_refl)
    w_preview_runs eq_refl w_change_runs) as (_ & _ & H).
  split; [vm_compute; reflexivity|]. split.
  - assert (Hu : proxy_users (base (w_store true)) !! "u2"%string = Some (w_user "u2" "bob")) by (vm_compute; reflexivity).
    pose proof (H _ _ Hu eq_refl) as H2. cbn -[may_use w_changed w_store] in H2. apply H2. right. left.
  - assert (Hu : proxy_users (base (w_store true)) !! "u1"%string = Some (w_user "u1" "alice")) by (vm_compute; reflexivity).
    pose proof (H _ _ Hu eq_refl) as H2. cbn -[may_use w_changed w_store] in H2. apply H2. exact (proj2 (w_accesses true "u1" "pa") (conj eq_refl eq_refl)).
Defined.
Example stale_review_refused_witness :
  ChangePathGroup w_oracle w_digest (w_change (im_PreviewToken w_impact)) false w_selected = (Err PathGroupConflict, w_selected).
Proof.
  assert (Hne : w_digest (PathGroupPreviewState w_selected.1) (with_token (w_change (im_PreviewToken w_impact)) "")
    <> w_digest (PathGroupPreviewState (w_store true)) (with_token (w_change "") "")) by (vm_compute; discriminate).
  pose proof (stale_review_refused w_oracle w_digest (w_change "") (w_change (im_PreviewToken w_impact)) (w_store true) O w_preview.2
    w_impact w_selected.1 w_selected.2) as H. rewrite <- surjective_pairing in H. apply H.
  - intros E. by destruct Hne.
  - apply w_consistent.
  - exact w_preview_runs.
  - reflexivity.
  - left. intros E. apply Hne. by rewrite E.
Defined.
