(* ===== verification/Updater.v ===== *)
(** * The agent's updater
    ([src/internal/agent/updater.go], [src/internal/agent/operations.go])

    An update downloads a candidate binary, verifies it, preserves the binary in
    use, switches a symbolic link and restarts; it keeps a checkpoint, because
    the process may die anywhere and is started again with the same operation.
    The state is what is on disk, every disk a crash could have left, and the
    sing-box service.  Every call to the system, the network or the server ends
    as an oracle says. *)
From S2P Require Import Prelude GoStrings GoTime Effects.
From S2P Require Import ConfigCycle UpdateGuard.

#[local] Open Scope Z_scope.

Record UpdateAsset := {
  as_Component : string; as_Version : string; as_URL : string; as_SHA256 : string; as_Size : Z
}.
Record NodeUpdatePayload := { up_Release : string; up_Agent : option UpdateAsset; up_SingBox : option UpdateAsset }.
Record updateCheckpoint := {
  ck_AgentCandidate : string; ck_AgentPrevious : string; ck_AgentSwitched : bool; ck_AgentConfirmed : bool;
  ck_SingBoxCandidate : string; ck_SingBoxPrevious : string; ck_SingBoxSwitched : bool; ck_SingBoxConfirmed : bool;
  ck_SingBoxRolledBack : bool
}.
Definition no_checkpoint : updateCheckpoint := {|
  ck_AgentCandidate := ""; ck_AgentPrevious := ""; ck_AgentSwitched := false; ck_AgentConfirmed := false;
  ck_SingBoxCandidate := ""; ck_SingBoxPrevious := ""; ck_SingBoxSwitched := false; ck_SingBoxConfirmed := false;
  ck_SingBoxRolledBack := false |}.
Definition ck_agent (c : updateCheckpoint) (candidate previous : string) (switched confirmed : bool) : updateCheckpoint := {|
  ck_AgentCandidate := candidate; ck_AgentPrevious := previous; ck_AgentSwitched := switched; ck_AgentConfirmed := confirmed;
  ck_SingBoxCandidate := ck_SingBoxCandidate c; ck_SingBoxPrevious := ck_SingBoxPrevious c;
  ck_SingBoxSwitched := ck_SingBoxSwitched c; ck_SingBoxConfirmed := ck_SingBoxConfirmed c;
  ck_SingBoxRolledBack := ck_SingBoxRolledBack c |}.
Definition ck_sing_box (c : updateCheckpoint) (candidate previous : string) (switched confirmed rolledBack : bool) : updateCheckpoint := {|
  ck_AgentCandidate := ck_AgentCandidate c; ck_AgentPrevious := ck_AgentPrevious c; ck_AgentSwitched := ck_AgentSwitched c;
  ck_AgentConfirmed := ck_AgentConfirmed c; ck_SingBoxCandidate := candidate; ck_SingBoxPrevious := previous;
  ck_SingBoxSwitched := switched; ck_SingBoxConfirmed := confirmed; ck_SingBoxRolledBack := rolledBack |}.

Record disk := {
  d_files : gmap string string;             (* path -> contents *)
  d_agent : string;                         (* what AgentPath resolves to *)
  d_agent_previous : option string;         (* the link AgentPath.previous *)
  d_sing_box : string;                      (* what SingBoxPath resolves to *)
  d_sing_box_previous : option string;
  d_guard : option AgentUpdateGuardState;   (* AgentGuardStatePath *)
  d_guard_binary : option string;           (* AgentGuardPath *)
  d_checkpoint : updateCheckpoint           (* of the saved operation state *)
}.
Definition set_files (d : disk) (m : gmap string string) : disk := {|
  d_files := m; d_agent := d_agent d; d_agent_previous := d_agent_previous d; d_sing_box := d_sing_box d;
  d_sing_box_previous := d_sing_box_previous d; d_guard := d_guard d; d_guard_binary := d_guard_binary d; d_checkpoint := d_checkpoint d |}.
Definition set_agent (d : disk) (target : string) : disk := {|
  d_files := d_files d; d_agent := target; d_agent_previous := d_agent_previous d; d_sing_box := d_sing_box d;
  d_sing_box_previous := d_sing_box_previous d; d_guard := d_guard d; d_guard_binary := d_guard_binary d; d_checkpoint := d_checkpoint d |}.
Definition set_agent_previous (d : disk) (target : string) : disk := {|
  d_files := d_files d; d_agent := d_agent d; d_agent_previous := Some target; d_sing_box := d_sing_box d;
  d_sing_box_previous := d_sing_box_previous d; d_guard := d_guard d; d_guard_binary := d_guard_binary d; d_checkpoint := d_checkpoint d |}.
Definition set_sing_box (d : disk) (target : string) : disk := {|
  d_files := d_files d; d_agent := d_agent d; d_agent_previous := d_agent_previous d; d_sing_box := target;
  d_sing_box_previous := d_sing_box_previous d; d_guard := d_guard d; d_guard_binary := d_guard_binary d; d_checkpoint := d_checkpoint d |}.
Definition set_sing_box_previous (d : disk) (target : string) : disk := {|
  d_files := d_files d; d_agent := d_agent d; d_agent_previous := d_agent_previous d; d_sing_box := d_sing_box d;
  d_sing_box_previous := Some target; d_guard := d_guard d; d_guard_binary := d_guard_binary d; d_checkpoint := d_checkpoint d |}.
Definition set_update_guard (d : disk) (g : option AgentUpdateGuardState) : disk := {|
  d_files := d_files d; d_agent := d_agent d; d_agent_previous := d_agent_previous d; d_sing_box := d_sing_box d;
  d_sing_box_previous := d_sing_box_previous d; d_guard := g; d_guard_binary := d_guard_binary d; d_checkpoint := d_checkpoint d |}.
Definition set_binary_of_guard (d : disk) (b : option string) : disk := {|
  d_files := d_files d; d_agent := d_agent d; d_agent_previous := d_agent_previous d; d_sing_box := d_sing_box d;
  d_sing_box_previous := d_sing_box_previous d; d_guard := d_guard d; d_guard_binary := b; d_checkpoint := d_checkpoint d |}.
Definition set_checkpoint (d : disk) (c : updateCheckpoint) : disk := {|
  d_files := d_files d; d_agent := d_agent d; d_agent_previous := d_agent_previous d; d_sing_box := d_sing_box d;
  d_sing_box_previous := d_sing_box_previous d; d_guard := d_guard d; d_guard_binary := d_guard_binary d; d_checkpoint := c |}.

Record world := {
  w_disk : disk;
  w_past : list disk;             (* the disks before it, in this run *)
  w_memory : updateCheckpoint;    (* state.Checkpoint *)
  w_service : option string;      (* the binary sing-box was last started with; [None]: stopped *)
  w_log : list event              (* what others see: [ConfigCycle.event] *)
}.
Definition on_disk (f : disk -> disk) (w : world) : world := {|
  w_disk := f (w_disk w); w_past := w_past w ++ [w_disk w]; w_memory := w_memory w; w_service := w_service w; w_log := w_log w |}.
Definition set_memory (c : updateCheckpoint) (w : world) : world := {|
  w_disk := w_disk w; w_past := w_past w; w_memory := c; w_service := w_service w; w_log := w_log w |}.
Definition set_service (b : option string) (w : world) : world := {|
  w_disk := w_disk w; w_past := w_past w; w_memory := w_memory w; w_service := b; w_log := w_log w |}.
Definition logged (e : event) (w : world) : world := {|
  w_disk := w_disk w; w_past := w_past w; w_memory := w_memory w; w_service := w_service w; w_log := w_log w ++ [e] |}.

Record answer := {
  a_call : ConfigCycle.answer;   (* how the call ended *)
  a_cancel : bool;               (* the operation has been asked to cancel *)
  a_ticks : nat;                 (* progress reports while a download runs *)
  a_now : Time
}.
Definition ok (a : answer) : bool := a_ok (a_call a).
Definition text (a : answer) : string := a_state (a_call a).
Inductive UpdateError :=
| BadPayload | GuardUnreadable | AgentRolledBack | WrongAgentVersion | NotConfirmed | SaveFailed | Interrupted | Cancelled
| InvalidAsset | DownloadFailed | ReportFailed | CandidateInvalid | WrongCandidateVersion | MissingFeature | ConfigCheckFailed
| FetchFailed | FlushFailed | PreserveFailed | SwitchFailed | GuardFailed | ServiceUncertain | ServiceFailed | NotStopped
| NotActive | RolledBack (e : UpdateError) | RollbackFailed (e : UpdateError) | RestartRequired.

Abbreviation M := (eff world UpdateError).
Definition get : M world := fun s => (Ok s.1, s).
Definition modify (f : world -> world) : M unit := fun s => (Ok tt, (f s.1, s.2)).

(** ** Versions and assets *)
Definition is_ident (c : ascii) : bool :=
  is_digit c || ((97 <=? code c) && (code c <=? 122)) || ((65 <=? code c) && (code c <=? 90)) || (code c =? 45) || (code c =? 46).
Definition is_v (c : ascii) : bool := (code c =? 118) || (code c =? 86).
Fixpoint span (f : ascii -> bool) (l : bytes) : bytes * bytes :=
  match l with
  | [] => ([], [])
  | c :: r => if f c then let (a, b) := span f r in (c :: a, b) else ([], l)
  end.
(** One or more bytes with [f], as many as there are. *)
Definition some_of (f : ascii -> bool) (l : bytes) : option (bytes * bytes) :=
  match span f l with ([], _) => None | r => Some r end.
Definition one (c : Z) (l : bytes) : option (bytes * bytes) :=
  match l with x :: r => if code x =? c then Some ([x], r) else None | [] => None end.
(** (?:c[0-9a-z.-]+)? *)
Definition suffix_of (c : Z) (l : bytes) : bytes * bytes :=
  match one c l with
  | Some (x, r) => match some_of is_ident r with Some (y, r) => (x ++ y, r) | None => ([], l) end
  | None => ([], l)
  end.
(** semanticVersionPattern at the start of [l], on ASCII. *)
Definition version_at (l : bytes) : option bytes :=
  let (v, l) := match l with c :: r => if is_v c then ([c], r) else ([], l) | [] => ([], l) end in
  x ← some_of is_digit l; d1 ← one 46 x.2; y ← some_of is_digit d1.2; d2 ← one 46 y.2; z ← some_of is_digit d2.2;
  let (p, l) := suffix_of 45 z.2 in
  let (b, l) := suffix_of 43 l in
  Some (v ++ x.1 ++ d1.1 ++ y.1 ++ d2.1 ++ z.1 ++ p ++ b).
Fixpoint find_version (l : bytes) : option bytes :=
  match version_at l with
  | Some m => Some m
  | None => match l with [] => None | _ :: r => find_version r end
  end.
Definition text_after_v (m : bytes) : bytes := match m with c :: r => if is_v c then r else m | [] => [] end.

Definition is_hex (c : ascii) : bool :=
  is_digit c || ((97 <=? code c) && (code c <=? 102)) || ((65 <=? code c) && (code c <=? 70)).
(** hex.DecodeString succeeds with sha256.Size bytes *)
Definition is_digest (s : string) : bool :=
  (String.length s =? 64)%nat && forallb is_hex (to_bytes s).
(** strings.EqualFold of two strings in hexadecimal *)
Definition EqualFold (s t : string) : bool := bool_decide (map lower_byte (to_bytes s) = map lower_byte (to_bytes t)).
Fixpoint contains (sub l : bytes) : bool :=
  bool_decide (take (length sub) l = sub) || match l with [] => false | _ :: r => contains sub r end.
Definition Contains (s sub : string) : bool := contains (to_bytes sub) (to_bytes s).
(** filepath.Dir of a clean rooted path *)
Definition Dir (p : string) : string := Join (removelast (Split p "/")) "/".

Inductive part := AgentPart | SingBoxPart.
Definition part_name (c : part) : string := match c with AgentPart => "boxfleet-agent" | SingBoxPart => "sing-box" end.
Definition link_of (c : part) (d : disk) : string := match c with AgentPart => d_agent d | SingBoxPart => d_sing_box d end.
Definition set_link_of (c : part) (d : disk) (target : string) : disk :=
  match c with AgentPart => set_agent d target | SingBoxPart => set_sing_box d target end.
Definition set_previous_of (c : part) (d : disk) (target : string) : disk :=
  match c with AgentPart => set_agent_previous d target | SingBoxPart => set_sing_box_previous d target end.
(** {"agent": "boxfleet-agent", "sing_box": "sing-box"}[component] *)
Definition componentDir (component : string) : option part :=
  if (component =? "agent")%string then Some AgentPart
  else if (component =? "sing_box")%string then Some SingBoxPart else None.

Section updater.
(** The configuration (all paths absolute), the operation, this process's version. *)
Variables (cwd InstallDir AgentPath SingBoxPath opID Version : string)
  (initSystem : InitSystem) (openrc_script : bool).
(** golang.org/x/mod/semver, crypto/sha256 in hexadecimal, net/url's verdict on
    an http or https URL with a host, and what grab leaves for a call. *)
Variables (IsValid : string -> bool) (Canonical : string -> string) (Compare : string -> string -> Z)
  (sha256hex : string -> string) (http_url : string -> bool) (grab : UpdateAsset -> nat -> option string).
(** How often the retry library probes, and how each call ends. *)
Variables (attempts : nat) (oracle : nat -> answer).

Definition canonicalVersion (value : string) : string :=
  match find_version (to_bytes (TrimSpace value)) with
  | None => ""
  | Some m =>
      let m := String "v" (of_bytes (text_after_v m)) in
      if IsValid m then Canonical m else ""
  end.
Definition versionsEquivalent (actual expected : string) : bool :=
  let a := canonicalVersion actual in
  let b := canonicalVersion expected in
  negb (a =? "")%string && negb (b =? "")%string && (Compare a b =? 0).
Definition safeVersionDir (value : string) : option string :=
  let canonical := canonicalVersion value in
  if (canonical =? "")%string then None
  else Some (if HasPrefix canonical "v" then str_drop 1 canonical else canonical).

Definition validateUpdateAsset (asset : UpdateAsset) (component : string) : bool :=
  (as_Component asset =? component)%string && negb (canonicalVersion (as_Version asset) =? "")%string &&
  http_url (as_URL asset) && is_digest (as_SHA256 asset) && (0 <? as_Size asset).
Definition valid_part (asset : option UpdateAsset) (component : string) : bool :=
  match asset with Some asset => validateUpdateAsset asset component | None => true end.
Definition validateUpdatePayload (kind : string) (p : NodeUpdatePayload) : bool :=
  let agent := bool_decide (is_Some (up_Agent p)) in
  let sing_box := bool_decide (is_Some (up_SingBox p)) in
  negb (up_Release p =? "")%string && (agent || sing_box) &&
  negb ((kind =? "update.agent")%string && (negb agent || sing_box)) &&
  negb ((kind =? "update.sing_box")%string && (negb sing_box || agent)) &&
  negb ((kind =? "update.bundle")%string && (negb agent || negb sing_box)) &&
  valid_part (up_Agent p) "agent" && valid_part (up_SingBox p) "sing_box".

(** ** Calls *)
Definition ask : M answer := fun s => (Ok (oracle s.2), (s.1, S s.2)).
Definition call (e : UpdateError) : M unit := a ← ask; if ok a then mret tt else fail e.
(** A file operation that is atomic: it fails without effect. *)
Definition write (e : UpdateError) (f : disk -> disk) : M unit := call e;; modify (on_disk f).
Definition saved : M unit := w ← get; write SaveFailed (fun d => set_checkpoint d (w_memory w)).
Definition saveUpdateCheckpoint (ck : updateCheckpoint) : M unit := modify (set_memory ck);; saved.
(** The event is staged in the saved state, delivered, and cleared from it. *)
Definition report : M unit := saved;; call ReportFailed;; saved.
Definition operationBoundary : M unit :=
  a ← ask;
  if a_done (a_call a) then fail Interrupted else if a_cancel a then fail Cancelled else mret tt.
Definition normalizeOperationContextError {A} (e : UpdateError) : M A :=
  a ← ask; if a_done (a_call a) then fail Interrupted else fail e.

(** ** The candidate *)
(** [filepath.Join(InstallDir, "releases", component, version, component)] *)
Definition release_root (c : part) : string := Clean (InstallDir ++ "/releases/" ++ part_name c).
Definition release_path (c : part) (dir : string) : string :=
  Clean (InstallDir ++ "/releases/" ++ part_name c ++ "/" ++ dir ++ "/" ++ part_name c).
Definition matches (contents : string) (asset : UpdateAsset) : bool :=
  (Z.of_nat (String.length contents) =? as_Size asset) && EqualFold (sha256hex contents) (as_SHA256 asset).
Definition file_matches (d : disk) (path : string) (asset : UpdateAsset) : bool :=
  match d_files d !! path with Some contents => matches contents asset | None => false end.
(** Both callers take an error for a file that does not match. *)
Definition fileMatchesAsset (path : string) (asset : UpdateAsset) : M bool :=
  a ← ask; w ← get; mret (ok a && file_matches (w_disk w) path asset).
(** The transfer, reporting its progress; the context may end it. *)
Definition transfer (asset : UpdateAsset) : M string :=
  k ← (fun s => (Ok s.2, s));
  a ← ask;
  for_each (fun _ => report) (seq 0 (a_ticks a));;
  if a_done (a_call a) then fail Interrupted
  else match grab asset k with Some contents => mret contents | None => fail DownloadFailed end.
Definition downloadAndInstallCandidate (asset : UpdateAsset) : M string :=
  if negb (validateUpdateAsset asset (as_Component asset)) then fail InvalidAsset
  else
    match safeVersionDir (as_Version asset), componentDir (as_Component asset) with
    | Some versionDir, Some c =>
        let finalPath := release_path c versionDir in
        valid ← fileMatchesAsset finalPath asset;
        if (valid : bool) then mret finalPath
        else
          call DownloadFailed;;                                          (* MkdirAll *)
          report;;
          contents ← transfer asset;
          call DownloadFailed;;                                          (* Chmod, sync, MkdirAll *)
          write DownloadFailed (fun d => set_files d (<[finalPath := contents]> (d_files d)));;
          call DownloadFailed;;                                          (* syncDirectory *)
          valid ← fileMatchesAsset finalPath asset;
          if negb valid then fail DownloadFailed
          else report;; mret finalPath
    | _, _ => fail InvalidAsset
    end.

(** ** The binary in use *)
Definition exists_file (d : disk) (path : string) : bool := bool_decide (is_Some (d_files d !! path)).
Definition copy_file (d : disk) (source target : string) : disk :=
  match d_files d !! source with Some contents => set_files d (<[target := contents]> (d_files d)) | None => d end.
Definition pathWithin (path : string) : bool := validateGuardTarget cwd InstallDir path.
Definition preserveCurrentBinary (c : part) : M string :=
  call PreserveFailed;;
  w ← get;
  let resolved := link_of c (w_disk w) in
  if negb (exists_file (w_disk w) resolved) then fail PreserveFailed
  else if pathWithin resolved then mret resolved
  else
    let legacy := release_path c ("legacy-" ++ opID) in
    call PreserveFailed;;
    if exists_file (w_disk w) legacy then mret legacy
    else write PreserveFailed (fun d => copy_file d resolved legacy);; mret legacy.
(** The link, or the file that stood at its path. *)
Definition replace_link (c : part) (d : disk) (target : string) : disk :=
  set_link_of c (set_files d (delete (match c with AgentPart => AgentPath | SingBoxPart => SingBoxPath end) (d_files d))) target.
Definition switchVersionedBinary (c : part) (nextTarget previousTarget : string) : M unit :=
  call SwitchFailed;;
  w ← get;
  if negb (exists_file (w_disk w) nextTarget) then fail SwitchFailed
  else
    (if (previousTarget =? "")%string then mret tt
     else write SwitchFailed (fun d => set_previous_of c d previousTarget));;
    write SwitchFailed (fun d => replace_link c d nextTarget).
(** The entry of the root that holds [path], when it is a directory. *)
Definition entry_of (root path : string) : option string :=
  let prefix := (root ++ "/")%string in
  if HasPrefix path prefix then
    match Split (str_drop (String.length prefix) path) "/" with
    | e :: _ :: _ => Some (prefix ++ e)%string
    | _ => None
    end
  else None.
Definition stale (c : part) (keep : list string) (path : string) : bool :=
  match entry_of (release_root c) path with
  | Some dir => negb (existsb (fun binary => Abs cwd dir =? Abs cwd (Dir binary))%string keep)
  | None => false
  end.
Definition pruneReleaseDirs (c : part) (keep : list string) : M unit :=
  if existsb (fun binary => binary =? "")%string keep then mret tt
  else
    a ← ask;
    w ← get;
    if negb (ok a) then mret tt
    else
      for_each (fun path => a ← ask;
                  if ok a then modify (on_disk (fun d => set_files d (delete path (d_files d)))) else mret tt)
        (List.filter (stale c keep) (map_to_list (d_files (w_disk w))).*1).


(** ** The update guard *)
(** What [UpdateGuard] sees of the disk; an update leaves the service files alone. *)
Definition guard_view (services : list serviceFile) (backup : option (list serviceFile)) (d : disk) : UpdateGuard.disk := {|
  guard_file := d_guard d; agent_link := d_agent d; installed := dom (d_files d);
  guard_binary := default "" (d_guard_binary d); services := services; backup := backup |}.
Definition written_guard (now : Time) (st : AgentUpdateGuardState) (d : disk) : option AgentUpdateGuardState :=
  guard_file (UpdateGuard.writeAgentUpdateGuard no_faults now (guard_view [] None d) st).1.
Definition writeAgentUpdateGuard (st : AgentUpdateGuardState) : M unit :=
  a ← ask;
  if ok a then modify (on_disk (fun d => set_update_guard d (written_guard (a_now a) st d))) else fail GuardFailed.
Definition loadAgentUpdateGuard : M (option AgentUpdateGuardState) :=
  call GuardUnreadable;; w ← get; mret (d_guard (w_disk w)).
Definition ensureAgentGuardBinary : M unit :=
  call GuardFailed;;
  w ← get;
  match d_guard_binary (w_disk w) with
  | Some _ => mret tt
  | None =>
      match d_files (w_disk w) !! d_agent (w_disk w) with
      | None => fail GuardFailed
      | Some contents => write GuardFailed (fun d => set_binary_of_guard d (Some contents))
      end
  end.

(** ** The service, as in [ConfigCycle] *)
Definition serviceActiveState : M (option string) :=
  a ← ask;
  let state := observed initSystem openrc_script (a_call a) in
  modify (logged (EvProbe state));;
  mret state.
Definition command (e : event) (f : world -> world) : M answer :=
  a ← ask;
  modify (logged e);;
  (if ok a || a_effect (a_call a) then modify f else mret tt);;
  mret a.
Definition restartService : M unit :=
  a ← command EvRestart (fun w => set_service (Some (d_sing_box (w_disk w))) w);
  if a_done (a_call a) then serviceActiveState;; fail ServiceUncertain
  else if ok a then mret tt else fail ServiceFailed.
Definition stopService : M unit :=
  a ← command EvStop (set_service None);
  if ok a then mret tt else fail ServiceFailed.
Definition singBoxConfirmedDown : M bool :=
  s ← serviceActiveState;
  mret (bool_decide (s = Some "inactive"%string) || bool_decide (s = Some "failed"%string)).
Fixpoint wait (n : nat) : M unit :=
  match n with
  | O => fail NotActive
  | S n =>
      s ← serviceActiveState;
      if bool_decide (s = Some "active"%string) then mret tt
      else a ← ask; if a_done (a_call a) then fail NotActive else wait n
  end.
Definition waitServiceActive : M unit := wait attempts.
Definition activate (disabled : bool) : M unit :=
  if disabled then
    stopService;;
    down ← singBoxConfirmedDown;
    if (down : bool) then mret tt else fail NotStopped
  else restartService;; waitServiceActive.

(** ** The two updates *)
(** The installation reports what it decides: [true] when the agent must restart. *)
Definition updateAgent (ck : updateCheckpoint) (asset : UpdateAsset) : M (bool * updateCheckpoint) :=
  guard ← loadAgentUpdateGuard;
  let status (s : string) := match guard with Some g => (gs_Status g =? s)%string | None => false end in
  let same := versionsEquivalent Version (as_Version asset) in
  if status "rolled_back" && bool_decide (gs_OperationID <$> guard = Some opID) then
    a ← ask;
    (if ok a then modify (on_disk (fun d => set_update_guard d None)) else mret tt);;
    fail AgentRolledBack
  else if ck_AgentSwitched ck || (negb (ck_AgentCandidate ck =? "")%string && same) then
    if negb same then fail WrongAgentVersion
    else if status "pending" then fail NotConfirmed
    else
      let ck := ck_agent ck (ck_AgentCandidate ck) (ck_AgentPrevious ck) true true in
      saveUpdateCheckpoint ck;;
      report;;
      mret (false, ck)
  else if same then
    let ck := ck_agent ck (ck_AgentCandidate ck) (ck_AgentPrevious ck) (ck_AgentSwitched ck) true in
    saveUpdateCheckpoint ck;;
    mret (false, ck)
  else
    operationBoundary;;
    r ← attempt (downloadAndInstallCandidate asset);
    match r with
    | Err e => normalizeOperationContextError e
    | Ok candidate =>
        let ck := ck_agent ck candidate (ck_AgentPrevious ck) (ck_AgentSwitched ck) (ck_AgentConfirmed ck) in
        saveUpdateCheckpoint ck;;
        output ← ask;
        if negb (ok output) then fail CandidateInvalid
        else if negb (versionsEquivalent (text output) (as_Version asset)) then fail WrongCandidateVersion
        else
          report;;
          operationBoundary;;
          ensureAgentGuardBinary;;
          previous ← preserveCurrentBinary AgentPart;
          let ck := ck_agent ck candidate previous (ck_AgentSwitched ck) (ck_AgentConfirmed ck) in
          saveUpdateCheckpoint ck;;
          writeAgentUpdateGuard {|
            gs_OperationID := opID; gs_ExpectedVersion := as_Version asset; gs_PreviousTarget := previous;
            gs_CandidateTarget := candidate; gs_Status := "pending"; gs_Attempts := 0; gs_Deadline := ""; gs_Error := "" |};;
          switchVersionedBinary AgentPart candidate previous;;
          let ck := ck_agent ck candidate previous true (ck_AgentConfirmed ck) in
          saveUpdateCheckpoint ck;;
          attempt report;;
          mret (true, ck)
    end.


(** Everything until the switch; it reads the state the node should be in. *)
Definition prepare_sing_box (ck : updateCheckpoint) (asset : UpdateAsset) : M (bool * string * string * updateCheckpoint) :=
  operationBoundary;;
  r ← attempt (downloadAndInstallCandidate asset);
  match r with
  | Err e => normalizeOperationContextError e
  | Ok candidate =>
      let ck := ck_sing_box ck candidate (ck_SingBoxPrevious ck) (ck_SingBoxSwitched ck) (ck_SingBoxConfirmed ck) (ck_SingBoxRolledBack ck) in
      saveUpdateCheckpoint ck;;
      output ← ask;
      if negb (ok output) then fail CandidateInvalid
      else if negb (versionsEquivalent (text output) (as_Version asset)) then fail WrongCandidateVersion
      else if negb (Contains (text output) "with_v2ray_api") then fail MissingFeature
      else
        call ConfigCheckFailed;;
        report;;
        operationBoundary;;
        config ← ask;
        if negb (ok config) then fail FetchFailed
        else
          let disabled := (text config =? "disabled")%string in
          call FlushFailed;;
          previous ← preserveCurrentBinary SingBoxPart;
          let ck := ck_sing_box ck candidate previous (ck_SingBoxSwitched ck) (ck_SingBoxConfirmed ck) (ck_SingBoxRolledBack ck) in
          saveUpdateCheckpoint ck;;
          mret (disabled, candidate, previous, ck)
  end.
Definition roll_back_sing_box (disabled : bool) (candidate previous : string) : M unit :=
  switchVersionedBinary SingBoxPart previous candidate;;
  if disabled then stopService else restartService;; waitServiceActive.
Definition with_rolled_back (ck : updateCheckpoint) (b : bool) : updateCheckpoint :=
  ck_sing_box ck (ck_SingBoxCandidate ck) (ck_SingBoxPrevious ck) (ck_SingBoxSwitched ck) (ck_SingBoxConfirmed ck) b.
Definition finish_sing_box (disabled : bool) (candidate previous : string) (ck : updateCheckpoint) : M updateCheckpoint :=
  r ← attempt (activate disabled);
  match r with
  | Err ServiceUncertain => fail ServiceUncertain
  | Err e =>
      rb ← attempt (roll_back_sing_box disabled candidate previous);
      attempt (saveUpdateCheckpoint (with_rolled_back ck (match rb with Ok _ => true | Err _ => false end)));;
      fail (match rb with Ok _ => RolledBack e | Err _ => RollbackFailed e end)
  | Ok _ =>
      let ck := ck_sing_box ck (ck_SingBoxCandidate ck) (ck_SingBoxPrevious ck) (ck_SingBoxSwitched ck) true (ck_SingBoxRolledBack ck) in
      saveUpdateCheckpoint ck;;
      pruneReleaseDirs SingBoxPart [candidate; previous];;
      ask;;
      modify (logged (EvHeartbeat (if disabled then "disabled" else "ok")));;
      mret ck
  end.
Definition updateSingBox (ck : updateCheckpoint) (asset : UpdateAsset) : M updateCheckpoint :=
  if ck_SingBoxConfirmed ck then mret ck
  else
    x ← prepare_sing_box ck asset;
    let '(disabled, candidate, previous, ck) := x in
    switchVersionedBinary SingBoxPart candidate previous;;
    let ck := ck_sing_box ck candidate previous true (ck_SingBoxConfirmed ck) (ck_SingBoxRolledBack ck) in
    saveUpdateCheckpoint ck;;
    finish_sing_box disabled candidate previous ck.

(** The result the operation reports, beside the error if there is one. *)
Record UpdateResult := { ur_agent_version : option string; ur_sing_box_version : option string; ur_committed : bool }.
Definition no_result : UpdateResult := {| ur_agent_version := None; ur_sing_box_version := None; ur_committed := false |}.
Definition executeUpdateOperation (kind : string) (p : NodeUpdatePayload) : M (UpdateResult * option UpdateError) :=
  if negb (validateUpdatePayload kind p) then mret (no_result, Some BadPayload)
  else
    w ← get;
    r ← attempt (match up_Agent p with Some asset => updateAgent (w_memory w) asset | None => mret (false, w_memory w) end);
    match r with
    | Err e => mret (no_result, Some e)
    | Ok (true, _) => mret (no_result, Some RestartRequired)
    | Ok (false, ck) =>
        let result := {| ur_agent_version := as_Version <$> up_Agent p; ur_sing_box_version := None;
                         ur_committed := bool_decide (is_Some (up_Agent p)) |} in
        match up_SingBox p with
        | None => mret (result, None)
        | Some asset =>
            r ← attempt (updateSingBox ck asset);
            match r with
            | Err e => mret (result, Some e)
            | Ok _ => mret ({| ur_agent_version := ur_agent_version result; ur_sing_box_version := Some (as_Version asset);
                               ur_committed := true |}, None)
            end
        end
    end.

End updater.
