(* ===== verification/ReleasePaths.v ===== *)
(** * Paths below the install directory

    [filepath.Clean], [filepath.Abs] and [filepath.Dir] on the paths the updater
    builds: the binary of a release is
    [InstallDir/releases/component/version/component]. *)
From S2P Require Import Prelude GoStrings GoTime Effects.
From S2P Require Import ConfigCycle UpdateGuard Updater.

(** ** Splitting at the separator *)
Lemma split_bytes_app sep l1 l2 : split_bytes sep (l1 ++ sep :: l2) = split_bytes sep l1 ++ split_bytes sep l2.
Proof.
  assert (Hne : forall l, split_bytes sep l <> []).
  { intros [|c l]; cbn; [done|]. destruct (decide (c = sep)); [done|]. by destruct (split_bytes sep l). }
  induction l1 as [|c l1 IH]; cbn; [by rewrite decide_True|].
  destruct (decide (c = sep)); [by rewrite IH|]. rewrite IH. destruct (split_bytes sep l1) eqn:E; [by apply Hne in E|done].
Qed.
Lemma split_bytes_none sep l : sep ∉ l -> split_bytes sep l = [l].
Proof. intros Hl. change l with (join_bytes sep [l]) at 1. apply split_join; [done|by repeat constructor]. Qed.
Lemma split_bytes_parts sep l : Forall (fun p => sep ∉ p) (split_bytes sep l).
Proof.
  induction l as [|c l IH]; cbn; [repeat constructor; by intros ?%elem_of_nil|].
  destruct (decide (c = sep)) as [->|Hc]; [constructor; [by intros ?%elem_of_nil|done]|].
  destruct (split_bytes sep l) as [|p ps]; [repeat constructor; by intros [?|?%elem_of_nil]%elem_of_cons|].
  inversion IH as [|? ? Hp Hps]; subst. constructor; [|done]. intros [?|?]%elem_of_cons; [congruence|done].
Qed.
Lemma Split_app s1 s2 sep : Split (s1 ++ String sep s2) sep = Split s1 sep ++ Split s2 sep.
Proof.
  unfold Split. rewrite to_bytes_app. change (to_bytes (String sep s2)) with (sep :: to_bytes s2).
  by rewrite split_bytes_app, map_app.
Qed.

(** ** Names of one path element *)
Definition slash : ascii := "/".
Definition plain (s : string) : Prop := s <> ""%string /\ s <> "."%string /\ s <> ".."%string /\ slash ∉ to_bytes s.
#[export] Instance plain_dec s : Decision (plain s) := _.
Lemma Split_plain s : slash ∉ to_bytes s -> Split s "/" = [s].
Proof. intros Hs. unfold Split. rewrite split_bytes_none by done. cbn. by rewrite of_to_bytes. Qed.
Lemma Split_parts s : Forall (fun p => slash ∉ to_bytes p) (Split s "/").
Proof.
  unfold Split. apply Forall_map. eapply Forall_impl; [apply split_bytes_parts|]. intros p Hp. cbn. by rewrite to_of_bytes.
Qed.

Lemma clean_parts_app acc ps qs : clean_parts acc (ps ++ qs) = clean_parts (rev (clean_parts acc ps)) qs.
Proof.
  revert acc. induction ps as [|p ps IH]; intros acc; cbn; [by rewrite rev_involutive|]. repeat case_match; apply IH.
Qed.
Lemma clean_parts_plain acc ps : Forall plain ps -> clean_parts acc ps = rev acc ++ ps.
Proof.
  intros Hps. revert acc. induction Hps as [|p ps (H1 & H2 & H3 & _) Hps IH]; intros acc; cbn; [by rewrite app_nil_r|].
  apply String.eqb_neq in H1, H2, H3. rewrite H1, H2, H3. cbn. rewrite IH. cbn. by rewrite <- app_assoc.
Qed.
Lemma clean_parts_are_plain acc ps :
  Forall (fun p => slash ∉ to_bytes p) ps -> Forall plain acc -> Forall plain (clean_parts acc ps).
Proof.
  intros Hps. revert acc. induction Hps as [|p ps Hp Hps IH]; intros acc Hacc; cbn; [by apply Forall_rev|].
  destruct (p =? "")%string eqn:E1; [by apply IH|]. destruct (p =? ".")%string eqn:E2; [by apply IH|]. cbn.
  destruct (p =? "..")%string eqn:E3.
  - apply IH. destruct acc; [done|]. by inversion Hacc.
  - apply IH. constructor; [|done]. apply String.eqb_neq in E1, E2, E3. by split_and!.
Qed.

(** ** Rooted paths *)
Definition rooted (l : list string) : string := ("/" ++ Join l "/")%string.
Definition parts (p : string) : list string := clean_parts [] (Split p "/").
Lemma parts_plain p : Forall plain (parts p).
Proof. apply clean_parts_are_plain; [apply Split_parts|constructor]. Qed.
Lemma Clean_parts p : Clean p = rooted (parts p).
Proof. done. Qed.
Lemma Split_joined l : l <> [] -> Forall plain l -> Split (Join l "/") "/" = l.
Proof.
  intros Hne Hl. unfold Split. rewrite (Join_bytes l "/"), split_join.
  - rewrite map_map. rewrite <- (map_id l) at 2. apply map_ext. apply of_to_bytes.
  - destruct l; [done|by cbn].
  - apply Forall_map. eapply Forall_impl; [exact Hl|]. intros p (_ & _ & _ & Hp). exact Hp.
Qed.
Lemma Split_rooted l : Forall plain l -> Split (rooted l) "/" = "" :: (if decide (l = []) then [""] else l).
Proof.
  intros Hl. unfold rooted. change ("/" ++ Join l "/")%string with ("" ++ String "/" (Join l "/"))%string.
  rewrite Split_app. destruct (decide (l = [])) as [->|Hne]; [done|]. by rewrite Split_joined.
Qed.
Lemma parts_rooted l : Forall plain l -> parts (rooted l) = l.
Proof.
  intros Hl. unfold parts. rewrite Split_rooted by done. destruct (decide (l = [])) as [->|Hne]; [done|].
  change ("" :: l) with ([""] ++ l). rewrite clean_parts_app. cbn. by rewrite clean_parts_plain.
Qed.
Lemma Clean_rooted l : Forall plain l -> Clean (rooted l) = rooted l.
Proof. intros Hl. by rewrite Clean_parts, parts_rooted. Qed.
Lemma HasPrefix_app p s : UpdateGuard.HasPrefix (p ++ s) p = true.
Proof. unfold UpdateGuard.HasPrefix. apply bool_decide_eq_true. apply str_take_app. Qed.
Lemma Abs_rooted cwd l : Forall plain l -> Abs cwd (rooted l) = rooted l.
Proof. intros Hl. unfold Abs. rewrite (HasPrefix_app "/" (Join l "/") : UpdateGuard.HasPrefix (rooted l) "/" = true). by apply Clean_rooted. Qed.

Lemma parts_below p l : Forall plain l -> l <> [] -> parts (p ++ String "/" (Join l "/")) = parts p ++ l.
Proof.
  intros Hl Hne. unfold parts. rewrite Split_app, clean_parts_app, Split_joined by done.
  rewrite clean_parts_plain by done. by rewrite rev_involutive.
Qed.
Lemma Join_app l m : l <> [] -> m <> [] -> Join (l ++ m) "/" = (Join l "/" ++ "/" ++ Join m "/")%string.
Proof.
  intros Hl Hm. unfold Join. induction l as [|x l IH]; [done|]. destruct l as [|y l].
  - destruct m; [done|]. done.
  - change (String.concat "/" ((x :: y :: l) ++ m)) with (x ++ "/" ++ String.concat "/" ((y :: l) ++ m))%string.
    rewrite IH by done. change (String.concat "/" (x :: y :: l)) with (x ++ "/" ++ String.concat "/" (y :: l))%string.
    by rewrite <- !str_app_assoc.
Qed.
Lemma rooted_app l m : l <> [] -> m <> [] -> rooted (l ++ m) = (rooted l ++ String "/" (Join m "/"))%string.
Proof. intros Hl Hm. unfold rooted. by rewrite Join_app, <- !str_app_assoc. Qed.

(** ** The release directories *)
Section releases.
Context (cwd InstallDir : string) (absolute : UpdateGuard.HasPrefix InstallDir "/" = true).
Abbreviation release_path := (release_path InstallDir).
Abbreviation release_root := (release_root InstallDir).

Lemma plain_part c : plain (part_name c).
Proof. by destruct c; apply (bool_decide_unpack _); vm_compute. Qed.
Lemma plain_releases : plain "releases".
Proof. by apply (bool_decide_unpack _); vm_compute. Qed.
#[local] Hint Resolve plain_part plain_releases parts_plain : core.
Ltac plains := repeat first [apply Forall_app; split | apply List.Forall_cons | apply List.Forall_nil]; auto.

Lemma release_path_rooted c dir :
  plain dir -> release_path c dir = rooted (parts InstallDir ++ ["releases"; part_name c; dir; part_name c]).
Proof.
  intros Hd. unfold Updater.release_path. rewrite Clean_parts. f_equal.
  by apply (parts_below InstallDir ["releases"; part_name c; dir; part_name c]); [plains|].
Qed.
Lemma release_root_rooted c : release_root c = rooted (parts InstallDir ++ ["releases"; part_name c]).
Proof.
  unfold Updater.release_root. rewrite Clean_parts. f_equal.
  by apply (parts_below InstallDir ["releases"; part_name c]); [plains|].
Qed.
Lemma releases_root_rooted : releases_root cwd InstallDir = rooted (parts InstallDir ++ ["releases"]).
Proof.
  unfold releases_root. destruct InstallDir as [|c i] eqn:Ei; [done|]. rewrite <- Ei.
  assert (E : (InstallDir =? "")%string = false) by (apply String.eqb_neq; by rewrite Ei). rewrite E.
  unfold Abs. assert (Hp : UpdateGuard.HasPrefix (InstallDir ++ "/releases") "/" = true).
  { unfold UpdateGuard.HasPrefix in *. apply bool_decide_eq_true in absolute. apply bool_decide_eq_true.
    revert absolute. rewrite Ei. done. }
  rewrite Hp, Clean_parts. f_equal. by apply (parts_below InstallDir ["releases"]); [plains|].
Qed.

Lemma release_path_within c dir : plain dir -> pathWithin cwd InstallDir (release_path c dir) = true.
Proof.
  intros Hd. unfold pathWithin, validateGuardTarget. rewrite release_path_rooted, releases_root_rooted by done.
  assert (Hpl : Forall plain (parts InstallDir ++ ["releases"; part_name c; dir; part_name c])) by plains.
  rewrite Abs_rooted by done.
  change ["releases"; part_name c; dir; part_name c] with (["releases"] ++ [part_name c; dir; part_name c]).
  rewrite app_assoc, (rooted_app (_ ++ _)) by (try done; by destruct (parts InstallDir)).
  rewrite orb_true_iff. right.
  change (String "/" (Join [part_name c; dir; part_name c] "/")) with ("/" ++ Join [part_name c; dir; part_name c] "/")%string.
  rewrite str_app_assoc. apply HasPrefix_app.
Qed.
Lemma release_path_inj c dir dir' : plain dir -> plain dir' -> release_path c dir = release_path c dir' -> dir = dir'.
Proof.
  intros Hd Hd' E. rewrite !release_path_rooted in E by done. apply (f_equal parts) in E.
  rewrite !parts_rooted in E by plains.
  apply app_inv_head in E. by injection E.
Qed.
(** A release is the entry of its component's directory. *)
Lemma release_path_entry c dir :
  plain dir -> entry_of (release_root c) (release_path c dir) = Some (Dir (release_path c dir)).
Proof.
  intros Hd. unfold entry_of. rewrite release_path_rooted, release_root_rooted by done.
  set (l := parts InstallDir ++ ["releases"; part_name c]).
  assert (Hl : Forall plain l) by plains.
  assert (Hne : l <> []) by (unfold l; by destruct (parts InstallDir)).
  assert (E : parts InstallDir ++ ["releases"; part_name c; dir; part_name c] = l ++ [dir; part_name c]) by (unfold l; by rewrite <- app_assoc).
  rewrite E. assert (E2 : rooted (l ++ [dir; part_name c]) = ((rooted l ++ "/") ++ Join [dir; part_name c] "/")%string).
  { rewrite rooted_app by done. by rewrite <- str_app_assoc. }
  rewrite E2, HasPrefix_app, str_drop_length, Split_joined by (try done; plains).
  rewrite <- E2. f_equal. unfold Dir.
  rewrite Split_rooted by plains.
  destruct (decide (l ++ [dir; part_name c] = [])) as [E3|_]; [by destruct l|].
  change ("" :: l ++ [dir; part_name c]) with (("" :: l) ++ [dir] ++ [part_name c]). rewrite app_assoc, removelast_last.
  rewrite (Join_app ("" :: l)) by done.
  assert (E4 : Join ("" :: l) "/" = rooted l) by (by destruct l).
  by rewrite E4, <- str_app_assoc.
Qed.
Lemma kept_release c dir keep : plain dir -> release_path c dir ∈ keep -> stale cwd InstallDir c keep (release_path c dir) = false.
Proof.
  intros Hd Hin. unfold stale. rewrite release_path_entry by done. apply negb_false_iff. apply existsb_exists.
  exists (release_path c dir). split; [by apply list_elem_of_In|]. apply String.eqb_refl.
Qed.
End releases.
