(* ===== verification/UpdaterSafety.v ===== *)
(** * What an update leaves behind

    The invariants of [Updater], over every disk a run goes through: whatever
    binary a link names has been verified, and the binary it replaced can be
    put back. *)
From S2P Require Import Prelude GoStrings GoTime Effects.
From S2P Require Import ConfigCycle UpdateGuard Updater ReleasePaths.

(** ** Rules *)
Section rules.
Context (oracle : nat -> answer).
Implicit Types (P : world -> Prop) (E : UpdateError -> world -> Prop).
Abbreviation ask := (ask oracle).

(** Started where [P] holds, [m] ends as [Q] says or fails as [E] says. *)
Definition spec {A} E P (m : M A) (Q : A -> world -> Prop) : Prop :=
  outcome P m (fun r w => match r with Ok a => Q a w | Err e => E e w end).

Lemma spec_ret {A} E P (a : A) (Q : A -> world -> Prop) : (forall w, P w -> Q a w) -> spec E P (mret a) Q.
Proof. intros HQ. by apply outcome_ret. Qed.
Lemma spec_fail {A} E P e (Q : A -> world -> Prop) : (forall w, P w -> E e w) -> spec E P (fail e) Q.
Proof. intros HE. by apply outcome_fail. Qed.
Lemma spec_bind {A B} E P (m : M A) (k : A -> M B) R Q : spec E P m R -> (forall a, spec E (R a) (k a) Q) -> spec E P (m ≫= k) Q.
Proof. intros Hm Hk. by eapply outcome_then. Qed.
Lemma spec_weaken {A} E P P' (m : M A) Q Q' :
  (forall w, P' w -> P w) -> (forall a w, Q a w -> Q' a w) -> spec E P m Q -> spec E P' m Q'.
Proof. intros HP HQ. apply outcome_weaken; [done|]. by intros [a|e]; [apply HQ|]. Qed.
Lemma spec_pre {A} E P P' (m : M A) Q : (forall w, P' w -> P w) -> spec E P m Q -> spec E P' m Q.
Proof. intros HP. by apply spec_weaken. Qed.
Lemma spec_error {A} E E' P (m : M A) Q : (forall e w, E e w -> E' e w) -> spec E P m Q -> spec E' P m Q.
Proof. intros HE. apply outcome_weaken; [done|]. by intros [a|e]; [|apply HE]. Qed.
Lemma spec_ask {B} E P (k : answer -> M B) Q : (forall a, spec E P (k a) Q) -> spec E P (ask ≫= k) Q.
Proof. intros Hk [w n] Hp. exact (Hk (oracle n) (w, S n) Hp). Qed.
Lemma spec_get {B} E P (k : world -> M B) Q : (forall w, P w -> spec E (eq w) (k w) Q) -> spec E P (get ≫= k) Q.
Proof. intros Hk [w n] Hp. exact (Hk w Hp (w, n) eq_refl). Qed.
Lemma spec_modify E P f (Q : unit -> world -> Prop) : (forall w, P w -> Q tt (f w)) -> spec E P (modify f) Q.
Proof. intros Hf [w n] Hp. exact (Hf w Hp). Qed.
Lemma spec_call E P e (Q : unit -> world -> Prop) :
  (forall w, P w -> E e w) -> (forall w, P w -> Q tt w) -> spec E P (call oracle e) Q.
Proof. intros HE HQ. apply spec_ask. intros a. destruct (ok a); [by apply spec_ret|by apply spec_fail]. Qed.
Lemma spec_write E P e (f : disk -> disk) (Q : unit -> world -> Prop) :
  (forall w, P w -> E e w) -> (forall w, P w -> Q tt (on_disk f w)) -> spec E P (write oracle e f) Q.
Proof. intros HE HQ. eapply spec_bind; [apply (spec_call _ P _ (fun _ => P)); done|]. intros []. by apply spec_modify. Qed.
Lemma spec_attempt {A} E P (m : M A) (F : UpdateError -> world -> Prop) Q :
  spec F P m Q -> spec E P (attempt m) (fun r w => match r with Ok a => Q a w | Err e => F e w end).
Proof. intros Hm. eapply outcome_weaken; [done| |apply outcome_attempt, Hm]. by intros [[a|e]|e] w. Qed.
Lemma spec_case {A} E P (b : bool) (m1 m2 : M A) Q :
  (b = true -> spec E P m1 Q) -> (b = false -> spec E P m2 Q) -> spec E P (if b then m1 else m2) Q.
Proof. by destruct b; auto. Qed.
Lemma spec_each {A} E P (f : A -> M unit) l : (forall x, x ∈ l -> spec E P (f x) (fun _ => P)) -> spec E P (for_each f l) (fun _ => P).
Proof.
  induction l as [|x l IH]; intros Hf; cbn; [by apply spec_ret|].
  eapply spec_bind; [apply Hf; by left|]. intros []. apply IH. intros y Hy. apply Hf. by right.
Qed.
Lemma spec_pure {A} E (φ : Prop) P (m : M A) Q : (φ -> spec E P m Q) -> spec E (fun w => P w /\ φ) m Q.
Proof. intros Hm s [Hp Hφ]. by apply Hm. Qed.
(** From each state on its own. *)
Lemma spec_from {A} E P (m : M A) Q : (forall w, P w -> spec E (eq w) m Q) -> spec E P m Q.
Proof. intros Hm [w n] Hp. exact (Hm w Hp (w, n) eq_refl). Qed.

(** Saving the checkpoint changes nothing [P] talks about. *)
Class Quiet P : Prop := {
  quiet_memory : forall ck w, P w -> P (set_memory ck w);
  quiet_saved : forall ck w, P w -> P (on_disk (fun d => set_checkpoint d ck) w)
}.
Lemma spec_saved E P : Quiet P -> (forall w, P w -> E SaveFailed w) -> spec E P (saved oracle) (fun _ => P).
Proof.
  intros HP HE. apply spec_get. intros w Hw. apply spec_write; [by intros ? <-; apply HE|].
  intros ? <-. by apply quiet_saved.
Qed.
Lemma spec_save E P ck : Quiet P -> (forall w, P w -> E SaveFailed w) -> spec E P (saveUpdateCheckpoint oracle ck) (fun _ => P).
Proof.
  intros HP HE. eapply spec_bind; [apply (spec_modify E P (set_memory ck) (fun _ => P)); intros; by apply quiet_memory|].
  intros []. by apply spec_saved.
Qed.
Lemma spec_attempt_save E P ck : Quiet P -> spec E P (attempt (saveUpdateCheckpoint oracle ck)) (fun _ w => P w /\ w_memory w = ck).
Proof.
  intros HP. eapply spec_weaken with (Q := fun r w => match r with Ok _ => P w /\ w_memory w = ck | Err _ => P w /\ w_memory w = ck end);
    [by intros w Hw; exact Hw|by intros [a|e]|].
  apply spec_attempt. eapply spec_bind; [apply (spec_modify _ P (set_memory ck) (fun _ w => P w /\ w_memory w = ck)); intros w Hw; by split; [apply quiet_memory|]|].
  intros []. apply spec_get. intros w [Hw Hm]. apply spec_write; [by intros ? <-|]. intros ? <-. split; [by apply quiet_saved|done].
Qed.
Lemma spec_report E P : Quiet P -> (forall e w, e = SaveFailed \/ e = ReportFailed -> P w -> E e w) -> spec E P (report oracle) (fun _ => P).
Proof.
  intros HP HE. eapply spec_bind; [apply spec_saved; auto|]. intros [].
  eapply spec_bind; [apply (spec_call E P ReportFailed (fun _ => P)); auto|]. intros []. apply spec_saved; auto.
Qed.
Lemma spec_boundary E P :
  (forall e w, e = Interrupted \/ e = Cancelled -> P w -> E e w) -> spec E P (operationBoundary oracle) (fun _ => P).
Proof. intros HE. apply spec_ask. intros a. repeat (apply spec_case; intros _); solve [apply spec_fail; auto|by apply spec_ret]. Qed.
Lemma spec_normalize {A} E P e (Q : A -> world -> Prop) :
  (forall w, P w -> E e w /\ E Interrupted w) -> spec E P (normalizeOperationContextError oracle e) Q.
Proof. intros HE. apply spec_ask. intros a. apply spec_case; intros _; apply spec_fail; intros w Hw; by apply HE. Qed.
End rules.

(** ** The state during a run *)
(** [V] held of every disk so far, [J] holds of the disk and [S] of the
    service and the log. *)
Definition run (V J : disk -> Prop) (S : option string -> list event -> Prop) (w : world) : Prop :=
  Forall V (w_past w) /\ J (w_disk w) /\ S (w_service w) (w_log w).
Definition quiet (J : disk -> Prop) : Prop := forall d ck, J d -> J (set_checkpoint d ck).
(** Errors that are raised before anything is switched, and not by a rollback. *)
Definition early (e : UpdateError) : Prop :=
  match e with AgentRolledBack | ServiceUncertain | RolledBack _ | RollbackFailed _ | RestartRequired => False | _ => True end.

Section steps.
Context (cwd InstallDir AgentPath SingBoxPath opID Version : string) (initSystem : InitSystem) (openrc_script : bool)
  (IsValid : string -> bool) (Canonical : string -> string) (Compare : string -> string -> Z)
  (sha256hex : string -> string) (http_url : string -> bool) (grab : UpdateAsset -> nat -> option string)
  (attempts : nat) (oracle : nat -> answer).
Context (V : disk -> Prop).
Implicit Types (J : disk -> Prop) (S : option string -> list event -> Prop) (E : UpdateError -> world -> Prop).
Abbreviation file_matches := (file_matches sha256hex).
Abbreviation replace_link := (replace_link AgentPath SingBoxPath).

Lemma run_write J J' S f w :
  (forall d, J d -> V d) -> (forall d, J d -> J' (f d)) -> run V J S w -> run V J' S (on_disk f w).
Proof.
  intros HJ Hf (Hp & Hd & Hs). split_and!; [|by apply Hf|done]. cbn. apply Forall_app. split; [done|]. constructor; [by apply HJ|done].
Qed.
Lemma run_weaken J J' S w : (forall d, J d -> J' d) -> run V J S w -> run V J' S w.
Proof. intros HJ (Hp & Hd & Hs). split_and!; auto. Qed.
Lemma run_all J S w : (forall d, J d -> V d) -> run V J S w -> Forall V (w_past w ++ [w_disk w]).
Proof. intros HJ (H1 & H2 & _). apply Forall_app. split; [done|]. constructor; [by apply HJ|done]. Qed.
Lemma run_quiet J S : (forall d, J d -> V d) -> quiet J -> Quiet (run V J S).
Proof. intros HJ HQ. split; [done|]. intros ck w. apply run_write; [done|]. intros d. apply HQ. Qed.

Lemma file_matches_write d path contents path' asset :
  path <> path' -> file_matches (set_files d (<[path := contents]> (d_files d))) path' asset = file_matches d path' asset.
Proof. intros Hne. unfold Updater.file_matches. cbn. by rewrite lookup_insert_ne. Qed.

(** *** The candidate *)
Section download.
Context (asset : UpdateAsset) (c : part) (dir : string).
Context (Hcomponent : componentDir (as_Component asset) = Some c)
  (Hversion : safeVersionDir IsValid Canonical (as_Version asset) = Some dir).
Abbreviation candidate := (release_path InstallDir c dir).

Lemma download_spec E J S :
  (forall d, J d -> V d) -> quiet J ->
  (forall d contents, J d -> J (set_files d (<[candidate := contents]> (d_files d)))) ->
  (forall e w, early e -> run V J S w -> E e w) ->
  spec E (run V J S) (downloadAndInstallCandidate InstallDir IsValid Canonical sha256hex http_url grab oracle asset)
    (fun r => run V (fun d => r = candidate /\ J d /\ file_matches d candidate asset = true) S).
Proof.
  intros HJ HQ HI HE. unfold downloadAndInstallCandidate. rewrite Hcomponent, Hversion.
  assert (Hq : Quiet (run V J S)) by by apply run_quiet.
  assert (Hcall : spec E (run V J S) (call oracle DownloadFailed) (fun _ => run V J S)) by (apply spec_call; [intros w; by apply HE|done]).
  assert (Hreport : spec E (run V J S) (report oracle) (fun _ => run V J S)).
  { apply spec_report; [done|]. intros e w [-> | ->] Hw; by apply HE. }
  apply spec_case; intros _; [apply spec_fail; intros w; by apply HE|].
  eapply spec_bind with (R := fun (b : bool) w => run V J S w /\ (b = true -> file_matches (w_disk w) candidate asset = true)).
  { apply spec_ask. intros a. apply spec_get. intros w Hw. apply spec_ret. intros ? <-. split; [done|]. by intros [_ H]%andb_true_iff. }
  intros valid. destruct valid.
  { apply spec_ret. intros w [(Hp & Hd & Hs) Hm]. specialize (Hm eq_refl). by split_and!. }
  eapply spec_pre; [by intros w [Hw _]; exact Hw|].
  eapply spec_bind; [exact Hcall|]. intros []. eapply spec_bind; [exact Hreport|]. intros [].
  eapply spec_bind with (R := fun _ => run V J S).
  { unfold transfer. apply (outcome_then _ _ _ (fun _ => run V J S)); [by intros [w n] Hw|]. intros k.
    apply spec_ask. intros a. eapply spec_bind; [apply spec_each; intros; exact Hreport|]. intros [].
    apply spec_case; intros _; [apply spec_fail; intros w; by apply HE|].
    destruct (grab asset k); [by apply spec_ret|apply spec_fail; intros w; by apply HE]. }
  intros contents. eapply spec_bind; [exact Hcall|]. intros [].
  eapply spec_bind with (R := fun _ => run V J S).
  { apply spec_write; [intros w; by apply HE|]. intros w. apply run_write; auto. }
  intros []. eapply spec_bind; [exact Hcall|]. intros [].
  eapply spec_bind with (R := fun (b : bool) w => run V (fun d => J d /\ (b = true -> file_matches d candidate asset = true)) S w).
  { apply spec_ask. intros a. apply spec_get. intros w Hw. apply spec_ret. intros ? <-.
    destruct Hw as (Hp & Hd & Hs). assert (Hm : ok a && file_matches (w_disk w) candidate asset = true -> file_matches (w_disk w) candidate asset = true) by (by intros [_ H]%andb_true_iff). by split_and!. }
  intros valid. apply spec_case; intros Hv.
  { apply spec_fail. intros w Hw. apply HE; [done|]. eapply run_weaken; [|exact Hw]. by intros d [? _]. }
  apply negb_false_iff in Hv. subst valid.
  eapply spec_bind with (R := fun _ => run V (fun d => J d /\ file_matches d candidate asset = true) S).
  { eapply spec_pre; [|apply spec_report].
    - intros w. apply run_weaken. intros d [Hd Hm]. by split; [|apply Hm].
    - apply run_quiet; [by intros d [Hd _]; apply HJ|]. intros d ck [Hd Hm]. split; [by apply HQ|exact Hm].
    - intros e w He Hw. apply HE; [by destruct He as [-> | ->]|]. eapply run_weaken; [|exact Hw]. by intros d [? _]. }
  intros []. apply spec_ret. intros w. by apply run_weaken.
Qed.
End download.

(** *** Preserving and switching *)
Section switch.
Context (absolute : UpdateGuard.HasPrefix InstallDir "/" = true).
(** The part that is updated, where its link leads at first and to what. *)
Context (c : part) (l0 : string) (old : option string) (dir : string) (asset : UpdateAsset).
Abbreviation candidate := (release_path InstallDir c dir).
Abbreviation legacy := (release_path InstallDir c ("legacy-" ++ opID)).
Abbreviation link_path := (match c with AgentPart => AgentPath | SingBoxPart => SingBoxPath end).

(** The candidate is another file than the binary in use, and an earlier
    attempt's copy of it is that binary. *)
Record distinct : Prop := {
  ds_dir : plain dir;
  ds_legacy : plain ("legacy-" ++ opID);
  ds_names : dir <> ("legacy-" ++ opID)%string;
  ds_link : pathWithin cwd InstallDir link_path = false;
  ds_current : l0 <> candidate
}.
Context (Hd : distinct).

Definition base (d : disk) : Prop :=
  link_of c d = l0 /\ d_files d !! l0 = old /\ (d_files d !! legacy = None \/ d_files d !! legacy = old).
Definition ready (d : disk) : Prop := base d /\ file_matches d candidate asset = true.
(** [previous] holds the binary that was in use, and it and the candidate stay
    when the link is replaced. *)
Definition preserved (previous : string) (d : disk) : Prop :=
  d_files d !! previous = old /\ is_Some old /\ file_matches d candidate asset = true.
Definition replaceable (previous : string) : Prop :=
  previous <> candidate /\ pathWithin cwd InstallDir previous = true /\ (previous = l0 \/ previous = legacy).

Lemma legacy_candidate : legacy <> candidate.
Proof. intros E. apply release_path_inj in E; [|apply Hd..]. symmetry in E. by apply (ds_names Hd) in E. Qed.
Lemma candidate_link_path : candidate <> link_path.
Proof. intros E. pose proof (release_path_within cwd _ absolute c dir (ds_dir Hd)) as H. rewrite E, (ds_link Hd) in H. done. Qed.
Lemma previous_link_path previous : replaceable previous -> previous <> link_path.
Proof. intros (_ & H & _) E. rewrite E, (ds_link Hd) in H. done. Qed.

Lemma base_quiet : quiet base.
Proof. intros d ck (H1 & H2 & H3). by split_and!; destruct c. Qed.
Lemma base_install d contents : base d -> base (set_files d (<[candidate := contents]> (d_files d))).
Proof.
  intros (H1 & H2 & H3). split_and!; [by destruct c|cbn; by rewrite lookup_insert_ne by (symmetry; apply Hd)|].
  cbn. rewrite lookup_insert_ne by (symmetry; apply legacy_candidate). done.
Qed.
Lemma ready_quiet : quiet ready.
Proof. intros d ck [H1 H2]. by split; [apply base_quiet|]. Qed.
Lemma ready_copy d : ready d -> ready (copy_file d l0 legacy).
Proof.
  intros [(H1 & H2 & H3) H4]. unfold copy_file. destruct (d_files d !! l0) as [contents|] eqn:El; [|split; [by split_and!; [|rewrite El|]|done]].
  split; [|by rewrite file_matches_write by apply legacy_candidate]. split_and!; [by destruct c| |right; cbn; by rewrite lookup_insert_eq].
  cbn. destruct (decide (legacy = l0)) as [->|Hne]; [by rewrite lookup_insert_eq|by rewrite lookup_insert_ne, El].
Qed.

Lemma preserve_spec E S (J : disk -> Prop) :
  (forall d, J d -> V d) -> (forall d, J d -> ready d) -> (forall d, J d -> J (copy_file d l0 legacy)) ->
  (forall w, run V J S w -> E PreserveFailed w) ->
  spec E (run V J S) (preserveCurrentBinary cwd InstallDir opID oracle c)
    (fun previous w => replaceable previous /\ run V (fun d => J d /\ preserved previous d) S w).
Proof.
  intros HJ HR HC HE. unfold preserveCurrentBinary.
  eapply spec_bind; [apply (spec_call _ E _ PreserveFailed (fun _ => run V J S)); auto|]. intros [].
  apply spec_get. intros w Hw. pose proof Hw as (Hp & Hj & Hs). destruct (HR _ Hj) as [(Hl & Ho & Hleg) Hm].
  unfold exists_file. rewrite Hl. apply spec_case; intros Hex; [apply spec_fail; intros ? <-; by apply HE|].
  apply negb_false_iff, bool_decide_eq_true in Hex. rewrite Ho in Hex.
  apply spec_case; intros Hin.
  { apply spec_ret. intros ? <-. split; [split_and!; [apply Hd|done|by left]|]. by split_and!. }
  assert (Hrep : replaceable legacy).
  { split_and!; [apply legacy_candidate| |by right]. apply release_path_within; [exact absolute|apply Hd]. }
  eapply spec_bind; [apply (spec_call _ E _ PreserveFailed (fun _ => eq w)); [intros ? <-; by apply HE|done]|]. intros [].
  apply spec_case; intros Hexl.
  - apply spec_ret. intros ? <-. apply bool_decide_eq_true in Hexl. split; [done|].
    split_and!; try done. destruct Hleg as [Hleg|Hleg]; [rewrite Hleg in Hexl; by destruct Hexl|done].
  - eapply spec_bind.
    + apply spec_write with (Q := fun _ => run V (fun d => J d /\ preserved legacy d) S); [intros ? <-; by apply HE|].
      intros ? <-. split; [apply Forall_app; split; [done|constructor; [by apply HJ|done]]|]. split; [|done].
      cbn. split; [by apply HC|]. destruct (HR _ (HC _ Hj)) as [(_ & _ & Hleg2) Hm2]. split_and!; try done.
      revert Hleg2. unfold copy_file. rewrite Ho. destruct Hex as [contents Hcon]. rewrite Hcon. cbn. rewrite lookup_insert_eq.
      by intros [?|?].
    + intros []. apply spec_ret. intros w' Hw'. done.
Qed.

Lemma switch_spec E S J J' next previous :
  (forall d, J d -> V d) -> (forall d, J d -> J (set_previous_of c d previous)) ->
  (forall d, J d -> exists_file d next = true -> J' (replace_link c d next)) ->
  (forall w, run V J S w -> E SwitchFailed w) ->
  spec E (run V J S) (switchVersionedBinary AgentPath SingBoxPath oracle c next previous) (fun _ => run V J' S).
Proof.
  intros HJ HP HN HE. unfold switchVersionedBinary.
  eapply spec_bind; [apply (spec_call _ E _ SwitchFailed (fun _ => run V J S)); auto|]. intros [].
  apply spec_get. intros w Hw. apply spec_case; intros Hex; [apply spec_fail; intros ? <-; by apply HE|].
  apply negb_false_iff in Hex. set (K := fun d => J d /\ exists_file d next = true).
  assert (HKV : forall d, K d -> V d) by (intros d [? _]; by apply HJ).
  assert (HKE : forall w, run V K S w -> E SwitchFailed w) by (intros w' Hw'; apply HE; eapply run_weaken; [|exact Hw']; by intros d [? _]).
  eapply spec_pre with (P := run V K S); [intros ? <-; destruct Hw as (Hp & Hj & Hs); by split_and!|].
  eapply spec_bind with (R := fun _ => run V K S).
  - apply spec_case; intros _; [by apply spec_ret|]. apply spec_write; [done|]. intros w'. apply run_write; [done|].
    intros d [H1 H2]. split; [by apply HP|]. by destruct c.
  - intros []. apply spec_write; [done|]. intros w'. apply run_write; [done|]. intros d [H1 H2]. by apply HN.
Qed.
(** What a replaced link keeps. *)
Lemma preserved_switch previous d next : replaceable previous -> preserved previous d -> preserved previous (replace_link c d next).
Proof.
  intros Hr (H1 & H2 & H3). split_and!; [|done|].
  - pose proof (previous_link_path _ Hr). destruct c; cbn; by rewrite lookup_delete_ne.
  - pose proof candidate_link_path. revert H3. unfold Updater.file_matches. destruct c; cbn; by rewrite lookup_delete_ne.
Qed.
Lemma preserved_quiet previous : quiet (preserved previous).
Proof. intros d ck. done. Qed.
Lemma preserved_previous previous d l : preserved previous d -> preserved previous (set_previous_of c d l).
Proof. by destruct c. Qed.
End switch.

(** *** Pruning *)
Lemma prune_stale E J S c keep :
  (forall d, J d -> V d) ->
  (forall d path, stale cwd InstallDir c keep path = true -> J d -> J (set_files d (delete path (d_files d)))) ->
  spec E (run V J S) (pruneReleaseDirs cwd InstallDir oracle c keep) (fun _ => run V J S).
Proof.
  intros HJ Hdel. unfold pruneReleaseDirs. apply spec_case; intros _; [by apply spec_ret|].
  apply spec_ask. intros a. apply spec_get. intros w Hw. apply spec_case; intros _; [apply spec_ret; by intros ? <-|].
  eapply spec_pre with (P := run V J S); [by intros ? <-|]. apply spec_each. intros path Hpath.
  apply list_elem_of_In, filter_In in Hpath as [_ Hs]. apply spec_ask. intros b. apply spec_case; intros _; [|by apply spec_ret].
  apply spec_modify. intros w'. apply run_write; [done|]. intros d. by apply Hdel.
Qed.

(** *** The service *)
Section service.
Context (J : disk -> Prop) (b : string) (Jb : forall d, J d -> d_sing_box d = b) (log0 : list event).
Definition later (l : list event) : Prop := exists l', l = log0 ++ l'.
(** The service manager gave one of these states since. *)
Definition seen (states : list string) (l : list event) : Prop :=
  exists l' s, l = log0 ++ l' /\ EvProbe (Some s) ∈ l' /\ s ∈ states.
Definition any : option string -> list event -> Prop := fun _ l => later l.
Definition serving (x : option string) : option string -> list event -> Prop := fun s l => s = x /\ later l.
Definition settled (x : option string) (states : list string) : option string -> list event -> Prop :=
  fun s l => s = x /\ seen states l.
(** How the commands fail: the disk is the same. *)
Definition failing (e : UpdateError) (w : world) : Prop :=
  match e with ServiceUncertain | ServiceFailed | NotActive | NotStopped => run V J any w | _ => False end.

Lemma later_app l l' : later l -> later (l ++ l').
Proof. intros [x ->]. exists (x ++ l'). by rewrite app_assoc. Qed.
Lemma run_any x w : run V J (serving x) w -> run V J any w.
Proof. intros (H1 & H2 & H3 & H4). by split_and!. Qed.

Lemma service_state_spec x E (Q : option string -> world -> Prop) :
  (forall s w, run V J (fun y l => y = x /\ later l /\ (forall t states, s = Some t -> t ∈ states -> seen states l)) w -> Q s w) ->
  spec E (run V J (serving x)) (serviceActiveState initSystem openrc_script oracle) Q.
Proof.
  intros HQ. apply spec_ask. intros a. eapply spec_bind.
  - apply spec_modify with (Q := fun _ => run V J (fun y l => y = x /\ later l /\
      (forall t states, observed initSystem openrc_script (a_call a) = Some t -> t ∈ states -> seen states l))).
    intros w (H1 & H2 & H3 & H4). split_and!; try done; [by apply later_app|]. cbn. intros t states Ht Hin.
    destruct H4 as [l' ->]. exists (l' ++ [EvProbe (Some t)]), t. rewrite Ht, <- app_assoc. split_and!; [done| |done].
    apply elem_of_app. right. by apply list_elem_of_singleton.
  - intros []. apply spec_ret. intros w. apply HQ.
Qed.
Lemma service_wait_spec x n : spec failing (run V J (serving x)) (wait initSystem openrc_script oracle n) (fun _ => run V J (settled x ["active"])).
Proof.
  induction n as [|n IH]; cbn; [apply spec_fail; intros w; apply run_any|].
  eapply spec_bind; [apply service_state_spec with (Q := fun s w => run V J (fun y l => y = x /\ later l /\ (s = Some "active"%string -> seen ["active"] l)) w)|].
  - intros s w (H1 & H2 & H3 & H4 & H5). split_and!; try done. intros ->. eapply H5; [done|]. by apply list_elem_of_singleton.
  - intros s. apply spec_case; intros Hs.
    + apply bool_decide_eq_true in Hs. apply spec_ret. intros w (H1 & H2 & H3 & H4 & H5). split; [done|split; [done|split; [done|by apply H5]]].
    + apply spec_ask. intros a. eapply spec_pre with (P := run V J (serving x)).
      { intros w (H1 & H2 & H3 & H4 & H5). by split_and!. }
      apply spec_case; intros _; [apply spec_fail; intros w; apply run_any|exact IH].
Qed.
Lemma command_spec S e f E (Q : answer -> world -> Prop) :
  (forall a w, run V J any w -> (ok a = true -> S (w_service w) (w_log w)) -> Q a w) ->
  (forall w, run V J any w -> run V J any (f w) /\ S (w_service (f w)) (w_log (f w))) ->
  spec E (run V J any) (command oracle e f) Q.
Proof.
  intros HQ Hf. apply spec_ask. intros a. eapply spec_bind.
  { apply spec_modify with (Q := fun _ => run V J any). intros w (H1 & H2 & H3). split_and!; try done. by apply later_app. }
  intros []. eapply spec_bind with (R := fun _ w => run V J any w /\ (ok a = true -> S (w_service w) (w_log w))).
  - apply spec_case; intros Ha.
    + apply spec_modify. intros w Hw. destruct (Hf w Hw). by split.
    + apply spec_ret. intros w Hw. split; [done|]. intros Ho. by rewrite Ho in Ha.
  - intros []. apply spec_ret. intros w [H1 H2]. by apply HQ.
Qed.
Lemma service_restart_spec : spec failing (run V J any) (restartService initSystem openrc_script oracle) (fun _ => run V J (serving (Some b))).
Proof.
  eapply spec_bind with (R := fun a w => run V J any w /\ (ok a = true -> serving (Some b) (w_service w) (w_log w))).
  - apply command_spec with (S := serving (Some b)); [by intros|]. intros w (H1 & H2 & H3). split; [by split_and!|].
    cbn. split; [f_equal; by apply Jb|done].
  - intros a. apply spec_case; intros _.
    + eapply spec_bind with (R := fun _ => run V J any); [|intros s; by apply spec_fail].
      apply spec_from. intros w [(H1 & H2 & H3) _].
      eapply spec_pre; [intros ? <-|apply (service_state_spec (w_service w)); intros s w' (H4 & H5 & _ & H6 & _); by split_and!].
      by split_and!.
    + apply spec_case; intros Ha; [|apply spec_fail; by intros w [Hw _]].
      apply spec_ret. intros w [(H1 & H2 & H3) H4]. split_and!; [done..|]. by apply H4.
Qed.
Lemma service_stop_spec : spec failing (run V J any) (stopService oracle) (fun _ => run V J (serving None)).
Proof.
  eapply spec_bind with (R := fun a w => run V J any w /\ (ok a = true -> serving None (w_service w) (w_log w))).
  - apply command_spec with (S := serving None); [by intros|]. intros w (H1 & H2 & H3). by split_and!.
  - intros a. apply spec_case; intros Ha; [|apply spec_fail; by intros w [Hw _]].
    apply spec_ret. intros w [(H1 & H2 & H3) H4]. split_and!; [done..|]. by apply H4.
Qed.
Definition goal_state (disabled : bool) : option string * list string := if disabled then (None, ["inactive"; "failed"]) else (Some b, ["active"]).
Lemma activate_spec disabled :
  spec failing (run V J any) (activate initSystem openrc_script attempts oracle disabled)
    (fun _ => run V J (settled (goal_state disabled).1 (goal_state disabled).2)).
Proof.
  destruct disabled; cbn.
  - eapply spec_bind; [apply service_stop_spec|]. intros [].
    eapply spec_bind with (R := fun (down : bool) w => run V J (fun y l => y = None /\ later l /\ (down = true -> seen ["inactive"; "failed"] l)) w).
    + eapply spec_bind; [apply service_state_spec with (Q := fun s w => run V J (fun y l => y = None /\ later l /\
        (forall t states, s = Some t -> t ∈ states -> seen states l)) w); done|].
      intros s. apply spec_ret. intros w (H1 & H2 & H3 & H4 & H5). split_and!; try done.
      intros [Hb|Hb]%orb_true_iff; apply bool_decide_eq_true in Hb; eapply H5; try exact Hb; [left|right; left].
    + intros [].
      * apply spec_ret. intros w (H1 & H2 & H3 & H4 & H5). split; [done|split; [done|split; [done|by apply H5]]].
      * apply spec_fail. intros w (H1 & H2 & H3 & H4 & H5). by split_and!.
  - eapply spec_bind; [apply service_restart_spec|]. intros []. apply service_wait_spec.
Qed.
End service.
End steps.

(** ** An update of sing-box *)
Section sing_box.
Context (cwd InstallDir AgentPath SingBoxPath opID : string) (initSystem : InitSystem) (openrc_script : bool)
  (IsValid : string -> bool) (Canonical : string -> string) (Compare : string -> string -> Z)
  (sha256hex : string -> string) (http_url : string -> bool) (grab : UpdateAsset -> nat -> option string)
  (attempts : nat) (oracle : nat -> answer).
Abbreviation file_matches := (file_matches sha256hex).
Abbreviation updateSingBox := (updateSingBox cwd InstallDir AgentPath SingBoxPath opID initSystem openrc_script
  IsValid Canonical Compare sha256hex http_url grab attempts oracle).

(** The link leads to the binary that was in use, byte for byte, or to one
    that has been verified. *)
Definition verified (c : part) (asset : UpdateAsset) (old : option string) (candidate : string) (d : disk) : Prop :=
  d_files d !! link_of c d = old \/ (link_of c d = candidate /\ file_matches d candidate asset = true).

Context (absolute : UpdateGuard.HasPrefix InstallDir "/" = true) (asset : UpdateAsset) (dir : string) (w0 : world)
  (Hcomponent : as_Component asset = "sing_box")
  (Hversion : safeVersionDir IsValid Canonical (as_Version asset) = Some dir).
Abbreviation candidate := (release_path InstallDir SingBoxPart dir).
Abbreviation l0 := (d_sing_box (w_disk w0)).
Abbreviation old := (d_files (w_disk w0) !! l0).
Context (Hd : distinct cwd InstallDir AgentPath SingBoxPath opID SingBoxPart l0 dir).
Abbreviation V := (verified SingBoxPart asset old candidate).
Abbreviation base := (base InstallDir opID SingBoxPart l0 old).
Abbreviation ready := (ready InstallDir opID sha256hex SingBoxPart l0 old dir asset).
Abbreviation preserved := (preserved InstallDir sha256hex SingBoxPart old dir asset).
Abbreviation replaceable := (replaceable cwd InstallDir opID SingBoxPart l0 dir).
Abbreviation before := (fun s l => s = w_service w0 /\ l = w_log w0).

Lemma base_verified d : base d -> V d.
Proof. intros (H1 & H2 & _). left. cbn in *. by rewrite H1. Qed.

Definition gave_up (e : UpdateError) (w : world) : Prop := early e /\ run V (fun d => d_sing_box d = l0 /\ V d) before w.
Lemma gave_up_base J e w : early e -> (forall d, J d -> base d) -> run V J before w -> gave_up e w.
Proof. intros He HJ Hw. split; [done|]. eapply run_weaken; [|exact Hw]. intros d Hj. split; [by destruct (HJ d Hj)|by apply base_verified, HJ]. Qed.

Lemma prepare_spec ck :
  spec gave_up (run V base before)
    (prepare_sing_box cwd InstallDir opID IsValid Canonical Compare sha256hex http_url grab oracle ck asset)
    (fun x w => let '(disabled, candidate', previous, ck') := x in
       candidate' = candidate /\ ck_SingBoxConfirmed ck' = ck_SingBoxConfirmed ck /\ replaceable previous /\
       run V (fun d => ready d /\ preserved previous d) before w).
Proof.
  assert (Hrb : forall d, ready d -> base d) by by intros d [? _].
  assert (HrV : forall d, ready d -> V d) by (intros d [? _]; by apply base_verified).
  assert (Hq : Quiet (run V ready before)) by (apply run_quiet; [done|apply ready_quiet]).
  assert (Hg : forall e w, early e -> run V ready before w -> gave_up e w) by (intros e w He; by apply gave_up_base).
  assert (Hgb : forall e w, early e -> run V base before w -> gave_up e w) by (intros e w He; by apply gave_up_base).
  unfold prepare_sing_box.
  eapply spec_bind; [apply (spec_boundary _ _ (run V base before)); intros e w [-> | ->]; by apply Hgb|]. intros [].
  eapply spec_bind.
  { apply spec_attempt with (F := gave_up) (Q := fun r => run V (fun d => r = candidate /\ ready d) before).
    eapply spec_weaken; [by intros w Hw; exact Hw| |eapply download_spec with (V := V) (c := SingBoxPart) (dir := dir) (J := base)].
    - intros r w. apply run_weaken. intros d (-> & H1 & H2). split; [done|]. split; [exact H1|exact H2].
    - by rewrite Hcomponent.
    - done.
    - intros d. apply base_verified.
    - apply base_quiet.
    - intros d contents. by eapply base_install.
    - intros e w. apply Hgb. }
  intros [r|e]; [|apply spec_normalize; by intros w [He Hw]].
  apply spec_pre with (P := fun w => run V ready before w /\ r = candidate).
  { intros w (H1 & [-> H2] & H3). by split_and!. }
  apply spec_pure. intros ->.
  eapply spec_bind; [apply spec_save; [done|]; intros w; by apply Hg|]. intros [].
  apply spec_ask. intros output. do 3 (apply spec_case; intros _; [apply spec_fail; intros w; by apply Hg|]).
  eapply spec_bind; [apply (spec_call _ _ _ _ (fun _ => run V ready before)); [intros w; by apply Hg|done]|]. intros [].
  eapply spec_bind; [apply spec_report; [done|]; intros e w [-> | ->]; by apply Hg|]. intros [].
  eapply spec_bind; [apply (spec_boundary _ _ (run V ready before)); intros e w [-> | ->]; by apply Hg|]. intros [].
  apply spec_ask. intros config. apply spec_case; intros _; [apply spec_fail; intros w; by apply Hg|].
  eapply spec_bind; [apply (spec_call _ _ _ _ (fun _ => run V ready before)); [intros w; by apply Hg|done]|]. intros [].
  eapply spec_bind.
  { eapply preserve_spec with (J := ready) (E := gave_up); try done.
    - intros d. by eapply ready_copy.
    - intros w. by apply Hg. }
  intros previous. apply spec_pre with (P := fun w => run V (fun d => ready d /\ preserved previous d) before w /\ replaceable previous).
  { by intros w [H1 H2]. }
  apply spec_pure. intros Hr.
  eapply spec_bind; [apply spec_save|].
  - apply run_quiet; [by intros d [? _]; apply HrV|]. intros d ck' [H1 H2]. by split; [apply ready_quiet|].
  - intros w Hw. apply Hg; [done|]. eapply run_weaken; [|exact Hw]. by intros d [? _].
  - intros []. by apply spec_ret.
Qed.

(** The link leads to the candidate, or back to the previous binary. *)
Definition at_candidate (previous : string) (d : disk) : Prop := d_sing_box d = candidate /\ preserved previous d.
Definition at_previous (previous : string) (d : disk) : Prop := d_sing_box d = previous /\ preserved previous d.
Definition confirmed_at (ck : updateCheckpoint) (d : disk) : Prop :=
  d_sing_box d = candidate /\ file_matches d candidate asset = true /\ d_checkpoint d = ck.
Abbreviation any := (any (w_log w0)).
Abbreviation settled := (settled (w_log w0)).
Definition heartbeat (disabled : bool) : event := EvHeartbeat (if disabled then "disabled" else "ok")%string.
Definition restored (disabled : bool) (previous : string) : option string -> list event -> Prop :=
  if disabled then serving (w_log w0) None else settled (Some previous) ["active"%string].

(** What each error says about the node. *)
Definition sing_box_failed (e : UpdateError) (w : world) : Prop :=
  match e with
  | RolledBack _ => exists disabled previous, replaceable previous /\ run V (at_previous previous) (restored disabled previous) w /\
                      ck_SingBoxRolledBack (w_memory w) = true
  | RollbackFailed _ => exists previous, replaceable previous /\ run V (fun d => at_candidate previous d \/ at_previous previous d) any w
  | ServiceUncertain => exists previous, replaceable previous /\ run V (at_candidate previous) any w
  | SaveFailed => gave_up SaveFailed w \/ exists previous, replaceable previous /\ run V (at_candidate previous) any w
  | _ => gave_up e w
  end.
Definition sing_box_updated (ck : updateCheckpoint) (w : world) : Prop :=
  exists disabled, let goal := goal_state candidate disabled in ck_SingBoxConfirmed ck = true /\
    run V (confirmed_at ck) (fun s l => settled goal.1 goal.2 s l /\ last l = Some (heartbeat disabled)) w.

Lemma at_candidate_verified previous d : at_candidate previous d -> V d.
Proof. intros (H1 & _ & _ & H2). by right. Qed.
Lemma at_previous_verified previous d : at_previous previous d -> V d.
Proof. intros (H1 & H2 & _). left. cbn. by rewrite H1. Qed.
Lemma before_any J w : run V J before w -> run V J any w.
Proof. intros (H1 & H2 & _ & H3). split_and!; [done..|]. exists []. by rewrite app_nil_r. Qed.
Lemma settled_any x states J w : run V J (settled x states) w -> run V J any w.
Proof. intros (H1 & H2 & _ & l & s & H3 & _). split_and!; [done..|]. by exists l. Qed.
Lemma serving_any x J w : run V J (serving (w_log w0) x) w -> run V J any w.
Proof. apply run_any. Qed.

Lemma roll_back_spec disabled previous :
  replaceable previous ->
  spec (fun _ w => run V (fun d => at_candidate previous d \/ at_previous previous d) any w) (run V (at_candidate previous) any)
    (roll_back_sing_box AgentPath SingBoxPath initSystem openrc_script attempts oracle disabled candidate previous)
    (fun _ => run V (at_previous previous) (restored disabled previous)).
Proof.
  intros Hr. unfold roll_back_sing_box.
  assert (Hfail : forall e w, failing V (at_previous previous) (w_log w0) e w -> run V (fun d => at_candidate previous d \/ at_previous previous d) any w).
  { intros e w H. destruct e; try done; (eapply run_weaken; [|exact H]; intros d ?; by right). }
  eapply spec_bind with (R := fun _ => run V (at_previous previous) any).
  - apply switch_spec with (J := at_candidate previous).
    + apply at_candidate_verified.
    + by intros d [H1 H2].
    + intros d [H1 H2] _. split; [done|]. by eapply preserved_switch.
    + intros w. apply run_weaken. intros d ?. by left.
  - intros []. unfold restored. destruct disabled.
    + eapply spec_error; [exact Hfail|apply service_stop_spec].
    + eapply spec_error; [exact Hfail|]. eapply spec_bind; [apply service_restart_spec; by intros d [H1 _]|]. intros [].
      apply service_wait_spec.
Qed.

Lemma prune_spec J S E keep :
  (forall d, J d -> V d) -> candidate ∈ keep ->
  (forall d path, path <> candidate -> J d -> J (set_files d (delete path (d_files d)))) ->
  spec E (run V J S) (pruneReleaseDirs cwd InstallDir oracle SingBoxPart keep) (fun _ => run V J S).
Proof.
  intros HJ Hin Hdel. apply prune_stale; [done|]. intros d path Hs. apply Hdel. intros ->.
  by rewrite kept_release in Hs by (done || apply Hd).
Qed.

Lemma failing_any J e w : failing V J (w_log w0) e w -> run V J any w.
Proof. by destruct e. Qed.
(** A failed activation, but for an uncertain one. *)
Lemma recover_spec disabled previous ck e :
  replaceable previous ->
  spec sing_box_failed (run V (at_candidate previous) any)
    (rb ← attempt (roll_back_sing_box AgentPath SingBoxPath initSystem openrc_script attempts oracle disabled candidate previous);
     attempt (saveUpdateCheckpoint oracle (with_rolled_back ck (match rb with Ok _ => true | Err _ => false end)));;
     fail (match rb with Ok _ => RolledBack e | Err _ => RollbackFailed e end) : M updateCheckpoint)
    sing_box_updated.
Proof.
  intros Hr. eapply spec_bind; [apply spec_attempt, roll_back_spec, Hr|]. intros [x|e'].
  - eapply spec_bind; [apply spec_attempt_save, run_quiet; [apply at_previous_verified|by intros d ck' [? ?]]|].
    intros _'. apply spec_fail. intros w [Hw Hm]. exists disabled, previous. split_and!; [apply Hr..|exact Hw|]. by rewrite Hm.
  - eapply spec_bind; [apply spec_attempt_save, run_quiet|].
    + intros d [H|H]; [by eapply at_candidate_verified|by eapply at_previous_verified].
    + intros d ck' [H|H]; [by left|by right].
    + intros _'. apply spec_fail. intros w [Hw _]. by exists previous.
Qed.
Lemma spec_confirm previous S ck :
  (forall w, run V (at_candidate previous) S w -> sing_box_failed SaveFailed w) ->
  spec sing_box_failed (run V (at_candidate previous) S) (saveUpdateCheckpoint oracle ck) (fun _ => run V (confirmed_at ck) S).
Proof.
  intros HE. eapply spec_bind.
  { apply spec_modify with (Q := fun _ w => run V (at_candidate previous) S w /\ w_memory w = ck). intros w Hw. by split. }
  intros []. apply spec_get. intros w [Hw Hm]. apply spec_write; intros ? <-; [by apply HE|].
  eapply run_write; [apply at_candidate_verified| |exact Hw]. intros d (H1 & _ & _ & H2). by split_and!.
Qed.
Lemma finish_spec disabled previous ck :
  replaceable previous -> ck_SingBoxCandidate ck = candidate ->
  spec sing_box_failed (run V (at_candidate previous) before)
    (finish_sing_box cwd InstallDir AgentPath SingBoxPath initSystem openrc_script attempts oracle disabled candidate previous ck)
    sing_box_updated.
Proof.
  intros Hr Hck. unfold finish_sing_box. eapply spec_bind.
  { eapply spec_pre; [apply before_any|]. eapply spec_attempt, activate_spec. by intros d [? _]. }
  intros [x|e].
  - clear x. set (goal := goal_state candidate disabled). set (ck' := ck_sing_box _ _ _ _ _ _).
    eapply spec_bind; [apply spec_confirm|].
    { intros w Hw. right. exists previous. split; [done|]. by eapply settled_any. }
    intros []. eapply spec_bind; [apply prune_spec; [by intros d (? & ? & _); right|by left|]|].
    { intros d path Hp (H1 & H2 & H3). split_and!; [done| |done]. revert H2. unfold Updater.file_matches. cbn. by rewrite lookup_delete_ne. }
    intros []. apply spec_ask. intros _'. eapply spec_bind.
    { apply spec_modify with (Q := fun _ => run V (confirmed_at ck') (fun s l => settled goal.1 goal.2 s l /\ last l = Some (heartbeat disabled))).
      intros w (H1 & H2 & H3 & l & s & H4 & H5 & H6). split; [done|]. split; [done|]. split; [|cbn; by rewrite last_snoc].
      split; [done|]. exists (l ++ [heartbeat disabled]), s. split_and!; [cbn; by rewrite H4, app_assoc| |done].
      apply elem_of_app. by left. }
    intros []. apply spec_ret. intros w Hw. by exists disabled.
  - destruct e; try (by intros [w n] []); try (eapply spec_pre; [apply failing_any|by apply recover_spec]).
    apply spec_fail. intros w Hw. by exists previous.
Qed.
Lemma updateSingBox_spec ck :
  ck_SingBoxConfirmed ck = false -> spec sing_box_failed (run V base before) (updateSingBox ck asset) sing_box_updated.
Proof.
  intros Hck. unfold Updater.updateSingBox. rewrite Hck.
  assert (Hgave : forall e w, gave_up e w -> sing_box_failed e w) by (intros e w H; destruct e; try done; solve [by left|by destruct H]).
  eapply spec_bind; [eapply spec_error; [exact Hgave|apply prepare_spec]|]. intros [[[disabled candidate'] previous] ck'].
  apply spec_from. intros w (-> & Hc & Hr & Hw). eapply spec_pre with (P := run V (fun d => ready d /\ preserved previous d) before); [by intros ? <-|].
  eapply spec_bind with (R := fun _ => run V (at_candidate previous) before).
  - apply switch_spec.
    + intros d [[H _] _]. by apply base_verified.
    + by intros d [[[H1 [H2 H3]] H4] H5].
    + intros d [_ H] _. split; [done|]. by eapply preserved_switch.
    + intros w' Hw'. apply Hgave. eapply gave_up_base; [done| |exact Hw']. by intros d [[H _] _].
  - intros []. eapply spec_bind; [apply spec_save|].
    + apply run_quiet; [apply at_candidate_verified|by intros d ? [? ?]].
    + intros w' Hw'. right. exists previous. split; [done|]. by apply before_any.
    + intros []. by apply finish_spec.
Qed.

(** What the run leaves, spelt out. *)
Definition all_verified (w : world) : Prop :=
  forall d, d ∈ w_past w ++ [w_disk w] -> d_files d !! d_sing_box d = old \/ (d_sing_box d = candidate /\ file_matches d candidate asset = true).
Lemma run_verified J S w : (forall d, J d -> V d) -> run V J S w -> all_verified w.
Proof. intros HJ Hw d Hin. exact (proj1 (Forall_forall _ _) (run_all V J S w HJ Hw) d Hin). Qed.
Lemma gave_up_facts e w : gave_up e w -> all_verified w /\ d_sing_box (w_disk w) = l0 /\ w_service w = w_service w0.
Proof.
  intros [_ Hw]. split; [eapply run_verified; [|exact Hw]; by intros d [_ H]|]. by destruct Hw as (_ & [H2 _] & H3 & _).
Qed.
Definition after_failure (e : UpdateError) (w : world) : Prop :=
  match e with
  | RolledBack _ => exists disabled : bool,
      d_files (w_disk w) !! d_sing_box (w_disk w) = old /\
      w_service w = (if disabled then None else Some (d_sing_box (w_disk w))) /\
      ck_SingBoxRolledBack (w_memory w) = true
  | SaveFailed | ServiceUncertain | RollbackFailed _ => True
  | _ => d_sing_box (w_disk w) = l0 /\ w_service w = w_service w0
  end.
Lemma sing_box_failed_facts e w : sing_box_failed e w -> all_verified w /\ after_failure e w.
Proof.
  assert (Hat : forall previous w, run V (at_candidate previous) any w -> all_verified w).
  { intros previous w'. apply run_verified, at_candidate_verified. }
  destruct e; try (intros H; exact (gave_up_facts _ _ H)); cbn.
  - intros [H|(previous & _ & H)]; [by apply gave_up_facts in H as [H _]|by apply Hat in H].
  - intros (previous & _ & H). by apply Hat in H.
  - intros (disabled & previous & Hr & Hw & Hck). split; [eapply run_verified; [apply at_previous_verified|exact Hw]|].
    destruct Hw as (_ & (H1 & H2 & _) & H3). exists disabled. rewrite H1. split_and!; [done| |done].
    unfold restored in H3. destruct disabled; by destruct H3 as [H3 _].
  - intros (previous & _ & H). split; [|done]. eapply run_verified; [|exact H].
    intros d [Hx|Hx]; [by eapply at_candidate_verified|by eapply at_previous_verified].
Qed.
Lemma sing_box_updated_facts ck w :
  sing_box_updated ck w -> all_verified w /\ exists disabled : bool,
    d_sing_box (w_disk w) = candidate /\ file_matches (w_disk w) candidate asset = true /\
    ck_SingBoxConfirmed (d_checkpoint (w_disk w)) = true /\ w_service w = (if disabled then None else Some candidate) /\
    seen (w_log w0) (if disabled then ["inactive"; "failed"] else ["active"]) (w_log w) /\ last (w_log w) = Some (heartbeat disabled).
Proof.
  intros (disabled & Hck & Hw). split; [eapply run_verified; [|exact Hw]; by intros d (H1 & H2 & _); right|].
  destruct Hw as (_ & (H1 & H2 & H3) & [H4 H5] & H6). exists disabled. rewrite H3. split_and!; try done; by destruct disabled.
Qed.
End sing_box.

Lemma part_of_sing_box s : componentDir s = Some SingBoxPart -> s = "sing_box"%string.
Proof.
  unfold componentDir. destruct (s =? "agent")%string; [done|]. destruct (s =? "sing_box")%string eqn:E; [|done].
  intros _. by apply String.eqb_eq.
Qed.
Lemma part_of_agent s : componentDir s = Some AgentPart -> s = "agent"%string.
Proof.
  unfold componentDir. destruct (s =? "agent")%string eqn:E; [intros _; by apply String.eqb_eq|]. by destruct (s =? "sing_box")%string.
Qed.

(** ** An update of the agent *)
Section agent.
Context (cwd InstallDir AgentPath SingBoxPath opID Version : string)
  (IsValid : string -> bool) (Canonical : string -> string) (Compare : string -> string -> Z)
  (sha256hex : string -> string) (http_url : string -> bool) (grab : UpdateAsset -> nat -> option string)
  (oracle : nat -> answer).
Abbreviation file_matches := (file_matches sha256hex).
Abbreviation updateAgent := (updateAgent cwd InstallDir AgentPath SingBoxPath opID Version
  IsValid Canonical Compare sha256hex http_url grab oracle).

Context (absolute : UpdateGuard.HasPrefix InstallDir "/" = true) (asset : UpdateAsset) (dir : string) (w0 : world)
  (Hcomponent : as_Component asset = "agent")
  (Hversion : safeVersionDir IsValid Canonical (as_Version asset) = Some dir).
Abbreviation candidate := (release_path InstallDir AgentPart dir).
Abbreviation l0 := (d_agent (w_disk w0)).
Abbreviation old := (d_files (w_disk w0) !! l0).
Context (Hd : distinct cwd InstallDir AgentPath SingBoxPath opID AgentPart l0 dir).
Abbreviation base := (base InstallDir opID AgentPart l0 old).
Abbreviation ready := (ready InstallDir opID sha256hex AgentPart l0 old dir asset).
Abbreviation preserved := (preserved InstallDir sha256hex AgentPart old dir asset).
Abbreviation replaceable := (replaceable cwd InstallDir opID AgentPart l0 dir).
Abbreviation before := (fun s l => s = w_service w0 /\ l = w_log w0).

(** The guard is set to bring [previous] back. *)
Definition armed (previous : string) (d : disk) : Prop :=
  exists st, d_guard d = Some st /\ gs_Status st = "pending" /\ gs_OperationID st = opID /\ gs_Attempts st = 0%Z /\
    gs_ExpectedVersion st = as_Version asset /\ gs_PreviousTarget st = previous /\ gs_CandidateTarget st = candidate.
Definition guarded (d : disk) : Prop :=
  d_agent d = candidate /\ exists previous, replaceable previous /\ preserved previous d /\ armed previous d /\ is_Some (d_guard_binary d).
Definition agent_safe (d : disk) : Prop := d_files d !! d_agent d = old \/ guarded d.
Abbreviation V := agent_safe.
Definition stopped (e : UpdateError) (w : world) : Prop := run V (fun _ => True) before w /\ V (w_disk w).

Lemma base_safe d : base d -> V d.
Proof. intros (H1 & H2 & _). left. cbn in *. by rewrite H1. Qed.
Lemma stopped_at J e w : (forall d, J d -> V d) -> run V J before w -> stopped e w.
Proof. intros HJ (H1 & H2 & H3). split; [split; [done|]; by split|by apply HJ]. Qed.
Lemma guard_spec E J S :
  (forall d, J d -> V d) -> (forall d b, J d -> J (set_binary_of_guard d (Some b))) -> (forall w, run V J S w -> E GuardFailed w) ->
  spec E (run V J S) (ensureAgentGuardBinary oracle) (fun _ => run V (fun d => J d /\ is_Some (d_guard_binary d)) S).
Proof.
  intros HJ HB HE. unfold ensureAgentGuardBinary.
  eapply spec_bind; [apply (spec_call _ _ (run V J S) _ (fun _ => run V J S)); auto|]. intros [].
  apply spec_get. intros w Hw. destruct (d_guard_binary (w_disk w)) eqn:Eb.
  - apply spec_ret. intros ? <-. destruct Hw as (H1 & H2 & H3). split_and!; try done.
  - destruct (d_files (w_disk w) !! d_agent (w_disk w)); [|apply spec_fail; intros ? <-; by apply HE].
    apply spec_write; intros ? <-; [by apply HE|]. eapply run_write; [exact HJ| |exact Hw]. intros d Hj. split; [by apply HB|done].
Qed.
Lemma arm_spec E J S previous :
  (forall d, J d -> V d) -> (forall d g, J d -> J (set_update_guard d g)) -> (forall w, run V J S w -> E GuardFailed w) ->
  spec E (run V J S)
    (writeAgentUpdateGuard oracle {| gs_OperationID := opID; gs_ExpectedVersion := as_Version asset; gs_PreviousTarget := previous;
       gs_CandidateTarget := candidate; gs_Status := "pending"; gs_Attempts := 0%Z; gs_Deadline := ""; gs_Error := "" |})
    (fun _ => run V (fun d => J d /\ armed previous d) S).
Proof.
  intros HJ HG HE. apply spec_ask. intros a. apply spec_case; intros _; [|by apply spec_fail].
  apply spec_modify. intros w. apply run_write; [exact HJ|]. intros d Hj. split; [by apply HG|]. by eexists.
Qed.

Lemma install_agent_spec previous ck :
  replaceable previous ->
  spec stopped (run V (fun d => (ready d /\ preserved previous d) /\ is_Some (d_guard_binary d)) before)
    (writeAgentUpdateGuard oracle {| gs_OperationID := opID; gs_ExpectedVersion := as_Version asset; gs_PreviousTarget := previous;
       gs_CandidateTarget := candidate; gs_Status := "pending"; gs_Attempts := 0%Z; gs_Deadline := ""; gs_Error := "" |};;
     switchVersionedBinary AgentPath SingBoxPath oracle AgentPart candidate previous;;
     saveUpdateCheckpoint oracle ck;;
     attempt (report oracle);;
     mret (true, ck) : M (bool * updateCheckpoint))
    (fun x => run V (fun d => if x.1 then guarded d else base d) before).
Proof.
  intros Hr. set (K := fun d => (ready d /\ preserved previous d) /\ is_Some (d_guard_binary d)).
  assert (HKV : forall d, K d -> V d) by (intros d [[[H _] _] _]; by apply base_safe).
  assert (Hq : Quiet (run V guarded before)).
  { apply run_quiet; [by right|]. intros d ck' (H1 & p & H2 & H3 & H4 & H5). split; [done|]. by exists p. }
  eapply spec_bind.
  { apply arm_spec with (J := K); [done| |intros w; by apply stopped_at].
    intros d g [[[(H1 & H2 & H3) H4] H5] H6]. by split_and!. }
  intros []. eapply spec_bind with (R := fun _ => run V guarded before).
  - apply switch_spec.
    + intros d [H _]. by apply HKV.
    + intros d [[[[(H1 & H2 & H3) H4] H5] H6] H7]. by split_and!.
    + intros d [[[H1 H2] H3] H4] _. split; [done|]. exists previous. split_and!; [apply Hr..| |done|done]. by eapply preserved_switch.
    + intros w Hw. eapply stopped_at; [|exact Hw]. intros d [H _]. by apply HKV.
  - intros []. eapply spec_bind; [apply spec_save; [done|]; intros w; apply stopped_at; by right|]. intros [].
    eapply spec_bind with (R := fun _ => run V guarded before).
    + eapply spec_weaken with (Q := fun r w => match r with Ok _ => run V guarded before w | Err _ => run V guarded before w end);
        [by intros w Hw; exact Hw|by intros [|]|]. apply spec_attempt. by apply spec_report.
    + intros _'. by apply spec_ret.
Qed.
Lemma base_binary_of_guard d b : base d -> base (set_binary_of_guard d b).
Proof. done. Qed.
Lemma updateAgent_spec ck :
  spec stopped (run V base before) (updateAgent ck asset) (fun x => run V (fun d => if x.1 then guarded d else base d) before).
Proof.
  assert (HrV : forall d, ready d -> V d) by (intros d [? _]; by apply base_safe).
  assert (Hq : Quiet (run V base before)) by (apply run_quiet; [apply base_safe|apply base_quiet]).
  assert (Hqr : Quiet (run V ready before)) by (apply run_quiet; [done|apply ready_quiet]).
  assert (Hg : forall e w, run V ready before w -> stopped e w) by (intros e w; by apply stopped_at).
  assert (Hgb : forall e w, run V base before w -> stopped e w) by (intros e w; apply stopped_at, base_safe).
  unfold Updater.updateAgent.
  eapply spec_bind with (R := fun _ => run V base before).
  { eapply spec_bind; [apply (spec_call _ _ (run V base before) _ (fun _ => run V base before)); auto|].
    intros []. apply spec_get. intros w Hw. apply spec_ret. by intros ? <-. }
  intros guard. apply spec_case; intros _.
  { apply spec_ask. intros a. eapply spec_bind with (R := fun _ => run V base before); [|intros []; apply spec_fail; auto].
    apply spec_case; intros _; [|by apply spec_ret]. apply spec_modify. intros w. apply run_write; [apply base_safe|done]. }
  apply spec_case; intros _.
  { do 2 (apply spec_case; intros _; [apply spec_fail; auto|]).
    eapply spec_bind; [apply spec_save; auto|]. intros []. eapply spec_bind; [apply spec_report; auto|]. intros []. by apply spec_ret. }
  apply spec_case; intros _; [eapply spec_bind; [apply spec_save; auto|]; intros []; by apply spec_ret|].
  eapply spec_bind; [apply spec_boundary; auto|]. intros [].
  eapply spec_bind.
  { apply spec_attempt with (F := stopped) (Q := fun r => run V (fun d => r = candidate /\ ready d) before).
    eapply spec_weaken; [by intros w Hw; exact Hw| |eapply download_spec with (V := V) (c := AgentPart) (dir := dir) (J := base)].
    - intros r w. apply run_weaken. intros d (-> & H1 & H2). split; [done|]. split; [exact H1|exact H2].
    - by rewrite Hcomponent.
    - done.
    - intros d. apply base_safe.
    - apply base_quiet.
    - intros d contents. by eapply base_install.
    - intros e w _. apply Hgb. }
  intros [r|e]; [|apply spec_normalize; intros w Hw; by split].
  apply spec_pre with (P := fun w => run V ready before w /\ r = candidate).
  { intros w (H1 & [-> H2] & H3). by split_and!. }
  apply spec_pure. intros ->.
  eapply spec_bind; [apply spec_save; auto|]. intros [].
  apply spec_ask. intros output. do 2 (apply spec_case; intros _; [apply spec_fail; auto|]).
  eapply spec_bind; [apply spec_report; auto|]. intros [].
  eapply spec_bind; [apply spec_boundary; auto|]. intros [].
  eapply spec_bind; [apply guard_spec with (J := ready); auto|]. intros [].
  set (K := fun d => ready d /\ is_Some (d_guard_binary d)).
  assert (HKV : forall d, K d -> V d) by (intros d [? _]; by apply HrV).
  eapply spec_bind.
  { eapply preserve_spec with (J := K) (E := stopped); try done.
    - by intros d [? _].
    - intros d [H1 H2]. split; [by eapply ready_copy|]. revert H2. unfold copy_file. by destruct (d_files d !! l0).
    - intros w. by apply stopped_at. }
  intros previous. apply spec_pre with (P := fun w => run V (fun d => (ready d /\ preserved previous d) /\ is_Some (d_guard_binary d)) before w /\ replaceable previous).
  { intros w [H1 H2]. split; [|done]. eapply run_weaken; [|exact H2]. by intros d [[? ?] ?]. }
  apply spec_pure. intros Hr.
  eapply spec_bind; [apply spec_save|].
  - apply run_quiet; [by intros d [[? _] _]; apply HrV|]. intros d ck' [[H1 H2] H3]. split; [|done]. by split; [apply ready_quiet|].
  - intros w. apply stopped_at. by intros d [[? _] _]; apply HrV.
  - intros []. by apply install_agent_spec.
Qed.
End agent.

(** ** Starts of an agent that does not confirm *)
#[local] Open Scope Z_scope.
Section starts.
Context (cwd InstallDir : string) (serviceFiles : list serviceFile).
Abbreviation RunAgentGuard := (RunAgentGuard cwd InstallDir serviceFiles).

(** The guard runs before each start of the service. *)
Definition guard_starts (times : list Time) (d : UpdateGuard.disk) : UpdateGuard.disk :=
  fold_left (fun d now => (RunAgentGuard no_faults now d).1) times d.

Context (previous candidate : string) (files : gset string)
  (Hprevious : validateGuardTarget cwd InstallDir previous = true) (Hcandidate : validateGuardTarget cwd InstallDir candidate = true)
  (Hin : previous ∈ files) (Hinc : candidate ∈ files) (Hne : candidate <> previous).
Definition own_backup (d : UpdateGuard.disk) : Prop :=
  forall l, backup d = Some l -> map sf_Path l = map sf_Path serviceFiles.
Definition came_back (d : UpdateGuard.disk) : Prop :=
  agent_link d = previous /\ backup d = None /\ exists st, guard_file d = Some st /\ gs_Status st = "rolled_back".
Definition counting (n : Z) (d : UpdateGuard.disk) : Prop :=
  agent_link d = candidate /\ installed d = files /\ own_backup d /\
  exists st, pending_state d st /\ gs_PreviousTarget st = previous /\ gs_CandidateTarget st = candidate /\ gs_Attempts st = n.

Lemma start_came_back now d : came_back d -> came_back (RunAgentGuard no_faults now d).1.
Proof.
  intros (H1 & H2 & st & H3 & H4). destruct (RunAgentGuard no_faults now d) as [d' ok] eqn:E.
  apply RunAgentGuard_idle in E as ->; [by split_and!; [..|exists st]|].
  right. exists st. split_and!; [done| |done]. by rewrite H4.
Qed.
Lemma start_counting now n d :
  0 <= n < 3 -> counting n d ->
  came_back (RunAgentGuard no_faults now d).1 \/ (n < 2 /\ counting (n + 1) (RunAgentGuard no_faults now d).1).
Proof.
  intros Hn (H1 & H2 & H3 & st & Hst & H4 & H5 & H6).
  assert (Hback : gs_Attempts st = maxAgentGuardStarts - 1 \/ deadline_passed now (gs_Deadline st) = true -> came_back (RunAgentGuard no_faults now d).1).
  { intros Hwhen. destruct (guard_rolls_back cwd InstallDir serviceFiles now d st) as (d' & st' & -> & E1 & E2 & E3 & E4 & _);
      rewrite ?H1, ?H2, ?H4, ?H5; try done; [tauto|].
    cbn. split_and!; [by rewrite E1|done|by exists st']. }
  destruct (deadline_passed now (gs_Deadline st)) eqn:Ed; [left; by apply Hback; right|].
  destruct (decide (n = 2)) as [->|Hn2]; [left; by apply Hback; left|].
  right. split; [lia|]. destruct Hst as [Hg Hp]. unfold UpdateGuard.RunAgentGuard, UpdateGuard.loadAgentUpdateGuard. cbn [f_load no_faults].
  rewrite Hg, Hp. cbn [String.eqb Ascii.eqb Bool.eqb negb]. rewrite H4, H5, Hprevious, Hcandidate, H1, H2. cbn [negb].
  rewrite bool_decide_true by done. cbn [negb]. apply String.eqb_neq in Hne. rewrite Hne.
  assert (Ha : wrap64 (gs_Attempts st + 1) = n + 1) by (rewrite H6; apply wrap64_id; unfold int64_ok, int64_min, int64_max; lia).
  cbn [with_attempts gs_Attempts gs_Deadline]. rewrite Ha, Ed. assert (Hlt : (n + 1 <? maxAgentGuardStarts) = true) by (unfold maxAgentGuardStarts; lia).
  rewrite Hlt. cbn. split_and!; try done. eexists. split_and!; [split; [done|cbn; by rewrite Hp]|done..].
Qed.
(** Three starts are enough. *)
Lemma three_starts t1 t2 t3 d : counting 0 d -> came_back (guard_starts [t1; t2; t3] d).
Proof.
  intros H. cbn [guard_starts fold_left].
  destruct (start_counting t1 0 d ltac:(lia) H) as [H1|[_ H1]]; [by do 2 apply start_came_back|].
  destruct (start_counting t2 (0 + 1) _ ltac:(lia) H1) as [H2|[_ H2]]; [by apply start_came_back|].
  destruct (start_counting t3 (0 + 1 + 1) _ ltac:(lia) H2) as [H3|[H3 _]]; [done|lia].
Qed.
End starts.

(** ** Resuming a sing-box update whose link was switched already *)
Section resumed.
Context (cwd InstallDir AgentPath SingBoxPath opID : string) (initSystem : InitSystem) (openrc_script : bool)
  (IsValid : string -> bool) (Canonical : string -> string) (Compare : string -> string -> Z)
  (sha256hex : string -> string) (http_url : string -> bool) (grab : UpdateAsset -> nat -> option string)
  (attempts : nat) (oracle : nat -> answer).
Context (absolute : UpdateGuard.HasPrefix InstallDir "/" = true) (asset : UpdateAsset) (dir : string)
  (Hcomponent : as_Component asset = "sing_box")
  (Hversion : safeVersionDir IsValid Canonical (as_Version asset) = Some dir) (Hdir : plain dir).
Context (log0 : list event).
Abbreviation candidate := (release_path InstallDir SingBoxPart dir).
Definition at_new (d : disk) : Prop := d_sing_box d = candidate.
Abbreviation V := (fun _ : disk => True).
Abbreviation stays := (run V at_new (any log0)).
Definition anyhow (e : UpdateError) (w : world) : Prop := stays w.

Lemma stays_weaken J S w : (forall d, J d -> at_new d) -> (forall s l, S s l -> later log0 l) -> run V J S w -> stays w.
Proof. intros HJ HS (H1 & H2 & H3). split; [done|]. split; [by apply HJ|by eapply HS]. Qed.
Lemma failing_stays e w : failing V at_new log0 e w -> stays w.
Proof. by destruct e. Qed.
Lemma resumed_prepare ck :
  spec anyhow stays
    (prepare_sing_box cwd InstallDir opID IsValid Canonical Compare sha256hex http_url grab oracle ck asset)
    (fun x w => x.1.1.2 = candidate /\ x.1.2 = candidate /\ stays w).
Proof.
  assert (Hq : Quiet stays) by (apply run_quiet; [done|by intros d]).
  assert (Hg : forall e w, stays w -> anyhow e w) by done.
  assert (Hcall : forall e, spec anyhow stays (call oracle e) (fun _ => stays)) by (intros e; by apply spec_call).
  unfold prepare_sing_box. eapply spec_bind; [by apply spec_boundary|]. intros [].
  eapply spec_bind.
  { apply spec_attempt with (F := anyhow) (Q := fun r => run V (fun d => r = candidate /\ at_new d) (any log0)).
    eapply spec_weaken; [by intros w Hw; exact Hw| |eapply download_spec with (V := V) (c := SingBoxPart) (dir := dir) (J := at_new)].
    - intros r w. apply run_weaken. by intros d (-> & H1 & _).
    - by rewrite Hcomponent.
    - done.
    - done.
    - by intros d.
    - by intros d.
    - by intros e w _. }
  intros [r|e]; [|by apply spec_normalize].
  apply spec_pre with (P := fun w => stays w /\ r = candidate); [by intros w (H1 & [-> H2] & H3)|]. apply spec_pure. intros ->.
  eapply spec_bind; [by apply spec_save|]. intros [].
  apply spec_ask. intros output. do 3 (apply spec_case; intros _; [by apply spec_fail|]).
  eapply spec_bind; [by apply Hcall|]. intros [].
  eapply spec_bind; [by apply spec_report|]. intros [].
  eapply spec_bind; [by apply spec_boundary|]. intros [].
  apply spec_ask. intros config. apply spec_case; intros _; [by apply spec_fail|].
  eapply spec_bind; [by apply Hcall|]. intros [].
  eapply spec_bind with (R := fun r w => stays w /\ r = candidate).
  { unfold preserveCurrentBinary. eapply spec_bind; [by apply Hcall|]. intros []. apply spec_get. intros w Hw.
    pose proof Hw as (_ & Hj & _). cbn. rewrite Hj. apply spec_case; intros _; [apply spec_fail; by intros ? <-|].
    rewrite release_path_within by done. apply spec_ret. by intros ? <-. }
  intros previous. apply spec_pure. intros ->. eapply spec_bind; [by apply spec_save|]. intros []. by apply spec_ret.
Qed.
Lemma resumed_switch : spec anyhow stays (switchVersionedBinary AgentPath SingBoxPath oracle SingBoxPart candidate candidate) (fun _ => stays).
Proof. by apply switch_spec. Qed.
Lemma resumed_updateSingBox ck :
  spec anyhow stays (updateSingBox cwd InstallDir AgentPath SingBoxPath opID initSystem openrc_script
    IsValid Canonical Compare sha256hex http_url grab attempts oracle ck asset) (fun _ => stays).
Proof.
  assert (Hq : Quiet stays) by (apply run_quiet; [done|by intros d]).
  assert (Hb : forall d, at_new d -> d_sing_box d = candidate) by done.
  unfold Updater.updateSingBox. apply spec_case; intros _; [by apply spec_ret|].
  eapply spec_bind; [apply resumed_prepare|]. intros [[[disabled candidate'] previous] ck']. cbn.
  eapply spec_pre with (P := fun w => stays w /\ (candidate' = candidate /\ previous = candidate)); [by intros w (H1 & H2 & H3)|].
  apply spec_pure. intros [-> ->].
  eapply spec_bind; [apply resumed_switch|]. intros []. eapply spec_bind; [by apply spec_save|]. intros [].
  unfold finish_sing_box. eapply spec_bind; [eapply spec_attempt, activate_spec, Hb|]. intros [x|e].
  - eapply spec_pre with (P := stays); [intros w; by apply stays_weaken; [|intros s l [_ (l' & ? & -> & _)]; exists l']|].
    eapply spec_bind; [by apply spec_save|]. intros [].
    eapply spec_bind; [by apply prune_stale|]. intros []. apply spec_ask. intros _'.
    eapply spec_bind with (R := fun _ => stays); [|intros []; by apply spec_ret].
    apply spec_modify. intros w (H1 & H2 & H3). split; [done|]. split; [done|by apply later_app].
  - assert (Hrb : spec anyhow stays (roll_back_sing_box AgentPath SingBoxPath initSystem openrc_script attempts oracle disabled candidate candidate) (fun _ => stays)).
    { unfold roll_back_sing_box. eapply spec_bind; [apply resumed_switch|]. intros [].
      eapply spec_error with (E := failing V at_new log0); [apply failing_stays|]. destruct disabled.
      - eapply spec_weaken; [by intros w Hw; exact Hw| |by apply service_stop_spec]. intros _' w. by apply run_any.
      - eapply spec_bind; [apply service_restart_spec, Hb|]. intros [].
        eapply spec_weaken; [by intros w Hw; exact Hw| |apply service_wait_spec]. intros _' w.
        by apply stays_weaken; [|intros s l [_ (l' & ? & -> & _)]; exists l']. }
    assert (Hrec : forall e', spec anyhow stays
      (rb ← attempt (roll_back_sing_box AgentPath SingBoxPath initSystem openrc_script attempts oracle disabled candidate candidate);
       attempt (saveUpdateCheckpoint oracle (with_rolled_back (ck_sing_box ck' candidate candidate true (ck_SingBoxConfirmed ck') (ck_SingBoxRolledBack ck'))
         (match rb with Ok _ => true | Err _ => false end)));;
       fail (match rb with Ok _ => RolledBack e' | Err _ => RollbackFailed e' end) : M updateCheckpoint) (fun _ => stays)).
    { intros e'. eapply spec_bind with (R := fun _ => stays).
      { eapply spec_weaken; [intros w Hw; exact Hw| |eapply spec_attempt, Hrb]. intros [?|?] w Hw; exact Hw. }
      intros rb. eapply spec_bind; [eapply spec_weaken; [by intros w Hw; exact Hw| |by apply spec_attempt_save]; intros _' w [Hw _]; exact Hw|].
      intros _'. by apply spec_fail. }
    eapply spec_pre with (P := stays); [apply failing_stays|]. destruct e; first [apply Hrec|by apply spec_fail].
Qed.
End resumed.
