(* ===== verification/UpdaterOutcome.v ===== *)
(** * What an update promises

    The theorems about [Updater]: a sing-box update leaves a verified binary or
    the one that was in use; an interrupted agent update comes back; and what a
    resumed sing-box update cannot do. *)
From S2P Require Import Prelude GoStrings GoTime Effects.
From S2P Require Import ConfigCycle UpdateGuard Updater ReleasePaths UpdaterSafety.

#[local] Open Scope Z_scope.

(** ** An installation to evaluate the definitions on *)
Definition demo_IsValid (v : string) : bool := true.
Definition demo_Canonical (v : string) : string := v.
Definition demo_Compare (v w : string) : Z := if (v =? w)%string then 0 else 1.
(** A digest that tells binaries apart by their length. *)
Definition demo_digest (contents : string) : string := dec 64 (Z.of_nat (String.length contents)).
Definition demo_asset (component version contents : string) : UpdateAsset := {|
  as_Component := component; as_Version := version; as_URL := "https://boxfleet.example/a"; as_SHA256 := demo_digest contents;
  as_Size := Z.of_nat (String.length contents) |}.
(** Every call succeeds but those of [fails]; programs print the candidate's version. *)
Definition demo_oracle (fails : list nat) (n : nat) : answer := {|
  a_call := {| a_ok := bool_decide (n ∉ fails); a_done := false; a_effect := true; a_state := "version 1.1.0, tags: with_v2ray_api" |};
  a_cancel := false; a_ticks := 1; a_now := 0 |}.
Definition demo_disk : disk := {|
  d_files := <["/opt/boxfleet/releases/sing-box/1.0.0/sing-box" := "old"%string]>
             (<["/opt/boxfleet/releases/boxfleet-agent/1.0.0/boxfleet-agent" := "old"%string]> ∅);
  d_agent := "/opt/boxfleet/releases/boxfleet-agent/1.0.0/boxfleet-agent"; d_agent_previous := None;
  d_sing_box := "/opt/boxfleet/releases/sing-box/1.0.0/sing-box"; d_sing_box_previous := None; d_guard := None;
  d_guard_binary := None; d_checkpoint := no_checkpoint |}.
Definition demo_world (d : disk) : world := {|
  w_disk := d; w_past := []; w_memory := d_checkpoint d; w_service := Some (d_sing_box d); w_log := [] |}.
Definition demo_updateSingBox (fails : list nat) :=
  updateSingBox "/" "/opt/boxfleet" "/opt/boxfleet/bin/boxfleet-agent" "/opt/boxfleet/bin/sing-box" "op1" InitSystemOpenRC false
    demo_IsValid demo_Canonical demo_Compare demo_digest (fun _ => true) (fun _ _ => Some "the candidate"%string) 3 (demo_oracle fails).
Definition demo_updateAgent (fails : list nat) :=
  updateAgent "/" "/opt/boxfleet" "/opt/boxfleet/bin/boxfleet-agent" "/opt/boxfleet/bin/sing-box" "op1" "v1.0.0"
    demo_IsValid demo_Canonical demo_Compare demo_digest (fun _ => true) (fun _ _ => Some "the candidate"%string) (demo_oracle fails).
Definition sb := demo_asset "sing_box" "1.1.0" "the candidate".
Definition ag := demo_asset "agent" "1.1.0" "the candidate".

(** ** The agent's update leaves sing-box alone *)
Section order.
Context (cwd InstallDir AgentPath SingBoxPath opID Version : string)
  (IsValid : string -> bool) (Canonical : string -> string) (Compare : string -> string -> Z)
  (sha256hex : string -> string) (http_url : string -> bool) (grab : UpdateAsset -> nat -> option string)
  (oracle : nat -> answer) (l : string).
Definition sing_box_at (d : disk) : Prop := d_sing_box d = l.
Abbreviation V := (fun _ : disk => True).
Abbreviation P := (run V sing_box_at (fun _ _ => True)).

Lemma updateAgent_order asset dir ck :
  componentDir (as_Component asset) = Some AgentPart -> safeVersionDir IsValid Canonical (as_Version asset) = Some dir ->
  spec (fun _ => P) P (updateAgent cwd InstallDir AgentPath SingBoxPath opID Version IsValid Canonical Compare sha256hex http_url grab oracle ck asset)
    (fun x w => P w /\ (x.1 = false -> versionsEquivalent IsValid Canonical Compare Version (as_Version asset) = true)).
Proof.
  intros Hc Hv. assert (Hq : Quiet P) by (apply run_quiet; [done|by intros d]).
  assert (Hcall : forall e, spec (fun _ => P) P (call oracle e) (fun _ => P)) by (intros e; by apply spec_call).
  assert (Hwrite : forall e f, (forall d, sing_box_at d -> sing_box_at (f d)) -> spec (fun _ => P) P (write oracle e f) (fun _ => P)).
  { intros e f Hf. apply spec_write; [done|]. intros w. by apply run_write. }
  unfold updateAgent. eapply spec_bind with (R := fun _ => P).
  { eapply spec_bind; [apply Hcall|]. intros []. apply spec_get. intros w Hw. apply spec_ret. by intros ? <-. }
  intros guard. apply spec_case; intros _.
  { apply spec_ask. intros a. eapply spec_bind with (R := fun _ => P); [|intros []; by apply spec_fail].
    apply spec_case; intros _; [|by apply spec_ret]. apply spec_modify. intros w. by apply run_write. }
  apply spec_case; intros _.
  { apply spec_case; intros Hsame; [by apply spec_fail|]. apply spec_case; intros _; [by apply spec_fail|].
    eapply spec_bind; [by apply spec_save|]. intros []. eapply spec_bind; [by apply spec_report|]. intros [].
    apply spec_ret. intros w Hw. split; [done|]. intros _. by apply negb_false_iff. }
  apply spec_case; intros Hsame.
  { eapply spec_bind; [by apply spec_save|]. intros []. by apply spec_ret. }
  eapply spec_bind; [by apply spec_boundary|]. intros [].
  eapply spec_bind.
  { eapply spec_attempt with (F := fun _ => P) (Q := fun _ => P). eapply spec_weaken; [intros w Hw; exact Hw| |eapply download_spec with (V := V) (J := sing_box_at)].
    - intros r w. apply run_weaken. by intros d (_ & H & _).
    - exact Hc.
    - exact Hv.
    - done.
    - by intros d.
    - by intros d.
    - by intros e w _. }
  intros [candidate|e]; [|by apply spec_normalize].
  eapply spec_bind; [by apply spec_save|]. intros [].
  apply spec_ask. intros output. do 2 (apply spec_case; intros _; [by apply spec_fail|]).
  eapply spec_bind; [by apply spec_report|]. intros []. eapply spec_bind; [by apply spec_boundary|]. intros [].
  eapply spec_bind with (R := fun _ => P).
  { unfold ensureAgentGuardBinary. eapply spec_bind; [apply Hcall|]. intros []. apply spec_get. intros w Hw.
    eapply spec_pre with (P := P); [by intros ? <-|]. destruct (d_guard_binary (w_disk w)); [by apply spec_ret|].
    destruct (d_files (w_disk w) !! _); [by apply Hwrite|by apply spec_fail]. }
  intros []. eapply spec_bind with (R := fun _ => P).
  { unfold preserveCurrentBinary. eapply spec_bind; [apply Hcall|]. intros []. apply spec_get. intros w Hw.
    eapply spec_pre with (P := P); [by intros ? <-|]. apply spec_case; intros _; [by apply spec_fail|].
    apply spec_case; intros _; [by apply spec_ret|]. eapply spec_bind; [apply Hcall|]. intros [].
    apply spec_case; intros _; [by apply spec_ret|]. eapply spec_bind; [apply Hwrite|intros []; by apply spec_ret].
    intros d Hd. unfold copy_file. by destruct (d_files d !! _). }
  intros previous. eapply spec_bind; [by apply spec_save|]. intros [].
  eapply spec_bind with (R := fun _ => P).
  { apply spec_ask. intros a. apply spec_case; intros _; [|by apply spec_fail]. apply spec_modify. intros w. by apply run_write. }
  intros []. eapply spec_bind with (R := fun _ => P); [by apply switch_spec with (J := sing_box_at)|]. intros [].
  eapply spec_bind; [by apply spec_save|]. intros [].
  eapply spec_bind with (R := fun _ => P); [|intros _'; by apply spec_ret].
  eapply spec_weaken; [intros w Hw; exact Hw| |apply spec_attempt with (F := fun _ => P) (Q := fun _ => P); by apply spec_report].
  by intros [?|?] w.
Qed.
End order.

Section properties.
Context (cwd InstallDir AgentPath SingBoxPath opID Version : string) (initSystem : InitSystem) (openrc_script : bool)
  (IsValid : string -> bool) (Canonical : string -> string) (Compare : string -> string -> Z)
  (sha256hex : string -> string) (http_url : string -> bool) (grab : UpdateAsset -> nat -> option string)
  (attempts : nat) (oracle : nat -> answer).
Abbreviation file_matches := (file_matches sha256hex).
Abbreviation updateSingBox := (updateSingBox cwd InstallDir AgentPath SingBoxPath opID initSystem openrc_script
  IsValid Canonical Compare sha256hex http_url grab attempts oracle).
Abbreviation executeUpdateOperation := (executeUpdateOperation cwd InstallDir AgentPath SingBoxPath opID Version initSystem openrc_script
  IsValid Canonical Compare sha256hex http_url grab attempts oracle).
Abbreviation updateAgent := (updateAgent cwd InstallDir AgentPath SingBoxPath opID Version
  IsValid Canonical Compare sha256hex http_url grab oracle).
(** Of an asset: its release directory. *)
Definition release_of (asset : UpdateAsset) (c : part) (dir : string) : Prop :=
  componentDir (as_Component asset) = Some c /\ safeVersionDir IsValid Canonical (as_Version asset) = Some dir /\ plain dir.
(** An earlier attempt of this operation may have left its copy of the binary in use. *)
Definition copy_is_current (c : part) (d : disk) : Prop :=
  let copy := d_files d !! release_path InstallDir c ("legacy-" ++ opID) in copy = None \/ copy = d_files d !! link_of c d.

(** C22: for a first attempt to install a version of sing-box other than the one
    in use (the candidate's path is not the one the link leads to, and no copy of
    other bytes is left of an earlier attempt of the operation): wherever the
    update ends, and on every disk a crash could have left before, the link leads
    to the bytes that were in use or to a candidate whose size and SHA256 match
    the asset; when it succeeds the service was restarted with the candidate and
    seen active (stopped, on a disabled node); when it was rolled back the old
    bytes are linked and the service was started with them; when it failed
    before, nothing happened.  The cases left out are not safe, whatever
    docs/node-operations.md says of the previous binary: an update resumed after
    its switch ([resumed_sing_box_update_forgets_previous]) and a version in use
    that is republished with other bytes ([republished_version_replaces_old_bytes]). *)
Theorem sing_box_update_is_safe asset dir w0 n ck :
  UpdateGuard.HasPrefix InstallDir "/" = true -> release_of asset SingBoxPart dir ->
  distinct cwd InstallDir AgentPath SingBoxPath opID SingBoxPart (d_sing_box (w_disk w0)) dir ->
  copy_is_current SingBoxPart (w_disk w0) -> w_past w0 = [] -> ck_SingBoxConfirmed ck = false ->
  let candidate := release_path InstallDir SingBoxPart dir in
  let old := d_files (w_disk w0) !! d_sing_box (w_disk w0) in
  let '(r, (w, _)) := updateSingBox ck asset (w0, n) in
  (forall d, d ∈ w_past w ++ [w_disk w] ->
     d_files d !! d_sing_box d = old \/ (d_sing_box d = candidate /\ file_matches d candidate asset = true)) /\
  match r with
  | Ok _ => exists disabled : bool,
      d_sing_box (w_disk w) = candidate /\ file_matches (w_disk w) candidate asset = true /\
      ck_SingBoxConfirmed (d_checkpoint (w_disk w)) = true /\
      w_service w = (if disabled then None else Some candidate) /\
      seen (w_log w0) (if disabled then ["inactive"; "failed"] else ["active"]) (w_log w) /\
      last (w_log w) = Some (EvHeartbeat (if disabled then "disabled" else "ok"))
  | Err (RolledBack _) => exists disabled : bool,
      d_files (w_disk w) !! d_sing_box (w_disk w) = old /\
      w_service w = (if disabled then None else Some (d_sing_box (w_disk w))) /\
      ck_SingBoxRolledBack (w_memory w) = true
  | Err SaveFailed | Err ServiceUncertain | Err (RollbackFailed _) => True
  | Err _ => d_sing_box (w_disk w) = d_sing_box (w_disk w0) /\ w_service w = w_service w0
  end.
Proof.
  intros Habs (Hc & Hv & _) Hd Hcopy Hpast Hck. cbn zeta.
  pose proof (updateSingBox_spec cwd InstallDir AgentPath SingBoxPath opID initSystem openrc_script IsValid Canonical Compare
    sha256hex http_url grab attempts oracle Habs asset dir w0 (part_of_sing_box _ Hc) Hv Hd ck Hck (w0, n)) as H.
  specialize (H ltac:(split; [cbn; rewrite Hpast; constructor|split; [by split_and!|done]])).
  destruct (updateSingBox ck asset (w0, n)) as [[ck'|e] [w n']].
  - by apply sing_box_updated_facts in H.
  - by apply sing_box_failed_facts in H.
Qed.

(** C18: for a first attempt to install a version of the agent other than the one
    in use: on every disk a crash during the update could leave, the link leads
    to the bytes that were in use, or to a verified candidate with a guard that
    brings those bytes back within three starts without a confirmation, at
    whatever times. *)
Theorem interrupted_agent_update_comes_back asset dir w0 n ck files snapshot t1 t2 t3 :
  UpdateGuard.HasPrefix InstallDir "/" = true -> release_of asset AgentPart dir ->
  distinct cwd InstallDir AgentPath SingBoxPath opID AgentPart (d_agent (w_disk w0)) dir ->
  copy_is_current AgentPart (w_disk w0) -> w_past w0 = [] ->
  (forall l, snapshot = Some l -> map sf_Path l = map sf_Path files) ->
  let old := d_files (w_disk w0) !! d_agent (w_disk w0) in
  let '(_, (w, _)) := updateAgent ck asset (w0, n) in
  forall d, d ∈ w_past w ++ [w_disk w] ->
    d_files d !! d_agent d = old \/
    (file_matches d (d_agent d) asset = true /\
     let d' := guard_starts cwd InstallDir files [t1; t2; t3] (guard_view files snapshot d) in
     d_files d !! agent_link d' = old /\ is_Some old /\ backup d' = None /\
     exists st, guard_file d' = Some st /\ gs_Status st = "rolled_back").
Proof.
  intros Habs (Hc & Hv & Hdir) Hd Hcopy Hpast Hsnap. cbn zeta.
  pose proof (updateAgent_spec cwd InstallDir AgentPath SingBoxPath opID Version IsValid Canonical Compare sha256hex http_url grab oracle
    Habs asset dir w0 (part_of_agent _ Hc) Hv Hd ck (w0, n)) as H.
  specialize (H ltac:(split; [cbn; rewrite Hpast; constructor|split; [by split_and!|done]])).
  assert (Hall : forall w, Forall (agent_safe cwd InstallDir opID sha256hex asset dir w0) (w_past w ++ [w_disk w]) ->
    forall d, d ∈ w_past w ++ [w_disk w] -> _) by (intros w Hw; exact (proj1 (Forall_forall _ _) Hw)).
  destruct (updateAgent ck asset (w0, n)) as [r [w n']]. intros d Hin.
  assert (Hs : agent_safe cwd InstallDir opID sha256hex asset dir w0 d).
  { apply (Hall w); [|done]. destruct r as [[restarted ck']|e]; [eapply run_all; [|exact H]|].
    - cbn. intros d' Hd'. destruct restarted; [by right|by apply base_safe].
    - destruct H as [H1 H2]. apply Forall_app. split; [apply H1|by constructor]. }
  destruct Hs as [Hs|(Hl & previous & Hr & (Hp1 & Hp2 & Hp3) & (st & Hg & Hst & _ & Hat & _ & Hpr & Hca) & _)]; [by left|right].
  split; [by rewrite Hl|]. cbn zeta.
  assert (Hin1 : previous ∈ dom (d_files d)) by (apply elem_of_dom; rewrite Hp1; exact Hp2).
  assert (Hin2 : release_path InstallDir AgentPart dir ∈ dom (d_files d)).
  { apply elem_of_dom. revert Hp3. unfold Updater.file_matches. destruct (d_files d !! release_path InstallDir AgentPart dir); [by eexists|done]. }
  destruct (three_starts cwd InstallDir files previous (release_path InstallDir AgentPart dir) (dom (d_files d)) (proj1 (proj2 Hr))
    (release_path_within cwd _ Habs AgentPart dir Hdir) Hin1 Hin2 (not_eq_sym (proj1 Hr)) t1 t2 t3 (guard_view files snapshot d)) as (E1 & E2 & E3).
  { split_and!; [done..|]. exists st. by split_and!. }
  split_and!; [by rewrite E1|done|exact E2|exact E3].
Qed.

(** an update of sing-box that starts with the link at the candidate
    already — resumed after a crash between the switch and its confirmation —
    ends there even when it reports that it rolled back, whatever its checkpoint
    says the previous binary was. *)
Theorem resumed_sing_box_update_forgets_previous asset dir w0 n ck :
  UpdateGuard.HasPrefix InstallDir "/" = true -> release_of asset SingBoxPart dir ->
  d_sing_box (w_disk w0) = release_path InstallDir SingBoxPart dir ->
  let '(_, (w, _)) := updateSingBox ck asset (w0, n) in d_sing_box (w_disk w) = release_path InstallDir SingBoxPart dir.
Proof.
  intros Habs (Hc & Hv & Hdir) Hl.
  pose proof (resumed_updateSingBox cwd InstallDir AgentPath SingBoxPath opID initSystem openrc_script IsValid Canonical Compare
    sha256hex http_url grab attempts oracle Habs asset dir (part_of_sing_box _ Hc) Hv Hdir (w_log w0) ck (w0, n)) as H.
  destruct (updateSingBox ck asset (w0, n)) as [[?|?] [w n']]; (destruct H as (_ & H & _);
    [split; [apply Forall_true; done|split; [done|exists []; by rewrite app_nil_r]]|exact H]).
Qed.

(** when a release updates the agent too, the link of sing-box is not
    touched before the agent that runs has the release's version. *)
Theorem sing_box_waits_for_the_agent kind p asset w0 n :
  up_Agent p = Some asset ->
  let '(_, (w, _)) := executeUpdateOperation kind p (w0, n) in
  d_sing_box (w_disk w) <> d_sing_box (w_disk w0) ->
  versionsEquivalent IsValid Canonical Compare Version (as_Version asset) = true.
Proof.
  intros Hp. unfold Updater.executeUpdateOperation. destruct (validateUpdatePayload _ _ _ _ _) eqn:Hvalid; cbn [negb]; [|by intros ?].
  assert (Hasset : componentDir (as_Component asset) = Some AgentPart /\ exists dir, safeVersionDir IsValid Canonical (as_Version asset) = Some dir).
  { unfold validateUpdatePayload in Hvalid. rewrite Hp in Hvalid. cbn [valid_part] in Hvalid. unfold validateUpdateAsset in Hvalid.
    rewrite !andb_true_iff in Hvalid. destruct Hvalid as [[_ [[[[H1 H2] _] _] _]] _]. apply String.eqb_eq in H1. rewrite H1. split; [done|].
    unfold safeVersionDir. apply negb_true_iff in H2. rewrite H2. by eexists. }
  destruct Hasset as [Hc [dir Hv]]. rewrite Hp.
  pose proof (updateAgent_order cwd InstallDir AgentPath SingBoxPath opID Version IsValid Canonical Compare sha256hex http_url grab oracle
    (d_sing_box (w_disk w0)) asset dir (w_memory w0) Hc Hv (w0, n)) as H.
  specialize (H ltac:(split; [by apply Forall_true|split; done])).
  unfold get, attempt, mbind, eff_bind. cbn [fst snd].
  destruct (updateAgent (w_memory w0) asset (w0, n)) as [[[restarted ck]|e] [w1 n1]].
  - destruct H as [(_ & H1 & _) H2]. destruct restarted; [by intros ?|]. specialize (H2 eq_refl).
    destruct (up_SingBox p) as [sb|]; [|by intros ?]. destruct (updateSingBox ck sb (w1, n1)) as [[?|?] [w2 n2]]; cbn; intros _; exact H2.
  - destruct H as (_ & H1 & _). intros Hne. by destruct Hne.
Qed.
End properties.

(** ** Witnesses *)
Lemma demo_plain dir : bool_decide (plain dir) = true -> plain dir.
Proof. apply bool_decide_eq_true. Qed.
Lemma demo_distinct c l0 :
  l0 <> release_path "/opt/boxfleet" c "1.1.0" -> distinct "/" "/opt/boxfleet" "/opt/boxfleet/bin/boxfleet-agent" "/opt/boxfleet/bin/sing-box" "op1" c l0 "1.1.0".
Proof. intros H. split; try exact H; try (apply demo_plain; vm_compute; reflexivity); [discriminate|destruct c; vm_compute; reflexivity]. Qed.
Lemma demo_release c component :
  componentDir component = Some c -> release_of demo_IsValid demo_Canonical (demo_asset component "1.1.0" "the candidate") c "1.1.0".
Proof. intros H. split_and!; [exact H|vm_compute; reflexivity|apply demo_plain; vm_compute; reflexivity]. Qed.

Lemma sing_box_update_is_safe_witness :
  let '(r, (w, _)) := demo_updateSingBox [32%nat] no_checkpoint (demo_asset "sing_box" "1.1.0" "the candidate") (demo_world demo_disk, 0%nat) in
  r = Err (RolledBack ServiceFailed) /\
  exists disabled : bool, d_files (w_disk w) !! d_sing_box (w_disk w) = Some "old"%string /\
    w_service w = (if disabled then None else Some (d_sing_box (w_disk w))).
Proof.
  pose proof (sing_box_update_is_safe "/" "/opt/boxfleet" "/opt/boxfleet/bin/boxfleet-agent" "/opt/boxfleet/bin/sing-box" "op1" InitSystemOpenRC false
    demo_IsValid demo_Canonical demo_Compare demo_digest (fun _ => true) (fun _ _ => Some "the candidate"%string) 3 (demo_oracle [32%nat])
    (demo_asset "sing_box" "1.1.0" "the candidate") "1.1.0" (demo_world demo_disk) 0 no_checkpoint eq_refl (demo_release SingBoxPart "sing_box" eq_refl)
    (demo_distinct SingBoxPart "/opt/boxfleet/releases/sing-box/1.0.0/sing-box" ltac:(vm_compute; discriminate)) (or_introl eq_refl) eq_refl eq_refl) as H.
  revert H. unfold demo_updateSingBox.
  assert (E : fst (demo_updateSingBox [32%nat] no_checkpoint (demo_asset "sing_box" "1.1.0" "the candidate") (demo_world demo_disk, 0%nat)) = Err (RolledBack ServiceFailed)) by (vm_compute; reflexivity).
  unfold demo_updateSingBox in E. revert E. destruct (updateSingBox _ _ _ _ _ _ _ _ _ _ _ _ _ _ _ _ _ _) as [r [w n']]. cbn [fst]. intros -> [_ (disabled & H1 & H2 & _)].
  split; [reflexivity|]. exists disabled. exact (conj H1 H2).
Defined.

Lemma interrupted_agent_update_comes_back_witness :
  let '(r, (w, _)) := demo_updateAgent [] no_checkpoint (demo_asset "agent" "1.1.0" "the candidate") (demo_world demo_disk, 0%nat) in
  let d := w_disk w in
  d_files d !! d_agent d = Some "the candidate"%string /\
  let d' := guard_starts "/" "/opt/boxfleet" [] [1; 2; 3] (guard_view [] None d) in
  d_files d !! agent_link d' = Some "old"%string.
Proof.
  pose proof (interrupted_agent_update_comes_back "/" "/opt/boxfleet" "/opt/boxfleet/bin/boxfleet-agent" "/opt/boxfleet/bin/sing-box" "op1" "v1.0.0"
    demo_IsValid demo_Canonical demo_Compare demo_digest (fun _ => true) (fun _ _ => Some "the candidate"%string) (demo_oracle [])
    (demo_asset "agent" "1.1.0" "the candidate") "1.1.0" (demo_world demo_disk) 0 no_checkpoint [] None 1 2 3 eq_refl (demo_release AgentPart "agent" eq_refl)
    (demo_distinct AgentPart "/opt/boxfleet/releases/boxfleet-agent/1.0.0/boxfleet-agent" ltac:(vm_compute; discriminate)) (or_introl eq_refl) eq_refl
    ltac:(discriminate)) as H.
  assert (E : let w := snd (demo_updateAgent [] no_checkpoint (demo_asset "agent" "1.1.0" "the candidate") (demo_world demo_disk, 0%nat)) in
    d_files (w_disk w.1) !! d_agent (w_disk w.1) = Some "the candidate"%string) by (vm_compute; reflexivity).
  revert H E. unfold demo_updateAgent. destruct (updateAgent _ _ _ _ _ _ _ _ _ _ _ _ _ _ _ _) as [r [w n']]. cbn [snd fst]. intros H E.
  split; [exact E|]. destruct (H (w_disk w) ltac:(apply elem_of_app; right; left)) as [H1|(_ & H1 & _)].
  - exfalso. clear H. rewrite E in H1. clear E. revert H1. vm_compute. discriminate.
  - exact H1.
Defined.

(** The disk a crash leaves between the switch of the link and its confirmation. *)
Definition demo_crashed : disk :=
  nth 14 (w_past (demo_updateSingBox [] no_checkpoint (demo_asset "sing_box" "1.1.0" "the candidate") (demo_world demo_disk, 0%nat)).2.1) demo_disk.
Lemma resumed_sing_box_update_forgets_previous_witness :
  ck_SingBoxPrevious (d_checkpoint demo_crashed) = "/opt/boxfleet/releases/sing-box/1.0.0/sing-box"%string /\
  let '(r, (w, _)) := demo_updateSingBox [17%nat] (d_checkpoint demo_crashed) (demo_asset "sing_box" "1.1.0" "the candidate") (demo_world demo_crashed, 0%nat) in
  r = Err (RolledBack ServiceFailed) /\ d_sing_box (w_disk w) = "/opt/boxfleet/releases/sing-box/1.1.0/sing-box"%string.
Proof.
  split; [vm_compute; reflexivity|].
  pose proof (resumed_sing_box_update_forgets_previous "/" "/opt/boxfleet" "/opt/boxfleet/bin/boxfleet-agent" "/opt/boxfleet/bin/sing-box" "op1" InitSystemOpenRC false
    demo_IsValid demo_Canonical demo_Compare demo_digest (fun _ => true) (fun _ _ => Some "the candidate"%string) 3 (demo_oracle [17%nat])
    (demo_asset "sing_box" "1.1.0" "the candidate") "1.1.0" (demo_world demo_crashed) 0 (d_checkpoint demo_crashed) eq_refl
    (demo_release SingBoxPart "sing_box" eq_refl) ltac:(vm_compute; reflexivity)) as H.
  assert (E : fst (demo_updateSingBox [17%nat] (d_checkpoint demo_crashed) (demo_asset "sing_box" "1.1.0" "the candidate") (demo_world demo_crashed, 0%nat))
    = Err (RolledBack ServiceFailed)) by (vm_compute; reflexivity).
  revert H E. unfold demo_updateSingBox. destruct (updateSingBox _ _ _ _ _ _ _ _ _ _ _ _ _ _ _ _ _ _) as [r [w n']]. cbn [fst]. intros H ->.
  split; [reflexivity|]. rewrite H. vm_compute. reflexivity.
Defined.

(** A republished version (another file under the version in use) is installed
    over the binary the link leads to: although the candidate is then found
    invalid and nothing is switched, the old bytes are gone. *)
Example republished_version_replaces_old_bytes :
  let '(r, (w, _)) := demo_updateSingBox [18%nat] no_checkpoint (demo_asset "sing_box" "1.0.0" "the candidate") (demo_world demo_disk, 0%nat) in
  r = Err CandidateInvalid /\ d_sing_box (w_disk w) = d_sing_box demo_disk /\
  d_files demo_disk !! d_sing_box demo_disk = Some "old"%string /\ d_files (w_disk w) !! d_sing_box (w_disk w) = Some "the candidate"%string.
Proof. vm_compute. done. Qed.

Lemma sing_box_waits_for_the_agent_witness :
  let payload := {| up_Release := "r1"; up_Agent := Some (demo_asset "agent" "1.1.0" "the candidate");
                    up_SingBox := Some (demo_asset "sing_box" "1.1.0" "the candidate") |} in
  let run version := executeUpdateOperation "/" "/opt/boxfleet" "/opt/boxfleet/bin/boxfleet-agent" "/opt/boxfleet/bin/sing-box" "op1" version
    InitSystemOpenRC false demo_IsValid demo_Canonical demo_Compare demo_digest (fun _ => true) (fun _ _ => Some "the candidate"%string)
    3 (demo_oracle []) "update.bundle" payload (demo_world demo_disk, 0%nat) in
  d_sing_box (w_disk (run "v1.1.0").2.1) = "/opt/boxfleet/releases/sing-box/1.1.0/sing-box"%string /\
  (run "v1.0.0").1 = Ok (no_result, Some RestartRequired) /\
  versionsEquivalent demo_IsValid demo_Canonical demo_Compare "v1.1.0" "1.1.0" = true.
Proof.
  split; [vm_compute; reflexivity|]. split; [vm_compute; reflexivity|].
  pose proof (sing_box_waits_for_the_agent "/" "/opt/boxfleet" "/opt/boxfleet/bin/boxfleet-agent" "/opt/boxfleet/bin/sing-box" "op1" "v1.1.0"
    InitSystemOpenRC false demo_IsValid demo_Canonical demo_Compare demo_digest (fun _ => true) (fun _ _ => Some "the candidate"%string)
    3 (demo_oracle []) "update.bundle" {| up_Release := "r1"; up_Agent := Some (demo_asset "agent" "1.1.0" "the candidate");
       up_SingBox := Some (demo_asset "sing_box" "1.1.0" "the candidate") |} (demo_asset "agent" "1.1.0" "the candidate")
    (demo_world demo_disk) 0 eq_refl) as H.
  revert H. vm_compute. intros H. apply H. discriminate.
Defined.
