(* ===== verification/Render.v ===== *)
(** * Rendering: what a node serves and what a client is told
    ([src/internal/server/render/render.go], the listings of
    [src/internal/server/db/proxy_credentials.go])

    A node's configuration is one inbound per proxy with a user per active
    credential; a client's document has one profile per path or address, made
    from the same rows.  The rows are those of [Paths] and [PathGrants] with the
    columns only rendering reads.  Documents are modelled before they are
    marshalled, without their constant parts (log, the statistics listener,
    client-fingerprint and packet-encoding); what encoding/json reads from a
    settings or credential column, and netip's verdict on an address, are
    parameters. *)
From S2P Require Import Prelude GoStrings.
From S2P Require Import Paths PathResolve PathGrants.

#[local] Open Scope Z_scope.

(** ** The rows *)
Record listener := { li_Listen : string; li_ListenPort : Z; li_Transport : string; li_SettingsJSON : string }.
Record NodeConnectionTelemetry := { ct_Enabled : bool; ct_ListenAddress : string; ct_ListenPort : Z; ct_Secret : string }.
Record site := {
  grants : PathGrants.store;
  listeners : gmap string listener;                  (* more columns of [proxies] *)
  public_hosts : gmap string string;                 (* nodes.public_host *)
  node_connection_telemetry : gmap string NodeConnectionTelemetry
}.
Definition rows_of (s : site) : Paths.tables := base (grants s).

(** proxy_access_details *)
Record access_detail := {
  ad_ProxyID : string; ad_ProxyUserID : string; ad_ProxyUserName : string; ad_NodeID : string; ad_NodeName : string;
  ad_NodePublicHost : string; ad_ProxyName : string; ad_Protocol : string; ad_Listen : string; ad_ListenPort : Z;
  ad_Transport : string; ad_ProxyEnabled : bool; ad_SettingsJSON : string; ad_AuthName : string; ad_Enabled : bool;
  ad_CredentialJSON : string; ad_UserStatus : string; ad_NodeStatus : string; ad_DeletedAt : option string;
  ad_ProxyDeletedAt : option string; ad_UserDeletedAt : option string; ad_NodeDeletedAt : option string
}.
Definition detail (s : site) (key : string * string) : option access_detail :=
  a ← credentials (rows_of s) !! key;
  u ← proxy_users (rows_of s) !! key.1;
  p ← proxies (rows_of s) !! key.2;
  l ← listeners s !! key.2;
  n ← nodes (rows_of s) !! pr_NodeID p;
  Some {| ad_ProxyID := key.2; ad_ProxyUserID := key.1; ad_ProxyUserName := us_Name u; ad_NodeID := pr_NodeID p;
          ad_NodeName := no_Name n; ad_NodePublicHost := default "" (public_hosts s !! pr_NodeID p);
          ad_ProxyName := pr_Name p; ad_Protocol := pr_Protocol p; ad_Listen := li_Listen l; ad_ListenPort := li_ListenPort l;
          ad_Transport := li_Transport l; ad_ProxyEnabled := pr_Enabled p; ad_SettingsJSON := li_SettingsJSON l;
          ad_AuthName := pk_AuthName a; ad_Enabled := pk_Enabled a;
          ad_CredentialJSON := default "{}" (credential_json (grants s) !! key);
          ad_UserStatus := us_Status u; ad_NodeStatus := no_Status n; ad_DeletedAt := pk_DeletedAt a;
          ad_ProxyDeletedAt := pr_DeletedAt p; ad_UserDeletedAt := us_DeletedAt u; ad_NodeDeletedAt := no_DeletedAt n |}.
Definition details (s : site) : list access_detail := omap (fun kc => detail s kc.1) (map_to_list (credentials (rows_of s))).

(** The conditions the two listings share. *)
Definition serving (s : site) (d : access_detail) : bool :=
  ad_Enabled d && (ad_UserStatus d =? "active")%string && (ad_NodeStatus d =? "active")%string && ad_ProxyEnabled d &&
  bool_decide (bindings (rows_of s) !! (ad_ProxyUserID d, ad_NodeID d) = Some true) &&
  negb (is_set (ad_DeletedAt d)) && negb (is_set (ad_ProxyDeletedAt d)) && negb (is_set (ad_UserDeletedAt d)) &&
  negb (is_set (ad_NodeDeletedAt d)).
(** ORDER BY listen_port, proxy_name, proxy_user_name; where SQL leaves two rows
    in any order, this leaves them in the order of the map. *)
Definition text_then (a b : string) (rest : bool) : bool := String.ltb a b || ((a =? b)%string && rest).
Definition node_order (a b : access_detail) : Prop :=
  (ad_ListenPort a <? ad_ListenPort b) || ((ad_ListenPort a =? ad_ListenPort b) &&
    text_then (ad_ProxyName a) (ad_ProxyName b) (String.leb (ad_ProxyUserName a) (ad_ProxyUserName b))) = true.
Definition user_order (a b : access_detail) : Prop :=
  (ad_ListenPort a <? ad_ListenPort b) || ((ad_ListenPort a =? ad_ListenPort b) && String.leb (ad_ProxyName a) (ad_ProxyName b)) = true.
#[export] Instance node_order_dec a b : Decision (node_order a b).
Proof. unfold node_order. apply _. Defined.
#[export] Instance user_order_dec a b : Decision (user_order a b).
Proof. unfold user_order. apply _. Defined.
Definition ListProxyAccessesByNodeName (s : site) (nodeName : string) : list access_detail :=
  merge_sort node_order (List.filter (fun d => (ad_NodeName d =? nodeName)%string && serving s d) (details s)).
Definition ListProxyAccessesByUserNode (s : site) (userName nodeName : string) : list access_detail :=
  merge_sort user_order (List.filter (fun d => (ad_ProxyUserName d =? userName)%string && (ad_NodeName d =? nodeName)%string && serving s d) (details s)).

Inductive RenderError :=
| LookupErr (e : PathError) | ResolveErr (e : ResolveError) | BadSettings (proxy : string) | BadCredential (proxy : string)
| UnsupportedProtocol (protocol proxy : string) | TelemetryListen | TelemetrySecret | NoAccesses | NoSupportedAccesses
| DuplicateProfile (name : string) | ProfileNotFound.
Abbreviation rendered := (result RenderError).
Definition lookup {A} (r : res A) : rendered A := match r with Ok a => Ok a | Err e => Err (LookupErr e) end.

Definition ListProxyCredentialsByNode (s : site) (nodeName : string) : rendered (list access_detail) :=
  let? node := lookup (GetNode (rows_of s) nodeName) in Ok (ListProxyAccessesByNodeName s (no_Name node)).
Definition ListProxyCredentialsByUserNode (s : site) (userName nodeName : string) : rendered (list access_detail) :=
  let? node := lookup (GetNode (rows_of s) nodeName) in Ok (ListProxyAccessesByUserNode s (TrimSpace userName) (no_Name node)).

(** ** Documents *)
Record vlessRealitySettings := {
  vs_ServerName : string; vs_RealityPrivateKey : string; vs_RealityPublicKey : string; vs_ShortID : string;
  vs_HandshakeServer : string; vs_HandshakePort : Z
}.
Record VLESSRealityCredential := { vc_UUID : string; vc_Flow : string }.
Record Shadowsocks2022Settings := { ss_Method : string; ss_ServerPassword : string }.

Record vlessInboundUser := { vu_Name : string; vu_UUID : string; vu_Flow : string }.
Record shadowsocksInboundUser := { su_Name : string; su_Password : string }.
Record vlessInbound := {
  vi_Tag : string; vi_Listen : string; vi_ListenPort : Z; vi_Users : list vlessInboundUser; vi_ServerName : string;
  vi_HandshakeServer : string; vi_HandshakePort : Z; vi_PrivateKey : string; vi_ShortID : string
}.
Record shadowsocksInbound := {
  si_Tag : string; si_Listen : string; si_ListenPort : Z; si_Network : string; si_Method : string; si_Password : string;
  si_Users : list shadowsocksInboundUser
}.
Inductive inbound :=
| VLESSInbound (i : vlessInbound) | ShadowsocksInbound (i : shadowsocksInbound)
| MixedInbound (tag listen : string) (port : Z).
Record vlessOutbound := {
  vo_Tag : string; vo_Server : string; vo_ServerPort : Z; vo_UUID : string; vo_Flow : string; vo_ServerName : string;
  vo_Fingerprint : string; vo_PublicKey : string; vo_ShortID : string
}.
Record shadowsocksOutbound := { so_Tag : string; so_Server : string; so_ServerPort : Z; so_Method : string; so_Password : string }.
Inductive outbound :=
| PlainOutbound (type tag : string) | VLESSOutbound (o : vlessOutbound) | ShadowsocksOutbound (o : shadowsocksOutbound).
Record apiService := { as_Listen : string; as_ListenPort : Z; as_Secret : string }.
Record singBoxConfig := {
  sc_Inbounds : list inbound; sc_Outbounds : list outbound; sc_Final : string; sc_Services : list apiService;
  sc_StatsUsers : option (list string)     (* v2ray_api stats; [None]: no experimental section *)
}.

(** ** Settings and credentials *)
Definition is_hex_digit (c : ascii) : bool := is_digit c || ((97 <=? code c) && (code c <=? 102)).
(** The short id in lower case, if it is one. *)
Definition NormalizeRealityShortID `{UnicodeTables} (shortID : string) : option string :=
  let shortID := ToLower (TrimSpace shortID) in
  if (8 <? String.length shortID)%nat then None
  else if negb (Nat.even (String.length shortID)) then None
  else if negb (forallb is_hex_digit (to_bytes shortID)) then None
  else Some shortID.
Definition VLESSRealityFlowVision : string := "xtls-rprx-vision".
Definition MinConnectionTelemetrySecretLength : nat := 32.

Section render.
Context `{UnicodeTables}.
(** json.Unmarshal into the zero value of each type, and whether an address is
    a literal of the loopback network. *)
Variables (decode_vless_settings : string -> option vlessRealitySettings)
  (decode_vless_credential : string -> option VLESSRealityCredential)
  (decode_ss_settings : string -> option Shadowsocks2022Settings)
  (decode_ss_credential : string -> option string)
  (loopback_literal : string -> bool).

Definition parseVLESSReality (access : access_detail) : rendered (vlessRealitySettings * VLESSRealityCredential) :=
  match decode_vless_settings (ad_SettingsJSON access) with
  | None => Err (BadSettings (ad_ProxyName access))
  | Some st =>
      if (vs_ServerName st =? "")%string || (vs_RealityPrivateKey st =? "")%string || (vs_RealityPublicKey st =? "")%string
      then Err (BadSettings (ad_ProxyName access))
      else
        match NormalizeRealityShortID (vs_ShortID st) with
        | None => Err (BadSettings (ad_ProxyName access))
        | Some shortID =>
            let st := {|
              vs_ServerName := vs_ServerName st; vs_RealityPrivateKey := vs_RealityPrivateKey st;
              vs_RealityPublicKey := vs_RealityPublicKey st; vs_ShortID := shortID;
              vs_HandshakeServer := (if (vs_HandshakeServer st =? "")%string then vs_ServerName st else vs_HandshakeServer st);
              vs_HandshakePort := (if vs_HandshakePort st =? 0 then 443 else vs_HandshakePort st) |} in
            match decode_vless_credential (ad_CredentialJSON access) with
            | None => Err (BadCredential (ad_AuthName access))
            | Some c =>
                if (vc_UUID c =? "")%string then Err (BadCredential (ad_AuthName access))
                else Ok (st, {| vc_UUID := vc_UUID c;
                                vc_Flow := (if (vc_Flow c =? "")%string then VLESSRealityFlowVision else vc_Flow c) |})
            end
        end
  end.
Definition parseShadowsocks2022 (access : access_detail) : rendered (Shadowsocks2022Settings * string) :=
  match decode_ss_settings (ad_SettingsJSON access) with
  | None => Err (BadSettings (ad_ProxyName access))
  | Some st =>
      match decode_ss_credential (ad_CredentialJSON access) with
      | None => Err (BadCredential (ad_ProxyName access))
      | Some password =>
          if (ss_Method st =? "")%string || (ss_ServerPassword st =? "")%string || (password =? "")%string
          then Err (BadSettings (ad_ProxyName access)) else Ok (st, password)
      end
  end.
Definition singBoxNetwork (transport : string) : string :=
  if (transport =? "tcp")%string || (transport =? "udp")%string then transport else "".

(** ** The configuration of a node *)
Definition ValidateConnectionTelemetryListen (address : string) (port : Z) : bool :=
  let trimmed := TrimSpace address in
  negb (trimmed =? "")%string && loopback_literal trimmed && negb ((port <=? 0) || (65535 <? port)).
Definition ValidateConnectionTelemetrySecret (value : string) : bool :=
  negb (String.length (TrimSpace value) <? MinConnectionTelemetrySecretLength)%nat.
Definition connectionTelemetryService (s : site) (nodeName : string) : rendered (option apiService) :=
  let? node := lookup (GetNode (rows_of s) nodeName) in
  match node_connection_telemetry s !! no_ID node with
  | None => Ok None
  | Some config =>
      if negb (ct_Enabled config) then Ok None
      else if negb (ValidateConnectionTelemetryListen (ct_ListenAddress config) (ct_ListenPort config)) then Err TelemetryListen
      else if negb (ValidateConnectionTelemetrySecret (ct_Secret config)) then Err TelemetrySecret
      else Ok (Some {| as_Listen := ct_ListenAddress config; as_ListenPort := ct_ListenPort config; as_Secret := ct_Secret config |})
  end.
Definition node_config (inbounds : list inbound) (services : list apiService) (users : list string) : singBoxConfig := {|
  sc_Inbounds := inbounds; sc_Outbounds := [PlainOutbound "direct" "direct"; PlainOutbound "block" "block"];
  sc_Final := "direct"; sc_Services := services; sc_StatsUsers := Some users |}.
Definition emptyNodeConfig : singBoxConfig := node_config [] [] [].
Definition RenderDisabledConfig : singBoxConfig := emptyNodeConfig.

(** inboundByName (of pointers: appending a user changes the entry), inboundOrder, statsUsers *)
Record inbounds := { ib_ByName : gmap string inbound; ib_Order : list string; ib_Stats : list string }.
Definition put_inbound (st : inbounds) (name : string) (i : inbound) (is_new : bool) (authName : string) : inbounds := {|
  ib_ByName := <[name := i]> (ib_ByName st);
  ib_Order := (if is_new then ib_Order st ++ [name] else ib_Order st);
  ib_Stats := ib_Stats st ++ [authName] |}.
Definition new_vless (access : access_detail) (st : vlessRealitySettings) : vlessInbound := {|
  vi_Tag := ad_ProxyName access; vi_Listen := ad_Listen access; vi_ListenPort := ad_ListenPort access; vi_Users := [];
  vi_ServerName := vs_ServerName st; vi_HandshakeServer := vs_HandshakeServer st; vi_HandshakePort := vs_HandshakePort st;
  vi_PrivateKey := vs_RealityPrivateKey st; vi_ShortID := vs_ShortID st |}.
Definition add_vless_user (i : vlessInbound) (u : vlessInboundUser) : vlessInbound := {|
  vi_Tag := vi_Tag i; vi_Listen := vi_Listen i; vi_ListenPort := vi_ListenPort i; vi_Users := vi_Users i ++ [u];
  vi_ServerName := vi_ServerName i; vi_HandshakeServer := vi_HandshakeServer i; vi_HandshakePort := vi_HandshakePort i;
  vi_PrivateKey := vi_PrivateKey i; vi_ShortID := vi_ShortID i |}.
Definition new_shadowsocks (access : access_detail) (st : Shadowsocks2022Settings) : shadowsocksInbound := {|
  si_Tag := ad_ProxyName access; si_Listen := ad_Listen access; si_ListenPort := ad_ListenPort access;
  si_Network := singBoxNetwork (ad_Transport access); si_Method := ss_Method st; si_Password := ss_ServerPassword st; si_Users := [] |}.
Definition add_shadowsocks_user (i : shadowsocksInbound) (u : shadowsocksInboundUser) : shadowsocksInbound := {|
  si_Tag := si_Tag i; si_Listen := si_Listen i; si_ListenPort := si_ListenPort i; si_Network := si_Network i;
  si_Method := si_Method i; si_Password := si_Password i; si_Users := si_Users i ++ [u] |}.
Definition render_access (st : inbounds) (access : access_detail) : rendered inbounds :=
  let name := ad_ProxyName access in
  if (ad_Protocol access =? ProtocolVLESSReality)%string then
    let? (settings, credential) := parseVLESSReality access in
    let u := {| vu_Name := ad_AuthName access; vu_UUID := vc_UUID credential; vu_Flow := vc_Flow credential |} in
    match ib_ByName st !! name with
    | Some (VLESSInbound i) => Ok (put_inbound st name (VLESSInbound (add_vless_user i u)) false (ad_AuthName access))
    | _ => Ok (put_inbound st name (VLESSInbound (add_vless_user (new_vless access settings) u)) true (ad_AuthName access))
    end
  else if (ad_Protocol access =? ProtocolShadowsocks2022)%string then
    let? (settings, password) := parseShadowsocks2022 access in
    let u := {| su_Name := ad_AuthName access; su_Password := password |} in
    match ib_ByName st !! name with
    | Some (ShadowsocksInbound i) => Ok (put_inbound st name (ShadowsocksInbound (add_shadowsocks_user i u)) false (ad_AuthName access))
    | _ => Ok (put_inbound st name (ShadowsocksInbound (add_shadowsocks_user (new_shadowsocks access settings) u)) true (ad_AuthName access))
    end
  else Err (UnsupportedProtocol (ad_Protocol access) name).
Fixpoint render_accesses (st : inbounds) (l : list access_detail) : rendered inbounds :=
  match l with
  | [] => Ok st
  | a :: l => let? st := render_access st a in render_accesses st l
  end.
Definition no_inbounds : inbounds := {| ib_ByName := ∅; ib_Order := []; ib_Stats := [] |}.
Definition RenderNodeConfig (s : site) (nodeName : string) : rendered singBoxConfig :=
  let? accesses := ListProxyCredentialsByNode s nodeName in
  match accesses with
  | [] => Ok emptyNodeConfig
  | _ =>
      let? telemetry := connectionTelemetryService s nodeName in
      let? st := render_accesses no_inbounds accesses in
      Ok (node_config (omap (fun name => ib_ByName st !! name) (ib_Order st))
            (match telemetry with Some service => [service] | None => [] end) (ib_Stats st))
  end.

(** ** What a client is told *)
Record NodeInfoProxy := {
  np_Name : string; np_ProxyName : string; np_HostTag : string; np_Type : string; np_Server : string; np_ServerPort : Z;
  np_UUID : string; np_Flow : string; np_ServerName : string; np_PublicKey : string; np_ShortID : string; np_Cipher : string;
  np_Password : string; np_DialerProxy : string; np_isPrimaryHost : bool
}.
Record NodeInfo := { ni_User : string; ni_Node : string; ni_Proxies : list NodeInfoProxy }.
Definition blank_profile (name proxyName hostTag type server : string) (port : Z) (dialer : string) (primary : bool) : NodeInfoProxy := {|
  np_Name := name; np_ProxyName := proxyName; np_HostTag := hostTag; np_Type := type; np_Server := server; np_ServerPort := port;
  np_UUID := ""; np_Flow := ""; np_ServerName := ""; np_PublicKey := ""; np_ShortID := ""; np_Cipher := ""; np_Password := "";
  np_DialerProxy := dialer; np_isPrimaryHost := primary |}.
(** [None]: errUnsupportedClientProtocol *)
Definition applyClientCredential (p : NodeInfoProxy) (credential : access_detail) : rendered (option NodeInfoProxy) :=
  if (ad_Protocol credential =? ProtocolVLESSReality)%string then
    let? (settings, c) := parseVLESSReality credential in
    Ok (Some {| np_Name := np_Name p; np_ProxyName := np_ProxyName p; np_HostTag := np_HostTag p; np_Type := np_Type p;
                np_Server := np_Server p; np_ServerPort := np_ServerPort p; np_UUID := vc_UUID c; np_Flow := vc_Flow c;
                np_ServerName := vs_ServerName settings; np_PublicKey := vs_RealityPublicKey settings; np_ShortID := vs_ShortID settings;
                np_Cipher := np_Cipher p; np_Password := np_Password p; np_DialerProxy := np_DialerProxy p;
                np_isPrimaryHost := np_isPrimaryHost p |})
  else if (ad_Protocol credential =? ProtocolShadowsocks2022)%string then
    let? (settings, password) := parseShadowsocks2022 credential in
    Ok (Some {| np_Name := np_Name p; np_ProxyName := np_ProxyName p; np_HostTag := np_HostTag p; np_Type := np_Type p;
                np_Server := np_Server p; np_ServerPort := np_ServerPort p; np_UUID := np_UUID p; np_Flow := np_Flow p;
                np_ServerName := np_ServerName p; np_PublicKey := np_PublicKey p; np_ShortID := np_ShortID p;
                np_Cipher := ss_Method settings; np_Password := (ss_ServerPassword settings ++ ":" ++ password)%string;
                np_DialerProxy := np_DialerProxy p; np_isPrimaryHost := np_isPrimaryHost p |})
  else Ok None.
Fixpoint check_profiles (seen : gset string) (l : list NodeInfoProxy) : rendered unit :=
  match l with
  | [] => Ok tt
  | p :: l => if bool_decide (np_Name p ∈ seen) then Err (DuplicateProfile (np_Name p)) else check_profiles (seen ∪ {[np_Name p]}) l
  end.
Definition validateUniqueProfileNames (l : list NodeInfoProxy) : rendered unit := check_profiles ∅ l.

(** *** By address: a profile per selected host of the node *)
Record selectedNodeHost := { sh_Host : string; sh_Tag : string; sh_Primary : bool }.
Definition selectedNodeHosts (s : site) (nodeName fallback : string) : list selectedNodeHost :=
  let only := [{| sh_Host := fallback; sh_Tag := ""; sh_Primary := true |}] in
  match GetNode (rows_of s) nodeName with
  | Err _ => only
  | Ok node =>
      let hosts := omap (fun ih => if nh_Selected ih.2
                          then Some {| sh_Host := nh_Host ih.2; sh_Tag := nh_Tag ih.2; sh_Primary := (ih.1 =? 0)%nat |} else None)
                     (imap pair (no_Hosts node)) in
      match hosts with [] => only | _ => hosts end
  end.
Definition mihomoProfileName (proxyName : string) (host : selectedNodeHost) : string :=
  if negb (sh_Tag host =? "")%string then (proxyName ++ "-" ++ sh_Tag host)%string
  else if negb (sh_Primary host) then (proxyName ++ "-" ++ sh_Host host)%string
  else proxyName.
Definition with_host (p : NodeInfoProxy) (proxyName : string) (h : selectedNodeHost) : NodeInfoProxy := {|
  np_Name := mihomoProfileName proxyName h; np_ProxyName := np_ProxyName p; np_HostTag := sh_Tag h; np_Type := np_Type p;
  np_Server := sh_Host h; np_ServerPort := np_ServerPort p; np_UUID := np_UUID p; np_Flow := np_Flow p;
  np_ServerName := np_ServerName p; np_PublicKey := np_PublicKey p; np_ShortID := np_ShortID p; np_Cipher := np_Cipher p;
  np_Password := np_Password p; np_DialerProxy := np_DialerProxy p; np_isPrimaryHost := sh_Primary h |}.
Fixpoint host_profiles (hosts : list selectedNodeHost) (l : list access_detail) : rendered (list NodeInfoProxy) :=
  match l with
  | [] => Ok []
  | access :: l =>
      let? profile := applyClientCredential (blank_profile "" (ad_ProxyName access) "" (ad_Protocol access) "" (ad_ListenPort access) "" false) access in
      let? rest := host_profiles hosts l in
      Ok (match profile with Some p => map (with_host p (ad_ProxyName access)) hosts ++ rest | None => rest end)
  end.
Definition nodeInfoFromAccesses (s : site) (nodeName : string) (first : access_detail) (accesses : list access_detail) : rendered NodeInfo :=
  let hosts := selectedNodeHosts s nodeName (ad_NodePublicHost first) in
  let? proxies := host_profiles hosts accesses in
  match proxies with
  | [] => Err NoSupportedAccesses
  | _ => let? _ := validateUniqueProfileNames proxies in
         Ok {| ni_User := ad_ProxyUserName first; ni_Node := ad_NodeName first; ni_Proxies := proxies |}
  end.
Definition NodeInfoForUser (s : site) (userName nodeName : string) : rendered NodeInfo :=
  let? accesses := ListProxyCredentialsByUserNode s userName nodeName in
  match accesses with
  | [] => Err NoAccesses
  | first :: _ => nodeInfoFromAccesses s nodeName first accesses
  end.

(** *** By path *)
(** A hop's proxy and credential, with the columns PathResolve leaves out. *)
Definition path_credential (s : site) (user : ProxyUser) (p : ResolvedPath) : rendered access_detail :=
  match detail s (us_ID user, px_ID (rp_Proxy p)) with
  | Some d => Ok d
  | None => Err (LookupErr (ProxyNotFound (px_ID (rp_Proxy p))))
  end.
Definition dialer_name (p : ResolvedPath) : string := match rp_Dialer p with Some d => rp_Name d | None => "" end.
Definition path_profile (p : ResolvedPath) (d : access_detail) : NodeInfoProxy :=
  blank_profile (rp_Name p) (px_Name (rp_Proxy p)) (nh_Tag (rp_Host p)) (px_Protocol (rp_Proxy p)) (nh_Host (rp_Host p))
    (ad_ListenPort d) (dialer_name p) false.
(** nodeIndexes is the position of a node in the list. *)
Fixpoint add_to_node (user node : string) (p : NodeInfoProxy) (l : list NodeInfo) : list NodeInfo :=
  match l with
  | [] => [{| ni_User := user; ni_Node := node; ni_Proxies := [p] |}]
  | n :: l =>
      if (ni_Node n =? node)%string then {| ni_User := ni_User n; ni_Node := ni_Node n; ni_Proxies := ni_Proxies n ++ [p] |} :: l
      else n :: add_to_node user node p l
  end.
Fixpoint path_profiles (s : site) (user : ProxyUser) (l : list ResolvedPath) (acc : list NodeInfo) : rendered (list NodeInfo) :=
  match l with
  | [] => Ok acc
  | p :: l =>
      let? d := path_credential s user p in
      let? profile := applyClientCredential (path_profile p d) d in
      path_profiles s user l
        (match profile with Some pr => add_to_node (us_Name user) (px_NodeName (rp_Proxy p)) pr acc | None => acc end)
  end.
Definition resolved_for {A} (r : result ResolveError A) : rendered A := match r with Ok a => Ok a | Err e => Err (ResolveErr e) end.
Definition ConnectionInfoForUser (s : site) (userName : string) : rendered (string * list NodeInfo) :=
  let? user := lookup (GetProxyUser (rows_of s) userName) in
  let? paths := resolved_for (ForUser (rows_of s) (us_Name user)) in
  let? info := path_profiles s user (Selectable paths) [] in
  let? _ := validateUniqueProfileNames (List.concat (map ni_Proxies info)) in
  Ok (us_Name user, info).

(** *** The Mihomo provider *)
Inductive mihomoProxy :=
| MihomoVLESS (name server : string) (port : Z) (uuid flow serverName publicKey shortID dialer : string)
| MihomoShadowsocks (name server : string) (port : Z) (cipher password : string) (udp : bool) (dialer : string).
Definition mihomo_proxy (p : ResolvedPath) (d : access_detail) : rendered mihomoProxy :=
  let protocol := px_Protocol (rp_Proxy p) in
  if (protocol =? ProtocolVLESSReality)%string then
    let? (settings, c) := parseVLESSReality d in
    Ok (MihomoVLESS (rp_Name p) (nh_Host (rp_Host p)) (ad_ListenPort d) (vc_UUID c) (vc_Flow c) (vs_ServerName settings)
          (vs_RealityPublicKey settings) (vs_ShortID settings) (dialer_name p))
  else if (protocol =? ProtocolShadowsocks2022)%string then
    let? (settings, password) := parseShadowsocks2022 d in
    Ok (MihomoShadowsocks (rp_Name p) (nh_Host (rp_Host p)) (ad_ListenPort d) (ss_Method settings)
          (ss_ServerPassword settings ++ ":" ++ password) (negb (ad_Transport d =? "tcp")%string) (dialer_name p))
  else Err (UnsupportedProtocol protocol (rp_Name p)).
Fixpoint mihomo_proxies (s : site) (user : ProxyUser) (l : list ResolvedPath) : rendered (list mihomoProxy) :=
  match l with
  | [] => Ok []
  | p :: l =>
      let? d := path_credential s user p in
      let? m := mihomo_proxy p d in
      let? rest := mihomo_proxies s user l in
      Ok (m :: rest)
  end.
Definition RenderMihomoProxyProvider (s : site) (userName : string) : rendered (list mihomoProxy) :=
  let? paths := resolved_for (ForUser (rows_of s) userName) in
  let? user := lookup (GetProxyUser (rows_of s) userName) in    (* whose credentials ForUser resolved *)
  mihomo_proxies s user (Ordered paths).

(** *** A sing-box client *)
Record ClientConfigParams := {
  cc_UserName : string; cc_NodeName : string; cc_ProxyName : string; cc_MixedListen : string; cc_MixedListenPort : Z;
  cc_UTLSFingerprint : string; cc_OutboundTag : string
}.
Definition DefaultMixedListenPort : Z := 2080.
Definition text_or (value fallback : string) : string := if (value =? "")%string then fallback else value.
(** The loop over the profiles of the proxy: the first, or the one of the primary host. *)
Fixpoint select_by_proxy (proxyName : string) (selected : option NodeInfoProxy) (l : list NodeInfoProxy) : option NodeInfoProxy :=
  match l with
  | [] => selected
  | p :: l =>
      if negb (np_ProxyName p =? proxyName)%string then select_by_proxy proxyName selected l
      else
        let selected := if np_isPrimaryHost p then Some p else match selected with None => Some p | Some q => Some q end in
        if np_isPrimaryHost p then selected else select_by_proxy proxyName selected l
  end.
Definition select_profile (proxyName : string) (l : list NodeInfoProxy) : option NodeInfoProxy :=
  match List.find (fun p => (np_Name p =? proxyName)%string) l with
  | Some p => Some p
  | None => select_by_proxy proxyName None l
  end.
Definition RenderClientConfig (s : site) (params : ClientConfigParams) : rendered singBoxConfig :=
  let? info := NodeInfoForUser s (cc_UserName params) (cc_NodeName params) in
  match select_profile (cc_ProxyName params) (ni_Proxies info) with
  | None => Err ProfileNotFound
  | Some p =>
      let outboundTag := text_or (cc_OutboundTag params) "proxy" in
      let? proxyOutbound :=
        (if (np_Type p =? ProtocolVLESSReality)%string then
           Ok (VLESSOutbound {| vo_Tag := outboundTag; vo_Server := np_Server p; vo_ServerPort := np_ServerPort p; vo_UUID := np_UUID p;
                                vo_Flow := np_Flow p; vo_ServerName := np_ServerName p;
                                vo_Fingerprint := text_or (cc_UTLSFingerprint params) "chrome";
                                vo_PublicKey := np_PublicKey p; vo_ShortID := np_ShortID p |})
         else if (np_Type p =? ProtocolShadowsocks2022)%string then
           Ok (ShadowsocksOutbound {| so_Tag := outboundTag; so_Server := np_Server p; so_ServerPort := np_ServerPort p;
                                      so_Method := np_Cipher p; so_Password := np_Password p |})
         else Err (UnsupportedProtocol (np_Type p) (np_ProxyName p))) in
      Ok {| sc_Inbounds := [MixedInbound "mixed-in" (text_or (cc_MixedListen params) "127.0.0.1")
                              (if cc_MixedListenPort params =? 0 then DefaultMixedListenPort else cc_MixedListenPort params)];
            sc_Outbounds := [proxyOutbound; PlainOutbound "direct" "direct"]; sc_Final := outboundTag; sc_Services := [];
            sc_StatsUsers := None |}
  end.
End render.
