(* ===== verification/RenderSafety.v ===== *)
(** * What is rendered is what is stored, and what clients are told is served
    ([Render])

    A node's configuration holds exactly the accounts of the rows that may be
    served; every path of a subscription is admitted by an account of the
    configuration of its node; client documents depend on no secret but their
    user's; the telemetry service is only rendered where it cannot be reached
    from outside. *)
From S2P Require Import Prelude GoStrings.
From S2P Require Import Paths PathResolve PathGrants PathAccess Render.

#[local] Open Scope Z_scope.

(** ** Tables the schema allows *)
(** Rows are stored under their ids (which have no blanks around them), live
    nodes answer to their names, and names of live proxies are unique
    (idx_proxies_name, idx_nodes_active_name). *)
Record well_formed (s : site) : Prop := {
  wf_keyed : keyed (rows_of s);
  wf_dialers : dialers_known (rows_of s);
  wf_users : forall k u, proxy_users (rows_of s) !! k = Some u -> us_ID u = k /\ TrimSpace k = k;
  wf_nodes : forall k n, nodes (rows_of s) !! k = Some n -> no_ID n = k;
  wf_node_names : forall k n, nodes (rows_of s) !! k = Some n -> no_DeletedAt n = None ->
    GetNode (rows_of s) (no_Name n) = Ok n;
  wf_proxy_names : forall x y p q, live_proxy (rows_of s) x = Some p -> live_proxy (rows_of s) y = Some q ->
    px_Name p = px_Name q -> x = y;
  wf_listeners : forall k r, proxies (rows_of s) !! k = Some r -> is_Some (listeners s !! k)
}.

(** ** The listings *)
Lemma detail_ids s key d : detail s key = Some d -> ad_ProxyUserID d = key.1 /\ ad_ProxyID d = key.2.
Proof.
  unfold detail. destruct (credentials _ !! key) as [a|]; [|done]. cbn.
  destruct (proxy_users _ !! _) as [u|]; [|done]. cbn. destruct (proxies _ !! _) as [p|]; [|done]. cbn.
  destruct (listeners s !! _) as [l|]; [|done]. cbn. destruct (nodes _ !! _) as [n|]; [|done]. cbn. intros [= <-]. by split.
Qed.
Lemma details_In s d : d ∈ details s <-> detail s (ad_ProxyUserID d, ad_ProxyID d) = Some d.
Proof.
  unfold details. rewrite list_elem_of_omap. split.
  - intros ([key a] & _ & H). cbn in H. destruct (detail_ids _ _ _ H) as [-> ->]. by destruct key.
  - intros H. pose proof H as H0. unfold detail in H0.
    destruct (credentials (rows_of s) !! (ad_ProxyUserID d, ad_ProxyID d)) as [a|] eqn:Ea; [|done].
    exists ((ad_ProxyUserID d, ad_ProxyID d), a). split; [by apply elem_of_map_to_list|exact H].
Qed.
(** What the view joins to a credential. *)
Record joined (s : site) (d : access_detail) : Prop := {
  jn_credential : exists a, credentials (rows_of s) !! (ad_ProxyUserID d, ad_ProxyID d) = Some a /\
    ad_AuthName d = pk_AuthName a /\ ad_Enabled d = pk_Enabled a /\ ad_DeletedAt d = pk_DeletedAt a;
  jn_user : exists u, proxy_users (rows_of s) !! ad_ProxyUserID d = Some u /\
    ad_ProxyUserName d = us_Name u /\ ad_UserStatus d = us_Status u /\ ad_UserDeletedAt d = us_DeletedAt u;
  jn_proxy : exists p n, proxies (rows_of s) !! ad_ProxyID d = Some p /\ nodes (rows_of s) !! pr_NodeID p = Some n /\
    ad_NodeID d = pr_NodeID p /\ ad_ProxyName d = pr_Name p /\ ad_Protocol d = pr_Protocol p /\
    ad_ProxyEnabled d = pr_Enabled p /\ ad_ProxyDeletedAt d = pr_DeletedAt p /\
    ad_NodeName d = no_Name n /\ ad_NodeStatus d = no_Status n /\ ad_NodeDeletedAt d = no_DeletedAt n;
  jn_listener : listeners s !! ad_ProxyID d =
    Some {| li_Listen := ad_Listen d; li_ListenPort := ad_ListenPort d; li_Transport := ad_Transport d; li_SettingsJSON := ad_SettingsJSON d |}
}.
Lemma detail_joined s key d : detail s key = Some d -> joined s d.
Proof.
  unfold detail. destruct (credentials _ !! key) as [a|] eqn:Ea; [|done]. cbn.
  destruct (proxy_users _ !! _) as [u|] eqn:Eu; [|done]. cbn. destruct (proxies _ !! _) as [p|] eqn:Ep; [|done]. cbn.
  destruct (listeners s !! _) as [l|] eqn:El; [|done]. cbn. destruct (nodes _ !! _) as [n|] eqn:En; [|done]. cbn.
  intros [= <-]. split; cbn.
  - exists a. by destruct key.
  - by exists u.
  - by exists p, n.
  - rewrite El. by destruct l.
Qed.

Lemma serving_live s d : joined s d -> serving s d = true ->
  exists p, live_proxy (rows_of s) (ad_ProxyID d) = Some p /\ px_Name p = ad_ProxyName d /\ px_NodeID p = ad_NodeID d.
Proof.
  intros Hj H. unfold serving in H. rewrite !andb_true_iff, !negb_true_iff, !is_set_false in H.
  destruct H as [[[[_ Hn0] Hp0] _] Hm0]. destruct (jn_proxy _ _ Hj) as (p & n & Hp & Hn & E1 & E2 & _ & _ & E5 & _ & _ & E8).
  unfold live_proxy. rewrite Hp. cbn. rewrite Hn. cbn. rewrite <- E5, <- E8, Hp0, Hm0. eexists. split; [reflexivity|]. by split.
Qed.
(** Two served rows of proxies with one name are rows of one proxy. *)
Definition same_proxy (a b : access_detail) : Prop :=
  ad_Protocol a = ad_Protocol b /\ ad_Listen a = ad_Listen b /\ ad_ListenPort a = ad_ListenPort b /\
  ad_Transport a = ad_Transport b /\ ad_SettingsJSON a = ad_SettingsJSON b.
Lemma served_same_name s a b : well_formed s -> joined s a -> joined s b -> serving s a = true -> serving s b = true ->
  ad_ProxyName a = ad_ProxyName b -> same_proxy a b.
Proof.
  intros Hwf Ha Hb Hsa Hsb Hn. destruct (serving_live _ _ Ha Hsa) as (p & Hp & Np & _).
  destruct (serving_live _ _ Hb Hsb) as (q & Hq & Nq & _).
  assert (E : ad_ProxyID a = ad_ProxyID b) by (eapply (wf_proxy_names _ Hwf); [exact Hp|exact Hq|congruence]).
  destruct (jn_proxy _ _ Ha) as (pa & na & Pa & _ & _ & _ & Ea & _). destruct (jn_proxy _ _ Hb) as (pb & nb & Pb & _ & _ & _ & Eb & _).
  pose proof (jn_listener _ _ Ha) as La. pose proof (jn_listener _ _ Hb) as Lb. rewrite E in Pa, La. rewrite Pa in Pb. rewrite La in Lb.
  injection Pb as ->. injection Lb as E1 E2 E3 E4. split; [congruence|done].
Qed.
Definition served_rows (s : site) (nodeName : string) : list access_detail :=
  List.filter (fun d => (ad_NodeName d =? nodeName)%string && serving s d) (details s).
Lemma served_rows_In s n d : d ∈ served_rows s n <-> detail s (ad_ProxyUserID d, ad_ProxyID d) = Some d /\ ad_NodeName d = n /\ serving s d = true.
Proof.
  unfold served_rows. rewrite list_elem_of_In, filter_In, <- list_elem_of_In, details_In, andb_true_iff, String.eqb_eq. done.
Qed.
Lemma listing_perm s n : ListProxyAccessesByNodeName s n ≡ₚ served_rows s n.
Proof. apply merge_sort_Permutation. Qed.

(** Whom a node of this name has to let in, and through what. *)
Definition entitled (b : Paths.tables) (nodeName u x : string) : Prop :=
  exists c user p n, credentials b !! (u, x) = Some c /\ pk_Enabled c = true /\ pk_DeletedAt c = None /\
    proxy_users b !! u = Some user /\ us_Status user = "active" /\ us_DeletedAt user = None /\
    proxies b !! x = Some p /\ pr_Enabled p = true /\ pr_DeletedAt p = None /\
    nodes b !! pr_NodeID p = Some n /\ no_Name n = nodeName /\ no_Status n = "active" /\ no_DeletedAt n = None /\
    bindings b !! (u, pr_NodeID p) = Some true.
Definition row_key (d : access_detail) : string * string := (ad_ProxyUserID d, ad_ProxyID d).
Lemma omap_keys s l : NoDup (map fst l) ->
  NoDup (map row_key (omap (fun kc : (string * string) * ProxyCredential => detail s kc.1) l)) /\
  (forall k, k ∈ map row_key (omap (fun kc : (string * string) * ProxyCredential => detail s kc.1) l) -> k ∈ map fst l).
Proof.
  induction l as [|[k c] l IH]; cbn; [split; [apply NoDup_nil_2|done]|]. intros [Hk Hnd]%NoDup_cons. destruct (IH Hnd) as [H1 H2].
  destruct (detail s k) as [d|] eqn:E; cbn.
  - assert (Ek : row_key d = k) by (destruct (detail_ids _ _ _ E) as [E1 E2], k; unfold row_key; by rewrite E1, E2).
    split.
    + apply NoDup_cons. split; [|done]. rewrite Ek. intros Hin. by apply Hk, H2.
    + intros k' [->|Hin]%elem_of_cons; [rewrite Ek; by left|right; by apply H2].
  - split; [done|]. intros k' Hin. right. by apply H2.
Qed.
Lemma served_rows_keys s n : NoDup (map row_key (served_rows s n)).
Proof.
  unfold served_rows. destruct (omap_keys s (map_to_list (credentials (rows_of s)))) as [Hnd _]; [apply NoDup_fst_map_to_list|].
  change (NoDup (map row_key (details s))) in Hnd. revert Hnd. generalize (details s) as l. intros l.
  induction l as [|d l IH]; cbn; [done|]. intros [Hd Hnd]%NoDup_cons. destruct (_ && _); cbn; [|by apply IH].
  apply NoDup_cons. split; [|by apply IH]. intros Hin. apply Hd. apply list_elem_of_fmap in Hin as (e & -> & He).
  apply list_elem_of_In, filter_In in He as [He _]. apply list_elem_of_fmap. exists e. split; [done|by apply list_elem_of_In].
Qed.
Lemma served_rows_entitled s n u x : well_formed s -> (u, x) ∈ map row_key (served_rows s n) <-> entitled (rows_of s) n u x.
Proof.
  intros Hwf. rewrite list_elem_of_fmap. split.
  - intros (d & [= -> ->] & Hin). apply served_rows_In in Hin as (Hd & Hn & Hs). pose proof (detail_joined _ _ _ Hd) as Hj.
    unfold serving in Hs. rewrite !andb_true_iff, !negb_true_iff, !is_set_false, !String.eqb_eq, bool_decide_eq_true in Hs.
    destruct Hj as [(c & Hc & _ & C1 & C2) (user & Hu & _ & U1 & U2) (p & nd & Hp & Hnd & P0 & _ & _ & P1 & P2 & N0 & N1 & N2) _].
    exists c, user, p, nd. rewrite <- C1, <- C2, <- U1, <- U2, <- P0, <- P1, <- P2, <- N0, <- N1, <- N2. rewrite <- P0 in Hnd. tauto.
  - intros (c & user & p & nd & Hc & C1 & C2 & Hu & U1 & U2 & Hp & P1 & P2 & Hnd & N0 & N1 & N2 & Hb).
    destruct (wf_listeners _ Hwf _ _ Hp) as [l Hl].
    assert (Hd : exists d, detail s (u, x) = Some d /\ ad_NodeName d = n /\ serving s d = true).
    { unfold detail. rewrite Hc. cbn. rewrite Hu. cbn. rewrite Hp. cbn. rewrite Hl. cbn. rewrite Hnd. cbn. eexists. split; [reflexivity|].
      unfold serving. cbn. split; [done|]. rewrite C1, C2, U1, U2, P1, P2, N1, N2. cbn. by rewrite bool_decide_true. }
    destruct Hd as (d & Hd & Hdn & Hs). destruct (detail_ids _ _ _ Hd) as [E1 E2]. exists d.
    split; [unfold row_key; by rewrite E1, E2|]. apply served_rows_In. split; [|done]. by rewrite E1, E2.
Qed.

(** ** Accounts *)
(** What an inbound lets in, user by user. *)
Inductive secret :=
| VLESSSecret (uuid flow serverName privateKey shortID handshakeServer : string) (handshakePort : Z)
| ShadowsocksSecret (network method serverPassword password : string).
Record account := { ac_Tag : string; ac_Listen : string; ac_Port : Z; ac_Name : string; ac_Secret : secret }.
Definition vless_account (i : vlessInbound) (u : vlessInboundUser) : account := {|
  ac_Tag := vi_Tag i; ac_Listen := vi_Listen i; ac_Port := vi_ListenPort i; ac_Name := vu_Name u;
  ac_Secret := VLESSSecret (vu_UUID u) (vu_Flow u) (vi_ServerName i) (vi_PrivateKey i) (vi_ShortID i) (vi_HandshakeServer i) (vi_HandshakePort i) |}.
Definition shadowsocks_account (i : shadowsocksInbound) (u : shadowsocksInboundUser) : account := {|
  ac_Tag := si_Tag i; ac_Listen := si_Listen i; ac_Port := si_ListenPort i; ac_Name := su_Name u;
  ac_Secret := ShadowsocksSecret (si_Network i) (si_Method i) (si_Password i) (su_Password u) |}.
Definition inbound_accounts (i : inbound) : list account :=
  match i with
  | VLESSInbound i => map (vless_account i) (vi_Users i)
  | ShadowsocksInbound i => map (shadowsocks_account i) (si_Users i)
  | MixedInbound _ _ _ => []
  end.
Definition inbound_tag (i : inbound) : string :=
  match i with VLESSInbound i => vi_Tag i | ShadowsocksInbound i => si_Tag i | MixedInbound tag _ _ => tag end.

(** Extending one entry of a map read in an order without repetition. *)
Lemma omap_insert_perm {A B} (m : gmap string A) (f : A -> list B) k i j x l :
  NoDup l -> k ∈ l -> m !! k = Some i -> f j = f i ++ [x] ->
  List.concat (map f (omap (fun n => <[k := j]> m !! n) l)) ≡ₚ List.concat (map f (omap (fun n => m !! n) l)) ++ [x].
Proof.
  intros Hnd Hk Hi Hj. induction Hnd as [|n l Hn Hnd IH]; [by apply elem_of_nil in Hk|]. cbn.
  destruct (decide (n = k)) as [->|Hne].
  - rewrite lookup_insert_eq, Hi. cbn. rewrite Hj, <- !app_assoc. f_equiv.
    assert (E : omap (fun n => <[k := j]> m !! n) l = omap (fun n => m !! n) l).
    { apply list_omap_ext. apply Forall2_same_length_lookup_2; [done|]. intros ? a b Ha Hb. rewrite Ha in Hb. injection Hb as <-.
      apply lookup_insert_ne. intros <-. apply Hn. by eapply list_elem_of_lookup_2. }
    rewrite E. apply Permutation_cons_append.
  - rewrite lookup_insert_ne by done. apply elem_of_cons in Hk as [->|Hk]; [done|]. specialize (IH Hk).
    destruct (m !! n); cbn; [|exact IH]. by rewrite IH, app_assoc.
Qed.
Lemma omap_insert_new {A B} (m : gmap string A) (f : A -> list B) k j l : k ∉ l ->
  List.concat (map f (omap (fun n => <[k := j]> m !! n) (l ++ [k]))) = List.concat (map f (omap (fun n => m !! n) l)) ++ f j.
Proof.
  intros Hk. induction l as [|n l IH]; cbn.
  - rewrite lookup_insert_eq. cbn. by rewrite app_nil_r.
  - apply not_elem_of_cons in Hk as [Hne Hk]. rewrite lookup_insert_ne by done. specialize (IH Hk).
    destruct (m !! n); cbn; [|exact IH]. by rewrite IH, app_assoc.
Qed.

Section render_proofs.
Context `{UnicodeTables}.
Context (decode_vless_settings : string -> option vlessRealitySettings)
  (decode_vless_credential : string -> option VLESSRealityCredential)
  (decode_ss_settings : string -> option Shadowsocks2022Settings)
  (decode_ss_credential : string -> option string)
  (loopback_literal : string -> bool).
Abbreviation parseVLESSReality := (parseVLESSReality decode_vless_settings decode_vless_credential).
Abbreviation parseShadowsocks2022 := (parseShadowsocks2022 decode_ss_settings decode_ss_credential).
Abbreviation render_access := (render_access decode_vless_settings decode_vless_credential decode_ss_settings decode_ss_credential).
Abbreviation render_accesses := (render_accesses decode_vless_settings decode_vless_credential decode_ss_settings decode_ss_credential).
Abbreviation RenderNodeConfig :=
  (RenderNodeConfig decode_vless_settings decode_vless_credential decode_ss_settings decode_ss_credential loopback_literal).
Abbreviation RenderMihomoProxyProvider :=
  (RenderMihomoProxyProvider decode_vless_settings decode_vless_credential decode_ss_settings decode_ss_credential).
Abbreviation mihomo_proxy := (mihomo_proxy decode_vless_settings decode_vless_credential decode_ss_settings decode_ss_credential).

(** The account a row stands for. *)
Definition account_of (d : access_detail) : rendered account :=
  if (ad_Protocol d =? ProtocolVLESSReality)%string then
    let? (st, c) := parseVLESSReality d in
    Ok {| ac_Tag := ad_ProxyName d; ac_Listen := ad_Listen d; ac_Port := ad_ListenPort d; ac_Name := ad_AuthName d;
          ac_Secret := VLESSSecret (vc_UUID c) (vc_Flow c) (vs_ServerName st) (vs_RealityPrivateKey st) (vs_ShortID st)
            (vs_HandshakeServer st) (vs_HandshakePort st) |}
  else if (ad_Protocol d =? ProtocolShadowsocks2022)%string then
    let? (st, password) := parseShadowsocks2022 d in
    Ok {| ac_Tag := ad_ProxyName d; ac_Listen := ad_Listen d; ac_Port := ad_ListenPort d; ac_Name := ad_AuthName d;
          ac_Secret := ShadowsocksSecret (singBoxNetwork (ad_Transport d)) (ss_Method st) (ss_ServerPassword st) password |}
  else Err (UnsupportedProtocol (ad_Protocol d) (ad_ProxyName d)).

(** What two rows of a proxy have in common after parsing. *)
Lemma parse_vless_same a b sa ca sb cb : same_proxy a b ->
  parseVLESSReality a = Ok (sa, ca) -> parseVLESSReality b = Ok (sb, cb) -> sa = sb.
Proof.
  intros (_ & _ & _ & _ & E). unfold Render.parseVLESSReality. rewrite E. intros Ha Hb. break_all Ha. break_all Hb. done.
Qed.
Lemma parse_ss_same a b sa ca sb cb : same_proxy a b ->
  parseShadowsocks2022 a = Ok (sa, ca) -> parseShadowsocks2022 b = Ok (sb, cb) -> sa = sb.
Proof.
  intros (_ & _ & _ & _ & E). unfold Render.parseShadowsocks2022. rewrite E. intros Ha Hb. break_all Ha. break_all Hb. done.
Qed.

(** The inbound opened for a row. *)
Definition opened (d : access_detail) (i : inbound) : Prop :=
  match i with
  | VLESSInbound i => ad_Protocol d = ProtocolVLESSReality /\ exists st c users, parseVLESSReality d = Ok (st, c) /\
      i = foldl add_vless_user (new_vless d st) users
  | ShadowsocksInbound i => ad_Protocol d = ProtocolShadowsocks2022 /\ exists st c users, parseShadowsocks2022 d = Ok (st, c) /\
      i = foldl add_shadowsocks_user (new_shadowsocks d st) users
  | MixedInbound _ _ _ => False
  end.
Lemma vless_fold i users :
  foldl add_vless_user i users = {| vi_Tag := vi_Tag i; vi_Listen := vi_Listen i; vi_ListenPort := vi_ListenPort i;
    vi_Users := vi_Users i ++ users; vi_ServerName := vi_ServerName i; vi_HandshakeServer := vi_HandshakeServer i;
    vi_HandshakePort := vi_HandshakePort i; vi_PrivateKey := vi_PrivateKey i; vi_ShortID := vi_ShortID i |}.
Proof.
  revert i. induction users as [|u users IH]; intros i; cbn [foldl].
  - rewrite app_nil_r. by destruct i.
  - rewrite IH. cbn. by rewrite <- app_assoc.
Qed.
Lemma shadowsocks_fold i users :
  foldl add_shadowsocks_user i users = {| si_Tag := si_Tag i; si_Listen := si_Listen i; si_ListenPort := si_ListenPort i;
    si_Network := si_Network i; si_Method := si_Method i; si_Password := si_Password i; si_Users := si_Users i ++ users |}.
Proof.
  revert i. induction users as [|u users IH]; intros i; cbn [foldl].
  - rewrite app_nil_r. by destruct i.
  - rewrite IH. cbn. by rewrite <- app_assoc.
Qed.

(** After the rows [done]. *)
Abbreviation accounts_in st := (List.concat (map inbound_accounts (omap (fun n => ib_ByName st !! n) (ib_Order st)))).
Record built (done : list access_detail) (st : inbounds) : Prop := {
  bu_nodup : NoDup (ib_Order st);
  bu_known : forall name, is_Some (ib_ByName st !! name) <-> name ∈ ib_Order st;
  bu_opened : forall name i, ib_ByName st !! name = Some i -> exists d, d ∈ done /\ ad_ProxyName d = name /\ opened d i;
  bu_accounts : exists accs, Forall2 (fun d a => account_of d = Ok a) done accs /\ accounts_in st ≡ₚ accs;
  bu_stats : ib_Stats st = map ad_AuthName done
}.
Lemma built_nil : built [] no_inbounds.
Proof.
  split; cbn.
  - apply NoDup_nil_2.
  - intros name. rewrite lookup_empty. split; [by intros []|by intros ?%elem_of_nil].
  - intros name i. by rewrite lookup_empty.
  - exists []. by split.
  - done.
Qed.
Lemma opened_tag d i : opened d i -> inbound_tag i = ad_ProxyName d.
Proof.
  destruct i as [i|i|]; cbn; [| |done]; intros (_ & st & c & users & _ & ->); by rewrite ?vless_fold, ?shadowsocks_fold.
Qed.

Section put.
Context (seen : list access_detail) (st : inbounds) (d : access_detail) (i : inbound) (a : account).
Hypotheses (Hb : built seen st) (Ha : account_of d = Ok a)
  (Ho : exists d', d' ∈ seen ++ [d] /\ ad_ProxyName d' = ad_ProxyName d /\ opened d' i).
Lemma put_opened is_new name j :
  ib_ByName (put_inbound st (ad_ProxyName d) i is_new (ad_AuthName d)) !! name = Some j ->
  exists d', d' ∈ seen ++ [d] /\ ad_ProxyName d' = name /\ opened d' j.
Proof.
  cbn. destruct (decide (name = ad_ProxyName d)) as [->|Hne].
  - rewrite lookup_insert_eq. by intros [= <-].
  - rewrite lookup_insert_ne by done. intros Hj. destruct (bu_opened _ _ Hb _ _ Hj) as (d' & Hd & Hn & Hop).
    exists d'. split; [apply elem_of_app; by left|done].
Qed.
Lemma built_new : ib_ByName st !! ad_ProxyName d = None -> inbound_accounts i = [a] ->
  built (seen ++ [d]) (put_inbound st (ad_ProxyName d) i true (ad_AuthName d)).
Proof.
  intros Hnone Hi. destruct Hb as [Hnd Hk _ (accs & Hf & Hp) Hs].
  assert (Hnew : ad_ProxyName d ∉ ib_Order st) by (intros E; apply Hk in E; rewrite Hnone in E; by destruct E).
  split; [| |exact (put_opened true)| |]; cbn.
  - apply NoDup_app. split; [done|]. split; [|apply NoDup_singleton]. by intros x Hx ->%list_elem_of_singleton.
  - intros name. rewrite elem_of_app, list_elem_of_singleton, <- Hk. destruct (decide (name = ad_ProxyName d)) as [->|Hne].
    + rewrite lookup_insert_eq. split; [by right|by eexists].
    + rewrite lookup_insert_ne by done. split; [by left|by intros [?|?]].
  - exists (accs ++ [a]). split; [apply Forall2_app; [done|]; by repeat constructor|].
    rewrite omap_insert_new by done. by rewrite Hp, Hi.
  - by rewrite Hs, map_app.
Qed.
Lemma built_more i0 : ib_ByName st !! ad_ProxyName d = Some i0 -> inbound_accounts i = inbound_accounts i0 ++ [a] ->
  built (seen ++ [d]) (put_inbound st (ad_ProxyName d) i false (ad_AuthName d)).
Proof.
  intros Hi0 Hi. destruct Hb as [Hnd Hk _ (accs & Hf & Hp) Hs].
  assert (Hin : ad_ProxyName d ∈ ib_Order st) by (apply Hk; by eexists).
  split; [done| |exact (put_opened false)| |]; cbn.
  - intros name. rewrite <- Hk. destruct (decide (name = ad_ProxyName d)) as [->|Hne].
    + rewrite lookup_insert_eq, Hi0. split; by eexists.
    + by rewrite lookup_insert_ne.
  - exists (accs ++ [a]). split; [apply Forall2_app; [done|]; by repeat constructor|].
    rewrite (omap_insert_perm _ inbound_accounts _ i0 i a) by done. by rewrite Hp.
  - by rewrite Hs, map_app.
Qed.
End put.

Lemma render_access_built seen st d st' : (forall a, a ∈ seen -> ad_ProxyName a = ad_ProxyName d -> same_proxy a d) ->
  built seen st -> render_access st d = Ok st' -> built (seen ++ [d]) st'.
Proof.
  intros Hsame Hb. unfold Render.render_access. destruct (ad_Protocol d =? ProtocolVLESSReality)%string eqn:Ev.
  - destruct (parseVLESSReality d) as [[s c]|] eqn:Ep; [|done]. set (u := {| vu_Name := _ |}).
    assert (Ha : account_of d = Ok (vless_account (new_vless d s) u)) by (unfold account_of; by rewrite Ev, Ep).
    apply String.eqb_eq in Ev. destruct (ib_ByName st !! ad_ProxyName d) as [i0|] eqn:Ei.
    + destruct (bu_opened _ _ Hb _ _ Ei) as (d' & Hd & Hn & Hop). pose proof (Hsame _ Hd Hn) as Hs.
      destruct i0 as [i0|i0|]; cbn in Hop; [|by destruct Hop as [Hop _], Hs as [Hs _]; rewrite Hop, Ev in Hs|done].
      destruct Hop as (Hv & s' & c' & users & Hp & ->). pose proof (parse_vless_same _ _ _ _ _ _ Hs Hp Ep) as ->.
      intros [= <-]. eapply built_more; [exact Hb|exact Ha| |exact Ei|].
      * exists d'. split; [apply elem_of_app; by left|]. split; [done|]. cbn. split; [done|]. exists s, c', (users ++ [u]).
        split; [done|]. by rewrite foldl_app.
      * rewrite vless_fold. cbn. rewrite map_app. cbn. destruct Hs as (_ & E1 & E2 & _). unfold vless_account. cbn.
        by rewrite Hn, E1, E2.
    + intros [= <-]. eapply built_new; [exact Hb|exact Ha| |exact Ei|done].
      exists d. split; [apply elem_of_app; right; by left|]. split; [done|]. cbn. split; [done|]. by exists s, c, [u].
  - destruct (ad_Protocol d =? ProtocolShadowsocks2022)%string eqn:Ess; [|done].
    destruct (parseShadowsocks2022 d) as [[s c]|] eqn:Ep; [|done]. set (u := {| su_Name := _ |}).
    assert (Ha : account_of d = Ok (shadowsocks_account (new_shadowsocks d s) u)) by (unfold account_of; by rewrite Ev, Ess, Ep).
    apply String.eqb_eq in Ess. destruct (ib_ByName st !! ad_ProxyName d) as [i0|] eqn:Ei.
    + destruct (bu_opened _ _ Hb _ _ Ei) as (d' & Hd & Hn & Hop). pose proof (Hsame _ Hd Hn) as Hs.
      destruct i0 as [i0|i0|]; cbn in Hop; [by destruct Hop as [Hop _], Hs as [Hs _]; rewrite Hop, Ess in Hs| |done].
      destruct Hop as (Hv & s' & c' & users & Hp & ->). pose proof (parse_ss_same _ _ _ _ _ _ Hs Hp Ep) as ->.
      intros [= <-]. eapply built_more; [exact Hb|exact Ha| |exact Ei|].
      * exists d'. split; [apply elem_of_app; by left|]. split; [done|]. cbn. split; [done|]. exists s, c', (users ++ [u]).
        split; [done|]. by rewrite foldl_app.
      * rewrite shadowsocks_fold. cbn. rewrite map_app. cbn. destruct Hs as (_ & E1 & E2 & E3 & _). unfold shadowsocks_account. cbn.
        by rewrite Hn, E1, E2, E3.
    + intros [= <-]. eapply built_new; [exact Hb|exact Ha| |exact Ei|done].
      exists d. split; [apply elem_of_app; right; by left|]. split; [done|]. cbn. split; [done|]. by exists s, c, [u].
Qed.
Lemma render_accesses_built l : forall seen st st',
  (forall a b, a ∈ seen ++ l -> b ∈ seen ++ l -> ad_ProxyName a = ad_ProxyName b -> same_proxy a b) ->
  built seen st -> render_accesses st l = Ok st' -> built (seen ++ l) st'.
Proof.
  induction l as [|d l IH]; intros seen st st' Hs Hb; cbn [Render.render_accesses].
  - intros [= <-]. by rewrite app_nil_r.
  - destruct (render_access st d) as [st1|] eqn:E; [|done]. rewrite cons_middle, app_assoc. intros Hr.
    apply (IH _ st1); [by rewrite <- app_assoc| |exact Hr]. eapply render_access_built; [|exact Hb|exact E].
    intros a Ha Hn. apply Hs; [apply elem_of_app; by left|apply elem_of_app; right; by left|done].
Qed.

(** What a successful rendering of a node is made of. *)
Lemma RenderNodeConfig_inv s nodeName cfg : RenderNodeConfig s nodeName = Ok cfg ->
  exists node, GetNode (rows_of s) nodeName = Ok node /\
    let rows := ListProxyAccessesByNodeName s (no_Name node) in
    (rows = [] /\ cfg = emptyNodeConfig) \/
    (exists st telemetry, render_accesses no_inbounds rows = Ok st /\
       connectionTelemetryService loopback_literal s nodeName = Ok telemetry /\
       cfg = node_config (omap (fun name => ib_ByName st !! name) (ib_Order st))
               (match telemetry with Some service => [service] | None => [] end) (ib_Stats st)).
Proof.
  unfold Render.RenderNodeConfig, ListProxyCredentialsByNode. destruct (GetNode (rows_of s) nodeName) as [node|]; cbn [lookup]; [|done].
  intros Hr. exists node. split; [done|]. cbn zeta. destruct (ListProxyAccessesByNodeName s (no_Name node)) as [|d l].
  - injection Hr as <-. by left.
  - destruct (connectionTelemetryService _ _ _) as [t|] eqn:Et; [|done]. destruct (render_accesses no_inbounds (d :: l)) as [st|] eqn:Est; [|done].
    injection Hr as <-. right. by exists st, t.
Qed.
Lemma listing_same_proxy s n : well_formed s -> forall a b, a ∈ ListProxyAccessesByNodeName s n -> b ∈ ListProxyAccessesByNodeName s n ->
  ad_ProxyName a = ad_ProxyName b -> same_proxy a b.
Proof.
  intros Hwf a b. rewrite (listing_perm s n). intros (Ha & _ & Hsa)%served_rows_In (Hb & _ & Hsb)%served_rows_In.
  apply (served_same_name s); [done|by eapply detail_joined|by eapply detail_joined|done..].
Qed.
Lemma built_tags seen st : built seen st -> map inbound_tag (omap (fun name => ib_ByName st !! name) (ib_Order st)) = ib_Order st.
Proof.
  intros Hb. assert (Hk : Forall (fun n => exists i, ib_ByName st !! n = Some i /\ inbound_tag i = n) (ib_Order st)).
  { apply Forall_forall. intros n Hn. apply (bu_known _ _ Hb) in Hn as [i Hi]. exists i. split; [done|].
    destruct (bu_opened _ _ Hb _ _ Hi) as (d & _ & <- & Ho). by apply opened_tag. }
  induction Hk as [|n l (i & Hi & Ht) _ IH]; [done|]. cbn. rewrite Hi. cbn. by rewrite Ht, IH.
Qed.

(** The accounts of a configuration are those of the rows. *)
Lemma rendered_accounts s nodeName cfg : well_formed s -> RenderNodeConfig s nodeName = Ok cfg ->
  exists node accounts, GetNode (rows_of s) nodeName = Ok node /\
    Forall2 (fun d a => account_of d = Ok a) (served_rows s (no_Name node)) accounts /\
    List.concat (map inbound_accounts (sc_Inbounds cfg)) ≡ₚ accounts /\ NoDup (map inbound_tag (sc_Inbounds cfg)) /\
    exists users, sc_StatsUsers cfg = Some users /\ users ≡ₚ map ac_Name accounts.
Proof.
  intros Hwf Hr. destruct (RenderNodeConfig_inv _ _ _ Hr) as (node & Hn & Hcase). cbn zeta in Hcase. exists node.
  destruct Hcase as [[Hnil ->]|(st & t & Hst & _ & ->)].
  - assert (Hr0 : served_rows s (no_Name node) = []) by (apply Permutation_nil; rewrite <- Hnil; apply listing_perm).
    exists []. rewrite Hr0. split; [done|]. split; [constructor|]. split; [done|]. split; [apply NoDup_nil_2|]. by exists [].
  - assert (Hb : built ([] ++ ListProxyAccessesByNodeName s (no_Name node)) st).
    { eapply render_accesses_built; [|apply built_nil|exact Hst]. cbn. by apply listing_same_proxy. }
    cbn in Hb. destruct (bu_accounts _ _ Hb) as (accs & Hf & Hp).
    destruct (Permutation_Forall2 (listing_perm s (no_Name node)) Hf) as (accs' & Hpa & Hf').
    exists accs'. split; [done|]. split; [done|]. split; [by rewrite Hp|]. split.
    + cbn [sc_Inbounds node_config]. rewrite (built_tags _ _ Hb). apply Hb.
    + exists (ib_Stats st). split; [done|]. rewrite (bu_stats _ _ Hb), <- Hpa.
      assert (E : map ad_AuthName (ListProxyAccessesByNodeName s (no_Name node)) = map ac_Name accs); [|by rewrite E].
      clear -Hf. induction Hf as [|d a l k Ha _ IH]; [done|]. cbn. rewrite IH. f_equal. unfold account_of in Ha. by break_all Ha.
Qed.
Lemma row_in_config s nodeName cfg node d : well_formed s -> RenderNodeConfig s nodeName = Ok cfg ->
  GetNode (rows_of s) nodeName = Ok node -> d ∈ served_rows s (no_Name node) ->
  exists i a, i ∈ sc_Inbounds cfg /\ inbound_tag i = ad_ProxyName d /\ a ∈ inbound_accounts i /\ account_of d = Ok a.
Proof.
  intros Hwf Hr Hn Hd. destruct (rendered_accounts _ _ _ Hwf Hr) as (node2 & accounts & Hn2 & Hf & Hp & _).
  rewrite Hn in Hn2. injection Hn2 as <-. apply list_elem_of_lookup in Hd as [k Hk].
  destruct (Forall2_lookup_l _ _ _ _ _ Hf Hk) as (a & Ha & Hda). apply list_elem_of_lookup_2 in Ha. rewrite <- Hp in Ha.
  apply list_elem_of_In, in_concat in Ha as (accs & Hin & Ha). apply in_map_iff in Hin as (i & <- & Hi).
  exists i, a. split; [by apply list_elem_of_In|]. apply list_elem_of_In in Ha. split; [|done].
  assert (Ht : ac_Tag a = inbound_tag i).
  { destruct i as [i|i|]; cbn in *; [| |by apply elem_of_nil in Ha]; by apply list_elem_of_fmap in Ha as (u & -> & _). }
  rewrite <- Ht. unfold account_of in Hda. by break_all Hda.
Qed.

(** a node lets in exactly the accounts it should: its configuration, when
    there is one, holds one account for every user and proxy of the node with an
    active, enabled and bound credential row, made from that row, and no other;
    inbounds have distinct tags, and each account is metered. *)
Theorem node_serves_its_rows s nodeName cfg : well_formed s -> RenderNodeConfig s nodeName = Ok cfg ->
  exists node rows accounts, GetNode (rows_of s) nodeName = Ok node /\
    NoDup (map row_key rows) /\ (forall u x, (u, x) ∈ map row_key rows <-> entitled (rows_of s) (no_Name node) u x) /\
    Forall2 (fun d a => detail s (row_key d) = Some d /\ account_of d = Ok a) rows accounts /\
    List.concat (map inbound_accounts (sc_Inbounds cfg)) ≡ₚ accounts /\ NoDup (map inbound_tag (sc_Inbounds cfg)) /\
    exists users, sc_StatsUsers cfg = Some users /\ users ≡ₚ map ac_Name accounts.
Proof.
  intros Hwf Hr. destruct (rendered_accounts _ _ _ Hwf Hr) as (node & accounts & Hn & Hf & Hrest).
  exists node, (served_rows s (no_Name node)), accounts. split; [done|]. split; [apply served_rows_keys|].
  split; [intros u x; by apply served_rows_entitled|]. split; [|exact Hrest].
  apply Forall2_same_length_lookup_2; [by eapply Forall2_length|]. intros i d a Hd Ha. split.
  - apply list_elem_of_lookup_2, served_rows_In in Hd. apply Hd.
  - by eapply (Forall2_lookup_lr _ _ _ _ _ _ Hf).
Qed.

(** connection telemetry fails closed: a service is only rendered from an
    enabled row, on a literal loopback address, a port in range and with a secret
    of at least 32 bytes; an enabled row that breaks one of these rules stops
    the rendering of a node that serves anybody. *)
Theorem telemetry_fails_closed s nodeName cfg service : RenderNodeConfig s nodeName = Ok cfg -> service ∈ sc_Services cfg ->
  sc_Services cfg = [service] /\ loopback_literal (TrimSpace (as_Listen service)) = true /\ 0 < as_ListenPort service <= 65535 /\
  (32 <= String.length (TrimSpace (as_Secret service)))%nat /\
  exists node row, GetNode (rows_of s) nodeName = Ok node /\ node_connection_telemetry s !! no_ID node = Some row /\ ct_Enabled row = true /\
    as_Secret service = ct_Secret row.
Proof.
  intros Hr Hin. destruct (RenderNodeConfig_inv _ _ _ Hr) as (node & Hn & Hcase). cbn zeta in Hcase.
  destruct Hcase as [[_ ->]|(st & t & _ & Ht & ->)]; [by apply elem_of_nil in Hin|].
  unfold connectionTelemetryService in Ht. rewrite Hn in Ht. cbn [lookup] in Ht.
  destruct (node_connection_telemetry s !! no_ID node) as [row|] eqn:Erow; [|injection Ht as <-; by apply elem_of_nil in Hin].
  destruct (ct_Enabled row) eqn:Een; cbn in Ht; [|injection Ht as <-; by apply elem_of_nil in Hin].
  destruct (ValidateConnectionTelemetryListen _ _ _) eqn:El; [|done]. destruct (ValidateConnectionTelemetrySecret _) eqn:Es; [|done].
  injection Ht as <-. cbn in Hin. apply list_elem_of_singleton in Hin as ->. split; [done|]. cbn.
  unfold ValidateConnectionTelemetryListen in El. unfold ValidateConnectionTelemetrySecret, MinConnectionTelemetrySecretLength in Es.
  breflect. apply Nat.ltb_ge in Es. split; [done|]. split; [lia|]. split; [exact Es|]. by exists node, row.
Qed.

(** ** Subscriptions *)
(** What the checks of a hop leave known. *)
Record hop_checks (b : Paths.tables) (user : ProxyUser) (h : ResolvedPath) (node : Node) : Prop := {
  hc_proxy : live_proxy b (px_ID (rp_Proxy h)) = Some (rp_Proxy h);
  hc_enabled : px_Enabled (rp_Proxy h) = true;
  hc_trimmed : TrimSpace (px_ID (rp_Proxy h)) = px_ID (rp_Proxy h);
  hc_name : rp_Name h = published_name (rp_Path h) (rp_Proxy h);
  hc_node : GetNode b (px_NodeName (rp_Proxy h)) = Ok node;
  hc_status : no_Status node = "active";
  hc_binding : bindings b !! (us_ID user, no_ID node) = Some true;
  hc_credential : exists c, credentials b !! (TrimSpace (us_ID user), px_ID (rp_Proxy h)) = Some c /\ pk_Enabled c = true /\ pk_DeletedAt c = None
}.
Lemma live_proxy_row b x p : live_proxy b x = Some p -> exists r, proxies b !! x = Some r /\ px_Name p = pr_Name r.
Proof. intros (row & n & Hr & _ & _ & _ & ->)%live_proxy_Some. by exists row. Qed.
Lemma live_proxy_node s x p : well_formed s -> live_proxy (rows_of s) x = Some p ->
  exists r n, proxies (rows_of s) !! x = Some r /\ nodes (rows_of s) !! pr_NodeID r = Some n /\ no_Name n = px_NodeName p /\
    pr_DeletedAt r = None /\ no_DeletedAt n = None /\ px_NodeID p = pr_NodeID r /\ no_ID n = pr_NodeID r /\
    px_Name p = pr_Name r /\ px_Protocol p = pr_Protocol r /\ px_Enabled p = pr_Enabled r /\
    GetNode (rows_of s) (px_NodeName p) = Ok n.
Proof.
  intros Hwf. unfold live_proxy. destruct (proxies (rows_of s) !! x) as [r|] eqn:Er; [|done]. cbn.
  destruct (nodes (rows_of s) !! _) as [n|] eqn:En; [|done]. cbn.
  destruct (pr_DeletedAt r) eqn:E1, (no_DeletedAt n) eqn:E2; [done..|]. intros [= <-]. exists r, n. cbn.
  pose proof (wf_nodes _ Hwf _ _ En). pose proof (wf_node_names _ Hwf _ _ En E2). done.
Qed.
Lemma resolve_hop_checks s user k h : well_formed s -> resolve_hop (rows_of s) user k = Ok h ->
  exists node, hop_checks (rows_of s) user h node.
Proof.
  intros Hwf. set (b := rows_of s). unfold resolve_hop. destruct (lift (GetPath b k)) as [path|]; [|done]. destruct (pa_Enabled path); [|done].
  destruct (lift (GetEndpoint _ _)) as [e|]; [|done]. destruct (ep_Enabled e); [|done].
  unfold ResolveEndpoint, validateEndpointPair, GetProxyByID.
  destruct (live_proxy b (TrimSpace (ep_ProxyID e))) as [px|] eqn:Epx; [|done].
  destruct (GetNode b (px_NodeName px)) as [node|] eqn:En; [|done]. destruct (find_host _ _) as [host|]; [|done]. cbn [lift].
  destruct (px_Enabled px) eqn:Ee; [|done]. rewrite En. cbn [lift]. destruct (no_Status node =? "active")%string eqn:Es; [|done].
  destruct (lift (PathResolve.GetUserNodeBinding _ _ _)) as [bd|] eqn:Eb; [|done]. destruct bd; [|done].
  unfold GetProxyCredentialByIDs. destruct (credentials b !! _) as [c|] eqn:Ec; [|done]. cbn [lift].
  destruct (negb (_ || _)) eqn:Ed; [|done]. intros [= <-]. exists node. apply String.eqb_eq in Es.
  pose proof (live_proxy_id _ _ _ Epx) as Hid.
  assert (Htr : TrimSpace (px_ID px) = px_ID px) by (rewrite Hid; apply TrimSpace_idem).
  split; cbn [rp_Proxy rp_Path rp_Name]; [by rewrite Hid|done|done|done|done|done| |].
  - destruct (live_proxy_node _ _ _ Hwf Epx) as (r & n & _ & _ & Hname & _ & _ & _ & _ & _ & _ & _ & Hn).
    change (rows_of s) with b in Hn. rewrite En in Hn. injection Hn as ->.
    unfold PathResolve.GetUserNodeBinding in Eb. rewrite Hname, En in Eb. destruct (bindings b !! _) as [v|]; [|done]. by injection Eb as ->.
  - exists c. rewrite Htr in Ec. apply negb_true_iff, orb_false_iff in Ed as [E1 E2]. split; [exact Ec|]. apply negb_false_iff in E1.
    split; [done|]. apply bool_decide_eq_false in E2. by apply eq_None_not_Some.
Qed.

(** A usable hop is served by the node of its proxy. *)
Lemma hop_served s user p d node : well_formed s -> proxy_users (rows_of s) !! us_ID user = Some user ->
  us_DeletedAt user = None -> us_Status user = "active" -> hop_checks (rows_of s) user p node -> path_credential s user p = Ok d ->
  d ∈ served_rows s (no_Name node) /\ ad_ProxyName d = px_Name (rp_Proxy p) /\ ad_Protocol d = px_Protocol (rp_Proxy p) /\
  no_Name node = px_NodeName (rp_Proxy p).
Proof.
  intros Hwf Hu Hdel Hact Hc. unfold path_credential. destruct (detail s _) as [d'|] eqn:Ed; [|done]. intros [= ->].
  destruct (detail_ids _ _ _ Ed) as [E1 E2]. cbn in E1, E2.
  destruct (live_proxy_node _ _ _ Hwf (hc_proxy _ _ _ _ Hc)) as (r & n & Hr & Hn & Hname & Hrd & Hnd & _ & Hnid & Hpn & Hpp & Hpe & Hg).
  rewrite (hc_node _ _ _ _ Hc) in Hg. injection Hg as ->.
  destruct (detail_joined _ _ _ Ed) as [(c & Hcr & _ & C1 & C2) (u & Hu2 & _ & U1 & U2) (q & m & Hq & Hm & P0 & P1 & P2 & P3 & P4 & N0 & N1 & N2) _].
  rewrite E1, E2 in Hcr. rewrite E1, Hu in Hu2. injection Hu2 as <-. rewrite E2, Hr in Hq. injection Hq as <-. rewrite Hn in Hm. injection Hm as <-.
  destruct (hc_credential _ _ _ _ Hc) as (c2 & Hc2 & C3 & C4). rewrite (proj2 (wf_users _ Hwf _ _ Hu)), Hcr in Hc2. injection Hc2 as <-.
  split; [|by rewrite P1, P2]. apply served_rows_In. split; [by rewrite E1, E2|]. split; [done|].
  unfold serving. rewrite C1, C2, C3, C4, U1, U2, Hact, Hdel, P3, P4, N1, N2, Hrd, Hnd, (hc_status _ _ _ _ Hc), <- Hpe, (hc_enabled _ _ _ _ Hc).
  rewrite E1, P0, <- Hnid, (hc_binding _ _ _ _ Hc). cbn. by rewrite bool_decide_true.
Qed.

Definition mihomo_name (m : mihomoProxy) : string :=
  match m with MihomoVLESS n _ _ _ _ _ _ _ _ => n | MihomoShadowsocks n _ _ _ _ _ _ => n end.
Definition mihomo_server (m : mihomoProxy) : string :=
  match m with MihomoVLESS _ h _ _ _ _ _ _ _ => h | MihomoShadowsocks _ h _ _ _ _ _ => h end.
Definition mihomo_dialer (m : mihomoProxy) : string :=
  match m with MihomoVLESS _ _ _ _ _ _ _ _ d => d | MihomoShadowsocks _ _ _ _ _ _ d => d end.
(** What a client dials with. *)
Inductive presented :=
| PresentVLESS (port : Z) (uuid flow serverName publicKey shortID : string)
| PresentShadowsocks (port : Z) (cipher password : string) (udp : bool).
Definition mihomo_presents (m : mihomoProxy) : presented :=
  match m with
  | MihomoVLESS _ _ port uuid flow serverName publicKey shortID _ => PresentVLESS port uuid flow serverName publicKey shortID
  | MihomoShadowsocks _ _ port cipher password udp _ => PresentShadowsocks port cipher password udp
  end.
Definition outbound_presents (o : outbound) : option presented :=
  match o with
  | VLESSOutbound o => Some (PresentVLESS (vo_ServerPort o) (vo_UUID o) (vo_Flow o) (vo_ServerName o) (vo_PublicKey o) (vo_ShortID o))
  | ShadowsocksOutbound o => Some (PresentShadowsocks (so_ServerPort o) (so_Method o) (so_Password o) false)
  | PlainOutbound _ _ => None
  end.
(** What is presented is what the account asks for: port, secret, and the
    parameters of the handshake; the two Reality keys come from one settings
    document. *)
Definition admits (a : account) (m : presented) : Prop :=
  match ac_Secret a, m with
  | VLESSSecret uuid flow serverName privateKey shortID _ _, PresentVLESS port uuid' flow' serverName' publicKey shortID' =>
      port = ac_Port a /\ uuid' = uuid /\ flow' = flow /\ serverName' = serverName /\ shortID' = shortID /\
      exists document st, decode_vless_settings document = Some st /\ privateKey = vs_RealityPrivateKey st /\ publicKey = vs_RealityPublicKey st
  | ShadowsocksSecret network method serverPassword password, PresentShadowsocks port cipher password' udp =>
      port = ac_Port a /\ cipher = method /\ password' = (serverPassword ++ ":" ++ password)%string /\ (udp = true -> network <> "tcp"%string)
  | _, _ => False
  end.
(** Both halves parsed from one row fit. *)
Lemma vless_fits d st c : parseVLESSReality d = Ok (st, c) ->
  exists document st0, decode_vless_settings document = Some st0 /\ vs_RealityPrivateKey st = vs_RealityPrivateKey st0 /\
    vs_RealityPublicKey st = vs_RealityPublicKey st0.
Proof.
  unfold Render.parseVLESSReality. destruct (decode_vless_settings (ad_SettingsJSON d)) as [st0|] eqn:Ed; [|done].
  intros Ep. exists (ad_SettingsJSON d), st0. split; [done|]. by break_all Ep.
Qed.
Lemma mihomo_proxy_admitted p d m a : ad_Protocol d = px_Protocol (rp_Proxy p) -> mihomo_proxy p d = Ok m -> account_of d = Ok a ->
  admits a (mihomo_presents m).
Proof.
  intros Hp. unfold Render.mihomo_proxy, account_of. rewrite Hp. destruct (_ =? ProtocolVLESSReality)%string.
  - destruct (parseVLESSReality d) as [[st c]|] eqn:Ep; [|done]. intros [= <-] [= <-]. cbn. do 5 (split; [done|]). by eapply vless_fits.
  - destruct (_ =? ProtocolShadowsocks2022)%string; [|done]. destruct (parseShadowsocks2022 d) as [[st password]|]; [|done].
    intros [= <-] [= <-]. cbn. do 3 (split; [done|]). unfold singBoxNetwork. intros Hu. apply negb_true_iff, String.eqb_neq in Hu.
    by destruct (_ || _).
Qed.
Lemma mihomo_proxy_names p d m : mihomo_proxy p d = Ok m ->
  mihomo_name m = rp_Name p /\ mihomo_server m = nh_Host (rp_Host p) /\ mihomo_dialer m = dialer_name p.
Proof. unfold Render.mihomo_proxy. intros Hm. by break_all Hm. Qed.
Lemma mihomo_proxies_spec s user l ms :
  mihomo_proxies decode_vless_settings decode_vless_credential decode_ss_settings decode_ss_credential s user l = Ok ms ->
  Forall2 (fun p m => exists d, path_credential s user p = Ok d /\ mihomo_proxy p d = Ok m) l ms.
Proof.
  revert ms. induction l as [|p l IH]; intros ms; cbn [mihomo_proxies]; [by intros [= <-]|].
  destruct (path_credential s user p) as [d|] eqn:Ed; [|done]. destruct (mihomo_proxy p d) as [m|] eqn:Em; [|done].
  destruct (mihomo_proxies _ _ _ _ s user l) as [rest|] eqn:Er; [|done]. intros [= <-]. constructor; [by exists d|by apply IH].
Qed.
(** What a provider document is made of. *)
Lemma provider_inv s userName l : well_formed s -> RenderMihomoProxyProvider s userName = Ok l ->
  exists r user, ForUser (rows_of s) userName = Ok r /\ proxy_users (rows_of s) !! us_ID user = Some user /\
    us_DeletedAt user = None /\ us_Status user = "active" /\
    Forall2 (fun p m => faithful (rows_of s) user p /\ exists d, path_credential s user p = Ok d /\ mihomo_proxy p d = Ok m) (Ordered r) l.
Proof.
  intros Hwf. unfold Render.RenderMihomoProxyProvider. destruct (ForUser (rows_of s) userName) as [r|] eqn:Er; cbn [resolved_for]; [|done].
  destruct (ForUser_faithful _ (wf_keyed _ Hwf) (wf_dialers _ Hwf) _ _ Er) as (user & Hu & Hact & Hf). rewrite Hu. cbn [lookup].
  intros Hm. apply mihomo_proxies_spec in Hm. exists r, user. destruct (GetProxyUser_found _ _ _ Hu) as (k & Hk & Hdel).
  destruct (wf_users _ Hwf _ _ Hk) as [Hid _]. rewrite Hid. split_and!; [done..|].
  apply Forall2_same_length_lookup_2; [by eapply Forall2_length|]. intros i p m Hp Hi. split.
  - apply Hf. by eapply list_elem_of_lookup_2.
  - by eapply (Forall2_lookup_lr _ _ _ _ _ _ Hm).
Qed.

(** C3: what a subscription promises is served: for every path of a provider
    document, whenever the configuration of the path's node can be rendered, it
    has an inbound with the tag of the path's proxy and an account in it that
    admits what the client will present: same port, secret, server name and
    short id, with the private key that goes with the public key it was given. *)
Theorem subscription_is_served s userName l : well_formed s -> RenderMihomoProxyProvider s userName = Ok l ->
  exists r, ForUser (rows_of s) userName = Ok r /\
    Forall2 (fun p m => mihomo_name m = rp_Name p /\ mihomo_server m = nh_Host (rp_Host p) /\
      forall cfg, RenderNodeConfig s (px_NodeName (rp_Proxy p)) = Ok cfg ->
        exists i a, i ∈ sc_Inbounds cfg /\ inbound_tag i = px_Name (rp_Proxy p) /\ a ∈ inbound_accounts i /\ admits a (mihomo_presents m)) (Ordered r) l.
Proof.
  intros Hwf Hr. destruct (provider_inv _ _ _ Hwf Hr) as (r & user & Hf & Hu & Hdel & Hact & Hl). exists r. split; [done|].
  eapply Forall2_impl; [exact Hl|]. intros p m [[Hfa _] (d & Hd & Hm)]. destruct (mihomo_proxy_names _ _ _ Hm) as (E1 & E2 & _).
  split; [done|]. split; [done|]. intros cfg Hcfg. destruct (resolve_hop_checks _ _ _ _ Hwf Hfa) as [node Hc].
  destruct (hop_served s user p d node) as (Hin & Hn & Hp & _); [done|done|done|done| |done|].
  { destruct Hc. by split. }
  destruct (row_in_config _ _ _ _ _ Hwf Hcfg (hc_node _ _ _ _ Hc) Hin) as (i & a & Hi & Ht & Ha & Hacc).
  exists i, a. split; [done|]. split; [by rewrite Ht|]. split; [done|]. by eapply mihomo_proxy_admitted.
Qed.

Lemma published_name_ne s user q : well_formed s -> faithful (rows_of s) user q -> rp_Name q <> "".
Proof.
  intros Hwf [Hq _]. destruct (resolve_hop_checks _ _ _ _ Hwf Hq) as [node Hc]. pose proof (hc_name _ _ _ _ Hc) as Hn.
  change (rp_Name q = published_name (rp_Path q) (rp_Proxy q)) in Hn. rewrite Hn. unfold published_name.
  destruct (pa_DisplayName (rp_Path q) =? "")%string eqn:E; [|by apply String.eqb_neq in E]. by destruct (px_Name (rp_Proxy q)).
Qed.

(** a provider document keeps to the chains: names are unique, a path with
    a dialer is never published as one that is dialled directly (nor the
    reverse), and the proxy it names as its dialer is there, earlier. *)
Theorem provider_keeps_chains s userName l : well_formed s -> RenderMihomoProxyProvider s userName = Ok l ->
  NoDup (map mihomo_name l) /\
  (exists r, ForUser (rows_of s) userName = Ok r /\
     Forall2 (fun p m => mihomo_dialer m = "" <-> pa_DialerPathID (rp_Path p) = None) (Ordered r) l) /\
  (forall l1 m l2, l = l1 ++ m :: l2 -> mihomo_dialer m <> "" -> exists m', m' ∈ l1 /\ mihomo_name m' = mihomo_dialer m).
Proof.
  intros Hwf Hr. destruct (provider_inv _ _ _ Hwf Hr) as (r & user & Hf & _ & _ & _ & Hl).
  destruct (ForUser_ordered _ (wf_keyed _ Hwf) (wf_dialers _ Hwf) _ _ Hf) as (Hord & _ & Hnd & _).
  assert (Hnames : map mihomo_name l = map rp_Name (Ordered r)).
  { clear -Hl. induction Hl as [|p m ps ms [_ (d & _ & Hm)] _ IH]; [done|]. cbn. rewrite IH. f_equal. by destruct (mihomo_proxy_names _ _ _ Hm). }
  split; [by rewrite Hnames|]. split.
  - exists r. split; [done|]. apply Forall2_same_length_lookup_2; [by eapply Forall2_length|]. intros i p m Hp Hm.
    destruct (Forall2_lookup_lr _ _ _ _ _ _ Hl Hp Hm) as [[_ Hd] (d & _ & Hmp)]. destruct (mihomo_proxy_names _ _ _ Hmp) as (_ & _ & ->).
    rewrite Hd. unfold dialer_name. destruct (rp_Dialer p) as [q|] eqn:Eq; [|done]. split; [|done]. intros E. exfalso.
    apply (published_name_ne s user q Hwf); [|exact E]. apply list_elem_of_lookup_2, list_elem_of_split in Hp as (p1 & p2 & Ho).
    assert (Hq : q ∈ Ordered r) by (rewrite Ho; apply elem_of_app; left; by eapply Hord). apply list_elem_of_lookup in Hq as [k Hk].
    by destruct (Forall2_lookup_l _ _ _ _ _ Hl Hk) as (m' & _ & Hfq & _).
  - intros l1 m l2 -> Hne. apply Forall2_app_inv_r in Hl as (p1 & p2 & Hl1 & Hl2 & Ho).
    apply Forall2_cons_inv_r in Hl2 as (p & p3 & [_ (d & _ & Hmp)] & _ & ->). destruct (mihomo_proxy_names _ _ _ Hmp) as (_ & _ & Hdn).
    rewrite Hdn in Hne |- *. unfold dialer_name in *. destruct (rp_Dialer p) as [q|] eqn:Eq; [|done].
    assert (Hq : q ∈ p1) by (eapply Hord; [exact Ho|exact Eq]). apply list_elem_of_lookup in Hq as [k Hk].
    destruct (Forall2_lookup_l _ _ _ _ _ Hl1 Hk) as (m' & Hm' & _ & d' & _ & Hmq). exists m'.
    split; [by eapply list_elem_of_lookup_2|]. by destruct (mihomo_proxy_names _ _ _ Hmq).
Qed.

(** ** A sing-box client *)
Abbreviation applyClientCredential := (applyClientCredential decode_vless_settings decode_vless_credential decode_ss_settings decode_ss_credential).
Abbreviation NodeInfoForUser := (NodeInfoForUser decode_vless_settings decode_vless_credential decode_ss_settings decode_ss_credential).
Abbreviation RenderClientConfig := (RenderClientConfig decode_vless_settings decode_vless_credential decode_ss_settings decode_ss_credential).
Lemma host_profiles_spec hosts l ps :
  host_profiles decode_vless_settings decode_vless_credential decode_ss_settings decode_ss_credential hosts l = Ok ps ->
  forall q, q ∈ ps -> exists d p h, d ∈ l /\ h ∈ hosts /\ q = with_host p (ad_ProxyName d) h /\
    applyClientCredential (blank_profile "" (ad_ProxyName d) "" (ad_Protocol d) "" (ad_ListenPort d) "" false) d = Ok (Some p).
Proof.
  revert ps. induction l as [|d l IH]; intros ps; cbn [host_profiles]; [intros [= <-] q Hq; by apply elem_of_nil in Hq|].
  destruct (applyClientCredential _ d) as [profile|] eqn:Ep; [|done]. destruct (host_profiles _ _ _ _ hosts l) as [rest|]; [|done].
  intros [= <-] q Hq. assert (Hrest : q ∈ rest -> exists d0 p h, d0 ∈ d :: l /\ h ∈ hosts /\ q = with_host p (ad_ProxyName d0) h /\
    applyClientCredential (blank_profile "" (ad_ProxyName d0) "" (ad_Protocol d0) "" (ad_ListenPort d0) "" false) d0 = Ok (Some p)).
  { intros Hin. destruct (IH rest eq_refl q Hin) as (d0 & p & h & Hd & H0). exists d0, p, h. split; [by right|done]. }
  destruct profile as [p|]; [|by apply Hrest]. apply elem_of_app in Hq as [Hq|Hq]; [|by apply Hrest].
  apply list_elem_of_fmap in Hq as (h & -> & Hh). exists d, p, h. split; [by left|done].
Qed.
Lemma check_profiles_nodup seen l : check_profiles seen l = Ok tt -> NoDup (map np_Name l) /\ forall p, p ∈ l -> np_Name p ∉ seen.
Proof.
  revert seen. induction l as [|p l IH]; intros seen; cbn [check_profiles map].
  - intros _. split; [apply NoDup_nil_2|by intros p Hp%elem_of_nil].
  - destruct (bool_decide _) eqn:E; [done|]. apply bool_decide_eq_false in E. intros (Hnd & Hs)%IH. split.
    + apply NoDup_cons. split; [|done]. intros (q & Hq & Hin)%list_elem_of_fmap. apply Hs in Hin. set_solver.
    + intros q [->|Hq]%elem_of_cons; [done|]. apply Hs in Hq. set_solver.
Qed.
(** What a node's page for a user is made of. *)
Lemma NodeInfo_inv s userName nodeName info : NodeInfoForUser s userName nodeName = Ok info ->
  exists node, GetNode (rows_of s) nodeName = Ok node /\ NoDup (map np_Name (ni_Proxies info)) /\
    forall q, q ∈ ni_Proxies info -> exists d p h, d ∈ served_rows s (no_Name node) /\ ad_ProxyUserName d = TrimSpace userName /\
      q = with_host p (ad_ProxyName d) h /\
      applyClientCredential (blank_profile "" (ad_ProxyName d) "" (ad_Protocol d) "" (ad_ListenPort d) "" false) d = Ok (Some p).
Proof.
  unfold Render.NodeInfoForUser, ListProxyCredentialsByUserNode. destruct (GetNode (rows_of s) nodeName) as [node|]; cbn [lookup]; [|done].
  assert (Hl : forall d, d ∈ ListProxyAccessesByUserNode s (TrimSpace userName) (no_Name node) ->
    d ∈ served_rows s (no_Name node) /\ ad_ProxyUserName d = TrimSpace userName).
  { intros d. unfold ListProxyAccessesByUserNode. rewrite merge_sort_Permutation, list_elem_of_In, filter_In, !andb_true_iff, !String.eqb_eq.
    intros (Hd & (Hu & Hn) & Hs). split; [|done]. apply list_elem_of_In, filter_In. split; [done|]. by rewrite Hn, String.eqb_refl. }
  destruct (ListProxyAccessesByUserNode _ _ _) as [|first l]; [done|]. unfold nodeInfoFromAccesses.
  destruct (host_profiles _ _ _ _ _ (first :: l)) as [ps|] eqn:Eps; [|done]. destruct ps as [|p0 ps]; [done|].
  destruct (validateUniqueProfileNames _) as [[]|] eqn:Ev; [|done]. intros [= <-]. exists node. split; [done|]. cbn [ni_Proxies].
  split; [by apply check_profiles_nodup in Ev as [? _]|]. intros q Hq.
  destruct (host_profiles_spec _ _ _ Eps q Hq) as (d & p & h & Hd & _ & Hq' & Hp). destruct (Hl d Hd) as [Hs Hu]. by exists d, p, h.
Qed.
Lemma select_by_proxy_spec name selected l p : select_by_proxy name selected l = Some p ->
  selected = Some p \/ (p ∈ l /\ np_ProxyName p = name).
Proof.
  revert selected. induction l as [|q l IH]; intros selected; cbn [select_by_proxy]; [by left|].
  destruct (np_ProxyName q =? name)%string eqn:E; cbn [negb].
  - apply String.eqb_eq in E. destruct (np_isPrimaryHost q); [intros [= <-]; right; split; [by left|done]|].
    intros [Hs|[Hin Hn]]%IH; [|right; split; [by right|done]]. destruct selected as [x|]; [by left|].
    injection Hs as <-. right. split; [by left|done].
  - intros [Hs|[Hin Hn]]%IH; [by left|right; split; [by right|done]].
Qed.
Lemma select_profile_spec name l p : select_profile name l = Some p ->
  p ∈ l /\ (np_Name p = name \/ (np_ProxyName p = name /\ forall q, q ∈ l -> np_Name q <> name)).
Proof.
  unfold select_profile. destruct (List.find _ l) as [q|] eqn:Ef.
  - intros [= <-]. apply List.find_some in Ef as [Hin He]. apply String.eqb_eq in He. split; [by apply list_elem_of_In|by left].
  - intros [Hs|[Hin Hn]]%select_by_proxy_spec; [done|]. split; [done|]. right. split; [done|]. intros q Hq%list_elem_of_In He.
    apply (List.find_none _ _ Ef) in Hq. cbn in Hq. by apply String.eqb_neq in Hq.
Qed.
(** a generated sing-box client works: its traffic goes to the profile
    the caller named (an exact profile name first, otherwise a profile of the
    proxy), and the configuration of the node, when it can be rendered, has an
    account on that proxy that admits what the client presents. *)
Theorem client_config_is_served s params cfg : well_formed s -> RenderClientConfig s params = Ok cfg ->
  exists info p o, NodeInfoForUser s (cc_UserName params) (cc_NodeName params) = Ok info /\ p ∈ ni_Proxies info /\
    (np_Name p = cc_ProxyName params \/
     (np_ProxyName p = cc_ProxyName params /\ forall q, q ∈ ni_Proxies info -> np_Name q <> cc_ProxyName params)) /\
    sc_Outbounds cfg = [o; PlainOutbound "direct" "direct"] /\ sc_Final cfg = text_or (cc_OutboundTag params) "proxy" /\
    forall node_cfg, RenderNodeConfig s (cc_NodeName params) = Ok node_cfg ->
      exists i a m, i ∈ sc_Inbounds node_cfg /\ inbound_tag i = np_ProxyName p /\ a ∈ inbound_accounts i /\
        outbound_presents o = Some m /\ admits a m.
Proof.
  intros Hwf. unfold Render.RenderClientConfig. destruct (NodeInfoForUser s _ _) as [info|] eqn:Ei; [|done].
  destruct (select_profile _ _) as [p|] eqn:Ep; [|done]. apply select_profile_spec in Ep as [Hin Hname].
  destruct (NodeInfo_inv _ _ _ _ Ei) as (node & Hn & _ & Hq). destruct (Hq p Hin) as (d & q & h & Hd & _ & -> & Ha).
  intros Hr. exists info, (with_host q (ad_ProxyName d) h). cbn [np_ProxyName with_host] in *.
  unfold Render.applyClientCredential, blank_profile in Ha. cbn [np_Type np_Name with_host] in *.
  destruct (ad_Protocol d =? ProtocolVLESSReality)%string eqn:Ev.
  - destruct (parseVLESSReality d) as [[st c]|] eqn:Epv; [|done]. injection Ha as <-. cbn [np_Type] in Hr. rewrite Ev in Hr. injection Hr as <-.
    eexists. do 5 (split; [done|]). intros ncfg Hncfg.
    destruct (row_in_config _ _ _ _ _ Hwf Hncfg Hn Hd) as (i & a & Hi & Ht & Hia & Hacc). exists i, a. eexists.
    do 3 (split; [done|]). split; [reflexivity|]. unfold account_of in Hacc. rewrite Ev, Epv in Hacc. injection Hacc as <-. cbn.
    do 5 (split; [done|]). by eapply vless_fits.
  - destruct (ad_Protocol d =? ProtocolShadowsocks2022)%string eqn:Ess; [|done].
    destruct (parseShadowsocks2022 d) as [[st password]|] eqn:Eps; [|done]. injection Ha as <-. cbn [np_Type] in Hr. rewrite Ev, Ess in Hr. injection Hr as <-.
    eexists. do 5 (split; [done|]). intros ncfg Hncfg.
    destruct (row_in_config _ _ _ _ _ Hwf Hncfg Hn Hd) as (i & a & Hi & Ht & Hia & Hacc). exists i, a. eexists.
    do 3 (split; [done|]). split; [reflexivity|]. unfold account_of in Hacc. rewrite Ev, Ess, Eps in Hacc. injection Hacc as <-. by cbn.
Qed.

(** ** Secrets *)
(** What a client may learn of Reality settings: not the private key, of which
    only its presence matters. *)
Definition public_settings (st : vlessRealitySettings) : string * string * string * bool :=
  (vs_ServerName st, vs_RealityPublicKey st, vs_ShortID st, (vs_RealityPrivateKey st =? "")%string).
(** The columns rendering reads for a client. *)
Definition same_listener (l l' : listener) : Prop :=
  li_ListenPort l' = li_ListenPort l /\ li_Transport l' = li_Transport l /\
  public_settings <$> decode_vless_settings (li_SettingsJSON l') = public_settings <$> decode_vless_settings (li_SettingsJSON l) /\
  decode_ss_settings (li_SettingsJSON l') = decode_ss_settings (li_SettingsJSON l).
(** Two fleets that differ in the Reality private keys, in the listen addresses
    and in the credentials of everybody but the user. *)
Record same_to (userID : string) (s s' : site) : Prop := {
  st_rows : rows_of s' = rows_of s;
  st_listeners : forall x, option_Forall2 same_listener (listeners s !! x) (listeners s' !! x);
  st_credentials : forall x, credential_json (grants s') !! (userID, x) = credential_json (grants s) !! (userID, x)
}.
Definition same_view (d d' : access_detail) : Prop :=
  ad_ProxyName d' = ad_ProxyName d /\ ad_Protocol d' = ad_Protocol d /\ ad_AuthName d' = ad_AuthName d /\
  ad_CredentialJSON d' = ad_CredentialJSON d /\
  same_listener {| li_Listen := ad_Listen d; li_ListenPort := ad_ListenPort d; li_Transport := ad_Transport d; li_SettingsJSON := ad_SettingsJSON d |}
    {| li_Listen := ad_Listen d'; li_ListenPort := ad_ListenPort d'; li_Transport := ad_Transport d'; li_SettingsJSON := ad_SettingsJSON d' |}.
Definition both {A} (R : A -> A -> Prop) (r r' : rendered A) : Prop :=
  match r, r' with Ok a, Ok a' => R a a' | Err e, Err e' => e = e' | _, _ => False end.
Lemma detail_same u s s' x : same_to u s s' -> option_Forall2 same_view (detail s (u, x)) (detail s' (u, x)).
Proof.
  intros [Hr Hl Hc]. unfold detail. rewrite Hr, Hc. cbn.
  destruct (credentials _ !! _) as [a|]; [|constructor]. cbn. destruct (proxy_users _ !! _) as [v|]; [|constructor]. cbn.
  destruct (proxies _ !! _) as [p|]; [|constructor]. cbn. destruct (Hl x) as [l l' Hll|]; [|constructor]. cbn.
  destruct (nodes _ !! _) as [n|]; [|constructor]. cbn. constructor. split_and!; [done..|]. by destruct l, l'.
Qed.
Lemma path_credential_same user s s' p : same_to (us_ID user) s s' -> both same_view (path_credential s user p) (path_credential s' user p).
Proof. intros Hs. unfold path_credential. destruct (detail_same _ _ _ (px_ID (rp_Proxy p)) Hs); done. Qed.
Lemma parse_vless_view d d' : same_view d d' ->
  both (fun x y => y.2 = x.2 /\ vs_ServerName y.1 = vs_ServerName x.1 /\ vs_RealityPublicKey y.1 = vs_RealityPublicKey x.1 /\
    vs_ShortID y.1 = vs_ShortID x.1) (parseVLESSReality d) (parseVLESSReality d').
Proof.
  intros (E1 & _ & E3 & E4 & (_ & _ & Ev & _)). cbn in Ev. unfold Render.parseVLESSReality. rewrite E1, E3, E4.
  destruct (decode_vless_settings (ad_SettingsJSON d)) as [x|], (decode_vless_settings (ad_SettingsJSON d')) as [y|]; cbn in Ev; try done.
  unfold public_settings in Ev. injection Ev as V1 V2 V3 V4. rewrite V1, V2, V3, V4.
  destruct (_ || _); [done|]. destruct (NormalizeRealityShortID _); [|done]. destruct (decode_vless_credential _) as [c|]; [|done].
  by destruct (vc_UUID c =? "")%string.
Qed.
Lemma parse_ss_view d d' : same_view d d' -> parseShadowsocks2022 d' = parseShadowsocks2022 d.
Proof. intros (E1 & _ & E3 & E4 & (_ & _ & _ & Ev)). cbn in Ev. unfold Render.parseShadowsocks2022. by rewrite E1, E4, Ev. Qed.
Lemma mihomo_proxy_same p d d' : same_view d d' -> mihomo_proxy p d' = mihomo_proxy p d.
Proof.
  intros Hv. unfold Render.mihomo_proxy. rewrite (parse_ss_view _ _ Hv). pose proof (parse_vless_view _ _ Hv) as Hp.
  destruct Hv as (_ & _ & _ & _ & (P1 & P2 & _)). cbn in P1, P2. rewrite P1, P2.
  destruct (_ =? ProtocolVLESSReality)%string; [|done].
  destruct (parseVLESSReality d) as [[x c]|], (parseVLESSReality d') as [[x' c']|]; cbn in Hp; [|done..|by subst].
  destruct Hp as (-> & -> & -> & ->). done.
Qed.
Lemma mihomo_proxies_same user s s' l : same_to (us_ID user) s s' ->
  mihomo_proxies decode_vless_settings decode_vless_credential decode_ss_settings decode_ss_credential s' user l =
  mihomo_proxies decode_vless_settings decode_vless_credential decode_ss_settings decode_ss_credential s user l.
Proof.
  intros Hs. induction l as [|p l IH]; cbn [mihomo_proxies]; [done|]. pose proof (path_credential_same user s s' p Hs) as Hp.
  destruct (path_credential s user p) as [d|], (path_credential s' user p) as [d'|]; cbn in Hp; [|done..|by subst].
  by rewrite (mihomo_proxy_same p d d' Hp), IH.
Qed.
Lemma applyClientCredential_same p d d' : same_view d d' ->
  applyClientCredential p d' = applyClientCredential p d.
Proof.
  intros Hv. unfold Render.applyClientCredential. rewrite (parse_ss_view _ _ Hv). pose proof (parse_vless_view _ _ Hv) as Hp.
  destruct Hv as (_ & -> & _). destruct (_ =? ProtocolVLESSReality)%string; [|done].
  destruct (parseVLESSReality d) as [[x c]|], (parseVLESSReality d') as [[x' c']|]; cbn in Hp; [|done..|by subst].
  destruct Hp as (-> & -> & -> & ->). done.
Qed.
Lemma path_profiles_same user s s' l acc : same_to (us_ID user) s s' ->
  path_profiles decode_vless_settings decode_vless_credential decode_ss_settings decode_ss_credential s' user l acc =
  path_profiles decode_vless_settings decode_vless_credential decode_ss_settings decode_ss_credential s user l acc.
Proof.
  intros Hs. revert acc. induction l as [|p l IH]; intros acc; cbn [path_profiles]; [done|]. pose proof (path_credential_same user s s' p Hs) as Hp.
  destruct (path_credential s user p) as [d|], (path_credential s' user p) as [d'|]; cbn in Hp; [|done..|by subst].
  rewrite (applyClientCredential_same (path_profile p d') d d' Hp). assert (E : path_profile p d' = path_profile p d).
  { unfold path_profile. destruct Hp as (_ & _ & _ & _ & (P1 & _)). cbn in P1. by rewrite P1. }
  rewrite E. destruct (applyClientCredential _ d); [apply IH|done].
Qed.
(** C16: a user's documents hold no secret but his own: the provider document
    and the connection page are the same on any two fleets that differ only in
    Reality private keys and in the credentials of other users. *)
Theorem client_documents_keep_secrets s s' userName user : GetProxyUser (rows_of s) userName = Ok user -> same_to (us_ID user) s s' ->
  RenderMihomoProxyProvider s' userName = RenderMihomoProxyProvider s userName /\
  ConnectionInfoForUser decode_vless_settings decode_vless_credential decode_ss_settings decode_ss_credential s' userName =
  ConnectionInfoForUser decode_vless_settings decode_vless_credential decode_ss_settings decode_ss_credential s userName.
Proof.
  intros Hu Hs. unfold Render.RenderMihomoProxyProvider, ConnectionInfoForUser. rewrite (st_rows _ _ _ Hs), Hu. cbn [lookup]. split.
  - destruct (ForUser _ userName) as [r|]; cbn [resolved_for]; [|done]. by apply mihomo_proxies_same.
  - destruct (ForUser _ (us_Name user)) as [r|]; cbn [resolved_for]; [|done]. by rewrite (path_profiles_same user s s').
Qed.
End render_proofs.

(** ** A small fleet *)
(** One node with a VLESS and a Shadowsocks proxy; alice reaches the second
    through the first; bob has an account on the first. *)
Definition f_path (ID endpoint : string) (dialer : option string) : Path := {|
  pa_ID := ID; pa_Name := ID; pa_DisplayName := ""; pa_EndpointID := endpoint; pa_DialerPathID := dialer;
  pa_Enabled := true; pa_Visibility := PathVisibilitySelectable; pa_Managed := false; pa_SortOrder := 0 |}.
Definition f_proxy (name protocol : string) : proxy_row :=
  {| pr_NodeID := "n1"; pr_Name := name; pr_Protocol := protocol; pr_Enabled := true; pr_DeletedAt := None |}.
Definition f_user (ID name : string) : ProxyUser := {| us_ID := ID; us_Name := name; us_Status := "active"; us_DeletedAt := None |}.
Definition f_access (ID path : string) : PathAccess :=
  {| pc_ID := ID; pc_PathID := path; pc_ProxyUserID := "u1"; pc_Enabled := true; pc_DeletedAt := None |}.
Definition f_credential (ID name : string) : ProxyCredential := {| pk_ID := ID; pk_AuthName := name; pk_Enabled := true; pk_DeletedAt := None |}.
Definition f_node : Node := {| no_ID := "n1"; no_Name := "node"; no_Status := "active"; no_DeletedAt := None;
  no_Hosts := [{| nh_ID := "h1"; nh_Host := "192.0.2.1"; nh_Tag := ""; nh_Selected := true |}] |}.
Definition f_rows : Paths.tables := {|
  paths := {["pa" := f_path "pa" "e1" None; "pb" := f_path "pb" "e2" (Some "pa")]};
  endpoints := {["e1" := {| ep_ID := "e1"; ep_ProxyID := "x1"; ep_HostID := "h1"; ep_Enabled := true |};
                "e2" := {| ep_ID := "e2"; ep_ProxyID := "x2"; ep_HostID := "h1"; ep_Enabled := true |}]};
  path_accesses := [f_access "a1" "pb"]; path_group_members := ∅; nodes := {["n1" := f_node]}; node_name_aliases := ∅;
  proxies := {["x1" := f_proxy "one" ProtocolVLESSReality; "x2" := f_proxy "two" ProtocolShadowsocks2022]};
  proxy_users := {["u1" := f_user "u1" "alice"; "u2" := f_user "u2" "bob"]};
  bindings := {[("u1", "n1") := true; ("u2", "n1") := true]};
  credentials := {[("u1", "x1") := f_credential "k1" "one@alice"; ("u1", "x2") := f_credential "k2" "two@alice";
                  ("u2", "x1") := f_credential "k3" "one@bob"]} |}.
(** [settings]: of the VLESS proxy; [secret]: bob's. *)
Definition f_site (settings secret : string) : site := {|
  grants := {| base := f_rows; direct_path_grants := ∅; path_groups := ∅; member_order := ∅; user_path_group_grants := ∅;
    proxy_name_aliases := ∅; path_group_changes := ∅;
    credential_json := {[("u1", "x1") := "alice-1"; ("u1", "x2") := "alice-2"; ("u2", "x1") := secret]} |};
  listeners := {["x1" := {| li_Listen := "::"; li_ListenPort := 443; li_Transport := "tcp"; li_SettingsJSON := settings |};
                "x2" := {| li_Listen := "::"; li_ListenPort := 8388; li_Transport := "tcp_udp"; li_SettingsJSON := "shadowsocks" |}]};
  public_hosts := {["n1" := "192.0.2.1"]};
  node_connection_telemetry := {["n1" := {| ct_Enabled := true; ct_ListenAddress := "127.0.0.1"; ct_ListenPort := 18083;
    ct_Secret := "0123456789abcdef0123456789abcdef" |}]} |}.
Definition f_decode_vless (document : string) : option vlessRealitySettings :=
  let settings key := {| vs_ServerName := "example.org"; vs_RealityPrivateKey := key; vs_RealityPublicKey := "public"; vs_ShortID := "0A1B";
                         vs_HandshakeServer := ""; vs_HandshakePort := 0 |} in
  if (document =? "reality")%string then Some (settings "private"%string)
  else if (document =? "rotated")%string then Some (settings "another"%string) else None.
Definition f_decode_uuid (document : string) : option VLESSRealityCredential :=
  if (document =? "")%string then None else Some {| vc_UUID := document; vc_Flow := "" |}.
Definition f_decode_ss (document : string) : option Shadowsocks2022Settings :=
  if (document =? "shadowsocks")%string then Some {| ss_Method := "2022-blake3-aes-128-gcm"; ss_ServerPassword := "server" |} else None.
Definition f_loopback (address : string) : bool := (address =? "127.0.0.1")%string.
#[local] Existing Instance ascii_only_tables.
Abbreviation f_RenderNodeConfig := (RenderNodeConfig f_decode_vless f_decode_uuid f_decode_ss Some f_loopback).
Abbreviation f_Provider := (RenderMihomoProxyProvider f_decode_vless f_decode_uuid f_decode_ss Some).

Lemma f_well_formed settings secret : well_formed (f_site settings secret).
Proof.
  set (s := f_site settings secret).
  assert (Hp : map_Forall (fun k p => (pa_ID p = k /\ TrimSpace k = k) /\ forall d, pa_DialerPathID p = Some d -> is_Some (paths f_rows !! d)) (paths f_rows)).
  { repeat apply map_Forall_insert_2; [..|apply map_Forall_empty]; (split; [split; vm_compute; reflexivity|]); cbn; intros d [=]; subst; by eexists. }
  assert (Hu : map_Forall (fun k u => us_ID u = k /\ TrimSpace k = k) (proxy_users f_rows)) by
    (repeat apply map_Forall_insert_2; [done..|apply map_Forall_empty]).
  assert (Hn : map_Forall (fun k n => no_ID n = k /\ GetNode f_rows (no_Name n) = Ok n) (nodes f_rows)).
  { repeat apply map_Forall_insert_2; [..|apply map_Forall_empty]. split; vm_compute; reflexivity. }
  assert (Hx : map_Forall (fun k r => is_Some (listeners s !! k) /\ (k = "x1" /\ pr_Name r = "one" \/ k = "x2" /\ pr_Name r = "two")) (proxies f_rows)).
  { repeat apply map_Forall_insert_2; [..|apply map_Forall_empty]; (split; [by eexists|]); [by left|by right]. }
  split.
  - intros k p Hk. apply (Hp k p Hk).
  - intros k p d Hk. apply (Hp k p Hk).
  - exact Hu.
  - intros k n Hk. apply (Hn k n Hk).
  - intros k n Hk _. apply (Hn k n Hk).
  - intros x y p q (r & Er & N1)%live_proxy_row (r' & Er' & N2)%live_proxy_row He.
    destruct (Hx _ _ Er) as [_ [[-> E1]|[-> E1]]], (Hx _ _ Er') as [_ [[-> E2]|[-> E2]]]; congruence.
  - intros k r Hk. apply (Hx k r Hk).
Qed.

Definition f_cfg (r : rendered singBoxConfig) : singBoxConfig := match r with Ok c => c | Err _ => emptyNodeConfig end.
Definition f_doc (r : rendered (list mihomoProxy)) : list mihomoProxy := match r with Ok l => l | Err _ => [] end.
Example node_serves_its_rows_witness :
  exists cfg, f_RenderNodeConfig (f_site "reality" "bob-1") "node" = Ok cfg /\ length (sc_Inbounds cfg) = 2%nat /\
  exists node rows accounts, GetNode f_rows "node" = Ok node /\ length rows = 3%nat /\
    (forall u x, (u, x) ∈ map row_key rows <-> entitled f_rows (no_Name node) u x) /\
    List.concat (map inbound_accounts (sc_Inbounds cfg)) ≡ₚ accounts.
Proof.
  set (r := f_RenderNodeConfig (f_site "reality" "bob-1") "node").
  assert (E : r = Ok (f_cfg r)) by (vm_compute; reflexivity). exists (f_cfg r). split; [exact E|]. split; [vm_compute; reflexivity|].
  destruct (node_serves_its_rows f_decode_vless f_decode_uuid f_decode_ss Some f_loopback (f_site "reality" "bob-1") "node" (f_cfg r)
    (f_well_formed _ _) E) as (node & rows & accounts & Hn & Hnd & He & Hf & Hp & _).
  exists node, rows, accounts. split; [exact Hn|]. split; [|exact (conj He Hp)].
  rewrite (Forall2_length _ _ _ Hf), <- (Permutation_length Hp). vm_compute. reflexivity.
Defined.
Example telemetry_fails_closed_witness :
  exists cfg service, f_RenderNodeConfig (f_site "reality" "bob-1") "node" = Ok cfg /\ sc_Services cfg = [service] /\
    f_loopback (TrimSpace (as_Listen service)) = true /\ (32 <= String.length (TrimSpace (as_Secret service)))%nat.
Proof.
  set (r := f_RenderNodeConfig (f_site "reality" "bob-1") "node").
  set (service := {| as_Listen := "127.0.0.1"; as_ListenPort := 18083; as_Secret := "0123456789abcdef0123456789abcdef" |}).
  assert (E : r = Ok (f_cfg r)) by (vm_compute; reflexivity).
  assert (Hin : service ∈ sc_Services (f_cfg r)) by (vm_compute; left).
  exists (f_cfg r), service. split; [exact E|].
  destruct (telemetry_fails_closed f_decode_vless f_decode_uuid f_decode_ss Some f_loopback _ _ _ _ E Hin) as (H1 & H2 & _ & H4 & _).
  exact (conj H1 (conj H2 H4)).
Defined.
Example subscription_is_served_witness :
  exists l r cfg, f_Provider (f_site "reality" "bob-1") "alice" = Ok l /\ map mihomo_name l = ["one · pa"; "two · pb"] /\
    ForUser f_rows "alice" = Ok r /\ f_RenderNodeConfig (f_site "reality" "bob-1") "node" = Ok cfg /\
    Forall2 (fun p m => px_NodeName (rp_Proxy p) = "node"%string -> exists i a, i ∈ sc_Inbounds cfg /\ a ∈ inbound_accounts i /\
      admits f_decode_vless a (mihomo_presents m)) (Ordered r) l.
Proof.
  set (d := f_Provider (f_site "reality" "bob-1") "alice"). set (n := f_RenderNodeConfig (f_site "reality" "bob-1") "node").
  assert (Ed : d = Ok (f_doc d)) by (vm_compute; reflexivity). assert (En : n = Ok (f_cfg n)) by (vm_compute; reflexivity).
  destruct (subscription_is_served f_decode_vless f_decode_uuid f_decode_ss Some f_loopback _ _ _ (f_well_formed _ _) Ed) as (r & Hr & Hf).
  exists (f_doc d), r, (f_cfg n). split; [exact Ed|]. split; [vm_compute; reflexivity|]. split; [exact Hr|]. split; [exact En|].
  eapply Forall2_impl; [exact Hf|]. cbn beta. intros p m (_ & _ & Hs) Hnode. rewrite Hnode in Hs.
  destruct (Hs _ En) as (i & a & Hi & _ & Ha & Had). exists i, a. exact (conj Hi (conj Ha Had)).
Defined.
Example provider_keeps_chains_witness :
  exists l, f_Provider (f_site "reality" "bob-1") "alice" = Ok l /\ map mihomo_dialer l = ["";"one · pa"] /\ NoDup (map mihomo_name l).
Proof.
  set (d := f_Provider (f_site "reality" "bob-1") "alice"). assert (Ed : d = Ok (f_doc d)) by (vm_compute; reflexivity).
  exists (f_doc d). split; [exact Ed|]. split; [vm_compute; reflexivity|].
  exact (proj1 (provider_keeps_chains f_decode_vless f_decode_uuid f_decode_ss Some _ _ _ (f_well_formed _ _) Ed)).
Defined.
Example client_documents_keep_secrets_witness :
  f_Provider (f_site "rotated" "bob-2") "alice" = f_Provider (f_site "reality" "bob-1") "alice" /\
  f_RenderNodeConfig (f_site "rotated" "bob-2") "node" <> f_RenderNodeConfig (f_site "reality" "bob-1") "node".
Proof.
  split; [|vm_compute; intros [=]].
  apply (client_documents_keep_secrets f_decode_vless f_decode_uuid f_decode_ss Some _ _ "alice" (f_user "u1" "alice")).
  - vm_compute. reflexivity.
  - split; [reflexivity| |].
    + intros x. unfold f_site. cbn [listeners]. destruct (decide (x = "x1"%string)) as [->|H1]; [|destruct (decide (x = "x2"%string)) as [->|H2]].
      * vm_compute. constructor. vm_compute. done.
      * vm_compute. constructor. vm_compute. done.
      * rewrite !lookup_insert_ne, !lookup_singleton_ne by congruence. constructor.
    + intros x. unfold f_site. cbn [grants credential_json us_ID f_user]. destruct (decide (x = "x1"%string)) as [->|H1]; [done|].
      destruct (decide (x = "x2"%string)) as [->|H2]; [done|].
      rewrite !lookup_insert_ne, !lookup_singleton_ne by congruence. done.
Defined.
Example client_config_is_served_witness :
  exists cfg o i a m, RenderClientConfig f_decode_vless f_decode_uuid f_decode_ss Some (f_site "reality" "bob-1")
      {| cc_UserName := "alice"; cc_NodeName := "node"; cc_ProxyName := "two"; cc_MixedListen := ""; cc_MixedListenPort := 0;
         cc_UTLSFingerprint := ""; cc_OutboundTag := "" |} = Ok cfg /\
    sc_Outbounds cfg = [o; PlainOutbound "direct" "direct"] /\ a ∈ inbound_accounts i /\ outbound_presents o = Some m /\ admits f_decode_vless a m.
Proof.
  set (params := {| cc_UserName := _ |}). set (c := RenderClientConfig _ _ _ _ _ params). set (n := f_RenderNodeConfig (f_site "reality" "bob-1") "node").
  assert (Ec : c = Ok (f_cfg c)) by (vm_compute; reflexivity). assert (En : n = Ok (f_cfg n)) by (vm_compute; reflexivity).
  destruct (client_config_is_served f_decode_vless f_decode_uuid f_decode_ss Some f_loopback _ _ _ (f_well_formed _ _) Ec)
    as (info & p & o & _ & _ & _ & Ho & _ & Hs).
  destruct (Hs _ En) as (i & a & m & _ & _ & Ha & Hm & Had). exists (f_cfg c), o, i, a, m.
  exact (conj Ec (conj Ho (conj Ha (conj Hm Had)))).
Defined.
