(* ===== verification/Deletion.v ===== *)
(** * Deleting proxies and nodes ([src/internal/server/db/deletion.go], the
    SoftDelete operations of db/proxies.go and db/nodes.go)

    A deletion is soft: rows keep their ids and get a deletion time, and one
    transaction then cuts every live route through them.  Before it an
    administrator sees a preview ([ResourceDeletionImpact]).  The rows are those
    of [Paths] and [PathGrants], with the tokens of the agents.  An item of the
    preview is named by the immutable keys of its row; the labels beside them and
    the order they are sorted in for display are left out.  A statement that
    fails for another reason than its rows aborts the transaction. *)
From S2P Require Import Prelude GoStrings.
From S2P Require Import Paths PathGrants.

(** ** Tables *)
Record node_token := { tk_NodeID : string; tk_RevokedAt : option string }.
Record database := { db_store : store; db_node_tokens : gmap string node_token }.
Abbreviation rows d := (base (db_store d)).

Definition with_endpoints (b : Paths.tables) (m : gmap string Endpoint) : Paths.tables := {|
  paths := paths b; endpoints := m; path_accesses := path_accesses b; path_group_members := path_group_members b;
  nodes := nodes b; node_name_aliases := node_name_aliases b; proxies := proxies b; proxy_users := proxy_users b;
  bindings := bindings b; credentials := credentials b |}.
Definition with_proxies (b : Paths.tables) (m : gmap string proxy_row) : Paths.tables := {|
  paths := paths b; endpoints := endpoints b; path_accesses := path_accesses b; path_group_members := path_group_members b;
  nodes := nodes b; node_name_aliases := node_name_aliases b; proxies := m; proxy_users := proxy_users b;
  bindings := bindings b; credentials := credentials b |}.
Definition with_nodes (b : Paths.tables) (m : gmap string Node) (aliases : gmap string string) : Paths.tables := {|
  paths := paths b; endpoints := endpoints b; path_accesses := path_accesses b; path_group_members := path_group_members b;
  nodes := m; node_name_aliases := aliases; proxies := proxies b; proxy_users := proxy_users b;
  bindings := bindings b; credentials := credentials b |}.
Definition set_aliases (s : store) (m : gmap string string) : store := {|
  base := base s; direct_path_grants := direct_path_grants s; path_groups := path_groups s; member_order := member_order s;
  user_path_group_grants := user_path_group_grants s; proxy_name_aliases := m;
  credential_json := credential_json s; path_group_changes := path_group_changes s |}.

Inductive DeleteError :=
| NotFound (e : GrantError) | TableErr (e : PathError) | NothingDeleted (name : string) | UserRowMissing (id : string)
| UnsupportedKind (kind : string) | ImpactFuel.
Abbreviation deleted := (result DeleteError).
Definition in_tables {A} (r : res A) : deleted A := match r with Ok a => Ok a | Err e => Err (TableErr e) end.

(** ** The statements *)
(** Proxies whose deletion, or whose node's deletion, is on record. *)
Definition retired_proxy (b : Paths.tables) (x : string) : bool :=
  match proxies b !! x with
  | None => false
  | Some p => match nodes b !! pr_NodeID p with
              | None => false
              | Some n => is_set (pr_DeletedAt p) || is_set (no_DeletedAt n)
              end
  end.
Definition on_proxies (b : Paths.tables) (f : string -> bool) (p : Path) : bool :=
  match endpoints b !! pa_EndpointID p with Some e => f (ep_ProxyID e) | None => false end.
(** The path, or one it is dialled through, is one of [seed]; a walk along
    dialers that never repeats a path is shorter than the table. *)
Fixpoint reaches (m : gmap string Path) (seed : Path -> bool) (fuel : nat) (k : string) : bool :=
  match fuel with
  | O => false
  | S fuel =>
      match m !! k with
      | None => false
      | Some p => seed p || match pa_DialerPathID p with Some d => reaches m seed fuel d | None => false end
      end
  end.
(** The recursive query; SQL leaves the order open. *)
Definition ListRetiredResourcePaths (b : Paths.tables) : list string :=
  List.filter (reaches (paths b) (on_proxies b (retired_proxy b)) (S (size (paths b)))) (map fst (map_to_list (paths b))).
Definition ListPathAccessUsersIncludingDeleted (b : Paths.tables) (pathID : string) : list string :=
  remove_dups (omap (fun a => if (pc_PathID a =? pathID)%string && negb (is_set (pc_DeletedAt a)) then Some (pc_ProxyUserID a) else None)
                 (path_accesses b)).
Definition disabled_path (p : Path) : Path := {|
  pa_ID := pa_ID p; pa_Name := pa_Name p; pa_DisplayName := pa_DisplayName p; pa_EndpointID := pa_EndpointID p;
  pa_DialerPathID := pa_DialerPathID p; pa_Enabled := false; pa_Visibility := pa_Visibility p; pa_Managed := pa_Managed p;
  pa_SortOrder := pa_SortOrder p |}.
Definition ArchivePathAccesses (now pathID : string) (l : list PathAccess) : list PathAccess :=
  map (fun a => if (pc_PathID a =? pathID)%string && negb (is_set (pc_DeletedAt a)) then retired now a else a) l.
(** The body of the loop over the retired paths: SetPathEnabled (false),
    ArchivePathAccesses, RemoveRetiredPathGroupSources, RemoveRetiredPathDirectSources *)
Definition retire_path (now : string) (s : store) (pathID : string) : store :=
  let b := base s in
  let b := with_paths b (alter disabled_path pathID (paths b)) in
  let b := with_accesses b (ArchivePathAccesses now pathID (path_accesses b)) in
  let s := set_members (set_base s b) (filter (fun m => m.2 <> pathID) (path_group_members b))
             (filter (fun kv => kv.1.2 <> pathID) (member_order s)) in
  set_direct s (filter (fun kv => kv.1.2 <> pathID) (direct_path_grants s)).
Definition DisableRetiredNodeBindings (b : Paths.tables) : Paths.tables :=
  with_bindings b (map_imap (fun key (enabled : bool) => Some
    (match nodes b !! key.2 with Some n => if is_set (no_DeletedAt n) then false else enabled | None => enabled end)) (bindings b)).
Definition disabled_endpoint (e : Endpoint) : Endpoint :=
  {| ep_ID := ep_ID e; ep_ProxyID := ep_ProxyID e; ep_HostID := ep_HostID e; ep_Enabled := false |}.
Definition DisableRetiredEndpoints (b : Paths.tables) : Paths.tables :=
  with_endpoints b ((fun e => if retired_proxy b (ep_ProxyID e) then disabled_endpoint e else e) <$> endpoints b).
Definition archived_credential (now : string) (c : ProxyCredential) : ProxyCredential :=
  {| pk_ID := pk_ID c; pk_AuthName := pk_AuthName c; pk_Enabled := false; pk_DeletedAt := Some now |}.
Definition ArchiveRetiredProxyCredentials (now : string) (b : Paths.tables) : Paths.tables :=
  with_credentials b (map_imap (fun key c => Some
    (if retired_proxy b key.2 && negb (is_set (pk_DeletedAt c)) then archived_credential now c else c)) (credentials b)).

(** ** retireResourceDependenciesTx *)
(** The loop over the users, in any order: two users have no credential in common. *)
Fixpoint disable_for_users (b : Paths.tables) (users : list string) : deleted Paths.tables :=
  match users with
  | [] => Ok b
  | userID :: users =>
      match proxy_users b !! userID with
      | None => Err (UserRowMissing userID)
      | Some user =>
          if is_set (us_DeletedAt user) then disable_for_users b users
          else let? b := in_tables (disableUnusedProxyCredentialsTx b user) in disable_for_users b users
      end
  end.
(** [(tables, users)] after a path of the loop. *)
Definition retire_step (now : string) (st : store * gset string) (pathID : string) : store * gset string :=
  (retire_path now st.1 pathID, st.2 ∪ list_to_set (ListPathAccessUsersIncludingDeleted (base st.1) pathID)).
Definition retireResourceDependenciesTx (now : string) (s : store) : deleted store :=
  let paths := ListRetiredResourcePaths (base s) in
  let (s, users) := foldl (retire_step now) (s, ∅) paths in
  let b := ArchiveRetiredProxyCredentials now (DisableRetiredEndpoints (DisableRetiredNodeBindings (base s))) in
  let? b := disable_for_users b (elements users) in
  Ok (set_base s b).

(** ** SoftDeleteProxy, SoftDeleteNode *)
Definition deleted_proxy (now : string) (p : proxy_row) : proxy_row := {|
  pr_NodeID := pr_NodeID p; pr_Name := pr_Name p; pr_Protocol := pr_Protocol p; pr_Enabled := false; pr_DeletedAt := Some now |}.
Definition resolve_live_proxy (s : store) (nodeName name : string) : deleted Proxy :=
  match (GetProxy nodeName name (s, O)).1 with Ok p => Ok p | Err e => Err (NotFound e) end.
Definition SoftDeleteProxy (now : string) (d : database) (nodeName name : string) : deleted database :=
  let s := db_store d in
  let? proxy := resolve_live_proxy s nodeName name in
  match proxies (base s) !! px_ID proxy with
  | Some row =>
      if is_set (pr_DeletedAt row) then Err (NothingDeleted name)
      else
        let s := set_base s (with_proxies (base s) (<[px_ID proxy := deleted_proxy now row]> (proxies (base s)))) in
        let s := set_aliases s (filter (fun kv => kv.2 <> px_ID proxy) (proxy_name_aliases s)) in
        let? s := retireResourceDependenciesTx now s in
        Ok {| db_store := s; db_node_tokens := db_node_tokens d |}
  | None => Err (NothingDeleted name)
  end.
Definition deleted_node (now : string) (n : Node) : Node := {|
  no_ID := no_ID n; no_Name := no_Name n; no_Hosts := no_Hosts n; no_Status := "disabled"; no_DeletedAt := Some now |}.
(** COALESCE keeps the time of an earlier deletion. *)
Definition archive_node_proxies (now nodeID : string) (m : gmap string proxy_row) : gmap string proxy_row :=
  (fun p => if (pr_NodeID p =? nodeID)%string
            then {| pr_NodeID := pr_NodeID p; pr_Name := pr_Name p; pr_Protocol := pr_Protocol p; pr_Enabled := false;
                    pr_DeletedAt := Some (default now (pr_DeletedAt p)) |}
            else p) <$> m.
(** DeleteArchivedProxyAliases *)
Definition archived_proxy (b : Paths.tables) (x : string) : bool :=
  match proxies b !! x with Some p => is_set (pr_DeletedAt p) | None => false end.
Definition revoke_tokens (now nodeID : string) (m : gmap string node_token) : gmap string node_token :=
  (fun t => if (tk_NodeID t =? nodeID)%string && negb (is_set (tk_RevokedAt t))
            then {| tk_NodeID := tk_NodeID t; tk_RevokedAt := Some now |} else t) <$> m.
Definition SoftDeleteNode (now : string) (d : database) (name : string) : deleted database :=
  let s := db_store d in
  let? node := in_tables (GetNode (base s) name) in
  match nodes (base s) !! no_ID node with
  | Some row =>
      if is_set (no_DeletedAt row) then Err (NothingDeleted name)
      else
        let b := base s in
        let b := with_nodes b (<[no_ID node := deleted_node now row]> (nodes b)) (filter (fun kv => kv.2 <> no_ID node) (node_name_aliases b)) in
        let b := with_proxies b (archive_node_proxies now (no_ID node) (proxies b)) in
        let s := set_base s b in
        let s := set_aliases s (filter (fun kv => archived_proxy b kv.2 = false) (proxy_name_aliases s)) in
        let? s := retireResourceDependenciesTx now s in
        Ok {| db_store := s; db_node_tokens := revoke_tokens now (no_ID node) (db_node_tokens d) |}
  | None => Err (NothingDeleted name)
  end.

(** ** ResourceDeletionImpact *)
Inductive resource_kind := KNode | KProxy | KUser | KPath.
Definition kind_of (kind : string) : option resource_kind :=
  if (kind =? "node")%string then Some KNode else if (kind =? "proxy")%string then Some KProxy
  else if (kind =? "user")%string then Some KUser else if (kind =? "path")%string then Some KPath else None.
Inductive effect := Disabled | Unavailable | Revoked | Archived | Removed | BlocksDeletion.
Inductive item_key :=
| NodeAccess (userID nodeID : string) | AgentToken (id : string) | ProxyItem (id : string) | EndpointItem (id : string)
| PathItem (id : string) | AccessItem (id : string) | CredentialItem (userID proxyID : string)
| GroupMembership (groupID pathID : string) | GroupGrant (groupID userID : string).
#[export] Instance resource_kind_eq_dec : EqDecision resource_kind.
Proof. solve_decision. Defined.
#[export] Instance effect_eq_dec : EqDecision effect.
Proof. solve_decision. Defined.
#[export] Instance item_key_eq_dec : EqDecision item_key.
Proof. solve_decision. Defined.
Definition item : Type := item_key * effect.
Record DeletionImpact := { di_Items : list item; di_Blocked : bool }.

(** One round of the loop over the paths; it starts again as long as a round
    has changed something (the order of the rows decides how many rounds). *)
Definition spread (l : list (string * Path)) (affected : gset string) : gset string :=
  foldl (fun affected kp =>
    match pa_DialerPathID kp.2 with
    | Some d => if bool_decide (d ∈ affected) && negb (bool_decide (kp.1 ∈ affected)) then affected ∪ {[kp.1]} else affected
    | None => affected
    end) affected l.
Fixpoint spread_all (fuel : nat) (l : list (string * Path)) (affected : gset string) : deleted (gset string) :=
  match fuel with
  | O => Err ImpactFuel
  | S fuel =>
      let next := spread l affected in
      if bool_decide (next = affected) then Ok affected else spread_all fuel l next
  end.

Section impact.
Variables (d : database) (kind : resource_kind) (resourceID : string).
Abbreviation b := (rows d).
Definition is_kind (k : resource_kind) : bool := bool_decide (kind = k).
(** targets *)
Definition is_target (x : string) : bool :=
  match proxies b !! x with
  | Some p => bool_decide (is_Some (nodes b !! pr_NodeID p)) && negb (is_set (pr_DeletedAt p)) &&
              (is_kind KNode && (pr_NodeID p =? resourceID)%string || is_kind KProxy && (x =? resourceID)%string)
  | None => false
  end.
Definition first_affected (kp : string * Path) : bool :=
  on_proxies b is_target kp.2 || is_kind KPath && (kp.1 =? resourceID)%string.
(** The visit of an access that stays, for one user: [(seen, required[userID])]. *)
Fixpoint visit_kept (affected : gset string) (fuel : nat) (st : gset string * gset string) (pathID : string) : gset string * gset string :=
  match fuel with
  | O => st
  | S fuel =>
      let (seen, required) := st in
      if bool_decide (pathID ∈ seen) then st
      else
        let seen := seen ∪ {[pathID]} in
        match paths b !! pathID with
        | None => (seen, required)
        | Some p =>
            match endpoints b !! pa_EndpointID p with
            | None => (seen, required)
            | Some e =>
                if bool_decide (pathID ∈ affected) || negb (pa_Enabled p) || negb (ep_Enabled e) || retired_proxy b (ep_ProxyID e)
                then (seen, required)
                else
                  let st := (seen, required ∪ {[ep_ProxyID e]}) in
                  match pa_DialerPathID p with Some dialer => visit_kept affected fuel st dialer | None => st end
            end
        end
  end.
Definition kept_proxies (affected : gset string) (pathID : string) : gset string :=
  (visit_kept affected (S (size (paths b))) (∅, ∅) pathID).2.
(** The branch an access takes: revoked, or one that keeps credentials in use. *)
Definition access_goes (affected : gset string) (a : PathAccess) : bool :=
  negb (is_set (pc_DeletedAt a)) && (bool_decide (pc_PathID a ∈ affected) || is_kind KUser && (pc_ProxyUserID a =? resourceID)%string).
Definition access_stays (affected : gset string) (a : PathAccess) : bool :=
  negb (is_set (pc_DeletedAt a)) && negb (bool_decide (pc_PathID a ∈ affected) || is_kind KUser && (pc_ProxyUserID a =? resourceID)%string)
  && pc_Enabled a.
Definition access_effect : effect := if is_kind KUser then Unavailable else if is_kind KPath then Removed else Revoked.
Definition listed_accesses : list PathAccess := List.filter (fun a => is_set (proxy_users b !! pc_ProxyUserID a)) (path_accesses b).
Definition affected_user (affected : gset string) (u : string) : bool :=
  existsb (fun a => access_goes affected a && (pc_ProxyUserID a =? u)%string) listed_accesses.
Definition still_required (affected : gset string) (u x : string) : bool :=
  existsb (fun a => access_stays affected a && (pc_ProxyUserID a =? u)%string && bool_decide (x ∈ kept_proxies affected (pc_PathID a))) listed_accesses.

Definition binding_items : list item :=
  omap (fun kv : (string * string) * bool =>
    if kv.2 && is_set (proxy_users b !! kv.1.1) && is_set (nodes b !! kv.1.2)
       && (is_kind KNode && (kv.1.2 =? resourceID)%string || is_kind KUser && (kv.1.1 =? resourceID)%string)
    then Some (NodeAccess kv.1.1 kv.1.2, if is_kind KUser then Unavailable else Disabled) else None) (map_to_list (bindings b)).
(** ListActiveNodeTokensByNodeName *)
Definition names_node (n : string) (node : Node) : bool :=
  (n =? resourceID)%string || ((no_Name node =? resourceID)%string && negb (is_set (no_DeletedAt node))) ||
  bool_decide (node_name_aliases b !! resourceID = Some n).
Definition token_items : list item :=
  if is_kind KNode then
    omap (fun kt : string * node_token =>
      match nodes b !! tk_NodeID kt.2 with
      | Some node => if names_node (tk_NodeID kt.2) node && negb (is_set (tk_RevokedAt kt.2)) then Some (AgentToken kt.1, Revoked) else None
      | None => None
      end) (map_to_list (db_node_tokens d))
  else [].
Definition proxy_items : list item :=
  if is_kind KNode then map (fun x => (ProxyItem x, Archived)) (List.filter is_target (map fst (map_to_list (proxies b)))) else [].
Definition endpoint_items : list item :=
  omap (fun ke : string * Endpoint => if is_target (ep_ProxyID ke.2) && ep_Enabled ke.2 then Some (EndpointItem ke.1, Disabled) else None)
    (map_to_list (endpoints b)).
Definition path_items (affected : gset string) : list item :=
  omap (fun kp : string * Path =>
    if bool_decide (kp.1 ∈ affected) then
      if is_kind KPath && negb (kp.1 =? resourceID)%string then Some (PathItem kp.1, BlocksDeletion)
      else if negb (is_kind KPath) && pa_Enabled kp.2 then Some (PathItem kp.1, Disabled) else None
    else None) (map_to_list (paths b)).
Definition access_items (affected : gset string) : list item :=
  omap (fun a => if access_goes affected a then Some (AccessItem (pc_ID a), access_effect) else None) listed_accesses.
Definition credential_items (affected : gset string) : list item :=
  omap (fun kc : (string * string) * ProxyCredential =>
    let (u, x) := kc.1 in
    if is_set (pk_DeletedAt kc.2) || negb (is_set (proxy_users b !! u)) then None
    else if is_kind KUser && (u =? resourceID)%string then Some (CredentialItem u x, Unavailable)
    else if is_target x then Some (CredentialItem u x, Archived)
    else if pk_Enabled kc.2 && affected_user affected u && negb (still_required affected u x) then Some (CredentialItem u x, Disabled)
    else None) (map_to_list (credentials b)).
Definition group_items (affected : gset string) : list item :=
  let live g := match path_groups (db_store d) !! g with Some row => negb (is_set (pg_DeletedAt row)) | None => false end in
  omap (fun gp : string * string => if live gp.1 && bool_decide (gp.2 ∈ affected) then Some (GroupMembership gp.1 gp.2, Removed) else None)
    (elements (path_group_members b)) ++
  omap (fun ug : string * string => if is_kind KUser && live ug.2 && (ug.1 =? resourceID)%string then Some (GroupGrant ug.2 ug.1, Revoked) else None)
    (elements (user_path_group_grants (db_store d))).
(** The nodes of the targets are read for their host names. *)
Definition target_nodes_readable : bool :=
  forallb (fun kp : string * proxy_row => negb (is_target kp.1) || is_ok (GetNode b (pr_NodeID kp.2))) (map_to_list (proxies b)).
End impact.

(** [resourceID] and whether the deletion is blocked, after the switch *)
Definition resolve_resource (d : database) (kind : resource_kind) (resourceID : string) : deleted (string * bool) :=
  match kind with
  | KNode => let? node := in_tables (GetNode (rows d) resourceID) in Ok (no_ID node, false)
  | KProxy => let? proxy := in_tables (GetProxyByID (rows d) resourceID) in Ok (px_ID proxy, false)
  | KUser => let? user := in_tables (GetProxyUser (rows d) resourceID) in Ok (us_ID user, false)
  | KPath => let? path := in_tables (GetPath (rows d) resourceID) in Ok (pa_ID path, pa_Managed path)
  end.
Definition ResourceDeletionImpact (d : database) (kind resource : string) : deleted DeletionImpact :=
  match kind_of kind with
  | None => Err (UnsupportedKind kind)
  | Some kind =>
      let? (resourceID, blocked) := resolve_resource d kind resource in
      let l := map_to_list (paths (rows d)) in
      let? affected := spread_all (S (S (size (paths (rows d))))) l
                         (list_to_set (map fst (List.filter (first_affected d kind resourceID) l))) in
      if target_nodes_readable d kind resourceID then
        let blocks := is_kind kind KPath && existsb (fun kp => bool_decide (kp.1 ∈ affected) && negb (kp.1 =? resourceID)%string) l in
        Ok {| di_Items := binding_items d kind resourceID ++ token_items d kind resourceID ++ proxy_items d kind resourceID
                ++ endpoint_items d kind resourceID ++ path_items d kind resourceID affected ++ access_items d kind resourceID affected
                ++ credential_items d kind resourceID affected ++ group_items d kind resourceID affected;
              di_Blocked := blocked || blocks |}
      else Err (TableErr (NodeNotFound resourceID))
  end.
