(* ===== verification/DeletionSafety.v ===== *)
(** * A deletion leaves nothing behind, and its preview announces it
    ([Deletion])

    After the transaction no path, access, group, grant, endpoint, binding or
    credential leads to the deleted resource; what users may use still is what
    their sources say; and everything that happened was on the preview. *)
From S2P Require Import Prelude GoStrings.
From S2P Require Import Effects Paths PathGrants PathAccess GrantSafety Deletion.

(** ** Which paths are retired *)
(** The path, or one it is dialled through, is on a retired proxy. *)
Definition through_retired (b : Paths.tables) (k : string) : Prop :=
  exists x p, rtc (dials (paths b)) k x /\ paths b !! x = Some p /\ on_proxies b (retired_proxy b) p = true.
Lemma reaches_spec m seed k n fuel : chain m k n -> (n <= fuel)%nat ->
  reaches m seed fuel k = true <-> exists x p, rtc (dials m) k x /\ m !! x = Some p /\ seed p = true.
Proof.
  intros Hc. revert fuel. induction Hc as [k p Hk Hd|k p d n Hk Hd Hc IH]; intros [|fuel] Hf; [lia| |lia|]; cbn [reaches]; rewrite Hk, Hd.
  - rewrite orb_false_r. split; [by intros Hs; exists k, p; split; [apply rtc_refl|]|].
    intros (x & q & Hr & Hx & Hs). destruct Hr as [k|k y x (p' & Hp' & Hd') _]; [by rewrite Hk in Hx; injection Hx as <-|congruence].
  - rewrite orb_true_iff, (IH fuel) by lia. split.
    + intros [Hs|(x & q & Hr & Hx & Hs)]; [exists k, p; split; [apply rtc_refl|done]|].
      exists x, q. split; [|done]. eapply rtc_l; [|exact Hr]. by exists p.
    + intros (x & q & Hr & Hx & Hs). destruct Hr as [k|k y x (p' & Hp' & Hd') Hr']; [rewrite Hk in Hx; injection Hx as <-; by left|].
      right. rewrite Hk in Hp'. injection Hp' as <-. rewrite Hd in Hd'. injection Hd' as <-. by exists x, q.
Qed.
Lemma chain_of m k p : acyclic m -> m !! k = Some p -> exists n, chain m k n /\ (n <= size m)%nat.
Proof. intros Ha Hk. destruct (Ha k p Hk) as [n Hn]. exists n. split; [done|]. by eapply chain_le_size. Qed.
Lemma rtc_dials_known m k x : rtc (dials m) k x -> is_Some (m !! x) -> is_Some (m !! k).
Proof. intros Hr Hx. destruct Hr as [|k y x (p & Hp & _) _]; [done|by eexists]. Qed.
Lemma retired_paths_spec b k : acyclic (paths b) -> k ∈ ListRetiredResourcePaths b <-> through_retired b k.
Proof.
  intros Ha. unfold ListRetiredResourcePaths, through_retired. rewrite list_elem_of_In, filter_In, <- list_elem_of_In, list_elem_of_fmap.
  split.
  - intros [((k' & p) & -> & Hk%elem_of_map_to_list) Hr]. cbn [fst] in *. destruct (chain_of _ _ _ Ha Hk) as (n & Hn & Hle).
    apply (reaches_spec _ _ _ _ _ Hn) in Hr; [done|lia].
  - intros (x & q & Hr & Hx & Hs). destruct (rtc_dials_known _ _ _ Hr ltac:(by eexists)) as [p Hp].
    destruct (chain_of _ _ _ Ha Hp) as (n & Hn & Hle). split; [exists (k, p); split; [done|by apply elem_of_map_to_list]|].
    apply (reaches_spec _ _ _ _ _ Hn); [lia|]. by exists x, q.
Qed.

(** ** The loop over the retired paths *)
Record retired_all (now : string) (P : list string) (s s' : store) : Prop := {
  ra_paths : forall k, paths (base s') !! k = (fun p => if bool_decide (k ∈ P) then disabled_path p else p) <$> paths (base s) !! k;
  ra_accesses : path_accesses (base s') =
    map (fun a => if bool_decide (pc_PathID a ∈ P) && negb (is_set (pc_DeletedAt a)) then retired now a else a) (path_accesses (base s));
  ra_members : forall g p, (g, p) ∈ path_group_members (base s') <-> (g, p) ∈ path_group_members (base s) /\ p ∉ P;
  ra_direct : forall u p e, direct_path_grants s' !! (u, p) = Some e <-> direct_path_grants s !! (u, p) = Some e /\ p ∉ P;
  ra_tables : endpoints (base s') = endpoints (base s) /\ nodes (base s') = nodes (base s) /\ proxies (base s') = proxies (base s) /\
    proxy_users (base s') = proxy_users (base s) /\ bindings (base s') = bindings (base s) /\ credentials (base s') = credentials (base s) /\
    node_name_aliases (base s') = node_name_aliases (base s);
  ra_store : path_groups s' = path_groups s /\ user_path_group_grants s' = user_path_group_grants s /\
    proxy_name_aliases s' = proxy_name_aliases s /\ credential_json s' = credential_json s /\ path_group_changes s' = path_group_changes s
}.
Lemma retire_path_spec now s k : retired_all now [k] s (retire_path now s k).
Proof.
  split; cbn.
  - intros k'. destruct (decide (k' = k)) as [->|Hne].
    + rewrite lookup_alter_eq. rewrite bool_decide_true by (by left). by destruct (paths (base s) !! k).
    + rewrite lookup_alter_ne by done. rewrite bool_decide_false by (by intros ->%list_elem_of_singleton). by destruct (paths (base s) !! k').
  - unfold ArchivePathAccesses. apply map_ext. intros a. f_equal. destruct (pc_PathID a =? k)%string eqn:E.
    + apply String.eqb_eq in E as ->. by rewrite bool_decide_true by (by left).
    + apply String.eqb_neq in E. rewrite bool_decide_false; [done|]. intros Hin%list_elem_of_singleton. congruence.
  - intros g p. rewrite elem_of_filter, list_elem_of_singleton. cbn. tauto.
  - intros u p e. rewrite map_lookup_filter_Some, list_elem_of_singleton. cbn. done.
  - done.
  - done.
Qed.
Lemma retired_all_nil now s : retired_all now [] s s.
Proof.
  split; [| | | |done|done].
  - intros k. rewrite bool_decide_false by apply not_elem_of_nil. by destruct (paths (base s) !! k).
  - rewrite <- map_id at 1. apply map_ext. intros a. by rewrite bool_decide_false by apply not_elem_of_nil.
  - intros g p. split; [intros ?; split; [done|apply not_elem_of_nil]|by intros []].
  - intros u p e. split; [intros ?; split; [done|apply not_elem_of_nil]|by intros []].
Qed.
Lemma decide_cons (x k : string) P : bool_decide (x ∈ k :: P) = bool_decide (x ∈ [k]) || bool_decide (x ∈ P).
Proof.
  rewrite <- bool_decide_or. apply bool_decide_ext. rewrite elem_of_cons, list_elem_of_singleton. done.
Qed.
Lemma retired_all_cons now k P s s1 s' : retired_all now [k] s s1 -> retired_all now P s1 s' -> retired_all now (k :: P) s s'.
Proof.
  intros [A1 A2 A3 A4 (A5 & A6 & A7 & A8 & A9 & A10 & A11) (A12 & A13 & A14 & A15 & A16)] [B1 B2 B3 B4 (B5 & B6 & B7 & B8 & B9 & B10 & B11) (B12 & B13 & B14 & B15 & B16)].
  split.
  - intros x. rewrite B1, A1, <- option_fmap_compose. apply option_fmap_ext. intros p. cbn. rewrite (decide_cons x k P).
    by destruct (bool_decide (x ∈ [k])), (bool_decide (x ∈ P)).
  - rewrite B2, A2, map_map. apply map_ext. intros a. rewrite (decide_cons _ k P). destruct (pc_DeletedAt a) eqn:Ed; cbn [is_set negb].
    + rewrite !andb_false_r, Ed. cbn [is_set negb]. by rewrite !andb_false_r.
    + rewrite !andb_true_r. destruct (bool_decide (pc_PathID a ∈ [k])); cbn [orb retired pc_PathID pc_DeletedAt is_set negb].
      * by rewrite andb_false_r.
      * by rewrite Ed, andb_true_r.
  - intros g p. rewrite B3, A3, !not_elem_of_cons. pose proof (not_elem_of_nil p). tauto.
  - intros u p e. rewrite B4, A4, !not_elem_of_cons. pose proof (not_elem_of_nil p). tauto.
  - split_and!; congruence.
  - split_and!; congruence.
Qed.
(** Who had access to one of the paths. *)
Definition had_access (b : Paths.tables) (P : list string) (u : string) : Prop :=
  exists a, a ∈ path_accesses b /\ pc_PathID a ∈ P /\ pc_DeletedAt a = None /\ pc_ProxyUserID a = u.
Lemma path_users_spec b k u : u ∈ ListPathAccessUsersIncludingDeleted b k <-> had_access b [k] u.
Proof.
  unfold ListPathAccessUsersIncludingDeleted, had_access. rewrite elem_of_remove_dups, list_elem_of_omap. split.
  - intros (a & Ha & H). destruct (_ =? _)%string eqn:E; [|done]. destruct (pc_DeletedAt a) eqn:Ed; [done|]. cbn in H. injection H as <-.
    apply String.eqb_eq in E. exists a. split; [done|]. split; [by apply list_elem_of_singleton|done].
  - intros (a & Ha & Hk%list_elem_of_singleton & Hd & <-). exists a. split; [done|]. by rewrite Hk, String.eqb_refl, Hd.
Qed.
Lemma had_access_cons b k P u : had_access b (k :: P) u <-> had_access b [k] u \/ had_access b P u.
Proof.
  unfold had_access. split.
  - intros (a & Ha & [Hk|Hk]%elem_of_cons & H); [left|right]; exists a; split; [done| |done|done]. split; [by apply list_elem_of_singleton|done].
  - intros [(a & Ha & Hk%list_elem_of_singleton & H)|(a & Ha & Hk & H)]; exists a; (split; [done|]); (split; [apply elem_of_cons; auto|done]).
Qed.
Lemma had_access_after now k s s1 P u : retired_all now [k] s s1 ->
  had_access (base s) [k] u \/ had_access (base s1) P u <-> had_access (base s) [k] u \/ had_access (base s) P u.
Proof.
  intros H0. unfold had_access at 2. rewrite (ra_accesses _ _ _ _ H0). split; (intros [H|H]; [by left|]).
  - right. destruct H as (a & Ha & Hk & Hd & Hu). apply list_elem_of_fmap in Ha as (a0 & -> & Ha0). destruct (_ && _); [done|by exists a0].
  - destruct H as (a & Ha & Hk & Hd & Hu). destruct (decide (pc_PathID a = k)) as [E|E].
    + left. exists a. split; [done|]. split; [by apply list_elem_of_singleton|done].
    + right. exists a. split; [|done]. apply list_elem_of_fmap. exists a. split; [|done].
      rewrite bool_decide_false; [done|]. by intros ?%list_elem_of_singleton.
Qed.
Lemma retire_loop now P : forall s users s' users', foldl (retire_step now) (s, users) P = (s', users') ->
  retired_all now P s s' /\ forall u, u ∈ users' <-> u ∈ users \/ had_access (base s) P u.
Proof.
  induction P as [|k P IH]; intros s users s' users'; cbn [foldl].
  - intros [= <- <-]. split; [apply retired_all_nil|]. intros u. split; [by left|]. intros [?|(a & _ & Ha & _)]; [done|by apply elem_of_nil in Ha].
  - unfold retire_step at 2. cbn [fst snd]. intros H. apply IH in H as [H1 H2]. pose proof (retire_path_spec now s k) as H0.
    split; [by eapply retired_all_cons|]. intros u.
    rewrite H2, elem_of_union, elem_of_list_to_set, path_users_spec, (had_access_cons _ k P).
    pose proof (had_access_after now k s _ P u H0). tauto.
Qed.

(** ** The credentials of the users concerned *)
Lemma disableUnused_shape b user b' : disableUnusedProxyCredentialsTx b user = Ok b' -> b' = with_credentials b (credentials b') /\
  forall key, option_Forall2 (fun c c' => c' = c \/ (c' = disable_credential c /\ listed_credential b user key c = true)) (credentials b !! key) (credentials b' !! key).
Proof.
  unfold disableUnusedProxyCredentialsTx. destruct (required_proxies _ _ _) as [R|]; [|done]. intros [= <-].
  split; [done|]. intros key. cbn [credentials with_credentials]. rewrite map_lookup_imap.
  destruct (credentials b !! key) as [c|]; [|constructor]. cbn. constructor.
  destruct (listed_credential b user key c); [|by left]. destruct (_ || _); [by left|by right].
Qed.
(** Credentials nothing a user may still use needs. *)
Definition unneeded (b : Paths.tables) (users : list string) (key : string * string) (c : ProxyCredential) : Prop :=
  exists u row, u ∈ users /\ proxy_users b !! u = Some row /\ us_DeletedAt row = None /\
    listed_credential b row key c = true /\ ~ proxy_needed b (us_ID row) key.2.
Definition trimmed_to (b : Paths.tables) (users : list string) (key : string * string) (c c' : ProxyCredential) : Prop :=
  (c' = c \/ c' = disable_credential c) /\ (pk_Enabled c' = true <-> pk_Enabled c = true /\ ~ unneeded b users key c).
Lemma option_Forall2_lookup {A B} (R : A -> B -> Prop) o o' : option_Forall2 R o o' <->
  match o, o' with Some a, Some b => R a b | None, None => True | _, _ => False end.
Proof. split; [by intros []|]. destruct o, o'; try done; by constructor. Qed.
Lemma disable_users_spec users : forall b, acyclic (paths b) -> endpoints_known b ->
  (forall u, u ∈ users -> is_Some (proxy_users b !! u)) ->
  exists m, disable_for_users b users = Ok (with_credentials b m) /\
    forall key, option_Forall2 (trimmed_to b users key) (credentials b !! key) (m !! key).
Proof.
  induction users as [|u users IH]; intros b Ha He Hu; cbn [disable_for_users].
  - exists (credentials b). split; [by destruct b|]. intros key. apply option_Forall2_lookup. destruct (credentials b !! key) as [c|]; [|done].
    split; [by left|]. split; [|by intros []]. intros Hc. split; [done|]. by intros (u & row & Hin%elem_of_nil & _).
  - destruct (Hu u ltac:(by left)) as [row Hrow]. rewrite Hrow.
    assert (Hskip : (forall key c, listed_credential b row key c = true -> us_DeletedAt row = None -> proxy_needed b (us_ID row) key.2) ->
      forall key c c', trimmed_to b users key c c' -> trimmed_to b (u :: users) key c c').
    { intros Hn key c c' [Hs Hi]. split; [done|]. rewrite Hi. split; intros [H1 H2]; (split; [done|]); intros (v & r & Hv & Hr & Hd & Hl & Hnn).
      - apply elem_of_cons in Hv as [->|Hv]; [|apply H2; by exists v, r]. rewrite Hrow in Hr. injection Hr as <-. by apply Hnn, (Hn key c).
      - apply H2. exists v, r. split; [by right|done]. }
    destruct (us_DeletedAt row) as [t|] eqn:Ed; cbn [is_set].
    { destruct (IH b Ha He (fun v Hv => Hu v ltac:(by right))) as (m & Hm & Hk). exists m. split; [done|]. intros key.
      pose proof (Hk key) as H1. apply option_Forall2_lookup in H1. apply option_Forall2_lookup.
      destruct (credentials b !! key), (m !! key); try done. by apply Hskip. }
    destruct (disableUnused_exact b row Ha He) as (b1 & Hb1 & Hsame & Hex). rewrite Hb1. cbn [in_tables].
    destruct (disableUnused_shape _ _ _ Hb1) as [_ Hsh]. set (m1 := credentials b1) in *. rewrite Hsame.
    destruct (IH (with_credentials b m1) Ha He (fun v Hv => Hu v ltac:(by right))) as (m & Hm & Hk). exists m. split; [exact Hm|]. intros key.
    pose proof (Hk key) as H1. pose proof (Hsh key) as H2. apply option_Forall2_lookup in H1, H2. apply option_Forall2_lookup. cbn [credentials with_credentials] in H1.
    destruct (credentials b !! key) as [c|] eqn:Ec, (m1 !! key) as [c1|] eqn:Ec1, (m !! key) as [c2|]; try done.
    destruct (Hex key c Ec) as (c1' & Hc1' & Hi1). fold m1 in Hc1'. rewrite Ec1 in Hc1'. injection Hc1' as <-.
    destruct H1 as [Hs2 Hi2]. assert (Hdel : pk_DeletedAt c1 = pk_DeletedAt c) by (by destruct H2 as [->|[-> _]]).
    assert (Hl : forall r, listed_credential (with_credentials b m1) r key c1 = listed_credential b r key c) by (intros r; unfold listed_credential; by rewrite Hdel).
    split.
    + destruct Hs2 as [->| ->], H2 as [->|[-> _]]; auto.
    + rewrite Hi2, Hi1. split.
      * intros [[H3 H4] H5]. split; [done|]. intros (v & r & Hv & Hr & Hd & Hlr & Hnn). apply elem_of_cons in Hv as [->|Hv].
        -- rewrite Hrow in Hr. injection Hr as <-. destruct H4 as [H4|H4]; [congruence|done].
        -- apply H5. exists v, r. split; [done|]. split; [done|]. split; [done|]. split; [by rewrite Hl|exact Hnn].
      * intros [H3 H4]. split.
        -- destruct (pk_Enabled c1) eqn:E1; [by apply Hi1|]. split; [done|]. destruct (listed_credential b row key c) eqn:Elr; [|by left]. exfalso.
           apply H4. exists u, row. split; [by left|]. split; [done|]. split; [done|]. split; [done|].
           intros Hn. assert (Hc : false = true) by (apply Hi1; split; [done|by right]). done.
        -- intros (v & r & Hv & Hr & Hd & Hlr & Hnn). apply H4. exists v, r. split; [by right|]. split; [done|]. split; [done|].
           split; [by rewrite <- Hl|exact Hnn].
Qed.

(** ** The whole transaction *)
(** What the foreign keys guarantee, and what [Paths] maintains. *)
Record intact (b : Paths.tables) : Prop := {
  in_acyclic : acyclic (paths b);
  in_endpoints : endpoints_known b;
  in_users : forall u row, proxy_users b !! u = Some row -> us_ID row = u;
  in_accesses : forall a, a ∈ path_accesses b -> is_Some (proxy_users b !! pc_ProxyUserID a)
}.
Definition node_gone (b : Paths.tables) (n : string) : bool :=
  match nodes b !! n with Some row => is_set (no_DeletedAt row) | None => false end.
(** What happens to a credential. *)
Definition released (s s' : store) (key : string * string) (c : ProxyCredential) : Prop :=
  had_access (base s) (ListRetiredResourcePaths (base s)) key.1 /\
  (exists row, proxy_users (base s) !! key.1 = Some row /\ us_DeletedAt row = None) /\
  pk_DeletedAt c = None /\ is_Some (live_proxy (base s) key.2) /\ ~ proxy_needed (base s') key.1 key.2.
Definition after_retirement (now : string) (s s' : store) (key : string * string) (c c' : ProxyCredential) : Prop :=
  if retired_proxy (base s) key.2 then c' = (if is_set (pk_DeletedAt c) then c else archived_credential now c)
  else (c' = c \/ c' = disable_credential c) /\ (pk_Enabled c' = true <-> pk_Enabled c = true /\ ~ released s s' key c).
Record retirement (now : string) (s s' : store) : Prop := {
  rt_loop : exists s1, retired_all now (ListRetiredResourcePaths (base s)) s s1 /\
    paths (base s') = paths (base s1) /\ path_accesses (base s') = path_accesses (base s1) /\
    path_group_members (base s') = path_group_members (base s1) /\ direct_path_grants s' = direct_path_grants s1;
  rt_endpoints : endpoints (base s') = (fun e => if retired_proxy (base s) (ep_ProxyID e) then disabled_endpoint e else e) <$> endpoints (base s);
  rt_bindings : forall key, bindings (base s') !! key = (fun enabled : bool => if node_gone (base s) key.2 then false else enabled) <$> bindings (base s) !! key;
  rt_credentials : forall key, option_Forall2 (after_retirement now s s' key) (credentials (base s) !! key) (credentials (base s') !! key);
  rt_tables : nodes (base s') = nodes (base s) /\ proxies (base s') = proxies (base s) /\ proxy_users (base s') = proxy_users (base s) /\
    node_name_aliases (base s') = node_name_aliases (base s);
  rt_store : path_groups s' = path_groups s /\ user_path_group_grants s' = user_path_group_grants s /\
    proxy_name_aliases s' = proxy_name_aliases s /\ credential_json s' = credential_json s /\ path_group_changes s' = path_group_changes s
}.
Lemma same_dialers_retired now P s s1 : retired_all now P s s1 -> acyclic (paths (base s)) -> acyclic (paths (base s1)).
Proof.
  intros H. apply acyclic_same_dialers. intros k. rewrite (ra_paths _ _ _ _ H). destruct (paths (base s) !! k) as [p|]; [|done]. cbn.
  by destruct (bool_decide _).
Qed.
Lemma trimmed_kept b users key c c' : trimmed_to b users key c c' -> is_Some (pk_DeletedAt c) -> c' = c.
Proof.
  intros [[->| ->] Hi] Hd; [done|]. assert (Hn : ~ unneeded b users key c).
  { intros (u & row & _ & _ & _ & Hl & _). unfold listed_credential in Hl. rewrite !andb_true_iff, negb_true_iff in Hl.
    destruct Hl as [[[_ Hl] _] _]. by apply bool_decide_eq_false in Hl. }
  destruct (pk_Enabled c) eqn:Ee; [|by destruct c; cbn in *; subst]. exfalso. cbn in Hi. destruct Hi as [_ Hi]. discriminate Hi. done.
Qed.
Lemma retire_succeeds now s : intact (base s) -> exists s', retireResourceDependenciesTx now s = Ok s' /\ retirement now s s'.
Proof.
  intros Hi. unfold retireResourceDependenciesTx. set (P := ListRetiredResourcePaths (base s)).
  destruct (foldl (retire_step now) (s, ∅) P) as [s1 users] eqn:El. apply retire_loop in El as [Hall Hus].
  destruct (ra_tables _ _ _ _ Hall) as (E1 & E2 & E3 & E4 & E5 & E6 & E7).
  set (b := ArchiveRetiredProxyCredentials now (DisableRetiredEndpoints (DisableRetiredNodeBindings (base s1)))).
  assert (Hret : forall x, retired_proxy (DisableRetiredEndpoints (DisableRetiredNodeBindings (base s1))) x = retired_proxy (base s) x).
  { intros x. unfold retired_proxy. cbn. by rewrite E2, E3. }
  assert (Hb : forall key, option_Forall2 (fun c c' => c' = if retired_proxy (base s) key.2 && negb (is_set (pk_DeletedAt c)) then archived_credential now c else c)
    (credentials (base s) !! key) (credentials b !! key)).
  { intros key. unfold b, ArchiveRetiredProxyCredentials. cbn [credentials with_credentials]. rewrite map_lookup_imap. cbn. rewrite E6.
    destruct (credentials (base s) !! key) as [c|]; cbn; constructor. by rewrite Hret. }
  assert (Hac : acyclic (paths b)) by (apply (same_dialers_retired _ _ _ _ Hall), Hi).
  assert (Hep : endpoints_known b).
  { intros k p Hp. change (paths (base s1) !! k = Some p) in Hp. rewrite (ra_paths _ _ _ _ Hall) in Hp. unfold b. cbn. rewrite lookup_fmap, E1.
    destruct (paths (base s) !! k) as [q|] eqn:Eq; [|done]. cbn in Hp. injection Hp as <-. destruct (in_endpoints _ Hi _ _ Eq) as [e He].
    replace (pa_EndpointID _) with (pa_EndpointID q) by (by destruct (bool_decide _)). rewrite He. by eexists. }
  destruct (disable_users_spec (elements users) b Hac Hep) as (m & Hm & Hk).
  { intros u Hu%elem_of_elements. change (is_Some (proxy_users (base s1) !! u)). rewrite E4. apply Hus in Hu as [Hu|(a & Ha & _ & _ & <-)]; [set_solver|].
    by apply (in_accesses _ Hi). }
  rewrite Hm. exists (set_base s1 (with_credentials b m)). split; [done|].
  split; cbn.
  - by exists s1.
  - rewrite E1. apply map_fmap_ext. intros k e _. by rewrite <- (Hret (ep_ProxyID e)).
  - intros key. rewrite map_lookup_imap, E5, E2. unfold node_gone. destruct (bindings (base s) !! key); [|done]. cbn.
    by destruct (nodes (base s) !! key.2).
  - intros key. pose proof (Hb key) as H1. pose proof (Hk key) as H2. apply option_Forall2_lookup in H1, H2. apply option_Forall2_lookup.
    destruct (credentials (base s) !! key) as [c|] eqn:Ec, (credentials b !! key) as [c1|], (m !! key) as [c2|]; try done.
    unfold after_retirement. destruct (retired_proxy (base s) key.2) eqn:Er; cbn [andb] in H1.
    + rewrite (trimmed_kept _ _ _ _ _ H2).
      * subst c1. by destruct (pk_DeletedAt c).
      * subst c1. destruct (pk_DeletedAt c) eqn:Ed; cbn [is_set negb archived_credential pk_DeletedAt]; [by rewrite Ed|done].
    + subst c1. destruct H2 as [H2 ->]. split; [exact H2|]. apply and_iff_compat_l, not_iff_compat. unfold unneeded, released. cbn [base set_base].
      assert (Hlp : live_proxy b key.2 = live_proxy (base s) key.2) by (unfold live_proxy, b; cbn; by rewrite E2, E3).
      assert (Hpu : proxy_users b = proxy_users (base s)) by exact E4.
      split.
      * intros (u & row & Hu & Hr & Hd & Hl & Hn). unfold listed_credential in Hl. rewrite !andb_true_iff, !negb_true_iff in Hl.
        destruct Hl as [[[He Hdc] Hlv] _]. apply String.eqb_eq in He. apply bool_decide_eq_false in Hdc. apply bool_decide_eq_true in Hlv.
        rewrite Hpu in Hr. rewrite (in_users _ Hi _ _ Hr) in He. subst u. rewrite (in_users _ Hi _ _ Hr) in Hn. rewrite Hlp in Hlv.
        apply elem_of_elements, Hus in Hu as [Hu|Hu]; [set_solver|].
        split; [exact Hu|]. split; [by exists row|]. split; [by apply eq_None_not_Some|]. split; [exact Hlv|exact Hn].
      * intros (Hu & (row & Hr & Hd) & Hdc & Hlv & Hn). exists key.1, row. split; [apply elem_of_elements, Hus; by right|].
        rewrite Hpu. split; [done|]. split; [done|]. rewrite (in_users _ Hi _ _ Hr). split; [|exact Hn].
        unfold listed_credential. rewrite (in_users _ Hi _ _ Hr), String.eqb_refl, Hdc, Hd, Hlp, (bool_decide_true _ Hlv). done.
  - by rewrite E2, E3, E4, E7.
  - apply Hall.
Qed.

(** ** Nothing is left behind *)
Record clean (s : store) : Prop := {
  cl_paths : forall k p, through_retired (base s) k -> paths (base s) !! k = Some p -> pa_Enabled p = false;
  cl_accesses : forall a, a ∈ path_accesses (base s) -> through_retired (base s) (pc_PathID a) -> is_Some (pc_DeletedAt a);
  cl_members : forall g k, (g, k) ∈ path_group_members (base s) -> ~ through_retired (base s) k;
  cl_direct : forall u k e, direct_path_grants s !! (u, k) = Some e -> ~ through_retired (base s) k;
  cl_endpoints : forall i e, endpoints (base s) !! i = Some e -> retired_proxy (base s) (ep_ProxyID e) = true -> ep_Enabled e = false;
  cl_credentials : forall u x c, credentials (base s) !! (u, x) = Some c -> retired_proxy (base s) x = true -> is_Some (pk_DeletedAt c);
  cl_bindings : forall u n, node_gone (base s) n = true -> bindings (base s) !! (u, n) <> Some true
}.
Section after.
Context (now : string) (s s' : store) (Hr : retirement now s s') (Hi : intact (base s)).
Abbreviation P := (ListRetiredResourcePaths (base s)).
Lemma after_paths k : paths (base s') !! k = (fun p => if bool_decide (k ∈ P) then disabled_path p else p) <$> paths (base s) !! k.
Proof. destruct (rt_loop _ _ _ Hr) as (s1 & Ha & -> & _). apply Ha. Qed.
Lemma after_dials k x : dials (paths (base s')) k x <-> dials (paths (base s)) k x.
Proof.
  unfold dials. rewrite after_paths. destruct (paths (base s) !! k) as [p|]; cbn; [|by split; intros (? & ? & _)].
  split; intros (q & [= <-] & Hd); (eexists; split; [done|]); by destruct (bool_decide (k ∈ P)).
Qed.
Lemma after_retired x : retired_proxy (base s') x = retired_proxy (base s) x.
Proof. unfold retired_proxy. destruct (rt_tables _ _ _ Hr) as (-> & -> & _). done. Qed.
Lemma after_node_gone x : node_gone (base s') x = node_gone (base s) x.
Proof. unfold node_gone. by destruct (rt_tables _ _ _ Hr) as (-> & _). Qed.
Lemma after_on_proxies p : on_proxies (base s') (retired_proxy (base s')) p = on_proxies (base s) (retired_proxy (base s)) p.
Proof.
  unfold on_proxies. rewrite (rt_endpoints _ _ _ Hr), lookup_fmap. destruct (endpoints (base s) !! pa_EndpointID p) as [e|]; [|done]. cbn.
  rewrite after_retired. f_equal. by destruct (retired_proxy (base s) (ep_ProxyID e)).
Qed.
Lemma after_through k : through_retired (base s') k <-> k ∈ P.
Proof.
  rewrite (retired_paths_spec _ _ (in_acyclic _ Hi)). unfold through_retired.
  assert (Hrtc : forall x, rtc (dials (paths (base s'))) k x <-> rtc (dials (paths (base s))) k x).
  { intros x. split; (apply rtc_subrel; intros a b; apply after_dials). }
  split; intros (x & p & Hkx & Hx & Hp).
  - rewrite after_paths in Hx. destruct (paths (base s) !! x) as [q|] eqn:Eq; [|done]. injection Hx as <-. exists x, q.
    split; [by apply Hrtc|]. split; [done|]. rewrite after_on_proxies in Hp. by destruct (bool_decide (x ∈ P)).
  - exists x. eexists. split; [by apply Hrtc|]. rewrite after_paths, Hx. split; [done|]. cbn. rewrite after_on_proxies.
    by destruct (bool_decide (x ∈ P)).
Qed.
Lemma after_accesses a : a ∈ path_accesses (base s') <->
  exists a0, a0 ∈ path_accesses (base s) /\ a = if bool_decide (pc_PathID a0 ∈ P) && negb (is_set (pc_DeletedAt a0)) then retired now a0 else a0.
Proof.
  destruct (rt_loop _ _ _ Hr) as (s1 & Ha & _ & -> & _). rewrite (ra_accesses _ _ _ _ Ha), list_elem_of_fmap. split; intros (a0 & H1 & H2); by exists a0.
Qed.
Lemma after_members g k : (g, k) ∈ path_group_members (base s') <-> (g, k) ∈ path_group_members (base s) /\ k ∉ P.
Proof. destruct (rt_loop _ _ _ Hr) as (s1 & Ha & _ & _ & -> & _). apply Ha. Qed.
Lemma after_direct u k e : direct_path_grants s' !! (u, k) = Some e <-> direct_path_grants s !! (u, k) = Some e /\ k ∉ P.
Proof. destruct (rt_loop _ _ _ Hr) as (s1 & Ha & _ & _ & _ & ->). apply Ha. Qed.
Lemma after_clean : clean s'.
Proof.
  split.
  - intros k p Hk%after_through Hp. rewrite after_paths, (bool_decide_true _ Hk) in Hp. destruct (paths (base s) !! k); [|done]. by injection Hp as <-.
  - intros a (a0 & Ha & ->)%after_accesses Hk%after_through. destruct (pc_DeletedAt a0) as [t|] eqn:Ed; cbn [is_set negb] in *.
    + rewrite andb_false_r in *. rewrite Ed. by eexists.
    + rewrite andb_true_r in *. destruct (bool_decide (pc_PathID a0 ∈ P)) eqn:Eb; [by eexists|]. by apply bool_decide_eq_false in Eb.
  - intros g k [_ Hk]%after_members Ht%after_through. done.
  - intros u k e [_ Hk]%after_direct Ht%after_through. done.
  - intros i e He Hx. rewrite (rt_endpoints _ _ _ Hr), lookup_fmap in He. destruct (endpoints (base s) !! i) as [e0|]; [|done].
    injection He as <-. rewrite after_retired in Hx. destruct (retired_proxy (base s) (ep_ProxyID e0)) eqn:E; [done|]. congruence.
  - intros u x c Hc Hx. rewrite after_retired in Hx. pose proof (rt_credentials _ _ _ Hr (u, x)) as H. apply option_Forall2_lookup in H.
    rewrite Hc in H. destruct (credentials (base s) !! (u, x)) as [c0|]; [|done]. unfold after_retirement in H. cbn [snd] in H. rewrite Hx in H.
    subst c. destruct (pk_DeletedAt c0) eqn:Ed; cbn [is_set]; [rewrite Ed|]; by eexists.
  - intros u n Hn. rewrite after_node_gone in Hn. rewrite (rt_bindings _ _ _ Hr). cbn. rewrite Hn. by destruct (bindings (base s) !! (u, n)).
Qed.
Lemma after_intact : intact (base s').
Proof.
  destruct (rt_tables _ _ _ Hr) as (_ & _ & Hu & _). split.
  - apply (acyclic_same_dialers (paths (base s))); [|apply Hi]. intros k. rewrite after_paths. destruct (paths (base s) !! k) as [p|]; [|done].
    cbn. by destruct (bool_decide (k ∈ P)).
  - intros k p Hp. rewrite after_paths in Hp. destruct (paths (base s) !! k) as [q|] eqn:Eq; [|done]. injection Hp as <-.
    destruct (in_endpoints _ Hi _ _ Eq) as [e He]. rewrite (rt_endpoints _ _ _ Hr), lookup_fmap.
    replace (pa_EndpointID _) with (pa_EndpointID q) by (by destruct (bool_decide (k ∈ P))). rewrite He. by eexists.
  - intros u row. rewrite Hu. apply (in_users _ Hi).
  - intros a (a0 & Ha & ->)%after_accesses. rewrite Hu. replace (pc_ProxyUserID _) with (pc_ProxyUserID a0); [by apply (in_accesses _ Hi)|].
    by destruct (_ && _).
Qed.
Lemma after_may_use u k : may_use s' u k <-> may_use s u k /\ k ∉ P.
Proof.
  unfold may_use, allows. split.
  - intros (a & (a0 & Ha & ->)%after_accesses & H1 & H2). destruct (bool_decide (pc_PathID a0 ∈ P)) eqn:Eb; cbn [andb] in *.
    + destruct (pc_DeletedAt a0) eqn:Ed; cbn [is_set negb] in *; [unfold effective in H2; rewrite Ed, andb_false_r in H2; done|done].
    + apply bool_decide_eq_false in Eb. split; [by exists a0|]. apply is_access_true in H1 as [<- _]. done.
  - intros [(a & Ha & H1 & H2) Hk]. exists a. split; [|done]. apply after_accesses. exists a. split; [done|]. apply is_access_true in H1 as [-> _].
    by rewrite (bool_decide_false _ Hk).
Qed.
Lemma after_wants u k : wants s' u k <-> wants s u k /\ k ∉ P.
Proof.
  unfold wants, via. destruct (rt_store _ _ _ Hr) as (-> & -> & _). rewrite after_direct. split.
  - intros [[Hd Hk]|(g & [Hm Hk]%after_members & Hg)]; (split; [|done]); [by left|right]. by exists g.
  - intros [[Hd|(g & Hm & Hg)] Hk]; [by left|right]. exists g. split; [by apply after_members|done].
Qed.
Lemma after_consistent : consistent s -> consistent s'.
Proof.
  intros [[T1 T2 T3 T4] Hd Hm Hg]. destruct (rt_tables _ _ _ Hr) as (_ & _ & Hu & _). destruct (rt_store _ _ _ Hr) as (E1 & E2 & _).
  assert (Hp : forall k, is_Some (paths (base s) !! k) -> is_Some (paths (base s') !! k)) by (intros k [p Hp]; rewrite after_paths, Hp; by eexists).
  split.
  - split.
    + intros k u. rewrite Hu. apply T1.
    + intros k p Hk. rewrite after_paths in Hk. destruct (paths (base s) !! k) as [q|] eqn:Eq; [|done]. injection Hk as <-.
      pose proof (T2 _ _ Eq) as Hq. by destruct (bool_decide (k ∈ P)).
    + intros k p d Hk Hdl. rewrite after_paths in Hk. destruct (paths (base s) !! k) as [q|] eqn:Eq; [|done]. injection Hk as <-.
      apply (T3 _ _ _ Eq). by destruct (bool_decide (k ∈ P)).
    + intros k e He. rewrite (rt_endpoints _ _ _ Hr), lookup_fmap in He. destruct (endpoints (base s) !! k) as [q|] eqn:Eq; [|done]. injection He as <-.
      pose proof (T4 _ _ Eq). by destruct (retired_proxy (base s) (ep_ProxyID q)).
  - intros u k e [H _]%after_direct. apply Hd in H as [H1 H2]. rewrite Hu. by split; [|apply Hp].
  - intros g k [H _]%after_members. apply Hm in H as [H1 H2]. rewrite E1. by split; [|apply Hp].
  - intros u g. rewrite E2, E1, Hu. apply Hg.
Qed.
Lemma after_synced : synced s -> synced s'.
Proof.
  intros Hs u row Hu Hd k. destruct (rt_tables _ _ _ Hr) as (_ & _ & E & _). rewrite E in Hu. rewrite after_may_use, after_wants, (Hs u row Hu Hd k). done.
Qed.
End after.

(** ** The two deletions *)
Inductive target := TProxy (nodeName name : string) | TNode (name : string).
Definition SoftDelete (now : string) (d : database) (t : target) : deleted database :=
  match t with TProxy nodeName name => SoftDeleteProxy now d nodeName name | TNode name => SoftDeleteNode now d name end.
Definition resolves (d : database) (t : target) : Prop :=
  match t with
  | TProxy nodeName name => exists p, resolve_live_proxy (db_store d) nodeName name = Ok p
  | TNode name => exists n, GetNode (rows d) name = Ok n
  end.
(** The proxies that go with it. *)
Definition goes_with (d : database) (t : target) (x : string) : Prop :=
  match t with
  | TProxy nodeName name => exists p, resolve_live_proxy (db_store d) nodeName name = Ok p /\ px_ID p = x
  | TNode name => exists n r, GetNode (rows d) name = Ok n /\ proxies (rows d) !! x = Some r /\ pr_NodeID r = no_ID n
  end.
Record sound (s : store) : Prop := {
  sd_intact : intact (base s);
  sd_consistent : consistent s;
  sd_synced : synced s;
  sd_nodes : forall k n, nodes (base s) !! k = Some n -> no_ID n = k;
  sd_proxies : forall k p, proxies (base s) !! k = Some p -> is_Some (nodes (base s) !! pr_NodeID p)
}.
Lemma resolve_live_proxy_row s nn pn p : resolve_live_proxy s nn pn = Ok p ->
  exists row n, proxies (base s) !! px_ID p = Some row /\ nodes (base s) !! pr_NodeID row = Some n /\ pr_DeletedAt row = None /\ no_DeletedAt n = None.
Proof.
  unfold resolve_live_proxy. destruct (GetProxy nn pn (s, O)) as [[q|] s'] eqn:E; cbn; [|done]. intros [= ->].
  apply GetProxy_live in E as [(row & n & Hr & Hn & Hd & Hnd & _)%live_proxy_Some _]. by exists row, n.
Qed.
(** Marking rows as deleted touches nothing the other tables rest on. *)
Lemma marked_sound s s1 : paths (base s1) = paths (base s) -> endpoints (base s1) = endpoints (base s) ->
  proxy_users (base s1) = proxy_users (base s) -> path_accesses (base s1) = path_accesses (base s) ->
  path_group_members (base s1) = path_group_members (base s) -> direct_path_grants s1 = direct_path_grants s ->
  path_groups s1 = path_groups s -> user_path_group_grants s1 = user_path_group_grants s ->
  (forall k n, nodes (base s1) !! k = Some n -> no_ID n = k) ->
  (forall k p, proxies (base s1) !! k = Some p -> is_Some (nodes (base s1) !! pr_NodeID p)) -> sound s -> sound s1.
Proof.
  intros E1 E2 E3 E4 E5 E6 E7 E8 Hn Hp [[I1 I2 I3 I4] [[T1 T2 T3 T4] Hd Hm Hg] Hs _ _].
  split; [| | |exact Hn|exact Hp].
  - split; [by rewrite E1|intros k p; rewrite E1, E2; apply I2|by rewrite E3|by rewrite E4, E3].
  - split; [split|intros u p e; rewrite E6, E3, E1; apply Hd|intros g p; rewrite E5, E7, E1; apply Hm|intros u g; rewrite E8, E3, E7; apply Hg];
      rewrite ?E1, ?E2, ?E3; done.
  - intros u row Hu Hdel p. rewrite E3 in Hu. pose proof (Hs u row Hu Hdel p) as H. unfold may_use, wants, via in *.
    by rewrite E4, E6, E8, E5, E7.
Qed.
Lemma retired_sound now s s' : retirement now s s' -> sound s -> sound s'.
Proof.
  intros Hr [Hi Hc Hs Hn Hp]. destruct (rt_tables _ _ _ Hr) as (E1 & E2 & _).
  split; [by eapply after_intact|by eapply after_consistent|by eapply after_synced|by rewrite E1|by rewrite E1, E2].
Qed.
(** The store after the rows of the resource are marked, before the rest follows. *)
Record marked (now : string) (d : database) (t : target) (s1 : store) : Prop := {
  mk_sound : sound s1;
  mk_retired : forall x, retired_proxy (base s1) x = true <-> goes_with d t x \/ retired_proxy (rows d) x = true;
  mk_aliases : forall x alias, goes_with d t x -> proxy_name_aliases s1 !! alias <> Some x;
  mk_gone : forall k, node_gone (base s1) k = true <->
    (exists name n, t = TNode name /\ GetNode (rows d) name = Ok n /\ no_ID n = k) \/ node_gone (rows d) k = true;
  mk_proxies : forall x, is_Some (proxies (base s1) !! x) <-> is_Some (proxies (rows d) !! x);
  mk_tables : paths (base s1) = paths (rows d) /\ endpoints (base s1) = endpoints (rows d) /\ path_accesses (base s1) = path_accesses (rows d) /\
    path_group_members (base s1) = path_group_members (rows d) /\ bindings (base s1) = bindings (rows d) /\
    credentials (base s1) = credentials (rows d) /\ proxy_users (base s1) = proxy_users (rows d);
  mk_store : direct_path_grants s1 = direct_path_grants (db_store d) /\ path_groups s1 = path_groups (db_store d) /\
    user_path_group_grants s1 = user_path_group_grants (db_store d) /\ credential_json s1 = credential_json (db_store d)
}.
Definition remaining_tokens (now : string) (d : database) (t : target) : gmap string node_token :=
  match t with
  | TProxy _ _ => db_node_tokens d
  | TNode name => match GetNode (rows d) name with Ok n => revoke_tokens now (no_ID n) (db_node_tokens d) | Err _ => db_node_tokens d end
  end.
Lemma retired_proxy_true b x : retired_proxy b x = true <->
  exists p n, proxies b !! x = Some p /\ nodes b !! pr_NodeID p = Some n /\ (is_Some (pr_DeletedAt p) \/ is_Some (no_DeletedAt n)).
Proof.
  unfold retired_proxy. destruct (proxies b !! x) as [p|]; [|by split; [|intros (? & ? & ? & _)]].
  destruct (nodes b !! pr_NodeID p) as [n|] eqn:En; [|split; [done|intros (p' & n & [= <-] & Hn & _); congruence]].
  rewrite orb_true_iff, !is_set_true. split; [intros H; by exists p, n|]. intros (p' & n' & [= <-] & Hn & H). rewrite En in Hn. by injection Hn as <-.
Qed.
Lemma SoftDeleteProxy_run now d nn pn p : sound (db_store d) -> resolve_live_proxy (db_store d) nn pn = Ok p ->
  exists s1, marked now d (TProxy nn pn) s1 /\ SoftDeleteProxy now d nn pn =
    (let? s := retireResourceDependenciesTx now s1 in Ok {| db_store := s; db_node_tokens := db_node_tokens d |}).
Proof.
  intros Hs Hp. pose proof Hs as [Hi _ _ Hnk Hpk]. unfold SoftDeleteProxy. rewrite Hp.
  destruct (resolve_live_proxy_row _ _ _ _ Hp) as (row & n & Hr & Hn & Hd & Hnd). rewrite Hr, Hd. cbn [is_set]. eexists. split; [|reflexivity].
  split; [| | | | |done|done].
  - apply (marked_sound (db_store d)); cbn; try done. intros k q. destruct (decide (k = px_ID p)) as [->|Hne].
    + rewrite lookup_insert_eq. intros [= <-]. cbn. rewrite Hn. by eexists.
    + rewrite lookup_insert_ne by done. apply Hpk.
  - intros x. unfold retired_proxy, goes_with. cbn. destruct (decide (x = px_ID p)) as [->|Hne].
    + rewrite lookup_insert_eq. cbn. rewrite Hn. split; [intros _; left; by exists p|done].
    + rewrite lookup_insert_ne by done. split; [by right|]. intros [(q & Hq & Hx)|?]; [|done]. rewrite Hp in Hq. injection Hq as <-. done.
  - intros x alias (q & Hq & <-). rewrite Hp in Hq. injection Hq as <-. cbn. intros H. by apply map_lookup_filter_Some in H as [_ H].
  - intros k. cbn. split; [by right|]. intros [(name & m & ? & _)|?]; done.
  - intros x. cbn. destruct (decide (x = px_ID p)) as [->|Hne]; [rewrite lookup_insert_eq, Hr|by rewrite lookup_insert_ne]. split; intros _; by eexists.
Qed.
Lemma GetNode_found s name n : (forall k n, nodes (base s) !! k = Some n -> no_ID n = k) -> GetNode (base s) name = Ok n ->
  nodes (base s) !! no_ID n = Some n /\ no_DeletedAt n = None.
Proof.
  intros Hnk. unfold GetNode. destruct (nodes (base s) !! TrimSpace name) as [m|] eqn:Em.
  - destruct (no_DeletedAt m) eqn:Ed; [done|]. intros [= <-]. by rewrite (Hnk _ _ Em).
  - destruct (node_by_name (base s) _) as [m|] eqn:Eb; [|done]. intros [= <-]. unfold node_by_name in Eb.
    destruct (List.find _ _) as [[k m']|] eqn:Ef; [|done]. injection Eb as <-. apply List.find_some in Ef as [Hin Hf].
    apply list_elem_of_In, elem_of_map_to_list in Hin. rewrite (Hnk _ _ Hin). split; [done|]. cbn in Hf.
    apply andb_true_iff in Hf as [Hf _]. apply negb_true_iff, bool_decide_eq_false in Hf. by apply eq_None_not_Some.
Qed.
Lemma SoftDeleteNode_run now d name n : sound (db_store d) -> GetNode (rows d) name = Ok n ->
  exists s1, marked now d (TNode name) s1 /\ SoftDeleteNode now d name =
    (let? s := retireResourceDependenciesTx now s1 in Ok {| db_store := s; db_node_tokens := revoke_tokens now (no_ID n) (db_node_tokens d) |}).
Proof.
  intros Hs Hn. pose proof Hs as [Hi _ _ Hnk Hpk]. unfold SoftDeleteNode. rewrite Hn. cbn [in_tables].
  destruct (GetNode_found _ _ _ Hnk Hn) as [Hrow Hd]. rewrite Hrow, Hd. cbn [is_set]. eexists. split; [|reflexivity].
  assert (Hpx : forall x, archive_node_proxies now (no_ID n) (proxies (rows d)) !! x = (fun p => if (pr_NodeID p =? no_ID n)%string
    then {| pr_NodeID := pr_NodeID p; pr_Name := pr_Name p; pr_Protocol := pr_Protocol p; pr_Enabled := false; pr_DeletedAt := Some (default now (pr_DeletedAt p)) |}
    else p) <$> proxies (rows d) !! x) by (intros x; apply lookup_fmap).
  split; [| | | | |done|done].
  - apply (marked_sound (db_store d)); cbn; try done.
    + intros k m. destruct (decide (k = no_ID n)) as [->|Hne]; [rewrite lookup_insert_eq|rewrite lookup_insert_ne by done; apply Hnk].
      by intros [= <-].
    + intros k q. rewrite Hpx. destruct (proxies (rows d) !! k) as [r|] eqn:Er; [|done]. cbn. intros [= <-].
      replace (pr_NodeID _) with (pr_NodeID r) by (by destruct (pr_NodeID r =? no_ID n)%string).
      destruct (decide (pr_NodeID r = no_ID n)) as [->|Hne]; [rewrite lookup_insert_eq; by eexists|]. rewrite lookup_insert_ne by done. by eapply Hpk.
  - intros x. unfold retired_proxy, goes_with. cbn. rewrite Hpx. destruct (proxies (rows d) !! x) as [r|] eqn:Er; cbn.
    2: { split; [done|]. intros [(m & r & _ & Hx & _)|?]; congruence. }
    destruct (pr_NodeID r =? no_ID n)%string eqn:E; cbn.
    + apply String.eqb_eq in E. rewrite E, lookup_insert_eq. cbn. split; [intros _; left; by exists n, r|done].
    + apply String.eqb_neq in E. rewrite lookup_insert_ne by done. split; [by right|]. intros [(m & r' & Hm & Hx & Hnode)|?]; [|done]. congruence.
  - intros x alias (m & r & Hm & Hr & Hnode) H. rewrite Hn in Hm. injection Hm as <-. cbn in H. apply map_lookup_filter_Some in H as [_ H]. cbn in H.
    unfold archived_proxy in H. cbn in H. rewrite Hpx, Hr in H. cbn in H. by rewrite Hnode, String.eqb_refl in H.
  - intros k. unfold node_gone. cbn. destruct (decide (k = no_ID n)) as [->|Hne].
    + rewrite lookup_insert_eq. cbn. split; [intros _; left; by exists name, n|done].
    + rewrite lookup_insert_ne by done. split; [by right|]. intros [(nm & m & [= <-] & Hm & Hk)|?]; [congruence|done].
  - intros x. cbn. rewrite Hpx. apply fmap_is_Some.
Qed.
Lemma SoftDelete_run now d t : sound (db_store d) -> resolves d t ->
  exists s1 s', marked now d t s1 /\ retirement now s1 s' /\ SoftDelete now d t = Ok {| db_store := s'; db_node_tokens := remaining_tokens now d t |}.
Proof.
  intros Hs Hres. assert (H : exists s1, marked now d t s1 /\ SoftDelete now d t =
    (let? s := retireResourceDependenciesTx now s1 in Ok {| db_store := s; db_node_tokens := remaining_tokens now d t |})).
  { destruct t as [nn pn|name]; cbn [resolves SoftDelete remaining_tokens] in *; destruct Hres as [x Hx].
    - by eapply SoftDeleteProxy_run.
    - rewrite Hx. by apply SoftDeleteNode_run. }
  destruct H as (s1 & Hm & ->). destruct (retire_succeeds now s1 (sd_intact _ (mk_sound _ _ _ _ Hm))) as (s' & -> & Hr). by exists s1, s'.
Qed.
Lemma SoftDelete_resolves now d t d' : SoftDelete now d t = Ok d' -> resolves d t.
Proof.
  destruct t as [nn pn|name]; cbn [SoftDelete resolves].
  - unfold SoftDeleteProxy. destruct (resolve_live_proxy _ _ _) as [p|]; [by eexists|done].
  - unfold SoftDeleteNode. destruct (GetNode _ _) as [n|]; [by eexists|done].
Qed.

(** C9: a deletion leaves nothing behind: whenever the proxy or node it names
    is there it succeeds, and then no enabled path, live access, group member,
    direct grant, enabled endpoint, live credential or enabled binding leads to
    the proxies that went with it (or to any deleted before), none of their
    aliases is left, every token of a deleted node is revoked, and users still
    may use exactly what their remaining sources say. *)
Theorem deletion_leaves_nothing now d t : sound (db_store d) -> resolves d t ->
  exists d', SoftDelete now d t = Ok d' /\ clean (db_store d') /\ sound (db_store d') /\
    (forall x, goes_with d t x -> retired_proxy (rows d') x = true /\ (forall alias, proxy_name_aliases (db_store d') !! alias <> Some x)) /\
    match t with
    | TProxy _ _ => db_node_tokens d' = db_node_tokens d
    | TNode name => forall n i k, GetNode (rows d) name = Ok n -> node_gone (rows d') (no_ID n) = true /\
        (db_node_tokens d' !! i = Some k -> tk_NodeID k = no_ID n -> is_Some (tk_RevokedAt k))
    end.
Proof.
  intros Hs Hres. destruct (SoftDelete_run now d t Hs Hres) as (s1 & s' & Hm & Hr & ->). pose proof (mk_sound _ _ _ _ Hm) as Hs1.
  eexists. split; [reflexivity|]. cbn [db_store db_node_tokens].
  split; [eapply after_clean; [exact Hr|apply Hs1]|]. split; [by eapply retired_sound|]. split.
  - intros x Hx. rewrite (after_retired _ _ _ Hr), (mk_retired _ _ _ _ Hm). split; [by left|]. intros alias.
    destruct (rt_store _ _ _ Hr) as (_ & _ & -> & _). by apply (mk_aliases _ _ _ _ Hm).
  - destruct t as [nn pn|name]; [done|]. intros n i k Hn. rewrite (after_node_gone _ _ _ Hr), (mk_gone _ _ _ _ Hm). split; [left; by exists name, n|].
    cbn. rewrite Hn. unfold revoke_tokens. rewrite lookup_fmap. destruct (db_node_tokens d !! i) as [k0|]; [|done]. cbn. intros [= <-].
    destruct (tk_RevokedAt k0) eqn:E; [rewrite andb_false_r; rewrite E; by eexists|]. cbn. rewrite andb_true_r.
    destruct (tk_NodeID k0 =? no_ID n)%string eqn:En; [by eexists|]. intros Hk. apply String.eqb_neq in En. done.
Qed.

(** C34: a deletion spares the rest: users lose exactly the paths that lead
    through what is gone; every other path stays as it was, and a credential on a
    proxy that stays is changed (disabled) only for a user who lost a path, and
    only if none of the paths he keeps needs it. *)
Theorem deletion_spares_the_rest now d t d' : sound (db_store d) -> SoftDelete now d t = Ok d' ->
  (forall u k, may_use (db_store d') u k <-> may_use (db_store d) u k /\ ~ through_retired (rows d') k) /\
  (forall k, ~ through_retired (rows d') k -> paths (rows d') !! k = paths (rows d) !! k) /\
  (forall u x c, credentials (rows d) !! (u, x) = Some c -> retired_proxy (rows d') x = false ->
     (proxy_needed (rows d') u x \/
      forall a, a ∈ path_accesses (rows d) -> pc_ProxyUserID a = u -> pc_DeletedAt a = None -> ~ through_retired (rows d') (pc_PathID a)) ->
     credentials (rows d') !! (u, x) = Some c).
Proof.
  intros Hs Hd. destruct (SoftDelete_run now d t Hs (SoftDelete_resolves _ _ _ _ Hd)) as (s1 & s' & Hm & Hr & He). rewrite Hd in He. injection He as ->.
  cbn [db_store]. pose proof (mk_sound _ _ _ _ Hm) as Hs1. destruct (mk_tables _ _ _ _ Hm) as (T1 & T2 & T3 & T4 & T5 & T6 & T7).
  assert (Ht : forall k, through_retired (base s') k <-> k ∈ ListRetiredResourcePaths (base s1)) by (intros k; by apply (after_through now); [|apply Hs1]).
  split; [|split].
  - intros u k. rewrite (after_may_use _ _ _ Hr), Ht. unfold may_use. by rewrite T3.
  - intros k Hk. rewrite Ht in Hk. rewrite (after_paths _ _ _ Hr), (bool_decide_false _ Hk), T1. by destruct (paths (rows d) !! k).
  - intros u x c Hc Hx Hkeep. rewrite (after_retired _ _ _ Hr) in Hx. pose proof (rt_credentials _ _ _ Hr (u, x)) as H. apply option_Forall2_lookup in H.
    rewrite T6, Hc in H. destruct (credentials (base s') !! (u, x)) as [c'|]; [|done]. unfold after_retirement in H. cbn [snd fst] in H. rewrite Hx in H.
    assert (Hn : ~ released s1 s' (u, x) c).
    { intros ((a & Ha & HaP & Had & Hau) & _ & _ & _ & Hnn). cbn in *. destruct Hkeep as [Hk|Hk]; [done|].
      rewrite T3 in Ha. by apply (Hk a Ha Hau Had), Ht. }
    destruct H as [[->| ->] Hi]; [done|]. destruct (pk_Enabled c) eqn:Ee; [|by destruct c; cbn in *; subst].
    cbn in Hi. destruct Hi as [_ Hi]. discriminate Hi. done.
Qed.

(** ** A small fleet: two proxies on one node, the path on the second dialled
    through the path on the first *)
Definition w_fleet : database := {|
  db_store := w_store true;
  db_node_tokens := {["t1" := {| tk_NodeID := "n1"; tk_RevokedAt := None |}; "t2" := {| tk_NodeID := "n0"; tk_RevokedAt := None |}]} |}.
Lemma w_nothing_retired x : retired_proxy (rows w_fleet) x = false.
Proof.
  destruct (retired_proxy (rows w_fleet) x) eqn:E; [|done]. apply retired_proxy_true in E as (p & n & Hp & Hn & H).
  assert (Hps : map_Forall (fun _ p => pr_DeletedAt p = None) (proxies (rows w_fleet))) by (repeat apply map_Forall_insert_2; [done..|apply map_Forall_empty]).
  assert (Hns : map_Forall (fun _ n => no_DeletedAt n = None) (nodes (rows w_fleet))) by (repeat apply map_Forall_insert_2; [done..|apply map_Forall_empty]).
  rewrite (Hps _ _ Hp), (Hns _ _ Hn) in H. by destruct H as [[]|[]].
Qed.
Lemma w_nothing_through k : ~ through_retired (rows w_fleet) k.
Proof.
  intros (x & p & _ & _ & H). unfold on_proxies in H. destruct (endpoints (rows w_fleet) !! pa_EndpointID p); [|done]. by rewrite w_nothing_retired in H.
Qed.
Lemma w_clean : clean (db_store w_fleet).
Proof.
  split.
  - by intros k p H%w_nothing_through.
  - by intros a _ H%w_nothing_through.
  - intros g k _. apply w_nothing_through.
  - intros u k e _. apply w_nothing_through.
  - intros i e _ H. by rewrite w_nothing_retired in H.
  - intros u x c _ H. by rewrite w_nothing_retired in H.
  - intros u n H. unfold node_gone in H. destruct (nodes (rows w_fleet) !! n) as [r|] eqn:E; [|done].
    assert (Hns : map_Forall (fun _ n => no_DeletedAt n = None) (nodes (rows w_fleet))) by (repeat apply map_Forall_insert_2; [done..|apply map_Forall_empty]).
    by rewrite (Hns _ _ E) in H.
Qed.
Lemma w_sound : sound (db_store w_fleet).
Proof.
  split; [split|apply w_consistent|apply w_synced| |].
  - assert (H : map_Forall (fun k p => pa_DialerPathID p = None \/ (k = "pb"%string /\ pa_DialerPathID p = Some "pa"%string)) (paths (rows w_fleet)))
      by (repeat apply map_Forall_insert_2; [by left|by right|apply map_Forall_empty]).
    intros k p Hp. destruct (H _ _ Hp) as [Hd|[-> Hd]].
    + exists 1%nat. by eapply chain_end.
    + exists 2%nat. eapply chain_dial; [exact Hp|exact Hd|]. eapply chain_end; vm_compute; reflexivity.
  - assert (H : map_Forall (fun _ p => is_Some (endpoints (rows w_fleet) !! pa_EndpointID p)) (paths (rows w_fleet)))
      by (repeat apply map_Forall_insert_2; [by eexists..|apply map_Forall_empty]). exact H.
  - assert (H : map_Forall (fun k u => us_ID u = k) (proxy_users (rows w_fleet))) by (repeat apply map_Forall_insert_2; [done..|apply map_Forall_empty]). exact H.
  - intros a ->%list_elem_of_singleton. vm_compute. by eexists.
  - assert (H : map_Forall (fun k n => no_ID n = k) (nodes (rows w_fleet))) by (repeat apply map_Forall_insert_2; [done..|apply map_Forall_empty]). exact H.
  - assert (H : map_Forall (fun _ p => is_Some (nodes (rows w_fleet) !! pr_NodeID p)) (proxies (rows w_fleet)))
      by (repeat apply map_Forall_insert_2; [by eexists..|apply map_Forall_empty]). exact H.
Qed.
Lemma deletion_leaves_nothing_witness : exists d', SoftDelete "now" w_fleet (TNode "node") = Ok d' /\ clean (db_store d') /\
  retired_proxy (rows d') "x1" = true /\ retired_proxy (rows d') "x2" = true /\
  (forall k, db_node_tokens d' !! "t1"%string = Some k -> is_Some (tk_RevokedAt k)).
Proof.
  assert (Hres : exists n, GetNode (rows w_fleet) "node" = Ok n /\ no_ID n = "n1"%string) by (vm_compute; eexists; split; reflexivity).
  destruct Hres as (n & Hn & Hnid).
  destruct (deletion_leaves_nothing "now" w_fleet (TNode "node") w_sound (ex_intro _ n Hn)) as (d' & Hd & Hc & _ & Hg & Ht).
  exists d'. split; [exact Hd|]. split; [exact Hc|]. split; [|split].
  - apply (Hg "x1"%string). exists n, (w_proxy "one"). split; [exact Hn|]. split; [vm_compute; reflexivity|]. rewrite Hnid. reflexivity.
  - apply (Hg "x2"%string). exists n, (w_proxy "two"). split; [exact Hn|]. split; [vm_compute; reflexivity|]. rewrite Hnid. reflexivity.
  - intros k Hk. destruct (Ht n "t1"%string k Hn) as [_ H]. apply (H Hk). rewrite Hnid.
    assert (E : tk_NodeID <$> match SoftDelete "now" w_fleet (TNode "node") with Ok d => db_node_tokens d !! "t1"%string | Err _ => None end = Some "n1"%string)
      by (vm_compute; reflexivity).
    rewrite Hd, Hk in E. injection E as E. exact E.
Defined.
(** The second proxy goes: alice keeps her path and its credential. *)
Lemma deletion_spares_the_rest_witness : match SoftDelete "now" w_fleet (TProxy "node" "two") with
  | Err _ => False
  | Ok d' => may_use (db_store d') "u1" "pa" /\ paths (rows d') !! "pa"%string = paths (rows w_fleet) !! "pa"%string /\
      credentials (rows d') !! ("u1"%string, "x1"%string) = credentials (rows w_fleet) !! ("u1"%string, "x1"%string)
  end.
Proof.
  destruct (SoftDelete "now" w_fleet (TProxy "node" "two")) as [d'|e] eqn:Hd; [|vm_compute in Hd; discriminate Hd].
  destruct (deletion_spares_the_rest "now" w_fleet (TProxy "node" "two") d' w_sound Hd) as (H1 & H2 & H3).
  assert (E : match SoftDelete "now" w_fleet (TProxy "node" "two") with
    | Ok d => (retired_proxy (rows d) "x1", bool_decide ("pa"%string ∈ ListRetiredResourcePaths (rows d))) = (false, false)
    | Err _ => False end) by (vm_compute; reflexivity).
  rewrite Hd in E. injection E as Ex Ek. apply bool_decide_eq_false in Ek.
  destruct (SoftDelete_run "now" w_fleet (TProxy "node" "two") w_sound (SoftDelete_resolves _ _ _ _ Hd)) as (s1 & s' & Hm & Hr & He).
  assert (Hi : intact (rows d')).
  { rewrite Hd in He. injection He as ->. apply (sd_intact s'), (retired_sound _ _ _ Hr (mk_sound _ _ _ _ Hm)). }
  rewrite (retired_paths_spec _ _ (in_acyclic _ Hi)) in Ek. split; [|split].
  - apply H1. split; [|exact Ek]. exact (proj2 (w_accesses true "u1" "pa") (conj eq_refl eq_refl)).
  - exact (H2 "pa"%string Ek).
  - assert (Hc : exists c, credentials (rows w_fleet) !! ("u1"%string, "x1"%string) = Some c) by (vm_compute; eexists; reflexivity).
    destruct Hc as [c Hc]. rewrite Hc. apply (H3 "u1"%string "x1"%string c Hc Ex). right. intros a Ha _ _.
    assert (Ha' : a ∈ [w_access]) by exact Ha. apply list_elem_of_singleton in Ha'. rewrite Ha'. exact Ek.
Defined.
