(* ===== verification/DeletionPreview.v ===== *)
(** * The preview of a deletion ([Deletion.ResourceDeletionImpact])

    What an administrator is shown before a proxy or a node is deleted is what
    the deletion then does; nothing happens unannounced. *)
From S2P Require Import Prelude GoStrings.
From S2P Require Import Effects Paths PathGrants PathAccess GrantSafety Deletion DeletionSafety.

(** ** The loop over the dialers *)
Section spread.
Context (m : gmap string Path).
Implicit Types (S : gset string) (l : list (string * Path)).
Lemma spread_mono l S : S ⊆ spread l S.
Proof.
  unfold spread. revert S. induction l as [|[k p] l IH]; intros S; cbn [foldl]; [done|]. etrans; [|apply IH]. cbn.
  destruct (pa_DialerPathID p) as [d|]; [|done]. destruct (_ && _); [|done]. apply union_subseteq_l.
Qed.
Lemma spread_inv (Q : string -> Prop) l S : (forall k p, (k, p) ∈ l -> forall d, pa_DialerPathID p = Some d -> Q d -> Q k) ->
  (forall k, k ∈ S -> Q k) -> forall k, k ∈ spread l S -> Q k.
Proof.
  unfold spread. revert S. induction l as [|[k p] l IH]; intros S Hl HS; cbn [foldl]; [done|]. apply IH; [intros k' p' Hin; apply Hl; by right|].
  cbn. destruct (pa_DialerPathID p) as [d|] eqn:Ed; [|done]. destruct (bool_decide (d ∈ S)) eqn:Eb; [|done]. cbn.
  destruct (negb _); [|done]. apply bool_decide_eq_true in Eb. intros x [Hx| ->%elem_of_singleton]%elem_of_union; [by apply HS|].
  eapply (Hl k p); [by left|done|by apply HS].
Qed.
Lemma spread_fixed l S : spread l S = S -> forall k p d, (k, p) ∈ l -> pa_DialerPathID p = Some d -> d ∈ S -> k ∈ S.
Proof.
  unfold spread. revert S. induction l as [|[k p] l IH]; intros S; [by intros _ k p d Hin%elem_of_nil|]. cbn [foldl]. cbn [fst snd].
  set (S1 := match pa_DialerPathID p with Some d => _ | None => S end). intros Hf.
  assert (H1 : S ⊆ S1).
  { unfold S1. destruct (pa_DialerPathID p); [|done]. destruct (_ && _); [apply union_subseteq_l|done]. }
  assert (H2 : S1 ⊆ S) by (rewrite <- Hf; apply (spread_mono l S1)).
  assert (E : S1 = S) by (apply set_eq; intros x; split; [apply H2|apply H1]).
  intros k' p' d [[= -> ->]|Hin]%elem_of_cons Hd HdS.
  - destruct (decide (k ∈ S)) as [Hk|Hk]; [done|]. unfold S1 in E. rewrite Hd, (bool_decide_true _ HdS), (bool_decide_false _ Hk) in E. cbn in E.
    rewrite <- E. apply elem_of_union_r, elem_of_singleton. done.
  - rewrite E in Hf. by eapply IH.
Qed.
Lemma spread_all_spec (K S0 : gset string) l : (forall k p, (k, p) ∈ l -> k ∈ K) -> forall fuel S, S ⊆ K -> S0 ⊆ S -> (size K - size S < fuel)%nat ->
  (forall Q : string -> Prop, (forall k p, (k, p) ∈ l -> forall d, pa_DialerPathID p = Some d -> Q d -> Q k) -> (forall k, k ∈ S0 -> Q k) -> forall k, k ∈ S -> Q k) ->
  exists S', spread_all fuel l S = Ok S' /\ S0 ⊆ S' /\
    (forall k p d, (k, p) ∈ l -> pa_DialerPathID p = Some d -> d ∈ S' -> k ∈ S') /\
    (forall Q : string -> Prop, (forall k p, (k, p) ∈ l -> forall d, pa_DialerPathID p = Some d -> Q d -> Q k) -> (forall k, k ∈ S0 -> Q k) -> forall k, k ∈ S' -> Q k).
Proof.
  intros Hl. induction fuel as [|fuel IH]; intros S HS H0 Hf HQ; [lia|]. cbn [spread_all]. destruct (bool_decide (spread l S = S)) eqn:E.
  - apply bool_decide_eq_true in E. exists S. split; [done|]. split; [done|]. split; [by apply spread_fixed|exact HQ].
  - apply bool_decide_eq_false in E. pose proof (spread_mono l S) as Hm.
    assert (HK : spread l S ⊆ K). { intros x Hx. apply (spread_inv (fun k => k ∈ K) l S); [|done|done]. intros k p Hin _ _ _. by eapply Hl. }
    apply IH; [done|set_solver| |].
    + assert (Hlt : (size S < size (spread l S))%nat).
      { apply subset_size. split; [done|]. intros Hsub. apply E. apply set_eq. intros x. split; [apply Hsub|apply Hm]. }
      pose proof (subseteq_size _ _ HK). lia.
    + intros Q HQl HQ0. apply spread_inv; [done|]. by apply HQ.
Qed.
End spread.
(** The paths the preview marks. *)
Definition marks (d : database) (kind : resource_kind) (resourceID : string) (k : string) : Prop :=
  exists x p, rtc (dials (paths (rows d))) k x /\ paths (rows d) !! x = Some p /\ first_affected d kind resourceID (x, p) = true.
Lemma affected_spec d kind resourceID : let l := map_to_list (paths (rows d)) in
  exists affected, spread_all (S (S (size (paths (rows d))))) l (list_to_set (map fst (List.filter (first_affected d kind resourceID) l))) = Ok affected /\
    forall k, k ∈ affected <-> marks d kind resourceID k.
Proof.
  intros l. set (m := paths (rows d)). set (S0 := list_to_set (map fst (List.filter (first_affected d kind resourceID) l)) : gset string).
  assert (Hl : forall k p, (k, p) ∈ l <-> m !! k = Some p) by (intros k p; apply elem_of_map_to_list).
  assert (H0 : forall k, k ∈ S0 <-> exists p, m !! k = Some p /\ first_affected d kind resourceID (k, p) = true).
  { intros k. unfold S0. rewrite elem_of_list_to_set, list_elem_of_fmap. split.
    - intros ([k' p] & -> & Hin). apply list_elem_of_In, filter_In in Hin as [Hin Hf]. apply list_elem_of_In, Hl in Hin. by exists p.
    - intros (p & Hp & Hf). exists (k, p). split; [done|]. apply list_elem_of_In, filter_In. split; [|done]. by apply list_elem_of_In, Hl. }
  destruct (spread_all_spec (dom m) S0 l) with (fuel := S (S (size m))) (S := S0) as (A & HA & HA0 & Hcl & HQ).
  - intros k p Hk%Hl. by apply elem_of_dom_2 in Hk.
  - intros k (p & Hp & _)%H0. by apply elem_of_dom_2 in Hp.
  - done.
  - rewrite size_dom. lia.
  - intros Q _ H. exact H.
  - exists A. split; [exact HA|]. intros k. unfold marks. fold m. split.
    + revert k. apply HQ.
      * intros k p Hk dl Hd (x & q & Hr & Hx). exists x, q. split; [|done]. eapply rtc_l; [|exact Hr]. exists p. split; [by apply Hl|done].
      * intros k (p & Hp & Hf)%H0. exists k, p. split; [apply rtc_refl|done].
    + intros (x & q & Hr & Hx & Hf). induction Hr as [x|k y x (p & Hp & Hd) _ IH].
      * apply HA0, H0. by exists q.
      * eapply (Hcl k p y); [by apply Hl|done|by apply IH].
Qed.

(** ** What the preview keeps in use *)
Lemma visit_kept_sound d affected fuel : forall seen R k x, x ∈ (visit_kept d affected fuel (seen, R) k).2 ->
  x ∈ R \/ (exists p e, paths (rows d) !! k = Some p /\ endpoints (rows d) !! pa_EndpointID p = Some e /\ k ∉ affected /\
    pa_Enabled p = true /\ ep_Enabled e = true /\ retired_proxy (rows d) (ep_ProxyID e) = false) /\
    exists j, rtc (dials (paths (rows d))) k j /\ path_proxy (rows d) j = Some x.
Proof.
  induction fuel as [|fuel IH]; intros seen R k x; cbn [visit_kept]; [by left|].
  destruct (bool_decide (k ∈ seen)); [by left|]. destruct (paths (rows d) !! k) as [p|] eqn:Ep; [|by left].
  destruct (endpoints (rows d) !! pa_EndpointID p) as [e|] eqn:Ee; [|by left].
  destruct (_ || _) eqn:Eg; [by left|]. rewrite !orb_false_iff, !negb_false_iff, bool_decide_eq_false in Eg. destruct Eg as [[[G1 G2] G3] G4].
  assert (Hpx : path_proxy (rows d) k = Some (ep_ProxyID e)) by (unfold path_proxy; rewrite Ep; cbn; by rewrite Ee).
  assert (Hhere : x ∈ R ∪ {[ep_ProxyID e]} -> x ∈ R \/ exists j, rtc (dials (paths (rows d))) k j /\ path_proxy (rows d) j = Some x).
  { intros [?| ->%elem_of_singleton]%elem_of_union; [by left|right]. exists k. split; [apply rtc_refl|done]. }
  destruct (pa_DialerPathID p) as [dl|] eqn:Ed.
  - intros [Hx|[_ (j & Hj & Hx)]]%IH; [destruct (Hhere Hx) as [?|?]; [by left|right; split; [by exists p, e|done]]|right]. split; [by exists p, e|]. exists j. split; [|done].
    eapply rtc_l; [|exact Hj]. by exists p.
  - cbn. intros Hx. destruct (Hhere Hx) as [?|?]; [by left|right; split; [by exists p, e|done]].
Qed.

(** ** The preview and the deletion *)
(** The preview an administrator asks for before this deletion. *)
Definition shown (d : database) (t : target) (kind resource id : string) : Prop :=
  match t with
  | TProxy nodeName name => kind = "proxy"%string /\ resolve_resource d KProxy resource = Ok (id, false) /\
      exists p, resolve_live_proxy (db_store d) nodeName name = Ok p /\ px_ID p = id
  | TNode name => kind = "node"%string /\ resolve_resource d KNode resource = Ok (id, false) /\
      exists n, GetNode (rows d) name = Ok n /\ no_ID n = id
  end.
Definition kind_shown (t : target) : resource_kind := match t with TProxy _ _ => KProxy | TNode _ => KNode end.
(** REFERENCES of endpoints, credentials and bindings *)
Record references (b : Paths.tables) : Prop := {
  rf_endpoints : forall k e, endpoints b !! k = Some e -> is_Some (proxies b !! ep_ProxyID e);
  rf_credentials : forall u x c, credentials b !! (u, x) = Some c -> is_Some (proxy_users b !! u);
  rf_bindings : forall u n e, bindings b !! (u, n) = Some e -> is_Some (proxy_users b !! u) /\ is_Some (nodes b !! n)
}.
Lemma impact_inv d t kind resource id impact : shown d t kind resource id -> ResourceDeletionImpact d kind resource = Ok impact ->
  exists affected, (forall k, k ∈ affected <-> marks d (kind_shown t) id k) /\
    di_Items impact = binding_items d (kind_shown t) id ++ token_items d (kind_shown t) id ++ proxy_items d (kind_shown t) id
      ++ endpoint_items d (kind_shown t) id ++ path_items d (kind_shown t) id affected ++ access_items d (kind_shown t) id affected
      ++ credential_items d (kind_shown t) id affected ++ group_items d (kind_shown t) id affected.
Proof.
  intros Hs. unfold ResourceDeletionImpact. assert (Hk : kind_of kind = Some (kind_shown t)) by (by destruct t; destruct Hs as [-> _]).
  assert (Hr : resolve_resource d (kind_shown t) resource = Ok (id, false)) by (by destruct t; destruct Hs as (_ & ? & _)).
  rewrite Hk, Hr. cbv zeta. destruct (affected_spec d (kind_shown t) id) as (A & HA & Hspec). cbv zeta in HA. rewrite HA.
  destruct (target_nodes_readable _ _ _); [|done]. intros [= <-]. by exists A.
Qed.

Lemma live_proxy_iff b x : (forall k p, proxies b !! k = Some p -> is_Some (nodes b !! pr_NodeID p)) ->
  is_Some (live_proxy b x) <-> is_Some (proxies b !! x) /\ retired_proxy b x = false.
Proof.
  intros Hn. unfold live_proxy, retired_proxy. destruct (proxies b !! x) as [p|] eqn:Ep; cbn.
  2: { split; [by intros []|by intros [[] _]]. }
  destruct (Hn _ _ Ep) as [n Hnode]. rewrite Hnode. cbn. destruct (pr_DeletedAt p), (no_DeletedAt n); cbn;
    (split; [by intros []|by intros []]) || (split; [intros _; split; [by eexists|done]|intros _; by eexists]).
Qed.

Section preview.
Context (now : string) (d : database) (t : target) (id : string) (s1 s' : store).
Hypotheses (Hs : sound (db_store d)) (Hrf : references (rows d)) (Hcl : clean (db_store d))
  (Hid : match t with
         | TProxy nn pn => exists p, resolve_live_proxy (db_store d) nn pn = Ok p /\ px_ID p = id
         | TNode name => exists n, GetNode (rows d) name = Ok n /\ no_ID n = id
         end)
  (Hm : marked now d t s1) (Hr : retirement now s1 s').
Abbreviation K := (kind_shown t).
Lemma target_goes x : is_target d K id x = true -> goes_with d t x /\ retired_proxy (rows d) x = false.
Proof.
  unfold is_target, is_kind. destruct (proxies (rows d) !! x) as [p|] eqn:Ep; [|done]. rewrite !andb_true_iff, negb_true_iff. intros [[Hn Hdel] Hk].
  apply bool_decide_eq_true in Hn as [n Hn]. unfold retired_proxy. rewrite Ep, Hn, Hdel. cbn [orb].
  destruct t as [nn pn|name]; cbn in Hk; cbn [goes_with].
  - apply String.eqb_eq in Hk as ->. destruct Hid as (q & Hq & E). split; [by exists q|].
    destruct (resolve_live_proxy_row _ _ _ _ Hq) as (row & m & Hrow & Hm' & _ & Hdm). rewrite E, Ep in Hrow. injection Hrow as <-.
    rewrite Hn in Hm'. injection Hm' as <-. by rewrite Hdm.
  - rewrite orb_false_r in Hk. apply String.eqb_eq in Hk. destruct Hid as (q & Hq & E). split; [exists q, p; split; [done|]; by rewrite E|].
    destruct (GetNode_found _ _ _ (sd_nodes _ Hs) Hq) as [Hrow Hdq]. rewrite Hk, <- E, Hrow in Hn. injection Hn as <-. by rewrite Hdq.
Qed.
Lemma goes_target x : goes_with d t x -> is_target d K id x = true \/ retired_proxy (rows d) x = true.
Proof.
  destruct t as [nn pn|name]; cbn [goes_with kind_shown].
  - intros (p & Hp & <-). left. destruct Hid as (q & Hq & <-). rewrite Hp in Hq. injection Hq as <-.
    destruct (resolve_live_proxy_row _ _ _ _ Hp) as (row & n & Hrow & Hn & Hd & _). unfold is_target. rewrite Hrow, Hn, Hd. cbn.
    by rewrite String.eqb_refl.
  - intros (n & r & Hn & Hr' & Hnode). destruct Hid as (q & Hq & <-). rewrite Hn in Hq. injection Hq as <-.
    destruct (GetNode_found _ _ _ (sd_nodes _ Hs) Hn) as [Hrow _]. unfold is_target, retired_proxy. rewrite Hr', Hnode, Hrow.
    destruct (is_set (pr_DeletedAt r)); [by right|left]. cbn. by rewrite String.eqb_refl.
Qed.
Lemma retired_now x : retired_proxy (base s1) x = true <-> is_target d K id x = true \/ retired_proxy (rows d) x = true.
Proof.
  rewrite (mk_retired _ _ _ _ Hm). split; (intros [H|H]; [|by right]); [by apply goes_target|left; by apply target_goes].
Qed.
Lemma on_proxies_now p : on_proxies (base s1) (retired_proxy (base s1)) p = true <->
  on_proxies (rows d) (is_target d K id) p = true \/ on_proxies (rows d) (retired_proxy (rows d)) p = true.
Proof.
  unfold on_proxies. destruct (mk_tables _ _ _ _ Hm) as (_ & -> & _). destruct (endpoints (rows d) !! _) as [e|]; [apply retired_now|]. by split; [|intros []].
Qed.
Lemma first_affected_kind kp : first_affected d K id kp = on_proxies (rows d) (is_target d K id) kp.2.
Proof. unfold first_affected. destruct t; cbn; by rewrite orb_false_r. Qed.
Lemma through_now k : through_retired (base s1) k <-> marks d K id k \/ through_retired (rows d) k.
Proof.
  unfold through_retired, marks. destruct (mk_tables _ _ _ _ Hm) as (-> & _). split.
  - intros (x & p & Hkx & Hx & Hp). apply on_proxies_now in Hp as [Hp|Hp]; [left|right]; exists x, p; (split; [done|]); (split; [done|]); [|done].
    by rewrite first_affected_kind.
  - intros [(x & p & Hkx & Hx & Hp)|(x & p & Hkx & Hx & Hp)]; exists x, p; (split; [done|]); (split; [done|]); apply on_proxies_now; [left|by right].
    by rewrite first_affected_kind in Hp.
Qed.
Lemma through_after k : through_retired (base s') k <-> marks d K id k \/ through_retired (rows d) k.
Proof.
  rewrite (after_through now s1 s' Hr (sd_intact _ (mk_sound _ _ _ _ Hm))), (retired_paths_spec _ _ (in_acyclic _ (sd_intact _ (mk_sound _ _ _ _ Hm)))).
  apply through_now.
Qed.
Lemma paths_after k : paths (base s') !! k =
  (fun p => if bool_decide (k ∈ ListRetiredResourcePaths (base s1)) then disabled_path p else p) <$> paths (rows d) !! k.
Proof. destruct (mk_tables _ _ _ _ Hm) as (<- & _). apply (after_paths _ _ _ Hr). Qed.
Lemma listed_retired k : k ∈ ListRetiredResourcePaths (base s1) <-> marks d K id k \/ through_retired (rows d) k.
Proof. rewrite (retired_paths_spec _ _ (in_acyclic _ (sd_intact _ (mk_sound _ _ _ _ Hm)))). apply through_now. Qed.

Context (affected : gset string) (Haff : forall k, k ∈ affected <-> marks d K id k).
Lemma path_items_exact k : (PathItem k, Disabled) ∈ path_items d K id affected <->
  exists p p', paths (rows d) !! k = Some p /\ pa_Enabled p = true /\ paths (base s') !! k = Some p' /\ pa_Enabled p' = false.
Proof.
  unfold path_items. rewrite list_elem_of_omap. split.
  - intros ([k' p] & Hp%elem_of_map_to_list & H). cbn in H. destruct (bool_decide _) eqn:Ea; [|done]. apply bool_decide_eq_true, Haff in Ea.
    replace (is_kind K KPath) with false in H by (by destruct t). cbn in H. destruct (pa_Enabled p) eqn:Een; [|done]. injection H as ->.
    exists p. eexists. split; [done|]. split; [done|]. rewrite paths_after, Hp, bool_decide_true by (apply listed_retired; by left). done.
  - intros (p & p' & Hp & Hen & Hp' & Hdis). rewrite paths_after, Hp in Hp'. cbn in Hp'. injection Hp' as <-.
    destruct (bool_decide _) eqn:Eb; [|congruence]. apply bool_decide_eq_true, listed_retired in Eb as [Eb|Eb].
    2: { rewrite (cl_paths _ Hcl _ _ Eb Hp) in Hen. done. }
    exists (k, p). split; [by apply elem_of_map_to_list|]. cbn. rewrite bool_decide_true by (by apply Haff).
    replace (is_kind K KPath) with false by (by destruct t). cbn. by rewrite Hen.
Qed.
Lemma endpoint_items_exact i : (EndpointItem i, Disabled) ∈ endpoint_items d K id <->
  exists e e', endpoints (rows d) !! i = Some e /\ ep_Enabled e = true /\ endpoints (base s') !! i = Some e' /\ ep_Enabled e' = false.
Proof.
  unfold endpoint_items. rewrite list_elem_of_omap. rewrite (rt_endpoints _ _ _ Hr), lookup_fmap. destruct (mk_tables _ _ _ _ Hm) as (_ & -> & _). split.
  - intros ([k e] & He%elem_of_map_to_list & H). cbn in H. destruct (is_target _ _ _ _) eqn:Et; [|done]. destruct (ep_Enabled e) eqn:Een; [|done].
    injection H as ->. exists e. eexists. rewrite He. split; [done|]. split; [done|]. split; [done|]. cbn. by rewrite (proj2 (retired_now _) (or_introl Et)).
  - intros (e & e' & He & Hen & He' & Hdis). rewrite He in He'. cbn in He'. injection He' as <-.
    destruct (retired_proxy (base s1) (ep_ProxyID e)) eqn:Eret; [|congruence]. apply retired_now in Eret as [Et|Et].
    + exists (i, e). split; [by apply elem_of_map_to_list|]. cbn. by rewrite Et, Hen.
    + by rewrite (cl_endpoints _ Hcl _ _ He Et) in Hen.
Qed.
Lemma access_items_exact i : (AccessItem i, Revoked) ∈ access_items d K id affected <->
  exists a, a ∈ path_accesses (rows d) /\ pc_ID a = i /\ pc_DeletedAt a = None /\ through_retired (base s') (pc_PathID a).
Proof.
  unfold access_items, access_goes, access_effect. rewrite list_elem_of_omap. replace (is_kind K KUser) with false by (by destruct t).
  replace (is_kind K KPath) with false by (by destruct t). cbn. split.
  - intros (a & Ha & H). rewrite orb_false_r in H. destruct (pc_DeletedAt a) eqn:Ed; [done|]. cbn in H. destruct (bool_decide _) eqn:Eb; [|done].
    injection H as <-. apply bool_decide_eq_true, Haff in Eb. apply list_elem_of_In, filter_In in Ha as [Ha _]. exists a.
    split; [by apply list_elem_of_In|]. split; [done|]. split; [done|]. apply through_after. by left.
  - intros (a & Ha & <- & Hd & Ht). exists a. split.
    + apply list_elem_of_In, filter_In. split; [by apply list_elem_of_In|]. apply is_set_true. by apply (in_accesses _ (sd_intact _ Hs)).
    + apply through_after in Ht as [Ht|Ht]; [|destruct (cl_accesses _ Hcl _ Ha Ht) as [x Hx]; congruence].
      rewrite Hd. cbn. by rewrite bool_decide_true by (by apply Haff).
Qed.
Lemma group_items_exact g k : (GroupMembership g k, Removed) ∈ group_items d K id affected <->
  (exists row, path_groups (db_store d) !! g = Some row /\ pg_DeletedAt row = None) /\
  (g, k) ∈ path_group_members (rows d) /\ (g, k) ∉ path_group_members (base s').
Proof.
  destruct (mk_tables _ _ _ _ Hm) as (_ & _ & _ & E4 & _). rewrite (after_members _ _ _ Hr), E4, listed_retired.
  unfold group_items. rewrite elem_of_app, !list_elem_of_omap. split.
  - intros [([g' k'] & Hin%elem_of_elements & H)|([u g'] & _ & H)]; cbn in H; [|by destruct (is_kind K KUser && _ && _)].
    destruct (path_groups (db_store d) !! g') as [row|] eqn:Eg; [|done]. destruct (pg_DeletedAt row) eqn:Ed; [done|]. cbn in H.
    destruct (bool_decide _) eqn:Eb; [|done]. injection H as -> ->. apply bool_decide_eq_true, Haff in Eb. split; [by exists row|]. split; [done|].
    intros [_ Hn]. apply Hn. by left.
  - intros ((row & Hg & Hd) & Hin & Hn). left. exists (g, k). split; [by apply elem_of_elements|]. cbn. rewrite Hg, Hd. cbn.
    destruct (bool_decide (k ∈ affected)) eqn:Eb; [done|]. exfalso. apply bool_decide_eq_false in Eb. apply Hn. split; [done|].
    intros [Hk|Hk]; [by apply Eb, Haff|]. by apply (cl_members _ Hcl _ _ Hin).
Qed.
Lemma credential_after u x c : credentials (rows d) !! (u, x) = Some c ->
  exists c', credentials (base s') !! (u, x) = Some c' /\ after_retirement now s1 s' (u, x) c c'.
Proof.
  intros Hc. pose proof (rt_credentials _ _ _ Hr (u, x)) as H. apply option_Forall2_lookup in H.
  destruct (mk_tables _ _ _ _ Hm) as (_ & _ & _ & _ & _ & E6 & _). rewrite E6, Hc in H.
  destruct (credentials (base s') !! (u, x)) as [c'|]; [by exists c'|done].
Qed.
Lemma archived_items_exact u x : (CredentialItem u x, Archived) ∈ credential_items d K id affected <->
  exists c c', credentials (rows d) !! (u, x) = Some c /\ pk_DeletedAt c = None /\
    credentials (base s') !! (u, x) = Some c' /\ is_Some (pk_DeletedAt c').
Proof.
  unfold credential_items. rewrite list_elem_of_omap. replace (is_kind K KUser) with false by (by destruct t). split.
  - intros ([[u' x'] c] & Hc%elem_of_map_to_list & H). cbn in H. destruct (pk_DeletedAt c) eqn:Ed; [done|]. cbn in H.
    destruct (is_set (proxy_users (rows d) !! u')); [|done]. cbn in H. destruct (is_target d K id x') eqn:Et.
    + injection H as -> ->. destruct (credential_after _ _ _ Hc) as (c' & Hc' & Ha). exists c, c'. split; [done|]. split; [done|]. split; [done|].
      unfold after_retirement in Ha. cbn in Ha. rewrite (proj2 (retired_now x) (or_introl Et)), Ed in Ha. cbn in Ha. subst c'. by eexists.
    + by destruct (_ && _).
  - intros (c & c' & Hc & Hd & Hc' & Hdel). exists ((u, x), c). split; [by apply elem_of_map_to_list|]. cbn. rewrite Hd. cbn.
    destruct (rf_credentials _ Hrf _ _ _ Hc) as [row ->]. cbn.
    destruct (credential_after _ _ _ Hc) as (c2 & Hc2 & Ha). rewrite Hc' in Hc2. injection Hc2 as <-. unfold after_retirement in Ha. cbn in Ha.
    destruct (retired_proxy (base s1) x) eqn:Eret.
    + apply retired_now in Eret as [->|Eret]; [done|]. destruct (cl_credentials _ Hcl _ _ _ Hc Eret) as [y Hy]. congruence.
    + destruct Ha as [[->| ->] _]; cbn in Hdel; rewrite Hd in Hdel; by destruct Hdel.
Qed.
(** An access that stays in use keeps what it needs. *)
Lemma kept_is_needed u x : still_required d K id affected u x = true -> proxy_needed (base s') u x.
Proof.
  unfold still_required. intros (a & Ha & Hst)%existsb_exists. rewrite !andb_true_iff, String.eqb_eq, bool_decide_eq_true in Hst.
  destruct Hst as [[Hst Hu] Hk]. unfold access_stays in Hst. rewrite !andb_true_iff, !negb_true_iff, orb_false_iff, bool_decide_eq_false in Hst.
  destruct Hst as [[Hd [Hna _]] Hen]. apply is_set_false in Hd. apply filter_In in Ha as [Ha _].
  apply visit_kept_sound in Hk as [Hk|[(p & e & Hp & He & _ & Hpe & Hee & Hret) (j & Hj & Hx)]]; [set_solver|].
  destruct (mk_tables _ _ _ _ Hm) as (E1 & E2 & E3 & _).
  assert (Hnl : pc_PathID a ∉ ListRetiredResourcePaths (base s1)).
  { rewrite listed_retired. intros [Hk|Hk]; [by apply Hna, Haff|]. rewrite (cl_paths _ Hcl _ _ Hk Hp) in Hpe. done. }
  assert (Hret1 : retired_proxy (base s1) (ep_ProxyID e) = false).
  { destruct (retired_proxy (base s1) (ep_ProxyID e)) eqn:Er; [|done]. apply retired_now in Er as [Et|Er]; [|congruence].
    exfalso. apply Hna, Haff. exists (pc_PathID a), p. split; [apply rtc_refl|]. split; [done|]. rewrite first_affected_kind. unfold on_proxies. cbn. by rewrite He. }
  exists a, j. split; [|split].
  - unfold ListActivePathAccessesByUserID. apply list_elem_of_In, filter_In. split.
    + apply list_elem_of_In, (after_accesses now s1 s' Hr). exists a. split; [rewrite E3; by apply list_elem_of_In|]. by rewrite (bool_decide_false _ Hnl).
    + unfold active_access. rewrite Hu, String.eqb_refl, Hen, Hd, paths_after, Hp, (bool_decide_false _ Hnl). cbn. rewrite Hpe. cbn.
      rewrite (rt_endpoints _ _ _ Hr), lookup_fmap, E2, He. cbn. rewrite Hret1, Hee. cbn. apply bool_decide_eq_true.
      apply live_proxy_iff; [apply (sd_proxies _ (retired_sound _ _ _ Hr (mk_sound _ _ _ _ Hm)))|].
      rewrite (after_retired _ _ _ Hr). split; [|done]. destruct (rt_tables _ _ _ Hr) as (_ & -> & _). apply (mk_proxies _ _ _ _ Hm).
      by eapply (rf_endpoints _ Hrf).
  - rewrite <- E1 in Hj. revert Hj. apply rtc_subrel. intros y z Hyz. by apply (after_dials _ _ _ Hr).
  - unfold path_proxy in *. rewrite paths_after. destruct (paths (rows d) !! j) as [q|]; [|done]. cbn in *.
    replace (pa_EndpointID _) with (pa_EndpointID q) by (by destruct (bool_decide _)).
    rewrite (rt_endpoints _ _ _ Hr), lookup_fmap, E2. destruct (endpoints (rows d) !! pa_EndpointID q) as [e'|]; [|done]. cbn in *. rewrite <- Hx.
    f_equal. by destruct (retired_proxy (base s1) (ep_ProxyID e')).
Qed.
Lemma disabled_items_complete u x c c' : credentials (rows d) !! (u, x) = Some c -> pk_DeletedAt c = None -> pk_Enabled c = true ->
  credentials (base s') !! (u, x) = Some c' -> pk_DeletedAt c' = None -> pk_Enabled c' = false ->
  (CredentialItem u x, Disabled) ∈ credential_items d K id affected.
Proof.
  intros Hc Hd Hen Hc' Hd' Hdis. unfold credential_items. apply list_elem_of_omap. exists ((u, x), c). split; [by apply elem_of_map_to_list|]. cbn.
  rewrite Hd. cbn. destruct (rf_credentials _ Hrf _ _ _ Hc) as [row Hrow]. rewrite Hrow. cbn. replace (is_kind K KUser) with false by (by destruct t). cbn.
  destruct (credential_after _ _ _ Hc) as (c2 & Hc2 & Ha). rewrite Hc' in Hc2. injection Hc2 as <-. unfold after_retirement in Ha. cbn in Ha.
  destruct (retired_proxy (base s1) x) eqn:Eret; [rewrite Hd in Ha; cbn in Ha; subst c'; done|].
  destruct (is_target d K id x) eqn:Et; [by rewrite (proj2 (retired_now x) (or_introl Et)) in Eret|].
  destruct Ha as [_ Hi]. rewrite Hen. cbn. destruct (affected_user d K id affected u) eqn:Eu; cbn.
  - destruct (still_required d K id affected u x) eqn:Es; [|done]. exfalso. apply kept_is_needed in Es.
    assert (Hf : pk_Enabled c' = true); [|congruence]. apply Hi. split; [done|]. by intros (_ & _ & _ & _ & Hn).
  - exfalso. assert (Hf : pk_Enabled c' = true); [|congruence]. apply Hi. split; [done|]. intros ((a & Ha & HaP & Had & Hau) & _).
    cbn in *. destruct (mk_tables _ _ _ _ Hm) as (_ & _ & E3 & _). rewrite E3 in Ha. apply listed_retired in HaP as [HaP|HaP].
    + assert (Ht : affected_user d K id affected u = true); [|congruence]. apply existsb_exists. exists a. split.
      * apply filter_In. split; [by apply list_elem_of_In|]. apply is_set_true. by apply (in_accesses _ (sd_intact _ Hs)).
      * unfold access_goes. rewrite Had, Hau, String.eqb_refl, bool_decide_true by (by apply Haff). done.
    + destruct (cl_accesses _ Hcl _ Ha HaP) as [y Hy]. congruence.
Qed.
Lemma binding_items_exact u n : (NodeAccess u n, Disabled) ∈ binding_items d K id <->
  bindings (rows d) !! (u, n) = Some true /\ bindings (base s') !! (u, n) = Some false.
Proof.
  unfold binding_items. rewrite list_elem_of_omap, (rt_bindings _ _ _ Hr). destruct (mk_tables _ _ _ _ Hm) as (_ & _ & _ & _ & -> & _).
  replace (is_kind K KUser) with false by (by destruct t). cbn. split.
  - intros ([[u' n'] e] & He%elem_of_map_to_list & H). cbn in H. destruct e; [|done]. cbn in H. rewrite orb_false_r in H.
    destruct (_ && _ && _) eqn:E; [|done]. injection H as -> ->. rewrite !andb_true_iff in E. destruct E as [_ [Ek En]]. apply String.eqb_eq in En.
    rewrite He. split; [done|]. cbn. rewrite (proj2 (mk_gone _ _ _ _ Hm n)); [done|]. left. destruct t as [|name]; [done|].
    destruct Hid as (q & Hq & Hqid). exists name, q. split; [done|]. split; [done|]. congruence.
  - intros [Hb Ha]. rewrite Hb in Ha. cbn in Ha. destruct (node_gone (base s1) n) eqn:Eg; [|done]. exists ((u, n), true).
    split; [by apply elem_of_map_to_list|]. cbn. destruct (rf_bindings _ Hrf _ _ _ Hb) as [[r1 ->] [r2 ->]]. cbn.
    apply (mk_gone _ _ _ _ Hm) in Eg as [(name & q & Et & Hq & Hqn)|Eg]; [|by destruct (cl_bindings _ Hcl u n Eg)].
    subst t. cbn. destruct Hid as (q2 & Hq2 & <-). rewrite Hq in Hq2. injection Hq2 as <-. by rewrite Hqn, String.eqb_refl.
Qed.
End preview.

(** ** The whole preview *)
Lemma items_by_key d kind id affected it :
  it ∈ binding_items d kind id ++ token_items d kind id ++ proxy_items d kind id ++ endpoint_items d kind id ++ path_items d kind id affected
       ++ access_items d kind id affected ++ credential_items d kind id affected ++ group_items d kind id affected <->
  it ∈ match it.1 with
       | NodeAccess _ _ => binding_items d kind id | AgentToken _ => token_items d kind id | ProxyItem _ => proxy_items d kind id
       | EndpointItem _ => endpoint_items d kind id | PathItem _ => path_items d kind id affected
       | AccessItem _ => access_items d kind id affected | CredentialItem _ _ => credential_items d kind id affected
       | GroupMembership _ _ | GroupGrant _ _ => group_items d kind id affected
       end.
Proof.
  assert (H1 : it ∈ binding_items d kind id -> exists u n, it.1 = NodeAccess u n).
  { intros (kv & _ & H)%list_elem_of_omap. destruct (_ && _); [|done]. injection H as <-. by do 2 eexists. }
  assert (H2 : it ∈ token_items d kind id -> exists i, it.1 = AgentToken i).
  { unfold token_items. destruct (is_kind kind KNode); [|by intros ?%elem_of_nil]. intros (kv & _ & H)%list_elem_of_omap.
    destruct (nodes (rows d) !! tk_NodeID kv.2); [|done]. destruct (_ && _); [|done]. injection H as <-. by eexists. }
  assert (H3 : it ∈ proxy_items d kind id -> exists i, it.1 = ProxyItem i).
  { unfold proxy_items. destruct (is_kind kind KNode); [|by intros ?%elem_of_nil]. intros (x & -> & _)%list_elem_of_fmap. by eexists. }
  assert (H4 : it ∈ endpoint_items d kind id -> exists i, it.1 = EndpointItem i).
  { intros (kv & _ & H)%list_elem_of_omap. destruct (_ && _); [|done]. injection H as <-. by eexists. }
  assert (H5 : it ∈ path_items d kind id affected -> exists i, it.1 = PathItem i).
  { intros (kv & _ & H)%list_elem_of_omap. destruct (bool_decide _); [|done]. destruct (_ && _) in H; [injection H as <-; by eexists|].
    destruct (_ && _) in H; [injection H as <-; by eexists|done]. }
  assert (H6 : it ∈ access_items d kind id affected -> exists i, it.1 = AccessItem i).
  { intros (a & _ & H)%list_elem_of_omap. destruct (access_goes _ _ _ _); [|done]. injection H as <-. by eexists. }
  assert (H7 : it ∈ credential_items d kind id affected -> exists u x, it.1 = CredentialItem u x).
  { intros ([[u x] c] & _ & H)%list_elem_of_omap. cbn in H. destruct (_ || _) in H; [done|].
    repeat (destruct (_ && _) in H || destruct (is_target _ _ _ _) in H); (injection H as <-; by do 2 eexists) || done. }
  assert (H8 : it ∈ group_items d kind id affected -> exists g k, it.1 = GroupMembership g k \/ it.1 = GroupGrant g k).
  { unfold group_items. intros [([g k] & _ & H)%list_elem_of_omap|([g k] & _ & H)%list_elem_of_omap]%elem_of_app; cbn in H;
      (destruct (_ && _) in H; [|done]); injection H as <-; do 2 eexists; [by left|by right]. }
  rewrite !elem_of_app. split.
  - intros [H|[H|[H|[H|[H|[H|[H|H]]]]]]].
    + destruct (H1 H) as (? & ? & ->). done.
    + destruct (H2 H) as (? & ->). done.
    + destruct (H3 H) as (? & ->). done.
    + destruct (H4 H) as (? & ->). done.
    + destruct (H5 H) as (? & ->). done.
    + destruct (H6 H) as (? & ->). done.
    + destruct (H7 H) as (? & ? & ->). done.
    + destruct (H8 H) as (? & ? & [-> | ->]); done.
  - destruct it.1; tauto.
Qed.

(** C23: an administrator is told what a deletion will do: of the previewed
    proxy or node, the paths, endpoints and bindings listed as disabled, the
    accesses listed as revoked, the credentials and (for a node) proxies listed as
    archived and the memberships of live groups listed as removed are exactly
    those the deletion then changes that way, and every credential it disables is
    listed. *)
Theorem preview_announces_deletion now d t kind resource id impact d' :
  sound (db_store d) -> clean (db_store d) -> references (rows d) -> shown d t kind resource id ->
  ResourceDeletionImpact d kind resource = Ok impact -> SoftDelete now d t = Ok d' ->
  let before := rows d in let after := rows d' in let listed it := it ∈ di_Items impact in
  (forall k, listed (PathItem k, Disabled) <-> exists p p', paths before !! k = Some p /\ pa_Enabled p = true /\
     paths after !! k = Some p' /\ pa_Enabled p' = false) /\
  (forall i, listed (EndpointItem i, Disabled) <-> exists e e', endpoints before !! i = Some e /\ ep_Enabled e = true /\
     endpoints after !! i = Some e' /\ ep_Enabled e' = false) /\
  (forall u n, listed (NodeAccess u n, Disabled) <-> bindings before !! (u, n) = Some true /\ bindings after !! (u, n) = Some false) /\
  (forall i, listed (AccessItem i, Revoked) <-> exists a, a ∈ path_accesses before /\ pc_ID a = i /\ pc_DeletedAt a = None /\
     through_retired after (pc_PathID a)) /\
  (forall g k, listed (GroupMembership g k, Removed) <->
     (exists row, path_groups (db_store d) !! g = Some row /\ pg_DeletedAt row = None) /\
     (g, k) ∈ path_group_members before /\ (g, k) ∉ path_group_members after) /\
  (forall u x, listed (CredentialItem u x, Archived) <-> exists c c', credentials before !! (u, x) = Some c /\ pk_DeletedAt c = None /\
     credentials after !! (u, x) = Some c' /\ is_Some (pk_DeletedAt c')) /\
  (forall u x c c', credentials before !! (u, x) = Some c -> pk_DeletedAt c = None -> pk_Enabled c = true ->
     credentials after !! (u, x) = Some c' -> pk_DeletedAt c' = None -> pk_Enabled c' = false -> listed (CredentialItem u x, Disabled)) /\
  (forall name x, t = TNode name -> listed (ProxyItem x, Archived) <-> retired_proxy before x = false /\ retired_proxy after x = true).
Proof.
  intros Hs Hcl Hrf Hsh Himp Hd. destruct (impact_inv _ _ _ _ _ _ Hsh Himp) as (A & HA & ->).
  destruct (SoftDelete_run now d t Hs (SoftDelete_resolves _ _ _ _ Hd)) as (s1 & s' & Hm & Hr & He). rewrite Hd in He. injection He as ->.
  assert (Hid : match t with
         | TProxy nn pn => exists p, resolve_live_proxy (db_store d) nn pn = Ok p /\ px_ID p = id
         | TNode name => exists n, GetNode (rows d) name = Ok n /\ no_ID n = id
         end) by (destruct t; apply Hsh). cbv zeta. cbn [db_store].
  split; [intros k; rewrite items_by_key; by eapply path_items_exact|].
  split; [intros i; rewrite items_by_key; by eapply endpoint_items_exact|].
  split; [intros u n; rewrite items_by_key; by eapply binding_items_exact|].
  split; [intros i; rewrite items_by_key; by eapply access_items_exact|].
  split; [intros g k; rewrite items_by_key; by eapply group_items_exact|].
  split; [intros u x; rewrite items_by_key; by eapply archived_items_exact|].
  split; [intros u x c c'; rewrite items_by_key; by eapply disabled_items_complete|].
  intros name x ->. rewrite items_by_key, (after_retired _ _ _ Hr), (retired_now _ _ (TNode name) id _ Hs Hid Hm). cbn [fst kind_shown]. unfold proxy_items.
  replace (is_kind KNode KNode) with true by done. cbv iota.
  rewrite list_elem_of_fmap. split.
  - intros (y & [= <-] & Hy). apply list_elem_of_In, filter_In in Hy as [_ Ht]. split; [|by left].
    by apply (target_goes now d (TNode name) id s1 Hs Hid Hm).
  - intros [Hn [Ht|Ht]]; [|congruence]. exists x. split; [done|]. apply list_elem_of_In, filter_In. split; [|done]. apply list_elem_of_In, list_elem_of_fmap.
    unfold is_target in Ht. destruct (proxies (rows d) !! x) as [p|] eqn:Ep; [|done]. exists (x, p). split; [done|]. by apply elem_of_map_to_list.
Qed.

Lemma w_references : references (rows w_fleet).
Proof.
  split.
  - assert (H : map_Forall (fun _ e => is_Some (proxies (rows w_fleet) !! ep_ProxyID e)) (endpoints (rows w_fleet)))
      by (repeat apply map_Forall_insert_2; [by eexists..|apply map_Forall_empty]). exact H.
  - intros u x c Hc. assert (Hc' : ({[("u1", "x1") := {| pk_ID := "k1"; pk_AuthName := "one@alice"; pk_Enabled := true; pk_DeletedAt := None |}]}
      : gmap (string * string) ProxyCredential) !! (u, x) = Some c) by exact Hc.
    apply lookup_singleton_Some in Hc' as [[= <- _] _]. vm_compute. by eexists.
  - intros u n e Hb. assert (Hb' : ({[("u1", "n1") := true]} : gmap (string * string) bool) !! (u, n) = Some e) by exact Hb.
    apply lookup_singleton_Some in Hb' as [[= <- <-] _]. split; vm_compute; by eexists.
Qed.
(** Of proxy "one" the path dialled through it, alice's access and the
    membership of that path are announced. *)
Lemma preview_announces_deletion_witness : exists impact d',
  ResourceDeletionImpact w_fleet "proxy" "x1" = Ok impact /\ SoftDelete "now" w_fleet (TProxy "node" "one") = Ok d' /\
  (PathItem "pb", Disabled) ∈ di_Items impact /\ (GroupMembership "g1" "pb", Removed) ∈ di_Items impact /\
  exists c, credentials (rows d') !! ("u1"%string, "x1"%string) = Some c /\ is_Some (pk_DeletedAt c).
Proof.
  destruct (ResourceDeletionImpact w_fleet "proxy" "x1") as [impact|e] eqn:Hi; [|vm_compute in Hi; discriminate Hi].
  destruct (SoftDelete "now" w_fleet (TProxy "node" "one")) as [d'|e] eqn:Hd; [|vm_compute in Hd; discriminate Hd].
  assert (Hsh : shown w_fleet (TProxy "node" "one") "proxy" "x1" "x1").
  { split; [reflexivity|]. split; [vm_compute; reflexivity|]. vm_compute. eexists. split; reflexivity. }
  destruct (preview_announces_deletion "now" w_fleet (TProxy "node" "one") "proxy" "x1" "x1" impact d' w_sound w_clean w_references Hsh Hi Hd)
    as (H1 & _ & _ & _ & H5 & H6 & _).
  assert (E : match ResourceDeletionImpact w_fleet "proxy" "x1" with
    | Ok i => (bool_decide ((PathItem "pb", Disabled) ∈ di_Items i), bool_decide ((GroupMembership "g1" "pb", Removed) ∈ di_Items i),
               bool_decide ((CredentialItem "u1" "x1", Archived) ∈ di_Items i)) = (true, true, true)
    | Err _ => False end) by (vm_compute; reflexivity).
  rewrite Hi in E. injection E as E1 E2 E3. apply bool_decide_eq_true in E1, E2, E3.
  exists impact, d'. split; [reflexivity|]. split; [reflexivity|]. split; [exact E1|]. split; [exact E2|].
  apply H6 in E3 as (c & c' & _ & _ & Hc' & Hx). exists c'. exact (conj Hc' Hx).
Defined.

(** ** Where the preview says more than the deletion does *)
Definition w_stopped_path (ID endpointID : string) (dialer : option string) (enabled : bool) : Path := {|
  pa_ID := ID; pa_Name := ID; pa_DisplayName := ID; pa_EndpointID := endpointID; pa_DialerPathID := dialer;
  pa_Enabled := enabled; pa_Visibility := PathVisibilitySelectable; pa_Managed := false; pa_SortOrder := 0 |}.
Definition w_use (ID pathID : string) : PathAccess := {| pc_ID := ID; pc_PathID := pathID; pc_ProxyUserID := "u1"; pc_Enabled := true; pc_DeletedAt := None |}.
Definition w_own (ID : string) : ProxyCredential := {| pk_ID := ID; pk_AuthName := ID; pk_Enabled := true; pk_DeletedAt := None |}.
(** alice uses pb, dialled through the disabled path pa, and pc. *)
Definition w_dialed_through_disabled : database := {|
  db_store := {|
    base := {|
      paths := {["pa" := w_stopped_path "pa" "e1" None false; "pb" := w_stopped_path "pb" "e2" (Some "pa") true; "pc" := w_stopped_path "pc" "e3" None true]};
      endpoints := {["e1" := {| ep_ID := "e1"; ep_ProxyID := "x1"; ep_HostID := "h1"; ep_Enabled := true |};
                     "e2" := {| ep_ID := "e2"; ep_ProxyID := "x2"; ep_HostID := "h1"; ep_Enabled := true |};
                     "e3" := {| ep_ID := "e3"; ep_ProxyID := "x3"; ep_HostID := "h1"; ep_Enabled := true |}]};
      path_accesses := [w_use "a1" "pb"; w_use "a2" "pc"]; path_group_members := ∅;
      nodes := nodes (base (w_store true)); node_name_aliases := ∅;
      proxies := {["x1" := w_proxy "one"; "x2" := w_proxy "two"; "x3" := w_proxy "three"]};
      proxy_users := {["u1" := w_user "u1" "alice"]}; bindings := {[("u1", "n1") := true]};
      credentials := {[("u1", "x1") := w_own "k1"; ("u1", "x2") := w_own "k2"; ("u1", "x3") := w_own "k3"]} |};
    direct_path_grants := {[("u1", "pb") := true; ("u1", "pc") := true]}; path_groups := ∅; member_order := ∅;
    user_path_group_grants := ∅; proxy_name_aliases := ∅; credential_json := ∅; path_group_changes := ∅ |};
  db_node_tokens := ∅ |}.
(** a credential announced as disabled may survive: the preview stops at a
    disabled path on the way along the dialers of an access that stays, the
    deletion does not, so the credential on the proxy of that path stays enabled. *)
Theorem announced_credential_survives : exists impact d' c,
  ResourceDeletionImpact w_dialed_through_disabled "proxy" "x3" = Ok impact /\
  SoftDelete "now" w_dialed_through_disabled (TProxy "node" "three") = Ok d' /\
  (CredentialItem "u1" "x1", Disabled) ∈ di_Items impact /\
  credentials (rows d') !! ("u1"%string, "x1"%string) = Some c /\ pk_Enabled c = true /\ pk_DeletedAt c = None.
Proof.
  destruct (ResourceDeletionImpact w_dialed_through_disabled "proxy" "x3") as [impact|e] eqn:Hi; [|vm_compute in Hi; discriminate Hi].
  destruct (SoftDelete "now" w_dialed_through_disabled (TProxy "node" "three")) as [d'|e] eqn:Hd; [|vm_compute in Hd; discriminate Hd].
  assert (E : match ResourceDeletionImpact w_dialed_through_disabled "proxy" "x3", SoftDelete "now" w_dialed_through_disabled (TProxy "node" "three") with
    | Ok i, Ok d => (bool_decide ((CredentialItem "u1" "x1", Disabled) ∈ di_Items i), credentials (rows d) !! ("u1"%string, "x1"%string)) = (true, Some (w_own "k1"))
    | _, _ => False end) by (vm_compute; reflexivity).
  rewrite Hi, Hd in E. injection E as E1 E2. apply bool_decide_eq_true in E1. exists impact, d', (w_own "k1"). auto 10.
Qed.
