(* ===== verification/Publication.v ===== *)
(** * Direct publication ([src/internal/server/db/paths.go], endpoints and the
    managed paths of proxies)

    A proxy with direct publication has a managed path for every selected host of
    its node; EnsureDirectPathsForProxy brings the paths in line with the hosts,
    and SyncLegacyDirectPathsForNode does so for a node and grants the new paths
    to the users who had a managed one.  The state is a [fleet]: the rows of
    [Render] with the publication settings and the tokens of the agents. *)
From S2P Require Import Prelude GoStrings Effects.
From S2P Require Import Paths PathGrants Render Deletion.

#[local] Open Scope Z_scope.

(** ** The fleet *)
Record fleet := {
  fl_site : site;
  proxy_publication_settings : gmap string bool;
  fl_tokens : gmap string node_token
}.
Definition fl_store (w : fleet) : store := grants (fl_site w).
Definition fl_rows (w : fleet) : Paths.tables := base (fl_store w).
Definition set_site (w : fleet) (s : site) : fleet := {|
  fl_site := s; proxy_publication_settings := proxy_publication_settings w; fl_tokens := fl_tokens w |}.
Definition with_grants (s : site) (g : store) : site := {|
  grants := g; listeners := listeners s; public_hosts := public_hosts s; node_connection_telemetry := node_connection_telemetry s |}.
Definition set_store (w : fleet) (s : store) : fleet := set_site w (with_grants (fl_site w) s).
Definition set_rows (w : fleet) (b : Paths.tables) : fleet := set_store w (set_base (fl_store w) b).
Definition set_publication (w : fleet) (m : gmap string bool) : fleet := {|
  fl_site := fl_site w; proxy_publication_settings := m; fl_tokens := fl_tokens w |}.
Definition set_tokens (w : fleet) (m : gmap string node_token) : fleet := {|
  fl_site := fl_site w; proxy_publication_settings := proxy_publication_settings w; fl_tokens := m |}.

Inductive FleetError :=
| PathFailed (e : PathError) | GrantFailed (e : GrantError) | ReadFailed (e : RenderError) | DeleteFailed (e : DeleteError)
| Constraint | ProxyMissing (name : string) | NodeMissing (name : string) | NameMissing | BadName (name : string) | NameTaken (name : string)
| ListenerConflict (name other : string) | ProtocolNotSupported (protocol : string) | TransportNotSupported (transport : string)
| PortRange | BadMultiplier | SettingsNotValid | NoHosts | DuplicateHostID (id : string) | TagRequired (host : string) | BadTag (tag : string)
| DuplicateTag (tag : string) | HostInUse (id : string) | BadStatus (status : string) | ChangedMeanwhile (name : string) | Unexpected (name : string).
Abbreviation F := (eff fleet FleetError).

Definition current : F fleet := fun s => (Ok s.1, s).
Definition change (f : fleet -> fleet) : F unit := fun s => (Ok tt, (f s.1, s.2)).
Definition ensure_that (b : bool) (e : FleetError) : F unit := if b then mret tt else fail e.
Definition look {A} (f : Paths.tables -> res A) : F A := fun s =>
  (match f (fl_rows s.1) with Ok a => Ok a | Err e => Err (PathFailed e) end, s).
(** An operation of [Paths], which commits its tables. *)
Definition run_paths {A} (f : Paths.tables -> res (Paths.tables * A)) : F A := fun s =>
  match f (fl_rows s.1) with
  | Ok (b, a) => (Ok a, (set_rows s.1 b, s.2))
  | Err e => (Err (PathFailed e), s)
  end.
(** An operation of [PathGrants]. *)
Definition run_grants {A} (m : eff store GrantError A) : F A := fun s =>
  let (r, s') := m (fl_store s.1, s.2) in
  (match r with Ok a => Ok a | Err e => Err (GrantFailed e) end, (set_store s.1 s'.1, s'.2)).
Definition atomically {A} (m : F A) : F A := fun s =>
  match m s with
  | (Err e, s') => (Err e, (s.1, s'.2))
  | r => r
  end.

Section oracle.
Variable oracle : nat -> draw.
Definition draws : F draw := fun s => (Ok (oracle s.2), (s.1, S s.2)).

(** ** Endpoints *)
Definition GetEndpointByProxyHost (b : Paths.tables) (proxyID hostID : string) : option Endpoint :=
  snd <$> List.find (fun ke : string * Endpoint => (ep_ProxyID ke.2 =? proxyID)%string && (ep_HostID ke.2 =? hostID)%string)
    (map_to_list (endpoints b)).
Definition CreateEndpoint (e : Endpoint) : F unit :=
  w ← current;
  ensure_that (negb (is_set (endpoints (fl_rows w) !! ep_ID e)) && is_set (proxies (fl_rows w) !! ep_ProxyID e)
    && negb (is_set (GetEndpointByProxyHost (fl_rows w) (ep_ProxyID e) (ep_HostID e)))) Constraint;;
  change (fun w => set_rows w (with_endpoints (fl_rows w) (<[ep_ID e := e]> (endpoints (fl_rows w))))).
Definition EnsureEndpoint (proxyID hostID : string) : F Endpoint :=
  ph ← look (fun b => validateEndpointPair b proxyID hostID);
  w ← current;
  match GetEndpointByProxyHost (fl_rows w) (px_ID ph.1) (nh_ID ph.2) with
  | Some e => mret e
  | None =>
      d ← draws;
      CreateEndpoint {| ep_ID := dr_id d; ep_ProxyID := px_ID ph.1; ep_HostID := nh_ID ph.2; ep_Enabled := true |};;
      look (fun b => GetEndpoint b (dr_id d))
  end.
Definition SetEndpointEnabled (endpointID : string) (enabled : bool) : F Endpoint :=
  w ← current;
  match endpoints (fl_rows w) !! TrimSpace endpointID with
  | None => fail (PathFailed (EndpointNotFound endpointID))
  | Some e =>
      change (fun w => set_rows w (with_endpoints (fl_rows w) (<[TrimSpace endpointID :=
        {| ep_ID := ep_ID e; ep_ProxyID := ep_ProxyID e; ep_HostID := ep_HostID e; ep_Enabled := enabled |}]> (endpoints (fl_rows w)))));;
      look (fun b => GetEndpoint b endpointID)
  end.
(** endpoint_id REFERENCES endpoints(id) ON DELETE RESTRICT *)
Definition DeleteEndpoint (endpointID : string) : F unit :=
  w ← current;
  let ID := TrimSpace endpointID in
  match endpoints (fl_rows w) !! ID with
  | None => fail (PathFailed (EndpointNotFound endpointID))
  | Some _ =>
      ensure_that (negb (endpoint_used (paths (fl_rows w)) ID)) Constraint;;
      change (fun w => set_rows w (delete_endpoint_row (fl_rows w) ID))
  end.

(** ** EnsureDirectPathsForProxy *)
Definition ListEndpointsByProxyID (b : Paths.tables) (proxyID : string) : list Endpoint :=
  List.filter (fun e => (ep_ProxyID e =? proxyID)%string) (map snd (map_to_list (endpoints b))).
(** ORDER BY sort_order, name, id *)
Definition path_order (a b : string * Path) : Prop :=
  (pa_SortOrder a.2 <? pa_SortOrder b.2) || ((pa_SortOrder a.2 =? pa_SortOrder b.2) &&
    text_then (pa_Name a.2) (pa_Name b.2) (String.leb a.1 b.1)) = true.
#[local] Instance path_order_dec a b : Decision (path_order a b).
Proof. unfold path_order. apply _. Defined.
Definition ListPathsByEndpointID (b : Paths.tables) (endpointID : string) : list Path :=
  map snd (merge_sort path_order (List.filter (fun kp => (pa_EndpointID kp.2 =? endpointID)%string) (map_to_list (paths b)))).
Definition disable_path (p : Path) : F unit :=
  if pa_Managed p && pa_Enabled p
  then run_paths (fun b => let? b := setPathEnabledUnchecked b (pa_ID p) false in Ok (b, tt)) else mret tt.
Definition is_direct (p : Path) : bool := pa_Managed p && negb (is_set (pa_DialerPathID p)).
(** The name and the display name of the path on the [index]th host. *)
Definition direct_names (proxy : Proxy) (index : nat) (host : NodeHost) : string * string :=
  if negb (nh_Tag host =? "")%string then (nh_Tag host, (px_Name proxy ++ "-" ++ nh_Tag host)%string)
  else if (0 <? index)%nat then ("direct"%string, (px_Name proxy ++ "-" ++ nh_Host host)%string)
  else ("direct"%string, px_Name proxy).
Definition direct_params (proxy : Proxy) (index : nat) (host : NodeHost) (endpointID : string) : CreatePathParams := {|
  cp_Name := (direct_names proxy index host).1; cp_DisplayName := (direct_names proxy index host).2; cp_EndpointID := endpointID;
  cp_DialerPathID := ""; cp_Enabled := true; cp_Visibility := PathVisibilitySelectable; cp_Managed := true; cp_SortOrder := Z.of_nat index |}.
Definition up_to_date (proxy : Proxy) (index : nat) (host : NodeHost) (p : Path) : bool :=
  (pa_Name p =? (direct_names proxy index host).1)%string && (pa_DisplayName p =? (direct_names proxy index host).2)%string
  && (pa_SortOrder p =? Z.of_nat index) && pa_Enabled p.
Definition ensure_direct (proxy : Proxy) (index : nat) (host : NodeHost) : F Path :=
  endpoint ← EnsureEndpoint (px_ID proxy) (nh_ID host);
  w ← current;
  match List.find is_direct (ListPathsByEndpointID (fl_rows w) (ep_ID endpoint)) with
  | Some direct =>
      if pa_Managed direct && negb (up_to_date proxy index host direct)
      then run_paths (fun b => UpdatePath b (pa_ID direct) (direct_params proxy index host (ep_ID endpoint)) true)
      else mret direct
  | None =>
      d ← draws;
      run_paths (fun b => CreatePath b (dr_id d) (direct_params proxy index host (ep_ID endpoint)))
  end.
(** The loop over the hosts of the node, with their indexes. *)
Fixpoint ensure_hosts (proxy : Proxy) (index : nat) (hosts : list NodeHost) : F (list Path) :=
  match hosts with
  | [] => mret []
  | host :: hosts =>
      if negb (nh_Selected host) then ensure_hosts proxy (S index) hosts
      else
        p ← ensure_direct proxy index host;
        rest ← ensure_hosts proxy (S index) hosts;
        mret (p :: rest)
  end.
Definition selected_ids (node : Node) : gset string :=
  list_to_set (map nh_ID (List.filter nh_Selected (no_Hosts node))).
Definition retire_unselected (selected : gset string) (e : Endpoint) : F unit :=
  if bool_decide (ep_HostID e ∈ selected) then mret tt
  else
    w ← current;
    for_each disable_path (ListPathsByEndpointID (fl_rows w) (ep_ID e)).
Definition EnsureDirectPathsForProxy (proxyID : string) : F (list Path) :=
  proxy ← look (fun b => GetProxyByID b proxyID);
  node ← look (fun b => GetNode b (px_NodeName proxy));
  w ← current;
  for_each (retire_unselected (selected_ids node)) (ListEndpointsByProxyID (fl_rows w) (px_ID proxy));;
  ensure_hosts proxy 0 (no_Hosts node).

(** ** Publication settings *)
Definition GetProxyDirectPublication (w : fleet) (proxyID : string) : bool :=
  default true (proxy_publication_settings w !! TrimSpace proxyID).
Definition SetProxyDirectPublication (proxyID : string) (enabled : bool) : F (list Path) :=
  look (fun b => GetProxyByID b proxyID);;
  change (fun w => set_publication w (<[TrimSpace proxyID := enabled]> (proxy_publication_settings w)));;
  if enabled then EnsureDirectPathsForProxy proxyID
  else
    w ← current;
    let endpointIDs : gset string := list_to_set (map ep_ID (ListEndpointsByProxyID (fl_rows w) (TrimSpace proxyID))) in
    let updated := List.filter (fun p => pa_Managed p && bool_decide (pa_EndpointID p ∈ endpointIDs) && pa_Enabled p)
                     (map snd (map_to_list (paths (fl_rows w)))) in
    for_each disable_path updated;;
    mret (map (fun p => with_enabled p false) updated).
Definition GrantDirectPathsForCredential (proxyID userName : string) : F unit :=
  w ← current;
  if negb (GetProxyDirectPublication w proxyID) then mret tt
  else
    l ← EnsureDirectPathsForProxy proxyID;
    for_each (fun p => run_grants (GrantPathAccess oracle userName (pa_ID p))) l.

(** ** SyncLegacyDirectPathsForNode

    (An empty name would list all proxies and then fail at the credentials.) *)
(** ListProxiesByNodeName: ORDER BY node_name, listen_port, name *)
Definition proxy_order (a b : Proxy * listener) : Prop :=
  (li_ListenPort a.2 <? li_ListenPort b.2) || ((li_ListenPort a.2 =? li_ListenPort b.2) && String.leb (px_Name a.1) (px_Name b.1)) = true.
#[local] Instance proxy_order_dec a b : Decision (proxy_order a b).
Proof. unfold proxy_order. apply _. Defined.
Definition live_details (s : site) : list (Proxy * listener) :=
  omap (fun kp : string * proxy_row => p ← live_proxy (rows_of s) kp.1; l ← listeners s !! kp.1; Some (p, l))
    (map_to_list (proxies (rows_of s))).
Definition ListProxiesByNodeName (s : site) (nodeName : string) : list (Proxy * listener) :=
  merge_sort proxy_order (List.filter (fun pl => (px_NodeName pl.1 =? nodeName)%string) (live_details s)).
(** HasManagedDirectGrantForProxyUser *)
Definition has_managed_grant (s : store) (userID proxyID : string) : bool :=
  existsb (fun kd : (string * string) * bool =>
    kd.2 && (kd.1.1 =? userID)%string &&
    match paths (base s) !! kd.1.2 with
    | Some p => pa_Managed p && match endpoints (base s) !! pa_EndpointID p with Some e => (ep_ProxyID e =? proxyID)%string | None => false end
    | None => false
    end) (map_to_list (direct_path_grants s)).
Definition SyncLegacyDirectPathsForNode (nodeName : string) : F unit :=
  atomically (
    node ← look (fun b => GetNode b nodeName);
    w ← current;
    for_each (fun pl : Proxy * listener =>
      w ← current;
      if GetProxyDirectPublication w (px_ID pl.1) then EnsureDirectPathsForProxy (px_ID pl.1);; mret tt else mret tt)
      (ListProxiesByNodeName (fl_site w) (no_Name node));;
    w ← current;
    credentials ← match ListProxyCredentialsByNode (fl_site w) nodeName with Ok l => mret l | Err e => fail (ReadFailed e) end;
    for_each (fun a : access_detail =>
      w ← current;
      if has_managed_grant (fl_store w) (ad_ProxyUserID a) (ad_ProxyID a)
      then GrantDirectPathsForCredential (ad_ProxyID a) (ad_ProxyUserName a) else mret tt) credentials).
End oracle.
