(* ===== verification/PublicationSafety.v ===== *)
(** * What direct publication guarantees ([Publication])

    EnsureDirectPathsForProxy leaves exactly one enabled managed path per
    selected host of the node and none elsewhere, touches nothing else, and a
    second run changes nothing. *)
From S2P Require Import Prelude GoStrings Effects.
From S2P Require Import Paths PathGrants PathAccess Render Deletion Publication.

#[local] Open Scope Z_scope.

(** ** Runs that succeed *)
Lemma look_Ok {A} (f : Paths.tables -> res A) s a s' : look f s = (Ok a, s') -> f (fl_rows s.1) = Ok a /\ s' = s.
Proof. unfold look. destruct (f _); [by intros [= <- <-]|done]. Qed.
Lemma current_Ok s w s' : current s = (Ok w, s') -> w = s.1 /\ s' = s.
Proof. by intros [= <- <-]. Qed.
Lemma change_Ok f s u s' : change f s = (Ok u, s') -> s' = (f s.1, s.2).
Proof. by intros [= _ <-]. Qed.
Lemma draws_Ok oracle s d s' : draws oracle s = (Ok d, s') -> d = oracle s.2 /\ s' = (s.1, S s.2).
Proof. by intros [= <- <-]. Qed.
Lemma ensure_that_Ok b e s u s' : ensure_that b e s = (Ok u, s') -> b = true /\ s' = s.
Proof. unfold ensure_that. destruct b; [by intros [= _ <-]|done]. Qed.
Lemma run_paths_Ok {A} (f : Paths.tables -> res (Paths.tables * A)) s a s' : run_paths f s = (Ok a, s') ->
  exists b, f (fl_rows s.1) = Ok (b, a) /\ s' = (set_rows s.1 b, s.2).
Proof. unfold run_paths. destruct (f _) as [[b x]|]; [|done]. intros [= <- <-]. by exists b. Qed.

(** ** Keys *)
Record well_keyed (b : Paths.tables) : Prop := {
  wk_paths : forall k p, paths b !! k = Some p -> pa_ID p = k /\ TrimSpace k = k;
  wk_endpoints : forall k e, endpoints b !! k = Some e -> ep_ID e = k /\ TrimSpace k = k;
  wk_unique : forall k1 k2 e1 e2, endpoints b !! k1 = Some e1 -> endpoints b !! k2 = Some e2 ->
    ep_ProxyID e1 = ep_ProxyID e2 -> ep_HostID e1 = ep_HostID e2 -> k1 = k2;
  wk_direct : forall k1 k2 p1 p2, paths b !! k1 = Some p1 -> paths b !! k2 = Some p2 ->
    is_direct p1 = true -> is_direct p2 = true -> pa_EndpointID p1 = pa_EndpointID p2 -> k1 = k2
}.
(** Generated ids contain no spaces. *)
Definition plain_ids (oracle : nat -> draw) : Prop := forall n, TrimSpace (dr_id (oracle n)) = dr_id (oracle n).

(** ** What may change: managed paths of a proxy on certain hosts *)
Definition on_host (b : Paths.tables) (x : string) (H : string -> Prop) (p : Path) : Prop :=
  exists e, endpoints b !! pa_EndpointID p = Some e /\ ep_ProxyID e = x /\ H (ep_HostID e).
Definition managed_on (b : Paths.tables) (x : string) (H : string -> Prop) (o : option Path) : Prop :=
  forall p, o = Some p -> pa_Managed p = true /\ on_host b x H p.
Record reshaped (x : string) (H : string -> Prop) (w w' : fleet) : Prop := {
  rs_rest : w' = set_rows w (fl_rows w');
  rs_tables : path_accesses (fl_rows w') = path_accesses (fl_rows w) /\ path_group_members (fl_rows w') = path_group_members (fl_rows w) /\
    nodes (fl_rows w') = nodes (fl_rows w) /\ node_name_aliases (fl_rows w') = node_name_aliases (fl_rows w) /\
    proxies (fl_rows w') = proxies (fl_rows w) /\ proxy_users (fl_rows w') = proxy_users (fl_rows w) /\
    bindings (fl_rows w') = bindings (fl_rows w) /\ credentials (fl_rows w') = credentials (fl_rows w);
  rs_kept : forall k e, endpoints (fl_rows w) !! k = Some e -> endpoints (fl_rows w') !! k = Some e;
  rs_new : forall k e, endpoints (fl_rows w') !! k = Some e -> endpoints (fl_rows w) !! k = Some e \/ (ep_ProxyID e = x /\ H (ep_HostID e));
  rs_paths : forall k, paths (fl_rows w') !! k = paths (fl_rows w) !! k \/
    (managed_on (fl_rows w') x H (paths (fl_rows w) !! k) /\ managed_on (fl_rows w') x H (paths (fl_rows w') !! k));
  rs_dom : forall k, is_Some (paths (fl_rows w) !! k) -> is_Some (paths (fl_rows w') !! k)
}.
Lemma set_rows_rows w b : fl_rows (set_rows w b) = b.
Proof. done. Qed.
Lemma set_rows_id w : set_rows w (fl_rows w) = w.
Proof. by destruct w as [[[] ? ? ?] ? ?]. Qed.
Lemma set_rows_twice w b b' : set_rows (set_rows w b) b' = set_rows w b'.
Proof. done. Qed.
Lemma managed_on_mono x H w w' o : reshaped x H w w' -> managed_on (fl_rows w) x H o -> managed_on (fl_rows w') x H o.
Proof. intros Hr Ho p Hp. destruct (Ho p Hp) as [Hm (e & He & Hx)]. split; [done|]. exists e. split; [by apply (rs_kept _ _ _ _ Hr)|done]. Qed.
#[export] Instance reshaped_preorder x H : PreOrder (reshaped x H).
Proof.
  split.
  - intros w. split; [by rewrite set_rows_id|auto 10|done|by left|by left|done].
  - intros w1 w2 w3 R1 R2. pose proof (rs_tables _ _ _ _ R1) as (T1 & T2 & T3 & T4 & T5 & T6 & T7 & T8).
    pose proof (rs_tables _ _ _ _ R2) as (U1 & U2 & U3 & U4 & U5 & U6 & U7 & U8). split.
    + rewrite (rs_rest _ _ _ _ R2) at 1. rewrite (rs_rest _ _ _ _ R1) at 1. done.
    + repeat split; congruence.
    + intros k e He. by apply (rs_kept _ _ _ _ R2), (rs_kept _ _ _ _ R1).
    + intros k e [He|He]%(rs_new _ _ _ _ R2); [|by right]. by apply (rs_new _ _ _ _ R1).
    + intros k. destruct (rs_paths _ _ _ _ R1 k) as [E1|[A1 B1]], (rs_paths _ _ _ _ R2 k) as [E2|[A2 B2]].
      * left. congruence.
      * right. by rewrite E1 in A2.
      * right. rewrite E2. split; by eapply managed_on_mono.
      * right. split; [by eapply managed_on_mono|done].
    + intros k Hk. by apply (rs_dom _ _ _ _ R2), (rs_dom _ _ _ _ R1).
Qed.
Lemma reshaped_mono x (H H' : string -> Prop) w w' : (forall h, H h -> H' h) -> reshaped x H w w' -> reshaped x H' w w'.
Proof.
  intros HH [R1 R2 R3 R4 R5 R6]. assert (Hm : forall b o, managed_on b x H o -> managed_on b x H' o).
  { intros b o Ho p Hp. destruct (Ho p Hp) as [? (e & ? & ? & ?)]. split; [done|]. exists e. auto. }
  split; [done|done|done| | |done].
  - intros k e [?|[? ?]]%R4; [by left|right]. auto.
  - intros k. destruct (R5 k) as [?|[? ?]]; [by left|right]. auto.
Qed.
(** Rows of the tables that stay are read as before. *)
Lemma reshaped_lookups x H w w' : reshaped x H w w' ->
  (forall i, GetProxyByID (fl_rows w') i = GetProxyByID (fl_rows w) i) /\ (forall n, GetNode (fl_rows w') n = GetNode (fl_rows w) n).
Proof.
  intros Hr. destruct (rs_tables _ _ _ _ Hr) as (_ & _ & E1 & E2 & E3 & _). split.
  - intros i. unfold GetProxyByID, live_proxy. by rewrite E1, E3.
  - intros n. unfold GetNode, node_by_name. by rewrite E1, E2.
Qed.

(** ** Endpoints *)
Lemma by_proxy_host_spec b x h e : GetEndpointByProxyHost b x h = Some e -> exists k, endpoints b !! k = Some e /\ ep_ProxyID e = x /\ ep_HostID e = h.
Proof.
  unfold GetEndpointByProxyHost. destruct (List.find _ _) as [[k e']|] eqn:E; [|done]. intros [= <-]. exists k. apply List.find_some in E as [Hin Hc].
  apply list_elem_of_In, elem_of_map_to_list in Hin. cbn in Hc. rewrite andb_true_iff, !String.eqb_eq in Hc. done.
Qed.
Lemma by_proxy_host_none b x h k e : GetEndpointByProxyHost b x h = None -> endpoints b !! k = Some e -> ep_ProxyID e = x -> ep_HostID e <> h.
Proof.
  unfold GetEndpointByProxyHost. destruct (List.find _ _) as [|] eqn:E; [done|]. intros _ He <- <-.
  apply elem_of_map_to_list, list_elem_of_In in He. apply (List.find_none _ _ E) in He. cbn in He. by rewrite !String.eqb_refl in He.
Qed.
Lemma by_proxy_host_found b k e : well_keyed b -> endpoints b !! k = Some e -> GetEndpointByProxyHost b (ep_ProxyID e) (ep_HostID e) = Some e.
Proof.
  intros Hw He. destruct (GetEndpointByProxyHost b (ep_ProxyID e) (ep_HostID e)) as [e'|] eqn:E.
  - apply by_proxy_host_spec in E as (k' & He' & Hx & Hh). assert (k' = k) as -> by (by eapply (wk_unique _ Hw)). congruence.
  - by destruct (by_proxy_host_none _ _ _ _ _ E He eq_refl).
Qed.
Lemma validateEndpointPair_Ok b x h proxy host : validateEndpointPair b x h = Ok (proxy, host) ->
  GetProxyByID b x = Ok proxy /\ nh_ID host = TrimSpace h /\ exists node, GetNode b (px_NodeName proxy) = Ok node /\ find_host (no_Hosts node) h = Ok host.
Proof.
  unfold validateEndpointPair. destruct (GetProxyByID b x) as [p|]; [|done]. destruct (GetNode b (px_NodeName p)) as [node|] eqn:En; [|done].
  destruct (find_host (no_Hosts node) h) as [ho|] eqn:Eh; [|done]. intros [= <- <-]. split; [done|].
  split; [by apply find_host_Ok in Eh as (_ & ? & _)|]. by exists node.
Qed.
(** Adding an endpoint. *)
Lemma reshaped_new_endpoint w e : endpoints (fl_rows w) !! ep_ID e = None ->
  reshaped (ep_ProxyID e) (eq (ep_HostID e)) w (set_rows w (with_endpoints (fl_rows w) (<[ep_ID e := e]> (endpoints (fl_rows w))))).
Proof.
  intros Hnone. split; [done|auto 10| | |by left|done].
  - intros k e' He. cbn. rewrite lookup_insert_ne; [done|congruence].
  - intros k e'. cbn. destruct (decide (k = ep_ID e)) as [->|Hne]; [rewrite lookup_insert_eq; intros [= <-]; by right|].
    rewrite lookup_insert_ne by done. by left.
Qed.
Lemma EnsureEndpoint_spec oracle x h s e s' : plain_ids oracle -> well_keyed (fl_rows s.1) -> EnsureEndpoint oracle x h s = (Ok e, s') ->
  exists proxy, GetProxyByID (fl_rows s.1) x = Ok proxy /\ well_keyed (fl_rows s'.1) /\ endpoints (fl_rows s'.1) !! ep_ID e = Some e /\
    ep_ProxyID e = px_ID proxy /\ ep_HostID e = TrimSpace h /\ paths (fl_rows s'.1) = paths (fl_rows s.1) /\
    reshaped (px_ID proxy) (eq (TrimSpace h)) s.1 s'.1 /\ (GetEndpointByProxyHost (fl_rows s.1) (px_ID proxy) (TrimSpace h) = Some e -> s' = s).
Proof.
  intros Hpl Hw H. unfold EnsureEndpoint in H. apply bind_Ok in H as ([proxy host] & s1 & [Hv ->]%look_Ok & H). cbn [fst snd] in H.
  apply validateEndpointPair_Ok in Hv as (Hp & Hh & _). exists proxy. split; [done|].
  apply bind_Ok in H as (w & s1 & [-> ->]%current_Ok & H). rewrite Hh in H.
  destruct (GetEndpointByProxyHost (fl_rows s.1) (px_ID proxy) (TrimSpace h)) as [e0|] eqn:Ee.
  - apply ret_Ok in H as [-> ->]. apply by_proxy_host_spec in Ee as (k & He & Hx & Hho). destruct (wk_endpoints _ Hw _ _ He) as [<- _].
    split; [done|]. split; [done|]. split; [done|]. split; [done|]. split; [done|]. split; [reflexivity|done].
  - apply bind_Ok in H as (d & s1 & [-> ->]%draws_Ok & H). apply bind_Ok in H as ([] & s2 & H2 & [He ->]%look_Ok).
    unfold CreateEndpoint in H2. apply bind_Ok in H2 as (w & s3 & [-> ->]%current_Ok & H2). cbn [fst snd] in H2.
    apply bind_Ok in H2 as ([] & s4 & [Hc ->]%ensure_that_Ok & ->%change_Ok). cbn [fst snd] in *.
    rewrite !andb_true_iff, !negb_true_iff in Hc. destruct Hc as [[Hnone _] _]. cbn in Hnone.
    assert (Hn : endpoints (fl_rows s.1) !! dr_id (oracle s.2) = None) by (by destruct (endpoints (fl_rows s.1) !! _)).
    unfold GetEndpoint, lookup_or in He. rewrite Hpl, set_rows_rows in He. cbn in He. rewrite lookup_insert_eq in He. injection He as <-.
    set (e := {| ep_ID := _; ep_ProxyID := px_ID proxy; ep_HostID := TrimSpace h; ep_Enabled := true |}).
    rewrite set_rows_rows. cbn [ep_ID ep_ProxyID ep_HostID endpoints paths with_endpoints]. rewrite lookup_insert_eq. split; [|split; [done|]].
    + destruct Hw as [W1 W2 W3 W4]. assert (Hsame : forall k e', <[ep_ID e := e]> (endpoints (fl_rows s.1)) !! k = Some e' ->
        (k = ep_ID e /\ e' = e) \/ (k <> ep_ID e /\ endpoints (fl_rows s.1) !! k = Some e')).
      { intros k e'. destruct (decide (k = ep_ID e)) as [->|Hne]; [rewrite lookup_insert_eq; intros [= <-]; by left|].
        rewrite lookup_insert_ne by done. by right. }
      split; [done| | |done].
      * intros k e' [[-> ->]|[_ He']]%Hsame; [split; [done|apply Hpl]|by apply W2].
      * intros k1 k2 e1 e2 [[-> ->]|[_ H1]]%Hsame [[-> ->]|[_ H2]]%Hsame Hx Hho; [done| | |by eapply W3].
        -- by destruct (by_proxy_host_none _ _ _ _ _ Ee H2 (eq_sym Hx)).
        -- by destruct (by_proxy_host_none _ _ _ _ _ Ee H1 Hx).
    + split; [done|]. split; [done|]. split; [done|]. split; [|by intros].
      apply (reshaped_new_endpoint s.1 e). done.
Qed.

(** ** Paths *)
Lemma paths_of_endpoint b i p : well_keyed b -> p ∈ ListPathsByEndpointID b i <-> paths b !! pa_ID p = Some p /\ pa_EndpointID p = i.
Proof.
  intros Hw. unfold ListPathsByEndpointID. rewrite list_elem_of_fmap. split.
  - intros ([k p'] & -> & Hin). rewrite merge_sort_Permutation in Hin. apply list_elem_of_In, filter_In in Hin as [Hin Hi].
    apply list_elem_of_In, elem_of_map_to_list in Hin. cbn in *. destruct (wk_paths _ Hw _ _ Hin) as [-> _]. split; [done|by apply String.eqb_eq].
  - intros [Hp Hi]. exists (pa_ID p, p). split; [done|]. rewrite merge_sort_Permutation. apply list_elem_of_In, filter_In. split.
    + by apply list_elem_of_In, elem_of_map_to_list.
    + by apply String.eqb_eq.
Qed.
Lemma normalizePath_trims b path p : normalizePath b path = Ok p -> p = trimmed_path path.
Proof.
  unfold normalizePath. repeat (destruct (_ : bool); [|done]). destruct (GetEndpoint b _) as [e|]; [|done]. destruct (_ : bool); [|done].
  destruct (pa_Enabled (trimmed_path path)); [destruct (ResolveEndpoint b e); [|done]|]; by intros [= <-].
Qed.
Lemma UpdatePath_Ok b ID up allow b' p : TrimSpace ID = ID -> UpdatePath b ID up allow = Ok (b', p) ->
  p = trimmed_path (path_of_params ID up) /\ b' = with_paths b (<[ID := p]> (paths b)) /\ is_Some (paths b !! ID).
Proof.
  intros HID. unfold UpdatePath. destruct (GetPath b ID) as [ex|]; [|done]. destruct (negb _); [|done].
  destruct (normalizePath b _) as [c|] eqn:Ec; [|done]. apply normalizePath_trims in Ec. destruct (validatePathGraph b c); [|done].
  destruct (validatePublishedNamesAfterPathChange b c); [|done]. destruct (bool_decide _) eqn:Ed; [|done].
  destruct (path_constraints b c); [|done]. assert (Hid : pa_ID c = ID) by (rewrite Ec; exact HID). rewrite Hid in *. apply bool_decide_eq_true in Ed.
  unfold GetPath, lookup_or. cbn [paths with_paths]. rewrite HID, lookup_insert_eq. intros [= <- <-]. done.
Qed.
Lemma CreatePath_Ok b ID params b' p : TrimSpace ID = ID -> CreatePath b ID params = Ok (b', p) ->
  p = with_id (trimmed_path (path_of_params "" params)) ID /\ b' = with_paths b (<[ID := p]> (paths b)) /\ paths b !! ID = None.
Proof.
  intros HID. unfold CreatePath. destruct (normalizePath b _) as [c|] eqn:Ec; [|done]. apply normalizePath_trims in Ec.
  destruct (validatePathGraph b _); [|done]. destruct (bool_decide _ && _) eqn:Ed; [|done]. apply andb_true_iff in Ed as [Ed _].
  apply bool_decide_eq_true in Ed. unfold GetPath, lookup_or. cbn [paths with_paths]. rewrite HID, lookup_insert_eq. intros [= <- <-]. by subst c.
Qed.
Lemma well_keyed_paths b m : well_keyed b -> (forall k p, m !! k = Some p -> pa_ID p = k /\ TrimSpace k = k) ->
  (forall k1 k2 p1 p2, m !! k1 = Some p1 -> m !! k2 = Some p2 -> is_direct p1 = true -> is_direct p2 = true -> pa_EndpointID p1 = pa_EndpointID p2 -> k1 = k2) ->
  well_keyed (with_paths b m).
Proof. intros [W1 W2 W3 W4] H1 H2. by split. Qed.
(** Writing one managed path of an endpoint of the proxy. *)
Lemma reshaped_path w x h k p : managed_on (fl_rows w) x h (paths (fl_rows w) !! k) -> managed_on (fl_rows w) x h (Some p) ->
  reshaped x h w (set_rows w (with_paths (fl_rows w) (<[k := p]> (paths (fl_rows w))))).
Proof.
  intros Hold Hnew. split; [done|auto 10|done|by left| |].
  - intros k'. cbn. destruct (decide (k' = k)) as [->|Hne]; [right; rewrite lookup_insert_eq; done|left; by rewrite lookup_insert_ne].
  - intros k' Hk. cbn. destruct (decide (k' = k)) as [->|Hne]; [rewrite lookup_insert_eq; by eexists|by rewrite lookup_insert_ne].
Qed.

(** ** One host *)
Definition published (b : Paths.tables) (proxy : Proxy) (index : nat) (host : NodeHost) (p : Path) : Prop :=
  paths b !! pa_ID p = Some p /\ is_direct p = true /\ up_to_date proxy index host p = true /\ on_host b (px_ID proxy) (eq (nh_ID host)) p.
(** What a path is called is trimmed already: the tag, and the name of the proxy
    with the suffix of the host. *)
Definition plain_names (proxy : Proxy) (host : NodeHost) : Prop :=
  TrimSpace (nh_ID host) = nh_ID host /\ TrimSpace (nh_Tag host) = nh_Tag host /\
  Forall (fun label => TrimSpace label = label) [px_Name proxy; (px_Name proxy ++ "-" ++ nh_Tag host)%string; (px_Name proxy ++ "-" ++ nh_Host host)%string].
Lemma plain_direct_names proxy index host : plain_names proxy host ->
  TrimSpace (direct_names proxy index host).1 = (direct_names proxy index host).1 /\ TrimSpace (direct_names proxy index host).2 = (direct_names proxy index host).2.
Proof.
  intros (_ & Ht & H). rewrite !Forall_cons in H. destruct H as (H1 & H2 & H3 & _). unfold direct_names.
  destruct (negb _); [done|]. by destruct (0 <? index)%nat.
Qed.
Lemma direct_row proxy index host i p : plain_names proxy host -> TrimSpace i = i ->
  pa_Name p = TrimSpace (direct_names proxy index host).1 -> pa_DisplayName p = TrimSpace (direct_names proxy index host).2 ->
  pa_Enabled p = true -> pa_Managed p = true -> pa_DialerPathID p = None -> pa_SortOrder p = Z.of_nat index ->
  is_direct p = true /\ up_to_date proxy index host p = true.
Proof.
  intros [N1 N2]%(plain_direct_names proxy index host) _ E1 E2 E3 E4 E5 E6. unfold is_direct, up_to_date. by rewrite E1, E2, E3, E4, E5, E6, N1, N2, !String.eqb_refl, Z.eqb_refl.
Qed.
(** Writing the direct path of an endpoint keeps the keys. *)
Lemma well_keyed_direct b k p : well_keyed b -> pa_ID p = k -> TrimSpace k = k -> is_direct p = true ->
  (forall k' p', paths b !! k' = Some p' -> is_direct p' = true -> pa_EndpointID p' = pa_EndpointID p -> k' = k) ->
  well_keyed (with_paths b (<[k := p]> (paths b))).
Proof.
  intros Hw Hid Hk Hdir Hone. apply well_keyed_paths; [done| |].
  - intros k' p'. destruct (decide (k' = k)) as [->|Hne]; [rewrite lookup_insert_eq; by intros [= <-]|rewrite lookup_insert_ne by done; apply (wk_paths _ Hw)].
  - intros k1 k2 p1 p2. destruct (decide (k1 = k)) as [->|H1], (decide (k2 = k)) as [->|H2]; rewrite ?lookup_insert_eq, ?lookup_insert_ne by done; [done| | |].
    + intros [= <-] Hp2 _ D2 E. symmetry. by eapply Hone.
    + intros Hp1 [= <-] D1 _ E. by eapply Hone.
    + apply (wk_direct _ Hw).
Qed.
Lemma ensure_direct_spec oracle proxy index host s p s' : plain_ids oracle -> plain_names proxy host -> well_keyed (fl_rows s.1) ->
  GetProxyByID (fl_rows s.1) (px_ID proxy) = Ok proxy -> ensure_direct oracle proxy index host s = (Ok p, s') ->
  well_keyed (fl_rows s'.1) /\ reshaped (px_ID proxy) (eq (nh_ID host)) s.1 s'.1 /\ published (fl_rows s'.1) proxy index host p.
Proof.
  intros Hpl Hnm Hw Hp H. pose proof Hnm as (Hid & _). unfold ensure_direct in H. apply bind_Ok in H as (e & s1 & He & H).
  destruct (EnsureEndpoint_spec _ _ _ _ _ _ Hpl Hw He) as (px & Hpx & Hw1 & Hee & Hex & Heh & Hpaths & R1 & _).
  rewrite Hp in Hpx. injection Hpx as <-. rewrite Hid in *. apply bind_Ok in H as (w & s2 & [-> ->]%current_Ok & H).
  assert (Hie : TrimSpace (ep_ID e) = ep_ID e) by (by destruct (wk_endpoints _ Hw1 _ _ Hee)).
  assert (Hon : forall q, pa_EndpointID q = ep_ID e -> on_host (fl_rows s1.1) (px_ID proxy) (eq (nh_ID host)) q).
  { intros q Hq. exists e. by rewrite Hq. }
  destruct (List.find is_direct (ListPathsByEndpointID (fl_rows s1.1) (ep_ID e))) as [dp|] eqn:Ef.
  - apply List.find_some in Ef as [Hin Hdir]. apply list_elem_of_In, (paths_of_endpoint _ _ _ Hw1) in Hin as [Hdp Hde].
    assert (Hman : pa_Managed dp = true) by (by unfold is_direct in Hdir; destruct (pa_Managed dp)). rewrite Hman in H. cbn in H.
    destruct (up_to_date proxy index host dp) eqn:Eup; cbn in H.
    + apply ret_Ok in H as [-> ->]. split; [done|]. split; [done|]. split; [done|]. split; [done|]. split; [done|by apply Hon].
    + apply run_paths_Ok in H as (b & Hu & ->). cbn [fst]. assert (Hk : TrimSpace (pa_ID dp) = pa_ID dp) by (by destruct (wk_paths _ Hw1 _ _ Hdp)).
      destruct (UpdatePath_Ok _ _ _ _ _ _ Hk Hu) as (Hp' & -> & _).
      assert (Hpe : pa_EndpointID p = ep_ID e) by (rewrite Hp'; exact Hie). assert (Hpi : pa_ID p = pa_ID dp) by (rewrite Hp'; exact Hk).
      assert (Hrow : is_direct p = true /\ up_to_date proxy index host p = true) by (by apply (direct_row _ _ _ (ep_ID e)); rewrite ?Hp').
      destruct Hrow as [Hd Hup]. rewrite set_rows_rows. split; [|split].
      * apply well_keyed_direct; [done|done|done|done|]. intros k' p'' Hp'' D E. eapply (wk_direct _ Hw1); [done|exact Hdp|done|done|congruence].
      * transitivity s1.1; [done|]. apply reshaped_path; intros q Hq; [rewrite Hdp in Hq|]; injection Hq as <-.
        -- split; [done|by apply Hon].
        -- split; [by unfold is_direct in Hd; destruct (pa_Managed p)|by apply Hon].
      * split; [cbn; by rewrite Hpi, lookup_insert_eq|]. split; [done|]. split; [done|by apply Hon].
  - apply bind_Ok in H as (d & s2 & [-> ->]%draws_Ok & H). apply run_paths_Ok in H as (b & Hu & ->). cbn [fst snd] in *.
    destruct (CreatePath_Ok _ _ _ _ _ (Hpl s1.2) Hu) as (Hp' & -> & Hnone).
    assert (Hpe : pa_EndpointID p = ep_ID e) by (rewrite Hp'; exact Hie). assert (Hpi : pa_ID p = dr_id (oracle s1.2)) by (by rewrite Hp').
    assert (Hrow : is_direct p = true /\ up_to_date proxy index host p = true) by (by apply (direct_row _ _ _ (ep_ID e)); rewrite ?Hp').
    destruct Hrow as [Hd Hup]. rewrite set_rows_rows. split; [|split].
    + apply well_keyed_direct; [done|done|apply Hpl|done|]. intros k' p'' Hp'' D E. exfalso.
      pose proof (List.find_none _ _ Ef p'') as Hno. rewrite D in Hno. discriminate Hno. apply list_elem_of_In, (paths_of_endpoint _ _ _ Hw1).
      destruct (wk_paths _ Hw1 _ _ Hp'') as [-> _]. split; [done|congruence].
    + transitivity s1.1; [done|]. apply reshaped_path; intros q Hq; [congruence|injection Hq as <-].
      split; [by unfold is_direct in Hd; destruct (pa_Managed p)|by apply Hon].
    + split; [cbn; by rewrite Hpi, lookup_insert_eq|]. split; [done|]. split; [done|by apply Hon].
Qed.

(** ** Paths that are stopped *)
Record stopped (x : string) (H : string -> Prop) (w w' : fleet) : Prop := {
  st_rest : w' = set_rows w (with_paths (fl_rows w) (paths (fl_rows w')));
  st_paths : forall k, paths (fl_rows w') !! k = paths (fl_rows w) !! k \/
    exists p, paths (fl_rows w) !! k = Some p /\ pa_Managed p = true /\ on_host (fl_rows w) x H p /\
      paths (fl_rows w') !! k = Some (with_enabled p false)
}.
Lemma stopped_endpoints x H w w' : stopped x H w w' -> endpoints (fl_rows w') = endpoints (fl_rows w).
Proof. intros Hs. by rewrite (st_rest _ _ _ _ Hs). Qed.
#[export] Instance stopped_preorder x H : PreOrder (stopped x H).
Proof.
  split.
  - intros w. split; [|by left]. by destruct w as [[[[] ? ? ? ? ? ? ?] ? ? ?] ? ?].
  - intros w1 w2 w3 S1 S2. split.
    + rewrite (st_rest _ _ _ _ S2) at 1. rewrite (st_rest _ _ _ _ S1) at 1 2. done.
    + intros k. destruct (st_paths _ _ _ _ S2 k) as [E2|(p2 & Hp2 & Hm2 & Ho2 & E2)], (st_paths _ _ _ _ S1 k) as [E1|(p1 & Hp1 & Hm1 & Ho1 & E1)].
      * left. congruence.
      * right. exists p1. by rewrite E2.
      * right. exists p2. rewrite <- E1. split; [done|]. split; [done|]. split; [|done]. destruct Ho2 as (e & He & Hx). exists e.
        by rewrite <- (stopped_endpoints _ _ _ _ S1).
      * right. exists p1. rewrite E1 in Hp2. injection Hp2 as <-. done.
Qed.
Lemma stopped_reshaped x H w w' : stopped x H w w' -> reshaped x H w w'.
Proof.
  intros Hs. pose proof (stopped_endpoints _ _ _ _ Hs) as He. split.
  - rewrite (st_rest _ _ _ _ Hs) at 1. by rewrite (st_rest _ _ _ _ Hs).
  - rewrite (st_rest _ _ _ _ Hs). auto 10.
  - by rewrite He.
  - rewrite He. by left.
  - intros k. destruct (st_paths _ _ _ _ Hs k) as [?|(p & Hp & Hm & Ho & Hp')]; [by left|right]. unfold on_host in Ho. rewrite <- He in Ho.
    rewrite Hp, Hp'. split; intros q [= <-]; (split; [done|]); exact Ho.
  - intros k Hk. destruct (st_paths _ _ _ _ Hs k) as [->|(p & _ & _ & _ & ->)]; [done|by eexists].
Qed.
Lemma stopped_keyed x H w w' : stopped x H w w' -> well_keyed (fl_rows w) -> well_keyed (fl_rows w').
Proof.
  intros Hs Hw. rewrite (st_rest _ _ _ _ Hs), set_rows_rows.
  assert (Hback : forall k p', paths (fl_rows w') !! k = Some p' -> exists p, paths (fl_rows w) !! k = Some p /\ pa_ID p' = pa_ID p /\
    is_direct p' = is_direct p /\ pa_EndpointID p' = pa_EndpointID p).
  { intros k p' Hp'. destruct (st_paths _ _ _ _ Hs k) as [E|(p & Hp & _ & _ & E)]; rewrite E in Hp'; [by exists p'|]. injection Hp' as <-. by exists p. }
  apply well_keyed_paths; [done| |].
  - intros k p' (p & Hp & -> & _ & _)%Hback. by apply (wk_paths _ Hw).
  - intros k1 k2 p1 p2 (q1 & H1 & _ & -> & ->)%Hback (q2 & H2 & _ & -> & ->)%Hback. by eapply (wk_direct _ Hw).
Qed.
(** Nothing is enabled. *)
Lemma stopped_enabled x H w w' k p : stopped x H w w' -> paths (fl_rows w') !! k = Some p -> pa_Enabled p = true -> paths (fl_rows w) !! k = Some p.
Proof. intros Hs Hp Hen. destruct (st_paths _ _ _ _ Hs k) as [E|(q & _ & _ & _ & E)]; [by rewrite <- E|]. rewrite E in Hp. injection Hp as <-. done. Qed.
Lemma stopped_off x H w w' k p : stopped x H w w' -> paths (fl_rows w) !! k = Some p -> pa_Enabled p = false ->
  exists p', paths (fl_rows w') !! k = Some p' /\ pa_Enabled p' = false.
Proof. intros Hs Hp Hoff. destruct (st_paths _ _ _ _ Hs k) as [E|(q & _ & _ & _ & E)]; rewrite E; [by exists p|by eexists]. Qed.
Lemma disable_path_spec x H p s u s' : well_keyed (fl_rows s.1) -> on_host (fl_rows s.1) x H p -> pa_EndpointID <$> paths (fl_rows s.1) !! pa_ID p = Some (pa_EndpointID p) ->
  pa_Managed <$> paths (fl_rows s.1) !! pa_ID p = Some (pa_Managed p) -> disable_path p s = (Ok u, s') ->
  stopped x H s.1 s'.1 /\ s'.2 = s.2 /\
  (pa_Managed p = true -> (pa_Enabled p = true \/ (pa_Enabled <$> paths (fl_rows s.1) !! pa_ID p = Some false)) ->
   pa_Enabled <$> paths (fl_rows s'.1) !! pa_ID p = Some false).
Proof.
  intros Hw Ho He Hm H0. unfold disable_path in H0. destruct (pa_Managed p) eqn:Em; cbn in H0.
  2: { apply ret_Ok in H0 as [_ ->]. split; [reflexivity|]. by split. }
  destruct (pa_Enabled p) eqn:Ee; cbn in H0.
  2: { apply ret_Ok in H0 as [_ ->]. split; [reflexivity|]. split; [done|]. intros _ [?|?]; done. }
  apply run_paths_Ok in H0 as (b & Hb & ->). cbn [fst snd]. unfold setPathEnabledUnchecked in Hb.
  destruct (paths (fl_rows s.1) !! pa_ID p) as [q|] eqn:Eq; [|done]. destruct (wk_paths _ Hw _ _ Eq) as [_ Hk]. rewrite Hk, Eq in Hb. injection Hb as <-.
  cbn in He, Hm. injection He as He. injection Hm as Hm. split; [|split; [done|]].
  - split; [done|]. intros k. cbn. destruct (decide (k = pa_ID p)) as [->|Hne]; [right|left; by rewrite lookup_insert_ne].
    exists q. rewrite lookup_insert_eq. split; [done|]. split; [done|]. split; [|done]. unfold on_host. by rewrite He.
  - intros _ _. cbn. by rewrite lookup_insert_eq.
Qed.
Definition row_of (b : Paths.tables) (p : Path) : Prop := paths b !! pa_ID p = Some p \/ paths b !! pa_ID p = Some (with_enabled p false).
Lemma row_of_stopped x H w w' p : stopped x H w w' -> row_of (fl_rows w) p -> row_of (fl_rows w') p.
Proof.
  intros Hs [E|E]; (destruct (st_paths _ _ _ _ Hs (pa_ID p)) as [E'|(q & Hq & _ & _ & E')]; [rewrite <- E' in E|rewrite E in Hq; injection Hq as <-]).
  - by left.
  - by right.
  - by right.
  - by right.
Qed.
Lemma disable_each x H l : forall s u s', well_keyed (fl_rows s.1) -> (forall p, p ∈ l -> on_host (fl_rows s.1) x H p /\ row_of (fl_rows s.1) p) ->
  for_each disable_path l s = (Ok u, s') ->
  stopped x H s.1 s'.1 /\ s'.2 = s.2 /\ (forall p, p ∈ l -> pa_Managed p = true -> pa_Enabled <$> paths (fl_rows s'.1) !! pa_ID p = Some false).
Proof.
  induction l as [|p l IH]; intros s u s' Hw Hl H0; cbn [for_each] in H0.
  - apply ret_Ok in H0 as [_ ->]. split; [reflexivity|]. split; [done|]. by intros p Hp%elem_of_nil.
  - apply bind_Ok in H0 as ([] & s1 & H1 & H0). destruct (Hl p) as [Ho Hrow]; [by left|].
    destruct (disable_path_spec x H _ _ _ _ Hw Ho (ltac:(by destruct Hrow as [-> | ->])) (ltac:(by destruct Hrow as [-> | ->])) H1) as (S1 & N1 & D1).
    assert (Hl1 : forall q, q ∈ l -> on_host (fl_rows s1.1) x H q /\ row_of (fl_rows s1.1) q).
    { intros q Hq. destruct (Hl q) as [Hqo Hqr]; [by right|]. split; [|by eapply row_of_stopped].
      unfold on_host. by rewrite (stopped_endpoints _ _ _ _ S1). }
    destruct (IH s1 u s' (stopped_keyed _ _ _ _ S1 Hw) Hl1 H0) as (S2 & N2 & D2). split; [by transitivity s1.1|]. split; [congruence|].
    intros q [->|Hq]%elem_of_cons Hm; [|by apply D2].
    assert (Hoff : pa_Enabled <$> paths (fl_rows s1.1) !! pa_ID p = Some false).
    { apply D1; [done|]. destruct (pa_Enabled p) eqn:Een; [by left|right]. destruct Hrow as [-> | ->]; cbn; by rewrite ?Een. }
    destruct (paths (fl_rows s1.1) !! pa_ID p) as [q|] eqn:Eq; [|done]. injection Hoff as Hoff.
    destruct (stopped_off _ _ _ _ _ _ S2 Eq Hoff) as (q' & -> & Hq'). cbn. by rewrite Hq'.
Qed.
(** The endpoints on hosts that are not selected. *)
Lemma retire_unselected_spec x sel e s u s' : well_keyed (fl_rows s.1) -> endpoints (fl_rows s.1) !! ep_ID e = Some e -> ep_ProxyID e = x ->
  retire_unselected sel e s = (Ok u, s') ->
  stopped x (fun h => h ∉ sel) s.1 s'.1 /\ s'.2 = s.2 /\
  (forall k p, ep_HostID e ∉ sel -> paths (fl_rows s'.1) !! k = Some p -> pa_EndpointID p = ep_ID e -> pa_Managed p = true -> pa_Enabled p = false).
Proof.
  intros Hw He Hx H. unfold retire_unselected in H. destruct (bool_decide (ep_HostID e ∈ sel)) eqn:Eb.
  { apply ret_Ok in H as [_ ->]. apply bool_decide_eq_true in Eb. split; [reflexivity|]. by split. }
  apply bool_decide_eq_false in Eb. apply bind_Ok in H as (w & s1 & [-> ->]%current_Ok & H).
  assert (Hl : forall p, p ∈ ListPathsByEndpointID (fl_rows s.1) (ep_ID e) -> on_host (fl_rows s.1) x (fun h => h ∉ sel) p /\ row_of (fl_rows s.1) p).
  { intros p Hp. apply (paths_of_endpoint _ _ _ Hw) in Hp as [Hp Hpe]. split; [exists e; by rewrite Hpe|by left]. }
  destruct (disable_each x (fun h => h ∉ sel) _ _ _ _ Hw Hl H) as (S1 & N1 & D1). split; [done|]. split; [done|].
  intros k p _ Hp Hpe Hm. destruct (pa_Enabled p) eqn:Een; [|done]. pose proof (stopped_enabled _ _ _ _ _ _ S1 Hp Een) as Hp0.
  destruct (wk_paths _ Hw _ _ Hp0) as [Hid _]. pose proof (D1 p) as D. rewrite Hid, Hp in D. cbn in D. rewrite Een in D.
  enough (Some true = Some false) by done. apply D; [|done]. apply (paths_of_endpoint _ _ _ Hw). by rewrite Hid.
Qed.
Lemma retire_all_spec x sel l : forall s u s', well_keyed (fl_rows s.1) -> (forall e, e ∈ l -> endpoints (fl_rows s.1) !! ep_ID e = Some e /\ ep_ProxyID e = x) ->
  for_each (retire_unselected sel) l s = (Ok u, s') ->
  stopped x (fun h => h ∉ sel) s.1 s'.1 /\ s'.2 = s.2 /\
  (forall e k p, e ∈ l -> ep_HostID e ∉ sel -> paths (fl_rows s'.1) !! k = Some p -> pa_EndpointID p = ep_ID e -> pa_Managed p = true -> pa_Enabled p = false).
Proof.
  induction l as [|e l IH]; intros s u s' Hw Hl H; cbn [for_each] in H.
  - apply ret_Ok in H as [_ ->]. split; [reflexivity|]. split; [done|]. by intros e k p He%elem_of_nil.
  - apply bind_Ok in H as ([] & s1 & H1 & H). destruct (Hl e) as [He Hx]; [by left|].
    destruct (retire_unselected_spec _ _ _ _ _ _ Hw He Hx H1) as (S1 & N1 & D1).
    destruct (IH s1 u s' (stopped_keyed _ _ _ _ S1 Hw)) as (S2 & N2 & D2); [|done|].
    { intros q Hq. rewrite (stopped_endpoints _ _ _ _ S1). apply Hl. by right. }
    split; [by transitivity s1.1|]. split; [congruence|]. intros q k p [->|Hq]%elem_of_cons Hns Hp Hpe Hm; [|by eapply D2].
    destruct (pa_Enabled p) eqn:Een; [|done]. rewrite <- Een. eapply D1; [done|by eapply stopped_enabled|done|done].
Qed.

(** ** All the hosts of the node *)
Fixpoint selected_hosts (index : nat) (hosts : list NodeHost) : list (nat * NodeHost) :=
  match hosts with
  | [] => []
  | host :: hosts => if nh_Selected host then (index, host) :: selected_hosts (S index) hosts else selected_hosts (S index) hosts
  end.
Lemma selected_hosts_in index hosts ih : ih ∈ selected_hosts index hosts -> ih.2 ∈ hosts /\ nh_Selected ih.2 = true.
Proof.
  revert index. induction hosts as [|h hosts IH]; intros index; cbn [selected_hosts]; [by intros ?%elem_of_nil|].
  destruct (nh_Selected h) eqn:E; [intros [->|Hin]%elem_of_cons|intros Hin]; [split; [by left|done]|..]; destruct (IH _ Hin); (split; [by right|done]).
Qed.
Lemma selected_hosts_ids index hosts : map (fun ih => nh_ID ih.2) (selected_hosts index hosts) = map nh_ID (List.filter nh_Selected hosts).
Proof. revert index. induction hosts as [|h hosts IH]; intros index; cbn; [done|]. destruct (nh_Selected h); cbn; by rewrite IH. Qed.
Lemma published_along proxy index host p H w w' : published (fl_rows w) proxy index host p -> reshaped (px_ID proxy) H w w' -> ~ H (nh_ID host) ->
  published (fl_rows w') proxy index host p.
Proof.
  intros (Hp & Hd & Hup & e & He & Hx & Hh) Hr Hn. pose proof (rs_kept _ _ _ _ Hr _ _ He) as He'. destruct (rs_paths _ _ _ _ Hr (pa_ID p)) as [E|[Ho _]].
  - split; [congruence|]. split; [done|]. split; [done|]. by exists e.
  - exfalso. apply Hn. destruct (Ho p Hp) as [_ (e' & He2 & _ & Hh')]. rewrite He' in He2. injection He2 as <-. by rewrite Hh.
Qed.
Lemma GetProxyByID_same w w' x H i p : reshaped x H w w' -> GetProxyByID (fl_rows w) i = Ok p -> GetProxyByID (fl_rows w') i = Ok p.
Proof. intros Hr. by rewrite (proj1 (reshaped_lookups _ _ _ _ Hr) i). Qed.
Lemma ensure_hosts_spec oracle proxy : plain_ids oracle -> forall hosts index s l s',
  Forall (fun ih => plain_names proxy ih.2) (selected_hosts index hosts) -> NoDup (map (fun ih => nh_ID ih.2) (selected_hosts index hosts)) ->
  well_keyed (fl_rows s.1) -> GetProxyByID (fl_rows s.1) (px_ID proxy) = Ok proxy -> ensure_hosts oracle proxy index hosts s = (Ok l, s') ->
  well_keyed (fl_rows s'.1) /\ reshaped (px_ID proxy) (fun h => h ∈ map (fun ih => nh_ID ih.2) (selected_hosts index hosts)) s.1 s'.1 /\
  Forall2 (fun ih p => published (fl_rows s'.1) proxy ih.1 ih.2 p) (selected_hosts index hosts) l.
Proof.
  intros Hpl. induction hosts as [|host hosts IH]; intros index s l s'; cbn [ensure_hosts selected_hosts].
  - intros _ _ Hw _ H. apply ret_Ok in H as [-> ->]. split; [done|]. split; [reflexivity|constructor].
  - destruct (nh_Selected host) eqn:Esel; cbn [negb map]; [|apply IH]. intros Hnm Hnd Hw Hp H.
    apply Forall_cons in Hnm as [Hnm1 Hnm]. apply NoDup_cons in Hnd as [Hnin Hnd].
    apply bind_Ok in H as (p & s1 & H1 & H). apply bind_Ok in H as (rest & s2 & H2 & H). apply ret_Ok in H as [-> ->].
    destruct (ensure_direct_spec _ _ _ _ _ _ _ Hpl Hnm1 Hw Hp H1) as (Hw1 & R1 & P1).
    destruct (IH _ _ _ _ Hnm Hnd Hw1 (GetProxyByID_same _ _ _ _ _ _ R1 Hp) H2) as (Hw2 & R2 & P2). split; [done|]. split.
    + transitivity s1.1; (eapply reshaped_mono; [|done]); [intros ? <-; by left|intros h Hh; by right].
    + constructor; [|done]. by eapply published_along.
Qed.
Lemma GetProxyByID_id b i p : GetProxyByID b i = Ok p -> px_ID p = TrimSpace i /\ GetProxyByID b (px_ID p) = Ok p.
Proof.
  unfold GetProxyByID. destruct (live_proxy b (TrimSpace i)) as [q|] eqn:E; [|done]. intros [= <-].
  assert (Hid : px_ID q = TrimSpace i).
  { unfold live_proxy in E. destruct (proxies b !! TrimSpace i) as [r|]; [|done]. cbn in E. destruct (nodes b !! pr_NodeID r) as [n|]; [|done].
    cbn in E. destruct (pr_DeletedAt r), (no_DeletedAt n); try done. by injection E as <-. }
  split; [done|]. by rewrite Hid, TrimSpace_idem, E.
Qed.
Lemma endpoints_of_proxy b x e : well_keyed b -> e ∈ ListEndpointsByProxyID b x <-> endpoints b !! ep_ID e = Some e /\ ep_ProxyID e = x.
Proof.
  intros Hw. unfold ListEndpointsByProxyID. rewrite list_elem_of_In, filter_In, <- list_elem_of_In, list_elem_of_fmap, String.eqb_eq. split.
  - intros [([k e'] & -> & Hin%elem_of_map_to_list) Hx]. cbn in *. by destruct (wk_endpoints _ Hw _ _ Hin) as [-> _].
  - intros [He Hx]. split; [|done]. exists (ep_ID e, e). split; [done|]. by apply elem_of_map_to_list.
Qed.
Record publishable (w : fleet) (proxyID : string) (proxy : Proxy) (node : Node) : Prop := {
  pb_keys : well_keyed (fl_rows w);
  pb_proxy : GetProxyByID (fl_rows w) proxyID = Ok proxy;
  pb_node : GetNode (fl_rows w) (px_NodeName proxy) = Ok node;
  pb_names : Forall (fun ih => plain_names proxy ih.2) (selected_hosts 0 (no_Hosts node));
  pb_hosts : NoDup (map nh_ID (no_Hosts node))
}.
Lemma pb_selected w x proxy node : publishable w x proxy node -> NoDup (map (fun ih => nh_ID ih.2) (selected_hosts 0 (no_Hosts node))).
Proof.
  intros Hp. rewrite selected_hosts_ids. pose proof (pb_hosts _ _ _ _ Hp) as H. induction (no_Hosts node) as [|h l IH]; [constructor|].
  cbn in *. apply NoDup_cons in H as [Hn H]. destruct (nh_Selected h); [|by apply IH]. cbn. apply NoDup_cons. split; [|by apply IH].
  intros (h' & E & Hin)%list_elem_of_fmap. apply Hn. rewrite E. apply list_elem_of_fmap_2. apply list_elem_of_In, filter_In in Hin as [Hin _]. by apply list_elem_of_In.
Qed.
Definition only_on_selected (b : Paths.tables) (proxy : Proxy) (node : Node) : Prop :=
  forall k p e, paths b !! k = Some p -> pa_Managed p = true -> pa_Enabled p = true -> endpoints b !! pa_EndpointID p = Some e ->
    ep_ProxyID e = px_ID proxy -> exists host, host ∈ no_Hosts node /\ nh_ID host = ep_HostID e /\ nh_Selected host = true.
Lemma selected_ids_spec node h : h ∈ selected_ids node <-> exists host, host ∈ no_Hosts node /\ nh_ID host = h /\ nh_Selected host = true.
Proof.
  unfold selected_ids. rewrite elem_of_list_to_set, list_elem_of_fmap. split.
  - intros (host & -> & Hin). apply list_elem_of_In, filter_In in Hin as [Hin Hs]. exists host. by rewrite list_elem_of_In.
  - intros (host & Hin & <- & Hs). exists host. split; [done|]. apply list_elem_of_In, filter_In. by rewrite <- list_elem_of_In.
Qed.
Lemma ensure_direct_paths_spec oracle proxyID proxy node s l s' : plain_ids oracle -> publishable s.1 proxyID proxy node ->
  EnsureDirectPathsForProxy oracle proxyID s = (Ok l, s') ->
  publishable s'.1 proxyID proxy node /\ only_on_selected (fl_rows s'.1) proxy node /\
  Forall2 (fun ih p => published (fl_rows s'.1) proxy ih.1 ih.2 p) (selected_hosts 0 (no_Hosts node)) l /\
  reshaped (px_ID proxy) (fun _ => True) s.1 s'.1.
Proof.
  intros Hpl [Hw Hp Hn Hnm Hnd] H. pose proof (pb_selected _ _ _ _ (Build_publishable _ _ _ _ Hw Hp Hn Hnm Hnd)) as Hnd'.
  unfold EnsureDirectPathsForProxy in H. apply bind_Ok in H as (q & s1 & [Hq ->]%look_Ok & H). rewrite Hp in Hq. injection Hq as <-.
  apply bind_Ok in H as (n & s1 & [Hn' ->]%look_Ok & H). rewrite Hn in Hn'. injection Hn' as <-.
  apply bind_Ok in H as (w & s1 & [-> ->]%current_Ok & H). apply bind_Ok in H as ([] & s1 & H1 & H).
  destruct (retire_all_spec (px_ID proxy) (selected_ids node) _ _ _ _ Hw (fun e He => proj1 (endpoints_of_proxy _ _ _ Hw) He) H1) as (S1 & _ & D1).
  pose proof (stopped_reshaped _ _ _ _ S1) as R1. destruct (GetProxyByID_id _ _ _ Hp) as [_ Hp'].
  destruct (ensure_hosts_spec _ _ Hpl _ _ _ _ _ Hnm Hnd' (stopped_keyed _ _ _ _ S1 Hw) (GetProxyByID_same _ _ _ _ _ _ R1 Hp') H) as (Hw2 & R2 & P2).
  assert (R : reshaped (px_ID proxy) (fun _ => True) s.1 s'.1).
  { transitivity s1.1; (eapply reshaped_mono; [|done]); done. }
  destruct (reshaped_lookups _ _ _ _ R) as [L1 L2]. split; [split; [done|by rewrite L1|by rewrite L2|done|done]|]. split; [|done].
  intros k p e Hk Hm Hen He Hx. apply selected_ids_spec. assert (Hsel : forall h, h ∈ map (fun ih => nh_ID ih.2) (selected_hosts 0 (no_Hosts node)) -> h ∈ selected_ids node).
  { intros h. rewrite selected_hosts_ids. unfold selected_ids. by rewrite elem_of_list_to_set. }
  destruct (rs_new _ _ _ _ R2 _ _ He) as [He1|[_ Hh]]; [|by apply Hsel].
  destruct (rs_paths _ _ _ _ R2 k) as [E|[_ Ho]].
  - destruct (decide (ep_HostID e ∈ selected_ids node)) as [|Hns]; [done|]. rewrite Hk in E. symmetry in E. exfalso.
    rewrite (stopped_endpoints _ _ _ _ S1) in He1. destruct (wk_endpoints _ Hw _ _ He1) as [Hid _].
    assert (Hoff : pa_Enabled p = false); [|congruence]. eapply (D1 e); [|done|exact E|done|done].
    apply (endpoints_of_proxy _ _ _ Hw). by rewrite Hid.
  - destruct (Ho p Hk) as [_ (e' & He' & _ & Hh)]. rewrite He in He'. injection He' as <-. by apply Hsel.
Qed.

(** ** A second run *)
Lemma for_each_noop {A} (f : A -> F unit) l s : (forall x, x ∈ l -> f x s = (Ok tt, s)) -> for_each f l s = (Ok tt, s).
Proof.
  induction l as [|x l IH]; intros Hl; cbn [for_each]; [done|]. unfold mbind, eff_bind. rewrite Hl by (by left). apply IH. intros y Hy. apply Hl. by right.
Qed.
Lemma find_host_found hosts h : NoDup (map nh_ID hosts) -> h ∈ hosts -> nh_Selected h = true -> TrimSpace (nh_ID h) = nh_ID h ->
  find_host hosts (nh_ID h) = Ok h.
Proof.
  intros Hnd Hin Hsel Htr. induction hosts as [|g hosts IH]; [by apply elem_of_nil in Hin|]. cbn in *. apply NoDup_cons in Hnd as [Hn Hnd].
  rewrite Htr. apply elem_of_cons in Hin as [->|Hin].
  - by rewrite String.eqb_refl, Hsel.
  - destruct (nh_ID g =? nh_ID h)%string eqn:E; [|by apply IH]. apply String.eqb_eq in E. exfalso. apply Hn. rewrite E. by apply list_elem_of_fmap_2.
Qed.
Lemma find_unique {A} (f : A -> bool) l x : x ∈ l -> f x = true -> (forall y, y ∈ l -> f y = true -> y = x) -> List.find f l = Some x.
Proof.
  intros Hin Hx Hu. destruct (List.find f l) as [y|] eqn:E.
  - apply List.find_some in E as [Hy Hf]. f_equal. apply Hu; [by apply list_elem_of_In|done].
  - apply list_elem_of_In in Hin. pose proof (List.find_none _ _ E x Hin). congruence.
Qed.
Lemma ensure_direct_again oracle proxyID proxy node index host p s : publishable s.1 proxyID proxy node ->
  host ∈ no_Hosts node -> nh_Selected host = true -> plain_names proxy host -> published (fl_rows s.1) proxy index host p ->
  ensure_direct oracle proxy index host s = (Ok p, s).
Proof.
  intros [Hw Hp Hn _ Hnd] Hin Hsel (Hid & _) (Hpp & Hdir & Hup & e & He & Hx & Hh). destruct (wk_endpoints _ Hw _ _ He) as [Hei _].
  destruct (GetProxyByID_id _ _ _ Hp) as [_ Hp']. unfold ensure_direct, EnsureEndpoint.
  assert (Hv : validateEndpointPair (fl_rows s.1) (px_ID proxy) (nh_ID host) = Ok (proxy, host)).
  { unfold validateEndpointPair. by rewrite Hp', Hn, find_host_found. }
  unfold mbind, eff_bind, look, current, mret, eff_ret. rewrite Hv. cbn [fst snd].
  rewrite <- Hx, Hh, (by_proxy_host_found _ _ _ Hw He). cbn [fst snd].
  rewrite (find_unique is_direct _ p); [|by apply (paths_of_endpoint _ _ _ Hw)|done|].
  - rewrite Hup. cbn. by rewrite andb_false_r.
  - intros q Hq Hqd. apply (paths_of_endpoint _ _ _ Hw) in Hq as [Hq Hqe].
    assert (E : pa_ID q = pa_ID p) by (eapply (wk_direct _ Hw); [exact Hq|exact Hpp|done|done|congruence]). rewrite E in Hq. congruence.
Qed.
Lemma ensure_hosts_again oracle proxyID proxy node s : publishable s.1 proxyID proxy node -> forall hosts index l,
  (forall h, h ∈ hosts -> h ∈ no_Hosts node) -> Forall (fun ih => plain_names proxy ih.2) (selected_hosts index hosts) ->
  Forall2 (fun ih p => published (fl_rows s.1) proxy ih.1 ih.2 p) (selected_hosts index hosts) l ->
  ensure_hosts oracle proxy index hosts s = (Ok l, s).
Proof.
  intros Hpb. induction hosts as [|host hosts IH]; intros index l Hin Hnm HF; cbn [ensure_hosts selected_hosts] in *.
  - apply Forall2_nil_inv_l in HF as ->. done.
  - destruct (nh_Selected host) eqn:Esel; cbn [negb]; [|apply IH; [|done|done]; intros h Hh; apply Hin; by right].
    apply Forall_cons in Hnm as [Hnm1 Hnm]. apply Forall2_cons_inv_l in HF as (p & rest & Hpp & HF & ->). cbn [fst snd] in *.
    unfold mbind, eff_bind. rewrite (ensure_direct_again _ _ _ _ _ _ _ _ Hpb (Hin _ (list_elem_of_here _ _)) Esel Hnm1 Hpp).
    rewrite (IH _ rest); [done| |done|done]. intros h Hh. apply Hin. by right.
Qed.

(** What the path of the [index]th host of a node is. *)
Record follows_host (b : Paths.tables) (proxy : Proxy) (index : nat) (host : NodeHost) (p : Path) : Prop := {
  fh_row : paths b !! pa_ID p = Some p;
  fh_enabled : pa_Enabled p = true;
  fh_managed : pa_Managed p = true;
  fh_undialled : pa_DialerPathID p = None;
  fh_order : pa_SortOrder p = Z.of_nat index;
  fh_endpoint : exists e, endpoints b !! pa_EndpointID p = Some e /\ ep_ProxyID e = px_ID proxy /\ ep_HostID e = nh_ID host;
  fh_tagged : nh_Tag host <> ""%string -> pa_Name p = nh_Tag host /\ pa_DisplayName p = (px_Name proxy ++ "-" ++ nh_Tag host)%string;
  fh_first : nh_Tag host = ""%string -> index = O -> pa_Name p = "direct"%string /\ pa_DisplayName p = px_Name proxy;
  fh_later : nh_Tag host = ""%string -> index <> O -> pa_Name p = "direct"%string /\ pa_DisplayName p = (px_Name proxy ++ "-" ++ nh_Host host)%string
}.
Lemma published_follows b proxy index host p : published b proxy index host p -> follows_host b proxy index host p.
Proof.
  intros (Hp & Hd & Hup & e & He & Hx & Hh). unfold is_direct in Hd. unfold up_to_date in Hup. rewrite !andb_true_iff, !String.eqb_eq, Z.eqb_eq in Hup.
  destruct Hup as [[[Hn Hl] Ho] Hen]. apply andb_true_iff in Hd as [Hm Hd]. unfold direct_names in Hn, Hl.
  split; [done|done|done|by destruct (pa_DialerPathID p)|done|by exists e|..].
  - intros Ht%String.eqb_neq. rewrite Ht in Hn, Hl. by split.
  - intros Ht ->. rewrite Ht in Hn, Hl. by split.
  - intros Ht Hi. rewrite Ht in Hn, Hl. cbn [negb String.eqb] in Hn, Hl. destruct index as [|index]; [done|]. by split.
Qed.

(** C10: direct publication follows the hosts of the node: when
    EnsureDirectPathsForProxy succeeds, each selected host, and no other, has its
    path in the answer: enabled, managed, dialled directly, on the endpoint of the
    proxy and the host, sorted by the position of the host, called by its tag (or
    "direct") and labelled with the proxy's name and the tag (or, past the first
    host, the address).  No managed path of the proxy is enabled on a host that is
    not selected, nothing but managed paths and new endpoints of this proxy has
    changed, and running it again changes nothing and returns the same paths. *)
Theorem direct_paths_follow_hosts oracle proxyID proxy node s l s' : plain_ids oracle -> publishable s.1 proxyID proxy node ->
  EnsureDirectPathsForProxy oracle proxyID s = (Ok l, s') ->
  Forall2 (fun ih p => follows_host (fl_rows s'.1) proxy ih.1 ih.2 p) (selected_hosts 0 (no_Hosts node)) l /\
  only_on_selected (fl_rows s'.1) proxy node /\
  reshaped (px_ID proxy) (fun _ => True) s.1 s'.1 /\
  forall n, EnsureDirectPathsForProxy oracle proxyID (s'.1, n) = (Ok l, (s'.1, n)).
Proof.
  intros Hpl Hpb H. destruct (ensure_direct_paths_spec _ _ _ _ _ _ _ Hpl Hpb H) as (Hpb' & Hon & HF & R).
  split; [eapply Forall2_impl; [exact HF|]; intros ih p; apply published_follows|]. split; [done|]. split; [done|].
  intros n. pose proof Hpb' as [Hw Hp Hn Hnm Hnd]. unfold EnsureDirectPathsForProxy. unfold mbind at 1, eff_bind at 1, look at 1. cbn [fst snd]. rewrite Hp.
  unfold mbind at 1, eff_bind at 1, look at 1. cbn [fst snd]. rewrite Hn. unfold mbind at 1, eff_bind at 1, current at 1. cbn [fst snd].
  unfold mbind at 1, eff_bind at 1. rewrite for_each_noop.
  - apply (ensure_hosts_again _ proxyID _ node (s'.1, n)); done.
  - intros e He. apply (endpoints_of_proxy _ _ _ Hw) in He as [He Hx]. unfold retire_unselected.
    destruct (bool_decide (ep_HostID e ∈ selected_ids node)) eqn:Eb; [done|]. apply bool_decide_eq_false in Eb.
    unfold mbind, eff_bind, current. cbn [fst snd]. apply for_each_noop. intros p Hp'. apply (paths_of_endpoint _ _ _ Hw) in Hp' as [Hp' Hpe].
    unfold disable_path. destruct (pa_Managed p) eqn:Em; [|done]. destruct (pa_Enabled p) eqn:Een; [|done]. exfalso. apply Eb.
    apply selected_ids_spec. eapply Hon; [exact Hp'|done|done|by rewrite Hpe|done].
Qed.

(** ** Host edits and the sources of access *)
Lemma has_managed_grant_true s u x : has_managed_grant s u x = true <-> exists k p e, direct_path_grants s !! (u, k) = Some true /\
  paths (base s) !! k = Some p /\ pa_Managed p = true /\ endpoints (base s) !! pa_EndpointID p = Some e /\ ep_ProxyID e = x.
Proof.
  unfold has_managed_grant. rewrite existsb_exists. split.
  - intros ([[u' k] b] & Hin & H). apply list_elem_of_In, elem_of_map_to_list in Hin. cbn in H. rewrite !andb_true_iff, String.eqb_eq in H.
    destruct H as [[-> ->] H]. destruct (paths (base s) !! k) as [p|] eqn:Ep; [|done]. apply andb_true_iff in H as [Hm H].
    destruct (endpoints (base s) !! pa_EndpointID p) as [e|] eqn:Ee; [|done]. apply String.eqb_eq in H. by exists k, p, e.
  - intros (k & p & e & Hg & Hp & Hm & He & Hx). exists ((u, k), true). split; [by apply list_elem_of_In, elem_of_map_to_list|].
    cbn. by rewrite String.eqb_refl, Hp, Hm, He, Hx, String.eqb_refl.
Qed.
Record ready (w : fleet) : Prop := {
  rd_publishable : forall x proxy, GetProxyByID (fl_rows w) x = Ok proxy -> exists node, publishable w x proxy node;
  rd_keys : well_keyed (fl_rows w);
  rd_endpoints : endpoints_known (fl_rows w);
  rd_proxies : forall k e, endpoints (fl_rows w) !! k = Some e -> TrimSpace (ep_ProxyID e) = ep_ProxyID e;
  rd_grants : forall u k e, direct_path_grants (fl_store w) !! (u, k) = Some e -> is_Some (paths (fl_rows w) !! k);
  rd_users : forall u row, proxy_users (fl_rows w) !! u = Some row -> us_DeletedAt row = None -> us_ID row = u /\ GetProxyUser (fl_rows w) (us_Name row) = Ok row
}.
(** Since [w0] only users with a managed path have got new direct grants. *)
Record no_new_source (w0 w : fleet) : Prop := {
  nn_managed : forall u x, has_managed_grant (fl_store w) u x = true -> has_managed_grant (fl_store w0) u x = true;
  nn_grants : forall u k, direct_path_grants (fl_store w) !! (u, k) = Some true -> direct_path_grants (fl_store w0) !! (u, k) = Some true \/
    exists x, has_managed_grant (fl_store w0) u x = true
}.
#[export] Instance no_new_source_preorder : PreOrder no_new_source.
Proof.
  split; [intros w; split; [done|by left]|]. intros w1 w2 w3 [A1 B1] [A2 B2]. split; [auto|]. intros u k [H|[x H]]%B2; [by apply B1|right].
  exists x. by apply A1.
Qed.
Lemma reshaped_ready x H w w' : TrimSpace x = x -> reshaped x H w w' -> well_keyed (fl_rows w') -> ready w -> ready w' /\ no_new_source w w'.
Proof.
  intros Htr R Hw' [Hpb Hw He Hpt Hg Hu]. destruct (reshaped_lookups _ _ _ _ R) as [L1 L2]. pose proof (rs_tables _ _ _ _ R) as (_ & _ & _ & _ & _ & T6 & _).
  assert (Hd : direct_path_grants (fl_store w') = direct_path_grants (fl_store w)) by (by rewrite (rs_rest _ _ _ _ R)).
  assert (Hend : endpoints_known (fl_rows w')).
  { intros k p Hp. destruct (rs_paths _ _ _ _ R k) as [E|[_ Ho]].
    - rewrite Hp in E. symmetry in E. destruct (He _ _ E) as [e He']. exists e. by apply (rs_kept _ _ _ _ R).
    - destruct (Ho p Hp) as [_ (e & He' & _)]. by exists e. }
  split; [split; [|done|done| | |]|split].
  - intros y proxy. rewrite L1. intros (node & [P1 P2 P3 P4 P5])%Hpb. exists node. split; [done|by rewrite L1|by rewrite L2|done|done].
  - intros k e [Hk|[-> _]]%(rs_new _ _ _ _ R); [by eapply Hpt|done].
  - intros u k e. rewrite Hd. intros Hk%Hg. by apply (rs_dom _ _ _ _ R).
  - intros u row. unfold GetProxyUser, user_by_name. rewrite T6. apply Hu.
  - intros u y (k & p & e & G & Hp & Hm & Hee & Hx)%has_managed_grant_true. rewrite Hd in G. apply has_managed_grant_true.
    destruct (rs_paths _ _ _ _ R k) as [E|[O1 O2]].
    + exists k, p. change (paths (base (fl_store w')) !! k) with (paths (fl_rows w') !! k) in Hp. rewrite E in Hp. destruct (He _ _ Hp) as [e' He'].
      exists e'. split; [done|]. split; [done|]. split; [done|]. split; [done|]. apply (rs_kept _ _ _ _ R) in He'. unfold fl_rows in He'. congruence.
    + destruct (Hg _ _ _ G) as [p0 Hp0]. destruct (O1 p0 Hp0) as [Hm0 (e0 & He0 & Hx0 & _)]. destruct (O2 p Hp) as [_ (e1 & He1 & Hx1 & _)].
      destruct (He _ _ Hp0) as [e2 He2]. exists k, p0, e2. split; [done|]. split; [done|]. split; [done|]. split; [done|].
      apply (rs_kept _ _ _ _ R) in He2. unfold fl_rows in *. congruence.
  - intros u k. rewrite Hd. by left.
Qed.
Lemma GrantPathAccess_Ok oracle un k s u s' : run_grants (GrantPathAccess oracle un k) s = (Ok u, s') ->
  exists user l, GetProxyUser (fl_rows s.1) un = Ok user /\ is_Some (paths (fl_rows s.1) !! k) /\
    s'.1 = set_store s.1 (set_base (set_direct (fl_store s.1) (<[(us_ID user, k) := true]> (direct_path_grants (fl_store s.1)))) (with_accesses (fl_rows s.1) l)).
Proof.
  unfold run_grants. destruct (GrantPathAccess oracle un k (fl_store s.1, s.2)) as [[[]|] s1] eqn:E; [|done]. intros [= _ <-]. cbn [fst].
  unfold GrantPathAccess, grantDirectPath in E. apply atomic_Ok in E. unfold SetDirectPathGrant in E. run E.
  match goal with H : _ && _ = true |- _ => apply andb_true_iff in H as [_ Hp]; apply is_set_true in Hp end.
  match goal with H : GetProxyUser _ un = Ok ?v |- _ => exists v; rename H into Hu end.
  assert (Hl : exists l, s1.1 = set_base (set_direct (fl_store s.1) (<[(us_ID a, k) := true]> (direct_path_grants (fl_store s.1)))) (with_accesses (fl_rows s.1) l)).
  { unfold grantPathAccess, put_accesses in E. run E. destruct (List.find _ _) as [row|]; [destruct (effective row)|]; run E; cbn; try (eexists; reflexivity).
    exists (path_accesses (fl_rows s.1)). by destruct s as [[[[[] ? ? ? ? ? ? ?] ? ? ?] ? ?] ?]. }
  destruct Hl as [l Hl]. exists l. split; [exact Hu|]. split; [exact Hp|]. by rewrite Hl.
Qed.

Lemma ensure_ready oracle x s l s' : plain_ids oracle -> ready s.1 -> EnsureDirectPathsForProxy oracle x s = (Ok l, s') ->
  ready s'.1 /\ no_new_source s.1 s'.1 /\ proxy_users (fl_rows s'.1) = proxy_users (fl_rows s.1) /\
  (forall p, p ∈ l -> paths (fl_rows s'.1) !! pa_ID p = Some p /\ exists e, endpoints (fl_rows s'.1) !! pa_EndpointID p = Some e /\ ep_ProxyID e = TrimSpace x).
Proof.
  intros Hpl Hrd H. assert (Hpx : exists proxy, GetProxyByID (fl_rows s.1) x = Ok proxy).
  { unfold EnsureDirectPathsForProxy in H. apply bind_Ok in H as (q & s1 & [Hq _]%look_Ok & _). by exists q. }
  destruct Hpx as [proxy Hpx]. destruct (rd_publishable _ Hrd _ _ Hpx) as [node Hpb]. destruct (GetProxyByID_id _ _ _ Hpx) as [Hid _].
  destruct (ensure_direct_paths_spec _ _ _ _ _ _ _ Hpl Hpb H) as (Hpb' & _ & HF & R).
  assert (Htr : TrimSpace (px_ID proxy) = px_ID proxy) by (rewrite Hid; apply TrimSpace_idem).
  destruct (reshaped_ready _ _ _ _ Htr R (pb_keys _ _ _ _ Hpb') Hrd) as [Hrd' Hnn]. split; [done|]. split; [done|]. split; [apply (rs_tables _ _ _ _ R)|].
  intros p Hp. apply list_elem_of_lookup in Hp as [i Hi]. destruct (Forall2_lookup_r _ _ _ _ _ HF Hi) as (ih & _ & Hpp & _ & _ & e & He & Hx & _).
  split; [done|]. exists e. by rewrite Hx.
Qed.
Lemma grant_ready oracle w0 u0 x un k s u s' : ready s.1 -> no_new_source w0 s.1 -> has_managed_grant (fl_store w0) u0 x = true ->
  (exists user, GetProxyUser (fl_rows s.1) un = Ok user /\ us_ID user = u0) ->
  (exists p e, paths (fl_rows s.1) !! k = Some p /\ endpoints (fl_rows s.1) !! pa_EndpointID p = Some e /\ ep_ProxyID e = x) ->
  run_grants (GrantPathAccess oracle un k) s = (Ok u, s') ->
  ready s'.1 /\ no_new_source w0 s'.1 /\ paths (fl_rows s'.1) = paths (fl_rows s.1) /\ endpoints (fl_rows s'.1) = endpoints (fl_rows s.1) /\
  proxy_users (fl_rows s'.1) = proxy_users (fl_rows s.1).
Proof.
  intros [Hpb Hw He Hpt Hg Hu] [Hnm Hng] Hm (user & Huser & Hid) (p & e & Hp & Hee & Hx) H.
  destruct (GrantPathAccess_Ok _ _ _ _ _ _ H) as (user' & l & Huser' & Hk & E). rewrite Huser in Huser'. injection Huser' as <-. rewrite Hid in E.
  rewrite E. split; [split|split; [split|done]].
  - intros y proxy Hy. destruct (Hpb y proxy Hy) as [node [P1 P2 P3 P4 P5]]. exists node. split; [by destruct P1|exact P2|exact P3|done|done].
  - by destruct Hw.
  - exact He.
  - exact Hpt.
  - intros v k' b. cbn. destruct (decide ((u0, k) = (v, k'))) as [[= <- <-]|Hne]; [rewrite lookup_insert_eq; intros _; exact Hk|].
    rewrite lookup_insert_ne by done. apply Hg.
  - exact Hu.
  - intros v y (k' & p' & e' & G & Hp' & Hm' & He' & Hy)%has_managed_grant_true. cbn in G.
    change (paths (fl_rows s.1) !! k' = Some p') in Hp'. change (endpoints (fl_rows s.1) !! pa_EndpointID p' = Some e') in He'.
    destruct (decide ((u0, k) = (v, k'))) as [[= <- <-]|Hne].
    + rewrite Hp in Hp'. injection Hp' as <-. rewrite Hee in He'. injection He' as <-. by subst.
    + rewrite lookup_insert_ne in G by done. apply Hnm, has_managed_grant_true. by exists k', p', e'.
  - intros v k'. cbn. destruct (decide ((u0, k) = (v, k'))) as [[= <- <-]|Hne]; [intros _; right; by exists x|].
    rewrite lookup_insert_ne by done. apply Hng.
Qed.
Section sync.
Context (oracle : nat -> draw) (Hpl : plain_ids oracle) (w0 : fleet).
Definition kept (w : fleet) : Prop := ready w /\ no_new_source w0 w /\ proxy_users (fl_rows w) = proxy_users (fl_rows w0).
Lemma ensure_kept x s l s' : kept s.1 -> EnsureDirectPathsForProxy oracle x s = (Ok l, s') -> kept s'.1.
Proof.
  intros (H1 & H2 & H3) H. destruct (ensure_ready _ _ _ _ _ Hpl H1 H) as (R & N & U & _). split; [done|]. split; [by etrans|congruence].
Qed.
Lemma grant_all_kept u0 x un l : has_managed_grant (fl_store w0) u0 x = true -> forall s u s', kept s.1 ->
  (exists user, GetProxyUser (fl_rows w0) un = Ok user /\ us_ID user = u0) ->
  (forall p, p ∈ l -> paths (fl_rows s.1) !! pa_ID p = Some p /\ exists e, endpoints (fl_rows s.1) !! pa_EndpointID p = Some e /\ ep_ProxyID e = x) ->
  for_each (fun p => run_grants (GrantPathAccess oracle un (pa_ID p))) l s = (Ok u, s') -> kept s'.1.
Proof.
  intros Hm. induction l as [|p l IH]; intros s u s' Hk Hu Hl H; cbn [for_each] in H; [by apply ret_Ok in H as [_ ->]|].
  apply bind_Ok in H as ([] & s1 & H1 & H). pose proof Hk as (R & N & U). destruct (Hl p) as (Hp & e & He & Hx); [by left|].
  assert (Hu1 : exists user, GetProxyUser (fl_rows s.1) un = Ok user /\ us_ID user = u0).
  { unfold GetProxyUser, user_by_name in *. by rewrite U. }
  destruct (grant_ready oracle w0 u0 x un (pa_ID p) s _ s1 R N Hm Hu1 (ex_intro _ p (ex_intro _ e (conj Hp (conj He Hx)))) H1) as (R1 & N1 & E1 & E2 & E3).
  eapply (IH s1); [|exact Hu| |exact H].
  - split; [done|]. split; [done|]. congruence.
  - intros q Hq. rewrite E1, E2. apply Hl. by right.
Qed.
Lemma credential_kept x un s u s' : kept s.1 -> TrimSpace x = x -> (exists user, GetProxyUser (fl_rows w0) un = Ok user /\ has_managed_grant (fl_store w0) (us_ID user) x = true) ->
  GrantDirectPathsForCredential oracle x un s = (Ok u, s') -> kept s'.1.
Proof.
  intros Hk Htr (user & Hu & Hm) H. unfold GrantDirectPathsForCredential in H. apply bind_Ok in H as (w & s1 & [-> ->]%current_Ok & H).
  destruct (negb _); [by apply ret_Ok in H as [_ ->]|]. apply bind_Ok in H as (l & s1 & H1 & H). pose proof Hk as (R & _ & _).
  destruct (ensure_ready _ _ _ _ _ Hpl R H1) as (_ & _ & _ & Hl). rewrite Htr in Hl.
  eapply grant_all_kept; [exact Hm|by eapply ensure_kept|by exists user|exact Hl|exact H].
Qed.
End sync.
Lemma serving_credential s n l a : ListProxyCredentialsByNode s n = Ok l -> a ∈ l ->
  exists row, proxy_users (rows_of s) !! ad_ProxyUserID a = Some row /\ us_DeletedAt row = None /\ ad_ProxyUserName a = us_Name row.
Proof.
  unfold ListProxyCredentialsByNode. destruct (lookup (GetNode (rows_of s) n)) as [node|]; [|done]. intros [= <-] Ha. unfold ListProxyAccessesByNodeName in Ha.
  rewrite merge_sort_Permutation in Ha. apply list_elem_of_In, filter_In in Ha as [Ha Hs]. apply list_elem_of_In in Ha.
  unfold details in Ha. apply list_elem_of_omap in Ha as ([key c] & _ & Hd). unfold detail in Hd. cbn [fst] in Hd.
  destruct (credentials (rows_of s) !! key) as [a0|]; [|done]. cbn in Hd. destruct (proxy_users (rows_of s) !! key.1) as [row|] eqn:Er; [|done]. cbn in Hd.
  destruct (proxies (rows_of s) !! key.2) as [p|]; [|done]. cbn in Hd. destruct (listeners s !! key.2) as [li|]; [|done]. cbn in Hd.
  destruct (nodes (rows_of s) !! pr_NodeID p) as [no|]; [|done]. cbn in Hd. injection Hd as <-. exists row. split; [done|]. split; [|done].
  apply andb_true_iff in Hs as [_ Hs]. unfold serving in Hs. cbn in Hs. rewrite !andb_true_iff, !negb_true_iff in Hs. destruct Hs as [[_ Hs] _]. by destruct (us_DeletedAt row).
Qed.
(** A loop all of whose steps keep something. *)
Lemma for_each_kept {A} (I : fleet -> Prop) (f : A -> F unit) l : (forall x s u s', x ∈ l -> I s.1 -> f x s = (Ok u, s') -> I s'.1) ->
  forall s u s', I s.1 -> for_each f l s = (Ok u, s') -> I s'.1.
Proof.
  induction l as [|x l IH]; intros Hf s u s' Hi H; cbn [for_each] in H; [by apply ret_Ok in H as [_ ->]|].
  apply bind_Ok in H as ([] & s1 & H1 & H). eapply IH; [|eapply Hf; [by left|exact Hi|exact H1]|exact H].
  intros y t v t' Hy. apply Hf. by right.
Qed.

(** editing the hosts of a node gives nobody a new source of access: after
    SyncLegacyDirectPathsForNode every direct grant was there before or belongs to
    a user who already had a managed path of some proxy; users who reach its
    proxies only through groups or chains get none. *)
Theorem host_edits_create_no_source oracle nodeName s u s' : plain_ids oracle -> ready s.1 ->
  SyncLegacyDirectPathsForNode oracle nodeName s = (Ok u, s') ->
  forall userID k, direct_path_grants (fl_store s'.1) !! (userID, k) = Some true ->
    direct_path_grants (fl_store s.1) !! (userID, k) = Some true \/ exists x, has_managed_grant (fl_store s.1) userID x = true.
Proof.
  intros Hpl Hrd H. enough (Hk : kept s.1 s'.1) by apply Hk. unfold SyncLegacyDirectPathsForNode in H.
  assert (Hat : forall (m : F unit), atomically m s = (Ok u, s') -> m s = (Ok u, s')) by (intros m; unfold atomically; by destruct (m s) as [[]]).
  apply Hat in H. apply bind_Ok in H as (node & s1 & [_ ->]%look_Ok & H). apply bind_Ok in H as (w & s1 & [-> ->]%current_Ok & H).
  apply bind_Ok in H as ([] & s1 & H1 & H). apply bind_Ok in H as (w & s2 & [-> ->]%current_Ok & H). apply bind_Ok in H as (l & s2 & Hl & H).
  assert (K0 : kept s.1 s.1) by (split; [done|split; [reflexivity|done]]).
  assert (K1 : kept s.1 s1.1).
  { eapply (for_each_kept (kept s.1)); [|exact K0|exact H1]. intros pl t v t' _ Hk Hf. apply bind_Ok in Hf as (w & t1 & [-> ->]%current_Ok & Hf).
    destruct (GetProxyDirectPublication _ _); [|by apply ret_Ok in Hf as [_ ->]]. apply bind_Ok in Hf as (l' & t1 & Hf & Hr). apply ret_Ok in Hr as [_ ->].
    by eapply ensure_kept. }
  destruct (ListProxyCredentialsByNode (fl_site s1.1) nodeName) as [l'|] eqn:El; [|done]. apply ret_Ok in Hl as [-> ->].
  eapply (for_each_kept (kept s.1)); [|exact K1|exact H]. intros a t v t' Ha Hk Hf. apply bind_Ok in Hf as (w & t1 & [-> ->]%current_Ok & Hf).
  destruct (has_managed_grant (fl_store t.1) (ad_ProxyUserID a) (ad_ProxyID a)) eqn:Em; [|by apply ret_Ok in Hf as [_ ->]].
  destruct (serving_credential _ _ _ _ El Ha) as (row & Hrow & Hdel & Hname). change (rows_of (fl_site s1.1)) with (fl_rows s1.1) in Hrow.
  rewrite (proj2 (proj2 K1)) in Hrow. destruct (rd_users _ Hrd _ _ Hrow Hdel) as [Hid Hu].
  pose proof Hk as (Hr & Hn & _). pose proof (proj1 (has_managed_grant_true _ _ _) Em) as (k & p & e & _ & _ & _ & He & Hx).
  eapply credential_kept; [done|exact Hk| | |exact Hf].
  - rewrite <- Hx. by eapply (rd_proxies _ Hr).
  - exists row. rewrite Hname. split; [done|]. rewrite Hid. by apply (nn_managed _ _ Hn).
Qed.

(** ** A small fleet: a proxy on a node with three hosts; the managed path on the
    second one, which is no longer selected, is alice's *)
Definition w_draws (n : nat) : draw := {|
  dr_id := match n with 0 => "i0" | 1 => "i1" | 2 => "i2" | 3 => "i3" | 4 => "i4" | 5 => "i5" | _ => "i6" end%nat;
  dr_secret := Some "secret"; dr_now := "now" |}.
Lemma w_plain : plain_ids w_draws.
Proof. intros [|[|[|[|[|[|n]]]]]]; vm_compute; reflexivity. Qed.
Definition w_hosts : list NodeHost := [
  {| nh_ID := "h1"; nh_Host := "192.0.2.1"; nh_Tag := ""; nh_Selected := true |};
  {| nh_ID := "h2"; nh_Host := "192.0.2.2"; nh_Tag := "b"; nh_Selected := false |};
  {| nh_ID := "h3"; nh_Host := "192.0.2.3"; nh_Tag := "c"; nh_Selected := true |}].
Definition w_managed : Path := {|
  pa_ID := "p2"; pa_Name := "b"; pa_DisplayName := "one-b"; pa_EndpointID := "e2"; pa_DialerPathID := None; pa_Enabled := true;
  pa_Visibility := PathVisibilitySelectable; pa_Managed := true; pa_SortOrder := 1 |}.
Definition w_hosted : fleet := {|
  fl_site := {|
    grants := {|
      base := {|
        paths := {["p2" := w_managed]};
        endpoints := {["e2" := {| ep_ID := "e2"; ep_ProxyID := "x1"; ep_HostID := "h2"; ep_Enabled := true |}]};
        path_accesses := []; path_group_members := ∅;
        nodes := {["n1" := {| no_ID := "n1"; no_Name := "node"; no_Hosts := w_hosts; no_Status := "active"; no_DeletedAt := None |}]};
        node_name_aliases := ∅;
        proxies := {["x1" := {| pr_NodeID := "n1"; pr_Name := "one"; pr_Protocol := ProtocolVLESSReality; pr_Enabled := true; pr_DeletedAt := None |}]};
        proxy_users := {["u1" := {| us_ID := "u1"; us_Name := "alice"; us_Status := "active"; us_DeletedAt := None |};
                         "u2" := {| us_ID := "u2"; us_Name := "bob"; us_Status := "active"; us_DeletedAt := None |}]};
        bindings := {[("u1", "n1") := true; ("u2", "n1") := true]};
        credentials := {[("u1", "x1") := {| pk_ID := "k1"; pk_AuthName := "one@alice"; pk_Enabled := true; pk_DeletedAt := None |};
                         ("u2", "x1") := {| pk_ID := "k2"; pk_AuthName := "one@bob"; pk_Enabled := true; pk_DeletedAt := None |}]} |};
      direct_path_grants := {[("u1", "p2") := true]}; path_groups := ∅; member_order := ∅; user_path_group_grants := ∅;
      proxy_name_aliases := ∅; credential_json := ∅; path_group_changes := ∅ |};
    listeners := {["x1" := {| li_Listen := "::"; li_ListenPort := 443; li_Transport := "tcp"; li_SettingsJSON := "{}" |}]};
    public_hosts := {["n1" := "192.0.2.1"]}; node_connection_telemetry := ∅ |};
  proxy_publication_settings := ∅; fl_tokens := ∅ |}.
Definition w_one : Proxy := {| px_ID := "x1"; px_NodeID := "n1"; px_NodeName := "node"; px_Name := "one"; px_Protocol := ProtocolVLESSReality; px_Enabled := true |}.
Definition w_node : Node := {| no_ID := "n1"; no_Name := "node"; no_Hosts := w_hosts; no_Status := "active"; no_DeletedAt := None |}.
Lemma w_publishable x : TrimSpace x = "x1"%string -> publishable w_hosted x w_one w_node.
Proof.
  intros Hx. split.
  - assert (Hp : forall k p, paths (fl_rows w_hosted) !! k = Some p -> k = "p2"%string /\ p = w_managed).
    { intros k p H. assert (H' : ({["p2" := w_managed]} : gmap string Path) !! k = Some p) by exact H. by apply lookup_singleton_Some in H' as [<- <-]. }
    assert (He : forall k e, endpoints (fl_rows w_hosted) !! k = Some e -> k = "e2"%string /\ ep_ID e = "e2"%string).
    { intros k e H. assert (H' : ({["e2" := {| ep_ID := "e2"; ep_ProxyID := "x1"; ep_HostID := "h2"; ep_Enabled := true |}]} : gmap string Endpoint) !! k = Some e) by exact H.
      by apply lookup_singleton_Some in H' as [<- <-]. }
    split.
    + intros k p [-> ->]%Hp. split; vm_compute; reflexivity.
    + intros k e [-> ->]%He. split; vm_compute; reflexivity.
    + by intros k1 k2 e1 e2 [-> _]%He [-> _]%He _ _.
    + by intros k1 k2 p1 p2 [-> _]%Hp [-> _]%Hp _ _ _.
  - unfold GetProxyByID. rewrite Hx. vm_compute. reflexivity.
  - vm_compute. reflexivity.
  - repeat constructor.
  - repeat constructor; set_solver.
Qed.
Lemma w_ready : ready w_hosted.
Proof.
  split.
  - intros x proxy H. exists w_node. assert (Hx : TrimSpace x = "x1"%string).
    { unfold GetProxyByID, live_proxy in H. destruct (proxies (fl_rows w_hosted) !! TrimSpace x) as [r|] eqn:E; [|done].
      assert (E' : ({["x1" := {| pr_NodeID := "n1"; pr_Name := "one"; pr_Protocol := ProtocolVLESSReality; pr_Enabled := true; pr_DeletedAt := None |}]}
        : gmap string proxy_row) !! TrimSpace x = Some r) by exact E. by apply lookup_singleton_Some in E' as [<- _]. }
    assert (proxy = w_one) as ->; [|by apply w_publishable]. pose proof (pb_proxy _ _ _ _ (w_publishable x Hx)). congruence.
  - apply (w_publishable "x1"). vm_compute. reflexivity.
  - intros k p H. assert (H' : ({["p2" := w_managed]} : gmap string Path) !! k = Some p) by exact H. apply lookup_singleton_Some in H' as [_ <-]. vm_compute. by eexists.
  - intros k e H. assert (H' : ({["e2" := {| ep_ID := "e2"; ep_ProxyID := "x1"; ep_HostID := "h2"; ep_Enabled := true |}]} : gmap string Endpoint) !! k = Some e) by exact H.
    apply lookup_singleton_Some in H' as [_ <-]. vm_compute. reflexivity.
  - intros u k e H. assert (H' : ({[("u1", "p2") := true]} : gmap (string * string) bool) !! (u, k) = Some e) by exact H.
    apply lookup_singleton_Some in H' as [[= _ <-] _]. vm_compute. by eexists.
  - assert (H : map_Forall (fun u row => us_ID row = u /\ GetProxyUser (fl_rows w_hosted) (us_Name row) = Ok row) (proxy_users (fl_rows w_hosted))).
    { repeat apply map_Forall_insert_2; [split; vm_compute; reflexivity..|apply map_Forall_empty]. }
    intros u row Hr _. by apply H.
Qed.
Lemma direct_paths_follow_hosts_witness : exists l s', EnsureDirectPathsForProxy w_draws "x1" (w_hosted, O) = (Ok l, s') /\ length l = 2%nat /\
  (forall n, EnsureDirectPathsForProxy w_draws "x1" (s'.1, n) = (Ok l, (s'.1, n))) /\ only_on_selected (fl_rows s'.1) w_one w_node.
Proof.
  destruct (EnsureDirectPathsForProxy w_draws "x1" (w_hosted, O)) as [[l|e] s'] eqn:E; [|vm_compute in E; discriminate E].
  assert (Hp : publishable (w_hosted, O).1 "x1" w_one w_node) by (apply w_publishable; vm_compute; reflexivity).
  destruct (direct_paths_follow_hosts w_draws "x1" w_one w_node (w_hosted, O) l s' w_plain Hp E) as (HF & Hon & _ & Hag).
  exists l, s'. split; [reflexivity|]. split; [|split; [exact Hag|exact Hon]]. apply Forall2_length in HF. rewrite <- HF. vm_compute. reflexivity.
Defined.
(** Alice is granted the two new paths, bob nothing. *)
Lemma host_edits_create_no_source_witness : exists s', SyncLegacyDirectPathsForNode w_draws "node" (w_hosted, O) = (Ok tt, s') /\
  size (direct_path_grants (fl_store s'.1)) = 3%nat /\ forall k, direct_path_grants (fl_store s'.1) !! ("u2"%string, k) <> Some true.
Proof.
  destruct (SyncLegacyDirectPathsForNode w_draws "node" (w_hosted, O)) as [[[]|e] s'] eqn:E; [|vm_compute in E; discriminate E].
  exists s'. split; [reflexivity|]. split.
  - assert (Hs : size (direct_path_grants (fl_store (SyncLegacyDirectPathsForNode w_draws "node" (w_hosted, O)).2.1)) = 3%nat) by (vm_compute; reflexivity).
    rewrite E in Hs. exact Hs.
  - assert (Hn : forall k b, direct_path_grants (fl_store w_hosted) !! ("u2"%string, k) = Some b -> False).
    { intros k b H. assert (H' : ({[("u1", "p2") := true]} : gmap (string * string) bool) !! ("u2"%string, k) = Some b) by exact H.
      by apply lookup_singleton_Some in H' as [[=] _]. }
    intros k Hk. destruct (host_edits_create_no_source w_draws "node" (w_hosted, O) tt s' w_plain w_ready E "u2" k Hk) as [H|[x H]].
    + exact (Hn _ _ H).
    + apply has_managed_grant_true in H as (k' & _ & _ & H & _). exact (Hn _ _ H).
Defined.
