(* ===== verification/Names.v ===== *)
(** * Names and their aliases

    What the inventory promises of names, for nodes and proxies alike: the
    canonical names of live resources and the aliases they leave behind when they
    are renamed form one space without collisions, and a name leads to its
    resource until that is removed.  [Inventory] implements the steps below. *)
From S2P Require Import Prelude.

(** [ns_names]: the canonical name of every live resource, by id *)
Record namespace := { ns_names : gmap string string; ns_aliases : gmap string string }.
Definition leads (ns : namespace) (name id : string) : Prop := ns_names ns !! id = Some name \/ ns_aliases ns !! name = Some id.
Definition free (ns : namespace) (name : string) : Prop := forall id, ~ leads ns name id.
Record collision_free (ns : namespace) : Prop := {
  cf_names : forall i j n, ns_names ns !! i = Some n -> ns_names ns !! j = Some n -> i = j;
  cf_owner : forall a i, ns_aliases ns !! a = Some i -> is_Some (ns_names ns !! i);
  cf_aliases : forall a i j, ns_aliases ns !! a = Some i -> ns_names ns !! j <> Some a
}.
Definition renamed (ns : namespace) (id old new : string) : namespace := {|
  ns_names := <[id := new]> (ns_names ns);
  ns_aliases := <[old := id]> (delete new (ns_aliases ns)) |}.
(** [gone]: the resources that are removed, with their aliases *)
Inductive name_step (gone : string -> Prop) (ns : namespace) : namespace -> Prop :=
| name_same : name_step gone ns ns
| name_create id name : ns_names ns !! id = None -> free ns name -> name_step gone ns {| ns_names := <[id := name]> (ns_names ns); ns_aliases := ns_aliases ns |}
| name_rename id old new : ns_names ns !! id = Some old -> old <> new -> (forall j, leads ns new j -> j = id) -> name_step gone ns (renamed ns id old new)
| name_remove ns' : (forall i, ns_names ns' !! i = ns_names ns !! i \/ (gone i /\ ns_names ns' !! i = None)) ->
    (forall a i, ns_aliases ns' !! a = Some i <-> ns_aliases ns !! a = Some i /\ is_Some (ns_names ns' !! i)) -> name_step gone ns ns'.

Section namespace.
Context (ns : namespace) (Hcf : collision_free ns).
(** A name leads to one resource. *)
Lemma leads_fun name i j : leads ns name i -> leads ns name j -> i = j.
Proof.
  intros [Hi|Hi] [Hj|Hj]; [by eapply cf_names| | |congruence].
  - by destruct (cf_aliases _ Hcf _ _ _ Hj Hi).
  - by destruct (cf_aliases _ Hcf _ _ _ Hi Hj).
Qed.
Lemma step_collision_free gone ns' : name_step gone ns ns' -> collision_free ns'.
Proof.
  destruct Hcf as [N O A]. intros [|id name Hid Hf|id old new Hid Hne Hown|ns2 Hn Ha]; [done| | |].
  - split; cbn.
    + intros i j n. destruct (decide (i = id)) as [->|Hi], (decide (j = id)) as [->|Hj]; rewrite ?lookup_insert_eq, ?lookup_insert_ne by done; [done| | |by apply N].
      * intros [= ->] Hj'. destruct (Hf j). by left.
      * intros Hi' [= ->]. destruct (Hf i). by left.
    + intros a i Hai. destruct (decide (i = id)) as [->|Hi]; [rewrite lookup_insert_eq; by eexists|rewrite lookup_insert_ne by done; by eapply O].
    + intros a i j Hai. destruct (decide (j = id)) as [->|Hj]; [rewrite lookup_insert_eq|rewrite lookup_insert_ne by done; by eapply A].
      intros [= ->]. destruct (Hf i). by right.
  - split; cbn.
    + intros i j n. destruct (decide (i = id)) as [->|Hi], (decide (j = id)) as [->|Hj]; rewrite ?lookup_insert_eq, ?lookup_insert_ne by done; [done| | |by apply N].
      * intros [= ->] Hj'. symmetry. apply Hown. by left.
      * intros Hi' [= ->]. apply Hown. by left.
    + intros a i. destruct (decide (a = old)) as [->|Hao].
      * rewrite lookup_insert_eq. intros [= <-]. rewrite lookup_insert_eq. by eexists.
      * rewrite lookup_insert_ne by done. rewrite lookup_delete_Some. intros [_ Hai]. destruct (decide (i = id)) as [->|Hi]; [rewrite lookup_insert_eq; by eexists|].
        rewrite lookup_insert_ne by done. by eapply O.
    + intros a i j. destruct (decide (a = old)) as [->|Hao].
      * rewrite lookup_insert_eq. intros [= <-]. destruct (decide (j = id)) as [->|Hj]; [rewrite lookup_insert_eq; congruence|].
        rewrite lookup_insert_ne by done. intros Hj'. apply Hj. by eapply N.
      * rewrite lookup_insert_ne by done. rewrite lookup_delete_Some. intros [Hna Hai]. destruct (decide (j = id)) as [->|Hj]; [rewrite lookup_insert_eq; congruence|].
        rewrite lookup_insert_ne by done. by eapply A.
  - split.
    + intros i j n Hi Hj. destruct (Hn i) as [Ei|[_ Ei]], (Hn j) as [Ej|[_ Ej]]; try congruence. apply (N i j n); congruence.
    + intros a i Hai. by apply Ha in Hai as [_ ?].
    + intros a i j Hai Hj. apply Ha in Hai as [Hai _]. destruct (Hn j) as [Ej|[_ Ej]]; [|congruence]. apply (A a i j Hai). congruence.
Qed.
(** A name goes on leading to its resource. *)
Lemma step_leads gone ns' name id : name_step gone ns ns' -> leads ns name id -> ~ gone id -> leads ns' name id.
Proof.
  intros Hs Hl Hg. assert (Hlive : is_Some (ns_names ns !! id)) by (destruct Hl as [->|Hl]; [by eexists|by eapply cf_owner]).
  destruct Hs as [|i n Hi Hf|i old new Hi Hne Hown|ns2 Hn Ha]; [done| | |].
  - destruct Hl as [Hl|Hl]; [left; cbn|by right]. destruct (decide (id = i)) as [->|Hne]; [congruence|by rewrite lookup_insert_ne].
  - unfold leads. cbn. destruct Hl as [Hl|Hl].
    + destruct (decide (id = i)) as [->|Hid]; [right|left; by rewrite lookup_insert_ne]. rewrite Hi in Hl. injection Hl as <-. by rewrite lookup_insert_eq.
    + destruct (decide (name = new)) as [->|Hnn].
      * assert (id = i) as -> by (apply Hown; by right). left. by rewrite lookup_insert_eq.
      * right. rewrite lookup_insert_ne; [by rewrite lookup_delete_ne|]. intros ->. by destruct (cf_aliases _ Hcf _ _ i Hl).
  - destruct (Hn id) as [E|[? _]]; [|done]. destruct Hl as [Hl|Hl]; [left; by rewrite E|right]. apply Ha. split; [done|by rewrite E].
Qed.
End namespace.
