(* ===== verification/Inventory.v ===== *)
(** * The inventory: creating and editing nodes and proxies
    ([src/internal/server/db/nodes.go], [src/internal/server/db/proxies.go])

    The state is the [fleet] of [Publication].  Every request is the whole
    handler of the database layer: the checks before the transaction, the
    transaction, and the publication that follows it, which is committed on its
    own.  Requests of the administration run one after another.  Left out are the
    traffic multiplier and the rule columns of a proxy, which only pass through
    ([pp_RestValid] is the outcome of their checks). *)
From S2P Require Import Prelude GoStrings Effects.
From S2P Require Import Ingest Paths PathGrants Render Deletion Publication.

#[local] Open Scope Z_scope.

(** ** Text *)
Definition Contains (s sub : string) : bool := match String.index 0 sub s with Some _ => true | None => false end.
Definition validateNameForAuth (name : string) : bool := negb (Contains name "@" || Contains name ">>>").
(** [range] over a string: a byte that starts no valid sequence is U+FFFD. *)
Fixpoint runes (l : bytes) : list Z :=
  match l with
  | [] => []
  | b0 :: l1 =>
      if code b0 <? 128 then code b0 :: runes l1
      else
        match l1 with
        | b1 :: l2 =>
            if in_range 194 223 b0 && continuation b1 then ((code b0 - 192) * 64 + (code b1 - 128)) :: runes l2
            else
              match l2 with
              | b2 :: l3 =>
                  if in_range 224 239 b0 && second_ok b0 b1 && continuation b2
                  then ((code b0 - 224) * 4096 + (code b1 - 128) * 64 + (code b2 - 128)) :: runes l3
                  else
                    match l3 with
                    | b3 :: l4 =>
                        if in_range 240 244 b0 && second_ok b0 b1 && continuation b2 && continuation b3
                        then ((code b0 - 240) * 262144 + (code b1 - 128) * 4096 + (code b2 - 128) * 64 + (code b3 - 128)) :: runes l4
                        else 65533 :: runes l1
                    | [] => 65533 :: runes l1
                    end
              | [] => 65533 :: runes l1
              end
        | [] => 65533 :: runes l1
        end
  end.
Definition RuneCountInString (s : string) : Z := Z.of_nat (length (runes (to_bytes s))).
Definition IsControl (r : Z) : bool := (r <? 32) || ((127 <=? r) && (r <? 160)).

(** ** The hosts of a node *)
Definition with_host_id (h : NodeHost) (id : string) : NodeHost :=
  {| nh_ID := id; nh_Host := nh_Host h; nh_Tag := nh_Tag h; nh_Selected := nh_Selected h |}.
Definition selected_host (h : NodeHost) : NodeHost :=
  {| nh_ID := nh_ID h; nh_Host := nh_Host h; nh_Tag := nh_Tag h; nh_Selected := true |}.
Fixpoint trim_hosts (seen : gset string) (hosts : list NodeHost) : list NodeHost :=
  match hosts with
  | [] => []
  | h :: hosts =>
      let host := TrimSpace (nh_Host h) in
      if (host =? "")%string || bool_decide (host ∈ seen) then trim_hosts seen hosts
      else {| nh_ID := TrimSpace (nh_ID h); nh_Host := host; nh_Tag := TrimSpace (nh_Tag h); nh_Selected := nh_Selected h |}
             :: trim_hosts (seen ∪ {[host]}) hosts
  end.
Definition normalizeNodeHosts (hosts : list NodeHost) : option (list NodeHost) :=
  match trim_hosts ∅ hosts with
  | [] => None
  | first :: rest => Some (if existsb nh_Selected (first :: rest) then first :: rest else selected_host first :: rest)
  end.
(** existingByHost *)
Definition ids_by_host (existing : list NodeHost) : gmap string string :=
  foldl (fun m h => if (nh_ID h =? "")%string then m else <[nh_Host h := nh_ID h]> m) ∅ existing.
(** The first loop: ids that are sent or known for the address; [seen] is threaded. *)
Fixpoint known_ids (byHost : gmap string string) (seen : gset string) (hosts : list NodeHost) : result FleetError (list NodeHost * gset string) :=
  match hosts with
  | [] => Ok ([], seen)
  | h :: hosts =>
      let id := if (nh_ID h =? "")%string then default "" (byHost !! nh_Host h) else nh_ID h in
      if (id =? "")%string then
        let? (rest, seen) := known_ids byHost seen hosts in Ok (with_host_id h id :: rest, seen)
      else if bool_decide (id ∈ seen) then Err (DuplicateHostID id)
      else let? (rest, seen) := known_ids byHost (seen ∪ {[id]}) hosts in Ok (with_host_id h id :: rest, seen)
  end.
Definition validateNodeHostTags `{UnicodeTables} (hosts : list NodeHost) : result FleetError unit :=
  (fix go (i : nat) (seen : gset string) (hosts : list NodeHost) : result FleetError unit :=
    match hosts with
    | [] => Ok tt
    | host :: hosts =>
        let tag := TrimSpace (nh_Tag host) in
        if (0 <? i)%nat && (tag =? "")%string then Err (TagRequired (nh_Host host))
        else if (tag =? "")%string then go (S i) seen hosts
        else if 32 <? RuneCountInString tag then Err (BadTag tag)
        else if existsb IsControl (runes (to_bytes tag)) then Err (BadTag tag)
        else let key := ToLower tag in
             if bool_decide (key ∈ seen) then Err (DuplicateTag tag) else go (S i) (seen ∪ {[key]}) hosts
    end) O ∅ hosts.

Definition lift {A} (r : result FleetError A) : F A := match r with Ok a => mret a | Err e => fail e end.
Definition require {A} (o : option A) (e : FleetError) : F A := match o with Some a => mret a | None => fail e end.

Section oracle.
Context `{UnicodeTables}.
Variable oracle : nat -> draw.
(** The second loop: by position, or a new id. *)
Fixpoint missing_ids (existing : list NodeHost) (i : nat) (seen : gset string) (hosts : list NodeHost) : F (list NodeHost) :=
  match hosts with
  | [] => mret []
  | h :: hosts =>
      if negb (nh_ID h =? "")%string then rest ← missing_ids existing (S i) seen hosts; mret (h :: rest)
      else
        let id := match existing !! i with Some e => if bool_decide (nh_ID e ∈ seen) then "" else nh_ID e | None => "" end%string in
        id ← (if (id =? "")%string then d ← draws oracle; mret (dr_id d) else mret id);
        rest ← missing_ids existing (S i) (seen ∪ {[id]}) hosts;
        mret (with_host_id h id :: rest)
  end.
Definition ensureNodeHostIDs (hosts existing : list NodeHost) : F (list NodeHost) :=
  ks ← lift (known_ids (ids_by_host existing) ∅ hosts);
  missing_ids existing 0 ks.2 ks.1.

(** ** Nodes *)
(** GetNodeIDByNameOrAlias *)
Definition GetNodeIDByNameOrAlias (b : Paths.tables) (name : string) : option string :=
  fst <$> List.find (fun kn : string * Node =>
    ((kn.1 =? name)%string || (no_Name kn.2 =? name)%string || bool_decide (node_name_aliases b !! name = Some kn.1))
    && negb (is_set (no_DeletedAt kn.2))) (map_to_list (nodes b)).
(** The unique index on the names of live nodes. *)
Definition node_name_free (b : Paths.tables) (id name : string) : bool :=
  forallb (fun kn : string * Node => (kn.1 =? id)%string || is_set (no_DeletedAt kn.2) || negb (no_Name kn.2 =? name)%string) (map_to_list (nodes b)).
Definition put_node (b : Paths.tables) (id : string) (n : Node) : Paths.tables := with_nodes b (<[id := n]> (nodes b)) (node_name_aliases b).
Definition with_name (n : Node) (name : string) : Node :=
  {| no_ID := no_ID n; no_Name := name; no_Hosts := no_Hosts n; no_Status := no_Status n; no_DeletedAt := no_DeletedAt n |}.
Definition set_public_host (w : fleet) (id host : string) : fleet := set_site w {|
  grants := grants (fl_site w); listeners := listeners (fl_site w); public_hosts := <[id := host]> (public_hosts (fl_site w));
  node_connection_telemetry := node_connection_telemetry (fl_site w) |}.
Definition renameNodeTx (nodeID currentName newName : string) : F unit :=
  if (currentName =? newName)%string then mret tt
  else
    w ← current;
    let b := fl_rows w in
    match GetNodeIDByNameOrAlias b newName with
    | Some ownerID =>
        ensure_that (ownerID =? nodeID)%string (NameTaken newName);;
        change (fun w => set_rows w (with_nodes (fl_rows w) (nodes (fl_rows w))
          (filter (fun ai => ~ (ai.1 = newName /\ ai.2 = nodeID)) (node_name_aliases (fl_rows w)))))
    | None => mret tt
    end;;
    w ← current;
    ensure_that (negb (is_set (node_name_aliases (fl_rows w) !! currentName))) Constraint;;
    change (fun w => set_rows w (with_nodes (fl_rows w) (nodes (fl_rows w)) (<[currentName := nodeID]> (node_name_aliases (fl_rows w)))));;
    w ← current;
    match nodes (fl_rows w) !! nodeID with
    | None => fail (NodeMissing currentName)
    | Some row =>
        ensure_that (is_set (no_DeletedAt row) || node_name_free (fl_rows w) nodeID newName) Constraint;;
        change (fun w => set_rows w (put_node (fl_rows w) nodeID (with_name row newName)))
    end.
Definition validNodeStatus (status : string) : bool :=
  (status =? "pending")%string || (status =? "active")%string || (status =? "disabled")%string || (status =? "degraded")%string.
Definition CreateNode (name publicHost : string) : F Node :=
  let name := TrimSpace name in
  let publicHost := TrimSpace publicHost in
  ensure_that (negb (name =? "")%string) NameMissing;;
  ensure_that (validateNameForAuth name) (BadName name);;
  ensure_that (negb (publicHost =? "")%string) NoHosts;;
  w ← current;
  ensure_that (negb (is_set (GetNodeIDByNameOrAlias (fl_rows w) name))) (NameTaken name);;
  d ← draws oracle;
  hosts ← ensureNodeHostIDs [{| nh_ID := ""; nh_Host := publicHost; nh_Tag := ""; nh_Selected := true |}] [];
  w ← current;
  ensure_that (negb (is_set (nodes (fl_rows w) !! dr_id d)) && node_name_free (fl_rows w) (dr_id d) name) Constraint;;
  change (fun w => set_public_host (set_rows w (put_node (fl_rows w) (dr_id d)
    {| no_ID := dr_id d; no_Name := name; no_Hosts := hosts; no_Status := "active"; no_DeletedAt := None |})) (dr_id d) publicHost);;
  updated ← look (fun b => GetNode b (dr_id d));
  SyncLegacyDirectPathsForNode oracle (no_Name updated);;
  mret updated.
(** [np_Hosts]: [None] where the caller has no list. *)
Record UpdateNodeParams := { un_Name : string; un_PublicHost : string; un_Hosts : option (list NodeHost); un_Status : string }.
Definition host_used (b : Paths.tables) (hostID : string) : bool :=
  existsb (fun ke : string * Endpoint => (ep_HostID ke.2 =? hostID)%string) (map_to_list (endpoints b)).
Definition dropped_host_used (b : Paths.tables) (next existing : list NodeHost) : option string :=
  nh_ID <$> List.find (fun h => negb (existsb (fun n => (nh_ID n =? nh_ID h)%string) next) && host_used b (nh_ID h)) existing.
Definition updated_node (n : Node) (hosts : list NodeHost) (status : string) : Node :=
  {| no_ID := no_ID n; no_Name := no_Name n; no_Hosts := hosts; no_Status := status; no_DeletedAt := no_DeletedAt n |}.
Definition UpdateNodeByName (currentName : string) (params : UpdateNodeParams) : F Node :=
  let currentName := TrimSpace currentName in
  let name := TrimSpace (un_Name params) in
  let status := TrimSpace (un_Status params) in
  ensure_that (negb (currentName =? "")%string) NameMissing;;
  ensure_that (negb (name =? "")%string) NameMissing;;
  ensure_that (validateNameForAuth name) (BadName name);;
  ensure_that (validNodeStatus status) (BadStatus status);;
  existingNode ← look (fun b => GetNode b currentName);
  let hosts := match un_Hosts params with
               | Some hosts => hosts
               | None => [{| nh_ID := ""; nh_Host := TrimSpace (un_PublicHost params); nh_Tag := ""; nh_Selected := true |}]
               end in
  normalized ← require (normalizeNodeHosts hosts) NoHosts;
  lift (validateNodeHostTags normalized);;
  normalized ← ensureNodeHostIDs normalized (no_Hosts existingNode);
  w ← current;
  match dropped_host_used (fl_rows w) normalized (no_Hosts existingNode) with
  | Some id => fail (HostInUse id)
  | None =>
      atomically (
        existing ← look (fun b => GetNode b currentName);
        renameNodeTx (no_ID existing) (no_Name existing) name;;
        w ← current;
        match nodes (fl_rows w) !! no_ID existing with
        | Some row =>
            ensure_that (negb (is_set (no_DeletedAt row))) (NodeMissing currentName);;
            change (fun w => set_public_host (set_rows w (put_node (fl_rows w) (no_ID existing) (updated_node row normalized status)))
              (no_ID existing) (match normalized with h :: _ => nh_Host h | [] => "" end))
        | None => fail (NodeMissing currentName)
        end);;
      updated ← look (fun b => GetNode b (no_ID existingNode));
      SyncLegacyDirectPathsForNode oracle (no_Name updated);;
      mret updated
  end.
Definition UpdateNode (params : UpdateNodeParams) : F Node :=
  let currentName := TrimSpace (un_Name params) in
  ensure_that (negb (currentName =? "")%string) NameMissing;;
  existing ← look (fun b => GetNode b currentName);
  UpdateNodeByName currentName {| un_Name := no_Name existing; un_PublicHost := un_PublicHost params; un_Hosts := un_Hosts params; un_Status := un_Status params |}.
Definition RenameNode (oldName newName : string) : F Node :=
  let oldName := TrimSpace oldName in
  let newName := TrimSpace newName in
  ensure_that (negb (oldName =? "")%string) NameMissing;;
  ensure_that (negb (newName =? "")%string) NameMissing;;
  ensure_that (validateNameForAuth newName) (BadName newName);;
  nodeID ← atomically (
    existing ← look (fun b => GetNode b oldName);
    (if (no_Name existing =? newName)%string then mret tt else renameNodeTx (no_ID existing) (no_Name existing) newName);;
    mret (no_ID existing));
  node ← look (fun b => GetNode b newName);
  ensure_that (no_ID node =? nodeID)%string (Unexpected newName);;
  mret node.
Definition SetNodeStatus (name status : string) : F unit :=
  ensure_that (validNodeStatus status) (BadStatus status);;
  node ← look (fun b => GetNode b name);
  w ← current;
  match nodes (fl_rows w) !! no_ID node with
  | Some row =>
      ensure_that (negb (is_set (no_DeletedAt row))) (NodeMissing name);;
      change (fun w => set_rows w (put_node (fl_rows w) (no_ID node) (updated_node row (no_Hosts row) status)))
  | None => fail (NodeMissing name)
  end.

(** ** Proxies: what a request may ask for *)
Definition ProtocolHysteria2 : string := "hysteria2".
Definition TransportTCP : string := "tcp".
Definition TransportUDP : string := "udp".
Definition TransportTCPUDP : string := "tcp_udp".
Definition DefaultShadowsocks2022Method : string := "2022-blake3-aes-128-gcm".
Definition validProxyProtocol (protocol : string) : bool :=
  (protocol =? ProtocolVLESSReality)%string || (protocol =? ProtocolShadowsocks2022)%string || (protocol =? ProtocolHysteria2)%string.
Definition proxySupportsMultiUser (protocol : string) : bool := validProxyProtocol protocol.
Definition validProxyTransport (transport : string) : bool :=
  (transport =? TransportTCP)%string || (transport =? TransportUDP)%string || (transport =? TransportTCPUDP)%string.
Definition defaultTransport (protocol : string) : string :=
  if (protocol =? ProtocolHysteria2)%string then TransportUDP
  else if (protocol =? ProtocolShadowsocks2022)%string then TransportTCPUDP else TransportTCP.
Definition shadowsocks2022KeyLength (method : string) : option nat :=
  if (method =? "2022-blake3-aes-128-gcm")%string then Some 16%nat
  else if (method =? "2022-blake3-aes-256-gcm")%string || (method =? "2022-blake3-chacha20-poly1305")%string then Some 32%nat else None.
(** json.Valid; the member short_id of an object ([None]: no object, [Some None]:
    no such member, then [None]: no string); the object with it replaced; the
    Shadowsocks settings and their encoding; the length of what standard Base64
    decodes to. *)
Variables (json_valid : string -> bool) (object_short_id : string -> option (option (option string))) (set_short_id : string -> string -> string)
  (decode_ss_settings : string -> option Shadowsocks2022Settings) (encode_ss_settings : Shadowsocks2022Settings -> string)
  (base64_length : string -> option nat).
Definition normalizeVLESSRealitySettingsJSON (raw : string) : result FleetError string :=
  match object_short_id raw with
  | None => Err SettingsNotValid
  | Some None => Ok raw
  | Some (Some None) => Err SettingsNotValid
  | Some (Some (Some shortID)) =>
      match NormalizeRealityShortID shortID with
      | None => Err SettingsNotValid
      | Some normalized => Ok (if (normalized =? shortID)%string then raw else set_short_id raw normalized)
      end
  end.
Definition normalizeShadowsocks2022SettingsJSON (raw : string) : F string :=
  settings ← require (decode_ss_settings raw) SettingsNotValid;
  let method := TrimSpace (ss_Method settings) in
  let method := if (method =? "")%string then DefaultShadowsocks2022Method else method in
  keyLength ← require (shadowsocks2022KeyLength method) SettingsNotValid;
  let password := TrimSpace (ss_ServerPassword settings) in
  password ← (if (password =? "")%string then d ← draws oracle; require (dr_secret d) SettingsNotValid
              else ensure_that (bool_decide (base64_length password = Some keyLength)) SettingsNotValid;; mret password);
  mret (encode_ss_settings {| ss_Method := method; ss_ServerPassword := password |}).
Record ProxyParams := {
  pp_Name : string; pp_Protocol : string; pp_Listen : string; pp_ListenPort : Z; pp_Transport : string; pp_Enabled : bool;
  pp_SettingsJSON : string; pp_RestValid : bool
}.
(** The columns of a proxy a request decides. *)
Record new_proxy := { np_name : string; np_protocol : string; np_enabled : bool; np_listener : listener }.
Definition normalizeProxyParams (params : ProxyParams) : F new_proxy :=
  let name := TrimSpace (pp_Name params) in
  ensure_that (negb (name =? "")%string) NameMissing;;
  ensure_that (validateNameForAuth name) (BadName name);;
  let protocol := TrimSpace (pp_Protocol params) in
  ensure_that (validProxyProtocol protocol) (ProtocolNotSupported protocol);;
  ensure_that (negb ((pp_ListenPort params <=? 0) || (65535 <? pp_ListenPort params))) PortRange;;
  let listen := TrimSpace (pp_Listen params) in
  let listen := if (listen =? "")%string then "::"%string else listen in
  let transport := TrimSpace (pp_Transport params) in
  let transport := if (transport =? "")%string then defaultTransport protocol else transport in
  ensure_that (validProxyTransport transport) (TransportNotSupported transport);;
  let raw := TrimSpace (pp_SettingsJSON params) in
  let raw := if (raw =? "")%string then "{}"%string else raw in
  ensure_that (json_valid raw) SettingsNotValid;;
  settings ← (if (protocol =? ProtocolVLESSReality)%string then lift (normalizeVLESSRealitySettingsJSON raw)
              else if (protocol =? ProtocolShadowsocks2022)%string then normalizeShadowsocks2022SettingsJSON raw
              else mret raw);
  ensure_that (pp_RestValid params) BadMultiplier;;
  mret {| np_name := name; np_protocol := protocol; np_enabled := pp_Enabled params;
          np_listener := {| li_Listen := listen; li_ListenPort := pp_ListenPort params; li_Transport := transport; li_SettingsJSON := settings |} |}.

(** ** Listeners *)
Definition transportsOverlap (left right : string) : bool :=
  (left =? TransportTCPUDP)%string || (right =? TransportTCPUDP)%string || (left =? right)%string.
Definition compatibleSharedListener (protocol1 protocol2 : string) (l1 l2 : listener) : bool :=
  proxySupportsMultiUser protocol1 && (protocol1 =? protocol2)%string && (li_Transport l1 =? li_Transport l2)%string
  && (li_SettingsJSON l1 =? li_SettingsJSON l2)%string.
Definition listeners_conflict (protocol1 protocol2 : string) (l1 l2 : listener) : bool :=
  (li_Listen l1 =? li_Listen l2)%string && (li_ListenPort l1 =? li_ListenPort l2) && transportsOverlap (li_Transport l1) (li_Transport l2)
  && negb (compatibleSharedListener protocol1 protocol2 l1 l2).
Fixpoint checkProxyListenerConflicts (proxies : list (Proxy * listener)) (name protocol : string) (next : listener) (ignoreID : string) : result FleetError unit :=
  match proxies with
  | [] => Ok tt
  | (existing, l) :: proxies =>
      if (px_ID existing =? ignoreID)%string then checkProxyListenerConflicts proxies name protocol next ignoreID
      else if listeners_conflict (px_Protocol existing) protocol l next then Err (ListenerConflict name (px_Name existing))
      else checkProxyListenerConflicts proxies name protocol next ignoreID
  end.
Definition validateProxyListenerTx (nodeName name protocol : string) (next : listener) (ignoreID : string) : F unit :=
  w ← current; lift (checkProxyListenerConflicts (ListProxiesByNodeName (fl_site w) nodeName) name protocol next ignoreID).

(** ** The rows of proxies *)
(** GetProxyIDByNameOrAlias *)
Definition GetProxyIDByNameOrAlias (s : store) (name : string) : option string :=
  fst <$> List.find (fun kp : string * proxy_row =>
    negb (is_set (pr_DeletedAt kp.2))
    && ((kp.1 =? name)%string || (pr_Name kp.2 =? name)%string || bool_decide (proxy_name_aliases s !! name = Some kp.1))) (map_to_list (proxies (base s))).
(** The unique index on the names of live proxies. *)
Definition proxy_name_free (b : Paths.tables) (id name : string) : bool :=
  forallb (fun kp : string * proxy_row => (kp.1 =? id)%string || is_set (pr_DeletedAt kp.2) || negb (pr_Name kp.2 =? name)%string) (map_to_list (proxies b)).
Definition put_proxy (w : fleet) (id : string) (p : proxy_row) : fleet :=
  set_rows w (with_proxies (fl_rows w) (<[id := p]> (proxies (fl_rows w)))).
Definition put_listener (w : fleet) (id : string) (l : listener) : fleet := set_site w {|
  grants := grants (fl_site w); listeners := <[id := l]> (listeners (fl_site w)); public_hosts := public_hosts (fl_site w);
  node_connection_telemetry := node_connection_telemetry (fl_site w) |}.
Definition set_proxy_aliases (w : fleet) (m : gmap string string) : fleet := set_store w (set_aliases (fl_store w) m).
Definition GetProxyF (nodeName name : string) : F Proxy := run_grants (GetProxy nodeName name).
Definition proxy_with (p : proxy_row) (name : string) (enabled : bool) (deleted : option string) : proxy_row := {|
  pr_NodeID := pr_NodeID p; pr_Name := name; pr_Protocol := pr_Protocol p; pr_Enabled := enabled; pr_DeletedAt := deleted |}.
Definition renameProxyTx (proxyID currentName newName : string) : F unit :=
  if (currentName =? newName)%string then mret tt
  else
    w ← current;
    match GetProxyIDByNameOrAlias (fl_store w) newName with
    | Some ownerID =>
        ensure_that (ownerID =? proxyID)%string (NameTaken newName);;
        change (fun w => set_proxy_aliases w (filter (fun ai => ~ (ai.1 = newName /\ ai.2 = proxyID)) (proxy_name_aliases (fl_store w))))
    | None => mret tt
    end;;
    w ← current;
    ensure_that (negb (is_set (proxy_name_aliases (fl_store w) !! currentName))) Constraint;;
    change (fun w => set_proxy_aliases w (<[currentName := proxyID]> (proxy_name_aliases (fl_store w))));;
    w ← current;
    match proxies (fl_rows w) !! proxyID with
    | None => fail (ProxyMissing currentName)
    | Some row =>
        ensure_that (is_set (pr_DeletedAt row) || proxy_name_free (fl_rows w) proxyID newName) Constraint;;
        change (fun w => put_proxy w proxyID (proxy_with row newName (pr_Enabled row) (pr_DeletedAt row)))
    end.

(** ** CreateProxy, UpdateProxyByName, RenameProxy, SetProxyEnabled *)
Definition CreateProxy (nodeName : string) (params : ProxyParams) (directPublish : option bool) : F Proxy :=
  node ← look (fun b => GetNode b nodeName);
  proxy ← normalizeProxyParams params;
  d ← draws oracle;
  atomically (
    validateProxyListenerTx (no_Name node) (np_name proxy) (np_protocol proxy) (np_listener proxy) "";;
    w ← current;
    ensure_that (negb (is_set (GetProxyIDByNameOrAlias (fl_store w) (np_name proxy)))) (NameTaken (np_name proxy));;
    ensure_that (negb (is_set (proxies (fl_rows w) !! dr_id d)) && is_set (nodes (fl_rows w) !! no_ID node)
      && proxy_name_free (fl_rows w) (dr_id d) (np_name proxy)) Constraint;;
    change (fun w => put_listener (put_proxy w (dr_id d) {| pr_NodeID := no_ID node; pr_Name := np_name proxy; pr_Protocol := np_protocol proxy;
      pr_Enabled := np_enabled proxy; pr_DeletedAt := None |}) (dr_id d) (np_listener proxy)));;
  created ← look (fun b => GetProxyByID b (dr_id d));
  SetProxyDirectPublication oracle (px_ID created) (default true directPublish);;
  mret created.
Definition with_protocol (params : ProxyParams) (protocol : string) : ProxyParams := {|
  pp_Name := pp_Name params; pp_Protocol := protocol; pp_Listen := pp_Listen params; pp_ListenPort := pp_ListenPort params;
  pp_Transport := pp_Transport params; pp_Enabled := pp_Enabled params; pp_SettingsJSON := pp_SettingsJSON params; pp_RestValid := pp_RestValid params |}.
Definition UpdateProxyByName (nodeName currentName : string) (paramsNodeName : string) (params : ProxyParams) : F Proxy :=
  let lookupNodeName := TrimSpace nodeName in
  let lookupNodeName := if (lookupNodeName =? "")%string then TrimSpace paramsNodeName else lookupNodeName in
  ensure_that (negb (lookupNodeName =? "")%string) NameMissing;;
  node ← look (fun b => GetNode b lookupNodeName);
  let currentName := TrimSpace currentName in
  ensure_that (negb (currentName =? "")%string) NameMissing;;
  existing ← GetProxyF (no_ID node) currentName;
  proxy ← normalizeProxyParams (with_protocol params (px_Protocol existing));
  atomically (
    current' ← GetProxyF (no_ID node) currentName;
    ensure_that (px_ID current' =? px_ID existing)%string (ChangedMeanwhile currentName);;
    validateProxyListenerTx (no_Name node) (np_name proxy) (np_protocol proxy) (np_listener proxy) (px_ID existing);;
    renameProxyTx (px_ID existing) (px_Name existing) (np_name proxy);;
    w ← current;
    match proxies (fl_rows w) !! px_ID existing with
    | Some row =>
        ensure_that ((pr_NodeID row =? no_ID node)%string && negb (is_set (pr_DeletedAt row))) (ProxyMissing currentName);;
        change (fun w => put_listener (put_proxy w (px_ID existing) (proxy_with row (pr_Name row) (np_enabled proxy) (pr_DeletedAt row)))
          (px_ID existing) (np_listener proxy))
    | None => fail (ProxyMissing currentName)
    end);;
  look (fun b => GetProxyByID b (px_ID existing)).
Definition UpdateProxy (nodeName : string) (params : ProxyParams) : F Proxy :=
  node ← look (fun b => GetNode b nodeName);
  existing ← GetProxyF (no_ID node) (pp_Name params);
  UpdateProxyByName (no_Name node) (pp_Name params) nodeName {|
    pp_Name := px_Name existing; pp_Protocol := pp_Protocol params; pp_Listen := pp_Listen params; pp_ListenPort := pp_ListenPort params;
    pp_Transport := pp_Transport params; pp_Enabled := pp_Enabled params; pp_SettingsJSON := pp_SettingsJSON params; pp_RestValid := pp_RestValid params |}.
Definition RenameProxy (nodeName oldName newName : string) : F Proxy :=
  let oldName := TrimSpace oldName in
  let newName := TrimSpace newName in
  ensure_that (negb (oldName =? "")%string) NameMissing;;
  ensure_that (negb (newName =? "")%string) NameMissing;;
  ensure_that (validateNameForAuth newName) (BadName newName);;
  proxyID ← atomically (
    existing ← GetProxyF (TrimSpace nodeName) oldName;
    (if (px_Name existing =? newName)%string then mret tt else renameProxyTx (px_ID existing) (px_Name existing) newName);;
    mret (px_ID existing));
  proxy ← look (fun b => GetProxyByID b proxyID);
  ensure_that (px_ID proxy =? proxyID)%string (Unexpected newName);;
  mret proxy.
Definition SetProxyEnabled (nodeName name : string) (enabled : bool) : F unit :=
  node ← look (fun b => GetNode b nodeName);
  proxy ← GetProxyF (no_ID node) name;
  w ← current;
  match proxies (fl_rows w) !! px_ID proxy with
  | Some row =>
      ensure_that ((pr_NodeID row =? no_ID node)%string && negb (is_set (pr_DeletedAt row))) (ProxyMissing name);;
      change (fun w => put_proxy w (px_ID proxy) (proxy_with row (pr_Name row) enabled (pr_DeletedAt row)))
  | None => fail (ProxyMissing name)
  end.
Definition DisableProxy (nodeName name : string) : F Proxy := SetProxyEnabled nodeName name false;; GetProxyF nodeName name.

(** ** Deletion and restoration *)
Definition run_deletion (f : database -> deleted database) : F unit := fun s =>
  match f {| db_store := fl_store s.1; db_node_tokens := fl_tokens s.1 |} with
  | Ok d => (Ok tt, (set_tokens (set_store s.1 (db_store d)) (db_node_tokens d), s.2))
  | Err e => (Err (DeleteFailed e), s)
  end.
Definition SoftDeleteProxyF (nodeName name : string) : F unit :=
  d ← draws oracle; run_deletion (fun db => SoftDeleteProxy (dr_now d) db nodeName name).
Definition SoftDeleteNodeF (name : string) : F unit :=
  d ← draws oracle; run_deletion (fun db => SoftDeleteNode (dr_now d) db name).
(** When a row was created, by its id: no statement changes it. *)
Variable created_at : string -> string.
(** ORDER BY deleted_at IS NULL DESC, created_at DESC *)
Definition newest_first {A} (gone : A -> bool) (a b : string * A) : Prop :=
  (if gone a.2 then gone b.2 && String.leb (created_at b.1) (created_at a.1)
   else gone b.2 || String.leb (created_at b.1) (created_at a.1)) = true.
#[local] Instance newest_first_dec {A} (gone : A -> bool) a b : Decision (newest_first gone a b).
Proof. unfold newest_first. apply _. Defined.
(** resolveNode, resolveProxy (including deleted) *)
Definition GetNodeIncludingDeleted (b : Paths.tables) (name : string) : option (string * Node) :=
  let reference := TrimSpace name in
  match nodes b !! reference with
  | Some n => Some (reference, n)
  | None => head (merge_sort (newest_first (fun n => is_set (no_DeletedAt n)))
      (List.filter (fun kn : string * Node => (no_Name kn.2 =? reference)%string || bool_decide (node_name_aliases b !! reference = Some kn.1))
        (map_to_list (nodes b))))
  end.
Definition GetProxyIncludingDeleted (s : store) (nodeName name : string) : option (string * proxy_row) :=
  node ← GetNodeIncludingDeleted (base s) nodeName;
  let reference := TrimSpace name in
  match proxies (base s) !! reference with
  | Some row => if (pr_NodeID row =? node.1)%string then Some (reference, row) else None
  | None => head (merge_sort (newest_first (fun p => is_set (pr_DeletedAt p)))
      (List.filter (fun kp : string * proxy_row => (pr_NodeID kp.2 =? node.1)%string
          && ((pr_Name kp.2 =? reference)%string || bool_decide (proxy_name_aliases s !! reference = Some kp.1)))
        (map_to_list (proxies (base s)))))
  end.
Definition restored_endpoint (proxyID : string) (e : Endpoint) : Endpoint :=
  if (ep_ProxyID e =? proxyID)%string
  then {| ep_ID := ep_ID e; ep_ProxyID := ep_ProxyID e; ep_HostID := ep_HostID e; ep_Enabled := true |} else e.
Definition RestoreProxy (nodeName name : string) : F Proxy :=
  restoredID ← atomically (
    w ← current;
    found ← require (GetProxyIncludingDeleted (fl_store w) (TrimSpace nodeName) (TrimSpace name)) (ProxyMissing name);
    let proxyID : string := found.1 in
    let row : proxy_row := found.2 in
    l ← require (listeners (fl_site w) !! proxyID) (ProxyMissing name);
    node ← require (nodes (fl_rows w) !! pr_NodeID row) (ProxyMissing name);
    validateProxyListenerTx (no_Name node) (pr_Name row) (pr_Protocol row) l proxyID;;
    ensure_that (is_set (pr_DeletedAt row)) (ProxyMissing name);;
    ensure_that (proxy_name_free (fl_rows w) proxyID (pr_Name row)) Constraint;;
    change (fun w => put_proxy w proxyID (proxy_with row (pr_Name row) (pr_Enabled row) None));;
    change (fun w => set_rows w (with_endpoints (fl_rows w) (restored_endpoint proxyID <$> endpoints (fl_rows w))));;
    mret proxyID);
  look (fun b => GetProxyByID b restoredID).

(** ** The requests of the administration *)
Inductive request :=
| RqCreateNode (name publicHost : string)
| RqUpdateNode (currentName : string) (params : UpdateNodeParams)
| RqRenameNode (oldName newName : string)
| RqSetNodeStatus (name status : string)
| RqDeleteNode (name : string)
| RqCreateProxy (nodeName : string) (params : ProxyParams) (directPublish : option bool)
| RqUpdateProxy (nodeName currentName paramsNodeName : string) (params : ProxyParams)
| RqRenameProxy (nodeName oldName newName : string)
| RqSetProxyEnabled (nodeName name : string) (enabled : bool)
| RqDeleteProxy (nodeName name : string)
| RqPublishProxy (proxyID : string) (enabled : bool)
| RqRestoreProxy (nodeName name : string).
Definition handle (r : request) : F unit :=
  match r with
  | RqCreateNode name host => CreateNode name host;; mret tt
  | RqUpdateNode current params => UpdateNodeByName current params;; mret tt
  | RqRenameNode old new => RenameNode old new;; mret tt
  | RqSetNodeStatus name status => SetNodeStatus name status
  | RqDeleteNode name => SoftDeleteNodeF name
  | RqCreateProxy node params publish => CreateProxy node params publish;; mret tt
  | RqUpdateProxy node current pnode params => UpdateProxyByName node current pnode params;; mret tt
  | RqRenameProxy node old new => RenameProxy node old new;; mret tt
  | RqSetProxyEnabled node name enabled => SetProxyEnabled node name enabled
  | RqDeleteProxy node name => SoftDeleteProxyF node name
  | RqPublishProxy x enabled => SetProxyDirectPublication oracle x enabled;; mret tt
  | RqRestoreProxy node name => RestoreProxy node name;; mret tt
  end.
(** One after another, whatever the outcome of each. *)
Fixpoint serve (rs : list request) (s : fleet * nat) : fleet * nat :=
  match rs with [] => s | r :: rs => serve rs (handle r s).2 end.
End oracle.
