(* ===== verification/InventorySteps.v ===== *)
(** * The steps of the inventory ([Inventory])

    What the requests of the administration may do to nodes, proxies, their
    aliases and their listeners: the relation [step], one constructor per kind of
    statement with what the code has checked before it.  [handle_steps] says that
    a request, successful or not, does nothing else. *)
From S2P Require Import Prelude GoStrings Effects.
From S2P Require Import Paths PathGrants PathAccess GrantSafety Render Deletion DeletionSafety Publication PublicationSafety Names Inventory.

#[local] Open Scope Z_scope.

(** ** The part of the fleet that is at stake *)
Record inventory := {
  iv_nodes : gmap string Node; iv_node_aliases : gmap string string;
  iv_proxies : gmap string proxy_row; iv_proxy_aliases : gmap string string; iv_listeners : gmap string listener
}.
Definition view (w : fleet) : inventory := {|
  iv_nodes := nodes (fl_rows w); iv_node_aliases := node_name_aliases (fl_rows w);
  iv_proxies := proxies (fl_rows w); iv_proxy_aliases := proxy_name_aliases (fl_store w); iv_listeners := listeners (fl_site w) |}.
Definition node_space (v : inventory) : namespace := {|
  ns_names := omap (fun n => if is_set (no_DeletedAt n) then None else Some (no_Name n)) (iv_nodes v); ns_aliases := iv_node_aliases v |}.
Definition proxy_space (v : inventory) : namespace := {|
  ns_names := omap (fun p => if is_set (pr_DeletedAt p) then None else Some (pr_Name p)) (iv_proxies v); ns_aliases := iv_proxy_aliases v |}.

(** ** Operations that leave it alone *)
Definition still {A} (m : F A) : Prop := forall s, view (m s).2.1 = view s.1.
Create HintDb still.
Section still.
Lemma still_ret {A} (a : A) : still (mret a).
Proof. done. Qed.
Lemma still_fail {A} e : still (A := A) (fail e).
Proof. done. Qed.
Lemma still_bind {A B} (m : F A) (k : A -> F B) : still m -> (forall a, still (k a)) -> still (m ≫= k).
Proof. intros Hm Hk s. unfold mbind, eff_bind. specialize (Hm s). destruct (m s) as [[a|e] s1]; [by rewrite Hk|done]. Qed.
Lemma still_current : still current.
Proof. done. Qed.
Lemma still_draws oracle : still (draws oracle).
Proof. done. Qed.
Lemma still_look {A} (f : Paths.tables -> res A) : still (look f).
Proof. done. Qed.
Lemma still_ensure b e : still (ensure_that b e).
Proof. by destruct b. Qed.
Lemma still_lift {A} (r : result FleetError A) : still (lift r).
Proof. by destruct r. Qed.
Lemma still_require {A} (o : option A) e : still (require o e).
Proof. by destruct o. Qed.
Lemma still_if {A} (b : bool) (m1 m2 : F A) : still m1 -> still m2 -> still (if b then m1 else m2).
Proof. by destruct b. Qed.
Lemma still_each {A} (f : A -> F unit) l : (forall x, still (f x)) -> still (for_each f l).
Proof. intros Hf. induction l as [|x l IH]; cbn [for_each]; [apply still_ret|]. by apply still_bind. Qed.
Lemma still_atomically {A} (m : F A) : still m -> still (atomically m).
Proof. intros Hm s. unfold atomically. specialize (Hm s). by destruct (m s) as [[a|e] s1]. Qed.
Lemma still_change f : (forall w, view (f w) = view w) -> still (change f).
Proof. intros Hf s. apply Hf. Qed.
(** An operation of [Paths] that only writes paths and endpoints. *)
Lemma still_paths {A} (f : Paths.tables -> res (Paths.tables * A)) :
  (forall b b' a, f b = Ok (b', a) -> nodes b' = nodes b /\ node_name_aliases b' = node_name_aliases b /\ proxies b' = proxies b) -> still (run_paths f).
Proof.
  intros Hf [w n]. unfold run_paths. cbn [fst]. destruct (f (fl_rows w)) as [[b a]|e] eqn:E; [|done].
  destruct (Hf _ _ _ E) as (E1 & E2 & E3). unfold view, set_rows, fl_rows, fl_store. cbn. by rewrite E1, E2, E3.
Qed.
End still.
#[export] Hint Resolve still_ret still_fail still_current still_draws still_look still_ensure still_lift still_require : still.
#[export] Hint Resolve still_bind still_if still_each still_atomically : still.
Ltac keep_all := repeat first
  [ match goal with |- forall _, _ => intro end | solve [auto with still] | apply still_if | apply still_each | apply still_bind | case_match
  | apply still_change; by intros ? ].

Section publication.
Variable oracle : nat -> draw.
Lemma still_set_enabled x on : still (run_paths (fun b => let? b := setPathEnabledUnchecked b x on in Ok (b, tt))).
Proof.
  apply still_paths. intros b b' a. unfold setPathEnabledUnchecked. destruct (paths b !! _); [|done]. by intros [= <- _].
Qed.
Lemma still_UpdatePath x params on : still (run_paths (fun b => UpdatePath b x params on)).
Proof.
  apply still_paths. intros b b' a. unfold UpdatePath. repeat (case_match; try done). by intros [= <- _].
Qed.
Lemma still_CreatePath x params : still (run_paths (fun b => CreatePath b x params)).
Proof.
  apply still_paths. intros b b' a. unfold CreatePath. repeat (case_match; try done). by intros [= <- _].
Qed.
Lemma still_CreateEndpoint e : still (CreateEndpoint e).
Proof. unfold CreateEndpoint. keep_all. Qed.
Hint Resolve still_set_enabled still_UpdatePath still_CreatePath still_CreateEndpoint : still.
Lemma still_EnsureEndpoint x h : still (EnsureEndpoint oracle x h).
Proof. unfold EnsureEndpoint. keep_all. Qed.
Lemma still_disable_path p : still (disable_path p).
Proof. unfold disable_path. keep_all. Qed.
Hint Resolve still_EnsureEndpoint still_disable_path : still.
Lemma still_ensure_direct proxy i h : still (ensure_direct oracle proxy i h).
Proof. unfold ensure_direct. keep_all. Qed.
Hint Resolve still_ensure_direct : still.
Lemma still_ensure_hosts proxy hosts : forall i, still (ensure_hosts oracle proxy i hosts).
Proof. induction hosts as [|h hosts IH]; intros i; cbn [ensure_hosts]; keep_all. Qed.
Lemma still_retire selected e : still (retire_unselected selected e).
Proof. unfold retire_unselected. keep_all. Qed.
Hint Resolve still_ensure_hosts still_retire : still.
Lemma still_EnsureDirectPaths x : still (EnsureDirectPathsForProxy oracle x).
Proof. unfold EnsureDirectPathsForProxy. keep_all. Qed.
Hint Resolve still_EnsureDirectPaths : still.
Lemma still_publication x on : still (SetProxyDirectPublication oracle x on).
Proof. unfold SetProxyDirectPublication. keep_all. Qed.
Lemma still_grant un k : still (run_grants (GrantPathAccess oracle un k)).
Proof.
  intros s. destruct (run_grants (GrantPathAccess oracle un k) s) as [[u|e] s'] eqn:E; cbn [snd].
  - destruct (GrantPathAccess_Ok _ _ _ _ _ _ E) as (user & l & _ & _ & E'). by rewrite E'.
  - unfold run_grants in E. destruct (GrantPathAccess oracle un k (fl_store s.1, s.2)) as [[u1|e1] s1] eqn:G; [done|].
    apply atomic_Err in G. injection E as _ <-. cbn [fst]. by rewrite G.
Qed.
Hint Resolve still_grant : still.
Lemma still_credential x un : still (GrantDirectPathsForCredential oracle x un).
Proof. unfold GrantDirectPathsForCredential. keep_all. Qed.
Hint Resolve still_credential : still.
Lemma still_sync name : still (SyncLegacyDirectPathsForNode oracle name).
Proof. unfold SyncLegacyDirectPathsForNode. apply still_atomically. keep_all. Qed.
End publication.
#[export] Hint Resolve still_publication still_sync : still.

(** ** Steps *)
Definition iv_with_nodes (v : inventory) (m : gmap string Node) (a : gmap string string) : inventory := {|
  iv_nodes := m; iv_node_aliases := a; iv_proxies := iv_proxies v; iv_proxy_aliases := iv_proxy_aliases v; iv_listeners := iv_listeners v |}.
Definition iv_with_proxies (v : inventory) (m : gmap string proxy_row) (a : gmap string string) (l : gmap string listener) : inventory := {|
  iv_nodes := iv_nodes v; iv_node_aliases := iv_node_aliases v; iv_proxies := m; iv_proxy_aliases := a; iv_listeners := l |}.
Definition live_node (v : inventory) (id : string) : Prop := exists n, iv_nodes v !! id = Some n /\ no_DeletedAt n = None.
(** The live proxies of a live node leave room for a listener. *)
Definition fits (v : inventory) (id node protocol : string) (l : listener) : Prop :=
  live_node v node -> forall y q m, y <> id -> iv_proxies v !! y = Some q -> pr_DeletedAt q = None -> pr_NodeID q = node ->
    iv_listeners v !! y = Some m -> listeners_conflict (pr_Protocol q) protocol m l = false.
(** No live resource is called so. *)
Definition unclaimed (ns : namespace) (name : string) : Prop := forall id, is_Some (ns_names ns !! id) -> ~ leads ns name id.
(** What renameNodeTx and renameProxyTx have checked. *)
Definition takes (ns : namespace) (id old new : string) : Prop :=
  old <> new /\ (unclaimed ns new \/ leads ns new id \/ id = new) /\ ns_aliases ns !! old = None /\ (forall j, j <> id -> ns_names ns !! j <> Some new).
Definition alias_left (aliases : gmap string string) (id old new : string) : gmap string string :=
  <[old := id]> (filter (fun ai => ~ (ai.1 = new /\ ai.2 = id)) aliases).

Section steps.
(** The ids that are drawn, the names that are asked for, and whether proxies
    may be restored. *)
Context (is_id is_name : string -> Prop) (restores : Prop).
Inductive step (v : inventory) : inventory -> Prop :=
| st_new_node id n : iv_nodes v !! id = None -> is_id id -> no_ID n = id -> no_DeletedAt n = None -> is_name (no_Name n) ->
    unclaimed (node_space v) (no_Name n) -> step v (iv_with_nodes v (<[id := n]> (iv_nodes v)) (iv_node_aliases v))
| st_node id n n' : iv_nodes v !! id = Some n -> no_DeletedAt n = None -> no_ID n' = no_ID n -> no_Name n' = no_Name n -> no_DeletedAt n' = None ->
    step v (iv_with_nodes v (<[id := n']> (iv_nodes v)) (iv_node_aliases v))
| st_node_name id n new : iv_nodes v !! id = Some n -> no_DeletedAt n = None -> is_name new -> takes (node_space v) id (no_Name n) new ->
    step v (iv_with_nodes v (<[id := with_name n new]> (iv_nodes v)) (alias_left (iv_node_aliases v) id (no_Name n) new))
| st_node_gone id n now : iv_nodes v !! id = Some n -> no_DeletedAt n = None ->
    step v {| iv_nodes := <[id := deleted_node now n]> (iv_nodes v); iv_node_aliases := filter (fun kv => kv.2 <> id) (iv_node_aliases v);
              iv_proxies := archive_node_proxies now id (iv_proxies v);
              iv_proxy_aliases := filter (fun kv => match archive_node_proxies now id (iv_proxies v) !! kv.2 with
                                                    | Some p => is_set (pr_DeletedAt p) | None => false end = false) (iv_proxy_aliases v);
              iv_listeners := iv_listeners v |}
| st_new_proxy id p l : iv_proxies v !! id = None -> is_id id -> live_node v (pr_NodeID p) -> pr_DeletedAt p = None -> is_name (pr_Name p) ->
    unclaimed (proxy_space v) (pr_Name p) -> TrimSpace (pr_Protocol p) = pr_Protocol p -> fits v id (pr_NodeID p) (pr_Protocol p) l ->
    step v (iv_with_proxies v (<[id := p]> (iv_proxies v)) (iv_proxy_aliases v) (<[id := l]> (iv_listeners v)))
| st_proxy id p enabled l : iv_proxies v !! id = Some p -> pr_DeletedAt p = None ->
    (iv_listeners v !! id = Some l \/ fits v id (pr_NodeID p) (TrimSpace (pr_Protocol p)) l) ->
    step v (iv_with_proxies v (<[id := proxy_with p (pr_Name p) enabled (pr_DeletedAt p)]> (iv_proxies v)) (iv_proxy_aliases v) (<[id := l]> (iv_listeners v)))
| st_proxy_on id p enabled : iv_proxies v !! id = Some p -> pr_DeletedAt p = None ->
    step v (iv_with_proxies v (<[id := proxy_with p (pr_Name p) enabled (pr_DeletedAt p)]> (iv_proxies v)) (iv_proxy_aliases v) (iv_listeners v))
| st_proxy_name id p new : iv_proxies v !! id = Some p -> pr_DeletedAt p = None -> is_name new -> takes (proxy_space v) id (pr_Name p) new ->
    step v (iv_with_proxies v (<[id := proxy_with p new (pr_Enabled p) (pr_DeletedAt p)]> (iv_proxies v)) (alias_left (iv_proxy_aliases v) id (pr_Name p) new) (iv_listeners v))
| st_proxy_gone id p now : iv_proxies v !! id = Some p -> pr_DeletedAt p = None ->
    step v (iv_with_proxies v (<[id := deleted_proxy now p]> (iv_proxies v)) (filter (fun kv => kv.2 <> id) (iv_proxy_aliases v)) (iv_listeners v))
| st_restore id p l : restores -> iv_proxies v !! id = Some p -> is_set (pr_DeletedAt p) = true -> iv_listeners v !! id = Some l ->
    fits v id (pr_NodeID p) (pr_Protocol p) l -> (forall j, j <> id -> ns_names (proxy_space v) !! j <> Some (pr_Name p)) ->
    step v (iv_with_proxies v (<[id := proxy_with p (pr_Name p) (pr_Enabled p) None]> (iv_proxies v)) (iv_proxy_aliases v) (iv_listeners v)).

(** The ids of the rows of nodes are their keys; no proxy has the empty id,
    which checkProxyListenerConflicts takes for none. *)
Record keyed (v : inventory) : Prop := {
  ky_nodes : forall k n, iv_nodes v !! k = Some n -> no_ID n = k;
  ky_proxies : iv_proxies v !! "" = None
}.
Context (Hempty : ~ is_id "").
Lemma step_keyed v v' : step v v' -> keyed v -> keyed v'.
Proof.
  intros H [Hk Hx]. destruct H; split; try exact Hk; try exact Hx; cbn;
    try (intros k m; (destruct (decide (k = id)) as [->|Hne]; [rewrite lookup_insert_eq; intros [= <-]|rewrite lookup_insert_ne by done; apply Hk]);
      cbn; first [done|by apply Hk|rewrite H1; by apply Hk]);
    try (rewrite lookup_insert_ne; [done|intros ->; congruence]).
  unfold archive_node_proxies. by rewrite lookup_fmap, Hx.
Qed.
Lemma steps_keyed v v' : rtc step v v' -> keyed v -> keyed v'.
Proof. induction 1; [done|]. intros. by eapply IHrtc, step_keyed. Qed.

(** ** Runs from an inventory *)
(** Started at [v], [m] ends at an inventory that [Q] admits, or fails after steps. *)
Definition runs {A} (v : inventory) (m : F A) (Q : A -> inventory -> Prop) : Prop :=
  triple (fun w => rtc step v (view w)) (fun w => view w = v) m (fun a w => Q a (view w)).
Lemma runs_ret {A} v (a : A) (Q : A -> inventory -> Prop) : Q a v -> runs v (mret a) Q.
Proof. intros HQ. apply triple_ret. by intros w ->. Qed.
Lemma runs_fail {A} v e (Q : A -> inventory -> Prop) : runs v (fail e) Q.
Proof. apply triple_fail. by intros w ->. Qed.
Lemma runs_bind {A B} v (m : F A) (k : A -> F B) R Q : runs v m R ->
  (forall a v1, R a v1 -> rtc step v v1 /\ runs v1 (k a) Q) -> runs v (m ≫= k) Q.
Proof.
  intros Hm Hk s Hs. unfold mbind, eff_bind. pose proof (Hm s Hs) as H1. destruct (m s) as [[a|e] s1]; [|exact H1].
  destruct (Hk _ _ H1) as [Hr Hk']. pose proof (Hk' s1 eq_refl) as H2. destruct (k a s1) as [[b|e] s2]; [exact H2|]. by transitivity (view s1.1).
Qed.
Lemma runs_post {A} v (m : F A) (Q Q' : A -> inventory -> Prop) : (forall a v', Q a v' -> Q' a v') -> runs v m Q -> runs v m Q'.
Proof. intros HQ. apply triple_post. by intros a w ?; apply HQ. Qed.
(** First a part that leaves the inventory alone, with what its result says. *)
Lemma runs_first {A B} v (m : F A) (k : A -> F B) (R : A -> Prop) Q : runs v m (fun a v' => v' = v /\ R a) ->
  (forall a, R a -> runs v (k a) Q) -> runs v (m ≫= k) Q.
Proof. intros Hm Hk. eapply runs_bind; [exact Hm|]. by intros a v1 [-> HR]; split; [|apply Hk]. Qed.
Lemma runs_keeps {A} v (m : F A) : still m -> runs v m (fun _ v' => v' = v /\ True).
Proof. intros Hm s Hs. specialize (Hm s). destruct (m s) as [[a|e] s']; cbn in *; rewrite Hm, Hs; [done|apply rtc_refl]. Qed.
Lemma runs_look {A} v (f : Paths.tables -> res A) : runs v (look f) (fun a v' => v' = v /\ exists w, view w = v /\ f (fl_rows w) = Ok a).
Proof. intros s Hs. unfold look. destruct (f (fl_rows s.1)) as [a|e] eqn:E; cbn; rewrite Hs; [|apply rtc_refl]. split; [done|]. by exists s.1. Qed.
Lemma runs_current v : runs v current (fun w v' => v' = v /\ view w = v).
Proof. intros s Hs. by split. Qed.
Lemma runs_ensure v b e : runs v (ensure_that b e) (fun _ v' => v' = v /\ b = true).
Proof. intros s Hs. destruct b; cbn; rewrite Hs; [done|apply rtc_refl]. Qed.
Lemma runs_draws oracle v : runs v (draws oracle) (fun d v' => v' = v /\ exists n, d = oracle n).
Proof. intros s Hs. split; [exact Hs|]. by exists s.2. Qed.
Lemma runs_change v f : runs v (change f) (fun _ v' => exists w, view w = v /\ v' = view (f w)).
Proof. intros s Hs. by exists s.1. Qed.
Lemma runs_atomically {A} v (m : F A) Q : (forall s a s', view s.1 = v -> m s = (Ok a, s') -> Q a (view s'.1)) -> runs v (atomically m) Q.
Proof.
  intros Hm s Hs. unfold atomically. specialize (Hm s). destruct (m s) as [[a|e] s']; cbn; [by apply Hm|rewrite Hs; apply rtc_refl].
Qed.
End steps.

(** ** What the checks say of the names *)
Section checks.
Context (w : fleet).
Lemma node_names_Some v id name : ns_names (node_space v) !! id = Some name <-> exists n, iv_nodes v !! id = Some n /\ no_DeletedAt n = None /\ no_Name n = name.
Proof.
  cbn. rewrite lookup_omap. destruct (iv_nodes v !! id) as [n|]; cbn; [|by split; [|intros (? & ? & _)]].
  destruct (no_DeletedAt n) eqn:E; cbn; split; [done|intros (? & [= <-] & ? & _); congruence|intros [= <-]; by exists n|by intros (? & [= <-] & _ & <-)].
Qed.
Lemma proxy_names_Some v id name : ns_names (proxy_space v) !! id = Some name <-> exists p, iv_proxies v !! id = Some p /\ pr_DeletedAt p = None /\ pr_Name p = name.
Proof.
  cbn. rewrite lookup_omap. destruct (iv_proxies v !! id) as [n|]; cbn; [|by split; [|intros (? & ? & _)]].
  destruct (pr_DeletedAt n) eqn:E; cbn; split; [done|intros (? & [= <-] & ? & _); congruence|intros [= <-]; by exists n|by intros (? & [= <-] & _ & <-)].
Qed.
Lemma node_owner_none name : GetNodeIDByNameOrAlias (fl_rows w) name = None -> unclaimed (node_space (view w)) name.
Proof.
  unfold GetNodeIDByNameOrAlias. destruct (List.find _ _) as [kn|] eqn:E; [done|]. intros _ id [nm (n & Hn & Hd & _)%node_names_Some] Hl.
  assert (H := List.find_none _ _ E (id, n)). cbn in H. rewrite Hd, andb_true_r in H.
  assert (Hin : In (id, n) (map_to_list (nodes (fl_rows w)))) by (by apply list_elem_of_In, elem_of_map_to_list). apply H, orb_false_iff in Hin as [[_ Hnm]%orb_false_iff Hal].
  destruct Hl as [(m & Hm & _ & Hname)%node_names_Some|Ha]; [|apply bool_decide_eq_false in Hal; destruct (Hal Ha)].
  rewrite Hn in Hm. injection Hm as <-. by apply String.eqb_neq in Hnm.
Qed.
Lemma node_owner_some name id : GetNodeIDByNameOrAlias (fl_rows w) name = Some id -> id = name \/ leads (node_space (view w)) name id.
Proof.
  unfold GetNodeIDByNameOrAlias. destruct (List.find _ _) as [[k n]|] eqn:E; [|done]. intros [= <-].
  apply List.find_some in E as [Hin%list_elem_of_In%elem_of_map_to_list Hf]. cbn in Hf. apply andb_true_iff in Hf as [Hf Hd].
  apply orb_true_iff in Hf as [Hf|Hf]; [apply orb_true_iff in Hf as [Hf|Hf]; apply String.eqb_eq in Hf; [by left|]|apply bool_decide_eq_true in Hf; by right; right].
  right. left. apply node_names_Some. exists n. split; [done|]. split; [by destruct (no_DeletedAt n)|done].
Qed.
Lemma proxy_owner_none name : GetProxyIDByNameOrAlias (fl_store w) name = None -> unclaimed (proxy_space (view w)) name.
Proof.
  unfold GetProxyIDByNameOrAlias. destruct (List.find _ _) as [kn|] eqn:E; [done|]. intros _ id [nm (n & Hn & Hd & _)%proxy_names_Some] Hl.
  assert (H := List.find_none _ _ E (id, n)). cbn in H. rewrite Hd in H. cbn in H.
  assert (Hin : In (id, n) (map_to_list (proxies (base (fl_store w))))) by (by apply list_elem_of_In, elem_of_map_to_list). apply H, orb_false_iff in Hin as [[_ Hnm]%orb_false_iff Hal].
  destruct Hl as [(m & Hm & _ & Hname)%proxy_names_Some|Ha]; [|apply bool_decide_eq_false in Hal; destruct (Hal Ha)].
  rewrite Hn in Hm. injection Hm as <-. by apply String.eqb_neq in Hnm.
Qed.
Lemma proxy_owner_some name id : GetProxyIDByNameOrAlias (fl_store w) name = Some id -> id = name \/ leads (proxy_space (view w)) name id.
Proof.
  unfold GetProxyIDByNameOrAlias. destruct (List.find _ _) as [[k n]|] eqn:E; [|done]. intros [= <-].
  apply List.find_some in E as [Hin%list_elem_of_In%elem_of_map_to_list Hf]. cbn in Hf. apply andb_true_iff in Hf as [Hd Hf].
  apply orb_true_iff in Hf as [Hf|Hf]; [apply orb_true_iff in Hf as [Hf|Hf]; apply String.eqb_eq in Hf; [by left|]|apply bool_decide_eq_true in Hf; by right; right].
  right. left. apply proxy_names_Some. exists n. split; [done|]. split; [by destruct (pr_DeletedAt n)|done].
Qed.
Lemma node_name_free_spec id name : node_name_free (fl_rows w) id name = true -> forall j, j <> id -> ns_names (node_space (view w)) !! j <> Some name.
Proof.
  unfold node_name_free. rewrite forallb_forall. intros H j Hj (n & Hn & Hd & Hname)%node_names_Some.
  specialize (H (j, n)). cbn in H. rewrite Hd in H. cbn in H. assert (Hin : In (j, n) (map_to_list (nodes (fl_rows w)))) by (by apply list_elem_of_In, elem_of_map_to_list).
  apply H in Hin. rewrite orb_false_r, Hname, String.eqb_refl, orb_false_r in Hin. by apply String.eqb_eq in Hin.
Qed.
Lemma proxy_name_free_spec id name : proxy_name_free (fl_rows w) id name = true -> forall j, j <> id -> ns_names (proxy_space (view w)) !! j <> Some name.
Proof.
  unfold proxy_name_free. rewrite forallb_forall. intros H j Hj (n & Hn & Hd & Hname)%proxy_names_Some.
  specialize (H (j, n)). cbn in H. rewrite Hd in H. cbn in H. assert (Hin : In (j, n) (map_to_list (proxies (fl_rows w)))) by (by apply list_elem_of_In, elem_of_map_to_list).
  apply H in Hin. rewrite orb_false_r, Hname, String.eqb_refl, orb_false_r in Hin. by apply String.eqb_eq in Hin.
Qed.
End checks.

(** ** Successful runs *)
Lemma GetProxyF_Ok nn pn s p s' : GetProxyF nn pn s = (Ok p, s') -> s' = s /\ live_proxy (fl_rows s.1) (px_ID p) = Some p.
Proof.
  unfold GetProxyF, run_grants. destruct (GetProxy nn pn (fl_store s.1, s.2)) as [[q|] s1] eqn:E; [|done]. intros [= -> <-].
  pose proof E as E'. apply GetProxy_live in E as [Hl _]. apply GetProxy_Ok in E' as ->. split; [|exact Hl]. by destruct s as [[[] ? ?] ?].
Qed.
Lemma lift_Ok {A} (r : result FleetError A) s a s' : lift r s = (Ok a, s') -> r = Ok a /\ s' = s.
Proof. destruct r; [by intros [= -> <-]|done]. Qed.
Lemma require_Ok {A} (o : option A) e s a s' : require o e s = (Ok a, s') -> o = Some a /\ s' = s.
Proof. destruct o; [by intros [= -> <-]|done]. Qed.
(** Take a successful run apart. *)
Ltac frun H :=
  lazymatch type of H with
  | (_ ≫= _) _ = (Ok _, _) =>
      let a := fresh "a" in let s1 := fresh "s" in let H1 := fresh "Hr" in
      apply bind_Ok in H as (a & s1 & H1 & H); frun H1; frun H
  | mret _ _ = (Ok _, _) => let H1 := fresh in apply ret_Ok in H as [H1 H]; try subst
  | fail _ _ = (Ok _, _) => by apply fail_Ok in H
  | current _ = _ => let H1 := fresh in apply current_Ok in H as [H1 H]; subst
  | change _ _ = _ => apply change_Ok in H; subst
  | draws _ _ = _ => let H1 := fresh in apply draws_Ok in H as [H1 H]; subst
  | look _ _ = _ => let H1 := fresh in apply look_Ok in H as [H H1]; subst
  | ensure_that _ _ _ = _ => let H1 := fresh in apply ensure_that_Ok in H as [H H1]; subst
  | lift _ _ = _ => let H1 := fresh in apply lift_Ok in H as [H H1]; subst
  | require _ _ _ = _ => let H1 := fresh in apply require_Ok in H as [H H1]; subst
  | GetProxyF _ _ _ = _ => let H1 := fresh in apply GetProxyF_Ok in H as [H1 H]; subst
  | _ => idtac
  end.
Lemma filter_alias_noop (m : gmap string string) (new id : string) : m !! new <> Some id -> filter (fun ai : string * string => ~ (ai.1 = new /\ ai.2 = id)) m = m.
Proof. intros H. apply map_filter_id. intros a i Hai [E1 E2]. cbn in E1, E2. by subst. Qed.
Lemma renameNodeTx_Ok id n new s u s' : iv_nodes (view s.1) !! id = Some n -> no_DeletedAt n = None -> renameNodeTx id (no_Name n) new s = (Ok u, s') ->
  (no_Name n = new /\ view s'.1 = view s.1) \/ (takes (node_space (view s.1)) id (no_Name n) new /\
    view s'.1 = iv_with_nodes (view s.1) (<[id := with_name n new]> (iv_nodes (view s.1))) (alias_left (iv_node_aliases (view s.1)) id (no_Name n) new)).
Proof.
  intros Hn Hd. unfold renameNodeTx. destruct (no_Name n =? new)%string eqn:E; [intros H; frun H; left; split; [by apply String.eqb_eq|done]|].
  apply String.eqb_neq in E. intros H. apply bind_Ok in H as (w & s1 & [-> ->]%current_Ok & H).
  apply bind_Ok in H as ([] & s1 & H1 & H).
  assert (Hown : (unclaimed (node_space (view s.1)) new \/ leads (node_space (view s.1)) new id \/ id = new) /\
    view s1.1 = iv_with_nodes (view s.1) (iv_nodes (view s.1)) (filter (fun ai : string * string => ~ (ai.1 = new /\ ai.2 = id)) (iv_node_aliases (view s.1)))).
  { destruct (GetNodeIDByNameOrAlias (fl_rows s.1) new) as [owner|] eqn:Eo.
    - frun H1. breflect. subst owner. split; [|done]. apply node_owner_some in Eo as [?|?]; auto.
    - frun H1. apply node_owner_none in Eo. split; [by left|]. rewrite filter_alias_noop; [by destruct s as [[[] ? ?] ?]|].
      intros Ha. apply (Eo id); [|by right]. exists (no_Name n). apply node_names_Some. by exists n. }
  destruct Hown as [Hown Ev]. frun H.
  assert (Hal : iv_node_aliases (view s1.1) !! no_Name n = None) by (by destruct (iv_node_aliases (view s1.1) !! no_Name n) eqn:X; [unfold view in X; cbn in X; rewrite X in *|]).
  assert (Hrow : iv_nodes (view s1.1) !! id = Some n) by (by rewrite Ev).
  unfold view in Hrow. cbn in Hrow. cbn in H. rewrite Hrow, Hd in H. cbn in H. frun H.
  match goal with H : node_name_free _ _ _ = true |- _ => rename H into Hfree end.
  right. split; [split_and!; try done|].
  - rewrite Ev in Hal. cbn in Hal |- *. apply map_lookup_filter_None in Hal as [Hal|Hal]; [done|].
    destruct (iv_node_aliases (view s.1) !! no_Name n) as [i|] eqn:X; [|done]. exfalso. apply (Hal i); [done|]. by intros [Hx _].
  - intros j Hj. pose proof (node_name_free_spec _ _ _ Hfree j Hj) as Hx.
    change (ns_names (node_space (view s1.1)) !! j <> Some new) in Hx. by rewrite Ev in Hx.
  - unfold alias_left. change (iv_node_aliases (view s.1)) with (iv_node_aliases (iv_with_nodes (view s.1) (iv_nodes (view s.1)) (iv_node_aliases (view s.1)))).
    transitivity (iv_with_nodes (view s1.1) (<[id := with_name n new]> (iv_nodes (view s1.1))) (<[no_Name n := id]> (iv_node_aliases (view s1.1)))); [done|]. by rewrite Ev.
Qed.
Lemma renameProxyTx_Ok id p new s u s' : iv_proxies (view s.1) !! id = Some p -> pr_DeletedAt p = None -> renameProxyTx id (pr_Name p) new s = (Ok u, s') ->
  (pr_Name p = new /\ view s'.1 = view s.1) \/ (takes (proxy_space (view s.1)) id (pr_Name p) new /\
    view s'.1 = iv_with_proxies (view s.1) (<[id := proxy_with p new (pr_Enabled p) (pr_DeletedAt p)]> (iv_proxies (view s.1)))
                  (alias_left (iv_proxy_aliases (view s.1)) id (pr_Name p) new) (iv_listeners (view s.1))).
Proof.
  intros Hn Hd. unfold renameProxyTx. destruct (pr_Name p =? new)%string eqn:E; [intros H; frun H; left; split; [by apply String.eqb_eq|done]|].
  apply String.eqb_neq in E. intros H. apply bind_Ok in H as (w & s1 & [-> ->]%current_Ok & H).
  apply bind_Ok in H as ([] & s1 & H1 & H).
  assert (Hown : (unclaimed (proxy_space (view s.1)) new \/ leads (proxy_space (view s.1)) new id \/ id = new) /\
    view s1.1 = iv_with_proxies (view s.1) (iv_proxies (view s.1)) (filter (fun ai : string * string => ~ (ai.1 = new /\ ai.2 = id)) (iv_proxy_aliases (view s.1))) (iv_listeners (view s.1))).
  { destruct (GetProxyIDByNameOrAlias (fl_store s.1) new) as [owner|] eqn:Eo.
    - frun H1. breflect. subst owner. split; [|done]. apply proxy_owner_some in Eo as [?|?]; auto.
    - frun H1. apply proxy_owner_none in Eo. split; [by left|]. rewrite filter_alias_noop; [by destruct s as [[[] ? ?] ?]|].
      intros Ha. apply (Eo id); [|by right]. exists (pr_Name p). apply proxy_names_Some. by exists p. }
  destruct Hown as [Hown Ev]. frun H.
  assert (Hal : iv_proxy_aliases (view s1.1) !! pr_Name p = None) by (by destruct (iv_proxy_aliases (view s1.1) !! pr_Name p) eqn:X; [unfold view in X; cbn in X; rewrite X in *|]).
  assert (Hrow : iv_proxies (view s1.1) !! id = Some p) by (by rewrite Ev).
  change (proxies (fl_rows (set_proxy_aliases s1.1 (<[pr_Name p := id]> (proxy_name_aliases (fl_store s1.1))))) !! id = Some p) in Hrow.
  cbn [fst snd] in H. rewrite Hrow, Hd in H. cbn [is_set orb] in H. frun H.
  match goal with H : proxy_name_free _ _ _ = true |- _ => rename H into Hfree end.
  right. split; [split_and!; try done|].
  - rewrite Ev in Hal. cbn in Hal |- *. apply map_lookup_filter_None in Hal as [Hal|Hal]; [done|].
    destruct (iv_proxy_aliases (view s.1) !! pr_Name p) as [i|] eqn:X; [|done]. exfalso. apply (Hal i); [done|]. by intros [Hx _].
  - intros j Hj. pose proof (proxy_name_free_spec _ _ _ Hfree j Hj) as Hx.
    change (ns_names (proxy_space (view s1.1)) !! j <> Some new) in Hx. by rewrite Ev in Hx.
  - unfold alias_left. rewrite Hd.
    transitivity (iv_with_proxies (view s1.1) (<[id := proxy_with p new (pr_Enabled p) None]> (iv_proxies (view s1.1))) (<[pr_Name p := id]> (iv_proxy_aliases (view s1.1))) (iv_listeners (view s1.1))); [done|]. by rewrite Ev.
Qed.
(** What GetNode and GetProxy return is there. *)
Lemma found_node v w name n : keyed v -> view w = v -> GetNode (fl_rows w) name = Ok n -> iv_nodes v !! no_ID n = Some n /\ no_DeletedAt n = None.
Proof. intros Hk <- H. apply (GetNode_found (fl_store w) name n); [exact (ky_nodes _ Hk)|exact H]. Qed.
Lemma found_proxy w x p : live_proxy (fl_rows w) x = Some p -> exists row, iv_proxies (view w) !! x = Some row /\ pr_DeletedAt row = None /\
  live_node (view w) (pr_NodeID row) /\ px_ID p = x /\ px_NodeID p = pr_NodeID row /\ px_Name p = pr_Name row /\ px_Protocol p = pr_Protocol row.
Proof. intros (row & n & Hr & Hn & Hd & Hnd & ->)%live_proxy_Some. exists row. split_and!; try done. by exists n. Qed.
(** validateProxyListenerTx leaves room for the listener on the node. *)
Lemma conflicts_spec proxies name protocol next ignored : checkProxyListenerConflicts proxies name protocol next ignored = Ok tt ->
  forall p l, (p, l) ∈ proxies -> px_ID p <> ignored -> listeners_conflict (px_Protocol p) protocol l next = false.
Proof.
  induction proxies as [|[q m] proxies IH]; cbn; intros H p l Hin Hne; [by apply elem_of_nil in Hin|].
  destruct (px_ID q =? ignored)%string eqn:E1; [|destruct (listeners_conflict (px_Protocol q) protocol m next) eqn:E2; [done|]];
    (apply elem_of_cons in Hin as [[= -> ->]|Hin]; [breflect; done|by apply IH]).
Qed.
Lemma validated s u s' id node name protocol l ignored : iv_nodes (view s.1) !! id = Some node ->
  validateProxyListenerTx (no_Name node) name protocol l ignored s = (Ok u, s') -> s' = s /\ fits (view s.1) ignored id protocol l.
Proof.
  intros Hnode H. unfold validateProxyListenerTx in H. frun H. destruct u. match goal with H : checkProxyListenerConflicts _ _ _ _ _ = _ |- _ => rename H into Hc end.
  split; [done|]. intros (n & Hn & Hnd) y q m Hne Hq Hqd Hqn Hm. rewrite Hnode in Hn. injection Hn as <-.
  set (p := {| px_ID := y; px_NodeID := pr_NodeID q; px_NodeName := no_Name node; px_Name := pr_Name q; px_Protocol := pr_Protocol q; px_Enabled := pr_Enabled q |}).
  apply (conflicts_spec _ _ _ _ _ Hc p m); [|done]. unfold ListProxiesByNodeName. rewrite merge_sort_Permutation.
  apply list_elem_of_In, List.filter_In. split; [|apply String.eqb_refl]. apply list_elem_of_In. unfold live_details. apply list_elem_of_omap.
  exists (y, q). split; [apply elem_of_map_to_list; exact Hq|]. cbn. change (listeners (fl_site s.1) !! y = Some m) in Hm.
  assert (Hl : live_proxy (rows_of (fl_site s.1)) y = Some p).
  { apply live_proxy_Some. exists q, node. subst id. split_and!; [exact Hq|exact Hnode|exact Hqd|exact Hnd|reflexivity]. }
  rewrite Hl. cbn. by rewrite Hm.
Qed.

(** What follows a deletion leaves nodes and proxies alone. *)
Lemma disable_users_tables users : forall b b', disable_for_users b users = Ok b' -> exists m, b' = with_credentials b m.
Proof.
  induction users as [|u users IH]; cbn; intros b b'; [intros [= <-]; exists (credentials b); by destruct b|].
  destruct (proxy_users b !! u) as [user|]; [|done]. destruct (is_set (us_DeletedAt user)); [apply IH|].
  destruct (disableUnusedProxyCredentialsTx b user) as [b1|] eqn:E; [|done]. cbn. apply disableUnused_shape in E as [-> _].
  intros (m & ->)%IH. by exists m.
Qed.
Lemma retire_tables now s s' : retireResourceDependenciesTx now s = Ok s' -> nodes (base s') = nodes (base s) /\
  node_name_aliases (base s') = node_name_aliases (base s) /\ proxies (base s') = proxies (base s) /\ proxy_name_aliases s' = proxy_name_aliases s.
Proof.
  unfold retireResourceDependenciesTx. destruct (foldl _ _ _) as [s1 users] eqn:El. apply retire_loop in El as [Hall _].
  destruct (disable_for_users _ _) as [b|] eqn:E; [|done]. intros [= <-]. apply disable_users_tables in E as [m ->].
  destruct (ra_tables _ _ _ _ Hall) as (_ & E2 & E3 & _ & _ & _ & E7). destruct (ra_store _ _ _ _ Hall) as (_ & _ & S3 & _). by split_and!.
Qed.

(** ** The requests *)
Section requests.
Context `{UnicodeTables} (oracle : nat -> draw) (json_valid : string -> bool) (object_short_id : string -> option (option (option string)))
  (set_short_id : string -> string -> string) (decode_ss_settings : string -> option Shadowsocks2022Settings)
  (encode_ss_settings : Shadowsocks2022Settings -> string) (base64_length : string -> option nat) (created_at : string -> string).
Context (is_id is_name : string -> Prop) (restores : Prop) (Hids : forall n, is_id (dr_id (oracle n))).
#[local] Abbreviation step := (step is_id is_name restores).
#[local] Abbreviation runs := (runs is_id is_name restores).
#[local] Abbreviation normalizeProxyParams := (normalizeProxyParams oracle json_valid object_short_id set_short_id decode_ss_settings encode_ss_settings base64_length).

Lemma runs_still {A} v (m : F A) : still m -> runs v m (fun _ v' => rtc step v v').
Proof. intros Hm. eapply runs_post; [|by apply runs_keeps]. intros a v' [-> _]. apply rtc_refl. Qed.
Lemma runs_writes v f : (forall w, view w = v -> step v (view (f w))) -> runs v (change f) (fun _ v' => rtc step v v').
Proof. intros Hf. eapply runs_post; [|apply runs_change]. intros [] v1 (w & Hw & ->). by apply rtc_once, Hf. Qed.
(** After steps only parts that leave the inventory alone. *)
Lemma runs_steps {A B} v (m : F A) (k : A -> F B) : runs v m (fun _ v1 => rtc step v v1) -> (forall a, still (k a)) -> runs v (m ≫= k) (fun _ v2 => rtc step v v2).
Proof.
  intros Hm Hk. eapply runs_bind; [exact Hm|]. intros a v1 Hv. split; [done|]. eapply runs_post; [|apply runs_still, Hk]. intros b v2 Hv2. by transitivity v1.
Qed.
Lemma still_known hosts existing : still (ensureNodeHostIDs oracle hosts existing).
Proof.
  unfold ensureNodeHostIDs. keep_all. match goal with |- still (missing_ids _ _ ?i ?seen ?l) => generalize i, seen, l end.
  intros i seen l. revert i seen. induction l as [|h l IH]; intros i seen; cbn [missing_ids]; keep_all.
Qed.
Lemma still_GetProxy nn pn : still (GetProxyF nn pn).
Proof.
  intros s. unfold GetProxyF, run_grants. destruct (GetProxy nn pn (fl_store s.1, s.2)) as [r s1] eqn:E. cbn.
  assert (s1 = (fl_store s.1, s.2)) as ->; [|by destruct s as [[[] ? ?] ?]].
  destruct r as [p|e]; [by apply GetProxy_Ok in E|]. revert E. unfold GetProxy, mbind, eff_bind, query, get. cbn.
  destruct (GetNode _ _); [|by intros [= _ <-]]. destruct (proxies _ !! _); [destruct (live_proxy _ _) as [q|]; [destruct (_ =? _)%string|]|destruct (proxy_by_name _ _ _)]; by intros [= _ <-].
Qed.
Hint Resolve still_known still_GetProxy : still.
Ltac first_ensure := let H := fresh "He" in eapply runs_first; [apply runs_ensure|cbv beta; intros ? H].
Ltac first_still := eapply runs_first; [apply runs_keeps; keep_all|intros ? _].

Ltac tail_still := apply runs_steps; [|intros ?; keep_all].
Lemma CreateNode_steps v name host : is_name (TrimSpace name) -> runs v (CreateNode oracle name host) (fun _ v' => rtc step v v').
Proof.
  intros Hname. unfold CreateNode. cbv zeta. do 3 first_ensure.
  eapply runs_first; [apply runs_current|intros w Hw]. first_ensure.
  eapply runs_first; [apply runs_draws|intros d [n ->]]. first_still.
  eapply runs_first; [apply runs_current|intros w' Hw']. first_ensure. breflect.
  match goal with H : is_set (GetNodeIDByNameOrAlias _ _) = false |- _ => rename H into Ho end.
  match goal with H : is_set (nodes _ !! _) = false |- _ => rename H into Hn end.
  apply runs_steps; [|intros []; keep_all]. apply runs_writes. intros w0 <-.
  refine (st_new_node _ _ _ (view w0) (dr_id (oracle n)) _ _ _ _ _ _ _); try done.
  - rewrite <- Hw'. by apply is_set_false in Hn.
  - rewrite <- Hw. apply node_owner_none. by apply is_set_false.
Qed.
Lemma SetNodeStatus_steps v name status : keyed v -> runs v (SetNodeStatus name status) (fun _ v' => rtc step v v').
Proof.
  intros Hk. unfold SetNodeStatus. first_ensure. eapply runs_first; [apply runs_look|intros node (w & Hw & Hn)].
  destruct (found_node _ _ _ _ Hk Hw Hn) as [Hrow Hd].
  eapply runs_first; [apply runs_current|intros w' Hw']. rewrite <- Hw' in Hrow. unfold view in Hrow. cbn in Hrow. rewrite Hrow.
  first_ensure. apply runs_writes. intros w0 Hw0. rewrite <- Hw0.
  refine (st_node _ _ _ (view w0) (no_ID node) node (updated_node node (no_Hosts node) status) _ Hd _ _ Hd); try done. rewrite Hw0, <- Hw'. exact Hrow.
Qed.
Lemma RenameNode_steps v old new : keyed v -> is_name (TrimSpace new) -> runs v (RenameNode old new) (fun _ v' => rtc step v v').
Proof.
  intros Hk Hname. unfold RenameNode. cbv zeta. do 3 first_ensure. apply runs_steps; [|intros id; keep_all].
  apply runs_atomically. intros s id s' <- H'. apply bind_Ok in H' as (n & s1 & [Hn ->]%look_Ok & H').
  destruct (found_node _ _ _ _ Hk eq_refl Hn) as [Hrow Hd]. apply bind_Ok in H' as ([] & s1 & H1 & H'). frun H'.
  destruct (no_Name n =? TrimSpace new)%string; [frun H1; apply rtc_refl|].
  apply (renameNodeTx_Ok _ _ _ _ _ _ Hrow Hd) in H1 as [[_ ->]|[Ht ->]]; [apply rtc_refl|]. by apply rtc_once, st_node_name.
Qed.
Lemma UpdateNodeByName_steps v current params : keyed v -> is_name (TrimSpace (un_Name params)) ->
  runs v (UpdateNodeByName oracle current params) (fun _ v' => rtc step v v').
Proof.
  intros Hk Hname. unfold UpdateNodeByName. cbv zeta. do 4 first_ensure.
  first_still. first_still. first_still. first_still. first_still.
  destruct (dropped_host_used _ _ _) as [id|]; [apply runs_fail|].
  apply runs_steps; [|intros []; keep_all].
  apply runs_atomically. intros s u s' <- H'. apply bind_Ok in H' as (n & s1 & [Hn ->]%look_Ok & H').
  destruct (found_node _ _ _ _ Hk eq_refl Hn) as [Hrow Hd]. apply bind_Ok in H' as ([] & s1 & H1 & H').
  apply bind_Ok in H' as (w' & s2 & [-> ->]%current_Ok & H').
  destruct (nodes (fl_rows s1.1) !! no_ID n) as [row|] eqn:Er; [|done]. frun H'. change (iv_nodes (view s1.1) !! no_ID n = Some row) in Er.
  assert (Hedit : rtc step (view s.1) (view s1.1) /\ no_DeletedAt row = None) .
  { apply (renameNodeTx_Ok _ _ _ _ _ _ Hrow Hd) in H1 as [[_ E]|[Ht E]]; rewrite E in Er |- *.
    - rewrite Hrow in Er. injection Er as <-. split; [apply rtc_refl|done].
    - cbn in Er. rewrite lookup_insert_eq in Er. injection Er as <-. split; [by apply rtc_once, st_node_name|done]. }
  destruct Hedit as [Hs Hrd]. etransitivity; [exact Hs|]. apply rtc_once.
  by refine (st_node _ _ _ (view s1.1) (no_ID n) row (updated_node row _ _) Er Hrd _ _ _).
Qed.
(** normalizeProxyParams: the name and the protocol of the outcome. *)
Lemma normalize_still params : still (normalizeProxyParams params).
Proof. unfold Inventory.normalizeProxyParams, normalizeShadowsocks2022SettingsJSON. cbv zeta. keep_all. Qed.
Lemma normalize_Ok params s p s' : normalizeProxyParams params s = (Ok p, s') ->
  np_name p = TrimSpace (pp_Name params) /\ np_protocol p = TrimSpace (pp_Protocol params).
Proof.
  unfold Inventory.normalizeProxyParams. cbv zeta. intros H'.
  repeat match type of H' with (_ ≫= _) _ = _ => apply bind_Ok in H' as (? & ? & _ & H') end. by apply ret_Ok in H' as [-> _].
Qed.
Lemma runs_normalize v params : runs v (normalizeProxyParams params)
  (fun p v' => v' = v /\ np_name p = TrimSpace (pp_Name params) /\ np_protocol p = TrimSpace (pp_Protocol params)).
Proof.
  intros s Hs. pose proof (normalize_still params s) as Hk. destruct (normalizeProxyParams params s) as [[p|e] s'] eqn:E; cbn in *; rewrite Hk, Hs.
  - split; [done|]. by eapply normalize_Ok.
  - apply rtc_refl.
Qed.
#[local] Abbreviation CreateProxy := (CreateProxy oracle json_valid object_short_id set_short_id decode_ss_settings encode_ss_settings base64_length).
#[local] Abbreviation UpdateProxyByName := (UpdateProxyByName oracle json_valid object_short_id set_short_id decode_ss_settings encode_ss_settings base64_length).
Lemma CreateProxy_steps v nodeName params publish : keyed v -> is_name (TrimSpace (pp_Name params)) ->
  runs v (CreateProxy nodeName params publish) (fun _ v' => rtc step v v').
Proof.
  intros Hk Hname. unfold Inventory.CreateProxy. eapply runs_first; [apply runs_look|intros node (w & Hw & Hn)].
  destruct (found_node _ _ _ _ Hk Hw Hn) as [Hrow Hd]. clear w Hw Hn.
  eapply runs_first; [apply runs_normalize|intros p [Hpn Hpp]]. eapply runs_first; [apply runs_draws|intros d [n ->]].
  apply runs_steps; [|intros []; keep_all]. apply runs_atomically. intros s u s' <- H'.
  apply bind_Ok in H' as ([] & s1 & H1 & H'). destruct (validated _ _ _ _ _ _ _ _ _ Hrow H1) as [-> Hfit].
  frun H'. breflect. 
  match goal with H : is_set (GetProxyIDByNameOrAlias _ _) = false |- _ => apply is_set_false in H; rename H into Ho end.
  match goal with H : is_set (proxies _ !! _) = false |- _ => apply is_set_false in H; rename H into Hnew end.
  apply rtc_once. refine (st_new_proxy _ _ _ (view s.1) (dr_id (oracle n)) _ _ Hnew _ _ _ _ _ _ _); cbn; try done.
  - by exists node.
  - by rewrite Hpn.
  - by apply proxy_owner_none.
  - rewrite Hpp. apply TrimSpace_idem.
  - intros Hl y q m Hne Hq Hqd Hqn Hm. apply (Hfit Hl y q m); try done. intros ->. by rewrite (ky_proxies _ Hk) in Hq.
Qed.
Lemma runs_GetProxy v nn pn : runs v (GetProxyF nn pn) (fun p v' => v' = v /\ exists w, view w = v /\ live_proxy (fl_rows w) (px_ID p) = Some p).
Proof.
  intros s Hs. pose proof (still_GetProxy nn pn s) as Hk. destruct (GetProxyF nn pn s) as [[p|e] s'] eqn:E; cbn in *; rewrite Hk, Hs; [|apply rtc_refl].
  split; [done|]. apply GetProxyF_Ok in E as [_ Hl]. by exists s.1.
Qed.
(** Renaming the proxy itself leaves its room alone. *)
Lemma fits_renamed v id p a node protocol l : fits v id node protocol l -> fits (iv_with_proxies v (<[id := p]> (iv_proxies v)) a (iv_listeners v)) id node protocol l.
Proof. intros Hf Hl y q m Hne. cbn. rewrite lookup_insert_ne by done. by apply Hf. Qed.
Lemma UpdateProxyByName_steps v nodeName current pnode params : keyed v -> is_name (TrimSpace (pp_Name params)) ->
  runs v (UpdateProxyByName nodeName current pnode params) (fun _ v' => rtc step v v').
Proof.
  intros Hk Hname. unfold Inventory.UpdateProxyByName. cbv zeta. first_ensure. eapply runs_first; [apply runs_look|intros node (w & Hw & Hn)].
  destruct (found_node _ _ _ _ Hk Hw Hn) as [Hrow Hd]. clear w Hw Hn. first_ensure.
  eapply runs_first; [apply runs_GetProxy|intros ex (w & Hw & (p & Hp & Hpd & _ & _ & Epn & Epname & Eproto)%found_proxy)].
  rewrite Hw in Hp. clear w Hw.
  eapply runs_first; [apply runs_normalize|intros np [Hnn Hnp]]. apply runs_steps; [|intros []; keep_all].
  apply runs_atomically. intros s u s' <- H'. apply bind_Ok in H' as (cur & s1 & [-> _]%GetProxyF_Ok & H').
  apply bind_Ok in H' as (u1 & s1 & [_ ->]%ensure_that_Ok & H').
  apply bind_Ok in H' as ([] & s1 & H1 & H'). destruct (validated _ _ _ _ _ _ _ _ _ Hrow H1) as [-> Hfit].
  apply bind_Ok in H' as ([] & s1 & H1' & H'). rewrite Epname in H1'.
  apply bind_Ok in H' as (w' & s2 & [-> ->]%current_Ok & H').
  destruct (proxies (fl_rows s1.1) !! px_ID ex) as [row|] eqn:Er; [|done]. frun H'. change (iv_proxies (view s1.1) !! px_ID ex = Some row) in Er.
  rewrite Eproto in Hnp. rewrite Hnp in Hfit. cbn in Hnn.
  assert (Hedit : rtc step (view s.1) (view s1.1) /\ pr_DeletedAt row = None /\ fits (view s1.1) (px_ID ex) (pr_NodeID row) (TrimSpace (pr_Protocol row)) (np_listener np)).
  { breflect. match goal with H : pr_NodeID row = no_ID node |- _ => rewrite H end.
    apply (renameProxyTx_Ok _ _ _ _ _ _ Hp Hpd) in H1' as [[_ E]|[Ht E]]; rewrite E in Er |- *.
    - rewrite Hp in Er. injection Er as <-. by split_and!; [apply rtc_refl| |].
    - cbn in Er. rewrite lookup_insert_eq in Er. injection Er as <-. cbn. rewrite Hpd. split_and!; [|done|by apply fits_renamed].
      rewrite <- Hpd. apply rtc_once, st_proxy_name; [done|done|by rewrite Hnn|done]. }
  destruct Hedit as (Hs & Hrd & Hf). etransitivity; [exact Hs|]. apply rtc_once.
  refine (st_proxy _ _ _ (view s1.1) (px_ID ex) row _ (np_listener np) Er Hrd _). by right.
Qed.
Lemma RenameProxy_steps v nodeName old new : is_name (TrimSpace new) -> runs v (RenameProxy nodeName old new) (fun _ v' => rtc step v v').
Proof.
  intros Hname. unfold RenameProxy. cbv zeta. do 3 first_ensure. apply runs_steps; [|intros id; keep_all].
  apply runs_atomically. intros s id s' <- H'.
  apply bind_Ok in H' as (q & s1 & [-> (p & Hp & Hpd & _ & _ & _ & Epname & _)%found_proxy]%GetProxyF_Ok & H'). rewrite Epname in H'.
  apply bind_Ok in H' as ([] & s1 & H1 & H'). frun H'. destruct (pr_Name p =? TrimSpace new)%string; [frun H1; apply rtc_refl|].
  apply (renameProxyTx_Ok _ _ _ _ _ _ Hp Hpd) in H1 as [[_ ->]|[Ht ->]]; [apply rtc_refl|]. by apply rtc_once, st_proxy_name.
Qed.
Lemma SetProxyEnabled_steps v nodeName name on : runs v (SetProxyEnabled nodeName name on) (fun _ v' => rtc step v v').
Proof.
  unfold SetProxyEnabled. first_still. eapply runs_first; [apply runs_GetProxy|intros q (w & Hw & (p & Hp & Hpd & _)%found_proxy)].
  rewrite Hw in Hp. eapply runs_first; [apply runs_current|intros w' Hw']. rewrite <- Hw' in Hp. change (proxies (fl_rows w') !! px_ID q = Some p) in Hp.
  rewrite Hp. first_ensure. apply runs_writes. intros w0 Hw0. rewrite <- Hw0.
  refine (st_proxy_on _ _ _ (view w0) (px_ID q) p on _ Hpd). rewrite Hw0, <- Hw'. exact Hp.
Qed.
Lemma runs_deletion v f : (forall w d, view w = v -> f {| db_store := fl_store w; db_node_tokens := fl_tokens w |} = Ok d -> step v (view (set_store w (db_store d)))) ->
  runs v (run_deletion f) (fun _ v' => rtc step v v').
Proof.
  intros Hf s Hs. unfold run_deletion. destruct (f _) as [d|e] eqn:E; cbn; [|rewrite Hs; apply rtc_refl]. apply rtc_once. by apply (Hf s.1).
Qed.
Lemma SoftDeleteProxy_steps v nodeName name : runs v (SoftDeleteProxyF oracle nodeName name) (fun _ v' => rtc step v v').
Proof.
  unfold SoftDeleteProxyF. eapply runs_first; [apply runs_draws|intros dr _]. apply runs_deletion. intros w d <-. unfold SoftDeleteProxy. cbn [db_store].
  destruct (resolve_live_proxy (fl_store w) nodeName name) as [q|]; [|done]. destruct (proxies (base (fl_store w)) !! px_ID q) as [row|] eqn:Er; [|done].
  destruct (is_set (pr_DeletedAt row)) eqn:Ed; [done|]. apply is_set_false in Ed.
  destruct (retireResourceDependenciesTx _ _) as [s'|] eqn:E; [|done]. intros [= <-]. apply retire_tables in E as (E1 & E2 & E3 & E4). cbn [db_store].
  replace (view (set_store w s')) with (iv_with_proxies (view w) (<[px_ID q := deleted_proxy (dr_now dr) row]> (iv_proxies (view w)))
    (filter (fun kv => kv.2 <> px_ID q) (iv_proxy_aliases (view w))) (iv_listeners (view w))); [by apply st_proxy_gone|].
  unfold view, fl_rows. cbn. by rewrite E1, E2, E3, E4.
Qed.
Lemma SoftDeleteNode_steps v name : keyed v -> runs v (SoftDeleteNodeF oracle name) (fun _ v' => rtc step v v').
Proof.
  intros Hk. unfold SoftDeleteNodeF. eapply runs_first; [apply runs_draws|intros dr _]. apply runs_deletion. intros w d <-. unfold SoftDeleteNode. cbn [db_store].
  destruct (GetNode (base (fl_store w)) name) as [n|] eqn:En; [|done]. destruct (found_node _ _ _ _ Hk eq_refl En) as [Hrow Hd].
  cbn. change (nodes (base (fl_store w)) !! no_ID n = Some n) in Hrow. rewrite Hrow, Hd. cbn.
  destruct (retireResourceDependenciesTx _ _) as [s'|] eqn:E; [|done]. intros [= <-]. apply retire_tables in E as (E1 & E2 & E3 & E4). cbn [db_store].
  pose proof (st_node_gone is_id is_name restores (view w) (no_ID n) n (dr_now dr) Hrow Hd) as Hs.
  match type of Hs with InventorySteps.step _ _ _ _ ?v' => replace (view (set_store w s')) with v'; [exact Hs|] end.
  unfold view, fl_rows. cbn. by rewrite E1, E2, E3, E4.
Qed.
(** RestoreProxy *)
Lemma restorable s nodeName name x row : GetProxyIncludingDeleted created_at s nodeName name = Some (x, row) -> proxies (base s) !! x = Some row.
Proof.
  unfold GetProxyIncludingDeleted. destruct (GetNodeIncludingDeleted created_at (base s) nodeName) as [kn|]; [|done]. cbn.
  destruct (proxies (base s) !! TrimSpace name) as [r|] eqn:E; [destruct (_ =? _)%string; [|done]; by intros [= <- <-]|].
  intros Hh%head_Some_elem_of. rewrite merge_sort_Permutation in Hh. by apply list_elem_of_In, List.filter_In in Hh as [Hh%list_elem_of_In%elem_of_map_to_list _].
Qed.
Lemma RestoreProxy_steps v nodeName name : restores -> runs v (RestoreProxy created_at nodeName name) (fun _ v' => rtc step v v').
Proof.
  intros Hr. unfold RestoreProxy. apply runs_steps; [|intros id; keep_all]. apply runs_atomically. intros s id s' <- H'.
  apply bind_Ok in H' as (w & s1 & [-> ->]%current_Ok & H').
  apply bind_Ok in H' as ([x row] & s1 & [Hf ->]%require_Ok & H'). cbn [fst snd] in H'. apply restorable in Hf.
  apply bind_Ok in H' as (l & s1 & [Hl ->]%require_Ok & H'). apply bind_Ok in H' as (node & s1 & [Hn ->]%require_Ok & H').
  apply bind_Ok in H' as ([] & s1 & H1 & H'). destruct (validated _ _ _ (pr_NodeID row) node _ _ _ _ Hn H1) as [-> Hfit].
  frun H'. match goal with H : proxy_name_free _ _ _ = true |- _ => pose proof (proxy_name_free_spec _ _ _ H) as Hfree end.
  apply rtc_once. by refine (st_restore _ _ _ (view s.1) x row l Hr _ _ _ Hfit Hfree).
Qed.

(** What a request asks for. *)
Definition asks (r : request) : Prop :=
  match r with
  | RqCreateNode name _ => is_name (TrimSpace name)
  | RqUpdateNode _ params => is_name (TrimSpace (un_Name params))
  | RqRenameNode _ new => is_name (TrimSpace new)
  | RqCreateProxy _ params _ | RqUpdateProxy _ _ _ params => is_name (TrimSpace (pp_Name params))
  | RqRenameProxy _ _ new => is_name (TrimSpace new)
  | RqRestoreProxy _ _ => restores
  | RqSetNodeStatus _ _ | RqDeleteNode _ | RqSetProxyEnabled _ _ _ | RqDeleteProxy _ _ | RqPublishProxy _ _ => True
  end.
#[local] Abbreviation handle := (handle oracle json_valid object_short_id set_short_id decode_ss_settings encode_ss_settings base64_length created_at).
#[local] Abbreviation serve := (serve oracle json_valid object_short_id set_short_id decode_ss_settings encode_ss_settings base64_length created_at).
Lemma handle_runs r v : keyed v -> asks r -> runs v (handle r) (fun _ v' => rtc step v v').
Proof.
  intros Hk Ha. destruct r; cbn [Inventory.handle asks] in *.
  - tail_still. by apply CreateNode_steps.
  - tail_still. by apply UpdateNodeByName_steps.
  - tail_still. by apply RenameNode_steps.
  - by apply SetNodeStatus_steps.
  - by apply SoftDeleteNode_steps.
  - tail_still. by apply CreateProxy_steps.
  - tail_still. by apply UpdateProxyByName_steps.
  - tail_still. by apply RenameProxy_steps.
  - by apply SetProxyEnabled_steps.
  - by apply SoftDeleteProxy_steps.
  - tail_still. apply runs_still. auto with still.
  - tail_still. by apply RestoreProxy_steps.
Qed.
Lemma handle_steps r s : keyed (view s.1) -> asks r -> rtc step (view s.1) (view (handle r s).2.1).
Proof. intros Hk Ha. pose proof (handle_runs r _ Hk Ha s eq_refl) as H1. by destruct (handle r s) as [[u|e] s']. Qed.
(** Requests one after another: an invariant of the steps is one of theirs. *)
Lemma serve_steps rs s : ~ is_id "" -> keyed (view s.1) -> Forall asks rs -> rtc step (view s.1) (view (serve rs s).1).
Proof.
  intros He Hk Ha. revert s Hk. induction Ha as [|r rs Hr Ha IH]; intros s Hk; cbn [Inventory.serve]; [apply rtc_refl|].
  pose proof (handle_steps r s Hk Hr) as Hs. etransitivity; [exact Hs|]. apply IH. by apply (steps_keyed _ _ _ He _ _ Hs).
Qed.
End requests.
