(* ===== verification/InventorySafety.v ===== *)
(** * What the inventory guarantees ([Inventory])

    By rule induction over the [step]s of [InventorySteps]: the names of nodes and
    proxies implement [Names], old names go on leading to their resource, and the
    listeners of a node never conflict.  Restoring a proxy is the one request
    that breaks the first two, as the last section shows. *)
From S2P Require Import Prelude GoStrings Effects.
From S2P Require Import Paths PathGrants PathAccess GrantSafety Render Deletion DeletionSafety Publication PublicationSafety Names Inventory InventorySteps.

#[local] Open Scope Z_scope.

(** ** Names *)
Section names.
Context (is_id is_name : string -> Prop) (Hempty : ~ is_id "") (Hdisj : forall x, is_id x -> is_name x -> False).
#[local] Abbreviation step := (step is_id is_name False).
Record orderly (v : inventory) : Prop := {
  or_keyed : keyed v;
  or_nodes : collision_free (node_space v);
  or_proxies : collision_free (proxy_space v);
  or_node_ids : forall x n, iv_nodes v !! x = Some n -> is_id x;
  or_proxy_ids : forall x p, iv_proxies v !! x = Some p -> is_id x;
  or_node_names : forall name x, leads (node_space v) name x -> is_name name;
  or_proxy_names : forall name x, leads (proxy_space v) name x -> is_name name;
  or_home : forall x p, iv_proxies v !! x = Some p -> pr_DeletedAt p = None -> live_node v (pr_NodeID p)
}.
(** A resource is gone from a space when it has no name there. *)
Definition gone (ns : namespace) (x : string) : Prop := ns_names ns !! x = None.
Definition follows (ns ns' : namespace) : Prop := name_step (gone ns') ns ns'.

(** The two ways to see a change of the rows in the names. *)
Lemma node_space_insert v id n : no_DeletedAt n = None -> ns_names (node_space (iv_with_nodes v (<[id := n]> (iv_nodes v)) (iv_node_aliases v))) = <[id := no_Name n]> (ns_names (node_space v)).
Proof. intros Hd. cbn. by rewrite (omap_insert_Some _ _ _ _ (no_Name n)); [|by rewrite Hd]. Qed.
Lemma proxy_space_insert v id p a l : pr_DeletedAt p = None -> ns_names (proxy_space (iv_with_proxies v (<[id := p]> (iv_proxies v)) a l)) = <[id := pr_Name p]> (ns_names (proxy_space v)).
Proof. intros Hd. cbn. by rewrite (omap_insert_Some _ _ _ _ (pr_Name p)); [|by rewrite Hd]. Qed.
Lemma space_eq (ns ns' : namespace) : ns_names ns' = ns_names ns -> ns_aliases ns' = ns_aliases ns -> ns' = ns.
Proof. destruct ns, ns'; cbn. by intros -> ->. Qed.
Lemma unclaimed_free ns name : collision_free ns -> unclaimed ns name -> free ns name.
Proof. intros Hcf Hu id Hl. apply (Hu id); [|done]. destruct Hl as [Hl|Hl]; [by eexists|by eapply cf_owner]. Qed.
(** What a rename has checked makes it a step of the names. *)
Lemma takes_renamed ns id old new : collision_free ns -> ns_names ns !! id = Some old -> is_id id -> is_name new -> takes ns id old new ->
  {| ns_names := <[id := new]> (ns_names ns); ns_aliases := alias_left (ns_aliases ns) id old new |} = renamed ns id old new /\
  follows ns (renamed ns id old new).
Proof.
  intros Hcf Hid Hii Hnn (Hne & Hown & Hold & Hothers).
  assert (Hl : forall j, leads ns new j -> j = id).
  { intros j Hj. destruct Hown as [Hu|[Hl| ->]]; [by destruct (unclaimed_free _ _ Hcf Hu j)|by eapply leads_fun|by destruct (Hdisj _ Hii Hnn)]. }
  split; [|by apply name_rename]. unfold renamed, alias_left. f_equal. f_equal. apply map_eq. intros a.
  destruct (decide (a = new)) as [->|Ha].
  - rewrite lookup_delete_eq. apply map_lookup_filter_None. destruct (ns_aliases ns !! new) as [i|] eqn:E; [right|by left].
    intros j [= <-] Hf. apply Hf. split; [done|]. apply Hl. by right.
  - rewrite lookup_delete_ne by done. destruct (ns_aliases ns !! a) as [i|] eqn:E.
    + apply map_lookup_filter_Some. split; [done|]. by intros [? _].
    + apply map_lookup_filter_None. by left.
Qed.
Lemma follows_refl ns : follows ns ns.
Proof. apply name_same. Qed.
Lemma leads_insert ns id n name x : leads {| ns_names := <[id := n]> (ns_names ns); ns_aliases := ns_aliases ns |} name x -> name = n \/ leads ns name x.
Proof.
  intros [Hn|Ha]; [|by right; right]. cbn in Hn. destruct (decide (x = id)) as [->|Hne]; [rewrite lookup_insert_eq in Hn; injection Hn as <-; by left|].
  rewrite lookup_insert_ne in Hn by done. by right; left.
Qed.
Lemma leads_renamed ns id old new name x : ns_names ns !! id = Some old -> leads (renamed ns id old new) name x -> name = new \/ leads ns name id \/ leads ns name x.
Proof.
  intros Hid [Hn|Ha]; cbn in *.
  - destruct (decide (x = id)) as [->|Hne]; [rewrite lookup_insert_eq in Hn; injection Hn as <-; by left|].
    rewrite lookup_insert_ne in Hn by done. by right; right; left.
  - destruct (decide (name = old)) as [->|Hno]; [right; left; by left|]. rewrite lookup_insert_ne in Ha by done.
    apply lookup_delete_Some in Ha as [_ Ha]. by right; right; right.
Qed.
(** A step that only concerns the nodes keeps the rest in order, and so for the proxies. *)
Lemma orderly_nodes v m a : orderly v -> keyed (iv_with_nodes v m a) -> follows (node_space v) (node_space (iv_with_nodes v m a)) ->
  (forall x n, m !! x = Some n -> is_id x) -> (forall name x, leads (node_space (iv_with_nodes v m a)) name x -> is_name name) ->
  (forall x, live_node v x -> live_node (iv_with_nodes v m a) x) -> orderly (iv_with_nodes v m a).
Proof.
  intros [O1 O2 O3 O4 O5 O6 O7 O8] Hk Hs Hids Hnames Hlive. split; try done.
  - exact (step_collision_free _ O2 _ _ Hs).
  - intros x p Hp Hd. apply Hlive. by apply (O8 x).
Qed.
Lemma orderly_proxies v m a l : orderly v -> keyed (iv_with_proxies v m a l) -> follows (proxy_space v) (proxy_space (iv_with_proxies v m a l)) ->
  (forall x p, m !! x = Some p -> is_id x) -> (forall name x, leads (proxy_space (iv_with_proxies v m a l)) name x -> is_name name) ->
  (forall x p, m !! x = Some p -> pr_DeletedAt p = None -> live_node v (pr_NodeID p)) -> orderly (iv_with_proxies v m a l).
Proof. intros [O1 O2 O3 O4 O5 O6 O7 O8] Hk Hs Hids Hnames Hhome. split; try done. exact (step_collision_free _ O3 _ _ Hs). Qed.
Lemma inserted_id {A} (m : gmap string A) id y x b : (forall x a, m !! x = Some a -> is_id x) -> is_id id -> <[id := y]> m !! x = Some b -> is_id x.
Proof. intros Hm Hid. destruct (decide (x = id)) as [->|Hne]; [done|]. rewrite lookup_insert_ne by done. apply Hm. Qed.
Lemma inserted_home v id p x q : orderly v -> live_node v (pr_NodeID p) -> <[id := p]> (iv_proxies v) !! x = Some q -> pr_DeletedAt q = None -> live_node v (pr_NodeID q).
Proof.
  intros Ho Hp. destruct (decide (x = id)) as [->|Hne]; [rewrite lookup_insert_eq; by intros [= <-]|]. rewrite lookup_insert_ne by done. apply (or_home _ Ho).
Qed.
Lemma live_insert v id n x a : no_DeletedAt n = None -> live_node v x -> live_node (iv_with_nodes v (<[id := n]> (iv_nodes v)) a) x.
Proof.
  intros Hd (m & Hm & Hmd). unfold live_node. cbn. destruct (decide (x = id)) as [->|Hne]; [rewrite lookup_insert_eq; by exists n|rewrite lookup_insert_ne by done; by exists m].
Qed.
(** The proxies that are left when a node goes. *)
Lemma archived_names now id m : omap (fun p => if is_set (pr_DeletedAt p) then None else Some (pr_Name p)) (archive_node_proxies now id m) =
  omap (fun p => if (pr_NodeID p =? id)%string || is_set (pr_DeletedAt p) then None else Some (pr_Name p)) m.
Proof.
  apply map_eq. intros x. unfold archive_node_proxies. rewrite !lookup_omap, lookup_fmap. destruct (m !! x) as [p|]; [|done]. cbn.
  destruct (pr_NodeID p =? id)%string; [|done]. by destruct (pr_DeletedAt p).
Qed.
Lemma node_named v id n : iv_nodes v !! id = Some n -> no_DeletedAt n = None -> ns_names (node_space v) !! id = Some (no_Name n).
Proof. intros Hn Hd. apply node_names_Some. by exists n. Qed.
Lemma proxy_named v id p : iv_proxies v !! id = Some p -> pr_DeletedAt p = None -> ns_names (proxy_space v) !! id = Some (pr_Name p).
Proof. intros Hp Hd. apply proxy_names_Some. by exists p. Qed.
Lemma fresh_node v id n : iv_nodes v !! id = None -> orderly v -> unclaimed (node_space v) (no_Name n) -> no_DeletedAt n = None ->
  node_space (iv_with_nodes v (<[id := n]> (iv_nodes v)) (iv_node_aliases v)) = {| ns_names := <[id := no_Name n]> (ns_names (node_space v)); ns_aliases := ns_aliases (node_space v) |} /\
  follows (node_space v) (node_space (iv_with_nodes v (<[id := n]> (iv_nodes v)) (iv_node_aliases v))).
Proof.
  intros Hid Ho Hu Hd. assert (E : node_space (iv_with_nodes v (<[id := n]> (iv_nodes v)) (iv_node_aliases v)) = {| ns_names := <[id := no_Name n]> (ns_names (node_space v)); ns_aliases := ns_aliases (node_space v) |}).
  { apply space_eq; [by apply node_space_insert|done]. }
  split; [exact E|]. rewrite E. apply name_create; [cbn; by rewrite lookup_omap, Hid|]. apply unclaimed_free; [apply Ho|done].
Qed.
Lemma fresh_proxy v id p l : iv_proxies v !! id = None -> orderly v -> unclaimed (proxy_space v) (pr_Name p) -> pr_DeletedAt p = None ->
  proxy_space (iv_with_proxies v (<[id := p]> (iv_proxies v)) (iv_proxy_aliases v) l) = {| ns_names := <[id := pr_Name p]> (ns_names (proxy_space v)); ns_aliases := ns_aliases (proxy_space v) |} /\
  follows (proxy_space v) (proxy_space (iv_with_proxies v (<[id := p]> (iv_proxies v)) (iv_proxy_aliases v) l)).
Proof.
  intros Hid Ho Hu Hd. assert (E : proxy_space (iv_with_proxies v (<[id := p]> (iv_proxies v)) (iv_proxy_aliases v) l) = {| ns_names := <[id := pr_Name p]> (ns_names (proxy_space v)); ns_aliases := ns_aliases (proxy_space v) |}).
  { apply space_eq; [by apply proxy_space_insert|done]. }
  split; [exact E|]. rewrite E. apply name_create; [cbn; by rewrite lookup_omap, Hid|]. apply unclaimed_free; [apply Ho|done].
Qed.
(** A row written without a change of its name. *)
Lemma same_node_space v id n n' : iv_nodes v !! id = Some n -> no_DeletedAt n = None -> no_Name n' = no_Name n -> no_DeletedAt n' = None ->
  node_space (iv_with_nodes v (<[id := n']> (iv_nodes v)) (iv_node_aliases v)) = node_space v.
Proof.
  intros Hn Hd En Hd'. apply space_eq; [|done]. rewrite node_space_insert by done. apply insert_id. rewrite En. by apply node_named.
Qed.
Lemma same_proxy_space v id p p' l : iv_proxies v !! id = Some p -> pr_DeletedAt p = None -> pr_Name p' = pr_Name p -> pr_DeletedAt p' = None ->
  proxy_space (iv_with_proxies v (<[id := p']> (iv_proxies v)) (iv_proxy_aliases v) l) = proxy_space v.
Proof.
  intros Hn Hd En Hd'. apply space_eq; [|done]. rewrite proxy_space_insert by done. apply insert_id. rewrite En. by apply proxy_named.
Qed.
Lemma edited_proxy v id p p' l : orderly v -> keyed (iv_with_proxies v (<[id := p']> (iv_proxies v)) (iv_proxy_aliases v) l) -> iv_proxies v !! id = Some p -> pr_DeletedAt p = None ->
  pr_Name p' = pr_Name p -> pr_DeletedAt p' = None -> pr_NodeID p' = pr_NodeID p ->
  follows (proxy_space v) (proxy_space (iv_with_proxies v (<[id := p']> (iv_proxies v)) (iv_proxy_aliases v) l)) /\
  orderly (iv_with_proxies v (<[id := p']> (iv_proxies v)) (iv_proxy_aliases v) l).
Proof.
  intros Ho Hk Hp Hd En Hd' Hnode. pose proof (same_proxy_space v id p p' l Hp Hd En Hd') as E.
  assert (Hf : follows (proxy_space v) (proxy_space (iv_with_proxies v (<[id := p']> (iv_proxies v)) (iv_proxy_aliases v) l))) by (rewrite E; apply follows_refl).
  split; [exact Hf|]. apply orderly_proxies; try done.
  - intros x q. apply (inserted_id (iv_proxies v)); [apply Ho|by apply (or_proxy_ids _ Ho _ _ Hp)].
  - intros name x. rewrite E. apply Ho.
  - intros x q. apply inserted_home; [done|]. rewrite Hnode. by apply (or_home _ Ho id).
Qed.
Lemma removal ns ns' : (forall i, ns_names ns' !! i = ns_names ns !! i \/ ns_names ns' !! i = None) ->
  (forall a i, ns_aliases ns' !! a = Some i <-> ns_aliases ns !! a = Some i /\ is_Some (ns_names ns' !! i)) ->
  follows ns ns' /\ forall name x, leads ns' name x -> leads ns name x.
Proof.
  intros Hn Ha. split.
  - apply name_remove; [|done]. intros i. destruct (Hn i) as [E|E]; [by left|by right].
  - intros name x [Hl|Hl]; [left|right; by apply Ha in Hl as [Hl _]]. destruct (Hn x) as [E|E]; congruence.
Qed.
Lemma proxy_gone v id p now : orderly v -> iv_proxies v !! id = Some p -> pr_DeletedAt p = None ->
  let v' := iv_with_proxies v (<[id := deleted_proxy now p]> (iv_proxies v)) (filter (fun kv => kv.2 <> id) (iv_proxy_aliases v)) (iv_listeners v) in
  follows (proxy_space v) (proxy_space v') /\ forall name x, leads (proxy_space v') name x -> leads (proxy_space v) name x.
Proof.
  intros Ho Hp Hd v'. assert (E : ns_names (proxy_space v') = delete id (ns_names (proxy_space v))) by (cbn; by rewrite omap_insert_None).
  apply removal; rewrite E.
  - intros i. destruct (decide (i = id)) as [->|Hne]; [right; apply lookup_delete_eq|left; by apply lookup_delete_ne].
  - intros a i. cbn. rewrite map_lookup_filter_Some. cbn. split.
    + intros [Ha Hne]. split; [done|]. rewrite lookup_delete_ne by done. by apply (cf_owner _ (or_proxies _ Ho) a).
    + intros [Ha [x Hx]]. split; [done|]. intros ->. by rewrite lookup_delete_eq in Hx.
Qed.
Lemma node_gone_space v id n now a : orderly v -> iv_nodes v !! id = Some n -> no_DeletedAt n = None ->
  let v' := iv_with_nodes v (<[id := deleted_node now n]> (iv_nodes v)) (filter (fun kv => kv.2 <> id) (iv_node_aliases v)) in
  a = iv_proxies v -> follows (node_space v) (node_space v') /\ forall name x, leads (node_space v') name x -> leads (node_space v) name x.
Proof.
  intros Ho Hp Hd v' _. assert (E : ns_names (node_space v') = delete id (ns_names (node_space v))) by (cbn; by rewrite omap_insert_None).
  apply removal; rewrite E.
  - intros i. destruct (decide (i = id)) as [->|Hne]; [right; apply lookup_delete_eq|left; by apply lookup_delete_ne].
  - intros b i. cbn. rewrite map_lookup_filter_Some. cbn. split.
    + intros [Ha Hne]. split; [done|]. rewrite lookup_delete_ne by done. by apply (cf_owner _ (or_nodes _ Ho) b).
    + intros [Ha [x Hx]]. split; [done|]. intros ->. by rewrite lookup_delete_eq in Hx.
Qed.
Lemma archived_space v id now : orderly v ->
  let v' := iv_with_proxies v (archive_node_proxies now id (iv_proxies v))
    (filter (fun kv => match archive_node_proxies now id (iv_proxies v) !! kv.2 with Some p => is_set (pr_DeletedAt p) | None => false end = false) (iv_proxy_aliases v)) (iv_listeners v) in
  follows (proxy_space v) (proxy_space v') /\ forall name x, leads (proxy_space v') name x -> leads (proxy_space v) name x.
Proof.
  intros Ho v'. assert (E : forall x, ns_names (proxy_space v') !! x = match iv_proxies v !! x with
    | Some p => if (pr_NodeID p =? id)%string || is_set (pr_DeletedAt p) then None else Some (pr_Name p) | None => None end).
  { intros x. cbn. rewrite archived_names, lookup_omap. by destruct (iv_proxies v !! x). }
  apply removal.
  - intros x. rewrite E. cbn. rewrite lookup_omap. destruct (iv_proxies v !! x) as [p|]; [|by left]. cbn. destruct (pr_NodeID p =? id)%string; [by right|by left].
  - intros a x. rewrite E. cbn [ns_aliases proxy_space v' iv_with_proxies iv_proxy_aliases]. rewrite map_lookup_filter_Some. cbn [snd].
    unfold archive_node_proxies. rewrite lookup_fmap. split; intros [Ha Hx]; (split; [done|]).
    + destruct (cf_owner _ (or_proxies _ Ho) a x Ha) as [nm (p & Hp & Hd & _)%proxy_names_Some]. rewrite Hp in Hx |- *. cbn in Hx.
      destruct (pr_NodeID p =? id)%string; [done|]. cbn. rewrite Hd. by eexists.
    + destruct (iv_proxies v !! x) as [p|]; [|done]. cbn. destruct (pr_NodeID p =? id)%string; [by destruct Hx|]. cbn in Hx.
      destruct (pr_DeletedAt p); [by destruct Hx|done].
Qed.
(** Every step implements the names, and all stays in order. *)
Lemma step_orderly v v' : step v v' -> orderly v -> follows (node_space v) (node_space v') /\ follows (proxy_space v) (proxy_space v') /\ orderly v'.
Proof.
  intros H Ho. pose proof (step_keyed _ _ _ Hempty _ _ H (or_keyed _ Ho)) as Hk.
  destruct H as [id n Hid Hii Hno Hd Hname Hu|id n n' Hn Hd Eid En Hd'|id n new Hn Hd Hname Ht|id n now Hn Hd|id p l Hid Hii Hl Hd Hname Hu Htr Hfit
    |id p on l Hp Hd Hfit|id p on Hp Hd|id p new Hp Hd Hname Ht|id p now Hp Hd|id p l []].
  - destruct (fresh_node v id n Hid Ho Hu Hd) as [E Hf]. split_and!; [exact Hf|apply follows_refl|]. apply orderly_nodes; try done.
    + intros x m. apply inserted_id; [apply Ho|done].
    + intros name x. rewrite E. intros [->|Hx]%leads_insert; [done|by apply (or_node_names _ Ho) in Hx].
    + intros x. by apply live_insert.
  - pose proof (same_node_space v id n n' Hn Hd En Hd') as E. split_and!; [rewrite E; apply follows_refl|apply follows_refl|]. apply orderly_nodes; try done.
    + rewrite E. apply follows_refl.
    + intros x m. apply inserted_id; [apply Ho|by apply (or_node_ids _ Ho _ _ Hn)].
    + intros name x. rewrite E. apply Ho.
    + intros x. by apply live_insert.
  - destruct (takes_renamed _ _ _ _ (or_nodes _ Ho) (node_named _ _ _ Hn Hd) (or_node_ids _ Ho _ _ Hn) Hname Ht) as [E Hf].
    assert (E' : node_space (iv_with_nodes v (<[id := with_name n new]> (iv_nodes v)) (alias_left (iv_node_aliases v) id (no_Name n) new)) = renamed (node_space v) id (no_Name n) new)
      by (rewrite <- E; apply space_eq; [exact (node_space_insert v id (with_name n new) Hd)|done]). clear E. rename E' into E.
    split_and!; [by rewrite E|apply follows_refl|]. apply orderly_nodes; try done; [by rewrite E| | |].
    + intros x m. apply inserted_id; [apply Ho|by apply (or_node_ids _ Ho _ _ Hn)].
    + intros name x. rewrite E. intros [->|[Hx|Hx]]%leads_renamed; [done|by apply (or_node_names _ Ho) in Hx..|by apply node_named].
    + intros x. by apply live_insert.
  - destruct (node_gone_space v id n now _ Ho Hn Hd eq_refl) as [Hf Hl]. destruct (archived_space v id now Ho) as [Hf' Hl'].
    split_and!; [exact Hf|exact Hf'|]. split; [exact Hk|exact (step_collision_free _ (or_nodes _ Ho) _ _ Hf)|exact (step_collision_free _ (or_proxies _ Ho) _ _ Hf')| | | | |]; cbn.
    + intros x m. apply inserted_id; [apply Ho|by apply (or_node_ids _ Ho _ _ Hn)].
    + intros x p. unfold archive_node_proxies. rewrite lookup_fmap. destruct (iv_proxies v !! x) as [q|] eqn:Eq; [intros _|done]. by apply (or_proxy_ids _ Ho _ _ Eq).
    + intros name x Hx. by apply Hl, (or_node_names _ Ho) in Hx.
    + intros name x Hx. by apply Hl', (or_proxy_names _ Ho) in Hx.
    + intros x p. unfold archive_node_proxies. rewrite lookup_fmap. destruct (iv_proxies v !! x) as [q|] eqn:Eq; [|done]. cbn. intros [= <-].
      destruct (pr_NodeID q =? id)%string eqn:E; [done|]. apply String.eqb_neq in E. intros Hqd. destruct (or_home _ Ho _ _ Eq Hqd) as (m & Hm & Hmd).
      exists m. cbn. by rewrite lookup_insert_ne.
  - destruct (fresh_proxy v id p (<[id := l]> (iv_listeners v)) Hid Ho Hu Hd) as [E Hf]. split_and!; [apply follows_refl|exact Hf|]. apply orderly_proxies; try done.
    + intros x m. apply inserted_id; [apply Ho|done].
    + intros name x. rewrite E. intros [->|Hx]%leads_insert; [done|by apply (or_proxy_names _ Ho) in Hx].
    + intros x q. by apply inserted_home.
  - split; [apply follows_refl|]. by apply (edited_proxy v id p).
  - split; [apply follows_refl|]. by apply (edited_proxy v id p).
  - destruct (takes_renamed _ _ _ _ (or_proxies _ Ho) (proxy_named _ _ _ Hp Hd) (or_proxy_ids _ Ho _ _ Hp) Hname Ht) as [E Hf].
    assert (E' : proxy_space (iv_with_proxies v (<[id := proxy_with p new (pr_Enabled p) (pr_DeletedAt p)]> (iv_proxies v)) (alias_left (iv_proxy_aliases v) id (pr_Name p) new) (iv_listeners v))
      = renamed (proxy_space v) id (pr_Name p) new)
      by (rewrite <- E; apply space_eq; [exact (proxy_space_insert v id (proxy_with p new (pr_Enabled p) (pr_DeletedAt p)) ∅ ∅ Hd)|done]). clear E. rename E' into E.
    split_and!; [apply follows_refl|by rewrite E|]. apply orderly_proxies; try done; [by rewrite E| | |].
    + intros x m. apply inserted_id; [apply Ho|by apply (or_proxy_ids _ Ho _ _ Hp)].
    + intros name x. rewrite E. intros [->|[Hx|Hx]]%leads_renamed; [done|by apply (or_proxy_names _ Ho) in Hx..|by apply proxy_named].
    + intros x q. apply inserted_home; [done|]. exact (or_home _ Ho id p Hp Hd).
  - destruct (proxy_gone v id p now Ho Hp Hd) as [Hf Hl]. split_and!; [apply follows_refl|exact Hf|]. apply orderly_proxies; try done.
    + intros x m. apply inserted_id; [apply Ho|by apply (or_proxy_ids _ Ho _ _ Hp)].
    + intros name x Hx. apply Hl in Hx. by apply (or_proxy_names _ Ho) in Hx.
    + intros x q. apply inserted_home; [done|]. exact (or_home _ Ho id p Hp Hd).
Qed.
Lemma steps_orderly v v' : rtc step v v' -> orderly v ->
  rtc follows (node_space v) (node_space v') /\ rtc follows (proxy_space v) (proxy_space v') /\ orderly v'.
Proof.
  induction 1 as [v|v v1 v' Hs _ IH]; intros Ho; [split_and!; [apply rtc_refl..|done]|].
  destruct (step_orderly _ _ Hs Ho) as (H1 & H2 & Ho1). destruct (IH Ho1) as (H3 & H4 & Ho'). split_and!; [by eapply rtc_l..|done].
Qed.

(** ** References *)
Lemma live_node_key v x : (exists n, iv_nodes v !! x = Some n) -> orderly v -> is_id x.
Proof. intros [n Hn] Ho. by apply (or_node_ids _ Ho _ _ Hn). Qed.
Definition refers (ns : namespace) (reference x : string) : Prop := reference = x \/ leads ns reference x.
Lemma refers_key {A} ns (m : gmap string A) reference x : (forall k a, m !! k = Some a -> is_id k) -> (forall name y, leads ns name y -> is_name name) ->
  refers ns reference x -> is_Some (m !! reference) -> reference = x.
Proof. intros Hm Hn [->|Hl] [a Ha]; [done|]. by destruct (Hdisj reference); [eapply Hm|eapply Hn]. Qed.
Lemma GetNode_refers w name n : orderly (view w) -> GetNode (fl_rows w) name = Ok n <->
  nodes (fl_rows w) !! no_ID n = Some n /\ no_DeletedAt n = None /\ refers (node_space (view w)) (TrimSpace name) (no_ID n).
Proof.
  intros Ho. split.
  - intros Hg. destruct (found_node _ _ _ _ (or_keyed _ Ho) eq_refl Hg) as [Hrow Hd]. split_and!; [exact Hrow|exact Hd|]. revert Hg. unfold GetNode.
    destruct (nodes (fl_rows w) !! TrimSpace name) as [m|] eqn:Em.
    + destruct (no_DeletedAt m) eqn:Emd; [done|]. intros [= <-]. left. symmetry. exact (ky_nodes _ (or_keyed _ Ho) _ _ Em).
    + destruct (node_by_name (fl_rows w) (TrimSpace name)) as [m|] eqn:Eb; [|done]. intros [= <-]. unfold node_by_name in Eb.
      destruct (List.find _ _) as [[k m']|] eqn:Ef; [|done]. injection Eb as <-. apply List.find_some in Ef as [Hin Hf].
      apply list_elem_of_In, elem_of_map_to_list in Hin. pose proof (ky_nodes _ (or_keyed _ Ho) _ _ Hin) as <-. right.
      cbn in Hf. apply andb_true_iff in Hf as [_ Hf]. apply orb_true_iff in Hf as [Hf|Hf]; breflect; [left|by right].
      rewrite <- Hf. by apply node_named.
  - intros (Hrow & Hd & Hr). unfold GetNode. destruct (nodes (fl_rows w) !! TrimSpace name) as [m|] eqn:Em.
    + assert (TrimSpace name = no_ID n) as E by (eapply (refers_key _ (iv_nodes (view w))); [apply Ho|apply (or_node_names _ Ho)|exact Hr|by eexists]).
      rewrite E, Hrow in Em. injection Em as <-. by rewrite Hd.
    + destruct Hr as [E|Hl]; [congruence|]. unfold node_by_name. destruct (List.find _ _) as [[k m]|] eqn:Ef.
      * apply List.find_some in Ef as [Hin Hf]. apply list_elem_of_In, elem_of_map_to_list in Hin. cbn in Hf.
        apply andb_true_iff in Hf as [Hmd Hf]. apply negb_true_iff, bool_decide_eq_false in Hmd. apply eq_None_not_Some in Hmd.
        assert (Hk : leads (node_space (view w)) (TrimSpace name) k).
        { apply orb_true_iff in Hf as [Hf|Hf]; breflect; [left|by right]. rewrite <- Hf. by apply node_named. }
        rewrite (leads_fun _ (or_nodes _ Ho) _ _ _ Hk Hl), Hrow in Hin. by injection Hin as <-.
      * exfalso. assert (Hin : In (no_ID n, n) (map_to_list (nodes (fl_rows w)))) by (by apply list_elem_of_In, elem_of_map_to_list).
        pose proof (List.find_none _ _ Ef _ Hin) as Hf. cbn in Hf. rewrite Hd in Hf. cbn in Hf. apply orb_false_iff in Hf as [Hf1 Hf2].
        apply String.eqb_neq in Hf1. apply bool_decide_eq_false in Hf2. destruct Hl as [(m & Hm & _ & Hname)%node_names_Some|Hl]; [|destruct (Hf2 Hl)].
        change (nodes (fl_rows w) !! no_ID n = Some m) in Hm. rewrite Hrow in Hm. injection Hm as <-. done.
Qed.
Lemma GetProxyF_eq nodeName name s p : GetProxyF nodeName name s = (Ok p, s) <->
  exists n, GetNode (fl_rows s.1) nodeName = Ok n /\ match proxies (fl_rows s.1) !! TrimSpace name with
    | Some _ => live_proxy (fl_rows s.1) (TrimSpace name) = Some p /\ px_NodeID p = no_ID n
    | None => proxy_by_name (fl_store s.1) (no_ID n) (TrimSpace name) = Some p end.
Proof.
  assert (Hs : (set_store s.1 (fl_store s.1), s.2) = s) by (by destruct s as [[[] ? ?] ?]).
  unfold GetProxyF, run_grants, GetProxy, mbind, eff_bind, query, get. cbn [fst snd].
  change (base (fl_store s.1)) with (fl_rows s.1). destruct (GetNode (fl_rows s.1) nodeName) as [n|e]; [|split; [done|by intros (? & ? & _)]].
  destruct (proxies (fl_rows s.1) !! TrimSpace name) as [row|].
  - destruct (live_proxy (fl_rows s.1) (TrimSpace name)) as [q|]; [|split; [done|by intros (? & _ & ? & _)]].
    destruct (px_NodeID q =? no_ID n)%string eqn:E; cbn; rewrite ?Hs.
    + apply String.eqb_eq in E. split; [intros [= <-]; by exists n|by intros (? & [= <-] & [= <-] & _)].
    + apply String.eqb_neq in E. split; [done|]. by intros (? & [= <-] & [= <-] & ?).
  - destruct (proxy_by_name (fl_store s.1) (no_ID n) (TrimSpace name)) as [q|] eqn:Eq; cbn; rewrite ?Hs.
    + split; [intros [= <-]; by exists n|intros (? & [= <-] & Hq); congruence].
    + split; [done|]. intros (? & [= <-] & Hq); congruence.
Qed.
Lemma by_name_refers s n name p : orderly (view s) -> proxy_by_name (fl_store s) n name = Some p <->
  live_proxy (fl_rows s) (px_ID p) = Some p /\ px_NodeID p = n /\ leads (proxy_space (view s)) name (px_ID p).
Proof.
  intros Ho. assert (Hlive : forall q, In q (omap (fun kp : string * proxy_row => live_proxy (base (fl_store s)) kp.1) (map_to_list (proxies (base (fl_store s))))) <->
    live_proxy (fl_rows s) (px_ID q) = Some q).
  { intros q. rewrite <- list_elem_of_In, list_elem_of_omap. split.
    - intros ((k & r) & _ & Hl). cbn in Hl. by rewrite (live_proxy_id _ _ _ Hl).
    - intros Hl. pose proof Hl as (row & m & Hr & _)%live_proxy_Some. exists (px_ID q, row). split; [by apply elem_of_map_to_list|exact Hl]. }
  assert (Hname : forall q, live_proxy (fl_rows s) (px_ID q) = Some q ->
    (px_Name q =? name)%string || bool_decide (proxy_name_aliases (fl_store s) !! name = Some (px_ID q)) = true <-> leads (proxy_space (view s)) name (px_ID q)).
  { intros q Hq. rewrite orb_true_iff, String.eqb_eq, bool_decide_eq_true. apply found_proxy in Hq as (row & Hr & Hd & _ & _ & _ & En & _). unfold leads.
    rewrite proxy_names_Some. split; intros [H|H]; [left; exists row; by rewrite <- En|by right|left|by right].
    destruct H as (row' & Hr' & _ & <-). rewrite Hr in Hr'. by injection Hr' as <-. }
  unfold proxy_by_name. split.
  - intros Hf. apply List.find_some in Hf as [Hin%Hlive Hf]. apply andb_true_iff in Hf as [Hn Hf]. apply String.eqb_eq in Hn.
    split_and!; [done|done|by apply Hname].
  - intros (Hl & Hn & Hlead). destruct (List.find _ _) as [q|] eqn:Ef.
    + apply List.find_some in Ef as [Hin%Hlive Hf]. apply andb_true_iff in Hf as [_ Hf]. apply Hname in Hf; [|done].
      rewrite (leads_fun _ (or_proxies _ Ho) _ _ _ Hf Hlead) in Hin. congruence.
    + exfalso. pose proof (List.find_none _ _ Ef p (proj2 (Hlive p) Hl)) as Hf. cbn in Hf. rewrite Hn, String.eqb_refl in Hf. cbn [andb] in Hf.
      apply Hname in Hlead; [|done]. congruence.
Qed.
Lemma GetProxy_refers nodeName name s p : orderly (view s.1) -> GetProxyF nodeName name s = (Ok p, s) <->
  live_proxy (fl_rows s.1) (px_ID p) = Some p /\ (exists n, GetNode (fl_rows s.1) nodeName = Ok n /\ px_NodeID p = no_ID n) /\
  refers (proxy_space (view s.1)) (TrimSpace name) (px_ID p).
Proof.
  intros Ho. rewrite GetProxyF_eq. split.
  - intros (n & Hn & Hm). destruct (proxies (fl_rows s.1) !! TrimSpace name) as [row|].
    + destruct Hm as [Hl Hnode]. rewrite (live_proxy_id _ _ _ Hl). split_and!; [exact Hl|by exists n|by left].
    + apply by_name_refers in Hm as (Hl & Hnode & Hlead); [|done]. split_and!; [exact Hl|by exists n|by right].
  - intros (Hl & (n & Hn & Hnode) & Hr). exists n. split; [done|]. destruct (proxies (fl_rows s.1) !! TrimSpace name) as [row|] eqn:E.
    + assert (TrimSpace name = px_ID p) as -> by (eapply (refers_key _ (iv_proxies (view s.1))); [apply Ho|apply (or_proxy_names _ Ho)|exact Hr|by eexists]). done.
    + apply by_name_refers; [done|]. split_and!; [done|done|]. destruct Hr as [Hr|Hr]; [|done].
      apply live_proxy_Some in Hl as (row & m & Hrow & _). rewrite Hr in E. congruence.
Qed.
(** What lives at the end of a step lived before it, on the same node. *)
Lemma step_rows v v' x p' : step v v' -> iv_proxies v' !! x = Some p' -> pr_DeletedAt p' = None ->
  forall p, iv_proxies v !! x = Some p -> pr_DeletedAt p = None /\ pr_NodeID p' = pr_NodeID p.
Proof.
  intros H Hp' Hd' p Hp. destruct H as [id n ? ? ? ? ? ?|id n n' ? ? ? ? ?|id n new ? ? ? ?|id n now ? ?|id q l Hid ? ? ? ? ? ? ?
    |id q on l Hq Hqd ?|id q on Hq Hqd|id q new Hq Hqd ? ?|id q now Hq Hqd|id q l []]; cbn in Hp'; try (split; congruence).
  - unfold archive_node_proxies in Hp'. rewrite lookup_fmap, Hp in Hp'. cbn in Hp'. injection Hp' as <-. by destruct (pr_NodeID p =? id)%string.
  - destruct (decide (x = id)) as [->|Hne]; [congruence|]. rewrite lookup_insert_ne in Hp' by done. split; congruence.
  - destruct (decide (x = id)) as [->|Hne]; [|rewrite lookup_insert_ne in Hp' by done; split; congruence]. rewrite lookup_insert_eq in Hp'. injection Hp' as <-. by simplify_eq.
  - destruct (decide (x = id)) as [->|Hne]; [|rewrite lookup_insert_ne in Hp' by done; split; congruence]. rewrite lookup_insert_eq in Hp'. injection Hp' as <-. by simplify_eq.
  - destruct (decide (x = id)) as [->|Hne]; [|rewrite lookup_insert_ne in Hp' by done; split; congruence]. rewrite lookup_insert_eq in Hp'. injection Hp' as <-. by simplify_eq.
  - destruct (decide (x = id)) as [->|Hne]; [|rewrite lookup_insert_ne in Hp' by done; split; congruence]. rewrite lookup_insert_eq in Hp'. by injection Hp' as <-.
Qed.
Lemma step_proxy_there v v' x : step v v' -> is_Some (iv_proxies v !! x) -> is_Some (iv_proxies v' !! x).
Proof.
  intros H Hx. destruct H; cbn; try exact Hx; try by apply lookup_insert_is_Some'; right.
  unfold archive_node_proxies. by rewrite lookup_fmap, fmap_is_Some.
Qed.
Lemma step_node_there v v' x : step v v' -> is_Some (iv_nodes v !! x) -> is_Some (iv_nodes v' !! x).
Proof. intros H Hx. destruct H; cbn; try exact Hx; by apply lookup_insert_is_Some'; right. Qed.
Lemma step_node_rows v v' x : step v v' -> live_node v' x -> is_Some (iv_nodes v !! x) -> live_node v x.
Proof.
  intros H (n' & Hn' & Hd') [n0 Hn0]. exists n0. split; [done|]. destruct H as [id n ? ? ? ? ? ?|id n m ? ? ? ? ?|id n new ? ? ? ?|id n now ? ?|id q l Hid ? ? ? ? ? ? ?
    |id q on l Hq Hqd ?|id q on Hq Hqd|id q new Hq Hqd ? ?|id q now Hq Hqd|id q l []]; cbn in Hn'; try congruence;
    (destruct (decide (x = id)) as [->|Hne]; [rewrite lookup_insert_eq in Hn'; injection Hn' as <-; congruence|rewrite lookup_insert_ne in Hn' by done; congruence]).
Qed.
(** Without restorations what lives at the end has lived all along. *)
Lemma steps_node_live v v' x : rtc step v v' -> live_node v' x -> is_Some (iv_nodes v !! x) -> live_node v x.
Proof.
  induction 1 as [|v v1 v' Hs _ IH]; intros Hl Hx; [done|]. eapply step_node_rows; [exact Hs| |exact Hx]. apply IH; [done|by eapply step_node_there].
Qed.
Lemma steps_proxy_live v v' x p p' : rtc step v v' -> iv_proxies v' !! x = Some p' -> pr_DeletedAt p' = None -> iv_proxies v !! x = Some p ->
  pr_DeletedAt p = None /\ pr_NodeID p' = pr_NodeID p.
Proof.
  intros H. revert p. induction H as [v|v v1 v' Hs _ IH]; intros p Hp' Hd' Hp; [by split; congruence|].
  destruct (step_proxy_there _ _ x Hs ltac:(by eexists)) as [p1 Hp1]. destruct (IH p1 Hp' Hd' Hp1) as [Hd1 E1].
  destruct (step_rows _ _ _ _ Hs Hp1 Hd1 p Hp) as [Hd E]. split; congruence.
Qed.
(** A reference goes on leading to a resource that stays. *)
Lemma follows_refers ns ns' reference x : collision_free ns -> follows ns ns' -> refers ns reference x -> is_Some (ns_names ns' !! x) -> refers ns' reference x.
Proof.
  intros Hcf Hf [->|Hl] [nm Hx]; [by left|right]. apply (step_leads _ Hcf _ _ _ _ Hf Hl). unfold gone. congruence.
Qed.
Lemma steps_node v v' reference x : rtc step v v' -> orderly v -> live_node v' x -> is_Some (iv_nodes v !! x) -> refers (node_space v) reference x ->
  refers (node_space v') reference x.
Proof.
  induction 1 as [v|v v1 v' Hs Hrest IH]; intros Ho Hl Hx Hr; [done|]. destruct (step_orderly _ _ Hs Ho) as (Hf & _ & Ho1).
  pose proof (step_node_there _ _ _ Hs Hx) as Hx1. destruct (steps_node_live _ _ _ Hrest Hl Hx1) as (n & Hn & Hd).
  apply (IH Ho1 Hl Hx1). apply (follows_refers _ _ _ _ (or_nodes _ Ho) Hf Hr). exists (no_Name n). by apply node_named.
Qed.
Lemma steps_proxy v v' reference x p p' : rtc step v v' -> orderly v -> iv_proxies v' !! x = Some p' -> pr_DeletedAt p' = None ->
  iv_proxies v !! x = Some p -> refers (proxy_space v) reference x -> refers (proxy_space v') reference x.
Proof.
  intros H. revert p. induction H as [v|v v1 v' Hs Hrest IH]; intros p Ho Hp' Hd' Hp Hr; [done|].
  destruct (step_orderly _ _ Hs Ho) as (_ & Hf & Ho1). destruct (step_proxy_there _ _ x Hs ltac:(by eexists)) as [p1 Hp1].
  destruct (steps_proxy_live _ _ _ _ _ Hrest Hp' Hd' Hp1) as [Hd1 _].
  apply (IH p1 Ho1 Hp' Hd' Hp1), (follows_refers _ _ _ _ (or_proxies _ Ho) Hf Hr). exists (pr_Name p1). by apply proxy_named.
Qed.
End names.

(** ** Listeners *)
Section ports.
Context (is_id is_name : string -> Prop) (restores : Prop).
#[local] Abbreviation step := (step is_id is_name restores).
(** Two live proxies of a live node may share an address and port only if the
    code takes them for one listener. *)
Record ports_agree (v : inventory) : Prop := {
  pt_agree : forall x y p q l m, x <> y -> iv_proxies v !! x = Some p -> iv_proxies v !! y = Some q -> pr_DeletedAt p = None -> pr_DeletedAt q = None ->
    pr_NodeID p = pr_NodeID q -> live_node v (pr_NodeID p) -> iv_listeners v !! x = Some l -> iv_listeners v !! y = Some m ->
    listeners_conflict (pr_Protocol p) (pr_Protocol q) l m = false;
  pt_trimmed : forall x p, iv_proxies v !! x = Some p -> TrimSpace (pr_Protocol p) = pr_Protocol p;
  pt_known : forall x p, iv_proxies v !! x = Some p -> is_Some (iv_nodes v !! pr_NodeID p)
}.
Lemma listeners_conflict_sym a b l m : listeners_conflict a b l m = listeners_conflict b a m l.
Proof.
  unfold listeners_conflict. rewrite (String.eqb_sym (li_Listen l)), (Z.eqb_sym (li_ListenPort l)).
  destruct (li_Listen m =? li_Listen l)%string, (li_ListenPort m =? li_ListenPort l); cbn; try done.
  assert (Ht : transportsOverlap (li_Transport l) (li_Transport m) = transportsOverlap (li_Transport m) (li_Transport l)).
  { unfold transportsOverlap. rewrite (String.eqb_sym (li_Transport l) (li_Transport m)). destruct (li_Transport l =? TransportTCPUDP)%string, (li_Transport m =? TransportTCPUDP)%string; done. }
  rewrite Ht. destruct (transportsOverlap (li_Transport m) (li_Transport l)); [|done]. cbn. f_equal. unfold compatibleSharedListener.
  rewrite (String.eqb_sym b a), (String.eqb_sym (li_Transport m) (li_Transport l)), (String.eqb_sym (li_SettingsJSON m) (li_SettingsJSON l)).
  destruct (a =? b)%string eqn:E; [by apply String.eqb_eq in E as ->|by rewrite !andb_false_r].
Qed.
(** Every live proxy was one with the same node, protocol and listener. *)
Lemma ports_weaken v v' : ports_agree v -> (forall x p', iv_proxies v' !! x = Some p' -> exists p, iv_proxies v !! x = Some p /\
    pr_NodeID p' = pr_NodeID p /\ pr_Protocol p' = pr_Protocol p /\ (pr_DeletedAt p' = None -> pr_DeletedAt p = None)) ->
  iv_listeners v' = iv_listeners v -> (forall n, is_Some (iv_nodes v !! n) -> live_node v' n -> live_node v n) ->
  (forall n, is_Some (iv_nodes v !! n) -> is_Some (iv_nodes v' !! n)) -> ports_agree v'.
Proof.
  intros [A T K] Hp Hl Hlive Hn. split.
  - intros x y p' q' l m Hne Hx Hy Hdx Hdy Hnode Hln. rewrite Hl. intros Hlx Hly. destruct (Hp _ _ Hx) as (p & Ep & E1 & E2 & E3), (Hp _ _ Hy) as (q & Eq & F1 & F2 & F3).
    rewrite E2, F2. apply (A x y p q l m); try done; [by apply E3|by apply F3|congruence|]. rewrite E1 in Hln. apply Hlive; [by eapply K|exact Hln].
  - intros x p' Hx. destruct (Hp _ _ Hx) as (p & Ep & _ & -> & _). by eapply T.
  - intros x p' Hx. destruct (Hp _ _ Hx) as (p & Ep & -> & _). by eapply Hn, K.
Qed.
Lemma ports_insert v id p a l : ports_agree v -> fits v id (pr_NodeID p) (pr_Protocol p) l -> TrimSpace (pr_Protocol p) = pr_Protocol p ->
  is_Some (iv_nodes v !! pr_NodeID p) -> ports_agree (iv_with_proxies v (<[id := p]> (iv_proxies v)) a (<[id := l]> (iv_listeners v))).
Proof.
  intros [A T K] Hf Ht Hk. split; cbn.
  - intros x y p' q' l' m' Hne Hx Hy Hdx Hdy Hnode Hln Hlx Hly. unfold live_node in Hln. cbn in Hln.
    destruct (decide (x = id)) as [->|Hxi], (decide (y = id)) as [->|Hyi]; rewrite ?lookup_insert_eq, ?lookup_insert_ne in Hx by done;
      rewrite ?lookup_insert_eq, ?lookup_insert_ne in Hy by done; rewrite ?lookup_insert_eq, ?lookup_insert_ne in Hlx by done;
      rewrite ?lookup_insert_eq, ?lookup_insert_ne in Hly by done; simplify_eq.
    + rewrite listeners_conflict_sym. by apply (Hf Hln y q').
    + apply (Hf ltac:(by rewrite <- Hnode) x p'); done.
    + by apply (A x y p' q').
  - intros x q. destruct (decide (x = id)) as [->|Hne]; [rewrite lookup_insert_eq; by intros [= <-]|rewrite lookup_insert_ne by done; apply T].
  - intros x q. destruct (decide (x = id)) as [->|Hne]; [rewrite lookup_insert_eq; by intros [= <-]|rewrite lookup_insert_ne by done; apply K].
Qed.
Lemma insert_row (m : gmap string proxy_row) id p q x p' : m !! id = Some p -> pr_NodeID q = pr_NodeID p -> pr_Protocol q = pr_Protocol p ->
  (pr_DeletedAt q = None -> pr_DeletedAt p = None) -> <[id := q]> m !! x = Some p' ->
  exists p0, m !! x = Some p0 /\ pr_NodeID p' = pr_NodeID p0 /\ pr_Protocol p' = pr_Protocol p0 /\ (pr_DeletedAt p' = None -> pr_DeletedAt p0 = None).
Proof.
  intros Hp E1 E2 E3. destruct (decide (x = id)) as [->|Hne]; [rewrite lookup_insert_eq; intros [= <-]; by exists p|]. rewrite lookup_insert_ne by done. by exists p'.
Qed.
Lemma step_ports v v' : step v v' -> ports_agree v -> ports_agree v'.
Proof.
  intros H Hp. destruct H as [id n Hid ? ? ? ? ?|id n m Hn Hd ? ? ?|id n new Hn Hd ? ?|id n now Hn Hd|id q l Hid ? (n & Hn & Hnd) ? ? ? Ht Hf
    |id q on l Hq Hqd Hf|id q on Hq Hqd|id q new Hq Hqd ? ?|id q now Hq Hqd|id q l Hr Hq Hqd Hl Hf ?].
  - apply (ports_weaken v); cbn; try done; [by eauto| |].
    + intros x [m Hm] (m' & Hm' & Hd'). cbn in Hm'. rewrite lookup_insert_ne in Hm' by (intros ->; congruence). by exists m'.
    + intros x Hx. apply lookup_insert_is_Some'. by right.
  - apply (ports_weaken v); cbn; try done; [by eauto| |].
    + intros x _ (m' & Hm' & Hd'). cbn in Hm'. destruct (decide (x = id)) as [->|Hne]; [by exists n|rewrite lookup_insert_ne in Hm' by done; by exists m'].
    + intros x Hx. apply lookup_insert_is_Some'. by right.
  - apply (ports_weaken v); cbn; try done; [by eauto| |].
    + intros x _ (m' & Hm' & Hd'). cbn in Hm'. destruct (decide (x = id)) as [->|Hne]; [by exists n|rewrite lookup_insert_ne in Hm' by done; by exists m'].
    + intros x Hx. apply lookup_insert_is_Some'. by right.
  - apply (ports_weaken v); cbn; try done.
    + intros x p'. unfold archive_node_proxies. rewrite lookup_fmap. destruct (iv_proxies v !! x) as [p|]; [|done]. cbn. intros [= <-]. exists p.
      by destruct (pr_NodeID p =? id)%string.
    + intros x _ (m' & Hm' & Hd'). cbn in Hm'. destruct (decide (x = id)) as [->|Hne]; [by exists n|rewrite lookup_insert_ne in Hm' by done; by exists m'].
    + intros x Hx. apply lookup_insert_is_Some'. by right.
  - apply ports_insert; try done.
  - destruct Hf as [Hl|Hf].
    + rewrite (insert_id _ _ _ Hl). apply (ports_weaken v); cbn; try done. intros x p'. apply (insert_row _ id q); [exact Hq|reflexivity|reflexivity|intros _; exact Hqd].
    + rewrite (pt_trimmed _ Hp _ _ Hq) in Hf. apply ports_insert; try done; [exact (pt_trimmed _ Hp id q Hq)|exact (pt_known _ Hp id q Hq)].
  - apply (ports_weaken v); cbn; try done. intros x p'. apply (insert_row _ id q); [exact Hq|reflexivity|reflexivity|intros _; exact Hqd].
  - apply (ports_weaken v); cbn; try done. intros x p'. apply (insert_row _ id q); [exact Hq|reflexivity|reflexivity|intros _; exact Hqd].
  - apply (ports_weaken v); cbn; try done. intros x p'. apply (insert_row _ id q); [exact Hq|reflexivity|reflexivity|intros _; exact Hqd].
  - replace (iv_listeners v) with (<[id := l]> (iv_listeners v)) by (by apply insert_id).
    apply ports_insert; try done; [exact (pt_trimmed _ Hp id q Hq)|exact (pt_known _ Hp id q Hq)].
Qed.
End ports.

Section serving.
Context `{UnicodeTables} (oracle : nat -> draw) (json_valid : string -> bool) (object_short_id : string -> option (option (option string)))
  (set_short_id : string -> string -> string) (decode_ss_settings : string -> option Shadowsocks2022Settings)
  (encode_ss_settings : Shadowsocks2022Settings -> string) (base64_length : string -> option nat) (created_at : string -> string).
#[local] Abbreviation serve := (serve oracle json_valid object_short_id set_short_id decode_ss_settings encode_ss_settings base64_length created_at).

(** C20: Short of restorations, the database layer implements the namespaces of
    Names: whatever requests other than RestoreProxy the administration makes,
    and however they end, the names of nodes and of proxies change by steps of
    the specification only (creation under a free name, renaming that leaves an
    alias, removal), so that after them a name never leads to two resources.
    (RestoreProxy does not check the aliases given meanwhile and can break this:
    [restored_name_collides].) *)
Theorem requests_implement_names is_id is_name rs s : ~ is_id "" -> (forall x, is_id x -> is_name x -> False) -> (forall n, is_id (dr_id (oracle n))) ->
  Forall (asks is_name False) rs -> orderly is_id is_name (view s.1) ->
  let v := view s.1 in let v' := view (serve rs s).1 in
  rtc follows (node_space v) (node_space v') /\ rtc follows (proxy_space v) (proxy_space v') /\ orderly is_id is_name v' /\
  (forall name x y, leads (node_space v') name x -> leads (node_space v') name y -> x = y) /\
  (forall name x y, leads (proxy_space v') name x -> leads (proxy_space v') name y -> x = y).
Proof.
  intros He Hdj Hids Ha Ho v v'.
  pose proof (serve_steps oracle json_valid object_short_id set_short_id decode_ss_settings encode_ss_settings base64_length created_at
    is_id is_name False Hids rs s He (or_keyed _ _ _ Ho) Ha) as Hs.
  destruct (steps_orderly _ _ He Hdj _ _ Hs Ho) as (H1 & H2 & Ho'). split_and!; [exact H1|exact H2|exact Ho'| |]; intros name x y.
  - apply leads_fun. exact (or_nodes _ _ _ Ho').
  - apply leads_fun. exact (or_proxies _ _ _ Ho').
Qed.

(** C6: Old names go on working.  A reference to a proxy (its id, its name or any
    name it once had, on a node given by its id, name or old name) that resolved
    before some requests resolves to the same proxy after them, as long as the
    proxy has not been deleted: no edit, renaming or creation in between can take
    the name away or lead it elsewhere. *)
Theorem old_names_keep_leading is_id is_name rs s nodeName name p : ~ is_id "" -> (forall x, is_id x -> is_name x -> False) ->
  (forall n, is_id (dr_id (oracle n))) -> Forall (asks is_name False) rs -> orderly is_id is_name (view s.1) ->
  GetProxyF nodeName name s = (Ok p, s) -> is_Some (live_proxy (fl_rows (serve rs s).1) (px_ID p)) ->
  exists p', GetProxyF nodeName name (serve rs s) = (Ok p', serve rs s) /\ px_ID p' = px_ID p.
Proof.
  intros He Hdj Hids Ha Ho Hp [p' Hp'].
  pose proof (serve_steps oracle json_valid object_short_id set_short_id decode_ss_settings encode_ss_settings base64_length created_at
    is_id is_name False Hids rs s He (or_keyed _ _ _ Ho) Ha) as Hs.
  destruct (steps_orderly _ _ He Hdj _ _ Hs Ho) as (_ & _ & Ho').
  apply (GetProxy_refers _ _ Hdj _ _ _ _ Ho) in Hp as (Hl & (n & Hn & Hnode) & Hr).
  destruct (found_proxy _ _ _ Hl) as (row & Hrow & _ & _ & _ & En & _). destruct (found_proxy _ _ _ Hp') as (row' & Hrow' & Hd' & Hlive & Hid & En' & _).
  pose proof (steps_proxy _ _ He Hdj _ _ _ _ _ _ Hs Ho Hrow' Hd' Hrow Hr) as Hr'. destruct (steps_proxy_live _ _ _ _ _ _ _ Hs Hrow' Hd' Hrow) as [_ Enode].
  apply (GetNode_refers _ _ Hdj _ _ _ Ho) in Hn as (Hnr & _ & Hrn). rewrite Enode, <- En, Hnode in Hlive.
  pose proof (steps_node _ _ He Hdj _ _ _ _ Hs Ho Hlive ltac:(by eexists) Hrn) as Hrn'. destruct Hlive as (n' & Hn' & Hnd').
  pose proof (ky_nodes _ (or_keyed _ _ _ Ho') _ _ Hn') as Hk.
  exists p'. split; [|exact Hid]. apply (GetProxy_refers _ _ Hdj _ _ _ _ Ho'). rewrite Hid. split_and!; [exact Hp'| |exact Hr'].
  exists n'. split; [|congruence]. apply (GetNode_refers _ _ Hdj _ _ _ Ho'). rewrite Hk. by split_and!.
Qed.

(** C13: Listeners never collide.  Whatever requests the administration makes,
    restorations included and however they end, two live proxies of a live node
    listen on different addresses, ports or transports, unless the code takes
    them for one shared listener (same protocol, transport and settings). *)
Theorem listeners_never_conflict rs s : (forall n, dr_id (oracle n) <> ""%string) -> keyed (view s.1) -> ports_agree (view s.1) -> ports_agree (view (serve rs s).1).
Proof.
  intros Hids Hk Hp.
  pose proof (serve_steps oracle json_valid object_short_id set_short_id decode_ss_settings encode_ss_settings base64_length created_at
    (fun x => x <> ""%string) (fun _ => True) True Hids rs s (fun H => H eq_refl) Hk) as Hs.
  assert (Ha : Forall (asks (fun _ => True) True) rs) by (apply Forall_forall; intros [] _; done). specialize (Hs Ha).
  clear Hk Ha. induction Hs as [v|v v1 v' H1 _ IH]; [done|]. apply IH, (step_ports _ _ _ _ _ H1), Hp.
Qed.
End serving.

(** ** A small fleet, served *)
Definition w_serve : list request -> fleet * nat -> fleet * nat :=
  serve (H := ascii_only_tables) w_draws (fun _ => true) (fun _ => Some None) (fun raw _ => raw) (fun _ => None) (fun _ => "{}"%string) (fun _ => None) (fun x => x).
Definition w_id (x : string) : bool := bool_decide (x ∈ ["n1"; "x1"; "i0"; "i1"; "i2"; "i3"; "i4"; "i5"; "i6"]%string).
Definition w_is_id (x : string) : Prop := w_id x = true.
Definition w_is_name (x : string) : Prop := w_id x = false.
Lemma w_disjoint x : w_is_id x -> w_is_name x -> False.
Proof. unfold w_is_id, w_is_name. congruence. Qed.
Lemma w_draws_ids n : w_is_id (dr_id (w_draws n)).
Proof. by destruct n as [|[|[|[|[|[|n]]]]]]. Qed.
Lemma w_hosted_node x n : iv_nodes (view w_hosted) !! x = Some n -> x = "n1"%string /\ n = w_node.
Proof. intros H. assert (H' : ({["n1" := w_node]} : gmap string Node) !! x = Some n) by exact H. by apply lookup_singleton_Some in H' as [<- <-]. Qed.
Definition w_row : proxy_row := {| pr_NodeID := "n1"; pr_Name := "one"; pr_Protocol := ProtocolVLESSReality; pr_Enabled := true; pr_DeletedAt := None |}.
Lemma w_hosted_proxy x p : iv_proxies (view w_hosted) !! x = Some p -> x = "x1"%string /\ p = w_row.
Proof. intros H. assert (H' : ({["x1" := w_row]} : gmap string proxy_row) !! x = Some p) by exact H. by apply lookup_singleton_Some in H' as [<- <-]. Qed.
Lemma w_node_leads name x : leads (node_space (view w_hosted)) name x -> name = "node"%string /\ x = "n1"%string.
Proof. intros [(n & [-> ->]%w_hosted_node & _ & <-)%node_names_Some|H]; [done|]. exfalso. revert H. exact (lookup_empty_Some name x). Qed.
Lemma w_proxy_leads name x : leads (proxy_space (view w_hosted)) name x -> name = "one"%string /\ x = "x1"%string.
Proof. intros [(n & [-> ->]%w_hosted_proxy & _ & <-)%proxy_names_Some|H]; [done|]. exfalso. revert H. exact (lookup_empty_Some name x). Qed.
Lemma w_collision_free ns name x : (forall n y, leads ns n y -> n = name /\ y = x) -> ns_aliases ns = ∅ -> collision_free ns.
Proof.
  intros Hl Ha. split.
  - intros i j n Hi Hj. destruct (Hl n i (or_introl Hi)) as [_ ->]. by destruct (Hl n j (or_introl Hj)) as [_ ->].
  - intros a i. by rewrite Ha, lookup_empty.
  - intros a i j. by rewrite Ha, lookup_empty.
Qed.
Lemma w_keyed : keyed (view w_hosted).
Proof. split; [by intros k n [-> ->]%w_hosted_node|vm_compute; reflexivity]. Qed.
Lemma w_orderly : orderly w_is_id w_is_name (view w_hosted).
Proof.
  split.
  - exact w_keyed.
  - exact (w_collision_free _ _ _ w_node_leads eq_refl).
  - exact (w_collision_free _ _ _ w_proxy_leads eq_refl).
  - intros x n [-> _]%w_hosted_node. vm_compute. reflexivity.
  - intros x p [-> _]%w_hosted_proxy. vm_compute. reflexivity.
  - intros name x [-> _]%w_node_leads. vm_compute. reflexivity.
  - intros name x [-> _]%w_proxy_leads. vm_compute. reflexivity.
  - intros x p [-> ->]%w_hosted_proxy _. exists w_node. split; [vm_compute; reflexivity|done].
Qed.
Lemma w_ports : ports_agree (view w_hosted).
Proof.
  split.
  - intros x y p q l m Hne [-> _]%w_hosted_proxy [-> _]%w_hosted_proxy. done.
  - intros x p [_ ->]%w_hosted_proxy. vm_compute. reflexivity.
  - intros x p [_ ->]%w_hosted_proxy. exists w_node. vm_compute. reflexivity.
Qed.
Definition w_params (name protocol : string) (port : Z) (settings : string) : ProxyParams := {|
  pp_Name := name; pp_Protocol := protocol; pp_Listen := ""; pp_ListenPort := port; pp_Transport := ""; pp_Enabled := true;
  pp_SettingsJSON := settings; pp_RestValid := true |}.
(** The node and the proxy are renamed; another proxy cannot take the old name. *)
Definition w_renames : list request :=
  [RqRenameNode "node" "site"; RqRenameProxy "node" "one" "uno"; RqCreateProxy "site" (w_params "one" "hysteria2" 8443 "") None].
Lemma w_asks restores : Forall (asks w_is_name restores) w_renames.
Proof. repeat constructor. Qed.
Lemma requests_implement_names_witness :
  collision_free (proxy_space (view (w_serve w_renames (w_hosted, O)).1)) /\ leads (proxy_space (view (w_serve w_renames (w_hosted, O)).1)) "uno" "x1" /\
  size (iv_proxies (view (w_serve w_renames (w_hosted, O)).1)) = 1%nat.
Proof.
  destruct (requests_implement_names (H := ascii_only_tables) w_draws (fun _ => true) (fun _ => Some None) (fun raw _ => raw) (fun _ => None) (fun _ => "{}"%string) (fun _ => None) (fun x => x)
    w_is_id w_is_name w_renames (w_hosted, O) ltac:(discriminate) w_disjoint w_draws_ids (w_asks _) w_orderly) as (_ & _ & Ho & _).
  split; [exact (or_proxies _ _ _ Ho)|]. split; [left|]; vm_compute; reflexivity.
Defined.
Lemma old_names_keep_leading_witness : exists p', GetProxyF "node" "one" (w_serve w_renames (w_hosted, O)) = (Ok p', w_serve w_renames (w_hosted, O)) /\
  px_ID p' = "x1"%string.
Proof.
  apply (old_names_keep_leading (H := ascii_only_tables) w_draws (fun _ => true) (fun _ => Some None) (fun raw _ => raw) (fun _ => None) (fun _ => "{}"%string) (fun _ => None) (fun x => x)
    w_is_id w_is_name w_renames (w_hosted, O) "node" "one" w_one ltac:(discriminate) w_disjoint w_draws_ids (w_asks _) w_orderly).
  - vm_compute. reflexivity.
  - vm_compute. by eexists.
Defined.
(** A second proxy on the port is refused, one on the UDP side of it is not. *)
Definition w_listens : list request :=
  [RqCreateProxy "node" (w_params "two" ProtocolVLESSReality 443 "[]") None; RqCreateProxy "node" (w_params "three" "hysteria2" 443 "") None].
Lemma listeners_never_conflict_witness : ports_agree (view (w_serve w_listens (w_hosted, O)).1) /\ size (iv_proxies (view (w_serve w_listens (w_hosted, O)).1)) = 2%nat.
Proof.
  split; [|vm_compute; reflexivity].
  apply (listeners_never_conflict (H := ascii_only_tables) w_draws (fun _ => true) (fun _ => Some None) (fun raw _ => raw) (fun _ => None) (fun _ => "{}"%string) (fun _ => None) (fun x => x)
    w_listens (w_hosted, O)).
  - intros n E. pose proof (w_draws_ids n) as Hw. rewrite E in Hw. discriminate Hw.
  - exact w_keyed.
  - exact w_ports.
Defined.

(** ** What RestoreProxy breaks *)
(** A proxy is deleted, another one is called as it was and renamed; the first one
    is restored: its name is a name of the other as well. *)
Theorem restored_name_collides : exists rs, let v := view (w_serve rs (w_hosted, O)).1 in
  leads (proxy_space v) "one" "x1" /\ leads (proxy_space v) "one" "i1" /\ ~ collision_free (proxy_space v).
Proof.
  exists [RqDeleteProxy "node" "one"; RqCreateProxy "node" (w_params "one" "hysteria2" 8443 "") (Some false); RqRenameProxy "node" "one" "uno"; RqRestoreProxy "node" "x1"].
  intros v. assert (H1 : leads (proxy_space v) "one" "x1") by (left; vm_compute; reflexivity).
  assert (H2 : leads (proxy_space v) "one" "i1") by (right; vm_compute; reflexivity).
  split_and!; [exact H1|exact H2|]. intros Hcf. discriminate (leads_fun _ Hcf _ _ _ H1 H2).
Qed.
(** The proxy of a deleted node is restored, although the request reports an
    error: nothing finds it any more, and its name is taken for good. *)
Definition w_lost : fleet * nat := w_serve [RqDeleteNode "node"] (w_hosted, O).
Theorem restored_proxy_is_lost : let r := RestoreProxy (fun x => x) "n1" "x1" w_lost in
  (exists e, r.1 = Err e) /\ (exists p, iv_proxies (view r.2.1) !! "x1" = Some p /\ pr_DeletedAt p = None) /\
  (forall nodeName name p s', GetProxyF nodeName name r.2 = (Ok p, s') -> px_ID p <> "x1"%string) /\
  GetProxyIDByNameOrAlias (fl_store r.2.1) "one" = Some "x1"%string.
Proof.
  intros r. split_and!.
  - subst r. vm_compute. eexists. reflexivity.
  - eexists. split; [vm_compute; reflexivity|reflexivity].
  - intros nodeName name p s' [_ Hl]%GetProxyF_Ok Hid. rewrite Hid in Hl.
    assert (Hn : live_proxy (fl_rows r.2.1) "x1" = None) by (vm_compute; reflexivity). discriminate (eq_trans (eq_sym Hn) Hl).
  - vm_compute. reflexivity.
Qed.
