(* ===== verification/InventoryHosts.v ===== *)
(** * The hosts of a node ([Inventory])

    An update of a node leaves a usable list of hosts whose ids are distinct; an
    address that stays keeps its id, and a host that an endpoint uses stays. *)
From S2P Require Import Prelude GoStrings Effects.
From S2P Require Import Paths PathGrants Render Publication PublicationSafety Inventory InventorySteps InventorySafety.

#[local] Open Scope Z_scope.

(** ** normalizeNodeHosts *)
Definition of_request (requested : list NodeHost) (h : NodeHost) : Prop :=
  exists r, r ∈ requested /\ nh_Host h = TrimSpace (nh_Host r) /\ nh_ID h = TrimSpace (nh_ID r).
Lemma trim_hosts_spec hosts : forall seen, NoDup (map nh_Host (trim_hosts seen hosts)) /\
  forall h, h ∈ trim_hosts seen hosts -> nh_Host h ∉ seen /\ nh_Host h <> ""%string /\ of_request hosts h.
Proof.
  induction hosts as [|r hosts IH]; intros seen; cbn; [split; [constructor|by intros h ?%elem_of_nil]|].
  destruct (_ || _) eqn:E.
  - destruct (IH seen) as [Hn Hs]. split; [exact Hn|]. intros h (H1 & H2 & r0 & Hr & H3)%Hs. split_and!; [done|done|]. exists r0. by split; [right|].
  - apply orb_false_iff in E as [E1 E2]. apply String.eqb_neq in E1. apply bool_decide_eq_false in E2.
    destruct (IH (seen ∪ {[TrimSpace (nh_Host r)]})) as [Hn Hs]. cbn. split.
    + constructor; [|exact Hn]. intros Hin. apply list_elem_of_In, in_map_iff in Hin as (h & Hh & Hin%list_elem_of_In).
      destruct (Hs _ Hin) as [Hno _]. set_solver.
    + intros h [->|Hin]%elem_of_cons; cbn.
      * split_and!; [done|done|]. exists r. by split; [left|].
      * destruct (Hs _ Hin) as (H1 & H2 & r0 & Hr & H3). split_and!; [set_solver|done|]. exists r0. by split; [right|].
Qed.
Record usable_hosts (hosts : list NodeHost) : Prop := {
  uh_addresses : NoDup (map nh_Host hosts);
  uh_blank : forall h, h ∈ hosts -> nh_Host h <> ""%string;
  uh_selected : exists h, h ∈ hosts /\ nh_Selected h = true
}.
Lemma normalize_spec requested l : normalizeNodeHosts requested = Some l -> usable_hosts l /\ forall h, h ∈ l -> of_request requested h.
Proof.
  unfold normalizeNodeHosts. destruct (trim_hosts_spec requested ∅) as [Hn Hs]. destruct (trim_hosts ∅ requested) as [|f rest]; [done|].
  destruct (existsb nh_Selected (f :: rest)) eqn:E; intros [= <-].
  - split; [split; [exact Hn|by intros h Hh; apply Hs|]|by intros h Hh; apply Hs].
    apply existsb_exists in E as (h & Hh%list_elem_of_In & Hsel). by exists h.
  - split; [split; [exact Hn| |]|].
    + intros h [->|Hh]%elem_of_cons; [apply (Hs f); by left|apply (Hs h); by right].
    + exists (selected_host f). split; [by left|done].
    + intros h [->|Hh]%elem_of_cons; [|apply (Hs h); by right]. destruct (Hs f) as (_ & _ & Hr); [by left|exact Hr].
Qed.
(** ** ensureNodeHostIDs *)
(** Another id for the same host. *)
Definition identified (h h' : NodeHost) : Prop := h' = with_host_id h (nh_ID h').
Definition blank_id (h : NodeHost) : bool := (nh_ID h =? "")%string.
Definition known (hosts : list NodeHost) : list string := map nh_ID (List.filter (fun h => negb (blank_id h)) hosts).
Lemma known_ids_spec m hosts : forall seen l seen', known_ids m seen hosts = Ok (l, seen') ->
  Forall2 (fun h h' => identified h h' /\ nh_ID h' = if blank_id h then default "" (m !! nh_Host h) else nh_ID h)%string hosts l /\
  NoDup (known l) /\ (forall x, x ∈ known l -> x ∉ seen) /\ (forall x, x ∈ seen' <-> x ∈ seen \/ x ∈ known l).
Proof.
  induction hosts as [|h hosts IH]; intros seen l seen'; cbn [known_ids].
  { intros [= <- <-]. split_and!; [constructor|constructor| |]; intros x; unfold known; cbn; set_solver. }
  cbv zeta. fold (blank_id h). set (i := if blank_id h then default "" (m !! nh_Host h) else nh_ID h).
  destruct (i =? "")%string eqn:Ei; [|destruct (bool_decide (i ∈ seen)) eqn:Es; [done|]].
  - destruct (known_ids m seen hosts) as [[rest sn]|] eqn:E; [|done]. intros [= <- <-]. destruct (IH _ _ _ E) as (H1 & H2 & H3 & H4).
    assert (Ek : known (with_host_id h i :: rest) = known rest) by (unfold known; cbn [List.filter]; unfold blank_id at 1; cbn [nh_ID with_host_id]; by rewrite Ei).
    rewrite Ek. split_and!; [by constructor|done..].
  - apply bool_decide_eq_false in Es. destruct (known_ids m (seen ∪ {[i]}) hosts) as [[rest sn]|] eqn:E; [|done]. intros [= <- <-].
    destruct (IH _ _ _ E) as (H1 & H2 & H3 & H4).
    assert (Ek : known (with_host_id h i :: rest) = i :: known rest) by (unfold known; cbn [List.filter]; unfold blank_id at 1; cbn [nh_ID with_host_id]; by rewrite Ei).
    rewrite Ek. split_and!; [by constructor| | |].
    + constructor; [|exact H2]. intros Hin%H3. set_solver.
    + intros x [->|Hx]%elem_of_cons; [done|]. apply H3 in Hx. set_solver.
    + intros x. rewrite H4, elem_of_cons. set_solver.
Qed.
Section hosts.
Context `{UnicodeTables} (oracle : nat -> draw).
(** What is drawn from now on is new. *)
Record fresh_from (n : nat) (used : string -> Prop) : Prop := {
  fr_blank : forall i, (n <= i)%nat -> dr_id (oracle i) <> ""%string;
  fr_distinct : forall i j, (n <= i)%nat -> (n <= j)%nat -> dr_id (oracle i) = dr_id (oracle j) -> i = j;
  fr_unused : forall i, (n <= i)%nat -> ~ used (dr_id (oracle i))
}.
Lemma known_in hosts k h : hosts !! k = Some h -> blank_id h = false -> nh_ID h ∈ known hosts.
Proof.
  intros Hk Hb. unfold known. apply list_elem_of_In, in_map, List.filter_In. split; [by apply list_elem_of_In, list_elem_of_lookup; exists k|by rewrite Hb].
Qed.
Lemma in_ids (seen : gset string) hosts l x : Forall2 (fun h h' => identified h h' /\ nh_ID h' <> ""%string /\ if blank_id h then nh_ID h' ∉ seen else nh_ID h' = nh_ID h) hosts l ->
  x ∈ map nh_ID l -> exists k h h', hosts !! k = Some h /\ (if blank_id h then nh_ID h' ∉ seen else nh_ID h' = nh_ID h) /\ nh_ID h' = x.
Proof.
  intros HF Hin. apply list_elem_of_In, in_map_iff in Hin as (h' & Eh & Hin%list_elem_of_In).
  apply list_elem_of_lookup in Hin as [k Hk]. destruct (Forall2_lookup_r _ _ _ _ _ HF Hk) as (h0 & Hk0 & _ & _ & Hid). by exists k, h0, h'.
Qed.
(** An id by position or a new one. *)
Lemma new_id_spec (existing : list NodeHost) (i : nat) (seen : gset string) (s s1 : fleet * nat) (x : string) :
  (let id := match existing !! i with Some e => if bool_decide (nh_ID e ∈ seen) then ""%string else nh_ID e | None => ""%string end in
   (if (id =? "")%string then d ← draws oracle; mret (dr_id d) else mret id) s = (Ok x, s1)) ->
  fresh_from s.2 (fun y => y ∈ seen \/ y ∈ map nh_ID existing) ->
  x <> ""%string /\ x ∉ seen /\ s1.1 = s.1 /\ fresh_from s1.2 (fun y => y ∈ seen ∪ {[x]} \/ y ∈ map nh_ID existing).
Proof.
  cbv zeta. intros Hid [F1 F2 F3]. destruct (_ =? "")%string eqn:E.
  - frun Hid. cbn [fst snd]. split_and!; [by apply F1|intros Hx; by apply (F3 s.2 (le_n _)); left|done|]. split.
    + intros j Hj. apply F1. lia.
    + intros j k Hj Hk. apply F2; lia.
    + intros j Hj [Hx|Hx]; [|apply (F3 j); [lia|by right]]. apply elem_of_union in Hx as [Hx|Hx%elem_of_singleton]; [apply (F3 j); [lia|by left]|].
      apply F2 in Hx; lia.
  - frun Hid. apply String.eqb_neq in E. destruct (existing !! i) as [e|] eqn:Ee; [|done]. destruct (bool_decide (nh_ID e ∈ seen)) eqn:Ed; [done|].
    apply bool_decide_eq_false in Ed. assert (Hin : nh_ID e ∈ map nh_ID existing).
    { apply list_elem_of_In, in_map, list_elem_of_In, list_elem_of_lookup. by exists i. }
    split_and!; [done|done|done|]. split; [done|done|]. intros j Hj [Hx|Hx]; [|by apply (F3 j Hj); right].
    apply elem_of_union in Hx as [Hx|Hx%elem_of_singleton]; [by apply (F3 j Hj); left|]. apply (F3 j Hj). right. congruence.
Qed.
Lemma missing_ids_spec existing hosts : forall i seen s l s', missing_ids oracle existing i seen hosts s = (Ok l, s') ->
  NoDup (known hosts) -> (forall x, x ∈ known hosts -> x ∈ seen) -> fresh_from s.2 (fun x => x ∈ seen \/ x ∈ map nh_ID existing) ->
  s'.1 = s.1 /\ Forall2 (fun h h' => identified h h' /\ nh_ID h' <> ""%string /\ if blank_id h then nh_ID h' ∉ seen else nh_ID h' = nh_ID h) hosts l /\ NoDup (map nh_ID l).
Proof.
  induction hosts as [|h hosts IH]; intros i seen s l s' Hr Hnd Hseen Hf; cbn [missing_ids] in Hr.
  { frun Hr. split_and!; [done|constructor|constructor]. }
  fold (blank_id h) in Hr. destruct (blank_id h) eqn:Eb; cbn [negb] in Hr.
  - apply bind_Ok in Hr as (x & s1 & Hid & Hr). apply bind_Ok in Hr as (rest & s2 & Hr & Hret). apply ret_Ok in Hret as [-> ->].
    assert (Hx : x <> ""%string /\ x ∉ seen /\ s1.1 = s.1 /\ fresh_from s1.2 (fun y => y ∈ seen ∪ {[x]} \/ y ∈ map nh_ID existing)).
    { exact (new_id_spec _ _ _ _ _ _ Hid Hf). }
    destruct Hx as (Hx1 & Hx2 & Hs & Hf1). assert (Ek : known (h :: hosts) = known hosts) by (unfold known; cbn [List.filter]; by rewrite Eb).
    rewrite Ek in Hnd, Hseen. destruct (IH _ _ _ _ _ Hr Hnd) as (H1 & H2 & H3); [intros y Hy; apply Hseen in Hy; set_solver|done|].
    split_and!; [congruence| |].
    + constructor; [by rewrite Eb|]. eapply Forall2_impl; [exact H2|]. intros h0 h1 (E1 & E2 & E3). split_and!; [done|done|]. destruct (blank_id h0); [set_solver|done].
    + constructor; [|exact H3]. intros (k & h0 & h1 & Hk0 & Hk1 & Hid1)%(in_ids _ _ _ _ H2). destruct (blank_id h0) eqn:Eb0; [set_solver|].
      apply Hx2, Hseen. cbn in Hid1. rewrite <- Hid1, Hk1. by apply (known_in hosts k).
  - apply bind_Ok in Hr as (rest & s1 & Hr & Hret). apply ret_Ok in Hret as [-> ->].
    assert (Ek : known (h :: hosts) = nh_ID h :: known hosts) by (unfold known; cbn [List.filter]; by rewrite Eb). rewrite Ek in Hnd, Hseen.
    apply NoDup_cons in Hnd as [Hno Hnd]. destruct (IH _ _ _ _ _ Hr Hnd) as (H1 & H2 & H3); [intros x Hx; apply Hseen; by right|done|].
    split_and!; [done| |].
    + constructor; [|exact H2]. split; [by destruct h|]. rewrite Eb. split; [|done]. by apply String.eqb_neq.
    + constructor; [|exact H3]. intros (k & h0 & h1 & Hk0 & Hk1 & Hid1)%(in_ids _ _ _ _ H2). destruct (blank_id h0) eqn:Eb0.
      * apply Hk1. rewrite Hid1. apply Hseen. by left.
      * apply Hno. rewrite <- Hid1, Hk1. by apply (known_in hosts k).
Qed.
(** existingByHost, where the addresses are distinct. *)
Lemma ids_by_host_spec existing e : NoDup (map nh_Host existing) -> e ∈ existing -> nh_ID e <> ""%string -> ids_by_host existing !! nh_Host e = Some (nh_ID e).
Proof.
  intros Hnd He Hid. unfold ids_by_host.
  assert (Hgen : forall m : gmap string string, NoDup (map nh_Host existing) -> (e ∈ existing \/ (m !! nh_Host e = Some (nh_ID e) /\ nh_Host e ∉ map nh_Host existing)) ->
    foldl (fun m h => if (nh_ID h =? "")%string then m else <[nh_Host h := nh_ID h]> m) m existing !! nh_Host e = Some (nh_ID e)).
  { clear Hnd He. induction existing as [|h existing IH]; intros m Hnd Hin; cbn; [by destruct Hin as [?%elem_of_nil|[? _]]|].
    apply NoDup_cons in Hnd as [Hno Hnd]. apply IH; [done|]. destruct Hin as [[->|Hin]%elem_of_cons|[Hm Hnot]]; [right|by left|right].
    - split; [|exact Hno]. destruct (nh_ID h =? "")%string eqn:E; [by apply String.eqb_eq in E|]. by rewrite lookup_insert_eq.
    - cbn in Hnot. apply not_elem_of_cons in Hnot as [Hne Hnot]. split; [|exact Hnot].
      destruct (nh_ID h =? "")%string; [done|]. by rewrite lookup_insert_ne by congruence. }
  apply Hgen; [done|by left].
Qed.
Lemma ids_by_host_in existing a x : ids_by_host existing !! a = Some x -> x ∈ map nh_ID existing.
Proof.
  unfold ids_by_host. assert (Hgen : forall m : gmap string string, (forall b y, m !! b = Some y -> y ∈ map nh_ID existing) -> forall l, (forall h, h ∈ l -> h ∈ existing) ->
    foldl (fun m h => if (nh_ID h =? "")%string then m else <[nh_Host h := nh_ID h]> m) m l !! a = Some x -> x ∈ map nh_ID existing).
  { intros m Hm l. revert m Hm. induction l as [|h l IH]; intros m Hm Hl; cbn; [apply Hm|]. apply IH; [|intros h' Hh; apply Hl; by right].
    intros b y. destruct (nh_ID h =? "")%string; [apply Hm|]. destruct (decide (b = nh_Host h)) as [->|Hne]; [|rewrite lookup_insert_ne by done; apply Hm].
    rewrite lookup_insert_eq. intros [= <-]. apply list_elem_of_In, in_map, list_elem_of_In, Hl. by left. }
  by apply (Hgen ∅).
Qed.
Lemma ensure_spec hosts existing s l s' : ensureNodeHostIDs oracle hosts existing s = (Ok l, s') ->
  fresh_from s.2 (fun x => x ∈ map nh_ID hosts \/ x ∈ map nh_ID existing) ->
  s'.1 = s.1 /\ NoDup (map nh_ID l) /\ Forall2 (fun h h' => identified h h' /\ nh_ID h' <> ""%string /\
    (nh_ID h <> ""%string -> nh_ID h' = nh_ID h) /\ (nh_ID h = ""%string -> forall x, ids_by_host existing !! nh_Host h = Some x -> x <> ""%string -> nh_ID h' = x)) hosts l.
Proof.
  unfold ensureNodeHostIDs. intros He Hf. apply bind_Ok in He as ([ks seen] & s1 & [Hk ->]%lift_Ok & He). cbn [fst snd] in He.
  destruct (known_ids_spec _ _ _ _ _ Hk) as (K1 & K2 & K3 & K4).
  assert (Hks : forall x, x ∈ known ks -> x ∈ map nh_ID hosts \/ x ∈ map nh_ID existing). {
    intros x Hx. unfold known in Hx. apply list_elem_of_In, in_map_iff in Hx as (h' & <- & [Hin Hb]%List.filter_In).
    apply list_elem_of_In, list_elem_of_lookup in Hin as [k Hk']. destruct (Forall2_lookup_r _ _ _ _ _ K1 Hk') as (h & Hh & _ & Eid). rewrite Eid.
    destruct (blank_id h); [right|left; by apply list_elem_of_In, in_map, list_elem_of_In, list_elem_of_lookup; exists k].
    destruct (ids_by_host existing !! nh_Host h) as [x|] eqn:Ex; [by apply ids_by_host_in in Ex|].
    exfalso. unfold blank_id in Hb. rewrite Eid in Hb. by cbn in Hb. }
  destruct (missing_ids_spec _ _ _ _ _ _ _ He K2) as (M1 & M2 & M3).
  { intros x Hx. apply K4. by right. }
  { destruct Hf as [F1 F2 F3]. split; [done|done|]. intros i Hi [Hx|Hx]; [|by apply (F3 i Hi); right]. apply K4 in Hx as [Hx|Hx]; [set_solver|]. by apply (F3 i Hi), Hks. }
  split_and!; [done|done|]. apply Forall2_same_length_lookup_2; [by rewrite (Forall2_length _ _ _ K1), (Forall2_length _ _ _ M2)|].
  intros k h h' Hh Hh'. destruct (Forall2_lookup_l _ _ _ _ _ K1 Hh) as (h1 & Hh1 & I1 & E1). destruct (Forall2_lookup_l _ _ _ _ _ M2 Hh1) as (h2 & Hh2 & I2 & Hne & E2).
  rewrite Hh' in Hh2. injection Hh2 as <-. unfold blank_id in E1, E2. split_and!.
  - unfold identified in *. rewrite I2, I1. done.
  - done.
  - intros Hid. destruct (nh_ID h =? "")%string eqn:E; [by apply String.eqb_eq in E|]. rewrite E1, E in E2. congruence.
  - intros Hid x Hx Hxe. rewrite Hid in E1. cbn in E1. rewrite Hx in E1. cbn in E1. rewrite E1 in E2. destruct (x =? "")%string eqn:E; [by apply String.eqb_eq in E|]. congruence.
Qed.
(** ** UpdateNodeByName *)
Lemma atomically_Ok {A} (m : F A) s a s' : atomically m s = (Ok a, s') -> m s = (Ok a, s').
Proof. unfold atomically. by destruct (m s) as [[x|e] s1]. Qed.
(** The transaction writes the hosts into the row, whatever happens to the name. *)
Lemma update_tx_row old name hosts status current s u s' : keyed (view s.1) -> GetNode (fl_rows s.1) current = Ok old ->
  (existing ← look (fun b => GetNode b current);
   renameNodeTx (no_ID existing) (no_Name existing) name;;
   w ← Publication.current;
   match nodes (fl_rows w) !! no_ID existing with
   | Some row =>
       ensure_that (negb (is_set (no_DeletedAt row))) (NodeMissing current);;
       change (fun w => set_public_host (set_rows w (put_node (fl_rows w) (no_ID existing) (updated_node row hosts status)))
         (no_ID existing) (match hosts with h :: _ => nh_Host h | [] => "" end))
   | None => fail (NodeMissing current)
   end) s = (Ok u, s') -> exists row, nodes (fl_rows s'.1) !! no_ID old = Some (updated_node row hosts status) /\ no_ID row = no_ID old /\ no_DeletedAt row = None.
Proof.
  intros Hk Hold H'. destruct (found_node _ _ _ _ Hk eq_refl Hold) as [Hrow Hd].
  apply bind_Ok in H' as (n & s1 & [Hn ->]%look_Ok & H'). rewrite Hold in Hn. injection Hn as <-.
  apply bind_Ok in H' as ([] & s1 & H1 & H'). apply bind_Ok in H' as (w' & s2 & [-> ->]%current_Ok & H').
  destruct (nodes (fl_rows s1.1) !! no_ID old) as [row|] eqn:Er; [|done]. frun H'. change (iv_nodes (view s1.1) !! no_ID old = Some row) in Er.
  exists row. split; [cbn; apply lookup_insert_eq|].
  apply (renameNodeTx_Ok _ _ _ _ _ _ Hrow Hd) in H1 as [[_ E]|[Ht E]]; rewrite E in Er.
  - rewrite Hrow in Er. by injection Er as <-.
  - cbn in Er. rewrite lookup_insert_eq in Er. by injection Er as <-.
Qed.
Lemma dropped_none b next existing h : dropped_host_used b next existing = None -> h ∈ existing ->
  (exists k e, endpoints b !! k = Some e /\ ep_HostID e = nh_ID h) -> nh_ID h ∈ map nh_ID next.
Proof.
  unfold dropped_host_used. destruct (List.find _ existing) as [x|] eqn:E; [done|]. intros _ Hin%list_elem_of_In (k & e & He & Hid).
  pose proof (List.find_none _ _ E h Hin) as Hf. cbn in Hf. apply andb_false_iff in Hf as [Hf|Hf].
  - apply negb_false_iff, existsb_exists in Hf as (n & Hn & Hni). apply String.eqb_eq in Hni. rewrite <- Hni. by apply list_elem_of_In, in_map.
  - unfold host_used in Hf. assert (Ht : existsb (fun ke : string * Endpoint => (ep_HostID ke.2 =? nh_ID h)%string) (map_to_list (endpoints b)) = true); [|congruence].
    apply existsb_exists. exists (k, e). split; [by apply list_elem_of_In, elem_of_map_to_list|]. cbn. by apply String.eqb_eq.
Qed.
Definition requested_hosts (params : UpdateNodeParams) : list NodeHost :=
  match un_Hosts params with
  | Some hosts => hosts
  | None => [{| nh_ID := ""; nh_Host := TrimSpace (un_PublicHost params); nh_Tag := ""; nh_Selected := true |}]
  end.
(** What normalizeNodeHosts and ensureNodeHostIDs make of the request. *)
Lemma ensured_hosts requested norm existing l : normalizeNodeHosts requested = Some norm -> NoDup (map nh_Host existing) ->
  Forall2 (fun h h' => identified h h' /\ nh_ID h' <> ""%string /\ (nh_ID h <> ""%string -> nh_ID h' = nh_ID h) /\
    (nh_ID h = ""%string -> forall x, ids_by_host existing !! nh_Host h = Some x -> x <> ""%string -> nh_ID h' = x)) norm l ->
  usable_hosts l /\ ""%string ∉ map nh_ID l /\
  (forall e h, e ∈ existing -> h ∈ l -> nh_Host h = nh_Host e -> nh_ID e <> ""%string ->
     (forall r, r ∈ requested -> TrimSpace (nh_Host r) = nh_Host e -> TrimSpace (nh_ID r) = ""%string) -> nh_ID h = nh_ID e).
Proof.
  intros Hnorm Hnd HF. destruct (normalize_spec _ _ Hnorm) as [[U1 U2 U3] Hof].
  assert (Hhosts : map nh_Host l = map nh_Host norm).
  { clear -HF. induction HF as [|h h' norm l [I _] _ IH]; [done|]. cbn. rewrite IH. f_equal. by rewrite I. }
  assert (Hback : forall h', h' ∈ l -> exists h, h ∈ norm /\ nh_Host h' = nh_Host h /\ nh_ID h' <> ""%string /\
    (nh_ID h = ""%string -> forall x, ids_by_host existing !! nh_Host h = Some x -> x <> ""%string -> nh_ID h' = x)).
  { intros h' [k Hk']%list_elem_of_lookup. destruct (Forall2_lookup_r _ _ _ _ _ HF Hk') as (h & Hh & I & E1 & _ & E3). exists h.
    split; [by apply list_elem_of_lookup; exists k|]. rewrite I. cbn. by split_and!. }
  split_and!.
  - split; [by rewrite Hhosts| |].
    + intros h' (h & Hh & -> & _)%Hback. by apply U2.
    + destruct U3 as (h & [k Hh]%list_elem_of_lookup & Hsel). destruct (Forall2_lookup_l _ _ _ _ _ HF Hh) as (h' & Hh' & I & _).
      exists h'. split; [by apply list_elem_of_lookup; exists k|]. by rewrite I.
  - intros Hin. apply list_elem_of_In, in_map_iff in Hin as (h' & E & Hin%list_elem_of_In). by destruct (Hback _ Hin) as (_ & _ & _ & Hne & _).
  - intros e h' Hin (h & Hh & Eh & _ & Hid)%Hback Hhost Hne Hreq. apply Hid; [|rewrite <- Eh, Hhost; by apply ids_by_host_spec|done].
    destruct (Hof _ Hh) as (r & Hr & E1 & E2). rewrite E2. apply (Hreq r Hr). congruence.
Qed.
(** A successful update of a node leaves a usable list of hosts (at least one
    selected, no address twice, none blank) with distinct ids.  An address the
    node had keeps its id unless the request names another one, so the endpoints
    on it go on serving it; and every host some endpoint uses is still there. *)
Theorem node_update_keeps_hosts currentName params s n s' old : keyed (view s.1) -> GetNode (fl_rows s.1) (TrimSpace currentName) = Ok old ->
  TrimSpace (no_ID old) = no_ID old -> NoDup (map nh_Host (no_Hosts old)) ->
  fresh_from s.2 (fun x => x ∈ map nh_ID (no_Hosts old) \/ x ∈ map (fun h => TrimSpace (nh_ID h)) (requested_hosts params)) ->
  UpdateNodeByName oracle currentName params s = (Ok n, s') ->
  nodes (fl_rows s'.1) !! no_ID old = Some n /\ usable_hosts (no_Hosts n) /\ NoDup (map nh_ID (no_Hosts n)) /\ ""%string ∉ map nh_ID (no_Hosts n) /\
  (forall e h, e ∈ no_Hosts old -> h ∈ no_Hosts n -> nh_Host h = nh_Host e -> nh_ID e <> ""%string ->
     (forall r, r ∈ requested_hosts params -> TrimSpace (nh_Host r) = nh_Host e -> TrimSpace (nh_ID r) = ""%string) -> nh_ID h = nh_ID e) /\
  (forall e k p, e ∈ no_Hosts old -> endpoints (fl_rows s.1) !! k = Some p -> ep_HostID p = nh_ID e -> nh_ID e ∈ map nh_ID (no_Hosts n)).
Proof.
  intros Hk Hold Htrim Hnd Hf. unfold UpdateNodeByName. cbv zeta. intros Hr.
  do 4 apply bind_Ok in Hr as ([] & ? & [_ ->]%ensure_that_Ok & Hr).
  apply bind_Ok in Hr as (ex & ? & [Hex ->]%look_Ok & Hr). rewrite Hold in Hex. injection Hex as <-.
  apply bind_Ok in Hr as (norm & ? & [Hnorm ->]%require_Ok & Hr). fold (requested_hosts params) in Hnorm. pose proof (proj2 (normalize_spec _ _ Hnorm)) as Hof.
  apply bind_Ok in Hr as ([] & ? & [_ ->]%lift_Ok & Hr).
  apply bind_Ok in Hr as (l & s1 & He & Hr). apply ensure_spec in He as (Es & Hids & HF).
  2: { destruct Hf as [F1 F2 F3]. split; [done|done|]. intros i Hi [Hx|Hx]; [|by apply (F3 i Hi); left]. apply (F3 i Hi). right.
       apply list_elem_of_In, in_map_iff in Hx as (h & <- & Hin%list_elem_of_In). destruct (Hof _ Hin) as (r & Hin' & _ & ->).
       by apply list_elem_of_In, (in_map (fun h => TrimSpace (nh_ID h))), list_elem_of_In. }
  apply bind_Ok in Hr as (w & ? & [-> ->]%current_Ok & Hr). destruct (dropped_host_used _ _ _) as [x|] eqn:Ed; [done|]. rewrite Es in Ed.
  apply bind_Ok in Hr as ([] & s2 & Htx%atomically_Ok & Hr). apply (update_tx_row old) in Htx as (row & Hrow & Hri & Hrd); [|by rewrite Es|by rewrite Es].
  apply bind_Ok in Hr as (up & ? & [Hup ->]%look_Ok & Hr). apply bind_Ok in Hr as ([] & s3 & Hsync & Hr). apply ret_Ok in Hr as [-> ->].
  assert (up = updated_node row l (TrimSpace (un_Status params))) as ->.
  { unfold GetNode in Hup. rewrite Htrim, Hrow in Hup. cbn in Hup. rewrite Hrd in Hup. by injection Hup as <-. }
  destruct (ensured_hosts _ _ _ _ Hnorm Hnd HF) as (U & Hblank & Hkeep). split_and!; cbn [no_Hosts updated_node]; try done.
  - pose proof (still_sync oracle (no_Name (updated_node row l (TrimSpace (un_Status params)))) s2) as Hst. rewrite Hsync in Hst. cbn in Hst.
    change (iv_nodes (view s3.1) !! no_ID old = Some (updated_node row l (TrimSpace (un_Status params)))). by rewrite Hst.
  - intros e k p Hin Hp Hhid. eapply dropped_none; [exact Ed|exact Hin|by exists k, p].
Qed.
End hosts.

(** A new address comes first, that of h3 goes; h1 and h2 keep their ids although
    they move. *)
Definition w_fresh (n : nat) : draw := {| dr_id := ("i" ++ pretty n)%string; dr_secret := None; dr_now := "now" |}.
Definition w_update : UpdateNodeParams := {|
  un_Name := "site"; un_PublicHost := ""; un_Status := "active";
  un_Hosts := Some [{| nh_ID := ""; nh_Host := "192.0.2.9"; nh_Tag := ""; nh_Selected := false |};
                    {| nh_ID := ""; nh_Host := " 192.0.2.2"; nh_Tag := "b"; nh_Selected := false |};
                    {| nh_ID := ""; nh_Host := "192.0.2.1"; nh_Tag := "c"; nh_Selected := false |}] |}.
Definition w_updated : result FleetError Node * (fleet * nat) :=
  UpdateNodeByName (H := ascii_only_tables) w_fresh "node" w_update (w_hosted, O).
Lemma w_fresh_from : fresh_from w_fresh O (fun x => x ∈ map nh_ID (no_Hosts w_node) \/ x ∈ map (fun h => TrimSpace (nh_ID h)) (requested_hosts w_update)).
Proof.
  split.
  - done.
  - intros i j _ _ Hij. cbn [w_fresh dr_id] in Hij. apply (inj (String.append "i")) in Hij. by apply (inj pretty) in Hij.
  - intros i _ Hx. cbn [w_fresh dr_id] in Hx. assert (Hm : map (fun h => TrimSpace (nh_ID h)) (requested_hosts w_update) = [""; ""; ""]%string) by (vm_compute; reflexivity).
    rewrite Hm in Hx. change (map nh_ID (no_Hosts w_node)) with ["h1"; "h2"; "h3"]%string in Hx. assert (Hl : ("i" ++ pretty i)%string ∈ ["h1"; "h2"; "h3"; ""; ""; ""]%string).
    { change ["h1"; "h2"; "h3"; ""; ""; ""]%string with (app ["h1"; "h2"; "h3"] [""; ""; ""])%string. by apply elem_of_app. }
    repeat (apply elem_of_cons in Hl as [Hl|Hl]; [discriminate Hl|]). by apply elem_of_nil in Hl.
Qed.
Lemma node_update_keeps_hosts_witness : exists n s', w_updated = (Ok n, s') /\ map nh_ID (no_Hosts n) = ["i0"; "h2"; "h1"]%string /\
  usable_hosts (no_Hosts n) /\ nodes (fl_rows s'.1) !! "n1" = Some n.
Proof.
  destruct w_updated as [[n|e] s'] eqn:E; [|exfalso; vm_compute in E; discriminate E]. exists n, s'. split; [reflexivity|].
  assert (Hids : match w_updated.1 with Ok n => map nh_ID (no_Hosts n) | Err _ => [] end = ["i0"; "h2"; "h1"]%string) by (vm_compute; reflexivity).
  rewrite E in Hids. split; [exact Hids|].
  assert (Hg : GetNode (fl_rows w_hosted) (TrimSpace "node") = Ok w_node) by (vm_compute; reflexivity).
  assert (Ht : TrimSpace (no_ID w_node) = no_ID w_node) by (vm_compute; reflexivity).
  assert (Hn : NoDup (map nh_Host (no_Hosts w_node))) by (apply (bool_decide_unpack _); vm_compute; exact I).
  unfold w_updated in E.
  destruct (node_update_keeps_hosts (H := ascii_only_tables) w_fresh "node" w_update (w_hosted, O) n s' w_node w_keyed Hg Ht Hn w_fresh_from E) as (Hrow & Hu & _).
  split; [exact Hu|exact Hrow].
Defined.
