(* ===== verification/Users.v ===== *)
(** * The users ([src/internal/server/db/users.go])

    Creating, editing, deleting and restoring users, and the page of the
    administration that lists them.  A row of proxy_users is a [ProxyUser] of
    [Paths], which the other components read, and an [account], which only this
    one does.  Timestamps are left out except created_at and deleted_at. *)
From S2P Require Import Prelude GoStrings GoTime Effects.
From S2P Require Import Traffic Paths PathGrants Inventory.

#[local] Open Scope Z_scope.

(** ** The rows *)
Record account := {
  ac_DisplayName : string; ac_GlobalQuotaBytes : Z; ac_ExpireAt : option string; ac_CreatedAt : string
}.
Record directory := { di_store : store; accounts : gmap string account }.
Definition di_rows (w : directory) : Paths.tables := base (di_store w).
Definition users_of (w : directory) : gmap string ProxyUser := proxy_users (di_rows w).
Definition with_users (b : Paths.tables) (m : gmap string ProxyUser) : Paths.tables := {|
  paths := paths b; endpoints := endpoints b; path_accesses := path_accesses b; path_group_members := path_group_members b;
  nodes := nodes b; node_name_aliases := node_name_aliases b; proxies := proxies b; proxy_users := m;
  bindings := bindings b; credentials := credentials b |}.
Definition set_grants (w : directory) (s : store) : directory := {| di_store := s; accounts := accounts w |}.
Definition put_user (w : directory) (id : string) (u : ProxyUser) (a : account) : directory := {|
  di_store := set_base (di_store w) (with_users (di_rows w) (<[id := u]> (users_of w)));
  accounts := <[id := a]> (accounts w) |}.

Inductive UserError :=
| UserNameRequired | UserNameInvalid (name : string) | ExpireInvalid (value : string) | UserStatusUnsupported (status : string)
| NoSuchUser (name : string) | UserConstraint | SourcesFailed (e : GrantError).
Abbreviation D := (eff directory UserError).

(** ** Expiry *)
(** normalizeExpireAt *)
Definition normalizeExpireAt (value : string) : result UserError (option string) :=
  let value := TrimSpace value in
  if (value =? "")%string then Ok None
  else match GoTime.Parse value with
       | Some parsed => Ok (Some (Format_key parsed))
       | None => Err (ExpireInvalid value)
       end.
Definition lift_result {A} (r : result UserError A) : D A := match r with Ok a => mret a | Err e => fail e end.

(** A statement of [PathGrants]. *)
Definition on_sources {A} (m : eff store GrantError A) : D A := fun s =>
  let (r, s') := m (di_store s.1, s.2) in
  (match r with Ok a => Ok a | Err e => Err (SourcesFailed e) end, (set_grants s.1 s'.1, s'.2)).

(** ** Looking users up *)
Definition GetUser (name : string) : D ProxyUser :=
  w ← read; match GetProxyUser (di_rows w) name with Ok u => mret u | Err _ => fail (NoSuchUser name) end.
(** ORDER BY deleted_at IS NULL DESC, created_at DESC *)
Definition created (w : directory) (id : string) : string := from_option ac_CreatedAt ""%string (accounts w !! id).
Definition live_then_newest (w : directory) (a b : string * ProxyUser) : Prop :=
  (if is_set (us_DeletedAt a.2) then is_set (us_DeletedAt b.2) && String.leb (created w b.1) (created w a.1)
   else is_set (us_DeletedAt b.2) || String.leb (created w b.1) (created w a.1)) = true.
#[export] Instance live_then_newest_dec w a b : Decision (live_then_newest w a b).
Proof. unfold live_then_newest. apply _. Defined.
Definition GetProxyUserByNameIncludingDeleted (w : directory) (name : string) : option ProxyUser :=
  snd <$> head (merge_sort (live_then_newest w)
    (List.filter (fun ku : string * ProxyUser => (us_Name ku.2 =? name)%string) (map_to_list (users_of w)))).
Definition getProxyUserIncludingDeleted (name : string) : D ProxyUser :=
  w ← read;
  let reference := TrimSpace name in
  obtain (match users_of w !! reference with Some u => Some u | None => GetProxyUserByNameIncludingDeleted w reference end)
    (NoSuchUser name).

(** ** Statements *)
(** The unique index on the names of live users. *)
Definition user_name_free (w : directory) (id name : string) : bool :=
  forallb (fun ku : string * ProxyUser => (ku.1 =? id)%string || is_set (us_DeletedAt ku.2) || negb (us_Name ku.2 =? name)%string)
    (map_to_list (users_of w)).
Definition no_account : account := {| ac_DisplayName := ""; ac_GlobalQuotaBytes := 0; ac_ExpireAt := None; ac_CreatedAt := "" |}.
(** UPDATE proxy_users SET ... WHERE id = ? AND deleted_at IS NULL, with
    requireAffected; [check]: the constraints of the columns. *)
Definition update_user (id name : string) (check : bool) (f : ProxyUser -> ProxyUser) (g : account -> account) : D unit :=
  w ← read;
  u ← obtain (users_of w !! id) (NoSuchUser name);
  insist (negb (is_set (us_DeletedAt u))) (NoSuchUser name);;
  insist check UserConstraint;;
  modify (fun w => put_user w id (f u) (g (default no_account (accounts w !! id)))).
Definition user_with (status : string) (deleted : option string) (u : ProxyUser) : ProxyUser :=
  {| us_ID := us_ID u; us_Name := us_Name u; us_Status := status; us_DeletedAt := deleted |}.
Definition q_SetProxyUserStatus (id name status : string) : D unit :=
  update_user id name true (fun u => user_with status (us_DeletedAt u) u) (fun a => a).
Definition set_display_name (displayName : string) (a : account) : account := {|
  ac_DisplayName := displayName; ac_GlobalQuotaBytes := ac_GlobalQuotaBytes a; ac_ExpireAt := ac_ExpireAt a; ac_CreatedAt := ac_CreatedAt a |}.
Definition set_quota (quotaBytes : Z) (a : account) : account := {|
  ac_DisplayName := ac_DisplayName a; ac_GlobalQuotaBytes := quotaBytes; ac_ExpireAt := ac_ExpireAt a; ac_CreatedAt := ac_CreatedAt a |}.
Definition set_expire (expireAt : option string) (a : account) : account := {|
  ac_DisplayName := ac_DisplayName a; ac_GlobalQuotaBytes := ac_GlobalQuotaBytes a; ac_ExpireAt := expireAt; ac_CreatedAt := ac_CreatedAt a |}.
Definition q_SetProxyUserDisplayName (id name displayName : string) : D unit :=
  update_user id name true (fun u => u) (set_display_name displayName).
Definition q_SetProxyUserQuota (id name : string) (quotaBytes : Z) : D unit :=
  update_user id name (0 <=? quotaBytes) (fun u => u) (set_quota quotaBytes).
Definition q_SetProxyUserExpire (id name : string) (expireAt : option string) : D unit :=
  update_user id name true (fun u => u) (set_expire expireAt).

(** ** Operations *)
Section oracle.
Variable oracle : nat -> draw.
Definition picks : D draw := fun s => (Ok (oracle s.2), (s.1, S s.2)).
Record CreateProxyUserParams := { cu_Name : string; cu_DisplayName : string; cu_GlobalQuotaBytes : Z; cu_ExpireAt : string }.
Definition CreateProxyUser (params : CreateProxyUserParams) : D ProxyUser :=
  let name := TrimSpace (cu_Name params) in
  insist (negb (name =? "")%string) UserNameRequired;;
  insist (validateNameForAuth name) (UserNameInvalid name);;
  expireAt ← lift_result (normalizeExpireAt (cu_ExpireAt params));
  d ← picks;
  w ← read;
  insist (negb (is_set (users_of w !! dr_id d)) && user_name_free w (dr_id d) name && (0 <=? cu_GlobalQuotaBytes params)) UserConstraint;;
  modify (fun w => put_user w (dr_id d)
    {| us_ID := dr_id d; us_Name := name; us_Status := "active"; us_DeletedAt := None |}
    {| ac_DisplayName := cu_DisplayName params; ac_GlobalQuotaBytes := cu_GlobalQuotaBytes params; ac_ExpireAt := expireAt; ac_CreatedAt := dr_now d |});;
  GetUser (dr_id d).
Definition settable (status : string) : bool := (status =? "active")%string || (status =? "disabled")%string.
Definition SetProxyUserStatus (name status : string) : D unit :=
  insist (settable status) (UserStatusUnsupported status);;
  user ← GetUser name;
  q_SetProxyUserStatus (us_ID user) name status.
Definition DisableProxyUser (name : string) : D ProxyUser := SetProxyUserStatus name "disabled";; GetUser name.
Definition SetProxyUserQuota (name : string) (quotaBytes : Z) : D unit :=
  user ← GetUser name; q_SetProxyUserQuota (us_ID user) name quotaBytes.
Definition SetProxyUserExpire (name expireAt : string) : D unit :=
  expires ← lift_result (normalizeExpireAt expireAt);
  user ← GetUser name;
  q_SetProxyUserExpire (us_ID user) name expires.
Record UpdateProxyUserParams := {
  uu_DisplayName : option string; uu_Status : option string; uu_GlobalQuotaBytes : option Z; uu_ExpireAt : option string
}.
Definition if_given {A} (o : option A) (f : A -> D unit) : D unit := match o with Some a => f a | None => mret tt end.
Definition UpdateProxyUser (name : string) (params : UpdateProxyUserParams) : D ProxyUser :=
  let normalized := TrimSpace name in
  insist (negb (normalized =? "")%string) UserNameRequired;;
  if_given (uu_Status params) (fun status => insist (settable status) (UserStatusUnsupported status));;
  expireAt ← (match uu_ExpireAt params with Some value => lift_result (normalizeExpireAt value) | None => mret None end);
  transaction (
    user ← GetUser normalized;
    if_given (uu_DisplayName params) (q_SetProxyUserDisplayName (us_ID user) name);;
    if_given (uu_GlobalQuotaBytes params) (q_SetProxyUserQuota (us_ID user) name);;
    if_given (uu_ExpireAt params) (fun _ => q_SetProxyUserExpire (us_ID user) name expireAt);;
    if_given (uu_Status params) (q_SetProxyUserStatus (us_ID user) name));;
  GetUser name.

(** ** Deletion and restoration *)
Definition DeleteUserDirectPathGrants (userID : string) : D unit :=
  modify (fun w => set_grants w (set_direct (di_store w)
    (filter (fun ge => ge.1.1 <> userID) (direct_path_grants (di_store w))))).
Definition archived_access (now userID : string) (a : PathAccess) : PathAccess :=
  if (pc_ProxyUserID a =? userID)%string && negb (is_set (pc_DeletedAt a)) then retired now a else a.
Definition ArchiveUserPathAccesses (userID : string) : D unit :=
  d ← picks;
  modify (fun w => set_grants w (set_base (di_store w) (with_accesses (di_rows w)
    (map (archived_access (dr_now d) userID) (path_accesses (di_rows w)))))).
Definition archived_credential (now userID : string) (key : string * string) (c : ProxyCredential) : ProxyCredential :=
  if (key.1 =? userID)%string && negb (is_set (pk_DeletedAt c))
  then {| pk_ID := pk_ID c; pk_AuthName := pk_AuthName c; pk_Enabled := false; pk_DeletedAt := Some now |} else c.
Definition ArchiveGroupUserCredentials (userID : string) : D unit :=
  d ← picks;
  modify (fun w => set_grants w (set_base (di_store w) (with_credentials (di_rows w)
    (map_imap (fun key c => Some (archived_credential (dr_now d) userID key c)) (credentials (di_rows w)))))).
Definition SoftDeleteProxyUser (name : string) : D ProxyUser :=
  transaction (
    user ← GetUser name;
    d ← picks;
    update_user (us_ID user) name true (user_with "disabled" (Some (dr_now d))) (fun a => a);;
    on_sources (DeleteUserPathGroupGrants (us_ID user));;
    DeleteUserDirectPathGrants (us_ID user);;
    ArchiveUserPathAccesses (us_ID user);;
    ArchiveGroupUserCredentials (us_ID user);;
    getProxyUserIncludingDeleted (us_ID user)).
Definition RestoreProxyUser (name : string) : D ProxyUser :=
  user ← getProxyUserIncludingDeleted name;
  w ← read;
  insist (is_set (us_DeletedAt user)) (NoSuchUser name);;
  insist (user_name_free w (us_ID user) (us_Name user)) UserConstraint;;
  modify (fun w => put_user w (us_ID user) (user_with (us_Status user) None user) (default no_account (accounts w !! us_ID user)));;
  GetUser name.

(** ** The requests of the administration *)
Inductive user_request :=
| RqCreateUser (params : CreateProxyUserParams)
| RqSetUserStatus (name status : string)
| RqDisableUser (name : string)
| RqUpdateUser (name : string) (params : UpdateProxyUserParams)
| RqSetUserQuota (name : string) (quotaBytes : Z)
| RqSetUserExpire (name expireAt : string)
| RqDeleteUser (name : string)
| RqRestoreUser (name : string).
Definition handle_user (r : user_request) : D unit :=
  match r with
  | RqCreateUser params => CreateProxyUser params;; mret tt
  | RqSetUserStatus name status => SetProxyUserStatus name status
  | RqDisableUser name => DisableProxyUser name;; mret tt
  | RqUpdateUser name params => UpdateProxyUser name params;; mret tt
  | RqSetUserQuota name quota => SetProxyUserQuota name quota
  | RqSetUserExpire name expireAt => SetProxyUserExpire name expireAt
  | RqDeleteUser name => SoftDeleteProxyUser name;; mret tt
  | RqRestoreUser name => RestoreProxyUser name;; mret tt
  end.
End oracle.

(** ** The page of the users *)
(** userEffectiveStatusSQL; [now] is strftime('%Y-%m-%dT%H:%M:%SZ', 'now'),
    [billable] the user's share of traffic_usage_totals. *)
Definition userEffectiveStatus (now : string) (billable : Z) (u : ProxyUser) (a : account) : string :=
  if is_set (us_DeletedAt u) then "deleted"
  else if (us_Status u =? "disabled")%string then "disabled"
  else if (us_Status u =? "quota_exceeded")%string || ((0 <? ac_GlobalQuotaBytes a) && (ac_GlobalQuotaBytes a <=? billable)) then "quota_exceeded"
  else if (us_Status u =? "expired")%string
       || match ac_ExpireAt a with Some e => negb (e =? "")%string && String.leb e now | None => false end then "expired"
  else "active".

(** The user's row of traffic_usage_totals in a direction: raw and billable bytes. *)
Definition usage (totals : gmap (string * string) (Z * Z)) (userID direction : string) : Z * Z := default (0, 0) (totals !! (userID, direction)).
(** userBillableBytesSQL *)
Definition userBillableBytes (totals : gmap (string * string) (Z * Z)) (userID : string) : Z :=
  foldr Z.add 0 (map (fun kt : string * string * (Z * Z) => kt.2.2) (List.filter (fun kt => (kt.1.1 =? userID)%string) (map_to_list totals))).
(** userPathCountSQL *)
Definition userPathCount (b : Paths.tables) (userID : string) : Z :=
  Z.of_nat (length (List.filter (fun a => (pc_ProxyUserID a =? userID)%string && effective a) (path_accesses b))).
Record ProxyUserPageRow := {
  ur_User : ProxyUser; ur_Account : account; ur_ProxyCount : Z; ur_EffectiveStatus : string; ur_Uplink : Z * Z; ur_Downlink : Z * Z
}.
(** [uf_DeletedOnly], [uf_Descending]: what EqualFold says of the two parameters. *)
Record UserFilter := {
  uf_Search : string; uf_Status : string; uf_DeletedOnly : bool; uf_Sort : string; uf_Descending : bool; uf_Limit : Z; uf_Offset : Z
}.
Record UserPage := { up_Users : list ProxyUserPageRow; up_Total : Z; up_Limit : Z; up_Offset : Z }.
Definition pageLimit (value fallback : Z) : Z :=
  let fallback := if fallback <=? 0 then 50 else fallback in
  let value := if value <=? 0 then fallback else value in
  if 500 <? value then 500 else value.
Definition pageOffset (value : Z) : Z := if value <? 0 then 0 else value.

Section page.
Context `{UnicodeTables}.
(** SQLite's LIKE and LOWER; the column updated_at, by id. *)
Variables (like : string -> string -> bool) (lower : string -> string) (updated_at : string -> string).
Definition page_row (now : string) (totals : gmap (string * string) (Z * Z)) (w : directory) (id : string) (u : ProxyUser) : ProxyUserPageRow :=
  let a := default no_account (accounts w !! id) in {|
    ur_User := u; ur_Account := a; ur_ProxyCount := userPathCount (di_rows w) id;
    ur_EffectiveStatus := userEffectiveStatus now (userBillableBytes totals id) u a;
    ur_Uplink := usage totals id "uplink"; ur_Downlink := usage totals id "downlink" |}.
Definition userPageWhere (f : UserFilter) (r : ProxyUserPageRow) : bool :=
  eqb (is_set (us_DeletedAt (ur_User r))) (uf_DeletedOnly f)
  && (let status := TrimSpace (uf_Status f) in (status =? "")%string || (ur_EffectiveStatus r =? status)%string)
  && (let search := TrimSpace (uf_Search f) in
      let pattern := ("%" ++ ToLower search ++ "%")%string in
      (search =? "")%string
      || (like (lower (us_Name (ur_User r))) pattern || like (lower (ac_DisplayName (ur_Account r))) pattern
          || like (lower (us_Status (ur_User r))) pattern || like (ur_EffectiveStatus r) pattern)).
(** userPageSort: the column, a text or a number *)
Definition sort_column (totals : gmap (string * string) (Z * Z)) (sort : string) (r : ProxyUserPageRow) : string + Z :=
  let sort := TrimSpace sort in
  if (sort =? "display_name")%string then inl (ac_DisplayName (ur_Account r))
  else if (sort =? "status")%string then inl (ur_EffectiveStatus r)
  else if (sort =? "traffic")%string then inr (userBillableBytes totals (us_ID (ur_User r)))
  else if (sort =? "quota")%string then inr (ac_GlobalQuotaBytes (ur_Account r))
  else if (sort =? "proxy_count")%string then inr (ur_ProxyCount r)
  else if (sort =? "expire_at")%string then
    inl (match ac_ExpireAt (ur_Account r) with Some e => if (e =? "")%string then "9999-12-31T23:59:59Z" else e | None => "9999-12-31T23:59:59Z" end)%string
  else if (sort =? "created_at")%string then inl (ac_CreatedAt (ur_Account r))
  else if (sort =? "updated_at")%string then inl (updated_at (us_ID (ur_User r)))
  else inl (us_Name (ur_User r)).
Definition compare_columns (a b : string + Z) : comparison :=
  match a, b with inl a, inl b => String.compare a b | inr a, inr b => Z.compare a b | _, _ => Eq end.
Definition page_order totals (f : UserFilter) (a b : ProxyUserPageRow) : Prop :=
  (let c := compare_columns (sort_column totals (uf_Sort f) a) (sort_column totals (uf_Sort f) b) in
   match (if uf_Descending f then CompOpp c else c) with
   | Lt => true
   | Eq => String.leb (us_Name (ur_User a)) (us_Name (ur_User b))
   | Gt => false
   end) = true.
#[export] Instance page_order_dec totals f a b : Decision (page_order totals f a b).
Proof. unfold page_order. apply _. Defined.
Definition ListUsersPage (now : string) (totals : gmap (string * string) (Z * Z)) (w : directory) (f : UserFilter) : UserPage :=
  let limit := pageLimit (uf_Limit f) 50 in
  let offset := pageOffset (uf_Offset f) in
  let rows := List.filter (userPageWhere f) (map (fun ku : string * ProxyUser => page_row now totals w ku.1 ku.2) (map_to_list (users_of w))) in
  {| up_Users := take (Z.to_nat limit) (drop (Z.to_nat offset) (merge_sort (page_order totals f) rows));
     up_Total := Z.of_nat (length rows); up_Limit := limit; up_Offset := offset |}.
End page.
