(* ===== verification/UserSafety.v ===== *)
(** * What the requests on users guarantee ([Users])

    [edit] is what one request may do to the directory, one constructor per kind
    of statement with what the code has checked before it; [handle_edits] says
    that a request, successful or not, does nothing else.  By rule induction over
    these and the steps of [GrantSafety]: who is not a live user holds nothing,
    and names and ids go on meaning the same user. *)
From S2P Require Import Prelude GoStrings GoTime Effects.
From S2P Require Import Traffic Paths PathGrants PathAccess GrantSafety Users.

#[local] Open Scope Z_scope.

(** ** What a request does *)
Definition account_of (w : directory) (id : string) : account := default no_account (accounts w !! id).
(** What SoftDeleteProxyUser leaves; [t1] to [t3] are the times it notes. *)
Definition without_user (t1 t2 t3 : string) (w : directory) (id : string) (u : ProxyUser) : directory :=
  let s := di_store w in {|
    di_store := {|
      base := with_credentials (with_accesses (with_users (base s) (<[id := user_with "disabled" (Some t1) u]> (users_of w)))
          (map (archived_access t2 id) (path_accesses (base s))))
          (map_imap (fun key c => Some (archived_credential t3 id key c)) (credentials (base s)));
      direct_path_grants := filter (fun ge => ge.1.1 <> id) (direct_path_grants s);
      path_groups := path_groups s; member_order := member_order s;
      user_path_group_grants := filter (fun g => g.1 <> id) (user_path_group_grants s);
      proxy_name_aliases := proxy_name_aliases s; credential_json := credential_json s; path_group_changes := path_group_changes s |};
    accounts := <[id := account_of w id]> (accounts w) |}.
Definition named_user (u : ProxyUser) (name : string) : Prop := us_DeletedAt u = None /\ us_Name u = name.
Definition name_free (w : directory) (id name : string) : Prop := forall j v, users_of w !! j = Some v -> named_user v name -> j = id.
Section oracle.
Variable oracle : nat -> draw.
(** Generated ids have no blanks around them. *)
Hypothesis ids_trimmed : forall n, TrimSpace (dr_id (oracle n)) = dr_id (oracle n).
Inductive edit : directory -> directory -> Prop :=
| edit_row w id u status a : users_of w !! id = Some u -> us_DeletedAt u = None -> edit w (put_user w id (user_with status None u) a)
| edit_create w n u a : users_of w !! dr_id (oracle n) = None -> us_ID u = dr_id (oracle n) -> us_DeletedAt u = None ->
    name_free w (dr_id (oracle n)) (us_Name u) -> edit w (put_user w (dr_id (oracle n)) u a)
| edit_delete w id u t1 t2 t3 : users_of w !! id = Some u -> us_DeletedAt u = None -> edit w (without_user t1 t2 t3 w id u)
| edit_restore w id u : users_of w !! id = Some u -> us_DeletedAt u <> None -> name_free w id (us_Name u) ->
    edit w (put_user w id (user_with (us_Status u) None u) (account_of w id)).
#[local] Hint Resolve rtc_refl rtc_once : core.

Lemma user_name_free_spec w id name : user_name_free w id name = true <-> name_free w id name.
Proof.
  unfold user_name_free, name_free, named_user. rewrite forallb_forall. split.
  - intros H j v Hv [Hd Hn]. assert (Hin : In (j, v) (map_to_list (users_of w))) by by apply list_elem_of_In, elem_of_map_to_list.
    specialize (H _ Hin). cbn in H. rewrite Hd, Hn, String.eqb_refl in H. cbn in H. rewrite orb_false_r, orb_false_r in H. by apply String.eqb_eq.
  - intros H [j v] Hin. apply list_elem_of_In, elem_of_map_to_list in Hin. cbn. specialize (H _ _ Hin).
    destruct (us_DeletedAt v); cbn; [by rewrite orb_true_r|]. destruct (us_Name v =? name)%string eqn:E; [|by rewrite orb_true_r].
    apply String.eqb_eq in E. rewrite (proj2 (String.eqb_eq j id)) by (by apply H). done.
Qed.

(** ** Lookups *)
Lemma GetUser_cases name s : (exists u, GetUser name s = (Ok u, s) /\ GetProxyUser (di_rows s.1) name = Ok u) \/
  (GetUser name s = (Err (NoSuchUser name), s) /\ exists e, GetProxyUser (di_rows s.1) name = Err e).
Proof.
  unfold GetUser, read, mbind, eff_bind. destruct (GetProxyUser (di_rows s.1) name) as [u|e]; [left; by exists u|right]. split; [done|by exists e].
Qed.
Lemma GetUser_quiet name s : (GetUser name s).2 = s.
Proof. destruct (GetUser_cases name s) as [(u & -> & _)|[-> _]]; done. Qed.
Definition well_kept (w : directory) : Prop := forall id u, users_of w !! id = Some u -> us_ID u = id /\ TrimSpace id = id.
Lemma GetUser_row w name u : well_kept w -> GetProxyUser (di_rows w) name = Ok u ->
  users_of w !! us_ID u = Some u /\ us_DeletedAt u = None.
Proof.
  intros Hw H. apply GetProxyUser_found in H as (k & Hk & Hd). by rewrite (proj1 (Hw _ _ Hk)).
Qed.
Lemma IncludingDeleted_row w name u s' : well_kept w.1 -> getProxyUserIncludingDeleted name w = (Ok u, s') ->
  s' = w /\ users_of w.1 !! us_ID u = Some u /\
  (TrimSpace name = us_ID u \/ (users_of w.1 !! TrimSpace name = None /\ us_Name u = TrimSpace name)).
Proof.
  intros Hw H. unfold getProxyUserIncludingDeleted in H. apply bind_Ok in H as (w0 & s0 & H0 & H). apply read_Ok in H0 as [-> ->].
  apply obtain_Ok in H as [H ->]. split; [done|].
  destruct (users_of w.1 !! TrimSpace name) as [v|] eqn:E.
  { injection H as <-. rewrite (proj1 (Hw _ _ E)). split; [done|by left]. }
  unfold GetProxyUserByNameIncludingDeleted in H. destruct (merge_sort _ _) as [|[k v] l] eqn:Em; [done|]. injection H as <-.
  assert (Hk : (k, v) ∈ merge_sort (live_then_newest w.1)
    (List.filter (fun ku : string * ProxyUser => (us_Name ku.2 =? TrimSpace name)%string) (map_to_list (users_of w.1)))) by (rewrite Em; left).
  rewrite merge_sort_Permutation in Hk. apply list_elem_of_In, filter_In in Hk as [Hk Hn%String.eqb_eq].
  apply list_elem_of_In, elem_of_map_to_list in Hk. rewrite (proj1 (Hw _ _ Hk)). split; [done|by right].
Qed.
Lemma IncludingDeleted_quiet name s : (getProxyUserIncludingDeleted name s).2 = s.
Proof.
  unfold getProxyUserIncludingDeleted, read, mbind, eff_bind, obtain. cbn [fst snd].
  match goal with |- context [match ?o with Some u => Some u | None => _ end] => destruct o end; [done|]. by destruct (GetProxyUserByNameIncludingDeleted _ _).
Qed.

(** ** Every request is a sequence of edits *)
Definition edits {A} (s : directory * nat) (m : D A) : Prop := rtc edit s.1 (m s).2.1.
Lemma edit_kept w w' : edit w w' -> well_kept w -> well_kept w'.
Proof.
  intros H Hw. destruct H as [w id u st a Hu Hd|w n u a Hn Hid Hd _|w id u t1 t2 t3 Hu Hd|w id u Hu Hd _]; intros k v;
    unfold users_of; cbn; intros [[<- <-]|[Hne Hv]]%lookup_insert_Some; solve [exact (Hw _ _ Hv)|exact (Hw _ _ Hu)|by rewrite ids_trimmed].
Qed.
Lemma edits_kept w w' : rtc edit w w' -> well_kept w -> well_kept w'.
Proof. induction 1; eauto using edit_kept. Qed.
Lemma edits_bind {A B} (m : D A) (k : A -> D B) s : edits s m ->
  (forall a s1, m s = (Ok a, s1) -> edits s1 (k a)) -> edits s (m ≫= k).
Proof.
  unfold edits, mbind, eff_bind. intros Hm Hk. destruct (m s) as [[a|e] s1]; [|done]. etransitivity; [exact Hm|by apply Hk].
Qed.
Lemma edits_quiet {A} (m : D A) s : (m s).2 = s -> edits s m.
Proof. unfold edits. by intros ->. Qed.
Lemma edits_ret {A} (a : A) s : edits s (mret a).
Proof. by apply edits_quiet. Qed.
Lemma edits_insist b e s : edits s (insist b e).
Proof. apply edits_quiet. by destruct b. Qed.
Lemma edits_lift {A} (r : result UserError A) s : edits s (lift_result r).
Proof. apply edits_quiet. by destruct r. Qed.
Lemma edits_GetUser name s : edits s (GetUser name).
Proof. apply edits_quiet, GetUser_quiet. Qed.
Lemma edits_given {A} (o : option A) f s : (forall a, edits s (f a)) -> edits s (if_given o f).
Proof. intros Hf. destruct o; [apply Hf|apply edits_ret]. Qed.
Lemma edits_transaction {A} (m : D A) s : edits s m -> edits s (transaction m).
Proof. unfold edits, transaction. by destruct (m s) as [[a|e] s1]. Qed.
Lemma edits_update id name check f g s :
  (forall u, us_DeletedAt u = None -> exists st, f u = user_with st None u) -> edits s (update_user id name check f g).
Proof.
  intros Hf. unfold edits, update_user, read, obtain, insist, modify, mbind, eff_bind.
  destruct (users_of s.1 !! id) as [u|] eqn:E; [|done]. cbn. destruct (us_DeletedAt u) eqn:Ed; [done|]. cbn. destruct check; [|done]. cbn.
  destruct (Hf u Ed) as [st ->]. by apply rtc_once, edit_row.
Qed.
Lemma user_with_self u : us_DeletedAt u = None -> u = user_with (us_Status u) None u.
Proof. destruct u. cbn. by intros ->. Qed.
#[local] Hint Resolve edits_ret edits_insist edits_lift edits_GetUser : core.

Lemma edits_status id name status s : edits s (q_SetProxyUserStatus id name status).
Proof. apply edits_update. intros u Hd. exists status. by rewrite Hd. Qed.
Lemma edits_columns id name check g s : edits s (update_user id name check (fun u => u) g).
Proof. apply edits_update. intros u Hd. exists (us_Status u). by apply user_with_self. Qed.
#[local] Hint Resolve edits_status edits_columns : core.
Lemma edits_create params s : edits s (CreateProxyUser oracle params).
Proof.
  unfold CreateProxyUser. do 2 (apply edits_bind; [done|intros [] ? _; cbn beta iota]). apply edits_bind; [done|]. intros expireAt s2 _.
  unfold edits, picks, read, insist, mbind, eff_bind. cbn [fst snd].
  destruct (_ && _) eqn:E; [|done]. apply andb_true_iff in E as [[E1 E2]%andb_true_iff _].
  unfold modify, mret, eff_ret. rewrite GetUser_quiet. cbn [fst snd]. apply rtc_once, edit_create; [|done|done|].
  - by destruct (users_of s2.1 !! _).
  - by apply user_name_free_spec.
Qed.
Lemma edits_set_status name status s : edits s (SetProxyUserStatus name status).
Proof. unfold SetProxyUserStatus. apply edits_bind; [done|]. intros [] s1 _. apply edits_bind; [done|]. intros u s2 _. done. Qed.
Lemma edits_patch name params s : edits s (UpdateProxyUser name params).
Proof.
  unfold UpdateProxyUser. apply edits_bind; [done|]. intros [] s1 _. apply edits_bind; [by apply edits_given|]. intros [] s2 _.
  apply edits_bind; [destruct (uu_ExpireAt params); done|]. intros expireAt s3 _. apply edits_bind; [|intros; done].
  apply edits_transaction, edits_bind; [done|]. intros u s4 _.
  do 3 (apply edits_bind; [apply edits_given; intros; apply edits_columns|intros [] ? _; cbn beta iota]). by apply edits_given.
Qed.
(** A deletion that succeeds. *)
Lemma deletion_run name s u s' : well_kept s.1 -> SoftDeleteProxyUser oracle name s = (Ok u, s') ->
  exists row t1 t2 t3, GetProxyUser (di_rows s.1) name = Ok row /\ users_of s.1 !! us_ID row = Some row /\ us_DeletedAt row = None /\
    s'.1 = without_user t1 t2 t3 s.1 (us_ID row) row /\ u = user_with "disabled" (Some t1) row.
Proof.
  intros Hw H. unfold SoftDeleteProxyUser in H. apply transaction_Ok in H. apply bind_Ok in H as (row & s1 & H1 & H).
  destruct (GetUser_cases name s) as [(r & E & Hrow)|[E _]]; rewrite E in H1; [injection H1 as -> <-|done].
  destruct (GetUser_row _ _ _ Hw Hrow) as [Hk Hd]. pose proof (Hw _ _ Hk) as [_ Ht].
  unfold picks, update_user, on_sources, DeleteUserPathGroupGrants, DeleteUserDirectPathGrants, ArchiveUserPathAccesses,
    ArchiveGroupUserCredentials, getProxyUserIncludingDeleted, picks, read, obtain, insist, modify, put, mbind, eff_bind, mret, eff_ret in H.
  cbn [fst snd] in H. rewrite Hk, Hd in H. cbn in H. unfold users_of in H. cbn in H. rewrite Ht, lookup_insert_eq in H.
  injection H as <- <-. do 4 eexists. split; [exact Hrow|]. split; [done|]. split; [done|]. split; [|reflexivity]. reflexivity.
Qed.
Lemma edits_delete name s : well_kept s.1 -> edits s (SoftDeleteProxyUser oracle name).
Proof.
  intros Hw. unfold edits. destruct (SoftDeleteProxyUser oracle name s) as [[u|e] s'] eqn:E; cbn [fst snd].
  - apply deletion_run in E as (row & t1 & t2 & t3 & _ & Hk & Hd & -> & _); [|done]. by apply rtc_once, edit_delete.
  - apply transaction_Err in E. by rewrite E.
Qed.
Lemma restoration_run name s u s' : well_kept s.1 -> RestoreProxyUser name s = (Ok u, s') ->
  exists row, users_of s.1 !! us_ID row = Some row /\ us_DeletedAt row <> None /\ name_free s.1 (us_ID row) (us_Name row) /\
    s' = (put_user s.1 (us_ID row) (user_with (us_Status row) None row) (account_of s.1 (us_ID row)), s.2) /\
    (TrimSpace name = us_ID row \/ (users_of s.1 !! TrimSpace name = None /\ us_Name row = TrimSpace name)) /\ GetProxyUser (di_rows s'.1) name = Ok u.
Proof.
  intros Hw H. unfold RestoreProxyUser in H. apply bind_Ok in H as (row & s1 & H1 & H). apply IncludingDeleted_row in H1 as (-> & Hk & Hby); [|done].
  apply bind_Ok in H as (w & s1 & H1 & H). apply read_Ok in H1 as [-> ->].
  apply bind_Ok in H as ([] & s1 & H1 & H). apply insist_Ok in H1 as [Hd ->].
  apply bind_Ok in H as ([] & s1 & H1 & H). apply insist_Ok in H1 as [Hf ->].
  apply bind_Ok in H as ([] & s1 & H1 & H). apply modify_Ok in H1 as ->.
  match type of H with GetUser name ?x = _ => destruct (GetUser_cases name x) as [(r & E & Hr)|[E _]]; rewrite E in H; [injection H as -> <-|done] end.
  exists row. split; [done|]. split; [by destruct (us_DeletedAt row)|]. split; [by apply user_name_free_spec|]. split; [done|]. split; [exact Hby|exact Hr].
Qed.
Lemma edits_restore name s : well_kept s.1 -> edits s (RestoreProxyUser name).
Proof.
  intros Hw. unfold RestoreProxyUser. unfold edits, mbind, eff_bind.
  destruct (getProxyUserIncludingDeleted name s) as [[row|e] s1] eqn:E.
  2:{ pose proof (IncludingDeleted_quiet name s) as Hq. rewrite E in Hq. cbn in *. by rewrite Hq. }
  apply IncludingDeleted_row in E as (-> & Hk & _); [|done]. unfold read, insist. cbn [fst snd].
  destruct (us_DeletedAt row) eqn:Ed; [|done]. cbn. destruct (user_name_free _ _ _) eqn:Ef; [|done]. cbn.
  rewrite GetUser_quiet. cbn. apply rtc_once, edit_restore; [done|by rewrite Ed|by apply user_name_free_spec].
Qed.
Lemma handle_edits r s : well_kept s.1 -> rtc edit s.1 (handle_user oracle r s).2.1.
Proof.
  intros Hw. change (edits s (handle_user oracle r)). destruct r; cbn [handle_user].
  - apply edits_bind; [apply edits_create|intros; done].
  - apply edits_set_status.
  - unfold DisableProxyUser. apply edits_bind; [|intros; done]. apply edits_bind; [apply edits_set_status|intros; done].
  - apply edits_bind; [apply edits_patch|intros; done].
  - unfold SetProxyUserQuota. apply edits_bind; [done|intros; apply edits_columns].
  - unfold SetProxyUserExpire. apply edits_bind; [done|]. intros e s1 _. apply edits_bind; [done|intros; apply edits_columns].
  - apply edits_bind; [by apply edits_delete|intros; done].
  - apply edits_bind; [by apply edits_restore|intros; done].
Qed.

(** ** Who is not a live user holds nothing *)
Record bare (s : store) (u : string) : Prop := {
  br_direct : forall p, direct_path_grants s !! (u, p) = None;
  br_groups : forall g, (u, g) ∉ user_path_group_grants s;
  br_access : forall p, ~ may_use s u p;
  br_credentials : forall x, ~ usable s (u, x)
}.
Record sound (w : directory) : Prop := {
  so_consistent : consistent (di_store w);
  so_synced : synced (di_store w);
  so_bare : forall u, ~ live_user (di_store w) u -> bare (di_store w) u;
  so_names : forall i j u v name, users_of w !! i = Some u -> users_of w !! j = Some v -> named_user u name -> named_user v name -> i = j;
  so_disabled : forall id u, users_of w !! id = Some u -> us_DeletedAt u <> None -> us_Status u = "disabled"%string
}.
Lemma sound_kept w : sound w -> well_kept w.
Proof. intros H id u Hu. apply (tidy_users _ (cs_tidy _ (so_consistent _ H)) _ _ Hu). Qed.
Lemma bare_wants s u p : bare s u -> ~ wants s u p.
Proof. intros H [Hd|(g & _ & Hg & _)]; [by rewrite (br_direct _ _ H) in Hd|by apply (br_groups _ _ H) in Hg]. Qed.
Lemma spared_bare u s s' : spared u s s' -> bare s.1 u -> bare s'.1 u.
Proof.
  intros [[H1 H2] H3 H4] [B1 B2 B3 B4]. constructor.
  - intros p. by rewrite H1.
  - intros g. by rewrite H2.
  - intros p. by rewrite H3.
  - intros x (c & Hc & Hl). apply (B4 x). destruct (H4 x) as [E _]. exists c. by rewrite <- E.
Qed.
(** The row of a user is replaced; the grants, accesses and credentials stay. *)
Lemma put_user_consistent w id u a : us_ID u = id -> TrimSpace id = id -> consistent (di_store w) -> consistent (di_store (put_user w id u a)).
Proof.
  intros Hid Ht [[T1 T2 T3 T4] C2 C3 C4].
  assert (Hsome : forall x, is_Some (users_of w !! x) -> is_Some (<[id := u]> (users_of w) !! x)).
  { intros x Hx. apply lookup_insert_is_Some. destruct (decide (id = x)); [by left|by right]. }
  constructor; cbn.
  - constructor; cbn; [|done..]. intros k v [[<- <-]|[_ Hv]]%lookup_insert_Some; [done|by apply T1].
  - intros x p e He. destruct (C2 _ _ _ He). by split; [apply Hsome|].
  - exact C3.
  - intros x g Hg. destruct (C4 _ _ Hg). by split; [apply Hsome|].
Qed.
Lemma put_user_live w id u a x : live_user (di_store (put_user w id u a)) x <->
  (x = id /\ us_DeletedAt u = None) \/ (x <> id /\ live_user (di_store w) x).
Proof.
  unfold live_user. cbn. split.
  - intros (r & [[<- <-]|[Hne Hr]]%lookup_insert_Some & Hd); [by left|right]. split; [done|]. by exists r.
  - intros [[-> Hd]|[Hne (r & Hr & Hd)]]; [exists u; by rewrite lookup_insert_eq|exists r; by rewrite lookup_insert_ne].
Qed.
Lemma put_user_sound w id u a : us_ID u = id -> TrimSpace id = id -> us_DeletedAt u = None ->
  (forall r, users_of w !! id = Some r -> us_Name u = us_Name r) -> name_free w id (us_Name u) ->
  sound w -> sound (put_user w id u a).
Proof.
  intros Hid Ht Hd Hsame Hf [H1 H2 H3 H4 H5]. constructor.
  - by apply put_user_consistent.
  - intros x r Hr Hl p. change (may_use (di_store w) x p <-> wants (di_store w) x p). cbn in Hr.
    apply lookup_insert_Some in Hr as [[<- <-]|[Hne Hr]]; [|by eapply H2].
    assert (Hb : live_user (di_store w) id \/ ~ live_user (di_store w) id).
    { unfold live_user. change (proxy_users (base (di_store w))) with (users_of w). destruct (users_of w !! id) as [r|].
      - destruct (us_DeletedAt r) eqn:E; [right; intros (r' & [= <-] & E'); congruence|left; by exists r].
      - right. by intros (r & [=] & _). }
    destruct Hb as [(r & Hr & Hl')|Hb%H3]; [by eapply H2|].
    split; [intros Hm; by apply (br_access _ _ Hb) in Hm|intros Hm; by apply (bare_wants _ _ _ Hb) in Hm].
  - intros x Hx. assert (Hb : bare (di_store w) x) by (apply H3; intros Hl; apply Hx, put_user_live; destruct (decide (x = id)); auto).
    destruct Hb as [B1 B2 B3 B4]. by constructor.
  - intros i j v v' name. unfold users_of. cbn.
    intros [[<- <-]|[Hni Hi]]%lookup_insert_Some [[<- <-]|[Hnj Hj]]%lookup_insert_Some Hv Hv'; [done|..].
    + symmetry. eapply Hf; [exact Hj|]. by destruct Hv as [_ ->].
    + eapply Hf; [exact Hi|]. by destruct Hv' as [_ ->].
    + by eapply H4.
  - intros k v. unfold users_of. cbn. intros [[<- <-]|[_ Hv]]%lookup_insert_Some Hn; [done|by eapply H5].
Qed.
(** What a deletion leaves: to others what they had, to the deleted nothing. *)
Lemma archived_allows t id l x p : allows (map (archived_access t id) l) x p <-> x <> id /\ allows l x p.
Proof.
  unfold allows. split.
  - intros (a & Hin & Ha & He). apply list_elem_of_In, in_map_iff in Hin as (b & <- & Hin). apply list_elem_of_In in Hin.
    unfold archived_access in *. destruct (pc_ProxyUserID b =? id)%string eqn:E; cbn in *.
    + destruct (is_set (pc_DeletedAt b)) eqn:Eb; cbn in *; [|by unfold effective in He]. unfold effective in He. rewrite Eb, andb_false_r in He. done.
    + apply String.eqb_neq in E. pose proof (proj2 (proj1 (is_access_true _ _ _) Ha)) as <-. split; [done|]. by exists b.
  - intros (Hne & a & Hin & Ha & He). exists a. split; [|done]. apply list_elem_of_In, in_map_iff. exists a. split; [|by apply list_elem_of_In].
    apply is_access_true in Ha as [_ Hx]. unfold archived_access. rewrite Hx. by rewrite (proj2 (String.eqb_neq x id)).
Qed.
Lemma without_user_usable t1 t2 t3 w id u x y : usable (di_store (without_user t1 t2 t3 w id u)) (x, y) <-> x <> id /\ usable (di_store w) (x, y).
Proof.
  unfold usable. cbn. setoid_rewrite map_lookup_imap. destruct (credentials (base (di_store w)) !! (x, y)) as [c|]; cbn.
  2:{ split; [intros (? & [=] & _)|intros (_ & ? & [=] & _)]. }
  unfold archived_credential. cbn. destruct (x =? id)%string eqn:E; cbn.
  - apply String.eqb_eq in E as ->. split; [|by intros []]. intros (c' & [= <-] & Hl). unfold live in Hl.
    destruct (is_set (pk_DeletedAt c)) eqn:Ed; cbn in Hl; [rewrite Ed, andb_false_r in Hl|]; done.
  - apply String.eqb_neq in E. split; [intros (c' & [= <-] & Hl); eauto|intros (_ & c' & [= <-] & Hl); eauto].
Qed.
Lemma without_user_wants t1 t2 t3 w id u x p : wants (di_store (without_user t1 t2 t3 w id u)) x p <-> x <> id /\ wants (di_store w) x p.
Proof.
  unfold wants, via. cbn. setoid_rewrite elem_of_filter. cbn. split.
  - intros [[Hd Hx]%map_lookup_filter_Some|(g & H1 & [Hx H2] & H3)]; (split; [done|]); [by left|right; eauto].
  - intros (Hne & [Hd|(g & H1 & H2 & H3)]); [left; by apply map_lookup_filter_Some|right; eauto].
Qed.
Lemma without_user_live t1 t2 t3 w id u x : live_user (di_store (without_user t1 t2 t3 w id u)) x <-> x <> id /\ live_user (di_store w) x.
Proof.
  unfold live_user. cbn. split.
  - intros (r & [[<- <-]|[Hne Hr]]%lookup_insert_Some & Hd); [done|]. split; [done|]. by exists r.
  - intros (Hne & r & Hr & Hd). exists r. by rewrite lookup_insert_ne.
Qed.
Lemma without_user_sound w id u t1 t2 t3 : users_of w !! id = Some u -> us_DeletedAt u = None -> sound w -> sound (without_user t1 t2 t3 w id u).
Proof.
  intros Hu Hd Hs. pose proof (sound_kept _ Hs _ _ Hu) as [Hid Ht]. destruct Hs as [H1 H2 H3 H4 H5].
  set (w' := without_user t1 t2 t3 w id u). constructor.
  - destruct (put_user_consistent w id (user_with "disabled" (Some t1) u) no_account Hid Ht H1) as [[T1 T2 T3 T4] C2 C3 C4].
    constructor; [by constructor| |exact C3|]; cbn in *.
    + intros x p e [He _]%map_lookup_filter_Some. by eapply C2.
    + intros x g [_ Hg]%elem_of_filter. by apply C4.
  - intros x r Hr Hl p. assert (Hne : x <> id /\ live_user (di_store w) x) by (eapply without_user_live; by exists r).
    destruct Hne as [Hne (r' & Hr' & Hl')]. pose proof (H2 _ _ Hr' Hl' p). unfold w'. rewrite without_user_wants. unfold may_use. cbn.
    rewrite archived_allows. unfold may_use in *. tauto.
  - intros x Hx. destruct (decide (x = id)) as [->|Hne].
    + constructor.
      * intros p. apply map_lookup_filter_None. right. intros e _. cbn. by intros [].
      * by intros g [Hg _]%elem_of_filter.
      * intros p. unfold may_use. cbn. rewrite archived_allows. by intros [[] _].
      * intros y [[] _]%without_user_usable. done.
    + assert (Hb : bare (di_store w) x) by (apply H3; intros Hl; apply Hx; by apply without_user_live). destruct Hb as [B1 B2 B3 B4]. constructor.
      * intros p. apply map_lookup_filter_None. left. apply B1.
      * intros g [_ Hg]%elem_of_filter. by eapply B2.
      * intros p. unfold may_use. cbn. rewrite archived_allows. intros [_ Hm]. by eapply B3.
      * intros y [_ Hy]%without_user_usable. by eapply B4.
  - intros i j v v' name. unfold users_of. cbn.
    intros [[<- <-]|[Hni Hi]]%lookup_insert_Some [[<- <-]|[Hnj Hj]]%lookup_insert_Some [Hv Hnv] [Hv' Hnv']; [done..|]. by eapply H4.
  - intros k v. unfold users_of. cbn. intros [[<- <-]|[_ Hv]]%lookup_insert_Some Hn; [done|by eapply H5].
Qed.
Lemma edit_sound w w' : edit w w' -> sound w -> sound w'.
Proof.
  intros He Hs. pose proof (sound_kept _ Hs) as Hw. destruct He as [w id u st a Hu Hd|w n u a Hn Hid Hd Hf|w id u t1 t2 t3 Hu Hd|w id u Hu Hd Hf].
  - destruct (Hw _ _ Hu) as [Hid Ht]. apply put_user_sound; [done..| | |done]; cbn.
    + intros r Hr. congruence.
    + intros j v Hv Hnv. eapply (so_names _ Hs); [exact Hv|exact Hu|exact Hnv|done].
  - apply put_user_sound; [done|apply ids_trimmed|done| |done|done]. intros r Hr. congruence.
  - by apply without_user_sound.
  - destruct (Hw _ _ Hu) as [Hid Ht]. apply put_user_sound; try done. intros r Hr. cbn. congruence.
Qed.

(** ** Any sequence of requests *)
Variable digest : authorization -> PathGroupChange -> string.
(** A request on a user, or one of [GrantSafety] on what users are granted; it
    finds what the previous one left, and may fail. *)
Inductive directory_step : directory -> directory -> Prop :=
| on_users w n r : directory_step w (handle_user oracle r (w, n)).2.1
| on_grants w s' : grant_step oracle digest (di_store w) s' -> directory_step w (set_grants w s').
Lemma grants_sound w s' : sound w -> grant_step oracle digest (di_store w) s' -> sound (set_grants w s').
Proof.
  intros [H1 H2 H3 H4 H5] H. destruct (grant_step_keeps _ _ _ _ H1 H) as [->|(n & n' & K)]; [by constructor|].
  pose proof (ks_users _ _ _ K) as Hus. cbn in Hus. constructor; cbn.
  - apply (ks_consistent _ _ _ K).
  - by apply (ks_synced _ _ _ K).
  - intros u Hu. unfold live_user in Hu. rewrite Hus in Hu. by eapply (spared_bare _ (_, n) (_, n')), H3, Hu; apply (ks_spared _ _ _ K).
  - unfold users_of, di_rows. cbn. rewrite Hus. apply H4.
  - unfold users_of, di_rows. cbn. rewrite Hus. apply H5.
Qed.
(** Along any run, what every edit and every grant keeps. *)
Lemma directory_steps_keep (P : directory -> Prop) w w' :
  (forall w w', sound w -> edit w w' -> P w -> P w') ->
  (forall w s', sound w -> grant_step oracle digest (di_store w) s' -> P w -> P (set_grants w s')) ->
  rtc directory_step w w' -> sound w -> P w -> sound w' /\ P w'.
Proof.
  intros He Hg. induction 1 as [w|w w1 w2 H1 H2 IH]; [done|]. intros Hs Hp.
  assert (H : sound w1 /\ P w1); [|destruct H; by apply IH].
  destruct H1 as [w n r|w s' H1]; [|split; [by apply grants_sound|by apply Hg]].
  pose proof (handle_edits r (w, n) (sound_kept _ Hs)) as Hr. cbn [fst] in Hr. revert Hs Hp. clear -Hr He ids_trimmed.
  induction Hr as [w|w w1 w2 H1 H2 IH]; [done|]. intros Hs Hp. apply IH; [by eapply edit_sound|by eapply He].
Qed.

(** C5: users hold what they are granted, and only users: whatever users are
    created, edited, deleted and restored and whatever is granted to them, in any
    order and whether the requests succeed or not, live users may use exactly the
    paths of their sources, whoever is not a live user has no source, no access
    and no usable credential, and no two live users have one name. *)
Theorem only_live_users_hold w w' : sound w -> rtc directory_step w w' ->
  synced (di_store w') /\ (forall u, ~ live_user (di_store w') u -> bare (di_store w') u) /\
  (forall i j u v name, users_of w' !! i = Some u -> users_of w' !! j = Some v -> named_user u name -> named_user v name -> i = j).
Proof.
  intros Hs H. destruct (directory_steps_keep (fun _ => True) _ _ ltac:(done) ltac:(done) H Hs I) as [[H1 H2 H3 H4 H5] _]. by split_and!.
Qed.

(** ** Deletion is for good *)
Definition opens (w : directory) (key : string * string) (secret : string) : Prop :=
  usable (di_store w) key /\ credential_json (di_store w) !! key = Some secret.
Lemma edit_opens w w' key secret : edit w w' -> opens w' key secret -> opens w key secret.
Proof.
  intros He [Hu Hj]. destruct He as [w id u st a Hu0 Hd|w n u a Hn Hid Hd Hf|w id u t1 t2 t3 Hu0 Hd|w id u Hu0 Hd Hf]; try by split.
  destruct key as [x y]. apply without_user_usable in Hu as [_ Hu]. by split.
Qed.
Lemma grants_opens w s' key secret : sound w -> (forall n, dr_secret (oracle n) <> Some secret) -> grant_step oracle digest (di_store w) s' ->
  opens (set_grants w s') key secret -> opens w key secret.
Proof.
  intros Hs Hfresh H [Hu Hj]. destruct (grant_step_keeps _ _ _ _ (so_consistent _ Hs) H) as [->|(n & n' & K)]; [by split|].
  destruct (proj2 (ks_secrets _ _ _ K) key Hu) as [[E1 E2]|(i & x & _ & Hd & Hx)].
  - cbn in *. split; [unfold usable; by rewrite <- E1|congruence].
  - cbn in *. rewrite Hj in Hx. injection Hx as <-. by destruct (Hfresh i).
Qed.
(** C15: what a deleted user held opens nothing any more: whatever requests follow
    his deletion, his restoration and new grants included, no secret he had opens
    a proxy to him, unless it is generated anew. *)
Theorem deleted_users_secrets_are_void name w n u w1 n1 w2 secret : sound w ->
  SoftDeleteProxyUser oracle name (w, n) = (Ok u, (w1, n1)) -> (forall i, dr_secret (oracle i) <> Some secret) ->
  rtc directory_step w1 w2 -> forall x, ~ opens w2 (us_ID u, x) secret.
Proof.
  intros Hs Hdel Hfresh H x. pose proof (deletion_run _ (w, n) _ _ (sound_kept _ Hs) Hdel) as (row & t1 & t2 & t3 & _ & Hk & Hd & E & ->).
  cbn [fst snd] in *. assert (Hs1 : sound w1) by (rewrite E; by apply without_user_sound).
  eapply (directory_steps_keep (fun w => ~ opens w (us_ID row, x) secret)); [|..|exact H|exact Hs1|].
  - intros v v' _ He Hno Ho. by eapply Hno, edit_opens.
  - intros v s' Hv Hg Hno Ho. by eapply Hno, grants_opens.
  - cbn. intros [Hu _]. rewrite E in Hu. by apply without_user_usable in Hu as [[] _].
Qed.

(** ** References *)
Lemma GetProxyUser_cases b name u : GetProxyUser b name = Ok u -> us_DeletedAt u = None /\
  (proxy_users b !! TrimSpace name = Some u \/
   (proxy_users b !! TrimSpace name = None /\ us_Name u = TrimSpace name /\ exists k, proxy_users b !! k = Some u)).
Proof.
  unfold GetProxyUser. destruct (proxy_users b !! TrimSpace name) as [v|] eqn:E.
  - destruct (us_DeletedAt v) eqn:Ed; [done|]. intros [= <-]. split; [done|by left].
  - unfold user_by_name. destruct (List.find _ _) as [[k v]|] eqn:Ef; [|done]. cbn. intros [= <-].
    apply find_some in Ef as [Hin H]. apply list_elem_of_In, elem_of_map_to_list in Hin. cbn in H.
    apply andb_true_iff in H as [Hd Hn%String.eqb_eq]. apply negb_true_iff, bool_decide_eq_false in Hd.
    split; [destruct (us_DeletedAt v); [destruct Hd; by eexists|done]|]. right. split; [done|]. split; [done|by exists k].
Qed.
(** A live user answers to his name where it is nobody's id. *)
Lemma GetProxyUser_named w name k u : sound w -> users_of w !! TrimSpace name = None ->
  users_of w !! k = Some u -> named_user u (TrimSpace name) -> GetProxyUser (di_rows w) name = Ok u.
Proof.
  intros Hs Hno Hk Hn. unfold GetProxyUser. change (proxy_users (di_rows w)) with (users_of w). rewrite Hno. unfold user_by_name.
  change (proxy_users (di_rows w)) with (users_of w). destruct (List.find _ _) as [[j v]|] eqn:Ef.
  - apply find_some in Ef as [Hin H]. apply list_elem_of_In, elem_of_map_to_list in Hin. cbn in H.
    apply andb_true_iff in H as [Hd Hm%String.eqb_eq]. apply negb_true_iff, bool_decide_eq_false in Hd.
    assert (j = k) as ->.
    { eapply (so_names _ Hs); [exact Hin|exact Hk| |exact Hn]. split; [|done]. destruct (us_DeletedAt v); [destruct Hd; by eexists|done]. }
    cbn. congruence.
  - pose proof (find_none _ _ Ef (k, u)) as Hf. cbn in Hf. destruct Hn as [Hd Hn]. rewrite Hd, Hn, String.eqb_refl in Hf. cbn in Hf.
    exfalso. enough (true = false) by done. apply Hf. by apply list_elem_of_In, elem_of_map_to_list.
Qed.
(** Rows are never removed nor renamed. *)
Definition still_there (k : string) (u : ProxyUser) (w : directory) : Prop :=
  exists u', users_of w !! k = Some u' /\ us_ID u' = us_ID u /\ us_Name u' = us_Name u.
Lemma edit_still_there k u w w' : edit w w' -> still_there k u w -> still_there k u w'.
Proof.
  intros He (v & Hv & Hi & Hn). destruct He as [w id r st a Hr Hd|w n r a Hno Hid Hd Hf|w id r t1 t2 t3 Hr Hd|w id r Hr Hd Hf];
    unfold still_there, users_of in *; cbn in *;
    match goal with |- context [<[?i := _]> _ !! k] => destruct (decide (i = k)) as [<-|Hne] end;
    try (exists v; rewrite lookup_insert_ne by done; by split); rewrite lookup_insert_eq; try congruence;
    (eexists; split; [reflexivity|]; cbn; split; congruence).
Qed.
Lemma edit_unknown k w w' : (forall n, dr_id (oracle n) <> k) -> edit w w' -> users_of w !! k = None -> users_of w' !! k = None.
Proof.
  intros Hk He Hn. destruct He as [w id r st a Hr Hd|w n r a Hno Hid Hd Hf|w id r t1 t2 t3 Hr Hd|w id r Hr Hd Hf];
    unfold users_of; cbn; apply lookup_insert_None; (split; [done|]); [congruence|apply Hk|congruence..].
Qed.
(** references to users are stable: what resolves to a user (his id, or his
    name where it is nobody's id) resolves to him whatever requests come between,
    whenever he is not deleted; and the id of a deleted user never resolves to
    somebody else, even if he is called by it. *)
Theorem user_references_are_stable w w' name u : sound w -> GetProxyUser (di_rows w) name = Ok u ->
  (forall n, dr_id (oracle n) <> TrimSpace name) -> rtc directory_step w w' ->
  (live_user (di_store w') (us_ID u) -> exists u', GetProxyUser (di_rows w') name = Ok u' /\ us_ID u' = us_ID u) /\
  (forall v, GetProxyUser (di_rows w') (us_ID u) = Ok v -> us_ID v = us_ID u).
Proof.
  intros Hs Hu Hids H. destruct (GetProxyUser_cases _ _ _ Hu) as [Hd Hcase]. destruct (GetUser_row _ _ _ (sound_kept _ Hs) Hu) as [Hk _].
  assert (Hrun : sound w' /\ still_there (us_ID u) u w' /\ (users_of w !! TrimSpace name = None -> users_of w' !! TrimSpace name = None)).
  { eapply (directory_steps_keep (fun w' => still_there (us_ID u) u w' /\ (users_of w !! TrimSpace name = None -> users_of w' !! TrimSpace name = None)));
      [| |exact H|exact Hs|].
    - intros v v' _ He [Ht Hno]. split; [by eapply edit_still_there|]. intros Hn%Hno. by eapply edit_unknown.
    - intros v s' Hv Hg [Ht Hno]. destruct (grant_step_keeps _ _ _ _ (so_consistent _ Hv) Hg) as [->|(k & k' & K)]; [by split|].
      pose proof (ks_users _ _ _ K) as E. cbn in E. unfold still_there, users_of, di_rows in *. cbn. by rewrite E.
    - split; [by exists u|done]. }
  destruct Hrun as (Hs' & (v & Hv & Hi & Hn) & Hno). pose proof (sound_kept _ Hs') as Hw'. split.
  - intros (v' & Hv' & Hl). change (users_of w' !! us_ID u = Some v') in Hv'. rewrite Hv in Hv'. injection Hv' as <-.
    exists v. split; [|done]. destruct Hcase as [Hid|(Hnone & Hname & _)].
    + destruct (sound_kept _ Hs _ _ Hid) as [E _]. unfold GetProxyUser. change (proxy_users (di_rows w')) with (users_of w').
      by rewrite <- E, Hv, Hl.
    + eapply GetProxyUser_named; [done|by apply Hno|exact Hv|]. split; [done|congruence].
  - intros x Hx. destruct (GetProxyUser_cases _ _ _ Hx) as [Hxd Hxc]. destruct (sound_kept _ Hs _ _ Hk) as [_ Ht]. rewrite Ht in Hxc.
    destruct Hxc as [Hx1|(Hx1 & _)]; change (proxy_users (di_rows w')) with (users_of w') in Hx1; congruence.
Qed.
End oracle.

(** ** A small directory *)
Definition w_draws (n : nat) : draw := {| dr_id := "fresh"; dr_secret := Some "minted"%string; dr_now := "2026-01-01T00:00:00.000Z" |}.
Definition w_account (name : string) (expireAt : option string) : account :=
  {| ac_DisplayName := name; ac_GlobalQuotaBytes := 0; ac_ExpireAt := expireAt; ac_CreatedAt := "2025-01-01T00:00:00.000Z" |}.
Definition w_directory : directory :=
  {| di_store := w_store true; accounts := {["u1" := w_account "Alice" None; "u2" := w_account "Bob" None]} |}.
Definition w_after (r : user_request) (w : directory) : directory := (handle_user w_draws r (w, O)).2.1.
Lemma w_users k u : users_of w_directory !! k = Some u -> (k = "u1" /\ u = w_user "u1" "alice" \/ k = "u2" /\ u = w_user "u2" "bob")%string.
Proof.
  intros H. assert (H' : ({["u1" := w_user "u1" "alice"; "u2" := w_user "u2" "bob"]} : gmap string ProxyUser) !! k = Some u) by exact H.
  apply lookup_insert_Some in H' as [[<- <-]|[_ H']]; [by left|]. apply lookup_singleton_Some in H' as [<- <-]. by right.
Qed.
Lemma w_directory_sound : sound w_directory.
Proof.
  constructor; [apply w_consistent|apply w_synced|..].
  - intros u Hu. assert (Hne : u <> "u1"%string) by (intros ->; apply Hu; exists (w_user "u1" "alice"); by split). constructor.
    + intros p. cbn. apply lookup_singleton_None. congruence.
    + intros g. apply not_elem_of_empty.
    + by intros p [? _]%w_accesses.
    + intros x (c & Hc & _). cbn in Hc. apply lookup_singleton_Some in Hc as [[= ? _] _]. congruence.
  - intros i j u v name Hi%w_users Hj%w_users [_ Hn] [_ Hm].
    destruct Hi as [[-> ->]|[-> ->]], Hj as [[-> ->]|[-> ->]]; cbn in *; congruence.
  - intros k u Hk%w_users Hd. by destruct Hk as [[_ ->]|[_ ->]].
Qed.
Definition w_run : list user_request := [
  RqDeleteUser "alice"; RqCreateUser {| cu_Name := "alice"; cu_DisplayName := ""; cu_GlobalQuotaBytes := 0; cu_ExpireAt := "" |};
  RqRestoreUser "u1"; RqDeleteUser "fresh"; RqRestoreUser "u1"].
Lemma w_runs digest w rs : rtc (directory_step w_draws digest) w (fold_left (fun w r => w_after r w) rs w).
Proof.
  revert w. induction rs as [|r rs IH]; intros w; [done|]. eapply rtc_l; [apply (on_users _ _ w O r)|apply IH].
Qed.
Definition w_end : directory := fold_left (fun w r => w_after r w) w_run w_directory.
(** alice is deleted, replaced by a namesake, and, when that one is deleted, restored. *)
Example only_live_users_hold_witness :
  synced (di_store w_end) /\ (forall u, ~ live_user (di_store w_end) u -> bare (di_store w_end) u) /\
  (us_DeletedAt <$> users_of w_end !! "u1" = Some None)%string /\ (users_of w_end !! "fresh" <> None)%string.
Proof.
  destruct (only_live_users_hold w_draws (fun _ => eq_refl) w_digest w_directory w_end w_directory_sound (w_runs w_digest _ w_run)) as (H1 & H2 & _).
  split; [exact H1|]. split; [exact H2|]. split; [vm_compute; reflexivity|vm_compute; discriminate].
Defined.
Example deleted_users_secrets_are_void_witness :
  opens w_directory ("u1", "x1") "old" /\ ~ opens (w_after (RqRestoreUser "alice") (w_after (RqDeleteUser "alice") w_directory)) ("u1", "x1") "old".
Proof.
  split; [split; [eexists; split; vm_compute; reflexivity|vm_compute; reflexivity]|].
  refine (deleted_users_secrets_are_void w_draws (fun _ => eq_refl) w_digest "alice" w_directory O
    (user_with "disabled" (Some "2026-01-01T00:00:00.000Z") (w_user "u1" "alice")) (w_after (RqDeleteUser "alice") w_directory) 3%nat _ "old"
    w_directory_sound _ _ (w_runs w_digest _ [RqRestoreUser "alice"]) "x1"); [vm_compute; reflexivity|done].
Defined.
Example user_references_are_stable_witness :
  (forall v, GetProxyUser (di_rows (w_after (RqDeleteUser "alice") w_directory)) "u1" = Ok v -> us_ID v = "u1"%string) /\
  (exists v, GetProxyUser (di_rows w_end) "alice" = Ok v /\ us_ID v = "u1"%string).
Proof.
  assert (Ha : GetProxyUser (di_rows w_directory) "alice" = Ok (w_user "u1" "alice")) by (vm_compute; reflexivity).
  assert (Hf : forall n, dr_id (w_draws n) <> TrimSpace "alice") by (intros n; vm_compute; discriminate). split.
  - exact (proj2 (user_references_are_stable w_draws (fun _ => eq_refl) w_digest _ _ "alice" _ w_directory_sound Ha Hf (w_runs w_digest _ [RqDeleteUser "alice"]))).
  - apply (proj1 (user_references_are_stable w_draws (fun _ => eq_refl) w_digest _ _ "alice" _ w_directory_sound Ha Hf (w_runs w_digest _ w_run))).
    eexists. split; vm_compute; reflexivity.
Defined.
