(* ===== verification/UserRecords.v ===== *)
(** * What each request does to a user's row ([Users])

    A patch against the checks it makes, restoration, the texts by which expiry
    is decided, the pages of the listing, and two closed examples of what does
    not hold of expiry. *)
From S2P Require Import Prelude GoStrings GoTime Effects.
From S2P Require Import Traffic Paths PathGrants PathAccess GrantSafety Render RenderSafety Users UserSafety.

#[local] Open Scope Z_scope.

(** ** A patch *)
(** The checks of UpdateProxyUser, in its order: the row, and the expiry as stored. *)
Definition patch_checks (w : directory) (name : string) (params : UpdateProxyUserParams) : result UserError (ProxyUser * option string) :=
  guard! negb (TrimSpace name =? "")%string else UserNameRequired;
  guard! match uu_Status params with Some status => settable status | None => true end
    else UserStatusUnsupported (default ""%string (uu_Status params));
  let? expireAt := match uu_ExpireAt params with Some value => normalizeExpireAt value | None => Ok None end in
  match GetProxyUser (di_rows w) (TrimSpace name) with
  | Err _ => Err (NoSuchUser (TrimSpace name))
  | Ok row =>
      guard! match uu_GlobalQuotaBytes params with Some quota => 0 <=? quota | None => true end else UserConstraint;
      Ok (row, expireAt)
  end.
Definition patched_account (params : UpdateProxyUserParams) (expireAt : option string) (a : account) : account := {|
  ac_DisplayName := default (ac_DisplayName a) (uu_DisplayName params);
  ac_GlobalQuotaBytes := default (ac_GlobalQuotaBytes a) (uu_GlobalQuotaBytes params);
  ac_ExpireAt := match uu_ExpireAt params with Some _ => expireAt | None => ac_ExpireAt a end;
  ac_CreatedAt := ac_CreatedAt a |}.
(** From [w] to [w'] the row of one user has changed, to [u] and [a]. *)
Record only_row (w w' : directory) (id : string) (u : ProxyUser) (a : account) : Prop := {
  or_users : users_of w' = <[id := u]> (users_of w);
  or_store : di_store w' = set_base (di_store w) (with_users (di_rows w) (users_of w'));
  or_account : account_of w' id = a;
  or_accounts : forall k, k <> id -> account_of w' k = account_of w k
}.
Lemma only_row_refl w id u : users_of w !! id = Some u -> only_row w w id u (account_of w id).
Proof.
  intros H. constructor; [by rewrite insert_id| |done|done]. destruct w as [[[] ? ? ? ? ? ? ?] ?]. reflexivity.
Qed.
Lemma account_of_put w id u a k : account_of (put_user w id u a) k = if decide (k = id) then a else account_of w k.
Proof.
  unfold account_of. cbn. destruct (decide (k = id)) as [->|Hne]; [by rewrite lookup_insert_eq|by rewrite lookup_insert_ne].
Qed.
(** One more statement on the row. *)
Lemma only_row_update w s id u a name check f g : only_row w s.1 id u a -> us_DeletedAt u = None ->
  (check = false -> update_user id name check f g s = (Err UserConstraint, s)) /\
  (check = true -> exists w', update_user id name check f g s = (Ok tt, (w', s.2)) /\ only_row w w' id (f u) (g a)).
Proof.
  intros [E1 E2 E3 E4] Hd. unfold update_user, read, obtain, insist, modify, mbind, eff_bind. cbn [fst snd].
  rewrite E1, lookup_insert_eq. cbn. rewrite Hd. cbn. destruct check; (split; [done|]); [|done]. intros _. cbn.
  eexists. split; [reflexivity|]. change (default no_account (accounts s.1 !! id)) with (account_of s.1 id). rewrite E3. constructor.
  - unfold put_user, users_of, di_rows. cbn. unfold users_of, di_rows in E1. by rewrite E1, insert_insert_eq.
  - cbn. unfold users_of, di_rows. cbn. unfold di_rows, users_of in *. rewrite E2. reflexivity.
  - rewrite account_of_put. by rewrite decide_True.
  - intros k Hk. rewrite account_of_put, decide_False by done. by apply E4.
Qed.
Lemma only_row_given {A} w s id u a name (o : option A) (check : A -> bool) (g : A -> account -> account) : only_row w s.1 id u a -> us_DeletedAt u = None ->
  let m := if_given o (fun x => update_user id name (check x) (fun u => u) (g x)) in
  if match o with Some x => check x | None => true end
  then exists w', m s = (Ok tt, (w', s.2)) /\ only_row w w' id u (match o with Some x => g x a | None => a end)
  else m s = (Err UserConstraint, s).
Proof.
  intros H Hd. cbn. destruct o as [x|]; cbn [if_given]; [|exists s.1; by destruct s].
  destruct (only_row_update w s id u a name (check x) (fun u => u) (g x) H Hd) as [F R]. destruct (check x); [by apply R|by apply F].
Qed.
Definition no_oracle (n : nat) : draw := {| dr_id := ""; dr_secret := None; dr_now := "" |}.
Lemma edits_sound w w' : rtc (edit no_oracle) w w' -> sound w -> sound w'.
Proof. induction 1 as [|w w1 w2 H1 H2 IH]; [done|]. intros Hs. apply IH. by eapply (edit_sound no_oracle). Qed.
(** A live row that keeps its name answers to the reference it answered to. *)
Lemma row_answers w w' name row u : sound w -> sound w' -> GetProxyUser (di_rows w) name = Ok row ->
  users_of w' = <[us_ID row := u]> (users_of w) -> us_DeletedAt u = None -> us_Name u = us_Name row -> GetProxyUser (di_rows w') name = Ok u.
Proof.
  intros Hs Hs' Hr E Hd Hn. destruct (GetProxyUser_cases _ _ _ Hr) as [_ Hcase]. destruct (GetUser_row _ _ _ (sound_kept _ Hs) Hr) as [Hk _].
  destruct Hcase as [Hid|(Hno & Hname & _)].
  - destruct (sound_kept _ Hs _ _ Hid) as [Ei _]. unfold GetProxyUser. change (proxy_users (di_rows w')) with (users_of w').
    by rewrite E, Ei, lookup_insert_eq, Hd.
  - change (users_of w !! TrimSpace name = None) in Hno. apply (GetProxyUser_named _ _ (us_ID row)); [done|..].
    + rewrite E, lookup_insert_ne; [done|]. congruence.
    + by rewrite E, lookup_insert_eq.
    + split; congruence.
Qed.
Lemma GetProxyUser_trim b name u : GetProxyUser b (TrimSpace name) = Ok u <-> GetProxyUser b name = Ok u.
Proof.
  unfold GetProxyUser. rewrite TrimSpace_id by apply TrimSpace_trimmed. destruct (proxy_users b !! TrimSpace name) as [v|].
  - by destruct (us_DeletedAt v).
  - by destruct (user_by_name b (TrimSpace name)).
Qed.
Lemma bind_runs {W E A B} (m : eff W E A) (k : A -> eff W E B) s a s1 : m s = (Ok a, s1) -> (m ≫= k) s = k a s1.
Proof. unfold mbind, eff_bind. by intros ->. Qed.
Lemma bind_stops {W E A B} (m : eff W E A) (k : A -> eff W E B) s e s1 : m s = (Err e, s1) -> (m ≫= k) s = (Err e, s1).
Proof. unfold mbind, eff_bind. by intros ->. Qed.
Lemma transaction_runs {W E A} (m : eff W E A) s a s1 : m s = (Ok a, s1) -> transaction m s = (Ok a, s1).
Proof. unfold transaction. by intros ->. Qed.
Lemma transaction_stops {W E A} (m : eff W E A) s e s1 : m s = (Err e, s1) -> transaction m s = (Err e, (s.1, s1.2)).
Proof. unfold transaction. by intros ->. Qed.
(** The transaction of an update, once the row is found. *)
Lemma patch_statements w n name params expireAt row : users_of w !! us_ID row = Some row -> us_DeletedAt row = None ->
  let m := if_given (uu_DisplayName params) (q_SetProxyUserDisplayName (us_ID row) name);;
           if_given (uu_GlobalQuotaBytes params) (q_SetProxyUserQuota (us_ID row) name);;
           if_given (uu_ExpireAt params) (fun _ => q_SetProxyUserExpire (us_ID row) name expireAt);;
           if_given (uu_Status params) (q_SetProxyUserStatus (us_ID row) name) in
  if match uu_GlobalQuotaBytes params with Some quota => 0 <=? quota | None => true end
  then exists w', m (w, n) = (Ok tt, (w', n)) /\
    only_row w w' (us_ID row) (user_with (default (us_Status row) (uu_Status params)) None row) (patched_account params expireAt (account_of w (us_ID row)))
  else exists w', m (w, n) = (Err UserConstraint, (w', n)).
Proof.
  intros Hk Hd m. unfold m. clear m. pose proof (only_row_refl w _ _ Hk) as H0.
  pose proof (only_row_given w (w, n) _ _ _ name (uu_DisplayName params) (fun _ => true) set_display_name H0 Hd) as S1.
  assert (E1 : (match uu_DisplayName params with Some _ => true | None => true end) = true) by by destruct (uu_DisplayName params).
  cbn beta zeta in S1. rewrite E1 in S1. destruct S1 as (w1 & R1 & H1). rewrite (bind_runs _ _ _ _ _ R1). cbn [snd] in *. clear E1 R1.
  pose proof (only_row_given w (w1, n) _ _ _ name (uu_GlobalQuotaBytes params) (fun q => 0 <=? q) set_quota H1 Hd) as S2. cbn beta zeta in S2.
  destruct (match uu_GlobalQuotaBytes params with Some q => 0 <=? q | None => true end); [|exists w1; by apply bind_stops].
  destruct S2 as (w2 & R2 & H2). rewrite (bind_runs _ _ _ _ _ R2). cbn [snd] in *. clear R2.
  pose proof (only_row_given w (w2, n) _ _ _ name (uu_ExpireAt params) (fun _ => true) (fun _ => set_expire expireAt) H2 Hd) as S3.
  assert (E3 : (match uu_ExpireAt params with Some _ => true | None => true end) = true) by by destruct (uu_ExpireAt params).
  cbn beta zeta in S3. rewrite E3 in S3. destruct S3 as (w3 & R3 & H3). rewrite (bind_runs _ _ _ _ _ R3). cbn [snd] in *. clear E3 R3.
  destruct (uu_Status params) as [status|]; cbn [if_given default].
  - destruct (proj2 (only_row_update w (w3, n) _ _ _ name true (fun u => user_with status (us_DeletedAt u) u) (fun a => a) H3 Hd) eq_refl) as (w4 & R4 & H4).
    exists w4. split; [exact R4|]. rewrite Hd in H4. destruct H4 as [A1 A2 A3 A4]. constructor; [done..| |done]. rewrite A3.
    unfold patched_account. by destruct (account_of w (us_ID row)), (uu_DisplayName params), (uu_GlobalQuotaBytes params), (uu_ExpireAt params).
  - exists w3. split; [done|]. rewrite <- (user_with_self row Hd). destruct H3 as [A1 A2 A3 A4]. constructor; [done..| |done]. rewrite A3.
    unfold patched_account. by destruct (account_of w (us_ID row)), (uu_DisplayName params), (uu_GlobalQuotaBytes params), (uu_ExpireAt params).
Qed.
(** C26: an update is a patch: it changes exactly the fields given, of the user its
    reference resolves to and of nobody else, or, where one of its checks fails,
    reports the first that does and changes nothing. *)
Theorem update_is_a_patch w n name params : sound w ->
  match patch_checks w name params with
  | Err e => UpdateProxyUser name params (w, n) = (Err e, (w, n))
  | Ok (row, expireAt) =>
      let u := user_with (default (us_Status row) (uu_Status params)) None row in
      exists w', UpdateProxyUser name params (w, n) = (Ok u, (w', n)) /\
        only_row w w' (us_ID row) u (patched_account params expireAt (account_of w (us_ID row)))
  end.
Proof.
  intros Hs.
  assert (Hrun : sound (UpdateProxyUser name params (w, n)).2.1) by (eapply edits_sound; [apply (edits_patch no_oracle name params (w, n))|done]).
  revert Hrun. unfold patch_checks, UpdateProxyUser.
  destruct (negb (TrimSpace name =? "")%string); [|by intros _].
  rewrite (bind_runs (insist true UserNameRequired) _ (w, n) tt (w, n)) by done.
  match goal with |- context [(if_given ?o ?f ≫= ?k) (w, n)] => assert (V : if_given o f (w, n) =
    if match o with Some status => settable status | None => true end then (Ok tt, (w, n))
    else (Err (UserStatusUnsupported (default ""%string o)), (w, n))) end.
  { destruct (uu_Status params) as [st|]; [|done]. cbn. unfold insist. by destruct (settable st). }
  destruct (match uu_Status params with Some status => settable status | None => true end); [|by rewrite (bind_stops _ _ _ _ _ V)].
  rewrite (bind_runs _ _ _ _ _ V). clear V.
  set (r := match uu_ExpireAt params with Some value => normalizeExpireAt value | None => Ok None end).
  assert (V : (match uu_ExpireAt params with Some value => lift_result (normalizeExpireAt value) | None => mret None end) (w, n) = lift_result r (w, n))
    by (unfold r; by destruct (uu_ExpireAt params)).
  destruct r as [expireAt|e]; [|by rewrite (bind_stops _ _ _ _ _ V)]. rewrite (bind_runs _ _ _ _ _ V). clear V.
  destruct (GetUser_cases (TrimSpace name) (w, n)) as [(row & V & Hrow)|[V [e He]]]; cbn [fst] in *.
  2:{ rewrite He. pose proof (transaction_stops _ _ _ _ (bind_stops _ (fun user => if_given (uu_DisplayName params) (q_SetProxyUserDisplayName (us_ID user) name);;
        if_given (uu_GlobalQuotaBytes params) (q_SetProxyUserQuota (us_ID user) name);;
        if_given (uu_ExpireAt params) (fun _ => q_SetProxyUserExpire (us_ID user) name expireAt);;
        if_given (uu_Status params) (q_SetProxyUserStatus (us_ID user) name)) _ _ _ V)) as V2. by rewrite (bind_stops _ _ _ _ _ V2). }
  rewrite Hrow. destruct (GetUser_row _ _ _ (sound_kept _ Hs) Hrow) as [Hk Hd].
  pose proof (patch_statements w n name params expireAt row Hk Hd) as Hp. cbn zeta in Hp.
  destruct (match uu_GlobalQuotaBytes params with Some q => 0 <=? q | None => true end).
  - destruct Hp as (w' & R & H). intros Hrun. exists w'. split; [|done].
    rewrite (bind_runs _ _ _ _ _ (transaction_runs _ _ _ _ (eq_trans (bind_runs _ _ _ _ _ V) R))) in Hrun |- *.
    rewrite GetUser_quiet in Hrun. apply (proj1 (GetProxyUser_trim _ _ _)) in Hrow.
    destruct (GetUser_cases name (w', n)) as [(u & -> & Hu)|[_ [e He]]]; cbn [fst] in *.
    + rewrite (row_answers _ _ _ _ _ Hs Hrun Hrow (or_users _ _ _ _ _ H)) in Hu by done. by injection Hu as <-.
    + by rewrite (row_answers _ _ _ _ _ Hs Hrun Hrow (or_users _ _ _ _ _ H)) in He.
  - destruct Hp as (w' & R). intros _.
    by rewrite (bind_stops _ _ _ _ _ (transaction_stops _ _ _ _ (eq_trans (bind_runs _ _ _ _ _ V) R))).
Qed.

(** ** Restoration *)
(** a restored user starts afresh: a successful restoration brings back the row
    of one deleted user under his old name, disabled, with no source, no access and
    no usable credential, and changes nothing else. *)
Theorem restored_user_starts_afresh w n name u w' n' : sound w -> RestoreProxyUser name (w, n) = (Ok u, (w', n')) ->
  exists row, users_of w !! us_ID u = Some row /\ us_DeletedAt row <> None /\ u = user_with "disabled" None row /\
    w' = put_user w (us_ID u) u (account_of w (us_ID u)) /\ bare (di_store w') (us_ID u).
Proof.
  intros Hs H. destruct (restoration_run _ (w, n) _ _ (sound_kept _ Hs) H) as (row & Hk & Hd & Hf & E & Hby & Hu). cbn [fst snd] in *.
  injection E as E _. set (u' := user_with (us_Status row) None row) in *.
  assert (Hs' : sound w').
  { apply (edit_sound no_oracle (fun _ => eq_refl) w); [|exact Hs]. rewrite E. by apply edit_restore. }
  assert (Hu' : GetProxyUser (di_rows w') name = Ok u').
  { destruct Hby as [Hid|[Hno Hname]].
    - unfold GetProxyUser. change (proxy_users (di_rows w')) with (users_of w'). rewrite E, Hid. unfold users_of. cbn. by rewrite lookup_insert_eq.
    - apply (GetProxyUser_named _ _ (us_ID row)); [done|..]; rewrite ?E; unfold users_of; cbn.
      + rewrite lookup_insert_ne; [done|]. unfold users_of in *. congruence.
      + apply lookup_insert_eq.
      + by split. }
  rewrite Hu' in Hu. injection Hu as <-. exists row. split; [exact Hk|]. split; [done|].
  split; [unfold u'; by rewrite (so_disabled _ Hs _ _ Hk Hd)|]. split; [exact E|]. cbn [us_ID u' user_with].
  assert (Hb : bare (di_store w) (us_ID row)).
  { apply (so_bare _ Hs). intros (r & Hr & Hl). unfold users_of, di_rows in Hk. congruence. }
  destruct Hb as [B1 B2 B3 B4]. rewrite E. by constructor.
Qed.

(** ** Expiry *)
Lemma leb_compare s1 s2 : String.leb s1 s2 = match String.compare s1 s2 with Gt => false | _ => true end.
Proof. unfold String.leb. by destruct (String.compare s1 s2). Qed.
(** C35: expiry by text is expiry by time: an expiry that is accepted is stored as a
    text that is accepted as itself, and the page calls an active user within his
    quota expired exactly from that second on, as long as the years have four
    digits. *)
Theorem expiry_by_text_is_by_time value e now u a billable : normalizeExpireAt value = Ok (Some e) ->
  exists t, GoTime.Parse (TrimSpace value) = Some t /\ (year_ok t ->
    normalizeExpireAt e = Ok (Some e) /\
    (year_ok now -> us_DeletedAt u = None -> us_Status u = "active"%string -> ac_ExpireAt a = Some e ->
     ac_GlobalQuotaBytes a <= 0 \/ billable < ac_GlobalQuotaBytes a ->
     userEffectiveStatus (Format_key now) billable u a = if unix_seconds t <=? unix_seconds now then "expired"%string else "active"%string)).
Proof.
  unfold normalizeExpireAt. destruct (TrimSpace value =? "")%string; [done|]. destruct (GoTime.Parse (TrimSpace value)) as [t|]; [|done].
  intros [= <-]. exists t. split; [done|]. intros Hy.
  assert (Hne : (Format_key t =? "")%string = false).
  { apply String.eqb_neq. intros E. pose proof (Parse_Format_key t Hy) as H. by rewrite E in H. }
  rewrite (TrimSpace_id _ (Format_key_trimmed t Hy)), Hne, Parse_Format_key by done. split; [by rewrite Format_key_seconds|].
  intros Hn Hd Hst He Hq. unfold userEffectiveStatus. rewrite Hd, Hst, He, Hne, leb_compare, compare_Format_key by done. cbn.
  assert (Hnq : (0 <? ac_GlobalQuotaBytes a) && (ac_GlobalQuotaBytes a <=? billable) = false) by lia. rewrite Hnq.
  unfold Z.leb. by destruct (unix_seconds t ?= unix_seconds now).
Qed.

(** ** The listing *)
Section page.
Context `{UnicodeTables} (like : string -> string -> bool) (lower updated_at : string -> string).
Definition at_page (f : UserFilter) (i : nat) : UserFilter := {|
  uf_Search := uf_Search f; uf_Status := uf_Status f; uf_DeletedOnly := uf_DeletedOnly f; uf_Sort := uf_Sort f;
  uf_Descending := uf_Descending f; uf_Limit := uf_Limit f; uf_Offset := Z.of_nat i * pageLimit (uf_Limit f) 50 |}.
Lemma pageLimit_range value : 1 <= pageLimit value 50 <= 500.
Proof. unfold pageLimit. cbn. destruct (value <=? 0) eqn:E; destruct (500 <? _) eqn:E2; lia. Qed.
Lemma concat_pages {A} (l : list A) m k : List.concat (map (fun i => take m (drop (i * m) l)) (seq 0 k)) = take (k * m) l.
Proof.
  induction k as [|k IH]; [done|]. rewrite seq_S, map_app, List.concat_app, IH. cbn. rewrite app_nil_r, Nat.add_comm, <- take_take_drop. by rewrite Nat.mul_comm.
Qed.
(** All pages up to the [k]th. *)
Definition pages now totals w (f : UserFilter) (k : nat) : list ProxyUserPageRow :=
  List.concat (map (fun i => up_Users (ListUsersPage like lower updated_at now totals w (at_page f i))) (seq 0 k)).
Definition matching now totals w (f : UserFilter) : list ProxyUserPageRow :=
  List.filter (userPageWhere like lower f) (map (fun ku : string * ProxyUser => page_row now totals w ku.1 ku.2) (map_to_list (users_of w))).
(** the pages of the listing are consistent: going through them shows every
    user that matches the filter exactly once and no other, the total counts them,
    and a row found under a status carries the badge of that status. *)
Theorem pages_show_each_match_once now totals w f k :
  let total := up_Total (ListUsersPage like lower updated_at now totals w f) in
  total = Z.of_nat (length (matching now totals w f)) /\
  (total <= Z.of_nat k * pageLimit (uf_Limit f) 50 -> pages now totals w f k ≡ₚ matching now totals w f) /\
  (forall r, r ∈ pages now totals w f k -> r ∈ matching now totals w f /\
    (TrimSpace (uf_Status f) <> ""%string -> ur_EffectiveStatus r = TrimSpace (uf_Status f)) /\
    (is_set (us_DeletedAt (ur_User r)) = uf_DeletedOnly f)).
Proof.
  intros total. unfold total. split; [done|]. set (m := Z.to_nat (pageLimit (uf_Limit f) 50)).
  assert (E : pages now totals w f k = take (k * m) (merge_sort (page_order updated_at totals f) (matching now totals w f))).
  { unfold pages. rewrite <- concat_pages. f_equal. apply map_ext. intros i. unfold ListUsersPage. cbn [up_Users uf_Limit uf_Offset at_page].
    pose proof (pageLimit_range (uf_Limit f)). f_equal. f_equal. unfold pageOffset, m. destruct (_ <? 0) eqn:En; lia. }
  split.
  - intros Hk. rewrite E, take_ge; [apply merge_sort_Permutation|]. rewrite merge_sort_Permutation.
    pose proof (pageLimit_range (uf_Limit f)). cbn in Hk. unfold matching, m in *. lia.
  - intros r Hr. rewrite E in Hr. apply elem_of_take in Hr as (i & Hi & _). apply list_elem_of_lookup_2 in Hi. rewrite merge_sort_Permutation in Hi.
    split; [done|]. unfold matching in Hi. apply list_elem_of_In, filter_In in Hi as [_ Hw]. unfold userPageWhere in Hw.
    apply andb_true_iff in Hw as [[Hd Hst]%andb_true_iff _]. apply eqb_prop in Hd. split; [|done]. intros Hne.
    apply orb_true_iff in Hst as [Hst|Hst]; [by apply String.eqb_eq in Hst|by apply String.eqb_eq].
Qed.
End page.

(** ** Witnesses *)
Definition w_patch : UpdateProxyUserParams :=
  {| uu_DisplayName := None; uu_Status := Some "disabled"%string; uu_GlobalQuotaBytes := Some 1000; uu_ExpireAt := Some "2030-06-01T12:00:00+08:00"%string |}.
Example update_is_a_patch_witness :
  patch_checks w_directory "alice" w_patch = Ok (w_user "u1" "alice", Some "2030-06-01T04:00:00Z"%string) /\
  exists w', UpdateProxyUser "alice" w_patch (w_directory, O) = (Ok (user_with "disabled" None (w_user "u1" "alice")), (w', O)) /\
    account_of w' "u1" = {| ac_DisplayName := "Alice"; ac_GlobalQuotaBytes := 1000; ac_ExpireAt := Some "2030-06-01T04:00:00Z"%string;
                            ac_CreatedAt := "2025-01-01T00:00:00.000Z" |}.
Proof.
  assert (E : patch_checks w_directory "alice" w_patch = Ok (w_user "u1" "alice", Some "2030-06-01T04:00:00Z"%string)) by (vm_compute; reflexivity).
  split; [exact E|]. pose proof (update_is_a_patch w_directory O "alice" w_patch w_directory_sound) as H. rewrite E in H.
  destruct H as (w' & H1 & H2). exists w'. split; [exact H1|]. refine (eq_trans (or_account _ _ _ _ _ H2) _). vm_compute. reflexivity.
Defined.
Example restored_user_starts_afresh_witness :
  exists w', RestoreProxyUser "alice" (w_after (RqDeleteUser "alice") w_directory, O) = (Ok (user_with "disabled" None (w_user "u1" "alice")), (w', O)) /\
    bare (di_store w') "u1".
Proof.
  set (r := RestoreProxyUser "alice" (w_after (RqDeleteUser "alice") w_directory, O)).
  assert (E : r = (Ok (user_with "disabled" None (w_user "u1" "alice")), (r.2.1, O))) by (vm_compute; reflexivity).
  assert (Hs : sound (w_after (RqDeleteUser "alice") w_directory)).
  { apply (without_user_sound w_directory "u1" (w_user "u1" "alice")); [done..|apply w_directory_sound]. }
  exists r.2.1. split; [exact E|]. destruct (restored_user_starts_afresh _ _ _ _ _ _ Hs E) as (row & _ & _ & _ & _ & Hb). exact Hb.
Defined.
Definition new_year_2026 : Time := 1767225600 * second.
Example expiry_by_text_is_by_time_witness :
  normalizeExpireAt " 2030-06-01T12:00:00+08:00" = Ok (Some "2030-06-01T04:00:00Z"%string) /\
  userEffectiveStatus (Format_key new_year_2026) 0 (w_user "u1" "alice") (w_account "Alice" (Some "2030-06-01T04:00:00Z"%string)) = "active"%string.
Proof.
  assert (E : normalizeExpireAt " 2030-06-01T12:00:00+08:00" = Ok (Some "2030-06-01T04:00:00Z"%string)) by (vm_compute; reflexivity).
  split; [exact E|]. destruct (expiry_by_text_is_by_time _ _ new_year_2026 (w_user "u1" "alice") (w_account "Alice" (Some "2030-06-01T04:00:00Z"%string)) 0 E)
    as (t & Ht & H). vm_compute in Ht. injection Ht as <-.
  rewrite (proj2 (H ltac:(vm_compute; split; discriminate)) ltac:(vm_compute; split; discriminate) eq_refl eq_refl eq_refl ltac:(by left)).
  vm_compute. reflexivity.
Defined.
Example pages_show_each_match_once_witness :
  let f := {| uf_Search := ""; uf_Status := "expired"; uf_DeletedOnly := false; uf_Sort := "expire_at"; uf_Descending := false; uf_Limit := 1; uf_Offset := 0 |} in
  let w := {| di_store := w_store true; accounts := {["u1" := w_account "Alice" (Some "2025-06-01T04:00:00Z"); "u2" := w_account "Bob" None]} |}%string in
  length (@pages ascii_only_tables (fun _ _ => true) (fun s => s) (fun _ => ""%string) (Format_key new_year_2026) ∅ w f 2) = 1%nat.
Proof.
  intros f w. rewrite (proj1 (proj2 (@pages_show_each_match_once ascii_only_tables (fun _ _ => true) (fun s => s) (fun _ => ""%string)
    (Format_key new_year_2026) ∅ w f 2)) ltac:(vm_compute; discriminate)). vm_compute. reflexivity.
Defined.

(** ** What does not hold of expiry *)
#[local] Existing Instance ascii_only_tables.
(** An expiry at the end of the year 9999, given with an offset west of
    Greenwich, is stored with a year of five digits: as a text it lies before
    every instant of the year 2026, and the user is listed as expired at once. *)
Example far_expiry_is_immediate :
  normalizeExpireAt "9999-12-31T23:59:59-01:00" = Ok (Some "10000-01-01T00:59:59Z"%string) /\
  userEffectiveStatus (Format_key new_year_2026) 0 (w_user "u1" "alice") (w_account "Alice" (Some "10000-01-01T00:59:59Z"%string)) = "expired"%string /\
  (exists t, GoTime.Parse "9999-12-31T23:59:59-01:00" = Some t /\ new_year_2026 < t).
Proof. split; [vm_compute; reflexivity|]. split; [vm_compute; reflexivity|]. eexists. split; vm_compute; reflexivity. Qed.
(** A user who has been expired for a year, and is listed as such, is still in
    the configuration of his node: rendering reads the status column only, and
    nothing ever writes that a user has expired. *)
Example expired_user_is_served : exists (s : site) (w : directory) (u : ProxyUser) cfg,
  di_store w = grants s /\ GetProxyUser (di_rows w) "alice" = Ok u /\
  userEffectiveStatus (Format_key new_year_2026) 0 u (account_of w (us_ID u)) = "expired"%string /\
  f_RenderNodeConfig s "node" = Ok cfg /\
  existsb (fun i => existsb (fun a => (RenderSafety.ac_Name a =? "one@alice")%string) (inbound_accounts i)) (sc_Inbounds cfg) = true.
Proof.
  set (s := f_site "reality" "bob-1"). set (r := f_RenderNodeConfig s "node"). exists s.
  exists {| di_store := grants s; accounts := {["u1"%string := w_account "Alice" (Some "2025-01-01T00:00:00Z"%string)]} |}.
  exists (f_user "u1" "alice"), (f_cfg r). split; [done|]. split; [vm_compute; reflexivity|]. split; [vm_compute; reflexivity|].
  split; vm_compute; reflexivity.
Qed.
