(* ===== verification/ServedUsers.v ===== *)
(** * Whom a node serves ([Render] with [Users])

    The configuration of a node against the directory of the users, expiries
    included. *)
From S2P Require Import Prelude GoStrings GoTime Effects.
From S2P Require Import Traffic Paths PathGrants PathAccess GrantSafety Render RenderSafety Users UserSafety UserRecords.

#[local] Open Scope Z_scope.

(** The account's expiry has passed at the time written [now]. *)
Definition lapsed (now : string) (a : Users.account) : Prop := exists e, ac_ExpireAt a = Some e /\ e <> ""%string /\ String.leb e now = true.
(** Whom the node has to let in at that time. *)
Definition owed (now : string) (w : directory) (nodeName u x : string) : Prop :=
  entitled (di_rows w) nodeName u x /\ ~ lapsed now (account_of w u).
(** It is what the listing of users calls expired. *)
Lemma lapsed_is_expired now billable u a : us_DeletedAt u = None -> us_Status u = "active"%string ->
  ac_GlobalQuotaBytes a <= 0 \/ billable < ac_GlobalQuotaBytes a -> lapsed now a <-> userEffectiveStatus now billable u a = "expired"%string.
Proof.
  intros Hd Hs Hq. unfold userEffectiveStatus. rewrite Hd, Hs. cbn. assert (Hnq : (0 <? ac_GlobalQuotaBytes a) && (ac_GlobalQuotaBytes a <=? billable) = false) by lia.
  rewrite Hnq. unfold lapsed. destruct (ac_ExpireAt a) as [e|]; [|split; [by intros (e & [=] & _)|done]].
  destruct (String.eqb_spec e "") as [->|He]; cbn; [split; [by intros (e & [= <-] & H & _)|done]|].
  destruct (String.leb e now) eqn:El; [by split; [|intros _; exists e]|split; [|done]]. intros (e' & [= <-] & _ & H). congruence.
Qed.

Section served.
Context `{UnicodeTables} (decode_vless_settings : string -> option vlessRealitySettings)
  (decode_vless_credential : string -> option VLESSRealityCredential) (decode_ss_settings : string -> option Shadowsocks2022Settings)
  (decode_ss_credential : string -> option string) (loopback_literal : string -> bool).

(** C19: a node serves the users it should: its configuration, when there is one,
    holds exactly one account, made from the row, for each user and proxy of some
    set of credential rows.  The set has everybody the node owes an account, a
    live active user with an enabled binding and credential whose expiry has not
    passed; it has nobody without the active status, the binding or the
    credential; and it is exactly the former when the status of every user whose
    expiry has passed says so.  (Nothing writes that status:
    [UserRecords.expired_user_is_served].)  Inbounds have distinct tags, and each
    account is metered. *)
Theorem node_serves_owed_users w s nodeName cfg now : well_formed s -> di_store w = grants s ->
  RenderNodeConfig decode_vless_settings decode_vless_credential decode_ss_settings decode_ss_credential loopback_literal s nodeName = Ok cfg ->
  exists node rows accounts, GetNode (di_rows w) nodeName = Ok node /\ NoDup (map row_key rows) /\
    (forall u x, owed now w (no_Name node) u x -> (u, x) ∈ map row_key rows) /\
    (forall u x, (u, x) ∈ map row_key rows -> entitled (di_rows w) (no_Name node) u x) /\
    ((forall u row, users_of w !! u = Some row -> lapsed now (account_of w u) -> us_Status row <> "active"%string) ->
       forall u x, (u, x) ∈ map row_key rows <-> owed now w (no_Name node) u x) /\
    Forall2 (fun d a => detail s (row_key d) = Some d /\
      RenderSafety.account_of decode_vless_settings decode_vless_credential decode_ss_settings decode_ss_credential d = Ok a) rows accounts /\
    List.concat (map inbound_accounts (sc_Inbounds cfg)) ≡ₚ accounts /\ NoDup (map inbound_tag (sc_Inbounds cfg)) /\
    exists users, sc_StatsUsers cfg = Some users /\ users ≡ₚ map ac_Name accounts.
Proof.
  intros Hwf Hw Hr. destruct (node_serves_its_rows _ _ _ _ _ _ _ _ Hwf Hr) as (node & rows & accounts & Hn & Hnd & He & Hrest).
  assert (Er : di_rows w = rows_of s) by (unfold di_rows, rows_of; by rewrite Hw).
  exists node, rows, accounts. rewrite Er. split; [done|]. split; [done|]. unfold owed. rewrite Er. setoid_rewrite He.
  split; [by intros u x []|]. split; [done|]. split; [|exact Hrest]. intros Hl u x. split; [|by intros []]. intros Hent. split; [done|]. intros Hlap.
  destruct Hent as (c & user & p & n & _ & _ & _ & Hu & Hs & _). refine (Hl u user _ Hlap Hs). unfold users_of. by rewrite Er.
Qed.
End served.

#[local] Existing Instance ascii_only_tables.
(** Alice, Bob and their accounts, which lapse in 2030. *)
Definition served_directory : directory := {| di_store := grants (f_site "reality" "bob-1");
  accounts := {["u1" := w_account "Alice" (Some "2030-06-01T04:00:00Z"); "u2" := w_account "Bob" None]} |}%string.
Lemma none_lapsed : forall u row, users_of served_directory !! u = Some row -> lapsed (Format_key new_year_2026) (account_of served_directory u) -> us_Status row <> "active"%string.
Proof.
  intros u row _ (e & He & _ & Hl). exfalso. assert (Ha : e = "2030-06-01T04:00:00Z"%string).
  { unfold account_of in He. destruct (accounts served_directory !! u) as [a|] eqn:E; [|done].
    assert (E' : (<["u1" := w_account "Alice" (Some "2030-06-01T04:00:00Z")]> {["u2" := w_account "Bob" None]} : gmap string Users.account)%string !! u = Some a)
      by exact E. clear E. rename E' into E. apply lookup_insert_Some in E as [[_ <-]|[_ E]]; [by injection He as <-|]. apply lookup_singleton_Some in E as [_ <-]. done. }
  subst e. vm_compute in Hl. discriminate Hl.
Qed.
Lemma node_serves_owed_users_witness : exists cfg, f_RenderNodeConfig (f_site "reality" "bob-1") "node" = Ok cfg /\ length (sc_Inbounds cfg) = 2%nat /\
  exists node rows accounts, GetNode f_rows "node" = Ok node /\ length rows = 3%nat /\
    (forall u x, (u, x) ∈ map row_key rows <-> owed (Format_key new_year_2026) served_directory (no_Name node) u x) /\
    List.concat (map inbound_accounts (sc_Inbounds cfg)) ≡ₚ accounts.
Proof.
  set (r := f_RenderNodeConfig (f_site "reality" "bob-1") "node").
  assert (E : r = Ok (f_cfg r)) by (vm_compute; reflexivity). exists (f_cfg r). split; [exact E|]. split; [vm_compute; reflexivity|].
  destruct (node_serves_owed_users f_decode_vless f_decode_uuid f_decode_ss Some f_loopback served_directory (f_site "reality" "bob-1") "node" (f_cfg r)
    (Format_key new_year_2026) (f_well_formed _ _) eq_refl E) as (node & rows & accounts & Hn & _ & _ & _ & He & Hf & Hp & _).
  exists node, rows, accounts. split; [exact Hn|]. split; [|exact (conj (He none_lapsed) Hp)].
  rewrite (Forall2_length _ _ _ Hf), <- (Permutation_length Hp). vm_compute. reflexivity.
Defined.
