(* ===== verification/GoNet.v ===== *)
(** * Address literals of Go's [net] package, and more of [strings]

    [ParseIP] and [IP.String] as [net/netip] computes them; an address is the
    list of its eight 16-bit groups, IPv4 as the mapped IPv6 address. *)
From S2P Require Import Prelude GoStrings.

#[local] Open Scope Z_scope.

(** ** strings *)
(** strings.Cut(s, one byte): before, and after if the byte is found *)
Definition Cut (s : string) (sep : ascii) : string * option string :=
  match IndexByte s sep with Some i => (str_take i s, Some (str_drop (S i) s)) | None => (s, None) end.
(** strings.TrimRight for an ASCII cutset *)
Definition TrimRight (s : string) (cutset : ascii -> bool) : string := of_bytes (rev (drop_while cutset (rev (to_bytes s)))).
(** strings.HasSuffix, strings.TrimSuffix, strings.TrimPrefix *)
Definition HasSuffix (s suffix : string) : bool :=
  (String.length suffix <=? String.length s)%nat && (str_drop (String.length s - String.length suffix) s =? suffix)%string.
Definition TrimSuffix (s suffix : string) : string :=
  if HasSuffix s suffix then str_take (String.length s - String.length suffix) s else s.
Definition TrimPrefix (s prefix : string) : string := if HasPrefix s prefix then str_drop (String.length prefix) s else s.
(** strings.Fields(s)[0] of a string without white space in front: everything
    before the first space *)
Fixpoint until_space (l : bytes) : bytes :=
  match l with
  | [] => []
  | c :: r => match lead_space is_space2 is_space3 l with O => c :: until_space r | S _ => [] end
  end.
Definition first_field (s : string) : string := of_bytes (until_space (to_bytes s)).

(** ** net.ParseIP *)
(** netip.parseIPv4Fields; [val] and [digLen] of the octet being read *)
Fixpoint ipv4_fields (val digLen : Z) (octets : list Z) (s : bytes) : option (list Z) :=
  match s with
  | [] => if (length octets <? 3)%nat then None else Some (octets ++ [val])
  | c :: r =>
      if is_digit c then
        if (digLen =? 1) && (val =? 0) then None
        else let val := val * 10 + digit_val c in
             if 255 <? val then None else ipv4_fields val (digLen + 1) octets r
      else if code c =? 46 then
        if (digLen =? 0) || bool_decide (r = []) then None
        else if (length octets =? 3)%nat then None else ipv4_fields 0 0 (octets ++ [val]) r
      else None
  end.
Definition hex_val (c : ascii) : option Z :=
  let z := code c in
  if (48 <=? z) && (z <=? 57) then Some (z - 48)
  else if (97 <=? z) && (z <=? 102) then Some (z - 87)
  else if (65 <=? z) && (z <=? 70) then Some (z - 55) else None.
(** One group: its digits, its value and what follows; [None] if it is too long. *)
Fixpoint hex_group (off acc : Z) (s : bytes) : option (Z * Z * bytes) :=
  match s with
  | c :: r => match hex_val c with
              | Some d => if 3 <? off then None else hex_group (off + 1) (acc * 16 + d) r
              | None => Some (off, acc, s)
              end
  | [] => Some (off, acc, [])
  end.
(** The loop of netip.parseIPv6 over at most [room] more groups: the groups, the
    place of the ellipsis and what is left. *)
Fixpoint ipv6_groups (room : nat) (groups : list Z) (ellipsis : option nat) (s : bytes) : option (list Z * option nat * bytes) :=
  match room with
  | O => Some (groups, ellipsis, s)
  | S room =>
      match hex_group 0 0 s with
      | None => None
      | Some (off, acc, rest) =>
          if off =? 0 then None
          else match rest with
          | [] => Some (groups ++ [acc], ellipsis, [])
          | c :: rest =>
              if code c =? 46 then
                if bool_decide (ellipsis = None) && negb (length groups =? 6)%nat then None
                else if (6 <? length groups)%nat then None
                else match ipv4_fields 0 0 [] s with
                     | Some [a; b; c; d] => Some (groups ++ [a * 256 + b; c * 256 + d], ellipsis, [])
                     | _ => None
                     end
              else if negb (code c =? 58) then None
              else match rest with
                   | [] => None
                   | c2 :: rest2 =>
                       if code c2 =? 58 then
                         match ellipsis, rest2 with
                         | Some _, _ => None
                         | None, [] => Some (groups ++ [acc], Some (S (length groups)), [])
                         | None, _ => ipv6_groups room (groups ++ [acc]) (Some (S (length groups))) rest2
                         end
                       else ipv6_groups room (groups ++ [acc]) ellipsis rest
                   end
          end
      end
  end.
Definition expand_ellipsis (groups : list Z) (ellipsis : option nat) : option (list Z) :=
  match ellipsis with
  | None => if (length groups =? 8)%nat then Some groups else None
  | Some e => if (length groups <? 8)%nat then Some (take e groups ++ replicate (8 - length groups) 0 ++ drop e groups) else None
  end.
Definition parseIPv6 (s : bytes) : option (list Z) :=
  let (ellipsis, s) := match s with
                       | c :: d :: r => if (code c =? 58) && (code d =? 58) then (Some O, r) else (None, s)
                       | _ => (None, s)
                       end in
  match ellipsis, s with
  | Some _, [] => Some (replicate 8 0)
  | _, _ => match ipv6_groups 8 [] ellipsis s with
            | Some (groups, ellipsis, []) => expand_ellipsis groups ellipsis
            | _ => None
            end
  end.
Definition mapped (octets : list Z) : option (list Z) :=
  match octets with [a; b; c; d] => Some [0; 0; 0; 0; 0; 65535; a * 256 + b; c * 256 + d] | _ => None end.
(** An address with a zone is none of [net]'s. *)
Definition ParseIP (s : string) : option (list Z) :=
  let l := to_bytes s in
  if existsb (fun c => code c =? 37) l then None
  else match List.find (fun c => (code c =? 46) || (code c =? 58)) l with
       | Some c => if code c =? 46 then ipv4_fields 0 0 [] l ≫= mapped else parseIPv6 l
       | None => None
       end.

(** ** net.IP.String *)
Definition hex_digit (z : Z) : ascii := chr (if z <? 10 then 48 + z else 87 + z).
Definition hex_text (z : Z) : string := of_bytes (
  (if 4096 <=? z then [hex_digit (z / 4096)] else []) ++ (if 256 <=? z then [hex_digit (z / 256 mod 16)] else []) ++
  (if 16 <=? z then [hex_digit (z / 16 mod 16)] else []) ++ [hex_digit (z mod 16)]).
Fixpoint zero_run (groups : list Z) : nat := match groups with 0 :: r => S (zero_run r) | _ => O end.
(** The first longest run of at least two zero groups: its start and length. *)
Definition longest_zero_run (groups : list Z) : nat * nat :=
  foldl (fun best i => let l := zero_run (drop i groups) in if (2 <=? l)%nat && (best.2 <? l)%nat then (i, l) else best)
    (O, O) (seq 0 (length groups)).
Definition IPString (groups : list Z) : string :=
  match groups with
  | [0; 0; 0; 0; 0; 65535; ab; cd] =>
      Join (map FormatInt [ab / 256; ab mod 256; cd / 256; cd mod 256]) "."
  | _ =>
      let (start, l) := longest_zero_run groups in
      if (l =? 0)%nat then Join (map hex_text groups) ":"
      else (Join (map hex_text (take start groups)) ":" ++ "::" ++ Join (map hex_text (drop (start + l) groups)) ":")%string
  end.
