(* ===== verification/Catalog.v ===== *)
(** * The service catalogue ([src/internal/servicecatalog/catalog.go])

    Classifying a host by the rules of the operator, then by those of the
    embedded dataset, with the reader of the dataset's text. *)
From S2P Require Import Prelude GoStrings GoNet.

#[local] Open Scope Z_scope.

Definition SourceOverride : string := "override".
Definition SourceCatalog : string := "catalog".
Definition SourcePublicSuffix : string := "publicsuffix".
Definition SourceIP : string := "ip".
Definition SourceUnknown : string := "unknown".
Definition CategoryDirectIP : string := "direct-ip".
Definition CategoryUnclassified : string := "unclassified".
Definition CategoryUnknown : string := "unknown".
Definition CategoryCustom : string := "custom".
Definition ServiceUnknown : string := "unknown".

Record Classification := { cl_Service : string; cl_Label : string; cl_Category : string; cl_Source : string }.
Record Override := { ov_Suffix : string; ov_Service : string; ov_Label : string; ov_Category : string }.
Record entry := { en_service : string; en_label : string; en_category : string }.
Record Catalog := {
  ca_version : string; ca_source : string;
  ca_suffixes : gmap string entry; ca_exacts : gmap string entry; ca_overrides : gmap string entry
}.
Definition classification (e : entry) (source : string) : Classification :=
  {| cl_Service := en_service e; cl_Label := en_label e; cl_Category := en_category e; cl_Source := source |}.

(** ** Lookup *)
(** lookupSuffix; every round drops at least one byte. *)
Fixpoint lookup_from (fuel : nat) {A} (rules : gmap string A) (candidate : string) : option A :=
  match fuel with
  | O => None
  | S fuel =>
      if (candidate =? "")%string then None
      else match rules !! candidate with
           | Some found => Some found
           | None => match IndexByte candidate "." with
                     | Some idx => lookup_from fuel rules (str_drop (S idx) candidate)
                     | None => None
                     end
           end
  end.
Definition lookupSuffix {A} (rules : gmap string A) (name : string) : option A := lookup_from (S (String.length name)) rules name.

Definition is_dot (c : ascii) : bool := code c =? 46.
Definition normalizeHost `{UnicodeTables} (host : string) : string :=
  let name := TrimSpace host in
  let n := String.length name in
  let name := if (1 <? n)%nat && bool_decide (head (to_bytes name) = Some "["%char) && bool_decide (last_byte name = Some "]"%char)
              then str_take (n - 2) (str_drop 1 name) else name in
  ToLower (Trim name is_dot).

Section classify.
Context `{UnicodeTables}.
(** publicsuffix.EffectiveTLDPlusOne, [None] for an error *)
Variable EffectiveTLDPlusOne : string -> option string.
(** One iteration of WithOverrides. *)
Definition add_override (rules : gmap string entry) (o : Override) : gmap string entry :=
  let suffix := normalizeHost (ov_Suffix o) in
  let service := TrimSpace (ov_Service o) in
  if (suffix =? "")%string || (service =? "")%string then rules
  else let label := TrimSpace (ov_Label o) in
       let category := TrimSpace (ov_Category o) in
       <[suffix := {| en_service := service; en_label := if (label =? "")%string then service else label;
                      en_category := if (category =? "")%string then CategoryCustom else category |}]> rules.
Definition WithOverrides (c : Catalog) (overrides : list Override) : Catalog :=
  let normalized := foldl add_override ∅ overrides in
  if decide (normalized = ∅) then c
  else {| ca_version := ca_version c; ca_source := ca_source c; ca_suffixes := ca_suffixes c; ca_exacts := ca_exacts c; ca_overrides := normalized |}.
Definition Classify (c : Catalog) (host : string) : Classification :=
  let name := normalizeHost host in
  if (name =? "")%string
  then {| cl_Service := ServiceUnknown; cl_Label := "Unknown"; cl_Category := CategoryUnknown; cl_Source := SourceUnknown |}
  else match ParseIP name with
  | Some ip => {| cl_Service := IPString ip; cl_Label := IPString ip; cl_Category := CategoryDirectIP; cl_Source := SourceIP |}
  | None =>
      match lookupSuffix (ca_overrides c) name with
      | Some found => classification found SourceOverride
      | None =>
          match ca_exacts c !! name with
          | Some found => classification found SourceCatalog
          | None =>
              match lookupSuffix (ca_suffixes c) name with
              | Some found => classification found SourceCatalog
              | None =>
                  let unclassified service source :=
                    {| cl_Service := service; cl_Label := service; cl_Category := CategoryUnclassified; cl_Source := source |} in
                  match EffectiveTLDPlusOne name with
                  | Some etld1 => if (etld1 =? "")%string then unclassified name SourceUnknown else unclassified etld1 SourcePublicSuffix
                  | None => unclassified name SourceUnknown
                  end
              end
          end
      end
  end.
End classify.

(** ** The dataset *)
Inductive ParseError :=
| MissingTab (line : nat) | MalformedService (line : nat) | RuleBeforeService (line : nat) | EmptyDomain (line : nat)
| UnknownKind (line : nat) (kind : string) | MissingVersion | NoRules.
(** The catalogue read so far and the service the rules belong to. *)
Record reading := { rd_catalog : Catalog; rd_current : option entry }.
Definition no_catalog : Catalog := {| ca_version := ""; ca_source := ""; ca_suffixes := ∅; ca_exacts := ∅; ca_overrides := ∅ |}.
Definition set_header (c : Catalog) (key value : string) : Catalog := {|
  ca_version := if (key =? "version")%string then value else ca_version c;
  ca_source := if (key =? "source")%string then value else ca_source c;
  ca_suffixes := ca_suffixes c; ca_exacts := ca_exacts c; ca_overrides := ca_overrides c |}.
Definition set_suffix (c : Catalog) (domain : string) (e : entry) : Catalog := {|
  ca_version := ca_version c; ca_source := ca_source c; ca_suffixes := <[domain := e]> (ca_suffixes c);
  ca_exacts := ca_exacts c; ca_overrides := ca_overrides c |}.
Definition set_exact (c : Catalog) (domain : string) (e : entry) : Catalog := {|
  ca_version := ca_version c; ca_source := ca_source c; ca_suffixes := ca_suffixes c;
  ca_exacts := <[domain := e]> (ca_exacts c); ca_overrides := ca_overrides c |}.
Definition tab : ascii := "009".
Definition newline : ascii := "010".
Definition parse_line (lineNo : nat) (line : string) (st : reading) : result ParseError reading :=
  let line := TrimRight line (fun c => code c =? 13) in
  let c := rd_catalog st in
  if (line =? "")%string || HasPrefix line "#" then Ok st
  else if HasPrefix line "!" then
    let (key, value) := Cut (TrimPrefix line "!") tab in
    Ok {| rd_catalog := set_header c key (default ""%string value); rd_current := rd_current st |}
  else match Cut line tab with
  | (_, None) => Err (MissingTab (S lineNo))
  | (kind, Some rest) =>
      if (kind =? "S")%string then
        match Split rest tab with
        | [service; label; category] =>
            if (service =? "")%string then Err (MalformedService (S lineNo))
            else Ok {| rd_catalog := c; rd_current := Some {| en_service := service; en_label := label; en_category := category |} |}
        | _ => Err (MalformedService (S lineNo))
        end
      else if (kind =? "D")%string || (kind =? "F")%string then
        match rd_current st with
        | None => Err (RuleBeforeService (S lineNo))
        | Some current =>
            if (rest =? "")%string then Err (EmptyDomain (S lineNo))
            else Ok {| rd_catalog := if (kind =? "D")%string then set_suffix c rest current else set_exact c rest current;
                       rd_current := rd_current st |}
        end
      else Err (UnknownKind (S lineNo) kind)
  end.
Fixpoint parse_lines (lineNo : nat) (lines : list string) (st : reading) : result ParseError reading :=
  match lines with
  | [] => Ok st
  | line :: rest => let? st := parse_line lineNo line st in parse_lines (S lineNo) rest st
  end.
Definition parse (text : string) : result ParseError Catalog :=
  let? st := parse_lines 0 (Split text newline) {| rd_catalog := no_catalog; rd_current := None |} in
  let c := rd_catalog st in
  guard! negb (ca_version c =? "")%string else MissingVersion;
  guard! negb (size (ca_suffixes c) + size (ca_exacts c) =? 0)%nat else NoRules;
  Ok c.
