(* ===== verification/CatalogGen.v ===== *)
(** * The generator of the service catalogue ([src/internal/servicecatalog/gen/main.go])

    From the upstream lists to the text of the dataset: expanding each list of
    the allowlist with the lists it includes, giving every domain to the first
    service that has it, dropping what a broader rule covers, and writing the
    rest.  Fetching the lists and writing the file are left out. *)
From S2P Require Import Prelude GoStrings GoNet Catalog.

#[local] Open Scope Z_scope.

Record serviceSpec := { sp_List : string; sp_Key : string; sp_Label : string; sp_Category : string }.
Definition spec_of (list key label category : string) : serviceSpec :=
  {| sp_List := list; sp_Key := key; sp_Label := label; sp_Category := category |}.
Definition allowlist : list serviceSpec := [
  spec_of "youtube" "youtube" "YouTube" "video"; spec_of "google-play" "google-play" "Google Play" "platform";
  spec_of "google-scholar" "google-scholar" "Google Scholar" "education"; spec_of "android" "android" "Android" "platform";
  spec_of "blogspot" "blogspot" "Blogger" "social"; spec_of "firebase" "firebase" "Firebase" "developer";
  spec_of "google" "google" "Google" "search"; spec_of "github" "github" "GitHub" "developer"; spec_of "bing" "bing" "Bing" "search";
  spec_of "onedrive" "onedrive" "OneDrive" "storage"; spec_of "xbox" "xbox" "Xbox" "gaming"; spec_of "azure" "azure" "Azure" "cloud";
  spec_of "msn" "msn" "MSN" "news"; spec_of "microsoft" "microsoft" "Microsoft" "productivity"; spec_of "icloud" "icloud" "iCloud" "storage";
  spec_of "apple-music" "apple-music" "Apple Music" "music"; spec_of "apple-tvplus" "apple-tv" "Apple TV+" "video";
  spec_of "apple-podcasts" "apple-podcasts" "Apple Podcasts" "music"; spec_of "itunes" "itunes" "iTunes" "music";
  spec_of "apple" "apple" "Apple" "platform"; spec_of "primevideo" "prime-video" "Prime Video" "video"; spec_of "imdb" "imdb" "IMDb" "reference";
  spec_of "kindle" "kindle" "Kindle" "reference"; spec_of "aws" "aws" "AWS" "cloud"; spec_of "amazon" "amazon" "Amazon" "shopping";
  spec_of "instagram" "instagram" "Instagram" "social"; spec_of "whatsapp" "whatsapp" "WhatsApp" "messaging";
  spec_of "messenger" "messenger" "Messenger" "messaging"; spec_of "threads" "threads" "Threads" "social";
  spec_of "oculus" "oculus" "Meta Quest" "gaming"; spec_of "facebook" "facebook" "Facebook" "social"; spec_of "meta" "meta" "Meta" "social";
  spec_of "twitter" "twitter" "X (Twitter)" "social"; spec_of "tiktok" "tiktok" "TikTok" "social"; spec_of "reddit" "reddit" "Reddit" "social";
  spec_of "linkedin" "linkedin" "LinkedIn" "social"; spec_of "pinterest" "pinterest" "Pinterest" "social";
  spec_of "tumblr" "tumblr" "Tumblr" "social"; spec_of "bluesky" "bluesky" "Bluesky" "social"; spec_of "quora" "quora" "Quora" "social";
  spec_of "medium" "medium" "Medium" "news"; spec_of "vk" "vk" "VK" "social"; spec_of "zhihu" "zhihu" "Zhihu" "social";
  spec_of "douban" "douban" "Douban" "social"; spec_of "sina" "sina" "Sina Weibo" "social"; spec_of "imgur" "imgur" "Imgur" "social";
  spec_of "flickr" "flickr" "Flickr" "social"; spec_of "dribbble" "dribbble" "Dribbble" "social";
  spec_of "deviantart" "deviantart" "DeviantArt" "social"; spec_of "pixiv" "pixiv" "pixiv" "social";
  spec_of "telegram" "telegram" "Telegram" "messaging"; spec_of "signal" "signal" "Signal" "messaging";
  spec_of "discord" "discord" "Discord" "messaging"; spec_of "line" "line" "LINE" "messaging"; spec_of "viber" "viber" "Viber" "messaging";
  spec_of "kakao" "kakao" "KakaoTalk" "messaging"; spec_of "slack" "slack" "Slack" "productivity"; spec_of "zoom" "zoom" "Zoom" "productivity";
  spec_of "webex" "webex" "Webex" "productivity"; spec_of "teamviewer" "teamviewer" "TeamViewer" "productivity";
  spec_of "netflix" "netflix" "Netflix" "video"; spec_of "disney" "disney" "Disney+" "video"; spec_of "hulu" "hulu" "Hulu" "video";
  spec_of "hbo" "hbo" "HBO Max" "video"; spec_of "twitch" "twitch" "Twitch" "video"; spec_of "vimeo" "vimeo" "Vimeo" "video";
  spec_of "dailymotion" "dailymotion" "Dailymotion" "video"; spec_of "bilibili" "bilibili" "Bilibili" "video";
  spec_of "iqiyi" "iqiyi" "iQIYI" "video"; spec_of "youku" "youku" "Youku" "video"; spec_of "niconico" "niconico" "Niconico" "video";
  spec_of "plex" "plex" "Plex" "video"; spec_of "spotify" "spotify" "Spotify" "music"; spec_of "soundcloud" "soundcloud" "SoundCloud" "music";
  spec_of "steam" "steam" "Steam" "gaming"; spec_of "epicgames" "epic-games" "Epic Games" "gaming"; spec_of "ea" "ea" "EA" "gaming";
  spec_of "ubisoft" "ubisoft" "Ubisoft" "gaming"; spec_of "roblox" "roblox" "Roblox" "gaming"; spec_of "nintendo" "nintendo" "Nintendo" "gaming";
  spec_of "playstation" "playstation" "PlayStation" "gaming"; spec_of "gog" "gog" "GOG" "gaming"; spec_of "openai" "openai" "OpenAI" "ai";
  spec_of "anthropic" "anthropic" "Anthropic" "ai"; spec_of "huggingface" "huggingface" "Hugging Face" "ai";
  spec_of "perplexity" "perplexity" "Perplexity" "ai"; spec_of "gitlab" "gitlab" "GitLab" "developer";
  spec_of "codeberg" "codeberg" "Codeberg" "developer"; spec_of "sourceforge" "sourceforge" "SourceForge" "developer";
  spec_of "stackexchange" "stackexchange" "Stack Exchange" "developer"; spec_of "docker" "docker" "Docker" "developer";
  spec_of "jetbrains" "jetbrains" "JetBrains" "developer"; spec_of "unity" "unity" "Unity" "developer"; spec_of "heroku" "heroku" "Heroku" "cloud";
  spec_of "vercel" "vercel" "Vercel" "cloud"; spec_of "netlify" "netlify" "Netlify" "cloud";
  spec_of "digitalocean" "digitalocean" "DigitalOcean" "cloud"; spec_of "vultr" "vultr" "Vultr" "cloud"; spec_of "oracle" "oracle" "Oracle" "cloud";
  spec_of "ibm" "ibm" "IBM" "cloud"; spec_of "salesforce" "salesforce" "Salesforce" "productivity";
  spec_of "atlassian" "atlassian" "Atlassian" "productivity"; spec_of "cloudflare" "cloudflare" "Cloudflare" "cdn";
  spec_of "akamai" "akamai" "Akamai" "cdn"; spec_of "fastly" "fastly" "Fastly" "cdn"; spec_of "jsdelivr" "jsdelivr" "jsDelivr" "cdn";
  spec_of "notion" "notion" "Notion" "productivity"; spec_of "figma" "figma" "Figma" "productivity"; spec_of "canva" "canva" "Canva" "productivity";
  spec_of "adobe" "adobe" "Adobe" "productivity"; spec_of "autodesk" "autodesk" "Autodesk" "productivity";
  spec_of "zoho" "zoho" "Zoho" "productivity"; spec_of "dropbox" "dropbox" "Dropbox" "storage"; spec_of "mega" "mega" "MEGA" "storage";
  spec_of "protonmail" "proton" "Proton" "email"; spec_of "tutanota" "tutanota" "Tuta" "email"; spec_of "paypal" "paypal" "PayPal" "finance";
  spec_of "stripe" "stripe" "Stripe" "finance"; spec_of "visa" "visa" "Visa" "finance"; spec_of "mastercard" "mastercard" "Mastercard" "finance";
  spec_of "wise" "wise" "Wise" "finance"; spec_of "binance" "binance" "Binance" "finance"; spec_of "kraken" "kraken" "Kraken" "finance";
  spec_of "ebay" "ebay" "eBay" "shopping"; spec_of "shopify" "shopify" "Shopify" "shopping"; spec_of "shopee" "shopee" "Shopee" "shopping";
  spec_of "walmart" "walmart" "Walmart" "shopping"; spec_of "target" "target" "Target" "shopping"; spec_of "bestbuy" "bestbuy" "Best Buy" "shopping";
  spec_of "jd" "jd" "JD.com" "shopping"; spec_of "alibaba" "alibaba" "Alibaba" "shopping"; spec_of "booking" "booking" "Booking.com" "travel";
  spec_of "airbnb" "airbnb" "Airbnb" "travel"; spec_of "uber" "uber" "Uber" "travel"; spec_of "nytimes" "nytimes" "The New York Times" "news";
  spec_of "bbc" "bbc" "BBC" "news"; spec_of "cnn" "cnn" "CNN" "news"; spec_of "reuters" "reuters" "Reuters" "news";
  spec_of "bloomberg" "bloomberg" "Bloomberg" "news"; spec_of "wsj" "wsj" "The Wall Street Journal" "news";
  spec_of "economist" "economist" "The Economist" "news"; spec_of "wikimedia" "wikimedia" "Wikipedia" "reference";
  spec_of "archive" "archive" "Internet Archive" "reference"; spec_of "coursera" "coursera" "Coursera" "education";
  spec_of "udemy" "udemy" "Udemy" "education"; spec_of "edx" "edx" "edX" "education"; spec_of "khanacademy" "khanacademy" "Khan Academy" "education";
  spec_of "duolingo" "duolingo" "Duolingo" "education"; spec_of "skillshare" "skillshare" "Skillshare" "education";
  spec_of "tailscale" "tailscale" "Tailscale" "security"; spec_of "bitwarden" "bitwarden" "Bitwarden" "security";
  spec_of "lastpass" "lastpass" "LastPass" "security"; spec_of "speedtest" "speedtest" "Speedtest" "diagnostics";
  spec_of "tencent" "tencent" "Tencent" "platform"; spec_of "category-ads-all" "ads" "Ads and tracking" "ads";
  spec_of "category-porn" "adult" "Adult" "adult"
]%string.
Record service := { sv_Spec : serviceSpec; sv_Suffixes : list string; sv_Exacts : list string }.

(** The upstream lists: their lines by name. *)
Abbreviation upstream := (gmap string (list string)).

(** ** One line of an upstream list *)
Inductive rule := RuleInclude (list : string) | RuleSuffix (domain : string) | RuleExact (domain : string).
Definition domain_byte (c : ascii) : bool :=
  let z := code c in ((97 <=? z) && (z <=? 122)) || ((48 <=? z) && (z <=? 57)) || (z =? 45) || (z =? 95).
Definition validDomain (domain : string) : bool :=
  negb (domain =? "")%string && contains_byte (to_bytes domain) "." &&
  forallb (fun label => negb (label =? "")%string && forallb domain_byte (to_bytes label)) (Split domain ".").
Section gen.
Context `{UnicodeTables}.
Definition parseRule (line : string) : option rule :=
  let line := match IndexByte line "#" with Some idx => str_take idx line | None => line end in
  let line := TrimSpace line in
  if (line =? "")%string then None
  else
    let value := first_field line in
    let domain (mk : string -> rule) (value : string) :=
      let value := ToLower (Trim value is_dot) in
      if validDomain value then Some (mk value) else None in
    match Cut value ":" with
    | (prefix, Some rest) =>
        if (prefix =? "include")%string then (if (rest =? "")%string then None else Some (RuleInclude rest))
        else if (prefix =? "full")%string then domain RuleExact rest
        else if (prefix =? "domain")%string then domain RuleSuffix rest
        else None
    | (_, None) => domain RuleSuffix value
    end.

(** ** Expanding a list *)
Inductive GenError := ListNotFound (list : string) | DuplicateKey (key : string) | NoContribution (keys : list string) | TooDeep.
(** visited, suffixes, exacts *)
Record walked := { wk_visited : gset string; wk_suffixes : list string; wk_exacts : list string }.
Definition visit_list (list : string) (st : walked) : walked :=
  {| wk_visited := {[list]} ∪ wk_visited st; wk_suffixes := wk_suffixes st; wk_exacts := wk_exacts st |}.
Definition yield_suffix (domain : string) (st : walked) : walked :=
  {| wk_visited := wk_visited st; wk_suffixes := wk_suffixes st ++ [domain]; wk_exacts := wk_exacts st |}.
Definition yield_exact (domain : string) (st : walked) : walked :=
  {| wk_visited := wk_visited st; wk_suffixes := wk_suffixes st; wk_exacts := wk_exacts st ++ [domain] |}.
Section walk_lines.
Variable walk : string -> walked -> result GenError walked.
Fixpoint walk_lines (lines : list string) (st : walked) : result GenError walked :=
  match lines with
  | [] => Ok st
  | line :: lines =>
      let? st := (match parseRule line with
                  | None => Ok st
                  | Some (RuleInclude list) => walk list st
                  | Some (RuleSuffix domain) => Ok (yield_suffix domain st)
                  | Some (RuleExact domain) => Ok (yield_exact domain st)
                  end) in
      walk_lines lines st
  end.
End walk_lines.
Fixpoint walk (fuel : nat) (lists : upstream) (list : string) (st : walked) : result GenError walked :=
  match fuel with
  | O => Err TooDeep
  | S fuel =>
      if decide (list ∈ wk_visited st) then Ok st
      else match lists !! list with
           | None => Err (ListNotFound list)
           | Some lines => walk_lines (walk fuel lists) lines (visit_list list st)
           end
  end.
(** Each call but the last visits a list that was not visited before. *)
Definition walk_depth (lists : upstream) : nat := S (size lists).
Definition expand (lists : upstream) (name : string) : result GenError (list string * list string) :=
  let? st := walk (walk_depth lists) lists name {| wk_visited := ∅; wk_suffixes := []; wk_exacts := [] |} in
  Ok (wk_suffixes st, wk_exacts st).

(** ** Claiming domains *)
Definition parent (domain : string) : string :=
  match IndexByte domain "." with Some idx => str_drop (S idx) domain | None => ""%string end.
(** Every round drops at least one byte. *)
Fixpoint nearest_from (fuel : nat) (domain : string) (owner : gmap string string) : string :=
  match fuel with
  | O => ""%string
  | S fuel =>
      if (domain =? "")%string then ""%string
      else match owner !! domain with Some key => key | None => nearest_from fuel (parent domain) owner end
  end.
Definition nearestOwner (domain : string) (owner : gmap string string) : string := nearest_from (S (String.length domain)) domain owner.
(** The loop over the domains of one service: who owns what, and what is new. *)
Fixpoint claim (key : string) (domains : list string) (owner : gmap string string) : gmap string string * list string :=
  match domains with
  | [] => (owner, [])
  | domain :: rest =>
      if decide (is_Some (owner !! domain)) then claim key rest owner
      else let (owner, new) := claim key rest (<[domain := key]> owner) in (owner, domain :: new)
  end.
Record claims := { cm_suffixOwner : gmap string string; cm_exactOwner : gmap string string; cm_seenKeys : gset string; cm_collected : list service }.
Definition claim_spec (lists : upstream) (st : claims) (spec : serviceSpec) : result GenError claims :=
  guard! negb (bool_decide (sp_Key spec ∈ cm_seenKeys st)) else (DuplicateKey (sp_Key spec));
  let? (suffixes, exacts) := expand lists (sp_List spec) in
  let (suffixOwner, new_suffixes) := claim (sp_Key spec) suffixes (cm_suffixOwner st) in
  let (exactOwner, new_exacts) := claim (sp_Key spec) exacts (cm_exactOwner st) in
  Ok {| cm_suffixOwner := suffixOwner; cm_exactOwner := exactOwner; cm_seenKeys := {[sp_Key spec]} ∪ cm_seenKeys st;
        cm_collected := cm_collected st ++ [{| sv_Spec := spec; sv_Suffixes := new_suffixes; sv_Exacts := new_exacts |}] |}.
Fixpoint claim_specs (lists : upstream) (specs : list serviceSpec) (st : claims) : result GenError claims :=
  match specs with
  | [] => Ok st
  | spec :: specs => let? st := claim_spec lists st spec in claim_specs lists specs st
  end.
Definition pruneSuffixes (key : string) (domains : list string) (owner : gmap string string) : list string :=
  List.filter (fun domain => negb (nearestOwner (parent domain) owner =? key)%string) domains.
Definition pruneExacts (key : string) (domains : list string) (owner : gmap string string) : list string :=
  List.filter (fun domain => negb (nearestOwner domain owner =? key)%string) domains.
Definition text_order (a b : string) : Prop := String.leb a b = true.
#[export] Instance text_order_dec a b : Decision (text_order a b).
Proof. unfold text_order. apply _. Defined.
(** sort.Strings *)
Definition sorted : list string -> list string := merge_sort text_order.
Definition prune (owner : gmap string string) (svc : service) : service := {|
  sv_Spec := sv_Spec svc;
  sv_Suffixes := sorted (pruneSuffixes (sp_Key (sv_Spec svc)) (sv_Suffixes svc) owner);
  sv_Exacts := sorted (pruneExacts (sp_Key (sv_Spec svc)) (sv_Exacts svc) owner) |}.
Definition is_empty (svc : service) : bool := (length (sv_Suffixes svc) + length (sv_Exacts svc) =? 0)%nat.
Definition no_claims : claims := {| cm_suffixOwner := ∅; cm_exactOwner := ∅; cm_seenKeys := ∅; cm_collected := [] |}.
Definition build (allowlist : list serviceSpec) (lists : upstream) : result GenError (list service) :=
  let? st := claim_specs lists allowlist no_claims in
  let pruned := map (prune (cm_suffixOwner st)) (cm_collected st) in
  match List.filter is_empty pruned with
  | [] => Ok pruned
  | empty => Err (NoContribution (map (fun svc => sp_Key (sv_Spec svc)) empty))
  end.
End gen.

(** ** The text *)
Definition tabbed (fields : list string) : string := Join fields (String tab "").
Definition block (svc : service) : list string :=
  tabbed ["S"; sp_Key (sv_Spec svc); sp_Label (sv_Spec svc); sp_Category (sv_Spec svc)]%string ::
  map (fun domain => tabbed ["D"; domain]%string) (sv_Suffixes svc) ++ map (fun domain => tabbed ["F"; domain]%string) (sv_Exacts svc).
Definition header (version origin : string) (catalog : list service) : list string := [
  "# BoxFleet service catalog. Generated by internal/servicecatalog/gen — do not edit by hand.";
  "# Upstream data is MIT licensed; see gen/README.md for the regeneration procedure.";
  "# S<TAB>key<TAB>label<TAB>category starts a service block; D suffix rules and F exact";
  "# rules that follow belong to it.";
  tabbed ["!version"; version]; tabbed ["!source"; origin];
  tabbed ["!services"; FormatInt (Z.of_nat (length catalog))];
  tabbed ["!rules"; FormatInt (Z.of_nat (list_sum (map (fun svc => length (sv_Suffixes svc) + length (sv_Exacts svc))%nat catalog)))]
]%string.
(** Every line ends with a newline. *)
Definition write (version origin : string) (catalog : list service) : string :=
  Join (header version origin catalog ++ List.concat (map block catalog) ++ [""%string]) (String newline "").
