(* ===== verification/CatalogLookup.v ===== *)
(** * What a lookup in the catalogue finds ([Catalog])

    [covers]: a rule for a host is one for the host itself or for a domain it
    lies in.  [lookupSuffix] finds the longest rule that covers the host, and
    leaving out a rule whose answer the next longer rule gives as well changes
    nothing. *)
From S2P Require Import Prelude GoStrings GoNet Catalog CatalogGen.

#[local] Open Scope Z_scope.

(** ** Domains and their parents *)
Lemma index_byte_spec c l i : index_byte c l = Some i -> l = take i l ++ c :: drop (S i) l /\ c ∉ take i l.
Proof.
  revert i. induction l as [|d l IH]; intros i; cbn; [done|]. destruct (decide (d = c)) as [->|Hd].
  - intros [= <-]. cbn. split; [done|by apply not_elem_of_nil].
  - destruct (index_byte c l) as [j|]; [|done]. intros [= <-]. destruct (IH j eq_refl) as [E Hn]. cbn. split; [by f_equal|].
    apply not_elem_of_cons. by split.
Qed.
Lemma index_byte_none c l : index_byte c l = None -> c ∉ l.
Proof.
  induction l as [|d l IH]; cbn; [by intros _ ?%elem_of_nil|]. destruct (decide (d = c)); [done|].
  destruct (index_byte c l); [done|]. intros _. apply not_elem_of_cons. split; [done|by apply IH].
Qed.
Lemma index_byte_app c l1 l2 : c ∉ l1 -> index_byte c (l1 ++ c :: l2) = Some (length l1).
Proof.
  induction l1 as [|d l IH]; cbn; [by rewrite decide_True|]. intros [Hd Hl]%not_elem_of_cons. rewrite decide_False by done. by rewrite IH.
Qed.
Lemma parent_dot p k : "."%char ∉ to_bytes p -> parent (p ++ String "." k) = k.
Proof.
  intros Hp. unfold parent, IndexByte. rewrite to_bytes_app. change (to_bytes (String "." k)) with ("."%char :: to_bytes k).
  rewrite index_byte_app, to_bytes_length by done. apply str_drop_app.
Qed.
(** A name is its own parent's child, or has no parent. *)
Lemma parent_cases name : (exists p, name = (p ++ String "." (parent name))%string /\ "."%char ∉ to_bytes p) \/
  ("."%char ∉ to_bytes name /\ parent name = ""%string).
Proof.
  unfold parent, IndexByte. destruct (index_byte "." (to_bytes name)) as [i|] eqn:E; [left|right; by apply index_byte_none in E].
  apply index_byte_spec in E as [E Hn]. exists (str_take i name). unfold str_take. rewrite to_of_bytes. split; [|done].
  apply (inj to_bytes). rewrite to_bytes_app, to_of_bytes. unfold str_drop. cbn [to_bytes].
  change (to_bytes (String "." (of_bytes (drop (S i) (to_bytes name))))) with ("."%char :: to_bytes (of_bytes (drop (S i) (to_bytes name)))).
  by rewrite to_of_bytes.
Qed.
Lemma parent_shorter name : name <> ""%string -> (String.length (parent name) < String.length name)%nat.
Proof.
  intros Hne. destruct (parent_cases name) as [(p & E & _)|[_ ->]].
  - rewrite E at 2. rewrite str_length_app. cbn. lia.
  - destruct name; [done|]. cbn. lia.
Qed.
(** Induction from a name to its parent. *)
Lemma parent_ind (P : string -> Prop) : P ""%string -> (forall name, name <> ""%string -> P (parent name) -> P name) -> forall name, P name.
Proof.
  intros H0 H name. induction name as [name IH] using (induction_ltof1 _ String.length). unfold ltof in IH.
  destruct (decide (name = ""%string)) as [->|Hne]; [done|]. apply H; [done|]. by apply IH, parent_shorter.
Qed.

(** ** The two lookups *)
Section lookup.
Context {A : Type}.
Implicit Types rules : gmap string A.
Lemma lookup_from_fuel f g rules name : (String.length name < f)%nat -> (String.length name < g)%nat -> lookup_from f rules name = lookup_from g rules name.
Proof.
  revert f g. induction name as [|name Hne IH] using parent_ind; intros [|f] [|g] Hf Hg; try lia; [done|]. cbn.
  destruct (name =? "")%string; [done|]. destruct (rules !! name); [done|]. pose proof (parent_shorter name Hne) as Hs.
  unfold parent in IH, Hs. destruct (IndexByte name "."); [|done]. apply IH; lia.
Qed.
Lemma lookupSuffix_unfold rules name : name <> ""%string ->
  lookupSuffix rules name = match rules !! name with Some found => Some found | None => lookupSuffix rules (parent name) end.
Proof.
  intros Hne. unfold lookupSuffix at 1. cbn [lookup_from]. rewrite (proj2 (String.eqb_neq _ _) Hne). destruct (rules !! name); [done|].
  pose proof (parent_shorter name Hne) as Hs. unfold parent in *. destruct (IndexByte name ".") as [i|]; [|done]. apply lookup_from_fuel; lia.
Qed.
Lemma lookupSuffix_empty rules : lookupSuffix rules "" = None.
Proof. done. Qed.

(** ** The longest rule *)
Definition covers (k name : string) : Prop := k <> ""%string /\ (k = name \/ exists p, name = (p ++ String "." k)%string).
Lemma first_dot p0 q p k : "."%char ∉ to_bytes p0 -> (p0 ++ String "." q)%string = (p ++ String "." k)%string ->
  k = q \/ exists p', q = (p' ++ String "." k)%string.
Proof.
  revert p. induction p0 as [|c p0 IH]; intros [|d p] Hp0; cbn.
  - intros [= <-]. by left.
  - intros [= <- ->]. right. by exists p.
  - intros [= -> _]. destruct Hp0. by left.
  - intros [= <- Hc]. apply not_elem_of_cons in Hp0 as [_ Hp0]. by apply (IH p).
Qed.
Lemma covers_parent k name : name <> ""%string -> (covers k name <-> k = name \/ covers k (parent name)).
Proof.
  intros Hne. unfold covers. split.
  - intros [Hk [->|[p E]]]; [by left|]. right. split; [done|]. destruct (parent_cases name) as [(p0 & E0 & Hp0)|[Hn _]].
    + apply (first_dot p0 _ p); [done|congruence].
    + destruct Hn. rewrite E, to_bytes_app. apply elem_of_app. right. left.
  - intros [->|[Hk [Hp|[p E]]]]; [by split; [|left]|..]; (split; [done|right]).
    + destruct (parent_cases name) as [(q & E & _)|[_ E]]; [|congruence]. exists q. by rewrite Hp.
    + destruct (parent_cases name) as [(q & E0 & _)|[_ E0]]; [|rewrite E0 in E; by destruct p].
      exists (q ++ String "." p)%string. rewrite E0 at 1. rewrite E at 1. by rewrite <- str_app_assoc.
Qed.
Lemma covers_length k name : covers k name -> k = name \/ (String.length k < String.length name)%nat.
Proof. intros [_ [->|[p ->]]]; [by left|right]. rewrite str_length_app. cbn. lia. Qed.
Lemma lookupSuffix_longest rules name e : lookupSuffix rules name = Some e <->
  exists k, covers k name /\ rules !! k = Some e /\ forall k', covers k' name -> is_Some (rules !! k') -> (String.length k' <= String.length k)%nat.
Proof.
  induction name as [|name Hne IH] using parent_ind.
  { split; [done|]. intros (k & [Hk [->|[p E]]] & _); [done|by destruct p]. }
  rewrite lookupSuffix_unfold by done. setoid_rewrite (fun k => covers_parent k name Hne). destruct (rules !! name) as [found|] eqn:E.
  - split.
    + intros [= ->]. exists name. split; [by left|]. split; [done|]. intros k' Hk' _. apply (covers_parent _ _ Hne) in Hk'.
      destruct (covers_length _ _ Hk') as [->|]; lia.
    + intros (k & Hk & He & Hmax). apply (covers_parent _ _ Hne) in Hk. destruct (covers_length _ _ Hk) as [->|Hlt]; [congruence|].
      specialize (Hmax name ltac:(by left) ltac:(by rewrite E)). lia.
  - rewrite IH. split.
    + intros (k & Hk & He & Hmax). exists k. split; [by right|]. split; [done|]. intros k' [->|Hk'] Hs; [by rewrite E in Hs; destruct Hs|by apply Hmax].
    + intros (k & [->|Hk] & He & Hmax); [congruence|]. exists k. split; [done|]. split; [done|]. intros k' Hk'. apply Hmax. by right.
Qed.
Lemma lookupSuffix_none rules name : lookupSuffix rules name = None <-> forall k, covers k name -> rules !! k = None.
Proof.
  induction name as [|name Hne IH] using parent_ind.
  { split; [|done]. intros _ k [Hk [->|[p E]]]; [done|by destruct p]. }
  rewrite lookupSuffix_unfold by done. setoid_rewrite (fun k => covers_parent k name Hne). destruct (rules !! name) eqn:E.
  - split; [done|]. intros H. specialize (H name (or_introl eq_refl)). congruence.
  - rewrite IH. split; [intros H k [->|Hk]; auto|auto].
Qed.

(** Leaving out rules that the rest of the table answers for. *)
Lemma lookup_pruned (full pruned : gmap string A) :
  (forall k, pruned !! k = full !! k \/ (pruned !! k = None /\ k <> ""%string /\ lookupSuffix full (parent k) = full !! k)) ->
  forall name, lookupSuffix pruned name = lookupSuffix full name.
Proof.
  intros H name. induction name as [|name Hne IH] using parent_ind; [done|].
  rewrite (lookupSuffix_unfold pruned), (lookupSuffix_unfold full) by done.
  destruct (H name) as [->|(-> & _ & E)]; [by rewrite IH|]. rewrite IH, E. destruct (full !! name); [done|]. congruence.
Qed.
End lookup.
Lemma lookupSuffix_fmap {A B} (f : A -> B) (rules : gmap string A) name : lookupSuffix (f <$> rules) name = f <$> lookupSuffix rules name.
Proof.
  induction name as [|name Hne IH] using parent_ind; [done|].
  rewrite (lookupSuffix_unfold (f <$> rules)), (lookupSuffix_unfold rules), lookup_fmap by done. by destruct (rules !! name).
Qed.
Lemma nearest_from_lookup f owner domain : nearest_from f domain owner = default ""%string (lookup_from f owner domain).
Proof.
  revert domain. induction f as [|f IH]; intros domain; [done|]. cbn. destruct (domain =? "")%string; [done|]. destruct (owner !! domain); [done|].
  rewrite IH. unfold parent. destruct (IndexByte domain "."); [done|]. by destruct f.
Qed.
Lemma nearestOwner_lookup owner domain : nearestOwner domain owner = default ""%string (lookupSuffix owner domain).
Proof. apply nearest_from_lookup. Qed.
