(* ===== verification/CatalogUpstream.v ===== *)
(** * From the upstream lists to the tables of the catalogue ([CatalogGen])

    [expand] is reachability over the [include:] lines, cycles or not; a domain
    belongs to the first service of the allowlist that reaches it; what pruning
    leaves answers like the whole. *)
From S2P Require Import Prelude GoStrings GoNet Catalog CatalogGen CatalogLookup.

#[local] Open Scope Z_scope.

Section upstream.
Context `{UnicodeTables}.

(** ** Expansion *)
Section lists.
Variable lists : upstream.
Definition has_rule (a : string) (r : rule) : Prop := exists lines line, lists !! a = Some lines /\ line ∈ lines /\ parseRule line = Some r.
Definition includes (a b : string) : Prop := has_rule a (RuleInclude b).
Definition settled (st : walked) (r : rule) : Prop :=
  match r with RuleInclude b => b ∈ wk_visited st | RuleSuffix d => d ∈ wk_suffixes st | RuleExact d => d ∈ wk_exacts st end.
Definition grows (st st' : walked) : Prop := forall r, settled st r -> settled st' r.
#[local] Instance grows_preorder : PreOrder grows.
Proof. unfold grows. split; [by intros st r|]. intros x y z Hxy Hyz r Hr. auto. Qed.
(** What a walk from [a] adds to [st]: lists that [a] leads to, with all their
    rules, and nothing that comes from elsewhere. *)
Record explored (a : string) (st st' : walked) : Prop := {
  xp_grows : grows st st';
  xp_lists : forall l, l ∈ wk_visited st' -> l ∈ wk_visited st \/
    (rtc includes a l /\ is_Some (lists !! l) /\ forall r, has_rule l r -> settled st' r);
  xp_suffixes : forall d, d ∈ wk_suffixes st' -> d ∈ wk_suffixes st \/ exists l, rtc includes a l /\ has_rule l (RuleSuffix d);
  xp_exacts : forall d, d ∈ wk_exacts st' -> d ∈ wk_exacts st \/ exists l, rtc includes a l /\ has_rule l (RuleExact d)
}.
Lemma explored_refl a st : explored a st st.
Proof. split; auto. reflexivity. Qed.
Lemma explored_trans a st1 st2 st3 : explored a st1 st2 -> explored a st2 st3 -> explored a st1 st3.
Proof.
  intros [G1 L1 S1 E1] [G2 L2 S2 E2]. split.
  - by transitivity st2.
  - intros l [Hl|Hl]%L2; [|by right]. destruct (L1 _ Hl) as [?|(Hr & Hs & Ha)]; [by left|right]. split; [done|]. split; [done|]. auto.
  - intros d [Hd|Hd]%S2; [by apply S1|by right].
  - intros d [Hd|Hd]%E2; [by apply E1|by right].
Qed.
Lemma explored_through a b st st' : includes a b -> explored b st st' -> explored a st st'.
Proof.
  intros Hab [G L Sx Ex]. split; [done|..].
  - intros l [Hv|(Hr & Hl)]%L; [by left|right]. split; [by eapply rtc_l|done].
  - intros d [Hv|(l & Hr & Hl)]%Sx; [by left|right]. exists l. split; [by eapply rtc_l|done].
  - intros d [Hv|(l & Hr & Hl)]%Ex; [by left|right]. exists l. split; [by eapply rtc_l|done].
Qed.
Lemma explored_suffix a st d : has_rule a (RuleSuffix d) -> explored a st (yield_suffix d st).
Proof.
  intros Hd. split; cbn.
  - intros [b|d'|d'] Hr; cbn in *; [done|apply elem_of_app; by left|done].
  - by left.
  - intros d' [?| ->%list_elem_of_singleton]%elem_of_app; [by left|right]. by exists a.
  - by left.
Qed.
Lemma explored_exact a st d : has_rule a (RuleExact d) -> explored a st (yield_exact d st).
Proof.
  intros Hd. split; cbn.
  - intros [b|d'|d'] Hr; cbn in *; [done|done|apply elem_of_app; by left].
  - by left.
  - by left.
  - intros d' [?| ->%list_elem_of_singleton]%elem_of_app; [by left|right]. by exists a.
Qed.
(** How a walk from [a] ends. *)
Definition ends (a : string) (st : walked) (done : walked -> Prop) (r : result GenError walked) : Prop :=
  match r with
  | Ok st' => explored a st st' /\ done st'
  | Err (ListNotFound l) => rtc includes a l /\ lists !! l = None
  | Err _ => False
  end.
Lemma ends_weaken a st (P Q : walked -> Prop) r : (forall st', P st' -> Q st') -> ends a st P r -> ends a st Q r.
Proof. intros HPQ. destruct r as [st'|[]]; cbn; try done. intros [Hx Hp]. auto. Qed.
Lemma walk_lines_ends (rec : string -> walked -> result GenError walked) a own lines st : lists !! a = Some own -> (forall line, line ∈ lines -> line ∈ own) ->
  (forall b st2, grows st st2 -> ends b st2 (fun st' => b ∈ wk_visited st') (rec b st2)) ->
  ends a st (fun st' => forall line r, line ∈ lines -> parseRule line = Some r -> settled st' r) (walk_lines rec lines st).
Proof.
  intros Ha. revert st. induction lines as [|line lines IH]; intros st Hown Hrec; cbn.
  { split; [apply explored_refl|]. by intros line r Hin%elem_of_nil. }
  assert (Hrule : forall r, parseRule line = Some r -> has_rule a r) by (intros r Hr; exists own, line; split; [done|]; split; [apply Hown; left|done]).
  assert (Hone : ends a st (fun st' => forall r, parseRule line = Some r -> settled st' r) (match parseRule line with
      | None => Ok st | Some (RuleInclude l) => rec l st | Some (RuleSuffix d) => Ok (yield_suffix d st) | Some (RuleExact d) => Ok (yield_exact d st) end)).
  { destruct (parseRule line) as [[b|d|d]|].
    - specialize (Hrec b st ltac:(reflexivity)). specialize (Hrule _ eq_refl). destruct (rec b st) as [st'|[]]; cbn in *; try done.
      + destruct Hrec as [Hx Hb]. split; [by eapply explored_through|]. by intros r [= <-].
      + destruct Hrec as [Hr Hl]. split; [by eapply rtc_l|done].
    - split; [by apply explored_suffix, Hrule|]. intros r [= <-]. cbn. apply elem_of_app. right. left.
    - split; [by apply explored_exact, Hrule|]. intros r [= <-]. cbn. apply elem_of_app. right. left.
    - split; [apply explored_refl|done]. }
  destruct (match parseRule line with None => _ | _ => _ end) as [st1|e]; [|by destruct e].
  destruct Hone as [Hx Hset]. specialize (IH st1 (fun l Hl => Hown l ltac:(by right))).
  assert (Hrec1 : forall b st2, grows st1 st2 -> ends b st2 (fun st' => b ∈ wk_visited st') (rec b st2)).
  { intros b st2 Hg. apply Hrec. etransitivity; [apply (xp_grows _ _ _ Hx)|done]. }
  specialize (IH Hrec1). destruct (walk_lines rec lines st1) as [st'|[]]; cbn in *; try done.
  destruct IH as [Hx1 Hset1]. split; [by eapply explored_trans|]. intros l r [->|Hl]%elem_of_cons Hr; [|by eapply Hset1].
  by apply (xp_grows _ _ _ Hx1), Hset.
Qed.
Lemma walk_ends fuel a st : (size (dom lists ∖ wk_visited st) < fuel)%nat ->
  ends a st (fun st' => a ∈ wk_visited st') (walk fuel lists a st).
Proof.
  revert a st. induction fuel as [|fuel IH]; intros a st Hf; [lia|]. cbn. destruct (decide (a ∈ wk_visited st)) as [Ha|Ha].
  { by split; [apply explored_refl|]. }
  destruct (lists !! a) as [own|] eqn:Eo; [|by split; [apply rtc_refl|]]. set (st1 := visit_list a st).
  assert (Hlt : (size (dom lists ∖ wk_visited st1) < size (dom lists ∖ wk_visited st))%nat).
  { apply subset_size. cbn. split; [set_solver|]. intros Hs. assert (a ∈ dom lists ∖ wk_visited st) by (apply elem_of_dom_2 in Eo; set_solver). set_solver. }
  pose proof (walk_lines_ends (walk fuel lists) a own own st1 Eo (fun _ Hl => Hl)) as Hl.
  assert (Hrec : forall b st2, grows st1 st2 -> ends b st2 (fun st' => b ∈ wk_visited st') (walk fuel lists b st2)).
  { intros b st2 Hg. apply IH. assert (Hsub : wk_visited st1 ⊆ wk_visited st2) by (intros l; apply (Hg (RuleInclude l))).
    assert ((size (dom lists ∖ wk_visited st2) <= size (dom lists ∖ wk_visited st1))%nat) by (apply subseteq_size; set_solver). lia. }
  specialize (Hl Hrec). destruct (walk_lines (walk fuel lists) own st1) as [st'|[]]; cbn in *; try done.
  destruct Hl as [[G L Sx Ex] Hset]. assert (Hin : a ∈ wk_visited st') by (apply (G (RuleInclude a)); cbn; set_solver).
  split; [|done]. split; [|..|exact Sx|exact Ex].
  - intros r Hr. apply G. destruct r; cbn in *; set_solver.
  - intros l Hl. destruct (decide (l = a)) as [->|Hne].
    + right. split; [apply rtc_refl|]. split; [by rewrite Eo|]. intros r (lines & line & El & Hin' & Hr). rewrite Eo in El. injection El as <-. by eapply Hset.
    + destruct (L _ Hl) as [Hv|]; [left; cbn in Hv; set_solver|by right].
Qed.

(** C25: expanding a list always ends, in spite of cycles of inclusions, and
    returns exactly the domains of the lists the given one leads to; it fails
    exactly where one of those is missing, with the name of such a list. *)
Theorem expand_is_reachability name : match expand lists name with
  | Ok (suffixes, exacts) => (forall l, rtc includes name l -> is_Some (lists !! l)) /\
      (forall d, d ∈ suffixes <-> exists l, rtc includes name l /\ has_rule l (RuleSuffix d)) /\
      (forall d, d ∈ exacts <-> exists l, rtc includes name l /\ has_rule l (RuleExact d))
  | Err (ListNotFound l) => rtc includes name l /\ lists !! l = None
  | Err _ => False
  end.
Proof.
  unfold expand. set (st0 := {| wk_visited := ∅; wk_suffixes := []; wk_exacts := [] |}).
  assert (Hlt : (size (dom lists ∖ wk_visited st0) < walk_depth lists)%nat).
  { change (wk_visited st0) with (∅ : gset string). rewrite difference_empty_L, size_dom. unfold walk_depth. lia. }
  pose proof (walk_ends (walk_depth lists) name st0 Hlt) as Hw. destruct (walk _ lists name st0) as [st|e]; cbn in *; [|done].
  destruct Hw as [[G L Sx Ex] Hin].
  assert (Hall : forall l, rtc includes name l -> l ∈ wk_visited st /\ is_Some (lists !! l) /\ forall r, has_rule l r -> settled st r).
  { refine (rtc_ind_r (fun l => l ∈ wk_visited st /\ is_Some (lists !! l) /\ forall r, has_rule l r -> settled st r) name _ _).
    - split; [done|]. destruct (L _ Hin) as [[]%elem_of_empty|(_ & Hs)]. done.
    - intros y z _ Hyz (_ & _ & Hy). specialize (Hy _ Hyz). cbn in Hy. split; [done|]. by destruct (L _ Hy) as [[]%elem_of_empty|(_ & Hs)]. }
  split; [intros l Hl; by apply Hall|]. split; intros d; split.
  - intros [Hd%elem_of_nil|]%Sx; done.
  - intros (l & Hl & Hr). by apply (Hall l Hl) in Hr.
  - intros [Hd%elem_of_nil|]%Ex; done.
  - intros (l & Hl & Hr). by apply (Hall l Hl) in Hr.
Qed.
End lists.

(** ** Rules carry domains *)
Lemma parseRule_valid line r : parseRule line = Some r -> match r with RuleInclude _ => True | RuleSuffix d | RuleExact d => validDomain d = true end.
Proof.
  unfold parseRule. destruct (_ =? "")%string; [done|]. destruct (Cut _ ":") as [prefix [rest|]].
  - destruct (_ =? "include")%string; [destruct (rest =? "")%string; by intros [= <-]|].
    destruct (_ =? "full")%string; [|destruct (_ =? "domain")%string; [|done]];
      match goal with |- context [if validDomain ?d then _ else _] => destruct (validDomain d) eqn:E end; by intros [= <-].
  - match goal with |- context [if validDomain ?d then _ else _] => destruct (validDomain d) eqn:E end; by intros [= <-].
Qed.

(** ** Who owns a domain *)
Section owners.
Variable lists : upstream.
(** The domains a service may claim: [fst] the suffixes, [snd] the exact names. *)
Definition yields (sel : list string * list string -> list string) (spec : serviceSpec) : list string :=
  match expand lists (sp_List spec) with Ok domains => sel domains | Err _ => [] end.
(** The tables the allowlist describes: the first service that yields a domain has it. *)
Definition claim_table (sel : list string * list string -> list string) (specs : list serviceSpec) : gmap string serviceSpec :=
  foldr (fun spec table => list_to_map (map (fun d => (d, spec)) (yields sel spec)) ∪ table) ∅ specs.

Lemma claimed_by (spec : serviceSpec) (ds : list string) d :
  (list_to_map (map (fun d => (d, spec)) ds) : gmap string serviceSpec) !! d = if decide (d ∈ ds) then Some spec else None.
Proof.
  induction ds as [|x ds IH]; cbn; [by rewrite lookup_empty|]. destruct (decide (d = x)) as [->|Hne].
  - rewrite lookup_insert_eq, decide_True by left. done.
  - rewrite lookup_insert_ne, IH by done. destruct (decide (d ∈ ds)); [by rewrite decide_True by by right|].
    rewrite decide_False; [done|]. by rewrite elem_of_cons; intros [].
Qed.
Lemma claim_table_cons sel s specs d : claim_table sel (s :: specs) !! d = if decide (d ∈ yields sel s) then Some s else claim_table sel specs !! d.
Proof.
  unfold claim_table. cbn [foldr]. rewrite lookup_union, claimed_by. destruct (decide (d ∈ yields sel s)); [|by rewrite (left_id_L None _)].
  by destruct (foldr _ _ _ !! d).
Qed.
Lemma claim_table_snoc sel specs spec d : claim_table sel (specs ++ [spec]) !! d =
  match claim_table sel specs !! d with Some owner => Some owner | None => if decide (d ∈ yields sel spec) then Some spec else None end.
Proof.
  induction specs as [|s specs IH]; cbn [app]; rewrite !claim_table_cons; [done|].
  rewrite IH. by destruct (decide (d ∈ yields sel s)).
Qed.
Lemma claim_table_owner sel specs d spec : claim_table sel specs !! d = Some spec -> spec ∈ specs /\ d ∈ yields sel spec.
Proof.
  induction specs as [|s specs IH]; [done|]. rewrite claim_table_cons. destruct (decide (d ∈ yields sel s)).
  - intros [= ->]. split; [left|done].
  - intros [? ?]%IH. split; [by right|done].
Qed.
(** One loop of [build]. *)
Lemma claim_spec' key ds owner : let (owner', new) := claim key ds owner in
  (forall d, owner' !! d = match owner !! d with Some k => Some k | None => if decide (d ∈ ds) then Some key else None end) /\
  (forall d, d ∈ new <-> owner !! d = None /\ d ∈ ds).
Proof.
  revert owner. induction ds as [|x ds IH]; intros owner; cbn.
  { split; [by intros d; destruct (owner !! d)|]. intros d. split; [by intros ?%elem_of_nil|by intros [_ ?]]. }
  destruct (decide (is_Some (owner !! x))) as [[k Hk]|Hn].
  - specialize (IH owner). destruct (claim key ds owner) as [owner' new]. destruct IH as [H1 H2]. split; intros d.
    + rewrite H1. destruct (owner !! d) eqn:E; [done|]. destruct (decide (d ∈ ds)); [by rewrite decide_True by by right|].
      rewrite decide_False; [done|]. rewrite elem_of_cons. intros [->|]; [congruence|done].
    + rewrite H2, elem_of_cons. split; [by intros [? ?]; auto|]. intros [E [->|]]; [congruence|done].
  - specialize (IH (<[x := key]> owner)). destruct (claim key ds (<[x := key]> owner)) as [owner' new]. destruct IH as [H1 H2].
    apply eq_None_not_Some in Hn. split; intros d.
    + rewrite H1. destruct (decide (d = x)) as [->|Hne]; [by rewrite lookup_insert_eq, Hn, decide_True by left|].
      rewrite lookup_insert_ne by done. destruct (owner !! d); [done|]. destruct (decide (d ∈ ds)); [by rewrite decide_True by by right|].
      rewrite decide_False; [done|]. by rewrite elem_of_cons; intros [].
    + rewrite !elem_of_cons, H2. destruct (decide (d = x)) as [->|Hne]; [split; [auto|by left]|].
      rewrite lookup_insert_ne by done. split; [intros [|[? ?]]; [done|auto]|]. intros [? [|]]; auto.
Qed.
(** The claims after the services [specs]. *)
Record claimed (specs : list serviceSpec) (st : claims) : Prop := {
  ci_suffixes : cm_suffixOwner st = sp_Key <$> claim_table fst specs;
  ci_exacts : cm_exactOwner st = sp_Key <$> claim_table snd specs;
  ci_seen : forall key, key ∈ cm_seenKeys st <-> key ∈ map sp_Key specs;
  ci_keys : NoDup (map sp_Key specs);
  ci_specs : map sv_Spec (cm_collected st) = specs;
  ci_own : forall svc, svc ∈ cm_collected st ->
    (forall d, d ∈ sv_Suffixes svc <-> claim_table fst specs !! d = Some (sv_Spec svc)) /\
    (forall d, d ∈ sv_Exacts svc <-> claim_table snd specs !! d = Some (sv_Spec svc))
}.
Lemma owner_snoc sel specs spec owner owner' :
  owner = sp_Key <$> claim_table sel specs ->
  (forall d, owner' !! d = match owner !! d with Some k => Some k | None => if decide (d ∈ yields sel spec) then Some (sp_Key spec) else None end) ->
  owner' = sp_Key <$> claim_table sel (specs ++ [spec]).
Proof.
  intros -> E. apply map_eq. intros d. rewrite E, !lookup_fmap, claim_table_snoc. destruct (claim_table sel specs !! d); [done|]. cbn.
  by destruct (decide (d ∈ yields sel spec)).
Qed.
Lemma own_snoc sel specs spec svc (ds : list string) : spec ∉ specs -> sv_Spec svc ∈ specs ->
  (forall d, d ∈ ds <-> claim_table sel specs !! d = Some (sv_Spec svc)) -> forall d, d ∈ ds <-> claim_table sel (specs ++ [spec]) !! d = Some (sv_Spec svc).
Proof.
  intros Hs Hin Hd d. rewrite Hd, claim_table_snoc. destruct (claim_table sel specs !! d); [done|]. destruct (decide (d ∈ yields sel spec)); [|done].
  split; [done|]. intros [= ->]. done.
Qed.
Lemma new_snoc sel specs spec (ds : list string) owner (new : list string) : spec ∉ specs -> owner = sp_Key <$> claim_table sel specs -> yields sel spec = ds ->
  (forall d, d ∈ new <-> owner !! d = None /\ d ∈ ds) -> forall d, d ∈ new <-> claim_table sel (specs ++ [spec]) !! d = Some spec.
Proof.
  intros Hs -> <- Hd d. rewrite Hd, lookup_fmap, claim_table_snoc. destruct (claim_table sel specs !! d) as [o|] eqn:E; cbn.
  - split; [by intros [? _]|]. intros [= ->]. by apply claim_table_owner in E as [? _].
  - destruct (decide (d ∈ yields sel spec)); split; try done. by intros [_ ?].
Qed.
Lemma claimed_snoc specs spec st st' : claimed specs st -> claim_spec lists st spec = Ok st' -> claimed (specs ++ [spec]) st'.
Proof.
  intros [C1 C2 C3 C4 C5 C6] Hd. unfold claim_spec in Hd. destruct (negb _) eqn:Ek; [|done]. apply negb_true_iff, bool_decide_eq_false in Ek.
  rewrite C3 in Ek. assert (Hs : spec ∉ specs) by (intros Hin; apply Ek, list_elem_of_In, in_map, list_elem_of_In, Hin).
  destruct (expand lists (sp_List spec)) as [[su ex]|] eqn:Ee; [|done].
  assert (Y1 : yields fst spec = su) by (unfold yields; by rewrite Ee). assert (Y2 : yields snd spec = ex) by (unfold yields; by rewrite Ee).
  pose proof (claim_spec' (sp_Key spec) su (cm_suffixOwner st)) as P1. pose proof (claim_spec' (sp_Key spec) ex (cm_exactOwner st)) as P2.
  destruct (claim _ su _) as [o1 n1], (claim _ ex _) as [o2 n2]. destruct P1 as [P1 N1], P2 as [P2 N2]. injection Hd as <-. split; cbn.
  - apply (owner_snoc fst specs spec (cm_suffixOwner st)); [done|by rewrite Y1].
  - apply (owner_snoc snd specs spec (cm_exactOwner st)); [done|by rewrite Y2].
  - intros key. rewrite elem_of_union, elem_of_singleton, C3, map_app, elem_of_app. cbn. rewrite list_elem_of_singleton. tauto.
  - rewrite map_app. apply NoDup_app. split; [done|]. split; [|apply NoDup_singleton]. intros key Hk ->%list_elem_of_singleton. done.
  - by rewrite map_app, C5.
  - intros svc [Hsvc| ->%list_elem_of_singleton]%elem_of_app.
    + assert (sv_Spec svc ∈ specs) by (rewrite <- C5; apply list_elem_of_In, in_map, list_elem_of_In, Hsvc).
      destruct (C6 _ Hsvc) as [S1 S2]. split; by apply own_snoc.
    + cbn. split; [by apply (new_snoc fst specs spec su (cm_suffixOwner st))|by apply (new_snoc snd specs spec ex (cm_exactOwner st))].
Qed.
Lemma claim_specs_claimed specs specs' st st' : claimed specs st -> claim_specs lists specs' st = Ok st' -> claimed (specs ++ specs') st'.
Proof.
  revert specs st. induction specs' as [|spec specs' IH]; intros specs st Hc; cbn; [intros [= <-]; by rewrite app_nil_r|].
  destruct (claim_spec lists st spec) as [st1|] eqn:E; [|done]. intros Hr. rewrite cons_middle, app_assoc.
  eapply IH; [|exact Hr]. by eapply claimed_snoc.
Qed.
Lemma claimed_none : claimed [] no_claims.
Proof. split; cbn; [by rewrite fmap_empty..|set_solver|constructor|done|by intros svc ?%elem_of_nil]. Qed.

(** ** Pruning *)
Lemma key_spec specs s s' : NoDup (map sp_Key specs) -> s ∈ specs -> s' ∈ specs -> sp_Key s = sp_Key s' -> s = s'.
Proof.
  intros Hnd (i & Hi)%list_elem_of_lookup (j & Hj)%list_elem_of_lookup E. assert (i = j) as ->; [|congruence].
  apply (NoDup_lookup _ i j (sp_Key s) Hnd); change (map sp_Key specs) with (sp_Key <$> specs); rewrite list_lookup_fmap; [by rewrite Hi|by rewrite Hj, E].
Qed.
Lemma nearest_spec specs s d : NoDup (map sp_Key specs) -> s ∈ specs -> sp_Key s <> ""%string ->
  nearestOwner d (sp_Key <$> claim_table fst specs) = sp_Key s -> lookupSuffix (claim_table fst specs) d = Some s.
Proof.
  intros Hnd Hs Hne E. rewrite nearestOwner_lookup, lookupSuffix_fmap in E.
  destruct (lookupSuffix (claim_table fst specs) d) as [s'|] eqn:El; cbn in E; [|by symmetry in E]. f_equal.
  apply lookupSuffix_longest in El as (k & _ & Hk & _). apply claim_table_owner in Hk as [Hin _]. by eapply key_spec.
Qed.
(** What is left of the two tables. *)
Definition kept_suffix (specs : list serviceSpec) (d : string) : option serviceSpec :=
  spec ← claim_table fst specs !! d;
  if (nearestOwner (parent d) (sp_Key <$> claim_table fst specs) =? sp_Key spec)%string then None else Some spec.
Definition kept_exact (specs : list serviceSpec) (d : string) : option serviceSpec :=
  spec ← claim_table snd specs !! d;
  if (nearestOwner d (sp_Key <$> claim_table fst specs) =? sp_Key spec)%string then None else Some spec.
Lemma yields_valid sel specs d : (sel = fst \/ sel = snd) -> is_Some (claim_table sel specs !! d) -> validDomain d = true.
Proof.
  intros Hsel [spec Hd]. apply claim_table_owner in Hd as [_ Hd]. unfold yields in Hd. pose proof (expand_is_reachability lists (sp_List spec)) as Hx.
  destruct (expand lists (sp_List spec)) as [[su ex]|]; [|by apply elem_of_nil in Hd]. destruct Hx as (_ & Hsu & Hex).
  destruct Hsel as [-> | ->]; [apply Hsu in Hd|apply Hex in Hd]; destruct Hd as (l & _ & lines & line & _ & _ & Hr); exact (parseRule_valid _ _ Hr).
Qed.
Lemma pruned_answers specs (P PX : gmap string serviceSpec) : NoDup (map sp_Key specs) -> (forall s, s ∈ specs -> sp_Key s <> ""%string) ->
  (forall d, P !! d = kept_suffix specs d) -> (forall d, PX !! d = kept_exact specs d) ->
  (forall name, lookupSuffix P name = lookupSuffix (claim_table fst specs) name) /\
  (forall name, match PX !! name with Some s => Some s | None => lookupSuffix P name end =
                match claim_table snd specs !! name with Some s => Some s | None => lookupSuffix (claim_table fst specs) name end).
Proof.
  intros Hnd Hne HP HX. assert (Hsuf : forall name, lookupSuffix P name = lookupSuffix (claim_table fst specs) name).
  { apply lookup_pruned. intros k. rewrite HP. unfold kept_suffix. destruct (claim_table fst specs !! k) as [s|] eqn:E; [|by left]. cbn.
    destruct (_ =? _)%string eqn:Ek; [right|by left]. apply String.eqb_eq in Ek. split; [done|]. split.
    - intros ->. assert (Hv : validDomain "" = true) by (apply (yields_valid fst specs); [by left|by exists s]). done.
    - apply (nearest_spec specs); [done|by apply claim_table_owner in E as [? _]|by apply Hne; apply claim_table_owner in E as [? _]|done]. }
  split; [done|]. intros name. rewrite HX, Hsuf. unfold kept_exact. destruct (claim_table snd specs !! name) as [s|] eqn:E; [|done]. cbn.
  destruct (_ =? _)%string eqn:Ek; [|done]. apply String.eqb_eq in Ek.
  apply (nearest_spec specs); [done|by apply claim_table_owner in E as [? _]|by apply Hne; apply claim_table_owner in E as [? _]|done].
Qed.
(** A catalogue that is built has every service with the rules it keeps. *)
Lemma sorted_in l d : d ∈ sorted l <-> d ∈ l.
Proof. unfold sorted. by rewrite merge_sort_Permutation. Qed.
Lemma kept_iff (s s' : serviceSpec) o : Some s = Some s' /\ (o =? sp_Key s')%string = false <->
  (if (o =? sp_Key s)%string then None else Some s) = Some s'.
Proof.
  split.
  - intros [[= ->] ->]. done.
  - destruct (o =? sp_Key s)%string eqn:E; [done|]. by intros [= ->].
Qed.
Lemma build_services specs services : build specs lists = Ok services ->
  map sv_Spec services = specs /\ NoDup (map sp_Key specs) /\ forall svc, svc ∈ services ->
    (forall d, d ∈ sv_Suffixes svc <-> kept_suffix specs d = Some (sv_Spec svc)) /\
    (forall d, d ∈ sv_Exacts svc <-> kept_exact specs d = Some (sv_Spec svc)) /\ is_empty svc = false.
Proof.
  unfold build. destruct (claim_specs lists specs no_claims) as [st|] eqn:Ec; [|done].
  pose proof (claim_specs_claimed [] specs no_claims st claimed_none Ec) as [C1 _ _ C4 C5 C6]. cbn [app] in *.
  destruct (List.filter is_empty _) as [|] eqn:Ef; [|done]. intros [= <-].
  split; [rewrite map_map; exact C5|]. split; [done|]. intros svc Hsvc. pose proof Hsvc as Hin. apply list_elem_of_In, in_map_iff in Hsvc as (sv & <- & Hsv).
  apply list_elem_of_In, C6 in Hsv as [S1 S2]. cbn [prune sv_Suffixes sv_Exacts sv_Spec]. rewrite C1.
  assert (Hf : forall (ds : list string) (g : string -> bool) d, d ∈ sorted (List.filter (fun x => negb (g x)) ds) <-> d ∈ ds /\ g d = false).
  { intros ds g d. rewrite sorted_in, list_elem_of_In, filter_In, <- list_elem_of_In, negb_true_iff. done. }
  split; [|split].
  - intros d. unfold pruneSuffixes. rewrite Hf, S1. unfold kept_suffix. destruct (claim_table fst specs !! d) as [s|]; cbn; [|by split; [intros [? _]|]].
    apply kept_iff.
  - intros d. unfold pruneExacts. rewrite Hf, S2. unfold kept_exact. destruct (claim_table snd specs !! d) as [s|]; cbn; [|by split; [intros [? _]|]].
    apply kept_iff.
  - destruct (is_empty (prune (cm_suffixOwner st) sv)) eqn:Ee; [|by rewrite C1 in Ee].
    assert (Hf' : prune (cm_suffixOwner st) sv ∈ List.filter is_empty (map (prune (cm_suffixOwner st)) (cm_collected st))) by (by apply list_elem_of_In, filter_In; rewrite <- list_elem_of_In).
    rewrite Ef in Hf'. by apply elem_of_nil in Hf'.
Qed.
End owners.
End upstream.
