(* ===== verification/CatalogText.v ===== *)
(** * The text of the catalogue and what is read back ([CatalogGen.write], [Catalog.parse])

    The catalogue that is generated, pruned, written and read again classifies
    every host as the tables of all upstream rules would. *)
From S2P Require Import Prelude GoStrings ConnectionTelemetry GoNet.
From S2P Require Import Catalog CatalogGen CatalogLookup CatalogUpstream.

#[local] Open Scope Z_scope.

(** ** Lines *)
(** Neither a tab nor the end of a line. *)
Definition plain_byte (c : ascii) : bool := negb (code c =? 9) && negb (code c =? 10) && negb (code c =? 13).
Definition plain (s : string) : bool := forallb plain_byte (to_bytes s).
Lemma plain_spec s : plain s = true -> forall c, c ∈ to_bytes s -> plain_byte c = true.
Proof. unfold plain. rewrite forallb_forall. intros H c Hc. by apply H, list_elem_of_In. Qed.
Lemma plain_no s c : plain s = true -> plain_byte c = false -> c ∉ to_bytes s.
Proof. intros Hs Hc Hin. by rewrite (plain_spec _ Hs _ Hin) in Hc. Qed.
Lemma FormatInt_plain z : plain (FormatInt z) = true.
Proof.
  unfold plain. rewrite forallb_forall. intros c Hc%list_elem_of_In. destruct (plain_byte c) eqn:E; [done|].
  destruct (FormatInt_no_byte z c); [..|done]; revert E; clear; byte_cases c.
Qed.
Lemma drop_while_none f l : (forall c, c ∈ l -> f c = false) -> drop_while f l = l.
Proof. destruct l as [|c l]; intros H; [done|]. cbn. by rewrite (H c ltac:(left)). Qed.
Lemma TrimRight_id s f : (forall c, c ∈ to_bytes s -> f c = false) -> TrimRight s f = s.
Proof.
  intros H. unfold TrimRight. rewrite drop_while_none, rev_involutive; [apply of_to_bytes|]. intros c Hc. apply H.
  apply list_elem_of_In, in_rev, list_elem_of_In, Hc.
Qed.
Lemma Cut_at a b sep : sep ∉ to_bytes a -> Cut (a ++ String sep b) sep = (a, Some b).
Proof.
  intros Ha. unfold Cut, IndexByte. rewrite to_bytes_app. change (to_bytes (String sep b)) with (sep :: to_bytes b).
  rewrite index_byte_app by done. by rewrite to_bytes_length, str_take_app, str_drop_app.
Qed.
(** Fields without line ends, separated by tabs. *)
Lemma tabbed_elem fields c : (forall f, f ∈ fields -> plain f = true) -> c ∈ to_bytes (tabbed fields) -> plain_byte c = true \/ c = tab.
Proof.
  intros Hf. unfold tabbed. rewrite Join_bytes. induction fields as [|f fields IH]; [by intros ?%elem_of_nil|].
  destruct fields as [|g fields]; [intros Hc; left; apply (plain_spec f); [apply Hf; left|done]|].
  cbn [map join_bytes]. intros [Hc|[->|Hc]%elem_of_cons]%elem_of_app; [left; apply (plain_spec f); [apply Hf; left|done]|by right|].
  apply IH; [intros f' Hf'; apply Hf; by right|done].
Qed.
Lemma tabbed_line fields : (forall f, f ∈ fields -> plain f = true) ->
  TrimRight (tabbed fields) (fun c => code c =? 13) = tabbed fields /\ newline ∉ to_bytes (tabbed fields).
Proof.
  intros Hf. split.
  - apply TrimRight_id. intros c [Hc| ->]%(tabbed_elem _ _ Hf); [|done]. unfold plain_byte in Hc. by destruct (code c =? 13); [rewrite andb_false_r in Hc|].
  - by intros [Hc|Hc]%(tabbed_elem _ _ Hf).
Qed.
Lemma tabbed_cons f g fields : tabbed (f :: g :: fields) = (f ++ String tab (tabbed (g :: fields)))%string.
Proof. done. Qed.
Lemma plain_fields (l : list string) : forallb plain l = true -> forall f, f ∈ l -> plain f = true.
Proof. rewrite forallb_forall. intros H f Hf. by apply H, list_elem_of_In. Qed.

(** ** Reading lines *)
Definition with_tables (c : Catalog) (suffixes exacts : gmap string entry) : Catalog := {|
  ca_version := ca_version c; ca_source := ca_source c; ca_suffixes := suffixes; ca_exacts := exacts; ca_overrides := ca_overrides c |}.
Definition put_all (e : entry) (ds : list string) (m : gmap string entry) : gmap string entry := foldl (fun m d => <[d := e]> m) m ds.
Lemma put_all_lookup e ds m d : put_all e ds m !! d = if decide (d ∈ ds) then Some e else m !! d.
Proof.
  revert m. induction ds as [|x ds IH]; intros m; [done|].
  change (put_all e (x :: ds) m) with (put_all e ds (<[x := e]> m)). rewrite IH. destruct (decide (d ∈ ds)); [by rewrite decide_True by by right|].
  destruct (decide (d = x)) as [->|Hne]; [by rewrite lookup_insert_eq, decide_True by left|].
  rewrite lookup_insert_ne, decide_False; [done|..]; [|done]. by rewrite elem_of_cons; intros [].
Qed.
Definition reading_at (c : Catalog) (suffixes exacts : gmap string entry) (current : option entry) : reading :=
  {| rd_catalog := with_tables c suffixes exacts; rd_current := current |}.
Lemma read_suffix n d c su ex e : plain d = true -> d <> ""%string ->
  parse_line n (tabbed ["D"; d]%string) (reading_at c su ex (Some e)) = Ok (reading_at c (<[d := e]> su) ex (Some e)).
Proof.
  intros Hd Hne. unfold parse_line. rewrite (proj1 (tabbed_line ["D"; d]%string (plain_fields ["D"; d]%string ltac:(cbn; by rewrite Hd)))).
  rewrite tabbed_cons. cbn [String.append HasPrefix String.prefix]. rewrite (Cut_at "D" (tabbed [d]) tab) by (by apply plain_no).
  change (tabbed [d]) with d. by rewrite (proj2 (String.eqb_neq d "") Hne).
Qed.
Lemma read_exact n d c su ex e : plain d = true -> d <> ""%string ->
  parse_line n (tabbed ["F"; d]%string) (reading_at c su ex (Some e)) = Ok (reading_at c su (<[d := e]> ex) (Some e)).
Proof.
  intros Hd Hne. unfold parse_line. rewrite (proj1 (tabbed_line ["F"; d]%string (plain_fields ["F"; d]%string ltac:(cbn; by rewrite Hd)))).
  rewrite tabbed_cons. cbn [String.append HasPrefix String.prefix]. rewrite (Cut_at "F" (tabbed [d]) tab) by (by apply plain_no).
  change (tabbed [d]) with d. by rewrite (proj2 (String.eqb_neq d "") Hne).
Qed.
#[export] Instance serviceSpec_eq_dec : EqDecision serviceSpec.
Proof. solve_decision. Defined.
Definition good_spec (spec : serviceSpec) : bool :=
  negb (sp_Key spec =? "")%string && plain (sp_Key spec) && plain (sp_Label spec) && plain (sp_Category spec).
Definition entry_of (spec : serviceSpec) : entry := {| en_service := sp_Key spec; en_label := sp_Label spec; en_category := sp_Category spec |}.
Lemma read_service n spec c su ex cur : good_spec spec = true ->
  parse_line n (tabbed ["S"; sp_Key spec; sp_Label spec; sp_Category spec]%string) (reading_at c su ex cur) = Ok (reading_at c su ex (Some (entry_of spec))).
Proof.
  intros Hg. unfold good_spec in Hg. breflect. unfold parse_line.
  assert (Hp : forallb plain [sp_Key spec; sp_Label spec; sp_Category spec] = true) by (cbn; by rewrite H2, H1, H0).
  rewrite (proj1 (tabbed_line _ (plain_fields ["S"; sp_Key spec; sp_Label spec; sp_Category spec]%string Hp))).
  rewrite tabbed_cons. cbn [String.append HasPrefix String.prefix].
  rewrite (Cut_at "S" (tabbed [sp_Key spec; sp_Label spec; sp_Category spec]) tab) by (by apply plain_no).
  cbn [String.eqb Ascii.eqb Bool.eqb orb andb]. unfold tabbed. rewrite Split_Join; [|done|].
  - by rewrite (proj2 (String.eqb_neq _ _) H).
  - repeat constructor; by apply plain_no.
Qed.
(** The part of a text that is tables. *)
Lemma parse_lines_app n l1 l2 st : parse_lines n (l1 ++ l2) st = (let? st := parse_lines n l1 st in parse_lines (n + length l1) l2 st).
Proof.
  revert n st. induction l1 as [|x l1 IH]; intros n st; cbn [app parse_lines length]; [by rewrite Nat.add_0_r|].
  destruct (parse_line n x st); [|done]. rewrite IH. destruct (parse_lines (S n) l1 a); [|done]. by rewrite Nat.add_succ_r.
Qed.
Definition printable (d : string) : Prop := plain d = true /\ d <> ""%string.
Lemma read_suffixes n ds c su ex e : (forall d, d ∈ ds -> printable d) ->
  parse_lines n (map (fun d => tabbed ["D"; d]%string) ds) (reading_at c su ex (Some e)) = Ok (reading_at c (put_all e ds su) ex (Some e)).
Proof.
  revert n su. induction ds as [|d ds IH]; intros n su Hd; [done|]. cbn [map parse_lines].
  destruct (Hd d ltac:(left)) as [Hp Hne]. rewrite read_suffix by done. apply IH. intros d' Hd'. apply Hd. by right.
Qed.
Lemma read_exacts n ds c su ex e : (forall d, d ∈ ds -> printable d) ->
  parse_lines n (map (fun d => tabbed ["F"; d]%string) ds) (reading_at c su ex (Some e)) = Ok (reading_at c su (put_all e ds ex) (Some e)).
Proof.
  revert n ex. induction ds as [|d ds IH]; intros n ex Hd; [done|]. cbn [map parse_lines].
  destruct (Hd d ltac:(left)) as [Hp Hne]. rewrite read_exact by done. apply IH. intros d' Hd'. apply Hd. by right.
Qed.
Definition good_service (svc : service) : Prop := good_spec (sv_Spec svc) = true /\
  (forall d, d ∈ sv_Suffixes svc -> printable d) /\ (forall d, d ∈ sv_Exacts svc -> printable d).
Definition table_of (sel : service -> list string) (services : list service) (m : gmap string entry) : gmap string entry :=
  foldl (fun m svc => put_all (entry_of (sv_Spec svc)) (sel svc) m) m services.
Lemma read_blocks n services c su ex cur : (forall svc, svc ∈ services -> good_service svc) ->
  exists cur', parse_lines n (List.concat (map block services)) (reading_at c su ex cur) =
    Ok (reading_at c (table_of sv_Suffixes services su) (table_of sv_Exacts services ex) cur').
Proof.
  revert n su ex cur. induction services as [|svc services IH]; intros n su ex cur Hs; [by exists cur|].
  destruct (Hs svc ltac:(left)) as (Hg & Hd & Hf). cbn [map List.concat]. rewrite parse_lines_app. unfold block at 1. cbn [parse_lines].
  rewrite read_service, parse_lines_app, read_suffixes, read_exacts by done.
  edestruct IH as [cur' E]; [intros svc' Hsvc'; apply Hs; by right|]. exists cur'. exact E.
Qed.
Lemma table_of_lookup sel (P : string -> option serviceSpec) services m d : (forall svc, svc ∈ services -> forall d, d ∈ sel svc <-> P d = Some (sv_Spec svc)) ->
  table_of sel services m !! d = match P d with Some s => if decide (s ∈ map sv_Spec services) then Some (entry_of s) else m !! d | None => m !! d end.
Proof.
  revert m. induction services as [|svc services IH]; intros m Hs; [by destruct (P d)|].
  change (table_of sel (svc :: services) m) with (table_of sel services (put_all (entry_of (sv_Spec svc)) (sel svc) m)).
  rewrite IH, put_all_lookup by (intros svc' Hsvc'; apply Hs; by right). pose proof (Hs svc ltac:(left) d) as Hd. destruct (P d) as [s|] eqn:Ep.
  - cbn [map]. destruct (decide (s ∈ map sv_Spec services)); [by rewrite decide_True by by right|]. destruct (decide (d ∈ sel svc)) as [Hin|Hin].
    + apply Hd in Hin as [= ->]. by rewrite decide_True by left.
    + rewrite decide_False; [done|]. intros [->|]%elem_of_cons; [by apply Hin, Hd|done].
  - rewrite decide_False; [done|]. by intros [=]%Hd.
Qed.
(** ** The header *)
Lemma TrimPrefix_bang s : TrimPrefix (String "!" s) "!" = s.
Proof. unfold TrimPrefix. replace (HasPrefix (String "!" s) "!") with true by (by destruct s). change (of_bytes (to_bytes s) = s). apply of_to_bytes. Qed.
Lemma read_header n key value st : plain key = true -> plain value = true ->
  parse_line n (tabbed [String "!" key; value]) st = Ok {| rd_catalog := set_header (rd_catalog st) key value; rd_current := rd_current st |}.
Proof.
  intros Hk Hv. unfold parse_line. assert (Hp : forallb plain [String "!" key; value] = true) by (change (plain key && (plain value && true) = true); by rewrite Hk, Hv).
  rewrite (proj1 (tabbed_line _ (plain_fields [String "!" key; value] Hp))), tabbed_cons.
  change ((String "!" key ++ String tab (tabbed [value]))%string) with (String "!" (key ++ String tab (tabbed [value]))).
  replace (HasPrefix (String "!" (key ++ String tab (tabbed [value]))) "!") with true by (by destruct (key ++ String tab (tabbed [value]))%string).
  change ((String "!" (key ++ String tab (tabbed [value])) =? "")%string || HasPrefix (String "!" (key ++ String tab (tabbed [value]))) "#") with false.
  rewrite TrimPrefix_bang, (Cut_at key (tabbed [value]) tab) by (by apply plain_no). done.
Qed.
Lemma comment_line n line st : TrimRight line (fun c => code c =? 13) = line -> HasPrefix line "#" = true -> parse_line n line st = Ok st.
Proof. intros H1 H2. unfold parse_line. rewrite H1, H2. by rewrite orb_true_r. Qed.
Definition titled (version origin : string) : Catalog :=
  {| ca_version := version; ca_source := origin; ca_suffixes := ∅; ca_exacts := ∅; ca_overrides := ∅ |}.
Lemma read_headers version origin services : plain version = true -> plain origin = true ->
  parse_lines 0 (header version origin services) {| rd_catalog := no_catalog; rd_current := None |} = Ok (reading_at (titled version origin) ∅ ∅ None).
Proof.
  intros Hv Ho. unfold header. cbn [parse_lines]. do 4 (rewrite comment_line; [|vm_compute; reflexivity|reflexivity]).
  rewrite !read_header by (done || apply FormatInt_plain). done.
Qed.
Lemma header_no_newline version origin services line : plain version = true -> plain origin = true -> line ∈ header version origin services ->
  newline ∉ to_bytes line.
Proof.
  intros Hv Ho. unfold header.
  assert (Ht : forall key value, plain key = true -> plain value = true -> newline ∉ to_bytes (tabbed [key; value])).
  { intros key value H1 H2. apply tabbed_line, plain_fields. cbn. by rewrite H1, H2. }
  rewrite !elem_of_cons. intros [->|[->|[->|[->|[->|[->|[->|[->|[]%elem_of_nil]]]]]]]];
    [apply (bool_decide_unpack _); vm_compute; exact I..|apply Ht; (done || apply FormatInt_plain)| | |];
    apply Ht; (done || apply FormatInt_plain).
Qed.
Lemma block_no_newline svc line : good_service svc -> line ∈ block svc -> newline ∉ to_bytes line.
Proof.
  intros (Hg & Hd & Hf). unfold block. unfold good_spec in Hg. breflect.
  assert (Ht : forall fields, forallb plain fields = true -> newline ∉ to_bytes (tabbed fields)) by (intros fields Hp; by apply tabbed_line, plain_fields).
  rewrite elem_of_cons, elem_of_app. intros [->|[Hl|Hl]]; [apply Ht; cbn; by rewrite H0, H1, H2|..];
    apply list_elem_of_In, in_map_iff in Hl as (d & <- & Hl%list_elem_of_In); apply Ht; cbn; [by rewrite (proj1 (Hd _ Hl))|by rewrite (proj1 (Hf _ Hl))].
Qed.
(** Writing and reading. *)
Lemma read_write version origin services : plain version = true -> plain origin = true -> (forall svc, svc ∈ services -> good_service svc) ->
  exists cur, parse_lines 0 (Split (write version origin services) newline) {| rd_catalog := no_catalog; rd_current := None |} =
    Ok (reading_at (titled version origin) (table_of sv_Suffixes services ∅) (table_of sv_Exacts services ∅) cur).
Proof.
  intros Hv Ho Hs. unfold write. rewrite Split_Join; [|discriminate|].
  - rewrite parse_lines_app, read_headers, parse_lines_app by done. edestruct read_blocks as [cur E]; [done|]. exists cur. rewrite E. done.
  - apply Forall_forall. intros line. rewrite !elem_of_app. intros [Hl|[Hl| ->%list_elem_of_singleton]]; [by apply (header_no_newline version origin services)| |by intros ?%elem_of_nil].
    apply list_elem_of_In, in_concat in Hl as (b & (svc & <- & Hin)%in_map_iff & Hl). apply list_elem_of_In in Hl, Hin. by apply (block_no_newline svc); [apply Hs|].
Qed.
