(* ===== verification/CatalogSafety.v ===== *)
(** * The catalogue answers as upstream does ([Catalog], [CatalogGen])

    From the upstream lists to the answer for one host: generating, pruning,
    writing, reading and looking up compose to the tables of [claim_table]; and
    which rule decides is the longest one that covers the host. *)
From S2P Require Import Prelude GoStrings GoNet.
From S2P Require Import Catalog CatalogGen CatalogLookup CatalogUpstream CatalogText.

#[local] Open Scope Z_scope.

(** ** Domains can be printed *)
Lemma join_bytes_elem sep ps c : c ∈ join_bytes sep ps -> c = sep \/ exists p, p ∈ ps /\ c ∈ p.
Proof.
  induction ps as [|p ps IH]; [by intros ?%elem_of_nil|]. destruct ps as [|q ps]; [intros Hc; right; exists p; split; [left|done]|].
  cbn [join_bytes]. intros [Hc|[->|Hc]%elem_of_cons]%elem_of_app; [right; exists p; split; [left|done]|by left|].
  destruct (IH Hc) as [->|(p' & Hp & Hin)]; [by left|right]. exists p'. split; [by right|done].
Qed.
Lemma domain_byte_plain c : domain_byte c = true -> plain_byte c = true.
Proof. byte_cases c. Qed.
Lemma validDomain_printable d : validDomain d = true -> printable d.
Proof.
  unfold validDomain. intros [[Hne Hdot]%andb_true_iff Hl]%andb_true_iff. split; [|by intros ->].
  unfold plain. rewrite forallb_forall. intros c Hc%list_elem_of_In. rewrite <- (join_split "." (to_bytes d)) in Hc.
  apply join_bytes_elem in Hc as [->|(p & Hp & Hc)]; [done|]. apply domain_byte_plain. rewrite forallb_forall in Hl.
  assert (Hin : In (of_bytes p) (Split d ".")) by (apply in_map, list_elem_of_In, Hp).
  specialize (Hl _ Hin). apply andb_true_iff in Hl as [_ Hl]. rewrite to_of_bytes, forallb_forall in Hl. by apply Hl, list_elem_of_In.
Qed.

Section catalogue.
Context `{UnicodeTables} (EffectiveTLDPlusOne : string -> option string).

(** ** The catalogue of all upstream rules *)
Definition upstream_catalog (version origin : string) (specs : list serviceSpec) (lists : upstream) : Catalog := {|
  ca_version := version; ca_source := origin;
  ca_suffixes := entry_of <$> claim_table lists fst specs; ca_exacts := entry_of <$> claim_table lists snd specs; ca_overrides := ∅ |}.
Lemma Classify_same c c' overrides host : ca_overrides c = ca_overrides c' ->
  (forall name, match ca_exacts c !! name with Some e => Some e | None => lookupSuffix (ca_suffixes c) name end =
                match ca_exacts c' !! name with Some e => Some e | None => lookupSuffix (ca_suffixes c') name end) ->
  Classify EffectiveTLDPlusOne (WithOverrides c overrides) host = Classify EffectiveTLDPlusOne (WithOverrides c' overrides) host.
Proof.
  intros Ho Hd. assert (E : ca_overrides (WithOverrides c overrides) = ca_overrides (WithOverrides c' overrides) /\
    ca_exacts (WithOverrides c overrides) = ca_exacts c /\ ca_suffixes (WithOverrides c overrides) = ca_suffixes c /\
    ca_exacts (WithOverrides c' overrides) = ca_exacts c' /\ ca_suffixes (WithOverrides c' overrides) = ca_suffixes c')
    by (unfold WithOverrides; by destruct (decide _)).
  destruct E as (E1 & E2 & E3 & E4 & E5). unfold Classify. rewrite E1, E2, E3, E4, E5.
  destruct (_ =? _)%string; [done|]. destruct (ParseIP _); [done|]. destruct (lookupSuffix (ca_overrides _) _); [done|].
  specialize (Hd (normalizeHost host)). destruct (ca_exacts c !! _), (ca_exacts c' !! _); simplify_eq; try done.
  - by rewrite <- Hd.
  - by rewrite Hd.
  - by rewrite Hd.
Qed.
Lemma table_answers sel P specs services : map sv_Spec services = specs ->
  (forall d s, P d = Some s -> s ∈ specs) -> (forall svc, svc ∈ services -> forall d, d ∈ sel svc <-> P d = Some (sv_Spec svc)) ->
  forall d, table_of sel services ∅ !! d = entry_of <$> P d.
Proof.
  intros <- Hin Hs d. rewrite (table_of_lookup sel P) by done. destruct (P d) as [s|] eqn:E; [|done]. by rewrite decide_True by by eapply Hin.
Qed.
(** A table with given lookups. *)
Lemma table_exists (m : gmap string entry) (f : string -> option serviceSpec) (specs : gmap string serviceSpec) :
  (forall d, m !! d = entry_of <$> f d) -> (forall d, is_Some (f d) -> f d = specs !! d) ->
  exists kept : gmap string serviceSpec, (forall d, kept !! d = f d) /\ m = entry_of <$> kept.
Proof.
  intros Hm Hf. exists (map_imap (fun d _ => f d) specs). assert (E : forall d, map_imap (fun d _ => f d) specs !! d = f d).
  { intros d. rewrite map_lookup_imap. destruct (specs !! d) eqn:Es; [done|]. cbn. destruct (f d) eqn:Ef; [|done].
    rewrite Hf in Ef by (by exists s). congruence. }
  split; [done|]. apply map_eq. intros d. by rewrite Hm, lookup_fmap, E.
Qed.
Lemma kept_in lists specs d s : kept_suffix lists specs d = Some s \/ kept_exact lists specs d = Some s ->
  s ∈ specs /\ validDomain d = true.
Proof.
  unfold kept_suffix, kept_exact. intros [Hk|Hk]; [destruct (claim_table lists fst specs !! d) as [s'|] eqn:E|destruct (claim_table lists snd specs !! d) as [s'|] eqn:E]; cbn in Hk; try done;
    (destruct (_ =? _)%string; [done|]; injection Hk as <-; split; [by apply claim_table_owner in E as [? _]|]).
  - apply (yields_valid lists fst specs); [by left|by exists s'].
  - apply (yields_valid lists snd specs); [by right|by exists s'].
Qed.
Lemma built_reads lists specs services version origin : forallb good_spec specs = true -> specs <> [] -> build specs lists = Ok services ->
  plain version = true -> version <> ""%string -> plain origin = true ->
  exists c, parse (write version origin services) = Ok c /\ ca_version c = version /\ ca_source c = origin /\
    forall overrides host, Classify EffectiveTLDPlusOne (WithOverrides c overrides) host =
      Classify EffectiveTLDPlusOne (WithOverrides (upstream_catalog version origin specs lists) overrides) host.
Proof.
  intros Hg Hne Hb Hv Hvne Ho. destruct (build_services _ _ _ Hb) as (Hsp & Hnd & Hs).
  assert (Hspecs : forall svc, svc ∈ services -> sv_Spec svc ∈ specs) by (intros svc Hin; rewrite <- Hsp; by apply list_elem_of_In, in_map, list_elem_of_In).
  rewrite forallb_forall in Hg. assert (Hgs : forall s, s ∈ specs -> good_spec s = true) by (intros s Hin; by apply Hg, list_elem_of_In).
  assert (Hgood : forall svc, svc ∈ services -> good_service svc).
  { intros svc Hin. destruct (Hs _ Hin) as (S1 & S2 & _). split; [by apply Hgs, Hspecs|].
    split; intros d Hd; apply validDomain_printable; [apply S1 in Hd|apply S2 in Hd]; eapply kept_in; eauto. }
  pose proof (table_answers sv_Suffixes (kept_suffix lists specs) specs services Hsp (fun d s Hk => proj1 (kept_in _ _ _ _ (or_introl Hk))) (fun svc Hin => proj1 (Hs svc Hin))) as T1.
  pose proof (table_answers sv_Exacts (kept_exact lists specs) specs services Hsp (fun d s Hk => proj1 (kept_in _ _ _ _ (or_intror Hk))) (fun svc Hin => proj1 (proj2 (Hs svc Hin)))) as T2.
  set (su := table_of sv_Suffixes services ∅) in *. set (ex := table_of sv_Exacts services ∅) in *.
  exists (with_tables (titled version origin) su ex). destruct (read_write version origin services Hv Ho Hgood) as [cur E]. split.
  - unfold parse. rewrite E. cbn [reading_at rd_catalog with_tables ca_version ca_suffixes ca_exacts titled]. fold su ex.
    rewrite (proj2 (String.eqb_neq _ _) Hvne). cbn [negb].
    assert (Hsize : (size su + size ex =? 0)%nat = false); [|by rewrite Hsize].
    apply Nat.eqb_neq. intros Hz. assert (su = ∅ /\ ex = ∅) as [E1 E2] by (split; apply map_size_empty_inv; lia).
    destruct services as [|svc services]; [by subst specs|]. destruct (Hs svc ltac:(left)) as (S1 & S2 & He). unfold is_empty in He.
    apply Nat.eqb_neq in He. destruct (sv_Suffixes svc) as [|d ds] eqn:Ed; [destruct (sv_Exacts svc) as [|d ds] eqn:Ex; [done|]|].
    + specialize (T2 d). rewrite (proj1 (S2 d)), E2 in T2 by (rewrite ?Ex; left). done.
    + specialize (T1 d). rewrite (proj1 (S1 d)), E1 in T1 by (rewrite ?Ed; left). done.
  - split; [done|]. split; [done|]. intros overrides host. apply Classify_same; [done|]. cbn [upstream_catalog with_tables ca_exacts ca_suffixes].
    destruct (table_exists su (kept_suffix lists specs) (claim_table lists fst specs) T1) as (P & HP & ->).
    { unfold kept_suffix. intros d [s Hk]. destruct (claim_table lists fst specs !! d); [|done]. cbn in *. by destruct (_ =? _)%string. }
    destruct (table_exists ex (kept_exact lists specs) (claim_table lists snd specs) T2) as (PX & HX & ->).
    { unfold kept_exact. intros d [s Hk]. destruct (claim_table lists snd specs !! d); [|done]. cbn in *. by destruct (_ =? _)%string. }
    intros name. destruct (pruned_answers lists specs P PX Hnd) as [_ Hp]; [|done|done|].
    + intros s Hin. specialize (Hgs _ Hin). unfold good_spec in Hgs. breflect. done.
    + specialize (Hp name). rewrite !lookup_fmap, !lookupSuffix_fmap. apply (f_equal (fmap entry_of)) in Hp.
      revert Hp. destruct (PX !! name), (claim_table lists snd specs !! name); exact (fun Hp => Hp).
Qed.
(** C7: the generated catalogue is the upstream one: where the generator succeeds, the
    text it writes is read back with its version and source, and whatever the
    operator's rules, it classifies every host as the table of all upstream rules
    does, in which a domain belongs to the first service of the allowlist whose
    list leads to it. *)
Theorem generated_catalogue_is_upstream lists services version origin : build allowlist lists = Ok services ->
  plain version = true -> version <> ""%string -> plain origin = true ->
  exists c, parse (write version origin services) = Ok c /\ ca_version c = version /\ ca_source c = origin /\
    forall overrides host, Classify EffectiveTLDPlusOne (WithOverrides c overrides) host =
      Classify EffectiveTLDPlusOne (WithOverrides (upstream_catalog version origin allowlist lists) overrides) host.
Proof. apply built_reads; [vm_compute; reflexivity|discriminate]. Qed.

(** ** Which rule decides *)
Definition override_key (o : Override) : string := normalizeHost (ov_Suffix o).
Definition in_force (o : Override) : Prop := override_key o <> ""%string /\ TrimSpace (ov_Service o) <> ""%string.
(** What a host of the rule's is called. *)
Definition override_answer (o : Override) : entry :=
  let or_else s t := if (s =? "")%string then t else s in {|
  en_service := TrimSpace (ov_Service o); en_label := or_else (TrimSpace (ov_Label o)) (TrimSpace (ov_Service o));
  en_category := or_else (TrimSpace (ov_Category o)) CategoryCustom |}.
(** [o] is the rule for its suffix: the last one of the operator's list. *)
Definition decisive (overrides : list Override) (o : Override) : Prop :=
  in_force o /\ exists before after, overrides = before ++ o :: after /\ forall o', o' ∈ after -> in_force o' -> override_key o' <> override_key o.
Lemma add_override_lookup rules o k : add_override rules o !! k = if decide (in_force o /\ override_key o = k) then Some (override_answer o) else rules !! k.
Proof.
  unfold add_override, in_force, override_key. destruct (normalizeHost (ov_Suffix o) =? "")%string eqn:E1.
  { apply String.eqb_eq in E1. rewrite decide_False; [done|]. by intros [[? _] _]. }
  destruct (TrimSpace (ov_Service o) =? "")%string eqn:E2.
  { apply String.eqb_eq in E2. rewrite decide_False; [done|]. by intros [[_ ?] _]. }
  apply String.eqb_neq in E1, E2. cbn [orb]. destruct (decide (normalizeHost (ov_Suffix o) = k)) as [<-|Hk].
  - rewrite lookup_insert_eq, decide_True by done. done.
  - rewrite lookup_insert_ne, decide_False; [done|by intros [_ ?]|done].
Qed.
Lemma overrides_lookup overrides k e : foldl add_override ∅ overrides !! k = Some e <->
  exists o, decisive overrides o /\ override_key o = k /\ override_answer o = e.
Proof.
  induction overrides as [|o overrides IH] using rev_ind.
  { split; [done|]. intros (o & [_ (before & after & E & _)] & _). by destruct before. }
  rewrite foldl_snoc, add_override_lookup. destruct (decide (in_force o /\ override_key o = k)) as [[Hf Hk]|Hn].
  - split.
    + intros [= <-]. exists o. split; [|done]. split; [done|]. exists overrides, []. split; [done|]. by intros o' ?%elem_of_nil.
    + intros (o' & [Hf' (before & after & E & Hl)] & Hk' & <-). destruct after as [|x after _] using rev_ind; [by apply app_inj_tail in E as [_ ->]|].
      rewrite app_comm_cons, app_assoc in E. apply app_inj_tail in E as [_ ->]. destruct (Hl x); [apply elem_of_app; right; left|done|congruence].
  - rewrite IH. split; intros (o' & [Hf' (before & after & E & Hl)] & Hk' & <-); exists o'; (split; [split; [done|]|done]).
    + exists before, (after ++ [o]). split; [by rewrite E, <- app_assoc|]. intros x [Hx| ->%list_elem_of_singleton]%elem_of_app Hfx; [by apply Hl|].
      intros Ek. apply Hn. split; [done|congruence].
    + destruct after as [|x after _] using rev_ind; [apply app_inj_tail in E as [_ ->]; destruct Hn; done|].
      rewrite app_comm_cons, app_assoc in E. apply app_inj_tail in E as [-> ->]. exists before, after. split; [done|].
      intros x' Hx'. apply Hl, elem_of_app. by left.
Qed.
(** [k] is the longest key of a table that covers the host. *)
Definition longest (table : string -> Prop) (k name : string) : Prop :=
  table k /\ covers k name /\ forall k', table k' -> covers k' name -> (String.length k' <= String.length k)%nat.
Lemma longest_rule (rules : gmap string entry) name e : lookupSuffix rules name = Some e <->
  exists k, longest (fun k => is_Some (rules !! k)) k name /\ rules !! k = Some e.
Proof.
  rewrite lookupSuffix_longest. unfold longest. split.
  - intros (k & Hk & He & Hmax). exists k. split; [|done]. split; [by exists e|]. split; [done|auto].
  - intros (k & (_ & Hk & Hmax) & He). exists k. auto.
Qed.
(** C17: the longest rule decides: a host that is no address is classified by the
    operator's rule with the longest suffix it lies in, the last one where several
    have that suffix; else by the exact rule of the dataset; else by the dataset's
    longest suffix rule; and else it is its own service, under its registrable
    domain where there is one. *)
Theorem longest_rule_decides c overrides host : ca_overrides c = ∅ ->
  let name := normalizeHost host in name <> ""%string -> ParseIP name = None ->
  let r := Classify EffectiveTLDPlusOne (WithOverrides c overrides) host in
  (exists o, decisive overrides o /\ longest (fun k => exists o, o ∈ overrides /\ in_force o /\ override_key o = k) (override_key o) name /\
     r = classification (override_answer o) SourceOverride) \/
  ((forall o, o ∈ overrides -> in_force o -> ~ covers (override_key o) name) /\
   match ca_exacts c !! name with
   | Some e => r = classification e SourceCatalog
   | None => (exists k e, longest (fun k => is_Some (ca_suffixes c !! k)) k name /\ ca_suffixes c !! k = Some e /\ r = classification e SourceCatalog) \/
       ((forall k, covers k name -> ca_suffixes c !! k = None) /\ cl_Category r = CategoryUnclassified /\ cl_Service r <> ""%string /\
        match EffectiveTLDPlusOne name with Some etld1 => cl_Service r = etld1 \/ etld1 = ""%string | None => cl_Service r = name end)
   end).
Proof.
  intros Hc name Hne Hip r.
  assert (E : ca_overrides (WithOverrides c overrides) = foldl add_override ∅ overrides /\ ca_exacts (WithOverrides c overrides) = ca_exacts c /\
    ca_suffixes (WithOverrides c overrides) = ca_suffixes c) by (unfold WithOverrides; destruct (decide _) as [Hd|]; [by rewrite Hc, Hd|done]).
  destruct E as (E1 & E2 & E3). subst r. unfold Classify. fold name. rewrite E1, E2, E3, (proj2 (String.eqb_neq _ _) Hne), Hip.
  assert (Hkeys : forall k, is_Some (foldl add_override ∅ overrides !! k) <-> exists o, o ∈ overrides /\ in_force o /\ override_key o = k).
  { intros k. clear. split.
    - intros [e (o & [Hf (before & after & -> & _)] & Hk & _)%overrides_lookup]. exists o. split; [apply elem_of_app; right; left|done].
    - induction overrides as [|x overrides IH] using rev_ind; [by intros (o & []%elem_of_nil & _)|].
      intros (o & Hin & Hf & Hk). rewrite foldl_snoc, add_override_lookup. destruct (decide _) as [|Hn]; [done|].
      apply elem_of_app in Hin as [Hin| ->%list_elem_of_singleton]; [apply IH; by exists o|by destruct Hn]. }
  destruct (lookupSuffix (foldl add_override ∅ overrides) name) as [found|] eqn:Eo; [left|right].
  - apply longest_rule in Eo as (k & (Hk & Hcov & Hmax) & (o & Hd & <- & <-)%overrides_lookup). exists o. split; [done|]. split; [|done].
    split; [by apply Hkeys|]. split; [done|]. intros k' Hk' Hcov'. apply Hmax; [by apply Hkeys|done].
  - split; [intros o Hin Hf Hcov; apply lookupSuffix_none with (k := override_key o) in Eo; [|done]; destruct (proj2 (Hkeys (override_key o))) as [e He]; [by exists o|congruence]|].
    destruct (ca_exacts c !! name); [done|]. destruct (lookupSuffix (ca_suffixes c) name) as [found|] eqn:Es; [left|right].
    + apply longest_rule in Es as (k & Hk & He). by exists k, found.
    + split; [by apply lookupSuffix_none|]. destruct (EffectiveTLDPlusOne name) as [etld1|]; [|done].
      destruct (etld1 =? "")%string eqn:Ee; [apply String.eqb_eq in Ee|apply String.eqb_neq in Ee]; cbn; auto.
Qed.
End catalogue.

(** ** Witnesses *)
#[local] Existing Instance ascii_only_tables.
(** One domain for each list of the allowlist, and a few lists that include others. *)
Definition w_lists : upstream :=
  <["google" := ["# Google"; "include:youtube"; "google.example @ads"; "mail.google.example"; "full:accounts.google.example"; "domain:yt.example"; "regexp:^g"]]>
  (<["youtube" := ["youtube.example"; "include:shorts"; "Full:x"]]> (<["shorts" := ["shorts.example"; "include:youtube"]]>
  (<["facebook" := ["fb.example"; "full:google.fb.example"]]>
   (list_to_map (map (fun spec => (sp_List spec, [(sp_List spec ++ ".example")%string])) allowlist)))))%string.
Definition services_of (r : result GenError (list service)) : list service := match r with Ok services => services | Err _ => [] end.
Definition w_services : list service := services_of (build allowlist w_lists).
Definition w_no_tld (name : string) : option string := None.
Example generated_catalogue_is_upstream_witness : exists c, parse (write "2026-07-26" "upstream" w_services) = Ok c /\
  Classify w_no_tld (WithOverrides c []) "Mail.Google.EXAMPLE." = {| cl_Service := "google"; cl_Label := "Google"; cl_Category := "search"; cl_Source := "catalog" |}.
Proof.
  destruct (generated_catalogue_is_upstream w_no_tld w_lists w_services "2026-07-26" "upstream") as (c & Hc & _ & _ & Hall);
    [vm_compute; reflexivity|reflexivity|discriminate|reflexivity|].
  exists c. split; [exact Hc|]. rewrite Hall. vm_compute. reflexivity.
Defined.
Definition w_catalog : Catalog := {|
  ca_version := "1"; ca_source := "s"; ca_suffixes := {["example" := entry_of (spec_of "a" "svc" "Service" "c")]}; ca_exacts := ∅; ca_overrides := ∅ |}%string.
Definition w_override (suffix service : string) : Override := {| ov_Suffix := suffix; ov_Service := service; ov_Label := ""; ov_Category := "" |}.
Example longest_rule_decides_witness : exists o, decisive [w_override "example" "one"; w_override ".B.example" "two"]%string o /\
  Classify w_no_tld (WithOverrides w_catalog [w_override "example" "one"; w_override ".B.example" "two"]%string) "a.b.example" = classification (override_answer o) SourceOverride.
Proof.
  pose proof (longest_rule_decides w_no_tld w_catalog [w_override "example" "one"; w_override ".B.example" "two"]%string "a.b.example") as H.
  assert (Hn : normalizeHost "a.b.example" = "a.b.example"%string) by (vm_compute; reflexivity). cbv zeta in H. rewrite Hn in H.
  destruct (H ltac:(reflexivity) ltac:(discriminate) ltac:(vm_compute; reflexivity)) as [(o & Hd & _ & Hr)|[Ho _]];
    [exact (ex_intro _ o (conj Hd Hr))|exfalso].
  destruct (Ho (w_override "example" "one")); [left|split; vm_compute; discriminate|]. split; [vm_compute; discriminate|]. right. exists "a.b"%string. vm_compute. reflexivity.
Defined.
