(* ===== verification/ServiceUsage.v ===== *)
(** * Service usage ([src/internal/server/db/service_usage.go])

    The breakdown of the connections of a window by service or category, its
    hosts, and the operator's rules for classifying them.  [event] is a row of
    network_event_records that the window and the filters select. *)
From S2P Require Import Prelude GoStrings GoNet Catalog CatalogGen.

#[local] Open Scope Z_scope.

Definition networkEventHostScanCap : Z := 200000.
Definition serviceUsageDefaultLimit : Z := 20.
Definition serviceUsageMaxLimit : Z := 100.
Definition hostUsageDefaultLimit : Z := 50.
Definition hostUsageMaxLimit : Z := 500.
Record event := { ev_TargetHost : string; ev_Count : Z; ev_WindowEnd : string }.
Record HostCount := { hc_Host : string; hc_Connections : Z; hc_LastSeen : string }.
Record ServiceUsageRow := { sr_Key : string; sr_Label : string; sr_Category : string; sr_Connections : Z; sr_Hosts : Z }.
Record ServiceUsageResult := {
  su_Rows : list ServiceUsageRow; su_Other : ServiceUsageRow; su_TotalConnections : Z; su_TotalHosts : Z; su_Truncated : bool; su_CatalogVersion : string
}.
Record HostUsageRow := {
  hu_Host : string; hu_Service : string; hu_ServiceLabel : string; hu_Category : string; hu_Source : string; hu_Connections : Z; hu_LastSeen : string
}.
Record HostUsagePage := { hp_Hosts : list HostUsageRow; hp_Total : Z; hp_Limit : Z; hp_Offset : Z; hp_Truncated : bool }.
Inductive UsageError :=
| SumOverflow | GroupUnsupported (group : string) | SuffixRequired | SuffixNotBare (value : string) | SuffixBlank (value : string) | ServiceRequired.

(** ** Hosts *)
(** SQLite's lower() *)
Definition sql_lower (s : string) : string := of_bytes (map lower_byte (to_bytes s)).
Definition sum_by {A} (f : A -> Z) (l : list A) : Z := foldr (fun x s => f x + s) 0 l.
Definition of_host (h : string) (e : event) : bool := (sql_lower (ev_TargetHost e) =? h)%string.
Definition text_max (a b : string) : string := if String.ltb a b then b else a.
Definition host_count (events : list event) (h : string) : HostCount := let l := List.filter (of_host h) events in {|
  hc_Host := h; hc_Connections := sum_by ev_Count l; hc_LastSeen := foldr (fun e t => text_max (ev_WindowEnd e) t) ""%string l |}.
(** ORDER BY connections DESC, host ASC *)
Definition host_order (a b : HostCount) : Prop :=
  ((hc_Connections b <? hc_Connections a) || ((hc_Connections a =? hc_Connections b) && String.leb (hc_Host a) (hc_Host b))) = true.
#[export] Instance host_order_dec a b : Decision (host_order a b).
Proof. unfold host_order. apply _. Defined.
Definition int64_value (z : Z) : bool := (int64_min <=? z) && (z <=? int64_max).
Definition NetworkEventHostCounts (events : list event) (limit : Z) : result UsageError (list HostCount * bool) :=
  let limit := if (limit <=? 0) || (networkEventHostScanCap <? limit) then networkEventHostScanCap else limit in
  let grouped := map (host_count events) (remove_dups (map (fun e => sql_lower (ev_TargetHost e)) events)) in
  guard! forallb (fun h => int64_value (hc_Connections h)) grouped else SumOverflow;
  let hosts := take (Z.to_nat (limit + 1)) (merge_sort host_order grouped) in
  let truncated := limit <? Z.of_nat (length hosts) in
  Ok (if truncated then take (Z.to_nat limit) hosts else hosts, truncated).

(** ** The operator's rules *)
Definition overrides_table := gmap string Override.
Fixpoint has_blank (l : bytes) : bool :=
  match l with
  | [] => false
  | c :: r =>
      match lead_space is_space2 is_space3 l with S _ => true | O =>
        (code c <? 32) || (code c =? 127) || match r with d :: _ => (code c =? 194) && (128 <=? code d) && (code d <=? 159) | [] => false end || has_blank r
      end
  end.
Definition address_byte (c : ascii) : bool := (code c =? 47) || (code c =? 63) || (code c =? 35) || (code c =? 64).
Section usage.
Context `{UnicodeTables}.
Definition validateDomainSuffix (value : string) : result UsageError string :=
  let suffix := ToLower (Trim (TrimSpace value) is_dot) in
  guard! negb (suffix =? "")%string else SuffixRequired;
  guard! negb (existsb address_byte (to_bytes suffix)) else (SuffixNotBare value);
  guard! negb (has_blank (to_bytes suffix)) else (SuffixBlank value);
  Ok suffix.
Definition UpsertDomainServiceOverride (table : overrides_table) (override : Override) : result UsageError (overrides_table * Override) :=
  let? suffix := validateDomainSuffix (ov_Suffix override) in
  let service := TrimSpace (ov_Service override) in
  guard! negb (service =? "")%string else ServiceRequired;
  let row := {| ov_Suffix := suffix; ov_Service := service; ov_Label := TrimSpace (ov_Label override); ov_Category := TrimSpace (ov_Category override) |} in
  Ok (<[suffix := row]> table, row).
Definition DeleteDomainServiceOverride (table : overrides_table) (suffix : string) : result UsageError overrides_table :=
  let? normalized := validateDomainSuffix suffix in Ok (delete normalized table).
Definition by_suffix (a b : Override) : Prop := text_order (ov_Suffix a) (ov_Suffix b).
#[export] Instance by_suffix_dec a b : Decision (by_suffix a b).
Proof. unfold by_suffix. apply _. Defined.
Definition ListDomainServiceOverrides (table : overrides_table) : list Override := merge_sort by_suffix (map snd (map_to_list table)).
Definition serviceCatalog (dataset : Catalog) (table : overrides_table) : Catalog := WithOverrides dataset (ListDomainServiceOverrides table).

(** ** The breakdown *)
Variable EffectiveTLDPlusOne : string -> option string.
Variables (dataset : Catalog) (table : overrides_table).
Definition classify (host : HostCount) : Classification := Classify EffectiveTLDPlusOne (serviceCatalog dataset table) (hc_Host host).
Definition group_key (group : string) (host : HostCount) : string :=
  if (group =? "category")%string then cl_Category (classify host) else cl_Service (classify host).
Definition group_label (group : string) (host : HostCount) : string :=
  if (group =? "category")%string then cl_Category (classify host) else cl_Label (classify host).
(** The rows so far, where each key is, and the total.  A row counts at most
    [networkEventHostScanCap] hosts; connections are int64 sums. *)
Record tally := { ta_index : gmap string nat; ta_rows : list ServiceUsageRow; ta_total : Z }.
Definition add_host (connections : Z) (row : ServiceUsageRow) : ServiceUsageRow := {|
  sr_Key := sr_Key row; sr_Label := sr_Label row; sr_Category := sr_Category row;
  sr_Connections := wrap64 (sr_Connections row + connections); sr_Hosts := sr_Hosts row + 1 |}.
Definition count_host (group : string) (t : tally) (host : HostCount) : tally :=
  let key := group_key group host in
  let '(position, index, rows) := match ta_index t !! key with
    | Some position => (position, ta_index t, ta_rows t)
    | None => (length (ta_rows t), <[key := length (ta_rows t)]> (ta_index t),
               ta_rows t ++ [{| sr_Key := key; sr_Label := group_label group host; sr_Category := cl_Category (classify host); sr_Connections := 0; sr_Hosts := 0 |}])
    end in
  {| ta_index := index; ta_rows := alter (add_host (hc_Connections host)) position rows; ta_total := wrap64 (ta_total t + hc_Connections host) |}.
Definition row_order (a b : ServiceUsageRow) : Prop :=
  (if sr_Connections a =? sr_Connections b then String.leb (sr_Key a) (sr_Key b) else sr_Connections b <? sr_Connections a) = true.
#[export] Instance row_order_dec a b : Decision (row_order a b).
Proof. unfold row_order. apply _. Defined.
Definition other : ServiceUsageRow := {| sr_Key := "other"; sr_Label := "Other"; sr_Category := ""; sr_Connections := 0; sr_Hosts := 0 |}.
Definition add_row (o row : ServiceUsageRow) : ServiceUsageRow := {|
  sr_Key := sr_Key o; sr_Label := sr_Label o; sr_Category := sr_Category o;
  sr_Connections := wrap64 (sr_Connections o + sr_Connections row); sr_Hosts := sr_Hosts o + sr_Hosts row |}.
Definition usage_limit (limit : Z) : Z :=
  let limit := if limit <=? 0 then serviceUsageDefaultLimit else limit in if serviceUsageMaxLimit <? limit then serviceUsageMaxLimit else limit.
Definition NetworkEventServiceUsage (events : list event) (group : string) (limit : Z) : result UsageError ServiceUsageResult :=
  let group := if (group =? "")%string then "service"%string else group in
  guard! (group =? "service")%string || (group =? "category")%string else (GroupUnsupported group);
  let limit := usage_limit limit in
  let? (hosts, truncated) := NetworkEventHostCounts events networkEventHostScanCap in
  let t := foldl (count_host group) {| ta_index := ∅; ta_rows := []; ta_total := 0 |} hosts in
  let rows := merge_sort row_order (ta_rows t) in
  let over := limit <? Z.of_nat (length rows) in
  Ok {| su_Rows := if over then take (Z.to_nat limit) rows else rows;
        su_Other := if over then foldl add_row other (drop (Z.to_nat limit) rows) else other;
        su_TotalConnections := ta_total t; su_TotalHosts := Z.of_nat (length hosts); su_Truncated := truncated; su_CatalogVersion := ca_version dataset |}.

(** ** The hosts of a service *)
Definition usage_row (host : HostCount) : HostUsageRow := let c := classify host in {|
  hu_Host := hc_Host host; hu_Service := cl_Service c; hu_ServiceLabel := cl_Label c; hu_Category := cl_Category c; hu_Source := cl_Source c;
  hu_Connections := hc_Connections host; hu_LastSeen := hc_LastSeen host |}.
Definition NetworkEventHostUsage (events : list event) (service : string) (limit offset : Z) : result UsageError HostUsagePage :=
  let limit := if limit <=? 0 then hostUsageDefaultLimit else limit in
  let limit := if hostUsageMaxLimit <? limit then hostUsageMaxLimit else limit in
  let offset := if offset <? 0 then 0 else offset in
  let? (hosts, truncated) := NetworkEventHostCounts events networkEventHostScanCap in
  let wanted := ToLower (TrimSpace service) in
  let matched := List.filter (fun row => (wanted =? "")%string || (ToLower (hu_Service row) =? wanted)%string) (map usage_row hosts) in
  Ok {| hp_Hosts := take (Z.to_nat limit) (drop (Z.to_nat offset) matched); hp_Total := Z.of_nat (length matched);
        hp_Limit := limit; hp_Offset := offset; hp_Truncated := truncated |}.
End usage.
