(* ===== verification/ServiceUsageSafety.v ===== *)
(** * The breakdown counts every connection once ([ServiceUsage])

    The rows of the breakdown, with the rest under "Other", partition the hosts
    of the window and their connections. *)
From S2P Require Import Prelude GoStrings GoNet Catalog ServiceUsage.

#[local] Open Scope Z_scope.

(** ** Sums *)
Lemma sum_by_app {A} (f : A -> Z) l1 l2 : sum_by f (l1 ++ l2) = sum_by f l1 + sum_by f l2.
Proof. unfold sum_by. induction l1 as [|x l1 IH]; cbn [app foldr]; [done|]. rewrite IH. lia. Qed.
Lemma sum_by_cons {A} (f : A -> Z) x l : sum_by f (x :: l) = f x + sum_by f l.
Proof. done. Qed.
Lemma sum_by_perm {A} (f : A -> Z) l1 l2 : l1 ≡ₚ l2 -> sum_by f l1 = sum_by f l2.
Proof. induction 1; rewrite ?sum_by_cons in *; lia. Qed.
Lemma sum_by_map {A B} (f : B -> Z) (g : A -> B) l : sum_by f (map g l) = sum_by (fun x => f (g x)) l.
Proof. induction l as [|x l IH]; [done|]. cbn [map]. rewrite !sum_by_cons. lia. Qed.
Lemma sum_by_ext {A} (f g : A -> Z) l : (forall x, x ∈ l -> f x = g x) -> sum_by f l = sum_by g l.
Proof.
  induction l as [|x l IH]; intros H; [done|]. rewrite !sum_by_cons, (H x ltac:(left)), IH; [done|]. intros y Hy. apply H. by right.
Qed.
Lemma sum_by_eq64 {A} (f g : A -> Z) l : (forall x, x ∈ l -> eq64 (f x) (g x)) -> eq64 (sum_by f l) (sum_by g l).
Proof.
  induction l as [|x l IH]; intros H; [done|]. rewrite !sum_by_cons, (H x ltac:(left)). apply add_eq64; [done|]. apply IH. intros y Hy. apply H. by right.
Qed.
Lemma sum_by_one {A} (l : list A) : sum_by (fun _ => 1) l = Z.of_nat (length l).
Proof. induction l as [|x l IH]; [done|]. rewrite sum_by_cons, IH. cbn. lia. Qed.
(** Splitting a sum by keys that are all listed once. *)
Lemma sum_by_keys {A} (key : A -> string) (f : A -> Z) ks l : NoDup ks -> (forall x, x ∈ l -> key x ∈ ks) ->
  sum_by (fun k => sum_by f (List.filter (fun x => (key x =? k)%string) l)) ks = sum_by f l.
Proof.
  intros Hnd. induction l as [|x l IH]; intros Hin.
  { clear. induction ks as [|k ks IH]; [done|]. rewrite sum_by_cons, IH. done. }
  rewrite sum_by_cons, <- IH by (intros y Hy; apply Hin; by right). specialize (Hin x ltac:(left)). clear IH.
  induction ks as [|k ks IH]; [by apply elem_of_nil in Hin|]. apply NoDup_cons in Hnd as [Hk Hnd]. rewrite !sum_by_cons. cbn [List.filter].
  destruct (key x =? k)%string eqn:E.
  - apply String.eqb_eq in E. subst k. rewrite sum_by_cons.
    rewrite (sum_by_ext _ (fun k => sum_by f (List.filter (fun y => (key y =? k)%string) l)) ks); [lia|].
    intros k Hin'. by rewrite (proj2 (String.eqb_neq (key x) k)) by congruence.
  - apply String.eqb_neq in E. apply elem_of_cons in Hin as [|Hin]; [congruence|]. specialize (IH Hnd Hin). cbn [List.filter] in IH. lia.
Qed.

Section usage.
Context `{UnicodeTables} (EffectiveTLDPlusOne : string -> option string) (dataset : Catalog) (table : overrides_table) (group : string).
(** What a host is counted under: its category, or its service. *)
Definition key_of (h : HostCount) : string :=
  let c := Classify EffectiveTLDPlusOne (serviceCatalog dataset table) (hc_Host h) in if (group =? "category")%string then cl_Category c else cl_Service c.
Lemma key_of_group h : group_key EffectiveTLDPlusOne dataset table group h = key_of h.
Proof. done. Qed.
Definition hosts_of (k : string) (hosts : list HostCount) : list HostCount := List.filter (fun h => (key_of h =? k)%string) hosts.
Lemma hosts_of_snoc k hosts h : hosts_of k (hosts ++ [h]) = hosts_of k hosts ++ (if (key_of h =? k)%string then [h] else []).
Proof. unfold hosts_of. rewrite List.filter_app. cbn. done. Qed.
(** After the hosts [hosts]: each key has one row, which counts its hosts. *)
Record tallied (hosts : list HostCount) (t : tally) : Prop := {
  tl_index : forall k p, ta_index t !! k = Some p <-> exists row, ta_rows t !! p = Some row /\ sr_Key row = k;
  tl_rows : forall p row, ta_rows t !! p = Some row -> eq64 (sr_Connections row) (sum_by hc_Connections (hosts_of (sr_Key row) hosts)) /\
    sr_Hosts row = Z.of_nat (length (hosts_of (sr_Key row) hosts)) /\ 0 < sr_Hosts row;
  tl_hosts : forall h, h ∈ hosts -> is_Some (ta_index t !! key_of h);
  tl_total : eq64 (ta_total t) (sum_by hc_Connections hosts)
}.
Lemma counted_row hosts h row : key_of h = sr_Key row ->
  eq64 (sr_Connections row) (sum_by hc_Connections (hosts_of (sr_Key row) hosts)) -> sr_Hosts row = Z.of_nat (length (hosts_of (sr_Key row) hosts)) ->
  eq64 (sr_Connections (add_host (hc_Connections h) row)) (sum_by hc_Connections (hosts_of (sr_Key row) (hosts ++ [h]))) /\
  sr_Hosts (add_host (hc_Connections h) row) = Z.of_nat (length (hosts_of (sr_Key row) (hosts ++ [h]))) /\ 0 < sr_Hosts (add_host (hc_Connections h) row).
Proof.
  intros Hk Hc Hn. rewrite hosts_of_snoc, (proj2 (String.eqb_eq _ _) Hk). cbn [add_host sr_Connections sr_Hosts]. rewrite sum_by_app, length_app, Hn. cbn.
  split; [|lia]. rewrite wrap64_eq64, Hc. apply eq64_eq. lia.
Qed.
Lemma other_row hosts h k : key_of h <> k -> hosts_of k (hosts ++ [h]) = hosts_of k hosts.
Proof. intros Hk. by rewrite hosts_of_snoc, (proj2 (String.eqb_neq _ _) Hk), app_nil_r. Qed.
Lemma index_keys (t : tally) p q row row' : (forall k p, ta_index t !! k = Some p <-> exists row, ta_rows t !! p = Some row /\ sr_Key row = k) ->
  ta_rows t !! p = Some row -> ta_rows t !! q = Some row' -> sr_Key row = sr_Key row' -> p = q.
Proof.
  intros Hi Hp Hq E. assert (H1 : ta_index t !! sr_Key row = Some p) by (apply Hi; eauto).
  assert (H2 : ta_index t !! sr_Key row = Some q) by (apply Hi; eauto). congruence.
Qed.
Lemma count_known hosts t h p row : tallied hosts t -> ta_rows t !! p = Some row -> sr_Key row = key_of h ->
  tallied (hosts ++ [h]) {| ta_index := ta_index t; ta_rows := alter (add_host (hc_Connections h)) p (ta_rows t); ta_total := wrap64 (ta_total t + hc_Connections h) |}.
Proof.
  intros [Ti Tr Th Tt] Hp Hk. assert (Hlk : forall q, alter (add_host (hc_Connections h)) p (ta_rows t) !! q =
    if decide (q = p) then Some (add_host (hc_Connections h) row) else ta_rows t !! q).
  { intros q. destruct (decide (q = p)) as [->|Hne]; [by rewrite list_lookup_alter_eq, Hp|by rewrite list_lookup_alter_ne]. }
  split; cbn [ta_index ta_rows ta_total].
  - intros k q. rewrite Ti, Hlk. destruct (decide (q = p)) as [->|]; [|done]. rewrite Hp. split; intros (r & [= <-] & <-); eauto.
  - intros q r. rewrite Hlk. destruct (decide (q = p)) as [->|Hne].
    + intros [= <-]. destruct (Tr _ _ Hp) as (Hc & Hn & _). exact (counted_row hosts h row (eq_sym Hk) Hc Hn).
    + intros Hq. cbn. rewrite other_row; [by apply (Tr q)|]. rewrite <- Hk. intros E. by apply Hne, eq_sym, (index_keys t p q row r).
  - intros x [Hx| ->%list_elem_of_singleton]%elem_of_app; [by apply Th|]. exists p. apply Ti. eauto.
  - rewrite wrap64_eq64, Tt, sum_by_app. apply eq64_eq. cbn. lia.
Qed.
Lemma count_host_tallied hosts t h : tallied hosts t -> tallied (hosts ++ [h]) (count_host EffectiveTLDPlusOne dataset table group t h).
Proof.
  intros T. unfold count_host. rewrite key_of_group. destruct (ta_index t !! key_of h) as [p|] eqn:E.
  { pose proof (proj1 (tl_index _ _ T _ _) E) as (row & Hp & Hk). by apply (count_known hosts t h p row). }
  destruct T as [Ti Tr Th Tt]. set (row := {| sr_Key := key_of h |}).
  assert (Hfresh : forall p r, ta_rows t !! p = Some r -> sr_Key r <> key_of h) by (intros p r Hp Hk; assert (ta_index t !! key_of h = Some p) by (apply Ti; eauto); congruence).
  assert (Hnone : hosts_of (key_of h) hosts = []).
  { unfold hosts_of. destruct (List.filter _ hosts) as [|x l] eqn:Ef; [done|]. assert (Hx : x ∈ List.filter (fun h0 => (key_of h0 =? key_of h)%string) hosts) by (rewrite Ef; left).
    apply list_elem_of_In, filter_In in Hx as [Hx Hk%String.eqb_eq]. apply list_elem_of_In, Th in Hx as [q Hq]. congruence. }
  set (n := length (ta_rows t)). assert (Hlk : forall q, alter (add_host (hc_Connections h)) n (ta_rows t ++ [row]) !! q =
    if decide (q = n) then Some (add_host (hc_Connections h) row) else ta_rows t !! q).
  { intros q. destruct (decide (q = n)) as [->|Hne].
    - rewrite list_lookup_alter_eq. unfold n. by rewrite list_lookup_middle.
    - rewrite list_lookup_alter_ne by done. destruct (decide (q < n)%nat); [by rewrite lookup_app_l|].
      rewrite (lookup_ge_None_2 (ta_rows t ++ [row])), (lookup_ge_None_2 (ta_rows t)); [done|unfold n in *; lia|rewrite length_app; cbn; unfold n in *; lia]. }
  split; cbn [ta_index ta_rows ta_total].
  - intros k q. rewrite Hlk. destruct (decide (k = key_of h)) as [->|Hk].
    + rewrite lookup_insert_eq. split; [intros [= <-]; rewrite decide_True by done; eauto|].
      destruct (decide (q = n)) as [->|]; [done|]. intros (r & Hr & Hk). by destruct (Hfresh _ _ Hr).
    + rewrite lookup_insert_ne, Ti by done. destruct (decide (q = n)) as [->|]; [|done]. split.
      * intros (r & Hr & _). apply lookup_lt_Some in Hr. unfold n in Hr. lia.
      * intros (r & [= <-] & Hr). cbn in Hr. congruence.
  - intros q r. rewrite Hlk. destruct (decide (q = n)) as [->|].
    + intros [= <-]. apply (counted_row hosts h row); [done|..]; cbn; rewrite Hnone; done.
    + intros Hq. rewrite other_row by (intros Hk; by apply (Hfresh q r)). by apply (Tr q).
  - intros x [Hx| ->%list_elem_of_singleton]%elem_of_app; [|rewrite lookup_insert_eq; eauto].
    destruct (decide (key_of x = key_of h)) as [->|]; [rewrite lookup_insert_eq; eauto|rewrite lookup_insert_ne by done; by apply Th].
  - rewrite wrap64_eq64, Tt, sum_by_app. apply eq64_eq. cbn. lia.
Qed.
Lemma tally_hosts hosts : tallied hosts (foldl (count_host EffectiveTLDPlusOne dataset table group) {| ta_index := ∅; ta_rows := []; ta_total := 0 |} hosts).
Proof.
  induction hosts as [|h hosts IH] using rev_ind; [|rewrite foldl_snoc; by apply count_host_tallied].
  split; cbn; [|done|by intros h ?%elem_of_nil|done]. intros k p. by split; [|intros (r & ? & _)].
Qed.

(** ** The breakdown *)
Lemma NoDup_rows hosts t : tallied hosts t -> NoDup (map sr_Key (ta_rows t)).
Proof.
  intros [Ti _ _ _]. apply NoDup_alt. intros p q k Hp Hq. change (map sr_Key (ta_rows t)) with (sr_Key <$> ta_rows t) in *.
  rewrite list_lookup_fmap in Hp, Hq. destruct (ta_rows t !! p) as [r|] eqn:E1, (ta_rows t !! q) as [r'|] eqn:E2; try done.
  injection Hp as Hp. injection Hq as Hq. apply (index_keys t p q r r'); congruence || done.
Qed.
Lemma rows_sum hosts t : tallied hosts t -> eq64 (sum_by sr_Connections (ta_rows t)) (sum_by hc_Connections hosts) /\
  sum_by sr_Hosts (ta_rows t) = Z.of_nat (length hosts).
Proof.
  intros T. pose proof (NoDup_rows _ _ T) as Hnd. destruct T as [Ti Tr Th _].
  assert (Hin : forall h, h ∈ hosts -> key_of h ∈ map sr_Key (ta_rows t)).
  { intros h Hh. apply Th in Hh as [p Hp]. apply Ti in Hp as (row & Hp & Hk). rewrite <- Hk. apply list_elem_of_In, in_map, list_elem_of_In. by eapply list_elem_of_lookup_2. }
  assert (Hrow : forall row, row ∈ ta_rows t -> exists p, ta_rows t !! p = Some row) by (intros row Hr; by apply list_elem_of_lookup in Hr).
  split.
  - rewrite <- (sum_by_keys key_of hc_Connections (map sr_Key (ta_rows t)) hosts Hnd Hin), sum_by_map. apply sum_by_eq64.
    intros row (p & Hp)%Hrow. by apply (Tr p).
  - transitivity (sum_by (fun _ : HostCount => 1) hosts).
    + rewrite <- (sum_by_keys key_of (fun _ => 1) (map sr_Key (ta_rows t)) hosts Hnd Hin), sum_by_map. apply sum_by_ext.
      intros row (p & Hp)%Hrow. destruct (Tr _ _ Hp) as (_ & -> & _). by rewrite sum_by_one.
    + apply sum_by_one.
Qed.
Lemma fold_rows l o : eq64 (sr_Connections (foldl add_row o l)) (sr_Connections o + sum_by sr_Connections l) /\
  sr_Hosts (foldl add_row o l) = sr_Hosts o + sum_by sr_Hosts l.
Proof.
  revert o. induction l as [|row l IH]; intros o; [cbn; split; [apply eq64_eq|]; lia|]. destruct (IH (add_row o row)) as [H1 H2]. cbn [foldl].
  rewrite !sum_by_cons. rewrite H1, H2. cbn [add_row sr_Connections sr_Hosts]. split; [|lia]. rewrite wrap64_eq64. apply eq64_eq. lia.
Qed.
#[export] Instance row_order_total : Total row_order.
Proof.
  intros a b. unfold row_order. rewrite (Z.eqb_sym (sr_Connections b)). destruct (sr_Connections a =? sr_Connections b) eqn:E; [|lia].
  unfold String.leb. rewrite (String.compare_antisym (sr_Key a) (sr_Key b)). destruct (String.compare (sr_Key b) (sr_Key a)); cbn; auto.
Qed.
Lemma Sorted_take {A} (R : relation A) l n : Sorted R l -> Sorted R (take n l).
Proof.
  revert n. induction l as [|x l IH]; intros [|n] Hl; cbn; try constructor; apply Sorted_inv in Hl as [Hl Hx]; [by apply IH|].
  destruct l, n; cbn; constructor. by inversion Hx.
Qed.
End usage.
Lemma host_counts_sum events limit hosts : NetworkEventHostCounts events limit = Ok (hosts, false) ->
  sum_by hc_Connections hosts = sum_by ev_Count events.
Proof.
  unfold NetworkEventHostCounts. set (n := if _ || _ then _ else limit). set (grouped := map (host_count events) _). destruct (forallb _ grouped); [|done].
  intros [= <- Ht]. rewrite Ht. apply Z.ltb_ge in Ht. rewrite length_take in Ht.
  rewrite take_ge by lia. rewrite (sum_by_perm _ _ grouped) by apply merge_sort_Permutation. unfold grouped. rewrite sum_by_map.
  apply (sum_by_keys (fun e => sql_lower (ev_TargetHost e)) ev_Count); [apply NoDup_remove_dups|].
  intros e He. apply elem_of_remove_dups, list_elem_of_In, in_map_iff. exists e. split; [done|by apply list_elem_of_In].
Qed.
Lemma host_counts_distinct events limit hosts truncated : NetworkEventHostCounts events limit = Ok (hosts, truncated) -> NoDup (map hc_Host hosts).
Proof.
  unfold NetworkEventHostCounts. set (n := if _ || _ then _ else limit). set (grouped := map (host_count events) _). destruct (forallb _ grouped); [|done].
  intros [= <- _]. assert (Hg : NoDup (map hc_Host (merge_sort host_order grouped))).
  { rewrite (Permutation_map hc_Host (merge_sort_Permutation host_order grouped)). unfold grouped. rewrite map_map. cbn. rewrite map_id. apply NoDup_remove_dups. }
  assert (Ht : forall k l, NoDup (map hc_Host l) -> NoDup (map hc_Host (take k l))).
  { intros k l Hl. change (NoDup (hc_Host <$> take k l)). rewrite fmap_take. by eapply sublist_NoDup, sublist_take. }
  destruct (n <? _); auto.
Qed.
(** C21: the breakdown counts every connection once: its rows are distinct keys, at
    most as many as asked for, the largest first, and each counts exactly the hosts
    whose service (or category, if that is asked for) is its key and their connections; together with "Other" they make
    up all hosts and all connections that were counted, which are all there are
    unless the result says that it is truncated.  (Sums are those of int64.) *)
Theorem breakdown_counts_every_connection `{UnicodeTables} E dataset table events group limit r :
  NetworkEventServiceUsage E dataset table events group limit = Ok r ->
  let group := if (group =? "")%string then "service"%string else group in
  exists hosts, NetworkEventHostCounts events networkEventHostScanCap = Ok (hosts, su_Truncated r) /\ NoDup (map hc_Host hosts) /\
    NoDup (map sr_Key (su_Rows r)) /\ Z.of_nat (length (su_Rows r)) <= usage_limit limit /\ Sorted row_order (su_Rows r) /\
    (forall row, row ∈ su_Rows r -> 0 < sr_Hosts row /\ sr_Hosts row = Z.of_nat (length (hosts_of E dataset table group (sr_Key row) hosts)) /\
       eq64 (sr_Connections row) (sum_by hc_Connections (hosts_of E dataset table group (sr_Key row) hosts))) /\
    sum_by sr_Hosts (su_Rows r) + sr_Hosts (su_Other r) = su_TotalHosts r /\ su_TotalHosts r = Z.of_nat (length hosts) /\
    eq64 (sum_by sr_Connections (su_Rows r) + sr_Connections (su_Other r)) (su_TotalConnections r) /\
    eq64 (su_TotalConnections r) (sum_by hc_Connections hosts) /\
    (su_Truncated r = false -> sum_by hc_Connections hosts = sum_by ev_Count events).
Proof.
  intros Hr group'. unfold NetworkEventServiceUsage in Hr. fold group' in Hr. destruct (_ || _) in Hr; [|done].
  destruct (NetworkEventHostCounts events networkEventHostScanCap) as [[hosts truncated]|] eqn:Eh; [|done]. injection Hr as <-. exists hosts.
  cbn [su_Rows su_Other su_TotalConnections su_TotalHosts su_Truncated].
  pose proof (tally_hosts E dataset table group' hosts) as T. set (t := foldl _ _ hosts) in *. destruct (rows_sum _ _ _ _ _ _ T) as [Hc Hn].
  pose proof (NoDup_rows _ _ _ _ _ _ T) as Hnd. destruct T as [Ti Tr Th Tt]. set (rows := merge_sort row_order (ta_rows t)). set (n := Z.to_nat (usage_limit limit)).
  assert (Hp : rows ≡ₚ ta_rows t) by apply merge_sort_Permutation.
  assert (Hpos : 0 <= usage_limit limit) by (unfold usage_limit, serviceUsageDefaultLimit, serviceUsageMaxLimit; destruct (limit <=? 0) eqn:E1; [done|]; destruct (100 <? limit) eqn:E2; lia).
  assert (Hshown : (if usage_limit limit <? Z.of_nat (length rows) then take n rows else rows) = take n rows).
  { destruct (_ <? _) eqn:El; [done|]. rewrite take_ge; [done|]. unfold n. lia. }
  assert (Hother : sum_by sr_Hosts (drop n rows) = sr_Hosts (if usage_limit limit <? Z.of_nat (length rows) then foldl add_row other (drop n rows) else other) /\
    eq64 (sr_Connections (if usage_limit limit <? Z.of_nat (length rows) then foldl add_row other (drop n rows) else other)) (sum_by sr_Connections (drop n rows))).
  { destruct (_ <? _) eqn:El; [|by rewrite drop_ge by (unfold n; lia)]. destruct (fold_rows (drop n rows) other) as [F1 F2]. split; [rewrite F2; reflexivity|exact F1]. }
  rewrite Hshown. destruct Hother as [Ho1 Ho2].
  assert (Hsum : forall f, sum_by f (take n rows) + sum_by f (drop n rows) = sum_by f (ta_rows t)).
  { intros f. by rewrite <- sum_by_app, take_drop, (sum_by_perm f _ _ Hp). }
  split; [done|]. split; [by eapply host_counts_distinct|].
  split. { change (NoDup (sr_Key <$> take n rows)). rewrite fmap_take. eapply sublist_NoDup; [|apply sublist_take].
    change (NoDup (map sr_Key rows)). by rewrite (Permutation_map sr_Key Hp). }
  split; [rewrite length_take; unfold n; lia|]. split; [apply Sorted_take, Sorted_merge_sort; apply _|].
  split. { intros row (i & Hrow & _)%elem_of_take. apply list_elem_of_lookup_2 in Hrow. rewrite Hp in Hrow. apply list_elem_of_lookup in Hrow as [p Hrow]. destruct (Tr _ _ Hrow) as (H1 & H2 & H3). done. }
  split; [by rewrite <- Ho1, Hsum, Hn|]. split; [done|]. split; [by rewrite Ho2, Hsum, Hc, Tt|]. split; [done|].
  intros ->. by eapply host_counts_sum.
Qed.

(** ** Witnesses *)
#[local] Existing Instance ascii_only_tables.
Definition w_event (host : string) (count : Z) : event := {| ev_TargetHost := host; ev_Count := count; ev_WindowEnd := "2026-01-01T00:00:00.000Z" |}.
Definition w_events : list event := [w_event "A.one.example" 5; w_event "a.one.example" 1; w_event "two.example" 2; w_event "b.one.example" 3; w_event "10.0.0.1" 1]%string.
Definition w_dataset : Catalog := {|
  ca_version := "1"; ca_source := "s"; ca_exacts := ∅; ca_overrides := ∅;
  ca_suffixes := {["one.example" := {| en_service := "one"; en_label := "One"; en_category := "c" |}]} |}%string.
Definition w_no_tld (name : string) : option string := None.
Definition w_result : ServiceUsageResult :=
  match NetworkEventServiceUsage w_no_tld w_dataset ∅ w_events "" 2 with
  | Ok r => r
  | Err _ => {| su_Rows := []; su_Other := other; su_TotalConnections := 0; su_TotalHosts := 0; su_Truncated := false; su_CatalogVersion := "" |}
  end.
Example breakdown_counts_every_connection_witness :
  map (fun row => (sr_Key row, sr_Connections row, sr_Hosts row)) (su_Rows w_result) = [("one", 9, 2); ("two.example", 2, 1)]%string /\
  sr_Connections (su_Other w_result) = 1 /\ exists hosts, sum_by hc_Connections hosts = sum_by ev_Count w_events /\
    eq64 (sum_by sr_Connections (su_Rows w_result) + sr_Connections (su_Other w_result)) (su_TotalConnections w_result).
Proof.
  split; [vm_compute; reflexivity|]. split; [vm_compute; reflexivity|].
  assert (Hr : NetworkEventServiceUsage w_no_tld w_dataset ∅ w_events "" 2 = Ok w_result) by (vm_compute; reflexivity).
  pose proof (breakdown_counts_every_connection w_no_tld w_dataset ∅ w_events "" 2 w_result Hr) as (hosts & _ & _ & _ & _ & _ & _ & _ & _ & Hs & _ & Hall).
  exists hosts. split; [|exact Hs]. apply Hall. vm_compute. reflexivity.
Defined.

(** ** What does not hold of the operator's rules *)
Definition w_rule (suffix service : string) : Override := {| ov_Suffix := suffix; ov_Service := service; ov_Label := ""; ov_Category := "" |}.
Definition put_rule (t : overrides_table) (o : Override) : overrides_table :=
  match UpsertDomainServiceOverride t o with Ok (t, _) => t | Err _ => t end.
(** The suffix of a rule is not normalised as the catalogue normalises hosts:
    with brackets around it the same suffix is a second row, deleting one leaves
    the other in force, and which of the two decides depends on the order of the
    texts.  A rule for an address is accepted and never decides. *)
Example bracketed_rule_shadows :
  let t := put_rule (put_rule ∅ (w_rule "[one.example]" "first")) (w_rule "one.example" "second") in
  size t = 2%nat /\
  cl_Service (classify w_no_tld w_dataset t (host_count [] "one.example")) = "second"%string /\
  (exists t', DeleteDomainServiceOverride t "one.example" = Ok t' /\ cl_Service (classify w_no_tld w_dataset t' (host_count [] "one.example")) = "first"%string) /\
  (exists t', UpsertDomainServiceOverride t (w_rule "10.0.0.1" "printer") = Ok (t', w_rule "10.0.0.1" "printer") /\
     cl_Service (classify w_no_tld w_dataset t' (host_count [] "10.0.0.1")) = "10.0.0.1"%string).
Proof.
  intros t. split; [vm_compute; reflexivity|]. split; [vm_compute; reflexivity|]. split.
  - eexists. split; [reflexivity|]. vm_compute. reflexivity.
  - exists (put_rule t (w_rule "10.0.0.1" "printer")). split; vm_compute; reflexivity.
Qed.
