(* ===== verification/MihomoCompile.v ===== *)
(** * The compiler of Mihomo profiles ([src/internal/server/mihomo/compiler.go])

    A profile is a tree of maps, lists and scalars; rewrites patch it one after
    another.  Go walks a map in an order of its own: [order] is the order of one
    walk.  YAML and the engine that runs scripts are parameters. *)
From S2P Require Import Prelude GoStrings GoNet Ingest.

#[local] Open Scope Z_scope.

(** ** Values *)
(** [VScalar] is whatever is no string, list or map with string keys.  What YAML
    or JSON decodes shares nothing, so a value stands for the object. *)
Unset Elimination Schemes.
Inductive value :=
| VScalar (text : string)
| VString (s : string)
| VList (items : list value)
| VMap (fields : gmap string value).
Set Elimination Schemes.
Abbreviation profile := (gmap string value).
Fixpoint depth (v : value) : nat :=
  match v with
  | VScalar _ | VString _ => O
  | VList items => S (foldr (fun x n => depth x `max` n)%nat O items)
  | VMap fields => S (map_fold (fun _ x n => depth x `max` n)%nat O fields)
  end.

(** ** Merging *)
Definition unwrapKey (key : string) : string :=
  if HasPrefix key "<" && HasSuffix key ">" then TrimSuffix (TrimPrefix key "<") ">" else key.
Definition items_of (v : option value) : list value := match v with Some (VList items) => items | _ => [] end.
Section merge.
Variable order : profile -> list (string * value).
(** One round of the loop over [patch]; [merge] is the recursive call. *)
Definition merge_field (merge : profile -> profile -> profile) (target : profile) (kv : string * value) : profile :=
  let (key, v) := kv in
  match v with
  | VMap typed =>
      if HasSuffix key "!" then <[unwrapKey (TrimSuffix key "!") := VMap typed]> target
      else
        let actual := unwrapKey key in
        let nested := match target !! actual with Some (VMap nested) => nested | _ => ∅ end in
        <[actual := VMap (merge nested typed)]> target
  | VList typed =>
      if HasPrefix key "+" then
        let actual := unwrapKey (TrimPrefix key "+") in <[actual := VList (typed ++ items_of (target !! actual))]> target
      else if HasSuffix key "+" then
        let actual := unwrapKey (TrimSuffix key "+") in <[actual := VList (items_of (target !! actual) ++ typed)]> target
      else <[unwrapKey key := VList typed]> target
  | _ => <[key := v]> target
  end.
(** Each call goes one map deeper into the patch. *)
Fixpoint merge_from (fuel : nat) (target patch : profile) : profile :=
  match fuel with
  | O => target
  | S fuel => foldl (merge_field (merge_from fuel)) target (order patch)
  end.
Definition mergeMap (target patch : profile) : profile := merge_from (depth (VMap patch)) target patch.
End merge.

(** ** Compilation *)
Inductive RewriteKind := RewriteYAML | RewriteJavaScript | RewriteUnknown (kind : string).
Record Rewrite := { rw_Name : string; rw_Kind : RewriteKind; rw_Content : string }.
Record Limits := { lm_MaxSourceBytes : Z; lm_MaxInputBytes : Z; lm_MaxOutputBytes : Z; lm_MaxLogBytes : Z }.
Definition DefaultLimits : Limits := {| lm_MaxSourceBytes := 262144; lm_MaxInputBytes := 4194304; lm_MaxOutputBytes := 4194304; lm_MaxLogBytes := 65536 |}.
Definition NewCompiler (l : Limits) : Limits :=
  let or_default f := if f l <=? 0 then f DefaultLimits else f l in {|
  lm_MaxSourceBytes := or_default lm_MaxSourceBytes; lm_MaxInputBytes := or_default lm_MaxInputBytes;
  lm_MaxOutputBytes := or_default lm_MaxOutputBytes; lm_MaxLogBytes := or_default lm_MaxLogBytes |}.
Inductive ErrorKind :=
| ErrorInvalidProfile | ErrorInvalidRewrite | ErrorInvalidScript | ErrorInvalidResult | ErrorAsyncUnsupported | ErrorTimeout | ErrorCanceled | ErrorLimitExceeded.
Record CompileError := { ce_Kind : ErrorKind; ce_Rewrite : string }.
Record LogEntry := { le_Rewrite : string; le_Level : string; le_Message : string }.
Record CompileResult := { cr_YAML : string; cr_Logs : list LogEntry }.
Definition size_of (s : string) : Z := Z.of_nat (String.length s).

Definition truncateUTF8 (v : string) (maxBytes : Z) : string :=
  if size_of v <=? maxBytes then v else of_bytes (cut_valid (Z.to_nat maxBytes) (to_bytes v)).
(** appendLog: the log and the bytes used *)
Definition appendLog (l : Limits) (logs : list LogEntry * Z) (entry : LogEntry) : list LogEntry * Z :=
  let (entries, used) := logs in
  if lm_MaxLogBytes l <=? used then logs
  else
    let remaining := lm_MaxLogBytes l - used in
    if remaining <? size_of (le_Message entry) then
      (entries ++ [{| le_Rewrite := le_Rewrite entry; le_Level := le_Level entry;
                      le_Message := (truncateUTF8 (le_Message entry) remaining ++ " [truncated]")%string |}], lm_MaxLogBytes l)
    else (entries ++ [entry], used + size_of (le_Message entry)).

(** How a script ends: the run or the call of main fails, by itself or because
    its time is over or the request is; there is no main; it returns a promise;
    its result cannot be written as JSON, or is this JSON text. *)
Inductive script_end := ScriptFails | ScriptTimesOut | ScriptCanceled | NoMain | ProfileNotJSON | Promise | NotJSON | Returns (json : string).
Section compile.
(** yaml.Unmarshal, yaml.Marshal, json.Unmarshal into a map ([None] for an error
    and for null); a script with what it logs; whether the request is over before
    the [i]th rewrite. *)
Variables (unmarshal : string -> option value) (marshal : profile -> option string) (json_object : string -> option profile).
Variable script : string -> profile -> list (string * string) * script_end.
Variable canceled : nat -> bool.
Variable order : profile -> list (string * value).
Variable limits : Limits.
Definition decodeProfile (raw : string) : option profile := match unmarshal raw with Some (VMap p) => Some p | _ => None end.
Definition error {A} (kind : ErrorKind) (rewrite : string) : result CompileError A := Err {| ce_Kind := kind; ce_Rewrite := rewrite |}.
Definition MergeYAML (baseYAML patchYAML : string) : option string :=
  match decodeProfile baseYAML, decodeProfile patchYAML with Some base, Some patch => marshal (mergeMap order base patch) | _, _ => None end.
Definition script_error (s : script_end) : ErrorKind :=
  match s with
  | ScriptTimesOut => ErrorTimeout | ScriptCanceled => ErrorCanceled | ScriptFails | NoMain => ErrorInvalidScript
  | ProfileNotJSON => ErrorInvalidProfile | Promise => ErrorAsyncUnsupported | NotJSON | Returns _ => ErrorInvalidResult
  end.
Definition runJavaScript (p : profile) (rewrite : Rewrite) (logs : list LogEntry * Z) : result CompileError (profile * (list LogEntry * Z)) :=
  let (lines, ends) := script (rw_Content rewrite) p in
  let logs := foldl (fun logs line => appendLog limits logs {| le_Rewrite := rw_Name rewrite; le_Level := line.1; le_Message := line.2 |}) logs lines in
  match ends with
  | Returns raw =>
      if lm_MaxOutputBytes limits <? size_of raw then error ErrorLimitExceeded (rw_Name rewrite)
      else match json_object raw with Some output => Ok (output, logs) | None => error ErrorInvalidResult (rw_Name rewrite) end
  | ends => error (script_error ends) (rw_Name rewrite)
  end.
Definition encode (p : profile) (name : string) : result CompileError string :=
  match marshal p with
  | None => error ErrorInvalidResult name
  | Some encoded => if lm_MaxOutputBytes limits <? size_of encoded then error ErrorLimitExceeded name else Ok encoded
  end.
Definition apply_rewrite (i : nat) (p : profile) (rewrite : Rewrite) (logs : list LogEntry * Z) : result CompileError (profile * (list LogEntry * Z)) :=
  if canceled i then error ErrorCanceled (rw_Name rewrite)
  else if lm_MaxSourceBytes limits <? size_of (rw_Content rewrite) then error ErrorLimitExceeded (rw_Name rewrite)
  else
    let? (p, logs) := (match rw_Kind rewrite with
      | RewriteYAML => match decodeProfile (rw_Content rewrite) with
                       | Some patch => Ok (mergeMap order p patch, logs)
                       | None => error ErrorInvalidRewrite (rw_Name rewrite)
                       end
      | RewriteJavaScript => runJavaScript p rewrite logs
      | RewriteUnknown _ => error ErrorInvalidRewrite (rw_Name rewrite)
      end) in
    let? _ := encode p (rw_Name rewrite) in
    Ok (p, logs).
Fixpoint apply_rewrites (i : nat) (p : profile) (rewrites : list Rewrite) (logs : list LogEntry * Z) : result CompileError (profile * (list LogEntry * Z)) :=
  match rewrites with
  | [] => Ok (p, logs)
  | rewrite :: rest => let? (p, logs) := apply_rewrite i p rewrite logs in apply_rewrites (S i) p rest logs
  end.
Definition Compile (baseYAML : string) (rewrites : list Rewrite) : result CompileError CompileResult :=
  if lm_MaxInputBytes limits <? size_of baseYAML then error ErrorLimitExceeded ""
  else match decodeProfile baseYAML with
  | None => error ErrorInvalidProfile ""
  | Some p =>
      let? (p, logs) := apply_rewrites 0 p rewrites ([], 0) in
      let? yaml := encode p "" in
      Ok {| cr_YAML := yaml; cr_Logs := logs.1 |}
  end.
End compile.
