(* ===== verification/MihomoMerge.v ===== *)
(** * What merging a patch does ([MihomoCompile.mergeMap])

    A patch in which no two keys name the same field acts field by field, in
    whatever order Go walks its maps; where two keys do, the result depends on
    that order. *)
From S2P Require Import Prelude GoStrings GoNet Ingest MihomoCompile.

#[local] Open Scope Z_scope.

(** ** One entry *)
(** The field a key of a patch names, and what becomes of it. *)
Definition field_of (key : string) (v : value) : string :=
  match v with
  | VMap _ => if HasSuffix key "!" then unwrapKey (TrimSuffix key "!") else unwrapKey key
  | VList _ => if HasPrefix key "+" then unwrapKey (TrimPrefix key "+") else if HasSuffix key "+" then unwrapKey (TrimSuffix key "+") else unwrapKey key
  | _ => key
  end.
(** A key in angle brackets names what they hold, any other key itself. *)
Lemma unwrapKey_wrapped name : unwrapKey ("<" ++ name ++ ">")%string = name.
Proof.
  unfold unwrapKey. assert (Hs : forall s, HasSuffix (s ++ ">") ">" = true /\ TrimSuffix (s ++ ">") ">" = s).
  { intros s. assert (H : HasSuffix (s ++ ">") ">" = true); [|split; [done|]].
    - unfold HasSuffix. rewrite str_length_app. cbn [String.length]. rewrite Nat.add_sub, str_drop_length. apply andb_true_iff. split; [apply Nat.leb_le; lia|done].
    - unfold TrimSuffix. rewrite H, str_length_app. cbn [String.length]. rewrite Nat.add_sub. apply str_take_app. }
  replace (HasPrefix ("<" ++ name ++ ">") "<") with true by (by destruct name). rewrite str_app_assoc, (proj1 (Hs ("<" ++ name)%string)), <- str_app_assoc. cbn [andb].
  unfold TrimPrefix. replace (HasPrefix ("<" ++ name ++ ">") "<") with true by (by destruct name).
  rewrite (str_drop_length "<" (name ++ ">") : str_drop (String.length "<") ("<" ++ name ++ ">") = (name ++ ">")%string). apply Hs.
Qed.
Lemma unwrapKey_bare key : (forall name, key <> ("<" ++ name ++ ">")%string) -> unwrapKey key = key.
Proof.
  intros Hk. unfold unwrapKey. destruct (HasPrefix key "<" && HasSuffix key ">") eqn:E; [exfalso|done]. apply andb_true_iff in E as [Hp Hs].
  destruct key as [|c rest]; [done|]. unfold HasPrefix in Hp. cbn [String.prefix] in Hp. destruct (ascii_dec "<" c) as [<-|]; [|done].
  unfold HasSuffix in Hs. apply andb_true_iff in Hs as [_ Hs%String.eqb_eq]. destruct rest as [|d rest]; [done|].
  apply (Hk (str_take (String.length rest) (String d rest))).
  change (String "<" (String d rest) = String "<" (str_take (String.length rest) (String d rest) ++ ">")). f_equal. rewrite <- Hs. symmetry.
  change (str_drop (String.length (String "<" (String d rest)) - String.length ">") (String "<" (String d rest))) with (str_drop (String.length rest) (String d rest)).
  apply str_take_drop.
Qed.
Definition map_or_empty (v : option value) : profile := match v with Some (VMap m) => m | _ => ∅ end.
Definition merged_value (merge : profile -> profile -> profile) (old : option value) (key : string) (v : value) : value :=
  match v with
  | VMap typed => if HasSuffix key "!" then v else VMap (merge (map_or_empty old) typed)
  | VList typed => VList (if HasPrefix key "+" then typed ++ items_of old else if HasSuffix key "+" then items_of old ++ typed else typed)
  | _ => v
  end.
Lemma merge_field_eq merge target k v : merge_field merge target (k, v) = <[field_of k v := merged_value merge (target !! field_of k v) k v]> target.
Proof. destruct v; cbn; [done..| |]; [destruct (HasPrefix k "+"); [done|]; by destruct (HasSuffix k "+")|by destruct (HasSuffix k "!")]. Qed.

(** ** Depth *)
Lemma depth_field (m : profile) k v : m !! k = Some v -> (depth v < depth (VMap m))%nat.
Proof.
  intros Hk. cbn. rewrite map_fold_foldr. apply elem_of_map_to_list in Hk. induction (map_to_list m) as [|[k' v'] l IH]; [by apply elem_of_nil in Hk|].
  apply elem_of_cons in Hk as [[= <- <-]|Hk]; cbn in *; [lia|]. specialize (IH Hk). lia.
Qed.

(** ** Patches whose keys name different fields *)
Inductive clear : profile -> Prop := clear_intro m :
  (forall k1 v1 k2 v2, m !! k1 = Some v1 -> m !! k2 = Some v2 -> field_of k1 v1 = field_of k2 v2 -> k1 = k2) ->
  (forall k sub, m !! k = Some (VMap sub) -> HasSuffix k "!" = false -> clear sub) -> clear m.
Definition walks (order : profile -> list (string * value)) : Prop := forall m, order m ≡ₚ map_to_list m.
Lemma fold_other merge l target a : (forall k v, (k, v) ∈ l -> field_of k v <> a) -> foldl (merge_field merge) target l !! a = target !! a.
Proof.
  revert target. induction l as [|[k v] l IH]; intros target Ha; [done|]. cbn [foldl]. rewrite IH by (intros k' v' Hin; apply Ha; by right).
  rewrite merge_field_eq, lookup_insert_ne; [done|]. apply Ha. left.
Qed.
Lemma fold_field merge l target k v : (k, v) ∈ l -> NoDup (map (fun kv => field_of kv.1 kv.2) l) ->
  foldl (merge_field merge) target l !! field_of k v = Some (merged_value merge (target !! field_of k v) k v).
Proof.
  revert target. induction l as [|[k' v'] l IH]; intros target Hin Hnd; [by apply elem_of_nil in Hin|]. cbn [foldl]. cbn [map fst snd] in Hnd.
  apply NoDup_cons in Hnd as [Hn Hnd]. assert (Hne : forall k2 v2, (k2, v2) ∈ l -> field_of k2 v2 <> field_of k' v').
  { intros k2 v2 H2 E. apply Hn. rewrite <- E. apply list_elem_of_In, in_map_iff. exists (k2, v2). split; [done|by apply list_elem_of_In]. }
  apply elem_of_cons in Hin as [[= -> ->]|Hin].
  - rewrite fold_other by done. by rewrite merge_field_eq, lookup_insert_eq.
  - rewrite IH by done. rewrite merge_field_eq, lookup_insert_ne by (by apply not_eq_sym, Hne). done.
Qed.
Lemma walk_in order (m : profile) k v : walks order -> (k, v) ∈ order m <-> m !! k = Some v.
Proof. intros Hw. by rewrite (Hw m), elem_of_map_to_list. Qed.
Lemma walk_fields order m : walks order -> clear m -> NoDup (map (fun kv => field_of kv.1 kv.2) (order m)).
Proof.
  intros Hw Hc. destruct Hc as [m Hk _]. rewrite (Permutation_map _ (Hw m)).
  assert (Hg : forall l : list (string * value), NoDup l.*1 -> (forall k v, (k, v) ∈ l -> m !! k = Some v) -> NoDup (map (fun kv => field_of kv.1 kv.2) l)).
  { induction l as [|[k v] l IH]; intros Hnd Hin; [constructor|]. cbn in *. apply NoDup_cons in Hnd as [Hn Hnd]. constructor.
    - intros ([k2 v2] & E & H2%list_elem_of_In)%list_elem_of_In%in_map_iff. cbn in E. apply Hn.
      assert (k2 = k) as -> by (eapply Hk; [apply Hin; by right|apply Hin; left|done]). apply list_elem_of_In, in_map_iff. exists (k, v2). split; [done|by apply list_elem_of_In].
    - apply IH; [done|]. intros k' v' H'. apply Hin. by right. }
  apply Hg; [apply NoDup_fst_map_to_list|]. intros k v. by rewrite elem_of_map_to_list.
Qed.
Lemma merged_value_ext merge merge' old k v : (forall sub, v = VMap sub -> HasSuffix k "!" = false -> merge (map_or_empty old) sub = merge' (map_or_empty old) sub) ->
  merged_value merge old k v = merged_value merge' old k v.
Proof. intros H. destruct v; cbn; try done. destruct (HasSuffix k "!") eqn:E; [done|]. by rewrite (H fields). Qed.
(** Enough fuel and any order give the same. *)
Lemma merge_from_same o o' patch : walks o -> walks o' -> clear patch -> forall fuel fuel' target,
  (depth (VMap patch) <= fuel)%nat -> (depth (VMap patch) <= fuel')%nat -> merge_from o fuel target patch = merge_from o' fuel' target patch.
Proof.
  intros Hw Hw' Hc. induction Hc as [m Hk Hsub IH]. assert (Hc : clear m) by by constructor. intros [|fuel] [|fuel'] target Hf Hf'; try (cbn in Hf, Hf'; lia).
  cbn [merge_from]. apply map_eq. intros a. destruct (decide (exists k v, m !! k = Some v /\ field_of k v = a)) as [(k & v & Hkv & <-)|Hn].
  - rewrite !fold_field by (by apply walk_in || by apply walk_fields). f_equal. apply merged_value_ext. intros sub -> Hs.
    apply depth_field in Hkv as Hd. eapply IH; [exact Hkv|done|lia|lia].
  - rewrite !fold_other; [done|..]; intros k v Hin E; apply Hn; exists k, v; (split; [|done]).
    + by apply (walk_in o').
    + by apply (walk_in o).
Qed.
(** The entries that name field [a]. *)
Definition names_field (patch : profile) (a : string) : Prop := exists k v, patch !! k = Some v /\ field_of k v = a.

(** C29: A clear patch acts field by field: the field an entry names gets what the
    key's mark asks for (replaced, put before, put after, merged in turn), a field
    no entry names keeps its value, and the order in which Go walks the maps is of
    no consequence.  Without its mark a key in angle brackets names what they
    hold, and any other key itself. *)
Theorem merge_acts_by_field order target patch (Hw : walks order) (Hc : clear patch) :
  (forall k v, patch !! k = Some v -> mergeMap order target patch !! field_of k v = Some (merged_value (mergeMap order) (target !! field_of k v) k v)) /\
  (forall a, ~ names_field patch a -> mergeMap order target patch !! a = target !! a) /\
  (forall order', walks order' -> mergeMap order' target patch = mergeMap order target patch) /\
  (forall name, unwrapKey ("<" ++ name ++ ">") = name) /\ (forall key, (forall name, key <> ("<" ++ name ++ ">")%string) -> unwrapKey key = key).
Proof.
  split; [|split; [|split; [|by split; [apply unwrapKey_wrapped|apply unwrapKey_bare]]]]; unfold mergeMap.
  - intros k v Hkv. destruct (depth (VMap patch)) as [|n] eqn:En; [done|]. cbn [merge_from].
    rewrite fold_field by (by apply walk_in || by apply walk_fields). f_equal. apply merged_value_ext. intros sub -> Hs.
    apply depth_field in Hkv as Hd. destruct Hc as [m _ Hsub]. apply (merge_from_same order order sub); eauto. lia.
  - intros a Hn. destruct (depth (VMap patch)) as [|n]; [done|]. cbn [merge_from]. apply fold_other. intros k v Hin%walk_in E; [|done].
    apply Hn. by exists k, v.
  - intros order' Hw'. by apply merge_from_same.
Qed.

Definition one_walk : profile -> list (string * value) := map_to_list.
Lemma one_walk_walks : walks one_walk.
Proof. intros m. by unfold one_walk. Qed.
Definition sample_target : profile := <["rules" := VList [VString "MATCH,DIRECT"]]> (<["dns" := VMap {["enable" := VScalar "true"]}]> ∅).
Definition sample_patch : profile := <["+rules" := VList [VString "DOMAIN,x.test,REJECT"]]> (<["dns" := VMap {["ipv6" := VScalar "false"]}]> ∅).
Lemma sample_clear : clear sample_patch.
Proof.
  constructor.
  - intros k1 v1 k2 v2 H1 H2. unfold sample_patch in *.
    repeat match goal with H : <[_ := _]> _ !! _ = Some _ |- _ => apply lookup_insert_Some in H as [[<- <-]|[_ H]] | H : (∅ : profile) !! _ = Some _ |- _ => by rewrite lookup_empty in H end; by vm_compute.
  - intros k sub H _. unfold sample_patch in *. apply lookup_insert_Some in H as [[_ [=]]|[_ H]]. apply lookup_insert_Some in H as [[_ [= <-]]|[_ H]]; [|by rewrite lookup_empty in H].
    constructor.
    + by intros k1 v1 k2 v2 [<- <-]%lookup_singleton_Some [<- <-]%lookup_singleton_Some.
    + by intros k' sub' [_ [=]]%lookup_singleton_Some.
Qed.
Lemma merge_acts_by_field_witness : walks one_walk /\ clear sample_patch /\
  mergeMap one_walk sample_target sample_patch !! "rules"%string = Some (VList [VString "DOMAIN,x.test,REJECT"; VString "MATCH,DIRECT"]).
Proof.
  split; [exact one_walk_walks|]. split; [exact sample_clear|].
  exact (proj1 (merge_acts_by_field one_walk sample_target sample_patch one_walk_walks sample_clear) "+rules"%string (VList [VString "DOMAIN,x.test,REJECT"]) ltac:(by vm_compute)).
Defined.

(** Finding: a patch with both [rules] and [+rules] is accepted, and what it makes
    depends on which of the two Go happens to visit first. *)
Definition other_walk (m : profile) : list (string * value) := rev (map_to_list m).
Definition twice : profile := <["rules" := VList [VString "b"]]> (<["+rules" := VList [VString "a"]]> ∅).
Theorem merge_depends_on_order : walks one_walk /\ walks other_walk /\
  mergeMap one_walk ∅ twice !! "rules"%string <> mergeMap other_walk ∅ twice !! "rules"%string.
Proof.
  split; [exact one_walk_walks|]. split; [intros m; unfold other_walk; symmetry; apply Permutation_rev|]. by vm_compute.
Qed.
