(* ===== verification/MihomoValidate.v ===== *)
(** * Checking a Mihomo profile ([src/internal/server/mihomo/validate.go])

    [Validate] on the decoded profile, with the two searches for cycles.  The
    messages of the diagnostics are left out; every diagnostic is an error. *)
From S2P Require Import Prelude GoStrings GoNet MihomoCompile.

#[local] Open Scope Z_scope.

Record Diagnostic := { dg_Code : string; dg_Path : string }.
Definition errorDiagnostic (code path : string) : Diagnostic := {| dg_Code := code; dg_Path := path |}.
Definition built_in : list string := ["DIRECT"; "REJECT"; "REJECT-DROP"; "PASS"; "COMPATIBLE"]%string.
Definition string_field (m : profile) (key : string) : string := match m !! key with Some (VString s) => s | _ => ""%string end.
Definition at_index (list : string) (i : nat) : string := (list ++ "[" ++ FormatInt (Z.of_nat i) ++ "]")%string.

(** ** The lists *)
Record checked := {
  vk_known : gmap string string; vk_dialers : gmap string string; vk_members : gmap string (list string); vk_diagnostics : list Diagnostic
}.
Definition report (d : Diagnostic) (st : checked) : checked := {|
  vk_known := vk_known st; vk_dialers := vk_dialers st; vk_members := vk_members st; vk_diagnostics := vk_diagnostics st ++ [d] |}.
Definition know (name path : string) (st : checked) : checked := {|
  vk_known := <[name := path]> (vk_known st); vk_dialers := vk_dialers st; vk_members := vk_members st; vk_diagnostics := vk_diagnostics st |}.
Definition dial (name dialer : string) (st : checked) : checked := {|
  vk_known := vk_known st; vk_dialers := <[name := dialer]> (vk_dialers st); vk_members := vk_members st; vk_diagnostics := vk_diagnostics st |}.
Definition join (name member : string) (st : checked) : checked := {|
  vk_known := vk_known st; vk_dialers := vk_dialers st;
  vk_members := <[name := default [] (vk_members st !! name) ++ [member]]> (vk_members st); vk_diagnostics := vk_diagnostics st |}.
Definition check_proxy (index : nat) (item : value) (st : checked) : checked :=
  let path := at_index "proxies" index in
  match item with
  | VMap proxy =>
      let name := TrimSpace (string_field proxy "name") in
      if (name =? "")%string then report (errorDiagnostic "missing_name" (path ++ ".name")) st
      else match vk_known st !! name with
      | Some _ => report (errorDiagnostic "duplicate_name" (path ++ ".name")) st
      | None =>
          let st := know name path st in
          match proxy !! "dialer-proxy"%string with
          | None => st
          | Some (VString dialer) =>
              let dialer := TrimSpace dialer in
              if (dialer =? "")%string then report (errorDiagnostic "invalid_dialer_reference" (path ++ ".dialer-proxy")) st else dial name dialer st
          | Some _ => report (errorDiagnostic "invalid_dialer_reference" (path ++ ".dialer-proxy")) st
          end
      end
  | _ => report (errorDiagnostic "invalid_proxy" path) st
  end.
Definition check_member (name path : string) (index : nat) (member : value) (st : checked) : checked :=
  match member with
  | VString member => if (TrimSpace member =? "")%string then report (errorDiagnostic "invalid_reference" (at_index (path ++ ".proxies") index)) st
                      else join name member st
  | _ => report (errorDiagnostic "invalid_reference" (at_index (path ++ ".proxies") index)) st
  end.
Fixpoint each_from {A} (f : nat -> A -> checked -> checked) (i : nat) (l : list A) (st : checked) : checked :=
  match l with
  | [] => st
  | x :: l => each_from f (S i) l (f i x st)
  end.
Definition check_group (index : nat) (item : value) (st : checked) : checked :=
  let path := at_index "proxy-groups" index in
  match item with
  | VMap group =>
      let name := TrimSpace (string_field group "name") in
      if (name =? "")%string then report (errorDiagnostic "missing_name" (path ++ ".name")) st
      else
        let st := match vk_known st !! name with
                  | Some _ => report (errorDiagnostic "duplicate_name" (path ++ ".name")) st
                  | None => know name path st
                  end in
        each_from (check_member name path) 0 (items_of (group !! "proxies"%string)) st
  | _ => report (errorDiagnostic "invalid_proxy_group" path) st
  end.
Definition check_list (code key : string) (check : nat -> value -> checked -> checked) (p : profile) (st : checked) : checked :=
  match p !! key with Some (VList items) => each_from check 0 items st | _ => report (errorDiagnostic code key) st end.

(** ** Cycles *)
(** Where a node is in the search: being visited, or done. *)
Inductive colour := visiting | visited.
#[export] Instance colour_eq_dec : EqDecision colour.
Proof. solve_decision. Defined.
Definition search : Type := gmap string colour * gset string.
Section groups.
Variable groups : gmap string (list string).
(** Each nested call colours another group. *)
Fixpoint visit_group (fuel : nat) (st : search) (group : string) : search :=
  match fuel with
  | O => st
  | S fuel =>
      match st.1 !! group with
      | Some visiting => (st.1, {[group]} ∪ st.2)
      | Some visited => st
      | None =>
          let st := (<[group := visiting]> st.1, st.2) in
          let st := foldl (fun st member => if decide (is_Some (groups !! member)) then visit_group fuel st member else st) st (default [] (groups !! group)) in
          (<[group := visited]> st.1, st.2)
      end
  end.
Definition findGroupCycles : list string := elements (foldl (visit_group (S (size groups))) (∅, ∅) (map_to_list groups).*1).2.
End groups.
Section dialers.
Variable dialers : gmap string string.
Fixpoint visit_dialer (fuel : nat) (st : search) (proxy : string) : search :=
  match fuel with
  | O => st
  | S fuel =>
      match st.1 !! proxy with
      | Some visiting => (st.1, {[proxy]} ∪ st.2)
      | Some visited => st
      | None =>
          let st := (<[proxy := visiting]> st.1, st.2) in
          let st := match dialers !! proxy with
                    | Some next => if decide (is_Some (dialers !! next)) then visit_dialer fuel st next else st
                    | None => st
                    end in
          (<[proxy := visited]> st.1, st.2)
      end
  end.
Definition findDialerCycles : list string := elements (foldl (visit_dialer (S (size dialers))) (∅, ∅) (map_to_list dialers).*1).2.
End dialers.

(** ** The whole *)
Definition unknown_members (known : gmap string string) (group : string) (members : list string) : list Diagnostic :=
  List.concat (imap (fun index member => match known !! member with
    | Some _ => []
    | None => [errorDiagnostic "unknown_reference" (at_index ("proxy-groups[" ++ group ++ "].proxies") index)]
    end) members).
Definition unknown_dialer (known : gmap string string) (proxy dialer : string) : list Diagnostic :=
  match known !! dialer with
  | Some _ => []
  | None => [errorDiagnostic "unknown_dialer_reference" (default ""%string (known !! proxy) ++ ".dialer-proxy")]
  end.
(** strings.EqualFold with an ASCII word: none of its letters has a non-ASCII
    letter that folds to it. *)
Definition is_match (s : string) : bool := (of_bytes (map lower_byte (to_bytes s)) =? "match")%string.
Definition check_rules (p : profile) : list Diagnostic :=
  match p !! "rules"%string with
  | Some (VList (rule :: rules)) =>
      let ok := match last (rule :: rules) with Some (VString rule) => is_match (TrimSpace (Cut rule ",").1) | _ => false end in
      if ok then [] else [errorDiagnostic "terminal_match" (at_index "rules" (length rules))]
  | _ => [errorDiagnostic "invalid_rules" "rules"]
  end.
Definition Validate (raw : option profile) : list Diagnostic :=
  match raw with
  | None => [errorDiagnostic "invalid_yaml" "$"]
  | Some p =>
      let st := {| vk_known := list_to_map (map (fun name => (name, "built-in"%string)) built_in); vk_dialers := ∅; vk_members := ∅; vk_diagnostics := [] |} in
      let st := check_list "invalid_proxies" "proxies" check_proxy p st in
      let st := check_list "invalid_proxy_groups" "proxy-groups" check_group p st in
      vk_diagnostics st ++ List.concat (map (fun gm => unknown_members (vk_known st) gm.1 gm.2) (map_to_list (vk_members st))) ++
      map (fun group => errorDiagnostic "group_cycle" "proxy-groups") (findGroupCycles (vk_members st)) ++
      List.concat (map (fun pd => unknown_dialer (vk_known st) pd.1 pd.2) (map_to_list (vk_dialers st))) ++
      map (fun proxy => errorDiagnostic "dialer_cycle" "proxies") (findDialerCycles (vk_dialers st)) ++
      check_rules p
  end.
Definition HasErrors (diagnostics : list Diagnostic) : bool := match diagnostics with [] => false | _ => true end.
