(* ===== verification/MihomoGraph.v ===== *)
(** * The searches for cycles are exact ([MihomoValidate])

    Colouring depth-first search over [edge]: it reports some node where the
    graph has a cycle and none where it has none. *)
From S2P Require Import Prelude MihomoCompile MihomoValidate.

Lemma tc_weaken {A} (R R' : relation A) x y : (forall a b, R a b -> R' a b) -> tc R x y -> tc R' x y.
Proof. intros HR. induction 1; [by apply tc_once, HR|eapply tc_l; [by apply HR|done]]. Qed.
Section groups.
Variable groups : gmap string (list string).
Definition edge (x y : string) : Prop := exists members, groups !! x = Some members /\ y ∈ members /\ is_Some (groups !! y).
Lemma Acc_no_cycle x : Acc (flip edge) x -> ~ tc edge x x.
Proof.
  induction 1 as [x _ IH]. intros Hx. assert (Hy : exists y, edge x y /\ rtc edge y x) by (inversion Hx; subst; eauto using tc_rtc, rtc_refl).
  destruct Hy as (y & Hxy & Hyx). apply (IH y Hxy). eapply tc_rtc_l; [exact Hyx|by apply tc_once].
Qed.
(** What holds between two calls. *)
Record searching (st : search) : Prop := {
  se_done : st.2 = ∅ -> forall x, st.1 !! x = Some visited -> Acc (flip edge) x;
  se_cycles : forall x, x ∈ st.2 -> tc edge x x
}.
(** What a call leaves as it was, and what it does. *)
Record advances (st st' : search) : Prop := {
  ad_visiting : forall x, st'.1 !! x = Some visiting <-> st.1 !! x = Some visiting;
  ad_visited : forall x, st.1 !! x = Some visited -> st'.1 !! x = Some visited;
  ad_cycles : st.2 ⊆ st'.2
}.
#[export] Instance advances_preorder : PreOrder advances.
Proof.
  split; [by split|]. intros x y z [V1 D1 C1] [V2 D2 C2]. split; [intros k; by rewrite V2, V1|auto|by etransitivity].
Qed.
Definition unseen (st : search) : nat := size ((dom groups : gset string) ∖ dom st.1).
Lemma advances_unseen st st' : advances st st' -> (unseen st' <= unseen st)%nat.
Proof.
  intros [V D _]. unfold unseen. apply subseteq_size. intros x [Hx Hn]%elem_of_difference. apply elem_of_difference. split; [done|]. rewrite not_elem_of_dom in *.
  destruct (st.1 !! x) as [[]|] eqn:E; [|apply D in E; congruence|done]. by apply V in E; congruence.
Qed.
Definition visits (fuel : nat) (st : search) (group : string) : Prop :=
  (unseen st < fuel)%nat -> is_Some (groups !! group) -> (forall g, st.1 !! g = Some visiting -> tc edge g group) -> searching st ->
  let st' := visit_group groups fuel st group in
  searching st' /\ advances st st' /\ (st'.2 = ∅ -> st'.1 !! group = Some visited).
Lemma visit_members fuel (g : string) members st : (forall st m, visits fuel st m) -> (unseen st < fuel)%nat -> (forall m, m ∈ members -> is_Some (groups !! m) -> edge g m) ->
  (forall x, st.1 !! x = Some visiting -> x = g \/ tc edge x g) -> searching st ->
  let st' := foldl (fun st member => if decide (is_Some (groups !! member)) then visit_group groups fuel st member else st) st members in
  searching st' /\ advances st st' /\ (st'.2 = ∅ -> forall m, m ∈ members -> is_Some (groups !! m) -> st'.1 !! m = Some visited).
Proof.
  intros Hv. revert st. induction members as [|m members IH]; intros st Hf He Hg Hs; cbn [foldl].
  { split; [done|]. split; [done|]. by intros _ m ?%elem_of_nil. }
  set (st1 := if decide (is_Some (groups !! m)) then visit_group groups fuel st m else st).
  assert (H1 : searching st1 /\ advances st st1 /\ (st1.2 = ∅ -> is_Some (groups !! m) -> st1.1 !! m = Some visited)).
  { unfold st1. destruct (decide (is_Some (groups !! m))) as [Hm|Hm]; [|by split; [|split]].
    destruct (Hv st m Hf Hm) as (H1 & H2 & H3); [|done|by auto]. intros x Hx. assert (Hgm : edge g m) by (apply He; [left|done]).
    destruct (Hg x Hx) as [->|Ht]; [by apply tc_once|by eapply tc_r]. }
  destruct H1 as (Hs1 & Ha1 & Hd1). destruct (IH st1) as (Hs2 & Ha2 & Hd2); [..|split; [done|split; [by transitivity st1|]]].
  - pose proof (advances_unseen _ _ Ha1). lia.
  - intros m' Hm'. apply He. by right.
  - intros x Hx. apply Hg. by apply (ad_visiting _ _ Ha1).
  - done.
  - intros Hc m' [->|Hm']%elem_of_cons Hsome; [|by apply Hd2]. apply (ad_visited _ _ Ha2), Hd1; [|done].
    pose proof (ad_cycles _ _ Ha2) as Hsub. rewrite Hc in Hsub. set_solver.
Qed.
Lemma visit_group_spec fuel st group : visits fuel st group.
Proof.
  revert st group. induction fuel as [|fuel IH]; intros st group Hf Hg Hgray Hs; [lia|]. cbn [visit_group].
  destruct (st.1 !! group) as [[]|] eqn:E.
  - split; [|split]; cbn.
    + split; cbn; [intros Hc; set_solver|]. intros x [->%elem_of_singleton|Hx]%elem_of_union; [by apply Hgray|by apply Hs].
    + split; cbn; [done|done|set_solver].
    + set_solver.
  - by split; [|split].
  - destruct Hg as [members Em]. rewrite Em. cbn [from_option]. set (st1 := (<[group := visiting]> st.1, st.2)).
    assert (Hlt : (unseen st1 < unseen st)%nat).
    { unfold unseen. apply subset_size. cbn. rewrite dom_insert_L. split; [set_solver|]. intros Hsub. assert (Hin : group ∈ dom groups ∖ dom st.1).
      { apply elem_of_difference. split; [by apply elem_of_dom_2 in Em|by apply not_elem_of_dom]. } set_solver. }
    assert (Hs1 : searching st1).
    { split; cbn; [|apply Hs]. intros Hc x Hx. apply lookup_insert_Some in Hx as [[_ [=]]|[_ Hx]]. by apply (se_done _ Hs). }
    destruct (visit_members fuel group members st1 IH) as (Hs2 & Ha2 & Hd2); [lia|intros m Hm Hsome; by exists members| |done|].
    { cbn. intros x Hx. apply lookup_insert_Some in Hx as [[-> _]|[_ Hx]]; [by left|right; by apply Hgray]. }
    match type of Hs2 with searching ?t => set (st2 := t) in * end.
    change (let st' := (<[group := visited]> st2.1, st2.2) in searching st' /\ advances st st' /\ (st'.2 = ∅ -> st'.1 !! group = Some visited)). cbv zeta. clearbody st2.
    destruct Ha2 as [V2 D2 C2]. split; [|split]; cbn.
    + split; cbn; [|apply Hs2]. intros Hc x Hx. apply lookup_insert_Some in Hx as [[<- _]|[_ Hx]]; [|by apply (se_done _ Hs2)].
      constructor. intros y (members' & E' & Hy & Hsome). assert (members' = members) as -> by congruence. apply (se_done _ Hs2 Hc). by apply Hd2.
    + split; cbn.
      * intros x. destruct (decide (x = group)) as [->|Hne]; [rewrite lookup_insert_eq, E; done|]. rewrite lookup_insert_ne, V2 by done. cbn. by rewrite lookup_insert_ne.
      * intros x Hx. destruct (decide (x = group)) as [->|Hne]; [congruence|]. rewrite lookup_insert_ne by done. apply D2. cbn. by rewrite lookup_insert_ne.
      * exact C2.
    + intros _. apply lookup_insert_eq.
Qed.
(** The search over all groups. *)
Lemma visit_all keys st : (forall k, k ∈ keys -> is_Some (groups !! k)) -> (unseen st < S (size groups))%nat -> (forall x, st.1 !! x <> Some visiting) -> searching st ->
  let st' := foldl (visit_group groups (S (size groups))) st keys in
  searching st' /\ (st'.2 = ∅ -> forall k, k ∈ keys -> st'.1 !! k = Some visited) /\ advances st st'.
Proof.
  revert st. induction keys as [|k keys IH]; intros st Hk Hu Hg Hs; cbn [foldl]; [by split; [|split; [intros _ k ?%elem_of_nil|]]|].
  destruct (visit_group_spec (S (size groups)) st k Hu (Hk k ltac:(left)) ltac:(by intros g ?%Hg) Hs) as (Hs1 & Ha1 & Hd1).
  set (st1 := visit_group groups (S (size groups)) st k) in *. pose proof (advances_unseen _ _ Ha1).
  destruct (IH st1) as (Hs2 & Hd2 & Ha2); [intros k' Hk'; apply Hk; by right|lia|intros x Hx; by apply (ad_visiting _ _ Ha1), Hg in Hx|done|].
  split; [done|]. split; [|by transitivity st1]. intros Hc k' [->|Hk']%elem_of_cons; [|by apply Hd2].
  apply (ad_visited _ _ Ha2), Hd1. pose proof (ad_cycles _ _ Ha2) as Hsub. rewrite Hc in Hsub. set_solver.
Qed.
Lemma findGroupCycles_exact : findGroupCycles groups = [] <-> forall x, ~ tc edge x x.
Proof.
  unfold findGroupCycles. set (keys := (map_to_list groups).*1).
  assert (Hkeys : forall k, k ∈ keys <-> is_Some (groups !! k)).
  { intros k. unfold keys. rewrite list_elem_of_fmap. split.
    - intros ([k' v] & -> & Hin%elem_of_map_to_list). by exists v.
    - intros [v Hv]. exists (k, v). split; [done|by apply elem_of_map_to_list]. }
  destruct (visit_all keys (∅, ∅)) as (Hs & Hd & _).
  - intros k. apply Hkeys.
  - unfold unseen. cbn [fst]. rewrite dom_empty_L, difference_empty_L, size_dom. lia.
  - done.
  - split; [done|set_solver].
  - match type of Hs with searching ?t => set (st := t) in * end. rewrite elements_empty_iff. split.
    + intros He x Hx. assert (st.2 = ∅) as Hc by by apply leibniz_equiv. eapply Acc_no_cycle; [|exact Hx]. apply (se_done _ Hs Hc), (Hd Hc), Hkeys.
      inversion Hx as [? ? (m & E & _)|? ? ? (m & E & _)]; subst; by exists m.
    + intros Hn x. split; [|by intros []%elem_of_empty]. intros Hx. by destruct (Hn x (se_cycles _ Hs x Hx)).
Qed.
End groups.

(** A chain of dialers is a graph with one member each. *)
Section dialers.
Variable dialers : gmap string string.
Definition dials (x y : string) : Prop := dialers !! x = Some y /\ is_Some (dialers !! y).
Definition singletons : gmap string (list string) := (fun next => [next]) <$> dialers.
Lemma singletons_lookup x : singletons !! x = (fun next => [next]) <$> dialers !! x.
Proof. apply lookup_fmap. Qed.
Lemma visit_dialer_group fuel st proxy : visit_dialer dialers fuel st proxy = visit_group singletons fuel st proxy.
Proof.
  revert st proxy. induction fuel as [|fuel IH]; intros st proxy; [done|]. cbn [visit_dialer visit_group]. destruct (st.1 !! proxy) as [[]|]; [done|done|].
  rewrite singletons_lookup. destruct (dialers !! proxy) as [next|]; [|done]. cbn [fmap option_fmap option_map from_option id foldl].
  destruct (decide (is_Some (dialers !! next))) as [Hn|Hn].
  - rewrite decide_True by (rewrite singletons_lookup; by apply fmap_is_Some). by rewrite IH.
  - rewrite decide_False; [done|]. by rewrite singletons_lookup, fmap_is_Some.
Qed.
Lemma findDialerCycles_exact : findDialerCycles dialers = [] <-> forall x, ~ tc dials x x.
Proof.
  assert (E : findDialerCycles dialers = findGroupCycles singletons).
  { unfold findDialerCycles, findGroupCycles. unfold singletons at 2 3. rewrite map_size_fmap, map_to_list_fmap, <- list_fmap_compose.
    assert (Hf : forall keys st, foldl (visit_dialer dialers (S (size dialers))) st keys = foldl (visit_group singletons (S (size dialers))) st keys).
    { induction keys as [|k keys IH]; intros st; [done|]. cbn [foldl]. by rewrite visit_dialer_group, IH. }
    rewrite Hf. done. }
  rewrite E, findGroupCycles_exact. assert (Heq : forall x y, edge singletons x y <-> dials x y).
  { intros x y. unfold edge, dials, singletons. rewrite !lookup_fmap. split.
    - intros (m & Hm & Hy & Hs). apply fmap_Some in Hm as (n & Hn & ->). apply list_elem_of_singleton in Hy as ->. by apply fmap_is_Some in Hs.
    - intros [Hx Hs]. exists [y]. rewrite Hx. split; [done|]. split; [left|by apply fmap_is_Some]. }
  split; intros H x Hx; apply (H x); (eapply tc_weaken; [|exact Hx]); intros a b Hab; by apply Heq.
Qed.
End dialers.
