(* ===== verification/MihomoLists.v ===== *)
(** * Checking the lists of a profile ([MihomoValidate])

    What it takes for [check_proxy] and [check_group] to report nothing, and what
    the tables hold then: the names, the dialer of each proxy and the members of
    each group. *)
From S2P Require Import Prelude GoStrings GoNet.
From S2P Require Import MihomoCompile MihomoValidate.

#[local] Open Scope Z_scope.

(** ** Entries *)
Definition fields_of (v : value) : profile := match v with VMap m => m | _ => ∅ end.
Definition entry_name (v : value) : string := TrimSpace (string_field (fields_of v) "name").
Definition dialer_of (v : value) : option string :=
  match fields_of v !! "dialer-proxy"%string with Some (VString d) => Some (TrimSpace d) | _ => None end.
Definition group_items (v : value) : list value := items_of (fields_of v !! "proxies"%string).
Definition member_of (v : value) : list string := match v with VString s => if (TrimSpace s =? "")%string then [] else [s] | _ => [] end.
Definition members_of (v : value) : list string := List.concat (map member_of (group_items v)).
Definition good_proxy (v : value) : Prop := entry_name v <> ""%string /\
  forall d, fields_of v !! "dialer-proxy"%string = Some d -> exists s, d = VString s /\ TrimSpace s <> ""%string.
Definition good_group (v : value) : Prop := entry_name v <> ""%string /\ forall m, m ∈ group_items v -> exists s, m = VString s /\ TrimSpace s <> ""%string.
Lemma named_map v : entry_name v <> ""%string -> exists m, v = VMap m.
Proof. destruct v; try done. by eexists. Qed.

(** ** One entry checked *)
Definition clean (st : checked) : Prop := vk_diagnostics st = [].
Lemma clean_report d st : ~ clean (report d st).
Proof. unfold clean. cbn. by destruct (vk_diagnostics st). Qed.
Definition dialed (v : value) (st : checked) : checked := match dialer_of v with Some d => dial (entry_name v) d st | None => st end.
Lemma check_proxy_good i v st : good_proxy v -> vk_known st !! entry_name v = None ->
  check_proxy i v st = dialed v (know (entry_name v) (at_index "proxies" i) st).
Proof.
  intros [Hn Hd] Hk. destruct (named_map _ Hn) as [m ->]. unfold check_proxy. change (TrimSpace (string_field m "name")) with (entry_name (VMap m)).
  rewrite (proj2 (String.eqb_neq _ _) Hn), Hk. unfold dialed, dialer_of. cbn [fields_of] in *. destruct (m !! "dialer-proxy"%string) as [d|]; [|done].
  destruct (Hd d eq_refl) as (s & -> & Hs). by rewrite (proj2 (String.eqb_neq _ _) Hs).
Qed.
Lemma check_proxy_clean i v st : clean (check_proxy i v st) <-> clean st /\ good_proxy v /\ vk_known st !! entry_name v = None.
Proof.
  split.
  - destruct v as [| | |m]; try by intros []%clean_report. unfold check_proxy, good_proxy. change (TrimSpace (string_field m "name")) with (entry_name (VMap m)).
    destruct (entry_name (VMap m) =? "")%string eqn:En; [by intros []%clean_report|]. apply String.eqb_neq in En.
    destruct (vk_known st !! entry_name (VMap m)); [by intros []%clean_report|]. cbn [fields_of].
    destruct (m !! "dialer-proxy"%string) as [[|s| |]|]; try by intros []%clean_report.
    + destruct (TrimSpace s =? "")%string eqn:Es; [by intros []%clean_report|]. apply String.eqb_neq in Es. intros Hc. split; [exact Hc|]. split; [|done].
      split; [done|]. intros d [= <-]. by exists s.
    + intros Hc. split; [exact Hc|]. by split.
  - intros (Hc & Hg & Hk). rewrite check_proxy_good by done. unfold dialed. by destruct (dialer_of v).
Qed.
Definition joined (name : string) (members : list string) (st : checked) : checked := foldl (fun st member => join name member st) st members.
Lemma check_members name path i items st : clean (each_from (check_member name path) i items st) <->
  clean st /\ forall m, m ∈ items -> exists s, m = VString s /\ TrimSpace s <> ""%string.
Proof.
  revert i st. induction items as [|v items IH]; intros i st; cbn [each_from].
  { split; [intros Hc; split; [done|by intros m ?%elem_of_nil]|by intros [? _]]. }
  rewrite IH. split.
  - intros [Hc Hin]. assert (Hv : clean st /\ exists s, v = VString s /\ TrimSpace s <> ""%string).
    { destruct v as [|s| |]; cbn in Hc; try by destruct (clean_report _ _ Hc). destruct (TrimSpace s =? "")%string eqn:E; [by destruct (clean_report _ _ Hc)|].
      apply String.eqb_neq in E. split; [exact Hc|]. by exists s. }
    split; [apply Hv|]. intros m [->|Hm]%elem_of_cons; [apply Hv|by apply Hin].
  - intros [Hc Hin]. split; [|intros m Hm; apply Hin; by right]. destruct (Hin v ltac:(left)) as (s & -> & Hs). cbn.
    by rewrite (proj2 (String.eqb_neq _ _) Hs).
Qed.
Lemma check_members_good name path i items st : (forall m, m ∈ items -> exists s, m = VString s /\ TrimSpace s <> ""%string) ->
  each_from (check_member name path) i items st = joined name (List.concat (map member_of items)) st.
Proof.
  revert i st. induction items as [|v items IH]; intros i st Hin; [done|]. cbn [each_from map List.concat].
  rewrite IH by (intros m Hm; apply Hin; by right). destruct (Hin v ltac:(left)) as (s & -> & Hs). cbn. by rewrite (proj2 (String.eqb_neq _ _) Hs).
Qed.
Lemma check_group_clean i v st : clean (check_group i v st) <-> clean st /\ good_group v /\ vk_known st !! entry_name v = None.
Proof.
  split.
  - destruct v as [| | |m]; try by intros []%clean_report. unfold check_group, good_group. change (TrimSpace (string_field m "name")) with (entry_name (VMap m)).
    destruct (entry_name (VMap m) =? "")%string eqn:En; [by intros []%clean_report|]. apply String.eqb_neq in En.
    rewrite check_members. destruct (vk_known st !! entry_name (VMap m)); [by intros [[]%clean_report _]|]. intros [Hc Hm]. split; [exact Hc|]. by split.
  - intros (Hc & [Hn Hm] & Hk). destruct (named_map _ Hn) as [m ->]. unfold check_group. change (TrimSpace (string_field m "name")) with (entry_name (VMap m)).
    rewrite (proj2 (String.eqb_neq _ _) Hn), Hk. by apply check_members.
Qed.
Lemma check_group_good i v st : good_group v -> vk_known st !! entry_name v = None ->
  check_group i v st = joined (entry_name v) (members_of v) (know (entry_name v) (at_index "proxy-groups" i) st).
Proof.
  intros [Hn Hm] Hk. destruct (named_map _ Hn) as [m ->]. unfold check_group. change (TrimSpace (string_field m "name")) with (entry_name (VMap m)).
  rewrite (proj2 (String.eqb_neq _ _) Hn), Hk. by apply check_members_good.
Qed.
Lemma joined_fields name members st : vk_known (joined name members st) = vk_known st /\ vk_dialers (joined name members st) = vk_dialers st /\
  vk_members (joined name members st) = match members with [] => vk_members st | _ => <[name := default [] (vk_members st !! name) ++ members]> (vk_members st) end.
Proof.
  revert st. induction members as [|m members IH]; intros st; [done|]. cbn [joined foldl]. destruct (IH (join name m st)) as (E1 & E2 & E3).
  unfold joined in *. rewrite E1, E2, E3. split; [done|]. split; [done|]. destruct members as [|m2 members]; [done|]. cbn [join vk_members].
  rewrite lookup_insert_eq. cbn [from_option id]. by rewrite insert_insert_eq, <- app_assoc.
Qed.

(** ** A list checked *)
Section each.
Variables (check : nat -> value -> checked -> checked) (good : value -> Prop).
Hypothesis check_clean : forall i v st, clean (check i v st) <-> clean st /\ good v /\ vk_known st !! entry_name v = None.
Hypothesis check_known : forall i v st, good v -> vk_known st !! entry_name v = None ->
  forall n, is_Some (vk_known (check i v st) !! n) <-> n = entry_name v \/ is_Some (vk_known st !! n).
Lemma each_clean i l st : clean (each_from check i l st) <->
  clean st /\ (forall v, v ∈ l -> good v) /\ NoDup (map entry_name l) /\ (forall v, v ∈ l -> vk_known st !! entry_name v = None).
Proof.
  revert i st. induction l as [|v l IH]; intros i st; cbn [each_from map].
  { split; [intros Hc; split; [done|]; split; [by intros v ?%elem_of_nil|]; split; [constructor|by intros v ?%elem_of_nil]|by intros [? _]]. }
  rewrite IH, check_clean. split.
  - intros ((Hc & Hg & Hk) & Hgs & Hnd & Hks). pose proof (check_known i v st Hg Hk) as Hn. split; [done|]. split; [by intros x [->|Hx]%elem_of_cons; [|apply Hgs]|].
    assert (Hf : forall x, x ∈ l -> entry_name x <> entry_name v /\ vk_known st !! entry_name x = None).
    { intros x Hx. specialize (Hks x Hx). apply eq_None_not_Some in Hks. rewrite Hn in Hks. split; [by intros E; apply Hks; left|]. apply eq_None_not_Some. by intros Hs; apply Hks; right. }
    split; [|by intros x [->|Hx]%elem_of_cons; [|apply Hf]]. constructor; [|done].
    intros (x & E & Hx%list_elem_of_In)%list_elem_of_In%in_map_iff. by apply (proj1 (Hf x Hx)).
  - intros (Hc & Hgs & Hnd & Hks). apply NoDup_cons in Hnd as [Hn Hnd]. assert (Hg : good v) by (apply Hgs; left). assert (Hk : vk_known st !! entry_name v = None) by (apply Hks; left).
    split; [done|]. split; [intros x Hx; apply Hgs; by right|]. split; [done|]. intros x Hx. apply eq_None_not_Some. rewrite (check_known i v st Hg Hk). intros [E|Hs].
    + apply Hn. rewrite <- E. by apply list_elem_of_In, in_map, list_elem_of_In.
    + rewrite (Hks x ltac:(by right)) in Hs. by destruct Hs.
Qed.
Lemma each_known i l st : clean (each_from check i l st) -> forall n, is_Some (vk_known (each_from check i l st) !! n) <-> n ∈ map entry_name l \/ is_Some (vk_known st !! n).
Proof.
  revert i st. induction l as [|v l IH]; intros i st Hc n; cbn [each_from map]; [split; [by right|by intros [?%elem_of_nil|]]|].
  cbn [each_from] in Hc. rewrite IH by done. apply each_clean in Hc as (Hv & _). apply check_clean in Hv as (_ & Hg & Hk).
  rewrite (check_known i v st Hg Hk), elem_of_cons. tauto.
Qed.
(** What is kept of each entry. *)
Context {B : Type} (table : checked -> gmap string B) (kept : value -> option B).
Hypothesis check_table : forall i v st, good v -> vk_known st !! entry_name v = None -> table st !! entry_name v = None ->
  table (check i v st) = match kept v with Some b => <[entry_name v := b]> (table st) | None => table st end.
Lemma each_table i l st : clean (each_from check i l st) -> (forall n, is_Some (table st !! n) -> is_Some (vk_known st !! n)) ->
  forall n b, table (each_from check i l st) !! n = Some b <-> (exists v, v ∈ l /\ entry_name v = n /\ kept v = Some b) \/ table st !! n = Some b.
Proof.
  revert i st. induction l as [|v l IH]; intros i st Hc Hk n b; cbn [each_from]; [split; [by right|by intros [(v & ?%elem_of_nil & _)|]]|].
  cbn [each_from] in Hc. assert (Hv := Hc). apply each_clean in Hv as (Hv & _). apply check_clean in Hv as (_ & Hg & Hf).
  assert (Hn : table st !! entry_name v = None) by (apply eq_None_not_Some; intros Hs%Hk; rewrite Hf in Hs; by destruct Hs).
  pose proof (check_table i v st Hg Hf Hn) as Ht. rewrite IH; [|done|].
  - setoid_rewrite elem_of_cons. rewrite Ht. destruct (kept v) as [b'|] eqn:E.
    + rewrite lookup_insert_Some. split.
      * intros [(w & Hw & Hr)|[[<- <-]|[_ Hb]]]; [left; exists w; tauto|left; exists v; tauto|by right].
      * intros [(w & [->|Hw] & <- & Ek)|Hb]; [right; left; split; congruence|left; by exists w|right; right; split; [congruence|done]].
    + split; [intros [(w & Hw & Hr)|Hb]; [left; exists w; tauto|by right]|]. intros [(w & [->|Hw] & <- & Ek)|Hb]; [congruence|left; by exists w|by right].
  - intros m Hm. apply check_known; [done..|]. rewrite Ht in Hm. destruct (kept v); [apply lookup_insert_is_Some in Hm as [<-|[_ Hm]]; [by left|]|]; right; by apply Hk.
Qed.
End each.
Lemma proxy_known i v st : good_proxy v -> vk_known st !! entry_name v = None ->
  forall n, is_Some (vk_known (check_proxy i v st) !! n) <-> n = entry_name v \/ is_Some (vk_known st !! n).
Proof.
  intros Hg Hk n. rewrite check_proxy_good by done. assert (E : vk_known (dialed v (know (entry_name v) (at_index "proxies" i) st)) = <[entry_name v := at_index "proxies" i]> (vk_known st))
    by (unfold dialed; by destruct (dialer_of v)). rewrite E, lookup_insert_is_Some. destruct (decide (entry_name v = n)); naive_solver.
Qed.
Lemma group_known i v st : good_group v -> vk_known st !! entry_name v = None ->
  forall n, is_Some (vk_known (check_group i v st) !! n) <-> n = entry_name v \/ is_Some (vk_known st !! n).
Proof.
  intros Hg Hk n. rewrite check_group_good by done. rewrite (proj1 (joined_fields _ _ _)). cbn [know vk_known]. rewrite lookup_insert_is_Some.
  destruct (decide (entry_name v = n)); naive_solver.
Qed.
Lemma proxy_dialers i v st : good_proxy v -> vk_known st !! entry_name v = None ->
  vk_dialers (check_proxy i v st) = match dialer_of v with Some d => <[entry_name v := d]> (vk_dialers st) | None => vk_dialers st end.
Proof. intros Hg Hk. rewrite check_proxy_good by done. unfold dialed. by destruct (dialer_of v). Qed.
Definition group_list (v : value) : option (list string) := match members_of v with [] => None | ms => Some ms end.
Lemma group_members i v st : good_group v -> vk_known st !! entry_name v = None -> vk_members st !! entry_name v = None ->
  vk_members (check_group i v st) = match group_list v with Some ms => <[entry_name v := ms]> (vk_members st) | None => vk_members st end.
Proof.
  intros Hg Hk Hm. rewrite check_group_good by done. rewrite (proj2 (proj2 (joined_fields _ _ _))). cbn [know vk_members]. rewrite Hm. unfold group_list.
  by destruct (members_of v).
Qed.
(** Checking one list leaves the other's table. *)
Lemma each_keeps {B} (table : checked -> B) (check : nat -> value -> checked -> checked) i l st :
  (forall i v st, table (check i v st) = table st) -> table (each_from check i l st) = table st.
Proof. intros H. revert i st. induction l as [|v l IH]; intros i st; [done|]. cbn [each_from]. by rewrite IH, H. Qed.
Lemma proxy_no_members i v st : vk_members (check_proxy i v st) = vk_members st.
Proof.
  destruct v as [| | |m]; try done. cbn. destruct (TrimSpace _ =? "")%string; [done|]. destruct (vk_known st !! _); [done|].
  destruct (m !! _) as [[|s| |]|]; try done. by destruct (TrimSpace s =? "")%string.
Qed.
Lemma member_no_dialers name path i m st : vk_dialers (check_member name path i m st) = vk_dialers st.
Proof. destruct m as [|s| |]; try done. cbn. by destruct (TrimSpace s =? "")%string. Qed.
Lemma group_no_dialers i v st : vk_dialers (check_group i v st) = vk_dialers st.
Proof.
  destruct v as [| | |m]; try done. unfold check_group. destruct (TrimSpace _ =? "")%string; [done|].
  rewrite (each_keeps vk_dialers (check_member _ _)) by (intros; apply member_no_dialers). by destruct (vk_known st !! _).
Qed.
