(* ===== verification/MihomoSafety.v ===== *)
(** * What a checked profile is ([MihomoValidate], [MihomoCompile])

    [sound_profile] says what a client can rely on: names that mean one thing,
    references that lead somewhere, chains that end, a final rule.  [Validate] has
    nothing to report exactly for these; and what the compiler produces is within
    its limits. *)
From S2P Require Import Prelude GoStrings GoNet Ingest.
From S2P Require Import MihomoCompile MihomoValidate MihomoGraph MihomoLists.

#[local] Open Scope Z_scope.

(** ** Sound profiles *)
Definition all_names (ps gs : list value) : list string := built_in ++ map entry_name ps ++ map entry_name gs.
Definition contains (gs : list value) (x y : string) : Prop := exists v, v ∈ gs /\ entry_name v = x /\ y ∈ members_of v.
Definition dials_to (ps : list value) (x y : string) : Prop := exists v, v ∈ ps /\ entry_name v = x /\ dialer_of v = Some y.
Record sound_profile (p : profile) (ps gs : list value) : Prop := {
  sp_proxies : p !! "proxies"%string = Some (VList ps);
  sp_groups : p !! "proxy-groups"%string = Some (VList gs);
  sp_proxy : forall v, v ∈ ps -> good_proxy v;
  sp_group : forall v, v ∈ gs -> good_group v;
  sp_names : NoDup (all_names ps gs);
  sp_dialers : forall x y, dials_to ps x y -> y ∈ all_names ps gs;
  sp_members : forall x y, contains gs x y -> y ∈ all_names ps gs;
  sp_chains : forall x, ~ tc (dials_to ps) x x;
  sp_nesting : forall x, ~ tc (contains gs) x x;
  sp_match : exists rules rule, p !! "rules"%string = Some (VList rules) /\ last rules = Some (VString rule) /\ is_match (TrimSpace (Cut rule ",").1) = true
}.

(** ** The tables of clean lists *)
Definition no_names : checked :=
  {| vk_known := list_to_map (map (fun name => (name, "built-in"%string)) built_in); vk_dialers := ∅; vk_members := ∅; vk_diagnostics := [] |}.
Definition listed (ps gs : list value) : checked := each_from check_group 0 gs (each_from check_proxy 0 ps no_names).
Lemma built_in_known n : is_Some (vk_known no_names !! n) <-> n ∈ built_in.
Proof.
  change (vk_known no_names) with (list_to_map (map (fun name => (name, "built-in"%string)) built_in) : gmap string string).
  induction built_in as [|b l IH]; cbn; [rewrite lookup_empty, elem_of_nil; split; [by intros []|done]|].
  rewrite lookup_insert_is_Some', elem_of_cons, IH. naive_solver.
Qed.
Lemma check_lists p : vk_diagnostics (check_list "invalid_proxy_groups" "proxy-groups" check_group p (check_list "invalid_proxies" "proxies" check_proxy p no_names)) = [] <->
  exists ps gs, p !! "proxies"%string = Some (VList ps) /\ p !! "proxy-groups"%string = Some (VList gs) /\ clean (listed ps gs).
Proof.
  fold (clean (check_list "invalid_proxy_groups" "proxy-groups" check_group p (check_list "invalid_proxies" "proxies" check_proxy p no_names))).
  unfold check_list at 1. destruct (p !! "proxy-groups"%string) as [[| |gs|]|] eqn:Eg; try by (split; [intros []%clean_report|intros (? & ? & _ & ? & _)]).
  unfold check_list. destruct (p !! "proxies"%string) as [[| |ps|]|] eqn:Ep;
    try by (split; [intros [[]%clean_report _]%(each_clean _ _ check_group_clean group_known)|intros (? & ? & ? & _)]).
  split; [intros Hc; by exists ps, gs|]. by intros (ps' & gs' & [= ->] & [= ->] & Hc).
Qed.
Lemma listed_clean ps gs : clean (listed ps gs) <->
  (forall v, v ∈ ps -> good_proxy v) /\ (forall v, v ∈ gs -> good_group v) /\ NoDup (all_names ps gs).
Proof.
  unfold listed, all_names. rewrite (each_clean _ _ check_group_clean group_known), (each_clean _ _ check_proxy_clean proxy_known), !NoDup_app.
  assert (Hin : forall l v, v ∈ l -> entry_name v ∈ map entry_name l) by (intros l v Hv; by apply list_elem_of_In, in_map, list_elem_of_In).
  assert (Hex : forall l n, n ∈ map entry_name l -> exists v, entry_name v = n /\ v ∈ l) by (intros l n (v & E & Hv%list_elem_of_In)%list_elem_of_In%in_map_iff; by exists v).
  split.
  - intros ((_ & Hp & Hnp & Hfp) & Hg & Hng & Hfg). assert (Hc : clean (each_from check_proxy 0 ps no_names)).
    { by apply (each_clean _ _ check_proxy_clean proxy_known). }
    split; [done|]. split; [done|]. split; [by repeat constructor; vm_compute; set_solver|]. split.
    + intros n Hb%built_in_known [(v & <- & Hv)%Hex|(v & <- & Hv)%Hex]%elem_of_app.
      * rewrite (Hfp v Hv) in Hb. by destruct Hb.
      * specialize (Hfg v Hv). apply eq_None_not_Some in Hfg. apply Hfg. apply (each_known _ _ check_proxy_clean proxy_known); [done|by right].
    + split; [done|]. split; [|done]. intros n Hn (v & <- & Hv)%Hex. specialize (Hfg v Hv). apply eq_None_not_Some in Hfg. apply Hfg.
      apply (each_known _ _ check_proxy_clean proxy_known); [done|by left].
  - intros (Hp & Hg & _ & Hb & Hnp & Hpg & Hng). assert (Hc : clean (each_from check_proxy 0 ps no_names)).
    { apply (each_clean _ _ check_proxy_clean proxy_known). split; [done|]. split; [done|]. split; [done|]. intros v Hv. apply eq_None_not_Some.
      intros Hs%built_in_known. apply (Hb _ Hs), elem_of_app. left. by apply Hin. }
    split; [by apply (each_clean _ _ check_proxy_clean proxy_known) in Hc|]. split; [done|]. split; [done|]. intros v Hv. apply eq_None_not_Some.
    intros [Hs|Hs%built_in_known]%(each_known _ _ check_proxy_clean proxy_known); [|..|done].
    + by apply (Hpg _ Hs), Hin.
    + apply (Hb _ Hs), elem_of_app. right. by apply Hin.
Qed.
Section listed.
Variables ps gs : list value.
Hypothesis Hclean : clean (listed ps gs).
Let proxies_clean : clean (each_from check_proxy 0 ps no_names).
Proof. by apply (each_clean _ _ check_group_clean group_known) in Hclean as []. Qed.
Lemma listed_known n : is_Some (vk_known (listed ps gs) !! n) <-> n ∈ all_names ps gs.
Proof.
  unfold listed, all_names. rewrite (each_known _ _ check_group_clean group_known), (each_known _ _ check_proxy_clean proxy_known), built_in_known by done.
  rewrite !elem_of_app. tauto.
Qed.
Lemma listed_dialers x y : vk_dialers (listed ps gs) !! x = Some y <-> dials_to ps x y.
Proof.
  unfold listed. rewrite (each_keeps vk_dialers check_group) by (intros; apply group_no_dialers).
  rewrite (each_table _ _ check_proxy_clean proxy_known _ _ (fun i v st g k _ => proxy_dialers i v st g k)) by (done || (intros n Hn; by destruct (is_Some_None Hn))). split; [by intros [|]|by left].
Qed.
Lemma listed_groups x ms : vk_members (listed ps gs) !! x = Some ms <-> exists v, v ∈ gs /\ entry_name v = x /\ group_list v = Some ms.
Proof.
  assert (E : vk_members (each_from check_proxy 0 ps no_names) = ∅) by (rewrite (each_keeps vk_members check_proxy); [done|]; intros; apply proxy_no_members).
  unfold listed. rewrite (each_table _ _ check_group_clean group_known _ _ group_members); [|done|rewrite E; intros n Hn; by destruct (is_Some_None Hn)].
  rewrite E. split; [by intros [|]|by left].
Qed.
Lemma listed_contains x y : contains gs x y <-> exists ms, vk_members (listed ps gs) !! x = Some ms /\ y ∈ ms.
Proof.
  setoid_rewrite listed_groups. unfold contains, group_list. split.
  - intros (v & Hv & Hx & Hy). destruct (members_of v) as [|m ms] eqn:E; [by apply elem_of_nil in Hy|]. exists (m :: ms). split; [|done].
    exists v. by rewrite E.
  - intros (ms & (v & Hv & Hx & E) & Hy). exists v. split; [done|]. split; [done|]. destruct (members_of v); [done|]. by injection E as <-.
Qed.
End listed.

(** ** Cycles *)
(** A cycle only passes through nodes that lead somewhere. *)
Lemma tc_through {A} (R R' : relation A) x y : (forall a b c, R a b -> R b c -> R' a b) -> tc R x y -> (exists z, R y z) -> tc R' x y.
Proof.
  intros HR Ht [z Hz]. induction Ht as [x y Hxy|x y w Hxy Ht IH]; [by apply tc_once, (HR _ _ z)|].
  eapply tc_l; [|by apply IH]. inversion Ht; subst; by eapply HR.
Qed.
Lemma acyclic_iff {A} (R R' : relation A) : (forall a b c, R a b -> R b c -> R' a b) -> (forall a b, R' a b -> R a b) ->
  (forall x, ~ tc R' x x) <-> (forall x, ~ tc R x x).
Proof.
  intros H1 H2. split; intros H x Hx; apply (H x); [|by eapply tc_weaken].
  eapply tc_through; [done|exact Hx|]. inversion Hx; subst; eauto.
Qed.

(** ** References *)
Lemma concat_nil {A} (ls : list (list A)) : List.concat ls = [] <-> forall l, l ∈ ls -> l = [].
Proof.
  induction ls as [|l ls IH]; cbn; [split; [by intros _ l ?%elem_of_nil|done]|]. rewrite app_nil, IH. setoid_rewrite elem_of_cons. naive_solver.
Qed.
Lemma unknown_members_nil known group members : unknown_members known group members = [] <-> forall m, m ∈ members -> is_Some (known !! m).
Proof.
  unfold unknown_members. rewrite concat_nil. setoid_rewrite elem_of_lookup_imap. split.
  - intros H m (i & Hi)%list_elem_of_lookup. specialize (H _ (ex_intro _ i (ex_intro _ m (conj eq_refl Hi)))). by destruct (known !! m).
  - intros H l (i & m & -> & Hi%list_elem_of_lookup_2). by destruct (H m Hi) as [? ->].
Qed.
Lemma all_members_nil known (t : gmap string (list string)) :
  List.concat (map (fun gm => unknown_members known gm.1 gm.2) (map_to_list t)) = [] <-> forall x ms m, t !! x = Some ms -> m ∈ ms -> is_Some (known !! m).
Proof.
  rewrite concat_nil. setoid_rewrite list_elem_of_fmap. split.
  - intros H x ms m Hx. apply (proj1 (unknown_members_nil known x ms)). apply H. exists (x, ms). split; [done|by apply elem_of_map_to_list].
  - intros H l ([x ms] & -> & Hx%elem_of_map_to_list). apply unknown_members_nil. intros m. by apply (H x).
Qed.
Lemma all_dialers_nil known (t : gmap string string) :
  List.concat (map (fun pd => unknown_dialer known pd.1 pd.2) (map_to_list t)) = [] <-> forall x y, t !! x = Some y -> is_Some (known !! y).
Proof.
  rewrite concat_nil. setoid_rewrite list_elem_of_fmap. unfold unknown_dialer. split.
  - intros H x y Hx. assert (E := H _ (ex_intro _ (x, y) (conj eq_refl (proj2 (elem_of_map_to_list _ _ _) Hx)))). cbn in E. by destruct (known !! y).
  - intros H l ([x y] & -> & Hx%elem_of_map_to_list). cbn. by destruct (H x y Hx) as [? ->].
Qed.
Lemma map_nil {A B} (f : A -> B) l : map f l = [] <-> l = [].
Proof. by destruct l. Qed.
Lemma check_rules_nil p : check_rules p = [] <->
  exists rules rule, p !! "rules"%string = Some (VList rules) /\ last rules = Some (VString rule) /\ is_match (TrimSpace (Cut rule ",").1) = true.
Proof.
  unfold check_rules. destruct (p !! "rules"%string) as [[| |[|r rules]|]|]; try by (split; [|intros (? & ? & [=] & ?)]).
  { split; [done|]. by intros (rules & rule & [= <-] & ? & _). }
  destruct (last (r :: rules)) as [[|rule| |]|] eqn:E; try by (split; [|intros (l & rule & [= <-] & El & _); congruence]).
  destruct (is_match (TrimSpace (Cut rule ",").1)) eqn:Em; (split; [|intros (l & rule' & [= <-] & El & Hm); rewrite E in El; injection El as <-; congruence]); [|done].
  intros _. by exists (r :: rules), rule.
Qed.

(** ** Validation *)
Lemma Validate_nil p : Validate (Some p) = [] <-> exists ps gs, p !! "proxies"%string = Some (VList ps) /\ p !! "proxy-groups"%string = Some (VList gs) /\
  clean (listed ps gs) /\ (forall x ms m, vk_members (listed ps gs) !! x = Some ms -> m ∈ ms -> is_Some (vk_known (listed ps gs) !! m)) /\
  findGroupCycles (vk_members (listed ps gs)) = [] /\ (forall x y, vk_dialers (listed ps gs) !! x = Some y -> is_Some (vk_known (listed ps gs) !! y)) /\
  findDialerCycles (vk_dialers (listed ps gs)) = [] /\ check_rules p = [].
Proof.
  unfold Validate. rewrite app_nil, check_lists. split.
  - intros [(ps & gs & Ep & Eg & Hc) H]. exists ps, gs. split; [done|]. split; [done|]. split; [done|]. revert H. unfold check_list. rewrite Ep, Eg.
    by rewrite !app_nil, all_members_nil, all_dialers_nil, !map_nil.
  - intros (ps & gs & Ep & Eg & Hc & H). split; [by exists ps, gs|]. unfold check_list. rewrite Ep, Eg.
    by rewrite !app_nil, all_members_nil, all_dialers_nil, !map_nil.
Qed.
Lemma members_acyclic ps gs : clean (listed ps gs) -> findGroupCycles (vk_members (listed ps gs)) = [] <-> forall x, ~ tc (contains gs) x x.
Proof.
  intros Hc. rewrite findGroupCycles_exact. apply acyclic_iff; unfold edge.
  - intros a b c (ms & Ha & Hb)%(listed_contains _ _ Hc) (ms' & Hb' & _)%(listed_contains _ _ Hc). by exists ms.
  - intros a b (ms & Ha & Hb & _). apply (listed_contains _ _ Hc). by exists ms.
Qed.
Lemma dialers_acyclic ps gs : clean (listed ps gs) -> findDialerCycles (vk_dialers (listed ps gs)) = [] <-> forall x, ~ tc (dials_to ps) x x.
Proof.
  intros Hc. rewrite findDialerCycles_exact. apply acyclic_iff; unfold dials.
  - intros a b c Ha%(listed_dialers _ _ Hc) Hb%(listed_dialers _ _ Hc). by split.
  - intros a b [Ha _]. by apply (listed_dialers _ _ Hc).
Qed.

(** C11: [Validate] reports nothing exactly for the sound profiles: every proxy and
    group has a name of its own that is no built-in one, every dialer and member
    is the name of something there is, no chain of dialers and no nesting of
    groups comes back to itself, and the rules end in MATCH. *)
Theorem validation_is_exact p : Validate (Some p) = [] <-> exists ps gs, sound_profile p ps gs.
Proof.
  rewrite Validate_nil. split.
  - intros (ps & gs & Ep & Eg & Hc & Hm & Hgc & Hd & Hdc & Hr). exists ps, gs. destruct (proj1 (listed_clean ps gs) Hc) as (Hp & Hg & Hn).
    split; [done|done|done|done|done|..].
    + intros x y Hxy%(listed_dialers _ _ Hc). apply (proj1 (listed_known _ _ Hc y)), (Hd x y), Hxy.
    + intros x y (ms & Hx & Hy)%(listed_contains _ _ Hc). apply (proj1 (listed_known _ _ Hc y)), (Hm x ms y); done.
    + by apply (proj1 (dialers_acyclic _ _ Hc)).
    + by apply (proj1 (members_acyclic _ _ Hc)).
    + by apply check_rules_nil.
  - intros (ps & gs & H). exists ps, gs. assert (Hc : clean (listed ps gs)) by (apply listed_clean; split; [apply H|]; split; apply H).
    split; [apply H|]. split; [apply H|]. split; [done|]. split; [|split; [apply members_acyclic; [done|apply H]|split; [|split; [apply dialers_acyclic; [done|apply H]|apply check_rules_nil, H]]]].
    + intros x ms m Hx Hm. apply (listed_known _ _ Hc), (sp_members _ _ _ H x), (listed_contains _ _ Hc). by exists ms.
    + intros x y Hxy. by apply (listed_known _ _ Hc), (sp_dialers _ _ _ H x), (listed_dialers _ _ Hc).
Qed.

(** Finding: a proxy that dials through a group which has it as a member passes;
    the two searches never look at one another's edges. *)
Definition entangled : profile := list_to_map [
  ("proxies", VList [VMap (list_to_map [("name", VString "a"); ("dialer-proxy", VString "g")])]);
  ("proxy-groups", VList [VMap (list_to_map [("name", VString "g"); ("proxies", VList [VString "a"])])]);
  ("rules", VList [VString "MATCH,g"])]%string.
Definition leads_to (ps gs : list value) (x y : string) : Prop := dials_to ps x y \/ contains gs x y.
Theorem entangled_chain_passes : Validate (Some entangled) = [] /\
  forall ps gs, entangled !! "proxies"%string = Some (VList ps) -> entangled !! "proxy-groups"%string = Some (VList gs) -> tc (leads_to ps gs) "a"%string "a"%string.
Proof.
  split; [by vm_compute|]. intros ps gs Ep Eg. vm_compute in Ep, Eg. injection Ep as <-. injection Eg as <-. apply tc_l with "g"%string.
  - left. eexists. split; [left|]. by vm_compute.
  - apply tc_once. right. eexists. split; [left|]. split; [by vm_compute|left].
Qed.
