(* ===== verification/MihomoBounds.v ===== *)
(** * The limits of the compiler ([MihomoCompile])

    What [Compile] returns is within the limits, for whatever the rewrites and
    the scripts do; the number of log lines is not limited. *)
From S2P Require Import Prelude GoStrings GoNet Ingest MihomoCompile.

#[local] Open Scope Z_scope.

Lemma size_of_nonneg s : 0 <= size_of s.
Proof. unfold size_of. lia. Qed.
Lemma size_of_app s t : size_of (s ++ t) = size_of s + size_of t.
Proof. unfold size_of. rewrite str_length_app. lia. Qed.
Lemma size_of_bytes l : size_of (of_bytes l) = Z.of_nat (length l).
Proof. unfold size_of. by rewrite <- to_bytes_length, to_of_bytes. Qed.
Lemma truncateUTF8_size v n : 0 <= n -> size_of (truncateUTF8 v n) <= n.
Proof.
  intros Hn. unfold truncateUTF8. destruct (Z.leb_spec (size_of v) n); [done|]. destruct (cut_valid_prefix (Z.to_nat n) (to_bytes v)) as (k & Hk & ->).
  rewrite size_of_bytes, length_take. lia.
Qed.

(** ** The log *)
Definition log_bytes (logs : list LogEntry) : Z := foldr (fun e n => size_of (le_Message e) + n) 0 logs.
Definition marker_bytes : Z := size_of " [truncated]".
Lemma log_bytes_snoc logs e : log_bytes (logs ++ [e]) = log_bytes logs + size_of (le_Message e).
Proof. unfold log_bytes. induction logs as [|x logs IH]; cbn in *; [lia|]. rewrite IH. lia. Qed.
#[local] Arguments log_bytes : simpl never.
(** While there is room the bytes are counted exactly; the entry that fills it is
    cut to the room there is and marked. *)
Definition log_ok (l : Limits) (logs : list LogEntry * Z) : Prop :=
  log_bytes logs.1 = logs.2 /\ logs.2 <= lm_MaxLogBytes l \/ logs.2 = lm_MaxLogBytes l /\ log_bytes logs.1 <= lm_MaxLogBytes l + marker_bytes.
Lemma appendLog_ok l logs e : log_ok l logs -> log_ok l (appendLog l logs e).
Proof.
  destruct logs as [entries used]. unfold appendLog. destruct (Z.leb_spec (lm_MaxLogBytes l) used) as [|Hu]; [done|]. intros [[Hb Hle]|[Hb _]]; cbn in Hb; [cbn in Hle|lia].
  destruct (Z.ltb_spec (lm_MaxLogBytes l - used) (size_of (le_Message e))) as [Hlt|Hge].
  - right. split; [done|]. cbn. rewrite log_bytes_snoc. cbn. rewrite size_of_app. fold marker_bytes.
    pose proof (truncateUTF8_size (le_Message e) (lm_MaxLogBytes l - used)). unfold marker_bytes. lia.
  - left. cbn. rewrite log_bytes_snoc. lia.
Qed.
Lemma log_ok_bound l logs : log_ok l logs -> log_bytes logs.1 <= lm_MaxLogBytes l + marker_bytes.
Proof. intros [[-> H]|[_ H]]; [|done]. pose proof (size_of_nonneg " [truncated]"). unfold marker_bytes. lia. Qed.

Section compile.
Variables (unmarshal : string -> option value) (marshal : profile -> option string) (json_object : string -> option profile).
Variable script : string -> profile -> list (string * string) * script_end.
Variable canceled : nat -> bool.
Variable order : profile -> list (string * value).
Variable limits : Limits.
Abbreviation compile := (Compile unmarshal marshal json_object script canceled order limits).
Lemma runJavaScript_log p rw logs p' logs' : runJavaScript json_object script limits p rw logs = Ok (p', logs') -> log_ok limits logs -> log_ok limits logs'.
Proof.
  unfold runJavaScript. destruct (script (rw_Content rw) p) as [lines []]; try done. destruct (_ <? _); [done|]. destruct (json_object json); [|done].
  intros [= -> <-] Hl. revert logs Hl. induction lines as [|x lines IH]; intros logs Hl; [done|]. cbn [foldl]. by apply IH, appendLog_ok.
Qed.
Abbreviation rewrite_step := (apply_rewrite unmarshal marshal json_object script canceled order limits).
Lemma apply_rewrite_log i p rw logs p' logs' : rewrite_step i p rw logs = Ok (p', logs') -> log_ok limits logs -> log_ok limits logs'.
Proof.
  unfold apply_rewrite. destruct (canceled i); [done|]. destruct (_ <? _); [done|]. destruct (rw_Kind rw); [..|done].
  - destruct (decodeProfile _ _); [|done]. cbn. destruct (encode _ _ _ _); [|done]. cbn. by intros [= _ <-].
  - destruct (runJavaScript _ _ _ p rw logs) as [[p1 logs1]|] eqn:E; [|done]. cbn. destruct (encode _ _ _ _); [|done]. cbn. intros [= _ <-]. by eapply runJavaScript_log.
Qed.
Lemma apply_rewrites_log i p rws logs p' logs' : apply_rewrites unmarshal marshal json_object script canceled order limits i p rws logs = Ok (p', logs') ->
  log_ok limits logs -> log_ok limits logs'.
Proof.
  revert i p logs. induction rws as [|rw rws IH]; intros i p logs; cbn [apply_rewrites]; [by intros [= _ <-]|].
  destruct (rewrite_step i p rw logs) as [[p1 logs1]|] eqn:E; [|done]. cbn. intros H Hl. apply (IH _ _ _ H). by eapply apply_rewrite_log.
Qed.
Lemma apply_rewrites_sources i p rws logs p' logs' : apply_rewrites unmarshal marshal json_object script canceled order limits i p rws logs = Ok (p', logs') ->
  Forall (fun rw => size_of (rw_Content rw) <= lm_MaxSourceBytes limits) rws.
Proof.
  revert i p logs. induction rws as [|rw rws IH]; intros i p logs; cbn [apply_rewrites]; [by constructor|].
  destruct (rewrite_step i p rw logs) as [[p1 logs1]|] eqn:E; [|done]. cbn. intros H. constructor; [|by eapply IH].
  unfold apply_rewrite in E. destruct (canceled i); [done|]. by destruct (Z.ltb_spec (lm_MaxSourceBytes limits) (size_of (rw_Content rw))).
Qed.
Lemma encode_size p name s : encode marshal limits p name = Ok s -> size_of s <= lm_MaxOutputBytes limits.
Proof. unfold encode. destruct (marshal p); [|done]. destruct (Z.ltb_spec (lm_MaxOutputBytes limits) (size_of s0)); [done|]. by intros [= <-]. Qed.
End compile.

(** C33: Whatever the rewrites and the scripts do, a compiled profile is within the
    limits (the defaults where a limit is not positive): the base profile, the
    source of every rewrite, the YAML, and the bytes of its log up to the mark on
    a cut entry. *)
Theorem compiled_profile_is_bounded unmarshal marshal json_object script canceled order l base rewrites r
  (Hr : Compile unmarshal marshal json_object script canceled order (NewCompiler l) base rewrites = Ok r) :
  size_of base <= lm_MaxInputBytes (NewCompiler l) /\ Forall (fun rw => size_of (rw_Content rw) <= lm_MaxSourceBytes (NewCompiler l)) rewrites /\
  size_of (cr_YAML r) <= lm_MaxOutputBytes (NewCompiler l) /\
  log_bytes (cr_Logs r) <= lm_MaxLogBytes (NewCompiler l) + marker_bytes.
Proof.
  unfold Compile in Hr. destruct (Z.ltb_spec (lm_MaxInputBytes (NewCompiler l)) (size_of base)) as [|Hin]; [done|].
  destruct (decodeProfile unmarshal base) as [p|]; [|done].
  destruct (apply_rewrites _ _ _ _ _ _ _ 0 p rewrites ([], 0)) as [[p' logs]|] eqn:E; [|done]. cbn in Hr.
  destruct (encode _ _ p' "") as [yaml|] eqn:Ee; [|done]. cbn in Hr. injection Hr as <-. split; [done|]. split; [by eapply apply_rewrites_sources|]. split; [by eapply encode_size|].
  apply (log_ok_bound (NewCompiler l) logs). eapply apply_rewrites_log; [exact E|]. left. cbn. split; [done|]. destruct (Z.leb_spec (lm_MaxLogBytes l) 0); cbn; lia.
Qed.

(** A YAML parser that knows two texts, and a script that logs more than it may. *)
Definition sample_unmarshal (text : string) : option value := if (text =? "{}")%string then Some (VMap ∅) else None.
Definition sample_marshal (p : profile) : option string := Some "{}"%string.
Definition sample_script (text : string) (p : profile) : list (string * string) * script_end := ([("info", "hello"); ("info", "world"); ("info", "!")]%string, Returns "{}").
Definition sample_limits : Limits := {| lm_MaxSourceBytes := 0; lm_MaxInputBytes := 10; lm_MaxOutputBytes := -1; lm_MaxLogBytes := 7 |}.
Definition sample_rewrites : list Rewrite := [{| rw_Name := "js"; rw_Kind := RewriteJavaScript; rw_Content := "main = p => p" |}].
Definition sample_result : CompileResult := {| cr_YAML := "{}"; cr_Logs := [
  {| le_Rewrite := "js"; le_Level := "info"; le_Message := "hello" |}; {| le_Rewrite := "js"; le_Level := "info"; le_Message := "wo [truncated]" |}] |}.
Lemma compiled_profile_is_bounded_witness :
  Compile sample_unmarshal sample_marshal (fun _ => Some ∅) sample_script (fun _ => false) map_to_list (NewCompiler sample_limits) "{}" sample_rewrites = Ok sample_result /\
  log_bytes (cr_Logs sample_result) = 19 /\ log_bytes (cr_Logs sample_result) <= 7 + marker_bytes.
Proof.
  assert (H : Compile sample_unmarshal sample_marshal (fun _ => Some ∅) sample_script (fun _ => false) map_to_list (NewCompiler sample_limits) "{}" sample_rewrites = Ok sample_result) by by vm_compute.
  split; [exact H|]. split; [by vm_compute|]. exact (proj2 (proj2 (proj2 (compiled_profile_is_bounded _ _ _ _ _ _ _ _ _ _ H)))).
Defined.

(** Finding: the limit counts the bytes of messages, so a script that logs nothing
    but empty lines logs as many as it likes. *)
Theorem empty_lines_are_not_limited l n : 0 < lm_MaxLogBytes l ->
  length (foldl (fun logs line => appendLog l logs {| le_Rewrite := "js"; le_Level := "info"; le_Message := line |}) ([], 0) (replicate n ""%string)).1 = n.
Proof.
  intros Hl. assert (H : forall k, foldl (fun logs line => appendLog l logs {| le_Rewrite := "js"; le_Level := "info"; le_Message := line |}) (replicate k {| le_Rewrite := "js"; le_Level := "info"; le_Message := "" |}, 0) (replicate n ""%string)
    = (replicate (k + n) {| le_Rewrite := "js"; le_Level := "info"; le_Message := "" |}, 0)).
  { induction n as [|n IH]; intros k; cbn [replicate foldl]; [by rewrite Nat.add_0_r|]. unfold appendLog at 2. destruct (Z.leb_spec (lm_MaxLogBytes l) 0); [lia|].
    cbn [le_Message]. change (size_of "") with 0. destruct (Z.ltb_spec (lm_MaxLogBytes l - 0) 0); [lia|]. rewrite <- replicate_S_end, Z.add_0_r, IH. by rewrite Nat.add_succ_comm. }
  pose proof (H 0%nat) as E. cbn [replicate Nat.add] in E. rewrite E. cbn [fst]. by rewrite length_replicate.
Qed.
